(* ===== verification/_CoqProject ===== *)
-Q . S2P
Prelude.v
Scan.v
HttpRequest.v
NgxHashKey.v
HttpRequestLine.v
HttpHeaderLine.v
NgxHash.v
NgxHashLayout.v
NgxHashFind.v
NgxNumber.v
NgxSprintf.v
NgxTimes.v
NgxParseTime.v
NgxHttpTime.v
HttpUri.v
NgxEscape.v
NgxBase64.v
HttpUnsafeUri.v
Http2HuffTables.v
Http2Huff.v
Http2Table.v
Http2Block.v
Http2BlockLoop.v
Http2BlockSafe.v
Http2BlockWrite.v
Http2BlockFrames.v
HttpChunked.v
HttpChunkedBody.v
HttpRange.v
HttpRangeReply.v
HttpRangeBody.v
NgxRbtree.v
NgxRbtreeShape.v
NgxRbtreeInsert.v
NgxRbtreeDelete.v
NgxRbtreeRemove.v
NgxRbtreeTrace.v
NgxEventTimer.v
NgxEventTimerSpec.v
NgxQueue.v
NgxCrc32.v
NgxSlab.v
NgxSlabLayout.v
NgxSlabSegs.v
NgxSlabPages.v
NgxSlabFree.v
NgxSlabChunks.v
NgxSlabBits.v
NgxSlabAlloc.v
NgxSlabTake.v
NgxSlabGive.v
NgxSlabSpec.v
NgxSlabErrors.v
HttpLimitReq.v
HttpLimitReqZone.v
HttpLimitReqSlab.v
HttpLimitReqTrace.v
HttpLimitReqHandler.v
HttpUpstreamRR.v
HttpUpstreamFair.v
HttpUpstreamSystem.v
ZendSort.v
ZendHash.v
ZendHashList.v
ZendHashOps.v
ZendHashMap.v
ZendHashDel.v
ZendHashIter.v
ZendHashTrace.v
ZendHashSort.v
ZendHashApply.v
ZendHashDup.v
ZendSymtable.v
ZendHashMerge.v
