(* ===== verification/Prelude.v ===== *)
(** * nginx 1.12.0 and PHP 7.1.3: request path, codecs, hash tables

    This library models, in functional form, the part of nginx
    (src/nginx-release-1.12.0/src) that turns the bytes of a client into the
    fields of a request, over HTTP/1 and HTTP/2, the bodies that are framed and
    unframed around it, the choice of the server that it is passed to, the limit
    on the rate of requests, and the allocator of shared memory, the trees,
    queues, tables and string codecs that those parts use; and it proves what
    they promise.
    Of PHP 7.1.3 (src/php-src-php-7.1.3), an independent program in the same
    repository, it models the data structure that the Zend engine rests on: the
    ordered hash table behind arrays and symbol tables, and its sorting routine.

    ** Conventions

    Integers of C are [Z]; where an operation can leave the range of its type
    the wrap ([u8], [u16], [u32], [u64]) is written out.  Pointers into a buffer
    are addresses in a flat memory [Z -> Z] ([load], [holds], [slice]); strings
    that are only read or written in order are lists of bytes.  A function that
    updates a request takes and returns the record [HttpRequest.request].  A
    [goto] or [return] out of a loop is an exit value.  [None] stands for a call
    outside the domain of the function (a state number that the machine does
    not have) or for exhausted fuel, and theorems exclude it.

    Fuel: the byte loops are run by [Scan.scan] with [Scan.scan_fuel], one turn
    for every byte and for every step back of the cursor; [Scan.scan_iff] shows
    that this is enough, once and for all.  [HttpUri.cu_loop] has its own
    measure ([cu_measure]: two turns for every byte), [chunked_buf_loop] takes
    at most one turn for every byte and one for the end of the buffer, [range_loop]
    one for every byte; all are shown to return.  The loops of the HPACK table ([account_loop],
    [size_loop]) run over the entries there are; the read handler of HTTP/2
    takes at most three turns for every byte and two more ([drive_fuel],
    [step_progresses]); an integer has at most ten octets ([write_octets]).
    A walk over a collision chain has one turn for every bucket in use
    ([chain_fuel], [walk_chain]); [zend_sort] nests as deep as the logarithm of
    the number of elements, 28 calls for the largest table.  The loops down or
    up a red-black tree have 160 turns ([rb_fuel]): a tree whose nodes lie at
    different 64-bit addresses is at most 130 high ([fits_height]).  Timers
    expire in as many turns as there are timers that are due, [expire_ends];
    the expiry of limits removes at most three entries.  The search for free
    pages has a turn for every page ([pages_fuel], [find_pages_loop]), that in a
    bit map one for every word and bit ([word_loop_ok], [bit_loop_ok]).

    ** Files

    - Prelude: notation for characters, machine integers, return codes, memory,
      bit fields, the tactics [setter] and [by_decide].
    - Scan: the loop that the incremental parsers share, as a function and as a
      relation, with determinism, resumption, invariants and termination.
    - HttpRequest: the fields of [ngx_http_request_s] and the character table of
      http/ngx_http_parse.c.
    - NgxHashKey: case folding and name hashes (core/ngx_hash.c, core/ngx_string.h).
    - HttpRequestLine, HttpHeaderLine, HttpUri, HttpUnsafeUri, HttpChunked: the
      functions [ngx_http_parse_request_line], [_header_line], [_uri],
      [_complex_uri], [_unsafe_uri] and [_chunked] of http/ngx_http_parse.c, one
      definition for each state of their machines.
    - HttpChunkedBody: the users of the chunked coding,
      [ngx_http_chunked_body_filter] (http/modules/ngx_http_chunked_filter_module.c)
      and [ngx_http_request_body_chunked_filter] (http/ngx_http_request_body.c).
    - HttpRange, HttpRangeReply, HttpRangeBody: both filters of
      http/modules/ngx_http_range_filter_module.c: the Range header and its
      parser; the headers of a partial response; the body, on chains of buffers
      in memory and in files.
    - NgxNumber, NgxSprintf, NgxEscape, NgxBase64: the number, format, escape
      and base64 functions of core/ngx_string.c.
    - NgxTimes, NgxParseTime, NgxHttpTime: the calendar of core/ngx_times.c, the
      date parser of core/ngx_parse_time.c, and the dates that go from one to
      the other.
    - Http2HuffTables, Http2Huff: the tables and the code of the HPACK Huffman
      codec (http/v2/ngx_http_v2_huff_decode.c, ngx_http_v2_huff_encode.c).
    - Http2Table: the HPACK header table (http/v2/ngx_http_v2_table.c).
    - Http2Block: the handlers of a header block, from
      [ngx_http_v2_state_header_block] to [ngx_http_v2_handle_continuation], and
      the read loop (http/v2/ngx_http_v2.c), with what
      http/v2/ngx_http_v2_filter_module.c writes; Http2BlockLoop,
      Http2BlockSafe, Http2BlockWrite and Http2BlockFrames prove it: the loop,
      the invariant, reading back, several frames.
    - HttpUpstreamRR: the choice of an upstream server
      (http/ngx_http_upstream_round_robin.c); HttpUpstreamFair and
      HttpUpstreamSystem prove its fairness and its invariant, and that the tries
      of a request, which end as in http/ngx_http_upstream.c, are with distinct
      peers.
    - NgxRbtree: the red-black tree (core/ngx_rbtree.c, ngx_rbtree.h) on a memory
      of nodes.  NgxRbtreeShape has the functional trees, the relation of the
      memory to them and the zipper to a node; NgxRbtreeInsert, NgxRbtreeDelete
      and NgxRbtreeRemove the two fix-ups and the removal; NgxRbtreeTrace ordered
      lists and sequences of operations, for any order that is weak
      ([WeakOrder], an interface to the users of the tree).
    - NgxEventTimer: timers (event/ngx_event_timer.c, ngx_event_timer.h) on the
      tree; NgxEventTimerSpec their specification.
    - NgxQueue: the queue (core/ngx_queue.c, ngx_queue.h) on a memory of links.
    - NgxCrc32: the check sum (core/ngx_crc32.c, ngx_crc32.h).
    - NgxSlab: the allocator of shared memory (core/ngx_slab.c, ngx_slab.h), with
      the descriptors and list heads of a pool in one memory and the bit maps in
      another.  NgxSlabLayout has lists with tagged links, NgxSlabSegs the
      segments that describe the pages and the blocks in use, NgxSlabPages the
      invariant and the taking of pages, NgxSlabFree the free of pages and the
      two joins, NgxSlabChunks the list of a page of chunks, NgxSlabBits masks,
      NgxSlabAlloc chunks that are taken, NgxSlabTake allocations, NgxSlabGive
      frees, NgxSlabSpec new pools and sequences of allocations and frees,
      NgxSlabErrors the frees that are refused.
    - HttpLimitReq: http/modules/ngx_http_limit_req_module.c, with a zone made of
      a tree, a queue and entries from an allocator ([Slab], an interface, which
      HttpLimitReqSlab shows that NgxSlab satisfies).
      HttpLimitReqZone has the relation [rep] of a zone to the list of its
      entries, HttpLimitReqTrace processes that share a zone, and the rate,
      HttpLimitReqHandler the handler.
    - NgxHash: [ngx_hash_init] and [ngx_hash_find] (core/ngx_hash.c) on a flat
      memory; NgxHashLayout and NgxHashFind prove the layout of the block, the
      number of buckets and the search.
    - ZendSort: [zend_sort] and [zend_insert_sort] (Zend/zend_sort.c).
    - ZendHash: the hash table (Zend/zend_hash.c), packed or with chains:
      initialisation, growth, rehashing, search, insertion, deletion.
      ZendHashList has the facts on buckets, entries and chains, ZendHashOps the
      ordered map ([amap]), the relation [repr] of a table to its map and
      rehashing, ZendHashMap growth, search and insertion, ZendHashDel deletion,
      ZendHashIter the internal pointer, ZendHashTrace sequences of operations
      and well-formedness, ZendHashSort [zend_hash_sort_ex], ZendHashApply
      callbacks on all entries, ZendHashDup copies, ZendHashMerge merges.
    - ZendSymtable: integer-like strings as keys, the [zend_symtable_*]
      functions (Zend/zend_hash.h).

    ** What the theorems show

    - Incremental parsing: reading a request line or a header line in pieces
      gives what reading it at once gives ([parse_request_line_resume],
      [parse_header_line_resume]); the parsers always return.
    - Injection safety: the parts of an accepted line lie in the consumed input,
      in order, and hold no NUL, CR or LF ([parse_request_line_positions],
      [parse_header_line_accepted]); the unsafe-URI check accepts exactly the
      paths without NUL and dot-dot segments, but for the last segment before
      arguments ([unsafe_uri_safe]).
    - Normalisation: the in-place URI machine computes a segment stack
      ([complex_uri_normalizes]), within its buffers, and the fast pass that
      decides to skip it is right ([parse_uri_simple]).
    - Bodies: what the chunked writer writes the chunked reader reads, however
      the bytes are cut ([chunked_roundtrip]); sizes do not overflow, and the
      length estimate never asks for more bytes than the body has.
    - Byte ranges: the filter answers the notations of RFC 7233, without tabs,
      empty list elements and numbers from 2^63 on ([range_refused]), with the
      ranges they select ([range_header_reply]); it sends exactly the bytes of one
      range however the content is buffered ([singlepart_body_slice]), several
      from a content in one buffer, and announces the number of bytes it sends
      ([partial_response]); on any bytes the parser ends, within
      bounds that hold up to a wrap of the sum of the sizes
      ([range_parse_bounds], and [range_parse_wraps] for the wrap).
    - Codecs: round trips, output lengths against the counting passes and
      allocation macros, exact error conditions of the number parsers.
      The Huffman automaton is the decoder of the bit strings that the encoder
      writes ([huff_decode_spec], [huff_roundtrip]); the format interpreter
      stays in its buffer and truncates ([vslprintf_truncates]).
    - Dates: [ngx_gmtime] is the calendar counted day by day
      ([gmtime_correct]), the parser accepts the three formats of HTTP
      ([parse_http_time_accepts]) and only texts of dates, whose moment it
      computes, but for day 0 and the first months of the year 0
      ([parse_http_time_sound]), and reads back what is printed.
    - HTTP/2: the ring buffer of the header table is the list of RFC 7541, but for
      size updates before the first insertion, which the code forgets
      ([hpack_table_refines], [hpack_size_update_lost]); the header block handlers end on every input,
      wherever recv cuts it ([header_block_cuts]), stay inside their buffers
      ([header_block_safe]), take a frame and its continuations as one
      ([header_block_frames]), and read back what the server's own functions
      write as RFC 7541 has it, with the same exception
      ([headers_frame_roundtrip], [early_update_read]).
    - Upstreams: the smooth choice gives each healthy server its share
      ([round_robin_fair]); over any number of requests the weights, the
      connection counts and the bit maps stay right ([round_robin_invariant]),
      and no request takes a peer twice ([round_robin_tries]).
    - Static hashes: a search gives the first equal name ([hash_find_first]),
      the table stays in its block ([hash_init_in_block]) and has the smallest
      size that fits ([hash_size_smallest]), as far as bucket sizes fit 16 bits.
    - Red-black trees: insertion, deletion with its four cases, minimum and
      successor are those of an ordered list, equal keys in the order of
      insertion ([rbtree_refines]), also for timer keys that wrap around
      ([rbtree_timer_refines]).
    - Timers: timers fire in the order of the time that is left, across wraps of
      the clock ([timers_refine]), and a round of expiry ends ([expire_ends]).
    - Shared memory: blocks that are in use lie apart, in the pool, aligned and
      large enough, in any order of allocations and frees ([slab_blocks_apart]);
      without any, the pages are one run again ([slab_all_free]); an allocation
      returns, and a small one fails only without a free page
      ([slab_alloc_returns]); a free of another address is refused
      ([slab_free_other]), but for that of a bit map ([slab_free_bitmap]).
    - Request limits: processes that share a zone see a list of entries in the
      order of use, and none is left with an entry that is freed
      ([limit_req_refines]); the rate is kept while clocks do not go back
      ([limit_req_rate], [limit_req_clocks_apart]); for a request with several
      limits the handler looks up, releases and accounts in each zone what it
      should, and gives back what it takes, but for a key that cannot be
      evaluated ([limit_req_handler_balanced], [limit_req_key_error]).  Below
      them, the sort of a queue is stable ([queue_sort_stable]) and the tables of
      the check sum are those of the division ([crc32_correct]).
    - PHP arrays: every sequence of operations gives the results of the ordered
      map and ends ([zend_hash_refines]); every table that is reached is
      well-formed ([zend_hash_well_formed]); sorting orders the entries and
      keeps or numbers the keys, callbacks see every entry once, copies are the
      same array, merges are unions ([zend_hash_apply_visits],
      [zend_array_dup_same], [zend_hash_merge_union], [zend_hash_sort_keeps],
      [zend_hash_sort_numbers], [zend_sort_sorts], [zend_sort_any]); the integer
      keys among strings are the decimal numbers ([numeric_str_decimal]), so
      that symbol tables are maps over strings ([symtable_strings]).

    ** Not modelled

    The connection, event, file and process code (operating system effects),
    the configuration reader, memory allocation failures, logging, the Win32
    branches.  Of nginx's own logic: header lists and the status line, wildcard
    hashes, streams and flow control of HTTP/2, arrays, lists and the radix tree,
    the allocator of pools, the mutex of shared memory and the wrappers of the
    slab allocator that take it, digests, addresses, the other modules.  Of PHP: all but the hash table and the sort; of these, reference
    counts, destructors, external iterators, indirect values and comparison. *)

From Stdlib Require Export ZArith Lia Ascii String.
From stdpp Require Export prelude list strings.

#[global] Open Scope Z_scope.

(** ** Character literals

    [$ "A"] is the numeral 65: the notation is expanded when the term is
    read, so that [lia] and [vm_compute] see plain integers. *)

Definition char_code (c : ascii) : Z := Z.of_N (N_of_ascii c).

Declare Scope nginx_scope.
Delimit Scope nginx_scope with ngx.
#[global] Open Scope nginx_scope.

Notation "$ c" :=
  (ltac:(let v := eval vm_compute in (char_code c%char) in exact v))
  (at level 1, only parsing) : nginx_scope.

Definition LF : Z := 10.
Definition CR : Z := 13.

(** The bytes of a string literal, for concrete inputs. *)
Fixpoint bytes (s : string) : list Z :=
  match s with
  | EmptyString => []
  | String c s => char_code c :: bytes s
  end.

(** ** Machine integers

    A C unsigned integer of [w] bits is a [Z] in [0, 2^w); every operation
    that can leave that range is followed by the corresponding wrap. *)

Definition u8 (z : Z) : Z := z `mod` 2 ^ 8.
Definition u16 (z : Z) : Z := z `mod` 2 ^ 16.
Definition u32 (z : Z) : Z := z `mod` 2 ^ 32.
Definition u64 (z : Z) : Z := z `mod` 2 ^ 64.

Definition is_byte (z : Z) : Prop := 0 <= z < 256.
#[export] Instance is_byte_dec z : Decision (is_byte z).
Proof. unfold is_byte. apply _. Defined.

(** Decidable closed propositions, by evaluation. *)
Ltac by_decide := apply (bool_decide_unpack _); vm_compute; exact I.

(** ** Return codes of src/core/ngx_core.h *)

Definition NGX_OK : Z := 0.
Definition NGX_ERROR : Z := -1.
Definition NGX_AGAIN : Z := -2.
Definition NGX_DONE : Z := -4.
Definition NGX_DECLINED : Z := -5.

(** ** Record updates

    [setter eta f] builds the function that replaces field [f] of a record
    from the record's eta-expansion [eta]. *)

Ltac setter eta f :=
  let R := lazymatch type of eta with ?R -> _ => R end in
  let T := lazymatch type of f with _ -> ?T => T end in
  let t := constr:(fun (v : T) (x : R) => ltac:(
    let e := eval unfold eta in (eta x) in
    let e := eval pattern (f x) in e in
    lazymatch e with ?g _ => let b := eval cbv beta in (g v) in exact b end)) in
  exact t.

(** ** Memory

    Pointers are addresses in a flat memory of bytes; [NULL] is address 0. *)

Definition memory := Z -> Z.
Definition NULL : Z := 0.

(** [load a l] is the memory that holds the bytes [l] from address [a] on. *)
Definition load (a : Z) (l : list Z) : memory :=
  fun p => if decide (a <= p) then nth (Z.to_nat (p - a)) l 0 else 0.

(** [holds mem a l]: the bytes [l] are in memory from address [a] on. *)
Definition holds (mem : memory) (a : Z) (l : list Z) : Prop :=
  forall i b, l !! i = Some b -> mem (a + Z.of_nat i) = b.

Lemma holds_load a l : holds (load a l) a l.
Proof.
  intros i b H. unfold load. rewrite decide_True by lia.
  replace (Z.to_nat (a + Z.of_nat i - a)) with i by lia.
  erewrite <- nth_lookup_Some by exact H. reflexivity.
Qed.

Lemma load_is_byte a l p : Forall is_byte l -> is_byte (load a l p).
Proof.
  intros H. unfold load. case_decide; [|by unfold is_byte; lia].
  destruct (nth_in_or_default (Z.to_nat (p - a)) l 0) as [Hin| ->];
    [|unfold is_byte; lia].
  rewrite Forall_forall in H. by apply H, list_elem_of_In.
Qed.

Lemma holds_cons mem a b l :
  holds mem a (b :: l) <-> mem a = b /\ holds mem (a + 1) l.
Proof.
  split.
  - intros H. split.
    + rewrite <- (H O b eq_refl). f_equal. lia.
    + intros i c Hi. rewrite <- (H (S i) c Hi). f_equal. lia.
  - intros [Hb H] [|i] c Hi.
    + simplify_eq/=. f_equal. lia.
    + rewrite <- (H i c Hi). f_equal. lia.
Qed.

Lemma holds_app mem a l1 l2 :
  holds mem a (l1 ++ l2) <->
  holds mem a l1 /\ holds mem (a + Z.of_nat (length l1)) l2.
Proof.
  revert a. induction l1 as [|b l1 IH]; intros a; simpl.
  - replace (a + Z.of_nat 0) with a by lia.
    split; [intros H; split; [intros i c Hi; done|done]|by intros [_ ?]].
  - rewrite !holds_cons, IH.
    replace (a + 1 + Z.of_nat (length l1)) with (a + Z.of_nat (S (length l1))) by lia.
    tauto.
Qed.

(** ** Bit fields

    Disjoint fields: [lor] of a multiple of [2^n] and a number below [2^n] is
    their sum. *)

Lemma land_low_high a b n :
  0 <= n -> 0 <= b < 2 ^ n -> Z.land (Z.shiftl a n) b = 0.
Proof.
  intros Hn Hb. apply Z.bits_inj'. intros i Hi.
  rewrite Z.land_spec, Z.bits_0, Z.shiftl_spec by lia.
  destruct (Z.lt_ge_cases i n).
  - by rewrite Z.testbit_neg_r by lia.
  - rewrite <- (Z.mod_small b (2 ^ n)) by lia.
    rewrite Z.mod_pow2_bits_high by lia. by rewrite andb_false_r.
Qed.

Lemma lor_shiftl_add a b n :
  0 <= n -> 0 <= b < 2 ^ n -> Z.lor (Z.shiftl a n) b = a * 2 ^ n + b.
Proof.
  intros Hn Hb. rewrite <- Z.add_nocarry_lor by (by apply land_low_high).
  by rewrite Z.shiftl_mul_pow2 by lia.
Qed.

Lemma lor_add_low a b n :
  0 <= n -> (2 ^ n | a) -> 0 <= b < 2 ^ n -> Z.lor a b = a + b.
Proof.
  intros Hn [k ->] Hb. rewrite <- Z.shiftl_mul_pow2 by lia.
  rewrite lor_shiftl_add by done. by rewrite Z.shiftl_mul_pow2.
Qed.

Lemma land_ones_mod a n : 0 <= n -> Z.land a (2 ^ n - 1) = a `mod` 2 ^ n.
Proof.
  intros. rewrite <- Z.land_ones by done. by rewrite Z.ones_equiv, <- Z.sub_1_r.
Qed.

Lemma land_bit w k : 0 <= k -> negb (Z.land w (Z.shiftl 1 k) =? 0) = Z.testbit w k.
Proof.
  intros Hk. assert (forall i, Z.testbit (Z.land w (Z.shiftl 1 k)) i = (i =? k) && Z.testbit w k) as Hb.
  { intros i. rewrite Z.land_spec. destruct (decide (i < 0)) as [Hi|Hi].
    { rewrite !(Z.testbit_neg_r _ i) by lia. simpl. by destruct (Z.eqb_spec i k); [lia|]. }
    rewrite Z.shiftl_spec by lia. destruct (Z.eqb_spec i k) as [->|Hne].
    - by rewrite Z.sub_diag, andb_true_r.
    - rewrite andb_false_intro2; [done|]. destruct (decide (i < k)); [by apply Z.testbit_neg_r; lia|].
      apply Z.bits_above_log2; simpl; lia. }
  destruct (Z.testbit w k) eqn:E.
  - apply negb_true_iff, Z.eqb_neq. intros H. specialize (Hb k). rewrite H, Z.eqb_refl, Z.bits_0 in Hb. done.
  - apply negb_false_iff, Z.eqb_eq, Z.bits_inj'. intros i _. by rewrite Hb, Z.bits_0, andb_false_r.
Qed.

(** The bytes of [mem] from [a] up to, not including, [e]. *)
Definition slice (mem : memory) (a e : Z) : list Z := mem <$> seqZ a (e - a).

Lemma slice_holds mem a l : holds mem a l -> slice mem a (a + Z.of_nat (length l)) = l.
Proof.
  intros H. unfold slice. apply list_eq. intros i. rewrite list_lookup_fmap.
  replace (a + Z.of_nat (length l) - a) with (Z.of_nat (length l)) by lia.
  destruct (l !! i) as [b|] eqn:E.
  - rewrite lookup_seqZ_lt; simpl.
    + f_equal. by apply H.
    + apply lookup_lt_Some in E. lia.
  - rewrite lookup_seqZ_ge; [done|]. apply lookup_ge_None in E. lia.
Qed.

(** All bytes, to decide byte properties by computation. *)
Definition all_bytes : list Z := seqZ 0 256.

Lemma forall_bytes (f : Z -> bool) ch :
  forallb f all_bytes = true -> is_byte ch -> f ch = true.
Proof.
  intros H Hb. rewrite forallb_forall in H. apply H.
  apply list_elem_of_In, elem_of_seqZ. unfold is_byte in Hb. lia.
Qed.

Lemma slice_snoc mem a e : a <= e -> slice mem a (e + 1) = slice mem a e ++ [mem e].
Proof.
  intros H. unfold slice. replace (e + 1 - a) with ((e - a) + 1) by lia.
  rewrite seqZ_app by lia. rewrite fmap_app. f_equal.
  replace (a + (e - a)) with e by lia. done.
Qed.

(** No NUL, CR or LF between [a] and [e]. *)
Definition clean (mem : memory) (a e : Z) : Prop :=
  forall x, a <= x < e -> mem x <> 0 /\ mem x <> CR /\ mem x <> LF.

Lemma clean_one mem a : mem a <> 0 -> mem a <> CR -> mem a <> LF -> clean mem a (a + 1).
Proof. intros ??? x Hx. by replace x with a by lia. Qed.

Lemma clean_snoc mem a e :
  clean mem a e -> mem e <> 0 -> mem e <> CR -> mem e <> LF -> clean mem a (e + 1).
Proof.
  intros H ??? x Hx. destruct (decide (x = e)) as [->|]; [done|]. apply H. lia.
Qed.

(** ** Blocks of memory *)

(** An address and a size: blocks that have no byte in common, and an address in a block. *)
Definition separate (x y : Z * Z) : Prop := x.1 + x.2 <= y.1 \/ y.1 + y.2 <= x.1.
Definition within (a : Z) (b : Z * Z) : Prop := b.1 <= a < b.1 + b.2.

(** Each two of them. *)
Fixpoint apart (B : list (Z * Z)) : Prop := match B with [] => True | b :: B => Forall (separate b) B /\ apart B end.

Lemma separate_sym x y : separate x y -> separate y x.
Proof. unfold separate. tauto. Qed.

Lemma apart_perm B B' : B ≡ₚ B' -> apart B -> apart B'.
Proof.
  induction 1 as [|b B B' HB IH|b c B|B1 B2 B3 _ IH1 _ IH2]; cbn; [done|..].
  - intros [Hb Ha]. split; [by rewrite <- HB|by apply IH].
  - intros (Hc & Hb & Ha). inversion Hc as [|? ? Hcb Hcs]; subst. split; [constructor; [by apply separate_sym|done]|done].
  - tauto.
Qed.

Lemma apart_app B1 B2 : apart (B1 ++ B2) <-> apart B1 /\ apart B2 /\ forall x y, x ∈ B1 -> y ∈ B2 -> separate x y.
Proof.
  induction B1 as [|b B1 IH]; cbn.
  - split; [intros ?; split; [done|]; split; [done|]; intros x y Hx; by apply elem_of_nil in Hx|tauto].
  - rewrite Forall_app, IH. split.
    + intros ([H1 H2] & H3 & H4 & H5). split; [done|]. split; [done|]. intros x y [->|Hx]%elem_of_cons Hy; [|by apply H5].
      rewrite Forall_forall in H2. by apply H2.
    + intros ([H1 H2] & H3 & H4). split; [split; [done|]|split; [done|split; [done|]]].
      * apply Forall_forall. intros y Hy. apply H4; [by left|done].
      * intros x y Hx. apply H4. by right.
Qed.

Lemma apart_fmap {T} (f : T -> Z * Z) l : NoDup l -> (forall x y, x <> y -> separate (f x) (f y)) -> apart (f <$> l).
Proof.
  intros Hnd Hf. induction Hnd as [|x l Hx Hnd IH]; cbn; [done|]. split; [|done].
  apply Forall_fmap, Forall_forall. intros y Hy. apply Hf. by intros ->.
Qed.
