(* ===== verification/Scan.v ===== *)
(** * Scan: the byte loop of the nginx parsers

    Every incremental parser of src/http/ngx_http_parse.c has the shape

      for (p = b->pos; p < b->last; p++) { ch = *p; switch (state) { ... } }

    whose body either breaks out of the switch (possibly after [p--]), or
    leaves the loop by a [return] or a [goto].  This file holds that loop once:
    as an executable function with fuel, as a relation, and with the lemmas
    that every parser uses (determinism, enough fuel, resumption on a longer
    buffer, invariants). *)

From S2P Require Import Prelude.

(** What one execution of the loop body does: [Next r p] reaches the [p++] of
    the loop with local state [r] and cursor [p]; [Leave l r p] leaves the loop
    through exit [l]. *)
Inductive ctl (L R : Type) : Type :=
  | Next (r : R) (p : Z)
  | Leave (l : L) (r : R) (p : Z).
Arguments Next {L R} r p.
Arguments Leave {L R} l r p.

(** How the loop ends: [Fell] when [p < last] fails, [Left] through an exit. *)
Inductive outcome (L R : Type) : Type :=
  | Fell (r : R) (p : Z)
  | Left (l : L) (r : R) (p : Z).
Arguments Fell {L R} r p.
Arguments Left {L R} l r p.

Section scan.
Context {L R : Type}.
Variable step : R -> Z -> ctl L R.

Fixpoint scan (fuel : nat) (last : Z) (r : R) (p : Z) : option (outcome L R) :=
  match fuel with
  | O => None
  | S fuel =>
      if p <? last then
        match step r p with
        | Next r p => scan fuel last r (p + 1)
        | Leave l r p => Some (Left l r p)
        end
      else Some (Fell r p)
  end.

Inductive scans (last : Z) : R -> Z -> outcome L R -> Prop :=
  | scans_fell r p : last <= p -> scans last r p (Fell r p)
  | scans_left r p l r' p' :
      p < last -> step r p = Leave l r' p' -> scans last r p (Left l r' p')
  | scans_next r p r' p' o :
      p < last -> step r p = Next r' p' -> scans last r' (p' + 1) o ->
      scans last r p o.

Lemma scan_scans fuel last r p o : scan fuel last r p = Some o -> scans last r p o.
Proof.
  revert r p. induction fuel as [|fuel IH]; intros r p; simpl; [done|].
  destruct (Z.ltb_spec p last) as [Hp|Hp].
  - destruct (step r p) eqn:E; intros ?; simplify_eq.
    + eapply scans_next; eauto.
    + eapply scans_left; eauto.
  - intros ?; simplify_eq. by apply scans_fell.
Qed.

(* One body execution has one result. *)
Local Ltac same_step :=
  simplify_eq; try lia; try
  match goal with
  | H1 : step ?r ?p = _, H2 : step ?r ?p = _ |- _ => rewrite H1 in H2; simplify_eq
  end.

Lemma scans_det last r p o1 o2 : scans last r p o1 -> scans last r p o2 -> o1 = o2.
Proof.
  intros H1; revert o2. induction H1; inversion 1; same_step; auto with lia.
Qed.

(** A run that exhausts the first [last1] bytes continues on a longer buffer
    exactly where it stopped. *)
Lemma scans_resume last1 last2 r p r' p' o :
  last1 <= last2 ->
  scans last1 r p (Fell r' p') ->
  (scans last2 r' p' o <-> scans last2 r p o).
Proof.
  intros Hl H. remember (Fell r' p') as o1 eqn:Ho.
  induction H as [r p Hp| |r p r1 p1 o1 Hp Hs H IH]; simplify_eq; [done|].
  rewrite (IH eq_refl). split.
  - intros H'. eapply scans_next; eauto; lia.
  - inversion 1; same_step; done.
Qed.

Lemma scans_fell_ge last r p r' p' : scans last r p (Fell r' p') -> last <= p'.
Proof.
  intros H. remember (Fell r' p') as o eqn:Ho. induction H; simplify_eq; auto.
Qed.

(** An invariant of the loop body holds when the loop falls through, and the
    exits satisfy what the body establishes for them. *)
Lemma scans_inv last (I : R -> Z -> Prop) (Q : L -> R -> Z -> Prop) r p o :
  (forall r p r' p', p < last -> I r p -> step r p = Next r' p' -> I r' (p' + 1)) ->
  (forall r p l r' p', p < last -> I r p -> step r p = Leave l r' p' -> Q l r' p') ->
  scans last r p o -> I r p ->
  match o with Fell r' p' => I r' p' /\ last <= p' | Left l r' p' => Q l r' p' end.
Proof.
  intros HN HL H. induction H as [| |r p r' p' o Hp Hs H IH]; intros HI; eauto.
  apply IH; eauto.
Qed.

(** ** Enough fuel

    The body advances the cursor, except for a step that moves it back by
    one: such a step must decrease [pot], which the others keep at most [K]. *)
Section fuel.
Variable pot : R -> nat.
Variable K : nat.
Hypothesis progress : forall r p r' p',
  step r p = Next r' p' ->
  (p' = p /\ (pot r' <= K)%nat) \/ (p' = p - 1 /\ (pot r' < pot r)%nat).

Definition measure (last : Z) (r : R) (p : Z) : nat :=
  (Z.to_nat (last - p) * S K + pot r)%nat.

Lemma scan_enough fuel last r p :
  (measure last r p < fuel)%nat -> exists o, scan fuel last r p = Some o.
Proof.
  revert r p. induction fuel as [|fuel IH]; intros r p Hf; [lia|]. simpl.
  destruct (Z.ltb_spec p last) as [Hp|Hp]; [|by eauto].
  destruct (step r p) as [r' p'|] eqn:E; [|by eauto].
  apply IH. unfold measure in *. apply progress in E.
  assert (Hd : Z.to_nat (last - p) = S (Z.to_nat (last - (p + 1)))) by lia.
  destruct E as [[-> ?]|[-> ?]].
  - lia.
  - replace (p - 1 + 1) with p by lia. lia.
Qed.
End fuel.

(** Straight runs, for computing what a parser does on a given input. *)
Lemma scans_step last r p r' p' o :
  p < last -> step r p = Next r' p' -> scans last r' (p' + 1) o -> scans last r p o.
Proof. intros. eapply scans_next; eauto. Qed.

(** [n] bytes that the body skips without changing its state. *)
Lemma scans_skip last r p (n : nat) o :
  p + Z.of_nat n <= last ->
  (forall i, (i < n)%nat -> step r (p + Z.of_nat i) = Next r (p + Z.of_nat i)) ->
  scans last r (p + Z.of_nat n) o -> scans last r p o.
Proof.
  revert p. induction n as [|n IH]; intros p Hl Hs H.
  - by replace (p + Z.of_nat 0) with p in H by lia.
  - apply scans_next with (r' := r) (p' := p); [lia| |].
    + replace p with (p + Z.of_nat 0) by lia. apply Hs. lia.
    + replace (p + Z.of_nat (S n)) with (p + 1 + Z.of_nat n) in H by lia.
      apply IH; [lia| |done]. intros i Hi.
      replace (p + 1 + Z.of_nat i) with (p + Z.of_nat (S i)) by lia.
      apply Hs. lia.
Qed.
End scan.

(** ** Changing what the body does not read

    When the body commutes with [f] on its local state, so does the loop. *)

Definition ctl_map {L R} (f : R -> R) (c : ctl L R) : ctl L R :=
  match c with Next r p => Next (f r) p | Leave l r p => Leave l (f r) p end.

Definition outcome_map {L R} (f : R -> R) (o : outcome L R) : outcome L R :=
  match o with Fell r p => Fell (f r) p | Left l r p => Left l (f r) p end.

Lemma scans_map {L R} (step : R -> Z -> ctl L R) (f : R -> R) last r p o :
  (forall r p, step (f r) p = ctl_map f (step r p)) ->
  scans step last r p o -> scans step last (f r) p (outcome_map f o).
Proof.
  intros Hf H. induction H as [r p Hp|r p l r' p' Hp Hs|r p r' p' o Hp Hs H IH]; simpl.
  - by apply scans_fell.
  - apply scans_left; [done|]. by rewrite Hf, Hs.
  - eapply scans_next; [done| |done]. by rewrite Hf, Hs.
Qed.

(** Enough fuel for a byte loop over [p, last) whose body steps back at most
    [K] times per byte. *)
Definition scan_fuel (K : nat) (last p : Z) : nat :=
  S (Z.to_nat (last - p) * S K + K)%nat.
Arguments scan_fuel : simpl never.

(** The parsers run the loop with [scan_fuel]; with the progress condition
    above this computes the relation [scans]. *)
Section run.
Context {L R : Type}.
Variable step : R -> Z -> ctl L R.
Variable pot : R -> nat.
Variable K : nat.
Hypothesis pot_le : forall r, (pot r <= K)%nat.
Hypothesis progress : forall r p r' p',
  step r p = Next r' p' -> p' = p \/ (p' = p - 1 /\ (pot r' < pot r)%nat).

Lemma scan_total last r p : exists o, scan step (scan_fuel K last p) last r p = Some o.
Proof.
  eapply (scan_enough step pot K).
  - intros r0 p0 r' p' [->|?]%progress; auto.
  - unfold measure, scan_fuel. specialize (pot_le r). lia.
Qed.

Lemma scan_iff last r p o :
  scan step (scan_fuel K last p) last r p = Some o <-> scans step last r p o.
Proof.
  split; [apply scan_scans|]. intros H.
  destruct (scan_total last r p) as [o' Ho'].
  rewrite Ho'. f_equal. eapply scans_det; [by eapply scan_scans|done].
Qed.
End run.
