(* ===== verification/HttpRequest.v ===== *)
(** * HttpRequest: the request fields the HTTP parsers read and write

    The record below is the part of [struct ngx_http_request_s] that the
    functions of src/http/ngx_http_parse.c use; pointers are addresses, bit
    fields of width 1 are booleans.  The file also holds the input buffer, the
    character table [usual] and the parsers' return codes. *)

From S2P Require Import Prelude.

(** ** Return codes (src/http/ngx_http_request.h) *)

Definition NGX_HTTP_PARSE_HEADER_DONE : Z := 1.
Definition NGX_HTTP_PARSE_INVALID_METHOD : Z := 10.
Definition NGX_HTTP_PARSE_INVALID_REQUEST : Z := 11.
Definition NGX_HTTP_PARSE_INVALID_09_METHOD : Z := 12.
Definition NGX_HTTP_PARSE_INVALID_HEADER : Z := 13.

(** ** Methods *)

Definition NGX_HTTP_UNKNOWN : Z := 0x0001.
Definition NGX_HTTP_GET : Z := 0x0002.
Definition NGX_HTTP_HEAD : Z := 0x0004.
Definition NGX_HTTP_POST : Z := 0x0008.
Definition NGX_HTTP_PUT : Z := 0x0010.
Definition NGX_HTTP_DELETE : Z := 0x0020.
Definition NGX_HTTP_MKCOL : Z := 0x0040.
Definition NGX_HTTP_COPY : Z := 0x0080.
Definition NGX_HTTP_MOVE : Z := 0x0100.
Definition NGX_HTTP_OPTIONS : Z := 0x0200.
Definition NGX_HTTP_PROPFIND : Z := 0x0400.
Definition NGX_HTTP_PROPPATCH : Z := 0x0800.
Definition NGX_HTTP_LOCK : Z := 0x1000.
Definition NGX_HTTP_UNLOCK : Z := 0x2000.
Definition NGX_HTTP_PATCH : Z := 0x4000.
Definition NGX_HTTP_TRACE : Z := 0x8000.

Definition NGX_HTTP_LC_HEADER_LEN : Z := 32.

(** ** Data *)

(* core/ngx_buf.h:20-24 ngx_buf_s *)
Record buf : Type := Buf { pos : Z; last : Z }.

(* http/ngx_http_request.h:546-581 ngx_http_request_s *)
Record request : Type := Request {
  (* filled by the request line parser *)
  method : Z;
  http_version : Z;
  http_protocol : Z;                (* http_protocol.data *)
  complex_uri : bool;
  quoted_uri : bool;
  plus_in_uri : bool;
  space_in_uri : bool;
  state : Z;
  uri_start : Z;
  uri_end : Z;
  uri_ext : Z;
  args_start : Z;
  request_start : Z;
  request_end : Z;
  method_end : Z;
  schema_start : Z;
  schema_end : Z;
  host_start : Z;
  host_end : Z;
  port_end : Z;
  http_minor : Z;
  http_major : Z;
  (* filled by the header line parser *)
  upstream : bool;                  (* r->upstream != NULL *)
  invalid_header : bool;
  header_hash : Z;
  lowcase_index : Z;
  lowcase_header : list Z;
  header_name_start : Z;
  header_name_end : Z;
  header_start : Z;
  header_end : Z
}.

Definition eta_request (r : request) : request :=
  Request (method r) (http_version r) (http_protocol r) (complex_uri r)
    (quoted_uri r) (plus_in_uri r) (space_in_uri r) (state r) (uri_start r)
    (uri_end r) (uri_ext r) (args_start r) (request_start r) (request_end r)
    (method_end r) (schema_start r) (schema_end r) (host_start r) (host_end r)
    (port_end r) (http_minor r) (http_major r) (upstream r) (invalid_header r)
    (header_hash r) (lowcase_index r) (lowcase_header r) (header_name_start r)
    (header_name_end r) (header_start r) (header_end r).

Definition set_method := ltac:(setter eta_request method).
Definition set_http_version := ltac:(setter eta_request http_version).
Definition set_http_protocol := ltac:(setter eta_request http_protocol).
Definition set_complex_uri := ltac:(setter eta_request complex_uri).
Definition set_quoted_uri := ltac:(setter eta_request quoted_uri).
Definition set_plus_in_uri := ltac:(setter eta_request plus_in_uri).
Definition set_space_in_uri := ltac:(setter eta_request space_in_uri).
Definition set_state := ltac:(setter eta_request state).
Definition set_uri_start := ltac:(setter eta_request uri_start).
Definition set_uri_end := ltac:(setter eta_request uri_end).
Definition set_uri_ext := ltac:(setter eta_request uri_ext).
Definition set_args_start := ltac:(setter eta_request args_start).
Definition set_request_start := ltac:(setter eta_request request_start).
Definition set_request_end := ltac:(setter eta_request request_end).
Definition set_method_end := ltac:(setter eta_request method_end).
Definition set_schema_start := ltac:(setter eta_request schema_start).
Definition set_schema_end := ltac:(setter eta_request schema_end).
Definition set_host_start := ltac:(setter eta_request host_start).
Definition set_host_end := ltac:(setter eta_request host_end).
Definition set_port_end := ltac:(setter eta_request port_end).
Definition set_http_minor := ltac:(setter eta_request http_minor).
Definition set_http_major := ltac:(setter eta_request http_major).
Definition set_invalid_header := ltac:(setter eta_request invalid_header).
Definition set_header_hash := ltac:(setter eta_request header_hash).
Definition set_lowcase_index := ltac:(setter eta_request lowcase_index).
Definition set_lowcase_header := ltac:(setter eta_request lowcase_header).
Definition set_header_name_start := ltac:(setter eta_request header_name_start).
Definition set_header_name_end := ltac:(setter eta_request header_name_end).
Definition set_header_start := ltac:(setter eta_request header_start).
Definition set_header_end := ltac:(setter eta_request header_end).

(** A request before anything is parsed ([ngx_pcalloc] zeroes it and
    [ngx_http_create_request] sets the method). *)
Definition fresh_request : request :=
  Request NGX_HTTP_UNKNOWN 0 NULL false false false false 0 NULL NULL NULL NULL
    NULL NULL NULL NULL NULL NULL NULL NULL 0 0 false false 0 0
    (replicate 32 0) NULL NULL NULL NULL.

(** ** The character table *)

(* http/ngx_http_parse.c:13-34 usual *)
Definition usual : list Z :=
  [ 0xffffdbfe; 0x7fff37d6; 0xffffffff; 0xffffffff;
    0xffffffff; 0xffffffff; 0xffffffff; 0xffffffff ].

(** [usual[ch >> 5] & (1U << (ch & 0x1f))] *)
Definition is_usual (ch : Z) : bool :=
  negb (Z.land (nth (Z.to_nat (Z.shiftr ch 5)) usual 0)
               (Z.shiftl 1 (Z.land ch 0x1f)) =? 0).

(** The bytes that the table singles out. *)
Definition unusual : list Z :=
  [0; LF; CR; $ " "; $ "#"; $ "%"; $ "+"; $ "."; $ "/"; $ "?"].

Lemma is_usual_spec ch : is_byte ch -> is_usual ch = negb (existsb (Z.eqb ch) unusual).
Proof.
  intros Hb. apply eqb_prop.
  apply (forall_bytes (fun c => eqb (is_usual c) (negb (existsb (Z.eqb c) unusual))));
    [vm_compute; reflexivity|done].
Qed.
