(* ===== verification/NgxHashKey.v ===== *)
(** * NgxHashKey: case folding and the hash of a name

    The letter macros of src/core/ngx_string.h and the name hashes of
    src/core/ngx_hash.c ([ngx_uint_t] is 64 bits wide). *)

From S2P Require Import Prelude.

(* core/ngx_string.h:49-49 ngx_tolower *)
Definition ngx_tolower (c : Z) : Z :=
  if ($ "A" <=? c) && (c <=? $ "Z") then Z.lor c 0x20 else c.

(* core/ngx_string.h:50-50 ngx_toupper *)
Definition ngx_toupper (c : Z) : Z :=
  if ($ "a" <=? c) && (c <=? $ "z") then Z.land c (Z.lnot 0x20) else c.

(* core/ngx_hash.h:113-113 ngx_hash *)
Definition ngx_hash (key c : Z) : Z := u64 (key * 31 + c).

(* core/ngx_hash.c:609-621 ngx_hash_key *)
Definition ngx_hash_key (data : list Z) : Z := foldl ngx_hash 0 data.

(* core/ngx_hash.c:624-636 ngx_hash_key_lc *)
Definition ngx_hash_key_lc (data : list Z) : Z :=
  foldl (fun key c => ngx_hash key (ngx_tolower c)) 0 data.

(** The key and the bytes written to [dst]. *)
(* core/ngx_hash.c:639-654 ngx_hash_strlow *)
Definition ngx_hash_strlow (src : list Z) : Z * list Z :=
  foldl (fun '(key, dst) c => (ngx_hash key (ngx_tolower c), dst ++ [ngx_tolower c])) (0, []) src.

Lemma hash_key_lc_map data : ngx_hash_key_lc data = ngx_hash_key (ngx_tolower <$> data).
Proof.
  unfold ngx_hash_key_lc, ngx_hash_key. generalize 0.
  induction data as [|c data IH]; intros key; simpl; [done|apply IH].
Qed.

Lemma hash_strlow_spec src :
  ngx_hash_strlow src = (ngx_hash_key_lc src, ngx_tolower <$> src).
Proof.
  unfold ngx_hash_strlow, ngx_hash_key_lc.
  enough (forall key dst,
    foldl (fun '(key, dst) c => (ngx_hash key (ngx_tolower c), dst ++ [ngx_tolower c])) (key, dst) src
    = (foldl (fun key c => ngx_hash key (ngx_tolower c)) key src, dst ++ (ngx_tolower <$> src)))
    as -> by done.
  induction src as [|c src IH]; intros key dst; cbn [foldl fmap list_fmap];
    [by rewrite app_nil_r|].
  by rewrite IH, <- app_assoc.
Qed.

Lemma hash_key_snoc data c : ngx_hash_key (data ++ [c]) = ngx_hash (ngx_hash_key data) c.
Proof. unfold ngx_hash_key. by rewrite foldl_app. Qed.

Lemma tolower_idem c : is_byte c -> ngx_tolower (ngx_tolower c) = ngx_tolower c.
Proof.
  intros Hc. apply Z.eqb_eq. revert Hc.
  apply (forall_bytes (fun c => ngx_tolower (ngx_tolower c) =? ngx_tolower c)).
  vm_compute. reflexivity.
Qed.
