(* ===== verification/HttpRequestLine.v ===== *)
(** * HttpRequestLine: [ngx_http_parse_request_line]

    The state machine of src/http/ngx_http_parse.c that reads
    "METHOD URI HTTP/x.y", one definition per state.  It is incremental: when
    the buffer ends it returns [NGX_AGAIN] and is called again, on the same
    request, with a longer buffer. *)

From S2P Require Import Prelude Scan HttpRequest.

(* http/ngx_http_parse.c:107-135 ngx_http_parse_request_line: enum state *)
Inductive rl_state : Type :=
  | sw_start
  | sw_method
  | sw_spaces_before_uri
  | sw_schema
  | sw_schema_slash
  | sw_schema_slash_slash
  | sw_host_start
  | sw_host
  | sw_host_end
  | sw_host_ip_literal
  | sw_port
  | sw_host_http_09
  | sw_after_slash_in_uri
  | sw_check_uri
  | sw_check_uri_http_09
  | sw_uri
  | sw_http_09
  | sw_http_H
  | sw_http_HT
  | sw_http_HTT
  | sw_http_HTTP
  | sw_first_major_digit
  | sw_major_digit
  | sw_first_minor_digit
  | sw_minor_digit
  | sw_spaces_after_digit
  | sw_almost_done.

#[export] Instance rl_state_eq_dec : EqDecision rl_state.
Proof. solve_decision. Defined.

(** The states in the order of the enumeration: state [i] of the list has the
    integer value [i] that is kept in [r->state]. *)
Definition rl_states : list rl_state :=
  [ sw_start; sw_method; sw_spaces_before_uri; sw_schema; sw_schema_slash;
    sw_schema_slash_slash; sw_host_start; sw_host; sw_host_end;
    sw_host_ip_literal; sw_port; sw_host_http_09; sw_after_slash_in_uri;
    sw_check_uri; sw_check_uri_http_09; sw_uri; sw_http_09; sw_http_H;
    sw_http_HT; sw_http_HTT; sw_http_HTTP; sw_first_major_digit;
    sw_major_digit; sw_first_minor_digit; sw_minor_digit;
    sw_spaces_after_digit; sw_almost_done ].

Definition rl_decode (z : Z) : option rl_state :=
  if z <? 0 then None else rl_states !! Z.to_nat z.

Fixpoint index_of (s : rl_state) (l : list rl_state) : Z :=
  match l with
  | [] => 0
  | x :: l => if decide (x = s) then 0 else 1 + index_of s l
  end.
Definition rl_encode (s : rl_state) : Z := index_of s rl_states.

Lemma rl_decode_encode s : rl_decode (rl_encode s) = Some s.
Proof. by destruct s. Qed.

(** ** Method recognition *)

(** The comparison macros that the method switch uses. *)
Class StrCmp : Type := {
  str3_cmp : memory -> Z -> Z -> Z -> Z -> Z -> bool;
  str3Ocmp : memory -> Z -> Z -> Z -> Z -> Z -> bool;
  str4cmp : memory -> Z -> Z -> Z -> Z -> Z -> bool;
  str5cmp : memory -> Z -> Z -> Z -> Z -> Z -> Z -> bool;
  str6cmp : memory -> Z -> Z -> Z -> Z -> Z -> Z -> Z -> bool;
  str7_cmp : memory -> Z -> Z -> Z -> Z -> Z -> Z -> Z -> Z -> Z -> bool;
  str8cmp : memory -> Z -> Z -> Z -> Z -> Z -> Z -> Z -> Z -> Z -> bool;
  str9cmp : memory -> Z -> Z -> Z -> Z -> Z -> Z -> Z -> Z -> Z -> Z -> bool
}.

(** A 32-bit load from address [m] on a little-endian machine. *)
Definition read32 (mem : memory) (m : Z) : Z :=
  mem m + mem (m + 1) * 2 ^ 8 + mem (m + 2) * 2 ^ 16 + mem (m + 3) * 2 ^ 24.

(** [(c3 << 24) | (c2 << 16) | (c1 << 8) | c0] *)
Definition pack32 (c0 c1 c2 c3 : Z) : Z :=
  Z.lor (Z.lor (Z.lor (Z.shiftl c3 24) (Z.shiftl c2 16)) (Z.shiftl c1 8)) c0.

(* http/ngx_http_parse.c:37-65 ngx_str3_cmp .. ngx_str9cmp, NGX_HAVE_LITTLE_ENDIAN && NGX_HAVE_NONALIGNED *)
Definition le_cmp : StrCmp := {|
  str3_cmp mem m c0 c1 c2 c3 := read32 mem m =? pack32 c0 c1 c2 c3;
  str3Ocmp mem m c0 c1 c2 c3 := read32 mem m =? pack32 c0 c1 c2 c3;
  str4cmp mem m c0 c1 c2 c3 := read32 mem m =? pack32 c0 c1 c2 c3;
  str5cmp mem m c0 c1 c2 c3 c4 :=
    (read32 mem m =? pack32 c0 c1 c2 c3) && (mem (m + 4) =? c4);
  str6cmp mem m c0 c1 c2 c3 c4 c5 :=
    (read32 mem m =? pack32 c0 c1 c2 c3)
    && (Z.land (read32 mem (m + 4)) 0xffff =? Z.lor (Z.shiftl c5 8) c4);
  str7_cmp mem m c0 c1 c2 c3 c4 c5 c6 c7 :=
    (read32 mem m =? pack32 c0 c1 c2 c3)
    && (read32 mem (m + 4) =? pack32 c4 c5 c6 c7);
  str8cmp mem m c0 c1 c2 c3 c4 c5 c6 c7 :=
    (read32 mem m =? pack32 c0 c1 c2 c3)
    && (read32 mem (m + 4) =? pack32 c4 c5 c6 c7);
  str9cmp mem m c0 c1 c2 c3 c4 c5 c6 c7 c8 :=
    (read32 mem m =? pack32 c0 c1 c2 c3)
    && (read32 mem (m + 4) =? pack32 c4 c5 c6 c7)
    && (mem (m + 8) =? c8)
|}.

(* http/ngx_http_parse.c:67-98 ngx_str3_cmp .. ngx_str9cmp, byte by byte *)
Definition portable_cmp : StrCmp := {|
  str3_cmp mem m c0 c1 c2 c3 :=
    (mem m =? c0) && (mem (m + 1) =? c1) && (mem (m + 2) =? c2);
  str3Ocmp mem m c0 c1 c2 c3 :=
    (mem m =? c0) && (mem (m + 2) =? c2) && (mem (m + 3) =? c3);
  str4cmp mem m c0 c1 c2 c3 :=
    (mem m =? c0) && (mem (m + 1) =? c1) && (mem (m + 2) =? c2)
    && (mem (m + 3) =? c3);
  str5cmp mem m c0 c1 c2 c3 c4 :=
    (mem m =? c0) && (mem (m + 1) =? c1) && (mem (m + 2) =? c2)
    && (mem (m + 3) =? c3) && (mem (m + 4) =? c4);
  str6cmp mem m c0 c1 c2 c3 c4 c5 :=
    (mem m =? c0) && (mem (m + 1) =? c1) && (mem (m + 2) =? c2)
    && (mem (m + 3) =? c3) && (mem (m + 4) =? c4) && (mem (m + 5) =? c5);
  str7_cmp mem m c0 c1 c2 c3 c4 c5 c6 c7 :=
    (mem m =? c0) && (mem (m + 1) =? c1) && (mem (m + 2) =? c2)
    && (mem (m + 3) =? c3) && (mem (m + 4) =? c4) && (mem (m + 5) =? c5)
    && (mem (m + 6) =? c6);
  str8cmp mem m c0 c1 c2 c3 c4 c5 c6 c7 :=
    (mem m =? c0) && (mem (m + 1) =? c1) && (mem (m + 2) =? c2)
    && (mem (m + 3) =? c3) && (mem (m + 4) =? c4) && (mem (m + 5) =? c5)
    && (mem (m + 6) =? c6) && (mem (m + 7) =? c7);
  str9cmp mem m c0 c1 c2 c3 c4 c5 c6 c7 c8 :=
    (mem m =? c0) && (mem (m + 1) =? c1) && (mem (m + 2) =? c2)
    && (mem (m + 3) =? c3) && (mem (m + 4) =? c4) && (mem (m + 5) =? c5)
    && (mem (m + 6) =? c6) && (mem (m + 7) =? c7) && (mem (m + 8) =? c8)
|}.

(** The switch on the method's length: the new value of [r->method], [old]
    being the present one. *)
(* http/ngx_http_parse.c:162-267 ngx_http_parse_request_line: switch (p - m) *)
Definition method_switch (C : StrCmp) (mem : memory) (m p old : Z) : Z :=
  if p - m =? 3 then
    if str3_cmp mem m ($ "G") ($ "E") ($ "T") ($ " ") then NGX_HTTP_GET
    else if str3_cmp mem m ($ "P") ($ "U") ($ "T") ($ " ") then NGX_HTTP_PUT
    else old
  else if p - m =? 4 then
    if mem (m + 1) =? $ "O" then
      if str3Ocmp mem m ($ "P") ($ "O") ($ "S") ($ "T") then NGX_HTTP_POST
      else if str3Ocmp mem m ($ "C") ($ "O") ($ "P") ($ "Y") then NGX_HTTP_COPY
      else if str3Ocmp mem m ($ "M") ($ "O") ($ "V") ($ "E") then NGX_HTTP_MOVE
      else if str3Ocmp mem m ($ "L") ($ "O") ($ "C") ($ "K") then NGX_HTTP_LOCK
      else old
    else if str4cmp mem m ($ "H") ($ "E") ($ "A") ($ "D") then NGX_HTTP_HEAD
    else old
  else if p - m =? 5 then
    if str5cmp mem m ($ "M") ($ "K") ($ "C") ($ "O") ($ "L") then NGX_HTTP_MKCOL
    else if str5cmp mem m ($ "P") ($ "A") ($ "T") ($ "C") ($ "H") then NGX_HTTP_PATCH
    else if str5cmp mem m ($ "T") ($ "R") ($ "A") ($ "C") ($ "E") then NGX_HTTP_TRACE
    else old
  else if p - m =? 6 then
    if str6cmp mem m ($ "D") ($ "E") ($ "L") ($ "E") ($ "T") ($ "E")
    then NGX_HTTP_DELETE
    else if str6cmp mem m ($ "U") ($ "N") ($ "L") ($ "O") ($ "C") ($ "K")
    then NGX_HTTP_UNLOCK
    else old
  else if p - m =? 7 then
    if str7_cmp mem m ($ "O") ($ "P") ($ "T") ($ "I") ($ "O") ($ "N") ($ "S") ($ " ")
    then NGX_HTTP_OPTIONS
    else old
  else if p - m =? 8 then
    if str8cmp mem m ($ "P") ($ "R") ($ "O") ($ "P") ($ "F") ($ "I") ($ "N") ($ "D")
    then NGX_HTTP_PROPFIND
    else old
  else if p - m =? 9 then
    if str9cmp mem m ($ "P") ($ "R") ($ "O") ($ "P") ($ "P") ($ "A") ($ "T") ($ "C")
         ($ "H")
    then NGX_HTTP_PROPPATCH
    else old
  else old.

(** ** The states

    A handler gets the byte [ch] at the cursor [p] and the request; it ends
    in [break] (the switch's break, with the next state), in a return with an
    error code, or in [goto done]. *)

Inductive rl_exit : Type := RlReturn (rc : Z) | RlDone.

Definition rl_local : Type := rl_state * request.
Definition rl_ctl : Type := ctl rl_exit rl_local.

Section states.
Variable mem : memory.
Variables (p ch : Z) (r : request).

Definition break (s : rl_state) (r : request) : rl_ctl := Next (s, r) p.
Definition break_back (s : rl_state) (r : request) : rl_ctl := Next (s, r) (p - 1).
Definition return_ (rc : Z) (s : rl_state) (r : request) : rl_ctl :=
  Leave (RlReturn rc) (s, r) p.
Definition goto_done (s : rl_state) (r : request) : rl_ctl := Leave RlDone (s, r) p.

Definition is_digit (c : Z) : bool := ($ "0" <=? c) && (c <=? $ "9").
Definition is_alpha_lc (c : Z) : bool := ($ "a" <=? c) && (c <=? $ "z").
(* [(ch < 'A' || ch > 'Z') && ch != '_' && ch != '-'] *)
Definition not_method_char : bool :=
  ((ch <? $ "A") || ($ "Z" <? ch)) && negb (ch =? $ "_") && negb (ch =? $ "-").

(* http/ngx_http_parse.c:145-156 ngx_http_parse_request_line: case sw_start *)
Definition on_start : rl_ctl :=
  let r := set_request_start p r in
  if (ch =? CR) || (ch =? LF) then break sw_start r
  else if not_method_char then return_ NGX_HTTP_PARSE_INVALID_METHOD sw_start r
  else break sw_method r.

(* http/ngx_http_parse.c:159-277 ngx_http_parse_request_line: case sw_method *)
Definition on_method : rl_ctl :=
  if ch =? $ " " then
    let r := set_method_end (p - 1) r in
    let r := set_method (method_switch le_cmp mem (request_start r) p (method r)) r in
    break sw_spaces_before_uri r
  else if not_method_char then return_ NGX_HTTP_PARSE_INVALID_METHOD sw_method r
  else break sw_method r.

(* http/ngx_http_parse.c:280-301 ngx_http_parse_request_line: case sw_spaces_before_uri *)
Definition on_spaces_before_uri : rl_ctl :=
  if ch =? $ "/" then break sw_after_slash_in_uri (set_uri_start p r)
  else if is_alpha_lc (Z.lor ch 0x20) then break sw_schema (set_schema_start p r)
  else if ch =? $ " " then break sw_spaces_before_uri r
  else return_ NGX_HTTP_PARSE_INVALID_REQUEST sw_spaces_before_uri r.

(* http/ngx_http_parse.c:303-318 ngx_http_parse_request_line: case sw_schema *)
Definition on_schema : rl_ctl :=
  if is_alpha_lc (Z.lor ch 0x20) then break sw_schema r
  else if ch =? $ ":" then break sw_schema_slash (set_schema_end p r)
  else return_ NGX_HTTP_PARSE_INVALID_REQUEST sw_schema r.

(* http/ngx_http_parse.c:320-328 ngx_http_parse_request_line: case sw_schema_slash *)
Definition on_schema_slash : rl_ctl :=
  if ch =? $ "/" then break sw_schema_slash_slash r
  else return_ NGX_HTTP_PARSE_INVALID_REQUEST sw_schema_slash r.

(* http/ngx_http_parse.c:330-338 ngx_http_parse_request_line: case sw_schema_slash_slash *)
Definition on_schema_slash_slash : rl_ctl :=
  if ch =? $ "/" then break sw_host_start r
  else return_ NGX_HTTP_PARSE_INVALID_REQUEST sw_schema_slash_slash r.

(* http/ngx_http_parse.c:366-390 ngx_http_parse_request_line: case sw_host_end *)
Definition on_host_end (s : rl_state) (r : request) : rl_ctl :=
  let r := set_host_end p r in
  if ch =? $ ":" then break sw_port r
  else if ch =? $ "/" then break sw_after_slash_in_uri (set_uri_start p r)
  else if ch =? $ " " then
    let r := set_uri_start (schema_end r + 1) r in
    let r := set_uri_end (schema_end r + 2) r in
    break sw_host_http_09 r
  else return_ NGX_HTTP_PARSE_INVALID_REQUEST s r.

(* http/ngx_http_parse.c:353-364 ngx_http_parse_request_line: case sw_host *)
Definition on_host (s : rl_state) (r : request) : rl_ctl :=
  if is_alpha_lc (Z.lor ch 0x20) then break s r
  else if is_digit ch || (ch =? $ ".") || (ch =? $ "-") then break s r
  else on_host_end s r.

(* http/ngx_http_parse.c:340-351 ngx_http_parse_request_line: case sw_host_start *)
Definition on_host_start : rl_ctl :=
  let r := set_host_start p r in
  if ch =? $ "[" then break sw_host_ip_literal r
  else on_host sw_host r.

(* http/ngx_http_parse.c:392-431 ngx_http_parse_request_line: case sw_host_ip_literal *)
Definition on_host_ip_literal : rl_ctl :=
  if is_digit ch then break sw_host_ip_literal r
  else if is_alpha_lc (Z.lor ch 0x20) then break sw_host_ip_literal r
  else if ch =? $ ":" then break sw_host_ip_literal r
  else if ch =? $ "]" then break sw_host_end r
  else if (ch =? $ "-") || (ch =? $ ".") || (ch =? $ "_") || (ch =? $ "~") then
    (* unreserved *)
    break sw_host_ip_literal r
  else if (ch =? $ "!") || (ch =? $ "$") || (ch =? $ "&") || (ch =? $ "'")
       || (ch =? $ "(") || (ch =? $ ")") || (ch =? $ "*") || (ch =? $ "+")
       || (ch =? $ ",") || (ch =? $ ";") || (ch =? $ "=") then
    (* sub-delims *)
    break sw_host_ip_literal r
  else return_ NGX_HTTP_PARSE_INVALID_REQUEST sw_host_ip_literal r.

(* http/ngx_http_parse.c:433-457 ngx_http_parse_request_line: case sw_port *)
Definition on_port : rl_ctl :=
  if is_digit ch then break sw_port r
  else if ch =? $ "/" then
    let r := set_port_end p r in
    let r := set_uri_start p r in
    break sw_after_slash_in_uri r
  else if ch =? $ " " then
    let r := set_port_end p r in
    let r := set_uri_start (schema_end r + 1) r in
    let r := set_uri_end (schema_end r + 2) r in
    break sw_host_http_09 r
  else return_ NGX_HTTP_PARSE_INVALID_REQUEST sw_port r.

(* http/ngx_http_parse.c:460-479 ngx_http_parse_request_line: case sw_host_http_09 *)
Definition on_host_http_09 : rl_ctl :=
  if ch =? $ " " then break sw_host_http_09 r
  else if ch =? CR then break sw_almost_done (set_http_minor 9 r)
  else if ch =? LF then goto_done sw_host_http_09 (set_http_minor 9 r)
  else if ch =? $ "H" then break sw_http_H (set_http_protocol p r)
  else return_ NGX_HTTP_PARSE_INVALID_REQUEST sw_host_http_09 r.

(* http/ngx_http_parse.c:482-538 ngx_http_parse_request_line: case sw_after_slash_in_uri *)
Definition on_after_slash_in_uri : rl_ctl :=
  if is_usual ch then break sw_check_uri r
  else if ch =? $ " " then break sw_check_uri_http_09 (set_uri_end p r)
  else if ch =? CR then break sw_almost_done (set_http_minor 9 (set_uri_end p r))
  else if ch =? LF then
    goto_done sw_after_slash_in_uri (set_http_minor 9 (set_uri_end p r))
  else if ch =? $ "." then break sw_uri (set_complex_uri true r)
  else if ch =? $ "%" then break sw_uri (set_quoted_uri true r)
  else if ch =? $ "/" then break sw_uri (set_complex_uri true r)
  else if ch =? $ "?" then break sw_uri (set_args_start (p + 1) r)
  else if ch =? $ "#" then break sw_uri (set_complex_uri true r)
  else if ch =? $ "+" then break sw_after_slash_in_uri (set_plus_in_uri true r)
  else if ch =? 0 then return_ NGX_HTTP_PARSE_INVALID_REQUEST sw_after_slash_in_uri r
  else break sw_check_uri r.

(* http/ngx_http_parse.c:541-599 ngx_http_parse_request_line: case sw_check_uri *)
Definition on_check_uri : rl_ctl :=
  if is_usual ch then break sw_check_uri r
  else if ch =? $ "/" then break sw_after_slash_in_uri (set_uri_ext NULL r)
  else if ch =? $ "." then break sw_check_uri (set_uri_ext (p + 1) r)
  else if ch =? $ " " then break sw_check_uri_http_09 (set_uri_end p r)
  else if ch =? CR then break sw_almost_done (set_http_minor 9 (set_uri_end p r))
  else if ch =? LF then goto_done sw_check_uri (set_http_minor 9 (set_uri_end p r))
  else if ch =? $ "%" then break sw_uri (set_quoted_uri true r)
  else if ch =? $ "?" then break sw_uri (set_args_start (p + 1) r)
  else if ch =? $ "#" then break sw_uri (set_complex_uri true r)
  else if ch =? $ "+" then break sw_check_uri (set_plus_in_uri true r)
  else if ch =? 0 then return_ NGX_HTTP_PARSE_INVALID_REQUEST sw_check_uri r
  else break sw_check_uri r.

(* http/ngx_http_parse.c:602-623 ngx_http_parse_request_line: case sw_check_uri_http_09 *)
Definition on_check_uri_http_09 : rl_ctl :=
  if ch =? $ " " then break sw_check_uri_http_09 r
  else if ch =? CR then break sw_almost_done (set_http_minor 9 r)
  else if ch =? LF then goto_done sw_check_uri_http_09 (set_http_minor 9 r)
  else if ch =? $ "H" then break sw_http_H (set_http_protocol p r)
  else break_back sw_check_uri (set_space_in_uri true r).

(* http/ngx_http_parse.c:627-653 ngx_http_parse_request_line: case sw_uri *)
Definition on_uri : rl_ctl :=
  if is_usual ch then break sw_uri r
  else if ch =? $ " " then break sw_http_09 (set_uri_end p r)
  else if ch =? CR then break sw_almost_done (set_http_minor 9 (set_uri_end p r))
  else if ch =? LF then goto_done sw_uri (set_http_minor 9 (set_uri_end p r))
  else if ch =? $ "#" then break sw_uri (set_complex_uri true r)
  else if ch =? 0 then return_ NGX_HTTP_PARSE_INVALID_REQUEST sw_uri r
  else break sw_uri r.

(* http/ngx_http_parse.c:656-677 ngx_http_parse_request_line: case sw_http_09 *)
Definition on_http_09 : rl_ctl :=
  if ch =? $ " " then break sw_http_09 r
  else if ch =? CR then break sw_almost_done (set_http_minor 9 r)
  else if ch =? LF then goto_done sw_http_09 (set_http_minor 9 r)
  else if ch =? $ "H" then break sw_http_H (set_http_protocol p r)
  else break_back sw_uri (set_space_in_uri true r).

(* http/ngx_http_parse.c:679-717 ngx_http_parse_request_line: case sw_http_H .. sw_http_HTTP *)
Definition on_http_letter (s : rl_state) (c : Z) (next : rl_state) : rl_ctl :=
  if ch =? c then break next r
  else return_ NGX_HTTP_PARSE_INVALID_REQUEST s r.

(* http/ngx_http_parse.c:720-727 ngx_http_parse_request_line: case sw_first_major_digit *)
Definition on_first_major_digit : rl_ctl :=
  if (ch <? $ "1") || ($ "9" <? ch) then
    return_ NGX_HTTP_PARSE_INVALID_REQUEST sw_first_major_digit r
  else break sw_major_digit (set_http_major (u16 (ch - $ "0")) r).

(* http/ngx_http_parse.c:730-745 ngx_http_parse_request_line: case sw_major_digit *)
Definition on_major_digit : rl_ctl :=
  if ch =? $ "." then break sw_first_minor_digit r
  else if negb (is_digit ch) then
    return_ NGX_HTTP_PARSE_INVALID_REQUEST sw_major_digit r
  else if 99 <? http_major r then
    return_ NGX_HTTP_PARSE_INVALID_REQUEST sw_major_digit r
  else break sw_major_digit (set_http_major (u16 (http_major r * 10 + ch - $ "0")) r).

(* http/ngx_http_parse.c:748-755 ngx_http_parse_request_line: case sw_first_minor_digit *)
Definition on_first_minor_digit : rl_ctl :=
  if negb (is_digit ch) then
    return_ NGX_HTTP_PARSE_INVALID_REQUEST sw_first_minor_digit r
  else break sw_minor_digit (set_http_minor (u16 (ch - $ "0")) r).

(* http/ngx_http_parse.c:758-782 ngx_http_parse_request_line: case sw_minor_digit *)
Definition on_minor_digit : rl_ctl :=
  if ch =? CR then break sw_almost_done r
  else if ch =? LF then goto_done sw_minor_digit r
  else if ch =? $ " " then break sw_spaces_after_digit r
  else if negb (is_digit ch) then
    return_ NGX_HTTP_PARSE_INVALID_REQUEST sw_minor_digit r
  else if 99 <? http_minor r then
    return_ NGX_HTTP_PARSE_INVALID_REQUEST sw_minor_digit r
  else break sw_minor_digit (set_http_minor (u16 (http_minor r * 10 + ch - $ "0")) r).

(* http/ngx_http_parse.c:784-796 ngx_http_parse_request_line: case sw_spaces_after_digit *)
Definition on_spaces_after_digit : rl_ctl :=
  if ch =? $ " " then break sw_spaces_after_digit r
  else if ch =? CR then break sw_almost_done r
  else if ch =? LF then goto_done sw_spaces_after_digit r
  else return_ NGX_HTTP_PARSE_INVALID_REQUEST sw_spaces_after_digit r.

(* http/ngx_http_parse.c:799-806 ngx_http_parse_request_line: case sw_almost_done *)
Definition on_almost_done : rl_ctl :=
  let r := set_request_end (p - 1) r in
  if ch =? LF then goto_done sw_almost_done r
  else return_ NGX_HTTP_PARSE_INVALID_REQUEST sw_almost_done r.
End states.

(* http/ngx_http_parse.c:139-142 ngx_http_parse_request_line: switch (state) *)
Definition rl_step (mem : memory) (l : rl_local) (p : Z) : rl_ctl :=
  let '(s, r) := l in
  let ch := mem p in
  match s with
  | sw_start => on_start p ch r
  | sw_method => on_method mem p ch r
  | sw_spaces_before_uri => on_spaces_before_uri p ch r
  | sw_schema => on_schema p ch r
  | sw_schema_slash => on_schema_slash p ch r
  | sw_schema_slash_slash => on_schema_slash_slash p ch r
  | sw_host_start => on_host_start p ch r
  | sw_host => on_host p ch sw_host r
  | sw_host_end => on_host_end p ch sw_host_end r
  | sw_host_ip_literal => on_host_ip_literal p ch r
  | sw_port => on_port p ch r
  | sw_host_http_09 => on_host_http_09 p ch r
  | sw_after_slash_in_uri => on_after_slash_in_uri p ch r
  | sw_check_uri => on_check_uri p ch r
  | sw_check_uri_http_09 => on_check_uri_http_09 p ch r
  | sw_uri => on_uri p ch r
  | sw_http_09 => on_http_09 p ch r
  | sw_http_H => on_http_letter p ch r sw_http_H ($ "T") sw_http_HT
  | sw_http_HT => on_http_letter p ch r sw_http_HT ($ "T") sw_http_HTT
  | sw_http_HTT => on_http_letter p ch r sw_http_HTT ($ "P") sw_http_HTTP
  | sw_http_HTTP => on_http_letter p ch r sw_http_HTTP ($ "/") sw_first_major_digit
  | sw_first_major_digit => on_first_major_digit p ch r
  | sw_major_digit => on_major_digit p ch r
  | sw_first_minor_digit => on_first_minor_digit p ch r
  | sw_minor_digit => on_minor_digit p ch r
  | sw_spaces_after_digit => on_spaces_after_digit p ch r
  | sw_almost_done => on_almost_done p ch r
  end.

(** What follows the loop: the [NGX_AGAIN] epilogue and the label [done]. *)
(* http/ngx_http_parse.c:810-831 ngx_http_parse_request_line: epilogue and done *)
Definition rl_finish (b : buf) (o : outcome rl_exit rl_local) : Z * request * buf :=
  match o with
  | Fell (s, r) p => (NGX_AGAIN, set_state (rl_encode s) r, Buf p (last b))
  | Left (RlReturn rc) (_, r) _ => (rc, r, b)
  | Left RlDone (_, r) p =>
      let b := Buf (p + 1) (last b) in
      let r := if request_end r =? NULL then set_request_end p r else r in
      let r := set_http_version (http_major r * 1000 + http_minor r) r in
      let r := set_state (rl_encode sw_start) r in
      if (http_version r =? 9) && negb (method r =? NGX_HTTP_GET) then
        (NGX_HTTP_PARSE_INVALID_09_METHOD, r, b)
      else (NGX_OK, r, b)
  end.

(** [None] only for an [r->state] that is not a state of this machine. *)
(* http/ngx_http_parse.c:103-143 ngx_http_parse_request_line *)
Definition ngx_http_parse_request_line (mem : memory) (r : request) (b : buf)
  : option (Z * request * buf) :=
  s ← rl_decode (state r);
  o ← scan (rl_step mem) (scan_fuel 1 (last b) (pos b)) (last b) (s, r) (pos b);
  Some (rl_finish b o).

Example parse_get_example :
  let line := bytes "GET /a.html?x=1 HTTP/1.1" ++ [CR; LF] in
  option_map (fun '(rc, r, b) =>
      (rc, method r, uri_start r, uri_end r, args_start r, uri_ext r,
       http_version r, request_end r, pos b))
    (ngx_http_parse_request_line (load 100 line) fresh_request (Buf 100 126))
  = Some (NGX_OK, NGX_HTTP_GET, 104, 115, 112, 107, 1001, 124, 126).
Proof. vm_compute. reflexivity. Qed.

(** ** Method recognition: the two families of macros agree *)

Lemma pack32_sum c0 c1 c2 c3 :
  is_byte c0 -> is_byte c1 -> is_byte c2 -> is_byte c3 ->
  pack32 c0 c1 c2 c3 = c0 + c1 * 2 ^ 8 + c2 * 2 ^ 16 + c3 * 2 ^ 24.
Proof.
  unfold is_byte, pack32. intros. rewrite !Z.shiftl_mul_pow2 by lia.
  rewrite (lor_add_low (c3 * 2 ^ 24) _ 24) by (try apply Z.divide_factor_r; lia).
  rewrite (lor_add_low _ (c1 * 2 ^ 8) 16)
    by (first [lia | exists (c3 * 2 ^ 8 + c2); lia]).
  rewrite (lor_add_low _ c0 8)
    by (first [lia | exists (c3 * 2 ^ 16 + c2 * 2 ^ 8 + c1); lia]).
  lia.
Qed.

Lemma read32_eqb mem m c0 c1 c2 c3 :
  (forall a, is_byte (mem a)) ->
  is_byte c0 -> is_byte c1 -> is_byte c2 -> is_byte c3 ->
  (read32 mem m =? pack32 c0 c1 c2 c3) =
  (mem m =? c0) && (mem (m + 1) =? c1) && (mem (m + 2) =? c2) && (mem (m + 3) =? c3).
Proof.
  intros Hm H0 H1 H2 H3. rewrite pack32_sum by done. unfold read32.
  pose proof (Hm m). pose proof (Hm (m + 1)). pose proof (Hm (m + 2)).
  pose proof (Hm (m + 3)). unfold is_byte in *.
  apply eq_true_iff_eq. rewrite !andb_true_iff, !Z.eqb_eq. lia.
Qed.

Lemma read16_eqb mem m c0 c1 :
  (forall a, is_byte (mem a)) -> is_byte c0 -> is_byte c1 ->
  (Z.land (read32 mem m) 0xffff =? Z.lor (Z.shiftl c1 8) c0) =
  (mem m =? c0) && (mem (m + 1) =? c1).
Proof.
  intros Hm H0 H1. change 0xffff with (2 ^ 16 - 1). rewrite land_ones_mod by lia.
  rewrite lor_shiftl_add by (unfold is_byte in *; lia). unfold read32.
  pose proof (Hm m). pose proof (Hm (m + 1)). unfold is_byte in *.
  replace (mem m + mem (m + 1) * 2 ^ 8 + mem (m + 2) * 2 ^ 16 + mem (m + 3) * 2 ^ 24)
    with (mem m + mem (m + 1) * 2 ^ 8 + (mem (m + 2) + mem (m + 3) * 2 ^ 8) * 2 ^ 16)
    by lia.
  rewrite Z.mod_add, Z.mod_small by lia.
  apply eq_true_iff_eq. rewrite !andb_true_iff, !Z.eqb_eq. lia.
Qed.

Lemma method_switch_same mem m p old :
  (forall a, is_byte (mem a)) -> mem p = $ " " ->
  method_switch le_cmp mem m p old = method_switch portable_cmp mem m p old.
Proof.
  intros Hm Hp. unfold method_switch, le_cmp, portable_cmp; simpl.
  rewrite !read32_eqb, !read16_eqb by (try done; unfold is_byte; lia).
  replace (m + 4 + 1) with (m + 5) by lia. replace (m + 4 + 2) with (m + 6) by lia.
  replace (m + 4 + 3) with (m + 7) by lia.
  destruct (Z.eqb_spec (p - m) 3) as [H3|_].
  { replace p with (m + 3) in Hp by lia. by rewrite Hp, !andb_true_r. }
  destruct (Z.eqb_spec (p - m) 4) as [_|_].
  { destruct (mem (m + 1) =? $ "O") eqn:E; [|done].
    by rewrite !andb_true_r. }
  rewrite !andb_assoc.
  destruct (p - m =? 5); [done|]. destruct (p - m =? 6); [done|].
  destruct (Z.eqb_spec (p - m) 7) as [H7|_].
  { replace p with (m + 7) in Hp by lia. by rewrite Hp, !andb_true_r. }
  done.
Qed.

(** The little-endian 32-bit comparisons recognise exactly the methods that
    the portable byte comparisons recognise. *)
Theorem method_switch_portable mem m p old :
  (forall a, is_byte (mem a)) -> mem p = $ " " ->
  method_switch le_cmp mem m p old = method_switch portable_cmp mem m p old.
Proof. apply method_switch_same. Qed.

(** ** Termination *)

(** Only the two states that undo a read ([p--]) have potential. *)
Definition rl_pot (l : rl_local) : nat :=
  match l.1 with sw_check_uri_http_09 | sw_http_09 => 1 | _ => 0 end.

Ltac rl_unfold :=
  unfold rl_step, on_start, on_method, on_spaces_before_uri, on_schema,
    on_schema_slash, on_schema_slash_slash, on_host_start, on_host, on_host_end,
    on_host_ip_literal, on_port, on_host_http_09, on_after_slash_in_uri,
    on_check_uri, on_check_uri_http_09, on_uri, on_http_09, on_http_letter,
    on_first_major_digit, on_major_digit, on_first_minor_digit, on_minor_digit,
    on_spaces_after_digit, on_almost_done, break, break_back, return_, goto_done in *;
  cbv zeta in *.

(** Splits [H : rl_step mem (s, r) p = c] into the branches of the handler. *)
Ltac rl_cases H :=
  rl_unfold;
  repeat match type of H with
    | (if ?c then _ else _) = _ => let E := fresh "E" in destruct c eqn:E
    end;
  simplify_eq/=.

Lemma rl_progress mem l p l' p' :
  rl_step mem l p = Next l' p' -> p' = p \/ (p' = p - 1 /\ (rl_pot l' < rl_pot l)%nat).
Proof.
  destruct l as [s r]. intros H. destruct s; rl_cases H; auto.
Qed.

Lemma rl_pot_le l : (rl_pot l <= 1)%nat.
Proof. destruct l as [s r]; destruct s; vm_compute; lia. Qed.

Lemma rl_scan_iff mem last l p o :
  scan (rl_step mem) (scan_fuel 1 last p) last l p = Some o
  <-> scans (rl_step mem) last l p o.
Proof. apply scan_iff with rl_pot; eauto using rl_pot_le, rl_progress. Qed.

(** The parser in terms of the relation. *)
Lemma parse_request_line_iff mem r b res :
  ngx_http_parse_request_line mem r b = Some res <->
  exists s o, rl_decode (state r) = Some s /\
    scans (rl_step mem) (last b) (s, r) (pos b) o /\ res = rl_finish b o.
Proof.
  unfold ngx_http_parse_request_line. rewrite bind_Some.
  apply exist_proper; intros s. setoid_rewrite bind_Some.
  setoid_rewrite rl_scan_iff.
  split; [intros (? & o & ? & ?)|intros (o & ? & ? & ->)]; simplify_eq; eauto 6.
Qed.

(** The parser returns on every input: its loop ends within the fuel the
    definition gives it. *)
Theorem parse_request_line_total mem r b :
  is_Some (rl_decode (state r)) ->
  is_Some (ngx_http_parse_request_line mem r b).
Proof.
  intros [s Es].
  destruct (scan_total (rl_step mem) rl_pot 1 rl_pot_le (rl_progress mem)
    (last b) (s, r) (pos b)) as [o Ho].
  exists (rl_finish b o). apply parse_request_line_iff.
  exists s, o. apply scan_scans in Ho. auto.
Qed.

(** ** Resumption

    The loop never reads [r->state]; an error return leaves the value that
    the last completed call stored there. *)

Definition with_state (z : Z) (l : rl_local) : rl_local := (l.1, set_state z l.2).

Lemma rl_step_with_state mem z l p :
  rl_step mem (with_state z l) p = ctl_map (with_state z) (rl_step mem l p).
Proof.
  destruct l as [s r]. unfold with_state.
  destruct s; rl_unfold; simpl; repeat (case_match; try reflexivity).
Qed.

Lemma rl_step_return mem l p rc l' p' :
  rl_step mem l p = Leave (RlReturn rc) l' p' ->
  rc = NGX_HTTP_PARSE_INVALID_METHOD \/ rc = NGX_HTTP_PARSE_INVALID_REQUEST.
Proof.
  destruct l as [s r]. intros H. destruct s; rl_cases H; auto.
Qed.

Lemma rl_scans_return mem last l p rc l' p' :
  scans (rl_step mem) last l p (Left (RlReturn rc) l' p') ->
  rc = NGX_HTTP_PARSE_INVALID_METHOD \/ rc = NGX_HTTP_PARSE_INVALID_REQUEST.
Proof.
  intros H.
  apply (scans_inv _ _ (fun _ _ => True) (fun l _ _ => forall rc, l = RlReturn rc ->
    rc = NGX_HTTP_PARSE_INVALID_METHOD \/ rc = NGX_HTTP_PARSE_INVALID_REQUEST)) in H;
    naive_solver eauto using rl_step_return.
Qed.

(** What a caller can rely on after a call: everything, except that an error
    return leaves [r->state] and [b->pos] as the last completed call set them. *)
Definition rl_observe (x : Z * request * buf) : Z * request * buf :=
  let '(rc, r, b) := x in
  if (rc =? NGX_HTTP_PARSE_INVALID_METHOD) || (rc =? NGX_HTTP_PARSE_INVALID_REQUEST)
  then (rc, set_state 0 r, Buf 0 (last b)) else x.

Lemma rl_finish_resume z p1 p2 l o :
  (forall rc r p, o = Left (RlReturn rc) r p ->
    rc = NGX_HTTP_PARSE_INVALID_METHOD \/ rc = NGX_HTTP_PARSE_INVALID_REQUEST) ->
  rl_observe (rl_finish (Buf p1 l) (outcome_map (with_state z) o)) =
  rl_observe (rl_finish (Buf p2 l) o).
Proof.
  intros Ho. destruct o as [[s r] p|[rc|] [s r] p]; simpl.
  - done.
  - by destruct (Ho rc (s, r) p eq_refl) as [-> | ->].
  - destruct (request_end r =? NULL); simpl; by case_match.
Qed.

(** C37. Splitting the input does not change the parse: after [NGX_AGAIN] on a
    prefix of the input, the continued call gives on the longer buffer the
    result that a single call gives on it. *)
Theorem parse_request_line_resume mem r p last1 last2 r1 b1 :
  ngx_http_parse_request_line mem r (Buf p last1) = Some (NGX_AGAIN, r1, b1) ->
  last1 <= last2 ->
  rl_observe <$> ngx_http_parse_request_line mem r1 (Buf (pos b1) last2) =
  rl_observe <$> ngx_http_parse_request_line mem r (Buf p last2).
Proof.
  intros H Hl. apply parse_request_line_iff in H as (s & o & Es & Ho & Hf). simpl in *.
  assert (exists s' r', o = Fell (s', r') (pos b1) /\ r1 = set_state (rl_encode s') r')
    as (s' & r' & -> & ->).
  { destruct o as [[s' r'] p'|[rc|] [s' r'] p']; simpl in Hf; simplify_eq/=; [by eauto| |].
    - by apply rl_scans_return in Ho as [?|?].
    - by destruct (_ && _) in Hf. }
  destruct (scan_total (rl_step mem) rl_pot 1 rl_pot_le (rl_progress mem) last2 (s, r) p)
    as [o2 Ho2%scan_scans].
  assert (ngx_http_parse_request_line mem r (Buf p last2) =
    Some (rl_finish (Buf p last2) o2)) as -> by (apply parse_request_line_iff; eauto).
  rewrite <- (scans_resume _ _ _ _ _ _ _ _ Hl Ho) in Ho2.
  apply (scans_map _ (with_state (rl_encode s'))) in Ho2 as Hm;
    [|intros; apply rl_step_with_state].
  assert (ngx_http_parse_request_line mem (set_state (rl_encode s') r')
    (Buf (pos b1) last2) = Some (rl_finish (Buf (pos b1) last2)
      (outcome_map (with_state (rl_encode s')) o2))) as ->.
  { apply parse_request_line_iff. exists s', (outcome_map (with_state (rl_encode s')) o2).
    rewrite <- rl_decode_encode. auto. }
  simpl. f_equal. apply rl_finish_resume.
  intros rc l q ->. by eapply rl_scans_return.
Qed.

(** ** What the parser guarantees about the positions it records *)

Section positions.
Variable mem : memory.
Hypothesis mem_bytes : forall a, is_byte (mem a).
Variable lo : Z.
Hypothesis lo_pos : 0 < lo.

Lemma usual_clean ch : is_byte ch -> is_usual ch = true -> ch <> 0 /\ ch <> CR /\ ch <> LF.
Proof.
  intros Hb. rewrite is_usual_spec by done. unfold unusual; simpl.
  unfold CR, LF. lia.
Qed.

Definition version_ok (r : request) : Prop :=
  0 <= http_major r <= 999 /\ 0 <= http_minor r <= 999.
(** Nothing of the URI seen yet. *)
Definition no_uri (r : request) : Prop := args_start r = NULL /\ uri_ext r = NULL.
Definition no_host (r : request) : Prop := host_start r = NULL.
(** The method's first byte and last byte; the cursor is past the space. *)
Definition method_read (r : request) (p : Z) : Prop :=
  lo <= request_start r <= method_end r /\ method_end r + 1 < p.
(** "schema:/" has been read. *)
Definition schema_read (r : request) : Prop :=
  method_end r + 1 < schema_end r /\ mem (schema_end r + 1) = $ "/".
Definition host_open (r : request) (p : Z) : Prop :=
  schema_end r + 2 < host_start r <= p.
Definition host_closed (r : request) (p : Z) : Prop :=
  host_start r = NULL \/
  (schema_read r /\ schema_end r + 2 < host_start r /\
   host_start r <= host_end r < p).
(** The URI extends from its slash to [e]. *)
Definition uri_upto (r : request) (e : Z) : Prop :=
  method_end r + 1 < uri_start r < e /\ mem (uri_start r) = $ "/" /\
  clean mem (uri_start r) e /\
  (args_start r = NULL \/ uri_start r < args_start r <= e) /\
  (uri_ext r = NULL \/ uri_start r < uri_ext r <= e).

Definition rl_inv (l : rl_local) (p : Z) : Prop :=
  let '(s, r) := l in
  lo <= p /\ version_ok r /\ request_end r = NULL /\
  match s with
  | sw_start => no_uri r /\ no_host r
  | sw_method => lo <= request_start r < p /\ no_uri r /\ no_host r
  | sw_spaces_before_uri | sw_schema => method_read r p /\ no_uri r /\ no_host r
  | sw_schema_slash =>
      method_read r p /\ no_uri r /\ no_host r /\
      method_end r + 1 < schema_end r /\ schema_end r + 1 = p
  | sw_schema_slash_slash =>
      method_read r p /\ no_uri r /\ no_host r /\ schema_read r /\ schema_end r + 2 = p
  | sw_host_start =>
      method_read r p /\ no_uri r /\ no_host r /\ schema_read r /\ schema_end r + 2 < p
  | sw_host | sw_host_ip_literal | sw_host_end =>
      method_read r p /\ no_uri r /\ schema_read r /\ host_open r p
  | sw_port =>
      method_read r p /\ no_uri r /\ schema_read r /\ host_open r p /\
      host_start r <= host_end r < p
  | sw_after_slash_in_uri | sw_check_uri | sw_uri =>
      method_read r p /\ host_closed r p /\ uri_upto r p
  | sw_check_uri_http_09 | sw_http_09 =>
      method_read r p /\ host_closed r p /\ uri_upto r p /\
      uri_upto r (uri_end r) /\ uri_end r < p
  | _ =>
      method_read r p /\ host_closed r p /\ uri_upto r (uri_end r) /\ uri_end r < p
  end.

(** At [goto done], with the cursor on the line feed. *)
Definition rl_done (r : request) (p : Z) : Prop :=
  version_ok r /\ method_read r p /\ host_closed r (p + 1) /\
  uri_upto r (uri_end r) /\ mem p = LF /\
  ((request_end r = NULL /\ uri_end r <= p) \/
   (request_end r = p - 1 /\ uri_end r <= p - 1)).

Lemma u16_small z : 0 <= z <= 9999 -> u16 z = z.
Proof. intros. apply Z.mod_small. lia. Qed.

Lemma method_read_mono r p q : method_read r p -> p <= q -> method_read r q.
Proof. unfold method_read. lia. Qed.

Lemma host_closed_mono r p q : host_closed r p -> p <= q -> host_closed r q.
Proof. intros [|(? & ? & ?)] ?; [by left|right]. split_and!; done || lia. Qed.

(** Extending the URI by one byte. *)
Lemma uri_upto_snoc r p :
  uri_upto r p -> mem p <> 0 -> mem p <> CR -> mem p <> LF -> uri_upto r (p + 1).
Proof.
  intros (Hs & Hm & Hc & Ha & He) ???. unfold uri_upto.
  split_and!; [lia|lia|done|by apply clean_snoc|lia|lia].
Qed.

Lemma uri_upto_ext r p e :
  uri_upto r p -> e = NULL \/ e = p -> uri_upto (set_uri_ext e r) p.
Proof.
  intros (Hs & Hm & Hc & Ha & He) ?. unfold uri_upto; simpl.
  split_and!; auto; unfold NULL in *; lia.
Qed.

Lemma uri_upto_args r p : uri_upto r p -> uri_upto (set_args_start p r) p.
Proof.
  intros (Hs & Hm & Hc & Ha & He). unfold uri_upto; simpl. split_and!; auto; lia.
Qed.

(** A URI that starts with the slash under the cursor. *)
Lemma uri_upto_slash r a :
  mem a = $ "/" -> method_end r + 1 < a -> no_uri r -> uri_start r = a ->
  uri_upto r (a + 1).
Proof.
  intros Hm ? [Ha He] Hs. subst a. unfold uri_upto.
  split_and!; auto; try lia. apply clean_one; unfold CR, LF; lia.
Qed.

(** "http://host " takes its URI from the slash after the schema. *)
Lemma uri_upto_schema r :
  schema_read r -> no_uri r ->
  uri_upto (set_uri_end (schema_end r + 2) (set_uri_start (schema_end r + 1) r))
    (schema_end r + 2).
Proof.
  intros [??] ?. replace (schema_end r + 2) with (schema_end r + 1 + 1) by lia.
  apply uri_upto_slash; simpl; done || lia.
Qed.

(** One tactic per form of goal that [rl_inv] consists of. *)
Ltac rl_byte := unfold CR, LF in *; lia.

Ltac rl_uri :=
  match goal with
  | H : uri_upto ?r ?q |- uri_upto _ _ => exact H
  | H : uri_upto ?r ?q |- _ => refine (uri_upto_snoc r q H _ _ _); rl_byte
  | H : uri_upto ?r ?q |- uri_upto (set_uri_ext ?e _) (_ + 1) =>
      refine (uri_upto_ext r (q + 1) e (uri_upto_snoc r q H _ _ _) _); first [rl_byte | auto]
  | H : uri_upto ?r ?q |- uri_upto (set_args_start _ _) (_ + 1) =>
      refine (uri_upto_args r (q + 1) (uri_upto_snoc r q H _ _ _)); rl_byte
  | H : schema_read ?r |- _ => refine (uri_upto_schema r H _); assumption
  | H : no_uri ?r |- _ =>
      apply uri_upto_slash; simpl; unfold method_read in *; done || lia
  end.

Ltac rl_goal :=
  lazymatch goal with
  | |- uri_upto _ _ => rl_uri
  | |- method_read _ _ =>
      first [ match goal with H : method_read ?r ?q |- _ =>
                refine (method_read_mono r q _ H _); lia end
            | unfold method_read; simpl; lia ]
  | |- host_closed _ _ =>
      first [ match goal with H : host_closed ?r ?q |- _ =>
                refine (host_closed_mono r q _ H _); lia end
            | by left
            | right; unfold host_open in *; simpl; split_and!; first [assumption | lia] ]
  | |- version_ok _ =>
      first [ assumption
            | unfold version_ok, is_digit in *; simpl; rewrite u16_small by lia; lia
            | unfold version_ok in *; simpl; lia ]
  | |- _ =>
      first [ assumption
            | unfold method_read, schema_read, host_open in *; simpl; lia
            | unfold schema_read in *; simpl; split_and!; first [assumption | lia |
                match goal with H : schema_end ?r + 1 = _ |- mem (schema_end ?r + 1) = _ =>
                  rewrite H; lia end ] ]
  end.

Lemma rl_inv_next l p l' p' :
  rl_inv l p -> rl_step mem l p = Next l' p' -> rl_inv l' (p' + 1).
Proof.
  destruct l as [s r]. intros (Hlo & Hv & He & HI) H.
  pose proof (usual_clean _ (mem_bytes p)) as Hu. unfold CR, LF in Hu.
  destruct s; rl_cases H; rewrite ?Z.sub_add; unfold rl_inv; destruct_and?;
    try (destruct (Hu eq_refl) as (? & ? & ?)); split_and!; rl_goal.
Qed.

Lemma rl_inv_done l p s r p' :
  rl_inv l p -> rl_step mem l p = Leave RlDone (s, r) p' -> rl_done r p' /\ p' = p.
Proof.
  destruct l as [s0 r0]. intros (Hlo & Hv & He & HI) H.
  pose proof (mem_bytes p) as Hb.
  destruct s0; rl_cases H; unfold rl_done; destruct_and?; split_and!; rl_goal.
Qed.

Lemma rl_scans_done last r p s' r' p' :
  rl_inv (sw_start, r) p ->
  scans (rl_step mem) last (sw_start, r) p (Left RlDone (s', r') p') ->
  rl_done r' p' /\ p' < last.
Proof.
  intros HI H.
  apply (scans_inv _ _ rl_inv
    (fun l r p => l = RlDone -> rl_done r.2 p /\ p < last)) in H; auto.
  - intros; eapply rl_inv_next; eauto.
  - intros l q e [s2 r2] q2 Hq HI2 Hs ->.
    apply rl_inv_done in Hs as [? ->]; auto.
Qed.
End positions.

(** A request none of whose request line fields is set. *)
Definition unparsed (r : request) : Prop :=
  state r = 0 /\ args_start r = NULL /\ uri_ext r = NULL /\ host_start r = NULL /\
  request_end r = NULL /\ version_ok r.

(** The order of the recorded positions within [lo, hi): the method, the URI
    (which starts with a slash and holds no NUL, CR or LF), its arguments, the
    host of an absolute URI, the end of the line. *)
Definition positions_ok (mem : memory) (r : request) (lo hi : Z) : Prop :=
  lo <= request_start r <= method_end r /\
  method_end r + 1 < uri_start r /\
  uri_start r < uri_end r <= request_end r /\
  request_end r < hi /\
  mem (uri_start r) = $ "/" /\
  clean mem (uri_start r) (uri_end r) /\
  (args_start r = NULL \/ uri_start r < args_start r <= uri_end r) /\
  (uri_ext r = NULL \/ uri_start r < uri_ext r <= uri_end r) /\
  (host_start r = NULL \/ method_end r + 1 < host_start r <= host_end r /\ host_end r < hi) /\
  mem (hi - 1) = LF.

(** C35. When the parser accepts a request line, the positions it recorded lie in
    the part of the buffer it consumed, in the order of the grammar; the URI
    starts with "/" and holds no NUL, CR or LF byte; and the version numbers
    did not overflow their 16-bit fields. *)
Theorem parse_request_line_positions mem r b r' b' :
  (forall a, is_byte (mem a)) -> 0 < pos b -> unparsed r ->
  ngx_http_parse_request_line mem r b = Some (NGX_OK, r', b') ->
  positions_ok mem r' (pos b) (pos b') /\ pos b' <= last b /\ last b' = last b /\
  0 <= http_major r' <= 999 /\ 0 <= http_minor r' <= 999 /\
  http_version r' = http_major r' * 1000 + http_minor r'.
Proof.
  intros Hm Hlo (Hst & Ha & He & Hh & Hre & Hv) H.
  apply parse_request_line_iff in H as (s & o & Es & Ho & Hf).
  rewrite Hst in Es. change (Some sw_start = Some s) in Es. simplify_eq/=.
  destruct o as [[s1 r1] p1|[rc|] [s1 r1] p1]; simpl in Hf; [by simplify_eq| |].
  { apply rl_scans_return in Ho. simplify_eq. by destruct Ho. }
  apply (rl_scans_done mem Hm (pos b)) in Ho as [Hd Hp];
    [|unfold rl_inv, no_uri, no_host; split_and!; auto; lia].
  destruct Hd as (Hv1 & [Hm1 Hm2] & Hh1 & (Hu & Hsl & Hc & Hargs & Hext) & Hlf & Hend).
  unfold version_ok, positions_ok, host_closed, schema_read in *.
  unfold NULL in *.
  destruct (request_end r1 =? 0) eqn:E0; simpl in Hf;
    case_match; simplify_eq/=; rewrite ?Z.add_simpl_r; split_and!; auto; try lia.
Qed.

(** ** Which method a name denotes *)

Fixpoint bytes_eqb (l k : list Z) : bool :=
  match l, k with
  | [], [] => true
  | x :: l, y :: k => (y =? x) && bytes_eqb l k
  | _, _ => false
  end.

(** The method names of the grammar with the constants they stand for. *)
Definition method_table : list (list Z * Z) :=
  [ (bytes "GET", NGX_HTTP_GET); (bytes "PUT", NGX_HTTP_PUT);
    (bytes "POST", NGX_HTTP_POST); (bytes "COPY", NGX_HTTP_COPY);
    (bytes "MOVE", NGX_HTTP_MOVE); (bytes "LOCK", NGX_HTTP_LOCK);
    (bytes "HEAD", NGX_HTTP_HEAD); (bytes "MKCOL", NGX_HTTP_MKCOL);
    (bytes "PATCH", NGX_HTTP_PATCH); (bytes "TRACE", NGX_HTTP_TRACE);
    (bytes "DELETE", NGX_HTTP_DELETE); (bytes "UNLOCK", NGX_HTTP_UNLOCK);
    (bytes "OPTIONS", NGX_HTTP_OPTIONS); (bytes "PROPFIND", NGX_HTTP_PROPFIND);
    (bytes "PROPPATCH", NGX_HTTP_PROPPATCH) ].

Fixpoint method_lookup (t : list (list Z * Z)) (name : list Z) (old : Z) : Z :=
  match t with
  | [] => old
  | (n, v) :: t => if bytes_eqb n name then v else method_lookup t name old
  end.

Definition method_of_name (name : list Z) (old : Z) : Z := method_lookup method_table name old.

Lemma method_switch_name mem m name old :
  (forall a, is_byte (mem a)) -> holds mem m name ->
  mem (m + Z.of_nat (length name)) = $ " " ->
  method_switch le_cmp mem m (m + Z.of_nat (length name)) old = method_of_name name old.
Proof.
  intros Hm Hh Hsp. rewrite method_switch_same by done.
  unfold method_switch, method_of_name.
  replace (m + Z.of_nat (length name) - m) with (Z.of_nat (length name)) by lia.
  destruct name as [|c0 [|c1 [|c2 [|c3 [|c4 [|c5 [|c6 [|c7 [|c8 [|c9 name]]]]]]]]]].
  all: rewrite ?holds_cons in Hh; destruct_and?; rewrite <- ?Z.add_assoc in *.
  11: { assert (Hk : 10 <= Z.of_nat (length
      (c0 :: c1 :: c2 :: c3 :: c4 :: c5 :: c6 :: c7 :: c8 :: c9 :: name)))
      by (cbn [length]; lia).
      revert Hk. generalize (Z.of_nat (length
      (c0 :: c1 :: c2 :: c3 :: c4 :: c5 :: c6 :: c7 :: c8 :: c9 :: name))). intros k Hk.
      rewrite !(proj2 (Z.eqb_neq k _)) by lia.
      simpl. by rewrite !andb_false_r. }
  all: simpl in *; subst; rewrite ?andb_true_r, ?andb_false_r, ?andb_assoc; try done.
  (* four bytes: the source tests the second one first *)
  change (char_code "O") with 79. destruct (mem (m + 1) =? 79) eqn:E.
  - apply Z.eqb_eq in E. rewrite E. change (79 =? char_code "E") with false.
    by rewrite !andb_true_r, !andb_false_r.
  - by rewrite !andb_false_r.
Qed.

(** ** Accepting well-formed request lines *)

(** A byte that may occur inside the URI of an accepted line; a space may too,
    but only where the protocol name does not follow. *)
Definition uri_byte (c : Z) : Prop := is_byte c /\ c <> 0 /\ c <> CR /\ c <> LF /\ c <> $ " ".

Definition method_byte (c : Z) : Prop :=
  ($ "A" <= c <= $ "Z") \/ c = $ "_" \/ c = $ "-".

#[export] Instance uri_byte_dec c : Decision (uri_byte c).
Proof. unfold uri_byte. apply _. Defined.
#[export] Instance method_byte_dec c : Decision (method_byte c).
Proof. unfold method_byte. apply _. Defined.

(** The fields that a URI byte does not change. *)
Definition uri_frame (r r' : request) : Prop :=
  method r' = method r /\ request_start r' = request_start r /\
  method_end r' = method_end r /\ uri_start r' = uri_start r /\
  request_end r' = request_end r.

Definition in_uri (s : rl_state) : Prop :=
  s = sw_after_slash_in_uri \/ s = sw_check_uri \/ s = sw_uri.

Lemma uri_byte_step mem s r p :
  in_uri s -> uri_byte (mem p) ->
  exists s' r', rl_step mem (s, r) p = Next (s', r') p /\ in_uri s' /\ uri_frame r r'.
Proof.
  intros Hs (_ & H0 & Hcr & Hlf & Hsp). unfold in_uri, uri_frame.
  destruct Hs as [-> | [-> | ->]]; rl_unfold;
    repeat case_match; try lia; do 2 eexists; (split; [reflexivity|]); simpl; auto 10.
Qed.

Lemma uri_frame_trans r1 r2 r3 : uri_frame r1 r2 -> uri_frame r2 r3 -> uri_frame r1 r3.
Proof. unfold uri_frame. intuition congruence. Qed.

(** Reading URI bytes stays in the URI states and changes no framed field. *)
Lemma uri_span mem last l s r p :
  in_uri s -> Forall uri_byte l -> holds mem p l -> p + Z.of_nat (length l) <= last ->
  exists s' r', in_uri s' /\ uri_frame r r' /\
    forall o, scans (rl_step mem) last (s', r') (p + Z.of_nat (length l)) o ->
              scans (rl_step mem) last (s, r) p o.
Proof.
  revert s r p. induction l as [|c l IH]; intros s r p Hs Hl Hh Hp; simpl in *.
  - exists s, r. rewrite Z.add_0_r. unfold uri_frame. auto 10.
  - apply holds_cons in Hh as [Hc Hh]. apply Forall_cons in Hl as [Hub Hl].
    destruct (uri_byte_step mem s r p) as (s1 & r1 & Hst & Hs1 & Hf1); [done|by subst|].
    destruct (IH s1 r1 (p + 1)) as (s2 & r2 & Hs2 & Hf2 & H2); auto; [lia|].
    exists s2, r2. split_and!; [done|by eapply uri_frame_trans|]. intros o Ho.
    eapply scans_next; [lia|done|]. apply H2.
    by replace (p + 1 + Z.of_nat (length l)) with (p + Z.of_nat (S (length l))) by lia.
Qed.

(** Reading the rest of the method. *)
Lemma method_span mem last l r p o :
  Forall method_byte l -> holds mem p l -> p + Z.of_nat (length l) <= last ->
  scans (rl_step mem) last (sw_method, r) (p + Z.of_nat (length l)) o ->
  scans (rl_step mem) last (sw_method, r) p o.
Proof.
  intros Hl Hh Hp. apply scans_skip; [done|]. intros i Hi.
  destruct (lookup_lt_is_Some_2 l i Hi) as [c Hc].
  assert (method_byte (mem (p + Z.of_nat i))) as Hb.
  { rewrite (Hh i c Hc). by eapply Forall_lookup_1 in Hc. }
  unfold method_byte in Hb. rl_unfold. unfold not_method_char.
  repeat case_match; done || lia.
Qed.

(** One byte of a known input. *)
Lemma rl_byte_step mem last s r p c l s' r' o :
  holds mem p (c :: l) -> p + Z.of_nat (length (c :: l)) <= last ->
  (mem p = c -> rl_step mem (s, r) p = Next (s', r') p) ->
  (holds mem (p + 1) l -> p + 1 + Z.of_nat (length l) <= last ->
   scans (rl_step mem) last (s', r') (p + 1) o) ->
  scans (rl_step mem) last (s, r) p o.
Proof.
  intros [Hc Hh]%holds_cons Hl Hs Hk. simpl in Hl.
  eapply scans_next; [lia|by apply Hs|]. apply Hk; [done|lia].
Qed.

(** A space after the URI, then "H". *)
Lemma space_H_step mem s r p :
  in_uri s -> mem p = $ " " -> mem (p + 1) = $ "H" ->
  exists s', rl_step mem (s, r) p = Next (s', set_uri_end p r) p /\
    rl_step mem (s', set_uri_end p r) (p + 1) =
      Next (sw_http_H, set_http_protocol (p + 1) (set_uri_end p r)) (p + 1).
Proof.
  intros [-> | [-> | ->]] Hp Hq; eexists; rl_unfold; rewrite Hp, Hq; split; reflexivity.
Qed.

Definition with_protocol (p d1 d2 : Z) (r : request) : request :=
  set_request_end (p + 9) (set_http_minor (d2 - $ "0") (set_http_major (d1 - $ "0")
    (set_http_protocol (p + 1) (set_uri_end p r)))).

(** Reads one byte of the known input [Hh]. *)
Ltac rl_eat Hh :=
  eapply rl_byte_step; [exact Hh|simpl; lia
    |let E := fresh in intros E; rl_unfold; rewrite E; reflexivity|];
  clear Hh; intros Hh ?.

(** " HTTP/d1.d2 CR LF" after the URI. *)
Lemma protocol_run mem last s r p d1 d2 :
  in_uri s -> $ "1" <= d1 <= $ "9" -> $ "0" <= d2 <= $ "9" ->
  holds mem p (bytes " HTTP/" ++ [d1; $ "."; d2; CR; LF]) -> p + 11 <= last ->
  scans (rl_step mem) last (s, r) p
    (Left RlDone (sw_almost_done, with_protocol p d1 d2 r) (p + 10)).
Proof.
  intros Hs H1 H2 Hh Hl. simpl in Hh.
  apply holds_cons in Hh as [Hsp Hh]. pose proof Hh as [HH _]%holds_cons.
  destruct (space_H_step mem s r p) as (s' & Hst1 & Hst2); [done..|].
  apply scans_next with (s', set_uri_end p r) p; [lia|done|].
  eapply rl_byte_step; [exact Hh|simpl; lia|by intros _; rewrite Hst2|].
  clear Hh; intros Hh ?.
  do 4 rl_eat Hh.
  eapply rl_byte_step with (s' := sw_major_digit)
    (r' := set_http_major (d1 - $ "0") (set_http_protocol (p + 1) (set_uri_end p r)));
    [exact Hh|simpl; lia| |clear Hh; intros Hh ?].
  { intros E. clear -E H1. unfold rl_step, on_first_major_digit.
    rewrite E, u16_small by lia.
    by replace ((d1 <? 49) || (57 <? d1)) with false by lia. }
  rl_eat Hh.
  eapply rl_byte_step with (s' := sw_minor_digit)
    (r' := set_http_minor (d2 - $ "0") (set_http_major (d1 - $ "0")
             (set_http_protocol (p + 1) (set_uri_end p r))));
    [exact Hh|simpl; lia| |clear Hh; intros Hh ?].
  { intros E. clear -E H2. unfold rl_step, on_first_minor_digit, is_digit.
    rewrite E, u16_small by lia.
    by replace ((48 <=? d2) && (d2 <=? 57)) with true by lia. }
  rl_eat Hh.
  apply holds_cons in Hh as [HLF _].
  replace (p + 10) with (p + 1 + 1 + 1 + 1 + 1 + 1 + 1 + 1 + 1 + 1) in * by lia.
  apply scans_left; [simpl in *; lia|].
  rl_unfold. rewrite HLF. simpl. unfold with_protocol. do 4 f_equal. lia.
Qed.

(** "METHOD /path HTTP/d1.d2 CR LF" *)
Definition request_line (m path : list Z) (d1 d2 : Z) : list Z :=
  m ++ $ " " :: $ "/" :: path ++ bytes " HTTP/" ++ [d1; $ "."; d2; CR; LF].

Lemma request_line_length m path d1 d2 :
  length (request_line m path d1 d2) = (length m + length path + 13)%nat.
Proof. unfold request_line. rewrite !length_app. simpl. rewrite length_app. simpl. lia. Qed.

(** The first byte of the method, then the rest and the space. *)
Lemma method_run mem last m r p o :
  (forall a, is_byte (mem a)) -> m <> [] -> Forall method_byte m -> holds mem p m ->
  mem (p + Z.of_nat (length m)) = $ " " -> p + Z.of_nat (length m) < last ->
  scans (rl_step mem) last
    (sw_spaces_before_uri,
     set_method (method_of_name m (method r))
       (set_method_end (p + Z.of_nat (length m) - 1) (set_request_start p r)))
    (p + Z.of_nat (length m) + 1) o ->
  scans (rl_step mem) last (sw_start, r) p o.
Proof.
  intros Hm Hne Hmb Hh Hsp Hl Ho.
  destruct m as [|c m]; [done|]. pose proof Hh as [Hc Hh']%holds_cons.
  pose proof Hmb as [Hcb Hmb']%Forall_cons.
  apply scans_next with (sw_method, set_request_start p r) p; [simpl in Hl; lia| |].
  { unfold rl_step, on_start, not_method_char. rewrite Hc. unfold method_byte, CR, LF in *.
    replace ((c =? 13) || (c =? 10)) with false by lia.
    by match goal with |- (if ?b then _ else _) = _ => replace b with false by lia end. }
  apply method_span with m; [done|done|simpl in Hl; lia|].
  replace (p + 1 + Z.of_nat (length m)) with (p + Z.of_nat (length (c :: m)))
    by (simpl; lia).
  eapply scans_next; [done| |exact Ho].
  unfold rl_step, on_method. rewrite Hsp. simpl request_start.
  by rewrite <- (method_switch_name mem p (c :: m)).
Qed.

(** A well-formed request line is accepted, and the request records exactly
    its method, its URI and its version; what follows the line in the buffer
    is left unread. *)
Theorem parse_request_line_accepts mem r b m path d1 d2 :
  (forall a, is_byte (mem a)) -> 0 < pos b -> state r = 0 ->
  m <> [] -> Forall method_byte m -> Forall uri_byte path ->
  $ "1" <= d1 <= $ "9" -> $ "0" <= d2 <= $ "9" ->
  holds mem (pos b) (request_line m path d1 d2) ->
  pos b + Z.of_nat (length (request_line m path d1 d2)) <= last b ->
  exists r', ngx_http_parse_request_line mem r b =
      Some (NGX_OK, r', Buf (pos b + Z.of_nat (length (request_line m path d1 d2))) (last b)) /\
    method r' = method_of_name m (method r) /\
    request_start r' = pos b /\
    method_end r' = pos b + Z.of_nat (length m) - 1 /\
    uri_start r' = pos b + Z.of_nat (length m) + 1 /\
    uri_end r' = uri_start r' + 1 + Z.of_nat (length path) /\
    request_end r' = uri_end r' + 9 /\
    http_version r' = (d1 - $ "0") * 1000 + (d2 - $ "0") /\ state r' = 0.
Proof.
  intros Hm Hlo Hst Hne Hmb Hpath H1 H2 Hh Hl.
  rewrite request_line_length in *. unfold request_line in Hh.
  apply holds_app in Hh as [Hhm Hh]. apply holds_cons in Hh as [Hsp Hh].
  apply holds_cons in Hh as [Hsl Hh]. apply holds_app in Hh as [Hhp Hh].
  set (q := pos b + Z.of_nat (length m)) in *.
  set (r1 := set_uri_start (q + 1) (set_method (method_of_name m (method r))
    (set_method_end (q - 1) (set_request_start (pos b) r)))).
  destruct (uri_span mem (last b) path sw_after_slash_in_uri r1 (q + 1 + 1))
    as (s2 & r2 & Hs2 & (Hf1 & Hf2 & Hf3 & Hf4 & Hf5) & Hspan); [by left|done|done|lia|].
  set (e := q + 1 + 1 + Z.of_nat (length path)) in *.
  exists (rl_finish b (Left RlDone (sw_almost_done, with_protocol e d1 d2 r2) (e + 10))).1.2.
  assert (0 < e) by lia.
  split; [|subst r1; simpl in *; unfold NULL; rewrite (proj2 (Z.eqb_neq (e + 9) 0)) by lia;
    unfold e, q in *; case_match; simpl in *; split_and!;
    first [reflexivity | lia | congruence]].
  apply parse_request_line_iff. exists sw_start,
    (Left RlDone (sw_almost_done, with_protocol e d1 d2 r2) (e + 10)).
  split_and!.
  - by rewrite Hst.
  - apply method_run with m; [done..|lia|].
    apply scans_next with (sw_after_slash_in_uri, r1) (q + 1); [lia| |].
    { unfold rl_step, on_spaces_before_uri, q in *. cbv zeta. by rewrite Hsl. }
    apply Hspan, protocol_run; done || lia.
  - unfold rl_finish, with_protocol. simpl. unfold NULL.
    rewrite (proj2 (Z.eqb_neq (e + 9) 0)) by lia. simpl.
    replace ((d1 - 48) * 1000 + (d2 - 48) =? 9) with false by lia. simpl.
    match goal with |- (_, _, Buf ?x _) = (_, _, Buf ?y _) =>
      by replace x with y by (unfold e, q; lia) end.
Qed.

(** ** Witnesses on "PUT /x?y HTTP/1.0" *)

Definition sample_line : list Z := request_line (bytes "PUT") (bytes "x?y") ($ "1") ($ "0").
Definition sample_mem : memory := load 100 sample_line.

Lemma sample_mem_bytes a : is_byte (sample_mem a).
Proof. apply load_is_byte. by_decide. Qed.

Lemma method_switch_portable_witness :
  sample_mem 103 = 32 /\
  method_switch le_cmp sample_mem 100 103 0 = method_switch portable_cmp sample_mem 100 103 0.
Proof.
  split; [reflexivity|].
  apply method_switch_portable; [apply sample_mem_bytes|reflexivity].
Defined.

Lemma parse_request_line_total_witness :
  is_Some (ngx_http_parse_request_line sample_mem fresh_request (Buf 100 119)).
Proof. apply parse_request_line_total. by exists sw_start. Defined.

(** The line is cut inside the URI. *)
Lemma parse_request_line_resume_witness :
  exists r1 b1,
    ngx_http_parse_request_line sample_mem fresh_request (Buf 100 106)
      = Some (NGX_AGAIN, r1, b1) /\
    rl_observe <$> ngx_http_parse_request_line sample_mem r1 (Buf (pos b1) 119) =
    rl_observe <$> ngx_http_parse_request_line sample_mem fresh_request (Buf 100 119).
Proof.
  do 2 eexists. split; [vm_compute; reflexivity|].
  eapply parse_request_line_resume with (last1 := 106); [vm_compute; reflexivity|lia].
Defined.

Lemma parse_request_line_positions_witness :
  exists r' b', ngx_http_parse_request_line sample_mem fresh_request (Buf 100 119)
      = Some (NGX_OK, r', b') /\ positions_ok sample_mem r' 100 (pos b').
Proof.
  do 2 eexists. split; [vm_compute; reflexivity|].
  eapply (parse_request_line_positions sample_mem fresh_request (Buf 100 119));
    [apply sample_mem_bytes|simpl; lia| |vm_compute; reflexivity].
  repeat split; vm_compute; congruence.
Defined.

Lemma parse_request_line_accepts_witness :
  exists r', ngx_http_parse_request_line sample_mem fresh_request (Buf 100 119)
      = Some (NGX_OK, r', Buf 119 119) /\ method r' = NGX_HTTP_PUT.
Proof.
  destruct (parse_request_line_accepts sample_mem fresh_request (Buf 100 119)
    (bytes "PUT") (bytes "x?y") ($ "1") ($ "0")) as (r' & H & Hm & _).
  - apply sample_mem_bytes.
  - simpl; lia.
  - reflexivity.
  - discriminate.
  - by_decide.
  - by_decide.
  - lia.
  - lia.
  - apply holds_load.
  - vm_compute. congruence.
  - exists r'. split; [exact H|exact Hm].
Defined.
