(* ===== verification/HttpHeaderLine.v ===== *)
(** * HttpHeaderLine: [ngx_http_parse_header_line]

    The state machine of src/http/ngx_http_parse.c that reads one header line
    of a request (or of an upstream response), with the hash of the name and
    its lower-case copy, which the header lookup uses. *)

From S2P Require Import Prelude Scan HttpRequest NgxHashKey.

(* http/ngx_http_parse.c:840-849 ngx_http_parse_header_line: enum state *)
Inductive hl_state : Type :=
  | sw_start
  | sw_name
  | sw_space_before_value
  | sw_value
  | sw_space_after_value
  | sw_ignore_line
  | sw_almost_done
  | sw_header_almost_done.

#[export] Instance hl_state_eq_dec : EqDecision hl_state.
Proof. solve_decision. Defined.

Definition hl_states : list hl_state :=
  [ sw_start; sw_name; sw_space_before_value; sw_value; sw_space_after_value;
    sw_ignore_line; sw_almost_done; sw_header_almost_done ].

Definition hl_decode (z : Z) : option hl_state :=
  if z <? 0 then None else hl_states !! Z.to_nat z.

Definition hl_encode (s : hl_state) : Z :=
  match s with
  | sw_start => 0
  | sw_name => 1
  | sw_space_before_value => 2
  | sw_value => 3
  | sw_space_after_value => 4
  | sw_ignore_line => 5
  | sw_almost_done => 6
  | sw_header_almost_done => 7
  end.

Lemma hl_decode_encode s : hl_decode (hl_encode s) = Some s.
Proof. by destruct s. Qed.

(* http/ngx_http_parse.c:853-861 ngx_http_parse_header_line: lowcase *)
Definition lowcase : list Z :=
  replicate 32 0 ++ replicate 13 0 ++ bytes "-" ++ replicate 2 0 ++ bytes "0123456789"
  ++ replicate 6 0
  ++ [0] ++ bytes "abcdefghijklmnopqrstuvwxyz" ++ replicate 5 0
  ++ [0] ++ bytes "abcdefghijklmnopqrstuvwxyz" ++ replicate 5 0
  ++ replicate 128 0.

Definition lowcase_of (ch : Z) : Z := nth (Z.to_nat ch) lowcase 0.

(** The local variables: [state], [hash], [i], and the request. *)
Record hl_local : Type := HlLocal { hl_st : hl_state; hl_hash : Z; hl_i : Z; hl_r : request }.

(** [return rc], [goto done], [goto header_done]. *)
Inductive hl_exit : Type := HlReturn (rc : Z) | HlDone | HlHeaderDone.

Definition hl_ctl : Type := ctl hl_exit hl_local.

Section states.
Variables (allow_underscores : bool) (mem : memory) (p ch : Z).

Definition hl_break (s : hl_state) (hash i : Z) (r : request) : hl_ctl :=
  Next (HlLocal s hash i r) p.
Definition hl_leave (e : hl_exit) (s : hl_state) (hash i : Z) (r : request) : hl_ctl :=
  Leave e (HlLocal s hash i r) p.
Definition hl_invalid (s : hl_state) (hash i : Z) (r : request) : hl_ctl :=
  hl_leave (HlReturn NGX_HTTP_PARSE_INVALID_HEADER) s hash i r.

(** [r->lowcase_header[i] = c]; the array has 32 elements. *)
Definition put_lowcase (i c : Z) (r : request) : request :=
  set_lowcase_header (<[Z.to_nat i := c]> (lowcase_header r)) r.

(** [r->header_start = p; r->header_end = p], after the end of the name. *)
Definition empty_value (r : request) : request :=
  set_header_end p (set_header_start p r).

(* http/ngx_http_parse.c:873-919 ngx_http_parse_header_line: case sw_start *)
Definition on_start (hash i : Z) (r : request) : hl_ctl :=
  let r := set_invalid_header false (set_header_name_start p r) in
  if ch =? CR then hl_break sw_header_almost_done hash i (set_header_end p r)
  else if ch =? LF then hl_leave HlHeaderDone sw_start hash i (set_header_end p r)
  else
    let c := lowcase_of ch in
    if negb (c =? 0) then hl_break sw_name (ngx_hash 0 c) 1 (put_lowcase 0 c r)
    else if ch =? $ "_" then
      if allow_underscores then hl_break sw_name (ngx_hash 0 ch) 1 (put_lowcase 0 ch r)
      else hl_break sw_name hash i (set_invalid_header true r)
    else if ch =? 0 then hl_invalid sw_name hash i r
    else hl_break sw_name hash i (set_invalid_header true r).

(** The test for the duplicate status line of a response. *)
Definition is_http_slash (r : request) : bool :=
  (ch =? $ "/") && upstream r && (p - header_name_start r =? 4)
  && forallb (fun '(a, c) => mem (header_name_start r + a) =? c)
       [(0, $ "H"); (1, $ "T"); (2, $ "T"); (3, $ "P")].

(* http/ngx_http_parse.c:922-983 ngx_http_parse_header_line: case sw_name *)
Definition on_name (hash i : Z) (r : request) : hl_ctl :=
  let c := lowcase_of ch in
  if negb (c =? 0) then
    hl_break sw_name (ngx_hash hash c)
      (Z.land (i + 1) (NGX_HTTP_LC_HEADER_LEN - 1)) (put_lowcase i c r)
  else if ch =? $ "_" then
    if allow_underscores then
      hl_break sw_name (ngx_hash hash ch)
        (Z.land (i + 1) (NGX_HTTP_LC_HEADER_LEN - 1)) (put_lowcase i ch r)
    else hl_break sw_name hash i (set_invalid_header true r)
  else if ch =? $ ":" then
    hl_break sw_space_before_value hash i (set_header_name_end p r)
  else if ch =? CR then
    hl_break sw_almost_done hash i (empty_value (set_header_name_end p r))
  else if ch =? LF then
    hl_leave HlDone sw_name hash i (empty_value (set_header_name_end p r))
  else if is_http_slash r then hl_break sw_ignore_line hash i r
  else if ch =? 0 then hl_invalid sw_name hash i r
  else hl_break sw_name hash i (set_invalid_header true r).

(* http/ngx_http_parse.c:985-1006 ngx_http_parse_header_line: case sw_space_before_value *)
Definition on_space_before_value (hash i : Z) (r : request) : hl_ctl :=
  if ch =? $ " " then hl_break sw_space_before_value hash i r
  else if ch =? CR then hl_break sw_almost_done hash i (empty_value r)
  else if ch =? LF then hl_leave HlDone sw_space_before_value hash i (empty_value r)
  else if ch =? 0 then hl_invalid sw_space_before_value hash i r
  else hl_break sw_value hash i (set_header_start p r).

(* http/ngx_http_parse.c:1008-1025 ngx_http_parse_header_line: case sw_value *)
Definition on_value (hash i : Z) (r : request) : hl_ctl :=
  if ch =? $ " " then hl_break sw_space_after_value hash i (set_header_end p r)
  else if ch =? CR then hl_break sw_almost_done hash i (set_header_end p r)
  else if ch =? LF then hl_leave HlDone sw_value hash i (set_header_end p r)
  else if ch =? 0 then hl_invalid sw_value hash i r
  else hl_break sw_value hash i r.

(* http/ngx_http_parse.c:1027-1043 ngx_http_parse_header_line: case sw_space_after_value *)
Definition on_space_after_value (hash i : Z) (r : request) : hl_ctl :=
  if ch =? $ " " then hl_break sw_space_after_value hash i r
  else if ch =? CR then hl_break sw_almost_done hash i r
  else if ch =? LF then hl_leave HlDone sw_space_after_value hash i r
  else if ch =? 0 then hl_invalid sw_space_after_value hash i r
  else hl_break sw_value hash i r.

(* http/ngx_http_parse.c:1045-1054 ngx_http_parse_header_line: case sw_ignore_line *)
Definition on_ignore_line (hash i : Z) (r : request) : hl_ctl :=
  if ch =? LF then hl_break sw_start hash i r else hl_break sw_ignore_line hash i r.

(* http/ngx_http_parse.c:1056-1066 ngx_http_parse_header_line: case sw_almost_done *)
Definition on_almost_done (hash i : Z) (r : request) : hl_ctl :=
  if ch =? LF then hl_leave HlDone sw_almost_done hash i r
  else if ch =? CR then hl_break sw_almost_done hash i r
  else hl_invalid sw_almost_done hash i r.

(* http/ngx_http_parse.c:1068-1074 ngx_http_parse_header_line: case sw_header_almost_done *)
Definition on_header_almost_done (hash i : Z) (r : request) : hl_ctl :=
  if ch =? LF then hl_leave HlHeaderDone sw_header_almost_done hash i r
  else hl_invalid sw_header_almost_done hash i r.
End states.

(* http/ngx_http_parse.c:867-871 ngx_http_parse_header_line: switch (state) *)
Definition hl_step (allow_underscores : bool) (mem : memory) (l : hl_local) (p : Z) : hl_ctl :=
  let '(HlLocal s hash i r) := l in
  let ch := mem p in
  match s with
  | sw_start => on_start allow_underscores p ch hash i r
  | sw_name => on_name allow_underscores mem p ch hash i r
  | sw_space_before_value => on_space_before_value p ch hash i r
  | sw_value => on_value p ch hash i r
  | sw_space_after_value => on_space_after_value p ch hash i r
  | sw_ignore_line => on_ignore_line p ch hash i r
  | sw_almost_done => on_almost_done p ch hash i r
  | sw_header_almost_done => on_header_almost_done p ch hash i r
  end.

(* http/ngx_http_parse.c:1078-1099 ngx_http_parse_header_line: epilogue, done, header_done *)
Definition hl_finish (b : buf) (o : outcome hl_exit hl_local) : Z * request * buf :=
  match o with
  | Fell (HlLocal s hash i r) p =>
      (NGX_AGAIN, set_lowcase_index i (set_header_hash hash (set_state (hl_encode s) r)),
       Buf p (last b))
  | Left (HlReturn rc) l _ => (rc, hl_r l, b)
  | Left HlDone (HlLocal _ hash i r) p =>
      (NGX_OK, set_lowcase_index i (set_header_hash hash (set_state (hl_encode sw_start) r)),
       Buf (p + 1) (last b))
  | Left HlHeaderDone l p =>
      (NGX_HTTP_PARSE_HEADER_DONE, set_state (hl_encode sw_start) (hl_r l), Buf (p + 1) (last b))
  end.

(** [None] only for an [r->state] that is not a state of this machine. *)
(* http/ngx_http_parse.c:834-871 ngx_http_parse_header_line *)
Definition ngx_http_parse_header_line (allow_underscores : bool) (mem : memory) (r : request)
    (b : buf) : option (Z * request * buf) :=
  s ← hl_decode (state r);
  o ← scan (hl_step allow_underscores mem) (scan_fuel 0 (last b) (pos b)) (last b)
        (HlLocal s (header_hash r) (lowcase_index r) r) (pos b);
  Some (hl_finish b o).

Example parse_header_example :
  let line := bytes "Host:  example.org  " ++ [CR; LF] in
  option_map (fun '(rc, r, b) =>
      (rc, header_name_start r, header_name_end r, header_start r, header_end r,
       lowcase_index r, take 4 (lowcase_header r), header_hash r =? ngx_hash_key (bytes "host"),
       pos b))
    (ngx_http_parse_header_line false (load 100 line) fresh_request (Buf 100 122))
  = Some (NGX_OK, 100, 104, 107, 118, 4, bytes "host", true, 122).
Proof. vm_compute. reflexivity. Qed.

(** ** Running the parser *)

Ltac hl_unfold :=
  unfold hl_step, on_start, on_name, on_space_before_value, on_value, on_space_after_value,
    on_ignore_line, on_almost_done, on_header_almost_done, hl_invalid, hl_break, hl_leave in *;
  cbv zeta in *.

(** Splits [H : hl_step us mem (HlLocal s hash i r) p = c] into the branches of
    the handler. *)
Ltac hl_cases H :=
  hl_unfold;
  repeat match type of H with
    | (if ?c then _ else _) = _ => let E := fresh "E" in destruct c eqn:E
    end;
  simplify_eq/=.

Section parser.
Variables (us : bool) (mem : memory).

Lemma hl_progress l p l' p' :
  hl_step us mem l p = Next l' p' -> p' = p \/ (p' = p - 1 /\ (0 < 0)%nat).
Proof. destruct l as [s hash i r]. intros H. destruct s; hl_cases H; auto. Qed.

Lemma hl_step_exit l p e l' p' :
  hl_step us mem l p = Leave e l' p' ->
  p' = p /\ (forall rc, e = HlReturn rc -> rc = NGX_HTTP_PARSE_INVALID_HEADER).
Proof.
  destruct l as [s hash i r]. intros H. destruct s; hl_cases H; split; intros; by simplify_eq.
Qed.

Lemma parse_header_line_iff r b res :
  ngx_http_parse_header_line us mem r b = Some res <->
  exists s o, hl_decode (state r) = Some s /\
    scans (hl_step us mem) (last b) (HlLocal s (header_hash r) (lowcase_index r) r) (pos b) o /\
    res = hl_finish b o.
Proof.
  unfold ngx_http_parse_header_line. rewrite bind_Some.
  apply exist_proper; intros s. setoid_rewrite bind_Some.
  setoid_rewrite (scan_iff (hl_step us mem) (fun _ => O) 0 (fun _ => le_n 0) hl_progress).
  split; [intros (? & o & ? & ?)|intros (o & ? & ? & ->)]; simplify_eq; eauto 6.
Qed.

Lemma hl_total last l p : exists o, scans (hl_step us mem) last l p o.
Proof.
  destruct (scan_total (hl_step us mem) (fun _ => O) 0 (fun _ => le_n 0) hl_progress last l p)
    as [o Ho].
  exists o. by eapply scan_scans.
Qed.

(** ** Resumption *)

(** The loop does not read the fields that the epilogue writes. *)
Definition hl_stored (z h i : Z) (l : hl_local) : hl_local :=
  HlLocal (hl_st l) (hl_hash l) (hl_i l)
    (set_lowcase_index i (set_header_hash h (set_state z (hl_r l)))).

Lemma hl_step_stored z h i l p :
  hl_step us mem (hl_stored z h i l) p = ctl_map (hl_stored z h i) (hl_step us mem l p).
Proof.
  destruct l as [s hash j r]. unfold hl_stored.
  destruct s; hl_unfold; unfold is_http_slash; simpl;
    repeat (case_match; try reflexivity).
Qed.

(** After an error, or after the empty line that ends the headers, the caller
    does not rely on what an incomplete call has stored. *)
Definition hl_observe (x : Z * request * buf) : Z * request * buf :=
  let '(rc, r, b) := x in
  if rc =? NGX_HTTP_PARSE_INVALID_HEADER then
    (rc, set_lowcase_index 0 (set_header_hash 0 (set_state 0 r)), Buf 0 (last b))
  else if rc =? NGX_HTTP_PARSE_HEADER_DONE then
    (rc, set_lowcase_index 0 (set_header_hash 0 r), b)
  else x.

Lemma hl_scans_return last l p rc l' p' :
  scans (hl_step us mem) last l p (Left (HlReturn rc) l' p') ->
  rc = NGX_HTTP_PARSE_INVALID_HEADER.
Proof.
  intros H.
  apply (scans_inv _ _ (fun _ _ => True) (fun e _ _ => forall rc, e = HlReturn rc ->
    rc = NGX_HTTP_PARSE_INVALID_HEADER)) in H; [by apply H|done| |done].
  intros r q e r' q' _ _ [_ Hrc]%hl_step_exit. done.
Qed.

Lemma hl_finish_stored z h i p1 p2 l o :
  (forall rc l' p, o = Left (HlReturn rc) l' p -> rc = NGX_HTTP_PARSE_INVALID_HEADER) ->
  hl_observe (hl_finish (Buf p1 l) (outcome_map (hl_stored z h i) o)) =
  hl_observe (hl_finish (Buf p2 l) o).
Proof.
  intros Ho. destruct o as [[s hash j r] p|[rc| |] [s hash j r] p]; simpl; [done| |done|done].
  by rewrite (Ho rc _ p eq_refl).
Qed.
End parser.

(** Splitting the input does not change the parse of a header line: after
    [NGX_AGAIN] on a prefix of the input, the continued call gives on the
    longer buffer the result that a single call gives on it. *)
Theorem parse_header_line_resume us mem r p last1 last2 r1 b1 :
  ngx_http_parse_header_line us mem r (Buf p last1) = Some (NGX_AGAIN, r1, b1) ->
  last1 <= last2 ->
  hl_observe <$> ngx_http_parse_header_line us mem r1 (Buf (pos b1) last2) =
  hl_observe <$> ngx_http_parse_header_line us mem r (Buf p last2).
Proof.
  intros H Hl. apply parse_header_line_iff in H as (s & o & Es & Ho & Hf). simpl in *.
  assert (exists l', o = Fell l' (pos b1) /\
    r1 = hl_r (hl_stored (hl_encode (hl_st l')) (hl_hash l') (hl_i l') l')) as (l' & -> & ->).
  { destruct o as [[s' h' i' r'] p'|[rc| |] [s' h' i' r'] p']; simpl in Hf; simplify_eq/=;
      [by eauto|]. by apply hl_scans_return in Ho. }
  destruct (hl_total us mem last2 (HlLocal s (header_hash r) (lowcase_index r) r) p) as [o2 Ho2].
  assert (ngx_http_parse_header_line us mem r (Buf p last2) =
    Some (hl_finish (Buf p last2) o2)) as -> by (apply parse_header_line_iff; eauto).
  rewrite <- (scans_resume _ _ _ _ _ _ _ _ Hl Ho) in Ho2.
  set (f := hl_stored (hl_encode (hl_st l')) (hl_hash l') (hl_i l')).
  apply (scans_map _ f) in Ho2 as Hm; [|intros; apply hl_step_stored].
  assert (ngx_http_parse_header_line us mem (hl_r (f l')) (Buf (pos b1) last2) =
    Some (hl_finish (Buf (pos b1) last2) (outcome_map f o2))) as ->.
  { apply parse_header_line_iff. exists (hl_st l'), (outcome_map f o2).
    split_and!; [apply hl_decode_encode| |done]. by destruct l'. }
  simpl. f_equal. apply hl_finish_stored.
  intros rc l q ->. by eapply hl_scans_return.
Qed.

(** ** What the parser guarantees about an accepted line *)

(** The characters of a name that is not marked invalid. *)
Definition name_char (us : bool) (c : Z) : bool :=
  negb (lowcase_of c =? 0) || (us && (c =? $ "_")).

Lemma lowcase_tolower c : is_byte c -> lowcase_of c <> 0 -> lowcase_of c = ngx_tolower c.
Proof.
  intros Hc Hn.
  assert ((lowcase_of c =? 0) || (lowcase_of c =? ngx_tolower c) = true) as H; [|lia].
  revert Hc.
  apply (forall_bytes (fun c => (lowcase_of c =? 0) || (lowcase_of c =? ngx_tolower c))).
  vm_compute. reflexivity.
Qed.

Lemma lowcase_clean c : is_byte c -> lowcase_of c <> 0 ->
  c <> 0 /\ c <> CR /\ c <> LF /\ c <> $ ":".
Proof.
  intros Hc Hn.
  assert ((lowcase_of c =? 0) || negb ((c =? 0) || (c =? CR) || (c =? LF) || (c =? $ ":")) = true)
    as H; [|lia].
  revert Hc. apply (forall_bytes (fun c =>
    (lowcase_of c =? 0) || negb ((c =? 0) || (c =? CR) || (c =? LF) || (c =? $ ":")))).
  vm_compute. reflexivity.
Qed.

(** The array [lowcase_header] after a valid name of [n] bytes at [a]: its last
    32 bytes, in lower case, at their index modulo 32. *)
Definition lowcase_ring (mem : memory) (lc : list Z) (a n : Z) : Prop :=
  forall j, 0 <= j < n -> n <= j + 32 ->
    lc !! Z.to_nat (j `mod` 32) = Some (ngx_tolower (mem (a + j))).

Lemma lowcase_ring_snoc mem lc a n :
  length lc = 32%nat -> 0 <= n -> lowcase_ring mem lc a n ->
  lowcase_ring mem (<[Z.to_nat (n `mod` 32) := ngx_tolower (mem (a + n))]> lc) a (n + 1).
Proof.
  intros Hlen Hn H j Hj Hj2. destruct (decide (j = n)) as [->|].
  - apply list_lookup_insert_eq. rewrite Hlen. pose proof (Z.mod_pos_bound n 32). lia.
  - rewrite list_lookup_insert_ne; [apply H; lia|].
    pose proof (Z.mod_pos_bound n 32). pose proof (Z.mod_pos_bound j 32).
    intros E. apply Z2Nat.inj in E; [|lia..].
    pose proof (Z.div_mod n 32). pose proof (Z.div_mod j 32). lia.
Qed.

(** The name of a header line that is not marked invalid: its characters, and
    the hash and lower-case copy built from it. *)
Definition name_ok (us : bool) (mem : memory) (r : request) (e hash i : Z) : Prop :=
  invalid_header r = false ->
  let a := header_name_start r in
  Forall (fun c => name_char us c = true) (slice mem a e) /\
  hash = ngx_hash_key (ngx_tolower <$> slice mem a e) /\
  i = (e - a) `mod` 32 /\ lowcase_ring mem (lowcase_header r) a (e - a).

Section accepted.
Variables (us : bool) (mem : memory).
Hypothesis mem_bytes : forall a, is_byte (mem a).
Variable lo : Z.

Lemma name_ok_snoc r p hash i c :
  c = ngx_tolower (mem p) ->
  header_name_start r <= p -> length (lowcase_header r) = 32%nat ->
  name_char us (mem p) = true -> name_ok us mem r p hash i ->
  name_ok us mem (put_lowcase i c r) (p + 1)
    (ngx_hash hash c) (Z.land (i + 1) (NGX_HTTP_LC_HEADER_LEN - 1)).
Proof.
  intros -> Ha Hlen Hc Hok Hi. destruct (Hok Hi) as (Hf & -> & -> & Hr).
  unfold put_lowcase in *. simpl in *. set (a := header_name_start r) in *.
  rewrite slice_snoc by lia. split_and!.
  - apply Forall_app. auto.
  - rewrite fmap_app. by rewrite <- hash_key_snoc.
  - change (NGX_HTTP_LC_HEADER_LEN - 1) with (2 ^ 5 - 1). rewrite land_ones_mod by lia.
    change (2 ^ 5) with 32. rewrite Zplus_mod_idemp_l. f_equal. lia.
  - replace p with (a + (p - a)) at 2 by lia.
    replace (p + 1 - a) with (p - a + 1) by lia. apply lowcase_ring_snoc; auto with lia.
Qed.

Lemma name_ok_first r p c :
  c = ngx_tolower (mem p) -> header_name_start r = p -> length (lowcase_header r) = 32%nat ->
  name_char us (mem p) = true ->
  name_ok us mem (put_lowcase 0 c r) (p + 1) (ngx_hash 0 c) 1.
Proof.
  intros -> Hp Hlen Hc. apply (name_ok_snoc r p 0 0); [done|lia|done|done|].
  intros _. rewrite Hp. unfold slice. rewrite Z.sub_diag. simpl.
  split_and!; [constructor|done|done|]. intros j Hj. lia.
Qed.

(** The name has been read; it ends at [header_name_end]. *)
Definition name_read (r : request) (hash i p : Z) : Prop :=
  lo <= header_name_start r < header_name_end r /\ header_name_end r < p /\
  clean mem (header_name_start r) (header_name_end r) /\
  name_ok us mem r (header_name_end r) hash i.

(** The value has been read: it holds no NUL, CR or LF, and has no space at
    either end. *)
Definition value_read (r : request) (p : Z) : Prop :=
  header_name_end r <= header_start r <= header_end r /\ header_end r < p /\
  clean mem (header_start r) (header_end r) /\
  (header_start r = header_end r \/
   mem (header_start r) <> $ " " /\ mem (header_end r - 1) <> $ " ").

(** A value whose first byte has been read. *)
Definition value_open (r : request) (p : Z) : Prop :=
  header_name_end r < header_start r < p /\ clean mem (header_start r) p /\
  mem (header_start r) <> $ " ".

Definition hl_inv (l : hl_local) (p : Z) : Prop :=
  let '(HlLocal s hash i r) := l in
  lo <= p /\ length (lowcase_header r) = 32%nat /\ 0 <= i < 32 /\
  match s with
  | sw_start | sw_ignore_line | sw_header_almost_done => True
  | sw_name =>
      lo <= header_name_start r < p /\ clean mem (header_name_start r) p /\
      name_ok us mem r p hash i
  | sw_space_before_value => name_read r hash i p
  | sw_value => name_read r hash i p /\ value_open r p /\ mem (p - 1) <> $ " "
  | sw_space_after_value => name_read r hash i p /\ value_open r p /\ value_read r p
  | sw_almost_done => name_read r hash i p /\ value_read r p
  end.

Definition hl_done (l : hl_local) (p : Z) : Prop :=
  length (lowcase_header (hl_r l)) = 32%nat /\ 0 <= hl_i l < 32 /\
  name_read (hl_r l) (hl_hash l) (hl_i l) (p + 1) /\ value_read (hl_r l) (p + 1) /\ mem p = LF.

(** A character with an entry in [lowcase], or an allowed underscore. *)
Lemma name_byte c : is_byte c ->
  lowcase_of c <> 0 \/ (us = true /\ c = $ "_") ->
  name_char us c = true /\ c <> 0 /\ c <> CR /\ c <> LF /\
  (if lowcase_of c =? 0 then c else lowcase_of c) = ngx_tolower c.
Proof.
  intros Hb [Hc|[Hu ->]].
  - destruct (lowcase_clean c Hb Hc) as (? & ? & ? & ?). unfold name_char.
    rewrite (proj2 (Z.eqb_neq _ _) Hc). by rewrite (lowcase_tolower c).
  - rewrite Hu. by_decide.
Qed.
End accepted.

Lemma land_31 i : 0 <= Z.land i (NGX_HTTP_LC_HEADER_LEN - 1) < 32.
Proof.
  change (NGX_HTTP_LC_HEADER_LEN - 1) with (2 ^ 5 - 1). rewrite land_ones_mod by lia.
  change (2 ^ 5) with 32. apply Z.mod_pos_bound. lia.
Qed.

Lemma name_read_mono us mem lo r hash i p q :
  name_read us mem lo r hash i p -> p <= q -> name_read us mem lo r hash i q.
Proof. intros (? & ? & ? & ?) ?. split_and!; done || lia. Qed.

Lemma name_invalid us mem r e hash i : invalid_header r = true -> name_ok us mem r e hash i.
Proof. intros H1 H2. congruence. Qed.

(** One tactic per form of goal that [hl_inv] consists of. *)
Ltac hl_byte := unfold CR, LF in *; lia.

Ltac hl_goal :=
  lazymatch goal with
  | |- length _ = _ => unfold put_lowcase; simpl; rewrite ?length_insert; assumption
  | |- clean _ ?a (?p + 1) =>
      first [apply clean_snoc; [assumption|hl_byte..] | apply clean_one; hl_byte]
  | |- clean _ _ _ => first [assumption | intros ? ?; lia]
  | |- name_ok _ _ _ _ _ _ => first [assumption | by apply name_invalid]
  | |- name_read _ _ _ _ _ _ _ =>
      first [ match goal with H : name_read _ _ _ ?r _ _ ?q |- _ =>
                refine (name_read_mono _ _ _ r _ _ q _ H _); lia end
            | unfold name_read; simpl; split_and!; hl_goal ]
  | |- value_open _ _ _ =>
      unfold value_open, name_read in *; simpl in *; destruct_and?; split_and!; hl_goal
  | |- value_read _ _ _ =>
      unfold value_read, value_open, name_read in *; simpl in *;
      destruct_and?; split_and!; hl_goal
  | |- _ = _ \/ _ => first [assumption | by left | right; split; assumption]
  | |- _ => first [assumption | lia | apply land_31 | hl_byte
                  | rewrite ?Z.add_simpl_r; hl_byte]
  end.

Section accepted.
Variables (us : bool) (mem : memory).
Hypothesis mem_bytes : forall a, is_byte (mem a).
Variable lo : Z.

Lemma hl_inv_start hash i r p l' p' :
  hl_inv us mem lo (HlLocal sw_start hash i r) p ->
  hl_step us mem (HlLocal sw_start hash i r) p = Next l' p' -> hl_inv us mem lo l' (p' + 1).
Proof.
  intros (Hlo & Hlen & Hi & _) H.
  pose proof (name_byte us (mem p) (mem_bytes p)) as Hn.
  hl_cases H; unfold hl_inv; try (split_and!; hl_goal).
  - destruct Hn as (Hc & ? & ? & ? & Ht); [left; lia|].
    rewrite (proj2 (Z.eqb_neq _ _)) in Ht by lia.
    split_and!; try hl_goal. by apply name_ok_first.
  - destruct Hn as (Hc & ? & ? & ? & Ht); [right; split; [done|lia]|].
    rewrite (proj2 (Z.eqb_eq (lowcase_of _) 0)) in Ht by lia.
    split_and!; try hl_goal. by apply name_ok_first.
Qed.

Lemma hl_inv_name hash i r p l' p' :
  hl_inv us mem lo (HlLocal sw_name hash i r) p ->
  hl_step us mem (HlLocal sw_name hash i r) p = Next l' p' -> hl_inv us mem lo l' (p' + 1).
Proof.
  intros (Hlo & Hlen & Hi & Hs & Hcl & Hok) H.
  pose proof (name_byte us (mem p) (mem_bytes p)) as Hn.
  hl_cases H; unfold hl_inv; try (split_and!; hl_goal).
  - destruct Hn as (Hc & ? & ? & ? & Ht); [left; lia|].
    rewrite (proj2 (Z.eqb_neq _ _)) in Ht by lia.
    split_and!; try hl_goal. apply name_ok_snoc; auto with lia.
  - destruct Hn as (Hc & ? & ? & ? & Ht); [right; split; [done|lia]|].
    rewrite (proj2 (Z.eqb_eq (lowcase_of _) 0)) in Ht by lia.
    split_and!; try hl_goal. apply name_ok_snoc; auto with lia.
Qed.

Lemma hl_inv_next l p l' p' :
  hl_inv us mem lo l p -> hl_step us mem l p = Next l' p' -> hl_inv us mem lo l' (p' + 1).
Proof.
  destruct l as [s hash i r]. intros HI H.
  destruct s; [by eapply hl_inv_start|by eapply hl_inv_name|..];
    destruct HI as (Hlo & Hlen & Hi & HI); hl_cases H; unfold hl_inv; destruct_and?;
    split_and!; hl_goal.
Qed.

Lemma hl_inv_done l p l' p' :
  hl_inv us mem lo l p -> hl_step us mem l p = Leave HlDone l' p' ->
  hl_done us mem lo l' p'.
Proof.
  destruct l as [s hash i r]. intros (Hlo & Hlen & Hi & HI) H.
  destruct s; hl_cases H; unfold hl_done; simpl; destruct_and?; split_and!; hl_goal.
Qed.
End accepted.

(** The order of the recorded positions within [lo, hi), for a line that the
    parser accepted. *)
Definition header_ok (us : bool) (mem : memory) (r : request) (lo hi : Z) : Prop :=
  lo <= header_name_start r < header_name_end r /\
  header_name_end r <= header_start r <= header_end r /\ header_end r < hi /\
  mem (hi - 1) = LF /\
  clean mem (header_name_start r) (header_name_end r) /\
  clean mem (header_start r) (header_end r) /\
  (header_start r = header_end r \/
   mem (header_start r) <> $ " " /\ mem (header_end r - 1) <> $ " ").

(** When the parser accepts a header line, the name and the value it recorded
    lie in the part of the buffer it consumed and hold no NUL, CR or LF; the
    value has no space at either end; the index into the 32 bytes of
    [lowcase_header] stayed in range; and if the name is not marked invalid,
    [header_hash] is the key under which the header tables store its
    lower-case form, and [lowcase_header] holds that form. *)
Theorem parse_header_line_accepted us mem r b r' b' :
  (forall a, is_byte (mem a)) -> state r = 0 ->
  length (lowcase_header r) = 32%nat -> 0 <= lowcase_index r < 32 ->
  ngx_http_parse_header_line us mem r b = Some (NGX_OK, r', b') ->
  header_ok us mem r' (pos b) (pos b') /\ pos b' <= last b /\ state r' = 0 /\
  length (lowcase_header r') = 32%nat /\ 0 <= lowcase_index r' < 32 /\
  (invalid_header r' = false ->
     let name := slice mem (header_name_start r') (header_name_end r') in
     header_hash r' = ngx_hash_key_lc name /\
     Forall (fun c => name_char us c = true) name /\
     (Z.of_nat (length name) <= 32 ->
        take (length name) (lowcase_header r') = ngx_tolower <$> name)).
Proof.
  intros Hm Hst Hlen Hi H. apply parse_header_line_iff in H as (s & o & Es & Ho & Hf).
  rewrite Hst in Es. assert (s = sw_start) as -> by (cbv in Es; congruence).
  eapply (scans_inv (hl_step us mem) _ (hl_inv us mem (pos b))
    (fun e l p => match e with
       | HlDone => hl_done us mem (pos b) l p /\ p < last b
       | HlReturn rc => rc = NGX_HTTP_PARSE_INVALID_HEADER
       | HlHeaderDone => True end)) in Ho.
  - destruct o as [[s' h' i' q] p'|[rc| |] [s' h' i' q] p']; simpl in Hf; simplify_eq/=.
    destruct Ho as [(Hl' & Hi' & (N1 & N2 & N3 & N4) & (V1 & V2 & V3 & V4) & Hlf) Hp'].
    simpl in *. unfold header_ok. simpl. rewrite Z.add_simpl_r.
    split_and!; try done; try lia. intros Hinv. destruct (N4 Hinv) as (F1 & F2 & F3 & F4).
    rewrite hash_key_lc_map. split_and!; [done|done|]. intros Hn.
    apply list_eq. intros j. rewrite list_lookup_fmap. unfold slice in *.
    rewrite length_fmap, length_seqZ in *. rewrite list_lookup_fmap.
    destruct (decide (Z.of_nat j < header_name_end q - header_name_start q)) as [Hj|Hj].
    + rewrite lookup_take_lt by lia. rewrite lookup_seqZ_lt by lia. simpl.
      rewrite <- (F4 (Z.of_nat j)) by lia. f_equal. rewrite Z.mod_small by lia. lia.
    + rewrite lookup_take_ge by lia. by rewrite lookup_seqZ_ge by lia.
  - intros l p l' p' _ HI Hs. by eapply hl_inv_next.
  - intros l p e l' p' Hp HI Hs. destruct (hl_step_exit _ _ _ _ _ _ _ Hs) as [-> Hrc].
    destruct e; [by apply Hrc|split; [by eapply hl_inv_done|done]|done].
  - split_and!; done || lia.
Qed.

Section witnesses.

Definition sample_header : list Z := bytes "Host:  example.org  " ++ [CR; LF].

Lemma sample_header_bytes a : is_byte (load 100 sample_header a).
Proof. apply load_is_byte. by_decide. Qed.

(** The sample line, read in two calls. *)
Definition sample_half : Z * request * buf :=
  match ngx_http_parse_header_line false (load 100 sample_header) fresh_request (Buf 100 110) with
  | Some x => x | None => (0, fresh_request, Buf 0 0) end.

Lemma parse_header_line_resume_witness :
  hl_observe <$> ngx_http_parse_header_line false (load 100 sample_header) (sample_half.1.2)
    (Buf 110 122) =
  hl_observe <$> ngx_http_parse_header_line false (load 100 sample_header) fresh_request
    (Buf 100 122).
Proof.
  apply (parse_header_line_resume false (load 100 sample_header) fresh_request 100 110 122
    (sample_half.1.2) (Buf 110 110)); [vm_compute; reflexivity|lia].
Defined.

Definition sample_parsed : Z * request * buf :=
  match ngx_http_parse_header_line false (load 100 sample_header) fresh_request (Buf 100 122) with
  | Some x => x | None => (0, fresh_request, Buf 0 0) end.

Lemma parse_header_line_accepted_witness :
  let r' := sample_parsed.1.2 in
  let mem := load 100 sample_header in
  header_ok false mem r' 100 122 /\ 122 <= 122 /\ state r' = 0 /\
  length (lowcase_header r') = 32%nat /\ 0 <= lowcase_index r' < 32 /\
  (invalid_header r' = false ->
     let name := slice mem (header_name_start r') (header_name_end r') in
     header_hash r' = ngx_hash_key_lc name /\
     Forall (fun c => name_char false c = true) name /\
     (Z.of_nat (length name) <= 32 ->
        take (length name) (lowcase_header r') = ngx_tolower <$> name)).
Proof.
  apply (parse_header_line_accepted false (load 100 sample_header) fresh_request (Buf 100 122)
    sample_parsed.1.2 (Buf 122 122)).
  - apply sample_header_bytes.
  - reflexivity.
  - reflexivity.
  - simpl. lia.
  - vm_compute. reflexivity.
Defined.
End witnesses.
