(* ===== verification/NgxHash.v ===== *)
(** * NgxHash: hash tables that are built once

    [ngx_hash_init] and [ngx_hash_find] of core/ngx_hash.c: the search for a
    number of buckets, the layout of the buckets in one block of memory, and the
    walk over a bucket.  Pointers are 64 bits wide, cache lines 64 bytes; memory
    is read and written byte by byte, the least significant byte first.
    Allocation succeeds; the address of the block is an argument. *)

From S2P Require Import Prelude NgxHashKey.

(** ** Memory *)

Definition store (mem : memory) (a : Z) (l : list Z) : memory :=
  fun x => if decide (a <= x < a + Z.of_nat (length l)) then nth (Z.to_nat (x - a)) l 0 else mem x.

Fixpoint le_bytes (n : nat) (v : Z) : list Z :=
  match n with O => [] | S n => v `mod` 256 :: le_bytes n (v / 256) end.

Fixpoint le_read (n : nat) (mem : memory) (a : Z) : Z :=
  match n with O => 0 | S n => mem a + 256 * le_read n mem (a + 1) end.

Definition pointer_size : Z := 8.
Definition cacheline_size : Z := 64.

(* core/ngx_config.h:103-103 ngx_align *)
Definition ngx_align (d a : Z) : Z := Z.land (d + (a - 1)) (Z.lnot (a - 1)).

(** ** Keys *)

(** [key.len] and [key.data], which may be [NULL]; values are not [NULL]. *)
(* core/ngx_hash.h:35-39 ngx_hash_key_t *)
Record hash_key : Type := HashKey {
  key_len : Z;
  key_data : option (list Z);
  key_hash : Z;
  key_value : Z
}.

(* core/ngx_hash.h:23-26 ngx_hash_t *)
Record ngx_hash_t : Type := Hash { buckets : list Z; hash_size : Z }.

(* core/ngx_hash.c:248-249 NGX_HASH_ELT_SIZE *)
Definition NGX_HASH_ELT_SIZE (n : hash_key) : Z :=
  pointer_size + ngx_align (key_len n + 2) pointer_size.

(* core/ngx_hash.c:302-302 ngx_hash_init: key *)
Definition bucket_of (size : Z) (n : hash_key) : nat := Z.to_nat (key_hash n `mod` size).

(** ** The number of buckets *)

(** [false] for [goto next]; [test] is of type [u_short *]. *)
(* core/ngx_hash.c:297-314 ngx_hash_init: for n *)
Fixpoint size_test (size bucket_size : Z) (names : list hash_key) (test : list Z) : bool :=
  match names with
  | [] => true
  | n :: names =>
      match key_data n with
      | None => size_test size bucket_size names test
      | Some _ =>
          let key := bucket_of size n in
          let t := u16 (nth key test 0 + NGX_HASH_ELT_SIZE n) in
          if u16 bucket_size <? t then false
          else size_test size bucket_size names (<[key := t]> test)
      end
  end.

(** [for (size = start; size <= max_size; size++)], and [size = max_size]
    after it. *)
(* core/ngx_hash.c:293-323 ngx_hash_init: for size *)
Fixpoint find_size (fuel : nat) (size max_size bucket_size : Z) (names : list hash_key) : Z :=
  match fuel with
  | O => max_size
  | S fuel =>
      if size <=? max_size then
        if size_test size bucket_size names (replicate (Z.to_nat size) 0) then size
        else find_size fuel (size + 1) max_size bucket_size names
      else max_size
  end.

(** ** The layout *)

(* core/ngx_hash.c:338-345 ngx_hash_init: the sizes *)
Fixpoint bucket_sizes (size : Z) (names : list hash_key) (test : list Z) : list Z :=
  match names with
  | [] => test
  | n :: names =>
      match key_data n with
      | None => bucket_sizes size names test
      | Some _ =>
          let key := bucket_of size n in
          bucket_sizes size names (<[key := u16 (nth key test 0 + NGX_HASH_ELT_SIZE n)]> test)
      end
  end.

(* core/ngx_hash.c:349-355 ngx_hash_init: ngx_align *)
Definition aligned_sizes (test : list Z) : list Z :=
  (fun t => if t =? pointer_size then t else u16 (ngx_align t cacheline_size)) <$> test.

(* core/ngx_hash.c:347-357 ngx_hash_init: len *)
Fixpoint total_len (test : list Z) : Z :=
  match test with
  | [] => 0
  | t :: test => (if t =? pointer_size then 0 else t) + total_len test
  end.

(** The buckets, [NULL] for an empty one. *)
(* core/ngx_hash.c:386-393 ngx_hash_init: buckets *)
Fixpoint place (elts : Z) (test : list Z) : list Z :=
  match test with
  | [] => []
  | t :: test => if t =? pointer_size then 0 :: place elts test else elts :: place (elts + t) test
  end.

(* core/ngx_hash.c:399-413 ngx_hash_init: the elements *)
Fixpoint fill (size : Z) (bs : list Z) (names : list hash_key) (mem : memory) (test : list Z)
  : memory * list Z :=
  match names with
  | [] => (mem, test)
  | n :: names =>
      match key_data n with
      | None => fill size bs names mem test
      | Some data =>
          let key := bucket_of size n in
          let elt := nth key bs 0 + nth key test 0 in
          let mem := store mem elt (le_bytes 8 (key_value n)) in
          let mem := store mem (elt + 8) (le_bytes 2 (u16 (key_len n))) in
          let mem := store mem (elt + 10) (ngx_tolower <$> data) in
          fill size bs names mem (<[key := u16 (nth key test 0 + NGX_HASH_ELT_SIZE n)]> test)
      end
  end.

(* core/ngx_hash.c:415-423 ngx_hash_init: the ends *)
Fixpoint terminate (bs test : list Z) (mem : memory) : memory :=
  match bs, test with
  | b :: bs, t :: test =>
      terminate bs test (if b =? 0 then mem else store mem (b + t) (le_bytes 8 0))
  | _, _ => mem
  end.

(** The table with [size] buckets in the block at [elts]: the memory after it. *)
(* core/ngx_hash.c:332-428 ngx_hash_init: found *)
Definition build (size elts : Z) (names : list hash_key) (mem : memory) : memory * ngx_hash_t :=
  let test := aligned_sizes (bucket_sizes size names (replicate (Z.to_nat size) pointer_size)) in
  let elts := ngx_align elts cacheline_size in
  let bs := place elts test in
  let '(mem, test) := fill size bs names mem (replicate (Z.to_nat size) 0) in
  (terminate bs test mem, Hash bs size).

(** The bytes that are allocated for the elements. *)
(* core/ngx_hash.c:334-378 ngx_hash_init: elts *)
Definition block_len (size : Z) (names : list hash_key) : Z :=
  total_len (aligned_sizes (bucket_sizes size names (replicate (Z.to_nat size) pointer_size))) +
  cacheline_size.

(** The size from which the search starts.  The inner division is by zero for a
    bucket size below 16; with a name to be stored, that has been refused before. *)
(* core/ngx_hash.c:286-291 ngx_hash_init: start *)
Definition start_size (max_size bucket_size nelts : Z) : Z :=
  let start := nelts / (bucket_size / (2 * pointer_size)) in
  let start := if start =? 0 then 1 else start in
  if (10000 <? max_size) && negb (nelts =? 0) && (max_size / nelts <? 100) then max_size - 1000
  else start.

(** The number of buckets, or [NGX_ERROR]. *)
(* core/ngx_hash.c:260-323 ngx_hash_init: size *)
Definition choose_size (max_size bucket_size : Z) (names : list hash_key) : option Z :=
  if max_size =? 0 then None
  else if existsb (fun n => bucket_size <? NGX_HASH_ELT_SIZE n + pointer_size) names then None
  else
    let bucket_size := bucket_size - pointer_size in
    let start := start_size max_size bucket_size (Z.of_nat (length names)) in
    Some (find_size (Z.to_nat (max_size - start + 1)) start max_size bucket_size names).

(* core/ngx_hash.c:251-461 ngx_hash_init *)
Definition ngx_hash_init (max_size bucket_size elts : Z) (names : list hash_key) (mem : memory)
  : option (memory * ngx_hash_t) :=
  size ← choose_size max_size bucket_size names;
  Some (build size elts names mem).

(** ** Lookup *)

(* core/ngx_hash.c:33-37 ngx_hash_find: for i *)
Fixpoint same_name (mem : memory) (a : Z) (name : list Z) : bool :=
  match name with
  | [] => true
  | c :: name => (c =? mem a) && same_name mem (a + 1) name
  end.

(** [None] for exhausted fuel, [Some 0] for [NULL]. *)
(* core/ngx_hash.c:28-48 ngx_hash_find: while *)
Fixpoint find_loop (fuel : nat) (mem : memory) (elt : Z) (name : list Z) : option Z :=
  match fuel with
  | O => None
  | S fuel =>
      let value := le_read 8 mem elt in
      if value =? 0 then Some 0
      else
        let len := le_read 2 mem (elt + 8) in
        if (Z.of_nat (length name) =? len) && same_name mem (elt + 10) name then Some value
        else find_loop fuel mem (ngx_align (elt + 10 + len) pointer_size) name
  end.

(* core/ngx_hash.c:12-49 ngx_hash_find *)
Definition ngx_hash_find (fuel : nat) (mem : memory) (hash : ngx_hash_t) (key : Z) (name : list Z)
  : option Z :=
  let elt := nth (Z.to_nat (key `mod` hash_size hash)) (buckets hash) 0 in
  if elt =? 0 then Some 0 else find_loop fuel mem elt name.

(** ** Memory that has been written *)

Lemma store_out mem a l x : ~ (a <= x < a + Z.of_nat (length l)) -> store mem a l x = mem x.
Proof. intros H. unfold store. by rewrite decide_False. Qed.

Lemma store_holds mem a l : holds (store mem a l) a l.
Proof.
  intros i b H. pose proof (lookup_lt_Some _ _ _ H) as Hi. unfold store.
  rewrite decide_True by lia. replace (Z.to_nat (a + Z.of_nat i - a)) with i by lia.
  erewrite <- nth_lookup_Some by exact H. reflexivity.
Qed.

Lemma holds_ext mem mem' a l :
  (forall x, a <= x < a + Z.of_nat (length l) -> mem' x = mem x) -> holds mem a l -> holds mem' a l.
Proof.
  intros H Hl i b Hi. pose proof (lookup_lt_Some _ _ _ Hi). rewrite H by lia. by apply Hl.
Qed.

Lemma store_app mem a l1 l2 x :
  store (store mem a l1) (a + Z.of_nat (length l1)) l2 x = store mem a (l1 ++ l2) x.
Proof.
  unfold store. rewrite length_app. repeat case_decide; try lia.
  - rewrite app_nth2 by lia. f_equal. lia.
  - rewrite app_nth1 by lia. done.
Qed.

Lemma length_le_bytes n v : length (le_bytes n v) = n.
Proof. revert v. induction n as [|n IH]; intros v; simpl; [done|by rewrite IH]. Qed.

Lemma le_read_holds n v mem a :
  holds mem a (le_bytes n v) -> 0 <= v < 256 ^ Z.of_nat n -> le_read n mem a = v.
Proof.
  revert v a. induction n as [|n IH]; intros v a H Hv; [simpl in *; lia|].
  simpl in H |- *. apply holds_cons in H as [H0 H]. rewrite H0.
  rewrite Nat2Z.inj_succ, Z.pow_succ_r in Hv by lia.
  rewrite (IH (v / 256)); [pose proof (Z.div_mod v 256); lia|done|].
  split; [apply Z.div_pos; lia|apply Z.div_lt_upper_bound; lia].
Qed.

Lemma ngx_align_pow d k : 0 <= k -> ngx_align d (2 ^ k) = (d + (2 ^ k - 1)) / 2 ^ k * 2 ^ k.
Proof.
  intros Hk. unfold ngx_align. rewrite <- Z.ldiff_land.
  replace (2 ^ k - 1) with (Z.ones k) by (rewrite Z.ones_equiv; lia).
  rewrite Z.ldiff_ones_r, Z.shiftl_mul_pow2, Z.shiftr_div_pow2 by done. done.
Qed.

Lemma align_pointer d : d <= ngx_align d pointer_size < d + 8 /\ (ngx_align d pointer_size) `mod` 8 = 0.
Proof.
  change pointer_size with (2 ^ 3). rewrite ngx_align_pow by done. change (2 ^ 3) with 8.
  split; [|by apply Z.mod_mul].
  pose proof (Z.div_mod (d + (8 - 1)) 8). pose proof (Z.mod_pos_bound (d + (8 - 1)) 8). lia.
Qed.

Lemma align_cacheline d :
  d <= ngx_align d cacheline_size < d + 64 /\ (ngx_align d cacheline_size) `mod` 64 = 0.
Proof.
  change cacheline_size with (2 ^ 6). rewrite ngx_align_pow by done. change (2 ^ 6) with 64.
  split; [|by apply Z.mod_mul].
  pose proof (Z.div_mod (d + (64 - 1)) 64). pose proof (Z.mod_pos_bound (d + (64 - 1)) 64). lia.
Qed.

(** The multiple of 8 from [d] on is unique. *)
Lemma align_pointer_eq d e : d <= e < d + 8 -> e `mod` 8 = 0 -> ngx_align d pointer_size = e.
Proof.
  intros H He. destruct (align_pointer d) as [H1 H2].
  pose proof (Z.div_mod e 8). pose proof (Z.div_mod (ngx_align d pointer_size) 8). lia.
Qed.

Lemma elt_size_facts n : 0 <= key_len n ->
  key_len n + 10 <= NGX_HASH_ELT_SIZE n < key_len n + 18 /\ (NGX_HASH_ELT_SIZE n) `mod` 8 = 0.
Proof.
  intros H. unfold NGX_HASH_ELT_SIZE. destruct (align_pointer (key_len n + 2)) as [H1 H2].
  unfold pointer_size at 1 3 5. split; [lia|].
  rewrite Z.add_mod, H2 by lia. reflexivity.
Qed.

(** ** Chains: the elements of one bucket *)

Definition active (n : hash_key) : bool := match key_data n with Some _ => true | None => false end.

(** The elements of bucket [i], in the order of [names]. *)
Definition members (size : Z) (names : list hash_key) (i : nat) : list hash_key :=
  filter (fun n => active n = true /\ bucket_of size n = i) names.

Definition folded (n : hash_key) : list Z :=
  match key_data n with Some data => ngx_tolower <$> data | None => [] end.

Definition elt_bytes (n : hash_key) : list Z :=
  le_bytes 8 (key_value n) ++ le_bytes 2 (u16 (key_len n)) ++ folded n.

Fixpoint chain_size (l : list hash_key) : Z :=
  match l with [] => 0 | n :: l => NGX_HASH_ELT_SIZE n + chain_size l end.

Fixpoint laid (mem : memory) (a : Z) (l : list hash_key) : Prop :=
  match l with
  | [] => True
  | n :: l => holds mem a (elt_bytes n) /\ laid mem (a + NGX_HASH_ELT_SIZE n) l
  end.

(** A key as the configuration gives it: its length, a value that is a pointer. *)
Definition key_ok (n : hash_key) : Prop :=
  0 <= key_len n /\
  match key_data n with
  | None => True
  | Some data => Z.of_nat (length data) = key_len n /\ 0 < key_value n < 2 ^ 64
  end.

Lemma length_elt_bytes n : key_ok n -> active n = true ->
  Z.of_nat (length (elt_bytes n)) = key_len n + 10.
Proof.
  unfold key_ok, active, elt_bytes, folded. destruct (key_data n) as [data|]; [|done].
  intros (_ & H & _) _. rewrite !length_app, !length_le_bytes, length_fmap. lia.
Qed.

Lemma elt_size_ok n : key_ok n -> 10 <= NGX_HASH_ELT_SIZE n.
Proof. intros [H _]. pose proof (elt_size_facts n H). lia. Qed.

Lemma members_key_ok size names i : Forall key_ok names -> Forall key_ok (members size names i).
Proof. rewrite !Forall_forall. intros H n Hn. apply list_elem_of_filter in Hn as [_ Hn]. by apply H. Qed.

Lemma members_active size names i n : n ∈ members size names i -> active n = true.
Proof. intros H. by apply list_elem_of_filter in H as [[? _] _]. Qed.

Lemma members_app size l1 l2 i : members size (l1 ++ l2) i = members size l1 i ++ members size l2 i.
Proof. apply filter_app. Qed.

Lemma members_one size n i :
  members size [n] i = if active n && bool_decide (bucket_of size n = i) then [n] else [].
Proof.
  unfold members. rewrite filter_cons, filter_nil.
  case_decide; destruct (active n) eqn:Ea; case_bool_decide; intuition congruence.
Qed.

Lemma chain_size_app l1 l2 : chain_size (l1 ++ l2) = chain_size l1 + chain_size l2.
Proof. induction l1 as [|n l1 IH]; simpl; lia. Qed.

Lemma chain_size_nonneg l : Forall key_ok l -> 0 <= chain_size l.
Proof. induction 1 as [|n l Hn _ IH]; simpl; [done|]. pose proof (elt_size_ok n Hn). lia. Qed.

Lemma chain_size_mod l : Forall key_ok l -> (chain_size l) `mod` 8 = 0.
Proof.
  induction 1 as [|n l [Hn _] _ IH]; simpl; [done|].
  destruct (elt_size_facts n Hn) as [_ H]. rewrite Z.add_mod, IH, H by lia. done.
Qed.

Lemma chain_size_pos l : Forall key_ok l -> l <> [] -> 0 < chain_size l.
Proof.
  intros Hl Hne. destruct Hl as [|n l Hn Hl]; [done|]. simpl.
  pose proof (elt_size_ok n Hn). pose proof (chain_size_nonneg l Hl). lia.
Qed.

Lemma laid_app mem a l1 l2 :
  laid mem a (l1 ++ l2) <-> laid mem a l1 /\ laid mem (a + chain_size l1) l2.
Proof.
  revert a. induction l1 as [|n l1 IH]; intros a; simpl; [rewrite Z.add_0_r; tauto|].
  rewrite IH, Z.add_assoc. tauto.
Qed.

Lemma chain_laid_ext mem mem' a l :
  Forall key_ok l -> (forall n, n ∈ l -> active n = true) ->
  (forall x, a <= x < a + chain_size l -> mem' x = mem x) -> laid mem a l -> laid mem' a l.
Proof.
  intros Hl. revert a. induction Hl as [|n l Hn Hl IH]; intros a Ha Hx; simpl; [done|].
  intros [H1 H2]. simpl in Hx. pose proof (chain_size_nonneg l Hl).
  pose proof (elt_size_facts n (proj1 Hn)). pose proof (elt_size_ok n Hn).
  split.
  - apply (holds_ext mem); [|done]. rewrite length_elt_bytes by (done || apply Ha; left).
    intros x Hr. apply Hx. lia.
  - apply IH; [|intros x Hr; apply Hx; lia|done]. intros m Hm. apply Ha. by right.
Qed.

(** ** The walk over a chain *)

(** What a lookup promises: the value of the first key whose folded name is [name], 0 if none. *)
Definition hash_lookup (names : list hash_key) (name : list Z) : Z :=
  match List.find (fun n => active n && bool_decide (folded n = name)) names with
  | Some n => key_value n
  | None => 0
  end.

Lemma same_name_spec mem a l name :
  holds mem a l -> length name = length l -> same_name mem a name = bool_decide (l = name).
Proof.
  revert a l. induction name as [|c name IH]; intros a [|b l] H Hlen; simpl; try done.
  apply holds_cons in H as [Hb H]. rewrite Hb, (IH _ l H) by (simpl in Hlen; lia).
  destruct (Z.eqb_spec c b) as [->|Hne]; case_bool_decide; case_bool_decide; intuition congruence.
Qed.

Lemma folded_length n data : key_data n = Some data -> length (folded n) = length data.
Proof. intros H. unfold folded. by rewrite H, length_fmap. Qed.

Lemma find_loop_chain fuel mem a l name :
  Forall key_ok l -> (forall n, n ∈ l -> active n = true /\ key_len n < 65536) ->
  a `mod` 8 = 0 -> laid mem a l -> holds mem (a + chain_size l) (le_bytes 8 0) ->
  (length l < fuel)%nat -> find_loop fuel mem a name = Some (hash_lookup l name).
Proof.
  intros Hl. revert fuel a. induction Hl as [|n l Hn Hl IH]; intros fuel a Ha H8 Hlaid Hend Hf;
    (destruct fuel as [|fuel]; [simpl in Hf; lia|]); cbn [find_loop].
  - rewrite (le_read_holds 8 0); [done| |done]. by rewrite Z.add_0_r in Hend.
  - destruct Hlaid as [Hn0 Hlaid]. destruct (Ha n) as [Hact Hlen]; [left|].
    unfold elt_bytes in Hn0. apply holds_app in Hn0 as [Hv Hn0].
    apply holds_app in Hn0 as [Hln Hname]. rewrite !length_le_bytes in *.
    change (Z.of_nat 8) with 8 in *. change (Z.of_nat 2) with 2 in *.
    destruct Hn as [Hlen0 Hn]. unfold active in Hact.
    destruct (key_data n) as [data|] eqn:Ed; [|done]. destruct Hn as [Hd Hval].
    rewrite (le_read_holds 8 _ _ _ Hv) by (change (256 ^ Z.of_nat 8) with (2 ^ 64); lia).
    destruct (Z.eqb_spec (key_value n) 0); [lia|].
    rewrite (le_read_holds 2 _ _ _ Hln) by (unfold u16; apply Z.mod_pos_bound; lia).
    unfold u16. rewrite Z.mod_small by lia.
    replace (a + 8 + 2) with (a + 10) in Hname by lia.
    pose proof (folded_length n data Ed) as Hfl.
    unfold hash_lookup. cbn [List.find]. unfold active at 1. rewrite Ed. cbn [andb].
    case_bool_decide as Heq.
    + rewrite (same_name_spec _ _ _ _ Hname) by congruence.
      rewrite bool_decide_true by done. rewrite <- Heq, Hfl, Hd, Z.eqb_refl. done.
    + assert (Hno : (Z.of_nat (length name) =? key_len n) && same_name mem (a + 10) name = false).
      { destruct (Z.eqb_spec (Z.of_nat (length name)) (key_len n)); [|done].
        rewrite (same_name_spec _ _ (folded n)) by (done || lia). by rewrite bool_decide_false. }
      rewrite Hno. pose proof (elt_size_facts n Hlen0) as [Hs Hs8].
      rewrite (align_pointer_eq _ (a + NGX_HASH_ELT_SIZE n)).
      * apply IH; [|rewrite Z.add_mod, H8, Hs8 by lia; done|done| |simpl in Hf; lia].
        { intros m Hm. apply Ha. by right. }
        simpl in Hend. by rewrite Z.add_assoc in Hend.
      * unfold NGX_HASH_ELT_SIZE. pose proof (align_pointer (key_len n + 2)).
        change pointer_size with 8 in *. lia.
      * rewrite Z.add_mod, H8, Hs8 by lia. done.
Qed.

(** ** The sizes of the buckets *)

Lemma members_cons size n names i :
  members size (n :: names) i =
  (if active n && bool_decide (bucket_of size n = i) then [n] else []) ++ members size names i.
Proof. by rewrite <- members_one, <- members_app. Qed.

Lemma bucket_of_lt size n : 0 < size -> (bucket_of size n < Z.to_nat size)%nat.
Proof. intros H. unfold bucket_of. pose proof (Z.mod_pos_bound (key_hash n) size H). lia. Qed.

Lemma u16_add x e : u16 (u16 x + e) = u16 (x + e).
Proof. unfold u16. by rewrite Z.add_mod_idemp_l. Qed.

Lemma nth_of_lookup (l : list Z) i x : l !! i = Some x -> nth i l 0 = x.
Proof. intros H. by erewrite <- nth_lookup_Some by exact H. Qed.

Lemma bucket_sizes_spec size names test i t :
  0 < size -> length test = Z.to_nat size -> test !! i = Some t -> u16 t = t ->
  bucket_sizes size names test !! i = Some (u16 (t + chain_size (members size names i))).
Proof.
  intros Hs. revert test t. induction names as [|n names IH]; intros test t Hl Ht Hu.
  - simpl. by rewrite Z.add_0_r, Hu.
  - rewrite members_cons. simpl. unfold active. destruct (key_data n) as [data|]; simpl; [|by apply IH].
    pose proof (bucket_of_lt size n Hs) as Hb. case_bool_decide as Hi.
    + subst i. rewrite (nth_of_lookup _ _ _ Ht), (IH _ (u16 (t + NGX_HASH_ELT_SIZE n))).
      * simpl. by rewrite u16_add, Z.add_assoc.
      * by rewrite length_insert.
      * apply list_lookup_insert_eq. lia.
      * unfold u16. by rewrite Zmod_mod.
    + apply IH; [by rewrite length_insert|by rewrite list_lookup_insert_ne|done].
Qed.

Lemma length_bucket_sizes size names test : length (bucket_sizes size names test) = length test.
Proof.
  revert test. induction names as [|n names IH]; intros test; simpl; [done|].
  destruct (key_data n); rewrite IH; [by rewrite length_insert|done].
Qed.

Lemma fill_sizes size bs names mem test : snd (fill size bs names mem test) = bucket_sizes size names test.
Proof.
  revert mem test. induction names as [|n names IH]; intros mem test; simpl; [done|].
  by destruct (key_data n).
Qed.

(** A successful test: no bucket is larger than [bucket_size]. *)
Lemma size_test_spec size bucket_size names test i t :
  0 < size -> length test = Z.to_nat size -> 0 <= bucket_size <= 32767 ->
  Forall (fun n => 0 <= NGX_HASH_ELT_SIZE n <= bucket_size) names ->
  (forall j x, test !! j = Some x -> 0 <= x <= bucket_size) ->
  size_test size bucket_size names test = true -> test !! i = Some t ->
  t + chain_size (members size names i) <= bucket_size.
Proof.
  intros Hs Hl Hb HF. revert test t Hl.
  induction HF as [|n names Hn HF IH]; intros test t Hl Ht Hok Hi; [simpl; specialize (Ht _ _ Hi); lia|].
  rewrite members_cons. unfold active. simpl in Hok. destruct (key_data n) as [data|]; simpl;
    [|by apply (IH test)].
  pose proof (bucket_of_lt size n Hs) as Hbk.
  destruct (lookup_lt_is_Some_2 test (bucket_of size n)) as [x Hx]; [lia|].
  pose proof (Ht _ _ Hx). rewrite (nth_of_lookup _ _ _ Hx) in Hok.
  unfold u16 in Hok. rewrite !Z.mod_small in Hok by lia.
  destruct (Z.ltb_spec bucket_size (x + NGX_HASH_ELT_SIZE n)) as [|Hle]; [done|].
  assert (Ht' : forall j y, <[bucket_of size n := x + NGX_HASH_ELT_SIZE n]> test !! j = Some y ->
    0 <= y <= bucket_size).
  { intros j y Hj. apply list_lookup_insert_Some in Hj as [(<- & <- & _)|[_ Hj]]; [lia|by apply (Ht j)]. }
  case_bool_decide as Hbi.
  - subst i. rewrite Hx in Hi. injection Hi as <-. rewrite chain_size_app. simpl.
    pose proof (IH _ (x + NGX_HASH_ELT_SIZE n) ltac:(by rewrite length_insert) Ht' Hok
      ltac:(apply list_lookup_insert_eq; lia)). lia.
  - apply (IH _ t ltac:(by rewrite length_insert) Ht' Hok). by rewrite list_lookup_insert_ne.
Qed.

(** No bucket is so large that its size wraps around. *)
Definition fits (size : Z) (names : list hash_key) : Prop :=
  forall i, (i < Z.to_nat size)%nat -> pointer_size + chain_size (members size names i) <= 65472.

Definition final_sizes (size : Z) (names : list hash_key) : list Z :=
  aligned_sizes (bucket_sizes size names (replicate (Z.to_nat size) pointer_size)).

(** Under [fits], a bucket has room for its elements and the final [NULL]. *)
Lemma final_sizes_spec size names i :
  0 < size -> Forall key_ok names -> fits size names -> (i < Z.to_nat size)%nat ->
  exists t, final_sizes size names !! i = Some t /\
    (if bool_decide (members size names i = []) then t = pointer_size
     else pointer_size + chain_size (members size names i) <= t /\ pointer_size < t /\ t `mod` 64 = 0).
Proof.
  intros Hs Hk Hf Hi. unfold final_sizes, aligned_sizes. rewrite list_lookup_fmap.
  rewrite (bucket_sizes_spec _ _ _ _ pointer_size Hs) by
    (rewrite ?length_replicate; done || by apply lookup_replicate_2).
  specialize (Hf i Hi). pose proof (members_key_ok size names i Hk) as Hm.
  pose proof (chain_size_nonneg _ Hm). change pointer_size with 8 in *.
  replace (u16 (8 + chain_size (members size names i))) with (8 + chain_size (members size names i))
    by (unfold u16; rewrite Z.mod_small; lia).
  simpl. eexists. split; [done|].
  case_bool_decide as Hne; [by rewrite Hne|].
  pose proof (chain_size_pos _ Hm Hne). destruct (Z.eqb_spec (8 + chain_size (members size names i)) 8); [lia|].
  destruct (align_cacheline (8 + chain_size (members size names i))) as [Ha Ha8].
  unfold u16. rewrite Z.mod_small by lia. split; [lia|split; [lia|done]].
Qed.
