(* ===== verification/NgxHashLayout.v ===== *)
(** * NgxHashLayout: the memory of a hash table

    The buckets that [ngx_hash_init] places lie apart from each other inside the
    block it allocates; filling them leaves in every bucket the chain of its
    elements, with the [NULL] that ends it, and nothing outside the block is
    written ([build_ok]). *)

From S2P Require Import Prelude NgxHashKey NgxHash.

(** ** The place of the buckets *)

Lemma place_lookup elts test i t : test !! i = Some t ->
  place elts test !! i = Some (if t =? pointer_size then 0 else elts + total_len (take i test)).
Proof.
  revert elts i. induction test as [|t0 test IH]; intros elts [|i] H; simpl in *; try done.
  - injection H as ->. destruct (t =? pointer_size); [done|]. by rewrite Z.add_0_r.
  - destruct (t0 =? pointer_size); simpl; rewrite (IH _ _ H); [done|]. by rewrite Z.add_assoc.
Qed.

Lemma length_place elts test : length (place elts test) = length test.
Proof.
  revert elts. induction test as [|t test IH]; intros elts; simpl; [done|].
  destruct (t =? pointer_size); simpl; by rewrite IH.
Qed.

(** A list of sizes: [pointer_size], or a multiple of the cache line. *)
Definition size_ok (t : Z) : Prop := t = pointer_size \/ (0 <= t /\ t `mod` 64 = 0).

Lemma total_len_nonneg test : Forall size_ok test -> 0 <= total_len test /\ total_len test `mod` 64 = 0.
Proof.
  induction 1 as [|t test Ht _ [IH1 IH2]]; simpl; [done|].
  destruct (Z.eqb_spec t pointer_size); [done|]. destruct Ht as [?|[Ht Ht']]; [done|].
  split; [lia|]. rewrite Z.add_mod, Ht', IH2 by lia. done.
Qed.

Lemma total_len_take test i t j :
  Forall size_ok test -> test !! i = Some t -> t <> pointer_size -> (i < j)%nat ->
  total_len (take i test) + t <= total_len (take j test).
Proof.
  intros H. revert i j. induction H as [|t0 test Ht0 H IH]; intros i j Hi Hne Hij; [done|].
  destruct j as [|j]; [lia|]. destruct i as [|i]; simpl in *.
  - injection Hi as ->. destruct (Z.eqb_spec t pointer_size); [done|].
    destruct (total_len_nonneg (take j test)); [by apply Forall_take|lia].
  - specialize (IH i j Hi Hne ltac:(lia)). destruct (t0 =? pointer_size); lia.
Qed.

Lemma final_sizes_ok size names : 0 < size -> Forall key_ok names -> fits size names ->
  Forall size_ok (final_sizes size names).
Proof.
  intros Hs Hk Hf. apply Forall_lookup. intros i t Ht.
  pose proof (lookup_lt_Some _ _ _ Ht) as Hi.
  unfold final_sizes, aligned_sizes in Hi.
  rewrite length_fmap, length_bucket_sizes, length_replicate in Hi.
  destruct (final_sizes_spec size names i Hs Hk Hf Hi) as (t' & Ht' & H).
  rewrite Ht in Ht'. injection Ht' as <-. unfold size_ok.
  case_bool_decide; [by left|]. right. change pointer_size with 8 in *. lia.
Qed.

Section Layout.
Context (size : Z) (names : list hash_key) (bs : list Z).

Definition region (i : nat) (x : Z) : Prop :=
  members size names i <> [] /\
  exists b, bs !! i = Some b /\ b <= x < b + chain_size (members size names i) + pointer_size.

(** The buckets that have elements lie apart, in memory from [lo] to [hi]. *)
Record layout (lo hi : Z) : Prop := {
  layout_empty i : (i < Z.to_nat size)%nat -> members size names i = [] -> bs !! i = Some 0;
  layout_bucket i : (i < Z.to_nat size)%nat -> members size names i <> [] ->
    exists b, bs !! i = Some b /\ b <> 0 /\ b `mod` 8 = 0;
  layout_apart i j x : region i x -> region j x -> i = j;
  layout_bounds i x : region i x -> lo <= x < hi
}.
End Layout.

Lemma place_layout size names elts :
  0 < size -> 0 < elts -> elts `mod` 64 = 0 -> Forall key_ok names -> fits size names ->
  layout size names (place elts (final_sizes size names))
    elts (elts + total_len (final_sizes size names)).
Proof.
  intros Hs He He8 Hk Hf. pose proof (final_sizes_ok size names Hs Hk Hf) as Hok.
  set (test := final_sizes size names) in *.
  assert (Hb : forall i, (i < Z.to_nat size)%nat -> members size names i <> [] ->
    exists t, test !! i = Some t /\ place elts test !! i = Some (elts + total_len (take i test)) /\
      pointer_size + chain_size (members size names i) <= t /\ t <> pointer_size).
  { intros i Hi Hne. destruct (final_sizes_spec size names i Hs Hk Hf Hi) as (t & Ht & H).
    rewrite bool_decide_false in H by done. exists t. fold test in Ht. rewrite (place_lookup _ _ _ _ Ht).
    destruct (Z.eqb_spec t pointer_size); [lia|]. split_and!; try done; lia. }
  assert (Hlt : forall i b, place elts test !! i = Some b -> (i < Z.to_nat size)%nat).
  { intros i b H. apply lookup_lt_Some in H. rewrite length_place in H. unfold test in H.
    unfold final_sizes, aligned_sizes in H.
    by rewrite length_fmap, length_bucket_sizes, length_replicate in H. }
  assert (Hreg : forall i x, region size names (place elts test) i x ->
    exists t, test !! i = Some t /\ t <> pointer_size /\
      elts + total_len (take i test) <= x < elts + total_len (take i test) + t).
  { intros i x (Hne & b & Hbi & Hx). destruct (Hb i (Hlt _ _ Hbi) Hne) as (t & Ht & Hp & Hc & Hn8).
    rewrite Hp in Hbi. injection Hbi as <-. exists t. split_and!; try done; lia. }
  assert (Hord : forall i j x, region size names (place elts test) i x ->
    region size names (place elts test) j x -> (i < j)%nat -> False).
  { intros i j x Hi Hj Hij. destruct (Hreg i x Hi) as (t & Ht & Hn & Hx).
    destruct (Hreg j x Hj) as (t' & _ & _ & Hx').
    pose proof (total_len_take test i t j Hok Ht Hn Hij). lia. }
  split.
  - intros i Hi Hm. destruct (final_sizes_spec size names i Hs Hk Hf Hi) as (t & Ht & H).
    rewrite bool_decide_true in H by done. fold test in Ht. by rewrite (place_lookup _ _ _ _ Ht), H.
  - intros i Hi Hne. destruct (Hb i Hi Hne) as (t & _ & Hp & _). rewrite Hp. eexists.
    split; [done|]. destruct (total_len_nonneg (take i test)) as [H1 H2]; [by apply Forall_take|].
    split; [lia|]. pose proof (Z.div_mod (total_len (take i test)) 64).
    pose proof (Z.div_mod elts 64).
    replace (elts + total_len (take i test)) with
      ((elts / 64 * 8 + total_len (take i test) / 64 * 8) * 8) by lia.
    by apply Z.mod_mul.
  - intros i j x Hi Hj. destruct (Nat.lt_trichotomy i j) as [H|[H|H]]; [|done|]; exfalso; eauto.
  - intros i x Hi. destruct (Hreg i x Hi) as (t & Ht & Hn & Hx).
    pose proof (total_len_take test i t (length test) Hok Ht Hn (lookup_lt_Some _ _ _ Ht)).
    rewrite firstn_all in *. destruct (total_len_nonneg (take i test)) as [H1 _];
      [by apply Forall_take|lia].
Qed.

(** ** Filling the buckets *)

Lemma fill_store mem elt n data x : key_data n = Some data ->
  store (store (store mem elt (le_bytes 8 (key_value n))) (elt + 8) (le_bytes 2 (u16 (key_len n))))
    (elt + 10) (ngx_tolower <$> data) x = store mem elt (elt_bytes n) x.
Proof.
  intros Hd. unfold elt_bytes, folded. rewrite Hd, app_assoc, <- store_app.
  rewrite length_app, !length_le_bytes. change (Z.of_nat (8 + 2)) with 10.
  unfold store at 1 4. case_decide; [done|].
  rewrite <- store_app, length_le_bytes. done.
Qed.

Lemma members_prefix size names done rest i : names = done ++ rest ->
  Forall key_ok names ->
  0 <= chain_size (members size done i) <= chain_size (members size names i).
Proof.
  intros -> H. apply Forall_app in H as [H1 H2]. rewrite members_app, chain_size_app.
  pose proof (chain_size_nonneg _ (members_key_ok size done i H1)).
  pose proof (chain_size_nonneg _ (members_key_ok size rest i H2)). lia.
Qed.

Section Fill.
Context (size : Z) (names : list hash_key) (bs : list Z) (lo hi : Z).
Context (Hs : 0 < size) (Hk : Forall key_ok names) (Hf : fits size names).
Context (HL : layout size names bs lo hi).

#[local] Abbreviation region := (region size names bs).

(** The elements of [done] are in their buckets. *)
Definition filled (mem : memory) (done : list hash_key) (test : list Z) : Prop :=
  length test = Z.to_nat size /\
  (forall i, (i < Z.to_nat size)%nat -> test !! i = Some (chain_size (members size done i))) /\
  (forall i b, bs !! i = Some b -> members size names i <> [] -> laid mem b (members size done i)).

(** The room that is left in the bucket of the next element. *)
Lemma next_room done n rest (k := bucket_of size n) :
  names = done ++ n :: rest -> active n = true ->
  key_ok n /\ members size names k <> [] /\ 0 <= chain_size (members size done k) /\
  chain_size (members size done k) + NGX_HASH_ELT_SIZE n <= chain_size (members size names k).
Proof.
  intros Hn Hact.
  assert (Hkn : key_ok n).
  { rewrite Forall_forall in Hk. apply Hk. rewrite Hn. apply elem_of_app. right. left. }
  pose proof (elt_size_ok n Hkn).
  pose proof (members_prefix size names (done ++ [n]) rest k) as H'.
  rewrite <- app_assoc in H'. specialize (H' Hn Hk).
  rewrite members_app, members_one, Hact, bool_decide_true, chain_size_app in H' by done.
  simpl in H'. pose proof (members_prefix size names done (n :: rest) k Hn Hk).
  split_and!; try done; try lia. intros E. rewrite E in H'. simpl in H'. lia.
Qed.

Lemma filled_step mem done n rest test data :
  names = done ++ n :: rest -> filled mem done test -> key_data n = Some data ->
  exists b, bs !! bucket_of size n = Some b /\
    nth (bucket_of size n) test 0 = chain_size (members size done (bucket_of size n)) /\
    (forall x, ~ region (bucket_of size n) x ->
      store mem (b + chain_size (members size done (bucket_of size n))) (elt_bytes n) x = mem x) /\
    filled (store mem (b + chain_size (members size done (bucket_of size n))) (elt_bytes n))
      (done ++ [n])
      (<[bucket_of size n := u16 (nth (bucket_of size n) test 0 + NGX_HASH_ELT_SIZE n)]> test).
Proof.
  intros Hn (Hl & Ht & Hlaid) Hd. set (k := bucket_of size n).
  assert (Hks : (k < Z.to_nat size)%nat) by by apply bucket_of_lt.
  assert (Hact : active n = true) by (unfold active; by rewrite Hd).
  assert (Hm1 : forall i, members size [n] i = if bool_decide (k = i) then [n] else [])
    by (intros i; by rewrite members_one, Hact).
  destruct (next_room done n rest Hn Hact) as (Hkn & Hne & Hsz). fold k in Hne, Hsz.
  pose proof (elt_size_facts n (proj1 Hkn)) as [Hes _]. pose proof (elt_size_ok n Hkn).
  destruct (layout_bucket _ _ _ _ _ HL k Hks Hne) as (b & Hb & _).
  assert (Hin : forall x, b + chain_size (members size done k) <= x <
    b + chain_size (members size done k) + Z.of_nat (length (elt_bytes n)) -> region k x).
  { rewrite length_elt_bytes by done. intros x Hx. split; [done|]. exists b. split; [done|].
    change pointer_size with 8. lia. }
  assert (Hfit := Hf k Hks). change pointer_size with 8 in Hfit.
  exists b. split; [done|]. split; [by apply nth_of_lookup, Ht|].
  split; [intros x Hx; apply store_out; intros H'; by apply Hx, Hin|].
  split; [by rewrite length_insert|]. split.
  - intros i Hi. rewrite members_app, Hm1, chain_size_app. case_bool_decide as Hki.
    + subst i. rewrite (nth_of_lookup _ _ _ (Ht k Hks)), list_lookup_insert_eq by lia.
      unfold u16. rewrite Z.mod_small by lia. simpl. f_equal. lia.
    + rewrite list_lookup_insert_ne, Ht by done. simpl. f_equal. lia.
  - intros i b' Hb' Hne'. rewrite members_app, Hm1, laid_app.
    assert (Hold : laid (store mem (b + chain_size (members size done k)) (elt_bytes n)) b'
      (members size done i)).
    { pose proof Hk as Hk'. rewrite Hn in Hk'. apply Forall_app in Hk' as [Hk' _].
      apply (chain_laid_ext mem); [by apply members_key_ok|apply members_active| |by apply Hlaid].
      intros x Hx. apply store_out. intros Hx'.
      pose proof (members_prefix size names done (n :: rest) i Hn Hk).
      assert (i = k) as ->.
      { apply (layout_apart _ _ _ _ _ HL i k x); [|by apply Hin].
        split; [done|]. exists b'. split; [done|]. change pointer_size with 8. lia. }
      rewrite Hb in Hb'. injection Hb' as <-. lia. }
    split; [done|]. case_bool_decide as Hki; [|done]. subst i. rewrite Hb in Hb'. injection Hb' as <-.
    simpl. split; [apply store_holds|done].
Qed.

Lemma filled_ext mem mem' done test :
  Forall key_ok done -> (forall x, mem' x = mem x) -> filled mem done test -> filled mem' done test.
Proof.
  intros Hd Hx (H1 & H2 & H3). split_and!; [done|done|]. intros i b Hb Hne.
  apply (chain_laid_ext mem); [by apply members_key_ok|apply members_active|by intros|by apply H3].
Qed.

Lemma fill_laid rest : forall done mem test, names = done ++ rest -> filled mem done test ->
  let '(mem', test') := fill size bs rest mem test in
  filled mem' names test' /\ (forall x, (forall i, ~ region i x) -> mem' x = mem x).
Proof.
  induction rest as [|n rest IH]; intros done mem test Hn Hfl; simpl.
  { rewrite app_nil_r in Hn. by subst done. }
  assert (Hn' : names = (done ++ [n]) ++ rest) by by rewrite <- app_assoc.
  destruct (key_data n) as [data|] eqn:Hd.
  - destruct (filled_step mem done n rest test data Hn Hfl Hd) as (b & Hb & Ht & Hout & Hst).
    rewrite (nth_of_lookup _ _ _ Hb).
    set (mem3 := store _ (b + nth (bucket_of size n) test 0 + 10) _).
    assert (H3 : forall x, mem3 x =
      store mem (b + chain_size (members size done (bucket_of size n))) (elt_bytes n) x)
      by (intros x; unfold mem3; rewrite (fill_store _ _ _ _ _ Hd), Ht; done).
    specialize (IH (done ++ [n]) mem3 _ Hn' (filled_ext _ mem3 _ _ ltac:(
      pose proof Hk as Hk'; rewrite Hn' in Hk'; by apply Forall_app in Hk' as [? _]) H3 Hst)).
    destruct (fill size bs rest mem3 _) as [mem' test']. destruct IH as [IH1 IH2].
    split; [done|]. intros x Hx. by rewrite IH2, H3, Hout.
  - apply (IH (done ++ [n])); [done|]. destruct Hfl as (H1 & H2 & H3).
    assert (E : forall i, members size (done ++ [n]) i = members size done i).
    { intros i. rewrite members_app, members_one. unfold active. rewrite Hd. simpl.
      by rewrite app_nil_r. }
    split_and!; [done|..]; intros; rewrite E; auto.
Qed.
End Fill.

(** ** The ends of the buckets *)

Lemma nth_zeros k : nth k (le_bytes 8 0) 0 = 0.
Proof. change (le_bytes 8 0) with (repeat 0 8). apply nth_repeat. Qed.

Lemma terminate_zero bs test mem x : mem x = 0 -> terminate bs test mem x = 0.
Proof.
  revert test mem. induction bs as [|b bs IH]; intros [|t test] mem H; cbn [terminate]; try done.
  apply IH. destruct (b =? 0); [done|]. unfold store. case_decide; [|done].
  apply nth_zeros.
Qed.

Lemma terminate_in bs test mem i b t x : bs !! i = Some b -> test !! i = Some t -> b <> 0 ->
  b + t <= x < b + t + 8 -> terminate bs test mem x = 0.
Proof.
  revert bs test mem. induction i as [|i IH]; intros [|b' bs] [|t' test] mem Hb Ht Hne Hx; try done;
    cbn [terminate]; cbn in Hb, Ht.
  - injection Hb as ->. injection Ht as ->. apply terminate_zero.
    destruct (Z.eqb_spec b 0); [done|]. unfold store. rewrite length_le_bytes, decide_True by lia.
    apply nth_zeros.
  - by apply (IH bs test).
Qed.

Lemma terminate_out bs test mem x :
  (forall i b t, bs !! i = Some b -> test !! i = Some t -> b <> 0 -> ~ (b + t <= x < b + t + 8)) ->
  terminate bs test mem x = mem x.
Proof.
  revert test mem. induction bs as [|b bs IH]; intros [|t test] mem H; cbn [terminate]; try done.
  rewrite IH by (intros i b' t' Hb Ht; by apply (H (S i))).
  destruct (Z.eqb_spec b 0); [done|]. apply store_out. rewrite length_le_bytes.
  by apply (H O b t).
Qed.

(** ** The table *)

(** In the block from [lo] on there is a table for [names]. *)
Definition table_ok (mem : memory) (names : list hash_key) (h : ngx_hash_t) : Prop :=
  0 < hash_size h /\
  forall i, (i < Z.to_nat (hash_size h))%nat ->
    let l := members (hash_size h) names i in
    exists b, buckets h !! i = Some b /\
      (if bool_decide (l = []) then b = 0
       else b <> 0 /\ b `mod` 8 = 0 /\ laid mem b l /\ holds mem (b + chain_size l) (le_bytes 8 0)).

(** The bytes that a walk over the table reads. *)
Definition table_bytes (names : list hash_key) (h : ngx_hash_t) (x : Z) : Prop :=
  exists i, region (hash_size h) names (buckets h) i x.

Lemma zeros_hold mem a : (forall x, a <= x < a + 8 -> mem x = 0) -> holds mem a (le_bytes 8 0).
Proof.
  intros H i b Hi. pose proof (lookup_lt_Some _ _ _ Hi) as Hl. rewrite length_le_bytes in Hl.
  rewrite H by lia. change (le_bytes 8 0) with (replicate 8 0) in Hi.
  by apply lookup_replicate in Hi as [-> _].
Qed.

Lemma build_ok size elts names mem :
  0 < size -> 0 < elts -> Forall key_ok names -> fits size names ->
  let '(mem', h) := build size elts names mem in
  hash_size h = size /\ table_ok mem' names h /\
  (forall x, table_bytes names h x -> elts <= x < elts + block_len size names) /\
  (forall x, ~ (elts <= x < elts + block_len size names) -> mem' x = mem x).
Proof.
  intros Hs He Hk Hf. unfold build. destruct (align_cacheline elts) as [Hel Hel64].
  set (base := ngx_align elts cacheline_size) in *. fold (final_sizes size names).
  pose proof (place_layout size names base Hs ltac:(lia) Hel64 Hk Hf) as HL.
  set (bs := place base (final_sizes size names)) in *.
  set (test0 := replicate (Z.to_nat size) 0).
  assert (H0 : filled size names bs mem [] test0).
  { unfold test0. split_and!; [by rewrite length_replicate| |done].
    intros i Hi. rewrite lookup_replicate_2 by done. done. }
  pose proof (fill_laid size names bs _ _ Hs Hk Hf HL names [] mem test0 eq_refl H0) as HF.
  destruct (fill size bs names mem test0) as [mem1 test1]. destruct HF as [(Hl & Ht & Hlaid) Hout].
  assert (Hlen : length bs = Z.to_nat size).
  { unfold bs. rewrite length_place. unfold final_sizes, aligned_sizes.
    by rewrite length_fmap, length_bucket_sizes, length_replicate. }
  assert (Hb0 : forall i b, bs !! i = Some b -> b <> 0 -> members size names i <> []).
  { intros i b Hb Hne E. pose proof (lookup_lt_Some _ _ _ Hb).
    rewrite (layout_empty _ _ _ _ _ HL i ltac:(lia) E) in Hb. congruence. }
  assert (Hreg : forall i x, region size names bs i x -> elts <= x < elts + block_len size names).
  { intros i x Hx. apply (layout_bounds _ _ _ _ _ HL) in Hx. unfold block_len.
    fold (final_sizes size names). change cacheline_size with 64 in *. lia. }
  assert (Hend : forall i b t x, bs !! i = Some b -> test1 !! i = Some t -> b <> 0 ->
    b + t <= x < b + t + 8 -> t = chain_size (members size names i) /\ region size names bs i x).
  { intros i b t x Hb Hti Hne Hx. pose proof (lookup_lt_Some _ _ _ Hb).
    rewrite Ht in Hti by lia. injection Hti as <-. split; [done|]. split; [by eapply Hb0|].
    pose proof (chain_size_nonneg _ (members_key_ok size names i Hk)).
    exists b. split; [done|]. change pointer_size with 8. lia. }
  split; [done|]. split; [|split].
  - split; [done|]. cbn [hash_size buckets]. intros i Hi. set (l := members size names i).
    destruct (decide (l = [])) as [E|E].
    { exists 0. rewrite bool_decide_true by done. split; [|done]. by apply (layout_empty _ _ _ _ _ HL). }
    destruct (layout_bucket _ _ _ _ _ HL i Hi E) as (b & Hb & Hne & H8).
    exists b. rewrite bool_decide_false by done. split_and!; [done|done|done| |].
    + apply (chain_laid_ext mem1); [by apply members_key_ok|apply members_active| |by apply Hlaid].
      intros x Hx. apply terminate_out. intros j b' t' Hb' Ht' Hne' Hx'.
      destruct (Hend j b' t' x Hb' Ht' Hne' Hx') as [-> Hr].
      assert (i = j) as <-.
      { apply (layout_apart _ _ _ _ _ HL i j x); [|done]. split; [done|]. exists b.
        split; [done|]. fold l. change pointer_size with 8. lia. }
      rewrite Hb in Hb'. injection Hb' as <-. fold l in Hx'. lia.
    + apply zeros_hold. intros x Hx. by apply (terminate_in bs test1 mem1 i b _ x Hb (Ht i Hi)).
  - intros x [i Hi]. by apply (Hreg i).
  - intros x Hx. rewrite terminate_out.
    + apply Hout. intros i Hi. by apply Hx, (Hreg i).
    + intros i b t Hb Hti Hne Hx'. destruct (Hend i b t x Hb Hti Hne Hx') as [_ Hr].
      by apply Hx, (Hreg i).
Qed.
