(* ===== verification/NgxHashFind.v ===== *)
(** * NgxHashFind: the contract of hash tables

    The number of buckets [ngx_hash_init] chooses, and lookup in the table it
    builds; a table with an oversized bucket, where the contract fails. *)

From S2P Require Import Prelude NgxHashKey NgxHash NgxHashLayout.

(** ** The number of buckets *)

Lemma start_size_pos max_size bucket_size nelts :
  0 <= nelts -> 0 <= bucket_size -> 0 < start_size max_size bucket_size nelts.
Proof.
  intros Hn Hb. unfold start_size.
  assert (0 <= nelts / (bucket_size / (2 * pointer_size))).
  { destruct (Z.eq_dec (bucket_size / (2 * pointer_size)) 0) as [->|]; [by rewrite Z.div_0_r|].
    apply Z.div_pos; [done|]. assert (0 <= bucket_size / (2 * pointer_size)) by
      (apply Z.div_pos; [done|by change pointer_size with 8]). lia. }
  destruct (Z.ltb_spec 10000 max_size); destruct (Z.eqb_spec (nelts / (bucket_size / (2 * pointer_size))) 0);
    simpl; try case_match; lia.
Qed.

(** The test that a number of buckets has to pass. *)
Definition passes (bucket_size : Z) (names : list hash_key) (size : Z) : Prop :=
  size_test size bucket_size names (replicate (Z.to_nat size) 0) = true.

Lemma find_size_spec fuel size max_size bucket_size names :
  max_size - size < Z.of_nat fuel ->
  let s := find_size fuel size max_size bucket_size names in
  (size <= s <= max_size /\ passes bucket_size names s /\
    forall k, size <= k < s -> ~ passes bucket_size names k) \/
  (s = max_size /\ forall k, size <= k <= max_size -> ~ passes bucket_size names k).
Proof.
  revert size. induction fuel as [|fuel IH]; intros size Hf; simpl; [right; split; [done|lia]|].
  destruct (Z.leb_spec size max_size); [|right; split; [done|lia]].
  destruct (size_test size bucket_size names _) eqn:E.
  - left. split; [lia|]. split; [done|lia].
  - assert (Hno : ~ passes bucket_size names size) by (unfold passes; congruence).
    destruct (IH (size + 1) ltac:(lia)) as [(H1 & H2 & H3)|[H1 H2]].
    + left. split; [lia|]. split; [done|]. intros k Hk.
      destruct (Z.eq_dec k size) as [->|]; [done|]. apply H3. lia.
    + right. split; [done|]. intros k Hk.
      destruct (Z.eq_dec k size) as [->|]; [done|]. apply H2. lia.
Qed.

(** Conversely, a test fails only for a bucket that is too large. *)
Lemma size_test_complete size bucket_size names test :
  0 < size -> length test = Z.to_nat size -> 0 <= bucket_size <= 32767 -> Forall key_ok names ->
  (forall i t, test !! i = Some t ->
    0 <= t /\ t + chain_size (members size names i) <= bucket_size) ->
  size_test size bucket_size names test = true.
Proof.
  intros Hs Hl Hb HF. revert test Hl.
  induction HF as [|n names Hn HF IH]; intros test Hl Ht; [done|]. cbn [size_test].
  pose proof (fun i => chain_size_nonneg _ (members_key_ok size names i HF)) as Hpos.
  destruct (key_data n) as [data|] eqn:Ed.
  2: { apply IH; [done|]. intros i t Hi. specialize (Ht i t Hi). rewrite members_cons in Ht.
       unfold active in Ht. by rewrite Ed in Ht. }
  pose proof (bucket_of_lt size n Hs) as Hbk.
  assert (Hm : forall i, members size (n :: names) i =
    (if bool_decide (bucket_of size n = i) then [n] else []) ++ members size names i).
  { intros i. rewrite members_cons. unfold active. by rewrite Ed. }
  destruct (lookup_lt_is_Some_2 test (bucket_of size n)) as [x Hx]; [lia|].
  destruct (Ht _ _ Hx) as [Hx0 Hx1]. rewrite Hm, bool_decide_true in Hx1 by done. simpl in Hx1.
  specialize (Hpos (bucket_of size n)) as Hp. pose proof (elt_size_ok n Hn).
  rewrite (nth_of_lookup _ _ _ Hx). unfold u16. rewrite !Z.mod_small by lia.
  destruct (Z.ltb_spec bucket_size (x + NGX_HASH_ELT_SIZE n)); [lia|].
  apply IH; [by rewrite length_insert|]. intros i t Hi.
  apply list_lookup_insert_Some in Hi as [(<- & <- & _)|[Hne Hi]]; [lia|].
  destruct (Ht i t Hi) as [Ht0 Ht1]. rewrite Hm, bool_decide_false in Ht1 by done. done.
Qed.

(** No bucket needs more than [bucket_size] bytes, its final [NULL] included. *)
Definition buckets_fit (bucket_size : Z) (names : list hash_key) (size : Z) : Prop :=
  forall i, (i < Z.to_nat size)%nat ->
    chain_size (members size names i) + pointer_size <= bucket_size.

Lemma passes_iff size bucket_size names :
  0 < size -> pointer_size <= bucket_size <= 32775 -> Forall key_ok names ->
  Forall (fun n => 0 <= NGX_HASH_ELT_SIZE n <= bucket_size - pointer_size) names ->
  passes (bucket_size - pointer_size) names size <-> buckets_fit bucket_size names size.
Proof.
  intros Hs Hb Hk HF. change pointer_size with 8 in *. split.
  - intros Hp i Hi.
    pose proof (size_test_spec size (bucket_size - 8) names (replicate (Z.to_nat size) 0) i 0 Hs
      (length_replicate _ _) ltac:(lia) HF) as H.
    specialize (H ltac:(intros j x Hj; apply lookup_replicate in Hj as [-> _]; lia) Hp
      ltac:(by apply lookup_replicate_2)). change pointer_size with 8. lia.
  - intros H. apply size_test_complete; [done|by rewrite length_replicate|lia|done|].
    intros i t Hi. apply lookup_replicate in Hi as [-> Hi]. specialize (H i Hi).
    change pointer_size with 8 in H. lia.
Qed.

Lemma buckets_fit_fits size bucket_size names :
  bucket_size <= 65472 -> buckets_fit bucket_size names size -> fits size names.
Proof. intros Hb H i Hi. specialize (H i Hi). lia. Qed.

(** ** Lookup in a table *)

Lemma hash_lookup_members size names name i :
  (forall n, n ∈ names -> active n = true -> folded n = name -> bucket_of size n = i) ->
  hash_lookup (members size names i) name = hash_lookup names name.
Proof.
  unfold hash_lookup. induction names as [|n names IH]; intros H; [done|].
  rewrite members_cons. cbn [List.find].
  assert (IH' := IH ltac:(intros m Hm; apply H; by right)).
  destruct (active n) eqn:Ea; simpl; [|done].
  destruct (decide (folded n = name)) as [E|E].
  - rewrite (bool_decide_true (bucket_of _ _ = _)) by (apply H; [left|done|done]).
    simpl. by rewrite Ea, bool_decide_true.
  - rewrite (bool_decide_false (folded n = name)) by done. rewrite <- IH'.
    case_bool_decide; simpl; [|done]. by rewrite Ea, bool_decide_false.
Qed.

Lemma chain_member l n : Forall key_ok l -> n ∈ l -> NGX_HASH_ELT_SIZE n <= chain_size l.
Proof.
  intros Hl. induction Hl as [|m l Hm Hl IH]; intros Hn; [by apply not_elem_of_nil in Hn|].
  simpl. pose proof (chain_size_nonneg l Hl). pose proof (elt_size_ok m Hm).
  apply elem_of_cons in Hn as [->|Hn]; [lia|]. specialize (IH Hn). lia.
Qed.

Lemma table_find fuel mem h names key name :
  Forall key_ok names -> fits (hash_size h) names -> table_ok mem names h ->
  (forall n, n ∈ names -> active n = true -> folded n = name ->
    key_hash n `mod` hash_size h = key `mod` hash_size h) ->
  (length names < fuel)%nat ->
  ngx_hash_find fuel mem h key name = Some (hash_lookup names name).
Proof.
  intros Hk Hf [Hs Ht] Hkey Hfu. unfold ngx_hash_find.
  set (i := Z.to_nat (key `mod` hash_size h)).
  pose proof (Z.mod_pos_bound key (hash_size h) Hs).
  assert (Hi : (i < Z.to_nat (hash_size h))%nat) by lia.
  rewrite <- (hash_lookup_members (hash_size h) names name i).
  2: { intros n Hn Ha Hfo. unfold bucket_of, i. by rewrite (Hkey n Hn Ha Hfo). }
  destruct (Ht i Hi) as (b & Hb & H0). rewrite (nth_of_lookup _ _ _ Hb).
  pose proof (members_key_ok (hash_size h) names i Hk) as Hm.
  case_bool_decide as E; [by rewrite H0, E|]. destruct H0 as (Hne & H8 & Hlaid & Hend).
  destruct (Z.eqb_spec b 0) as [|_]; [done|]. apply find_loop_chain; try done.
  - intros n Hn. split; [by apply members_active in Hn|].
    pose proof (chain_member _ n Hm Hn). specialize (Hf i Hi). change pointer_size with 8 in Hf.
    rewrite Forall_forall in Hm. pose proof (elt_size_facts n (proj1 (Hm n Hn))). lia.
  - unfold members. pose proof (length_filter (fun n => active n = true /\ bucket_of (hash_size h) n = i) names).
    lia.
Qed.

Lemma table_ok_ext mem mem' names h :
  Forall key_ok names -> (forall x, table_bytes names h x -> mem' x = mem x) ->
  table_ok mem names h -> table_ok mem' names h.
Proof.
  intros Hk Hx [Hs Ht]. split; [done|]. intros i Hi l. destruct (Ht i Hi) as (b & Hb & H).
  fold l in H. exists b. split; [done|]. case_bool_decide as E; [done|].
  destruct H as (Hne & H8 & Hlaid & Hend).
  assert (Hr : forall x, b <= x < b + chain_size l + 8 -> mem' x = mem x).
  { intros x Hxr. apply Hx. exists i. split; [done|]. exists b. split; [done|]. by fold l. }
  pose proof (chain_size_nonneg l (members_key_ok _ _ _ Hk)).
  split_and!; [done|done| |].
  - apply (chain_laid_ext mem); [by apply members_key_ok|apply members_active| |done].
    intros x Hxr. apply Hr. lia.
  - apply (holds_ext mem); [|done]. rewrite length_le_bytes. intros x Hxr. apply Hr. lia.
Qed.

(** What initialisation yields. *)
Lemma ngx_hash_init_inv max_size bucket_size elts names mem mem' h :
  0 < max_size -> pointer_size <= bucket_size -> Forall key_ok names ->
  ngx_hash_init max_size bucket_size elts names mem = Some (mem', h) ->
  let start := start_size max_size (bucket_size - pointer_size) (Z.of_nat (length names)) in
  build (hash_size h) elts names mem = (mem', h) /\ 0 < start /\ 0 < hash_size h /\
  Forall (fun n => 0 <= NGX_HASH_ELT_SIZE n <= bucket_size - pointer_size) names /\
  let ok := passes (bucket_size - pointer_size) names in
  (start <= hash_size h <= max_size /\ ok (hash_size h) /\
    forall k, start <= k < hash_size h -> ~ ok k) \/
  (hash_size h = max_size /\ forall k, start <= k <= max_size -> ~ ok k).
Proof.
  intros Hmax Hb Hk H start.
  pose proof (start_size_pos max_size (bucket_size - pointer_size) (Z.of_nat (length names))
    ltac:(lia) ltac:(lia)) as Hst. fold start in Hst.
  unfold ngx_hash_init, choose_size in H.
  destruct (Z.eqb_spec max_size 0) as [|_]; [lia|]. destruct (existsb _ names) eqn:Ex; [done|].
  cbn in H. fold start in H.
  set (size := find_size _ _ _ _ _) in H.
  assert (Hh : hash_size h = size).
  { unfold build in H. destruct (fill _ _ _ _ _) in H. by injection H as _ <-. }
  injection H as H. rewrite Hh. split; [done|]. split; [done|].
  pose proof (find_size_spec (Z.to_nat (max_size - start + 1)) start max_size
    (bucket_size - pointer_size) names ltac:(lia)) as Hfs. fold size in Hfs.
  split; [cbv zeta in Hfs; lia|]. split; [|exact Hfs].
  apply Forall_forall. intros n Hn.
  rewrite Forall_forall in Hk. pose proof (elt_size_ok n (Hk n Hn)).
  destruct (Z.ltb_spec bucket_size (NGX_HASH_ELT_SIZE n + pointer_size)) as [Hlt|]; [|lia].
  enough (existsb (fun n => bucket_size <? NGX_HASH_ELT_SIZE n + pointer_size) names = true)
    by congruence.
  apply existsb_exists. exists n. split; [by apply list_elem_of_In|by apply Z.ltb_lt].
Qed.

(** ** Properties *)

(** C32. The lookup contract: in a table that [ngx_hash_init] built for names whose
    hashes are [H] of their folded bytes, and no bucket of which is larger than
    65472 bytes, [ngx_hash_find] returns the value of the first name that is
    equal, in lower case, to the bytes asked for, and [NULL] if there is none.
    The walk ends, and depends on nothing but the bytes of the table. *)
Theorem hash_find_first H max_size bucket_size elts names mem mem0 h :
  0 < max_size -> pointer_size <= bucket_size -> 0 < elts -> Forall key_ok names ->
  (forall n, n ∈ names -> active n = true -> key_hash n = H (folded n)) ->
  ngx_hash_init max_size bucket_size elts names mem = Some (mem0, h) ->
  fits (hash_size h) names ->
  forall mem' name fuel,
    (forall x, table_bytes names h x -> mem' x = mem0 x) -> (length names < fuel)%nat ->
    ngx_hash_find fuel mem' h (H name) name = Some (hash_lookup names name).
Proof.
  intros Hmax Hbk He Hk HH Hi Hf mem' name fuel Hx Hfu.
  destruct (ngx_hash_init_inv _ _ _ _ _ _ _ Hmax Hbk Hk Hi) as (Hb & _ & Hs & _).
  pose proof (build_ok _ elts names mem Hs He Hk Hf) as H0. rewrite Hb in H0.
  destruct H0 as (_ & Hok & _). apply table_find; [done|done|by apply (table_ok_ext mem0)| |done].
  intros n Hn Ha Hfo. by rewrite (HH n Hn Ha), Hfo.
Qed.

(** C33. Writes in bounds: if no bucket is larger than 65472 bytes, [ngx_hash_init]
    writes only to the block it has allocated, and the table lies in it. *)
Theorem hash_init_in_block max_size bucket_size elts names mem mem' h :
  0 < max_size -> pointer_size <= bucket_size -> 0 < elts -> Forall key_ok names ->
  ngx_hash_init max_size bucket_size elts names mem = Some (mem', h) ->
  fits (hash_size h) names ->
  (forall x, ~ (elts <= x < elts + block_len (hash_size h) names) -> mem' x = mem x) /\
  (forall x, table_bytes names h x -> elts <= x < elts + block_len (hash_size h) names).
Proof.
  intros Hmax Hbk He Hk Hi Hf.
  destruct (ngx_hash_init_inv _ _ _ _ _ _ _ Hmax Hbk Hk Hi) as (Hb & _ & Hs & _).
  pose proof (build_ok _ elts names mem Hs He Hk Hf) as H0. rewrite Hb in H0. tauto.
Qed.

(** The number of buckets: for bucket sizes up to 32775 it is the smallest one,
    from the start of the search to [max_size], with which no bucket needs more
    than [bucket_size] bytes; [max_size] if there is none such. *)
Theorem hash_size_smallest max_size bucket_size elts names mem mem' h :
  0 < max_size -> pointer_size <= bucket_size <= 32775 -> Forall key_ok names ->
  ngx_hash_init max_size bucket_size elts names mem = Some (mem', h) ->
  let start := start_size max_size (bucket_size - pointer_size) (Z.of_nat (length names)) in
  (start <= hash_size h <= max_size /\ buckets_fit bucket_size names (hash_size h) /\
    fits (hash_size h) names /\
    forall k, start <= k < hash_size h -> ~ buckets_fit bucket_size names k) \/
  (hash_size h = max_size /\ forall k, start <= k <= max_size -> ~ buckets_fit bucket_size names k).
Proof.
  intros Hmax Hbk Hk Hi start.
  destruct (ngx_hash_init_inv _ _ _ _ _ _ _ Hmax (proj1 Hbk) Hk Hi) as (_ & Hst & Hs & HF & Hc).
  fold start in Hst, Hc.
  pose proof (fun k Hk0 => passes_iff k bucket_size names Hk0 Hbk Hk HF) as Hiff.
  destruct Hc as [(H1 & H2 & H3)|[H1 H2]]; [left|right].
  - apply Hiff in H2; [|done]. split_and!; try done; try lia.
    + apply (buckets_fit_fits _ bucket_size); [lia|done].
    + intros k Hk0. rewrite <- Hiff by lia. by apply H3.
  - split; [done|]. intros k Hk0. rewrite <- Hiff by lia. by apply H2.
Qed.

(** ** Examples *)

Definition sample_key (s : string) (value : Z) : hash_key :=
  let data := bytes s in
  HashKey (Z.of_nat (length data)) (Some data) (ngx_hash_key_lc data) value.

Definition sample_keys : list hash_key :=
  [sample_key "Host" 1001; sample_key "Connection" 1002; sample_key "If-Modified-Since" 1003;
   HashKey 0 None 0 0; sample_key "User-Agent" 1004; sample_key "Referer" 1005;
   sample_key "HOST" 1006].

Definition sample_table : memory * ngx_hash_t :=
  default (fun _ => 0, Hash [] 0) (ngx_hash_init 512 64 4000 sample_keys (fun _ => 0)).

Lemma sample_keys_ok : Forall key_ok sample_keys.
Proof. unfold sample_keys. repeat constructor; vm_compute; congruence. Qed.

Lemma sample_init : ngx_hash_init 512 64 4000 sample_keys (fun _ => 0) = Some sample_table.
Proof. unfold sample_table. destruct (ngx_hash_init _ _ _ _ _) eqn:E; [done|discriminate E]. Qed.

Lemma sample_size : hash_size (snd sample_table) = 3.
Proof. vm_compute. reflexivity. Qed.

Lemma sample_hashes n : n ∈ sample_keys -> active n = true -> key_hash n = ngx_hash_key (folded n).
Proof.
  enough (Forall (fun n => active n = true -> key_hash n = ngx_hash_key (folded n)) sample_keys) as H
    by (rewrite Forall_forall in H; apply H).
  unfold sample_keys. repeat constructor; intros; vm_compute; done.
Qed.

Lemma sample_fits : fits (hash_size (snd sample_table)) sample_keys.
Proof.
  intros i Hi. rewrite sample_size in Hi.
  do 3 (destruct i as [|i]; [vm_compute; congruence|]). lia.
Qed.

Lemma hash_find_first_witness :
  hash_size (snd sample_table) = 3 /\
  ngx_hash_find 8 (fst sample_table) (snd sample_table) (ngx_hash_key (bytes "host")) (bytes "host")
    = Some 1001 /\
  ngx_hash_find 8 (fst sample_table) (snd sample_table) (ngx_hash_key (bytes "date")) (bytes "date")
    = Some 0.
Proof.
  split; [vm_compute; reflexivity|].
  assert (H : forall name, ngx_hash_find 8 (fst sample_table) (snd sample_table) (ngx_hash_key name) name
    = Some (hash_lookup sample_keys name)).
  { intros name.
    apply (hash_find_first ngx_hash_key 512 64 4000 sample_keys (fun _ => 0) (fst sample_table)
      (snd sample_table)); [done|done|done|apply sample_keys_ok| | | |done|vm_compute; lia].
    - exact sample_hashes.
    - rewrite sample_init. by destruct sample_table.
    - apply sample_fits. }
  split; rewrite H; vm_compute; reflexivity.
Defined.

Lemma hash_init_in_block_witness : fst sample_table 3999 = 0 /\ fst sample_table 4256 = 0.
Proof.
  destruct (hash_init_in_block 512 64 4000 sample_keys (fun _ => 0) (fst sample_table)
    (snd sample_table)) as [H _];
    [done|done|done|apply sample_keys_ok|rewrite sample_init; by destruct sample_table
    |apply sample_fits|].
  split; (rewrite H; [done|]); rewrite sample_size;
    replace (block_len 3 sample_keys) with 256 by (vm_compute; reflexivity); lia.
Defined.

Lemma hash_size_smallest_witness :
  buckets_fit 64 sample_keys 3 /\ ~ buckets_fit 64 sample_keys 2.
Proof.
  destruct (hash_size_smallest 512 64 4000 sample_keys (fun _ => 0) (fst sample_table)
    (snd sample_table)) as [(_ & H1 & _ & H2)|[H _]];
    [done|done|apply sample_keys_ok|rewrite sample_init; by destruct sample_table| |].
  - rewrite sample_size in H1, H2. split; [exact H1|]. apply H2. vm_compute. split; congruence.
  - rewrite sample_size in H. done.
Defined.

(** A table whose one bucket needs more than 65535 bytes: the size of the
    bucket, a [u_short], wraps around, and 1400 elements of 48 bytes are written
    to a block of 1792 bytes. *)
Definition long_key (i : Z) : hash_key :=
  let data := replicate 34 97 ++ [48 + i / 1000; 48 + i / 100 `mod` 10; 48 + i / 10 `mod` 10; 48 + i `mod` 10] in
  HashKey 38 (Some data) (ngx_hash_key data) (i + 1).

Definition long_keys : list hash_key := long_key <$> seqZ 0 1400.

Definition long_table : memory * ngx_hash_t :=
  default (fun _ => 0, Hash [] 0) (ngx_hash_init 1 64 4096 long_keys (fun _ => 0)).

Lemma hash_init_overruns :
  ngx_hash_init 1 64 4096 long_keys (fun _ => 0) = Some long_table /\
  block_len 1 long_keys = 1792 /\ fst long_table (4096 + 10000 + 32) <> 0.
Proof.
  split; [unfold long_table; destruct (ngx_hash_init _ _ _ _ _) eqn:E; [done|discriminate E]|].
  vm_compute. split; [reflexivity|congruence].
Qed.
