(* ===== verification/NgxNumber.v ===== *)
(** * NgxNumber: printing and parsing integers

    The integer conversions of src/core/ngx_string.c: [ngx_sprintf_num], which
    every "%i", "%O" or "%xO" of [ngx_sprintf] ends in, and the parsers
    [ngx_atoi], [ngx_atosz], [ngx_atoof], [ngx_atotm], [ngx_atofp], [ngx_hextoi].
    A string is the list of its bytes. *)

From S2P Require Import Prelude.

(** [NGX_MAX_INT_T_VALUE], [NGX_MAX_SIZE_T_VALUE], [NGX_MAX_OFF_T_VALUE] and
    [NGX_MAX_TIME_T_VALUE] have this value on a 64-bit platform. *)
Definition NGX_MAX_INT64 : Z := 2 ^ 63 - 1.
Definition NGX_MAX_UINT32_VALUE : Z := 2 ^ 32 - 1.
(** [NGX_INT64_LEN], the size of the buffer that digits are written to. *)
Definition NGX_INT64_LEN : nat := 20.

(** ** Printing *)

Definition hex : list Z := bytes "0123456789abcdef".
Definition HEX : list Z := bytes "0123456789ABCDEF".

(** The [do *--p = digit while (n = quot n)] loop, which fills [temp] from its
    end: [None] when it would run out of [temp]. *)
(* core/ngx_string.c:509-538 ngx_sprintf_num: digit loops *)
Fixpoint num_loop (fuel : nat) (digit quot : Z -> Z) (n : Z) (acc : list Z)
  : option (list Z) :=
  match fuel with
  | O => None
  | S fuel =>
      let acc := digit n :: acc in
      if quot n =? 0 then Some acc else num_loop fuel digit quot (quot n) acc
  end.

(* core/ngx_string.c:493-539 ngx_sprintf_num *)
Definition num_digits (ui64 hexadecimal : Z) : option (list Z) :=
  if hexadecimal =? 0 then
    let n := if ui64 <=? NGX_MAX_UINT32_VALUE then u32 ui64 else ui64 in
    num_loop NGX_INT64_LEN (fun n => u8 (n `mod` 10 + $ "0")) (fun n => n / 10) n []
  else if hexadecimal =? 1 then
    num_loop NGX_INT64_LEN (fun n => nth (Z.to_nat (Z.land n 0xf)) hex 0)
      (fun n => Z.shiftr n 4) ui64 []
  else
    num_loop NGX_INT64_LEN (fun n => nth (Z.to_nat (Z.land n 0xf)) HEX 0)
      (fun n => Z.shiftr n 4) ui64 [].

(** The bytes written to [buf] when [room = last - buf] bytes are left. *)
(* core/ngx_string.c:477-560 ngx_sprintf_num *)
Definition ngx_sprintf_num (room ui64 zero hexadecimal width : Z) : option (list Z) :=
  digits ← num_digits ui64 hexadecimal;
  let len := Z.of_nat (length digits) in
  let padding := replicate (Z.to_nat (Z.min (width - len) room)) zero in
  let room := room - Z.of_nat (length padding) in
  Some (padding ++ take (Z.to_nat (if room <? len then room else len)) digits).

(** ** Parsing *)

Definition is_digit (c : Z) : bool := ($ "0" <=? c) && (c <=? $ "9").

(* core/ngx_string.c:910-924 ngx_atoi: loop *)
Fixpoint ato_loop (cutoff cutlim : Z) (line : list Z) (value : Z) : Z :=
  match line with
  | [] => value
  | c :: line =>
      if negb (is_digit c) then NGX_ERROR
      else if (cutoff <=? value) && ((cutoff <? value) || (cutlim <? c - $ "0"))
      then NGX_ERROR
      else ato_loop cutoff cutlim line (value * 10 + (c - $ "0"))
  end.

Definition ato (max : Z) (line : list Z) : Z :=
  match line with [] => NGX_ERROR | _ => ato_loop (max / 10) (max `mod` 10) line 0 end.

(* core/ngx_string.c:901-926 ngx_atoi *)
Definition ngx_atoi : list Z -> Z := ato NGX_MAX_INT64.
(* core/ngx_string.c:985-1010 ngx_atosz *)
Definition ngx_atosz : list Z -> Z := ato NGX_MAX_INT64.
(* core/ngx_string.c:1013-1038 ngx_atoof *)
Definition ngx_atoof : list Z -> Z := ato NGX_MAX_INT64.
(* core/ngx_string.c:1041-1066 ngx_atotm *)
Definition ngx_atotm : list Z -> Z := ato NGX_MAX_INT64.

(** The digits of a fixed point number; ends with the value and the places
    that are still to be filled. *)
(* core/ngx_string.c:946-972 ngx_atofp: loop *)
Fixpoint atofp_loop (cutoff cutlim : Z) (line : list Z) (value point dot : Z)
  : option (Z * Z) :=
  match line with
  | [] => Some (value, point)
  | c :: line =>
      if point =? 0 then None
      else if c =? $ "." then
        if negb (dot =? 0) then None else atofp_loop cutoff cutlim line value point 1
      else if negb (is_digit c) then None
      else if (cutoff <=? value) && ((cutoff <? value) || (cutlim <? c - $ "0"))
      then None
      else atofp_loop cutoff cutlim line (value * 10 + (c - $ "0")) (point - dot) dot
  end.

(* core/ngx_string.c:974-980 ngx_atofp: while (point--) *)
Fixpoint atofp_scale (cutoff value : Z) (point : nat) : Z :=
  match point with
  | O => value
  | S point => if cutoff <? value then NGX_ERROR else atofp_scale cutoff (value * 10) point
  end.

(* core/ngx_string.c:931-983 ngx_atofp *)
Definition ngx_atofp (line : list Z) (point : Z) : Z :=
  match line with
  | [] => NGX_ERROR
  | _ =>
      let cutoff := NGX_MAX_INT64 / 10 in
      let cutlim := NGX_MAX_INT64 `mod` 10 in
      match atofp_loop cutoff cutlim line 0 point 0 with
      | None => NGX_ERROR
      | Some (value, point) => atofp_scale cutoff value (Z.to_nat point)
      end
  end.

(* core/ngx_string.c:1081-1101 ngx_hextoi: loop *)
Fixpoint hextoi_loop (cutoff : Z) (line : list Z) (value : Z) : Z :=
  match line with
  | [] => value
  | ch :: line =>
      if cutoff <? value then NGX_ERROR
      else if is_digit ch then hextoi_loop cutoff line (value * 16 + (ch - $ "0"))
      else
        let c := Z.lor ch 0x20 in
        if ($ "a" <=? c) && (c <=? $ "f") then
          hextoi_loop cutoff line (value * 16 + (c - $ "a" + 10))
        else NGX_ERROR
  end.

(* core/ngx_string.c:1069-1104 ngx_hextoi *)
Definition ngx_hextoi (line : list Z) : Z :=
  match line with [] => NGX_ERROR | _ => hextoi_loop (NGX_MAX_INT64 / 16) line 0 end.

Example atofp_example : ngx_atofp (bytes "10.5") 2 = 1050.
Proof. reflexivity. Qed.
Example sprintf_num_example :
  ngx_sprintf_num 100 48879 ($ "0") 1 6 = Some (bytes "00beef").
Proof. reflexivity. Qed.

(** ** Positional notation, the specification *)

Definition dec_digit (c : Z) : option Z := if is_digit c then Some (c - $ "0") else None.

Definition hex_digit (c : Z) : option Z :=
  if is_digit c then Some (c - $ "0")
  else let c := Z.lor c 0x20 in
    if ($ "a" <=? c) && (c <=? $ "f") then Some (c - $ "a" + 10) else None.

(** The number that the digits [line] denote after the digits of [v]. *)
Fixpoint pos_value (base : Z) (dig : Z -> option Z) (v : Z) (line : list Z) : option Z :=
  match line with
  | [] => Some v
  | c :: line => d ← dig c; pos_value base dig (v * base + d) line
  end.

(** What a bounded parser of [base] is to return. *)
Definition parse_spec (base max : Z) (dig : Z -> option Z) (line : list Z) : Z :=
  match line, pos_value base dig 0 line with
  | _ :: _, Some v => if v <=? max then v else NGX_ERROR
  | _, _ => NGX_ERROR
  end.

Definition digits_of (base : Z) (dig : Z -> option Z) : Prop :=
  forall c d, dig c = Some d -> 0 <= d < base.

Lemma dec_digit_range : digits_of 10 dec_digit.
Proof. intros c d. unfold dec_digit, is_digit. case_match; intros; simplify_eq. lia. Qed.

Lemma hex_digit_range : digits_of 16 hex_digit.
Proof.
  intros c d. unfold hex_digit, is_digit. repeat case_match; intros; simplify_eq; lia.
Qed.

Lemma pos_value_mono base dig v line w :
  1 <= base -> digits_of base dig -> 0 <= v -> pos_value base dig v line = Some w -> v <= w.
Proof.
  intros Hb Hd. revert v. induction line as [|c line IH]; intros v Hv; simpl.
  - intros; simplify_eq; lia.
  - destruct (dig c) as [d|] eqn:E; simpl; [|done]. apply Hd in E.
    intros H. apply IH in H; nia.
Qed.

Lemma pos_value_app base dig v l1 l2 :
  pos_value base dig v (l1 ++ l2) = w ← pos_value base dig v l1; pos_value base dig w l2.
Proof.
  revert v. induction l1 as [|c l1 IH]; intros v; simpl; [done|].
  destruct (dig c); simpl; auto.
Qed.

Lemma pos_value_zeros base dig n line :
  dig ($ "0") = Some 0 -> pos_value base dig 0 (replicate n ($ "0") ++ line)
    = pos_value base dig 0 line.
Proof. intros H. induction n as [|n IH]; simpl; [done|]. by rewrite H. Qed.

(** [pos_value] can only overshoot [max] from a value above [max]. *)
Lemma pos_value_over base dig max v line :
  1 <= base -> digits_of base dig -> 0 <= v -> max < v ->
  match pos_value base dig v line with Some w => (w <=? max) = false | None => True end.
Proof.
  intros Hb Hd Hv Hm. destruct (pos_value base dig v line) as [w|] eqn:E; [|done].
  apply pos_value_mono in E; auto; lia.
Qed.

Lemma ato_loop_spec max line v :
  0 <= v <= max ->
  ato_loop (max / 10) (max `mod` 10) line v =
  match pos_value 10 dec_digit v line with
  | Some w => if w <=? max then w else NGX_ERROR
  | None => NGX_ERROR
  end.
Proof.
  revert v. induction line as [|c line IH]; intros v Hv; simpl.
  - by rewrite (proj2 (Z.leb_le v max)) by lia.
  - change (dec_digit c) with (if is_digit c then Some (c - $ "0") else None).
    destruct (is_digit c) eqn:Ec; simpl; [|done].
    unfold is_digit in Ec.
    pose proof (Z.div_mod max 10). pose proof (Z.mod_pos_bound max 10).
    case_match eqn:E.
    + pose proof (pos_value_over 10 dec_digit max (v * 10 + (c - 48)) line) as Ho.
      destruct (pos_value _ _ _ _); [|done].
      rewrite Ho; auto using dec_digit_range; lia.
    + apply IH. lia.
Qed.

Lemma ngx_atoi_value line :
  ngx_atoi line = parse_spec 10 NGX_MAX_INT64 dec_digit line.
Proof.
  unfold ngx_atoi, ato, parse_spec. destruct line as [|c line]; [done|].
  apply ato_loop_spec. unfold NGX_MAX_INT64. lia.
Qed.

(** [ngx_atoi] returns the decimal value of its argument when the argument is
    a non-empty string of digits and the value fits, and [NGX_ERROR] otherwise. *)
Theorem ngx_atoi_correct line :
  ngx_atoi line = parse_spec 10 NGX_MAX_INT64 dec_digit line.
Proof. apply ngx_atoi_value. Qed.

Lemma hextoi_cons cutoff c line v :
  (if is_digit c then hextoi_loop cutoff line (v * 16 + (c - $ "0"))
   else
     let l := Z.lor c 0x20 in
     if ($ "a" <=? l) && (l <=? $ "f") then
       hextoi_loop cutoff line (v * 16 + (l - $ "a" + 10))
     else NGX_ERROR) =
  match hex_digit c with
  | Some d => hextoi_loop cutoff line (v * 16 + d)
  | None => NGX_ERROR
  end.
Proof. unfold hex_digit. by repeat case_match; simplify_eq/=. Qed.

Lemma hextoi_loop_spec line v :
  0 <= v <= NGX_MAX_INT64 ->
  hextoi_loop (NGX_MAX_INT64 / 16) line v =
  match pos_value 16 hex_digit v line with
  | Some w => if w <=? NGX_MAX_INT64 then w else NGX_ERROR
  | None => NGX_ERROR
  end.
Proof.
  revert v. induction line as [|c line IH]; intros v Hv; cbn [hextoi_loop pos_value].
  - by rewrite (proj2 (Z.leb_le v NGX_MAX_INT64)) by lia.
  - pose proof (hex_digit_range c) as Hr.
    destruct (Z.ltb_spec (NGX_MAX_INT64 / 16) v) as [Hlt|Hle].
    + destruct (hex_digit c) as [d|] eqn:E; simpl; [|done].
      specialize (Hr d eq_refl). change (NGX_MAX_INT64 / 16) with 576460752303423487 in *.
      pose proof (pos_value_over 16 hex_digit NGX_MAX_INT64 (v * 16 + d) line) as Ho.
      destruct (pos_value _ _ _ _); [|done].
      rewrite Ho; auto using hex_digit_range; unfold NGX_MAX_INT64; lia.
    + change (NGX_MAX_INT64 / 16) with 576460752303423487 in Hle.
      rewrite hextoi_cons. destruct (hex_digit c) as [d|]; simpl; [|done].
      specialize (Hr d eq_refl). apply IH. unfold NGX_MAX_INT64. lia.
Qed.

Lemma ngx_hextoi_value line :
  ngx_hextoi line = parse_spec 16 NGX_MAX_INT64 hex_digit line.
Proof.
  unfold ngx_hextoi, parse_spec. destruct line as [|c line]; [done|].
  apply hextoi_loop_spec. unfold NGX_MAX_INT64. lia.
Qed.

(** [ngx_hextoi] returns the value of a hexadecimal string, in either case,
    when it fits, and [NGX_ERROR] otherwise. *)
Theorem ngx_hextoi_correct line :
  ngx_hextoi line = parse_spec 16 NGX_MAX_INT64 hex_digit line.
Proof. apply ngx_hextoi_value. Qed.

(** ** The printed digits denote the number *)

Lemma num_loop_spec base dig digit quot (fuel : nat) n acc :
  2 <= base -> (forall n, 0 <= n -> quot n = n / base) ->
  (forall n, 0 <= n -> dig (digit n) = Some (n `mod` base)) ->
  0 <= n < base ^ Z.of_nat fuel -> (0 < fuel)%nat ->
  exists l, num_loop fuel digit quot n acc = Some (l ++ acc) /\ l <> [] /\
    (length l <= fuel)%nat /\ pos_value base dig 0 l = Some n.
Proof.
  intros Hb Hq Hd. revert n acc. induction fuel as [|fuel IH]; intros n acc Hn Hf; [lia|].
  simpl num_loop. rewrite Hq by lia.
  pose proof (Z.div_mod n base) as Hdm. pose proof (Z.mod_pos_bound n base) as Hmb.
  destruct (Z.eqb_spec (n / base) 0) as [E|E].
  - exists [digit n]. split_and!; simpl; [done|done|lia|]. rewrite Hd by lia. simpl.
    f_equal. rewrite Z.mod_small; [done|]. apply Z.div_small_iff in E; lia.
  - assert (0 <= n / base) by (apply Z.div_pos; lia).
    assert (n / base < base ^ Z.of_nat fuel).
    { apply Z.div_lt_upper_bound; [lia|].
      rewrite Nat2Z.inj_succ, Z.pow_succ_r in Hn by lia. lia. }
    destruct fuel as [|fuel]; [change (base ^ Z.of_nat 0) with 1 in *; lia|].
    destruct (IH (n / base) (digit n :: acc)) as (l & -> & Hl & Hlen & Hv); [lia|lia|].
    exists (l ++ [digit n]). rewrite <- app_assoc, length_app, pos_value_app, Hv. simpl.
    rewrite Hd by lia. simpl. split_and!; [done|by destruct l|lia|f_equal; lia].
Qed.

(** The parser that reads what [ngx_sprintf_num] prints in each mode. *)
Definition num_base (hexadecimal : Z) : Z := if hexadecimal =? 0 then 10 else 16.
Definition num_dig (hexadecimal : Z) : Z -> option Z :=
  if hexadecimal =? 0 then dec_digit else hex_digit.

Lemma hex_digit_table (t : list Z) n :
  t = hex \/ t = HEX -> 0 <= n ->
  hex_digit (nth (Z.to_nat (Z.land n 0xf)) t 0) = Some (n `mod` 16).
Proof.
  intros Ht Hn. change 0xf with (2 ^ 4 - 1). rewrite land_ones_mod by lia.
  change (2 ^ 4) with 16. pose proof (Z.mod_pos_bound n 16 ltac:(lia)).
  assert (forallb (fun k => bool_decide (hex_digit (nth k t 0) = Some (Z.of_nat k))) (seq 0 16)
    = true) as Hall by (destruct Ht as [-> | ->]; vm_compute; reflexivity).
  rewrite forallb_forall in Hall. specialize (Hall (Z.to_nat (n `mod` 16))).
  rewrite bool_decide_eq_true in Hall. rewrite Hall by (apply in_seq; lia).
  f_equal. lia.
Qed.

Lemma num_digits_spec ui64 h :
  0 <= ui64 < 2 ^ 64 ->
  exists l, num_digits ui64 h = Some l /\ l <> [] /\ (length l <= NGX_INT64_LEN)%nat /\
    pos_value (num_base h) (num_dig h) 0 l = Some ui64.
Proof.
  intros Hu. unfold num_digits, num_base, num_dig.
  assert (Hdec : forall n, 0 <= n -> dec_digit (u8 (n `mod` 10 + 48)) = Some (n `mod` 10)).
  { intros n Hn. pose proof (Z.mod_pos_bound n 10). unfold u8, dec_digit, is_digit.
    rewrite Z.mod_small by lia. rewrite (proj2 (andb_true_iff _ _)) by lia. f_equal; lia. }
  assert (Hs : forall n, 0 <= n -> Z.shiftr n 4 = n / 16).
  { intros. by rewrite Z.shiftr_div_pow2. }
  destruct (h =? 0).
  - replace (if ui64 <=? NGX_MAX_UINT32_VALUE then u32 ui64 else ui64) with ui64.
    2: { case_match; [|done]. unfold u32, NGX_MAX_UINT32_VALUE in *.
         rewrite Z.mod_small; lia. }
    destruct (num_loop_spec 10 dec_digit (fun n => u8 (n `mod` 10 + 48)) (fun n => n / 10)
      NGX_INT64_LEN ui64 []) as (l & -> & H); auto; [lia|unfold NGX_INT64_LEN; lia|unfold NGX_INT64_LEN; lia|].
    exists l. by rewrite app_nil_r.
  - destruct (h =? 1).
    all: edestruct (num_loop_spec 16 hex_digit) with (fuel := NGX_INT64_LEN) (n := ui64)
      (quot := fun n => Z.shiftr n 4) as (l & -> & H);
      [lia|exact Hs|intros; apply hex_digit_table; [auto|done]|unfold NGX_INT64_LEN; lia
      |unfold NGX_INT64_LEN; lia|].
    all: exists l; rewrite app_nil_r; exact (conj eq_refl H).
Qed.

(** What [ngx_sprintf_num] prints, with "0" padding to any width that fits,
    is read back by [ngx_atoi] (decimal) or [ngx_hextoi] (either hexadecimal
    mode). The digit loop never runs out of its 20 byte buffer. *)
Theorem sprintf_num_roundtrip room n h width :
  0 <= n <= NGX_MAX_INT64 -> Z.of_nat NGX_INT64_LEN <= room -> width <= room ->
  exists l, ngx_sprintf_num room n ($ "0") h width = Some l /\
    Z.of_nat (length l) <= room /\ (if h =? 0 then ngx_atoi l else ngx_hextoi l) = n.
Proof.
  intros Hn Hr Hw. destruct (num_digits_spec n h) as (l & Hl & Hne & Hlen & Hv);
    [unfold NGX_MAX_INT64 in *; lia|].
  unfold ngx_sprintf_num. rewrite Hl. simpl.
  rewrite length_replicate, take_ge by (case_match; lia).
  eexists. split; [done|]. rewrite length_app, length_replicate. split; [lia|].
  set (k := Z.to_nat (Z.min (width - Z.of_nat (length l)) room)).
  assert (Hspec : forall max base dig, dig ($ "0") = Some 0 -> n <= max ->
    pos_value base dig 0 l = Some n -> parse_spec base max dig (replicate k ($ "0") ++ l) = n).
  { intros max base dig H0 Hm Hp. unfold parse_spec.
    destruct (replicate k ($ "0") ++ l) eqn:E; [by destruct k, l|].
    rewrite <- E, pos_value_zeros, Hp by done.
    by rewrite (proj2 (Z.leb_le n max)) by done. }
  unfold num_base, num_dig in Hv. destruct (h =? 0).
  - rewrite ngx_atoi_value. apply Hspec; [done|lia|done].
  - rewrite ngx_hextoi_value. apply Hspec; [done|lia|done].
Qed.

Lemma sprintf_num_roundtrip_witness :
  exists l, ngx_sprintf_num 64 255 ($ "0") 1 4 = Some l /\ Z.of_nat (length l) <= 64 /\
    (if 1 =? 0 then ngx_atoi l else ngx_hextoi l) = 255.
Proof. apply sprintf_num_roundtrip; unfold NGX_MAX_INT64, NGX_INT64_LEN; lia. Defined.
