(* ===== verification/NgxSprintf.v ===== *)
(** * NgxSprintf: the format interpreter

    [ngx_vslprintf] of src/core/ngx_string.c and its wrappers [ngx_sprintf],
    [ngx_snprintf], [ngx_slprintf].  A format is the list of its bytes; the
    result is the list of the bytes written, [None] for a format or arguments
    outside the contract of the function (a format that ends within a
    directive, a missing or mistyped argument). *)

From S2P Require Import Prelude NgxNumber.

(** ** Arguments *)

(** An integer of any width, a string ([%V], [%v]: its bytes; [%s]: the bytes in
    memory, up to its NUL), a double.  Floating point arithmetic is that of the
    hardware: [Adouble neg whole frac] is the sign of the double, the integral
    part of its absolute value, and, for a scale, its fraction rounded to that
    scale. *)
Inductive arg : Type :=
  | Aint (z : Z)
  | Astr (data : list Z)
  | Adouble (neg : bool) (whole : Z) (frac : Z -> Z).

Definition s32 (z : Z) : Z := (z + 2 ^ 31) `mod` 2 ^ 32 - 2 ^ 31.
Definition s64 (z : Z) : Z := (z + 2 ^ 63) `mod` 2 ^ 64 - 2 ^ 63.

Lemma s64_u64 x : - 2 ^ 63 <= x < 2 ^ 63 -> s64 (u64 x) = x.
Proof.
  intros Hx. unfold s64, u64. rewrite Zplus_mod_idemp_l.
  change (2 ^ 64) with (2 * 2 ^ 63). rewrite Z.mod_small by lia. lia.
Qed.

Definition NGX_INT_T_LEN : Z := 20.
Definition NGX_ATOMIC_T_LEN : Z := 20.
Definition SIZE_MAX : Z := 2 ^ 64 - 1.
Definition sizeof_void_p : Z := 8.

(** ** One directive *)

(** The locals that a directive sets. *)
(* core/ngx_string.c:148-158 ngx_vslprintf: the locals of a directive *)
Record conv : Type := Conv {
  zero : Z;
  width : Z;
  sign : bool;
  hexa : Z;
  max_width : bool;
  frac_width : Z;
  slen : Z
}.

Definition eta_conv (x : conv) : conv :=
  Conv (zero x) (width x) (sign x) (hexa x) (max_width x) (frac_width x) (slen x).
Definition set_zero := ltac:(setter eta_conv zero).
Definition set_width := ltac:(setter eta_conv width).
Definition set_sign := ltac:(setter eta_conv sign).
Definition set_hexa := ltac:(setter eta_conv hexa).
Definition set_max_width := ltac:(setter eta_conv max_width).
Definition set_frac_width := ltac:(setter eta_conv frac_width).
Definition set_slen := ltac:(setter eta_conv slen).

(** [while ( *fmt >= '0' && *fmt <= '9')]: the number and the rest. *)
(* core/ngx_string.c:180-182 ngx_vslprintf: width *)
Fixpoint fmt_number (n : Z) (fmt : list Z) : Z * list Z :=
  match fmt with
  | c :: fmt' =>
      if is_digit c then fmt_number (u64 (n * 10 + c - $ "0")) fmt' else (n, fmt)
  | [] => (n, [])
  end.

(* core/ngx_string.c:185-229 ngx_vslprintf: for ( ;; ) *)
Fixpoint fmt_flags (fmt : list Z) (c : conv) (args : list arg)
  : option (conv * list Z * list arg) :=
  match fmt with
  | [] => Some (c, [], args)
  | ch :: fmt' =>
      if ch =? $ "u" then fmt_flags fmt' (set_sign false c) args
      else if ch =? $ "m" then fmt_flags fmt' (set_max_width true c) args
      else if ch =? $ "X" then fmt_flags fmt' (set_sign false (set_hexa 2 c)) args
      else if ch =? $ "x" then fmt_flags fmt' (set_sign false (set_hexa 1 c)) args
      else if ch =? $ "." then
        let '(n, fmt') := fmt_number (frac_width c) fmt' in
        Some (set_frac_width n c, fmt', args)
      else if ch =? $ "*" then
        match args with
        | Aint z :: args => fmt_flags fmt' (set_slen (u64 z) c) args
        | _ => None
        end
      else Some (c, fmt, args)
  end.

(** What is written depends on [last - buf], the room left. *)
Definition writer : Type := Z -> option (list Z).

(** One after the other: the second starts at the new [buf]. *)
Definition then_ (f g : writer) : writer :=
  fun room =>
    o1 ← f room;
    o2 ← g (room - Z.of_nat (length o1));
    Some (o1 ++ o2).

(** [*buf++ = c], without a look at [last]. *)
Definition put (c : Z) : writer := fun _ => Some [c].

(** [if (buf < last) *buf++ = c]. *)
Definition put_safe (c : Z) : writer := fun room => Some (if 0 <? room then [c] else []).

(** [len = ngx_min(((size_t) (last - buf)), n); ngx_cpymem(buf, data, len)]:
    [n] bytes are readable at [data]. *)
Definition copy (n : Z) (data : list Z) : writer :=
  fun room => if Z.of_nat (length data) <? n then None
              else Some (take (Z.to_nat (Z.min room n)) data).

(** [while ( *p && buf < last) *buf++ = *p++]. *)
(* core/ngx_string.c:256-258 ngx_vslprintf: case 's' *)
Fixpoint cstr_bytes (p : list Z) (room : Z) : list Z :=
  match p with
  | [] => []
  | c :: p => if (c =? 0) || negb (0 <? room) then [] else c :: cstr_bytes p (room - 1)
  end.
Definition copy_cstr (p : list Z) : writer := fun room => Some (cstr_bytes p room).

Definition num (ui64 zero hexadecimal width : Z) : writer :=
  fun room => ngx_sprintf_num room ui64 zero hexadecimal width.

(** The conversions that end in [ngx_sprintf_num]. *)
Definition is_integer (ch : Z) : bool := existsb (Z.eqb ch) (bytes "OPTMzidlDLArp").

(** The locals, [i64] and [ui64] for the argument [z]. *)
(* core/ngx_string.c:269-414 ngx_vslprintf: the integer cases *)
Definition fmt_integer (ch : Z) (c : conv) (z : Z) : conv * Z * Z :=
  let sized (signed unsigned : Z) (c : conv) :=
    if sign c then (c, signed, 0) else (c, 0, unsigned) in
  if (ch =? $ "O") || (ch =? $ "T") || (ch =? $ "r") then (set_sign true c, s64 z, 0)
  else if ch =? $ "P" then (set_sign true c, s32 z, 0)
  else if ch =? $ "M" then
    if s64 z =? -1 then (set_sign true c, -1, 0) else (set_sign false c, 0, u64 z)
  else if (ch =? $ "z") || (ch =? $ "l") || (ch =? $ "L") then sized (s64 z) (u64 z) c
  else if ch =? $ "i" then
    sized (s64 z) (u64 z) (if max_width c then set_width NGX_INT_T_LEN c else c)
  else if ch =? $ "A" then
    sized (s64 z) (u64 z) (if max_width c then set_width NGX_ATOMIC_T_LEN c else c)
  else if (ch =? $ "d") || (ch =? $ "D") then sized (s32 z) (u32 z) c
  else (* case 'p' *)
    (set_hexa 2 (set_sign false (set_zero ($ "0") (set_width (2 * sizeof_void_p) c))), 0, u64 z).

(* core/ngx_string.c:454-464 ngx_vslprintf: after the switch *)
Definition fmt_finish (c : conv) (i64 ui64 : Z) : writer :=
  if sign c then
    if i64 <? 0 then then_ (put ($ "-")) (num (u64 (- i64)) (zero c) (hexa c) (width c))
    else num i64 (zero c) (hexa c) (width c)
  else num ui64 (zero c) (hexa c) (width c).

(* core/ngx_string.c:361-399 ngx_vslprintf: case 'f' *)
Definition fmt_double (c : conv) (neg : bool) (whole : Z) (frac : Z -> Z) : writer :=
  let ui64 := u64 whole in
  let '(ui64, fr) :=
    if frac_width c =? 0 then (ui64, 0)
    else
      let scale := u64 (10 ^ frac_width c) in
      let fr := u64 (frac scale) in
      if fr =? scale then (u64 (ui64 + 1), 0) else (ui64, fr) in
  let body :=
    then_ (num ui64 (zero c) 0 (width c))
      (if frac_width c =? 0 then fun _ => Some []
       else then_ (put_safe ($ ".")) (num fr ($ "0") 0 (frac_width c))) in
  if neg then then_ (put ($ "-")) body else body.

(** The directive after a percent sign: what it writes, the format and the
    arguments after it. *)
(* core/ngx_string.c:167-466 ngx_vslprintf: if ( *fmt == '%') *)
Definition fmt_directive (fmt : list Z) (args : list arg)
  : option (writer * list Z * list arg) :=
  let zero := match fmt with ch :: _ => if ch =? $ "0" then $ "0" else $ " " | [] => $ " " end in
  let '(width, fmt) := fmt_number 0 fmt in
  '(c, fmt, args) ← fmt_flags fmt (Conv zero width true 0 false 0 SIZE_MAX) args;
  match fmt with
  | [] => None
  | ch :: fmt =>
      if (ch =? $ "V") || (ch =? $ "v") then
        match args with
        | Astr data :: args => Some (copy (Z.of_nat (length data)) data, fmt, args)
        | _ => None
        end
      else if ch =? $ "s" then
        match args with
        | Astr p :: args =>
            Some (if slen c =? SIZE_MAX then copy_cstr p else copy (slen c) p, fmt, args)
        | _ => None
        end
      else if ch =? $ "f" then
        match args with
        | Adouble neg whole frac :: args => Some (fmt_double c neg whole frac, fmt, args)
        | _ => None
        end
      else if ch =? $ "c" then
        match args with
        | Aint d :: args => Some (put (Z.land d 0xff), fmt, args)
        | _ => None
        end
      else if ch =? $ "Z" then Some (put 0, fmt, args)
      else if ch =? $ "N" then Some (put LF, fmt, args)
      else if ch =? $ "%" then Some (put ($ "%"), fmt, args)
      else if is_integer ch then
        match args with
        | Aint z :: args =>
            let '(c, i64, ui64) := fmt_integer ch c z in
            Some (fmt_finish c i64 ui64, fmt, args)
        | _ => None
        end
      else Some (put ch, fmt, args)
  end.

(** ** The interpreter *)

(** [while ( *fmt && buf < last)]; [skip] bytes of the format belong to a
    directive that has been executed. *)
(* core/ngx_string.c:160-473 ngx_vslprintf: while *)
Fixpoint vslprintf_loop (skip : nat) (fmt : list Z) (args : list arg) (room : Z)
  : option (list Z) :=
  match fmt with
  | [] => Some []
  | ch :: fmt' =>
      match skip with
      | S skip => vslprintf_loop skip fmt' args room
      | O =>
          if negb (0 <? room) then Some []
          else if ch =? $ "%" then
            '(w, rest, args) ← fmt_directive fmt' args;
            then_ w (vslprintf_loop (length fmt' - length rest) fmt' args) room
          else then_ (put ch) (vslprintf_loop 0 fmt' args) room
      end
  end.

(** The bytes written between [buf] and [last]. *)
(* core/ngx_string.c:146-474 ngx_vslprintf *)
Definition ngx_vslprintf (buf last : Z) (fmt : list Z) (args : list arg) : option (list Z) :=
  vslprintf_loop 0 fmt args (last - buf).

(* core/ngx_string.c:104-115 ngx_sprintf *)
Definition ngx_sprintf (buf : Z) (fmt : list Z) (args : list arg) : option (list Z) :=
  ngx_vslprintf buf (2 ^ 64 - 1) fmt args.

(* core/ngx_string.c:118-129 ngx_snprintf *)
Definition ngx_snprintf (buf max : Z) (fmt : list Z) (args : list arg) : option (list Z) :=
  ngx_vslprintf buf (buf + max) fmt args.

(* core/ngx_string.c:132-143 ngx_slprintf *)
Definition ngx_slprintf (buf last : Z) (fmt : list Z) (args : list arg) : option (list Z) :=
  ngx_vslprintf buf last fmt args.

Example sprintf_example :
  ngx_sprintf 4096 (bytes "%s|%03d|%5uz|%xO|%*s|%V|%i|%.3f|%p%%")
    [Astr (bytes "abc"); Aint 7; Aint 42; Aint 48879; Aint 2; Astr (bytes "xyz");
     Astr (bytes "v"); Aint (-5); Adouble true 3 (fun s => s / 4); Aint 65535]
  = Some (bytes "abc|007|   42|beef|xy|v|-5|-3.250|000000000000FFFF%").
Proof. vm_compute. reflexivity. Qed.

(** ** Truncation *)

(** With less room a writer writes a prefix of what it writes with more, and
    never more than the room; [lo] is the room it takes for granted. *)
Definition truncates (lo : Z) (w : writer) : Prop :=
  forall room room' o, lo <= room <= room' -> w room' = Some o ->
  Z.of_nat (length o) <= room' /\ w room = Some (take (Z.to_nat room) o).

Lemma truncates_le lo lo' w : lo <= lo' -> truncates lo w -> truncates lo' w.
Proof. intros Hl Hw room room' o Hr. apply Hw. lia. Qed.

Lemma truncates_nil : truncates 0 (fun _ => Some []).
Proof. intros room room' o Hr Ho. simplify_eq. split; [simpl; lia|by rewrite take_nil]. Qed.

Lemma truncates_put c : truncates 1 (put c).
Proof.
  intros room room' o Hr Ho. unfold put in *. simplify_eq. split; [simpl; lia|].
  by rewrite take_ge by (simpl; lia).
Qed.

Lemma truncates_put_safe c : truncates 0 (put_safe c).
Proof.
  intros room room' o Hr Ho. unfold put_safe in *. simplify_eq.
  destruct (Z.ltb_spec 0 room'); destruct (Z.ltb_spec 0 room); simpl; try lia.
  - split; [lia|]. by rewrite take_ge by (simpl; lia).
  - split; [lia|]. by replace (Z.to_nat room) with O by lia.
  - split; [lia|]. by rewrite take_nil.
Qed.

Lemma truncates_then lo f g : 0 <= lo -> truncates lo f -> truncates 0 g -> truncates lo (then_ f g).
Proof.
  intros Hlo Hf Hg room room' o Hr Ho. unfold then_ in *.
  destruct (f room') as [o1|] eqn:E1; simpl in Ho; [|done].
  destruct (g (room' - Z.of_nat (length o1))) as [o2|] eqn:E2; simpl in Ho; [|done]. simplify_eq.
  destruct (Hf room' room' o1 ltac:(lia) E1) as [Hl1 _].
  destruct (Hf room room' o1 Hr E1) as [_ ->]. simpl. rewrite length_take.
  destruct (Hg (room - Z.of_nat (Z.to_nat room `min` length o1)) (room' - Z.of_nat (length o1)) o2 ltac:(lia) E2) as [Hl2 ->].
  simpl. rewrite length_app. split; [lia|]. rewrite take_app. do 2 f_equal.
  f_equal. lia.
Qed.

Lemma take_min_ge {A} (n m : nat) (l : list A) : (m <= n)%nat -> take n (take m l) = take m l.
Proof. intros H. rewrite take_take. f_equal. lia. Qed.

Lemma truncates_copy n data : 0 <= n -> truncates 0 (copy n data).
Proof.
  intros Hn room room' o Hr Ho. unfold copy in *. case_match; [done|]. simplify_eq.
  rewrite length_take, take_take. split; [lia|]. do 2 f_equal. lia.
Qed.

Lemma truncates_copy_cstr p : truncates 0 (copy_cstr p).
Proof.
  intros room room' o Hr Ho. unfold copy_cstr in *. simplify_eq.
  revert room room' Hr. induction p as [|c p IH]; intros room room' Hr; simpl;
    [split; [lia|by rewrite take_nil]|].
  destruct (c =? 0); simpl; [split; [lia|by rewrite take_nil]|].
  destruct (Z.ltb_spec 0 room'), (Z.ltb_spec 0 room); simpl; try lia.
  - destruct (IH (room - 1) (room' - 1) ltac:(lia)) as [H1 H2]. simplify_eq.
    split; [cbn [length]; lia|]. rewrite H2. replace (Z.to_nat room) with (S (Z.to_nat (room - 1))) by lia.
    simpl. done.
  - destruct (IH 0 (room' - 1) ltac:(lia)) as [H1 _]. split; [cbn [length]; lia|].
    by replace (Z.to_nat room) with O by lia.
  - split; [lia|]. by rewrite take_nil.
Qed.

Lemma truncates_num ui64 zero hexadecimal width : truncates 0 (num ui64 zero hexadecimal width).
Proof.
  intros room room' o Hr Ho. unfold num, ngx_sprintf_num in *.
  destruct (num_digits ui64 hexadecimal) as [d|]; simpl in *; [|done]. simplify_eq.
  rewrite !length_app, !length_replicate, !length_take.
  set (pad r := Z.to_nat (Z.min (width - Z.of_nat (length d)) r)).
  assert (Hp : forall r, 0 <= r -> Z.of_nat (pad r) <= r) by (intros; unfold pad; lia).
  pose proof (Hp room). pose proof (Hp room').
  assert (pad room = min (Z.to_nat room) (pad room')) by (unfold pad; lia).
  fold (pad room) (pad room'). clearbody pad.
  split; [case_match; lia|]. f_equal.
  rewrite take_app, length_replicate, take_replicate, take_take.
  f_equal; [f_equal; lia|]. f_equal. repeat case_match; lia.
Qed.

Create HintDb sprintf.
#[export] Hint Resolve truncates_nil truncates_put truncates_put_safe truncates_copy_cstr
  truncates_num : sprintf.

Lemma truncates_finish c i64 ui64 : truncates 1 (fmt_finish c i64 ui64).
Proof.
  unfold fmt_finish. repeat case_match;
    solve [apply truncates_then; [lia|auto with sprintf..] |
           apply (truncates_le 0); [lia|auto with sprintf]].
Qed.

Lemma truncates_double c neg whole frac : truncates 1 (fmt_double c neg whole frac).
Proof.
  unfold fmt_double. destruct (if frac_width c =? 0 then _ else _) as [ui64 fr].
  assert (truncates 0 (then_ (num ui64 (zero c) 0 (width c))
      (if frac_width c =? 0 then fun _ => Some []
       else then_ (put_safe ($ ".")) (num fr ($ "0") 0 (frac_width c))))) as H.
  { apply truncates_then; [lia|auto with sprintf|]. case_match; [auto with sprintf|].
    apply truncates_then; auto with sprintf; lia. }
  destruct neg; [apply truncates_then; auto with sprintf; lia|].
  by apply (truncates_le 0); [lia|].
Qed.

Definition slen_ok (c : conv) : Prop := 0 <= slen c.

Lemma fmt_flags_slen fmt c args c' rest args' :
  fmt_flags fmt c args = Some (c', rest, args') -> slen_ok c -> slen_ok c'.
Proof.
  revert c args. induction fmt as [|ch fmt IH]; intros c args; simpl; [by intros; simplify_eq|].
  repeat case_match; intros Hf Hs; simplify_eq; eauto;
    eapply IH in Hf; eauto; unfold slen_ok, u64 in *; simpl; auto with lia.
  apply Z.mod_pos_bound. lia.
Qed.

Lemma truncates_directive fmt args w rest args' :
  fmt_directive fmt args = Some (w, rest, args') -> truncates 1 w.
Proof.
  unfold fmt_directive. destruct (fmt_number 0 fmt) as [width fmt1].
  destruct (fmt_flags _ _ _) as [[[c fmt2] args2]|] eqn:E; simpl; [|done].
  apply fmt_flags_slen in E; [|unfold slen_ok, SIZE_MAX; simpl; lia].
  repeat case_match; intros; simplify_eq; auto using truncates_finish, truncates_double with sprintf;
    apply (truncates_le 0); auto using truncates_copy with sprintf lia.
Qed.

Lemma loop_no_room skip fmt args : vslprintf_loop skip fmt args 0 = Some [].
Proof. revert skip. induction fmt as [|c fmt IH]; intros [|skip]; simpl; auto. Qed.

(** With room for at least one byte a single step truncates; without, nothing
    is written. *)
Lemma truncates_step w (g : writer) :
  truncates 1 w -> truncates 0 g ->
  truncates 0 (fun room => if negb (0 <? room) then Some [] else then_ w g room).
Proof.
  intros Hw Hg room room' o Hr Ho.
  destruct (Z.ltb_spec 0 room'); simpl in Ho.
  - destruct (truncates_then 1 w g ltac:(lia) Hw Hg 1 room' o ltac:(lia) Ho) as [Hl _].
    split; [done|]. destruct (Z.ltb_spec 0 room); simpl.
    + apply (truncates_then 1 w g ltac:(lia) Hw Hg room room' o); [lia|done].
    + by replace (Z.to_nat room) with O by lia.
  - simplify_eq. split; [simpl; lia|]. rewrite take_nil.
    destruct (Z.ltb_spec 0 room); [lia|done].
Qed.

Lemma truncates_loop skip fmt args : truncates 0 (vslprintf_loop skip fmt args).
Proof.
  revert skip args. induction fmt as [|ch fmt IH]; intros skip args; cbn [vslprintf_loop];
    [apply truncates_nil|]. destruct skip as [|skip]; [|apply IH].
  destruct (ch =? 37).
  - destruct (fmt_directive fmt args) as [[[w rest] args']|] eqn:E; simpl.
    + apply truncates_step; [by eapply truncates_directive|apply IH].
    + intros room room' o Hr. destruct (Z.ltb_spec 0 room'); simpl; [done|].
      intros; simplify_eq. destruct (Z.ltb_spec 0 room); [lia|]. simpl.
      split; [lia|by rewrite take_nil].
  - apply truncates_step; [apply truncates_put|apply IH].
Qed.

(** C40. [ngx_vslprintf] never writes past [last], and with a smaller buffer it
    writes the prefix that fits of what it writes into a larger one. *)
Theorem vslprintf_truncates buf last last' fmt args o :
  buf <= last <= last' -> ngx_vslprintf buf last' fmt args = Some o ->
  ngx_vslprintf buf last fmt args = Some (take (Z.to_nat (last - buf)) o) /\
  buf + Z.of_nat (length o) <= last'.
Proof.
  intros Hb Ho. unfold ngx_vslprintf in *.
  destruct (truncates_loop 0 fmt args (last - buf) (last' - buf) o ltac:(lia) Ho) as [Hl ->].
  split; [done|lia].
Qed.

Lemma vslprintf_truncates_witness :
  ngx_vslprintf 100 103 (bytes "%i%%") [Aint 1234] = Some (take 3 (bytes "1234%")) /\
  100 + Z.of_nat (length (bytes "1234%")) <= 120.
Proof. apply (vslprintf_truncates 100 103 120); [lia|vm_compute; reflexivity]. Defined.
