(* ===== verification/NgxTimes.v ===== *)
(** * NgxTimes: calendar time and HTTP dates

    [ngx_gmtime], [ngx_http_time] and [ngx_http_cookie_time] of
    src/core/ngx_times.c; [ngx_gmtime] is compared with the calendar, the days
    in order from 1 January 1970. *)

From S2P Require Import Prelude NgxNumber NgxSprintf.

(** ** From seconds to a date *)

(* os/unix/ngx_time.h:19-36 ngx_tm_t *)
Record ngx_tm : Type := Tm {
  tm_sec : Z;
  tm_min : Z;
  tm_hour : Z;
  tm_mday : Z;
  tm_mon : Z;
  tm_year : Z;
  tm_wday : Z
}.

Definition is_true (b : bool) : Z := if b then 1 else 0.

(** [(year % 4 == 0) && (year % 100 || (year % 400 == 0))]. *)
Definition leap (year : Z) : bool :=
  (year `mod` 4 =? 0) && (negb (year `mod` 100 =? 0) || (year `mod` 400 =? 0)).

(** The year and the day of it, counted from 1 March, of the day [days] after
    1 March, 1 BC. *)
(* core/ngx_times.c:336-344 ngx_gmtime: year, yday *)
Definition gmtime_year (days : Z) : Z * Z :=
  let year := u64 (u64 (days + 2) * 400) / (365 * 400 + 100 - 4 + 1) in
  let yday := s64 (days - u64 (365 * year + year / 4 - year / 100 + year / 400)) in
  if yday <? 0 then (u64 (year - 1), s64 (365 + is_true (leap year) + yday))
  else (year, yday).

(** Year, month (from 1) and day of the month. *)
(* core/ngx_times.c:354-380 ngx_gmtime: mon, mday *)
Definition gmtime_month (year yday : Z) : Z * Z * Z :=
  let mon := u64 (Z.quot ((yday + 31) * 10) 306) in
  let mday := u64 (yday - (u64 (367 * mon) / 12 - 30) + 1) in
  if 306 <=? yday then (u64 (year + 1), u64 (mon - 10), mday)
  else (year, u64 (mon + 2), mday).

(* core/ngx_times.c:299-389 ngx_gmtime *)
Definition ngx_gmtime (t : Z) : ngx_tm :=
  let n := u64 t in
  let days := n / 86400 in
  let wday := (4 + days) `mod` 7 in
  let n := n `mod` 86400 in
  let hour := n / 3600 in
  let n := n `mod` 3600 in
  let min := n / 60 in
  let sec := n `mod` 60 in
  let '(year, yday) := gmtime_year (u64 (days - (31 + 28) + 719527)) in
  let '(year, mon, mday) := gmtime_month year yday in
  Tm (s32 sec) (s32 min) (s32 hour) (s32 mday) (s32 mon) (s32 year) (s32 wday).

(** ** Printing *)

(* core/ngx_times.c:58-58 week *)
Definition week : list (list Z) :=
  bytes <$> ["Sun"; "Mon"; "Tue"; "Wed"; "Thu"; "Fri"; "Sat"]%string.
(* core/ngx_times.c:59-60 months *)
Definition months : list (list Z) :=
  bytes <$> ["Jan"; "Feb"; "Mar"; "Apr"; "May"; "Jun"; "Jul"; "Aug"; "Sep"; "Oct"; "Nov"; "Dec"]%string.

Definition str_at (t : list (list Z)) (i : Z) : arg := Astr (nth (Z.to_nat i) t []).

(** The bytes written at [buf]. *)
(* core/ngx_times.c:254-269 ngx_http_time *)
Definition ngx_http_time (buf t : Z) : option (list Z) :=
  let tm := ngx_gmtime t in
  ngx_sprintf buf (bytes "%s, %02d %s %4d %02d:%02d:%02d GMT")
    [str_at week (tm_wday tm); Aint (tm_mday tm); str_at months (tm_mon tm - 1);
     Aint (tm_year tm); Aint (tm_hour tm); Aint (tm_min tm); Aint (tm_sec tm)].

(* core/ngx_times.c:272-296 ngx_http_cookie_time *)
Definition ngx_http_cookie_time (buf t : Z) : option (list Z) :=
  let tm := ngx_gmtime t in
  ngx_sprintf buf
    (if 2037 <? tm_year tm then bytes "%s, %02d-%s-%d %02d:%02d:%02d GMT"
     else bytes "%s, %02d-%s-%02d %02d:%02d:%02d GMT")
    [str_at week (tm_wday tm); Aint (tm_mday tm); str_at months (tm_mon tm - 1);
     Aint (if 2037 <? tm_year tm then tm_year tm else Z.rem (tm_year tm) 100);
     Aint (tm_hour tm); Aint (tm_min tm); Aint (tm_sec tm)].

Example http_time_example :
  ngx_http_time 4096 784111777 = Some (bytes "Sun, 06 Nov 1994 08:49:37 GMT") /\
  ngx_http_cookie_time 4096 784111777 = Some (bytes "Sun, 06-Nov-94 08:49:37 GMT").
Proof. split; vm_compute; reflexivity. Qed.

(** ** The calendar *)

Record date : Type := Date { d_year : Z; d_mon : Z; d_day : Z }.

Definition month_days (year mon : Z) : Z :=
  if mon =? 2 then if leap year then 29 else 28
  else if existsb (Z.eqb mon) [4; 6; 9; 11] then 30 else 31.

Definition next_date (d : date) : date :=
  if d_day d <? month_days (d_year d) (d_mon d) then Date (d_year d) (d_mon d) (d_day d + 1)
  else if d_mon d <? 12 then Date (d_year d) (d_mon d + 1) 1
  else Date (d_year d + 1) 1 1.

(** The date [n] days after 1 January 1970. *)
Definition date_of (n : nat) : date := Nat.iter n next_date (Date 1970 1 1).

Definition valid_date (d : date) : Prop :=
  1 <= d_mon d <= 12 /\ 1 <= d_day d <= month_days (d_year d) (d_mon d).

(** The days from 1 March, 1 BC to 1 March of a year, and from there to a
    month, counted from 1 for March. *)
Definition march (year : Z) : Z := 365 * year + year / 4 - year / 100 + year / 400.
Definition month_start (m : Z) : Z := 367 * m / 12 - 30.

(** The year that starts in March, and its month. *)
Definition march_date (d : date) : Z * Z :=
  if d_mon d <=? 2 then (d_year d - 1, d_mon d + 10) else (d_year d, d_mon d - 2).

Definition day_number (d : date) : Z :=
  let '(y, m) := march_date d in march y + month_start m + d_day d - 1 - 719468.

Lemma leap_eq y : is_true (leap y) = (if (y `mod` 4 =? 0) && (negb (y `mod` 100 =? 0) || (y `mod` 400 =? 0)) then 1 else 0).
Proof. done. Qed.

Lemma march_step y : march (y + 1) = march y + 365 + is_true (leap (y + 1)).
Proof.
  unfold march. rewrite leap_eq.
  pose proof (Z.div_mod y 4). pose proof (Z.div_mod (y + 1) 4).
  pose proof (Z.div_mod y 100). pose proof (Z.div_mod (y + 1) 100).
  pose proof (Z.div_mod y 400). pose proof (Z.div_mod (y + 1) 400).
  pose proof (Z.mod_pos_bound y 4). pose proof (Z.mod_pos_bound (y + 1) 4).
  pose proof (Z.mod_pos_bound y 100). pose proof (Z.mod_pos_bound (y + 1) 100).
  pose proof (Z.mod_pos_bound y 400). pose proof (Z.mod_pos_bound (y + 1) 400).
  destruct (Z.eqb_spec ((y + 1) `mod` 4) 0), (Z.eqb_spec ((y + 1) `mod` 100) 0),
    (Z.eqb_spec ((y + 1) `mod` 400) 0); simpl; lia.
Qed.

Lemma march_mono y z : y <= z -> march y <= march z.
Proof.
  intros H. pattern z. apply Zlt_lower_bound_ind with (z := y); [|done].
  clear z H. intros z IH Hz. destruct (decide (z = y)) as [->|]; [lia|].
  specialize (IH (z - 1) ltac:(lia)). pose proof (march_step (z - 1)) as Hs.
  rewrite Z.sub_add in Hs. destruct (leap z); simpl in Hs; lia.
Qed.

Lemma month_cases m : 1 <= m <= 12 ->
  m = 1 \/ m = 2 \/ m = 3 \/ m = 4 \/ m = 5 \/ m = 6 \/ m = 7 \/ m = 8 \/ m = 9 \/ m = 10 \/
  m = 11 \/ m = 12.
Proof. lia. Qed.

Ltac each_month m H :=
  let E := fresh in
  destruct (month_cases m H) as [E|[E|[E|[E|[E|[E|[E|[E|[E|[E|[E|E]]]]]]]]]]]; subst m.

Ltac eval_month_start :=
  repeat match goal with
  | |- context [month_start ?m] =>
      let v := eval vm_compute in (month_start m) in change (month_start m) with v
  end.

Lemma day_number_next d :
  valid_date d ->
  valid_date (next_date d) /\ day_number (next_date d) = day_number d + 1.
Proof.
  destruct d as [y m k]. unfold valid_date, next_date; simpl. intros [Hm Hk].
  destruct (Z.ltb_spec k (month_days y m)) as [Hlt|Hge]; simpl.
  - split; [lia|]. unfold day_number, march_date; simpl. destruct (m <=? 2); lia.
  - assert (k = month_days y m) as -> by lia.
    pose proof (march_step (y - 1)) as Hs. rewrite Z.sub_add in Hs.
    each_month m Hm; unfold day_number, march_date, month_days in *; simpl in *;
      eval_month_start; rewrite ?Z.add_simpl_r; destruct (leap y); simpl in *; lia.
Qed.

Lemma date_of_spec n : valid_date (date_of n) /\ day_number (date_of n) = Z.of_nat n.
Proof.
  induction n as [|n [IH1 IH2]].
  - split; [unfold valid_date, month_days; simpl; lia|vm_compute; reflexivity].
  - unfold date_of in *. rewrite Nat.iter_succ.
    destruct (day_number_next _ IH1) as [H1 H2]. split; [done|]. lia.
Qed.

Lemma date_of_year n : 1970 <= d_year (date_of n).
Proof.
  induction n as [|n IH]; [simpl; lia|]. unfold date_of in *. rewrite Nat.iter_succ.
  destruct (Nat.iter n _ _) as [y m k]. unfold next_date. simpl in *.
  destruct (_ <? _); [done|]. destruct (_ <? _); simpl; lia.
Qed.

(** ** The conversion to a date *)

Lemma u64_small z : 0 <= z < 2 ^ 64 -> u64 z = z.
Proof. intros. by apply Z.mod_small. Qed.
Lemma s64_small z : - 2 ^ 63 <= z < 2 ^ 63 -> s64 z = z.
Proof. intros. unfold s64. change (2 ^ 64) with (2 * 2 ^ 63). rewrite Z.mod_small; lia. Qed.
Lemma s32_small z : - 2 ^ 31 <= z < 2 ^ 31 -> s32 z = z.
Proof. intros. unfold s32. change (2 ^ 32) with (2 * 2 ^ 31). rewrite Z.mod_small; lia. Qed.

(** Gauss' estimate of the year, at both ends of every year of a period. *)
Definition year_check (y : Z) : bool :=
  (146097 * y <=? (march y + 2) * 400) && ((march (y + 1) + 1) * 400 <? 146097 * (y + 2)).

Lemma year_checked : forallb year_check (seqZ 0 400) = true.
Proof. vm_compute. reflexivity. Qed.

Lemma march_period q r : march (400 * q + r) = 146097 * q + march r.
Proof.
  unfold march.
  replace (400 * q + r) with (r + (100 * q) * 4) at 2 by lia.
  replace (400 * q + r) with (r + (4 * q) * 100) at 2 by lia.
  replace (400 * q + r) with (r + q * 400) at 2 by lia.
  rewrite !Z.div_add by lia. lia.
Qed.

Lemma year_bounds y :
  146097 * y <= (march y + 2) * 400 /\ (march (y + 1) + 1) * 400 < 146097 * (y + 2).
Proof.
  pose proof (Z.div_mod y 400 ltac:(lia)) as Hd.
  pose proof (Z.mod_pos_bound y 400 ltac:(lia)) as Hb.
  pose proof year_checked as H. rewrite forallb_forall in H.
  specialize (H (y `mod` 400) ltac:(apply list_elem_of_In, elem_of_seqZ; lia)).
  unfold year_check in H. apply andb_true_iff in H as [H1%Z.leb_le H2%Z.ltb_lt].
  rewrite Hd. rewrite <- Z.add_assoc, !march_period. lia.
Qed.

Lemma gmtime_year_spec n y :
  0 <= y -> march y <= n < march (y + 1) -> n < 2 ^ 54 -> gmtime_year n = (y, n - march y).
Proof.
  intros Hy Hn Hb. destruct (year_bounds y) as [H1 H2]. pose proof (march_step y) as Hs.
  assert (0 <= march y) by (pose proof (march_mono 0 y Hy); change (march 0) with 0 in *; lia).
  unfold gmtime_year. rewrite (u64_small (n + 2)), (u64_small ((n + 2) * 400)) by lia.
  change (365 * 400 + 100 - 4 + 1) with 146097.
  assert ((n + 2) * 400 / 146097 = y \/ (n + 2) * 400 / 146097 = y + 1) as [-> | ->].
  { assert (y <= (n + 2) * 400 / 146097) by (apply Z.div_le_lower_bound; lia).
    assert ((n + 2) * 400 / 146097 < y + 2) by (apply Z.div_lt_upper_bound; lia). lia. }
  - fold (march y). rewrite u64_small, s64_small by lia.
    by rewrite (proj2 (Z.ltb_ge _ _)) by lia.
  - fold (march (y + 1)).
    assert (is_true (leap (y + 1)) = 0 \/ is_true (leap (y + 1)) = 1) by (destruct leap; auto).
    rewrite u64_small, s64_small by lia. rewrite (proj2 (Z.ltb_lt _ _)) by lia.
    rewrite Z.add_simpl_r. rewrite u64_small, s64_small by lia. f_equal. lia.
Qed.

(** The month of a day, for every day of a leap year. *)
Definition month_check (m k : Z) : bool :=
  let yday := month_start m + k - 1 in
  (month_days 2000 (if m <=? 10 then m + 2 else m - 10) <? k) ||
  (u64 (Z.quot ((yday + 31) * 10) 306) =? m) &&
  (u64 (yday - (u64 (367 * m) / 12 - 30) + 1) =? k) &&
  Bool.eqb (306 <=? yday) (11 <=? m).

Lemma month_checked :
  forallb (fun m => forallb (month_check m) (seqZ 1 31)) (seqZ 1 12) = true.
Proof. vm_compute. reflexivity. Qed.

Lemma month_days_le y m : 1 <= m <= 12 -> 28 <= month_days y m <= month_days 2000 m /\
  month_days 2000 m <= 31.
Proof. intros H. each_month m H; unfold month_days; simpl; destruct (leap y); lia. Qed.

Lemma gmtime_month_spec y m k :
  0 <= y < 2 ^ 31 -> 1 <= m <= 12 ->
  1 <= k <= month_days 2000 (if m <=? 10 then m + 2 else m - 10) ->
  gmtime_month y (month_start m + k - 1) =
    if m <=? 10 then (y, m + 2, k) else (y + 1, m - 10, k).
Proof.
  intros Hy Hm Hk. pose proof month_checked as H. rewrite forallb_forall in H.
  specialize (H m ltac:(apply list_elem_of_In, elem_of_seqZ; lia)). cbv beta in H.
  rewrite forallb_forall in H.
  assert (k <= 31) by (destruct (month_days_le 2000 (if m <=? 10 then m + 2 else m - 10));
    [destruct (Z.leb_spec m 10); lia|lia]).
  specialize (H k ltac:(apply list_elem_of_In, elem_of_seqZ; lia)). unfold month_check in H.
  rewrite (proj2 (Z.ltb_ge _ _)) in H by lia. cbn [orb] in H. rewrite !andb_true_iff in H.
  destruct H as [[H1%Z.eqb_eq H2%Z.eqb_eq] H3%eqb_prop]. unfold gmtime_month.
  rewrite H1, H2, H3.
  destruct (Z.leb_spec m 10), (Z.leb_spec 11 m); try lia; rewrite !u64_small by lia; done.
Qed.

(** The position of a date in its March year. *)
Lemma march_date_range d :
  valid_date d ->
  let '(y, m) := march_date d in
  1 <= m <= 12 /\ 1 <= d_day d <= month_days 2000 (if m <=? 10 then m + 2 else m - 10) /\
  march y <= day_number d + 719468 < march (y + 1) /\
  day_number d + 719468 - march y = month_start m + d_day d - 1 /\
  (if m <=? 10 then (y, m + 2, d_day d) else (y + 1, m - 10, d_day d)) =
    (d_year d, d_mon d, d_day d) /\ d_year d - 1 <= y <= d_year d.
Proof.
  destruct d as [y m k]. unfold valid_date; simpl. intros [Hm Hk].
  pose proof (month_days_le y m Hm). pose proof (march_step (y - 1)) as Hs.
  rewrite Z.sub_add in Hs. pose proof (march_step y) as Ht.
  assert (0 <= is_true (leap (y + 1))) by (destruct (leap (y + 1)); simpl; lia).
  each_month m Hm; unfold march_date, day_number in *; simpl; eval_month_start;
    unfold month_days in *; simpl in *; rewrite ?Z.sub_add in *; destruct (leap y); simpl in *;
    (split_and!; try done; try lia; f_equal; f_equal; lia).
Qed.

Lemma march_le y : 0 <= y -> march y <= 366 * y.
Proof.
  intros Hy. unfold march. pose proof (Z.mul_div_le y 4). pose proof (Z.mul_div_le y 400).
  pose proof (Z.div_pos y 100). lia.
Qed.

Lemma march_ge y : 0 <= y -> 365 * y <= march y.
Proof.
  intros Hy. unfold march. pose proof (Z.div_le_compat_l y 4 100).
  pose proof (Z.div_pos y 400). lia.
Qed.

Lemma day_number_ge d : valid_date d -> 1 <= d_year d -> 365 * (d_year d - 1) <= day_number d + 719468.
Proof.
  intros Hv Hy. pose proof (march_date_range d Hv) as H.
  destruct (march_date d) as [y m]. destruct H as (_ & _ & Hr & _ & _ & Hyy).
  pose proof (march_ge y). lia.
Qed.

Lemma gmtime_date d :
  valid_date d -> 1 <= d_year d < 2 ^ 31 ->
  (let '(y, yday) := gmtime_year (day_number d + 719468) in gmtime_month y yday) =
  (d_year d, d_mon d, d_day d).
Proof.
  intros Hv Hy. pose proof (march_date_range d Hv) as H.
  destruct (march_date d) as [y m]. destruct H as (Hm & Hk & Hr & He & Hd & Hyy).
  rewrite (gmtime_year_spec _ y) by
    (pose proof (march_le (y + 1)); lia).
  rewrite He, gmtime_month_spec by lia. exact Hd.
Qed.

(** ** [ngx_gmtime] *)

Lemma mod_mul_div t a b : 0 < a -> 0 < b -> t `mod` (a * b) / a = (t / a) `mod` b.
Proof.
  intros Ha Hb. rewrite Z.rem_mul_r by lia. rewrite (Z.mul_comm a), Z.div_add by lia.
  rewrite (Z.div_small (t `mod` a)) by (apply Z.mod_pos_bound; lia). by rewrite Z.add_0_l.
Qed.

Lemma mod_mul_mod t a b : 0 < a -> 0 < b -> (t `mod` (a * b)) `mod` a = t `mod` a.
Proof.
  intros Ha Hb. rewrite Z.rem_mul_r by lia. rewrite (Z.mul_comm a ((t / a) `mod` b)), Z.mod_add by lia.
  by rewrite Z.mod_mod by lia.
Qed.

Lemma gmtime_calendar t :
  0 <= t < 2 ^ 54 ->
  let d := date_of (Z.to_nat (t / 86400)) in
  ngx_gmtime t = Tm (t `mod` 60) ((t / 60) `mod` 60) ((t / 3600) `mod` 24)
                    (d_day d) (d_mon d) (d_year d) ((t / 86400 + 4) `mod` 7).
Proof.
  intros Ht d. destruct (date_of_spec (Z.to_nat (t / 86400))) as [Hv Hn]. fold d in Hv, Hn.
  pose proof (Z.div_mod t 86400). pose proof (Z.mod_pos_bound t 86400).
  pose proof (gmtime_date d Hv) as Hd. pose proof (day_number_ge d Hv) as Hy.
  pose proof (date_of_year (Z.to_nat (t / 86400))) as H70. fold d in H70.
  unfold ngx_gmtime. rewrite (u64_small t) by lia.
  replace (t `mod` 86400 / 3600) with ((t / 3600) `mod` 24)
    by (symmetry; apply (mod_mul_div t 3600 24); lia).
  replace ((t `mod` 86400) `mod` 3600) with (t `mod` 3600)
    by (symmetry; apply (mod_mul_mod t 3600 24); lia).
  replace (t `mod` 3600 / 60) with ((t / 60) `mod` 60)
    by (symmetry; apply (mod_mul_div t 60 60); lia).
  replace ((t `mod` 3600) `mod` 60) with (t `mod` 60)
    by (symmetry; apply (mod_mul_mod t 60 60); lia).
  replace (t / 86400 - (31 + 28) + 719527) with (day_number d + 719468) by lia.
  rewrite (u64_small (_ + 719468)) by lia. destruct (gmtime_year _) as [y yday].
  rewrite Hd by lia. destruct Hv as [Hm Hk]. pose proof (month_days_le (d_year d) (d_mon d) Hm).
  assert (forall a b, 0 < b <= 2 ^ 31 -> s32 (a `mod` b) = a `mod` b) as Hs.
  { intros a b Hb. apply s32_small. pose proof (Z.mod_pos_bound a b). lia. }
  rewrite !Hs, !s32_small by lia. f_equal. f_equal. lia.
Qed.

(** C38. The date and the time of day of the second [t] since 1 January 1970, and
    the day of the week. *)
Theorem gmtime_correct t :
  0 <= t < 2 ^ 54 ->
  let d := date_of (Z.to_nat (t / 86400)) in
  ngx_gmtime t = Tm (t `mod` 60) ((t / 60) `mod` 60) ((t / 3600) `mod` 24)
                    (d_day d) (d_mon d) (d_year d) ((t / 86400 + 4) `mod` 7).
Proof. apply gmtime_calendar. Qed.

Lemma gmtime_correct_witness :
  let d := date_of (Z.to_nat (784111777 / 86400)) in
  ngx_gmtime 784111777 = Tm (784111777 `mod` 60) ((784111777 / 60) `mod` 60)
    ((784111777 / 3600) `mod` 24) (d_day d) (d_mon d) (d_year d) ((784111777 / 86400 + 4) `mod` 7).
Proof. apply (gmtime_correct 784111777). lia. Defined.
