(* ===== verification/NgxParseTime.v ===== *)
(** * NgxParseTime: HTTP dates

    [ngx_parse_http_time] of src/core/ngx_parse_time.c: the strings it accepts,
    what they denote, and the bytes it reads. *)

From S2P Require Import Prelude NgxNumber NgxSprintf NgxTimes.

(* core/ngx_parse_time.c:12-12 mday *)
Definition mday : list Z := [31; 28; 31; 30; 31; 30; 31; 31; 30; 31; 30; 31].

(* core/ngx_parse_time.c:20-25 ngx_parse_http_time: fmt *)
Inductive time_fmt : Type := no | rfc822 | rfc850 | isoc.
#[export] Instance time_fmt_eq_dec : EqDecision time_fmt.
Proof. solve_decision. Defined.

Section Parse.
Context (mem : memory).

(** The first comma or space, in [n] bytes from [p]. *)
(* core/ngx_parse_time.c:35-44 ngx_parse_http_time: first loop *)
Fixpoint time_separator (n : nat) (p : Z) : time_fmt * Z :=
  match n with
  | O => (no, p)
  | S n =>
      if mem p =? $ "," then (no, p)
      else if mem p =? $ " " then (isoc, p)
      else time_separator n (p + 1)
  end.

(* core/ngx_parse_time.c:46-49 ngx_parse_http_time: second loop *)
Fixpoint skip_spaces (n : nat) (p : Z) : Z :=
  match n with
  | O => p
  | S n => if negb (mem p =? $ " ") then p else skip_spaces n (p + 1)
  end.

(** [None] for [return NGX_ERROR], here and below. *)
Definition digit (p : Z) : option Z :=
  if (mem p <? $ "0") || ($ "9" <? mem p) then None else Some (mem p - $ "0").

Definition digits2 (p : Z) : option Z :=
  a ← digit p; b ← digit (p + 1); Some (a * 10 + b).

Definition digits4 (p : Z) : option Z :=
  a ← digit p; b ← digit (p + 1); c ← digit (p + 2); d ← digit (p + 3);
  Some (a * 1000 + b * 100 + c * 10 + d).

(** [if ( *p++ != c) return NGX_ERROR]. *)
Definition expect (c p : Z) : option Z := if mem p =? c then Some (p + 1) else None.

(** [day], [fmt] and [p]. *)
(* core/ngx_parse_time.c:55-76 ngx_parse_http_time: if (fmt != isoc) *)
Definition time_day (fmt : time_fmt) (p end_ : Z) : option (Z * time_fmt * Z) :=
  if decide (fmt = isoc) then Some (32, fmt, p)
  else
    day ← digits2 p;
    let p := p + 2 in
    if mem p =? $ " " then
      if end_ - p <? 18 then None else Some (day, rfc822, p + 1)
    else if mem p =? $ "-" then Some (day, rfc850, p + 1)
    else None.

(** From 0. *)
(* core/ngx_parse_time.c:78-115 ngx_parse_http_time: switch ( *p) *)
Definition time_month (p : Z) : option Z :=
  if mem p =? $ "J" then
    Some (if mem (p + 1) =? $ "a" then 0 else if mem (p + 2) =? $ "n" then 5 else 6)
  else if mem p =? $ "F" then Some 1
  else if mem p =? $ "M" then Some (if mem (p + 2) =? $ "r" then 2 else 4)
  else if mem p =? $ "A" then Some (if mem (p + 1) =? $ "p" then 3 else 7)
  else if mem p =? $ "S" then Some 8
  else if mem p =? $ "O" then Some 9
  else if mem p =? $ "N" then Some 10
  else if mem p =? $ "D" then Some 11
  else None.

(* core/ngx_parse_time.c:125-145 ngx_parse_http_time: year *)
Definition time_year (fmt : time_fmt) (p : Z) : option (Z * Z) :=
  match fmt with
  | rfc822 => year ← digits4 p; Some (year, p + 4)
  | rfc850 => year ← digits2 p; Some (year + (if year <? 70 then 2000 else 1900), p + 2)
  | _ => Some (2038, p)
  end.

(* core/ngx_parse_time.c:147-169 ngx_parse_http_time: if (fmt == isoc) *)
Definition time_iso_day (fmt : time_fmt) (day p end_ : Z) : option (Z * Z) :=
  if decide (fmt = isoc) then
    let p := if mem p =? $ " " then p + 1 else p in
    day ← digit p;
    let p := p + 1 in
    '(day, p) ← (if mem p =? $ " " then Some (day, p)
                 else d ← digit p; Some (day * 10 + d, p + 1));
    if end_ - p <? 14 then None else Some (day, p)
  else Some (day, p).

(** [hour], [min], [sec], and [p] at the seconds. *)
(* core/ngx_parse_time.c:171-203 ngx_parse_http_time: time of day *)
Definition time_of_day (p : Z) : option (Z * Z * Z * Z) :=
  p ← expect ($ " ") p;
  hour ← digits2 p;
  p ← expect ($ ":") (p + 2);
  min ← digits2 p;
  p ← expect ($ ":") (p + 2);
  sec ← digits2 p;
  Some (hour, min, sec, p).

(* core/ngx_parse_time.c:205-221 ngx_parse_http_time: if (fmt == isoc) *)
Definition time_iso_year (fmt : time_fmt) (year p : Z) : option Z :=
  if decide (fmt = isoc) then p ← expect ($ " ") (p + 2); digits4 p else Some year.

(** The checks and Gauss' formula; [month] from 0. *)
(* core/ngx_parse_time.c:223-275 ngx_parse_http_time: validation and result *)
Definition time_value (year month day hour min sec : Z) : Z :=
  if (23 <? hour) || (59 <? min) || (59 <? sec) then NGX_ERROR
  else if
    if (day =? 29) && (month =? 1) then
      negb (Z.land year 3 =? 0) || ((year `mod` 100 =? 0) && negb (year `mod` 400 =? 0))
    else nth (Z.to_nat month) mday 0 <? day
  then NGX_ERROR
  else
    let '(month, year) :=
      if month - 1 <=? 0 then (month - 1 + 12, u64 (year - 1)) else (month - 1, year) in
    s64 (u64 ((u64 (365 * year) + year / 4 - year / 100 + year / 400
           + Z.quot (367 * month) 12 - 30 + day - 1 - 719527 + 31 + 28) * 86400
         + hour * 3600 + min * 60 + sec)).

(* core/ngx_parse_time.c:14-276 ngx_parse_http_time *)
Definition ngx_parse_http_time (value len : Z) : Z :=
  let end_ := value + len in
  let '(fmt, p) := time_separator (Z.to_nat (end_ - value)) value in
  let p := skip_spaces (Z.to_nat (end_ - (p + 1))) (p + 1) in
  default NGX_ERROR (
    if end_ - p <? 18 then None
    else
      '(day, fmt, p) ← time_day fmt p end_;
      month ← time_month p;
      let p := p + 3 in
      if (bool_decide (fmt = rfc822) && negb (mem p =? $ " ")) ||
         (bool_decide (fmt = rfc850) && negb (mem p =? $ "-")) then None
      else
        '(year, p) ← time_year fmt (p + 1);
        '(day, p) ← time_iso_day fmt day p end_;
        '(hour, min, sec, p) ← time_of_day p;
        year ← time_iso_year fmt year p;
        Some (time_value year month day hour min sec)).

End Parse.

Definition parse_string (s : list Z) : Z :=
  ngx_parse_http_time (load 4096 s) 4096 (Z.of_nat (length s)).

Example parse_http_time_example :
  parse_string (bytes "Sun, 06 Nov 1994 08:49:37 GMT") = 784111777 /\
  parse_string (bytes "Sunday, 06-Nov-94 08:49:37 GMT") = 784111777 /\
  parse_string (bytes "Sun Nov  6 08:49:37 1994") = 784111777 /\
  parse_string (bytes "Sun, 29 Feb 1900 08:49:37 GMT") = NGX_ERROR /\
  parse_string (bytes "Fri, 00 Nov 2002 00:00:00 GMT") =
    parse_string (bytes "Thu, 31 Oct 2002 00:00:00 GMT").
Proof. split_and!; vm_compute; reflexivity. Qed.

(** ** Dates as strings *)

Definition dec2 (n : Z) : list Z := [48 + n / 10; 48 + n `mod` 10].
Definition dec4 (n : Z) : list Z := dec2 (n / 100) ++ dec2 (n `mod` 100).
Definition hms (h mi s : Z) : list Z := dec2 h ++ [$ ":"] ++ dec2 mi ++ [$ ":"] ++ dec2 s.
Definition month_name (m : Z) : list Z := nth (Z.to_nat (m - 1)) months [].

(** The three formats, from the name of the day [wd] to the last digit. *)
Definition http_date (fmt : time_fmt) (wd : list Z) (d : date) (h mi s : Z) : list Z :=
  match fmt with
  | rfc822 =>
      wd ++ [$ ","; $ " "] ++ dec2 (d_day d) ++ [$ " "] ++ month_name (d_mon d) ++ [$ " "] ++
      dec4 (d_year d) ++ [$ " "] ++ hms h mi s
  | rfc850 =>
      wd ++ [$ ","; $ " "] ++ dec2 (d_day d) ++ [$ "-"] ++ month_name (d_mon d) ++ [$ "-"] ++
      dec2 (d_year d `mod` 100) ++ [$ " "] ++ hms h mi s
  | _ =>
      wd ++ [$ " "] ++ month_name (d_mon d) ++ [$ " "] ++
      (if d_day d <? 10 then [$ " "; 48 + d_day d] else dec2 (d_day d)) ++ [$ " "] ++
      hms h mi s ++ [$ " "] ++ dec4 (d_year d)
  end.

(** The years that a format can express. *)
Definition expressible (fmt : time_fmt) (year : Z) : Prop :=
  match fmt with
  | rfc850 => 1970 <= year < 2070
  | no => False
  | _ => 1 <= year <= 9999
  end.

Definition clock (h mi s : Z) : Prop := 0 <= h < 24 /\ 0 <= mi < 60 /\ 0 <= s < 60.

(** The seconds from 1 January 1970 to a moment. *)
Definition seconds (d : date) (h mi s : Z) : Z := day_number d * 86400 + h * 3600 + mi * 60 + s.

Section Reading.
Context (mem : memory).

Lemma digit_at p d r :
  holds mem p (48 + d :: r) -> 0 <= d < 10 -> digit mem p = Some d /\ holds mem (p + 1) r.
Proof.
  intros [Hp Hr]%holds_cons Hd. split; [|done]. unfold digit. rewrite Hp.
  rewrite !(proj2 (Z.ltb_ge _ _)) by lia. simpl. f_equal. lia.
Qed.

Lemma digits2_at p n r :
  holds mem p (dec2 n ++ r) -> 0 <= n < 100 -> digits2 mem p = Some n /\ holds mem (p + 2) r.
Proof.
  intros H Hn. pose proof (Z.div_mod n 10 ltac:(lia)). pose proof (Z.mod_pos_bound n 10 ltac:(lia)).
  destruct (digit_at p (n / 10) _ H) as [E1 Ha]; [lia|].
  destruct (digit_at _ (n `mod` 10) _ Ha) as [E2 Hb]; [lia|].
  unfold digits2. rewrite E1. simpl. rewrite E2. simpl.
  split; [f_equal; lia|by rewrite <- Z.add_assoc in Hb].
Qed.

Lemma digits4_at p n r :
  holds mem p (dec4 n ++ r) -> 0 <= n <= 9999 -> digits4 mem p = Some n /\ holds mem (p + 4) r.
Proof.
  intros H Hn. unfold dec4 in H. rewrite <- app_assoc in H.
  pose proof (Z.div_mod n 100 ltac:(lia)). pose proof (Z.mod_pos_bound n 100 ltac:(lia)).
  destruct (digits2_at p (n / 100) _ H) as [E1 Ha]; [lia|].
  destruct (digits2_at _ (n `mod` 100) _ Ha) as [E2 Hb]; [lia|].
  unfold digits2 in E1, E2. unfold digits4.
  destruct (digit mem p) as [a|]; simpl in *; [|done].
  destruct (digit mem (p + 1)) as [b|]; simpl in *; [|done].
  replace (p + 2 + 1) with (p + 3) in E2 by lia.
  destruct (digit mem (p + 2)) as [c|]; simpl in *; [|done].
  destruct (digit mem (p + 3)) as [d|]; simpl in *; [|done]. simplify_eq.
  split; [f_equal; lia|by rewrite <- Z.add_assoc in Hb].
Qed.

Lemma expect_at p c r :
  holds mem p (c :: r) -> expect mem c p = Some (p + 1) /\ holds mem (p + 1) r.
Proof. intros [Hp Hr]%holds_cons. unfold expect. by rewrite Hp, Z.eqb_refl. Qed.

Lemma month_at p m r :
  holds mem p (month_name m ++ r) -> 1 <= m <= 12 ->
  time_month mem p = Some (m - 1) /\ holds mem (p + 3) r.
Proof.
  intros H Hm. each_month m Hm; apply holds_cons in H as [H1 H]; apply holds_cons in H as [H2 H];
    apply holds_cons in H as [H3 H]; replace (p + 1 + 1) with (p + 2) in * by lia;
    (split; [|by replace (p + 3) with (p + 2 + 1) by lia]); unfold time_month; rewrite H1, ?H2, ?H3;
    vm_compute; reflexivity.
Qed.

Lemma time_of_day_at p h mi s r :
  holds mem p ($ " " :: hms h mi s ++ r) -> clock h mi s ->
  time_of_day mem p = Some (h, mi, s, p + 7) /\ holds mem (p + 9) r.
Proof.
  intros H (Hh & Hmi & Hs). unfold hms in H. rewrite <- !app_assoc in H.
  unfold time_of_day.
  apply expect_at in H as [-> H]. cbn [mbind option_bind].
  apply digits2_at in H as [-> H]; [|lia]. cbn [mbind option_bind].
  apply expect_at in H as [-> H]. cbn [mbind option_bind].
  apply digits2_at in H as [-> H]; [|lia]. cbn [mbind option_bind].
  apply expect_at in H as [-> H]. cbn [mbind option_bind].
  apply digits2_at in H as [-> H]; [|lia]. cbn [mbind option_bind].
  rewrite <- !Z.add_assoc in *. done.
Qed.

Lemma separator_at wd c p n r :
  holds mem p (wd ++ c :: r) -> Forall (fun x => x <> $ "," /\ x <> $ " ") wd ->
  c = $ "," \/ c = $ " " -> (length wd < n)%nat ->
  time_separator mem n p =
    (if c =? $ "," then no else isoc, p + Z.of_nat (length wd)) /\
  holds mem (p + Z.of_nat (length wd) + 1) r.
Proof.
  revert p n. induction wd as [|x wd IH]; intros p n H Hwd Hc Hn; destruct n as [|n];
    simpl in Hn; try lia; apply holds_cons in H as [Hp H]; cbn [time_separator]; rewrite Hp.
  - simpl. rewrite Z.add_0_r. split; [|done]. by destruct Hc as [-> | ->].
  - inversion Hwd as [|? ? [Hx1 Hx2] Hwd']; subst.
    apply Z.eqb_neq in Hx1, Hx2. rewrite Hx1, Hx2.
    destruct (IH (p + 1) n H Hwd' Hc) as [E1 E2]; [lia|].
    cbn [length]. replace (p + Z.of_nat (S (length wd))) with (p + 1 + Z.of_nat (length wd)) by lia.
    done.
Qed.

Lemma skip_none p n c r :
  holds mem p (c :: r) -> c <> $ " " -> skip_spaces mem n p = p.
Proof.
  intros [Hp _]%holds_cons Hc. destruct n; [done|]. simpl. rewrite Hp.
  by apply Z.eqb_neq in Hc as ->.
Qed.

Lemma skip_one p n c r :
  holds mem p ($ " " :: c :: r) -> c <> $ " " -> (0 < n)%nat -> skip_spaces mem n p = p + 1.
Proof.
  intros [Hp H]%holds_cons Hc Hn. destruct n; [lia|]. simpl. rewrite Hp. simpl.
  by eapply skip_none.
Qed.

End Reading.

(** The test of [time_value] for 29 February. *)
Lemma leap_test y :
  negb (Z.land y 3 =? 0) || ((y `mod` 100 =? 0) && negb (y `mod` 400 =? 0)) = negb (leap y).
Proof.
  unfold leap. replace (Z.land y 3) with (y `mod` 4) by (symmetry; apply (land_ones_mod y 2); lia).
  by destruct (y `mod` 4 =? 0), (y `mod` 100 =? 0), (y `mod` 400 =? 0).
Qed.

Definition time_day_refused (year month day : Z) : bool :=
  if (day =? 29) && (month =? 1) then
    negb (Z.land year 3 =? 0) || ((year `mod` 100 =? 0) && negb (year `mod` 400 =? 0))
  else nth (Z.to_nat month) mday 0 <? day.

Lemma day_refused_spec y m k :
  1 <= m <= 12 -> time_day_refused y (m - 1) k = (month_days y m <? k).
Proof.
  intros Hm. unfold time_day_refused. rewrite leap_test.
  each_month m Hm; unfold month_days; simpl; rewrite ?andb_false_r; try done.
  rewrite andb_true_r. destruct (Z.eqb_spec k 29) as [-> |]; destruct (leap y); simpl; try done;
    destruct (Z.ltb_spec 28 k), (Z.ltb_spec 29 k); simpl; lia.
Qed.

Lemma seconds_range d h mi s :
  1 <= d_mon d <= 12 -> 0 <= d_day d <= 99 -> 0 <= d_year d <= 9999 -> clock h mi s ->
  - 2 ^ 63 <= seconds d h mi s < 2 ^ 63.
Proof.
  intros Hm Hk Hy (Hh & Hmi & Hs). unfold seconds, day_number, march_date.
  assert (forall y, -1 <= y <= 9999 -> -1000 <= march y <= 4000000) as Hmarch.
  { intros y ?. unfold march. pose proof (Z.div_mod y 4). pose proof (Z.mod_pos_bound y 4).
    pose proof (Z.div_mod y 100). pose proof (Z.mod_pos_bound y 100).
    pose proof (Z.div_mod y 400). pose proof (Z.mod_pos_bound y 400). lia. }
  assert (forall m, 1 <= m <= 12 -> 0 <= month_start m <= 337) as Hstart.
  { intros m H. each_month m H; vm_compute; split; discriminate. }
  destruct (Z.leb_spec (d_mon d) 2).
  - pose proof (Hmarch (d_year d - 1)). pose proof (Hstart (d_mon d + 10)). lia.
  - pose proof (Hmarch (d_year d)). pose proof (Hstart (d_mon d - 2)). lia.
Qed.

(** Gauss' formula counts the seconds to a moment; the day may be 0, and the
    year 0 must not become negative. *)
Lemma time_value_spec y m k h mi s :
  1 <= m <= 12 -> 0 <= k <= 99 -> 0 <= y <= 9999 -> (1 <= y \/ 3 <= m) ->
  0 <= h -> 0 <= mi -> 0 <= s ->
  time_value y (m - 1) k h mi s =
    if (h <? 24) && (mi <? 60) && (s <? 60) && (k <=? month_days y m)
    then seconds (Date y m k) h mi s else NGX_ERROR.
Proof.
  intros Hm Hk Hy Hy0 Hh Hmi Hs. unfold time_value.
  fold (time_day_refused y (m - 1) k). rewrite day_refused_spec by done.
  destruct (Z.ltb_spec 23 h), (Z.ltb_spec h 24), (Z.ltb_spec 59 mi), (Z.ltb_spec mi 60),
    (Z.ltb_spec 59 s), (Z.ltb_spec s 60); try lia; try done. cbn [orb andb].
  destruct (Z.ltb_spec (month_days y m) k), (Z.leb_spec k (month_days y m)); try lia.
  rewrite <- (s64_u64 (seconds _ _ _ _)) by
    (apply seconds_range; unfold clock; simpl; lia).
  unfold seconds, day_number, march_date, march, month_start. cbn [d_year d_mon d_day].
  destruct (Z.leb_spec (m - 1 - 1) 0), (Z.leb_spec m 2); try lia.
  - replace (m - 1 - 1 + 12) with (m + 10) by lia.
    rewrite (u64_small (y - 1)), (u64_small (365 * (y - 1))), Z.quot_div_nonneg by lia.
    f_equal. f_equal. lia.
  - replace (m - 1 - 1) with (m - 2) by lia.
    rewrite (u64_small (365 * y)), Z.quot_div_nonneg by lia. f_equal. f_equal. lia.
Qed.

(** ** [ngx_parse_http_time] accepts the three formats *)

Lemma time_day_at mem p d sep r end_ :
  holds mem p (dec2 d ++ sep :: r) -> 0 <= d < 100 ->
  (sep = $ " " /\ 18 <= end_ - (p + 2)) \/ sep = $ "-" ->
  time_day mem no p end_ = Some (d, if sep =? $ " " then rfc822 else rfc850, p + 3) /\
  holds mem (p + 3) r.
Proof.
  intros H Hd Hsep. unfold time_day. rewrite decide_False by done.
  apply digits2_at in H as [-> H]; [|done]. cbn [mbind option_bind].
  apply holds_cons in H as [-> H]. rewrite <- Z.add_assoc in H. split; [|done].
  destruct Hsep as [[-> Hl] | ->]; cbn [Z.eqb Pos.eqb].
  - rewrite (proj2 (Z.ltb_ge _ _)) by lia. by rewrite <- Z.add_assoc.
  - by rewrite <- Z.add_assoc.
Qed.

Lemma month_name_length m : 1 <= m <= 12 -> length (month_name m) = 3%nat.
Proof. intros H. by each_month m H. Qed.

Lemma month_days_range y m : 1 <= m <= 12 -> 28 <= month_days y m <= 31.
Proof. intros H. pose proof (month_days_le y m H). lia. Qed.

(** What the fields of an accepted date evaluate to. *)
Lemma time_value_valid d h mi s :
  valid_date d -> 1 <= d_year d <= 9999 -> clock h mi s ->
  time_value (d_year d) (d_mon d - 1) (d_day d) h mi s = seconds d h mi s.
Proof.
  intros [Hm Hk] Hy (Hh & Hmi & Hs). pose proof (month_days_range (d_year d) (d_mon d) Hm).
  rewrite time_value_spec by lia. destruct d as [y m k]; simpl in *.
  rewrite !(proj2 (Z.ltb_lt _ _)), (proj2 (Z.leb_le _ _)) by lia. done.
Qed.

Definition day_name (wd : list Z) : Prop := Forall (fun x => x <> $ "," /\ x <> $ " ") wd.

Section Accepts.
Context (mem : memory) (v : Z) (wd rest : list Z) (d : date) (h mi s : Z).
Hypothesis (Hwd : day_name wd) (Hd : valid_date d) (Ht : clock h mi s).

Lemma valid_day : 1 <= d_mon d <= 12 /\ 1 <= d_day d <= 31.
Proof using Hd.
  destruct Hd as [Hm Hk]. pose proof (month_days_range (d_year d) (d_mon d) Hm). lia.
Qed.

(** The parser behind "wd," followed by a blank. *)
Lemma parse_comma l tail :
  holds mem v (wd ++ [$ ","; $ " "] ++ dec2 (d_day d) ++ tail) ->
  l = Z.of_nat (length (wd ++ [$ ","; $ " "] ++ dec2 (d_day d) ++ tail)) ->
  (16 <= length tail)%nat ->
  let p := v + Z.of_nat (length wd) + 2 in
  holds mem p (dec2 (d_day d) ++ tail) /\ v + l - p = 2 + Z.of_nat (length tail) /\
  ngx_parse_http_time mem v l = default NGX_ERROR (
      '(day, fmt, p) ← time_day mem no p (v + l);
      month ← time_month mem p;
      let p := p + 3 in
      if (bool_decide (fmt = rfc822) && negb (mem p =? $ " ")) ||
         (bool_decide (fmt = rfc850) && negb (mem p =? $ "-")) then None
      else
        '(year, p) ← time_year mem fmt (p + 1);
        '(day, p) ← time_iso_day mem fmt day p (v + l);
        '(hour, min, sec, p) ← time_of_day mem p;
        year ← time_iso_year mem fmt year p;
        Some (time_value year month day hour min sec)).
Proof using Hwd Hd.
  intros H Hl Htail p. pose proof valid_day as [Hm Hk].
  rewrite !length_app in Hl. cbn [length dec2] in Hl.
  pose proof (separator_at mem wd ($ ",") v (Z.to_nat (v + l - v)) _ H Hwd (or_introl eq_refl))
    as Hsep. destruct Hsep as [Hsep H1]; [lia|].
  assert (skip_spaces mem (Z.to_nat (v + l - (v + Z.of_nat (length wd) + 1)))
    (v + Z.of_nat (length wd) + 1) = p) as Hskip.
  { unfold p. replace (v + Z.of_nat (length wd) + 2) with (v + Z.of_nat (length wd) + 1 + 1) by lia.
    eapply skip_one; [exact H1| |lia]. pose proof (Z.div_pos (d_day d) 10). lia. }
  apply holds_cons in H1 as [_ H1]. split_and!.
  - unfold p. by replace (v + Z.of_nat (length wd) + 2) with (v + Z.of_nat (length wd) + 1 + 1) by lia.
  - unfold p. lia.
  - unfold ngx_parse_http_time. rewrite Hsep. cbn [Z.eqb Pos.eqb]. rewrite Hskip.
    by rewrite (proj2 (Z.ltb_ge _ _)) by (unfold p; lia).
Qed.

Lemma parse_rfc822 :
  1 <= d_year d <= 9999 -> holds mem v (http_date rfc822 wd d h mi s ++ rest) ->
  ngx_parse_http_time mem v (Z.of_nat (length (http_date rfc822 wd d h mi s ++ rest))) =
  seconds d h mi s.
Proof using Hwd Hd Ht.
  intros Hy H. pose proof valid_day as [Hm Hk]. unfold http_date in *. rewrite <- !app_assoc in *.
  destruct (parse_comma _ _ H eq_refl) as (H1 & Hl & ->).
  { rewrite !length_app, month_name_length by lia. simpl. lia. }
  eapply (time_day_at _ _ _ ($ " ")) in H1 as [-> H1];
    [|lia|left; split; [done|rewrite !length_app, month_name_length in Hl |- * by lia; simpl in *; lia]].
  cbn [mbind option_bind Z.eqb Pos.eqb].
  apply month_at in H1 as [-> H1]; [|done]. cbn [mbind option_bind].
  apply holds_cons in H1 as [-> H1]. simpl (_ || _). cbn [time_year].
  apply digits4_at in H1 as [-> H1]; [|lia]. cbn [mbind option_bind].
  unfold time_iso_day, time_iso_year. rewrite !decide_False by done. cbn [mbind option_bind].
  apply time_of_day_at in H1 as [-> _]; [|done]. cbn [mbind option_bind].
  rewrite decide_False by done. simpl. by apply time_value_valid.
Qed.

Lemma parse_rfc850 :
  1970 <= d_year d < 2070 -> holds mem v (http_date rfc850 wd d h mi s ++ rest) ->
  ngx_parse_http_time mem v (Z.of_nat (length (http_date rfc850 wd d h mi s ++ rest))) =
  seconds d h mi s.
Proof using Hwd Hd Ht.
  intros Hy H. pose proof valid_day as [Hm Hk]. unfold http_date in *. rewrite <- !app_assoc in *.
  destruct (parse_comma _ _ H eq_refl) as (H1 & Hl & ->).
  { rewrite !length_app, month_name_length by lia. simpl. lia. }
  eapply (time_day_at _ _ _ ($ "-")) in H1 as [-> H1]; [|lia|by right].
  cbn [mbind option_bind Z.eqb Pos.eqb].
  apply month_at in H1 as [-> H1]; [|done]. cbn [mbind option_bind].
  apply holds_cons in H1 as [-> H1]. simpl (_ || _). cbn [time_year].
  pose proof (Z.div_mod (d_year d) 100). pose proof (Z.mod_pos_bound (d_year d) 100).
  apply digits2_at in H1 as [-> H1]; [|lia]. cbn [mbind option_bind].
  unfold time_iso_day, time_iso_year. rewrite !decide_False by done. cbn [mbind option_bind].
  apply time_of_day_at in H1 as [-> _]; [|done]. cbn [mbind option_bind].
  rewrite decide_False by done. simpl.
  replace (d_year d `mod` 100 + _) with (d_year d) by (case_match; lia).
  apply time_value_valid; [done|lia|done].
Qed.

Lemma iso_day_at p k r end_ :
  holds mem p ((if k <? 10 then [$ " "; 48 + k] else dec2 k) ++ $ " " :: r) -> 1 <= k <= 31 ->
  14 <= end_ - (p + 2) ->
  time_iso_day mem isoc 32 p end_ = Some (k, p + 2) /\ holds mem (p + 2) ($ " " :: r).
Proof using Type.
  intros H Hk Hl. unfold time_iso_day. rewrite decide_True by done.
  destruct (Z.ltb_spec k 10); cbn [app dec2] in H.
  - apply holds_cons in H as [-> H]. cbn [Z.eqb Pos.eqb].
    apply digit_at in H as [-> H]; [|lia]. cbn [mbind option_bind].
    rewrite <- Z.add_assoc in *. pose proof H as [-> _]%holds_cons. simpl.
    by rewrite (proj2 (Z.ltb_ge _ _)) by lia.
  - pose proof (Z.div_mod k 10 ltac:(lia)). pose proof (Z.mod_pos_bound k 10 ltac:(lia)).
    pose proof H as [-> _]%holds_cons. rewrite (proj2 (Z.eqb_neq (48 + k / 10) 32)) by lia.
    apply digit_at in H as [-> H]; [|lia]. cbn [mbind option_bind].
    pose proof H as [-> _]%holds_cons. rewrite (proj2 (Z.eqb_neq (48 + k `mod` 10) 32)) by lia.
    apply digit_at in H as [-> H]; [|lia]. cbn [mbind option_bind].
    rewrite <- Z.add_assoc in *. cbn [Z.add Pos.add] in *.
    rewrite (proj2 (Z.ltb_ge _ _)) by lia. split; [|done]. do 2 f_equal. lia.
Qed.

Lemma month_name_head m r : 1 <= m <= 12 -> exists c l, month_name m ++ r = c :: l /\ c <> $ " ".
Proof using Type. intros H. each_month m H; by eexists _, _. Qed.

Lemma parse_isoc :
  1 <= d_year d <= 9999 -> holds mem v (http_date isoc wd d h mi s ++ rest) ->
  ngx_parse_http_time mem v (Z.of_nat (length (http_date isoc wd d h mi s ++ rest))) =
  seconds d h mi s.
Proof using Hwd Hd Ht.
  intros Hy H. pose proof valid_day as [Hm Hk].
  assert (Z.of_nat (length (http_date isoc wd d h mi s ++ rest)) =
    21 + Z.of_nat (length wd) + Z.of_nat (length rest)) as Hl.
  { unfold http_date. rewrite !length_app, month_name_length by lia.
    destruct (d_day d <? 10); simpl; lia. }
  rewrite Hl. unfold http_date in H. rewrite <- !app_assoc in H. unfold ngx_parse_http_time.
  set (e := v + _).
  eapply separator_at with (n := Z.to_nat (e - v)) in H as [-> H]; [|done|by right|unfold e; lia].
  cbn [Z.eqb Pos.eqb]. cbn [app] in H.
  assert (skip_spaces mem (Z.to_nat (e - (v + Z.of_nat (length wd) + 1)))
    (v + Z.of_nat (length wd) + 1) = v + Z.of_nat (length wd) + 1) as ->.
  { destruct (month_name_head (d_mon d) ([32] ++ (if d_day d <? 10 then [32; 48 + d_day d] else dec2 (d_day d)) ++
      [32] ++ hms h mi s ++ [32] ++ dec4 (d_year d) ++ rest) Hm) as (c & l & E & Hc).
    eapply (skip_none _ _ _ c l); [|done]. by rewrite <- E. }
  rewrite (proj2 (Z.ltb_ge _ _)) by (unfold e; lia).
  unfold time_day. rewrite decide_True by done. cbn [mbind option_bind].
  apply month_at in H as [-> H]; [|done]. cbn [mbind option_bind].
  rewrite !bool_decide_eq_false_2 by done. cbn [orb andb time_year mbind option_bind].
  apply holds_cons in H as [_ H].
  eapply iso_day_at in H as [-> H]; [|lia|unfold e; lia]. cbn [mbind option_bind].
  apply time_of_day_at in H as [-> H]; [|done]. cbn [mbind option_bind].
  unfold time_iso_year. rewrite decide_True by done.
  replace (_ + 7 + 2) with (v + Z.of_nat (length wd) + 1 + 3 + 1 + 2 + 9) by lia.
  apply expect_at in H as [-> H]. cbn [mbind option_bind].
  apply digits4_at in H as [-> _]; [|lia]. simpl. by apply time_value_valid.
Qed.
End Accepts.

Lemma parse_http_time_date mem v fmt wd d h mi s rest :
  expressible fmt (d_year d) -> day_name wd -> valid_date d -> clock h mi s ->
  holds mem v (http_date fmt wd d h mi s ++ rest) ->
  ngx_parse_http_time mem v (Z.of_nat (length (http_date fmt wd d h mi s ++ rest))) =
  seconds d h mi s.
Proof.
  intros He Hwd Hd Ht H. destruct fmt; simpl in He; [done|..].
  - by apply parse_rfc822.
  - by apply parse_rfc850.
  - by apply parse_isoc.
Qed.

(** A date in one of the formats RFC 1123, RFC 850 and asctime, with any name
    of the day and anything after it, is read as the seconds from 1970. *)
Theorem parse_http_time_accepts mem v fmt wd d h mi s rest :
  expressible fmt (d_year d) -> day_name wd -> valid_date d -> clock h mi s ->
  holds mem v (http_date fmt wd d h mi s ++ rest) ->
  ngx_parse_http_time mem v (Z.of_nat (length (http_date fmt wd d h mi s ++ rest))) =
  seconds d h mi s.
Proof. apply parse_http_time_date. Qed.

Definition sample_date : list Z := bytes "Sunday, 06-Nov-94 08:49:37 GMT".

Lemma parse_http_time_accepts_witness :
  let d := Date 1994 11 6 in
  let l := http_date rfc850 (bytes "Sunday") d 8 49 37 ++ bytes " GMT" in
  l = sample_date /\
  ngx_parse_http_time (load 64 sample_date) 64 (Z.of_nat (length l)) = seconds d 8 49 37.
Proof.
  split; [vm_compute; reflexivity|].
  apply (parse_http_time_accepts (load 64 sample_date) 64 rfc850 (bytes "Sunday") (Date 1994 11 6)
    8 49 37 (bytes " GMT")).
  - by_decide.
  - unfold day_name. by_decide.
  - by_decide.
  - by_decide.
  - apply holds_load.
Defined.

(** ** What is accepted, and what is read *)




(** *** The texts that the parser takes

    It does not look at the letters that do not tell the months apart, nor at the
    name of the day, and, in the format of asctime, nor at the byte behind the
    month. *)





Section Texts.
Context (mem : memory).



















End Texts.




(** Day 0 of a month is taken for the last day of the month before it, and in
    January of the year 0 the year wraps around. *)
Theorem parse_http_time_day_zero :
  parse_string (bytes "Fri, 00 Nov 2002 00:00:00 GMT") =
    parse_string (bytes "Thu, 31 Oct 2002 00:00:00 GMT") /\
  parse_string (bytes "Sat, 01 Jan 0000 00:00:00 GMT") <> seconds (Date 0 1 1) 0 0 0.
Proof. split; vm_compute; [reflexivity|discriminate]. Qed.

Section Reads.
Context (mem mem' : memory) (lo hi : Z).
Hypothesis (agree : forall a, lo <= a < hi -> mem a = mem' a).

Lemma separator_reads n p :
  lo <= p -> p + Z.of_nat n <= hi -> time_separator mem n p = time_separator mem' n p.
Proof using agree.
  revert p. induction n as [|n IH]; intros p Hl Hh; [done|]. cbn [time_separator].
  rewrite agree, IH by lia. done.
Qed.

Lemma separator_pos n p : p <= (time_separator mem' n p).2 <= p + Z.of_nat n.
Proof using Type.
  revert p. induction n as [|n IH]; intros p; cbn [time_separator]; [simpl; lia|].
  specialize (IH (p + 1)). repeat case_match; simpl; lia.
Qed.

Lemma skip_reads n p :
  lo <= p -> p + Z.of_nat n <= hi -> skip_spaces mem n p = skip_spaces mem' n p.
Proof using agree.
  revert p. induction n as [|n IH]; intros p Hl Hh; [done|]. cbn [skip_spaces].
  rewrite agree, IH by lia. done.
Qed.

Lemma skip_pos n p : p <= skip_spaces mem' n p.
Proof using Type.
  revert p. induction n as [|n IH]; intros p; cbn [skip_spaces]; [lia|].
  specialize (IH (p + 1)). case_match; lia.
Qed.

Lemma digits2_reads p : lo <= p -> p + 2 <= hi -> digits2 mem p = digits2 mem' p.
Proof using agree. intros. unfold digits2, digit. by rewrite !agree by lia. Qed.

Lemma digits4_reads p : lo <= p -> p + 4 <= hi -> digits4 mem p = digits4 mem' p.
Proof using agree. intros. unfold digits4, digit. by rewrite !agree by lia. Qed.

Lemma time_day_reads fmt p e :
  lo <= p -> p + 3 <= hi -> time_day mem fmt p e = time_day mem' fmt p e.
Proof using agree.
  intros. unfold time_day. rewrite digits2_reads by lia. case_decide; [done|].
  destruct (digits2 mem' p); [|done]. cbn [mbind option_bind]. by rewrite agree by lia.
Qed.

Lemma time_day_pos fmt p e d fmt' q :
  time_day mem' fmt p e = Some (d, fmt', q) ->
  (fmt' = isoc /\ q = p) \/ (fmt' = rfc822 /\ q = p + 3 /\ 18 <= e - (p + 2)) \/
  (fmt' = rfc850 /\ q = p + 3).
Proof using Type.
  unfold time_day. case_decide; [intros; simplify_eq; auto|].
  destruct (digits2 mem' p); [|done]. cbn [mbind option_bind].
  destruct (mem' (p + 2) =? 32).
  - destruct (Z.ltb_spec (e - (p + 2)) 18); [done|]. intros; simplify_eq. right. left.
    split_and!; [done|lia|lia].
  - destruct (mem' (p + 2) =? 45); [|done]. intros; simplify_eq. right. right.
    split; [done|lia].
Qed.

Lemma time_month_reads p : lo <= p -> p + 3 <= hi -> time_month mem p = time_month mem' p.
Proof using agree. intros. unfold time_month. by rewrite !agree by lia. Qed.

Definition year_room (fmt : time_fmt) : Z := match fmt with rfc822 => 4 | rfc850 => 2 | _ => 0 end.

Lemma time_year_reads fmt p :
  lo <= p -> p + year_room fmt <= hi -> time_year mem fmt p = time_year mem' fmt p.
Proof using agree.
  intros ? Hr. destruct fmt; simpl in *; [done|..|done];
    by rewrite ?digits4_reads, ?digits2_reads by lia.
Qed.

Lemma time_year_pos fmt p y q : time_year mem' fmt p = Some (y, q) -> q = p + year_room fmt.
Proof using Type.
  destruct fmt; simpl; try (intros; simplify_eq; lia).
  - by destruct (digits4 mem' p); intros; simplify_eq/=.
  - by destruct (digits2 mem' p); intros; simplify_eq/=.
Qed.

Lemma time_iso_day_reads fmt d p e :
  lo <= p -> (fmt = isoc -> p + 4 <= hi) ->
  time_iso_day mem fmt d p e = time_iso_day mem' fmt d p e.
Proof using agree.
  intros Hl Hh. unfold time_iso_day. case_decide as E; [|done]. specialize (Hh E).
  rewrite (agree p) by lia. destruct (mem' p =? 32); unfold digit.
  - by rewrite (agree (p + 1)), (agree (p + 1 + 1)) by lia.
  - by rewrite (agree p), (agree (p + 1)) by lia.
Qed.

Lemma time_iso_day_pos fmt d p e d' q :
  time_iso_day mem' fmt d p e = Some (d', q) ->
  p <= q /\ if decide (fmt = isoc) then 14 <= e - q else q = p.
Proof using Type.
  unfold time_iso_day. case_decide; [|intros; simplify_eq; split; [lia|done]].
  set (p' := if _ : bool then _ else p).
  assert (p <= p') by (unfold p'; case_match; lia).
  destruct (digit mem' p'); [|done]. cbn [mbind option_bind].
  destruct (mem' (p' + 1) =? 32); cbn [mbind option_bind].
  - destruct (Z.ltb_spec (e - (p' + 1)) 14); [done|]. intros; simplify_eq. lia.
  - destruct (digit mem' (p' + 1)); [|done]. cbn [mbind option_bind].
    destruct (Z.ltb_spec (e - (p' + 1 + 1)) 14); [done|]. intros; simplify_eq. lia.
Qed.

Lemma expect_reads c p : lo <= p < hi -> expect mem c p = expect mem' c p.
Proof using agree. intros. unfold expect. by rewrite agree by lia. Qed.

Lemma expect_pos c p q : expect mem' c p = Some q -> q = p + 1.
Proof using Type. unfold expect. case_match; intros; by simplify_eq. Qed.

Lemma time_of_day_reads p :
  lo <= p -> p + 9 <= hi -> time_of_day mem p = time_of_day mem' p.
Proof using agree.
  intros Hl Hh. unfold time_of_day. rewrite expect_reads by lia.
  destruct (expect mem' 32 p) as [p1|] eqn:E1; [|done]. apply expect_pos in E1 as ->.
  cbn [mbind option_bind]. rewrite digits2_reads by lia.
  destruct (digits2 mem' _); [|done]. cbn [mbind option_bind]. rewrite expect_reads by lia.
  destruct (expect mem' 58 _) as [p2|] eqn:E2; [|done]. apply expect_pos in E2 as ->.
  cbn [mbind option_bind]. rewrite digits2_reads by lia.
  destruct (digits2 mem' _); [|done]. cbn [mbind option_bind]. rewrite expect_reads by lia.
  destruct (expect mem' 58 _) as [p3|] eqn:E3; [|done]. apply expect_pos in E3 as ->.
  cbn [mbind option_bind]. by rewrite digits2_reads by lia.
Qed.

Lemma time_of_day_pos p h mi s q : time_of_day mem' p = Some (h, mi, s, q) -> q = p + 7.
Proof using Type.
  unfold time_of_day.
  destruct (expect mem' 32 p) as [p1|] eqn:E1; [|done]. apply expect_pos in E1 as ->.
  cbn [mbind option_bind]. destruct (digits2 mem' _); [|done]. cbn [mbind option_bind].
  destruct (expect mem' 58 _) as [p2|] eqn:E2; [|done]. apply expect_pos in E2 as ->.
  cbn [mbind option_bind]. destruct (digits2 mem' _); [|done]. cbn [mbind option_bind].
  destruct (expect mem' 58 _) as [p3|] eqn:E3; [|done]. apply expect_pos in E3 as ->.
  cbn [mbind option_bind]. destruct (digits2 mem' _); [|done]. cbn [mbind option_bind].
  intros; simplify_eq. lia.
Qed.

Lemma time_iso_year_reads fmt y p :
  lo <= p -> (fmt = isoc -> p + 7 <= hi) ->
  time_iso_year mem fmt y p = time_iso_year mem' fmt y p.
Proof using agree.
  intros Hl Hh. unfold time_iso_year. case_decide as E; [|done]. specialize (Hh E).
  rewrite expect_reads by lia.
  destruct (expect mem' 32 _) as [q|] eqn:E1; [|done]. apply expect_pos in E1 as ->.
  cbn [mbind option_bind]. by rewrite digits4_reads by lia.
Qed.

End Reads.

(** The parser reads no byte outside of its argument. *)
Theorem parse_http_time_reads mem mem' v l :
  0 <= l -> (forall a, v <= a < v + l -> mem a = mem' a) ->
  ngx_parse_http_time mem v l = ngx_parse_http_time mem' v l.
Proof.
  intros Hl A. unfold ngx_parse_http_time.
  rewrite (separator_reads mem mem' v (v + l) A) by lia.
  pose proof (separator_pos mem' (Z.to_nat (v + l - v)) v) as Hp.
  destruct (time_separator mem' _ v) as [fmt p]. simpl in Hp.
  assert (skip_spaces mem (Z.to_nat (v + l - (p + 1))) (p + 1) =
          skip_spaces mem' (Z.to_nat (v + l - (p + 1))) (p + 1)) as ->.
  { destruct (Z.le_gt_cases (p + 1) (v + l)).
    - apply (skip_reads mem mem' v (v + l) A); lia.
    - by replace (Z.to_nat (v + l - (p + 1))) with O by lia. }
  pose proof (skip_pos mem' (Z.to_nat (v + l - (p + 1))) (p + 1)) as Hq.
  set (q := skip_spaces _ _ _) in *. clearbody q. f_equal.
  destruct (Z.ltb_spec (v + l - q) 18) as [|Hlen]; [done|].
  rewrite (time_day_reads mem mem' v (v + l) A) by lia.
  destruct (time_day mem' fmt q _) as [[[d fmt'] q1]|] eqn:E1; [|done].
  apply time_day_pos in E1. cbn [mbind option_bind].
  rewrite (time_month_reads mem mem' v (v + l) A) by lia.
  destruct (time_month mem' q1); [|done]. cbn [mbind option_bind].
  rewrite (A (q1 + 3)) by lia. case_match; [done|].
  rewrite (time_year_reads mem mem' v (v + l) A) by
    (first [lia | destruct E1 as [[-> ->]|[(-> & -> & ?)|[-> ->]]]; simpl; lia]).
  destruct (time_year mem' fmt' (q1 + 3 + 1)) as [[y q2]|] eqn:E2; [|done].
  apply time_year_pos in E2 as ->. cbn [mbind option_bind].
  assert (0 <= year_room fmt') by (by destruct fmt').
  rewrite (time_iso_day_reads mem mem' v (v + l) A) by
    (first [lia | intros ->; destruct E1 as [[_ ->]|[(? & -> & ?)|[? ->]]]; simpl; done || lia]).
  destruct (time_iso_day mem' fmt' _ _ _) as [[d' q3]|] eqn:E3; [|done].
  apply time_iso_day_pos in E3. cbn [mbind option_bind].
  assert (q3 + 9 <= v + l /\ (fmt' = isoc -> q3 + 14 <= v + l)) as [H9 H14].
  { destruct E1 as [[-> ->]|[(-> & -> & ?)|[-> ->]]]; simpl in E3; (split; [lia|]);
      try (intros ?; done); lia. }
  rewrite (time_of_day_reads mem mem' v (v + l) A) by lia.
  destruct (time_of_day mem' q3) as [[[[h mi] s] q4]|] eqn:E4; [|done].
  apply time_of_day_pos in E4 as ->. cbn [mbind option_bind].
  rewrite (time_iso_year_reads mem mem' v (v + l) A) by (first [lia | intros E; specialize (H14 E); lia]).
  done.
Qed.

Lemma parse_http_time_reads_witness :
  ngx_parse_http_time (load 64 sample_date) 64 30 =
  ngx_parse_http_time (fun a => if a =? 94 then 7 else load 64 sample_date a) 64 30.
Proof.
  apply parse_http_time_reads; [lia|]. intros a Ha.
  by rewrite (proj2 (Z.eqb_neq a 94)) by lia.
Defined.
