(* ===== verification/NgxHttpTime.v ===== *)
(** * NgxHttpTime: printing a moment and reading it back

    The dates that [ngx_http_time] and [ngx_http_cookie_time] print through the
    format interpreter are those that [ngx_parse_http_time] reads. *)

From S2P Require Import Prelude NgxNumber NgxSprintf NgxTimes NgxParseTime.

(** ** Printing a moment *)

(** A run of the interpreter, literal by literal and directive by directive. *)
Lemma run_end args room : vslprintf_loop 0 [] args room = Some [].
Proof. done. Qed.

Lemma run_put c fmt args room out :
  0 < room -> c <> $ "%" -> vslprintf_loop 0 fmt args (room - 1) = Some out ->
  vslprintf_loop 0 (c :: fmt) args room = Some (c :: out).
Proof.
  intros Hr Hc Ho. cbn [vslprintf_loop]. rewrite (proj2 (Z.ltb_lt _ _)) by done.
  rewrite (proj2 (Z.eqb_neq _ _)) by done. cbn [negb]. unfold then_, put. cbn [mbind option_bind length].
  change (Z.of_nat 1) with 1. by rewrite Ho.
Qed.

Lemma loop_skip k fmt args room :
  vslprintf_loop k fmt args room = vslprintf_loop 0 (drop k fmt) args room.
Proof.
  revert k. induction fmt as [|c fmt IH]; intros [|k]; try done.
  cbn [drop]. rewrite <- IH. done.
Qed.

Lemma run_directive fmt rest args w args' o room out :
  0 < room -> fmt_directive fmt args = Some (w, rest, args') ->
  drop (length fmt - length rest) fmt = rest -> w room = Some o ->
  vslprintf_loop 0 rest args' (room - Z.of_nat (length o)) = Some out ->
  vslprintf_loop 0 ($ "%" :: fmt) args room = Some (o ++ out).
Proof.
  intros Hr Hd Hrest Hw Ho. cbn [vslprintf_loop]. rewrite (proj2 (Z.ltb_lt _ _)) by done.
  cbn [negb Z.eqb Pos.eqb]. rewrite Hd. cbn [mbind option_bind]. unfold then_. rewrite Hw.
  cbn [mbind option_bind]. by rewrite loop_skip, Hrest, Ho.
Qed.

Lemma cstr_all p room :
  Forall (fun c => c <> 0) p -> Z.of_nat (length p) <= room -> copy_cstr p room = Some p.
Proof.
  unfold copy_cstr. intros Hp Hl. f_equal. revert room Hl.
  induction Hp as [|c p Hc Hp IH]; intros room Hl; simpl in *; [done|].
  rewrite (proj2 (Z.eqb_neq _ _)), (proj2 (Z.ltb_lt _ _)) by lia. simpl. f_equal. apply IH. lia.
Qed.

Definition digits_ok (n : Z) : bool :=
  bool_decide (num_digits n 0 =
    Some (if n <? 10 then [48 + n] else if n <? 100 then dec2 n
          else if n <? 1000 then (48 + n / 100) :: dec2 (n `mod` 100) else dec4 n)).

Lemma digits_checked : forallb digits_ok (seqZ 0 10000) = true.
Proof. vm_compute. reflexivity. Qed.

Lemma digits_eq n :
  0 <= n <= 9999 -> num_digits n 0 =
    Some (if n <? 10 then [48 + n] else if n <? 100 then dec2 n
          else if n <? 1000 then (48 + n / 100) :: dec2 (n `mod` 100) else dec4 n).
Proof.
  intros Hn. pose proof digits_checked as H. rewrite forallb_forall in H.
  specialize (H n ltac:(apply list_elem_of_In, elem_of_seqZ; lia)).
  unfold digits_ok in H. by apply bool_decide_eq_true in H.
Qed.

(** [%02d] and [%4d]. *)
Lemma print_02d n room :
  0 <= n < 100 -> 2 <= room -> num n ($ "0") 0 2 room = Some (dec2 n).
Proof.
  intros Hn Hr. unfold num, ngx_sprintf_num. rewrite digits_eq by lia. cbn [mbind option_bind].
  destruct (Z.ltb_spec n 10); [|rewrite (proj2 (Z.ltb_lt n 100)) by lia]; cbn [length dec2].
  - replace (Z.to_nat (Z.min (2 - Z.of_nat 1) room)) with 1%nat by lia.
    cbn [replicate app length].
    rewrite (proj2 (Z.ltb_ge (room - Z.of_nat 1) (Z.of_nat 1))) by lia. cbn. unfold dec2.
    rewrite Z.div_small, Z.mod_small by lia. done.
  - replace (Z.to_nat (Z.min (2 - Z.of_nat 2) room)) with 0%nat by lia.
    cbn [replicate app length].
    by rewrite (proj2 (Z.ltb_ge (room - Z.of_nat 0) (Z.of_nat 2))) by lia.
Qed.

Lemma print_4d n room :
  1000 <= n <= 9999 -> 4 <= room -> num n ($ " ") 0 4 room = Some (dec4 n).
Proof.
  intros Hn Hr. unfold num, ngx_sprintf_num. rewrite digits_eq by lia. cbn [mbind option_bind].
  rewrite !(proj2 (Z.ltb_ge n _)) by lia.
  change (length (dec4 n)) with 4%nat.
  replace (Z.to_nat (Z.min (4 - Z.of_nat 4) room)) with 0%nat by lia.
  cbn [replicate app length].
  by rewrite (proj2 (Z.ltb_ge (room - Z.of_nat 0) (Z.of_nat 4))) by lia.
Qed.

(** A non-negative [int] argument is printed as it is. *)
Lemma finish_02d n room :
  0 <= n < 100 -> 2 <= room ->
  fmt_finish (Conv ($ "0") 2 true 0 false 0 SIZE_MAX) (s32 n) 0 room = Some (dec2 n).
Proof.
  intros Hn Hr. rewrite s32_small by lia. unfold fmt_finish. cbn [sign zero hexa width].
  rewrite (proj2 (Z.ltb_ge n 0)) by lia. by apply print_02d.
Qed.

Lemma finish_4d n room :
  1000 <= n <= 9999 -> 4 <= room ->
  fmt_finish (Conv ($ " ") 4 true 0 false 0 SIZE_MAX) (s32 n) 0 room = Some (dec4 n).
Proof.
  intros Hn Hr. rewrite s32_small by lia. unfold fmt_finish. cbn [sign zero hexa width].
  rewrite (proj2 (Z.ltb_ge n 0)) by lia. by apply print_4d.
Qed.

Ltac run_step :=
  lazymatch goal with
  | |- vslprintf_loop _ [] _ _ = _ => apply run_end
  | |- vslprintf_loop _ (37 :: _) _ _ = _ => eapply run_directive; [lia|reflexivity|reflexivity|..]
  | |- vslprintf_loop _ (_ :: _) _ _ = _ => apply run_put; [lia|discriminate|]
  | |- (if _ then copy_cstr _ else _) _ = _ => apply cstr_all; [done|lia]
  | |- fmt_finish _ _ _ _ = Some (dec2 _) => apply finish_02d; lia
  | |- fmt_finish _ _ _ _ = Some (dec4 _) => apply finish_4d; lia
  end;
  repeat match goal with
  | |- context [length (dec2 ?n)] => change (length (dec2 n)) with 2%nat
  | |- context [length (dec4 ?n)] => change (length (dec4 n)) with 4%nat
  end; cbn [app].

Lemma week_name_ok i : 0 <= i < 7 ->
  let w := nth (Z.to_nat i) week [] in
  length w = 3%nat /\ Forall (fun c => c <> 0) w /\ day_name w.
Proof.
  intros Hi. assert (i = 0 \/ i = 1 \/ i = 2 \/ i = 3 \/ i = 4 \/ i = 5 \/ i = 6)
    as [-> | [-> | [-> | [-> | [-> | [-> | ->]]]]]] by lia;
    (split; [done|split; [by_decide|unfold day_name; by_decide]]).
Qed.

Lemma month_name_ok m : 1 <= m <= 12 ->
  length (month_name m) = 3%nat /\ Forall (fun c => c <> 0) (month_name m).
Proof. intros H. each_month m H; (split; [done|by_decide]). Qed.

Definition GMT : list Z := bytes " GMT".

Lemma sprintf_http_time buf wd d h mi s :
  0 <= buf < 2 ^ 63 -> length wd = 3%nat -> Forall (fun c => c <> 0) wd ->
  valid_date d -> 1000 <= d_year d <= 9999 -> clock h mi s ->
  ngx_sprintf buf (bytes "%s, %02d %s %4d %02d:%02d:%02d GMT")
    [Astr wd; Aint (d_day d); Astr (month_name (d_mon d)); Aint (d_year d); Aint h; Aint mi; Aint s]
  = Some (http_date rfc822 wd d h mi s ++ GMT).
Proof.
  intros Hb Hwd Hw0 [Hm Hk] Hy (Hh & Hmi & Hs).
  pose proof (month_days_range (d_year d) (d_mon d) Hm).
  destruct (month_name_ok (d_mon d) Hm) as [Hml Hm0].
  unfold ngx_sprintf, ngx_vslprintf, http_date, hms. rewrite <- !app_assoc.
  set (fmt := bytes "%s, %02d %s %4d %02d:%02d:%02d GMT"). vm_compute in fmt. subst fmt.
  assert (2 ^ 63 - 1 <= 2 ^ 64 - 1 - buf) as Hr by lia.
  generalize dependent (2 ^ 64 - 1 - buf). intros room Hr.
  repeat run_step.
Qed.

Lemma sprintf_cookie_time buf wd d h mi s :
  0 <= buf < 2 ^ 63 -> length wd = 3%nat -> Forall (fun c => c <> 0) wd ->
  valid_date d -> 1 <= d_year d <= 9999 -> clock h mi s ->
  ngx_sprintf buf (bytes "%s, %02d-%s-%02d %02d:%02d:%02d GMT")
    [Astr wd; Aint (d_day d); Astr (month_name (d_mon d)); Aint (d_year d `mod` 100);
     Aint h; Aint mi; Aint s]
  = Some (http_date rfc850 wd d h mi s ++ GMT).
Proof.
  intros Hb Hwd Hw0 [Hm Hk] Hy (Hh & Hmi & Hs).
  pose proof (month_days_range (d_year d) (d_mon d) Hm).
  destruct (month_name_ok (d_mon d) Hm) as [Hml Hm0].
  pose proof (Z.mod_pos_bound (d_year d) 100 ltac:(lia)).
  unfold ngx_sprintf, ngx_vslprintf, http_date, hms. rewrite <- !app_assoc.
  set (fmt := bytes "%s, %02d-%s-%02d %02d:%02d:%02d GMT"). vm_compute in fmt. subst fmt.
  assert (2 ^ 63 - 1 <= 2 ^ 64 - 1 - buf) as Hr by lia.
  generalize dependent (2 ^ 64 - 1 - buf). intros room Hr.
  repeat run_step.
Qed.

(** ** Round trips *)

(** 1 January comes 306 days after the 1 March before it. *)
Lemma day_number_january d : valid_date d -> march (d_year d - 1) + 306 <= day_number d + 719468.
Proof.
  intros Hv. pose proof (march_date_range d Hv) as H. unfold day_number, march_date in *.
  destruct Hv as [Hm Hk]. pose proof (march_step (d_year d - 1)) as Hs. rewrite Z.sub_add in Hs.
  destruct (Z.leb_spec (d_mon d) 2).
  - assert (306 <= month_start (d_mon d + 10)); [|lia].
    assert (d_mon d = 1 \/ d_mon d = 2) as [-> | ->] by lia; vm_compute; discriminate.
  - destruct H as (_ & _ & Hr & _). destruct (leap (d_year d)); simpl in Hs; lia.
Qed.

(** The last year of a date before 1 January of year [y + 1]. *)
Lemma date_of_year_le n y :
  0 <= y -> Z.of_nat n + 719468 < march y + 306 -> d_year (date_of n) <= y.
Proof.
  intros Hy Hn. destruct (date_of_spec n) as [Hv Hd].
  pose proof (day_number_january _ Hv). destruct (Z.le_gt_cases (d_year (date_of n)) y); [done|].
  pose proof (march_mono y (d_year (date_of n) - 1) ltac:(lia)). lia.
Qed.

(** The moment of a second, and back. *)
Lemma moment_of t :
  0 <= t ->
  let d := date_of (Z.to_nat (t / 86400)) in
  valid_date d /\ clock ((t / 3600) `mod` 24) ((t / 60) `mod` 60) (t `mod` 60) /\
  seconds d ((t / 3600) `mod` 24) ((t / 60) `mod` 60) (t `mod` 60) = t.
Proof.
  intros Ht d. destruct (date_of_spec (Z.to_nat (t / 86400))) as [Hv Hn]. fold d in Hv, Hn.
  assert (0 <= t / 86400) by (apply Z.div_pos; lia).
  pose proof (Z.mod_pos_bound (t / 3600) 24 ltac:(lia)).
  pose proof (Z.mod_pos_bound (t / 60) 60 ltac:(lia)). pose proof (Z.mod_pos_bound t 60 ltac:(lia)).
  split; [done|]. split; [unfold clock; lia|].
  unfold seconds. rewrite Hn, Z2Nat.id by done.
  pose proof (Z.div_mod t 60 ltac:(lia)). pose proof (Z.div_mod (t / 60) 60 ltac:(lia)) as Hd1.
  pose proof (Z.div_mod (t / 3600) 24 ltac:(lia)) as Hd2.
  rewrite Z.div_div in Hd1, Hd2 by lia. change (60 * 60) with 3600 in Hd1.
  change (3600 * 24) with 86400 in Hd2. lia.
Qed.

(** C34. [ngx_http_time] prints the moment of [t] in RFC 1123 format, in 29 bytes,
    and [ngx_parse_http_time] reads [t] from it, for every second of the years
    1970 to 9999. *)
Theorem http_time_roundtrip buf t :
  0 <= buf < 2 ^ 63 -> 0 <= t < 253402300800 ->
  exists l, ngx_http_time buf t = Some l /\ length l = 29%nat /\
    forall mem v, holds mem v l -> ngx_parse_http_time mem v 29 = t.
Proof.
  intros Hb Ht. destruct (moment_of t) as (Hv & Hc & Hs); [lia|].
  set (d := date_of (Z.to_nat (t / 86400))) in *.
  assert (0 <= t / 86400 < 2932897) as Hn.
  { split; [apply Z.div_pos; lia|apply Z.div_lt_upper_bound; lia]. }
  assert (1970 <= d_year d <= 9999) as Hy.
  { split; [apply date_of_year|]. apply date_of_year_le; [lia|].
    change (march 9999 + 306) with 3652365. lia. }
  unfold ngx_http_time. rewrite gmtime_calendar by lia. fold d.
  cbn [tm_wday tm_mday tm_mon tm_year tm_hour tm_min tm_sec].
  pose proof (Z.mod_pos_bound (t / 86400 + 4) 7 ltac:(lia)) as Hw.
  destruct (week_name_ok _ Hw) as (Hwl & Hw0 & Hwd).
  unfold str_at. fold (month_name (d_mon d)). set (wd := nth _ week []) in *.
  rewrite (sprintf_http_time buf wd) by (done || lia).
  eexists. split; [done|].
  assert (length (http_date rfc822 wd d ((t / 3600) `mod` 24) ((t / 60) `mod` 60) (t `mod` 60) ++ GMT)
    = 29%nat) as Hl.
  { unfold http_date. rewrite !length_app, month_name_length, Hwl by apply Hv. done. }
  split; [done|]. intros mem v Hh. rewrite <- Hs at 1.
  change 29 with (Z.of_nat 29). rewrite <- Hl.
  apply parse_http_time_date; [simpl; lia|done..].
Qed.

Lemma http_time_roundtrip_witness :
  exists l, ngx_http_time 4096 784111777 = Some l /\ length l = 29%nat /\
    forall mem v, holds mem v l -> ngx_parse_http_time mem v 29 = 784111777.
Proof. apply (http_time_roundtrip 4096 784111777); lia. Defined.

(** The same for [ngx_http_cookie_time], until the end of the year 2037: from
    then on it prints four digits of the year, which the RFC 850 format that
    it imitates does not allow. *)
Theorem cookie_time_roundtrip buf t :
  0 <= buf < 2 ^ 63 -> 0 <= t < 2145916800 ->
  exists l, ngx_http_cookie_time buf t = Some l /\ length l = 27%nat /\
    forall mem v, holds mem v l -> ngx_parse_http_time mem v 27 = t.
Proof.
  intros Hb Ht. destruct (moment_of t) as (Hv & Hc & Hs); [lia|].
  set (d := date_of (Z.to_nat (t / 86400))) in *.
  assert (0 <= t / 86400 < 24837) as Hn.
  { split; [apply Z.div_pos; lia|apply Z.div_lt_upper_bound; lia]. }
  assert (1970 <= d_year d <= 2037) as Hy.
  { split; [apply date_of_year|]. apply date_of_year_le; [lia|].
    change (march 2037 + 306) with 744305. lia. }
  unfold ngx_http_cookie_time. rewrite gmtime_calendar by lia. fold d.
  cbn [tm_wday tm_mday tm_mon tm_year tm_hour tm_min tm_sec].
  rewrite (proj2 (Z.ltb_ge 2037 (d_year d))), Z.rem_mod_nonneg by lia.
  pose proof (Z.mod_pos_bound (t / 86400 + 4) 7 ltac:(lia)) as Hw.
  destruct (week_name_ok _ Hw) as (Hwl & Hw0 & Hwd).
  unfold str_at. fold (month_name (d_mon d)). set (wd := nth _ week []) in *.
  rewrite (sprintf_cookie_time buf wd) by (done || lia).
  eexists. split; [done|].
  assert (length (http_date rfc850 wd d ((t / 3600) `mod` 24) ((t / 60) `mod` 60) (t `mod` 60) ++ GMT)
    = 27%nat) as Hl.
  { unfold http_date. rewrite !length_app, month_name_length, Hwl by apply Hv. done. }
  split; [done|]. intros mem v Hh. rewrite <- Hs at 1.
  change 27 with (Z.of_nat 27). rewrite <- Hl.
  apply parse_http_time_date; [simpl; lia|done..].
Qed.

Lemma cookie_time_roundtrip_witness :
  exists l, ngx_http_cookie_time 4096 784111777 = Some l /\ length l = 27%nat /\
    forall mem v, holds mem v l -> ngx_parse_http_time mem v 27 = 784111777.
Proof. apply (cookie_time_roundtrip 4096 784111777); lia. Defined.

Example cookie_time_2038 :
  ngx_http_cookie_time 4096 2145916800 = Some (bytes "Fri, 01-Jan-2038 00:00:00 GMT") /\
  parse_string (bytes "Fri, 01-Jan-2038 00:00:00 GMT") = NGX_ERROR.
Proof. split; vm_compute; reflexivity. Qed.

