(* ===== verification/HttpUri.v ===== *)
(** * HttpUri: [ngx_http_parse_uri] and [ngx_http_parse_complex_uri]

    The two passes of src/http/ngx_http_parse.c over the URI of a request.
    The first classifies it (does it need normalisation?); the second decodes
    and normalises it into a new buffer. *)

From S2P Require Import Prelude Scan HttpRequest NgxNumber.

(** ** [ngx_http_parse_uri] *)

(* http/ngx_http_parse.c:1107-1112 ngx_http_parse_uri: enum state *)
Inductive pu_state : Type :=
  | pu_start
  | pu_after_slash_in_uri
  | pu_check_uri
  | pu_uri.

Definition pu_local : Type := pu_state * request.
(** The only exit is [return NGX_ERROR]. *)
Definition pu_ctl : Type := ctl unit pu_local.

Section parse_uri_states.
Variables (p ch : Z) (r : request).

(* http/ngx_http_parse.c:1122-1129 ngx_http_parse_uri: case sw_start *)
Definition pu_on_start : pu_ctl :=
  if negb (ch =? $ "/") then Leave () (pu_start, r) p
  else Next (pu_after_slash_in_uri, r) p.

(* http/ngx_http_parse.c:1132-1177 ngx_http_parse_uri: case sw_after_slash_in_uri *)
Definition pu_on_after_slash : pu_ctl :=
  if is_usual ch then Next (pu_check_uri, r) p
  else if ch =? $ " " then Next (pu_check_uri, set_space_in_uri true r) p
  else if ch =? $ "." then Next (pu_uri, set_complex_uri true r) p
  else if ch =? $ "%" then Next (pu_uri, set_quoted_uri true r) p
  else if ch =? $ "/" then Next (pu_uri, set_complex_uri true r) p
  else if ch =? $ "?" then Next (pu_uri, set_args_start (p + 1) r) p
  else if ch =? $ "#" then Next (pu_uri, set_complex_uri true r) p
  else if ch =? $ "+" then Next (pu_after_slash_in_uri, set_plus_in_uri true r) p
  else Next (pu_check_uri, r) p.

(* http/ngx_http_parse.c:1180-1225 ngx_http_parse_uri: case sw_check_uri *)
Definition pu_on_check_uri : pu_ctl :=
  if is_usual ch then Next (pu_check_uri, r) p
  else if ch =? $ "/" then Next (pu_after_slash_in_uri, set_uri_ext NULL r) p
  else if ch =? $ "." then Next (pu_check_uri, set_uri_ext (p + 1) r) p
  else if ch =? $ " " then Next (pu_check_uri, set_space_in_uri true r) p
  else if ch =? $ "%" then Next (pu_uri, set_quoted_uri true r) p
  else if ch =? $ "?" then Next (pu_uri, set_args_start (p + 1) r) p
  else if ch =? $ "#" then Next (pu_uri, set_complex_uri true r) p
  else if ch =? $ "+" then Next (pu_check_uri, set_plus_in_uri true r) p
  else Next (pu_check_uri, r) p.

(* http/ngx_http_parse.c:1229-1242 ngx_http_parse_uri: case sw_uri *)
Definition pu_on_uri : pu_ctl :=
  if is_usual ch then Next (pu_uri, r) p
  else if ch =? $ " " then Next (pu_uri, set_space_in_uri true r) p
  else if ch =? $ "#" then Next (pu_uri, set_complex_uri true r) p
  else Next (pu_uri, r) p.
End parse_uri_states.

(* http/ngx_http_parse.c:1116-1121 ngx_http_parse_uri: switch (state) *)
Definition pu_step (mem : memory) (l : pu_local) (p : Z) : pu_ctl :=
  let '(s, r) := l in
  let ch := mem p in
  match s with
  | pu_start => pu_on_start p ch r
  | pu_after_slash_in_uri => pu_on_after_slash p ch r
  | pu_check_uri => pu_on_check_uri p ch r
  | pu_uri => pu_on_uri p ch r
  end.

(** The loop test [p != r->uri_end] is [p < r->uri_end] for a URI whose start
    does not exceed its end; [None] stands for the other case. *)
(* http/ngx_http_parse.c:1103-1248 ngx_http_parse_uri *)
Definition ngx_http_parse_uri (mem : memory) (r : request) : option (Z * request) :=
  if uri_end r <? uri_start r then None
  else
    o ← scan (pu_step mem) (scan_fuel 0 (uri_end r) (uri_start r)) (uri_end r)
          (pu_start, r) (uri_start r);
    Some (match o with
          | Fell (_, r) _ => (NGX_OK, r)
          | Left _ (_, r) _ => (NGX_ERROR, r)
          end).

(** ** [ngx_http_parse_complex_uri] *)

(* http/ngx_http_parse.c:1255-1262 ngx_http_parse_complex_uri: enum state *)
Inductive cu_state : Type :=
  | sw_usual
  | sw_slash
  | sw_dot
  | sw_dot_dot
  | sw_quoted
  | sw_quoted_second.

#[export] Instance cu_state_eq_dec : EqDecision cu_state.
Proof. solve_decision. Defined.

(** The local variables.  [cu_out] holds the bytes from [r->uri.data] up to
    [u]; nothing else of that buffer is read. *)
Record cu_local : Type := Cu {
  cu_st : cu_state;
  cu_quoted_state : cu_state;
  cu_decoded : Z;
  cu_ch : Z;
  cu_p : Z;
  cu_out : list Z;
  cu_r : request
}.

(** One turn of the [while] loop: the next turn, [return rc], [goto args],
    [goto done]. *)
Inductive cu_ctl : Type :=
  | CuNext (l : cu_local)
  | CuReturn (rc : Z) (r : request)
  | CuArgs (l : cu_local)
  | CuDone (l : cu_local).

(** The loop of [case sw_dot_dot]: [n] is the number of bytes up to and
    including the one [u] points to. *)
(* http/ngx_http_parse.c:1459-1468 ngx_http_parse_complex_uri: for ( ;; ) *)
Fixpoint cu_back (out : list Z) (n : nat) : option (list Z) :=
  match n with
  | O => None
  | S n => if nth n out 0 =? $ "/" then Some (take (S n) out) else cu_back out n
  end.

Section complex_uri_states.
Variables (mem : memory) (data : Z) (merge_slashes : bool).
Variables (qs : cu_state) (decoded ch p : Z) (out : list Z) (r : request).

(** [state = s; *u++ = ch; ch = *p++] with the output [out]. *)
Definition cu_read (s : cu_state) (out : list Z) (r : request) : cu_ctl :=
  CuNext (Cu s qs decoded (mem p) (p + 1) out r).

(** [quoted_state = state; state = sw_quoted; ch = *p++] *)
Definition cu_quote (s : cu_state) : cu_ctl :=
  CuNext (Cu sw_quoted s decoded (mem p) (p + 1) out r).

Definition cu_args (s : cu_state) : cu_ctl :=
  CuArgs (Cu s qs decoded ch p out (set_args_start p r)).

Definition cu_done (s : cu_state) : cu_ctl := CuDone (Cu s qs decoded ch p out r).

(* http/ngx_http_parse.c:1290-1357 ngx_http_parse_complex_uri: case sw_usual *)
Definition cu_on_usual : cu_ctl :=
  if is_usual ch then cu_read sw_usual (out ++ [ch]) r
  else if ch =? $ "/" then cu_read sw_slash (out ++ [ch]) (set_uri_ext NULL r)
  else if ch =? $ "%" then cu_quote sw_usual
  else if ch =? $ "?" then cu_args sw_usual
  else if ch =? $ "#" then cu_done sw_usual
  else if ch =? $ "." then
    cu_read sw_usual (out ++ [ch]) (set_uri_ext (data + Z.of_nat (length out) + 1) r)
  else if ch =? $ "+" then cu_read sw_usual (out ++ [ch]) (set_plus_in_uri true r)
  else cu_read sw_usual (out ++ [ch]) r.

(* http/ngx_http_parse.c:1359-1400 ngx_http_parse_complex_uri: case sw_slash *)
Definition cu_on_slash : cu_ctl :=
  if is_usual ch then cu_read sw_usual (out ++ [ch]) r
  else if ch =? $ "/" then
    cu_read sw_slash (if negb merge_slashes then out ++ [ch] else out) r
  else if ch =? $ "." then cu_read sw_dot (out ++ [ch]) r
  else if ch =? $ "%" then cu_quote sw_slash
  else if ch =? $ "?" then cu_args sw_slash
  else if ch =? $ "#" then cu_done sw_slash
  else if ch =? $ "+" then cu_read sw_usual (out ++ [ch]) (set_plus_in_uri true r)
  else cu_read sw_usual (out ++ [ch]) r.

(* http/ngx_http_parse.c:1402-1441 ngx_http_parse_complex_uri: case sw_dot *)
Definition cu_on_dot : cu_ctl :=
  if is_usual ch then cu_read sw_usual (out ++ [ch]) r
  else if ch =? $ "/" then cu_read sw_slash (take (length out - 1) out) r
  else if ch =? $ "." then cu_read sw_dot_dot (out ++ [ch]) r
  else if ch =? $ "%" then cu_quote sw_dot
  else if ch =? $ "?" then cu_args sw_dot
  else if ch =? $ "#" then cu_done sw_dot
  else if ch =? $ "+" then cu_read sw_usual (out ++ [ch]) (set_plus_in_uri true r)
  else cu_read sw_usual (out ++ [ch]) r.

(** [u -= 5]: the first byte looked at has index [length out - 5]. *)
(* http/ngx_http_parse.c:1443-1488 ngx_http_parse_complex_uri: case sw_dot_dot *)
Definition cu_on_dot_dot : cu_ctl :=
  if is_usual ch then cu_read sw_usual (out ++ [ch]) r
  else if ch =? $ "/" then
    match cu_back out (length out - 4) with
    | None => CuReturn NGX_HTTP_PARSE_INVALID_REQUEST r
    | Some out => cu_read sw_slash out r
    end
  else if ch =? $ "%" then cu_quote sw_dot_dot
  else if ch =? $ "?" then cu_args sw_dot_dot
  else if ch =? $ "#" then cu_done sw_dot_dot
  else if ch =? $ "+" then cu_read sw_usual (out ++ [ch]) (set_plus_in_uri true r)
  else cu_read sw_usual (out ++ [ch]) r.

(* http/ngx_http_parse.c:1490-1508 ngx_http_parse_complex_uri: case sw_quoted *)
Definition cu_on_quoted : cu_ctl :=
  let r := set_quoted_uri true r in
  if is_digit ch then
    CuNext (Cu sw_quoted_second qs (ch - $ "0") (mem p) (p + 1) out r)
  else
    let c := Z.lor ch 0x20 in
    if ($ "a" <=? c) && (c <=? $ "f") then
      CuNext (Cu sw_quoted_second qs (c - $ "a" + 10) (mem p) (p + 1) out r)
    else CuReturn NGX_HTTP_PARSE_INVALID_REQUEST r.

(* http/ngx_http_parse.c:1510-1546 ngx_http_parse_complex_uri: case sw_quoted_second *)
Definition cu_on_quoted_second : cu_ctl :=
  if is_digit ch then
    let ch := u8 (Z.shiftl decoded 4 + ch - $ "0") in
    if (ch =? $ "%") || (ch =? $ "#") then cu_read sw_usual (out ++ [ch]) r
    else if ch =? 0 then CuReturn NGX_HTTP_PARSE_INVALID_REQUEST r
    else CuNext (Cu qs qs decoded ch p out r)
  else
    let c := Z.lor ch 0x20 in
    if ($ "a" <=? c) && (c <=? $ "f") then
      let ch := u8 (Z.shiftl decoded 4 + c - $ "a" + 10) in
      if ch =? $ "?" then cu_read sw_usual (out ++ [ch]) r
      else if ch =? $ "+" then CuNext (Cu qs qs decoded ch p out (set_plus_in_uri true r))
      else CuNext (Cu qs qs decoded ch p out r)
    else CuReturn NGX_HTTP_PARSE_INVALID_REQUEST r.
End complex_uri_states.

(* http/ngx_http_parse.c:1288-1288 ngx_http_parse_complex_uri: switch (state) *)
Definition cu_step (mem : memory) (data : Z) (merge_slashes : bool) (l : cu_local) : cu_ctl :=
  let '(Cu s qs decoded ch p out r) := l in
  match s with
  | sw_usual => cu_on_usual mem data qs decoded ch p out r
  | sw_slash => cu_on_slash mem merge_slashes qs decoded ch p out r
  | sw_dot => cu_on_dot mem qs decoded ch p out r
  | sw_dot_dot => cu_on_dot_dot mem qs decoded ch p out r
  | sw_quoted => cu_on_quoted mem qs ch p out r
  | sw_quoted_second => cu_on_quoted_second mem qs decoded ch p out r
  end.

(** What the function leaves in [r->uri], [r->exten] (address and length) and
    [r->args]. *)
Record cu_result : Type := CuResult {
  cu_rc : Z;
  cu_req : request;
  cu_uri : list Z;
  cu_exten : option (Z * Z);
  cu_args_str : option (Z * Z)
}.

(** [args:] -- the end of the arguments at a '#'. *)
(* http/ngx_http_parse.c:1565-1575 ngx_http_parse_complex_uri: while (p < r->uri_end) *)
Fixpoint cu_find_hash (n : nat) (mem : memory) (p : Z) : option Z :=
  match n with
  | O => None
  | S n => if mem p =? $ "#" then Some p else cu_find_hash n mem (p + 1)
  end.

(* http/ngx_http_parse.c:1550-1561 ngx_http_parse_complex_uri: done *)
Definition cu_finish (data : Z) (out : list Z) (args : option (Z * Z)) (r : request)
  : cu_result :=
  CuResult NGX_OK (set_uri_ext NULL r) out
    (if uri_ext r =? NULL then None
     else Some (uri_ext r, data + Z.of_nat (length out) - uri_ext r)) args.

(* http/ngx_http_parse.c:1563-1587 ngx_http_parse_complex_uri: args *)
Definition cu_finish_args (mem : memory) (data : Z) (l : cu_local) : cu_result :=
  let r := cu_r l in
  match cu_find_hash (Z.to_nat (uri_end r - cu_p l)) mem (cu_p l) with
  | Some p =>
      cu_finish data (cu_out l) (Some (args_start r, p - args_start r)) (set_args_start NULL r)
  | None => cu_finish data (cu_out l) None r
  end.

(* http/ngx_http_parse.c:1277-1548 ngx_http_parse_complex_uri: while (p <= r->uri_end) *)
Fixpoint cu_loop (fuel : nat) (mem : memory) (data : Z) (merge_slashes : bool) (l : cu_local)
  : option cu_result :=
  match fuel with
  | O => None
  | S fuel =>
      if cu_p l <=? uri_end (cu_r l) then
        match cu_step mem data merge_slashes l with
        | CuNext l => cu_loop fuel mem data merge_slashes l
        | CuReturn rc r => Some (CuResult rc r [] None None)
        | CuArgs l => Some (cu_finish_args mem data l)
        | CuDone l => Some (cu_finish data (cu_out l) None (cu_r l))
        end
      else Some (cu_finish data (cu_out l) None (cu_r l))
  end.

(** Every byte takes one turn, a decoded byte two. *)
Definition cu_fuel (r : request) : nat := (2 * Z.to_nat (uri_end r - uri_start r) + 2)%nat.

(** [data] is [r->uri.data]. *)
(* http/ngx_http_parse.c:1251-1277 ngx_http_parse_complex_uri *)
Definition ngx_http_parse_complex_uri (mem : memory) (data : Z) (merge_slashes : bool)
    (r : request) : option cu_result :=
  let r := set_args_start NULL (set_uri_ext NULL r) in
  cu_loop (cu_fuel r) mem data merge_slashes
    (Cu sw_usual sw_usual 0 (mem (uri_start r)) (uri_start r + 1) [] r).

(** A request whose URI is [l], at address [a]. *)
Definition uri_request (a : Z) (l : list Z) : request :=
  set_uri_end (a + Z.of_nat (length l)) (set_uri_start a fresh_request).

Definition complex_uri_of (merge : bool) (s : string) : option (Z * list Z * option (Z * Z)) :=
  x ← ngx_http_parse_complex_uri (load 1 (bytes s)) 1000 merge (uri_request 1 (bytes s));
  Some (cu_rc x, cu_uri x, cu_exten x).

Example complex_uri_example :
  complex_uri_of true "/a//b/./c%2f../%64.html?x" = Some (NGX_OK, bytes "/a/b/d.html", Some (1007, 4)).
Proof. vm_compute. reflexivity. Qed.

(** ** Running the complex URI parser *)

Ltac cu_unfold :=
  unfold cu_step, cu_on_usual, cu_on_slash, cu_on_dot, cu_on_dot_dot, cu_on_quoted,
    cu_on_quoted_second, cu_read, cu_quote, cu_args, cu_done in *; cbv zeta in *.

(** Splits [H : cu_step mem data merge (Cu s ..) = c] into the branches of the
    handler. *)
Ltac cu_cases H :=
  cu_unfold;
  repeat match type of H with
    | (if ?c then _ else _) = _ => let E := fresh "E" in destruct c eqn:E
    | (match ?c with Some _ => _ | None => _ end) = _ => let E := fresh "E" in destruct c eqn:E
    end;
  simplify_eq/=.

(** [quoted_state] is a state that reads path characters. *)
Definition cu_plain (s : cu_state) : bool :=
  match s with sw_quoted | sw_quoted_second => false | _ => true end.

(** The state that reads the next path character. *)
Definition cu_reader (l : cu_local) : cu_state :=
  if cu_plain (cu_st l) then cu_st l else cu_quoted_state l.

(** What is left to do, counting a decoded byte that is still to be read. *)
Definition cu_measure (l : cu_local) : nat :=
  (2 * Z.to_nat (uri_end (cu_r l) + 1 - cu_p l) +
   (if decide (cu_st l = sw_quoted_second) then 1 else 0))%nat.

Lemma cu_back_length out n out' :
  cu_back out n = Some out' -> (n <= length out)%nat -> (length out' <= n)%nat.
Proof.
  induction n as [|n IH]; simpl; [done|].
  case_match; intros; simplify_eq; [rewrite length_take; lia|].
  specialize (IH ltac:(done) ltac:(lia)). lia.
Qed.

(** The positions of an output: [u] has not overtaken [p], and an extension
    that was recorded ends at [u]. *)
Definition cu_inv (data start : Z) (l : cu_local) : Prop :=
  cu_plain (cu_quoted_state l) = true /\
  uri_start (cu_r l) = start /\
  Z.of_nat (length (cu_out l)) <= cu_p l - 1 - start /\
  (uri_ext (cu_r l) = NULL \/
   (cu_reader l = sw_usual /\
    data < uri_ext (cu_r l) <= data + Z.of_nat (length (cu_out l)))).

Lemma cu_step_next mem data merge start l l' :
  cu_p l <= uri_end (cu_r l) -> cu_inv data start l ->
  cu_step mem data merge l = CuNext l' ->
  cu_inv data start l' /\ (cu_measure l' < cu_measure l)%nat /\
  uri_end (cu_r l') = uri_end (cu_r l) /\ cu_p l <= cu_p l' <= uri_end (cu_r l) + 1.
Proof.
  destruct l as [s qs d ch p out r]. unfold cu_inv, cu_measure, cu_reader.
  intros Hp (Hq & Hs & Hl & He) H. simpl in *.
  assert (Hout : forall out0, cu_back out (length out - 4) = Some out0 ->
    (length out0 <= length out)%nat).
  { intros out0 Hb. apply cu_back_length in Hb; lia. }
  destruct merge, He as [He|[He He']], s; try discriminate He; cu_cases H;
    rewrite ?Hq, ?length_app, ?length_take; simpl; try (specialize (Hout _ eq_refl));
    split_and!; try done; try lia; try (by left); try (by right; split; [done|lia]);
    try (repeat case_decide; subst; try done; lia).
Qed.

(** Leaving the loop: an error, or the same position with the same output. *)
Lemma cu_step_leave mem data merge l :
  match cu_step mem data merge l with
  | CuNext _ => True
  | CuReturn rc _ => rc = NGX_HTTP_PARSE_INVALID_REQUEST
  | CuArgs l' =>
      cu_out l' = cu_out l /\ cu_p l' = cu_p l /\ cu_r l' = set_args_start (cu_p l) (cu_r l)
  | CuDone l' => cu_out l' = cu_out l /\ cu_r l' = cu_r l
  end.
Proof.
  destruct l as [s qs d ch p out r]. destruct (cu_step _ _ _ _) eqn:H; [done|..];
    destruct s; cu_cases H; done.
Qed.

Lemma cu_find_hash_range n mem p q :
  cu_find_hash n mem p = Some q -> p <= q < p + Z.of_nat n /\ mem q = $ "#".
Proof.
  revert p. induction n as [|n IH]; intros p; simpl; [done|].
  destruct (Z.eqb_spec (mem p) 35); [intros; simplify_eq; lia|]. intros H%IH. lia.
Qed.

(** What a result has to satisfy, for a URI in [start, e) and an output buffer
    at [data] with room for [e - start] bytes. *)
Definition cu_result_ok (data start e : Z) (x : cu_result) : Prop :=
  cu_rc x = NGX_HTTP_PARSE_INVALID_REQUEST \/
  (cu_rc x = NGX_OK /\ Z.of_nat (length (cu_uri x)) <= e - start /\
   (forall a n, cu_exten x = Some (a, n) ->
      data < a /\ 0 <= n /\ a + n = data + Z.of_nat (length (cu_uri x))) /\
   (forall a n, cu_args_str x = Some (a, n) -> start < a /\ 0 <= n /\ a + n < e)).

Lemma cu_finish_ok data start e out args r :
  Z.of_nat (length out) <= e - start ->
  (uri_ext r = NULL \/ data < uri_ext r <= data + Z.of_nat (length out)) ->
  (forall a n, args = Some (a, n) -> start < a /\ 0 <= n /\ a + n < e) ->
  cu_result_ok data start e (cu_finish data out args r).
Proof.
  intros Hl He Ha. right. unfold cu_finish. simpl. split_and!; [done|lia| |done].
  intros a n H. destruct (Z.eqb_spec (uri_ext r) NULL); simplify_eq.
  destruct He; [done|lia].
Qed.

Lemma cu_inv_ext data start l :
  cu_inv data start l ->
  uri_ext (cu_r l) = NULL \/
  data < uri_ext (cu_r l) <= data + Z.of_nat (length (cu_out l)).
Proof. intros (_ & _ & _ & [?|[_ ?]]); auto. Qed.

Lemma cu_loop_ok mem data merge start e fuel : forall l,
  cu_inv data start l -> uri_end (cu_r l) = e -> cu_p l <= e + 1 -> (cu_measure l < fuel)%nat ->
  exists x, cu_loop fuel mem data merge l = Some x /\ cu_result_ok data start e x.
Proof.
  induction fuel as [|fuel IH]; intros l Hi He Hp Hf; [lia|]. cbn [cu_loop].
  pose proof (cu_inv_ext _ _ _ Hi) as Hx. pose proof Hi as (_ & _ & Hl & _).
  destruct (Z.leb_spec (cu_p l) (uri_end (cu_r l))) as [Hle|Hgt].
  - pose proof (cu_step_leave mem data merge l) as Hs.
    destruct (cu_step mem data merge l) as [l'|rc r|l'|l'] eqn:E.
    + destruct (cu_step_next _ _ _ _ _ _ Hle Hi E) as (Hi' & Hm & He' & Hp').
      apply IH; [done|congruence|lia|lia].
    + subst rc. eexists. split; [done|]. by left.
    + destruct Hs as (Ho & Hp' & Hr). eexists. split; [done|]. unfold cu_finish_args.
      rewrite Ho, Hp', Hr. simpl. destruct (cu_find_hash _ _ _) as [q|] eqn:Eh.
      * apply cu_find_hash_range in Eh. apply cu_finish_ok; simpl; [lia|done|].
        intros; simplify_eq. lia.
      * apply cu_finish_ok; simpl; [lia|done|done].
    + destruct Hs as (Ho & Hr). eexists. split; [done|]. rewrite Ho, Hr.
      apply cu_finish_ok; [lia|done|done].
  - eexists. split; [done|]. apply cu_finish_ok; [lia|done|done].
Qed.

(** The complex URI parser returns on every URI, with [NGX_OK] or
    [NGX_HTTP_PARSE_INVALID_REQUEST]; it never writes more bytes than the URI
    has, so that the buffer of that size it is given is large enough; the
    extension it records is the end of its output, and the arguments it
    records lie in the URI. *)
Theorem complex_uri_bounds mem data merge r :
  uri_start r <= uri_end r ->
  exists x, ngx_http_parse_complex_uri mem data merge r = Some x /\
    cu_result_ok data (uri_start r) (uri_end r) x.
Proof.
  intros Hle. unfold ngx_http_parse_complex_uri. apply cu_loop_ok.
  - unfold cu_inv. simpl. split_and!; [done|done|lia|by left].
  - done.
  - simpl. lia.
  - unfold cu_measure, cu_fuel. simpl. lia.
Qed.

Lemma complex_uri_bounds_witness :
  let s := bytes "/a/../b?x#y" in
  exists x, ngx_http_parse_complex_uri (load 1 s) 1000 true (uri_request 1 s) = Some x /\
    cu_result_ok 1000 1 12 x.
Proof. apply (complex_uri_bounds _ 1000 true (uri_request 1 (bytes "/a/../b?x#y"))). simpl. lia. Defined.

(** The two memories hold the same bytes in [start, e]. *)
Definition agree (start e : Z) (m1 m2 : memory) : Prop := forall a, start <= a <= e -> m1 a = m2 a.

Lemma cu_find_hash_agree n m1 m2 start e p :
  agree start e m1 m2 -> start <= p -> p + Z.of_nat n <= e ->
  cu_find_hash n m1 p = cu_find_hash n m2 p.
Proof.
  intros Ha. revert p. induction n as [|n IH]; intros p H1 H2; simpl; [done|].
  rewrite (Ha p) by lia. rewrite IH by lia. done.
Qed.

Lemma cu_step_agree m1 m2 data merge start e l :
  agree start e m1 m2 -> start <= cu_p l <= e -> cu_step m1 data merge l = cu_step m2 data merge l.
Proof.
  intros Ha Hp. destruct l as [s qs d ch p out r]. simpl in Hp. pose proof (Ha p Hp) as Hr.
  destruct s; cu_unfold; simpl; unfold cu_back; by rewrite ?Hr.
Qed.

Lemma cu_loop_agree m1 m2 data merge start e fuel : forall l,
  agree start e m1 m2 -> cu_inv data start l -> uri_end (cu_r l) = e ->
  cu_loop fuel m1 data merge l = cu_loop fuel m2 data merge l.
Proof.
  induction fuel as [|fuel IH]; intros l Ha Hi He; [done|]. cbn [cu_loop].
  pose proof Hi as (_ & _ & Hl & _).
  destruct (Z.leb_spec (cu_p l) (uri_end (cu_r l))) as [Hle|Hgt]; [|done].
  pose proof (cu_step_leave m2 data merge l) as Hs.
  rewrite (cu_step_agree m1 m2 data merge start e l Ha) by lia.
  destruct (cu_step m2 data merge l) as [l'|rc r|l'|l'] eqn:E; [|done| |done].
  - destruct (cu_step_next _ _ _ _ _ _ Hle Hi E) as (Hi' & Hm & He' & Hp').
    apply IH; [done|done|congruence].
  - destruct Hs as (Ho & Hp' & Hr). unfold cu_finish_args. rewrite Hp', Hr. simpl.
    rewrite (cu_find_hash_agree _ m1 m2 start e) by (done || lia). done.
Qed.

(** The parser reads no byte outside the URI and the one that follows it:
    memories that agree there give the same result. *)
Theorem complex_uri_reads m1 m2 data merge r :
  uri_start r <= uri_end r -> agree (uri_start r) (uri_end r) m1 m2 ->
  ngx_http_parse_complex_uri m1 data merge r = ngx_http_parse_complex_uri m2 data merge r.
Proof.
  intros Hle Ha. unfold ngx_http_parse_complex_uri. cbv zeta.
  change (uri_start (set_args_start NULL (set_uri_ext NULL r))) with (uri_start r).
  rewrite (Ha (uri_start r)) by lia.
  apply (cu_loop_agree m1 m2 data merge (uri_start r) (uri_end r)); [done| |done].
  unfold cu_inv. simpl. split_and!; [done|done|lia|by left].
Qed.

Lemma complex_uri_reads_witness :
  ngx_http_parse_complex_uri (load 1 (bytes "/a/../b HTTP/1.1")) 1000 true (uri_request 1 (bytes "/a/../b"))
  = ngx_http_parse_complex_uri (load 1 (bytes "/a/../b ")) 1000 true (uri_request 1 (bytes "/a/../b")).
Proof.
  apply complex_uri_reads; [simpl; lia|]. intros a Ha. simpl in Ha.
  assert (a = 1 \/ a = 2 \/ a = 3 \/ a = 4 \/ a = 5 \/ a = 6 \/ a = 7 \/ a = 8) as Hc by lia.
  repeat destruct Hc as [-> |Hc]; [reflexivity..|]. by subst a.
Defined.

(** ** Normalisation: the specification

    A path is a stack of completed segments and the segment being read. *)

Record path : Type := Path { segs : list (list Z); cur : list Z }.

(** The end of a segment, when empty segments are merged: "." is dropped, ".."
    also drops the segment before it, of which there must be one. *)
Definition path_slash (x : path) : option path :=
  if decide (cur x = []) then Some x
  else if decide (cur x = bytes ".") then Some (Path (segs x) [])
  else if decide (cur x = bytes "..") then
    match segs x with [] => None | _ :: segs => Some (Path segs []) end
  else Some (Path (cur x :: segs x) []).

Definition path_add (c : Z) (x : path) : path := Path (segs x) (cur x ++ [c]).

Definition path_char (c : Z) (x : path) : option path :=
  if c =? $ "/" then path_slash x else Some (path_add c x).

(** Decodes and normalises the bytes after the first "/"; [None] for a bad
    escape, an escaped NUL, or ".." at the root.  An escape that the end of the
    URI cuts short is dropped. *)
Fixpoint normalize (l : list Z) (x : path) : option path :=
  match l with
  | [] => Some x
  | c :: l =>
      if c =? $ "%" then
        match l with
        | [] => Some x
        | h :: l =>
            d1 ← hex_digit h;
            match l with
            | [] => Some x
            | h2 :: l =>
                d2 ← hex_digit h2;
                let v := d1 * 16 + d2 in
                if v =? 0 then None
                else if (v =? $ "%") || (v =? $ "#") || (v =? $ "?") then
                  normalize l (path_add v x)
                else x ← path_char v x; normalize l x
            end
        end
      else if (c =? $ "?") || (c =? $ "#") then Some x
      else x ← path_char c x; normalize l x
  end.

(** The text of a path. *)
Definition render (x : path) : list Z :=
  concat ((fun s => $ "/" :: s) <$> rev (segs x)) ++ $ "/" :: cur x.

(** A completed segment. *)
Definition seg_ok (s : list Z) : Prop :=
  s <> [] /\ s <> bytes "." /\ s <> bytes ".." /\ Forall (fun c => c <> $ "/") s.

Definition path_ok (x : path) : Prop :=
  Forall seg_ok (segs x) /\ Forall (fun c => c <> $ "/") (cur x).

(** The state in which the machine reads a path. *)
Definition path_state (x : path) : cu_state :=
  if decide (cur x = []) then sw_slash
  else if decide (cur x = bytes ".") then sw_dot
  else if decide (cur x = bytes "..") then sw_dot_dot
  else sw_usual.

Lemma path_slash_ok x y : path_ok x -> path_slash x = Some y -> path_ok y.
Proof.
  intros [Hs Hc]. unfold path_slash. repeat case_decide; intros; simplify_eq/=; [done|done| |].
  - destruct (segs x); simplify_eq. by inversion Hs.
  - split; simpl; [|done]. constructor; [|done]. by split_and!.
Qed.

Lemma path_add_ok c x : c <> $ "/" -> path_ok x -> path_ok (path_add c x).
Proof. intros Hc [Hs Hu]. split; [done|]. apply Forall_app; auto. Qed.

Lemma path_char_ok c x y : path_ok x -> path_char c x = Some y -> path_ok y.
Proof.
  unfold path_char. destruct (Z.eqb_spec c 47); intros; simplify_eq;
    eauto using path_slash_ok, path_add_ok.
Qed.

(** Moving back to the slash before the last completed segment. *)
Lemma cu_back_app out s k :
  Forall (fun c => c <> $ "/") s -> (k <= length s)%nat ->
  cu_back (out ++ $ "/" :: s ++ bytes "/..") (length out + 1 + k) = Some (out ++ [$ "/"]).
Proof.
  intros Hs. induction k as [|k IH]; intros Hk.
  - rewrite Nat.add_0_r, Nat.add_1_r. simpl. rewrite app_nth2 by lia. rewrite Nat.sub_diag.
    simpl. f_equal. replace (match out ++ _ with [] => [] | a :: l => a :: take (length out) l end)
      with (take (S (length out)) (out ++ 47 :: s ++ bytes "/..")) by done.
    rewrite take_app_ge by lia. by replace (S (length out) - length out)%nat with 1%nat by lia.
  - replace (length out + 1 + S k)%nat with (S (length out + 1 + k)) by lia. cbn [cu_back].
    rewrite (proj2 (Z.eqb_neq _ _)); [apply IH; lia|].
    rewrite app_nth2 by lia. replace (length out + 1 + k - length out)%nat with (S k) by lia.
    simpl. rewrite app_nth1 by lia. rewrite Forall_forall in Hs. apply Hs.
    apply list_elem_of_In, nth_In. lia.
Qed.

Lemma render_pop s segs :
  seg_ok s ->
  cu_back (render (Path (s :: segs) (bytes "..")))
    (length (render (Path (s :: segs) (bytes ".."))) - 4) = Some (render (Path segs [])).
Proof.
  intros (Hne & _ & _ & Hs). unfold render. simpl. rewrite fmap_app, concat_app. simpl.
  rewrite app_nil_r, <- app_assoc. simpl.
  set (o := concat _). rewrite <- (cu_back_app o s (length s - 1)); [|done|lia].
  f_equal. rewrite !length_app. simpl. rewrite length_app. simpl.
  destruct s; [done|simpl; lia].
Qed.

(** ** Normalisation: the machine *)

Lemma render_add c x : render (path_add c x) = render x ++ [c].
Proof. unfold render, path_add. simpl. by rewrite <- app_assoc. Qed.

Lemma render_push s segs : render (Path (s :: segs) []) = render (Path segs s) ++ [$ "/"].
Proof.
  unfold render. simpl. rewrite fmap_app, concat_app. simpl.
  by rewrite app_nil_r, <- !app_assoc.
Qed.

Lemma render_take c segs :
  take (length (render (Path segs [c])) - 1) (render (Path segs [c])) = render (Path segs []).
Proof.
  change (Path segs [c]) with (path_add c (Path segs [])). rewrite render_add, length_app.
  simpl. rewrite Nat.add_sub. by rewrite take_app_length.
Qed.

Lemma path_state_add c x :
  c <> $ "/" ->
  path_state (path_add c x) =
  if c =? $ "." then
    match path_state x with sw_slash => sw_dot | sw_dot => sw_dot_dot | _ => sw_usual end
  else sw_usual.
Proof.
  intros Hc. destruct x as [segs cur]. unfold path_state, path_add.
  change (bytes ".") with [46]. change (bytes "..") with [46; 46]. simpl.
  destruct (Z.eqb_spec c 46) as [->|Hd]; repeat case_decide; subst; try done;
    repeat match goal with
    | H : _ ++ [_] = [_] |- _ => apply (app_inj_tail _ []) in H as [? ?]
    | H : ?a ++ [_] = [46; 46] |- _ => apply (app_inj_tail a [46]) in H as [? ?]
    | H : ?a ++ [_] = [] |- _ => by destruct a
    end; simplify_eq/=; done.
Qed.

(** One path character: what the machine does in [path_state x], with the
    output [render x]. *)
Definition same_bounds (r r' : request) : Prop :=
  uri_start r' = uri_start r /\ uri_end r' = uri_end r.

Definition cu_char_spec (mem : memory) (qs : cu_state) (d c p : Z) (r : request) (x : path)
    (a : cu_ctl) : Prop :=
  match path_char c x with
  | None => exists r', a = CuReturn NGX_HTTP_PARSE_INVALID_REQUEST r'
  | Some y => exists r', same_bounds r r' /\
      a = CuNext (Cu (path_state y) qs d (mem p) (p + 1) (render y) r')
  end.

Lemma cu_step_char mem data qs d c p r x :
  is_byte c -> path_ok x -> c <> $ "%" -> c <> $ "?" -> c <> $ "#" ->
  cu_char_spec mem qs d c p r x
    (cu_step mem data true (Cu (path_state x) qs d c p (render x) r)).
Proof.
  intros Hb [Hs Hc] H1 H2 H3. unfold cu_char_spec, path_char.
  assert (Hu : is_usual c = true -> c <> $ "/" /\ c <> $ ".").
  { rewrite is_usual_spec by done. unfold unusual. simpl. lia. }
  destruct (Z.eqb_spec c 47) as [-> |Hn].
  - assert (is_usual 47 = false) as Hf by reflexivity.
    destruct x as [segs cur]. unfold path_slash, path_state. cbn [HttpUri.segs HttpUri.cur] in *.
    repeat (case_decide; cbn [HttpUri.segs HttpUri.cur] in *; try congruence); subst;
      simpl; unfold cu_on_slash, cu_on_dot, cu_on_dot_dot, cu_on_usual;
      rewrite Hf; simpl.
    + by exists r.
    + exists r. split; [done|]. unfold cu_read. do 2 f_equal.
      apply (render_take 46).
    + destruct segs as [|s segs]; [by exists r|].
      rewrite render_pop by (by inversion Hs). by exists r.
    + exists (set_uri_ext NULL r). split; [done|]. unfold cu_read. do 2 f_equal.
      symmetry. apply render_push.
  - rewrite path_state_add, render_add by done. cbn [cu_step].
    assert (H47 : (c =? 47) = false) by lia.
    assert (H37 : (c =? 37) = false) by lia.
    assert (H63 : (c =? 63) = false) by lia.
    assert (H35 : (c =? 35) = false) by lia.
    destruct (is_usual c) eqn:Eu; [destruct (Hu eq_refl)|].
    + rewrite (proj2 (Z.eqb_neq c 46)) by done. exists r. split; [done|].
      unfold path_state. repeat case_decide;
        unfold cu_on_slash, cu_on_dot, cu_on_dot_dot, cu_on_usual; by rewrite Eu.
    + unfold path_state. repeat case_decide;
        unfold cu_on_slash, cu_on_dot, cu_on_dot_dot, cu_on_usual, cu_read;
        rewrite Eu, H47, H37, H63, H35; destruct (Z.eqb_spec c 46);
        try destruct (Z.eqb_spec c 43); try lia; eexists; (split; [|reflexivity]); done.
Qed.

(** The URI bytes [bs] are still to be read: the first of them is in [ch]. *)
Definition input_at (mem : memory) (e ch p : Z) (bs : list Z) : Prop :=
  match bs with
  | [] => p = e + 1
  | c :: rest => ch = c /\ holds mem p rest /\ p + Z.of_nat (length rest) = e
  end.

Lemma input_next mem e ch p c bs :
  input_at mem e ch p (c :: bs) -> input_at mem e (mem p) (p + 1) bs /\ p <= e.
Proof.
  intros (_ & Hh & He). destruct bs as [|c' bs]; simpl in *.
  - lia.
  - apply holds_cons in Hh as [-> Hh]. split_and!; [done|done|lia|lia].
Qed.

(** The result that a specification [y] calls for. *)
Definition cu_meets (y : option path) (x : cu_result) : Prop :=
  match y with
  | None => cu_rc x = NGX_HTTP_PARSE_INVALID_REQUEST
  | Some y => cu_rc x = NGX_OK /\ cu_uri x = render y
  end.

Lemma hex_digit_cases c :
  hex_digit c = (if is_digit c then Some (c - 48)
    else if (97 <=? Z.lor c 32) && (Z.lor c 32 <=? 102) then Some (Z.lor c 32 - 97 + 10) else None).
Proof. done. Qed.

(** The byte after '%', read in [sw_quoted]. *)
Lemma cu_step_quoted mem data merge qs d c p out r :
  match hex_digit c with
  | None => exists r', cu_step mem data merge (Cu sw_quoted qs d c p out r)
      = CuReturn NGX_HTTP_PARSE_INVALID_REQUEST r'
  | Some d' => exists r', same_bounds r r' /\
      cu_step mem data merge (Cu sw_quoted qs d c p out r)
      = CuNext (Cu sw_quoted_second qs d' (mem p) (p + 1) out r')
  end.
Proof.
  rewrite hex_digit_cases. simpl. unfold cu_on_quoted. cbv zeta.
  destruct (is_digit c); [|destruct (_ && _)]; by exists (set_quoted_uri true r).
Qed.

(** The second digit. *)
Lemma cu_step_quoted_second mem data merge qs d c p out r :
  0 <= d < 16 ->
  match hex_digit c with
  | None => exists r', cu_step mem data merge (Cu sw_quoted_second qs d c p out r)
      = CuReturn NGX_HTTP_PARSE_INVALID_REQUEST r'
  | Some d' =>
      let v := d * 16 + d' in
      exists r', same_bounds r r' /\
      cu_step mem data merge (Cu sw_quoted_second qs d c p out r) =
      if v =? 0 then CuReturn NGX_HTTP_PARSE_INVALID_REQUEST r'
      else if (v =? $ "%") || (v =? $ "#") || (v =? $ "?") then
        CuNext (Cu sw_usual qs d (mem p) (p + 1) (out ++ [v]) r')
      else CuNext (Cu qs qs d v p out r')
  end.
Proof.
  intros Hd. pose proof (hex_digit_range c) as Hr. rewrite hex_digit_cases in *.
  cbn [cu_step]. unfold cu_on_quoted_second, cu_read. cbv zeta.
  rewrite Z.shiftl_mul_pow2 by lia. change (2 ^ 4) with 16.
  destruct (is_digit c) eqn:Edig; [|destruct (_ && _) eqn:Elet].
  - specialize (Hr _ eq_refl). unfold is_digit in Edig.
    replace (u8 (d * 16 + c - 48)) with (d * 16 + (c - 48))
      by (unfold u8; rewrite Z.mod_small; lia).
    set (v := d * 16 + (c - 48)).
    assert (v <> 63) by (unfold v; lia).
    exists r. split; [done|].
    rewrite (proj2 (Z.eqb_neq v 63)), orb_false_r by done.
    destruct ((v =? 37) || (v =? 35)) eqn:E; [|done].
    by rewrite (proj2 (Z.eqb_neq v 0)) by lia.
  - specialize (Hr _ eq_refl). set (k := Z.lor c 32) in *.
    replace (u8 (d * 16 + k - 97 + 10)) with (d * 16 + (k - 97 + 10))
      by (unfold u8; rewrite Z.mod_small; lia).
    set (v := d * 16 + (k - 97 + 10)).
    assert (v <> 0 /\ v <> 37 /\ v <> 35) as (H0 & H37 & H35) by (unfold v; lia).
    rewrite (proj2 (Z.eqb_neq v 0)), (proj2 (Z.eqb_neq v 37)), (proj2 (Z.eqb_neq v 35)) by done.
    simpl. destruct (v =? 63); [by exists r|].
    destruct (v =? 43); [by exists (set_plus_in_uri true r)|by exists r].
  - by exists r.
Qed.
Arguments cu_step : simpl never.

(** The characters that end or interrupt a path, in any of its states. *)
Lemma cu_step_special mem data qs d p r x out :
  let l c := Cu (path_state x) qs d c p out r in
  cu_step mem data true (l ($ "%")) =
    CuNext (Cu sw_quoted (path_state x) d (mem p) (p + 1) out r) /\
  cu_step mem data true (l ($ "?")) = CuArgs (Cu (path_state x) qs d ($ "?") p out (set_args_start p r)) /\
  cu_step mem data true (l ($ "#")) = CuDone (l ($ "#")).
Proof.
  unfold path_state. repeat case_decide; split_and!; reflexivity.
Qed.

(** From the state that stands for [x], the machine computes [normalize]. *)
Definition run_ok (mem : memory) (data e : Z) (bs : list Z) : Prop :=
  forall fuel x qs d ch p r,
    Forall is_byte bs -> path_ok x -> input_at mem e ch p bs -> uri_end r = e ->
    (2 * length bs < fuel)%nat ->
    exists res, cu_loop fuel mem data true (Cu (path_state x) qs d ch p (render x) r) = Some res /\
      cu_meets (normalize bs x) res.

Lemma run_char mem data e c bs fuel x qs d p r :
  run_ok mem data e bs -> is_byte c -> Forall is_byte bs -> path_ok x ->
  c <> $ "%" -> c <> $ "?" -> c <> $ "#" -> input_at mem e c p (c :: bs) -> uri_end r = e ->
  (2 * length bs + 1 < fuel)%nat ->
  exists res, cu_loop fuel mem data true (Cu (path_state x) qs d c p (render x) r) = Some res /\
    cu_meets (y ← path_char c x; normalize bs y) res.
Proof.
  intros IH Hc Hb Hx H1 H2 H3 Hi He Hf. destruct fuel as [|fuel]; [lia|].
  cbn [cu_loop cu_p cu_r]. destruct (input_next _ _ _ _ _ _ Hi) as [Hi1 Hp].
  rewrite (proj2 (Z.leb_le p _)) by lia.
  pose proof (cu_step_char mem data qs d c p r x Hc Hx H1 H2 H3) as Hs.
  unfold cu_char_spec in Hs. destruct (path_char c x) as [y|] eqn:Ey; simpl.
  - destruct Hs as (r' & [_ Hr'] & ->). apply IH; [done| |done|congruence|lia].
    by eapply path_char_ok.
  - destruct Hs as (r' & ->). eexists. by split.
Qed.

(** The two bytes after '%'. *)
Lemma run_quoted mem data e bs fuel x d ch p r :
  (forall bs', (length bs' <= length bs)%nat -> run_ok mem data e bs') ->
  Forall is_byte bs -> path_ok x -> input_at mem e ch p bs -> uri_end r = e ->
  (2 * length bs + 1 < fuel)%nat ->
  exists res,
    cu_loop fuel mem data true (Cu sw_quoted (path_state x) d ch p (render x) r) = Some res /\
    cu_meets (normalize ($ "%" :: bs) x) res.
Proof.
  intros IH Hb Hx Hi He Hf. destruct fuel as [|fuel]; [lia|]. cbn [cu_loop cu_p cu_r].
  cbn [normalize]. change (37 =? 37) with true. cbv iota.
  destruct bs as [|h bs].
  { simpl in Hi. rewrite (proj2 (Z.leb_gt p _)) by lia. eexists. by split. }
  destruct (input_next _ _ _ _ _ _ Hi) as [Hi1 Hp]. destruct Hi as (-> & _ & _).
  rewrite (proj2 (Z.leb_le p _)) by lia.
  inversion Hb as [|? ? _ Hb1]; subst. cbn [length] in Hf.
  pose proof (cu_step_quoted mem data true (path_state x) d h p (render x) r) as Hs.
  destruct (hex_digit h) as [d1|] eqn:E1; simpl;
    [|destruct Hs as (r' & ->); eexists; by split].
  destruct Hs as (r1 & [_ Hr1] & ->). apply hex_digit_range in E1.
  destruct fuel as [|fuel]; [lia|]. cbn [cu_loop cu_p cu_r]. rewrite Hr1.
  destruct bs as [|h2 bs].
  { simpl in Hi1. rewrite (proj2 (Z.leb_gt (p + 1) _)) by lia. eexists. by split. }
  destruct (input_next _ _ _ _ _ _ Hi1) as [Hi2 Hp1]. destruct Hi1 as (Hh2 & Hh2' & He2).
  rewrite (proj2 (Z.leb_le (p + 1) _)) by lia.
  inversion Hb1 as [|? ? _ Hb2]; subst. cbn [length] in Hf, IH.
  pose proof (cu_step_quoted_second mem data true (path_state x) d1 (mem p) (p + 1) (render x) r1 E1)
    as Hs.
  destruct (hex_digit (mem p)) as [d2|] eqn:E2; simpl;
    [|destruct Hs as (r' & ->); eexists; by split].
  destruct Hs as (r2 & [_ Hr2] & ->). apply hex_digit_range in E2.
  set (v := d1 * 16 + d2). destruct (Z.eqb_spec v 0) as [|H0]; [eexists; by split|].
  destruct ((v =? 37) || (v =? 35) || (v =? 63)) eqn:Ev.
  - rewrite <- render_add.
    replace sw_usual with (path_state (path_add v x))
      by (rewrite path_state_add by lia; by rewrite (proj2 (Z.eqb_neq v 46)) by lia).
    apply IH; [lia|done|apply path_add_ok; [lia|done]|done|congruence|lia].
  - apply (run_char mem data (uri_end r)); [apply IH; lia| |done|done|lia|lia|lia| |congruence|lia].
    + unfold is_byte, v. lia.
    + done.
Qed.

Lemma run_all mem data e bs : run_ok mem data e bs.
Proof.
  induction bs as [bs IH] using (induction_ltof1 _ (@length Z)). unfold ltof in IH.
  intros fuel x qs d ch p r Hb Hx Hi He Hf.
  destruct bs as [|c bs].
  { destruct fuel as [|fuel]; [simpl in Hf; lia|]. cbn [cu_loop cu_p cu_r].
    simpl in Hi. rewrite (proj2 (Z.leb_gt p _)) by lia. eexists. by split. }
  inversion Hb as [|? ? Hc Hb']; subst. cbn [length] in IH, Hf.
  destruct (cu_step_special mem data qs d p r x (render x)) as (S1 & S2 & S3).
  destruct (input_next _ _ _ _ _ _ Hi) as [Hi1 Hp]. pose proof Hi as (Hch & _).
  destruct (Z.eqb_spec c 37) as [->|H37];
    [|destruct (Z.eqb_spec c 63) as [->|H63]; [|destruct (Z.eqb_spec c 35) as [->|H35]]].
  - subst ch. destruct fuel as [|fuel]; [lia|]. cbn [cu_loop cu_p cu_r].
    rewrite (proj2 (Z.leb_le p _)) by lia. rewrite S1.
    apply (run_quoted mem data (uri_end r)); [|done|done|done|done|lia].
    intros bs' Hl. apply IH. lia.
  - subst ch. destruct fuel as [|fuel]; [lia|]. cbn [cu_loop cu_p cu_r].
    rewrite (proj2 (Z.leb_le p _)) by lia. rewrite S2. eexists. split; [done|].
    unfold cu_finish_args. by destruct (cu_find_hash _ _ _).
  - subst ch. destruct fuel as [|fuel]; [lia|]. cbn [cu_loop cu_p cu_r].
    rewrite (proj2 (Z.leb_le p _)) by lia. rewrite S3. eexists. by split.
  - subst ch. cbn [normalize]. rewrite (proj2 (Z.eqb_neq c 37)), (proj2 (Z.eqb_neq c 63)),
      (proj2 (Z.eqb_neq c 35)) by done. simpl.
    apply (run_char mem data (uri_end r)); try done; [apply IH; lia|lia].
Qed.

Lemma normalize_ok bs x y : path_ok x -> normalize bs x = Some y -> path_ok y.
Proof.
  revert x. induction bs as [bs IH] using (induction_ltof1 _ (@length Z)). unfold ltof in IH.
  intros x Hx Hn.
  assert (Hrec : forall v bs', (length bs' < length bs)%nat ->
    (z ← path_char v x; normalize bs' z) = Some y -> path_ok y).
  { intros v bs' Hl. destruct (path_char v x) as [z|] eqn:Ez; simpl; [|done].
    apply IH; [done|]. by eapply path_char_ok. }
  destruct bs as [|c bs]; cbn [normalize] in Hn; [by simplify_eq|].
  destruct (c =? 37); [|destruct (_ || _); [by simplify_eq|]; apply Hrec in Hn; [done|simpl; lia]].
  destruct bs as [|h bs]; [by simplify_eq|]. destruct (hex_digit h) as [d1|]; [|done].
  simpl in Hn. destruct bs as [|h2 bs]; [by simplify_eq|].
  destruct (hex_digit h2) as [d2|]; [|done]. simpl in Hn.
  destruct (_ =? 0); [done|]. destruct (_ || _) eqn:E.
  - apply IH in Hn; [done|simpl; lia|]. apply path_add_ok; [lia|done].
  - apply Hrec in Hn; [done|simpl; lia].
Qed.

(** C2. With [merge_slashes], the complex URI parser is [normalize]: it decodes
    the escapes, merges the slashes and resolves "." and ".." segments, and
    fails exactly on a bad escape, on "%00" and on ".." at the root.  Every
    completed segment of the result is a non-empty name other than "." and
    "..". *)
Theorem complex_uri_normalizes mem data r bs :
  Forall is_byte bs -> holds mem (uri_start r) ($ "/" :: bs) ->
  uri_end r = uri_start r + 1 + Z.of_nat (length bs) ->
  exists x, ngx_http_parse_complex_uri mem data true r = Some x /\
    match normalize bs (Path [] []) with
    | None => cu_rc x = NGX_HTTP_PARSE_INVALID_REQUEST
    | Some y => cu_rc x = NGX_OK /\ cu_uri x = render y /\ Forall seg_ok (segs y)
    end.
Proof.
  intros Hb Hh He. apply holds_cons in Hh as [Hs Hh].
  unfold ngx_http_parse_complex_uri, cu_fuel. cbv zeta.
  set (r1 := set_args_start NULL (set_uri_ext NULL r)).
  change (uri_start r1) with (uri_start r). change (uri_end r1) with (uri_end r).
  replace (2 * Z.to_nat (uri_end r - uri_start r) + 2)%nat
    with (S (2 * Z.to_nat (uri_end r - uri_start r) + 1)) by lia.
  cbn [cu_loop cu_p cu_r]. change (uri_end r1) with (uri_end r).
  rewrite (proj2 (Z.leb_le _ _)) by lia. rewrite Hs.
  change (cu_step mem data true (Cu sw_usual sw_usual 0 47 (uri_start r + 1) [] r1))
    with (CuNext (Cu (path_state (Path [] [])) sw_usual 0 (mem (uri_start r + 1))
           (uri_start r + 1 + 1) (render (Path [] [])) (set_uri_ext NULL r1))).
  cbv iota.
  destruct (run_all mem data (uri_end r) bs (2 * Z.to_nat (uri_end r - uri_start r) + 1)%nat
    (Path [] []) sw_usual 0 (mem (uri_start r + 1)) (uri_start r + 1 + 1) (set_uri_ext NULL r1))
    as (x & Hx & Hm); [done|by split| |done|lia|].
  { destruct bs as [|c bs]; simpl in *; [lia|]. apply holds_cons in Hh as [-> Hh].
    split_and!; [done|done|lia]. }
  exists x. split; [done|]. unfold cu_meets in Hm.
  destruct (normalize bs (Path [] [])) as [y|] eqn:Ey; [|done].
  destruct Hm. split_and!; [done|done|]. by apply (normalize_ok bs (Path [] [])).
Qed.

Lemma complex_uri_normalizes_witness :
  let s := bytes "a//b/./c%2f../%64" in
  exists x, ngx_http_parse_complex_uri (load 1 ($ "/" :: s)) 1000 true
      (uri_request 1 ($ "/" :: s)) = Some x /\
    match normalize s (Path [] []) with
    | None => cu_rc x = NGX_HTTP_PARSE_INVALID_REQUEST
    | Some y => cu_rc x = NGX_OK /\ cu_uri x = render y /\ Forall seg_ok (segs y)
    end.
Proof.
  apply (complex_uri_normalizes (load 1 ($ "/" :: bytes "a//b/./c%2f../%64")) 1000
    (uri_request 1 ($ "/" :: bytes "a//b/./c%2f../%64")) (bytes "a//b/./c%2f../%64")).
  - by_decide.
  - apply holds_load.
  - reflexivity.
Defined.

(** ** The classifying pass *)

Ltac pu_cases H :=
  unfold pu_step, pu_on_start, pu_on_after_slash, pu_on_check_uri, pu_on_uri in H; cbv zeta in H;
  repeat match type of H with
    | (if ?c then _ else _) = _ => let E := fresh "E" in destruct c eqn:E
    end;
  simplify_eq/=.

Lemma pu_progress mem l p l' p' :
  pu_step mem l p = Next l' p' -> p' = p \/ (p' = p - 1 /\ (0 < 0)%nat).
Proof. destruct l as [s r]. intros H. destruct s; pu_cases H; auto. Qed.

(** The path of a URI: the bytes before its '?'. *)
Fixpoint path_bytes (l : list Z) : list Z :=
  match l with
  | [] => []
  | c :: l => if c =? $ "?" then [] else c :: path_bytes l
  end.

(** In which state of [pu_step] the machine reads after the path [x]. *)
Definition pu_reads (s : pu_state) (x : path) : Prop :=
  match s with
  | pu_after_slash_in_uri => cur x = [] \/ (cur x <> bytes "." /\ cur x <> bytes "..")
  | pu_check_uri => cur x <> [] /\ cur x <> bytes "." /\ cur x <> bytes ".."
  | _ => False
  end.

(** The flags are never cleared. *)
Definition flagged (r : request) : Prop := complex_uri r = true \/ quoted_uri r = true.

Lemma pu_flagged mem last s r p s' r' p' :
  flagged r -> scans (pu_step mem) last (s, r) p (Fell (s', r') p') -> flagged r'.
Proof.
  intros Hf H.
  apply (scans_inv _ _ (fun l _ => flagged l.2) (fun _ _ _ => True)) in H; [by destruct H| | |done].
  - intros [t q] a [t' q'] a' _ Hq Hs. unfold flagged in *. destruct t; pu_cases Hs; auto.
  - done.
Qed.

Lemma not_dots_snoc (l : list Z) c :
  c <> $ "." \/ (l <> [] /\ l <> bytes "." /\ l <> bytes "..") ->
  l ++ [c] <> [] /\ l ++ [c] <> bytes "." /\ l ++ [c] <> bytes "..".
Proof.
  change (bytes ".") with [46]. change (bytes "..") with [46; 46]. intros Hc.
  split_and!.
  - by destruct l.
  - intros H. apply (app_inj_tail _ []) in H as [-> ->]. destruct Hc as [?|[? _]]; done.
  - intros H. apply (app_inj_tail l [46]) in H as [-> ->]. destruct Hc as [?|[_ [? _]]]; done.
Qed.

Lemma pu_reads_add c x :
  c <> $ "." \/ pu_reads pu_check_uri x -> pu_reads pu_check_uri (path_add c x).
Proof. intros H. by apply not_dots_snoc. Qed.

Lemma pu_reads_slash x :
  pu_reads pu_check_uri x -> path_slash x = Some (Path (cur x :: segs x) []) /\
  render (Path (cur x :: segs x) []) = render x ++ [$ "/"].
Proof.
  intros (H1 & H2 & H3). unfold path_slash. rewrite !decide_False by done.
  split; [done|]. rewrite render_push. by destruct x.
Qed.

(** A URI that the pass leaves unflagged is read by [normalize] without any
    change. *)
Lemma pu_simple mem bs : forall last s r p x s' r' p',
  Forall is_byte bs -> holds mem p bs -> last = p + Z.of_nat (length bs) ->
  pu_reads s x -> scans (pu_step mem) last (s, r) p (Fell (s', r') p') -> ~ flagged r' ->
  exists y, normalize bs x = Some y /\ render y = render x ++ path_bytes bs.
Proof.
  induction bs as [|c bs IH]; intros last s r p x s' r' p' Hb Hh Hl Hr H Hnf.
  - exists x. by rewrite app_nil_r.
  - inversion Hb as [|? ? Hc Hb']; subst. apply holds_cons in Hh as [Hm Hh]. cbn [length] in H.
    inversion H as [? ? Hge| |? ? [s1 r1] p1 ? Hlt Hs Hrest]; subst; [lia|]. clear H.
    remember (mem p) as c eqn:Hcm.
    assert (Hu : is_usual c = true -> c <> 46 /\ c <> 47 /\ c <> 37 /\ c <> 63 /\ c <> 35).
    { rewrite is_usual_spec by done. unfold unusual. simpl. lia. }
    replace (p + Z.of_nat (S (length bs))) with (p + 1 + Z.of_nat (length bs)) in Hrest by lia.
    assert (Hadd : c <> 46 \/ pu_reads pu_check_uri x ->
      c <> 47 -> c <> 37 -> c <> 63 -> c <> 35 -> p1 = p ->
      (s1 = pu_check_uri \/ s1 = pu_after_slash_in_uri) ->
      exists y, normalize (c :: bs) x = Some y /\ render y = render x ++ path_bytes (c :: bs)).
    { intros Hd H47 H37 H63 H35 -> Hs1.
      destruct (IH (p + 1 + Z.of_nat (length bs)) s1 r1 (p + 1) (path_add c x) s' r' p') as (y & Hy & Hry); try done.
      - pose proof (pu_reads_add c x Hd) as Hck. destruct Hs1 as [-> | ->]; [done|right; apply Hck].
      - exists y. cbn [normalize path_bytes]. unfold path_char.
        rewrite (proj2 (Z.eqb_neq c 37)), (proj2 (Z.eqb_neq c 63)), (proj2 (Z.eqb_neq c 35)),
          (proj2 (Z.eqb_neq c 47)) by done. simpl.
        split; [done|]. rewrite Hry, render_add. by rewrite <- app_assoc. }
    assert (Hflag : flagged r1 -> exists y, normalize (c :: bs) x = Some y /\
      render y = render x ++ path_bytes (c :: bs)).
    { intros Hf. exfalso. apply Hnf. by eapply pu_flagged. }
    assert (Hargs : c = 63 -> exists y, normalize (c :: bs) x = Some y /\
      render y = render x ++ path_bytes (c :: bs)).
    { intros ->. exists x. split; [done|]. simpl. by rewrite app_nil_r. }
    destruct s; try done; unfold pu_step in Hs; rewrite <- Hcm in Hs; pu_cases Hs;
      unfold flagged in Hflag; simpl in Hflag;
      try (destruct (Hu eq_refl) as (? & ? & ? & ? & ?));
      try (by apply Hflag; auto); try (apply Hargs; lia); try (apply Hadd; auto; lia).
    (* a slash ends a segment *)
    destruct (pu_reads_slash x Hr) as [Hps Hrs].
    destruct (IH (p1 + 1 + Z.of_nat (length bs)) pu_after_slash_in_uri (set_uri_ext NULL r) (p1 + 1)
      (Path (cur x :: segs x) []) s' r' p') as (y & Hy & Hry); try done; [by left|].
    exists y. assert (mem p1 = 47) as -> by lia. cbn [normalize path_bytes path_char].
    change (47 =? 37) with false. change (47 =? 63) with false. change (47 =? 35) with false.
    unfold path_char. change (47 =? 47) with true. simpl. rewrite Hps. simpl.
    split; [done|]. rewrite Hry, Hrs. by rewrite <- app_assoc.
Qed.

(** The fast path is right: a URI that [ngx_http_parse_uri] neither marks
    complex nor quoted is its own normal form up to the arguments, so that the
    caller may use it without the second pass. *)
Theorem parse_uri_simple mem r r' bs :
  Forall is_byte bs -> holds mem (uri_start r) ($ "/" :: bs) ->
  uri_end r = uri_start r + 1 + Z.of_nat (length bs) ->
  ngx_http_parse_uri mem r = Some (NGX_OK, r') ->
  complex_uri r' = false -> quoted_uri r' = false ->
  exists y, normalize bs (Path [] []) = Some y /\ render y = $ "/" :: path_bytes bs.
Proof.
  intros Hb Hh He H Hc Hq. apply holds_cons in Hh as [Hs Hh].
  unfold ngx_http_parse_uri in H. rewrite (proj2 (Z.ltb_ge _ _)) in H by lia.
  destruct (scan _ _ _ _ _) as [o|] eqn:Es; [|done]. simpl in H. apply scan_scans in Es.
  destruct o as [[s1 r1] p1|[] [s1 r1] p1]; [|done]. injection H as ->.
  inversion Es as [? ? Hge| |? ? [s2 r2] p2 ? Hlt Hst Hrest]; subst; [lia|].
  unfold pu_step, pu_on_start in Hst. rewrite Hs in Hst. injection Hst as <- <- <-.
  destruct (pu_simple mem bs (uri_end r) pu_after_slash_in_uri r (uri_start r + 1) (Path [] [])
    s1 r' p1) as (y & Hy & Hr); try done; [by left|unfold flagged; destruct 1; congruence|].
  by exists y.
Qed.

Lemma parse_uri_simple_witness :
  let s := bytes "a/b.html?x=1" in
  exists y, normalize s (Path [] []) = Some y /\ render y = $ "/" :: path_bytes s.
Proof.
  apply (parse_uri_simple (load 1 ($ "/" :: bytes "a/b.html?x=1"))
    (uri_request 1 ($ "/" :: bytes "a/b.html?x=1"))
    (set_args_start 11 (set_uri_ext 6 (uri_request 1 ($ "/" :: bytes "a/b.html?x=1"))))).
  - by_decide.
  - apply holds_load.
  - reflexivity.
  - vm_compute. reflexivity.
  - reflexivity.
  - reflexivity.
Defined.

(** Without [merge_slashes] the step back over ".." assumes that the segment
    before it is not empty: "/a//../b" loses the segment "a" as well, and
    "//.." is an error. *)
Example dot_dot_empty_segment :
  complex_uri_of false "/a//../b" = Some (NGX_OK, bytes "/b", None) /\
  complex_uri_of false "//../b" = Some (NGX_HTTP_PARSE_INVALID_REQUEST, [], None).
Proof. split; vm_compute; reflexivity. Qed.
