(* ===== verification/NgxEscape.v ===== *)
(** * NgxEscape: escaping and unescaping

    The URI, HTML and JSON escapes of src/core/ngx_string.c.  A call with
    [dst == NULL] only counts; the count is what callers allocate with. *)

From S2P Require Import Prelude NgxNumber.

(** ** URI *)

Definition NGX_UNESCAPE_URI : Z := 1.
Definition NGX_UNESCAPE_REDIRECT : Z := 2.

(* core/ngx_string.c:1433-1449 ngx_escape_uri: uri *)
Definition uri : list Z :=
  [0xffffffff; 0x80000029; 0x00000000; 0x80000000; 0xffffffff; 0xffffffff; 0xffffffff; 0xffffffff].
(* core/ngx_string.c:1453-1469 ngx_escape_uri: args *)
Definition args : list Z :=
  [0xffffffff; 0x88000869; 0x00000000; 0x80000000; 0xffffffff; 0xffffffff; 0xffffffff; 0xffffffff].
(* core/ngx_string.c:1473-1489 ngx_escape_uri: uri_component *)
Definition uri_component : list Z :=
  [0xffffffff; 0xfc009fff; 0x78000001; 0xb8000001; 0xffffffff; 0xffffffff; 0xffffffff; 0xffffffff].
(* core/ngx_string.c:1493-1509 ngx_escape_uri: html *)
Definition html : list Z :=
  [0xffffffff; 0x000000ad; 0x00000000; 0x80000000; 0xffffffff; 0xffffffff; 0xffffffff; 0xffffffff].
(* core/ngx_string.c:1513-1529 ngx_escape_uri: refresh *)
Definition refresh : list Z :=
  [0xffffffff; 0x00000085; 0x00000000; 0x80000000; 0xffffffff; 0xffffffff; 0xffffffff; 0xffffffff].
(* core/ngx_string.c:1533-1549 ngx_escape_uri: memcached *)
Definition memcached : list Z :=
  [0xffffffff; 0x00000021; 0x00000000; 0x00000000; 0x00000000; 0x00000000; 0x00000000; 0x00000000].

(* core/ngx_string.h:197-203 NGX_ESCAPE_URI .. NGX_ESCAPE_MAIL_AUTH *)
Inductive escape_type : Type :=
  | NGX_ESCAPE_URI
  | NGX_ESCAPE_ARGS
  | NGX_ESCAPE_URI_COMPONENT
  | NGX_ESCAPE_HTML
  | NGX_ESCAPE_REFRESH
  | NGX_ESCAPE_MEMCACHED
  | NGX_ESCAPE_MAIL_AUTH.

#[export] Instance escape_type_eq_dec : EqDecision escape_type.
Proof. solve_decision. Defined.

(* core/ngx_string.c:1551-1557 ngx_escape_uri: map *)
Definition map (type : escape_type) : list Z :=
  match type with
  | NGX_ESCAPE_URI => uri
  | NGX_ESCAPE_ARGS => args
  | NGX_ESCAPE_URI_COMPONENT => uri_component
  | NGX_ESCAPE_HTML => html
  | NGX_ESCAPE_REFRESH => refresh
  | NGX_ESCAPE_MEMCACHED | NGX_ESCAPE_MAIL_AUTH => memcached
  end.

(** [escape[*src >> 5] & (1U << ( *src & 0x1f))] *)
Definition escaped (type : escape_type) (c : Z) : bool :=
  negb (Z.land (nth (Z.to_nat (Z.shiftr c 5)) (map type) 0) (Z.shiftl 1 (Z.land c 0x1f)) =? 0).

(* core/ngx_string.c:1559-1574 ngx_escape_uri: dst == NULL *)
Fixpoint ngx_escape_uri_count (src : list Z) (type : escape_type) : Z :=
  match src with
  | [] => 0
  | c :: src => (if escaped type c then 1 else 0) + ngx_escape_uri_count src type
  end.

(** [hex[c >> 4]] and [hex[c & 0xf]]. *)
Definition hex_hi (c : Z) : Z := nth (Z.to_nat (Z.shiftr c 4)) HEX 0.
Definition hex_lo (c : Z) : Z := nth (Z.to_nat (Z.land c 0xf)) HEX 0.

(* core/ngx_string.c:1576-1590 ngx_escape_uri: while (size) *)
Fixpoint ngx_escape_uri (src : list Z) (type : escape_type) : list Z :=
  match src with
  | [] => []
  | c :: src =>
      (if escaped type c then [$ "%"; hex_hi c; hex_lo c] else [c]) ++ ngx_escape_uri src type
  end.

(* core/ngx_string.c:1597-1601 ngx_unescape_uri: enum state *)
Inductive un_state : Type := sw_usual | sw_quoted | sw_quoted_second.

(** [*d++ = ..] for the bytes [l], before the bytes of the rest of the loop. *)
Definition emit (l : list Z) (x : list Z * list Z) : list Z * list Z := (l ++ x.1, x.2).

Definition has (type flag : Z) : bool := negb (Z.land type flag =? 0).

Section unescape.
Variable type : Z.

(** The result of [case sw_quoted_second] for the decoded byte [ch] of
    "%[s2][s1]"; [letter]: the second digit is a letter.  The boolean says
    [goto done]. *)
(* core/ngx_string.c:1655-1712 ngx_unescape_uri: case sw_quoted_second *)
Definition un_second (letter : bool) (ch s2 s1 : Z) : list Z * bool :=
  if letter then
    if has type NGX_UNESCAPE_URI then ([ch], ch =? $ "?")
    else if has type NGX_UNESCAPE_REDIRECT then
      if ch =? $ "?" then ([ch], true)
      else if ($ "%" <? ch) && (ch <? 0x7f) then ([ch], false)
      else ([$ "%"; s2; s1], false)
    else ([ch], false)
  else
    if has type NGX_UNESCAPE_REDIRECT then
      if ($ "%" <? ch) && (ch <? 0x7f) then ([ch], false) else ([$ "%"; s2; s1], false)
    else ([ch], false).

(** The bytes written, and the bytes of [src] that are left; [prev] is the
    byte before the cursor. *)
(* core/ngx_string.c:1609-1714 ngx_unescape_uri: while (size--) *)
Fixpoint unescape_loop (state : un_state) (decoded prev : Z) (src : list Z)
  : list Z * list Z :=
  match src with
  | [] => ([], [])
  | ch :: src =>
      match state with
      | sw_usual =>
          if (ch =? $ "?") && has type (Z.lor NGX_UNESCAPE_URI NGX_UNESCAPE_REDIRECT) then
            ([ch], src)
          else if ch =? $ "%" then unescape_loop sw_quoted decoded ch src
          else emit [ch] (unescape_loop sw_usual decoded ch src)
      | sw_quoted =>
          if is_digit ch then unescape_loop sw_quoted_second (u8 (ch - $ "0")) ch src
          else
            let c := Z.lor ch 0x20 in
            if ($ "a" <=? c) && (c <=? $ "f") then
              unescape_loop sw_quoted_second (u8 (c - $ "a" + 10)) ch src
            else emit [ch] (unescape_loop sw_usual decoded ch src)
      | sw_quoted_second =>
          if is_digit ch then
            let '(out, stop) :=
              un_second false (u8 (Z.shiftl decoded 4 + ch - $ "0")) prev ch in
            if stop then (out, src) else emit out (unescape_loop sw_usual decoded ch src)
          else
            let c := Z.lor ch 0x20 in
            if ($ "a" <=? c) && (c <=? $ "f") then
              let '(out, stop) :=
                un_second true (u8 (Z.shiftl decoded 4 + c - $ "a" + 10)) prev ch in
              if stop then (out, src) else emit out (unescape_loop sw_usual decoded ch src)
            else unescape_loop sw_usual decoded ch src
      end
  end.
End unescape.

(** The bytes written to [dst], and what is left of the [size] bytes of [src]. *)
(* core/ngx_string.c:1593-1720 ngx_unescape_uri *)
Definition ngx_unescape_uri (src : list Z) (type : Z) : list Z * list Z :=
  unescape_loop type sw_usual 0 0 src.

Example unescape_example :
  ngx_unescape_uri (bytes "a%2Fb%zz%4") 0 = (bytes "a/bzz", []) /\
  ngx_unescape_uri (bytes "a%3Fb%20?c") NGX_UNESCAPE_REDIRECT = (bytes "a?", bytes "b%20?c").
Proof. split; reflexivity. Qed.

(** ** HTML *)

(** The escape of one character. *)
(* core/ngx_string.c:1764-1787 ngx_escape_html: switch (ch) *)
Definition html_char (ch : Z) : list Z :=
  if ch =? $ "<" then bytes "&lt;"
  else if ch =? $ ">" then bytes "&gt;"
  else if ch =? $ "&" then bytes "&amp;"
  else if ch =? 34 then bytes "&quot;"
  else [ch].

(* core/ngx_string.c:1729-1759 ngx_escape_html: dst == NULL *)
Fixpoint ngx_escape_html_len (src : list Z) : Z :=
  match src with
  | [] => 0
  | ch :: src =>
      (if ch =? $ "<" then 5 - 2
       else if ch =? $ ">" then 5 - 2
       else if ch =? $ "&" then 6 - 2
       else if ch =? 34 then 7 - 2
       else 0) + ngx_escape_html_len src
  end.

(* core/ngx_string.c:1761-1792 ngx_escape_html: while (size) *)
Fixpoint ngx_escape_html (src : list Z) : list Z :=
  match src with
  | [] => []
  | ch :: src => html_char ch ++ ngx_escape_html src
  end.

(** ** JSON *)

(* core/ngx_string.c:1801-1818 ngx_escape_json: dst == NULL *)
Fixpoint ngx_escape_json_len (src : list Z) : Z :=
  match src with
  | [] => 0
  | ch :: src =>
      (if (ch =? 92) || (ch =? 34) then 1 else if ch <=? 0x1f then 7 - 2 else 0)
      + ngx_escape_json_len src
  end.

(* core/ngx_string.c:1820-1844 ngx_escape_json: while (size) *)
Fixpoint ngx_escape_json (src : list Z) : list Z :=
  match src with
  | [] => []
  | ch :: src =>
      (if 0x1f <? ch then (if (ch =? 92) || (ch =? 34) then [92; ch] else [ch])
       else
         let lo := Z.land ch 0xf in
         [92; $ "u"; $ "0"; $ "0"; $ "0" + Z.shiftr ch 4;
          if lo <? 10 then $ "0" + lo else $ "A" + lo - 10])
      ++ ngx_escape_json src
  end.

(* core/ngx_string.c:1107-1118 ngx_hex_dump *)
Fixpoint ngx_hex_dump (src : list Z) : list Z :=
  match src with
  | [] => []
  | c :: src =>
      nth (Z.to_nat (Z.shiftr c 4)) hex 0 :: nth (Z.to_nat (Z.land c 0xf)) hex 0
      :: ngx_hex_dump src
  end.

Example escape_examples :
  ngx_escape_uri (bytes "a b%?") NGX_ESCAPE_URI = bytes "a%20b%25%3F" /\
  ngx_escape_html (bytes "<a&b>") = bytes "&lt;a&amp;b&gt;" /\
  ngx_escape_json [10; 92; 65] = bytes "\u000A\\A" /\
  ngx_hex_dump [0; 171] = bytes "00ab".
Proof. split_and!; reflexivity. Qed.

(** ** The URI escape *)

(** The bytes a client allocates: one, or three for an escaped byte. *)
Theorem escape_uri_length type src :
  Z.of_nat (length (ngx_escape_uri src type)) =
  Z.of_nat (length src) + 2 * ngx_escape_uri_count src type.
Proof.
  induction src as [|c src IH]; cbn [ngx_escape_uri ngx_escape_uri_count]; [done|].
  rewrite length_app. destruct (escaped type c); simpl in *; lia.
Qed.

(** Nothing in the output needs escaping, except the '%' of the escapes. *)
Theorem escape_uri_safe type src :
  Forall is_byte src ->
  Forall (fun c => escaped type c = false \/ c = $ "%") (ngx_escape_uri src type).
Proof.
  intros Hb. induction Hb as [|c src Hc Hb IH]; simpl; [constructor|].
  apply Forall_app. split; [|done]. destruct (escaped type c) eqn:E; [|constructor; [by left|constructor]].
  assert (H : negb (escaped type (hex_hi c)) && negb (escaped type (hex_lo c)) = true).
  { revert Hc. apply (forall_bytes (fun c =>
      negb (escaped type (hex_hi c)) && negb (escaped type (hex_lo c)))).
    destruct type; vm_compute; reflexivity. }
  apply andb_true_iff in H as [H1%negb_true_iff H2%negb_true_iff].
  constructor; [by right|]. constructor; [by left|]. constructor; [by left|constructor].
Qed.

(** A digit of the escape, as the unescaper reads it. *)
Lemma hex_upper k :
  0 <= k < 16 ->
  let h := nth (Z.to_nat k) HEX 0 in
  (is_digit h = true /\ h - 48 = k) \/
  (is_digit h = false /\ (97 <=? Z.lor h 32) && (Z.lor h 32 <=? 102) = true /\
   Z.lor h 32 - 97 + 10 = k).
Proof.
  intros Hk.
  assert (k = 0 \/ k = 1 \/ k = 2 \/ k = 3 \/ k = 4 \/ k = 5 \/ k = 6 \/ k = 7 \/ k = 8 \/ k = 9 \/
    k = 10 \/ k = 11 \/ k = 12 \/ k = 13 \/ k = 14 \/ k = 15) as Hks by lia.
  repeat destruct Hks as [-> |Hks]; try (by left); try (by right). subst k. by right.
Qed.

Lemma unescape_quoted d prev k rest :
  0 <= k < 16 ->
  unescape_loop 0 sw_quoted d prev (nth (Z.to_nat k) HEX 0 :: rest) =
  unescape_loop 0 sw_quoted_second k (nth (Z.to_nat k) HEX 0) rest.
Proof.
  intros Hk. assert (u8 k = k) as Hu by (apply Z.mod_small; lia).
  cbn [unescape_loop].
  destruct (hex_upper k Hk) as [(-> & Hv)|(-> & -> & Hv)]; cbv iota; by rewrite Hv, Hu.
Qed.

Lemma unescape_second hi prev k rest :
  0 <= k < 16 -> 0 <= hi < 16 ->
  unescape_loop 0 sw_quoted_second hi prev (nth (Z.to_nat k) HEX 0 :: rest) =
  emit [hi * 16 + k] (unescape_loop 0 sw_usual hi (nth (Z.to_nat k) HEX 0) rest).
Proof.
  intros Hk Hh. cbn [unescape_loop]. rewrite Z.shiftl_mul_pow2 by lia. change (2 ^ 4) with 16.
  assert (Hu : forall v, v = hi * 16 + k -> u8 v = hi * 16 + k)
    by (intros v ->; apply Z.mod_small; lia).
  destruct (hex_upper k Hk) as [(-> & Hv)|(-> & -> & Hv)]; cbv iota;
    rewrite (Hu _) by lia; reflexivity.
Qed.

(** One escaped byte, unescaped: the two digits give the byte back. *)
Lemma unescape_hex d prev c rest :
  is_byte c ->
  exists d' prev', unescape_loop 0 sw_usual d prev ($ "%" :: hex_hi c :: hex_lo c :: rest) =
  emit [c] (unescape_loop 0 sw_usual d' prev' rest).
Proof.
  intros Hc. unfold is_byte in Hc.
  change (unescape_loop 0 sw_usual d prev (37 :: hex_hi c :: hex_lo c :: rest))
    with (unescape_loop 0 sw_quoted d 37 (hex_hi c :: hex_lo c :: rest)).
  unfold hex_hi, hex_lo. change 15 with (2 ^ 4 - 1). rewrite land_ones_mod by lia.
  rewrite Z.shiftr_div_pow2 by lia. change (2 ^ 4) with 16.
  pose proof (Z.mod_pos_bound c 16 ltac:(lia)).
  assert (0 <= c / 16 < 16) by (split; [apply Z.div_pos|apply Z.div_lt_upper_bound]; lia).
  rewrite unescape_quoted, unescape_second by done.
  pose proof (Z.div_mod c 16 ltac:(lia)).
  replace (c / 16 * 16 + c mod 16) with c by lia. eauto.
Qed.

(** Unescaping undoes escaping, in every mode that escapes '%'. *)
Theorem escape_uri_roundtrip type src :
  escaped type ($ "%") = true -> Forall is_byte src ->
  ngx_unescape_uri (ngx_escape_uri src type) 0 = (src, []).
Proof.
  intros Hp Hb. unfold ngx_unescape_uri.
  enough (forall d prev, unescape_loop 0 sw_usual d prev (ngx_escape_uri src type) = (src, []))
    by done.
  induction Hb as [|c src Hc Hb IH]; intros d prev; cbn [ngx_escape_uri]; [done|].
  destruct (escaped type c) eqn:E; cbn [app].
  - destruct (unescape_hex d prev c (ngx_escape_uri src type) Hc) as (d' & prev' & ->).
    by rewrite IH.
  - cbn [unescape_loop]. rewrite andb_false_r.
    rewrite (proj2 (Z.eqb_neq c 37)) by congruence. by rewrite IH.
Qed.

Lemma escape_uri_roundtrip_witness :
  ngx_unescape_uri (ngx_escape_uri (bytes "a b%2F?") NGX_ESCAPE_URI) 0 = (bytes "a b%2F?", []).
Proof. apply escape_uri_roundtrip; [reflexivity|by_decide]. Defined.

(** The mode for the "Refresh" header does not escape '%', although the comment
    at its table lists it: what it produces cannot be decoded. *)
Theorem escape_refresh_percent :
  escaped NGX_ESCAPE_REFRESH ($ "%") = false /\
  ngx_unescape_uri (ngx_escape_uri (bytes "%41") NGX_ESCAPE_REFRESH) 0 = (bytes "A", []).
Proof. split; reflexivity. Qed.

Lemma escape_uri_safe_witness :
  Forall (fun c => escaped NGX_ESCAPE_ARGS c = false \/ c = $ "%")
    (ngx_escape_uri (bytes "a&b=c d") NGX_ESCAPE_ARGS).
Proof. apply escape_uri_safe. by_decide. Defined.

(** In the state after n bytes of an escape the loop may write n more bytes
    than it reads. *)
Lemma unescape_loop_length type : forall src st d prev,
  let x := unescape_loop type st d prev src in
  (length (x.1) + length (x.2) <= length src +
    match st with sw_usual => 0 | sw_quoted => 1 | sw_quoted_second => 2 end)%nat.
Proof.
  assert (Hs : forall letter ch s2 s1, (length (un_second type letter ch s2 s1).1 <= 3)%nat).
  { intros. unfold un_second. repeat case_match; simpl; lia. }
  induction src as [|ch src IH]; intros st d prev; [simpl; lia|].
  cbn [unescape_loop].
  pose proof (IH sw_usual d ch). pose proof (IH sw_quoted d ch).
  pose proof (IH sw_quoted_second (u8 (ch - 48)) ch).
  pose proof (IH sw_quoted_second (u8 (Z.lor ch 32 - 97 + 10)) ch).
  cbv zeta in *. unfold emit.
  destruct st;
    repeat match goal with
      | |- context [if ?b then _ else _] => destruct b
      | |- context [un_second type ?l ?c ?a ?b] =>
          let H := fresh in pose proof (Hs l c a b) as H; destruct (un_second type l c a b)
      end;
    cbn [fst snd length] in *; rewrite ?length_app; cbn [length] in *; lia.
Qed.

(** Unescaping never writes more than it reads, so that it can be done in
    place and into a buffer of the size of the input. *)
Theorem unescape_uri_length src type :
  (length (ngx_unescape_uri src type).1 + length (ngx_unescape_uri src type).2 <= length src)%nat.
Proof.
  pose proof (unescape_loop_length type src sw_usual 0 0) as H. simpl in H.
  unfold ngx_unescape_uri. lia.
Qed.

(** ** The HTML escape *)

(** A reader of the four entities. *)
Fixpoint html_decode (n : nat) (l : list Z) : list Z :=
  match n, l with
  | S n, c :: l =>
      if c =? $ "&" then
        if decide (take 3 l = bytes "lt;") then $ "<" :: html_decode n (drop 3 l)
        else if decide (take 3 l = bytes "gt;") then $ ">" :: html_decode n (drop 3 l)
        else if decide (take 4 l = bytes "amp;") then $ "&" :: html_decode n (drop 4 l)
        else if decide (take 5 l = bytes "quot;") then 34 :: html_decode n (drop 5 l)
        else c :: html_decode n l
      else c :: html_decode n l
  | _, _ => []
  end.

Lemma html_decode_char n c l :
  html_decode (S n) (html_char c ++ l) = c :: html_decode n l.
Proof.
  unfold html_char.
  destruct (Z.eqb_spec c 60) as [->|]; [by rewrite <- (drop_0 l)|].
  destruct (Z.eqb_spec c 62) as [->|]; [by rewrite <- (drop_0 l)|].
  destruct (Z.eqb_spec c 38) as [->|]; [by rewrite <- (drop_0 l)|].
  destruct (Z.eqb_spec c 34) as [->|]; [by rewrite <- (drop_0 l)|].
  cbn [app html_decode]. by rewrite (proj2 (Z.eqb_neq c 38)).
Qed.

(** The escaped text holds none of the characters that end a text node or an
    attribute, has the length the first pass counts, and denotes the source. *)
Theorem escape_html_correct src :
  let out := ngx_escape_html src in
  Forall (fun c => c <> $ "<" /\ c <> $ ">" /\ c <> 34) out /\
  Z.of_nat (length out) = Z.of_nat (length src) + ngx_escape_html_len src /\
  html_decode (length out) out = src.
Proof.
  cbv zeta. split_and!.
  - induction src as [|c src IH]; cbn [ngx_escape_html]; [constructor|].
    apply Forall_app. split; [|done]. unfold html_char.
    repeat case_match; first [by_decide | constructor; [lia|constructor]].
  - induction src as [|c src IH]; cbn [ngx_escape_html ngx_escape_html_len]; [done|].
    rewrite length_app. unfold html_char. repeat case_match; simpl in *; lia.
  - assert (forall n, (length src <= n)%nat -> html_decode n (ngx_escape_html src) = src) as H.
    { induction src as [|c src IH]; intros n Hn; [by destruct n|].
      destruct n as [|n]; [simpl in Hn; lia|]. cbn [ngx_escape_html].
      rewrite html_decode_char, IH by (simpl in Hn; lia). done. }
    apply H. clear H. induction src as [|c src IH]; cbn [ngx_escape_html]; [done|].
    rewrite length_app. unfold html_char. repeat case_match; simpl; lia.
Qed.

(** ** The JSON escape *)

(** A reader of a JSON string: two-character escapes and four-digit ones. *)
Fixpoint json_decode (n : nat) (l : list Z) : option (list Z) :=
  match n, l with
  | _, [] => Some []
  | S n, c :: l =>
      if c =? 92 then
        match l with
        | [] => None
        | e :: l =>
            if e =? $ "u" then
              v ← pos_value 16 hex_digit 0 (take 4 l);
              rest ← json_decode n (drop 4 l); Some (v :: rest)
            else if (e =? 92) || (e =? 34) then rest ← json_decode n l; Some (e :: rest)
            else None
        end
      else if (c =? 34) || (c <=? 0x1f) then None
      else rest ← json_decode n l; Some (c :: rest)
  | O, _ => None
  end.

(** The four digits of a control character. *)
Definition json_digits (c : Z) : list Z :=
  let lo := Z.land c 0xf in
  [$ "0"; $ "0"; $ "0" + Z.shiftr c 4; if lo <? 10 then $ "0" + lo else $ "A" + lo - 10].

Lemma json_digits_value c : 0 <= c <= 0x1f -> pos_value 16 hex_digit 0 (json_digits c) = Some c.
Proof.
  intros Hc.
  pose (f := fun c => bool_decide (pos_value 16 hex_digit 0 (json_digits c) = Some c) || (0x1f <? c)).
  assert (H : f c = true).
  { apply forall_bytes; [vm_compute; reflexivity|unfold is_byte; lia]. }
  unfold f in H. rewrite (proj2 (Z.ltb_ge 0x1f c)), orb_false_r in H by lia.
  by apply bool_decide_eq_true in H.
Qed.

(** The escaped text is the body of a JSON string (no bare quote, backslash or
    control character) that denotes the source, and has the counted length. *)
Theorem escape_json_correct src :
  Forall is_byte src ->
  let out := ngx_escape_json src in
  Z.of_nat (length out) = Z.of_nat (length src) + ngx_escape_json_len src /\
  json_decode (length out) out = Some src.
Proof.
  intros Hb. cbv zeta. split.
  - clear Hb. induction src as [|c src IH]; cbn [ngx_escape_json ngx_escape_json_len]; [done|].
    rewrite length_app. repeat case_match; simpl in *; lia.
  - assert (forall n, (length src <= n)%nat -> json_decode n (ngx_escape_json src) = Some src) as H.
    { induction Hb as [|c src Hc Hb IH]; intros n Hn; [by destruct n|].
      destruct n as [|n]; [simpl in Hn; lia|]. cbn [ngx_escape_json].
      specialize (IH n ltac:(simpl in Hn; lia)). unfold is_byte in Hc.
      destruct (Z.ltb_spec 31 c) as [Hg|Hl].
      - destruct ((c =? 92) || (c =? 34)) eqn:E; cbn [app json_decode].
        + rewrite E. rewrite (proj2 (Z.eqb_neq c 117)) by lia. simpl. by rewrite IH.
        + rewrite (proj2 (Z.eqb_neq c 92)) by lia.
          rewrite (proj2 (orb_false_iff _ _)) by lia. by rewrite IH.
      - change (json_decode (S n) ([92; 117] ++ json_digits c ++ ngx_escape_json src)
          = Some (c :: src)).
        cbn [app json_decode]. change (92 =? 92) with true. change (117 =? 117) with true. cbv iota.
        rewrite take_app_le by done. rewrite drop_app_ge by done.
        change (take 4 (json_digits c)) with (json_digits c).
        rewrite json_digits_value by lia. simpl. rewrite drop_0. by rewrite IH. }
    apply H. clear. induction src as [|c src IH]; cbn [ngx_escape_json]; [done|].
    rewrite length_app. repeat case_match; simpl; lia.
Qed.

Lemma escape_json_correct_witness :
  let src := [$ "a"; 34; 92; 10; 255] in
  let out := ngx_escape_json src in
  Z.of_nat (length out) = Z.of_nat (length src) + ngx_escape_json_len src /\
  json_decode (length out) out = Some src.
Proof. apply escape_json_correct. by_decide. Defined.
