(* ===== verification/NgxBase64.v ===== *)
(** * NgxBase64: the base64 codecs

    [ngx_encode_base64], [ngx_decode_base64] and their URL-safe variants of
    src/core/ngx_string.c. *)

From S2P Require Import Prelude.

(* core/ngx_string.h:184-184 ngx_base64_encoded_length *)
Definition ngx_base64_encoded_length (len : Z) : Z := (len + 2) / 3 * 4.
(* core/ngx_string.h:185-185 ngx_base64_decoded_length *)
Definition ngx_base64_decoded_length (len : Z) : Z := (len + 3) / 4 * 3.

Definition at_ (basis : list Z) (i : Z) : Z := nth (Z.to_nat i) basis 0.

(* core/ngx_string.c:1141-1182 ngx_encode_base64_internal *)
Fixpoint ngx_encode_base64_internal (basis : list Z) (padding : bool) (s : list Z) : list Z :=
  match s with
  | [] => []
  | [s0] =>
      [at_ basis (Z.land (Z.shiftr s0 2) 0x3f); at_ basis (Z.shiftl (Z.land s0 3) 4)]
      ++ (if padding then [$ "="] else []) ++ (if padding then [$ "="] else [])
  | [s0; s1] =>
      [at_ basis (Z.land (Z.shiftr s0 2) 0x3f);
       at_ basis (Z.lor (Z.shiftl (Z.land s0 3) 4) (Z.shiftr s1 4));
       at_ basis (Z.shiftl (Z.land s1 0x0f) 2)]
      ++ (if padding then [$ "="] else [])
  | s0 :: s1 :: s2 :: s =>
      [at_ basis (Z.land (Z.shiftr s0 2) 0x3f);
       at_ basis (Z.lor (Z.shiftl (Z.land s0 3) 4) (Z.shiftr s1 4));
       at_ basis (Z.lor (Z.shiftl (Z.land s1 0x0f) 2) (Z.shiftr s2 6));
       at_ basis (Z.land s2 0x3f)]
      ++ ngx_encode_base64_internal basis padding s
  end.

Definition basis64 : list Z :=
  bytes "ABCDEFGHIJKLMNOPQRSTUVWXYZabcdefghijklmnopqrstuvwxyz0123456789+/".
Definition basis64url : list Z :=
  bytes "ABCDEFGHIJKLMNOPQRSTUVWXYZabcdefghijklmnopqrstuvwxyz0123456789-_".

(* core/ngx_string.c:1121-1128 ngx_encode_base64 *)
Definition ngx_encode_base64 : list Z -> list Z := ngx_encode_base64_internal basis64 true.
(* core/ngx_string.c:1131-1138 ngx_encode_base64url *)
Definition ngx_encode_base64url : list Z -> list Z := ngx_encode_base64_internal basis64url false.

(* core/ngx_string.c:1188-1206 ngx_decode_base64: basis64 *)
Definition decode64 : list Z :=
  [77; 77; 77; 77; 77; 77; 77; 77; 77; 77; 77; 77; 77; 77; 77; 77;
   77; 77; 77; 77; 77; 77; 77; 77; 77; 77; 77; 77; 77; 77; 77; 77;
   77; 77; 77; 77; 77; 77; 77; 77; 77; 77; 77; 62; 77; 77; 77; 63;
   52; 53; 54; 55; 56; 57; 58; 59; 60; 61; 77; 77; 77; 77; 77; 77;
   77;  0;  1;  2;  3;  4;  5;  6;  7;  8;  9; 10; 11; 12; 13; 14;
   15; 16; 17; 18; 19; 20; 21; 22; 23; 24; 25; 77; 77; 77; 77; 77;
   77; 26; 27; 28; 29; 30; 31; 32; 33; 34; 35; 36; 37; 38; 39; 40;
   41; 42; 43; 44; 45; 46; 47; 48; 49; 50; 51; 77; 77; 77; 77; 77] ++ replicate 128 77.

(* core/ngx_string.c:1215-1233 ngx_decode_base64url: basis64 *)
Definition decode64url : list Z :=
  [77; 77; 77; 77; 77; 77; 77; 77; 77; 77; 77; 77; 77; 77; 77; 77;
   77; 77; 77; 77; 77; 77; 77; 77; 77; 77; 77; 77; 77; 77; 77; 77;
   77; 77; 77; 77; 77; 77; 77; 77; 77; 77; 77; 77; 77; 62; 77; 77;
   52; 53; 54; 55; 56; 57; 58; 59; 60; 61; 77; 77; 77; 77; 77; 77;
   77;  0;  1;  2;  3;  4;  5;  6;  7;  8;  9; 10; 11; 12; 13; 14;
   15; 16; 17; 18; 19; 20; 21; 22; 23; 24; 25; 77; 77; 77; 77; 63;
   77; 26; 27; 28; 29; 30; 31; 32; 33; 34; 35; 36; 37; 38; 39; 40;
   41; 42; 43; 44; 45; 46; 47; 48; 49; 50; 51; 77; 77; 77; 77; 77] ++ replicate 128 77.

(** The bytes up to the first '=', all in the alphabet; [None] for
    [return NGX_ERROR]. *)
(* core/ngx_string.c:1245-1253 ngx_decode_base64_internal: for (len = 0; ..) *)
Fixpoint decode_prefix (basis : list Z) (src : list Z) : option (list Z) :=
  match src with
  | [] => Some []
  | c :: src =>
      if c =? $ "=" then Some []
      else if at_ basis c =? 77 then None
      else l ← decode_prefix basis src; Some (c :: l)
  end.

(* core/ngx_string.c:1262-1277 ngx_decode_base64_internal: while (len > 3) *)
Fixpoint decode_groups (basis : list Z) (s : list Z) : list Z :=
  match s with
  | s0 :: s1 :: s2 :: s3 :: s =>
      u8 (Z.lor (Z.shiftl (at_ basis s0) 2) (Z.shiftr (at_ basis s1) 4)) ::
      u8 (Z.lor (Z.shiftl (at_ basis s1) 4) (Z.shiftr (at_ basis s2) 2)) ::
      u8 (Z.lor (Z.shiftl (at_ basis s2) 6) (at_ basis s3)) :: decode_groups basis s
  | [s0; s1; s2] =>
      [u8 (Z.lor (Z.shiftl (at_ basis s0) 2) (Z.shiftr (at_ basis s1) 4));
       u8 (Z.lor (Z.shiftl (at_ basis s1) 4) (Z.shiftr (at_ basis s2) 2))]
  | [s0; s1] => [u8 (Z.lor (Z.shiftl (at_ basis s0) 2) (Z.shiftr (at_ basis s1) 4))]
  | _ => []
  end.

(* core/ngx_string.c:1239-1282 ngx_decode_base64_internal *)
Definition ngx_decode_base64_internal (src basis : list Z) : option (list Z) :=
  s ← decode_prefix basis src;
  if Z.of_nat (length s) `mod` 4 =? 1 then None else Some (decode_groups basis s).

(* core/ngx_string.c:1185-1209 ngx_decode_base64 *)
Definition ngx_decode_base64 (src : list Z) : option (list Z) :=
  ngx_decode_base64_internal src decode64.
(* core/ngx_string.c:1212-1236 ngx_decode_base64url *)
Definition ngx_decode_base64url (src : list Z) : option (list Z) :=
  ngx_decode_base64_internal src decode64url.

Example base64_example :
  ngx_encode_base64 (bytes "Hello") = bytes "SGVsbG8=" /\
  ngx_decode_base64 (bytes "SGVsbG8=") = Some (bytes "Hello").
Proof. split; reflexivity. Qed.

(** ** Sextets *)

(** An alphabet and its inverse table. *)
Definition alphabet_ok (enc dec : list Z) : bool :=
  forallb (fun k => (at_ dec (at_ enc k) =? k) && negb (at_ enc k =? $ "=")) (seqZ 0 64).

Lemma alphabet_spec enc dec k :
  alphabet_ok enc dec = true -> 0 <= k < 64 ->
  at_ dec (at_ enc k) = k /\ (at_ enc k =? $ "=") = false.
Proof.
  unfold alphabet_ok. rewrite forallb_forall. intros H Hk.
  specialize (H k). rewrite andb_true_iff, negb_true_iff, Z.eqb_eq in H.
  apply H, list_elem_of_In, elem_of_seqZ. lia.
Qed.

(** The sextets of three bytes, as numbers. *)
Lemma sextets a b c :
  is_byte a -> is_byte b -> is_byte c ->
  Z.land (Z.shiftr a 2) 0x3f = a / 4 /\
  Z.lor (Z.shiftl (Z.land a 3) 4) (Z.shiftr b 4) = a `mod` 4 * 16 + b / 16 /\
  Z.lor (Z.shiftl (Z.land b 0x0f) 2) (Z.shiftr c 6) = b `mod` 16 * 4 + c / 64 /\
  Z.land c 0x3f = c `mod` 64 /\
  0 <= a / 4 < 64 /\ 0 <= a `mod` 4 < 4 /\ 0 <= b / 16 < 16 /\ 0 <= b `mod` 16 < 16 /\
  0 <= c / 64 < 4 /\ 0 <= c `mod` 64 < 64.
Proof.
  unfold is_byte. intros Ha Hb Hc.
  change 0x3f with (2 ^ 6 - 1). change 3 with (2 ^ 2 - 1) at 1. change 0x0f with (2 ^ 4 - 1).
  rewrite !land_ones_mod by lia. rewrite !Z.shiftr_div_pow2 by lia.
  change (2 ^ 2) with 4. change (2 ^ 4) with 16. change (2 ^ 6) with 64.
  pose proof (Z.mod_pos_bound a 4 ltac:(lia)). pose proof (Z.mod_pos_bound b 16 ltac:(lia)).
  pose proof (Z.mod_pos_bound c 64 ltac:(lia)).
  assert (0 <= a / 4 < 64 /\ 0 <= b / 16 < 16 /\ 0 <= c / 64 < 4) as (? & ? & ?).
  { split_and!; first [apply Z.div_pos; lia | apply Z.div_lt_upper_bound; lia]. }
  rewrite !lor_shiftl_add by lia.
  rewrite (Z.mod_small (a / 4)) by lia. split_and!; lia.
Qed.

(** Joining them again. *)
Lemma join_sextets a b c :
  is_byte a -> is_byte b -> is_byte c ->
  u8 (Z.lor (Z.shiftl (a / 4) 2) (Z.shiftr (a `mod` 4 * 16 + b / 16) 4)) = a /\
  u8 (Z.lor (Z.shiftl (a `mod` 4 * 16 + b / 16) 4) (Z.shiftr (b `mod` 16 * 4 + c / 64) 2)) = b /\
  u8 (Z.lor (Z.shiftl (b `mod` 16 * 4 + c / 64) 6) (c `mod` 64)) = c.
Proof.
  intros Ha Hb Hc. destruct (sextets a b c Ha Hb Hc) as (_ & _ & _ & _ & ? & ? & ? & ? & ? & ?).
  unfold is_byte in *. rewrite !Z.shiftr_div_pow2 by lia.
  change (2 ^ 4) with 16. change (2 ^ 2) with 4.
  rewrite (Z.div_add_l (a `mod` 4)), (Z.div_small (b / 16)) by lia.
  rewrite (Z.div_add_l (b `mod` 16)), (Z.div_small (c / 64)) by lia.
  rewrite !lor_shiftl_add by lia. change (2 ^ 4) with 16. change (2 ^ 2) with 4. change (2 ^ 6) with 64.
  pose proof (Z.div_mod a 4 ltac:(lia)). pose proof (Z.div_mod b 16 ltac:(lia)).
  pose proof (Z.div_mod c 64 ltac:(lia)).
  unfold u8. change (2 ^ 8) with 256. split_and!.
  - rewrite Z.mod_small; lia.
  - symmetry. apply Z.mod_unique with (a `mod` 4); lia.
  - symmetry. apply Z.mod_unique with (b `mod` 16); lia.
Qed.

Section codec.
Variables (enc dec : list Z) (padding : bool).
Hypothesis alphabet : alphabet_ok enc dec = true.

Lemma prefix_sextet k l :
  0 <= k < 64 ->
  decode_prefix dec (at_ enc k :: l) = (s ← decode_prefix dec l; Some (at_ enc k :: s)).
Proof.
  intros Hk. destruct (alphabet_spec _ _ k alphabet Hk) as [Hd He]. cbn [decode_prefix].
  rewrite He, Hd. by rewrite (proj2 (Z.eqb_neq k 77)) by lia.
Qed.

Lemma at_sextet k : 0 <= k < 64 -> at_ dec (at_ enc k) = k.
Proof. intros Hk. by apply alphabet_spec. Qed.

Lemma prefix_padding :
  decode_prefix dec ((if padding then [$ "="] else []) ++ (if padding then [$ "="] else [])) = Some []
  /\ decode_prefix dec (if padding then [$ "="] else []) = Some [].
Proof. by destruct padding. Qed.

(** The characters that the encoder produces before the padding. *)
Lemma encode_decode src :
  Forall is_byte src ->
  exists s, decode_prefix dec (ngx_encode_base64_internal enc padding src) = Some s /\
    Z.of_nat (length s) `mod` 4 <> 1 /\ decode_groups dec s = src.
Proof.
  destruct prefix_padding as [Hp2 Hp1].
  induction src as [src IH] using (induction_ltof1 _ (@length Z)). unfold ltof in IH. intros Hb.
  assert (is_byte 0) as H0 by (unfold is_byte; lia).
  destruct src as [|a [|b [|c src]]]; [by exists []|..]; rewrite ?Forall_cons in Hb;
    destruct_and?; cbn [ngx_encode_base64_internal app].
  - destruct (sextets a 0 0) as (E1 & E2 & _ & _ & ? & ? & _); try done.
    rewrite Z.shiftr_0_l, Z.lor_0_r in E2. change (0 / 16) with 0 in E2.
    destruct (join_sextets a 0 0) as (J1 & _ & _); try done. change (0 / 16) with 0 in J1.
    rewrite E1, E2, !prefix_sextet by lia. rewrite Hp2. eexists. split; [reflexivity|].
    split; [done|]. cbn [decode_groups].
    rewrite !at_sextet by lia. by rewrite J1.
  - destruct (sextets a b 0) as (E1 & E2 & E3 & _ & ? & ? & ? & ? & _); try done.
    rewrite Z.shiftr_0_l, Z.lor_0_r in E3. change (0 / 64) with 0 in E3.
    destruct (join_sextets a b 0) as (J1 & J2 & _); try done. change (0 / 64) with 0 in J2.
    rewrite E1, E2, E3, !prefix_sextet by lia. rewrite Hp1. eexists. split; [reflexivity|].
    split; [done|]. cbn [decode_groups].
    rewrite !at_sextet by lia. by rewrite J1, J2.
  - destruct (sextets a b c) as (E1 & E2 & E3 & E4 & ? & ? & ? & ? & ? & ?); try done.
    destruct (join_sextets a b c) as (J1 & J2 & J3); try done.
    rewrite E1, E2, E3, E4, !prefix_sextet by lia.
    destruct (IH src) as (s & -> & Hm & Hg); [simpl; lia|done|].
    eexists. split; [reflexivity|]. split.
    + cbn [length]. replace (Z.of_nat (S (S (S (S (length s)))))) with (Z.of_nat (length s) + 1 * 4) by lia.
      by rewrite Z_mod_plus_full.
    + cbn [decode_groups].
      rewrite !at_sextet by lia. by rewrite J1, J2, J3, Hg.
Qed.

Lemma codec_roundtrip src :
  Forall is_byte src ->
  ngx_decode_base64_internal (ngx_encode_base64_internal enc padding src) dec = Some src.
Proof.
  intros Hb. destruct (encode_decode src Hb) as (s & Hs & Hm & Hg).
  unfold ngx_decode_base64_internal. rewrite Hs. simpl.
  by rewrite (proj2 (Z.eqb_neq _ _) Hm), Hg.
Qed.
End codec.

(** Decoding undoes encoding, for both alphabets, with and without padding. *)
Theorem base64_roundtrip src :
  Forall is_byte src ->
  ngx_decode_base64 (ngx_encode_base64 src) = Some src /\
  ngx_decode_base64url (ngx_encode_base64url src) = Some src.
Proof. intros Hb. split; by apply codec_roundtrip. Qed.

Lemma base64_roundtrip_witness :
  ngx_decode_base64 (ngx_encode_base64 (bytes "any carnal pleas")) = Some (bytes "any carnal pleas") /\
  ngx_decode_base64url (ngx_encode_base64url (bytes "any carnal pleas"))
  = Some (bytes "any carnal pleas").
Proof. apply base64_roundtrip. by_decide. Defined.

(** ** Lengths *)

Lemma encode_length basis padding src :
  let n := Z.of_nat (length src) in
  let m := Z.of_nat (length (ngx_encode_base64_internal basis padding src)) in
  m <= ngx_base64_encoded_length n /\ (padding = true -> m = ngx_base64_encoded_length n).
Proof.
  unfold ngx_base64_encoded_length.
  induction src as [src IH] using (induction_ltof1 _ (@length Z)). unfold ltof in IH.
  destruct src as [|a [|b [|c src]]]; [by destruct padding..|].
  cbn [ngx_encode_base64_internal length app].
  specialize (IH src ltac:(simpl; lia)). cbv zeta in *.
  replace (Z.of_nat (S (S (S (length src)))) + 2) with (Z.of_nat (length src) + 2 + 1 * 3) by lia.
  rewrite Z.div_add by lia. destruct IH as [I1 I2].
  split; [lia|intros Hp; specialize (I2 Hp); lia].
Qed.

Lemma decode_groups_length basis s :
  Z.of_nat (length (decode_groups basis s)) <= ngx_base64_decoded_length (Z.of_nat (length s)).
Proof.
  unfold ngx_base64_decoded_length.
  induction s as [s IH] using (induction_ltof1 _ (@length Z)). unfold ltof in IH.
  destruct s as [|a [|b [|c [|d s]]]]; [by vm_compute..|].
  cbn [decode_groups length]. specialize (IH s ltac:(simpl; lia)).
  replace (Z.of_nat (S (S (S (S (length s))))) + 3) with (Z.of_nat (length s) + 3 + 1 * 4) by lia.
  rewrite Z.div_add by lia. lia.
Qed.

Lemma decode_prefix_length basis src s :
  decode_prefix basis src = Some s -> (length s <= length src)%nat.
Proof.
  revert s. induction src as [|c src IH]; intros s; simpl; [by intros; simplify_eq|].
  destruct (c =? 61); [intros; simplify_eq; simpl; lia|]. destruct (_ =? 77); [done|].
  destruct (decode_prefix basis src) as [l|]; simpl; [|done].
  intros; simplify_eq. specialize (IH l eq_refl). simpl. lia.
Qed.

(** The macros that callers allocate with are upper bounds of what the codecs
    write, and exact for the padded encoder. *)
Theorem base64_lengths src :
  let n := Z.of_nat (length src) in
  Z.of_nat (length (ngx_encode_base64 src)) = ngx_base64_encoded_length n /\
  Z.of_nat (length (ngx_encode_base64url src)) <= ngx_base64_encoded_length n /\
  (forall dst, ngx_decode_base64 src = Some dst \/ ngx_decode_base64url src = Some dst ->
     Z.of_nat (length dst) <= ngx_base64_decoded_length n).
Proof.
  intros n. destruct (encode_length basis64 true src) as [_ H1].
  destruct (encode_length basis64url false src) as [H2 _].
  split_and!; [by apply H1|done|].
  assert (H : forall basis dst, ngx_decode_base64_internal src basis = Some dst ->
    Z.of_nat (length dst) <= ngx_base64_decoded_length n).
  { intros basis dst. unfold ngx_decode_base64_internal.
    destruct (decode_prefix basis src) as [s|] eqn:E; simpl; [|done].
    destruct (_ =? 1); [done|]. intros; simplify_eq.
    apply decode_prefix_length in E. pose proof (decode_groups_length basis s).
    unfold ngx_base64_decoded_length in *.
    assert ((Z.of_nat (length s) + 3) / 4 <= (n + 3) / 4) by (apply Z.div_le_mono; unfold n; lia).
    lia. }
  intros dst [Hd|Hd]; by eapply H.
Qed.
