(* ===== verification/HttpUnsafeUri.v ===== *)
(** * HttpUnsafeUri: [ngx_http_parse_unsafe_uri]

    The check that src/http/ngx_http_parse.c makes on a URI that does not come
    from the request line (an X-Accel-Redirect header, an SSI include, a DAV
    destination): it splits off the arguments, unescapes the path and refuses
    NUL bytes and ".." segments. *)

From S2P Require Import Prelude HttpRequest NgxEscape.

(* os/unix/ngx_files.h:201-201 ngx_path_separator *)
Definition ngx_path_separator (c : Z) : bool := c =? $ "/".

(** At the separator [ch] with [p] after it: "/../" or a final "/..".  The
    length test [len > 2] says that [p] has two bytes. *)
(* http/ngx_http_parse.c:1855-1864 ngx_http_parse_unsafe_uri: detect dot segments *)
Definition dotdot_at (ch : Z) (p : list Z) : bool :=
  ngx_path_separator ch &&
  match p with
  | p0 :: p1 :: p => (p0 =? $ ".") && (p1 =? $ ".") &&
      match p with [] => true | p2 :: _ => ngx_path_separator p2 end
  | _ => false
  end.

(** The same for the start of the URI. *)
(* http/ngx_http_parse.c:1824-1828 ngx_http_parse_unsafe_uri *)
Definition starts_dotdot (p : list Z) : bool :=
  match p with
  | p0 :: p1 :: p => (p0 =? $ ".") && (p1 =? $ ".") &&
      match p with [] => true | p2 :: _ => ngx_path_separator p2 end
  | _ => false
  end.

(** The URI up to a '?', what follows it, and [quoted]; [None]: unsafe. *)
(* http/ngx_http_parse.c:1830-1865 ngx_http_parse_unsafe_uri: for ( ; len; len--) *)
Fixpoint unsafe_loop (l : list Z) (quoted : bool) : option (list Z * option (list Z) * bool) :=
  match l with
  | [] => Some ([], None, quoted)
  | ch :: p =>
      let continue quoted :=
        '(u, a, q) ← unsafe_loop p quoted; Some (ch :: u, a, q) in
      if ch =? $ "%" then continue true
      else if is_usual ch then continue quoted
      else if ch =? $ "?" then Some ([], Some p, quoted)
      else if ch =? 0 then None
      else if dotdot_at ch p then None
      else continue quoted
  end.

(* http/ngx_http_parse.c:1896-1914 ngx_http_parse_unsafe_uri: for ( ; len; len--) *)
Fixpoint safe_loop (l : list Z) : bool :=
  match l with
  | [] => true
  | ch :: p => if ch =? 0 then false else if dotdot_at ch p then false else safe_loop p
  end.

(** [*uri] and [*args] after the call. *)
Record unsafe_result : Type := UnsafeResult {
  us_rc : Z;
  us_uri : list Z;
  us_args : option (list Z)
}.

(* http/ngx_http_parse.c:1808-1927 ngx_http_parse_unsafe_uri *)
Definition ngx_http_parse_unsafe_uri (uri : list Z) : unsafe_result :=
  let unsafe uri args := UnsafeResult NGX_ERROR uri args in
  if match uri with [] => true | c :: _ => c =? $ "?" end then unsafe uri None
  else if starts_dotdot uri then unsafe uri None
  else
    match unsafe_loop uri false with
    | None => unsafe uri None
    | Some (u, args, quoted) =>
        if quoted then
          let u := (ngx_unescape_uri u 0).1 in
          if starts_dotdot u then unsafe u args
          else if safe_loop u then UnsafeResult NGX_OK u args
          else unsafe u args
        else UnsafeResult NGX_OK u args
    end.

(** ** Segments *)

Fixpoint segments (l : list Z) : list (list Z) :=
  match l with
  | [] => [[]]
  | c :: l =>
      if c =? $ "/" then [] :: segments l
      else match segments l with s :: ss => (c :: s) :: ss | [] => [[c]] end
  end.

Definition dotdot : list Z := [$ "."; $ "."].

Lemma segments_cons l : exists s ss, segments l = s :: ss.
Proof.
  destruct l as [|c l]; simpl; [eauto|]. destruct (c =? 47); [eauto|].
  destruct (segments l); eauto.
Qed.

(** The first segment is ".." exactly when the test says so. *)
Lemma starts_dotdot_spec l ss : segments l = dotdot :: ss -> starts_dotdot l = true.
Proof.
  unfold dotdot. destruct l as [|a [|b l]]; simpl.
  - done.
  - destruct (a =? 47); [|intros; simplify_eq]. done.
  - destruct (a =? 47); [done|]. destruct (b =? 47); [intros; simplify_eq|].
    destruct l as [|c l]; simpl.
    + intros; simplify_eq. done.
    + unfold ngx_path_separator. destruct (c =? 47); [intros; by simplify_eq|].
      destruct (segments l); intros; simplify_eq.
Qed.

Lemma dotdot_at_spec ch p : dotdot_at ch p = (ch =? 47) && starts_dotdot p.
Proof. done. Qed.

Lemma starts_dotdot_iff l : starts_dotdot l = true <-> exists ss, segments l = dotdot :: ss.
Proof.
  split; [|by intros [ss H]; eapply starts_dotdot_spec].
  destruct l as [|a [|b l]]; simpl; [done..|]. unfold ngx_path_separator, dotdot. intros H.
  rewrite !andb_true_iff, !Z.eqb_eq in H. destruct H as [[-> ->] H]. simpl.
  destruct l as [|c l]; [by exists []|]. simpl in *. rewrite H. eauto.
Qed.

(** ** What is checked *)

(** The path before the first '?' and the arguments behind it. *)
Fixpoint split_args (l : list Z) : list Z * option (list Z) :=
  match l with
  | [] => ([], None)
  | c :: l => if c =? $ "?" then ([], Some l) else let '(path, args) := split_args l in (c :: path, args)
  end.

Definition args_rest (args : option (list Z)) : list Z := match args with Some a => $ "?" :: a | None => [] end.

Definition quoted (path : list Z) : bool := existsb (fun c => c =? $ "%") path.

(** The segments that are looked at: with arguments the last one is not. *)
Definition checked (path : list Z) (args : option (list Z)) : list (list Z) :=
  match args with None => segments path | Some _ => removelast (segments path) end.

Definition nonul (l : list Z) : bool := forallb (fun c => negb (c =? 0)) l.

(** No separator in [path] is followed by dots. *)
Fixpoint no_dotdot (path rest : list Z) : bool :=
  match path with [] => true | c :: p => negb (dotdot_at c (p ++ rest)) && no_dotdot p rest end.

Lemma nonul_spec l : nonul l = true <-> Forall (fun c => c <> 0) l.
Proof.
  unfold nonul. induction l as [|c l IH]; [done|]. cbn [forallb]. rewrite andb_true_iff, Forall_cons, IH.
  by destruct (Z.eqb_spec c 0); naive_solver.
Qed.

Lemma starts_checked path args :
  starts_dotdot (path ++ args_rest args) = true <-> exists ss, checked path args = dotdot :: ss.
Proof.
  destruct args as [a|]; unfold args_rest, checked; [|rewrite app_nil_r; apply starts_dotdot_iff].
  rewrite starts_dotdot_iff. unfold dotdot.
  destruct path as [|x [|y [|z path]]]; cbn [app segments removelast].
  - change (63 =? 47) with false. cbn iota. destruct (segments_cons a) as (s & ss & ->). split; intros [? H]; simplify_eq.
  - change (63 =? 47) with false. cbn iota. destruct (segments_cons a) as (s & ss & ->).
    destruct (x =? 47); simpl; (split; intros [? H]; simplify_eq).
  - change (63 =? 47) with false. cbn iota. destruct (segments_cons a) as (s & ss & ->).
    destruct (x =? 47), (y =? 47); simpl; (split; intros [? H]; simplify_eq).
  - destruct (segments_cons (path ++ 63 :: a)) as (s & ss & ->). destruct (segments_cons path) as (s' & ss' & ->).
    destruct (x =? 47), (y =? 47), (z =? 47); simpl; (split; intros [? H]; [|destruct ss']; simplify_eq; eauto).
Qed.

Lemma checked_sep p args : checked (47 :: p) args = [] :: checked p args.
Proof.
  unfold checked. cbn [segments]. change (47 =? 47) with true. cbn iota. destruct args; [|done].
  destruct (segments_cons p) as (s & ss & ->). done.
Qed.

Lemma checked_other c p args : c <> 47 -> tail (checked (c :: p) args) = tail (checked p args).
Proof.
  intros Hc%Z.eqb_neq. unfold checked. cbn [segments]. change ($ "/") with 47. rewrite Hc.
  destruct (segments_cons p) as (s & [|s' ss] & ->), args; done.
Qed.

Lemma no_dotdot_spec path args :
  no_dotdot path (args_rest args) = true <-> Forall (fun s => s <> dotdot) (tail (checked path args)).
Proof.
  induction path as [|c p IH]; [by destruct args|]. cbn [no_dotdot].
  rewrite andb_true_iff, IH, dotdot_at_spec, negb_true_iff. destruct (Z.eqb_spec c 47) as [->|Hc].
  - rewrite checked_sep. cbn [andb tail]. rewrite <- not_true_iff_false, starts_checked.
    destruct (checked p args) as [|s ss]; cbn [tail]; [split; [done|intros _; split; [by intros [? ?]|done]]|].
    rewrite Forall_cons. split; intros [H1 H2]; (split; [|done]).
    + intros ->. apply H1. eauto.
    + intros [? [= -> ->]]. done.
  - rewrite checked_other by done. cbn [andb]. naive_solver.
Qed.

(** No segment that is looked at is "..". *)
Lemma clean_spec path args :
  negb (starts_dotdot (path ++ args_rest args)) && no_dotdot path (args_rest args) = true <->
  Forall (fun s => s <> dotdot) (checked path args).
Proof.
  rewrite andb_true_iff, negb_true_iff, no_dotdot_spec, <- not_true_iff_false, starts_checked.
  destruct (checked path args) as [|s ss]; cbn [tail]; [split; [done|intros _; split; [by intros [? ?]|done]]|].
  rewrite Forall_cons. split; intros [H1 H2]; (split; [|done]).
  - intros ->. apply H1. eauto.
  - intros [? [= -> ->]]. done.
Qed.

(** ** The loops *)

Lemma safe_loop_eq l : safe_loop l = nonul l && no_dotdot l [].
Proof.
  induction l as [|c l IH]; [done|]. cbn [safe_loop nonul forallb no_dotdot]. rewrite app_nil_r, IH. unfold nonul.
  destruct (c =? 0), (dotdot_at c l); cbn; try done. by rewrite andb_false_r.
Qed.

Lemma split_args_app l : l = (split_args l).1 ++ args_rest (split_args l).2.
Proof.
  induction l as [|c l IH]; [done|]. cbn [split_args]. destruct (Z.eqb_spec c ($ "?")) as [->|]; [done|].
  destruct (split_args l) as [path args]. cbn in *. by f_equal.
Qed.

Lemma unsafe_loop_eq l q : Forall is_byte l ->
  unsafe_loop l q =
    let '(path, args) := split_args l in
    if nonul path && no_dotdot path (args_rest args) then Some (path, args, q || quoted path) else None.
Proof.
  intros Hb. revert q. induction Hb as [|c p Hc Hb IH]; intros q; [by cbn; rewrite orb_false_r|].
  assert (Hu : is_usual c = true -> c <> 0 /\ c <> 47 /\ c <> 63 /\ c <> 37).
  { rewrite is_usual_spec by done. unfold unusual. simpl. lia. }
  cbn [unsafe_loop split_args]. pose proof (split_args_app p) as Hp.
  change ($ "%") with 37. change ($ "?") with 63.
  destruct (Z.eqb_spec c 63) as [->|H63]; [by cbn; rewrite orb_false_r|].
  rewrite !IH. clear IH. destruct (split_args p) as [path args]. cbn [fst snd] in Hp.
  cbn [nonul forallb no_dotdot quoted existsb]. rewrite <- Hp, dotdot_at_spec.
  fold (nonul path). fold (quoted path). change ($ "%") with 37.
  destruct (Z.eqb_spec c 37) as [->|H37].
  { change (37 =? 0) with false. change (37 =? 47) with false. cbn [negb andb orb].
    destruct (nonul path && no_dotdot path (args_rest args)); cbn; [by rewrite orb_true_r|done]. }
  destruct (is_usual c).
  { destruct (Hu eq_refl) as (H0 & H47 & _). rewrite (proj2 (Z.eqb_neq c 0) H0), (proj2 (Z.eqb_neq c 47) H47). cbn [negb andb orb].
    by destruct (nonul path && no_dotdot path (args_rest args)). }
  destruct (Z.eqb_spec c 0) as [->|H0]; [done|]. cbn [negb andb orb].
  destruct ((c =? 47) && starts_dotdot p); cbn [negb andb]; [by rewrite andb_false_r|].
  by destruct (nonul path && no_dotdot path (args_rest args)).
Qed.

(** ** The theorem *)

Definition clean (l : list Z) (ss : list (list Z)) : Prop :=
  Forall (fun c => c <> 0) l /\ Forall (fun s => s <> dotdot) ss.

(** C36. The check accepts a URI exactly when the path before its first '?' is
    not empty, has no NUL, and none of its segments is "..", where the last one
    is not looked at if there are arguments; and when, if the path has a '%', the
    unescaped path has no NUL and no segment at all that is "..".  The caller
    then gets the path, unescaped if it has a '%', and the arguments.  So the
    only ".." that can be left is the last segment of a path without '%' that
    has arguments ([unsafe_uri_dotdot_query]). *)
Theorem unsafe_uri_safe uri : Forall is_byte uri ->
  let r := ngx_http_parse_unsafe_uri uri in
  let path := (split_args uri).1 in
  let args := (split_args uri).2 in
  let u := if quoted path then (ngx_unescape_uri path 0).1 else path in
  (us_rc r = NGX_OK \/ us_rc r = NGX_ERROR) /\
  (us_rc r = NGX_OK <->
     path <> [] /\ clean path (checked path args) /\ (quoted path = true -> clean u (segments u))) /\
  (us_rc r = NGX_OK -> us_uri r = u /\ us_args r = args).
Proof.
  intros Hb r path args u. pose proof (split_args_app uri) as Huri. fold path args in Huri.
  pose proof (clean_spec path args) as Hclean. pose proof (nonul_spec path) as Hnul.
  assert (Hpath : (match uri with [] => true | c :: _ => c =? $ "?" end) = false <-> path <> []).
  { unfold path. destruct uri as [|c uri]; [done|]. cbn [split_args]. destruct (c =? $ "?"); [done|].
    by destruct (split_args uri). }
  subst r. unfold ngx_http_parse_unsafe_uri.
  destruct (match uri with [] => true | c :: _ => c =? $ "?" end).
  { cbn. split; [by right|]. split; [|done]. split; [done|]. by intros (H%Hpath & _). }
  specialize (proj1 Hpath eq_refl) as Hne. unfold clean.
  assert (starts_dotdot uri = starts_dotdot (path ++ args_rest args)) as -> by congruence.
  destruct (starts_dotdot (path ++ args_rest args)) eqn:Es; cbn [negb andb] in Hclean.
  { cbn. split; [by right|]. split; [|done]. split; [done|]. by intros (_ & [_ H%Hclean] & _). }
  rewrite (unsafe_loop_eq uri false Hb). rewrite (surjective_pairing (split_args uri)). fold path args. cbn [orb].
  destruct (nonul path) eqn:En; cbn [andb].
  2:{ cbn. split; [by right|]. split; [|done]. split; [done|]. by intros (_ & [H%Hnul _] & _). }
  destruct (no_dotdot path (args_rest args)).
  2:{ cbn. split; [by right|]. split; [|done]. split; [done|]. by intros (_ & [_ H%Hclean] & _). }
  assert (Forall (fun c => c <> 0) path /\ Forall (fun s => s <> dotdot) (checked path args)) as Hraw
    by (split; [by apply Hnul|by apply Hclean]).
  subst u. destruct (quoted path) eqn:Eq; [|cbn; split; [by left|]; by split].
  set (v := (ngx_unescape_uri path 0).1). pose proof (clean_spec v None) as Hv. pose proof (nonul_spec v) as Hvn.
  unfold args_rest, checked in Hv. rewrite app_nil_r in Hv. rewrite safe_loop_eq.
  destruct (starts_dotdot v); cbn [negb andb] in Hv.
  { cbn. split; [by right|]. split; [|done]. split; [done|]. intros (_ & _ & H). destruct (H eq_refl) as [_ H'%Hv]. done. }
  destruct (nonul v); cbn [andb].
  2:{ cbn. split; [by right|]. split; [|done]. split; [done|]. intros (_ & _ & H). destruct (H eq_refl) as [H'%Hvn _]. done. }
  destruct (no_dotdot v []); cbn.
  2:{ split; [by right|]. split; [|done]. split; [done|]. intros (_ & _ & H). destruct (H eq_refl) as [_ H'%Hv]. done. }
  split; [by left|]. split; [|done]. split; [|done]. intros _. split; [done|]. split; [done|].
  intros _. split; [by apply Hvn|by apply Hv].
Qed.

Lemma unsafe_uri_safe_witness :
  let uri := bytes "/a/%2e%2e./b?x" in
  us_rc (ngx_http_parse_unsafe_uri uri) = NGX_OK /\
  us_uri (ngx_http_parse_unsafe_uri uri) = bytes "/a/.../b" /\
  us_args (ngx_http_parse_unsafe_uri uri) = Some (bytes "x").
Proof.
  intros uri. split; [reflexivity|].
  refine (proj2 (proj2 (unsafe_uri_safe uri _)) eq_refl). by_decide.
Defined.

(** The comment at the test says that a final "/.." is detected; before a '?'
    it is not, because the end of the path is taken to be the end of the whole
    string. *)
Theorem unsafe_uri_dotdot_query :
  ngx_http_parse_unsafe_uri (bytes "/a/..") = UnsafeResult NGX_ERROR (bytes "/a/..") None /\
  ngx_http_parse_unsafe_uri (bytes "/a/..?x") =
    UnsafeResult NGX_OK (bytes "/a/..") (Some (bytes "x")).
Proof. split; reflexivity. Qed.
