(* ===== verification/Http2HuffTables.v ===== *)
(** * Http2HuffTables: the tables of the HPACK Huffman code

    The decoding automaton [ngx_http_v2_huff_decode_codes] of
    src/http/v2/ngx_http_v2_huff_decode.c (256 states, one row of 16
    transitions for each) and the two encoding tables of
    src/http/v2/ngx_http_v2_huff_encode.c.  The last table, [huff_prefix], is
    not in the code: it gives for each state of the automaton the bits of the
    code that the state has read, as their number and value; Http2Huff checks
    it against the automaton. *)

From S2P Require Import Prelude.

(* http/v2/ngx_http_v2_huff_decode.c:13-18 ngx_http_v2_huff_decode_code_t *)
Record huff_decode_code : Type := HC { next : Z; emit : Z; sym : Z; ending : Z }.

(* http/v2/ngx_http_v2_huff_decode.c:28-169 ngx_http_v2_huff_decode_codes: states 0 to 13 *)
Definition decode_rows_0 : list (list huff_decode_code) :=
[
  [ HC 0x04 0x00 0x00 0x00; HC 0x05 0x00 0x00 0x00; HC 0x07 0x00 0x00 0x00; HC 0x08 0x00 0x00 0x00;
    HC 0x0b 0x00 0x00 0x00; HC 0x0c 0x00 0x00 0x00; HC 0x10 0x00 0x00 0x00; HC 0x13 0x00 0x00 0x00;
    HC 0x19 0x00 0x00 0x00; HC 0x1c 0x00 0x00 0x00; HC 0x20 0x00 0x00 0x00; HC 0x23 0x00 0x00 0x00;
    HC 0x2a 0x00 0x00 0x00; HC 0x31 0x00 0x00 0x00; HC 0x39 0x00 0x00 0x00; HC 0x40 0x00 0x00 0x01 ];
  [ HC 0x00 0x01 0x30 0x01; HC 0x00 0x01 0x31 0x01; HC 0x00 0x01 0x32 0x01; HC 0x00 0x01 0x61 0x01;
    HC 0x00 0x01 0x63 0x01; HC 0x00 0x01 0x65 0x01; HC 0x00 0x01 0x69 0x01; HC 0x00 0x01 0x6f 0x01;
    HC 0x00 0x01 0x73 0x01; HC 0x00 0x01 0x74 0x01; HC 0x0d 0x00 0x00 0x00; HC 0x0e 0x00 0x00 0x00;
    HC 0x11 0x00 0x00 0x00; HC 0x12 0x00 0x00 0x00; HC 0x14 0x00 0x00 0x00; HC 0x15 0x00 0x00 0x00 ];
  [ HC 0x01 0x01 0x30 0x00; HC 0x16 0x01 0x30 0x01; HC 0x01 0x01 0x31 0x00; HC 0x16 0x01 0x31 0x01;
    HC 0x01 0x01 0x32 0x00; HC 0x16 0x01 0x32 0x01; HC 0x01 0x01 0x61 0x00; HC 0x16 0x01 0x61 0x01;
    HC 0x01 0x01 0x63 0x00; HC 0x16 0x01 0x63 0x01; HC 0x01 0x01 0x65 0x00; HC 0x16 0x01 0x65 0x01;
    HC 0x01 0x01 0x69 0x00; HC 0x16 0x01 0x69 0x01; HC 0x01 0x01 0x6f 0x00; HC 0x16 0x01 0x6f 0x01 ];
  [ HC 0x02 0x01 0x30 0x00; HC 0x09 0x01 0x30 0x00; HC 0x17 0x01 0x30 0x00; HC 0x28 0x01 0x30 0x01;
    HC 0x02 0x01 0x31 0x00; HC 0x09 0x01 0x31 0x00; HC 0x17 0x01 0x31 0x00; HC 0x28 0x01 0x31 0x01;
    HC 0x02 0x01 0x32 0x00; HC 0x09 0x01 0x32 0x00; HC 0x17 0x01 0x32 0x00; HC 0x28 0x01 0x32 0x01;
    HC 0x02 0x01 0x61 0x00; HC 0x09 0x01 0x61 0x00; HC 0x17 0x01 0x61 0x00; HC 0x28 0x01 0x61 0x01 ];
  [ HC 0x03 0x01 0x30 0x00; HC 0x06 0x01 0x30 0x00; HC 0x0a 0x01 0x30 0x00; HC 0x0f 0x01 0x30 0x00;
    HC 0x18 0x01 0x30 0x00; HC 0x1f 0x01 0x30 0x00; HC 0x29 0x01 0x30 0x00; HC 0x38 0x01 0x30 0x01;
    HC 0x03 0x01 0x31 0x00; HC 0x06 0x01 0x31 0x00; HC 0x0a 0x01 0x31 0x00; HC 0x0f 0x01 0x31 0x00;
    HC 0x18 0x01 0x31 0x00; HC 0x1f 0x01 0x31 0x00; HC 0x29 0x01 0x31 0x00; HC 0x38 0x01 0x31 0x01 ];
  [ HC 0x03 0x01 0x32 0x00; HC 0x06 0x01 0x32 0x00; HC 0x0a 0x01 0x32 0x00; HC 0x0f 0x01 0x32 0x00;
    HC 0x18 0x01 0x32 0x00; HC 0x1f 0x01 0x32 0x00; HC 0x29 0x01 0x32 0x00; HC 0x38 0x01 0x32 0x01;
    HC 0x03 0x01 0x61 0x00; HC 0x06 0x01 0x61 0x00; HC 0x0a 0x01 0x61 0x00; HC 0x0f 0x01 0x61 0x00;
    HC 0x18 0x01 0x61 0x00; HC 0x1f 0x01 0x61 0x00; HC 0x29 0x01 0x61 0x00; HC 0x38 0x01 0x61 0x01 ];
  [ HC 0x02 0x01 0x63 0x00; HC 0x09 0x01 0x63 0x00; HC 0x17 0x01 0x63 0x00; HC 0x28 0x01 0x63 0x01;
    HC 0x02 0x01 0x65 0x00; HC 0x09 0x01 0x65 0x00; HC 0x17 0x01 0x65 0x00; HC 0x28 0x01 0x65 0x01;
    HC 0x02 0x01 0x69 0x00; HC 0x09 0x01 0x69 0x00; HC 0x17 0x01 0x69 0x00; HC 0x28 0x01 0x69 0x01;
    HC 0x02 0x01 0x6f 0x00; HC 0x09 0x01 0x6f 0x00; HC 0x17 0x01 0x6f 0x00; HC 0x28 0x01 0x6f 0x01 ];
  [ HC 0x03 0x01 0x63 0x00; HC 0x06 0x01 0x63 0x00; HC 0x0a 0x01 0x63 0x00; HC 0x0f 0x01 0x63 0x00;
    HC 0x18 0x01 0x63 0x00; HC 0x1f 0x01 0x63 0x00; HC 0x29 0x01 0x63 0x00; HC 0x38 0x01 0x63 0x01;
    HC 0x03 0x01 0x65 0x00; HC 0x06 0x01 0x65 0x00; HC 0x0a 0x01 0x65 0x00; HC 0x0f 0x01 0x65 0x00;
    HC 0x18 0x01 0x65 0x00; HC 0x1f 0x01 0x65 0x00; HC 0x29 0x01 0x65 0x00; HC 0x38 0x01 0x65 0x01 ];
  [ HC 0x03 0x01 0x69 0x00; HC 0x06 0x01 0x69 0x00; HC 0x0a 0x01 0x69 0x00; HC 0x0f 0x01 0x69 0x00;
    HC 0x18 0x01 0x69 0x00; HC 0x1f 0x01 0x69 0x00; HC 0x29 0x01 0x69 0x00; HC 0x38 0x01 0x69 0x01;
    HC 0x03 0x01 0x6f 0x00; HC 0x06 0x01 0x6f 0x00; HC 0x0a 0x01 0x6f 0x00; HC 0x0f 0x01 0x6f 0x00;
    HC 0x18 0x01 0x6f 0x00; HC 0x1f 0x01 0x6f 0x00; HC 0x29 0x01 0x6f 0x00; HC 0x38 0x01 0x6f 0x01 ];
  [ HC 0x01 0x01 0x73 0x00; HC 0x16 0x01 0x73 0x01; HC 0x01 0x01 0x74 0x00; HC 0x16 0x01 0x74 0x01;
    HC 0x00 0x01 0x20 0x01; HC 0x00 0x01 0x25 0x01; HC 0x00 0x01 0x2d 0x01; HC 0x00 0x01 0x2e 0x01;
    HC 0x00 0x01 0x2f 0x01; HC 0x00 0x01 0x33 0x01; HC 0x00 0x01 0x34 0x01; HC 0x00 0x01 0x35 0x01;
    HC 0x00 0x01 0x36 0x01; HC 0x00 0x01 0x37 0x01; HC 0x00 0x01 0x38 0x01; HC 0x00 0x01 0x39 0x01 ];
  [ HC 0x02 0x01 0x73 0x00; HC 0x09 0x01 0x73 0x00; HC 0x17 0x01 0x73 0x00; HC 0x28 0x01 0x73 0x01;
    HC 0x02 0x01 0x74 0x00; HC 0x09 0x01 0x74 0x00; HC 0x17 0x01 0x74 0x00; HC 0x28 0x01 0x74 0x01;
    HC 0x01 0x01 0x20 0x00; HC 0x16 0x01 0x20 0x01; HC 0x01 0x01 0x25 0x00; HC 0x16 0x01 0x25 0x01;
    HC 0x01 0x01 0x2d 0x00; HC 0x16 0x01 0x2d 0x01; HC 0x01 0x01 0x2e 0x00; HC 0x16 0x01 0x2e 0x01 ];
  [ HC 0x03 0x01 0x73 0x00; HC 0x06 0x01 0x73 0x00; HC 0x0a 0x01 0x73 0x00; HC 0x0f 0x01 0x73 0x00;
    HC 0x18 0x01 0x73 0x00; HC 0x1f 0x01 0x73 0x00; HC 0x29 0x01 0x73 0x00; HC 0x38 0x01 0x73 0x01;
    HC 0x03 0x01 0x74 0x00; HC 0x06 0x01 0x74 0x00; HC 0x0a 0x01 0x74 0x00; HC 0x0f 0x01 0x74 0x00;
    HC 0x18 0x01 0x74 0x00; HC 0x1f 0x01 0x74 0x00; HC 0x29 0x01 0x74 0x00; HC 0x38 0x01 0x74 0x01 ];
  [ HC 0x02 0x01 0x20 0x00; HC 0x09 0x01 0x20 0x00; HC 0x17 0x01 0x20 0x00; HC 0x28 0x01 0x20 0x01;
    HC 0x02 0x01 0x25 0x00; HC 0x09 0x01 0x25 0x00; HC 0x17 0x01 0x25 0x00; HC 0x28 0x01 0x25 0x01;
    HC 0x02 0x01 0x2d 0x00; HC 0x09 0x01 0x2d 0x00; HC 0x17 0x01 0x2d 0x00; HC 0x28 0x01 0x2d 0x01;
    HC 0x02 0x01 0x2e 0x00; HC 0x09 0x01 0x2e 0x00; HC 0x17 0x01 0x2e 0x00; HC 0x28 0x01 0x2e 0x01 ];
  [ HC 0x03 0x01 0x20 0x00; HC 0x06 0x01 0x20 0x00; HC 0x0a 0x01 0x20 0x00; HC 0x0f 0x01 0x20 0x00;
    HC 0x18 0x01 0x20 0x00; HC 0x1f 0x01 0x20 0x00; HC 0x29 0x01 0x20 0x00; HC 0x38 0x01 0x20 0x01;
    HC 0x03 0x01 0x25 0x00; HC 0x06 0x01 0x25 0x00; HC 0x0a 0x01 0x25 0x00; HC 0x0f 0x01 0x25 0x00;
    HC 0x18 0x01 0x25 0x00; HC 0x1f 0x01 0x25 0x00; HC 0x29 0x01 0x25 0x00; HC 0x38 0x01 0x25 0x01 ] ].

(* http/v2/ngx_http_v2_huff_decode.c:170-312 ngx_http_v2_huff_decode_codes: states 14 to 27 *)
Definition decode_rows_14 : list (list huff_decode_code) :=
[
  [ HC 0x03 0x01 0x2d 0x00; HC 0x06 0x01 0x2d 0x00; HC 0x0a 0x01 0x2d 0x00; HC 0x0f 0x01 0x2d 0x00;
    HC 0x18 0x01 0x2d 0x00; HC 0x1f 0x01 0x2d 0x00; HC 0x29 0x01 0x2d 0x00; HC 0x38 0x01 0x2d 0x01;
    HC 0x03 0x01 0x2e 0x00; HC 0x06 0x01 0x2e 0x00; HC 0x0a 0x01 0x2e 0x00; HC 0x0f 0x01 0x2e 0x00;
    HC 0x18 0x01 0x2e 0x00; HC 0x1f 0x01 0x2e 0x00; HC 0x29 0x01 0x2e 0x00; HC 0x38 0x01 0x2e 0x01 ];
  [ HC 0x01 0x01 0x2f 0x00; HC 0x16 0x01 0x2f 0x01; HC 0x01 0x01 0x33 0x00; HC 0x16 0x01 0x33 0x01;
    HC 0x01 0x01 0x34 0x00; HC 0x16 0x01 0x34 0x01; HC 0x01 0x01 0x35 0x00; HC 0x16 0x01 0x35 0x01;
    HC 0x01 0x01 0x36 0x00; HC 0x16 0x01 0x36 0x01; HC 0x01 0x01 0x37 0x00; HC 0x16 0x01 0x37 0x01;
    HC 0x01 0x01 0x38 0x00; HC 0x16 0x01 0x38 0x01; HC 0x01 0x01 0x39 0x00; HC 0x16 0x01 0x39 0x01 ];
  [ HC 0x02 0x01 0x2f 0x00; HC 0x09 0x01 0x2f 0x00; HC 0x17 0x01 0x2f 0x00; HC 0x28 0x01 0x2f 0x01;
    HC 0x02 0x01 0x33 0x00; HC 0x09 0x01 0x33 0x00; HC 0x17 0x01 0x33 0x00; HC 0x28 0x01 0x33 0x01;
    HC 0x02 0x01 0x34 0x00; HC 0x09 0x01 0x34 0x00; HC 0x17 0x01 0x34 0x00; HC 0x28 0x01 0x34 0x01;
    HC 0x02 0x01 0x35 0x00; HC 0x09 0x01 0x35 0x00; HC 0x17 0x01 0x35 0x00; HC 0x28 0x01 0x35 0x01 ];
  [ HC 0x03 0x01 0x2f 0x00; HC 0x06 0x01 0x2f 0x00; HC 0x0a 0x01 0x2f 0x00; HC 0x0f 0x01 0x2f 0x00;
    HC 0x18 0x01 0x2f 0x00; HC 0x1f 0x01 0x2f 0x00; HC 0x29 0x01 0x2f 0x00; HC 0x38 0x01 0x2f 0x01;
    HC 0x03 0x01 0x33 0x00; HC 0x06 0x01 0x33 0x00; HC 0x0a 0x01 0x33 0x00; HC 0x0f 0x01 0x33 0x00;
    HC 0x18 0x01 0x33 0x00; HC 0x1f 0x01 0x33 0x00; HC 0x29 0x01 0x33 0x00; HC 0x38 0x01 0x33 0x01 ];
  [ HC 0x03 0x01 0x34 0x00; HC 0x06 0x01 0x34 0x00; HC 0x0a 0x01 0x34 0x00; HC 0x0f 0x01 0x34 0x00;
    HC 0x18 0x01 0x34 0x00; HC 0x1f 0x01 0x34 0x00; HC 0x29 0x01 0x34 0x00; HC 0x38 0x01 0x34 0x01;
    HC 0x03 0x01 0x35 0x00; HC 0x06 0x01 0x35 0x00; HC 0x0a 0x01 0x35 0x00; HC 0x0f 0x01 0x35 0x00;
    HC 0x18 0x01 0x35 0x00; HC 0x1f 0x01 0x35 0x00; HC 0x29 0x01 0x35 0x00; HC 0x38 0x01 0x35 0x01 ];
  [ HC 0x02 0x01 0x36 0x00; HC 0x09 0x01 0x36 0x00; HC 0x17 0x01 0x36 0x00; HC 0x28 0x01 0x36 0x01;
    HC 0x02 0x01 0x37 0x00; HC 0x09 0x01 0x37 0x00; HC 0x17 0x01 0x37 0x00; HC 0x28 0x01 0x37 0x01;
    HC 0x02 0x01 0x38 0x00; HC 0x09 0x01 0x38 0x00; HC 0x17 0x01 0x38 0x00; HC 0x28 0x01 0x38 0x01;
    HC 0x02 0x01 0x39 0x00; HC 0x09 0x01 0x39 0x00; HC 0x17 0x01 0x39 0x00; HC 0x28 0x01 0x39 0x01 ];
  [ HC 0x03 0x01 0x36 0x00; HC 0x06 0x01 0x36 0x00; HC 0x0a 0x01 0x36 0x00; HC 0x0f 0x01 0x36 0x00;
    HC 0x18 0x01 0x36 0x00; HC 0x1f 0x01 0x36 0x00; HC 0x29 0x01 0x36 0x00; HC 0x38 0x01 0x36 0x01;
    HC 0x03 0x01 0x37 0x00; HC 0x06 0x01 0x37 0x00; HC 0x0a 0x01 0x37 0x00; HC 0x0f 0x01 0x37 0x00;
    HC 0x18 0x01 0x37 0x00; HC 0x1f 0x01 0x37 0x00; HC 0x29 0x01 0x37 0x00; HC 0x38 0x01 0x37 0x01 ];
  [ HC 0x03 0x01 0x38 0x00; HC 0x06 0x01 0x38 0x00; HC 0x0a 0x01 0x38 0x00; HC 0x0f 0x01 0x38 0x00;
    HC 0x18 0x01 0x38 0x00; HC 0x1f 0x01 0x38 0x00; HC 0x29 0x01 0x38 0x00; HC 0x38 0x01 0x38 0x01;
    HC 0x03 0x01 0x39 0x00; HC 0x06 0x01 0x39 0x00; HC 0x0a 0x01 0x39 0x00; HC 0x0f 0x01 0x39 0x00;
    HC 0x18 0x01 0x39 0x00; HC 0x1f 0x01 0x39 0x00; HC 0x29 0x01 0x39 0x00; HC 0x38 0x01 0x39 0x01 ];
  [ HC 0x1a 0x00 0x00 0x00; HC 0x1b 0x00 0x00 0x00; HC 0x1d 0x00 0x00 0x00; HC 0x1e 0x00 0x00 0x00;
    HC 0x21 0x00 0x00 0x00; HC 0x22 0x00 0x00 0x00; HC 0x24 0x00 0x00 0x00; HC 0x25 0x00 0x00 0x00;
    HC 0x2b 0x00 0x00 0x00; HC 0x2e 0x00 0x00 0x00; HC 0x32 0x00 0x00 0x00; HC 0x35 0x00 0x00 0x00;
    HC 0x3a 0x00 0x00 0x00; HC 0x3d 0x00 0x00 0x00; HC 0x41 0x00 0x00 0x00; HC 0x44 0x00 0x00 0x01 ];
  [ HC 0x00 0x01 0x3d 0x01; HC 0x00 0x01 0x41 0x01; HC 0x00 0x01 0x5f 0x01; HC 0x00 0x01 0x62 0x01;
    HC 0x00 0x01 0x64 0x01; HC 0x00 0x01 0x66 0x01; HC 0x00 0x01 0x67 0x01; HC 0x00 0x01 0x68 0x01;
    HC 0x00 0x01 0x6c 0x01; HC 0x00 0x01 0x6d 0x01; HC 0x00 0x01 0x6e 0x01; HC 0x00 0x01 0x70 0x01;
    HC 0x00 0x01 0x72 0x01; HC 0x00 0x01 0x75 0x01; HC 0x26 0x00 0x00 0x00; HC 0x27 0x00 0x00 0x00 ];
  [ HC 0x01 0x01 0x3d 0x00; HC 0x16 0x01 0x3d 0x01; HC 0x01 0x01 0x41 0x00; HC 0x16 0x01 0x41 0x01;
    HC 0x01 0x01 0x5f 0x00; HC 0x16 0x01 0x5f 0x01; HC 0x01 0x01 0x62 0x00; HC 0x16 0x01 0x62 0x01;
    HC 0x01 0x01 0x64 0x00; HC 0x16 0x01 0x64 0x01; HC 0x01 0x01 0x66 0x00; HC 0x16 0x01 0x66 0x01;
    HC 0x01 0x01 0x67 0x00; HC 0x16 0x01 0x67 0x01; HC 0x01 0x01 0x68 0x00; HC 0x16 0x01 0x68 0x01 ];
  [ HC 0x02 0x01 0x3d 0x00; HC 0x09 0x01 0x3d 0x00; HC 0x17 0x01 0x3d 0x00; HC 0x28 0x01 0x3d 0x01;
    HC 0x02 0x01 0x41 0x00; HC 0x09 0x01 0x41 0x00; HC 0x17 0x01 0x41 0x00; HC 0x28 0x01 0x41 0x01;
    HC 0x02 0x01 0x5f 0x00; HC 0x09 0x01 0x5f 0x00; HC 0x17 0x01 0x5f 0x00; HC 0x28 0x01 0x5f 0x01;
    HC 0x02 0x01 0x62 0x00; HC 0x09 0x01 0x62 0x00; HC 0x17 0x01 0x62 0x00; HC 0x28 0x01 0x62 0x01 ];
  [ HC 0x03 0x01 0x3d 0x00; HC 0x06 0x01 0x3d 0x00; HC 0x0a 0x01 0x3d 0x00; HC 0x0f 0x01 0x3d 0x00;
    HC 0x18 0x01 0x3d 0x00; HC 0x1f 0x01 0x3d 0x00; HC 0x29 0x01 0x3d 0x00; HC 0x38 0x01 0x3d 0x01;
    HC 0x03 0x01 0x41 0x00; HC 0x06 0x01 0x41 0x00; HC 0x0a 0x01 0x41 0x00; HC 0x0f 0x01 0x41 0x00;
    HC 0x18 0x01 0x41 0x00; HC 0x1f 0x01 0x41 0x00; HC 0x29 0x01 0x41 0x00; HC 0x38 0x01 0x41 0x01 ];
  [ HC 0x03 0x01 0x5f 0x00; HC 0x06 0x01 0x5f 0x00; HC 0x0a 0x01 0x5f 0x00; HC 0x0f 0x01 0x5f 0x00;
    HC 0x18 0x01 0x5f 0x00; HC 0x1f 0x01 0x5f 0x00; HC 0x29 0x01 0x5f 0x00; HC 0x38 0x01 0x5f 0x01;
    HC 0x03 0x01 0x62 0x00; HC 0x06 0x01 0x62 0x00; HC 0x0a 0x01 0x62 0x00; HC 0x0f 0x01 0x62 0x00;
    HC 0x18 0x01 0x62 0x00; HC 0x1f 0x01 0x62 0x00; HC 0x29 0x01 0x62 0x00; HC 0x38 0x01 0x62 0x01 ] ].

(* http/v2/ngx_http_v2_huff_decode.c:313-455 ngx_http_v2_huff_decode_codes: states 28 to 41 *)
Definition decode_rows_28 : list (list huff_decode_code) :=
[
  [ HC 0x02 0x01 0x64 0x00; HC 0x09 0x01 0x64 0x00; HC 0x17 0x01 0x64 0x00; HC 0x28 0x01 0x64 0x01;
    HC 0x02 0x01 0x66 0x00; HC 0x09 0x01 0x66 0x00; HC 0x17 0x01 0x66 0x00; HC 0x28 0x01 0x66 0x01;
    HC 0x02 0x01 0x67 0x00; HC 0x09 0x01 0x67 0x00; HC 0x17 0x01 0x67 0x00; HC 0x28 0x01 0x67 0x01;
    HC 0x02 0x01 0x68 0x00; HC 0x09 0x01 0x68 0x00; HC 0x17 0x01 0x68 0x00; HC 0x28 0x01 0x68 0x01 ];
  [ HC 0x03 0x01 0x64 0x00; HC 0x06 0x01 0x64 0x00; HC 0x0a 0x01 0x64 0x00; HC 0x0f 0x01 0x64 0x00;
    HC 0x18 0x01 0x64 0x00; HC 0x1f 0x01 0x64 0x00; HC 0x29 0x01 0x64 0x00; HC 0x38 0x01 0x64 0x01;
    HC 0x03 0x01 0x66 0x00; HC 0x06 0x01 0x66 0x00; HC 0x0a 0x01 0x66 0x00; HC 0x0f 0x01 0x66 0x00;
    HC 0x18 0x01 0x66 0x00; HC 0x1f 0x01 0x66 0x00; HC 0x29 0x01 0x66 0x00; HC 0x38 0x01 0x66 0x01 ];
  [ HC 0x03 0x01 0x67 0x00; HC 0x06 0x01 0x67 0x00; HC 0x0a 0x01 0x67 0x00; HC 0x0f 0x01 0x67 0x00;
    HC 0x18 0x01 0x67 0x00; HC 0x1f 0x01 0x67 0x00; HC 0x29 0x01 0x67 0x00; HC 0x38 0x01 0x67 0x01;
    HC 0x03 0x01 0x68 0x00; HC 0x06 0x01 0x68 0x00; HC 0x0a 0x01 0x68 0x00; HC 0x0f 0x01 0x68 0x00;
    HC 0x18 0x01 0x68 0x00; HC 0x1f 0x01 0x68 0x00; HC 0x29 0x01 0x68 0x00; HC 0x38 0x01 0x68 0x01 ];
  [ HC 0x01 0x01 0x6c 0x00; HC 0x16 0x01 0x6c 0x01; HC 0x01 0x01 0x6d 0x00; HC 0x16 0x01 0x6d 0x01;
    HC 0x01 0x01 0x6e 0x00; HC 0x16 0x01 0x6e 0x01; HC 0x01 0x01 0x70 0x00; HC 0x16 0x01 0x70 0x01;
    HC 0x01 0x01 0x72 0x00; HC 0x16 0x01 0x72 0x01; HC 0x01 0x01 0x75 0x00; HC 0x16 0x01 0x75 0x01;
    HC 0x00 0x01 0x3a 0x01; HC 0x00 0x01 0x42 0x01; HC 0x00 0x01 0x43 0x01; HC 0x00 0x01 0x44 0x01 ];
  [ HC 0x02 0x01 0x6c 0x00; HC 0x09 0x01 0x6c 0x00; HC 0x17 0x01 0x6c 0x00; HC 0x28 0x01 0x6c 0x01;
    HC 0x02 0x01 0x6d 0x00; HC 0x09 0x01 0x6d 0x00; HC 0x17 0x01 0x6d 0x00; HC 0x28 0x01 0x6d 0x01;
    HC 0x02 0x01 0x6e 0x00; HC 0x09 0x01 0x6e 0x00; HC 0x17 0x01 0x6e 0x00; HC 0x28 0x01 0x6e 0x01;
    HC 0x02 0x01 0x70 0x00; HC 0x09 0x01 0x70 0x00; HC 0x17 0x01 0x70 0x00; HC 0x28 0x01 0x70 0x01 ];
  [ HC 0x03 0x01 0x6c 0x00; HC 0x06 0x01 0x6c 0x00; HC 0x0a 0x01 0x6c 0x00; HC 0x0f 0x01 0x6c 0x00;
    HC 0x18 0x01 0x6c 0x00; HC 0x1f 0x01 0x6c 0x00; HC 0x29 0x01 0x6c 0x00; HC 0x38 0x01 0x6c 0x01;
    HC 0x03 0x01 0x6d 0x00; HC 0x06 0x01 0x6d 0x00; HC 0x0a 0x01 0x6d 0x00; HC 0x0f 0x01 0x6d 0x00;
    HC 0x18 0x01 0x6d 0x00; HC 0x1f 0x01 0x6d 0x00; HC 0x29 0x01 0x6d 0x00; HC 0x38 0x01 0x6d 0x01 ];
  [ HC 0x03 0x01 0x6e 0x00; HC 0x06 0x01 0x6e 0x00; HC 0x0a 0x01 0x6e 0x00; HC 0x0f 0x01 0x6e 0x00;
    HC 0x18 0x01 0x6e 0x00; HC 0x1f 0x01 0x6e 0x00; HC 0x29 0x01 0x6e 0x00; HC 0x38 0x01 0x6e 0x01;
    HC 0x03 0x01 0x70 0x00; HC 0x06 0x01 0x70 0x00; HC 0x0a 0x01 0x70 0x00; HC 0x0f 0x01 0x70 0x00;
    HC 0x18 0x01 0x70 0x00; HC 0x1f 0x01 0x70 0x00; HC 0x29 0x01 0x70 0x00; HC 0x38 0x01 0x70 0x01 ];
  [ HC 0x02 0x01 0x72 0x00; HC 0x09 0x01 0x72 0x00; HC 0x17 0x01 0x72 0x00; HC 0x28 0x01 0x72 0x01;
    HC 0x02 0x01 0x75 0x00; HC 0x09 0x01 0x75 0x00; HC 0x17 0x01 0x75 0x00; HC 0x28 0x01 0x75 0x01;
    HC 0x01 0x01 0x3a 0x00; HC 0x16 0x01 0x3a 0x01; HC 0x01 0x01 0x42 0x00; HC 0x16 0x01 0x42 0x01;
    HC 0x01 0x01 0x43 0x00; HC 0x16 0x01 0x43 0x01; HC 0x01 0x01 0x44 0x00; HC 0x16 0x01 0x44 0x01 ];
  [ HC 0x03 0x01 0x72 0x00; HC 0x06 0x01 0x72 0x00; HC 0x0a 0x01 0x72 0x00; HC 0x0f 0x01 0x72 0x00;
    HC 0x18 0x01 0x72 0x00; HC 0x1f 0x01 0x72 0x00; HC 0x29 0x01 0x72 0x00; HC 0x38 0x01 0x72 0x01;
    HC 0x03 0x01 0x75 0x00; HC 0x06 0x01 0x75 0x00; HC 0x0a 0x01 0x75 0x00; HC 0x0f 0x01 0x75 0x00;
    HC 0x18 0x01 0x75 0x00; HC 0x1f 0x01 0x75 0x00; HC 0x29 0x01 0x75 0x00; HC 0x38 0x01 0x75 0x01 ];
  [ HC 0x02 0x01 0x3a 0x00; HC 0x09 0x01 0x3a 0x00; HC 0x17 0x01 0x3a 0x00; HC 0x28 0x01 0x3a 0x01;
    HC 0x02 0x01 0x42 0x00; HC 0x09 0x01 0x42 0x00; HC 0x17 0x01 0x42 0x00; HC 0x28 0x01 0x42 0x01;
    HC 0x02 0x01 0x43 0x00; HC 0x09 0x01 0x43 0x00; HC 0x17 0x01 0x43 0x00; HC 0x28 0x01 0x43 0x01;
    HC 0x02 0x01 0x44 0x00; HC 0x09 0x01 0x44 0x00; HC 0x17 0x01 0x44 0x00; HC 0x28 0x01 0x44 0x01 ];
  [ HC 0x03 0x01 0x3a 0x00; HC 0x06 0x01 0x3a 0x00; HC 0x0a 0x01 0x3a 0x00; HC 0x0f 0x01 0x3a 0x00;
    HC 0x18 0x01 0x3a 0x00; HC 0x1f 0x01 0x3a 0x00; HC 0x29 0x01 0x3a 0x00; HC 0x38 0x01 0x3a 0x01;
    HC 0x03 0x01 0x42 0x00; HC 0x06 0x01 0x42 0x00; HC 0x0a 0x01 0x42 0x00; HC 0x0f 0x01 0x42 0x00;
    HC 0x18 0x01 0x42 0x00; HC 0x1f 0x01 0x42 0x00; HC 0x29 0x01 0x42 0x00; HC 0x38 0x01 0x42 0x01 ];
  [ HC 0x03 0x01 0x43 0x00; HC 0x06 0x01 0x43 0x00; HC 0x0a 0x01 0x43 0x00; HC 0x0f 0x01 0x43 0x00;
    HC 0x18 0x01 0x43 0x00; HC 0x1f 0x01 0x43 0x00; HC 0x29 0x01 0x43 0x00; HC 0x38 0x01 0x43 0x01;
    HC 0x03 0x01 0x44 0x00; HC 0x06 0x01 0x44 0x00; HC 0x0a 0x01 0x44 0x00; HC 0x0f 0x01 0x44 0x00;
    HC 0x18 0x01 0x44 0x00; HC 0x1f 0x01 0x44 0x00; HC 0x29 0x01 0x44 0x00; HC 0x38 0x01 0x44 0x01 ];
  [ HC 0x2c 0x00 0x00 0x00; HC 0x2d 0x00 0x00 0x00; HC 0x2f 0x00 0x00 0x00; HC 0x30 0x00 0x00 0x00;
    HC 0x33 0x00 0x00 0x00; HC 0x34 0x00 0x00 0x00; HC 0x36 0x00 0x00 0x00; HC 0x37 0x00 0x00 0x00;
    HC 0x3b 0x00 0x00 0x00; HC 0x3c 0x00 0x00 0x00; HC 0x3e 0x00 0x00 0x00; HC 0x3f 0x00 0x00 0x00;
    HC 0x42 0x00 0x00 0x00; HC 0x43 0x00 0x00 0x00; HC 0x45 0x00 0x00 0x00; HC 0x48 0x00 0x00 0x01 ];
  [ HC 0x00 0x01 0x45 0x01; HC 0x00 0x01 0x46 0x01; HC 0x00 0x01 0x47 0x01; HC 0x00 0x01 0x48 0x01;
    HC 0x00 0x01 0x49 0x01; HC 0x00 0x01 0x4a 0x01; HC 0x00 0x01 0x4b 0x01; HC 0x00 0x01 0x4c 0x01;
    HC 0x00 0x01 0x4d 0x01; HC 0x00 0x01 0x4e 0x01; HC 0x00 0x01 0x4f 0x01; HC 0x00 0x01 0x50 0x01;
    HC 0x00 0x01 0x51 0x01; HC 0x00 0x01 0x52 0x01; HC 0x00 0x01 0x53 0x01; HC 0x00 0x01 0x54 0x01 ] ].

(* http/v2/ngx_http_v2_huff_decode.c:456-598 ngx_http_v2_huff_decode_codes: states 42 to 55 *)
Definition decode_rows_42 : list (list huff_decode_code) :=
[
  [ HC 0x01 0x01 0x45 0x00; HC 0x16 0x01 0x45 0x01; HC 0x01 0x01 0x46 0x00; HC 0x16 0x01 0x46 0x01;
    HC 0x01 0x01 0x47 0x00; HC 0x16 0x01 0x47 0x01; HC 0x01 0x01 0x48 0x00; HC 0x16 0x01 0x48 0x01;
    HC 0x01 0x01 0x49 0x00; HC 0x16 0x01 0x49 0x01; HC 0x01 0x01 0x4a 0x00; HC 0x16 0x01 0x4a 0x01;
    HC 0x01 0x01 0x4b 0x00; HC 0x16 0x01 0x4b 0x01; HC 0x01 0x01 0x4c 0x00; HC 0x16 0x01 0x4c 0x01 ];
  [ HC 0x02 0x01 0x45 0x00; HC 0x09 0x01 0x45 0x00; HC 0x17 0x01 0x45 0x00; HC 0x28 0x01 0x45 0x01;
    HC 0x02 0x01 0x46 0x00; HC 0x09 0x01 0x46 0x00; HC 0x17 0x01 0x46 0x00; HC 0x28 0x01 0x46 0x01;
    HC 0x02 0x01 0x47 0x00; HC 0x09 0x01 0x47 0x00; HC 0x17 0x01 0x47 0x00; HC 0x28 0x01 0x47 0x01;
    HC 0x02 0x01 0x48 0x00; HC 0x09 0x01 0x48 0x00; HC 0x17 0x01 0x48 0x00; HC 0x28 0x01 0x48 0x01 ];
  [ HC 0x03 0x01 0x45 0x00; HC 0x06 0x01 0x45 0x00; HC 0x0a 0x01 0x45 0x00; HC 0x0f 0x01 0x45 0x00;
    HC 0x18 0x01 0x45 0x00; HC 0x1f 0x01 0x45 0x00; HC 0x29 0x01 0x45 0x00; HC 0x38 0x01 0x45 0x01;
    HC 0x03 0x01 0x46 0x00; HC 0x06 0x01 0x46 0x00; HC 0x0a 0x01 0x46 0x00; HC 0x0f 0x01 0x46 0x00;
    HC 0x18 0x01 0x46 0x00; HC 0x1f 0x01 0x46 0x00; HC 0x29 0x01 0x46 0x00; HC 0x38 0x01 0x46 0x01 ];
  [ HC 0x03 0x01 0x47 0x00; HC 0x06 0x01 0x47 0x00; HC 0x0a 0x01 0x47 0x00; HC 0x0f 0x01 0x47 0x00;
    HC 0x18 0x01 0x47 0x00; HC 0x1f 0x01 0x47 0x00; HC 0x29 0x01 0x47 0x00; HC 0x38 0x01 0x47 0x01;
    HC 0x03 0x01 0x48 0x00; HC 0x06 0x01 0x48 0x00; HC 0x0a 0x01 0x48 0x00; HC 0x0f 0x01 0x48 0x00;
    HC 0x18 0x01 0x48 0x00; HC 0x1f 0x01 0x48 0x00; HC 0x29 0x01 0x48 0x00; HC 0x38 0x01 0x48 0x01 ];
  [ HC 0x02 0x01 0x49 0x00; HC 0x09 0x01 0x49 0x00; HC 0x17 0x01 0x49 0x00; HC 0x28 0x01 0x49 0x01;
    HC 0x02 0x01 0x4a 0x00; HC 0x09 0x01 0x4a 0x00; HC 0x17 0x01 0x4a 0x00; HC 0x28 0x01 0x4a 0x01;
    HC 0x02 0x01 0x4b 0x00; HC 0x09 0x01 0x4b 0x00; HC 0x17 0x01 0x4b 0x00; HC 0x28 0x01 0x4b 0x01;
    HC 0x02 0x01 0x4c 0x00; HC 0x09 0x01 0x4c 0x00; HC 0x17 0x01 0x4c 0x00; HC 0x28 0x01 0x4c 0x01 ];
  [ HC 0x03 0x01 0x49 0x00; HC 0x06 0x01 0x49 0x00; HC 0x0a 0x01 0x49 0x00; HC 0x0f 0x01 0x49 0x00;
    HC 0x18 0x01 0x49 0x00; HC 0x1f 0x01 0x49 0x00; HC 0x29 0x01 0x49 0x00; HC 0x38 0x01 0x49 0x01;
    HC 0x03 0x01 0x4a 0x00; HC 0x06 0x01 0x4a 0x00; HC 0x0a 0x01 0x4a 0x00; HC 0x0f 0x01 0x4a 0x00;
    HC 0x18 0x01 0x4a 0x00; HC 0x1f 0x01 0x4a 0x00; HC 0x29 0x01 0x4a 0x00; HC 0x38 0x01 0x4a 0x01 ];
  [ HC 0x03 0x01 0x4b 0x00; HC 0x06 0x01 0x4b 0x00; HC 0x0a 0x01 0x4b 0x00; HC 0x0f 0x01 0x4b 0x00;
    HC 0x18 0x01 0x4b 0x00; HC 0x1f 0x01 0x4b 0x00; HC 0x29 0x01 0x4b 0x00; HC 0x38 0x01 0x4b 0x01;
    HC 0x03 0x01 0x4c 0x00; HC 0x06 0x01 0x4c 0x00; HC 0x0a 0x01 0x4c 0x00; HC 0x0f 0x01 0x4c 0x00;
    HC 0x18 0x01 0x4c 0x00; HC 0x1f 0x01 0x4c 0x00; HC 0x29 0x01 0x4c 0x00; HC 0x38 0x01 0x4c 0x01 ];
  [ HC 0x01 0x01 0x4d 0x00; HC 0x16 0x01 0x4d 0x01; HC 0x01 0x01 0x4e 0x00; HC 0x16 0x01 0x4e 0x01;
    HC 0x01 0x01 0x4f 0x00; HC 0x16 0x01 0x4f 0x01; HC 0x01 0x01 0x50 0x00; HC 0x16 0x01 0x50 0x01;
    HC 0x01 0x01 0x51 0x00; HC 0x16 0x01 0x51 0x01; HC 0x01 0x01 0x52 0x00; HC 0x16 0x01 0x52 0x01;
    HC 0x01 0x01 0x53 0x00; HC 0x16 0x01 0x53 0x01; HC 0x01 0x01 0x54 0x00; HC 0x16 0x01 0x54 0x01 ];
  [ HC 0x02 0x01 0x4d 0x00; HC 0x09 0x01 0x4d 0x00; HC 0x17 0x01 0x4d 0x00; HC 0x28 0x01 0x4d 0x01;
    HC 0x02 0x01 0x4e 0x00; HC 0x09 0x01 0x4e 0x00; HC 0x17 0x01 0x4e 0x00; HC 0x28 0x01 0x4e 0x01;
    HC 0x02 0x01 0x4f 0x00; HC 0x09 0x01 0x4f 0x00; HC 0x17 0x01 0x4f 0x00; HC 0x28 0x01 0x4f 0x01;
    HC 0x02 0x01 0x50 0x00; HC 0x09 0x01 0x50 0x00; HC 0x17 0x01 0x50 0x00; HC 0x28 0x01 0x50 0x01 ];
  [ HC 0x03 0x01 0x4d 0x00; HC 0x06 0x01 0x4d 0x00; HC 0x0a 0x01 0x4d 0x00; HC 0x0f 0x01 0x4d 0x00;
    HC 0x18 0x01 0x4d 0x00; HC 0x1f 0x01 0x4d 0x00; HC 0x29 0x01 0x4d 0x00; HC 0x38 0x01 0x4d 0x01;
    HC 0x03 0x01 0x4e 0x00; HC 0x06 0x01 0x4e 0x00; HC 0x0a 0x01 0x4e 0x00; HC 0x0f 0x01 0x4e 0x00;
    HC 0x18 0x01 0x4e 0x00; HC 0x1f 0x01 0x4e 0x00; HC 0x29 0x01 0x4e 0x00; HC 0x38 0x01 0x4e 0x01 ];
  [ HC 0x03 0x01 0x4f 0x00; HC 0x06 0x01 0x4f 0x00; HC 0x0a 0x01 0x4f 0x00; HC 0x0f 0x01 0x4f 0x00;
    HC 0x18 0x01 0x4f 0x00; HC 0x1f 0x01 0x4f 0x00; HC 0x29 0x01 0x4f 0x00; HC 0x38 0x01 0x4f 0x01;
    HC 0x03 0x01 0x50 0x00; HC 0x06 0x01 0x50 0x00; HC 0x0a 0x01 0x50 0x00; HC 0x0f 0x01 0x50 0x00;
    HC 0x18 0x01 0x50 0x00; HC 0x1f 0x01 0x50 0x00; HC 0x29 0x01 0x50 0x00; HC 0x38 0x01 0x50 0x01 ];
  [ HC 0x02 0x01 0x51 0x00; HC 0x09 0x01 0x51 0x00; HC 0x17 0x01 0x51 0x00; HC 0x28 0x01 0x51 0x01;
    HC 0x02 0x01 0x52 0x00; HC 0x09 0x01 0x52 0x00; HC 0x17 0x01 0x52 0x00; HC 0x28 0x01 0x52 0x01;
    HC 0x02 0x01 0x53 0x00; HC 0x09 0x01 0x53 0x00; HC 0x17 0x01 0x53 0x00; HC 0x28 0x01 0x53 0x01;
    HC 0x02 0x01 0x54 0x00; HC 0x09 0x01 0x54 0x00; HC 0x17 0x01 0x54 0x00; HC 0x28 0x01 0x54 0x01 ];
  [ HC 0x03 0x01 0x51 0x00; HC 0x06 0x01 0x51 0x00; HC 0x0a 0x01 0x51 0x00; HC 0x0f 0x01 0x51 0x00;
    HC 0x18 0x01 0x51 0x00; HC 0x1f 0x01 0x51 0x00; HC 0x29 0x01 0x51 0x00; HC 0x38 0x01 0x51 0x01;
    HC 0x03 0x01 0x52 0x00; HC 0x06 0x01 0x52 0x00; HC 0x0a 0x01 0x52 0x00; HC 0x0f 0x01 0x52 0x00;
    HC 0x18 0x01 0x52 0x00; HC 0x1f 0x01 0x52 0x00; HC 0x29 0x01 0x52 0x00; HC 0x38 0x01 0x52 0x01 ];
  [ HC 0x03 0x01 0x53 0x00; HC 0x06 0x01 0x53 0x00; HC 0x0a 0x01 0x53 0x00; HC 0x0f 0x01 0x53 0x00;
    HC 0x18 0x01 0x53 0x00; HC 0x1f 0x01 0x53 0x00; HC 0x29 0x01 0x53 0x00; HC 0x38 0x01 0x53 0x01;
    HC 0x03 0x01 0x54 0x00; HC 0x06 0x01 0x54 0x00; HC 0x0a 0x01 0x54 0x00; HC 0x0f 0x01 0x54 0x00;
    HC 0x18 0x01 0x54 0x00; HC 0x1f 0x01 0x54 0x00; HC 0x29 0x01 0x54 0x00; HC 0x38 0x01 0x54 0x01 ] ].

(* http/v2/ngx_http_v2_huff_decode.c:599-740 ngx_http_v2_huff_decode_codes: states 56 to 69 *)
Definition decode_rows_56 : list (list huff_decode_code) :=
[
  [ HC 0x00 0x01 0x55 0x01; HC 0x00 0x01 0x56 0x01; HC 0x00 0x01 0x57 0x01; HC 0x00 0x01 0x59 0x01;
    HC 0x00 0x01 0x6a 0x01; HC 0x00 0x01 0x6b 0x01; HC 0x00 0x01 0x71 0x01; HC 0x00 0x01 0x76 0x01;
    HC 0x00 0x01 0x77 0x01; HC 0x00 0x01 0x78 0x01; HC 0x00 0x01 0x79 0x01; HC 0x00 0x01 0x7a 0x01;
    HC 0x46 0x00 0x00 0x00; HC 0x47 0x00 0x00 0x00; HC 0x49 0x00 0x00 0x00; HC 0x4a 0x00 0x00 0x01 ];
  [ HC 0x01 0x01 0x55 0x00; HC 0x16 0x01 0x55 0x01; HC 0x01 0x01 0x56 0x00; HC 0x16 0x01 0x56 0x01;
    HC 0x01 0x01 0x57 0x00; HC 0x16 0x01 0x57 0x01; HC 0x01 0x01 0x59 0x00; HC 0x16 0x01 0x59 0x01;
    HC 0x01 0x01 0x6a 0x00; HC 0x16 0x01 0x6a 0x01; HC 0x01 0x01 0x6b 0x00; HC 0x16 0x01 0x6b 0x01;
    HC 0x01 0x01 0x71 0x00; HC 0x16 0x01 0x71 0x01; HC 0x01 0x01 0x76 0x00; HC 0x16 0x01 0x76 0x01 ];
  [ HC 0x02 0x01 0x55 0x00; HC 0x09 0x01 0x55 0x00; HC 0x17 0x01 0x55 0x00; HC 0x28 0x01 0x55 0x01;
    HC 0x02 0x01 0x56 0x00; HC 0x09 0x01 0x56 0x00; HC 0x17 0x01 0x56 0x00; HC 0x28 0x01 0x56 0x01;
    HC 0x02 0x01 0x57 0x00; HC 0x09 0x01 0x57 0x00; HC 0x17 0x01 0x57 0x00; HC 0x28 0x01 0x57 0x01;
    HC 0x02 0x01 0x59 0x00; HC 0x09 0x01 0x59 0x00; HC 0x17 0x01 0x59 0x00; HC 0x28 0x01 0x59 0x01 ];
  [ HC 0x03 0x01 0x55 0x00; HC 0x06 0x01 0x55 0x00; HC 0x0a 0x01 0x55 0x00; HC 0x0f 0x01 0x55 0x00;
    HC 0x18 0x01 0x55 0x00; HC 0x1f 0x01 0x55 0x00; HC 0x29 0x01 0x55 0x00; HC 0x38 0x01 0x55 0x01;
    HC 0x03 0x01 0x56 0x00; HC 0x06 0x01 0x56 0x00; HC 0x0a 0x01 0x56 0x00; HC 0x0f 0x01 0x56 0x00;
    HC 0x18 0x01 0x56 0x00; HC 0x1f 0x01 0x56 0x00; HC 0x29 0x01 0x56 0x00; HC 0x38 0x01 0x56 0x01 ];
  [ HC 0x03 0x01 0x57 0x00; HC 0x06 0x01 0x57 0x00; HC 0x0a 0x01 0x57 0x00; HC 0x0f 0x01 0x57 0x00;
    HC 0x18 0x01 0x57 0x00; HC 0x1f 0x01 0x57 0x00; HC 0x29 0x01 0x57 0x00; HC 0x38 0x01 0x57 0x01;
    HC 0x03 0x01 0x59 0x00; HC 0x06 0x01 0x59 0x00; HC 0x0a 0x01 0x59 0x00; HC 0x0f 0x01 0x59 0x00;
    HC 0x18 0x01 0x59 0x00; HC 0x1f 0x01 0x59 0x00; HC 0x29 0x01 0x59 0x00; HC 0x38 0x01 0x59 0x01 ];
  [ HC 0x02 0x01 0x6a 0x00; HC 0x09 0x01 0x6a 0x00; HC 0x17 0x01 0x6a 0x00; HC 0x28 0x01 0x6a 0x01;
    HC 0x02 0x01 0x6b 0x00; HC 0x09 0x01 0x6b 0x00; HC 0x17 0x01 0x6b 0x00; HC 0x28 0x01 0x6b 0x01;
    HC 0x02 0x01 0x71 0x00; HC 0x09 0x01 0x71 0x00; HC 0x17 0x01 0x71 0x00; HC 0x28 0x01 0x71 0x01;
    HC 0x02 0x01 0x76 0x00; HC 0x09 0x01 0x76 0x00; HC 0x17 0x01 0x76 0x00; HC 0x28 0x01 0x76 0x01 ];
  [ HC 0x03 0x01 0x6a 0x00; HC 0x06 0x01 0x6a 0x00; HC 0x0a 0x01 0x6a 0x00; HC 0x0f 0x01 0x6a 0x00;
    HC 0x18 0x01 0x6a 0x00; HC 0x1f 0x01 0x6a 0x00; HC 0x29 0x01 0x6a 0x00; HC 0x38 0x01 0x6a 0x01;
    HC 0x03 0x01 0x6b 0x00; HC 0x06 0x01 0x6b 0x00; HC 0x0a 0x01 0x6b 0x00; HC 0x0f 0x01 0x6b 0x00;
    HC 0x18 0x01 0x6b 0x00; HC 0x1f 0x01 0x6b 0x00; HC 0x29 0x01 0x6b 0x00; HC 0x38 0x01 0x6b 0x01 ];
  [ HC 0x03 0x01 0x71 0x00; HC 0x06 0x01 0x71 0x00; HC 0x0a 0x01 0x71 0x00; HC 0x0f 0x01 0x71 0x00;
    HC 0x18 0x01 0x71 0x00; HC 0x1f 0x01 0x71 0x00; HC 0x29 0x01 0x71 0x00; HC 0x38 0x01 0x71 0x01;
    HC 0x03 0x01 0x76 0x00; HC 0x06 0x01 0x76 0x00; HC 0x0a 0x01 0x76 0x00; HC 0x0f 0x01 0x76 0x00;
    HC 0x18 0x01 0x76 0x00; HC 0x1f 0x01 0x76 0x00; HC 0x29 0x01 0x76 0x00; HC 0x38 0x01 0x76 0x01 ];
  [ HC 0x01 0x01 0x77 0x00; HC 0x16 0x01 0x77 0x01; HC 0x01 0x01 0x78 0x00; HC 0x16 0x01 0x78 0x01;
    HC 0x01 0x01 0x79 0x00; HC 0x16 0x01 0x79 0x01; HC 0x01 0x01 0x7a 0x00; HC 0x16 0x01 0x7a 0x01;
    HC 0x00 0x01 0x26 0x01; HC 0x00 0x01 0x2a 0x01; HC 0x00 0x01 0x2c 0x01; HC 0x00 0x01 0x3b 0x01;
    HC 0x00 0x01 0x58 0x01; HC 0x00 0x01 0x5a 0x01; HC 0x4b 0x00 0x00 0x00; HC 0x4e 0x00 0x00 0x01 ];
  [ HC 0x02 0x01 0x77 0x00; HC 0x09 0x01 0x77 0x00; HC 0x17 0x01 0x77 0x00; HC 0x28 0x01 0x77 0x01;
    HC 0x02 0x01 0x78 0x00; HC 0x09 0x01 0x78 0x00; HC 0x17 0x01 0x78 0x00; HC 0x28 0x01 0x78 0x01;
    HC 0x02 0x01 0x79 0x00; HC 0x09 0x01 0x79 0x00; HC 0x17 0x01 0x79 0x00; HC 0x28 0x01 0x79 0x01;
    HC 0x02 0x01 0x7a 0x00; HC 0x09 0x01 0x7a 0x00; HC 0x17 0x01 0x7a 0x00; HC 0x28 0x01 0x7a 0x01 ];
  [ HC 0x03 0x01 0x77 0x00; HC 0x06 0x01 0x77 0x00; HC 0x0a 0x01 0x77 0x00; HC 0x0f 0x01 0x77 0x00;
    HC 0x18 0x01 0x77 0x00; HC 0x1f 0x01 0x77 0x00; HC 0x29 0x01 0x77 0x00; HC 0x38 0x01 0x77 0x01;
    HC 0x03 0x01 0x78 0x00; HC 0x06 0x01 0x78 0x00; HC 0x0a 0x01 0x78 0x00; HC 0x0f 0x01 0x78 0x00;
    HC 0x18 0x01 0x78 0x00; HC 0x1f 0x01 0x78 0x00; HC 0x29 0x01 0x78 0x00; HC 0x38 0x01 0x78 0x01 ];
  [ HC 0x03 0x01 0x79 0x00; HC 0x06 0x01 0x79 0x00; HC 0x0a 0x01 0x79 0x00; HC 0x0f 0x01 0x79 0x00;
    HC 0x18 0x01 0x79 0x00; HC 0x1f 0x01 0x79 0x00; HC 0x29 0x01 0x79 0x00; HC 0x38 0x01 0x79 0x01;
    HC 0x03 0x01 0x7a 0x00; HC 0x06 0x01 0x7a 0x00; HC 0x0a 0x01 0x7a 0x00; HC 0x0f 0x01 0x7a 0x00;
    HC 0x18 0x01 0x7a 0x00; HC 0x1f 0x01 0x7a 0x00; HC 0x29 0x01 0x7a 0x00; HC 0x38 0x01 0x7a 0x01 ];
  [ HC 0x01 0x01 0x26 0x00; HC 0x16 0x01 0x26 0x01; HC 0x01 0x01 0x2a 0x00; HC 0x16 0x01 0x2a 0x01;
    HC 0x01 0x01 0x2c 0x00; HC 0x16 0x01 0x2c 0x01; HC 0x01 0x01 0x3b 0x00; HC 0x16 0x01 0x3b 0x01;
    HC 0x01 0x01 0x58 0x00; HC 0x16 0x01 0x58 0x01; HC 0x01 0x01 0x5a 0x00; HC 0x16 0x01 0x5a 0x01;
    HC 0x4c 0x00 0x00 0x00; HC 0x4d 0x00 0x00 0x00; HC 0x4f 0x00 0x00 0x00; HC 0x51 0x00 0x00 0x01 ];
  [ HC 0x02 0x01 0x26 0x00; HC 0x09 0x01 0x26 0x00; HC 0x17 0x01 0x26 0x00; HC 0x28 0x01 0x26 0x01;
    HC 0x02 0x01 0x2a 0x00; HC 0x09 0x01 0x2a 0x00; HC 0x17 0x01 0x2a 0x00; HC 0x28 0x01 0x2a 0x01;
    HC 0x02 0x01 0x2c 0x00; HC 0x09 0x01 0x2c 0x00; HC 0x17 0x01 0x2c 0x00; HC 0x28 0x01 0x2c 0x01;
    HC 0x02 0x01 0x3b 0x00; HC 0x09 0x01 0x3b 0x00; HC 0x17 0x01 0x3b 0x00; HC 0x28 0x01 0x3b 0x01 ] ].

(* http/v2/ngx_http_v2_huff_decode.c:742-883 ngx_http_v2_huff_decode_codes: states 70 to 83 *)
Definition decode_rows_70 : list (list huff_decode_code) :=
[
  [ HC 0x03 0x01 0x26 0x00; HC 0x06 0x01 0x26 0x00; HC 0x0a 0x01 0x26 0x00; HC 0x0f 0x01 0x26 0x00;
    HC 0x18 0x01 0x26 0x00; HC 0x1f 0x01 0x26 0x00; HC 0x29 0x01 0x26 0x00; HC 0x38 0x01 0x26 0x01;
    HC 0x03 0x01 0x2a 0x00; HC 0x06 0x01 0x2a 0x00; HC 0x0a 0x01 0x2a 0x00; HC 0x0f 0x01 0x2a 0x00;
    HC 0x18 0x01 0x2a 0x00; HC 0x1f 0x01 0x2a 0x00; HC 0x29 0x01 0x2a 0x00; HC 0x38 0x01 0x2a 0x01 ];
  [ HC 0x03 0x01 0x2c 0x00; HC 0x06 0x01 0x2c 0x00; HC 0x0a 0x01 0x2c 0x00; HC 0x0f 0x01 0x2c 0x00;
    HC 0x18 0x01 0x2c 0x00; HC 0x1f 0x01 0x2c 0x00; HC 0x29 0x01 0x2c 0x00; HC 0x38 0x01 0x2c 0x01;
    HC 0x03 0x01 0x3b 0x00; HC 0x06 0x01 0x3b 0x00; HC 0x0a 0x01 0x3b 0x00; HC 0x0f 0x01 0x3b 0x00;
    HC 0x18 0x01 0x3b 0x00; HC 0x1f 0x01 0x3b 0x00; HC 0x29 0x01 0x3b 0x00; HC 0x38 0x01 0x3b 0x01 ];
  [ HC 0x02 0x01 0x58 0x00; HC 0x09 0x01 0x58 0x00; HC 0x17 0x01 0x58 0x00; HC 0x28 0x01 0x58 0x01;
    HC 0x02 0x01 0x5a 0x00; HC 0x09 0x01 0x5a 0x00; HC 0x17 0x01 0x5a 0x00; HC 0x28 0x01 0x5a 0x01;
    HC 0x00 0x01 0x21 0x01; HC 0x00 0x01 0x22 0x01; HC 0x00 0x01 0x28 0x01; HC 0x00 0x01 0x29 0x01;
    HC 0x00 0x01 0x3f 0x01; HC 0x50 0x00 0x00 0x00; HC 0x52 0x00 0x00 0x00; HC 0x54 0x00 0x00 0x01 ];
  [ HC 0x03 0x01 0x58 0x00; HC 0x06 0x01 0x58 0x00; HC 0x0a 0x01 0x58 0x00; HC 0x0f 0x01 0x58 0x00;
    HC 0x18 0x01 0x58 0x00; HC 0x1f 0x01 0x58 0x00; HC 0x29 0x01 0x58 0x00; HC 0x38 0x01 0x58 0x01;
    HC 0x03 0x01 0x5a 0x00; HC 0x06 0x01 0x5a 0x00; HC 0x0a 0x01 0x5a 0x00; HC 0x0f 0x01 0x5a 0x00;
    HC 0x18 0x01 0x5a 0x00; HC 0x1f 0x01 0x5a 0x00; HC 0x29 0x01 0x5a 0x00; HC 0x38 0x01 0x5a 0x01 ];
  [ HC 0x01 0x01 0x21 0x00; HC 0x16 0x01 0x21 0x01; HC 0x01 0x01 0x22 0x00; HC 0x16 0x01 0x22 0x01;
    HC 0x01 0x01 0x28 0x00; HC 0x16 0x01 0x28 0x01; HC 0x01 0x01 0x29 0x00; HC 0x16 0x01 0x29 0x01;
    HC 0x01 0x01 0x3f 0x00; HC 0x16 0x01 0x3f 0x01; HC 0x00 0x01 0x27 0x01; HC 0x00 0x01 0x2b 0x01;
    HC 0x00 0x01 0x7c 0x01; HC 0x53 0x00 0x00 0x00; HC 0x55 0x00 0x00 0x00; HC 0x58 0x00 0x00 0x01 ];
  [ HC 0x02 0x01 0x21 0x00; HC 0x09 0x01 0x21 0x00; HC 0x17 0x01 0x21 0x00; HC 0x28 0x01 0x21 0x01;
    HC 0x02 0x01 0x22 0x00; HC 0x09 0x01 0x22 0x00; HC 0x17 0x01 0x22 0x00; HC 0x28 0x01 0x22 0x01;
    HC 0x02 0x01 0x28 0x00; HC 0x09 0x01 0x28 0x00; HC 0x17 0x01 0x28 0x00; HC 0x28 0x01 0x28 0x01;
    HC 0x02 0x01 0x29 0x00; HC 0x09 0x01 0x29 0x00; HC 0x17 0x01 0x29 0x00; HC 0x28 0x01 0x29 0x01 ];
  [ HC 0x03 0x01 0x21 0x00; HC 0x06 0x01 0x21 0x00; HC 0x0a 0x01 0x21 0x00; HC 0x0f 0x01 0x21 0x00;
    HC 0x18 0x01 0x21 0x00; HC 0x1f 0x01 0x21 0x00; HC 0x29 0x01 0x21 0x00; HC 0x38 0x01 0x21 0x01;
    HC 0x03 0x01 0x22 0x00; HC 0x06 0x01 0x22 0x00; HC 0x0a 0x01 0x22 0x00; HC 0x0f 0x01 0x22 0x00;
    HC 0x18 0x01 0x22 0x00; HC 0x1f 0x01 0x22 0x00; HC 0x29 0x01 0x22 0x00; HC 0x38 0x01 0x22 0x01 ];
  [ HC 0x03 0x01 0x28 0x00; HC 0x06 0x01 0x28 0x00; HC 0x0a 0x01 0x28 0x00; HC 0x0f 0x01 0x28 0x00;
    HC 0x18 0x01 0x28 0x00; HC 0x1f 0x01 0x28 0x00; HC 0x29 0x01 0x28 0x00; HC 0x38 0x01 0x28 0x01;
    HC 0x03 0x01 0x29 0x00; HC 0x06 0x01 0x29 0x00; HC 0x0a 0x01 0x29 0x00; HC 0x0f 0x01 0x29 0x00;
    HC 0x18 0x01 0x29 0x00; HC 0x1f 0x01 0x29 0x00; HC 0x29 0x01 0x29 0x00; HC 0x38 0x01 0x29 0x01 ];
  [ HC 0x02 0x01 0x3f 0x00; HC 0x09 0x01 0x3f 0x00; HC 0x17 0x01 0x3f 0x00; HC 0x28 0x01 0x3f 0x01;
    HC 0x01 0x01 0x27 0x00; HC 0x16 0x01 0x27 0x01; HC 0x01 0x01 0x2b 0x00; HC 0x16 0x01 0x2b 0x01;
    HC 0x01 0x01 0x7c 0x00; HC 0x16 0x01 0x7c 0x01; HC 0x00 0x01 0x23 0x01; HC 0x00 0x01 0x3e 0x01;
    HC 0x56 0x00 0x00 0x00; HC 0x57 0x00 0x00 0x00; HC 0x59 0x00 0x00 0x00; HC 0x5a 0x00 0x00 0x01 ];
  [ HC 0x03 0x01 0x3f 0x00; HC 0x06 0x01 0x3f 0x00; HC 0x0a 0x01 0x3f 0x00; HC 0x0f 0x01 0x3f 0x00;
    HC 0x18 0x01 0x3f 0x00; HC 0x1f 0x01 0x3f 0x00; HC 0x29 0x01 0x3f 0x00; HC 0x38 0x01 0x3f 0x01;
    HC 0x02 0x01 0x27 0x00; HC 0x09 0x01 0x27 0x00; HC 0x17 0x01 0x27 0x00; HC 0x28 0x01 0x27 0x01;
    HC 0x02 0x01 0x2b 0x00; HC 0x09 0x01 0x2b 0x00; HC 0x17 0x01 0x2b 0x00; HC 0x28 0x01 0x2b 0x01 ];
  [ HC 0x03 0x01 0x27 0x00; HC 0x06 0x01 0x27 0x00; HC 0x0a 0x01 0x27 0x00; HC 0x0f 0x01 0x27 0x00;
    HC 0x18 0x01 0x27 0x00; HC 0x1f 0x01 0x27 0x00; HC 0x29 0x01 0x27 0x00; HC 0x38 0x01 0x27 0x01;
    HC 0x03 0x01 0x2b 0x00; HC 0x06 0x01 0x2b 0x00; HC 0x0a 0x01 0x2b 0x00; HC 0x0f 0x01 0x2b 0x00;
    HC 0x18 0x01 0x2b 0x00; HC 0x1f 0x01 0x2b 0x00; HC 0x29 0x01 0x2b 0x00; HC 0x38 0x01 0x2b 0x01 ];
  [ HC 0x02 0x01 0x7c 0x00; HC 0x09 0x01 0x7c 0x00; HC 0x17 0x01 0x7c 0x00; HC 0x28 0x01 0x7c 0x01;
    HC 0x01 0x01 0x23 0x00; HC 0x16 0x01 0x23 0x01; HC 0x01 0x01 0x3e 0x00; HC 0x16 0x01 0x3e 0x01;
    HC 0x00 0x01 0x00 0x01; HC 0x00 0x01 0x24 0x01; HC 0x00 0x01 0x40 0x01; HC 0x00 0x01 0x5b 0x01;
    HC 0x00 0x01 0x5d 0x01; HC 0x00 0x01 0x7e 0x01; HC 0x5b 0x00 0x00 0x00; HC 0x5c 0x00 0x00 0x01 ];
  [ HC 0x03 0x01 0x7c 0x00; HC 0x06 0x01 0x7c 0x00; HC 0x0a 0x01 0x7c 0x00; HC 0x0f 0x01 0x7c 0x00;
    HC 0x18 0x01 0x7c 0x00; HC 0x1f 0x01 0x7c 0x00; HC 0x29 0x01 0x7c 0x00; HC 0x38 0x01 0x7c 0x01;
    HC 0x02 0x01 0x23 0x00; HC 0x09 0x01 0x23 0x00; HC 0x17 0x01 0x23 0x00; HC 0x28 0x01 0x23 0x01;
    HC 0x02 0x01 0x3e 0x00; HC 0x09 0x01 0x3e 0x00; HC 0x17 0x01 0x3e 0x00; HC 0x28 0x01 0x3e 0x01 ];
  [ HC 0x03 0x01 0x23 0x00; HC 0x06 0x01 0x23 0x00; HC 0x0a 0x01 0x23 0x00; HC 0x0f 0x01 0x23 0x00;
    HC 0x18 0x01 0x23 0x00; HC 0x1f 0x01 0x23 0x00; HC 0x29 0x01 0x23 0x00; HC 0x38 0x01 0x23 0x01;
    HC 0x03 0x01 0x3e 0x00; HC 0x06 0x01 0x3e 0x00; HC 0x0a 0x01 0x3e 0x00; HC 0x0f 0x01 0x3e 0x00;
    HC 0x18 0x01 0x3e 0x00; HC 0x1f 0x01 0x3e 0x00; HC 0x29 0x01 0x3e 0x00; HC 0x38 0x01 0x3e 0x01 ] ].

(* http/v2/ngx_http_v2_huff_decode.c:884-1026 ngx_http_v2_huff_decode_codes: states 84 to 97 *)
Definition decode_rows_84 : list (list huff_decode_code) :=
[
  [ HC 0x01 0x01 0x00 0x00; HC 0x16 0x01 0x00 0x01; HC 0x01 0x01 0x24 0x00; HC 0x16 0x01 0x24 0x01;
    HC 0x01 0x01 0x40 0x00; HC 0x16 0x01 0x40 0x01; HC 0x01 0x01 0x5b 0x00; HC 0x16 0x01 0x5b 0x01;
    HC 0x01 0x01 0x5d 0x00; HC 0x16 0x01 0x5d 0x01; HC 0x01 0x01 0x7e 0x00; HC 0x16 0x01 0x7e 0x01;
    HC 0x00 0x01 0x5e 0x01; HC 0x00 0x01 0x7d 0x01; HC 0x5d 0x00 0x00 0x00; HC 0x5e 0x00 0x00 0x01 ];
  [ HC 0x02 0x01 0x00 0x00; HC 0x09 0x01 0x00 0x00; HC 0x17 0x01 0x00 0x00; HC 0x28 0x01 0x00 0x01;
    HC 0x02 0x01 0x24 0x00; HC 0x09 0x01 0x24 0x00; HC 0x17 0x01 0x24 0x00; HC 0x28 0x01 0x24 0x01;
    HC 0x02 0x01 0x40 0x00; HC 0x09 0x01 0x40 0x00; HC 0x17 0x01 0x40 0x00; HC 0x28 0x01 0x40 0x01;
    HC 0x02 0x01 0x5b 0x00; HC 0x09 0x01 0x5b 0x00; HC 0x17 0x01 0x5b 0x00; HC 0x28 0x01 0x5b 0x01 ];
  [ HC 0x03 0x01 0x00 0x00; HC 0x06 0x01 0x00 0x00; HC 0x0a 0x01 0x00 0x00; HC 0x0f 0x01 0x00 0x00;
    HC 0x18 0x01 0x00 0x00; HC 0x1f 0x01 0x00 0x00; HC 0x29 0x01 0x00 0x00; HC 0x38 0x01 0x00 0x01;
    HC 0x03 0x01 0x24 0x00; HC 0x06 0x01 0x24 0x00; HC 0x0a 0x01 0x24 0x00; HC 0x0f 0x01 0x24 0x00;
    HC 0x18 0x01 0x24 0x00; HC 0x1f 0x01 0x24 0x00; HC 0x29 0x01 0x24 0x00; HC 0x38 0x01 0x24 0x01 ];
  [ HC 0x03 0x01 0x40 0x00; HC 0x06 0x01 0x40 0x00; HC 0x0a 0x01 0x40 0x00; HC 0x0f 0x01 0x40 0x00;
    HC 0x18 0x01 0x40 0x00; HC 0x1f 0x01 0x40 0x00; HC 0x29 0x01 0x40 0x00; HC 0x38 0x01 0x40 0x01;
    HC 0x03 0x01 0x5b 0x00; HC 0x06 0x01 0x5b 0x00; HC 0x0a 0x01 0x5b 0x00; HC 0x0f 0x01 0x5b 0x00;
    HC 0x18 0x01 0x5b 0x00; HC 0x1f 0x01 0x5b 0x00; HC 0x29 0x01 0x5b 0x00; HC 0x38 0x01 0x5b 0x01 ];
  [ HC 0x02 0x01 0x5d 0x00; HC 0x09 0x01 0x5d 0x00; HC 0x17 0x01 0x5d 0x00; HC 0x28 0x01 0x5d 0x01;
    HC 0x02 0x01 0x7e 0x00; HC 0x09 0x01 0x7e 0x00; HC 0x17 0x01 0x7e 0x00; HC 0x28 0x01 0x7e 0x01;
    HC 0x01 0x01 0x5e 0x00; HC 0x16 0x01 0x5e 0x01; HC 0x01 0x01 0x7d 0x00; HC 0x16 0x01 0x7d 0x01;
    HC 0x00 0x01 0x3c 0x01; HC 0x00 0x01 0x60 0x01; HC 0x00 0x01 0x7b 0x01; HC 0x5f 0x00 0x00 0x01 ];
  [ HC 0x03 0x01 0x5d 0x00; HC 0x06 0x01 0x5d 0x00; HC 0x0a 0x01 0x5d 0x00; HC 0x0f 0x01 0x5d 0x00;
    HC 0x18 0x01 0x5d 0x00; HC 0x1f 0x01 0x5d 0x00; HC 0x29 0x01 0x5d 0x00; HC 0x38 0x01 0x5d 0x01;
    HC 0x03 0x01 0x7e 0x00; HC 0x06 0x01 0x7e 0x00; HC 0x0a 0x01 0x7e 0x00; HC 0x0f 0x01 0x7e 0x00;
    HC 0x18 0x01 0x7e 0x00; HC 0x1f 0x01 0x7e 0x00; HC 0x29 0x01 0x7e 0x00; HC 0x38 0x01 0x7e 0x01 ];
  [ HC 0x02 0x01 0x5e 0x00; HC 0x09 0x01 0x5e 0x00; HC 0x17 0x01 0x5e 0x00; HC 0x28 0x01 0x5e 0x01;
    HC 0x02 0x01 0x7d 0x00; HC 0x09 0x01 0x7d 0x00; HC 0x17 0x01 0x7d 0x00; HC 0x28 0x01 0x7d 0x01;
    HC 0x01 0x01 0x3c 0x00; HC 0x16 0x01 0x3c 0x01; HC 0x01 0x01 0x60 0x00; HC 0x16 0x01 0x60 0x01;
    HC 0x01 0x01 0x7b 0x00; HC 0x16 0x01 0x7b 0x01; HC 0x60 0x00 0x00 0x00; HC 0x6e 0x00 0x00 0x01 ];
  [ HC 0x03 0x01 0x5e 0x00; HC 0x06 0x01 0x5e 0x00; HC 0x0a 0x01 0x5e 0x00; HC 0x0f 0x01 0x5e 0x00;
    HC 0x18 0x01 0x5e 0x00; HC 0x1f 0x01 0x5e 0x00; HC 0x29 0x01 0x5e 0x00; HC 0x38 0x01 0x5e 0x01;
    HC 0x03 0x01 0x7d 0x00; HC 0x06 0x01 0x7d 0x00; HC 0x0a 0x01 0x7d 0x00; HC 0x0f 0x01 0x7d 0x00;
    HC 0x18 0x01 0x7d 0x00; HC 0x1f 0x01 0x7d 0x00; HC 0x29 0x01 0x7d 0x00; HC 0x38 0x01 0x7d 0x01 ];
  [ HC 0x02 0x01 0x3c 0x00; HC 0x09 0x01 0x3c 0x00; HC 0x17 0x01 0x3c 0x00; HC 0x28 0x01 0x3c 0x01;
    HC 0x02 0x01 0x60 0x00; HC 0x09 0x01 0x60 0x00; HC 0x17 0x01 0x60 0x00; HC 0x28 0x01 0x60 0x01;
    HC 0x02 0x01 0x7b 0x00; HC 0x09 0x01 0x7b 0x00; HC 0x17 0x01 0x7b 0x00; HC 0x28 0x01 0x7b 0x01;
    HC 0x61 0x00 0x00 0x00; HC 0x65 0x00 0x00 0x00; HC 0x6f 0x00 0x00 0x00; HC 0x85 0x00 0x00 0x01 ];
  [ HC 0x03 0x01 0x3c 0x00; HC 0x06 0x01 0x3c 0x00; HC 0x0a 0x01 0x3c 0x00; HC 0x0f 0x01 0x3c 0x00;
    HC 0x18 0x01 0x3c 0x00; HC 0x1f 0x01 0x3c 0x00; HC 0x29 0x01 0x3c 0x00; HC 0x38 0x01 0x3c 0x01;
    HC 0x03 0x01 0x60 0x00; HC 0x06 0x01 0x60 0x00; HC 0x0a 0x01 0x60 0x00; HC 0x0f 0x01 0x60 0x00;
    HC 0x18 0x01 0x60 0x00; HC 0x1f 0x01 0x60 0x00; HC 0x29 0x01 0x60 0x00; HC 0x38 0x01 0x60 0x01 ];
  [ HC 0x03 0x01 0x7b 0x00; HC 0x06 0x01 0x7b 0x00; HC 0x0a 0x01 0x7b 0x00; HC 0x0f 0x01 0x7b 0x00;
    HC 0x18 0x01 0x7b 0x00; HC 0x1f 0x01 0x7b 0x00; HC 0x29 0x01 0x7b 0x00; HC 0x38 0x01 0x7b 0x01;
    HC 0x62 0x00 0x00 0x00; HC 0x63 0x00 0x00 0x00; HC 0x66 0x00 0x00 0x00; HC 0x69 0x00 0x00 0x00;
    HC 0x70 0x00 0x00 0x00; HC 0x77 0x00 0x00 0x00; HC 0x86 0x00 0x00 0x00; HC 0x99 0x00 0x00 0x01 ];
  [ HC 0x00 0x01 0x5c 0x01; HC 0x00 0x01 0xc3 0x01; HC 0x00 0x01 0xd0 0x01; HC 0x64 0x00 0x00 0x00;
    HC 0x67 0x00 0x00 0x00; HC 0x68 0x00 0x00 0x00; HC 0x6a 0x00 0x00 0x00; HC 0x6b 0x00 0x00 0x00;
    HC 0x71 0x00 0x00 0x00; HC 0x74 0x00 0x00 0x00; HC 0x78 0x00 0x00 0x00; HC 0x7e 0x00 0x00 0x00;
    HC 0x87 0x00 0x00 0x00; HC 0x8e 0x00 0x00 0x00; HC 0x9a 0x00 0x00 0x00; HC 0xa9 0x00 0x00 0x01 ];
  [ HC 0x01 0x01 0x5c 0x00; HC 0x16 0x01 0x5c 0x01; HC 0x01 0x01 0xc3 0x00; HC 0x16 0x01 0xc3 0x01;
    HC 0x01 0x01 0xd0 0x00; HC 0x16 0x01 0xd0 0x01; HC 0x00 0x01 0x80 0x01; HC 0x00 0x01 0x82 0x01;
    HC 0x00 0x01 0x83 0x01; HC 0x00 0x01 0xa2 0x01; HC 0x00 0x01 0xb8 0x01; HC 0x00 0x01 0xc2 0x01;
    HC 0x00 0x01 0xe0 0x01; HC 0x00 0x01 0xe2 0x01; HC 0x6c 0x00 0x00 0x00; HC 0x6d 0x00 0x00 0x00 ];
  [ HC 0x02 0x01 0x5c 0x00; HC 0x09 0x01 0x5c 0x00; HC 0x17 0x01 0x5c 0x00; HC 0x28 0x01 0x5c 0x01;
    HC 0x02 0x01 0xc3 0x00; HC 0x09 0x01 0xc3 0x00; HC 0x17 0x01 0xc3 0x00; HC 0x28 0x01 0xc3 0x01;
    HC 0x02 0x01 0xd0 0x00; HC 0x09 0x01 0xd0 0x00; HC 0x17 0x01 0xd0 0x00; HC 0x28 0x01 0xd0 0x01;
    HC 0x01 0x01 0x80 0x00; HC 0x16 0x01 0x80 0x01; HC 0x01 0x01 0x82 0x00; HC 0x16 0x01 0x82 0x01 ] ].

(* http/v2/ngx_http_v2_huff_decode.c:1027-1169 ngx_http_v2_huff_decode_codes: states 98 to 111 *)
Definition decode_rows_98 : list (list huff_decode_code) :=
[
  [ HC 0x03 0x01 0x5c 0x00; HC 0x06 0x01 0x5c 0x00; HC 0x0a 0x01 0x5c 0x00; HC 0x0f 0x01 0x5c 0x00;
    HC 0x18 0x01 0x5c 0x00; HC 0x1f 0x01 0x5c 0x00; HC 0x29 0x01 0x5c 0x00; HC 0x38 0x01 0x5c 0x01;
    HC 0x03 0x01 0xc3 0x00; HC 0x06 0x01 0xc3 0x00; HC 0x0a 0x01 0xc3 0x00; HC 0x0f 0x01 0xc3 0x00;
    HC 0x18 0x01 0xc3 0x00; HC 0x1f 0x01 0xc3 0x00; HC 0x29 0x01 0xc3 0x00; HC 0x38 0x01 0xc3 0x01 ];
  [ HC 0x03 0x01 0xd0 0x00; HC 0x06 0x01 0xd0 0x00; HC 0x0a 0x01 0xd0 0x00; HC 0x0f 0x01 0xd0 0x00;
    HC 0x18 0x01 0xd0 0x00; HC 0x1f 0x01 0xd0 0x00; HC 0x29 0x01 0xd0 0x00; HC 0x38 0x01 0xd0 0x01;
    HC 0x02 0x01 0x80 0x00; HC 0x09 0x01 0x80 0x00; HC 0x17 0x01 0x80 0x00; HC 0x28 0x01 0x80 0x01;
    HC 0x02 0x01 0x82 0x00; HC 0x09 0x01 0x82 0x00; HC 0x17 0x01 0x82 0x00; HC 0x28 0x01 0x82 0x01 ];
  [ HC 0x03 0x01 0x80 0x00; HC 0x06 0x01 0x80 0x00; HC 0x0a 0x01 0x80 0x00; HC 0x0f 0x01 0x80 0x00;
    HC 0x18 0x01 0x80 0x00; HC 0x1f 0x01 0x80 0x00; HC 0x29 0x01 0x80 0x00; HC 0x38 0x01 0x80 0x01;
    HC 0x03 0x01 0x82 0x00; HC 0x06 0x01 0x82 0x00; HC 0x0a 0x01 0x82 0x00; HC 0x0f 0x01 0x82 0x00;
    HC 0x18 0x01 0x82 0x00; HC 0x1f 0x01 0x82 0x00; HC 0x29 0x01 0x82 0x00; HC 0x38 0x01 0x82 0x01 ];
  [ HC 0x01 0x01 0x83 0x00; HC 0x16 0x01 0x83 0x01; HC 0x01 0x01 0xa2 0x00; HC 0x16 0x01 0xa2 0x01;
    HC 0x01 0x01 0xb8 0x00; HC 0x16 0x01 0xb8 0x01; HC 0x01 0x01 0xc2 0x00; HC 0x16 0x01 0xc2 0x01;
    HC 0x01 0x01 0xe0 0x00; HC 0x16 0x01 0xe0 0x01; HC 0x01 0x01 0xe2 0x00; HC 0x16 0x01 0xe2 0x01;
    HC 0x00 0x01 0x99 0x01; HC 0x00 0x01 0xa1 0x01; HC 0x00 0x01 0xa7 0x01; HC 0x00 0x01 0xac 0x01 ];
  [ HC 0x02 0x01 0x83 0x00; HC 0x09 0x01 0x83 0x00; HC 0x17 0x01 0x83 0x00; HC 0x28 0x01 0x83 0x01;
    HC 0x02 0x01 0xa2 0x00; HC 0x09 0x01 0xa2 0x00; HC 0x17 0x01 0xa2 0x00; HC 0x28 0x01 0xa2 0x01;
    HC 0x02 0x01 0xb8 0x00; HC 0x09 0x01 0xb8 0x00; HC 0x17 0x01 0xb8 0x00; HC 0x28 0x01 0xb8 0x01;
    HC 0x02 0x01 0xc2 0x00; HC 0x09 0x01 0xc2 0x00; HC 0x17 0x01 0xc2 0x00; HC 0x28 0x01 0xc2 0x01 ];
  [ HC 0x03 0x01 0x83 0x00; HC 0x06 0x01 0x83 0x00; HC 0x0a 0x01 0x83 0x00; HC 0x0f 0x01 0x83 0x00;
    HC 0x18 0x01 0x83 0x00; HC 0x1f 0x01 0x83 0x00; HC 0x29 0x01 0x83 0x00; HC 0x38 0x01 0x83 0x01;
    HC 0x03 0x01 0xa2 0x00; HC 0x06 0x01 0xa2 0x00; HC 0x0a 0x01 0xa2 0x00; HC 0x0f 0x01 0xa2 0x00;
    HC 0x18 0x01 0xa2 0x00; HC 0x1f 0x01 0xa2 0x00; HC 0x29 0x01 0xa2 0x00; HC 0x38 0x01 0xa2 0x01 ];
  [ HC 0x03 0x01 0xb8 0x00; HC 0x06 0x01 0xb8 0x00; HC 0x0a 0x01 0xb8 0x00; HC 0x0f 0x01 0xb8 0x00;
    HC 0x18 0x01 0xb8 0x00; HC 0x1f 0x01 0xb8 0x00; HC 0x29 0x01 0xb8 0x00; HC 0x38 0x01 0xb8 0x01;
    HC 0x03 0x01 0xc2 0x00; HC 0x06 0x01 0xc2 0x00; HC 0x0a 0x01 0xc2 0x00; HC 0x0f 0x01 0xc2 0x00;
    HC 0x18 0x01 0xc2 0x00; HC 0x1f 0x01 0xc2 0x00; HC 0x29 0x01 0xc2 0x00; HC 0x38 0x01 0xc2 0x01 ];
  [ HC 0x02 0x01 0xe0 0x00; HC 0x09 0x01 0xe0 0x00; HC 0x17 0x01 0xe0 0x00; HC 0x28 0x01 0xe0 0x01;
    HC 0x02 0x01 0xe2 0x00; HC 0x09 0x01 0xe2 0x00; HC 0x17 0x01 0xe2 0x00; HC 0x28 0x01 0xe2 0x01;
    HC 0x01 0x01 0x99 0x00; HC 0x16 0x01 0x99 0x01; HC 0x01 0x01 0xa1 0x00; HC 0x16 0x01 0xa1 0x01;
    HC 0x01 0x01 0xa7 0x00; HC 0x16 0x01 0xa7 0x01; HC 0x01 0x01 0xac 0x00; HC 0x16 0x01 0xac 0x01 ];
  [ HC 0x03 0x01 0xe0 0x00; HC 0x06 0x01 0xe0 0x00; HC 0x0a 0x01 0xe0 0x00; HC 0x0f 0x01 0xe0 0x00;
    HC 0x18 0x01 0xe0 0x00; HC 0x1f 0x01 0xe0 0x00; HC 0x29 0x01 0xe0 0x00; HC 0x38 0x01 0xe0 0x01;
    HC 0x03 0x01 0xe2 0x00; HC 0x06 0x01 0xe2 0x00; HC 0x0a 0x01 0xe2 0x00; HC 0x0f 0x01 0xe2 0x00;
    HC 0x18 0x01 0xe2 0x00; HC 0x1f 0x01 0xe2 0x00; HC 0x29 0x01 0xe2 0x00; HC 0x38 0x01 0xe2 0x01 ];
  [ HC 0x02 0x01 0x99 0x00; HC 0x09 0x01 0x99 0x00; HC 0x17 0x01 0x99 0x00; HC 0x28 0x01 0x99 0x01;
    HC 0x02 0x01 0xa1 0x00; HC 0x09 0x01 0xa1 0x00; HC 0x17 0x01 0xa1 0x00; HC 0x28 0x01 0xa1 0x01;
    HC 0x02 0x01 0xa7 0x00; HC 0x09 0x01 0xa7 0x00; HC 0x17 0x01 0xa7 0x00; HC 0x28 0x01 0xa7 0x01;
    HC 0x02 0x01 0xac 0x00; HC 0x09 0x01 0xac 0x00; HC 0x17 0x01 0xac 0x00; HC 0x28 0x01 0xac 0x01 ];
  [ HC 0x03 0x01 0x99 0x00; HC 0x06 0x01 0x99 0x00; HC 0x0a 0x01 0x99 0x00; HC 0x0f 0x01 0x99 0x00;
    HC 0x18 0x01 0x99 0x00; HC 0x1f 0x01 0x99 0x00; HC 0x29 0x01 0x99 0x00; HC 0x38 0x01 0x99 0x01;
    HC 0x03 0x01 0xa1 0x00; HC 0x06 0x01 0xa1 0x00; HC 0x0a 0x01 0xa1 0x00; HC 0x0f 0x01 0xa1 0x00;
    HC 0x18 0x01 0xa1 0x00; HC 0x1f 0x01 0xa1 0x00; HC 0x29 0x01 0xa1 0x00; HC 0x38 0x01 0xa1 0x01 ];
  [ HC 0x03 0x01 0xa7 0x00; HC 0x06 0x01 0xa7 0x00; HC 0x0a 0x01 0xa7 0x00; HC 0x0f 0x01 0xa7 0x00;
    HC 0x18 0x01 0xa7 0x00; HC 0x1f 0x01 0xa7 0x00; HC 0x29 0x01 0xa7 0x00; HC 0x38 0x01 0xa7 0x01;
    HC 0x03 0x01 0xac 0x00; HC 0x06 0x01 0xac 0x00; HC 0x0a 0x01 0xac 0x00; HC 0x0f 0x01 0xac 0x00;
    HC 0x18 0x01 0xac 0x00; HC 0x1f 0x01 0xac 0x00; HC 0x29 0x01 0xac 0x00; HC 0x38 0x01 0xac 0x01 ];
  [ HC 0x72 0x00 0x00 0x00; HC 0x73 0x00 0x00 0x00; HC 0x75 0x00 0x00 0x00; HC 0x76 0x00 0x00 0x00;
    HC 0x79 0x00 0x00 0x00; HC 0x7b 0x00 0x00 0x00; HC 0x7f 0x00 0x00 0x00; HC 0x82 0x00 0x00 0x00;
    HC 0x88 0x00 0x00 0x00; HC 0x8b 0x00 0x00 0x00; HC 0x8f 0x00 0x00 0x00; HC 0x92 0x00 0x00 0x00;
    HC 0x9b 0x00 0x00 0x00; HC 0xa2 0x00 0x00 0x00; HC 0xaa 0x00 0x00 0x00; HC 0xb4 0x00 0x00 0x01 ];
  [ HC 0x00 0x01 0xb0 0x01; HC 0x00 0x01 0xb1 0x01; HC 0x00 0x01 0xb3 0x01; HC 0x00 0x01 0xd1 0x01;
    HC 0x00 0x01 0xd8 0x01; HC 0x00 0x01 0xd9 0x01; HC 0x00 0x01 0xe3 0x01; HC 0x00 0x01 0xe5 0x01;
    HC 0x00 0x01 0xe6 0x01; HC 0x7a 0x00 0x00 0x00; HC 0x7c 0x00 0x00 0x00; HC 0x7d 0x00 0x00 0x00;
    HC 0x80 0x00 0x00 0x00; HC 0x81 0x00 0x00 0x00; HC 0x83 0x00 0x00 0x00; HC 0x84 0x00 0x00 0x00 ] ].

(* http/v2/ngx_http_v2_huff_decode.c:1170-1312 ngx_http_v2_huff_decode_codes: states 112 to 125 *)
Definition decode_rows_112 : list (list huff_decode_code) :=
[
  [ HC 0x01 0x01 0xb0 0x00; HC 0x16 0x01 0xb0 0x01; HC 0x01 0x01 0xb1 0x00; HC 0x16 0x01 0xb1 0x01;
    HC 0x01 0x01 0xb3 0x00; HC 0x16 0x01 0xb3 0x01; HC 0x01 0x01 0xd1 0x00; HC 0x16 0x01 0xd1 0x01;
    HC 0x01 0x01 0xd8 0x00; HC 0x16 0x01 0xd8 0x01; HC 0x01 0x01 0xd9 0x00; HC 0x16 0x01 0xd9 0x01;
    HC 0x01 0x01 0xe3 0x00; HC 0x16 0x01 0xe3 0x01; HC 0x01 0x01 0xe5 0x00; HC 0x16 0x01 0xe5 0x01 ];
  [ HC 0x02 0x01 0xb0 0x00; HC 0x09 0x01 0xb0 0x00; HC 0x17 0x01 0xb0 0x00; HC 0x28 0x01 0xb0 0x01;
    HC 0x02 0x01 0xb1 0x00; HC 0x09 0x01 0xb1 0x00; HC 0x17 0x01 0xb1 0x00; HC 0x28 0x01 0xb1 0x01;
    HC 0x02 0x01 0xb3 0x00; HC 0x09 0x01 0xb3 0x00; HC 0x17 0x01 0xb3 0x00; HC 0x28 0x01 0xb3 0x01;
    HC 0x02 0x01 0xd1 0x00; HC 0x09 0x01 0xd1 0x00; HC 0x17 0x01 0xd1 0x00; HC 0x28 0x01 0xd1 0x01 ];
  [ HC 0x03 0x01 0xb0 0x00; HC 0x06 0x01 0xb0 0x00; HC 0x0a 0x01 0xb0 0x00; HC 0x0f 0x01 0xb0 0x00;
    HC 0x18 0x01 0xb0 0x00; HC 0x1f 0x01 0xb0 0x00; HC 0x29 0x01 0xb0 0x00; HC 0x38 0x01 0xb0 0x01;
    HC 0x03 0x01 0xb1 0x00; HC 0x06 0x01 0xb1 0x00; HC 0x0a 0x01 0xb1 0x00; HC 0x0f 0x01 0xb1 0x00;
    HC 0x18 0x01 0xb1 0x00; HC 0x1f 0x01 0xb1 0x00; HC 0x29 0x01 0xb1 0x00; HC 0x38 0x01 0xb1 0x01 ];
  [ HC 0x03 0x01 0xb3 0x00; HC 0x06 0x01 0xb3 0x00; HC 0x0a 0x01 0xb3 0x00; HC 0x0f 0x01 0xb3 0x00;
    HC 0x18 0x01 0xb3 0x00; HC 0x1f 0x01 0xb3 0x00; HC 0x29 0x01 0xb3 0x00; HC 0x38 0x01 0xb3 0x01;
    HC 0x03 0x01 0xd1 0x00; HC 0x06 0x01 0xd1 0x00; HC 0x0a 0x01 0xd1 0x00; HC 0x0f 0x01 0xd1 0x00;
    HC 0x18 0x01 0xd1 0x00; HC 0x1f 0x01 0xd1 0x00; HC 0x29 0x01 0xd1 0x00; HC 0x38 0x01 0xd1 0x01 ];
  [ HC 0x02 0x01 0xd8 0x00; HC 0x09 0x01 0xd8 0x00; HC 0x17 0x01 0xd8 0x00; HC 0x28 0x01 0xd8 0x01;
    HC 0x02 0x01 0xd9 0x00; HC 0x09 0x01 0xd9 0x00; HC 0x17 0x01 0xd9 0x00; HC 0x28 0x01 0xd9 0x01;
    HC 0x02 0x01 0xe3 0x00; HC 0x09 0x01 0xe3 0x00; HC 0x17 0x01 0xe3 0x00; HC 0x28 0x01 0xe3 0x01;
    HC 0x02 0x01 0xe5 0x00; HC 0x09 0x01 0xe5 0x00; HC 0x17 0x01 0xe5 0x00; HC 0x28 0x01 0xe5 0x01 ];
  [ HC 0x03 0x01 0xd8 0x00; HC 0x06 0x01 0xd8 0x00; HC 0x0a 0x01 0xd8 0x00; HC 0x0f 0x01 0xd8 0x00;
    HC 0x18 0x01 0xd8 0x00; HC 0x1f 0x01 0xd8 0x00; HC 0x29 0x01 0xd8 0x00; HC 0x38 0x01 0xd8 0x01;
    HC 0x03 0x01 0xd9 0x00; HC 0x06 0x01 0xd9 0x00; HC 0x0a 0x01 0xd9 0x00; HC 0x0f 0x01 0xd9 0x00;
    HC 0x18 0x01 0xd9 0x00; HC 0x1f 0x01 0xd9 0x00; HC 0x29 0x01 0xd9 0x00; HC 0x38 0x01 0xd9 0x01 ];
  [ HC 0x03 0x01 0xe3 0x00; HC 0x06 0x01 0xe3 0x00; HC 0x0a 0x01 0xe3 0x00; HC 0x0f 0x01 0xe3 0x00;
    HC 0x18 0x01 0xe3 0x00; HC 0x1f 0x01 0xe3 0x00; HC 0x29 0x01 0xe3 0x00; HC 0x38 0x01 0xe3 0x01;
    HC 0x03 0x01 0xe5 0x00; HC 0x06 0x01 0xe5 0x00; HC 0x0a 0x01 0xe5 0x00; HC 0x0f 0x01 0xe5 0x00;
    HC 0x18 0x01 0xe5 0x00; HC 0x1f 0x01 0xe5 0x00; HC 0x29 0x01 0xe5 0x00; HC 0x38 0x01 0xe5 0x01 ];
  [ HC 0x01 0x01 0xe6 0x00; HC 0x16 0x01 0xe6 0x01; HC 0x00 0x01 0x81 0x01; HC 0x00 0x01 0x84 0x01;
    HC 0x00 0x01 0x85 0x01; HC 0x00 0x01 0x86 0x01; HC 0x00 0x01 0x88 0x01; HC 0x00 0x01 0x92 0x01;
    HC 0x00 0x01 0x9a 0x01; HC 0x00 0x01 0x9c 0x01; HC 0x00 0x01 0xa0 0x01; HC 0x00 0x01 0xa3 0x01;
    HC 0x00 0x01 0xa4 0x01; HC 0x00 0x01 0xa9 0x01; HC 0x00 0x01 0xaa 0x01; HC 0x00 0x01 0xad 0x01 ];
  [ HC 0x02 0x01 0xe6 0x00; HC 0x09 0x01 0xe6 0x00; HC 0x17 0x01 0xe6 0x00; HC 0x28 0x01 0xe6 0x01;
    HC 0x01 0x01 0x81 0x00; HC 0x16 0x01 0x81 0x01; HC 0x01 0x01 0x84 0x00; HC 0x16 0x01 0x84 0x01;
    HC 0x01 0x01 0x85 0x00; HC 0x16 0x01 0x85 0x01; HC 0x01 0x01 0x86 0x00; HC 0x16 0x01 0x86 0x01;
    HC 0x01 0x01 0x88 0x00; HC 0x16 0x01 0x88 0x01; HC 0x01 0x01 0x92 0x00; HC 0x16 0x01 0x92 0x01 ];
  [ HC 0x03 0x01 0xe6 0x00; HC 0x06 0x01 0xe6 0x00; HC 0x0a 0x01 0xe6 0x00; HC 0x0f 0x01 0xe6 0x00;
    HC 0x18 0x01 0xe6 0x00; HC 0x1f 0x01 0xe6 0x00; HC 0x29 0x01 0xe6 0x00; HC 0x38 0x01 0xe6 0x01;
    HC 0x02 0x01 0x81 0x00; HC 0x09 0x01 0x81 0x00; HC 0x17 0x01 0x81 0x00; HC 0x28 0x01 0x81 0x01;
    HC 0x02 0x01 0x84 0x00; HC 0x09 0x01 0x84 0x00; HC 0x17 0x01 0x84 0x00; HC 0x28 0x01 0x84 0x01 ];
  [ HC 0x03 0x01 0x81 0x00; HC 0x06 0x01 0x81 0x00; HC 0x0a 0x01 0x81 0x00; HC 0x0f 0x01 0x81 0x00;
    HC 0x18 0x01 0x81 0x00; HC 0x1f 0x01 0x81 0x00; HC 0x29 0x01 0x81 0x00; HC 0x38 0x01 0x81 0x01;
    HC 0x03 0x01 0x84 0x00; HC 0x06 0x01 0x84 0x00; HC 0x0a 0x01 0x84 0x00; HC 0x0f 0x01 0x84 0x00;
    HC 0x18 0x01 0x84 0x00; HC 0x1f 0x01 0x84 0x00; HC 0x29 0x01 0x84 0x00; HC 0x38 0x01 0x84 0x01 ];
  [ HC 0x02 0x01 0x85 0x00; HC 0x09 0x01 0x85 0x00; HC 0x17 0x01 0x85 0x00; HC 0x28 0x01 0x85 0x01;
    HC 0x02 0x01 0x86 0x00; HC 0x09 0x01 0x86 0x00; HC 0x17 0x01 0x86 0x00; HC 0x28 0x01 0x86 0x01;
    HC 0x02 0x01 0x88 0x00; HC 0x09 0x01 0x88 0x00; HC 0x17 0x01 0x88 0x00; HC 0x28 0x01 0x88 0x01;
    HC 0x02 0x01 0x92 0x00; HC 0x09 0x01 0x92 0x00; HC 0x17 0x01 0x92 0x00; HC 0x28 0x01 0x92 0x01 ];
  [ HC 0x03 0x01 0x85 0x00; HC 0x06 0x01 0x85 0x00; HC 0x0a 0x01 0x85 0x00; HC 0x0f 0x01 0x85 0x00;
    HC 0x18 0x01 0x85 0x00; HC 0x1f 0x01 0x85 0x00; HC 0x29 0x01 0x85 0x00; HC 0x38 0x01 0x85 0x01;
    HC 0x03 0x01 0x86 0x00; HC 0x06 0x01 0x86 0x00; HC 0x0a 0x01 0x86 0x00; HC 0x0f 0x01 0x86 0x00;
    HC 0x18 0x01 0x86 0x00; HC 0x1f 0x01 0x86 0x00; HC 0x29 0x01 0x86 0x00; HC 0x38 0x01 0x86 0x01 ];
  [ HC 0x03 0x01 0x88 0x00; HC 0x06 0x01 0x88 0x00; HC 0x0a 0x01 0x88 0x00; HC 0x0f 0x01 0x88 0x00;
    HC 0x18 0x01 0x88 0x00; HC 0x1f 0x01 0x88 0x00; HC 0x29 0x01 0x88 0x00; HC 0x38 0x01 0x88 0x01;
    HC 0x03 0x01 0x92 0x00; HC 0x06 0x01 0x92 0x00; HC 0x0a 0x01 0x92 0x00; HC 0x0f 0x01 0x92 0x00;
    HC 0x18 0x01 0x92 0x00; HC 0x1f 0x01 0x92 0x00; HC 0x29 0x01 0x92 0x00; HC 0x38 0x01 0x92 0x01 ] ].

(* http/v2/ngx_http_v2_huff_decode.c:1313-1454 ngx_http_v2_huff_decode_codes: states 126 to 139 *)
Definition decode_rows_126 : list (list huff_decode_code) :=
[
  [ HC 0x01 0x01 0x9a 0x00; HC 0x16 0x01 0x9a 0x01; HC 0x01 0x01 0x9c 0x00; HC 0x16 0x01 0x9c 0x01;
    HC 0x01 0x01 0xa0 0x00; HC 0x16 0x01 0xa0 0x01; HC 0x01 0x01 0xa3 0x00; HC 0x16 0x01 0xa3 0x01;
    HC 0x01 0x01 0xa4 0x00; HC 0x16 0x01 0xa4 0x01; HC 0x01 0x01 0xa9 0x00; HC 0x16 0x01 0xa9 0x01;
    HC 0x01 0x01 0xaa 0x00; HC 0x16 0x01 0xaa 0x01; HC 0x01 0x01 0xad 0x00; HC 0x16 0x01 0xad 0x01 ];
  [ HC 0x02 0x01 0x9a 0x00; HC 0x09 0x01 0x9a 0x00; HC 0x17 0x01 0x9a 0x00; HC 0x28 0x01 0x9a 0x01;
    HC 0x02 0x01 0x9c 0x00; HC 0x09 0x01 0x9c 0x00; HC 0x17 0x01 0x9c 0x00; HC 0x28 0x01 0x9c 0x01;
    HC 0x02 0x01 0xa0 0x00; HC 0x09 0x01 0xa0 0x00; HC 0x17 0x01 0xa0 0x00; HC 0x28 0x01 0xa0 0x01;
    HC 0x02 0x01 0xa3 0x00; HC 0x09 0x01 0xa3 0x00; HC 0x17 0x01 0xa3 0x00; HC 0x28 0x01 0xa3 0x01 ];
  [ HC 0x03 0x01 0x9a 0x00; HC 0x06 0x01 0x9a 0x00; HC 0x0a 0x01 0x9a 0x00; HC 0x0f 0x01 0x9a 0x00;
    HC 0x18 0x01 0x9a 0x00; HC 0x1f 0x01 0x9a 0x00; HC 0x29 0x01 0x9a 0x00; HC 0x38 0x01 0x9a 0x01;
    HC 0x03 0x01 0x9c 0x00; HC 0x06 0x01 0x9c 0x00; HC 0x0a 0x01 0x9c 0x00; HC 0x0f 0x01 0x9c 0x00;
    HC 0x18 0x01 0x9c 0x00; HC 0x1f 0x01 0x9c 0x00; HC 0x29 0x01 0x9c 0x00; HC 0x38 0x01 0x9c 0x01 ];
  [ HC 0x03 0x01 0xa0 0x00; HC 0x06 0x01 0xa0 0x00; HC 0x0a 0x01 0xa0 0x00; HC 0x0f 0x01 0xa0 0x00;
    HC 0x18 0x01 0xa0 0x00; HC 0x1f 0x01 0xa0 0x00; HC 0x29 0x01 0xa0 0x00; HC 0x38 0x01 0xa0 0x01;
    HC 0x03 0x01 0xa3 0x00; HC 0x06 0x01 0xa3 0x00; HC 0x0a 0x01 0xa3 0x00; HC 0x0f 0x01 0xa3 0x00;
    HC 0x18 0x01 0xa3 0x00; HC 0x1f 0x01 0xa3 0x00; HC 0x29 0x01 0xa3 0x00; HC 0x38 0x01 0xa3 0x01 ];
  [ HC 0x02 0x01 0xa4 0x00; HC 0x09 0x01 0xa4 0x00; HC 0x17 0x01 0xa4 0x00; HC 0x28 0x01 0xa4 0x01;
    HC 0x02 0x01 0xa9 0x00; HC 0x09 0x01 0xa9 0x00; HC 0x17 0x01 0xa9 0x00; HC 0x28 0x01 0xa9 0x01;
    HC 0x02 0x01 0xaa 0x00; HC 0x09 0x01 0xaa 0x00; HC 0x17 0x01 0xaa 0x00; HC 0x28 0x01 0xaa 0x01;
    HC 0x02 0x01 0xad 0x00; HC 0x09 0x01 0xad 0x00; HC 0x17 0x01 0xad 0x00; HC 0x28 0x01 0xad 0x01 ];
  [ HC 0x03 0x01 0xa4 0x00; HC 0x06 0x01 0xa4 0x00; HC 0x0a 0x01 0xa4 0x00; HC 0x0f 0x01 0xa4 0x00;
    HC 0x18 0x01 0xa4 0x00; HC 0x1f 0x01 0xa4 0x00; HC 0x29 0x01 0xa4 0x00; HC 0x38 0x01 0xa4 0x01;
    HC 0x03 0x01 0xa9 0x00; HC 0x06 0x01 0xa9 0x00; HC 0x0a 0x01 0xa9 0x00; HC 0x0f 0x01 0xa9 0x00;
    HC 0x18 0x01 0xa9 0x00; HC 0x1f 0x01 0xa9 0x00; HC 0x29 0x01 0xa9 0x00; HC 0x38 0x01 0xa9 0x01 ];
  [ HC 0x03 0x01 0xaa 0x00; HC 0x06 0x01 0xaa 0x00; HC 0x0a 0x01 0xaa 0x00; HC 0x0f 0x01 0xaa 0x00;
    HC 0x18 0x01 0xaa 0x00; HC 0x1f 0x01 0xaa 0x00; HC 0x29 0x01 0xaa 0x00; HC 0x38 0x01 0xaa 0x01;
    HC 0x03 0x01 0xad 0x00; HC 0x06 0x01 0xad 0x00; HC 0x0a 0x01 0xad 0x00; HC 0x0f 0x01 0xad 0x00;
    HC 0x18 0x01 0xad 0x00; HC 0x1f 0x01 0xad 0x00; HC 0x29 0x01 0xad 0x00; HC 0x38 0x01 0xad 0x01 ];
  [ HC 0x89 0x00 0x00 0x00; HC 0x8a 0x00 0x00 0x00; HC 0x8c 0x00 0x00 0x00; HC 0x8d 0x00 0x00 0x00;
    HC 0x90 0x00 0x00 0x00; HC 0x91 0x00 0x00 0x00; HC 0x93 0x00 0x00 0x00; HC 0x96 0x00 0x00 0x00;
    HC 0x9c 0x00 0x00 0x00; HC 0x9f 0x00 0x00 0x00; HC 0xa3 0x00 0x00 0x00; HC 0xa6 0x00 0x00 0x00;
    HC 0xab 0x00 0x00 0x00; HC 0xae 0x00 0x00 0x00; HC 0xb5 0x00 0x00 0x00; HC 0xbe 0x00 0x00 0x01 ];
  [ HC 0x00 0x01 0xb2 0x01; HC 0x00 0x01 0xb5 0x01; HC 0x00 0x01 0xb9 0x01; HC 0x00 0x01 0xba 0x01;
    HC 0x00 0x01 0xbb 0x01; HC 0x00 0x01 0xbd 0x01; HC 0x00 0x01 0xbe 0x01; HC 0x00 0x01 0xc4 0x01;
    HC 0x00 0x01 0xc6 0x01; HC 0x00 0x01 0xe4 0x01; HC 0x00 0x01 0xe8 0x01; HC 0x00 0x01 0xe9 0x01;
    HC 0x94 0x00 0x00 0x00; HC 0x95 0x00 0x00 0x00; HC 0x97 0x00 0x00 0x00; HC 0x98 0x00 0x00 0x00 ];
  [ HC 0x01 0x01 0xb2 0x00; HC 0x16 0x01 0xb2 0x01; HC 0x01 0x01 0xb5 0x00; HC 0x16 0x01 0xb5 0x01;
    HC 0x01 0x01 0xb9 0x00; HC 0x16 0x01 0xb9 0x01; HC 0x01 0x01 0xba 0x00; HC 0x16 0x01 0xba 0x01;
    HC 0x01 0x01 0xbb 0x00; HC 0x16 0x01 0xbb 0x01; HC 0x01 0x01 0xbd 0x00; HC 0x16 0x01 0xbd 0x01;
    HC 0x01 0x01 0xbe 0x00; HC 0x16 0x01 0xbe 0x01; HC 0x01 0x01 0xc4 0x00; HC 0x16 0x01 0xc4 0x01 ];
  [ HC 0x02 0x01 0xb2 0x00; HC 0x09 0x01 0xb2 0x00; HC 0x17 0x01 0xb2 0x00; HC 0x28 0x01 0xb2 0x01;
    HC 0x02 0x01 0xb5 0x00; HC 0x09 0x01 0xb5 0x00; HC 0x17 0x01 0xb5 0x00; HC 0x28 0x01 0xb5 0x01;
    HC 0x02 0x01 0xb9 0x00; HC 0x09 0x01 0xb9 0x00; HC 0x17 0x01 0xb9 0x00; HC 0x28 0x01 0xb9 0x01;
    HC 0x02 0x01 0xba 0x00; HC 0x09 0x01 0xba 0x00; HC 0x17 0x01 0xba 0x00; HC 0x28 0x01 0xba 0x01 ];
  [ HC 0x03 0x01 0xb2 0x00; HC 0x06 0x01 0xb2 0x00; HC 0x0a 0x01 0xb2 0x00; HC 0x0f 0x01 0xb2 0x00;
    HC 0x18 0x01 0xb2 0x00; HC 0x1f 0x01 0xb2 0x00; HC 0x29 0x01 0xb2 0x00; HC 0x38 0x01 0xb2 0x01;
    HC 0x03 0x01 0xb5 0x00; HC 0x06 0x01 0xb5 0x00; HC 0x0a 0x01 0xb5 0x00; HC 0x0f 0x01 0xb5 0x00;
    HC 0x18 0x01 0xb5 0x00; HC 0x1f 0x01 0xb5 0x00; HC 0x29 0x01 0xb5 0x00; HC 0x38 0x01 0xb5 0x01 ];
  [ HC 0x03 0x01 0xb9 0x00; HC 0x06 0x01 0xb9 0x00; HC 0x0a 0x01 0xb9 0x00; HC 0x0f 0x01 0xb9 0x00;
    HC 0x18 0x01 0xb9 0x00; HC 0x1f 0x01 0xb9 0x00; HC 0x29 0x01 0xb9 0x00; HC 0x38 0x01 0xb9 0x01;
    HC 0x03 0x01 0xba 0x00; HC 0x06 0x01 0xba 0x00; HC 0x0a 0x01 0xba 0x00; HC 0x0f 0x01 0xba 0x00;
    HC 0x18 0x01 0xba 0x00; HC 0x1f 0x01 0xba 0x00; HC 0x29 0x01 0xba 0x00; HC 0x38 0x01 0xba 0x01 ];
  [ HC 0x02 0x01 0xbb 0x00; HC 0x09 0x01 0xbb 0x00; HC 0x17 0x01 0xbb 0x00; HC 0x28 0x01 0xbb 0x01;
    HC 0x02 0x01 0xbd 0x00; HC 0x09 0x01 0xbd 0x00; HC 0x17 0x01 0xbd 0x00; HC 0x28 0x01 0xbd 0x01;
    HC 0x02 0x01 0xbe 0x00; HC 0x09 0x01 0xbe 0x00; HC 0x17 0x01 0xbe 0x00; HC 0x28 0x01 0xbe 0x01;
    HC 0x02 0x01 0xc4 0x00; HC 0x09 0x01 0xc4 0x00; HC 0x17 0x01 0xc4 0x00; HC 0x28 0x01 0xc4 0x01 ] ].

(* http/v2/ngx_http_v2_huff_decode.c:1456-1597 ngx_http_v2_huff_decode_codes: states 140 to 153 *)
Definition decode_rows_140 : list (list huff_decode_code) :=
[
  [ HC 0x03 0x01 0xbb 0x00; HC 0x06 0x01 0xbb 0x00; HC 0x0a 0x01 0xbb 0x00; HC 0x0f 0x01 0xbb 0x00;
    HC 0x18 0x01 0xbb 0x00; HC 0x1f 0x01 0xbb 0x00; HC 0x29 0x01 0xbb 0x00; HC 0x38 0x01 0xbb 0x01;
    HC 0x03 0x01 0xbd 0x00; HC 0x06 0x01 0xbd 0x00; HC 0x0a 0x01 0xbd 0x00; HC 0x0f 0x01 0xbd 0x00;
    HC 0x18 0x01 0xbd 0x00; HC 0x1f 0x01 0xbd 0x00; HC 0x29 0x01 0xbd 0x00; HC 0x38 0x01 0xbd 0x01 ];
  [ HC 0x03 0x01 0xbe 0x00; HC 0x06 0x01 0xbe 0x00; HC 0x0a 0x01 0xbe 0x00; HC 0x0f 0x01 0xbe 0x00;
    HC 0x18 0x01 0xbe 0x00; HC 0x1f 0x01 0xbe 0x00; HC 0x29 0x01 0xbe 0x00; HC 0x38 0x01 0xbe 0x01;
    HC 0x03 0x01 0xc4 0x00; HC 0x06 0x01 0xc4 0x00; HC 0x0a 0x01 0xc4 0x00; HC 0x0f 0x01 0xc4 0x00;
    HC 0x18 0x01 0xc4 0x00; HC 0x1f 0x01 0xc4 0x00; HC 0x29 0x01 0xc4 0x00; HC 0x38 0x01 0xc4 0x01 ];
  [ HC 0x01 0x01 0xc6 0x00; HC 0x16 0x01 0xc6 0x01; HC 0x01 0x01 0xe4 0x00; HC 0x16 0x01 0xe4 0x01;
    HC 0x01 0x01 0xe8 0x00; HC 0x16 0x01 0xe8 0x01; HC 0x01 0x01 0xe9 0x00; HC 0x16 0x01 0xe9 0x01;
    HC 0x00 0x01 0x01 0x01; HC 0x00 0x01 0x87 0x01; HC 0x00 0x01 0x89 0x01; HC 0x00 0x01 0x8a 0x01;
    HC 0x00 0x01 0x8b 0x01; HC 0x00 0x01 0x8c 0x01; HC 0x00 0x01 0x8d 0x01; HC 0x00 0x01 0x8f 0x01 ];
  [ HC 0x02 0x01 0xc6 0x00; HC 0x09 0x01 0xc6 0x00; HC 0x17 0x01 0xc6 0x00; HC 0x28 0x01 0xc6 0x01;
    HC 0x02 0x01 0xe4 0x00; HC 0x09 0x01 0xe4 0x00; HC 0x17 0x01 0xe4 0x00; HC 0x28 0x01 0xe4 0x01;
    HC 0x02 0x01 0xe8 0x00; HC 0x09 0x01 0xe8 0x00; HC 0x17 0x01 0xe8 0x00; HC 0x28 0x01 0xe8 0x01;
    HC 0x02 0x01 0xe9 0x00; HC 0x09 0x01 0xe9 0x00; HC 0x17 0x01 0xe9 0x00; HC 0x28 0x01 0xe9 0x01 ];
  [ HC 0x03 0x01 0xc6 0x00; HC 0x06 0x01 0xc6 0x00; HC 0x0a 0x01 0xc6 0x00; HC 0x0f 0x01 0xc6 0x00;
    HC 0x18 0x01 0xc6 0x00; HC 0x1f 0x01 0xc6 0x00; HC 0x29 0x01 0xc6 0x00; HC 0x38 0x01 0xc6 0x01;
    HC 0x03 0x01 0xe4 0x00; HC 0x06 0x01 0xe4 0x00; HC 0x0a 0x01 0xe4 0x00; HC 0x0f 0x01 0xe4 0x00;
    HC 0x18 0x01 0xe4 0x00; HC 0x1f 0x01 0xe4 0x00; HC 0x29 0x01 0xe4 0x00; HC 0x38 0x01 0xe4 0x01 ];
  [ HC 0x03 0x01 0xe8 0x00; HC 0x06 0x01 0xe8 0x00; HC 0x0a 0x01 0xe8 0x00; HC 0x0f 0x01 0xe8 0x00;
    HC 0x18 0x01 0xe8 0x00; HC 0x1f 0x01 0xe8 0x00; HC 0x29 0x01 0xe8 0x00; HC 0x38 0x01 0xe8 0x01;
    HC 0x03 0x01 0xe9 0x00; HC 0x06 0x01 0xe9 0x00; HC 0x0a 0x01 0xe9 0x00; HC 0x0f 0x01 0xe9 0x00;
    HC 0x18 0x01 0xe9 0x00; HC 0x1f 0x01 0xe9 0x00; HC 0x29 0x01 0xe9 0x00; HC 0x38 0x01 0xe9 0x01 ];
  [ HC 0x01 0x01 0x01 0x00; HC 0x16 0x01 0x01 0x01; HC 0x01 0x01 0x87 0x00; HC 0x16 0x01 0x87 0x01;
    HC 0x01 0x01 0x89 0x00; HC 0x16 0x01 0x89 0x01; HC 0x01 0x01 0x8a 0x00; HC 0x16 0x01 0x8a 0x01;
    HC 0x01 0x01 0x8b 0x00; HC 0x16 0x01 0x8b 0x01; HC 0x01 0x01 0x8c 0x00; HC 0x16 0x01 0x8c 0x01;
    HC 0x01 0x01 0x8d 0x00; HC 0x16 0x01 0x8d 0x01; HC 0x01 0x01 0x8f 0x00; HC 0x16 0x01 0x8f 0x01 ];
  [ HC 0x02 0x01 0x01 0x00; HC 0x09 0x01 0x01 0x00; HC 0x17 0x01 0x01 0x00; HC 0x28 0x01 0x01 0x01;
    HC 0x02 0x01 0x87 0x00; HC 0x09 0x01 0x87 0x00; HC 0x17 0x01 0x87 0x00; HC 0x28 0x01 0x87 0x01;
    HC 0x02 0x01 0x89 0x00; HC 0x09 0x01 0x89 0x00; HC 0x17 0x01 0x89 0x00; HC 0x28 0x01 0x89 0x01;
    HC 0x02 0x01 0x8a 0x00; HC 0x09 0x01 0x8a 0x00; HC 0x17 0x01 0x8a 0x00; HC 0x28 0x01 0x8a 0x01 ];
  [ HC 0x03 0x01 0x01 0x00; HC 0x06 0x01 0x01 0x00; HC 0x0a 0x01 0x01 0x00; HC 0x0f 0x01 0x01 0x00;
    HC 0x18 0x01 0x01 0x00; HC 0x1f 0x01 0x01 0x00; HC 0x29 0x01 0x01 0x00; HC 0x38 0x01 0x01 0x01;
    HC 0x03 0x01 0x87 0x00; HC 0x06 0x01 0x87 0x00; HC 0x0a 0x01 0x87 0x00; HC 0x0f 0x01 0x87 0x00;
    HC 0x18 0x01 0x87 0x00; HC 0x1f 0x01 0x87 0x00; HC 0x29 0x01 0x87 0x00; HC 0x38 0x01 0x87 0x01 ];
  [ HC 0x03 0x01 0x89 0x00; HC 0x06 0x01 0x89 0x00; HC 0x0a 0x01 0x89 0x00; HC 0x0f 0x01 0x89 0x00;
    HC 0x18 0x01 0x89 0x00; HC 0x1f 0x01 0x89 0x00; HC 0x29 0x01 0x89 0x00; HC 0x38 0x01 0x89 0x01;
    HC 0x03 0x01 0x8a 0x00; HC 0x06 0x01 0x8a 0x00; HC 0x0a 0x01 0x8a 0x00; HC 0x0f 0x01 0x8a 0x00;
    HC 0x18 0x01 0x8a 0x00; HC 0x1f 0x01 0x8a 0x00; HC 0x29 0x01 0x8a 0x00; HC 0x38 0x01 0x8a 0x01 ];
  [ HC 0x02 0x01 0x8b 0x00; HC 0x09 0x01 0x8b 0x00; HC 0x17 0x01 0x8b 0x00; HC 0x28 0x01 0x8b 0x01;
    HC 0x02 0x01 0x8c 0x00; HC 0x09 0x01 0x8c 0x00; HC 0x17 0x01 0x8c 0x00; HC 0x28 0x01 0x8c 0x01;
    HC 0x02 0x01 0x8d 0x00; HC 0x09 0x01 0x8d 0x00; HC 0x17 0x01 0x8d 0x00; HC 0x28 0x01 0x8d 0x01;
    HC 0x02 0x01 0x8f 0x00; HC 0x09 0x01 0x8f 0x00; HC 0x17 0x01 0x8f 0x00; HC 0x28 0x01 0x8f 0x01 ];
  [ HC 0x03 0x01 0x8b 0x00; HC 0x06 0x01 0x8b 0x00; HC 0x0a 0x01 0x8b 0x00; HC 0x0f 0x01 0x8b 0x00;
    HC 0x18 0x01 0x8b 0x00; HC 0x1f 0x01 0x8b 0x00; HC 0x29 0x01 0x8b 0x00; HC 0x38 0x01 0x8b 0x01;
    HC 0x03 0x01 0x8c 0x00; HC 0x06 0x01 0x8c 0x00; HC 0x0a 0x01 0x8c 0x00; HC 0x0f 0x01 0x8c 0x00;
    HC 0x18 0x01 0x8c 0x00; HC 0x1f 0x01 0x8c 0x00; HC 0x29 0x01 0x8c 0x00; HC 0x38 0x01 0x8c 0x01 ];
  [ HC 0x03 0x01 0x8d 0x00; HC 0x06 0x01 0x8d 0x00; HC 0x0a 0x01 0x8d 0x00; HC 0x0f 0x01 0x8d 0x00;
    HC 0x18 0x01 0x8d 0x00; HC 0x1f 0x01 0x8d 0x00; HC 0x29 0x01 0x8d 0x00; HC 0x38 0x01 0x8d 0x01;
    HC 0x03 0x01 0x8f 0x00; HC 0x06 0x01 0x8f 0x00; HC 0x0a 0x01 0x8f 0x00; HC 0x0f 0x01 0x8f 0x00;
    HC 0x18 0x01 0x8f 0x00; HC 0x1f 0x01 0x8f 0x00; HC 0x29 0x01 0x8f 0x00; HC 0x38 0x01 0x8f 0x01 ];
  [ HC 0x9d 0x00 0x00 0x00; HC 0x9e 0x00 0x00 0x00; HC 0xa0 0x00 0x00 0x00; HC 0xa1 0x00 0x00 0x00;
    HC 0xa4 0x00 0x00 0x00; HC 0xa5 0x00 0x00 0x00; HC 0xa7 0x00 0x00 0x00; HC 0xa8 0x00 0x00 0x00;
    HC 0xac 0x00 0x00 0x00; HC 0xad 0x00 0x00 0x00; HC 0xaf 0x00 0x00 0x00; HC 0xb1 0x00 0x00 0x00;
    HC 0xb6 0x00 0x00 0x00; HC 0xb9 0x00 0x00 0x00; HC 0xbf 0x00 0x00 0x00; HC 0xcf 0x00 0x00 0x01 ] ].

(* http/v2/ngx_http_v2_huff_decode.c:1598-1740 ngx_http_v2_huff_decode_codes: states 154 to 167 *)
Definition decode_rows_154 : list (list huff_decode_code) :=
[
  [ HC 0x00 0x01 0x93 0x01; HC 0x00 0x01 0x95 0x01; HC 0x00 0x01 0x96 0x01; HC 0x00 0x01 0x97 0x01;
    HC 0x00 0x01 0x98 0x01; HC 0x00 0x01 0x9b 0x01; HC 0x00 0x01 0x9d 0x01; HC 0x00 0x01 0x9e 0x01;
    HC 0x00 0x01 0xa5 0x01; HC 0x00 0x01 0xa6 0x01; HC 0x00 0x01 0xa8 0x01; HC 0x00 0x01 0xae 0x01;
    HC 0x00 0x01 0xaf 0x01; HC 0x00 0x01 0xb4 0x01; HC 0x00 0x01 0xb6 0x01; HC 0x00 0x01 0xb7 0x01 ];
  [ HC 0x01 0x01 0x93 0x00; HC 0x16 0x01 0x93 0x01; HC 0x01 0x01 0x95 0x00; HC 0x16 0x01 0x95 0x01;
    HC 0x01 0x01 0x96 0x00; HC 0x16 0x01 0x96 0x01; HC 0x01 0x01 0x97 0x00; HC 0x16 0x01 0x97 0x01;
    HC 0x01 0x01 0x98 0x00; HC 0x16 0x01 0x98 0x01; HC 0x01 0x01 0x9b 0x00; HC 0x16 0x01 0x9b 0x01;
    HC 0x01 0x01 0x9d 0x00; HC 0x16 0x01 0x9d 0x01; HC 0x01 0x01 0x9e 0x00; HC 0x16 0x01 0x9e 0x01 ];
  [ HC 0x02 0x01 0x93 0x00; HC 0x09 0x01 0x93 0x00; HC 0x17 0x01 0x93 0x00; HC 0x28 0x01 0x93 0x01;
    HC 0x02 0x01 0x95 0x00; HC 0x09 0x01 0x95 0x00; HC 0x17 0x01 0x95 0x00; HC 0x28 0x01 0x95 0x01;
    HC 0x02 0x01 0x96 0x00; HC 0x09 0x01 0x96 0x00; HC 0x17 0x01 0x96 0x00; HC 0x28 0x01 0x96 0x01;
    HC 0x02 0x01 0x97 0x00; HC 0x09 0x01 0x97 0x00; HC 0x17 0x01 0x97 0x00; HC 0x28 0x01 0x97 0x01 ];
  [ HC 0x03 0x01 0x93 0x00; HC 0x06 0x01 0x93 0x00; HC 0x0a 0x01 0x93 0x00; HC 0x0f 0x01 0x93 0x00;
    HC 0x18 0x01 0x93 0x00; HC 0x1f 0x01 0x93 0x00; HC 0x29 0x01 0x93 0x00; HC 0x38 0x01 0x93 0x01;
    HC 0x03 0x01 0x95 0x00; HC 0x06 0x01 0x95 0x00; HC 0x0a 0x01 0x95 0x00; HC 0x0f 0x01 0x95 0x00;
    HC 0x18 0x01 0x95 0x00; HC 0x1f 0x01 0x95 0x00; HC 0x29 0x01 0x95 0x00; HC 0x38 0x01 0x95 0x01 ];
  [ HC 0x03 0x01 0x96 0x00; HC 0x06 0x01 0x96 0x00; HC 0x0a 0x01 0x96 0x00; HC 0x0f 0x01 0x96 0x00;
    HC 0x18 0x01 0x96 0x00; HC 0x1f 0x01 0x96 0x00; HC 0x29 0x01 0x96 0x00; HC 0x38 0x01 0x96 0x01;
    HC 0x03 0x01 0x97 0x00; HC 0x06 0x01 0x97 0x00; HC 0x0a 0x01 0x97 0x00; HC 0x0f 0x01 0x97 0x00;
    HC 0x18 0x01 0x97 0x00; HC 0x1f 0x01 0x97 0x00; HC 0x29 0x01 0x97 0x00; HC 0x38 0x01 0x97 0x01 ];
  [ HC 0x02 0x01 0x98 0x00; HC 0x09 0x01 0x98 0x00; HC 0x17 0x01 0x98 0x00; HC 0x28 0x01 0x98 0x01;
    HC 0x02 0x01 0x9b 0x00; HC 0x09 0x01 0x9b 0x00; HC 0x17 0x01 0x9b 0x00; HC 0x28 0x01 0x9b 0x01;
    HC 0x02 0x01 0x9d 0x00; HC 0x09 0x01 0x9d 0x00; HC 0x17 0x01 0x9d 0x00; HC 0x28 0x01 0x9d 0x01;
    HC 0x02 0x01 0x9e 0x00; HC 0x09 0x01 0x9e 0x00; HC 0x17 0x01 0x9e 0x00; HC 0x28 0x01 0x9e 0x01 ];
  [ HC 0x03 0x01 0x98 0x00; HC 0x06 0x01 0x98 0x00; HC 0x0a 0x01 0x98 0x00; HC 0x0f 0x01 0x98 0x00;
    HC 0x18 0x01 0x98 0x00; HC 0x1f 0x01 0x98 0x00; HC 0x29 0x01 0x98 0x00; HC 0x38 0x01 0x98 0x01;
    HC 0x03 0x01 0x9b 0x00; HC 0x06 0x01 0x9b 0x00; HC 0x0a 0x01 0x9b 0x00; HC 0x0f 0x01 0x9b 0x00;
    HC 0x18 0x01 0x9b 0x00; HC 0x1f 0x01 0x9b 0x00; HC 0x29 0x01 0x9b 0x00; HC 0x38 0x01 0x9b 0x01 ];
  [ HC 0x03 0x01 0x9d 0x00; HC 0x06 0x01 0x9d 0x00; HC 0x0a 0x01 0x9d 0x00; HC 0x0f 0x01 0x9d 0x00;
    HC 0x18 0x01 0x9d 0x00; HC 0x1f 0x01 0x9d 0x00; HC 0x29 0x01 0x9d 0x00; HC 0x38 0x01 0x9d 0x01;
    HC 0x03 0x01 0x9e 0x00; HC 0x06 0x01 0x9e 0x00; HC 0x0a 0x01 0x9e 0x00; HC 0x0f 0x01 0x9e 0x00;
    HC 0x18 0x01 0x9e 0x00; HC 0x1f 0x01 0x9e 0x00; HC 0x29 0x01 0x9e 0x00; HC 0x38 0x01 0x9e 0x01 ];
  [ HC 0x01 0x01 0xa5 0x00; HC 0x16 0x01 0xa5 0x01; HC 0x01 0x01 0xa6 0x00; HC 0x16 0x01 0xa6 0x01;
    HC 0x01 0x01 0xa8 0x00; HC 0x16 0x01 0xa8 0x01; HC 0x01 0x01 0xae 0x00; HC 0x16 0x01 0xae 0x01;
    HC 0x01 0x01 0xaf 0x00; HC 0x16 0x01 0xaf 0x01; HC 0x01 0x01 0xb4 0x00; HC 0x16 0x01 0xb4 0x01;
    HC 0x01 0x01 0xb6 0x00; HC 0x16 0x01 0xb6 0x01; HC 0x01 0x01 0xb7 0x00; HC 0x16 0x01 0xb7 0x01 ];
  [ HC 0x02 0x01 0xa5 0x00; HC 0x09 0x01 0xa5 0x00; HC 0x17 0x01 0xa5 0x00; HC 0x28 0x01 0xa5 0x01;
    HC 0x02 0x01 0xa6 0x00; HC 0x09 0x01 0xa6 0x00; HC 0x17 0x01 0xa6 0x00; HC 0x28 0x01 0xa6 0x01;
    HC 0x02 0x01 0xa8 0x00; HC 0x09 0x01 0xa8 0x00; HC 0x17 0x01 0xa8 0x00; HC 0x28 0x01 0xa8 0x01;
    HC 0x02 0x01 0xae 0x00; HC 0x09 0x01 0xae 0x00; HC 0x17 0x01 0xae 0x00; HC 0x28 0x01 0xae 0x01 ];
  [ HC 0x03 0x01 0xa5 0x00; HC 0x06 0x01 0xa5 0x00; HC 0x0a 0x01 0xa5 0x00; HC 0x0f 0x01 0xa5 0x00;
    HC 0x18 0x01 0xa5 0x00; HC 0x1f 0x01 0xa5 0x00; HC 0x29 0x01 0xa5 0x00; HC 0x38 0x01 0xa5 0x01;
    HC 0x03 0x01 0xa6 0x00; HC 0x06 0x01 0xa6 0x00; HC 0x0a 0x01 0xa6 0x00; HC 0x0f 0x01 0xa6 0x00;
    HC 0x18 0x01 0xa6 0x00; HC 0x1f 0x01 0xa6 0x00; HC 0x29 0x01 0xa6 0x00; HC 0x38 0x01 0xa6 0x01 ];
  [ HC 0x03 0x01 0xa8 0x00; HC 0x06 0x01 0xa8 0x00; HC 0x0a 0x01 0xa8 0x00; HC 0x0f 0x01 0xa8 0x00;
    HC 0x18 0x01 0xa8 0x00; HC 0x1f 0x01 0xa8 0x00; HC 0x29 0x01 0xa8 0x00; HC 0x38 0x01 0xa8 0x01;
    HC 0x03 0x01 0xae 0x00; HC 0x06 0x01 0xae 0x00; HC 0x0a 0x01 0xae 0x00; HC 0x0f 0x01 0xae 0x00;
    HC 0x18 0x01 0xae 0x00; HC 0x1f 0x01 0xae 0x00; HC 0x29 0x01 0xae 0x00; HC 0x38 0x01 0xae 0x01 ];
  [ HC 0x02 0x01 0xaf 0x00; HC 0x09 0x01 0xaf 0x00; HC 0x17 0x01 0xaf 0x00; HC 0x28 0x01 0xaf 0x01;
    HC 0x02 0x01 0xb4 0x00; HC 0x09 0x01 0xb4 0x00; HC 0x17 0x01 0xb4 0x00; HC 0x28 0x01 0xb4 0x01;
    HC 0x02 0x01 0xb6 0x00; HC 0x09 0x01 0xb6 0x00; HC 0x17 0x01 0xb6 0x00; HC 0x28 0x01 0xb6 0x01;
    HC 0x02 0x01 0xb7 0x00; HC 0x09 0x01 0xb7 0x00; HC 0x17 0x01 0xb7 0x00; HC 0x28 0x01 0xb7 0x01 ];
  [ HC 0x03 0x01 0xaf 0x00; HC 0x06 0x01 0xaf 0x00; HC 0x0a 0x01 0xaf 0x00; HC 0x0f 0x01 0xaf 0x00;
    HC 0x18 0x01 0xaf 0x00; HC 0x1f 0x01 0xaf 0x00; HC 0x29 0x01 0xaf 0x00; HC 0x38 0x01 0xaf 0x01;
    HC 0x03 0x01 0xb4 0x00; HC 0x06 0x01 0xb4 0x00; HC 0x0a 0x01 0xb4 0x00; HC 0x0f 0x01 0xb4 0x00;
    HC 0x18 0x01 0xb4 0x00; HC 0x1f 0x01 0xb4 0x00; HC 0x29 0x01 0xb4 0x00; HC 0x38 0x01 0xb4 0x01 ] ].

(* http/v2/ngx_http_v2_huff_decode.c:1741-1883 ngx_http_v2_huff_decode_codes: states 168 to 181 *)
Definition decode_rows_168 : list (list huff_decode_code) :=
[
  [ HC 0x03 0x01 0xb6 0x00; HC 0x06 0x01 0xb6 0x00; HC 0x0a 0x01 0xb6 0x00; HC 0x0f 0x01 0xb6 0x00;
    HC 0x18 0x01 0xb6 0x00; HC 0x1f 0x01 0xb6 0x00; HC 0x29 0x01 0xb6 0x00; HC 0x38 0x01 0xb6 0x01;
    HC 0x03 0x01 0xb7 0x00; HC 0x06 0x01 0xb7 0x00; HC 0x0a 0x01 0xb7 0x00; HC 0x0f 0x01 0xb7 0x00;
    HC 0x18 0x01 0xb7 0x00; HC 0x1f 0x01 0xb7 0x00; HC 0x29 0x01 0xb7 0x00; HC 0x38 0x01 0xb7 0x01 ];
  [ HC 0x00 0x01 0xbc 0x01; HC 0x00 0x01 0xbf 0x01; HC 0x00 0x01 0xc5 0x01; HC 0x00 0x01 0xe7 0x01;
    HC 0x00 0x01 0xef 0x01; HC 0xb0 0x00 0x00 0x00; HC 0xb2 0x00 0x00 0x00; HC 0xb3 0x00 0x00 0x00;
    HC 0xb7 0x00 0x00 0x00; HC 0xb8 0x00 0x00 0x00; HC 0xba 0x00 0x00 0x00; HC 0xbb 0x00 0x00 0x00;
    HC 0xc0 0x00 0x00 0x00; HC 0xc7 0x00 0x00 0x00; HC 0xd0 0x00 0x00 0x00; HC 0xdf 0x00 0x00 0x01 ];
  [ HC 0x01 0x01 0xbc 0x00; HC 0x16 0x01 0xbc 0x01; HC 0x01 0x01 0xbf 0x00; HC 0x16 0x01 0xbf 0x01;
    HC 0x01 0x01 0xc5 0x00; HC 0x16 0x01 0xc5 0x01; HC 0x01 0x01 0xe7 0x00; HC 0x16 0x01 0xe7 0x01;
    HC 0x01 0x01 0xef 0x00; HC 0x16 0x01 0xef 0x01; HC 0x00 0x01 0x09 0x01; HC 0x00 0x01 0x8e 0x01;
    HC 0x00 0x01 0x90 0x01; HC 0x00 0x01 0x91 0x01; HC 0x00 0x01 0x94 0x01; HC 0x00 0x01 0x9f 0x01 ];
  [ HC 0x02 0x01 0xbc 0x00; HC 0x09 0x01 0xbc 0x00; HC 0x17 0x01 0xbc 0x00; HC 0x28 0x01 0xbc 0x01;
    HC 0x02 0x01 0xbf 0x00; HC 0x09 0x01 0xbf 0x00; HC 0x17 0x01 0xbf 0x00; HC 0x28 0x01 0xbf 0x01;
    HC 0x02 0x01 0xc5 0x00; HC 0x09 0x01 0xc5 0x00; HC 0x17 0x01 0xc5 0x00; HC 0x28 0x01 0xc5 0x01;
    HC 0x02 0x01 0xe7 0x00; HC 0x09 0x01 0xe7 0x00; HC 0x17 0x01 0xe7 0x00; HC 0x28 0x01 0xe7 0x01 ];
  [ HC 0x03 0x01 0xbc 0x00; HC 0x06 0x01 0xbc 0x00; HC 0x0a 0x01 0xbc 0x00; HC 0x0f 0x01 0xbc 0x00;
    HC 0x18 0x01 0xbc 0x00; HC 0x1f 0x01 0xbc 0x00; HC 0x29 0x01 0xbc 0x00; HC 0x38 0x01 0xbc 0x01;
    HC 0x03 0x01 0xbf 0x00; HC 0x06 0x01 0xbf 0x00; HC 0x0a 0x01 0xbf 0x00; HC 0x0f 0x01 0xbf 0x00;
    HC 0x18 0x01 0xbf 0x00; HC 0x1f 0x01 0xbf 0x00; HC 0x29 0x01 0xbf 0x00; HC 0x38 0x01 0xbf 0x01 ];
  [ HC 0x03 0x01 0xc5 0x00; HC 0x06 0x01 0xc5 0x00; HC 0x0a 0x01 0xc5 0x00; HC 0x0f 0x01 0xc5 0x00;
    HC 0x18 0x01 0xc5 0x00; HC 0x1f 0x01 0xc5 0x00; HC 0x29 0x01 0xc5 0x00; HC 0x38 0x01 0xc5 0x01;
    HC 0x03 0x01 0xe7 0x00; HC 0x06 0x01 0xe7 0x00; HC 0x0a 0x01 0xe7 0x00; HC 0x0f 0x01 0xe7 0x00;
    HC 0x18 0x01 0xe7 0x00; HC 0x1f 0x01 0xe7 0x00; HC 0x29 0x01 0xe7 0x00; HC 0x38 0x01 0xe7 0x01 ];
  [ HC 0x02 0x01 0xef 0x00; HC 0x09 0x01 0xef 0x00; HC 0x17 0x01 0xef 0x00; HC 0x28 0x01 0xef 0x01;
    HC 0x01 0x01 0x09 0x00; HC 0x16 0x01 0x09 0x01; HC 0x01 0x01 0x8e 0x00; HC 0x16 0x01 0x8e 0x01;
    HC 0x01 0x01 0x90 0x00; HC 0x16 0x01 0x90 0x01; HC 0x01 0x01 0x91 0x00; HC 0x16 0x01 0x91 0x01;
    HC 0x01 0x01 0x94 0x00; HC 0x16 0x01 0x94 0x01; HC 0x01 0x01 0x9f 0x00; HC 0x16 0x01 0x9f 0x01 ];
  [ HC 0x03 0x01 0xef 0x00; HC 0x06 0x01 0xef 0x00; HC 0x0a 0x01 0xef 0x00; HC 0x0f 0x01 0xef 0x00;
    HC 0x18 0x01 0xef 0x00; HC 0x1f 0x01 0xef 0x00; HC 0x29 0x01 0xef 0x00; HC 0x38 0x01 0xef 0x01;
    HC 0x02 0x01 0x09 0x00; HC 0x09 0x01 0x09 0x00; HC 0x17 0x01 0x09 0x00; HC 0x28 0x01 0x09 0x01;
    HC 0x02 0x01 0x8e 0x00; HC 0x09 0x01 0x8e 0x00; HC 0x17 0x01 0x8e 0x00; HC 0x28 0x01 0x8e 0x01 ];
  [ HC 0x03 0x01 0x09 0x00; HC 0x06 0x01 0x09 0x00; HC 0x0a 0x01 0x09 0x00; HC 0x0f 0x01 0x09 0x00;
    HC 0x18 0x01 0x09 0x00; HC 0x1f 0x01 0x09 0x00; HC 0x29 0x01 0x09 0x00; HC 0x38 0x01 0x09 0x01;
    HC 0x03 0x01 0x8e 0x00; HC 0x06 0x01 0x8e 0x00; HC 0x0a 0x01 0x8e 0x00; HC 0x0f 0x01 0x8e 0x00;
    HC 0x18 0x01 0x8e 0x00; HC 0x1f 0x01 0x8e 0x00; HC 0x29 0x01 0x8e 0x00; HC 0x38 0x01 0x8e 0x01 ];
  [ HC 0x02 0x01 0x90 0x00; HC 0x09 0x01 0x90 0x00; HC 0x17 0x01 0x90 0x00; HC 0x28 0x01 0x90 0x01;
    HC 0x02 0x01 0x91 0x00; HC 0x09 0x01 0x91 0x00; HC 0x17 0x01 0x91 0x00; HC 0x28 0x01 0x91 0x01;
    HC 0x02 0x01 0x94 0x00; HC 0x09 0x01 0x94 0x00; HC 0x17 0x01 0x94 0x00; HC 0x28 0x01 0x94 0x01;
    HC 0x02 0x01 0x9f 0x00; HC 0x09 0x01 0x9f 0x00; HC 0x17 0x01 0x9f 0x00; HC 0x28 0x01 0x9f 0x01 ];
  [ HC 0x03 0x01 0x90 0x00; HC 0x06 0x01 0x90 0x00; HC 0x0a 0x01 0x90 0x00; HC 0x0f 0x01 0x90 0x00;
    HC 0x18 0x01 0x90 0x00; HC 0x1f 0x01 0x90 0x00; HC 0x29 0x01 0x90 0x00; HC 0x38 0x01 0x90 0x01;
    HC 0x03 0x01 0x91 0x00; HC 0x06 0x01 0x91 0x00; HC 0x0a 0x01 0x91 0x00; HC 0x0f 0x01 0x91 0x00;
    HC 0x18 0x01 0x91 0x00; HC 0x1f 0x01 0x91 0x00; HC 0x29 0x01 0x91 0x00; HC 0x38 0x01 0x91 0x01 ];
  [ HC 0x03 0x01 0x94 0x00; HC 0x06 0x01 0x94 0x00; HC 0x0a 0x01 0x94 0x00; HC 0x0f 0x01 0x94 0x00;
    HC 0x18 0x01 0x94 0x00; HC 0x1f 0x01 0x94 0x00; HC 0x29 0x01 0x94 0x00; HC 0x38 0x01 0x94 0x01;
    HC 0x03 0x01 0x9f 0x00; HC 0x06 0x01 0x9f 0x00; HC 0x0a 0x01 0x9f 0x00; HC 0x0f 0x01 0x9f 0x00;
    HC 0x18 0x01 0x9f 0x00; HC 0x1f 0x01 0x9f 0x00; HC 0x29 0x01 0x9f 0x00; HC 0x38 0x01 0x9f 0x01 ];
  [ HC 0x00 0x01 0xab 0x01; HC 0x00 0x01 0xce 0x01; HC 0x00 0x01 0xd7 0x01; HC 0x00 0x01 0xe1 0x01;
    HC 0x00 0x01 0xec 0x01; HC 0x00 0x01 0xed 0x01; HC 0xbc 0x00 0x00 0x00; HC 0xbd 0x00 0x00 0x00;
    HC 0xc1 0x00 0x00 0x00; HC 0xc4 0x00 0x00 0x00; HC 0xc8 0x00 0x00 0x00; HC 0xcb 0x00 0x00 0x00;
    HC 0xd1 0x00 0x00 0x00; HC 0xd8 0x00 0x00 0x00; HC 0xe0 0x00 0x00 0x00; HC 0xee 0x00 0x00 0x01 ];
  [ HC 0x01 0x01 0xab 0x00; HC 0x16 0x01 0xab 0x01; HC 0x01 0x01 0xce 0x00; HC 0x16 0x01 0xce 0x01;
    HC 0x01 0x01 0xd7 0x00; HC 0x16 0x01 0xd7 0x01; HC 0x01 0x01 0xe1 0x00; HC 0x16 0x01 0xe1 0x01;
    HC 0x01 0x01 0xec 0x00; HC 0x16 0x01 0xec 0x01; HC 0x01 0x01 0xed 0x00; HC 0x16 0x01 0xed 0x01;
    HC 0x00 0x01 0xc7 0x01; HC 0x00 0x01 0xcf 0x01; HC 0x00 0x01 0xea 0x01; HC 0x00 0x01 0xeb 0x01 ] ].

(* http/v2/ngx_http_v2_huff_decode.c:1884-2026 ngx_http_v2_huff_decode_codes: states 182 to 195 *)
Definition decode_rows_182 : list (list huff_decode_code) :=
[
  [ HC 0x02 0x01 0xab 0x00; HC 0x09 0x01 0xab 0x00; HC 0x17 0x01 0xab 0x00; HC 0x28 0x01 0xab 0x01;
    HC 0x02 0x01 0xce 0x00; HC 0x09 0x01 0xce 0x00; HC 0x17 0x01 0xce 0x00; HC 0x28 0x01 0xce 0x01;
    HC 0x02 0x01 0xd7 0x00; HC 0x09 0x01 0xd7 0x00; HC 0x17 0x01 0xd7 0x00; HC 0x28 0x01 0xd7 0x01;
    HC 0x02 0x01 0xe1 0x00; HC 0x09 0x01 0xe1 0x00; HC 0x17 0x01 0xe1 0x00; HC 0x28 0x01 0xe1 0x01 ];
  [ HC 0x03 0x01 0xab 0x00; HC 0x06 0x01 0xab 0x00; HC 0x0a 0x01 0xab 0x00; HC 0x0f 0x01 0xab 0x00;
    HC 0x18 0x01 0xab 0x00; HC 0x1f 0x01 0xab 0x00; HC 0x29 0x01 0xab 0x00; HC 0x38 0x01 0xab 0x01;
    HC 0x03 0x01 0xce 0x00; HC 0x06 0x01 0xce 0x00; HC 0x0a 0x01 0xce 0x00; HC 0x0f 0x01 0xce 0x00;
    HC 0x18 0x01 0xce 0x00; HC 0x1f 0x01 0xce 0x00; HC 0x29 0x01 0xce 0x00; HC 0x38 0x01 0xce 0x01 ];
  [ HC 0x03 0x01 0xd7 0x00; HC 0x06 0x01 0xd7 0x00; HC 0x0a 0x01 0xd7 0x00; HC 0x0f 0x01 0xd7 0x00;
    HC 0x18 0x01 0xd7 0x00; HC 0x1f 0x01 0xd7 0x00; HC 0x29 0x01 0xd7 0x00; HC 0x38 0x01 0xd7 0x01;
    HC 0x03 0x01 0xe1 0x00; HC 0x06 0x01 0xe1 0x00; HC 0x0a 0x01 0xe1 0x00; HC 0x0f 0x01 0xe1 0x00;
    HC 0x18 0x01 0xe1 0x00; HC 0x1f 0x01 0xe1 0x00; HC 0x29 0x01 0xe1 0x00; HC 0x38 0x01 0xe1 0x01 ];
  [ HC 0x02 0x01 0xec 0x00; HC 0x09 0x01 0xec 0x00; HC 0x17 0x01 0xec 0x00; HC 0x28 0x01 0xec 0x01;
    HC 0x02 0x01 0xed 0x00; HC 0x09 0x01 0xed 0x00; HC 0x17 0x01 0xed 0x00; HC 0x28 0x01 0xed 0x01;
    HC 0x01 0x01 0xc7 0x00; HC 0x16 0x01 0xc7 0x01; HC 0x01 0x01 0xcf 0x00; HC 0x16 0x01 0xcf 0x01;
    HC 0x01 0x01 0xea 0x00; HC 0x16 0x01 0xea 0x01; HC 0x01 0x01 0xeb 0x00; HC 0x16 0x01 0xeb 0x01 ];
  [ HC 0x03 0x01 0xec 0x00; HC 0x06 0x01 0xec 0x00; HC 0x0a 0x01 0xec 0x00; HC 0x0f 0x01 0xec 0x00;
    HC 0x18 0x01 0xec 0x00; HC 0x1f 0x01 0xec 0x00; HC 0x29 0x01 0xec 0x00; HC 0x38 0x01 0xec 0x01;
    HC 0x03 0x01 0xed 0x00; HC 0x06 0x01 0xed 0x00; HC 0x0a 0x01 0xed 0x00; HC 0x0f 0x01 0xed 0x00;
    HC 0x18 0x01 0xed 0x00; HC 0x1f 0x01 0xed 0x00; HC 0x29 0x01 0xed 0x00; HC 0x38 0x01 0xed 0x01 ];
  [ HC 0x02 0x01 0xc7 0x00; HC 0x09 0x01 0xc7 0x00; HC 0x17 0x01 0xc7 0x00; HC 0x28 0x01 0xc7 0x01;
    HC 0x02 0x01 0xcf 0x00; HC 0x09 0x01 0xcf 0x00; HC 0x17 0x01 0xcf 0x00; HC 0x28 0x01 0xcf 0x01;
    HC 0x02 0x01 0xea 0x00; HC 0x09 0x01 0xea 0x00; HC 0x17 0x01 0xea 0x00; HC 0x28 0x01 0xea 0x01;
    HC 0x02 0x01 0xeb 0x00; HC 0x09 0x01 0xeb 0x00; HC 0x17 0x01 0xeb 0x00; HC 0x28 0x01 0xeb 0x01 ];
  [ HC 0x03 0x01 0xc7 0x00; HC 0x06 0x01 0xc7 0x00; HC 0x0a 0x01 0xc7 0x00; HC 0x0f 0x01 0xc7 0x00;
    HC 0x18 0x01 0xc7 0x00; HC 0x1f 0x01 0xc7 0x00; HC 0x29 0x01 0xc7 0x00; HC 0x38 0x01 0xc7 0x01;
    HC 0x03 0x01 0xcf 0x00; HC 0x06 0x01 0xcf 0x00; HC 0x0a 0x01 0xcf 0x00; HC 0x0f 0x01 0xcf 0x00;
    HC 0x18 0x01 0xcf 0x00; HC 0x1f 0x01 0xcf 0x00; HC 0x29 0x01 0xcf 0x00; HC 0x38 0x01 0xcf 0x01 ];
  [ HC 0x03 0x01 0xea 0x00; HC 0x06 0x01 0xea 0x00; HC 0x0a 0x01 0xea 0x00; HC 0x0f 0x01 0xea 0x00;
    HC 0x18 0x01 0xea 0x00; HC 0x1f 0x01 0xea 0x00; HC 0x29 0x01 0xea 0x00; HC 0x38 0x01 0xea 0x01;
    HC 0x03 0x01 0xeb 0x00; HC 0x06 0x01 0xeb 0x00; HC 0x0a 0x01 0xeb 0x00; HC 0x0f 0x01 0xeb 0x00;
    HC 0x18 0x01 0xeb 0x00; HC 0x1f 0x01 0xeb 0x00; HC 0x29 0x01 0xeb 0x00; HC 0x38 0x01 0xeb 0x01 ];
  [ HC 0xc2 0x00 0x00 0x00; HC 0xc3 0x00 0x00 0x00; HC 0xc5 0x00 0x00 0x00; HC 0xc6 0x00 0x00 0x00;
    HC 0xc9 0x00 0x00 0x00; HC 0xca 0x00 0x00 0x00; HC 0xcc 0x00 0x00 0x00; HC 0xcd 0x00 0x00 0x00;
    HC 0xd2 0x00 0x00 0x00; HC 0xd5 0x00 0x00 0x00; HC 0xd9 0x00 0x00 0x00; HC 0xdc 0x00 0x00 0x00;
    HC 0xe1 0x00 0x00 0x00; HC 0xe7 0x00 0x00 0x00; HC 0xef 0x00 0x00 0x00; HC 0xf6 0x00 0x00 0x01 ];
  [ HC 0x00 0x01 0xc0 0x01; HC 0x00 0x01 0xc1 0x01; HC 0x00 0x01 0xc8 0x01; HC 0x00 0x01 0xc9 0x01;
    HC 0x00 0x01 0xca 0x01; HC 0x00 0x01 0xcd 0x01; HC 0x00 0x01 0xd2 0x01; HC 0x00 0x01 0xd5 0x01;
    HC 0x00 0x01 0xda 0x01; HC 0x00 0x01 0xdb 0x01; HC 0x00 0x01 0xee 0x01; HC 0x00 0x01 0xf0 0x01;
    HC 0x00 0x01 0xf2 0x01; HC 0x00 0x01 0xf3 0x01; HC 0x00 0x01 0xff 0x01; HC 0xce 0x00 0x00 0x00 ];
  [ HC 0x01 0x01 0xc0 0x00; HC 0x16 0x01 0xc0 0x01; HC 0x01 0x01 0xc1 0x00; HC 0x16 0x01 0xc1 0x01;
    HC 0x01 0x01 0xc8 0x00; HC 0x16 0x01 0xc8 0x01; HC 0x01 0x01 0xc9 0x00; HC 0x16 0x01 0xc9 0x01;
    HC 0x01 0x01 0xca 0x00; HC 0x16 0x01 0xca 0x01; HC 0x01 0x01 0xcd 0x00; HC 0x16 0x01 0xcd 0x01;
    HC 0x01 0x01 0xd2 0x00; HC 0x16 0x01 0xd2 0x01; HC 0x01 0x01 0xd5 0x00; HC 0x16 0x01 0xd5 0x01 ];
  [ HC 0x02 0x01 0xc0 0x00; HC 0x09 0x01 0xc0 0x00; HC 0x17 0x01 0xc0 0x00; HC 0x28 0x01 0xc0 0x01;
    HC 0x02 0x01 0xc1 0x00; HC 0x09 0x01 0xc1 0x00; HC 0x17 0x01 0xc1 0x00; HC 0x28 0x01 0xc1 0x01;
    HC 0x02 0x01 0xc8 0x00; HC 0x09 0x01 0xc8 0x00; HC 0x17 0x01 0xc8 0x00; HC 0x28 0x01 0xc8 0x01;
    HC 0x02 0x01 0xc9 0x00; HC 0x09 0x01 0xc9 0x00; HC 0x17 0x01 0xc9 0x00; HC 0x28 0x01 0xc9 0x01 ];
  [ HC 0x03 0x01 0xc0 0x00; HC 0x06 0x01 0xc0 0x00; HC 0x0a 0x01 0xc0 0x00; HC 0x0f 0x01 0xc0 0x00;
    HC 0x18 0x01 0xc0 0x00; HC 0x1f 0x01 0xc0 0x00; HC 0x29 0x01 0xc0 0x00; HC 0x38 0x01 0xc0 0x01;
    HC 0x03 0x01 0xc1 0x00; HC 0x06 0x01 0xc1 0x00; HC 0x0a 0x01 0xc1 0x00; HC 0x0f 0x01 0xc1 0x00;
    HC 0x18 0x01 0xc1 0x00; HC 0x1f 0x01 0xc1 0x00; HC 0x29 0x01 0xc1 0x00; HC 0x38 0x01 0xc1 0x01 ];
  [ HC 0x03 0x01 0xc8 0x00; HC 0x06 0x01 0xc8 0x00; HC 0x0a 0x01 0xc8 0x00; HC 0x0f 0x01 0xc8 0x00;
    HC 0x18 0x01 0xc8 0x00; HC 0x1f 0x01 0xc8 0x00; HC 0x29 0x01 0xc8 0x00; HC 0x38 0x01 0xc8 0x01;
    HC 0x03 0x01 0xc9 0x00; HC 0x06 0x01 0xc9 0x00; HC 0x0a 0x01 0xc9 0x00; HC 0x0f 0x01 0xc9 0x00;
    HC 0x18 0x01 0xc9 0x00; HC 0x1f 0x01 0xc9 0x00; HC 0x29 0x01 0xc9 0x00; HC 0x38 0x01 0xc9 0x01 ] ].

(* http/v2/ngx_http_v2_huff_decode.c:2027-2168 ngx_http_v2_huff_decode_codes: states 196 to 209 *)
Definition decode_rows_196 : list (list huff_decode_code) :=
[
  [ HC 0x02 0x01 0xca 0x00; HC 0x09 0x01 0xca 0x00; HC 0x17 0x01 0xca 0x00; HC 0x28 0x01 0xca 0x01;
    HC 0x02 0x01 0xcd 0x00; HC 0x09 0x01 0xcd 0x00; HC 0x17 0x01 0xcd 0x00; HC 0x28 0x01 0xcd 0x01;
    HC 0x02 0x01 0xd2 0x00; HC 0x09 0x01 0xd2 0x00; HC 0x17 0x01 0xd2 0x00; HC 0x28 0x01 0xd2 0x01;
    HC 0x02 0x01 0xd5 0x00; HC 0x09 0x01 0xd5 0x00; HC 0x17 0x01 0xd5 0x00; HC 0x28 0x01 0xd5 0x01 ];
  [ HC 0x03 0x01 0xca 0x00; HC 0x06 0x01 0xca 0x00; HC 0x0a 0x01 0xca 0x00; HC 0x0f 0x01 0xca 0x00;
    HC 0x18 0x01 0xca 0x00; HC 0x1f 0x01 0xca 0x00; HC 0x29 0x01 0xca 0x00; HC 0x38 0x01 0xca 0x01;
    HC 0x03 0x01 0xcd 0x00; HC 0x06 0x01 0xcd 0x00; HC 0x0a 0x01 0xcd 0x00; HC 0x0f 0x01 0xcd 0x00;
    HC 0x18 0x01 0xcd 0x00; HC 0x1f 0x01 0xcd 0x00; HC 0x29 0x01 0xcd 0x00; HC 0x38 0x01 0xcd 0x01 ];
  [ HC 0x03 0x01 0xd2 0x00; HC 0x06 0x01 0xd2 0x00; HC 0x0a 0x01 0xd2 0x00; HC 0x0f 0x01 0xd2 0x00;
    HC 0x18 0x01 0xd2 0x00; HC 0x1f 0x01 0xd2 0x00; HC 0x29 0x01 0xd2 0x00; HC 0x38 0x01 0xd2 0x01;
    HC 0x03 0x01 0xd5 0x00; HC 0x06 0x01 0xd5 0x00; HC 0x0a 0x01 0xd5 0x00; HC 0x0f 0x01 0xd5 0x00;
    HC 0x18 0x01 0xd5 0x00; HC 0x1f 0x01 0xd5 0x00; HC 0x29 0x01 0xd5 0x00; HC 0x38 0x01 0xd5 0x01 ];
  [ HC 0x01 0x01 0xda 0x00; HC 0x16 0x01 0xda 0x01; HC 0x01 0x01 0xdb 0x00; HC 0x16 0x01 0xdb 0x01;
    HC 0x01 0x01 0xee 0x00; HC 0x16 0x01 0xee 0x01; HC 0x01 0x01 0xf0 0x00; HC 0x16 0x01 0xf0 0x01;
    HC 0x01 0x01 0xf2 0x00; HC 0x16 0x01 0xf2 0x01; HC 0x01 0x01 0xf3 0x00; HC 0x16 0x01 0xf3 0x01;
    HC 0x01 0x01 0xff 0x00; HC 0x16 0x01 0xff 0x01; HC 0x00 0x01 0xcb 0x01; HC 0x00 0x01 0xcc 0x01 ];
  [ HC 0x02 0x01 0xda 0x00; HC 0x09 0x01 0xda 0x00; HC 0x17 0x01 0xda 0x00; HC 0x28 0x01 0xda 0x01;
    HC 0x02 0x01 0xdb 0x00; HC 0x09 0x01 0xdb 0x00; HC 0x17 0x01 0xdb 0x00; HC 0x28 0x01 0xdb 0x01;
    HC 0x02 0x01 0xee 0x00; HC 0x09 0x01 0xee 0x00; HC 0x17 0x01 0xee 0x00; HC 0x28 0x01 0xee 0x01;
    HC 0x02 0x01 0xf0 0x00; HC 0x09 0x01 0xf0 0x00; HC 0x17 0x01 0xf0 0x00; HC 0x28 0x01 0xf0 0x01 ];
  [ HC 0x03 0x01 0xda 0x00; HC 0x06 0x01 0xda 0x00; HC 0x0a 0x01 0xda 0x00; HC 0x0f 0x01 0xda 0x00;
    HC 0x18 0x01 0xda 0x00; HC 0x1f 0x01 0xda 0x00; HC 0x29 0x01 0xda 0x00; HC 0x38 0x01 0xda 0x01;
    HC 0x03 0x01 0xdb 0x00; HC 0x06 0x01 0xdb 0x00; HC 0x0a 0x01 0xdb 0x00; HC 0x0f 0x01 0xdb 0x00;
    HC 0x18 0x01 0xdb 0x00; HC 0x1f 0x01 0xdb 0x00; HC 0x29 0x01 0xdb 0x00; HC 0x38 0x01 0xdb 0x01 ];
  [ HC 0x03 0x01 0xee 0x00; HC 0x06 0x01 0xee 0x00; HC 0x0a 0x01 0xee 0x00; HC 0x0f 0x01 0xee 0x00;
    HC 0x18 0x01 0xee 0x00; HC 0x1f 0x01 0xee 0x00; HC 0x29 0x01 0xee 0x00; HC 0x38 0x01 0xee 0x01;
    HC 0x03 0x01 0xf0 0x00; HC 0x06 0x01 0xf0 0x00; HC 0x0a 0x01 0xf0 0x00; HC 0x0f 0x01 0xf0 0x00;
    HC 0x18 0x01 0xf0 0x00; HC 0x1f 0x01 0xf0 0x00; HC 0x29 0x01 0xf0 0x00; HC 0x38 0x01 0xf0 0x01 ];
  [ HC 0x02 0x01 0xf2 0x00; HC 0x09 0x01 0xf2 0x00; HC 0x17 0x01 0xf2 0x00; HC 0x28 0x01 0xf2 0x01;
    HC 0x02 0x01 0xf3 0x00; HC 0x09 0x01 0xf3 0x00; HC 0x17 0x01 0xf3 0x00; HC 0x28 0x01 0xf3 0x01;
    HC 0x02 0x01 0xff 0x00; HC 0x09 0x01 0xff 0x00; HC 0x17 0x01 0xff 0x00; HC 0x28 0x01 0xff 0x01;
    HC 0x01 0x01 0xcb 0x00; HC 0x16 0x01 0xcb 0x01; HC 0x01 0x01 0xcc 0x00; HC 0x16 0x01 0xcc 0x01 ];
  [ HC 0x03 0x01 0xf2 0x00; HC 0x06 0x01 0xf2 0x00; HC 0x0a 0x01 0xf2 0x00; HC 0x0f 0x01 0xf2 0x00;
    HC 0x18 0x01 0xf2 0x00; HC 0x1f 0x01 0xf2 0x00; HC 0x29 0x01 0xf2 0x00; HC 0x38 0x01 0xf2 0x01;
    HC 0x03 0x01 0xf3 0x00; HC 0x06 0x01 0xf3 0x00; HC 0x0a 0x01 0xf3 0x00; HC 0x0f 0x01 0xf3 0x00;
    HC 0x18 0x01 0xf3 0x00; HC 0x1f 0x01 0xf3 0x00; HC 0x29 0x01 0xf3 0x00; HC 0x38 0x01 0xf3 0x01 ];
  [ HC 0x03 0x01 0xff 0x00; HC 0x06 0x01 0xff 0x00; HC 0x0a 0x01 0xff 0x00; HC 0x0f 0x01 0xff 0x00;
    HC 0x18 0x01 0xff 0x00; HC 0x1f 0x01 0xff 0x00; HC 0x29 0x01 0xff 0x00; HC 0x38 0x01 0xff 0x01;
    HC 0x02 0x01 0xcb 0x00; HC 0x09 0x01 0xcb 0x00; HC 0x17 0x01 0xcb 0x00; HC 0x28 0x01 0xcb 0x01;
    HC 0x02 0x01 0xcc 0x00; HC 0x09 0x01 0xcc 0x00; HC 0x17 0x01 0xcc 0x00; HC 0x28 0x01 0xcc 0x01 ];
  [ HC 0x03 0x01 0xcb 0x00; HC 0x06 0x01 0xcb 0x00; HC 0x0a 0x01 0xcb 0x00; HC 0x0f 0x01 0xcb 0x00;
    HC 0x18 0x01 0xcb 0x00; HC 0x1f 0x01 0xcb 0x00; HC 0x29 0x01 0xcb 0x00; HC 0x38 0x01 0xcb 0x01;
    HC 0x03 0x01 0xcc 0x00; HC 0x06 0x01 0xcc 0x00; HC 0x0a 0x01 0xcc 0x00; HC 0x0f 0x01 0xcc 0x00;
    HC 0x18 0x01 0xcc 0x00; HC 0x1f 0x01 0xcc 0x00; HC 0x29 0x01 0xcc 0x00; HC 0x38 0x01 0xcc 0x01 ];
  [ HC 0xd3 0x00 0x00 0x00; HC 0xd4 0x00 0x00 0x00; HC 0xd6 0x00 0x00 0x00; HC 0xd7 0x00 0x00 0x00;
    HC 0xda 0x00 0x00 0x00; HC 0xdb 0x00 0x00 0x00; HC 0xdd 0x00 0x00 0x00; HC 0xde 0x00 0x00 0x00;
    HC 0xe2 0x00 0x00 0x00; HC 0xe4 0x00 0x00 0x00; HC 0xe8 0x00 0x00 0x00; HC 0xeb 0x00 0x00 0x00;
    HC 0xf0 0x00 0x00 0x00; HC 0xf3 0x00 0x00 0x00; HC 0xf7 0x00 0x00 0x00; HC 0xfa 0x00 0x00 0x01 ];
  [ HC 0x00 0x01 0xd3 0x01; HC 0x00 0x01 0xd4 0x01; HC 0x00 0x01 0xd6 0x01; HC 0x00 0x01 0xdd 0x01;
    HC 0x00 0x01 0xde 0x01; HC 0x00 0x01 0xdf 0x01; HC 0x00 0x01 0xf1 0x01; HC 0x00 0x01 0xf4 0x01;
    HC 0x00 0x01 0xf5 0x01; HC 0x00 0x01 0xf6 0x01; HC 0x00 0x01 0xf7 0x01; HC 0x00 0x01 0xf8 0x01;
    HC 0x00 0x01 0xfa 0x01; HC 0x00 0x01 0xfb 0x01; HC 0x00 0x01 0xfc 0x01; HC 0x00 0x01 0xfd 0x01 ];
  [ HC 0x01 0x01 0xd3 0x00; HC 0x16 0x01 0xd3 0x01; HC 0x01 0x01 0xd4 0x00; HC 0x16 0x01 0xd4 0x01;
    HC 0x01 0x01 0xd6 0x00; HC 0x16 0x01 0xd6 0x01; HC 0x01 0x01 0xdd 0x00; HC 0x16 0x01 0xdd 0x01;
    HC 0x01 0x01 0xde 0x00; HC 0x16 0x01 0xde 0x01; HC 0x01 0x01 0xdf 0x00; HC 0x16 0x01 0xdf 0x01;
    HC 0x01 0x01 0xf1 0x00; HC 0x16 0x01 0xf1 0x01; HC 0x01 0x01 0xf4 0x00; HC 0x16 0x01 0xf4 0x01 ] ].

(* http/v2/ngx_http_v2_huff_decode.c:2170-2311 ngx_http_v2_huff_decode_codes: states 210 to 223 *)
Definition decode_rows_210 : list (list huff_decode_code) :=
[
  [ HC 0x02 0x01 0xd3 0x00; HC 0x09 0x01 0xd3 0x00; HC 0x17 0x01 0xd3 0x00; HC 0x28 0x01 0xd3 0x01;
    HC 0x02 0x01 0xd4 0x00; HC 0x09 0x01 0xd4 0x00; HC 0x17 0x01 0xd4 0x00; HC 0x28 0x01 0xd4 0x01;
    HC 0x02 0x01 0xd6 0x00; HC 0x09 0x01 0xd6 0x00; HC 0x17 0x01 0xd6 0x00; HC 0x28 0x01 0xd6 0x01;
    HC 0x02 0x01 0xdd 0x00; HC 0x09 0x01 0xdd 0x00; HC 0x17 0x01 0xdd 0x00; HC 0x28 0x01 0xdd 0x01 ];
  [ HC 0x03 0x01 0xd3 0x00; HC 0x06 0x01 0xd3 0x00; HC 0x0a 0x01 0xd3 0x00; HC 0x0f 0x01 0xd3 0x00;
    HC 0x18 0x01 0xd3 0x00; HC 0x1f 0x01 0xd3 0x00; HC 0x29 0x01 0xd3 0x00; HC 0x38 0x01 0xd3 0x01;
    HC 0x03 0x01 0xd4 0x00; HC 0x06 0x01 0xd4 0x00; HC 0x0a 0x01 0xd4 0x00; HC 0x0f 0x01 0xd4 0x00;
    HC 0x18 0x01 0xd4 0x00; HC 0x1f 0x01 0xd4 0x00; HC 0x29 0x01 0xd4 0x00; HC 0x38 0x01 0xd4 0x01 ];
  [ HC 0x03 0x01 0xd6 0x00; HC 0x06 0x01 0xd6 0x00; HC 0x0a 0x01 0xd6 0x00; HC 0x0f 0x01 0xd6 0x00;
    HC 0x18 0x01 0xd6 0x00; HC 0x1f 0x01 0xd6 0x00; HC 0x29 0x01 0xd6 0x00; HC 0x38 0x01 0xd6 0x01;
    HC 0x03 0x01 0xdd 0x00; HC 0x06 0x01 0xdd 0x00; HC 0x0a 0x01 0xdd 0x00; HC 0x0f 0x01 0xdd 0x00;
    HC 0x18 0x01 0xdd 0x00; HC 0x1f 0x01 0xdd 0x00; HC 0x29 0x01 0xdd 0x00; HC 0x38 0x01 0xdd 0x01 ];
  [ HC 0x02 0x01 0xde 0x00; HC 0x09 0x01 0xde 0x00; HC 0x17 0x01 0xde 0x00; HC 0x28 0x01 0xde 0x01;
    HC 0x02 0x01 0xdf 0x00; HC 0x09 0x01 0xdf 0x00; HC 0x17 0x01 0xdf 0x00; HC 0x28 0x01 0xdf 0x01;
    HC 0x02 0x01 0xf1 0x00; HC 0x09 0x01 0xf1 0x00; HC 0x17 0x01 0xf1 0x00; HC 0x28 0x01 0xf1 0x01;
    HC 0x02 0x01 0xf4 0x00; HC 0x09 0x01 0xf4 0x00; HC 0x17 0x01 0xf4 0x00; HC 0x28 0x01 0xf4 0x01 ];
  [ HC 0x03 0x01 0xde 0x00; HC 0x06 0x01 0xde 0x00; HC 0x0a 0x01 0xde 0x00; HC 0x0f 0x01 0xde 0x00;
    HC 0x18 0x01 0xde 0x00; HC 0x1f 0x01 0xde 0x00; HC 0x29 0x01 0xde 0x00; HC 0x38 0x01 0xde 0x01;
    HC 0x03 0x01 0xdf 0x00; HC 0x06 0x01 0xdf 0x00; HC 0x0a 0x01 0xdf 0x00; HC 0x0f 0x01 0xdf 0x00;
    HC 0x18 0x01 0xdf 0x00; HC 0x1f 0x01 0xdf 0x00; HC 0x29 0x01 0xdf 0x00; HC 0x38 0x01 0xdf 0x01 ];
  [ HC 0x03 0x01 0xf1 0x00; HC 0x06 0x01 0xf1 0x00; HC 0x0a 0x01 0xf1 0x00; HC 0x0f 0x01 0xf1 0x00;
    HC 0x18 0x01 0xf1 0x00; HC 0x1f 0x01 0xf1 0x00; HC 0x29 0x01 0xf1 0x00; HC 0x38 0x01 0xf1 0x01;
    HC 0x03 0x01 0xf4 0x00; HC 0x06 0x01 0xf4 0x00; HC 0x0a 0x01 0xf4 0x00; HC 0x0f 0x01 0xf4 0x00;
    HC 0x18 0x01 0xf4 0x00; HC 0x1f 0x01 0xf4 0x00; HC 0x29 0x01 0xf4 0x00; HC 0x38 0x01 0xf4 0x01 ];
  [ HC 0x01 0x01 0xf5 0x00; HC 0x16 0x01 0xf5 0x01; HC 0x01 0x01 0xf6 0x00; HC 0x16 0x01 0xf6 0x01;
    HC 0x01 0x01 0xf7 0x00; HC 0x16 0x01 0xf7 0x01; HC 0x01 0x01 0xf8 0x00; HC 0x16 0x01 0xf8 0x01;
    HC 0x01 0x01 0xfa 0x00; HC 0x16 0x01 0xfa 0x01; HC 0x01 0x01 0xfb 0x00; HC 0x16 0x01 0xfb 0x01;
    HC 0x01 0x01 0xfc 0x00; HC 0x16 0x01 0xfc 0x01; HC 0x01 0x01 0xfd 0x00; HC 0x16 0x01 0xfd 0x01 ];
  [ HC 0x02 0x01 0xf5 0x00; HC 0x09 0x01 0xf5 0x00; HC 0x17 0x01 0xf5 0x00; HC 0x28 0x01 0xf5 0x01;
    HC 0x02 0x01 0xf6 0x00; HC 0x09 0x01 0xf6 0x00; HC 0x17 0x01 0xf6 0x00; HC 0x28 0x01 0xf6 0x01;
    HC 0x02 0x01 0xf7 0x00; HC 0x09 0x01 0xf7 0x00; HC 0x17 0x01 0xf7 0x00; HC 0x28 0x01 0xf7 0x01;
    HC 0x02 0x01 0xf8 0x00; HC 0x09 0x01 0xf8 0x00; HC 0x17 0x01 0xf8 0x00; HC 0x28 0x01 0xf8 0x01 ];
  [ HC 0x03 0x01 0xf5 0x00; HC 0x06 0x01 0xf5 0x00; HC 0x0a 0x01 0xf5 0x00; HC 0x0f 0x01 0xf5 0x00;
    HC 0x18 0x01 0xf5 0x00; HC 0x1f 0x01 0xf5 0x00; HC 0x29 0x01 0xf5 0x00; HC 0x38 0x01 0xf5 0x01;
    HC 0x03 0x01 0xf6 0x00; HC 0x06 0x01 0xf6 0x00; HC 0x0a 0x01 0xf6 0x00; HC 0x0f 0x01 0xf6 0x00;
    HC 0x18 0x01 0xf6 0x00; HC 0x1f 0x01 0xf6 0x00; HC 0x29 0x01 0xf6 0x00; HC 0x38 0x01 0xf6 0x01 ];
  [ HC 0x03 0x01 0xf7 0x00; HC 0x06 0x01 0xf7 0x00; HC 0x0a 0x01 0xf7 0x00; HC 0x0f 0x01 0xf7 0x00;
    HC 0x18 0x01 0xf7 0x00; HC 0x1f 0x01 0xf7 0x00; HC 0x29 0x01 0xf7 0x00; HC 0x38 0x01 0xf7 0x01;
    HC 0x03 0x01 0xf8 0x00; HC 0x06 0x01 0xf8 0x00; HC 0x0a 0x01 0xf8 0x00; HC 0x0f 0x01 0xf8 0x00;
    HC 0x18 0x01 0xf8 0x00; HC 0x1f 0x01 0xf8 0x00; HC 0x29 0x01 0xf8 0x00; HC 0x38 0x01 0xf8 0x01 ];
  [ HC 0x02 0x01 0xfa 0x00; HC 0x09 0x01 0xfa 0x00; HC 0x17 0x01 0xfa 0x00; HC 0x28 0x01 0xfa 0x01;
    HC 0x02 0x01 0xfb 0x00; HC 0x09 0x01 0xfb 0x00; HC 0x17 0x01 0xfb 0x00; HC 0x28 0x01 0xfb 0x01;
    HC 0x02 0x01 0xfc 0x00; HC 0x09 0x01 0xfc 0x00; HC 0x17 0x01 0xfc 0x00; HC 0x28 0x01 0xfc 0x01;
    HC 0x02 0x01 0xfd 0x00; HC 0x09 0x01 0xfd 0x00; HC 0x17 0x01 0xfd 0x00; HC 0x28 0x01 0xfd 0x01 ];
  [ HC 0x03 0x01 0xfa 0x00; HC 0x06 0x01 0xfa 0x00; HC 0x0a 0x01 0xfa 0x00; HC 0x0f 0x01 0xfa 0x00;
    HC 0x18 0x01 0xfa 0x00; HC 0x1f 0x01 0xfa 0x00; HC 0x29 0x01 0xfa 0x00; HC 0x38 0x01 0xfa 0x01;
    HC 0x03 0x01 0xfb 0x00; HC 0x06 0x01 0xfb 0x00; HC 0x0a 0x01 0xfb 0x00; HC 0x0f 0x01 0xfb 0x00;
    HC 0x18 0x01 0xfb 0x00; HC 0x1f 0x01 0xfb 0x00; HC 0x29 0x01 0xfb 0x00; HC 0x38 0x01 0xfb 0x01 ];
  [ HC 0x03 0x01 0xfc 0x00; HC 0x06 0x01 0xfc 0x00; HC 0x0a 0x01 0xfc 0x00; HC 0x0f 0x01 0xfc 0x00;
    HC 0x18 0x01 0xfc 0x00; HC 0x1f 0x01 0xfc 0x00; HC 0x29 0x01 0xfc 0x00; HC 0x38 0x01 0xfc 0x01;
    HC 0x03 0x01 0xfd 0x00; HC 0x06 0x01 0xfd 0x00; HC 0x0a 0x01 0xfd 0x00; HC 0x0f 0x01 0xfd 0x00;
    HC 0x18 0x01 0xfd 0x00; HC 0x1f 0x01 0xfd 0x00; HC 0x29 0x01 0xfd 0x00; HC 0x38 0x01 0xfd 0x01 ];
  [ HC 0x00 0x01 0xfe 0x01; HC 0xe3 0x00 0x00 0x00; HC 0xe5 0x00 0x00 0x00; HC 0xe6 0x00 0x00 0x00;
    HC 0xe9 0x00 0x00 0x00; HC 0xea 0x00 0x00 0x00; HC 0xec 0x00 0x00 0x00; HC 0xed 0x00 0x00 0x00;
    HC 0xf1 0x00 0x00 0x00; HC 0xf2 0x00 0x00 0x00; HC 0xf4 0x00 0x00 0x00; HC 0xf5 0x00 0x00 0x00;
    HC 0xf8 0x00 0x00 0x00; HC 0xf9 0x00 0x00 0x00; HC 0xfb 0x00 0x00 0x00; HC 0xfc 0x00 0x00 0x01 ] ].

(* http/v2/ngx_http_v2_huff_decode.c:2312-2454 ngx_http_v2_huff_decode_codes: states 224 to 237 *)
Definition decode_rows_224 : list (list huff_decode_code) :=
[
  [ HC 0x01 0x01 0xfe 0x00; HC 0x16 0x01 0xfe 0x01; HC 0x00 0x01 0x02 0x01; HC 0x00 0x01 0x03 0x01;
    HC 0x00 0x01 0x04 0x01; HC 0x00 0x01 0x05 0x01; HC 0x00 0x01 0x06 0x01; HC 0x00 0x01 0x07 0x01;
    HC 0x00 0x01 0x08 0x01; HC 0x00 0x01 0x0b 0x01; HC 0x00 0x01 0x0c 0x01; HC 0x00 0x01 0x0e 0x01;
    HC 0x00 0x01 0x0f 0x01; HC 0x00 0x01 0x10 0x01; HC 0x00 0x01 0x11 0x01; HC 0x00 0x01 0x12 0x01 ];
  [ HC 0x02 0x01 0xfe 0x00; HC 0x09 0x01 0xfe 0x00; HC 0x17 0x01 0xfe 0x00; HC 0x28 0x01 0xfe 0x01;
    HC 0x01 0x01 0x02 0x00; HC 0x16 0x01 0x02 0x01; HC 0x01 0x01 0x03 0x00; HC 0x16 0x01 0x03 0x01;
    HC 0x01 0x01 0x04 0x00; HC 0x16 0x01 0x04 0x01; HC 0x01 0x01 0x05 0x00; HC 0x16 0x01 0x05 0x01;
    HC 0x01 0x01 0x06 0x00; HC 0x16 0x01 0x06 0x01; HC 0x01 0x01 0x07 0x00; HC 0x16 0x01 0x07 0x01 ];
  [ HC 0x03 0x01 0xfe 0x00; HC 0x06 0x01 0xfe 0x00; HC 0x0a 0x01 0xfe 0x00; HC 0x0f 0x01 0xfe 0x00;
    HC 0x18 0x01 0xfe 0x00; HC 0x1f 0x01 0xfe 0x00; HC 0x29 0x01 0xfe 0x00; HC 0x38 0x01 0xfe 0x01;
    HC 0x02 0x01 0x02 0x00; HC 0x09 0x01 0x02 0x00; HC 0x17 0x01 0x02 0x00; HC 0x28 0x01 0x02 0x01;
    HC 0x02 0x01 0x03 0x00; HC 0x09 0x01 0x03 0x00; HC 0x17 0x01 0x03 0x00; HC 0x28 0x01 0x03 0x01 ];
  [ HC 0x03 0x01 0x02 0x00; HC 0x06 0x01 0x02 0x00; HC 0x0a 0x01 0x02 0x00; HC 0x0f 0x01 0x02 0x00;
    HC 0x18 0x01 0x02 0x00; HC 0x1f 0x01 0x02 0x00; HC 0x29 0x01 0x02 0x00; HC 0x38 0x01 0x02 0x01;
    HC 0x03 0x01 0x03 0x00; HC 0x06 0x01 0x03 0x00; HC 0x0a 0x01 0x03 0x00; HC 0x0f 0x01 0x03 0x00;
    HC 0x18 0x01 0x03 0x00; HC 0x1f 0x01 0x03 0x00; HC 0x29 0x01 0x03 0x00; HC 0x38 0x01 0x03 0x01 ];
  [ HC 0x02 0x01 0x04 0x00; HC 0x09 0x01 0x04 0x00; HC 0x17 0x01 0x04 0x00; HC 0x28 0x01 0x04 0x01;
    HC 0x02 0x01 0x05 0x00; HC 0x09 0x01 0x05 0x00; HC 0x17 0x01 0x05 0x00; HC 0x28 0x01 0x05 0x01;
    HC 0x02 0x01 0x06 0x00; HC 0x09 0x01 0x06 0x00; HC 0x17 0x01 0x06 0x00; HC 0x28 0x01 0x06 0x01;
    HC 0x02 0x01 0x07 0x00; HC 0x09 0x01 0x07 0x00; HC 0x17 0x01 0x07 0x00; HC 0x28 0x01 0x07 0x01 ];
  [ HC 0x03 0x01 0x04 0x00; HC 0x06 0x01 0x04 0x00; HC 0x0a 0x01 0x04 0x00; HC 0x0f 0x01 0x04 0x00;
    HC 0x18 0x01 0x04 0x00; HC 0x1f 0x01 0x04 0x00; HC 0x29 0x01 0x04 0x00; HC 0x38 0x01 0x04 0x01;
    HC 0x03 0x01 0x05 0x00; HC 0x06 0x01 0x05 0x00; HC 0x0a 0x01 0x05 0x00; HC 0x0f 0x01 0x05 0x00;
    HC 0x18 0x01 0x05 0x00; HC 0x1f 0x01 0x05 0x00; HC 0x29 0x01 0x05 0x00; HC 0x38 0x01 0x05 0x01 ];
  [ HC 0x03 0x01 0x06 0x00; HC 0x06 0x01 0x06 0x00; HC 0x0a 0x01 0x06 0x00; HC 0x0f 0x01 0x06 0x00;
    HC 0x18 0x01 0x06 0x00; HC 0x1f 0x01 0x06 0x00; HC 0x29 0x01 0x06 0x00; HC 0x38 0x01 0x06 0x01;
    HC 0x03 0x01 0x07 0x00; HC 0x06 0x01 0x07 0x00; HC 0x0a 0x01 0x07 0x00; HC 0x0f 0x01 0x07 0x00;
    HC 0x18 0x01 0x07 0x00; HC 0x1f 0x01 0x07 0x00; HC 0x29 0x01 0x07 0x00; HC 0x38 0x01 0x07 0x01 ];
  [ HC 0x01 0x01 0x08 0x00; HC 0x16 0x01 0x08 0x01; HC 0x01 0x01 0x0b 0x00; HC 0x16 0x01 0x0b 0x01;
    HC 0x01 0x01 0x0c 0x00; HC 0x16 0x01 0x0c 0x01; HC 0x01 0x01 0x0e 0x00; HC 0x16 0x01 0x0e 0x01;
    HC 0x01 0x01 0x0f 0x00; HC 0x16 0x01 0x0f 0x01; HC 0x01 0x01 0x10 0x00; HC 0x16 0x01 0x10 0x01;
    HC 0x01 0x01 0x11 0x00; HC 0x16 0x01 0x11 0x01; HC 0x01 0x01 0x12 0x00; HC 0x16 0x01 0x12 0x01 ];
  [ HC 0x02 0x01 0x08 0x00; HC 0x09 0x01 0x08 0x00; HC 0x17 0x01 0x08 0x00; HC 0x28 0x01 0x08 0x01;
    HC 0x02 0x01 0x0b 0x00; HC 0x09 0x01 0x0b 0x00; HC 0x17 0x01 0x0b 0x00; HC 0x28 0x01 0x0b 0x01;
    HC 0x02 0x01 0x0c 0x00; HC 0x09 0x01 0x0c 0x00; HC 0x17 0x01 0x0c 0x00; HC 0x28 0x01 0x0c 0x01;
    HC 0x02 0x01 0x0e 0x00; HC 0x09 0x01 0x0e 0x00; HC 0x17 0x01 0x0e 0x00; HC 0x28 0x01 0x0e 0x01 ];
  [ HC 0x03 0x01 0x08 0x00; HC 0x06 0x01 0x08 0x00; HC 0x0a 0x01 0x08 0x00; HC 0x0f 0x01 0x08 0x00;
    HC 0x18 0x01 0x08 0x00; HC 0x1f 0x01 0x08 0x00; HC 0x29 0x01 0x08 0x00; HC 0x38 0x01 0x08 0x01;
    HC 0x03 0x01 0x0b 0x00; HC 0x06 0x01 0x0b 0x00; HC 0x0a 0x01 0x0b 0x00; HC 0x0f 0x01 0x0b 0x00;
    HC 0x18 0x01 0x0b 0x00; HC 0x1f 0x01 0x0b 0x00; HC 0x29 0x01 0x0b 0x00; HC 0x38 0x01 0x0b 0x01 ];
  [ HC 0x03 0x01 0x0c 0x00; HC 0x06 0x01 0x0c 0x00; HC 0x0a 0x01 0x0c 0x00; HC 0x0f 0x01 0x0c 0x00;
    HC 0x18 0x01 0x0c 0x00; HC 0x1f 0x01 0x0c 0x00; HC 0x29 0x01 0x0c 0x00; HC 0x38 0x01 0x0c 0x01;
    HC 0x03 0x01 0x0e 0x00; HC 0x06 0x01 0x0e 0x00; HC 0x0a 0x01 0x0e 0x00; HC 0x0f 0x01 0x0e 0x00;
    HC 0x18 0x01 0x0e 0x00; HC 0x1f 0x01 0x0e 0x00; HC 0x29 0x01 0x0e 0x00; HC 0x38 0x01 0x0e 0x01 ];
  [ HC 0x02 0x01 0x0f 0x00; HC 0x09 0x01 0x0f 0x00; HC 0x17 0x01 0x0f 0x00; HC 0x28 0x01 0x0f 0x01;
    HC 0x02 0x01 0x10 0x00; HC 0x09 0x01 0x10 0x00; HC 0x17 0x01 0x10 0x00; HC 0x28 0x01 0x10 0x01;
    HC 0x02 0x01 0x11 0x00; HC 0x09 0x01 0x11 0x00; HC 0x17 0x01 0x11 0x00; HC 0x28 0x01 0x11 0x01;
    HC 0x02 0x01 0x12 0x00; HC 0x09 0x01 0x12 0x00; HC 0x17 0x01 0x12 0x00; HC 0x28 0x01 0x12 0x01 ];
  [ HC 0x03 0x01 0x0f 0x00; HC 0x06 0x01 0x0f 0x00; HC 0x0a 0x01 0x0f 0x00; HC 0x0f 0x01 0x0f 0x00;
    HC 0x18 0x01 0x0f 0x00; HC 0x1f 0x01 0x0f 0x00; HC 0x29 0x01 0x0f 0x00; HC 0x38 0x01 0x0f 0x01;
    HC 0x03 0x01 0x10 0x00; HC 0x06 0x01 0x10 0x00; HC 0x0a 0x01 0x10 0x00; HC 0x0f 0x01 0x10 0x00;
    HC 0x18 0x01 0x10 0x00; HC 0x1f 0x01 0x10 0x00; HC 0x29 0x01 0x10 0x00; HC 0x38 0x01 0x10 0x01 ];
  [ HC 0x03 0x01 0x11 0x00; HC 0x06 0x01 0x11 0x00; HC 0x0a 0x01 0x11 0x00; HC 0x0f 0x01 0x11 0x00;
    HC 0x18 0x01 0x11 0x00; HC 0x1f 0x01 0x11 0x00; HC 0x29 0x01 0x11 0x00; HC 0x38 0x01 0x11 0x01;
    HC 0x03 0x01 0x12 0x00; HC 0x06 0x01 0x12 0x00; HC 0x0a 0x01 0x12 0x00; HC 0x0f 0x01 0x12 0x00;
    HC 0x18 0x01 0x12 0x00; HC 0x1f 0x01 0x12 0x00; HC 0x29 0x01 0x12 0x00; HC 0x38 0x01 0x12 0x01 ] ].

(* http/v2/ngx_http_v2_huff_decode.c:2455-2597 ngx_http_v2_huff_decode_codes: states 238 to 251 *)
Definition decode_rows_238 : list (list huff_decode_code) :=
[
  [ HC 0x00 0x01 0x13 0x01; HC 0x00 0x01 0x14 0x01; HC 0x00 0x01 0x15 0x01; HC 0x00 0x01 0x17 0x01;
    HC 0x00 0x01 0x18 0x01; HC 0x00 0x01 0x19 0x01; HC 0x00 0x01 0x1a 0x01; HC 0x00 0x01 0x1b 0x01;
    HC 0x00 0x01 0x1c 0x01; HC 0x00 0x01 0x1d 0x01; HC 0x00 0x01 0x1e 0x01; HC 0x00 0x01 0x1f 0x01;
    HC 0x00 0x01 0x7f 0x01; HC 0x00 0x01 0xdc 0x01; HC 0x00 0x01 0xf9 0x01; HC 0xfd 0x00 0x00 0x01 ];
  [ HC 0x01 0x01 0x13 0x00; HC 0x16 0x01 0x13 0x01; HC 0x01 0x01 0x14 0x00; HC 0x16 0x01 0x14 0x01;
    HC 0x01 0x01 0x15 0x00; HC 0x16 0x01 0x15 0x01; HC 0x01 0x01 0x17 0x00; HC 0x16 0x01 0x17 0x01;
    HC 0x01 0x01 0x18 0x00; HC 0x16 0x01 0x18 0x01; HC 0x01 0x01 0x19 0x00; HC 0x16 0x01 0x19 0x01;
    HC 0x01 0x01 0x1a 0x00; HC 0x16 0x01 0x1a 0x01; HC 0x01 0x01 0x1b 0x00; HC 0x16 0x01 0x1b 0x01 ];
  [ HC 0x02 0x01 0x13 0x00; HC 0x09 0x01 0x13 0x00; HC 0x17 0x01 0x13 0x00; HC 0x28 0x01 0x13 0x01;
    HC 0x02 0x01 0x14 0x00; HC 0x09 0x01 0x14 0x00; HC 0x17 0x01 0x14 0x00; HC 0x28 0x01 0x14 0x01;
    HC 0x02 0x01 0x15 0x00; HC 0x09 0x01 0x15 0x00; HC 0x17 0x01 0x15 0x00; HC 0x28 0x01 0x15 0x01;
    HC 0x02 0x01 0x17 0x00; HC 0x09 0x01 0x17 0x00; HC 0x17 0x01 0x17 0x00; HC 0x28 0x01 0x17 0x01 ];
  [ HC 0x03 0x01 0x13 0x00; HC 0x06 0x01 0x13 0x00; HC 0x0a 0x01 0x13 0x00; HC 0x0f 0x01 0x13 0x00;
    HC 0x18 0x01 0x13 0x00; HC 0x1f 0x01 0x13 0x00; HC 0x29 0x01 0x13 0x00; HC 0x38 0x01 0x13 0x01;
    HC 0x03 0x01 0x14 0x00; HC 0x06 0x01 0x14 0x00; HC 0x0a 0x01 0x14 0x00; HC 0x0f 0x01 0x14 0x00;
    HC 0x18 0x01 0x14 0x00; HC 0x1f 0x01 0x14 0x00; HC 0x29 0x01 0x14 0x00; HC 0x38 0x01 0x14 0x01 ];
  [ HC 0x03 0x01 0x15 0x00; HC 0x06 0x01 0x15 0x00; HC 0x0a 0x01 0x15 0x00; HC 0x0f 0x01 0x15 0x00;
    HC 0x18 0x01 0x15 0x00; HC 0x1f 0x01 0x15 0x00; HC 0x29 0x01 0x15 0x00; HC 0x38 0x01 0x15 0x01;
    HC 0x03 0x01 0x17 0x00; HC 0x06 0x01 0x17 0x00; HC 0x0a 0x01 0x17 0x00; HC 0x0f 0x01 0x17 0x00;
    HC 0x18 0x01 0x17 0x00; HC 0x1f 0x01 0x17 0x00; HC 0x29 0x01 0x17 0x00; HC 0x38 0x01 0x17 0x01 ];
  [ HC 0x02 0x01 0x18 0x00; HC 0x09 0x01 0x18 0x00; HC 0x17 0x01 0x18 0x00; HC 0x28 0x01 0x18 0x01;
    HC 0x02 0x01 0x19 0x00; HC 0x09 0x01 0x19 0x00; HC 0x17 0x01 0x19 0x00; HC 0x28 0x01 0x19 0x01;
    HC 0x02 0x01 0x1a 0x00; HC 0x09 0x01 0x1a 0x00; HC 0x17 0x01 0x1a 0x00; HC 0x28 0x01 0x1a 0x01;
    HC 0x02 0x01 0x1b 0x00; HC 0x09 0x01 0x1b 0x00; HC 0x17 0x01 0x1b 0x00; HC 0x28 0x01 0x1b 0x01 ];
  [ HC 0x03 0x01 0x18 0x00; HC 0x06 0x01 0x18 0x00; HC 0x0a 0x01 0x18 0x00; HC 0x0f 0x01 0x18 0x00;
    HC 0x18 0x01 0x18 0x00; HC 0x1f 0x01 0x18 0x00; HC 0x29 0x01 0x18 0x00; HC 0x38 0x01 0x18 0x01;
    HC 0x03 0x01 0x19 0x00; HC 0x06 0x01 0x19 0x00; HC 0x0a 0x01 0x19 0x00; HC 0x0f 0x01 0x19 0x00;
    HC 0x18 0x01 0x19 0x00; HC 0x1f 0x01 0x19 0x00; HC 0x29 0x01 0x19 0x00; HC 0x38 0x01 0x19 0x01 ];
  [ HC 0x03 0x01 0x1a 0x00; HC 0x06 0x01 0x1a 0x00; HC 0x0a 0x01 0x1a 0x00; HC 0x0f 0x01 0x1a 0x00;
    HC 0x18 0x01 0x1a 0x00; HC 0x1f 0x01 0x1a 0x00; HC 0x29 0x01 0x1a 0x00; HC 0x38 0x01 0x1a 0x01;
    HC 0x03 0x01 0x1b 0x00; HC 0x06 0x01 0x1b 0x00; HC 0x0a 0x01 0x1b 0x00; HC 0x0f 0x01 0x1b 0x00;
    HC 0x18 0x01 0x1b 0x00; HC 0x1f 0x01 0x1b 0x00; HC 0x29 0x01 0x1b 0x00; HC 0x38 0x01 0x1b 0x01 ];
  [ HC 0x01 0x01 0x1c 0x00; HC 0x16 0x01 0x1c 0x01; HC 0x01 0x01 0x1d 0x00; HC 0x16 0x01 0x1d 0x01;
    HC 0x01 0x01 0x1e 0x00; HC 0x16 0x01 0x1e 0x01; HC 0x01 0x01 0x1f 0x00; HC 0x16 0x01 0x1f 0x01;
    HC 0x01 0x01 0x7f 0x00; HC 0x16 0x01 0x7f 0x01; HC 0x01 0x01 0xdc 0x00; HC 0x16 0x01 0xdc 0x01;
    HC 0x01 0x01 0xf9 0x00; HC 0x16 0x01 0xf9 0x01; HC 0xfe 0x00 0x00 0x00; HC 0xff 0x00 0x00 0x01 ];
  [ HC 0x02 0x01 0x1c 0x00; HC 0x09 0x01 0x1c 0x00; HC 0x17 0x01 0x1c 0x00; HC 0x28 0x01 0x1c 0x01;
    HC 0x02 0x01 0x1d 0x00; HC 0x09 0x01 0x1d 0x00; HC 0x17 0x01 0x1d 0x00; HC 0x28 0x01 0x1d 0x01;
    HC 0x02 0x01 0x1e 0x00; HC 0x09 0x01 0x1e 0x00; HC 0x17 0x01 0x1e 0x00; HC 0x28 0x01 0x1e 0x01;
    HC 0x02 0x01 0x1f 0x00; HC 0x09 0x01 0x1f 0x00; HC 0x17 0x01 0x1f 0x00; HC 0x28 0x01 0x1f 0x01 ];
  [ HC 0x03 0x01 0x1c 0x00; HC 0x06 0x01 0x1c 0x00; HC 0x0a 0x01 0x1c 0x00; HC 0x0f 0x01 0x1c 0x00;
    HC 0x18 0x01 0x1c 0x00; HC 0x1f 0x01 0x1c 0x00; HC 0x29 0x01 0x1c 0x00; HC 0x38 0x01 0x1c 0x01;
    HC 0x03 0x01 0x1d 0x00; HC 0x06 0x01 0x1d 0x00; HC 0x0a 0x01 0x1d 0x00; HC 0x0f 0x01 0x1d 0x00;
    HC 0x18 0x01 0x1d 0x00; HC 0x1f 0x01 0x1d 0x00; HC 0x29 0x01 0x1d 0x00; HC 0x38 0x01 0x1d 0x01 ];
  [ HC 0x03 0x01 0x1e 0x00; HC 0x06 0x01 0x1e 0x00; HC 0x0a 0x01 0x1e 0x00; HC 0x0f 0x01 0x1e 0x00;
    HC 0x18 0x01 0x1e 0x00; HC 0x1f 0x01 0x1e 0x00; HC 0x29 0x01 0x1e 0x00; HC 0x38 0x01 0x1e 0x01;
    HC 0x03 0x01 0x1f 0x00; HC 0x06 0x01 0x1f 0x00; HC 0x0a 0x01 0x1f 0x00; HC 0x0f 0x01 0x1f 0x00;
    HC 0x18 0x01 0x1f 0x00; HC 0x1f 0x01 0x1f 0x00; HC 0x29 0x01 0x1f 0x00; HC 0x38 0x01 0x1f 0x01 ];
  [ HC 0x02 0x01 0x7f 0x00; HC 0x09 0x01 0x7f 0x00; HC 0x17 0x01 0x7f 0x00; HC 0x28 0x01 0x7f 0x01;
    HC 0x02 0x01 0xdc 0x00; HC 0x09 0x01 0xdc 0x00; HC 0x17 0x01 0xdc 0x00; HC 0x28 0x01 0xdc 0x01;
    HC 0x02 0x01 0xf9 0x00; HC 0x09 0x01 0xf9 0x00; HC 0x17 0x01 0xf9 0x00; HC 0x28 0x01 0xf9 0x01;
    HC 0x00 0x01 0x0a 0x01; HC 0x00 0x01 0x0d 0x01; HC 0x00 0x01 0x16 0x01; HC 0xfa 0x00 0x00 0x00 ];
  [ HC 0x03 0x01 0x7f 0x00; HC 0x06 0x01 0x7f 0x00; HC 0x0a 0x01 0x7f 0x00; HC 0x0f 0x01 0x7f 0x00;
    HC 0x18 0x01 0x7f 0x00; HC 0x1f 0x01 0x7f 0x00; HC 0x29 0x01 0x7f 0x00; HC 0x38 0x01 0x7f 0x01;
    HC 0x03 0x01 0xdc 0x00; HC 0x06 0x01 0xdc 0x00; HC 0x0a 0x01 0xdc 0x00; HC 0x0f 0x01 0xdc 0x00;
    HC 0x18 0x01 0xdc 0x00; HC 0x1f 0x01 0xdc 0x00; HC 0x29 0x01 0xdc 0x00; HC 0x38 0x01 0xdc 0x01 ] ].

(* http/v2/ngx_http_v2_huff_decode.c:2598-2638 ngx_http_v2_huff_decode_codes: states 252 to 255 *)
Definition decode_rows_252 : list (list huff_decode_code) :=
[
  [ HC 0x03 0x01 0xf9 0x00; HC 0x06 0x01 0xf9 0x00; HC 0x0a 0x01 0xf9 0x00; HC 0x0f 0x01 0xf9 0x00;
    HC 0x18 0x01 0xf9 0x00; HC 0x1f 0x01 0xf9 0x00; HC 0x29 0x01 0xf9 0x00; HC 0x38 0x01 0xf9 0x01;
    HC 0x01 0x01 0x0a 0x00; HC 0x16 0x01 0x0a 0x01; HC 0x01 0x01 0x0d 0x00; HC 0x16 0x01 0x0d 0x01;
    HC 0x01 0x01 0x16 0x00; HC 0x16 0x01 0x16 0x01; HC 0xfc 0x00 0x00 0x00; HC 0xfc 0x00 0x00 0x00 ];
  [ HC 0x02 0x01 0x0a 0x00; HC 0x09 0x01 0x0a 0x00; HC 0x17 0x01 0x0a 0x00; HC 0x28 0x01 0x0a 0x01;
    HC 0x02 0x01 0x0d 0x00; HC 0x09 0x01 0x0d 0x00; HC 0x17 0x01 0x0d 0x00; HC 0x28 0x01 0x0d 0x01;
    HC 0x02 0x01 0x16 0x00; HC 0x09 0x01 0x16 0x00; HC 0x17 0x01 0x16 0x00; HC 0x28 0x01 0x16 0x01;
    HC 0xfd 0x00 0x00 0x00; HC 0xfd 0x00 0x00 0x00; HC 0xfd 0x00 0x00 0x00; HC 0xfd 0x00 0x00 0x00 ];
  [ HC 0x03 0x01 0x0a 0x00; HC 0x06 0x01 0x0a 0x00; HC 0x0a 0x01 0x0a 0x00; HC 0x0f 0x01 0x0a 0x00;
    HC 0x18 0x01 0x0a 0x00; HC 0x1f 0x01 0x0a 0x00; HC 0x29 0x01 0x0a 0x00; HC 0x38 0x01 0x0a 0x01;
    HC 0x03 0x01 0x0d 0x00; HC 0x06 0x01 0x0d 0x00; HC 0x0a 0x01 0x0d 0x00; HC 0x0f 0x01 0x0d 0x00;
    HC 0x18 0x01 0x0d 0x00; HC 0x1f 0x01 0x0d 0x00; HC 0x29 0x01 0x0d 0x00; HC 0x38 0x01 0x0d 0x01 ];
  [ HC 0x03 0x01 0x16 0x00; HC 0x06 0x01 0x16 0x00; HC 0x0a 0x01 0x16 0x00; HC 0x0f 0x01 0x16 0x00;
    HC 0x18 0x01 0x16 0x00; HC 0x1f 0x01 0x16 0x00; HC 0x29 0x01 0x16 0x00; HC 0x38 0x01 0x16 0x01;
    HC 0xff 0x00 0x00 0x00; HC 0xff 0x00 0x00 0x00; HC 0xff 0x00 0x00 0x00; HC 0xff 0x00 0x00 0x00;
    HC 0xff 0x00 0x00 0x00; HC 0xff 0x00 0x00 0x00; HC 0xff 0x00 0x00 0x00; HC 0xff 0x00 0x00 0x00 ] ].

(* http/v2/ngx_http_v2_huff_decode.c:25-26 ngx_http_v2_huff_decode_codes *)
Definition ngx_http_v2_huff_decode_codes : list (list huff_decode_code) :=
  decode_rows_0 ++
  decode_rows_14 ++
  decode_rows_28 ++
  decode_rows_42 ++
  decode_rows_56 ++
  decode_rows_70 ++
  decode_rows_84 ++
  decode_rows_98 ++
  decode_rows_112 ++
  decode_rows_126 ++
  decode_rows_140 ++
  decode_rows_154 ++
  decode_rows_168 ++
  decode_rows_182 ++
  decode_rows_196 ++
  decode_rows_210 ++
  decode_rows_224 ++
  decode_rows_238 ++
  decode_rows_252.

(** Code and length, by symbol. *)
(* http/v2/ngx_http_v2_huff_encode.c:20-86 ngx_http_v2_huff_encode_table *)
Definition ngx_http_v2_huff_encode_table : list (Z * Z) :=
  [ (0x00001ff8, 13); (0x007fffd8, 23); (0x0fffffe2, 28); (0x0fffffe3, 28);
    (0x0fffffe4, 28); (0x0fffffe5, 28); (0x0fffffe6, 28); (0x0fffffe7, 28);
    (0x0fffffe8, 28); (0x00ffffea, 24); (0x3ffffffc, 30); (0x0fffffe9, 28);
    (0x0fffffea, 28); (0x3ffffffd, 30); (0x0fffffeb, 28); (0x0fffffec, 28);
    (0x0fffffed, 28); (0x0fffffee, 28); (0x0fffffef, 28); (0x0ffffff0, 28);
    (0x0ffffff1, 28); (0x0ffffff2, 28); (0x3ffffffe, 30); (0x0ffffff3, 28);
    (0x0ffffff4, 28); (0x0ffffff5, 28); (0x0ffffff6, 28); (0x0ffffff7, 28);
    (0x0ffffff8, 28); (0x0ffffff9, 28); (0x0ffffffa, 28); (0x0ffffffb, 28);
    (0x00000014, 6); (0x000003f8, 10); (0x000003f9, 10); (0x00000ffa, 12);
    (0x00001ff9, 13); (0x00000015, 6); (0x000000f8, 8); (0x000007fa, 11);
    (0x000003fa, 10); (0x000003fb, 10); (0x000000f9, 8); (0x000007fb, 11);
    (0x000000fa, 8); (0x00000016, 6); (0x00000017, 6); (0x00000018, 6);
    (0x00000000, 5); (0x00000001, 5); (0x00000002, 5); (0x00000019, 6);
    (0x0000001a, 6); (0x0000001b, 6); (0x0000001c, 6); (0x0000001d, 6);
    (0x0000001e, 6); (0x0000001f, 6); (0x0000005c, 7); (0x000000fb, 8);
    (0x00007ffc, 15); (0x00000020, 6); (0x00000ffb, 12); (0x000003fc, 10);
    (0x00001ffa, 13); (0x00000021, 6); (0x0000005d, 7); (0x0000005e, 7);
    (0x0000005f, 7); (0x00000060, 7); (0x00000061, 7); (0x00000062, 7);
    (0x00000063, 7); (0x00000064, 7); (0x00000065, 7); (0x00000066, 7);
    (0x00000067, 7); (0x00000068, 7); (0x00000069, 7); (0x0000006a, 7);
    (0x0000006b, 7); (0x0000006c, 7); (0x0000006d, 7); (0x0000006e, 7);
    (0x0000006f, 7); (0x00000070, 7); (0x00000071, 7); (0x00000072, 7);
    (0x000000fc, 8); (0x00000073, 7); (0x000000fd, 8); (0x00001ffb, 13);
    (0x0007fff0, 19); (0x00001ffc, 13); (0x00003ffc, 14); (0x00000022, 6);
    (0x00007ffd, 15); (0x00000003, 5); (0x00000023, 6); (0x00000004, 5);
    (0x00000024, 6); (0x00000005, 5); (0x00000025, 6); (0x00000026, 6);
    (0x00000027, 6); (0x00000006, 5); (0x00000074, 7); (0x00000075, 7);
    (0x00000028, 6); (0x00000029, 6); (0x0000002a, 6); (0x00000007, 5);
    (0x0000002b, 6); (0x00000076, 7); (0x0000002c, 6); (0x00000008, 5);
    (0x00000009, 5); (0x0000002d, 6); (0x00000077, 7); (0x00000078, 7);
    (0x00000079, 7); (0x0000007a, 7); (0x0000007b, 7); (0x00007ffe, 15);
    (0x000007fc, 11); (0x00003ffd, 14); (0x00001ffd, 13); (0x0ffffffc, 28);
    (0x000fffe6, 20); (0x003fffd2, 22); (0x000fffe7, 20); (0x000fffe8, 20);
    (0x003fffd3, 22); (0x003fffd4, 22); (0x003fffd5, 22); (0x007fffd9, 23);
    (0x003fffd6, 22); (0x007fffda, 23); (0x007fffdb, 23); (0x007fffdc, 23);
    (0x007fffdd, 23); (0x007fffde, 23); (0x00ffffeb, 24); (0x007fffdf, 23);
    (0x00ffffec, 24); (0x00ffffed, 24); (0x003fffd7, 22); (0x007fffe0, 23);
    (0x00ffffee, 24); (0x007fffe1, 23); (0x007fffe2, 23); (0x007fffe3, 23);
    (0x007fffe4, 23); (0x001fffdc, 21); (0x003fffd8, 22); (0x007fffe5, 23);
    (0x003fffd9, 22); (0x007fffe6, 23); (0x007fffe7, 23); (0x00ffffef, 24);
    (0x003fffda, 22); (0x001fffdd, 21); (0x000fffe9, 20); (0x003fffdb, 22);
    (0x003fffdc, 22); (0x007fffe8, 23); (0x007fffe9, 23); (0x001fffde, 21);
    (0x007fffea, 23); (0x003fffdd, 22); (0x003fffde, 22); (0x00fffff0, 24);
    (0x001fffdf, 21); (0x003fffdf, 22); (0x007fffeb, 23); (0x007fffec, 23);
    (0x001fffe0, 21); (0x001fffe1, 21); (0x003fffe0, 22); (0x001fffe2, 21);
    (0x007fffed, 23); (0x003fffe1, 22); (0x007fffee, 23); (0x007fffef, 23);
    (0x000fffea, 20); (0x003fffe2, 22); (0x003fffe3, 22); (0x003fffe4, 22);
    (0x007ffff0, 23); (0x003fffe5, 22); (0x003fffe6, 22); (0x007ffff1, 23);
    (0x03ffffe0, 26); (0x03ffffe1, 26); (0x000fffeb, 20); (0x0007fff1, 19);
    (0x003fffe7, 22); (0x007ffff2, 23); (0x003fffe8, 22); (0x01ffffec, 25);
    (0x03ffffe2, 26); (0x03ffffe3, 26); (0x03ffffe4, 26); (0x07ffffde, 27);
    (0x07ffffdf, 27); (0x03ffffe5, 26); (0x00fffff1, 24); (0x01ffffed, 25);
    (0x0007fff2, 19); (0x001fffe3, 21); (0x03ffffe6, 26); (0x07ffffe0, 27);
    (0x07ffffe1, 27); (0x03ffffe7, 26); (0x07ffffe2, 27); (0x00fffff2, 24);
    (0x001fffe4, 21); (0x001fffe5, 21); (0x03ffffe8, 26); (0x03ffffe9, 26);
    (0x0ffffffd, 28); (0x07ffffe3, 27); (0x07ffffe4, 27); (0x07ffffe5, 27);
    (0x000fffec, 20); (0x00fffff3, 24); (0x000fffed, 20); (0x001fffe6, 21);
    (0x003fffe9, 22); (0x001fffe7, 21); (0x001fffe8, 21); (0x007ffff3, 23);
    (0x003fffea, 22); (0x003fffeb, 22); (0x01ffffee, 25); (0x01ffffef, 25);
    (0x00fffff4, 24); (0x00fffff5, 24); (0x03ffffea, 26); (0x007ffff4, 23);
    (0x03ffffeb, 26); (0x07ffffe6, 27); (0x03ffffec, 26); (0x03ffffed, 26);
    (0x07ffffe7, 27); (0x07ffffe8, 27); (0x07ffffe9, 27); (0x07ffffea, 27);
    (0x07ffffeb, 27); (0x0ffffffe, 28); (0x07ffffec, 27); (0x07ffffed, 27);
    (0x07ffffee, 27); (0x07ffffef, 27); (0x07fffff0, 27); (0x03ffffee, 26) ].

(** Code and length, by symbol. *)
(* http/v2/ngx_http_v2_huff_encode.c:90-156 ngx_http_v2_huff_encode_table_lc *)
Definition ngx_http_v2_huff_encode_table_lc : list (Z * Z) :=
  [ (0x00001ff8, 13); (0x007fffd8, 23); (0x0fffffe2, 28); (0x0fffffe3, 28);
    (0x0fffffe4, 28); (0x0fffffe5, 28); (0x0fffffe6, 28); (0x0fffffe7, 28);
    (0x0fffffe8, 28); (0x00ffffea, 24); (0x3ffffffc, 30); (0x0fffffe9, 28);
    (0x0fffffea, 28); (0x3ffffffd, 30); (0x0fffffeb, 28); (0x0fffffec, 28);
    (0x0fffffed, 28); (0x0fffffee, 28); (0x0fffffef, 28); (0x0ffffff0, 28);
    (0x0ffffff1, 28); (0x0ffffff2, 28); (0x3ffffffe, 30); (0x0ffffff3, 28);
    (0x0ffffff4, 28); (0x0ffffff5, 28); (0x0ffffff6, 28); (0x0ffffff7, 28);
    (0x0ffffff8, 28); (0x0ffffff9, 28); (0x0ffffffa, 28); (0x0ffffffb, 28);
    (0x00000014, 6); (0x000003f8, 10); (0x000003f9, 10); (0x00000ffa, 12);
    (0x00001ff9, 13); (0x00000015, 6); (0x000000f8, 8); (0x000007fa, 11);
    (0x000003fa, 10); (0x000003fb, 10); (0x000000f9, 8); (0x000007fb, 11);
    (0x000000fa, 8); (0x00000016, 6); (0x00000017, 6); (0x00000018, 6);
    (0x00000000, 5); (0x00000001, 5); (0x00000002, 5); (0x00000019, 6);
    (0x0000001a, 6); (0x0000001b, 6); (0x0000001c, 6); (0x0000001d, 6);
    (0x0000001e, 6); (0x0000001f, 6); (0x0000005c, 7); (0x000000fb, 8);
    (0x00007ffc, 15); (0x00000020, 6); (0x00000ffb, 12); (0x000003fc, 10);
    (0x00001ffa, 13); (0x00000003, 5); (0x00000023, 6); (0x00000004, 5);
    (0x00000024, 6); (0x00000005, 5); (0x00000025, 6); (0x00000026, 6);
    (0x00000027, 6); (0x00000006, 5); (0x00000074, 7); (0x00000075, 7);
    (0x00000028, 6); (0x00000029, 6); (0x0000002a, 6); (0x00000007, 5);
    (0x0000002b, 6); (0x00000076, 7); (0x0000002c, 6); (0x00000008, 5);
    (0x00000009, 5); (0x0000002d, 6); (0x00000077, 7); (0x00000078, 7);
    (0x00000079, 7); (0x0000007a, 7); (0x0000007b, 7); (0x00001ffb, 13);
    (0x0007fff0, 19); (0x00001ffc, 13); (0x00003ffc, 14); (0x00000022, 6);
    (0x00007ffd, 15); (0x00000003, 5); (0x00000023, 6); (0x00000004, 5);
    (0x00000024, 6); (0x00000005, 5); (0x00000025, 6); (0x00000026, 6);
    (0x00000027, 6); (0x00000006, 5); (0x00000074, 7); (0x00000075, 7);
    (0x00000028, 6); (0x00000029, 6); (0x0000002a, 6); (0x00000007, 5);
    (0x0000002b, 6); (0x00000076, 7); (0x0000002c, 6); (0x00000008, 5);
    (0x00000009, 5); (0x0000002d, 6); (0x00000077, 7); (0x00000078, 7);
    (0x00000079, 7); (0x0000007a, 7); (0x0000007b, 7); (0x00007ffe, 15);
    (0x000007fc, 11); (0x00003ffd, 14); (0x00001ffd, 13); (0x0ffffffc, 28);
    (0x000fffe6, 20); (0x003fffd2, 22); (0x000fffe7, 20); (0x000fffe8, 20);
    (0x003fffd3, 22); (0x003fffd4, 22); (0x003fffd5, 22); (0x007fffd9, 23);
    (0x003fffd6, 22); (0x007fffda, 23); (0x007fffdb, 23); (0x007fffdc, 23);
    (0x007fffdd, 23); (0x007fffde, 23); (0x00ffffeb, 24); (0x007fffdf, 23);
    (0x00ffffec, 24); (0x00ffffed, 24); (0x003fffd7, 22); (0x007fffe0, 23);
    (0x00ffffee, 24); (0x007fffe1, 23); (0x007fffe2, 23); (0x007fffe3, 23);
    (0x007fffe4, 23); (0x001fffdc, 21); (0x003fffd8, 22); (0x007fffe5, 23);
    (0x003fffd9, 22); (0x007fffe6, 23); (0x007fffe7, 23); (0x00ffffef, 24);
    (0x003fffda, 22); (0x001fffdd, 21); (0x000fffe9, 20); (0x003fffdb, 22);
    (0x003fffdc, 22); (0x007fffe8, 23); (0x007fffe9, 23); (0x001fffde, 21);
    (0x007fffea, 23); (0x003fffdd, 22); (0x003fffde, 22); (0x00fffff0, 24);
    (0x001fffdf, 21); (0x003fffdf, 22); (0x007fffeb, 23); (0x007fffec, 23);
    (0x001fffe0, 21); (0x001fffe1, 21); (0x003fffe0, 22); (0x001fffe2, 21);
    (0x007fffed, 23); (0x003fffe1, 22); (0x007fffee, 23); (0x007fffef, 23);
    (0x000fffea, 20); (0x003fffe2, 22); (0x003fffe3, 22); (0x003fffe4, 22);
    (0x007ffff0, 23); (0x003fffe5, 22); (0x003fffe6, 22); (0x007ffff1, 23);
    (0x03ffffe0, 26); (0x03ffffe1, 26); (0x000fffeb, 20); (0x0007fff1, 19);
    (0x003fffe7, 22); (0x007ffff2, 23); (0x003fffe8, 22); (0x01ffffec, 25);
    (0x03ffffe2, 26); (0x03ffffe3, 26); (0x03ffffe4, 26); (0x07ffffde, 27);
    (0x07ffffdf, 27); (0x03ffffe5, 26); (0x00fffff1, 24); (0x01ffffed, 25);
    (0x0007fff2, 19); (0x001fffe3, 21); (0x03ffffe6, 26); (0x07ffffe0, 27);
    (0x07ffffe1, 27); (0x03ffffe7, 26); (0x07ffffe2, 27); (0x00fffff2, 24);
    (0x001fffe4, 21); (0x001fffe5, 21); (0x03ffffe8, 26); (0x03ffffe9, 26);
    (0x0ffffffd, 28); (0x07ffffe3, 27); (0x07ffffe4, 27); (0x07ffffe5, 27);
    (0x000fffec, 20); (0x00fffff3, 24); (0x000fffed, 20); (0x001fffe6, 21);
    (0x003fffe9, 22); (0x001fffe7, 21); (0x001fffe8, 21); (0x007ffff3, 23);
    (0x003fffea, 22); (0x003fffeb, 22); (0x01ffffee, 25); (0x01ffffef, 25);
    (0x00fffff4, 24); (0x00fffff5, 24); (0x03ffffea, 26); (0x007ffff4, 23);
    (0x03ffffeb, 26); (0x07ffffe6, 27); (0x03ffffec, 26); (0x03ffffed, 26);
    (0x07ffffe7, 27); (0x07ffffe8, 27); (0x07ffffe9, 27); (0x07ffffea, 27);
    (0x07ffffeb, 27); (0x0ffffffe, 28); (0x07ffffec, 27); (0x07ffffed, 27);
    (0x07ffffee, 27); (0x07ffffef, 27); (0x07fffff0, 27); (0x03ffffee, 26) ].

(** The bits read so far in each state: their number and value. *)
Definition huff_prefix : list (nat * Z) :=
  [ (0%nat, 0x0); (1%nat, 0x0); (2%nat, 0x0); (3%nat, 0x0); (4%nat, 0x0); (4%nat, 0x1);
    (3%nat, 0x1); (4%nat, 0x2); (4%nat, 0x3); (2%nat, 0x1); (3%nat, 0x2); (4%nat, 0x4);
    (4%nat, 0x5); (5%nat, 0xa); (5%nat, 0xb); (3%nat, 0x3); (4%nat, 0x6); (5%nat, 0xc);
    (5%nat, 0xd); (4%nat, 0x7); (5%nat, 0xe); (5%nat, 0xf); (1%nat, 0x1); (2%nat, 0x2);
    (3%nat, 0x4); (4%nat, 0x8); (5%nat, 0x10); (5%nat, 0x11); (4%nat, 0x9); (5%nat, 0x12);
    (5%nat, 0x13); (3%nat, 0x5); (4%nat, 0xa); (5%nat, 0x14); (5%nat, 0x15); (4%nat, 0xb);
    (5%nat, 0x16); (5%nat, 0x17); (6%nat, 0x2e); (6%nat, 0x2f); (2%nat, 0x3); (3%nat, 0x6);
    (4%nat, 0xc); (5%nat, 0x18); (6%nat, 0x30); (6%nat, 0x31); (5%nat, 0x19); (6%nat, 0x32);
    (6%nat, 0x33); (4%nat, 0xd); (5%nat, 0x1a); (6%nat, 0x34); (6%nat, 0x35); (5%nat, 0x1b);
    (6%nat, 0x36); (6%nat, 0x37); (3%nat, 0x7); (4%nat, 0xe); (5%nat, 0x1c); (6%nat, 0x38);
    (6%nat, 0x39); (5%nat, 0x1d); (6%nat, 0x3a); (6%nat, 0x3b); (4%nat, 0xf); (5%nat, 0x1e);
    (6%nat, 0x3c); (6%nat, 0x3d); (5%nat, 0x1f); (6%nat, 0x3e); (7%nat, 0x7c); (7%nat, 0x7d);
    (6%nat, 0x3f); (7%nat, 0x7e); (7%nat, 0x7f); (8%nat, 0xfe); (9%nat, 0x1fc); (9%nat, 0x1fd);
    (8%nat, 0xff); (9%nat, 0x1fe); (10%nat, 0x3fd); (9%nat, 0x1ff); (10%nat, 0x3fe); (11%nat, 0x7fd);
    (10%nat, 0x3ff); (11%nat, 0x7fe); (12%nat, 0xffc); (12%nat, 0xffd); (11%nat, 0x7ff); (12%nat, 0xffe);
    (12%nat, 0xfff); (13%nat, 0x1ffe); (13%nat, 0x1fff); (14%nat, 0x3ffe); (14%nat, 0x3fff); (15%nat, 0x7fff);
    (16%nat, 0xfffe); (17%nat, 0x1fffc); (18%nat, 0x3fff8); (18%nat, 0x3fff9); (19%nat, 0x7fff3); (17%nat, 0x1fffd);
    (18%nat, 0x3fffa); (19%nat, 0x7fff4); (19%nat, 0x7fff5); (18%nat, 0x3fffb); (19%nat, 0x7fff6); (19%nat, 0x7fff7);
    (20%nat, 0xfffee); (20%nat, 0xfffef); (16%nat, 0xffff); (17%nat, 0x1fffe); (18%nat, 0x3fffc); (19%nat, 0x7fff8);
    (20%nat, 0xffff0); (20%nat, 0xffff1); (19%nat, 0x7fff9); (20%nat, 0xffff2); (20%nat, 0xffff3); (18%nat, 0x3fffd);
    (19%nat, 0x7fffa); (20%nat, 0xffff4); (21%nat, 0x1fffe9); (20%nat, 0xffff5); (21%nat, 0x1fffea); (21%nat, 0x1fffeb);
    (19%nat, 0x7fffb); (20%nat, 0xffff6); (21%nat, 0x1fffec); (21%nat, 0x1fffed); (20%nat, 0xffff7); (21%nat, 0x1fffee);
    (21%nat, 0x1fffef); (17%nat, 0x1ffff); (18%nat, 0x3fffe); (19%nat, 0x7fffc); (20%nat, 0xffff8); (21%nat, 0x1ffff0);
    (21%nat, 0x1ffff1); (20%nat, 0xffff9); (21%nat, 0x1ffff2); (21%nat, 0x1ffff3); (19%nat, 0x7fffd); (20%nat, 0xffffa);
    (21%nat, 0x1ffff4); (21%nat, 0x1ffff5); (20%nat, 0xffffb); (21%nat, 0x1ffff6); (22%nat, 0x3fffec); (22%nat, 0x3fffed);
    (21%nat, 0x1ffff7); (22%nat, 0x3fffee); (22%nat, 0x3fffef); (18%nat, 0x3ffff); (19%nat, 0x7fffe); (20%nat, 0xffffc);
    (21%nat, 0x1ffff8); (22%nat, 0x3ffff0); (22%nat, 0x3ffff1); (21%nat, 0x1ffff9); (22%nat, 0x3ffff2); (22%nat, 0x3ffff3);
    (20%nat, 0xffffd); (21%nat, 0x1ffffa); (22%nat, 0x3ffff4); (22%nat, 0x3ffff5); (21%nat, 0x1ffffb); (22%nat, 0x3ffff6);
    (22%nat, 0x3ffff7); (19%nat, 0x7ffff); (20%nat, 0xffffe); (21%nat, 0x1ffffc); (22%nat, 0x3ffff8); (22%nat, 0x3ffff9);
    (21%nat, 0x1ffffd); (22%nat, 0x3ffffa); (23%nat, 0x7ffff5); (22%nat, 0x3ffffb); (23%nat, 0x7ffff6); (23%nat, 0x7ffff7);
    (20%nat, 0xfffff); (21%nat, 0x1ffffe); (22%nat, 0x3ffffc); (23%nat, 0x7ffff8); (23%nat, 0x7ffff9); (22%nat, 0x3ffffd);
    (23%nat, 0x7ffffa); (23%nat, 0x7ffffb); (24%nat, 0xfffff6); (24%nat, 0xfffff7); (21%nat, 0x1fffff); (22%nat, 0x3ffffe);
    (23%nat, 0x7ffffc); (24%nat, 0xfffff8); (25%nat, 0x1fffff0); (25%nat, 0x1fffff1); (24%nat, 0xfffff9); (25%nat, 0x1fffff2);
    (25%nat, 0x1fffff3); (23%nat, 0x7ffffd); (24%nat, 0xfffffa); (25%nat, 0x1fffff4); (25%nat, 0x1fffff5); (24%nat, 0xfffffb);
    (25%nat, 0x1fffff6); (25%nat, 0x1fffff7); (26%nat, 0x3ffffef); (22%nat, 0x3fffff); (23%nat, 0x7ffffe); (24%nat, 0xfffffc);
    (25%nat, 0x1fffff8); (26%nat, 0x3fffff0); (26%nat, 0x3fffff1); (25%nat, 0x1fffff9); (26%nat, 0x3fffff2); (26%nat, 0x3fffff3);
    (24%nat, 0xfffffd); (25%nat, 0x1fffffa); (26%nat, 0x3fffff4); (26%nat, 0x3fffff5); (25%nat, 0x1fffffb); (26%nat, 0x3fffff6);
    (26%nat, 0x3fffff7); (23%nat, 0x7fffff); (24%nat, 0xfffffe); (25%nat, 0x1fffffc); (26%nat, 0x3fffff8); (27%nat, 0x7fffff1);
    (26%nat, 0x3fffff9); (27%nat, 0x7fffff2); (27%nat, 0x7fffff3); (25%nat, 0x1fffffd); (26%nat, 0x3fffffa); (27%nat, 0x7fffff4);
    (27%nat, 0x7fffff5); (26%nat, 0x3fffffb); (27%nat, 0x7fffff6); (27%nat, 0x7fffff7); (24%nat, 0xffffff); (25%nat, 0x1fffffe);
    (26%nat, 0x3fffffc); (27%nat, 0x7fffff8); (27%nat, 0x7fffff9); (26%nat, 0x3fffffd); (27%nat, 0x7fffffa); (27%nat, 0x7fffffb);
    (25%nat, 0x1ffffff); (26%nat, 0x3fffffe); (27%nat, 0x7fffffc); (27%nat, 0x7fffffd); (26%nat, 0x3ffffff); (27%nat, 0x7fffffe);
    (27%nat, 0x7ffffff); (28%nat, 0xfffffff); (29%nat, 0x1ffffffe); (29%nat, 0x1fffffff) ].
