(* ===== verification/Http2Huff.v ===== *)
(** * Http2Huff: the HPACK Huffman codec

    [ngx_http_v2_huff_decode] and [ngx_http_v2_huff_encode] of src/http/v2,
    over the tables of Http2HuffTables, and their correctness against the bit
    strings of the code. *)

From S2P Require Import Prelude NgxHashKey Http2HuffTables.

(** ** The decoder *)

(** The new [*state] and [*ending], and the byte emitted, if any; [None] for
    [NGX_ERROR]. *)
(* http/v2/ngx_http_v2_huff_decode.c:2694-2714 ngx_http_v2_huff_decode_bits *)
Definition ngx_http_v2_huff_decode_bits (state bits : Z) : option (Z * Z * list Z) :=
  let code := nth (Z.to_nat bits) (nth (Z.to_nat state) ngx_http_v2_huff_decode_codes [])
                (HC 0 0 0 0) in
  if next code =? state then None
  else Some (next code, ending code, if emit code =? 0 then [] else [sym code]).

(* http/v2/ngx_http_v2_huff_decode.c:2651-2675 ngx_http_v2_huff_decode: while (src != end) *)
Fixpoint huff_decode_loop (state ending : Z) (src : list Z) : option (Z * Z * list Z) :=
  match src with
  | [] => Some (state, ending, [])
  | ch :: src =>
      '(state, _, out1) ← ngx_http_v2_huff_decode_bits state (Z.shiftr ch 4);
      '(state, ending, out2) ← ngx_http_v2_huff_decode_bits state (Z.land ch 0xf);
      '(state, ending, out) ← huff_decode_loop state ending src;
      Some (state, ending, out1 ++ out2 ++ out)
  end.

(** The new [*state] and the bytes written to [*dst]. *)
(* http/v2/ngx_http_v2_huff_decode.c:2642-2690 ngx_http_v2_huff_decode *)
Definition ngx_http_v2_huff_decode (state : Z) (src : list Z) (last : bool)
  : option (Z * list Z) :=
  '(state, ending, out) ← huff_decode_loop state 1 src;
  if last then if ending =? 0 then None else Some (0, out) else Some (state, out).

(** ** The encoder *)

Definition NGX_PTR_SIZE : Z := 8.

(** The eight bytes of [buf], most significant first. *)
(* http/v2/ngx_http_v2_huff_encode.c:163-177 ngx_http_v2_huff_encode_buf *)
Definition ngx_http_v2_huff_encode_buf (buf : Z) : list Z :=
  (fun k => u8 (Z.shiftr buf k)) <$> [56; 48; 40; 32; 24; 16; 8; 0].

(** [do { pending -= 8; dst[hlen++] = buf >> pending; } while (pending)] for
    [n] bytes. *)
(* http/v2/ngx_http_v2_huff_encode.c:248-251 ngx_http_v2_huff_encode: do while *)
Fixpoint huff_encode_tail (n : nat) (buf : Z) : list Z :=
  match n with
  | O => []
  | S n => u8 (Z.shiftr buf (8 * Z.of_nat n)) :: huff_encode_tail n buf
  end.

(* http/v2/ngx_http_v2_huff_encode.c:232-254 ngx_http_v2_huff_encode: after the loop *)
Definition huff_encode_finish (len hlen buf pending : Z) : option (list Z) :=
  if pending =? 0 then Some []
  else
    let buf := Z.lor buf (Z.shiftr (2 ^ 64 - 1) pending) in
    let pending := (pending + 7) / 8 * 8 in
    if len <=? hlen + pending / 8 then None
    else
      let buf := Z.shiftr buf (64 - pending) in
      Some (huff_encode_tail (Z.to_nat (pending / 8)) buf).

(** The bytes written to [dst]; [None] for [return 0] where the result would
    not be shorter than the source. *)
(* http/v2/ngx_http_v2_huff_encode.c:205-230 ngx_http_v2_huff_encode: while (src != end) *)
Fixpoint huff_encode_loop (table : list (Z * Z)) (len hlen buf pending : Z) (src : list Z)
  : option (list Z) :=
  match src with
  | [] => huff_encode_finish len hlen buf pending
  | c :: src =>
      let '(code, clen) := nth (Z.to_nat c) table (0, 0) in
      let pending := pending + clen in
      if pending <? NGX_PTR_SIZE * 8 then
        huff_encode_loop table len hlen
          (Z.lor buf (u64 (Z.shiftl code (NGX_PTR_SIZE * 8 - pending)))) pending src
      else if len <=? hlen + NGX_PTR_SIZE then None
      else
        let pending := pending - NGX_PTR_SIZE * 8 in
        let out := ngx_http_v2_huff_encode_buf (Z.lor buf (Z.shiftr code pending)) in
        let buf := if pending =? 0 then 0
                   else u64 (Z.shiftl code (NGX_PTR_SIZE * 8 - pending)) in
        rest ← huff_encode_loop table len (hlen + NGX_PTR_SIZE) buf pending src;
        Some (out ++ rest)
  end.

(** The returned length is that of the list. *)
(* http/v2/ngx_http_v2_huff_encode.c:191-254 ngx_http_v2_huff_encode *)
Definition ngx_http_v2_huff_encode (src : list Z) (lower : bool) : list Z :=
  let table := if lower then ngx_http_v2_huff_encode_table_lc
               else ngx_http_v2_huff_encode_table in
  default [] (huff_encode_loop table (Z.of_nat (length src)) 0 0 0 src).

Example huff_example :
  let dst := ngx_http_v2_huff_encode (bytes "www.example.com") false in
  dst = [0xf1; 0xe3; 0xc2; 0xe5; 0xf2; 0x3a; 0x6b; 0xa0; 0xab; 0x90; 0xf4; 0xff] /\
  ngx_http_v2_huff_decode 0 dst true = Some (0, bytes "www.example.com").
Proof. split; vm_compute; reflexivity. Qed.

(** ** Bit strings *)

(** The [n] low bits of [v], most significant first. *)
Fixpoint bits (n : nat) (v : Z) : list bool :=
  match n with
  | O => []
  | S n => Z.testbit v (Z.of_nat n) :: bits n v
  end.

Definition byte_bits (l : list Z) : list bool := concat (bits 8 <$> l).
Definition nibble_bits (l : list Z) : list bool := concat (bits 4 <$> l).

(** The code of a symbol, and of a string. *)
Definition code_bits (c : Z) : list bool :=
  let '(code, len) := nth (Z.to_nat c) ngx_http_v2_huff_encode_table (0, 0) in
  bits (Z.to_nat len) code.
Definition codes (l : list Z) : list bool := concat (code_bits <$> l).

Definition ones (k : nat) : list bool := replicate k true.

Definition prefix_bits (s : Z) : list bool :=
  let '(n, v) := nth (Z.to_nat s) huff_prefix (O, 0) in bits n v.

(** [strip p l]: what follows [p] in [l], if [l] starts with [p]. *)
Fixpoint strip (p l : list bool) : option (list bool) :=
  match p, l with
  | [], _ => Some l
  | a :: p, b :: l => if eqb a b then strip p l else None
  | _, [] => None
  end.

Definition starts (p l : list bool) : bool := match strip p l with Some _ => true | None => false end.

Lemma strip_spec p l r : strip p l = Some r <-> l = p ++ r.
Proof.
  revert l. induction p as [|a p IH]; intros [|b l]; simpl; try (split; intros; by simplify_eq).
  destruct (eqb a b) eqn:E.
  - apply eqb_prop in E as ->. rewrite IH. split; intros; by simplify_eq.
  - split; [done|]. intros H. injection H as -> ->. by rewrite eqb_reflx in E.
Qed.

Lemma starts_spec p l : starts p l = true <-> exists r, l = p ++ r.
Proof.
  unfold starts. destruct (strip p l) as [r|] eqn:E.
  - split; [|done]. intros _. exists r. by apply strip_spec.
  - split; [done|]. intros [r Hr%strip_spec]. congruence.
Qed.

(** ** The tables, checked by evaluation *)

Definition comparable (p l : list bool) : bool := starts p l || starts l p.

(** The code is prefix-free, every code word has a zero and is shorter than 31
    bits, and the table of the lower-case encoder is that of the folded byte. *)
Definition code_ok (c : Z) : bool :=
  negb (forallb id (code_bits c)) && (length (code_bits c) <=? 30)%nat &&
  forallb (fun d => (c =? d) || negb (starts (code_bits c) (code_bits d))) all_bytes.

Lemma code_checked : forallb code_ok all_bytes = true.
Proof. vm_compute. reflexivity. Qed.

(** The prefix of a state: shorter than 30 bits, and proper for some code. *)
Definition prefix_ok (s : Z) : bool :=
  (length (prefix_bits s) <? 30)%nat &&
  existsb (fun c => starts (prefix_bits s) (code_bits c) &&
                    (length (prefix_bits s) <? length (code_bits c))%nat) all_bytes.

Lemma prefix_checked : forallb prefix_ok all_bytes = true.
Proof. vm_compute. reflexivity. Qed.

(** A transition reads its four bits: it fails exactly when no code is
    comparable with what has been read; otherwise the bits read are those of
    the emitted symbol, if any, and the prefix of the next state; [ending] says
    that this prefix consists of ones. *)
Definition transition_check (s n : Z) : bool :=
  let p := prefix_bits s ++ bits 4 n in
  match ngx_http_v2_huff_decode_bits s n with
  | None => forallb (fun c => negb (comparable (code_bits c) p)) all_bytes
  | Some (s', e, out) =>
      (0 <=? s') && (s' <? 256) && Bool.eqb (negb (e =? 0)) (forallb id (prefix_bits s')) &&
      match out with
      | [] => bool_decide (p = prefix_bits s')
      | [c] => bool_decide (p = code_bits c ++ prefix_bits s') && (0 <=? c) && (c <? 256)
      | _ => false
      end
  end.

Definition state_ok (s : Z) : bool := forallb (transition_check s) (seqZ 0 16).

Lemma transitions_checked : forallb state_ok all_bytes = true.
Proof. vm_compute. reflexivity. Qed.

Definition lower_ok (c : Z) : bool :=
  bool_decide (nth (Z.to_nat c) ngx_http_v2_huff_encode_table_lc (0, 0) =
    nth (Z.to_nat (ngx_tolower c)) ngx_http_v2_huff_encode_table (0, 0)).

Lemma lower_checked : forallb lower_ok all_bytes = true.
Proof. vm_compute. reflexivity. Qed.
Arguments bits : simpl never.

(** ** The code *)

Lemma code_facts c :
  is_byte c ->
  ~ (exists k, code_bits c = ones k) /\ (length (code_bits c) <= 30)%nat /\
  forall d r, is_byte d -> code_bits d = code_bits c ++ r -> d = c.
Proof.
  intros Hc. pose proof (forall_bytes code_ok c code_checked Hc) as H. unfold code_ok in H.
  rewrite !andb_true_iff in H. destruct H as [[H1 H2] H3]. split_and!.
  - intros [k Hk]. rewrite Hk in H1. apply negb_true_iff in H1.
    assert (forallb id (ones k) = true) by (clear; induction k; simpl; done). congruence.
  - by apply Nat.leb_le.
  - intros d r Hd Hr. pose proof (forall_bytes (fun d => (c =? d) || negb (starts (code_bits c) (code_bits d))) d H3 Hd)
      as H. cbv beta in H.
    apply orb_true_iff in H as [H|H]; [symmetry; by apply Z.eqb_eq|].
    apply negb_true_iff in H. assert (starts (code_bits c) (code_bits d) = true)
      by (apply starts_spec; eauto). congruence.
Qed.

Lemma prefix_facts s :
  is_byte s ->
  (length (prefix_bits s) < 30)%nat /\
  exists c r, is_byte c /\ code_bits c = prefix_bits s ++ r /\ r <> [].
Proof.
  intros Hs. pose proof (forall_bytes prefix_ok s prefix_checked Hs) as H. unfold prefix_ok in H.
  apply andb_true_iff in H as [H1 H2]. split; [by apply Nat.ltb_lt|].
  apply existsb_exists in H2 as (c & Hc & H2). apply list_elem_of_In, elem_of_seqZ in Hc.
  apply andb_true_iff in H2 as [H2 H3]. apply starts_spec in H2 as [r Hr].
  exists c, r. unfold is_byte. split_and!; [lia|lia|done|].
  intros ->. rewrite Hr, length_app, Nat.ltb_lt in H3. simpl in H3. lia.
Qed.

Lemma transition_facts s n :
  is_byte s -> 0 <= n < 16 -> transition_check s n = true.
Proof.
  intros Hs Hn. pose proof (forall_bytes state_ok s transitions_checked Hs) as H. unfold state_ok in H.
  rewrite forallb_forall in H. apply H, list_elem_of_In, elem_of_seqZ. lia.
Qed.

Lemma app_comparable (p q x y : list bool) : p ++ x = q ++ y -> comparable p q = true.
Proof.
  intros H. unfold comparable. apply orb_true_iff.
  destruct (app_eq_inv _ _ _ _ H) as [(k & -> & _)|(k & -> & _)].
  - right. apply starts_spec. eauto.
  - left. apply starts_spec. eauto.
Qed.

Lemma ones_app k l r : ones k = l ++ r -> l = ones (length l) /\ (length l <= k)%nat.
Proof.
  revert k. induction l as [|b l IH]; intros k H; [split; [done|simpl; lia]|].
  destruct k as [|k]; [done|]. unfold ones in *. simpl in *.
  injection H as <- H. apply IH in H as [Hl ?]. split; [by f_equal|lia].
Qed.

(** A bit string is, in at most one way, codes followed by a proper prefix of
    a code or by ones. *)
Lemma codes_ones_nil l k c r : is_byte c -> codes l ++ ones k = code_bits c ++ r -> l <> [].
Proof.
  intros Hc H ->. simpl in H. apply ones_app in H as [H _].
  destruct (code_facts c Hc) as [Hn _]. by destruct Hn; eauto.
Qed.

Lemma code_first c d x y :
  is_byte c -> is_byte d -> code_bits c ++ x = code_bits d ++ y -> c = d /\ x = y.
Proof.
  intros Hc Hd H. assert (c = d) as ->.
  { destruct (app_eq_inv _ _ _ _ H) as [(k & Hk & _)|(k & Hk & _)].
    - destruct (code_facts d Hd) as (_ & _ & Hp). by eapply Hp.
    - destruct (code_facts c Hc) as (_ & _ & Hp). symmetry. by eapply Hp. }
  split; [done|]. by apply app_inv_head in H.
Qed.

Lemma unique_parse l1 l2 k s :
  Forall is_byte l1 -> Forall is_byte l2 -> is_byte s ->
  codes l1 ++ ones k = codes l2 ++ prefix_bits s -> l1 = l2 /\ ones k = prefix_bits s.
Proof.
  intros Hb1. revert l2. induction Hb1 as [|c l1 Hc Hb1 IH]; intros l2 Hb2 Hs H.
  - destruct Hb2 as [|d l2 Hd Hb2]; [done|].
    unfold codes in H at 2. cbn [fmap list_fmap concat] in H. rewrite <- app_assoc in H.
    by apply (codes_ones_nil [] k d) in H.
  - destruct Hb2 as [|d l2 Hd Hb2].
    + destruct (prefix_facts s Hs) as (_ & e & r & He & Hr & Hne).
      unfold codes in H at 1. cbn [fmap list_fmap concat] in H.
      change (codes []) with (@nil bool) in H. cbn [app] in H. rewrite <- app_assoc in H.
      destruct (code_facts c Hc) as (_ & _ & Hp). rewrite <- H in Hr.
      assert (e = c) as -> by (eapply Hp; [done|]; rewrite Hr; by rewrite <- !app_assoc).
      exfalso. apply Hne. apply (f_equal length) in Hr. rewrite !length_app in Hr.
      apply nil_length_inv. lia.
    + unfold codes in H. cbn [fmap list_fmap concat] in H. rewrite <- !app_assoc in H.
      apply code_first in H as [-> H]; [|done|done].
      apply IH in H as [-> ?]; auto.
Qed.

(** ** The decoder *)

(** The nibbles of the source, and the run of the automaton over them. *)
Definition nibbles (l : list Z) : list Z := concat ((fun b => [Z.shiftr b 4; Z.land b 0xf]) <$> l).

Fixpoint run (s e : Z) (ns : list Z) : option (Z * Z * list Z) :=
  match ns with
  | [] => Some (s, e, [])
  | n :: ns =>
      '(s, e, out1) ← ngx_http_v2_huff_decode_bits s n;
      '(s, e, out) ← run s e ns; Some (s, e, out1 ++ out)
  end.

Lemma decode_loop_run src s e : huff_decode_loop s e src = run s e (nibbles src).
Proof.
  revert s e. induction src as [|b src IH]; intros s e; [done|].
  cbn [huff_decode_loop nibbles fmap list_fmap concat app run].
  destruct (ngx_http_v2_huff_decode_bits s _) as [[[s1 e1] o1]|]; [|done]. simpl.
  destruct (ngx_http_v2_huff_decode_bits s1 _) as [[[s2 e2] o2]|]; [|done]. simpl.
  rewrite IH. unfold nibbles.
  by destruct (run s2 e2 _) as [[[s3 e3] o3]|].
Qed.

(** Whether the state was reached by ones only. *)
Definition ends (s : Z) : bool := forallb id (prefix_bits s).

(** Soundness: what has been read is the codes of the output and the prefix of
    the state. *)
Lemma run_sound ns s e s' e' out :
  is_byte s -> Forall (fun n => 0 <= n < 16) ns -> run s e ns = Some (s', e', out) ->
  prefix_bits s ++ nibble_bits ns = codes out ++ prefix_bits s' /\
  is_byte s' /\ Forall is_byte out /\
  (negb (e =? 0) = ends s -> negb (e' =? 0) = ends s').
Proof.
  intros Hs Hns. revert s e Hs out. induction Hns as [|n ns Hn Hns IH]; intros s e Hs out Hr.
  - simplify_eq/=. by rewrite app_nil_r.
  - cbn [run] in Hr. pose proof (transition_facts s n Hs Hn) as Ht. unfold transition_check in Ht.
    destruct (ngx_http_v2_huff_decode_bits s n) as [[[s1 e1] o1]|]; [|done]. simpl in Hr.
    destruct (run s1 e1 ns) as [[[s2 e2] o2]|] eqn:E2; [|done]. simplify_eq/=.
    rewrite !andb_true_iff in Ht. destruct Ht as [[[Hlo Hhi] He] Ho].
    assert (is_byte s1) as Hs1 by (unfold is_byte; lia). apply eqb_prop in He.
    destruct (IH s1 e1 Hs1 o2 E2) as (Hb & Hs' & Hout & Hend).
    unfold nibble_bits in *. cbn [fmap list_fmap concat]. rewrite app_assoc.
    destruct o1 as [|c [|]]; [| |done].
    + apply bool_decide_eq_true in Ho. rewrite Ho, Hb. split_and!; auto.
    + rewrite !andb_true_iff in Ho. destruct Ho as [[Ho Hc1] Hc2].
      apply bool_decide_eq_true in Ho. rewrite Ho, <- app_assoc, Hb.
      unfold codes. cbn [fmap list_fmap concat app]. rewrite <- app_assoc.
      split_and!; auto. constructor; [unfold is_byte; lia|done].
Qed.

(** Completeness: a stream of codes with ones at its end is not refused. *)
Lemma run_complete ns s e rest l k :
  is_byte s -> Forall (fun n => 0 <= n < 16) ns -> Forall is_byte l -> (k < 30)%nat ->
  prefix_bits s ++ nibble_bits ns ++ rest = codes l ++ ones k -> is_Some (run s e ns).
Proof.
  intros Hs Hns Hl Hk. revert s e Hs l Hl. induction Hns as [|n ns Hn Hns IH]; intros s e Hs l Hl H.
  - eauto.
  - cbn [run]. pose proof (transition_facts s n Hs Hn) as Ht. unfold transition_check in Ht.
    unfold nibble_bits in *. cbn [fmap list_fmap concat] in H.
    rewrite <- app_assoc, app_assoc in H.
    destruct (ngx_http_v2_huff_decode_bits s n) as [[[s1 e1] o1]|].
    + rewrite !andb_true_iff in Ht. destruct Ht as [[[Hlo Hhi] He] Ho].
      assert (is_byte s1) as Hs1 by (unfold is_byte; lia). simpl.
      assert (is_Some (run s1 e1 ns)) as [[[s2 e2] o2] ->]; [|simpl; eauto].
      destruct o1 as [|c [|]]; [| |done].
      * apply bool_decide_eq_true in Ho. rewrite Ho in H. by eapply IH.
      * rewrite !andb_true_iff in Ho. destruct Ho as [[Ho Hc1] Hc2].
        apply bool_decide_eq_true in Ho. rewrite Ho, <- app_assoc in H.
        assert (is_byte c) as Hc by (unfold is_byte; lia).
        destruct Hl as [|d l Hd Hl]; [symmetry in H; by apply codes_ones_nil in H|].
        unfold codes in H. cbn [fmap list_fmap concat] in H. rewrite <- app_assoc in H.
        apply code_first in H as [-> H]; [|done|done]. by eapply (IH s1 e1 Hs1 l Hl).
    + exfalso. rewrite forallb_forall in Ht.
      assert (exists c x, is_byte c /\ (prefix_bits s ++ bits 4 n) ++ x = code_bits c ++ [] \/
        is_byte c /\ exists y, (prefix_bits s ++ bits 4 n) ++ x = code_bits c ++ y) as Hcmp.
      { destruct Hl as [|d l Hd Hl].
        - simpl in H. symmetry in H. apply ones_app in H as [H Hlen].
          rewrite H. set (m := length _) in *.
          exists 22, (drop m (code_bits 22)). left. split; [unfold is_byte; lia|].
          rewrite app_nil_r. rewrite <- (take_drop m (code_bits 22)) at 2. f_equal.
          assert (m < 30)%nat as Hm by lia. clear -Hm.
          do 30 (destruct m as [|m]; [reflexivity|]). lia.
        - unfold codes in H. cbn [fmap list_fmap concat] in H. rewrite <- !app_assoc in H.
          exists d, ((concat (bits 4 <$> ns)) ++ rest). right. split; [done|].
          eexists. rewrite <- app_assoc. exact H. }
      destruct Hcmp as (c & x & [[Hc Hx]|[Hc [y Hx]]]); apply app_comparable in Hx;
        specialize (Ht c); rewrite negb_true_iff in Ht;
        (assert (comparable (code_bits c) (prefix_bits s ++ bits 4 n) = false) as Hf
          by (apply Ht, list_elem_of_In, elem_of_seqZ; unfold is_byte in Hc; lia));
        unfold comparable in *; rewrite orb_comm in Hf; congruence.
Qed.

Lemma nibble_byte b : bits 4 (Z.shiftr b 4) ++ bits 4 (Z.land b 15) = bits 8 b.
Proof.
  unfold bits. cbn [app Z.of_nat]. rewrite !Z.shiftr_spec, !Z.land_spec by lia.
  cbn [Pos.of_succ_nat Z.of_nat]. by rewrite !andb_true_r.
Qed.

Lemma nibbles_bits src : nibble_bits (nibbles src) = byte_bits src.
Proof.
  induction src as [|b src IH]; [done|].
  unfold nibble_bits, nibbles, byte_bits in *. cbn [fmap list_fmap concat app].
  rewrite IH, app_assoc. by rewrite nibble_byte.
Qed.

Lemma nibbles_range src : Forall is_byte src -> Forall (fun n => 0 <= n < 16) (nibbles src).
Proof.
  intros Hb. unfold nibbles. induction Hb as [|b src Hc Hb IH]; simpl; [constructor|].
  unfold is_byte in Hc. change 15 with (2 ^ 4 - 1). rewrite land_ones_mod by lia.
  rewrite Z.shiftr_div_pow2 by lia. change (2 ^ 4) with 16.
  constructor; [split; [apply Z.div_pos|apply Z.div_lt_upper_bound]; lia|].
  constructor; [apply Z.mod_pos_bound; lia|done].
Qed.

Lemma forallb_ones l : forallb id l = true -> l = ones (length l).
Proof.
  unfold ones. induction l as [|[] l IH]; simpl; [done| |done]. intros H. f_equal. auto.
Qed.

Lemma huff_decode_iff src out :
  Forall is_byte src ->
  ngx_http_v2_huff_decode 0 src true = Some (0, out) <->
  Forall is_byte out /\ exists k, (k < 30)%nat /\ byte_bits src = codes out ++ ones k.
Proof.
  intros Hb. assert (is_byte 0) as H0 by (unfold is_byte; lia).
  pose proof (nibbles_range src Hb) as Hn.
  unfold ngx_http_v2_huff_decode. rewrite decode_loop_run. split.
  - destruct (run 0 1 (nibbles src)) as [[[s e] o]|] eqn:E; simpl; [|done].
    destruct (Z.eqb_spec e 0) as [|He]; [done|]. intros; simplify_eq.
    destruct (run_sound _ _ _ _ _ _ H0 Hn E) as (Hbits & Hs & Ho & Hend).
    split; [done|]. rewrite nibbles_bits in Hbits. change (prefix_bits 0) with (@nil bool) in Hbits.
    assert (ends s = true) as Hones by (rewrite <- Hend; [by destruct (Z.eqb_spec e 0)|done]).
    apply forallb_ones in Hones. exists (length (prefix_bits s)).
    split; [by apply prefix_facts|]. by rewrite <- Hones.
  - intros (Ho & k & Hk & Hbits).
    destruct (run_complete (nibbles src) 0 1 [] out k H0 Hn Ho Hk) as [[[s e] o] E].
    { rewrite app_nil_r, nibbles_bits. exact Hbits. }
    rewrite E. simpl. destruct (run_sound _ _ _ _ _ _ H0 Hn E) as (Hbits' & Hs & Ho' & Hend).
    rewrite nibbles_bits in Hbits'. change (prefix_bits 0) with (@nil bool) in Hbits'.
    cbn [app] in Hbits'. rewrite Hbits in Hbits'.
    apply unique_parse in Hbits' as [-> Hp]; [|done|done|done].
    specialize (Hend eq_refl). unfold ends in Hend. rewrite <- Hp in Hend.
    assert (forallb id (ones k) = true) as Hf by (clear; unfold ones; induction k; simpl; done).
    rewrite Hf in Hend. by destruct (e =? 0).
Qed.

(** The decoder accepts exactly the codes of a string followed by ones, fewer
    than the thirty of the end-of-string code, and yields that string. *)
Theorem huff_decode_spec src out :
  Forall is_byte src ->
  ngx_http_v2_huff_decode 0 src true = Some (0, out) <->
  Forall is_byte out /\ exists k, (k < 30)%nat /\ byte_bits src = codes out ++ ones k.
Proof. apply huff_decode_iff. Qed.

Lemma huff_decode_spec_witness :
  ngx_http_v2_huff_decode 0 [0x1f; 0xff] true = Some (0, bytes "a") <->
  Forall is_byte (bytes "a") /\
  exists k, (k < 30)%nat /\ byte_bits [0x1f; 0xff] = codes (bytes "a") ++ ones k.
Proof. apply huff_decode_spec. by_decide. Defined.

(** The limit on the padding is that of the table, not the seven bits of
    RFC 7541, section 5.2, which makes longer padding an error. *)
Theorem huff_decode_long_padding :
  ngx_http_v2_huff_decode 0 [0xff; 0xff; 0xff] true = Some (0, []).
Proof. vm_compute. reflexivity. Qed.

Lemma decode_loop_app s e a b :
  huff_decode_loop s e (a ++ b) =
  ('(s1, e1, o1) ← huff_decode_loop s e a;
   '(s2, e2, o2) ← huff_decode_loop s1 e1 b; Some (s2, e2, o1 ++ o2)).
Proof.
  revert s e. induction a as [|c a IH]; intros s e.
  - simpl. by destruct (huff_decode_loop s e b) as [[[? ?] ?]|].
  - cbn [huff_decode_loop app].
    destruct (ngx_http_v2_huff_decode_bits s _) as [[[s1 e1] o1]|]; [|done]. cbn [mbind option_bind].
    destruct (ngx_http_v2_huff_decode_bits s1 _) as [[[s2 e2] o2]|]; [|done]. cbn [mbind option_bind].
    rewrite IH. destruct (huff_decode_loop s2 e2 a) as [[[s3 e3] o3]|]; [|done]. simpl.
    destruct (huff_decode_loop s3 e3 b) as [[[s4 e4] o4]|]; [|done]. simpl.
    by rewrite <- !app_assoc.
Qed.

Lemma decode_loop_ending s e1 e2 c a : huff_decode_loop s e1 (c :: a) = huff_decode_loop s e2 (c :: a).
Proof. done. Qed.

Lemma huff_decode_app s a b last :
  b <> [] ->
  ngx_http_v2_huff_decode s (a ++ b) last =
  ('(s1, o1) ← ngx_http_v2_huff_decode s a false;
   '(s2, o2) ← ngx_http_v2_huff_decode s1 b last; Some (s2, o1 ++ o2)).
Proof.
  intros Hb. unfold ngx_http_v2_huff_decode. rewrite decode_loop_app.
  destruct (huff_decode_loop s 1 a) as [[[s1 e1] o1]|]; [|done]. cbn [mbind option_bind].
  destruct b as [|c b]; [done|]. rewrite (decode_loop_ending s1 1 e1).
  destruct (huff_decode_loop s1 e1 (c :: b)) as [[[s2 e2] o2]|]; [|done]. simpl.
  destruct last; [|done]. by destruct (e2 =? 0).
Qed.

(** A header string that arrives in pieces: decoding continues in the saved
    state as if the pieces were one, when the last piece is not empty. *)
Theorem huff_decode_pieces s a b last :
  b <> [] ->
  ngx_http_v2_huff_decode s (a ++ b) last =
  ('(s1, o1) ← ngx_http_v2_huff_decode s a false;
   '(s2, o2) ← ngx_http_v2_huff_decode s1 b last; Some (s2, o1 ++ o2)).
Proof. apply huff_decode_app. Qed.

Lemma huff_decode_pieces_witness :
  ngx_http_v2_huff_decode 0 ([0xf1; 0xe3] ++ [0xc2; 0xe5]) false =
  ('(s1, o1) ← ngx_http_v2_huff_decode 0 [0xf1; 0xe3] false;
   '(s2, o2) ← ngx_http_v2_huff_decode s1 [0xc2; 0xe5] false; Some (s2, o1 ++ o2)).
Proof. by apply huff_decode_pieces. Defined.

(** ** The encoder *)

Lemma bits_S n v : bits (S n) v = Z.testbit v (Z.of_nat n) :: bits n v.
Proof. reflexivity. Qed.

Lemma bits_ext n a b : (forall i, 0 <= i < Z.of_nat n -> Z.testbit a i = Z.testbit b i) ->
  bits n a = bits n b.
Proof.
  induction n as [|n IH]; intros H; [done|]. rewrite !bits_S.
  rewrite (H (Z.of_nat n)) by lia. f_equal. apply IH. intros i Hi. apply H. lia.
Qed.

Lemma bits_split n m v : bits (n + m) v = bits n (Z.shiftr v (Z.of_nat m)) ++ bits m v.
Proof.
  induction n as [|n IH]; [done|]. rewrite Nat.add_succ_l, !bits_S.
  rewrite IH, Z.shiftr_spec by lia. cbn [app]. f_equal. f_equal. lia.
Qed.

Lemma bits_length n v : length (bits n v) = n.
Proof. induction n as [|n IH]; [done|]. rewrite bits_S. simpl. by rewrite IH. Qed.

(** Disjoint fields: the high one is [v], the low one [w]. *)
Lemma bits_field n m v w :
  0 <= w < 2 ^ Z.of_nat m -> bits (n + m) (v * 2 ^ Z.of_nat m + w) = bits n v ++ bits m w.
Proof.
  intros Hw. rewrite bits_split. f_equal.
  - f_equal. rewrite Z.shiftr_div_pow2 by lia. rewrite Z.div_add_l by lia.
    rewrite (Z.div_small w) by lia. lia.
  - apply bits_ext. intros i Hi.
    rewrite <- (Z.mod_pow2_bits_low (v * 2 ^ Z.of_nat m + w) (Z.of_nat m)) by lia.
    rewrite Z.add_comm, Z_mod_plus_full. by rewrite Z.mod_small.
Qed.

Lemma bits_u8 v : bits 8 (u8 v) = bits 8 v.
Proof. apply bits_ext. intros i Hi. unfold u8. by rewrite Z.mod_pow2_bits_low by lia. Qed.

Lemma bits_ones n : bits n (2 ^ Z.of_nat n - 1) = ones n.
Proof.
  assert (forall k, (k <= n)%nat -> bits k (2 ^ Z.of_nat n - 1) = ones k) as H; [|by apply H].
  induction k as [|k IH]; intros Hk; [done|]. rewrite bits_S.
  rewrite IH by lia. unfold ones. simpl. f_equal.
  rewrite Z.sub_1_r, <- Z.ones_equiv. apply Z.ones_spec_low. lia.
Qed.

Lemma tail_bits n v : byte_bits (huff_encode_tail n v) = bits (8 * n) v.
Proof.
  induction n as [|n IH]; [done|]. unfold byte_bits in *. cbn [huff_encode_tail fmap list_fmap concat].
  rewrite IH, bits_u8. replace (8 * S n)%nat with (8 + 8 * n)%nat by lia.
  rewrite bits_split. by replace (Z.of_nat (8 * n)) with (8 * Z.of_nat n) by lia.
Qed.

Lemma tail_length n v : length (huff_encode_tail n v) = n.
Proof. induction n as [|n IH]; simpl; auto. Qed.

Lemma buf_tail v : ngx_http_v2_huff_encode_buf v = huff_encode_tail 8 v.
Proof. reflexivity. Qed.

Lemma tail_bytes n v : Forall is_byte (huff_encode_tail n v).
Proof.
  induction n as [|n IH]; simpl; [constructor|]. constructor; [|done].
  apply Z.mod_pos_bound. lia.
Qed.

(** A table that maps every byte to the code of [f] of that byte. *)
Definition entry (table : list (Z * Z)) (c : Z) : Z * Z := nth (Z.to_nat c) table (0, 0).

Definition entry_ok (c : Z) : bool :=
  let '(code, len) := entry ngx_http_v2_huff_encode_table c in
  (0 <=? code) && (code <? 2 ^ len) && (0 <? len) && (len <=? 30).

Lemma entries_checked : forallb entry_ok all_bytes = true.
Proof. vm_compute. reflexivity. Qed.

Lemma entry_facts c :
  is_byte c ->
  let '(code, len) := entry ngx_http_v2_huff_encode_table c in
  0 <= code < 2 ^ len /\ 0 < len <= 30 /\ code_bits c = bits (Z.to_nat len) code.
Proof.
  intros Hc. pose proof (forall_bytes entry_ok c entries_checked Hc) as H. unfold entry_ok in H.
  unfold code_bits. fold (entry ngx_http_v2_huff_encode_table c).
  destruct (entry _ c) as [code len]. rewrite !andb_true_iff in H. split_and!; [lia..|done].
Qed.

(** The bits that wait in [buf], and the bytes the encoder still has to write
    for [n] bits. *)
Definition waiting (buf pending : Z) (v : Z) : Prop :=
  0 <= pending < 64 /\ 0 <= v < 2 ^ pending /\ buf = v * 2 ^ (64 - pending).

Definition bytes_for (n : Z) : Z := (n + 7) / 8.

(** What the encoder returns for the bits [b] that are not written yet. *)
Definition encodes (len hlen : Z) (b : list bool) (res : option (list Z)) : Prop :=
  match res with
  | Some out =>
      Forall is_byte out /\ exists k, (k < 8)%nat /\ byte_bits out = b ++ ones k /\
      Z.of_nat (length out) = bytes_for (Z.of_nat (length b)) /\
      (out <> [] -> hlen + Z.of_nat (length out) < len)
  | None => len <= hlen + bytes_for (Z.of_nat (length b))
  end.

Lemma encode_finish_spec len hlen buf pending v :
  waiting buf pending v ->
  encodes len hlen (bits (Z.to_nat pending) v) (huff_encode_finish len hlen buf pending).
Proof.
  intros (Hp & Hv & ->). unfold huff_encode_finish, encodes, bytes_for.
  destruct (Z.eqb_spec pending 0) as [->|Hne].
  { split; [constructor|]. exists O. simpl. split_and!; try done; lia. }
  rewrite bits_length, Z2Nat.id by lia.
  set (P := (pending + 7) / 8). rewrite Z.div_mul by lia.
  assert (HP : pending <= 8 * P < pending + 8 /\ 0 < P <= 8).
  { unfold P. pose proof (Z.div_mod (pending + 7) 8 ltac:(lia)).
    pose proof (Z.mod_pos_bound (pending + 7) 8 ltac:(lia)). lia. }
  destruct (Z.leb_spec len (hlen + P)); [lia|]. split; [apply tail_bytes|].
  exists (Z.to_nat (8 * P - pending)). rewrite tail_bits, tail_length, Z2Nat.id by lia.
  split_and!; [lia| |lia|lia].
  set (a := 64 - pending). set (q := 8 * P - pending).
  assert (Hfill : Z.shiftr (2 ^ 64 - 1) pending = 2 ^ a - 1).
  { rewrite Z.shiftr_div_pow2 by lia.
    replace (2 ^ 64 - 1) with ((2 ^ a - 1) * 2 ^ pending + (2 ^ pending - 1)).
    2: { rewrite Z.mul_sub_distr_r, <- Z.pow_add_r by lia.
         replace (a + pending) with 64 by lia. lia. }
    rewrite Z.div_add_l by lia. rewrite (Z.div_small (2 ^ pending - 1)) by lia. lia. }
  rewrite Hfill.
  assert (Hpa : 0 < 2 ^ a) by lia.
  rewrite <- Z.shiftl_mul_pow2, lor_shiftl_add by lia.
  assert (Hsh : Z.shiftr (v * 2 ^ a + (2 ^ a - 1)) (64 - P * 8) = v * 2 ^ q + (2 ^ q - 1)).
  { rewrite Z.shiftr_div_pow2 by lia. set (b := 64 - P * 8).
    assert (2 ^ a = 2 ^ q * 2 ^ b) as ->
      by (rewrite <- Z.pow_add_r by lia; f_equal; lia).
    assert (0 < 2 ^ b) by lia.
    replace (v * (2 ^ q * 2 ^ b) + (2 ^ q * 2 ^ b - 1))
      with ((v * 2 ^ q + (2 ^ q - 1)) * 2 ^ b + (2 ^ b - 1)) by lia.
    rewrite Z.div_add_l by lia. rewrite (Z.div_small (2 ^ b - 1)) by lia. lia. }
  rewrite Hsh. replace (8 * Z.to_nat P)%nat with (Z.to_nat pending + Z.to_nat q)%nat by lia.
  assert (0 < 2 ^ q) by lia.
  rewrite <- (Z2Nat.id q) at 2 3 by lia. rewrite bits_field.
  - by rewrite bits_ones.
  - rewrite Z2Nat.id by lia. lia.
Qed.

(** The symbols' codes under a table. *)
Definition table_codes (table : list (Z * Z)) (l : list Z) : list bool :=
  concat ((fun c => bits (Z.to_nat (entry table c).2) (entry table c).1) <$> l).

Definition table_ok (table : list (Z * Z)) : Prop :=
  forall c, is_byte c -> 0 <= (entry table c).1 < 2 ^ (entry table c).2 /\ 0 < (entry table c).2 <= 30.

(** Adding a code that fits into [buf]. *)
Lemma waiting_add buf p v code cl :
  waiting buf p v -> 0 <= code < 2 ^ cl -> 0 < cl -> p + cl < 64 ->
  waiting (Z.lor buf (u64 (Z.shiftl code (64 - (p + cl))))) (p + cl) (v * 2 ^ cl + code).
Proof.
  intros (Hp & Hv & ->) Hc Hl Hs. set (d := 64 - (p + cl)).
  assert (H1 : 2 ^ (64 - p) = 2 ^ cl * 2 ^ d) by (rewrite <- Z.pow_add_r by lia; f_equal; lia).
  assert (H2 : 2 ^ (p + cl) = 2 ^ p * 2 ^ cl) by (by rewrite Z.pow_add_r by lia).
  assert (H3 : 2 ^ 64 = 2 ^ p * (2 ^ cl * 2 ^ d))
    by (rewrite <- !Z.pow_add_r by lia; f_equal; lia).
  assert (0 < 2 ^ d /\ 0 < 2 ^ cl /\ 0 < 2 ^ p) as (? & ? & ?) by lia.
  assert (Hcd : 0 <= code * 2 ^ d < 2 ^ (64 - p)).
  { rewrite H1. split; [lia|]. apply Z.mul_lt_mono_pos_r; lia. }
  assert (Hvc : v * 2 ^ cl <= (2 ^ p - 1) * 2 ^ cl) by (apply Z.mul_le_mono_nonneg_r; lia).
  rewrite Z.shiftl_mul_pow2 by lia. unfold u64. rewrite Z.mod_small.
  2: { rewrite H3, <- H1. split; [lia|].
       assert (1 * 2 ^ (64 - p) <= 2 ^ p * 2 ^ (64 - p)) by (apply Z.mul_le_mono_nonneg_r; lia).
       lia. }
  rewrite <- Z.shiftl_mul_pow2, lor_shiftl_add by lia. rewrite H1.
  split_and!; [lia|lia|lia|lia|fold d; ring].
Qed.

(** Writing a full [buf], with the high part of a code; its low bits wait. *)
Lemma waiting_flush buf p v code cl :
  waiting buf p v -> 0 <= code < 2 ^ cl -> 0 < cl <= 30 -> 64 <= p + cl ->
  let m := p + cl - 64 in
  byte_bits (ngx_http_v2_huff_encode_buf (Z.lor buf (Z.shiftr code m))) ++
    bits (Z.to_nat m) (code `mod` 2 ^ m) = bits (Z.to_nat p) v ++ bits (Z.to_nat cl) code /\
  waiting (if m =? 0 then 0 else u64 (Z.shiftl code (64 - m))) m (code `mod` 2 ^ m).
Proof.
  intros (Hp & Hv & ->) Hc Hl Hs m.
  assert (Hm : 0 <= m < cl) by lia. assert (0 < 2 ^ m) by lia.
  assert (H1 : 2 ^ cl = 2 ^ (64 - p) * 2 ^ m) by (rewrite <- Z.pow_add_r by lia; f_equal; lia).
  assert (Hhi : 0 <= code / 2 ^ m < 2 ^ (64 - p)).
  { split; [apply Z.div_pos; lia|apply Z.div_lt_upper_bound; lia]. }
  pose proof (Z.mod_pos_bound code (2 ^ m) ltac:(lia)) as Hlo.
  split.
  - rewrite buf_tail, tail_bits. rewrite Z.shiftr_div_pow2 by lia.
    rewrite <- Z.shiftl_mul_pow2, lor_shiftl_add by lia.
    replace (8 * 8)%nat with (Z.to_nat p + Z.to_nat (64 - p))%nat by lia.
    rewrite <- (Z2Nat.id (64 - p)) at 2 by lia.
    rewrite bits_field by (rewrite Z2Nat.id by lia; lia).
    rewrite <- app_assoc. f_equal.
    replace (Z.to_nat cl) with (Z.to_nat (64 - p) + Z.to_nat m)%nat by lia.
    rewrite bits_split, Z.shiftr_div_pow2, Z2Nat.id by lia. f_equal. symmetry.
    apply bits_ext. intros i Hi. by rewrite Z.mod_pow2_bits_low by lia.
  - destruct (Z.eqb_spec m 0) as [->|].
    + rewrite Z.pow_0_r, Z.mod_1_r. split_and!; lia.
    + split_and!; [lia|lia|lia|lia|]. unfold u64. rewrite Z.shiftl_mul_pow2 by lia.
      replace (2 ^ 64) with (2 ^ m * 2 ^ (64 - m)) by (rewrite <- Z.pow_add_r by lia; f_equal; lia).
      by rewrite Zmult_mod_distr_r.
Qed.

Lemma bytes_for_flush n : bytes_for (64 + n) = 8 + bytes_for n.
Proof. unfold bytes_for. replace (64 + n + 7) with (n + 7 + 8 * 8) by lia. rewrite Z.div_add by lia. lia. Qed.

Lemma encode_loop_spec table len src : forall hlen buf p v,
  table_ok table -> Forall is_byte src -> waiting buf p v ->
  encodes len hlen (bits (Z.to_nat p) v ++ table_codes table src)
    (huff_encode_loop table len hlen buf p src).
Proof.
  induction src as [|c src IH]; intros hlen buf p v Ht Hb Hw.
  - simpl. rewrite app_nil_r. by apply encode_finish_spec.
  - inversion Hb as [|? ? Hc Hb']; subst. cbn [huff_encode_loop]. fold (entry table c).
    destruct (Ht c Hc) as [Hcode Hlen].
    unfold table_codes. cbn [fmap list_fmap concat]. fold (table_codes table src).
    destruct (entry table c) as [code cl]. cbn [fst snd] in *. unfold NGX_PTR_SIZE.
    change (8 * 8) with 64. pose proof Hw as (Hp & Hv & Hbuf).
    assert (Hjoin : bits (Z.to_nat (p + cl)) (v * 2 ^ cl + code) =
      bits (Z.to_nat p) v ++ bits (Z.to_nat cl) code).
    { replace (Z.to_nat (p + cl)) with (Z.to_nat p + Z.to_nat cl)%nat by lia.
      rewrite <- (Z2Nat.id cl) at 2 by lia. apply bits_field. rewrite Z2Nat.id by lia. lia. }
    destruct (Z.ltb_spec (p + cl) 64) as [Hlt|Hge].
    + rewrite app_assoc, <- Hjoin. apply IH; [done|done|]. apply waiting_add; lia || done.
    + destruct (waiting_flush buf p v code cl Hw Hcode Hlen Hge) as [Hbits Hw'].
      cbv zeta in Hbits, Hw'. set (m := p + cl - 64) in *.
      specialize (IH (hlen + 8) _ m _ Ht Hb' Hw').
      assert (Hn : Z.of_nat (length (bits (Z.to_nat p) v ++ bits (Z.to_nat cl) code ++ table_codes table src))
        = 64 + Z.of_nat (length (bits (Z.to_nat m) (code `mod` 2 ^ m) ++ table_codes table src))).
      { rewrite !length_app, !bits_length. lia. }
      unfold encodes. rewrite Hn, bytes_for_flush.
      set (rest := Z.of_nat (length (bits (Z.to_nat m) (code `mod` 2 ^ m) ++ table_codes table src))) in *.
      assert (0 <= bytes_for rest) by (unfold bytes_for; apply Z.div_pos; lia).
      destruct (Z.leb_spec len (hlen + 8)); [lia|].
      destruct (huff_encode_loop table len (hlen + 8) _ m src) as [out|];
        cbn [mbind option_bind]; unfold encodes in IH.
      * destruct IH as (Hob & k & Hk & Hout & Hol & Hfit).
        split; [apply Forall_app; split; [rewrite buf_tail; apply tail_bytes|done]|]. exists k.
        assert (H8 : length (ngx_http_v2_huff_encode_buf (Z.lor buf (Z.shiftr code m))) = 8%nat) by done.
        rewrite length_app, H8. fold rest in Hol.
        split_and!; [done| |lia|].
        -- unfold byte_bits in *. rewrite fmap_app, concat_app, Hout.
           rewrite !app_assoc in *. by rewrite Hbits.
        -- intros _. destruct out as [|b out]; [simpl; lia|]. specialize (Hfit ltac:(done)). lia.
      * fold rest in IH. lia.
Qed.

Lemma encode_table_ok : table_ok ngx_http_v2_huff_encode_table.
Proof.
  intros c Hc. pose proof (entry_facts c Hc) as H. destruct (entry _ c). simpl. tauto.
Qed.

Lemma encode_table_codes l :
  Forall is_byte l -> table_codes ngx_http_v2_huff_encode_table l = codes l.
Proof.
  intros Hb. unfold table_codes, codes. f_equal. induction Hb as [|c l Hc Hb IH]; [done|].
  cbn [fmap list_fmap]. f_equal; [|exact IH]. pose proof (entry_facts c Hc) as H.
  destruct (entry _ c). simpl. by destruct H as (_ & _ & ->).
Qed.

Lemma lower_entry c :
  is_byte c ->
  entry ngx_http_v2_huff_encode_table_lc c = entry ngx_http_v2_huff_encode_table (ngx_tolower c).
Proof.
  intros Hc. pose proof (forall_bytes lower_ok c lower_checked Hc) as H. unfold lower_ok in H.
  by apply bool_decide_eq_true in H.
Qed.

Lemma tolower_byte c : is_byte c -> is_byte (ngx_tolower c).
Proof.
  intros Hc. pose (f := fun c => bool_decide (is_byte (ngx_tolower c))).
  assert (f c = true) as H by (apply forall_bytes; [vm_compute; reflexivity|done]).
  by apply bool_decide_eq_true in H.
Qed.

(** The text that the encoder encodes. *)
Definition folded (lower : bool) (src : list Z) : list Z :=
  if lower then ngx_tolower <$> src else src.

Lemma folded_bytes lower src : Forall is_byte src -> Forall is_byte (folded lower src).
Proof.
  intros Hb. destruct lower; [|done]. simpl. apply Forall_fmap.
  eapply Forall_impl; [exact Hb|]. apply tolower_byte.
Qed.

Lemma encode_spec src (lower : bool) :
  Forall is_byte src ->
  let table := if lower then ngx_http_v2_huff_encode_table_lc else ngx_http_v2_huff_encode_table in
  encodes (Z.of_nat (length src)) 0 (codes (folded lower src))
    (huff_encode_loop table (Z.of_nat (length src)) 0 0 0 src).
Proof.
  intros Hb table.
  assert (Ht : table_ok table /\ table_codes table src = codes (folded lower src)).
  { destruct lower; unfold table, folded.
    - split.
      + intros c Hc. rewrite lower_entry by done. by apply encode_table_ok, tolower_byte.
      + rewrite <- encode_table_codes by (by apply (folded_bytes true)).
        unfold table_codes. f_equal. clear table. induction Hb as [|c src Hc Hb IH]; [done|].
        cbn [fmap list_fmap]. rewrite (lower_entry c Hc). f_equal. exact IH.
    - split; [apply encode_table_ok|by apply encode_table_codes]. }
  destruct Ht as [Ht Hc]. rewrite <- Hc.
  change (table_codes table src) with (bits (Z.to_nat 0) 0 ++ table_codes table src).
  apply encode_loop_spec; [done|done|]. split_and!; lia.
Qed.

Lemma huff_encode_reads src lower :
  Forall is_byte src ->
  let dst := ngx_http_v2_huff_encode src lower in
  let need := bytes_for (Z.of_nat (length (codes (folded lower src)))) in
  (dst <> [] -> Z.of_nat (length dst) = need /\ (length dst < length src)%nat /\
     ngx_http_v2_huff_decode 0 dst true = Some (0, folded lower src)) /\
  (dst = [] <-> src = [] \/ Z.of_nat (length src) <= need).
Proof.
  intros Hb dst need. pose proof (encode_spec src lower Hb) as H. cbv zeta in H.
  unfold dst, ngx_http_v2_huff_encode. cbv zeta.
  destruct (huff_encode_loop _ _ 0 0 0 src) as [out|]; simpl; unfold encodes in H; fold need in H.
  - destruct H as (Hob & k & Hk & Hbits & Hlen & Hfit). split.
    + intros Hne. specialize (Hfit Hne). split_and!; [done|lia|].
      apply huff_decode_iff; [done|]. split; [by apply folded_bytes|]. exists k. split; [lia|done].
    + split.
      * intros ->. simpl in Hlen. left. destruct src as [|c src]; [done|]. exfalso.
        unfold byte_bits in Hbits. simpl in Hbits. symmetry in Hbits.
        apply app_eq_nil in Hbits as [Hbits _]. pose proof (folded_bytes lower _ Hb) as Hfb.
        destruct (folded lower (c :: src)) as [|d l] eqn:E; [by destruct lower|].
        inversion Hfb as [|? ? Hd _]; subst. unfold codes in Hbits.
        cbn [fmap list_fmap concat] in Hbits. apply app_eq_nil in Hbits as [Hbits _].
        destruct (code_facts d Hd) as [Hn _]. destruct Hn. by exists O.
      * intros [->|Hlong]; [|destruct out; [done|specialize (Hfit ltac:(done)); lia]].
        assert (need = 0) as Hz by (unfold need; by destruct lower).
        rewrite Hz in Hlen. apply nil_length_inv. lia.
  - split; [done|]. split; [intros _; right; lia|done].
Qed.

(** C3. What the encoder writes is shorter than the source (so that the buffer of
    that size is large enough), and the decoder reads it back, with the letters
    folded if [lower] is set; it writes nothing exactly when the encoding
    would not be shorter. *)
Theorem huff_roundtrip src lower :
  Forall is_byte src ->
  let dst := ngx_http_v2_huff_encode src lower in
  let need := bytes_for (Z.of_nat (length (codes (folded lower src)))) in
  (dst <> [] -> Z.of_nat (length dst) = need /\ (length dst < length src)%nat /\
     ngx_http_v2_huff_decode 0 dst true = Some (0, folded lower src)) /\
  (dst = [] <-> src = [] \/ Z.of_nat (length src) <= need).
Proof. apply huff_encode_reads. Qed.

Lemma huff_roundtrip_witness :
  let src := bytes "Accept-Encoding" in
  let dst := ngx_http_v2_huff_encode src true in
  let need := bytes_for (Z.of_nat (length (codes (folded true src)))) in
  (dst <> [] -> Z.of_nat (length dst) = need /\ (length dst < length src)%nat /\
     ngx_http_v2_huff_decode 0 dst true = Some (0, folded true src)) /\
  (dst = [] <-> src = [] \/ Z.of_nat (length src) <= need).
Proof. apply huff_roundtrip. by_decide. Defined.
