(* ===== verification/Http2Table.v ===== *)
(** * Http2Table: the HPACK header table

    src/http/v2/ngx_http_v2_table.c: the static table, and the dynamic table
    with its array of entry pointers, used as a ring, and its 4096 bytes of
    storage, used as another ring.  The entry structures of evicted headers are
    reused: the pointers are indices into a store of structures.

    The dynamic table is shown to implement that of RFC 7541, section 4: a list
    of headers, newest first, of bounded size, from whose end headers are
    evicted; but for a size that is set before the first insertion, which the
    code forgets. *)

From S2P Require Import Prelude.

(** ** Data *)

Definition NGX_HTTP_V2_TABLE_SIZE : Z := 4096.

(* http/v2/ngx_http_v2.h:62-65 ngx_http_v2_header_t *)
Record header : Type := Header { name : list Z; value : list Z }.

Definition hdr (n v : string) : header := Header (bytes n) (bytes v).

(* http/v2/ngx_http_v2_table.c:21-82 ngx_http_v2_static_table *)
Definition ngx_http_v2_static_table : list header :=
  [hdr ":authority" "";
   hdr ":method" "GET";
   hdr ":method" "POST";
   hdr ":path" "/";
   hdr ":path" "/index.html";
   hdr ":scheme" "http";
   hdr ":scheme" "https";
   hdr ":status" "200";
   hdr ":status" "204";
   hdr ":status" "206";
   hdr ":status" "304";
   hdr ":status" "400";
   hdr ":status" "404";
   hdr ":status" "500";
   hdr "accept-charset" "";
   hdr "accept-encoding" "gzip, deflate";
   hdr "accept-language" "";
   hdr "accept-ranges" "";
   hdr "accept" "";
   hdr "access-control-allow-origin" "";
   hdr "age" "";
   hdr "allow" "";
   hdr "authorization" "";
   hdr "cache-control" "";
   hdr "content-disposition" "";
   hdr "content-encoding" "";
   hdr "content-language" "";
   hdr "content-length" "";
   hdr "content-location" "";
   hdr "content-range" "";
   hdr "content-type" "";
   hdr "cookie" "";
   hdr "date" "";
   hdr "etag" "";
   hdr "expect" "";
   hdr "expires" "";
   hdr "from" "";
   hdr "host" "";
   hdr "if-match" "";
   hdr "if-modified-since" "";
   hdr "if-none-match" "";
   hdr "if-range" "";
   hdr "if-unmodified-since" "";
   hdr "last-modified" "";
   hdr "link" "";
   hdr "location" "";
   hdr "max-forwards" "";
   hdr "proxy-authenticate" "";
   hdr "proxy-authorization" "";
   hdr "range" "";
   hdr "referer" "";
   hdr "refresh" "";
   hdr "retry-after" "";
   hdr "server" "";
   hdr "set-cookie" "";
   hdr "strict-transport-security" "";
   hdr "transfer-encoding" "";
   hdr "user-agent" "";
   hdr "vary" "";
   hdr "via" "";
   hdr "www-authenticate" ""].

Definition NGX_HTTP_V2_STATIC_TABLE_ENTRIES : Z :=
  Z.of_nat (length ngx_http_v2_static_table).

(** A header in the storage; [name_data] and [value_data] are offsets from
    [hpack.storage]. *)
(* http/v2/ngx_http_v2.h:62-65 ngx_http_v2_header_t: an entry of the table *)
Record entry : Type := Entry {
  name_len : Z;
  name_data : Z;
  value_len : Z;
  value_data : Z
}.

(** [objs] holds the entry structures, [entries] the array of pointers to them,
    [None] for [NULL]; [pos] is an offset. *)
(* http/v2/ngx_http_v2.h:98-110 ngx_http_v2_hpack_t *)
Record hpack : Type := Hpack {
  entries : option (list nat);
  objs : list entry;
  added : Z;
  deleted : Z;
  reused : Z;
  allocated : Z;
  size : Z;
  free : Z;
  storage : list Z;
  pos : Z
}.

Definition eta_hpack (x : hpack) : hpack :=
  Hpack (entries x) (objs x) (added x) (deleted x) (reused x) (allocated x) (size x) (free x)
    (storage x) (pos x).
Definition set_entries := ltac:(setter eta_hpack entries).
Definition set_objs := ltac:(setter eta_hpack objs).
Definition set_added := ltac:(setter eta_hpack added).
Definition set_deleted := ltac:(setter eta_hpack deleted).
Definition set_reused := ltac:(setter eta_hpack reused).
Definition set_allocated := ltac:(setter eta_hpack allocated).
Definition set_size := ltac:(setter eta_hpack size).
Definition set_free := ltac:(setter eta_hpack free).
Definition set_storage := ltac:(setter eta_hpack storage).
Definition set_pos := ltac:(setter eta_hpack pos).

(** The table of a new connection, which is zeroed. *)
Definition hpack_init : hpack := Hpack None [] 0 0 0 0 0 0 [] 0.

Definition len (l : list Z) : Z := Z.of_nat (length l).

(** [hpack.entries[index % hpack.allocated]]. *)
Definition slot (st : hpack) (index : Z) : nat :=
  match entries st with
  | Some es => nth (Z.to_nat (index `mod` allocated st)) es O
  | None => O
  end.

Definition entry_at (st : hpack) (index : Z) : entry :=
  nth (slot st index) (objs st) (Entry 0 0 0 0).

(** ** Lookup *)

(** [n] bytes from the offset [data], continued at the start of the storage. *)
(* http/v2/ngx_http_v2_table.c:128-138 ngx_http_v2_get_indexed_header: copy of a string *)
Definition ring_copy (storage : list Z) (data n : Z) : list Z :=
  let rest := NGX_HTTP_V2_TABLE_SIZE - data in
  if rest <? n then
    take (Z.to_nat rest) (drop (Z.to_nat data) storage) ++ take (Z.to_nat (n - rest)) storage
  else take (Z.to_nat n) (drop (Z.to_nat data) storage).

(** The new [state.header], from the old one; [None] for [NGX_ERROR]. *)
(* http/v2/ngx_http_v2_table.c:89-171 ngx_http_v2_get_indexed_header *)
Definition ngx_http_v2_get_indexed_header (st : hpack) (old : header) (index : Z)
    (name_only : bool) : option header :=
  if index =? 0 then None
  else
    let index := index - 1 in
    if index <? NGX_HTTP_V2_STATIC_TABLE_ENTRIES then
      Some (nth (Z.to_nat index) ngx_http_v2_static_table old)
    else
      let index := index - NGX_HTTP_V2_STATIC_TABLE_ENTRIES in
      if index <? u64 (added st - deleted st) then
        let e := entry_at st (u64 (added st - index - 1)) in
        let n := ring_copy (storage st) (name_data e) (name_len e) in
        if name_only then Some (Header n (value old))
        else Some (Header n (ring_copy (storage st) (value_data e) (value_len e)))
      else None.

(** ** Insertion *)

(** [deleted++], and the size of the entry it was. *)
Definition drop_oldest (st : hpack) : hpack :=
  let e := entry_at st (deleted st) in
  set_free (u64 (free st + (32 + name_len e + value_len e))) (set_deleted (u64 (deleted st + 1)) st).

(** [do ... while (size > free)], at most [fuel] times. *)
(* http/v2/ngx_http_v2_table.c:310-313 ngx_http_v2_table_account: do while *)
Fixpoint account_loop (fuel : nat) (st : hpack) (sz : Z) : option hpack :=
  match fuel with
  | O => None
  | S fuel =>
      let st := drop_oldest st in
      if free st <? sz then account_loop fuel st sz else Some st
  end.

(** The state and whether the entry is to be stored ([NGX_OK]). *)
(* http/v2/ngx_http_v2_table.c:288-318 ngx_http_v2_table_account *)
Definition ngx_http_v2_table_account (st : hpack) (sz : Z) : option (hpack * bool) :=
  let sz := sz + 32 in
  if sz <=? free st then Some (set_free (free st - sz) st, true)
  else if size st <? sz then Some (set_free (size st) (set_deleted (added st) st), false)
  else
    st ← account_loop (Z.to_nat (u64 (added st - deleted st))) st sz;
    Some (set_free (free st - sz) st, true).

(** [ngx_memcpy] to the offset [off]. *)
Definition write (storage : list Z) (off : Z) (data : list Z) : list Z :=
  take (Z.to_nat off) storage ++ data ++ drop (Z.to_nat off + length data) storage.

(** The storage and [pos] after [data] has been written, when [avail] bytes are
    free before the end of the storage. *)
(* http/v2/ngx_http_v2_table.c:223-252 ngx_http_v2_add_header: copy of a string *)
Definition ring_write (storage : list Z) (pos avail : Z) (data : list Z) : list Z * Z :=
  if len data <=? avail then (write storage pos data, pos + len data)
  else
    (write (write storage pos (take (Z.to_nat avail) data)) 0 (drop (Z.to_nat avail) data),
     len data - avail).

(** [if (entries == NULL)]; the pointers of a fresh array are not meaningful. *)
(* http/v2/ngx_http_v2_table.c:186-205 ngx_http_v2_add_header: first entry *)
Definition hpack_alloc (st : hpack) : hpack :=
  match entries st with
  | Some _ => st
  | None =>
      Hpack (Some (replicate 64 O)) (objs st) (added st) (deleted st) (reused st) 64
        NGX_HTTP_V2_TABLE_SIZE NGX_HTTP_V2_TABLE_SIZE
        (replicate (Z.to_nat NGX_HTTP_V2_TABLE_SIZE) 0) 0
  end.

(** A new structure, or the least recently deleted one that is not in use. *)
(* http/v2/ngx_http_v2_table.c:213-221 ngx_http_v2_add_header: entry *)
Definition new_entry (st : hpack) : nat * hpack :=
  if reused st =? deleted st then
    (length (objs st), set_objs (objs st ++ [Entry 0 0 0 0]) st)
  else (slot st (reused st), set_reused (u64 (reused st + 1)) st).

(** The array of pointers grows by 64, with the oldest entry first. *)
(* http/v2/ngx_http_v2_table.c:254-279 ngx_http_v2_add_header: array is full *)
Definition grow (st : hpack) : hpack :=
  if allocated st =? u64 (added st - deleted st) then
    let es := default [] (entries st) in
    let index := Z.to_nat (deleted st `mod` allocated st) in
    let entries := take (Z.to_nat (allocated st) - index) (drop index es) ++ take index es ++
                   replicate 64 O in
    Hpack (Some entries) (objs st) (allocated st) 0 0 (allocated st + 64) (size st) (free st)
      (storage st) (pos st)
  else st.

Definition set_slot (st : hpack) (index : Z) (e : nat) : hpack :=
  set_entries (Some (<[Z.to_nat (index `mod` allocated st) := e]> (default [] (entries st)))) st.

(** Allocation succeeds. *)
(* http/v2/ngx_http_v2_table.c:174-285 ngx_http_v2_add_header *)
Definition ngx_http_v2_add_header (st : hpack) (h : header) : option hpack :=
  let st := hpack_alloc st in
  '(st, ok) ← ngx_http_v2_table_account st (len (name h) + len (value h));
  if negb ok then Some st
  else
    let '(e, st) := new_entry st in
    let avail := NGX_HTTP_V2_TABLE_SIZE - pos st in
    let name_data := pos st in
    let '(sto, p) := ring_write (storage st) (pos st) avail (name h) in
    let avail := (if len (name h) <=? avail then avail else NGX_HTTP_V2_TABLE_SIZE)
                 - len (name h) in
    let value_data := p in
    let '(sto, p) := ring_write sto p avail (value h) in
    let entry := Entry (len (name h)) name_data (len (value h)) value_data in
    let st := set_objs (<[e := entry]> (objs st)) (set_pos p (set_storage sto st)) in
    let st := grow st in
    Some (set_added (u64 (added st + 1)) (set_slot st (added st) e)).

(** ** Resizing *)

(** [while (needed > (ssize_t) free)]. *)
(* http/v2/ngx_http_v2_table.c:340-343 ngx_http_v2_table_size: while *)
Fixpoint size_loop (fuel : nat) (st : hpack) (needed : Z) : option hpack :=
  if free st <? needed then
    match fuel with
    | O => None
    | S fuel => size_loop fuel (drop_oldest st) needed
    end
  else Some st.

(** [Some None] for [NGX_ERROR]. *)
(* http/v2/ngx_http_v2_table.c:321-349 ngx_http_v2_table_size *)
Definition ngx_http_v2_table_size (st : hpack) (sz : Z) : option (option hpack) :=
  if NGX_HTTP_V2_TABLE_SIZE <? sz then Some None
  else
    let needed := size st - sz in
    st ← size_loop (Z.to_nat (u64 (added st - deleted st))) st needed;
    Some (Some (set_free (u64 (free st - needed)) (set_size sz st))).

Definition try_add (st : option hpack) (h : header) : option hpack :=
  st ← st; ngx_http_v2_add_header st h.

Example table_example :
  let st := try_add (try_add (Some hpack_init) (hdr "custom-key" "custom-value"))
              (hdr ":status" "404") in
  (st ← st; ngx_http_v2_get_indexed_header st (hdr "" "") 63 false)
    = Some (hdr "custom-key" "custom-value") /\
  (st ← st; ngx_http_v2_get_indexed_header st (hdr "" "") 61 false)
    = Some (hdr "www-authenticate" "").
Proof. split; vm_compute; reflexivity. Qed.

(** ** Lists by integer positions *)

#[local] Abbreviation T := NGX_HTTP_V2_TABLE_SIZE.

Definition zn {A} (d : A) (l : list A) (i : Z) : A := nth (Z.to_nat i) l d.

Lemma zn_lookup {A} (d : A) l i :
  0 <= i < Z.of_nat (length l) -> l !! Z.to_nat i = Some (zn d l i).
Proof.
  intros Hi. unfold zn. destruct (nth_lookup_or_length l (Z.to_nat i) d); [done|lia].
Qed.

Lemma list_eq_zn {A} (d : A) l k :
  length l = length k ->
  (forall i, 0 <= i < Z.of_nat (length l) -> zn d l i = zn d k i) -> l = k.
Proof.
  intros Hl H. apply list_eq. intros i. destruct (decide (i < length l)%nat).
  - replace i with (Z.to_nat (Z.of_nat i)) by lia. rewrite !(zn_lookup d) by lia.
    rewrite H by lia. done.
  - by rewrite !lookup_ge_None_2 by lia.
Qed.

Lemma zn_app {A} (d : A) l k i :
  0 <= i -> zn d (l ++ k) i =
    if i <? Z.of_nat (length l) then zn d l i else zn d k (i - Z.of_nat (length l)).
Proof.
  intros Hi. unfold zn. destruct (Z.ltb_spec i (Z.of_nat (length l))).
  - by rewrite app_nth1 by lia.
  - rewrite app_nth2 by lia. f_equal. lia.
Qed.

Lemma zn_drop {A} (d : A) l n i : 0 <= i -> 0 <= n -> zn d (drop (Z.to_nat n) l) i = zn d l (n + i).
Proof. intros. unfold zn. rewrite !nth_lookup, lookup_drop. do 2 f_equal. lia. Qed.

Lemma zn_take {A} (d : A) l n i : 0 <= i < n -> zn d (take (Z.to_nat n) l) i = zn d l i.
Proof. intros. unfold zn. rewrite !nth_lookup, lookup_take_lt by lia. done. Qed.

Lemma zn_insert {A} (d : A) l (n : nat) x i :
  0 <= i < Z.of_nat (length l) ->
  zn d (<[n := x]> l) i = if i =? Z.of_nat n then x else zn d l i.
Proof.
  intros Hi. unfold zn. rewrite !nth_lookup. destruct (Z.eqb_spec i (Z.of_nat n)) as [->|].
  - rewrite Nat2Z.id, list_lookup_insert_eq by lia. done.
  - by rewrite list_lookup_insert_ne by lia.
Qed.

(** ** The storage ring *)

(** The byte at a position of the ring, counted modulo its size, and [n] bytes
    from there. *)
Definition ring_at (s : list Z) (p : Z) : Z := zn 0 s (p `mod` T).
Definition ring (s : list Z) (p n : Z) : list Z := (fun i => ring_at s (p + i)) <$> seqZ 0 n.

Definition ring_wf (s : list Z) : Prop := len s = T.

Lemma T_mod p : 0 <= p `mod` T < T.
Proof. by apply Z.mod_pos_bound. Qed.

Lemma ring_length s p n : length (ring s p n) = Z.to_nat n.
Proof. unfold ring. by rewrite length_fmap, length_seqZ. Qed.

Lemma zn_ring s p n i : 0 <= i < n -> zn 0 (ring s p n) i = ring_at s (p + i).
Proof.
  intros Hi. unfold ring, zn. rewrite nth_lookup, list_lookup_fmap, lookup_seqZ_lt by lia. simpl.
  do 2 f_equal. lia.
Qed.

Lemma ring_eq s p n l :
  len l = n -> (forall i, 0 <= i < n -> ring_at s (p + i) = zn 0 l i) -> ring s p n = l.
Proof.
  unfold len. intros Hl H. apply (list_eq_zn 0); rewrite ring_length; [lia|].
  intros i Hi. rewrite zn_ring by lia. apply H. lia.
Qed.

Lemma ring_ext s s' p p' n :
  (forall i, 0 <= i < n -> ring_at s (p + i) = ring_at s' (p' + i)) -> ring s p n = ring s' p' n.
Proof.
  intros H. apply (list_eq_zn 0); rewrite !ring_length; [done|].
  intros i Hi. rewrite !zn_ring by lia. apply H. lia.
Qed.

Lemma ring_at_mod s p q : (T | p - q) -> ring_at s p = ring_at s q.
Proof.
  intros [k Hk]. unfold ring_at. f_equal. replace p with (q + k * T) by lia.
  by rewrite Z.mod_add.
Qed.

Lemma ring_mod s p q n : (T | p - q) -> ring s p n = ring s q n.
Proof. intros H. apply ring_ext. intros i _. apply ring_at_mod. by replace (p + i - (q + i)) with (p - q) by lia. Qed.

Lemma mod_in p q : 0 <= p < T -> (T | q - p) -> q `mod` T = p.
Proof.
  intros Hp [k Hk]. replace q with (p + k * T) by lia. rewrite Z.mod_add by done.
  by apply Z.mod_small.
Qed.

Lemma div_sub a : (T | a - a `mod` T).
Proof. exists (a / T). pose proof (Z.div_mod a T ltac:(done)). lia. Qed.

(** Copying out of the storage reads the ring. *)
Lemma ring_copy_spec s data n :
  ring_wf s -> 0 <= data <= T -> 0 <= n <= T -> ring_copy s data n = ring s data n.
Proof.
  unfold ring_wf, len. intros Hs Hd Hn. symmetry. apply ring_eq.
  - unfold ring_copy, len. destruct (Z.ltb_spec (T - data) n);
      rewrite ?length_app, !length_take, ?length_drop; lia.
  - intros i Hi. unfold ring_copy, ring_at. destruct (Z.ltb_spec (T - data) n).
    + rewrite zn_app, length_take, length_drop by lia.
      destruct (Z.ltb_spec i (Z.of_nat (Z.to_nat (T - data) `min` (length s - Z.to_nat data)))).
      * rewrite zn_take, zn_drop by lia. f_equal. apply Z.mod_small. lia.
      * rewrite zn_take by lia. f_equal. apply mod_in; [lia|]. exists 1. lia.
    + rewrite zn_take, zn_drop by lia. f_equal. apply Z.mod_small. lia.
Qed.

Lemma write_wf s off data :
  ring_wf s -> 0 <= off -> off + len data <= T -> ring_wf (write s off data).
Proof.
  unfold ring_wf, len, write. intros. rewrite !length_app, length_take, length_drop. lia.
Qed.

Lemma zn_write s off data i :
  ring_wf s -> 0 <= off -> off + len data <= T -> 0 <= i < T ->
  zn 0 (write s off data) i =
    if (off <=? i) && (i <? off + len data) then zn 0 data (i - off) else zn 0 s i.
Proof.
  unfold ring_wf, len, write. intros Hs Ho Hd Hi.
  rewrite zn_app, length_take by lia. replace (Z.of_nat (Z.to_nat off `min` length s)) with off by lia.
  destruct (Z.ltb_spec i off), (Z.leb_spec off i); try lia; cbn [andb].
  - by rewrite zn_take by lia.
  - rewrite zn_app by lia. destruct (Z.ltb_spec (i - off) (Z.of_nat (length data))),
      (Z.ltb_spec i (off + Z.of_nat (length data))); try lia.
    replace (Z.to_nat off + length data)%nat with (Z.to_nat (off + Z.of_nat (length data))) by lia.
    rewrite zn_drop by lia. f_equal. lia.
Qed.

(** Writing into the ring: the bytes from [pos] are the data, the others are
    kept; [avail] may be too small, but then there is room for the data. *)
Lemma ring_write_spec s pos avail data s' pos' :
  ring_wf s -> 0 <= pos <= T -> len data <= T ->
  avail = T - pos \/ len data <= avail <= T - pos ->
  ring_write s pos avail data = (s', pos') ->
  ring_wf s' /\ 0 <= pos' <= T /\ (T | pos' - (pos + len data)) /\
  forall p, ring_at s' p =
    if (p - pos) `mod` T <? len data then zn 0 data ((p - pos) `mod` T) else ring_at s p.
Proof.
  intros Hs Hp Hd Ha. pose proof (Zle_0_nat (length data)) as H0. fold (len data) in H0.
  unfold ring_write. destruct (Z.leb_spec (len data) avail) as [Hle|Hgt]; intros; simplify_eq.
  - split; [apply write_wf; [done|lia|lia]|]. split; [lia|]. split; [exists 0; lia|].
    intros p. pose proof (T_mod p). unfold ring_at. rewrite zn_write by (done || lia).
    destruct (Z.leb_spec pos (p `mod` T)) as [Hpp|Hpp];
      destruct (Z.ltb_spec (p `mod` T) (pos + len data)) as [Hq|Hq]; cbn [andb].
    + rewrite (mod_in (p `mod` T - pos) (p - pos)).
      * by rewrite (proj2 (Z.ltb_lt _ _)) by lia.
      * lia.
      * replace (p - pos - (p `mod` T - pos)) with (p - p `mod` T) by lia. apply div_sub.
    + rewrite (mod_in (p `mod` T - pos) (p - pos)); [by rewrite (proj2 (Z.ltb_ge _ _)) by lia|lia|].
      replace (p - pos - (p `mod` T - pos)) with (p - p `mod` T) by lia. apply div_sub.
    + rewrite (mod_in (p `mod` T - pos + T) (p - pos)); [by rewrite (proj2 (Z.ltb_ge _ _)) by lia|lia|].
      replace (p - pos - (p `mod` T - pos + T)) with (p - p `mod` T - T) by lia.
      apply Z.divide_sub_r; [apply div_sub|done].
    + lia.
  - destruct Ha as [-> |?]; [|lia].
    set (d1 := take (Z.to_nat (T - pos)) data). set (d2 := drop (Z.to_nat (T - pos)) data).
    assert (len d1 = T - pos) as H1 by (unfold d1, len in *; rewrite length_take; lia).
    assert (len d2 = len data - (T - pos)) as H2 by (unfold d2, len in *; rewrite length_drop; lia).
    assert (ring_wf (write s pos d1)) as Hs1 by (apply write_wf; [done|lia|lia]).
    split; [apply write_wf; [done|lia|lia]|]. split; [lia|]. split; [exists (-1); lia|].
    intros p. pose proof (T_mod p). unfold ring_at. rewrite !zn_write by (done || lia).
    destruct (Z.leb_spec 0 (p `mod` T)); [|lia].
    assert ((p - pos) `mod` T = if pos <=? p `mod` T then p `mod` T - pos else p `mod` T - pos + T)
      as Em.
    { destruct (Z.leb_spec pos (p `mod` T)).
      - apply mod_in; [lia|]. replace (p - pos - (p `mod` T - pos)) with (p - p `mod` T) by lia.
        apply div_sub.
      - apply mod_in; [lia|].
        replace (p - pos - (p `mod` T - pos + T)) with (p - p `mod` T - T) by lia.
        apply Z.divide_sub_r; [apply div_sub|done]. }
    rewrite Em. destruct (Z.ltb_spec (p `mod` T) (0 + len d2)) as [Hlt|Hge]; cbn [andb].
    + destruct (Z.leb_spec pos (p `mod` T)); [lia|]. rewrite (proj2 (Z.ltb_lt _ _)) by lia.
      unfold d2. rewrite zn_drop by lia. f_equal. lia.
    + destruct (Z.leb_spec pos (p `mod` T)); cbn [andb].
      * rewrite !(proj2 (Z.ltb_lt _ _)) by lia. unfold d1. by rewrite zn_take by lia.
      * by rewrite (proj2 (Z.ltb_ge _ _)) by lia.
Qed.

(** ** The dynamic table of RFC 7541 *)

(** The size of an entry (section 4.1) and of a table, newest entry first. *)
Definition hsize (h : header) : Z := 32 + len (name h) + len (value h).
Definition hbytes (h : header) : Z := len (name h) + len (value h).
Fixpoint total (t : list header) : Z := match t with [] => 0 | h :: t => hsize h + total t end.

(** The longest prefix that fits: entries are evicted from the end (4.3, 4.4). *)
Fixpoint evict (room : Z) (t : list header) : list header :=
  match t with
  | [] => []
  | h :: t => if hsize h <=? room then h :: evict (room - hsize h) t else []
  end.

(** Insertion: what does not fit at all empties the table (4.4). *)
Definition table_add (max : Z) (h : header) (t : list header) : list header :=
  if hsize h <=? max then h :: evict (max - hsize h) t else [].

Lemma len_nonneg l : 0 <= len l.
Proof. unfold len. lia. Qed.

Lemma hsize_bytes h : hsize h = 32 + hbytes h /\ 0 <= hbytes h.
Proof. unfold hsize, hbytes. pose proof (len_nonneg (name h)). pose proof (len_nonneg (value h)). lia. Qed.

Lemma total_nonneg t : 32 * Z.of_nat (length t) <= total t.
Proof. induction t as [|h t IH]; simpl; [lia|]. pose proof (hsize_bytes h). lia. Qed.

Lemma total_snoc t h : total (t ++ [h]) = total t + hsize h.
Proof. induction t as [|k t IH]; simpl; lia. Qed.

Lemma evict_all room t : total t <= room -> evict room t = t.
Proof.
  revert room. induction t as [|h t IH]; intros room H; simpl in *; [done|].
  pose proof (total_nonneg t). rewrite (proj2 (Z.leb_le _ _)) by lia. f_equal. apply IH. lia.
Qed.

Lemma evict_snoc room t h : room < total (t ++ [h]) -> evict room (t ++ [h]) = evict room t.
Proof.
  revert room. induction t as [|k t IH]; intros room H; simpl in *.
  - by rewrite (proj2 (Z.leb_gt _ _)) by lia.
  - destruct (hsize k <=? room); [|done]. f_equal. apply IH. lia.
Qed.

(** ** The entries in the storage *)

(** The entries [es], newest first, hold the headers [t]; the bytes of the
    newest end at the position [p] of the ring, and the others follow. *)
Fixpoint laid (s : list Z) (p : Z) (es : list entry) (t : list header) : Prop :=
  match es, t with
  | [], [] => True
  | e :: es, h :: t =>
      let q := p - hbytes h in
      (name_len e = len (name h) /\ 0 <= name_data e <= T /\ (T | name_data e - q) /\
       ring s q (len (name h)) = name h) /\
      (value_len e = len (value h) /\ 0 <= value_data e <= T /\
       (T | value_data e - (q + len (name h))) /\
       ring s (q + len (name h)) (len (value h)) = value h) /\
      laid s q es t
  | _, _ => False
  end.

Lemma laid_length s p es t : laid s p es t -> length es = length t.
Proof.
  revert p t. induction es as [|e es IH]; intros p [|h t]; simpl; try done.
  intros (_ & _ & H). f_equal. eauto.
Qed.

Lemma laid_mod s p q es t : (T | p - q) -> laid s p es t -> laid s q es t.
Proof.
  revert p q t. induction es as [|e es IH]; intros p q [|h t] Hd; simpl; try done.
  intros ((H1 & H2 & H3 & H4) & (H5 & H6 & H7 & H8) & H9).
  assert (forall a, (T | a - (p - hbytes h)) -> (T | a - (q - hbytes h))) as Ht.
  { intros a Ha. replace (a - (q - hbytes h)) with (a - (p - hbytes h) + (p - q)) by lia.
    by apply Z.divide_add_r. }
  split; [split_and!; try (done || lia); [by apply Ht|]|split; [split_and!; try (done || lia)|]].
  - etransitivity; [apply ring_mod|exact H4]. replace (_ - _) with (- (p - q)) by lia. by apply Z.divide_opp_r.
  - replace (value_data e - (q - hbytes h + len (name h))) with
      (value_data e - len (name h) - (q - hbytes h)) by lia. apply Ht.
    by replace (value_data e - len (name h) - (p - hbytes h)) with
      (value_data e - (p - hbytes h + len (name h))) by lia.
  - etransitivity; [apply ring_mod|exact H8]. replace (_ - _) with (- (p - q)) by lia. by apply Z.divide_opp_r.
  - eapply IH; [|exact H9]. by replace (p - hbytes h - (q - hbytes h)) with (p - q) by lia.
Qed.

Lemma laid_snoc s p es e t h :
  laid s p (es ++ [e]) (t ++ [h]) ->
  laid s p es t /\ name_len e = len (name h) /\ value_len e = len (value h).
Proof.
  intros H. pose proof (laid_length _ _ _ _ H) as Hl. rewrite !length_app in Hl. simpl in Hl.
  revert p t Hl H. induction es as [|e' es IH]; intros p [|h' t] Hl; try (simpl in Hl; lia).
  all: cbn [laid app length] in *.
  - intros [[H1 _] [[H2 _] _]]. auto.
  - intros (H1 & H2 & H3). apply IH in H3; [|lia]. tauto.
Qed.

(** The bytes that a table occupies. *)
Fixpoint tbytes (t : list header) : Z := match t with [] => 0 | h :: t => hbytes h + tbytes t end.

Lemma tbytes_total t : 0 <= tbytes t <= total t.
Proof. induction t as [|h t IH]; simpl; [lia|]. pose proof (hsize_bytes h). lia. Qed.

(** A change of the storage outside of those bytes does not concern them. *)
Lemma laid_ext s s' p es t :
  (forall i, 0 < i <= tbytes t -> ring_at s' (p - i) = ring_at s (p - i)) ->
  laid s p es t -> laid s' p es t.
Proof.
  revert p t. induction es as [|e es IH]; intros p [|h t] Hs; simpl; try done.
  intros ((H1 & H2 & H3 & H4) & (H5 & H6 & H7 & H8) & H9).
  pose proof (tbytes_total t). pose proof (len_nonneg (name h)). pose proof (len_nonneg (value h)).
  simpl in Hs. unfold hbytes in *.
  assert (forall i, 0 <= i < len (name h) + len (value h) ->
    ring_at s' (p - (len (name h) + len (value h)) + i) =
    ring_at s (p - (len (name h) + len (value h)) + i)) as Hi.
  { intros i Hi. specialize (Hs (len (name h) + len (value h) - i)).
    replace (p - (len (name h) + len (value h) - i)) with
      (p - (len (name h) + len (value h)) + i) in Hs by lia. apply Hs. lia. }
  split; [split_and!; try (done || lia)|split; [split_and!; try (done || lia)|]].
  - etransitivity; [apply ring_ext|exact H4]. intros i ?. apply Hi. lia.
  - etransitivity; [apply ring_ext|exact H8]. intros i ?. rewrite <- Z.add_assoc. apply Hi. lia.
  - apply IH; [|done]. intros i ?. specialize (Hs (len (name h) + len (value h) + i)).
    rewrite Z.sub_add_distr in Hs. apply Hs. lia.
Qed.

(** ** The state that represents a table *)

(** The pointers in use, from [reused] to [added], are different and valid. *)
Record array_ok (st : hpack) : Prop := ArrayOk {
  ao_entries : exists es, entries st = Some es /\ Z.of_nat (length es) = allocated st;
  ao_allocated : 0 < allocated st;
  ao_order : 0 <= reused st <= deleted st /\ deleted st <= added st < 2 ^ 64;
  ao_window : added st - reused st <= allocated st;
  ao_inj i j : reused st <= i < added st -> reused st <= j < added st ->
    slot st i = slot st j -> i = j;
  ao_objs i : reused st <= i < added st -> (slot st i < length (objs st))%nat
}.

(** The entries that have not been deleted, newest first. *)
Definition live (st : hpack) : list entry :=
  (fun k => entry_at st (added st - 1 - k)) <$> seqZ 0 (added st - deleted st).

(** The state represents the table [t] of maximal size [max]; [acc] bytes of
    [free] have been set aside for an entry that is being added. *)
Record table_ok (st : hpack) (t : list header) (max acc : Z) : Prop := TableOk {
  to_array : array_ok st;
  to_storage : ring_wf (storage st);
  to_pos : 0 <= pos st <= T;
  to_laid : laid (storage st) (pos st) (live st) t;
  to_size : size st = max /\ max <= T;
  to_free : free st = max - total t - acc /\ 0 <= free st /\ 0 <= acc
}.

Lemma live_length st : length (live st) = Z.to_nat (added st - deleted st).
Proof. unfold live. by rewrite length_fmap, length_seqZ. Qed.

Lemma table_length st t max acc :
  table_ok st t max acc -> Z.of_nat (length t) = added st - deleted st.
Proof.
  intros [[_ _ Ho _ _ _] _ _ Hl _ _]. apply laid_length in Hl. rewrite live_length in Hl. lia.
Qed.

Lemma u64_id z : 0 <= z < 2 ^ 64 -> u64 z = z.
Proof. intros. by apply Z.mod_small. Qed.

(** *** Eviction *)

Lemma live_snoc st :
  deleted st < added st ->
  live st = live (set_deleted (deleted st + 1) st) ++ [entry_at st (deleted st)].
Proof.
  intros H. unfold live at 1. replace (added st - deleted st) with ((added st - (deleted st + 1)) + 1) by lia.
  rewrite seqZ_app, fmap_app by lia. f_equal. simpl. do 2 f_equal. lia.
Qed.

Lemma drop_oldest_ok st t h max acc :
  table_ok st (t ++ [h]) max acc -> table_ok (drop_oldest st) t max acc.
Proof.
  intros H. pose proof (table_length _ _ _ _ H) as Hlen. rewrite length_app in Hlen. simpl in Hlen.
  destruct H as [[He Ha Ho Hw Hi Hb] Hs Hp Hl [Hsz Hmax] [Hf [Hf0 Hacc]]].
  rewrite live_snoc in Hl by lia. apply laid_snoc in Hl as (Hl & Hn & Hv).
  rewrite total_snoc in Hf. pose proof (total_nonneg t). pose proof (hsize_bytes h).
  assert (drop_oldest st = set_free (free st + hsize h) (set_deleted (deleted st + 1) st)) as ->.
  { unfold drop_oldest. rewrite Hn, Hv, !u64_id; [unfold hsize; do 2 f_equal; lia|lia|].
    unfold hsize, NGX_HTTP_V2_TABLE_SIZE in *. lia. }
  split; simpl; try done; try lia. split; simpl; try done. lia.
Qed.

Lemma account_loop_ok t : forall st max sz fuel,
  table_ok st t max 0 -> free st < sz <= max -> (length t <= fuel)%nat ->
  exists st', account_loop fuel st sz = Some st' /\ table_ok st' (evict (max - sz) t) max 0 /\
    sz <= free st' /\ added st' = added st.
Proof.
  induction t as [|h t IH] using rev_ind; intros st max sz fuel H Hsz Hfuel.
  - destruct H as [_ _ _ _ _ [Hf _]]. simpl in Hf. lia.
  - rewrite length_app in Hfuel. simpl in Hfuel. destruct fuel as [|fuel]; [lia|].
    pose proof (to_free _ _ _ _ H) as [Hf _].
    rewrite evict_snoc by lia. apply drop_oldest_ok in H. cbn [account_loop].
    pose proof (to_free _ _ _ _ H) as [Hf' _]. pose proof (to_size _ _ _ _ H) as [Hs' _].
    destruct (Z.ltb_spec (free (drop_oldest st)) sz).
    + destruct (IH _ max sz fuel H) as (st' & E & H1 & H2 & H3); [lia|lia|].
      exists st'. done.
    + exists (drop_oldest st). split; [done|]. split; [|done]. rewrite evict_all by lia. done.
Qed.

Lemma set_acc st t max sz :
  table_ok st t max 0 -> 0 <= sz <= free st -> table_ok (set_free (free st - sz) st) t max sz.
Proof.
  intros [[He Ha Ho Hw Hi Hb] Hs Hp Hl Hsz Hf] H. split; simpl; try done; lia.
Qed.

Lemma table_account_ok st t max h :
  table_ok st t max 0 ->
  exists st' ok, ngx_http_v2_table_account st (hbytes h) = Some (st', ok) /\
    added st' = added st /\ ok = (hsize h <=? max) /\
    (if ok : bool then table_ok st' (evict (max - hsize h) t) max (hsize h)
     else table_ok st' [] max 0).
Proof.
  intros H. pose proof (table_length _ _ _ _ H) as Hlen. pose proof (to_free _ _ _ _ H) as Hf.
  pose proof (to_size _ _ _ _ H) as [Hs Hm]. pose proof (hsize_bytes h). pose proof (total_nonneg t).
  pose proof (ao_order _ (to_array _ _ _ _ H)).
  unfold ngx_http_v2_table_account. replace (hbytes h + 32) with (hsize h) by lia.
  destruct (Z.leb_spec (hsize h) (free st)).
  - eexists _, true. split; [done|]. split; [done|]. split; [symmetry; apply Z.leb_le; lia|].
    rewrite evict_all by lia. apply set_acc; [done|lia].
  - destruct (Z.ltb_spec (size st) (hsize h)).
    + eexists _, false. split; [done|]. split; [done|]. split; [symmetry; apply Z.leb_gt; lia|].
      destruct H as [[He Ha Ho Hw Hi Hb] Hst Hp Hl _ _]. split; try done; simpl; try lia.
      * split; simpl; try done. lia.
      * unfold live. simpl. by rewrite Z.sub_diag.
    + destruct (account_loop_ok t st max (hsize h) (Z.to_nat (u64 (added st - deleted st))) H)
        as (st' & -> & H' & Hfree & Hadd); [lia|rewrite u64_id; lia|]. cbn [mbind option_bind].
      eexists _, true. split; [done|]. split; [done|]. split; [symmetry; apply Z.leb_le; lia|].
      apply set_acc; [done|lia].
Qed.

Lemma size_loop_ok t : forall st max needed fuel,
  table_ok st t max 0 -> needed <= max -> (length t <= fuel)%nat ->
  exists st', size_loop fuel st needed = Some st' /\ table_ok st' (evict (max - needed) t) max 0 /\
    needed <= free st' /\ added st' = added st.
Proof.
  induction t as [|h t IH] using rev_ind; intros st max needed fuel H Hn Hfuel.
  - pose proof (to_free _ _ _ _ H) as [Hf _]. simpl in Hf.
    exists st. split; [|simpl; split; [done|split; [lia|done]]].
    destruct fuel; simpl; by rewrite (proj2 (Z.ltb_ge _ _)) by lia.
  - rewrite length_app in Hfuel. simpl in Hfuel. destruct fuel as [|fuel]; [lia|].
    pose proof (to_free _ _ _ _ H) as [Hf _]. cbn [size_loop].
    destruct (Z.ltb_spec (free st) needed).
    + rewrite evict_snoc by lia. apply drop_oldest_ok in H.
      destruct (IH _ max needed fuel H) as (st' & E & H1 & H2 & H3); [lia|lia|]. by exists st'.
    + exists st. rewrite evict_all by lia. split; [done|]. split; [done|]. split; [lia|done].
Qed.

Lemma table_size_ok st t max sz :
  table_ok st t max 0 -> 0 <= sz <= T ->
  exists st', ngx_http_v2_table_size st sz = Some (Some st') /\ table_ok st' (evict sz t) sz 0 /\
    added st' = added st.
Proof.
  intros H Hsz. pose proof (table_length _ _ _ _ H) as Hlen.
  pose proof (to_size _ _ _ _ H) as [Hs Hm]. pose proof (ao_order _ (to_array _ _ _ _ H)).
  unfold ngx_http_v2_table_size. rewrite (proj2 (Z.ltb_ge _ _)) by lia.
  destruct (size_loop_ok t st max (size st - sz) (Z.to_nat (u64 (added st - deleted st))) H)
    as (st' & -> & H' & Hfree & Hadd); [lia|rewrite u64_id; lia|]. cbn [mbind option_bind].
  eexists. split; [done|]. split; [|done].
  replace (max - (size st - sz)) with sz in H' by lia.
  destruct H' as [Ha Hst Hp Hl Hsz' [Hf Hf0]]. pose proof (total_nonneg (evict sz t)).
  unfold NGX_HTTP_V2_TABLE_SIZE in *.
  split; simpl; try done.
  - by destruct Ha.
  - unfold NGX_HTTP_V2_TABLE_SIZE. lia.
  - rewrite u64_id by lia. lia.
Qed.

(** *** The array of pointers *)

(** [e] can be stored at [added]: no pointer in use is [e], and a slot is free
    or the array is about to grow. *)
Definition fresh (st : hpack) (e : nat) : Prop :=
  (e < length (objs st))%nat /\
  (forall i, reused st <= i < added st -> slot st i <> e).

(** Everything but the pointers and the counters. *)
Definition same_data (st st' : hpack) : Prop :=
  storage st' = storage st /\ pos st' = pos st /\ size st' = size st /\ free st' = free st /\
  live st' = live st.

Lemma live_ext st st' :
  added st' = added st -> deleted st' = deleted st ->
  (forall i, deleted st <= i < added st -> entry_at st' i = entry_at st i) -> live st' = live st.
Proof.
  intros Ha Hd H. unfold live. rewrite Ha, Hd. apply list_fmap_ext. intros i k Hk.
  apply lookup_seqZ in Hk as [-> ?]. apply H. lia.
Qed.

Lemma new_entry_ok st e st' :
  array_ok st -> new_entry st = (e, st') ->
  array_ok st' /\ fresh st' e /\ same_data st st' /\ added st' = added st /\
  (added st' - reused st' < allocated st' \/ added st' - deleted st' = allocated st').
Proof.
  intros [He Ha Ho Hw Hi Hb]. unfold new_entry.
  destruct (Z.eqb_spec (reused st) (deleted st)) as [E|E]; intros; simplify_eq.
  - split; [split; simpl; try done; intros i Hr; rewrite length_app; specialize (Hb i Hr); simpl;
      change (slot (set_objs _ st) i) with (slot st i); lia|].
    split; [|split; [|split; [done|simpl; lia]]].
    + split; [simpl; rewrite length_app; simpl; lia|]. intros i Hr. simpl in Hr.
      change (slot (set_objs _ st) i) with (slot st i). specialize (Hb i Hr). lia.
    + split_and!; try done. apply live_ext; [done..|]. intros i Hr. unfold entry_at.
      change (slot (set_objs _ st) i) with (slot st i). simpl.
      rewrite app_nth1; [done|]. apply Hb. lia.
  - rewrite u64_id by lia.
    split; [split; simpl; try done; try lia; intros; [apply Hi|apply Hb]; by lia || done|].
    split; [|split; [|split; [done|simpl; lia]]].
    + split; [simpl; apply Hb; lia|]. intros i Hr. simpl in Hr.
      change (slot (set_reused _ st) i) with (slot st i). intros Heq.
      apply Hi in Heq; lia.
    + split_and!; try done.
Qed.

(** The structure [e] and the storage are written. *)
Lemma array_write st e x s p :
  array_ok st -> fresh st e ->
  let st' := set_objs (<[e := x]> (objs st)) (set_pos p (set_storage s st)) in
  array_ok st' /\ fresh st' e /\ live st' = live st.
Proof.
  intros [He Ha Ho Hw Hi Hb] [Hf1 Hf2] st'. split; [|split].
  - split; simpl; try done. intros i Hr. rewrite length_insert. by apply Hb.
  - split; [simpl; by rewrite length_insert|]. intros i Hr. by apply Hf2.
  - apply live_ext; [done..|]. intros i Hr. unfold entry_at.
    change (slot st' i) with (slot st i). simpl. rewrite !nth_lookup, list_lookup_insert_ne; [done|].
    intros ->. apply (Hf2 i); [lia|done].
Qed.

Lemma slot_zn st es i : entries st = Some es -> slot st i = zn O es (i `mod` allocated st).
Proof. unfold slot. by intros ->. Qed.

(** Growing keeps the pointers in their order. *)
Lemma grow_slot st i :
  array_ok st -> allocated st = added st - deleted st -> 0 <= i < allocated st ->
  slot (grow st) i = slot st (deleted st + i).
Proof.
  intros [(es & He & Hl) Ha Ho Hw Hi Hb] Hfull Hr. unfold grow.
  rewrite u64_id by lia. rewrite (proj2 (Z.eqb_eq _ _)) by done.
  rewrite (slot_zn st es) by done. unfold slot. simpl. rewrite He. simpl.
  pose proof (Z.mod_pos_bound (deleted st) (allocated st) Ha) as Hm.
  set (d := deleted st `mod` allocated st) in *.
  replace (Z.to_nat (allocated st) - Z.to_nat d)%nat with (Z.to_nat (allocated st - d)) by lia.
  rewrite (Z.mod_small i) by lia.
  lazymatch goal with |- nth _ ?l O = _ => change (nth (Z.to_nat i) l O) with (zn O l i) end.
  rewrite zn_app, length_take, length_drop by lia.
  assert ((deleted st + i) `mod` allocated st = if i <? allocated st - d then d + i else d + i - allocated st)
    as ->.
  { rewrite <- Zplus_mod_idemp_l. fold d. destruct (Z.ltb_spec i (allocated st - d)).
    - apply Z.mod_small. lia.
    - symmetry. apply (Z.mod_unique _ _ 1); lia. }
  destruct (Z.ltb_spec i (allocated st - d)), (Z.ltb_spec i
    (Z.of_nat (Z.to_nat (allocated st - d) `min` (length es - Z.to_nat d)))); try lia.
  - rewrite zn_take, zn_drop by lia. done.
  - rewrite zn_app, length_take by lia.
    rewrite (proj2 (Z.ltb_lt _ _)) by lia. rewrite zn_take by lia. f_equal. lia.
Qed.

Lemma grow_ok st e :
  array_ok st -> fresh st e -> added st < 2 ^ 64 - 1 ->
  added st - reused st < allocated st \/ added st - deleted st = allocated st ->
  array_ok (grow st) /\ fresh (grow st) e /\ same_data st (grow st) /\ objs (grow st) = objs st /\
  added (grow st) <= added st /\ added (grow st) - reused (grow st) < allocated (grow st).
Proof.
  intros Hok [Hf1 Hf2] Hadd Hroom. pose proof Hok as [(es & He & Hl) Ha Ho Hw Hi Hb].
  destruct (decide (allocated st = added st - deleted st)) as [Hfull|Hnot].
  - pose proof (grow_slot st) as Hs. specialize (fun i => Hs i Hok Hfull).
    unfold grow in *. rewrite u64_id, (proj2 (Z.eqb_eq _ _)) in * by lia.
    rewrite He in *. simpl default in *.
    set (d := Z.to_nat (deleted st `mod` allocated st)) in *.
    pose proof (Z.mod_pos_bound (deleted st) (allocated st) Ha).
    set (st' := Hpack _ _ _ _ _ _ _ _ _ _) in *.
    assert (forall i, 0 <= i < allocated st -> (slot st' i < length (objs st))%nat) as Hb'.
    { intros i Hr. rewrite Hs by done. apply Hb. lia. }
    split; [split; try done; simpl|split; [|split; [|split; [done|simpl; lia]]]].
    + eexists. split; [done|]. rewrite !length_app, !length_take, length_drop. simpl. lia.
    + lia.
    + lia.
    + lia.
    + intros i j Hri Hrj. rewrite !Hs by lia. intros Heq. apply Hi in Heq; lia.
    + split; [done|]. simpl. intros i Hr. rewrite Hs by lia. apply Hf2. lia.
    + split_and!; try done. unfold live. simpl. replace (added st - deleted st) with (allocated st - 0) by lia.
      apply list_fmap_ext. intros k x Hk. apply lookup_seqZ in Hk as [-> ?].
      unfold entry_at. rewrite Hs by lia. simpl. do 2 f_equal. lia.
  - assert (grow st = st) as ->.
    { unfold grow. rewrite u64_id by lia. by rewrite (proj2 (Z.eqb_neq _ _)). }
    split; [done|]. split; [done|]. split; [by split_and!|]. split; [done|]. lia.
Qed.

(** The new entry is stored at [added]. *)
Lemma push_ok st e :
  array_ok st -> fresh st e -> added st < 2 ^ 64 - 1 ->
  added st - reused st < allocated st ->
  let st' := set_added (u64 (added st + 1)) (set_slot st (added st) e) in
  array_ok st' /\ live st' = nth e (objs st) (Entry 0 0 0 0) :: live st.
Proof.
  intros [(es & He & Hl) Ha Ho Hw Hi Hb] [Hf1 Hf2] Hadd Hroom st'.
  pose proof (Z.mod_pos_bound (added st) (allocated st) Ha) as Hm.
  set (es' := <[Z.to_nat (added st `mod` allocated st) := e]> es).
  assert (st' = set_added (added st + 1) (set_entries (Some es') st)) as Est.
  { unfold st', set_slot. rewrite He, u64_id by lia. done. }
  assert (forall i, reused st <= i <= added st ->
    slot st' i = if i =? added st then e else slot st i) as Hs.
  { intros i Hr. rewrite Est. unfold slot. simpl. rewrite He.
    pose proof (Z.mod_pos_bound i (allocated st) Ha).
    fold (zn O es' (i `mod` allocated st)) (zn O es (i `mod` allocated st)).
    unfold es'. rewrite zn_insert by lia. rewrite Z2Nat.id by lia.
    destruct (Z.eqb_spec i (added st)) as [->|Hne]; [by rewrite Z.eqb_refl|].
    rewrite (proj2 (Z.eqb_neq _ _)); [done|]. intros Heq.
    assert ((added st - i) `mod` allocated st = 0) as H0.
    { rewrite Zminus_mod, Heq, Z.sub_diag. apply Z.mod_0_l. lia. }
    rewrite Z.mod_small in H0 by lia. lia. }
  assert (forall k, objs (set_added k (set_entries (Some es') st)) = objs st) as Hobjs by done.
  split.
  - rewrite Est in Hs |- *. split; simpl.
    + exists es'. split; [done|]. unfold es'. by rewrite length_insert.
    + done.
    + lia.
    + lia.
    + intros i j Hri Hrj. rewrite !Hs by lia.
      destruct (Z.eqb_spec i (added st)), (Z.eqb_spec j (added st)); try lia; intros Heq.
      * exfalso. apply (Hf2 j); [lia|done].
      * exfalso. apply (Hf2 i); [lia|done].
      * apply Hi; [lia|lia|done].
    + intros i Hr. rewrite Hs by lia. destruct (Z.eqb_spec i (added st)); [done|]. apply Hb. lia.
  - unfold live. assert (added st' = added st + 1 /\ deleted st' = deleted st) as [-> ->] by (rewrite Est; split; reflexivity).
    replace (added st + 1 - deleted st) with (Z.succ (added st - deleted st)) by lia.
    rewrite seqZ_cons by lia. simpl. rewrite Z.pred_succ. f_equal.
    + unfold entry_at. replace (added st + 1 - 1 - 0) with (added st) by lia.
      rewrite Hs by lia. rewrite Z.eqb_refl. by rewrite Est.
    + change (Z.succ 0) with (1 + 0). rewrite <- fmap_add_seqZ, <- list_fmap_compose.
      apply list_fmap_ext. intros k x Hk. apply lookup_seqZ in Hk as [-> ?]. simpl.
      unfold entry_at. replace (added st + 1 - 1 - (1 + Z.of_nat k)) with (added st - 1 - (0 + Z.of_nat k)) by lia.
      rewrite Hs by lia. rewrite (proj2 (Z.eqb_neq _ _)) by lia. rewrite Est. simpl. do 2 f_equal. lia.
Qed.

(** *** Insertion *)

Lemma mod_before p q n : (T | q - p) -> 0 < n <= T -> (q - n - p) `mod` T = T - n \/ n = T.
Proof.
  intros Hd Hn. destruct (decide (n = T)); [by right|]. left. apply mod_in; [lia|].
  replace (q - n - p - (T - n)) with (q - p - T) by lia. by apply Z.divide_sub_r.
Qed.

(** A byte [n] before the position of a write is kept, when the written bytes
    do not reach around to it. *)
Lemma write_before s s' pos n m data q :
  (forall p, ring_at s' p =
     if (p - pos) `mod` T <? m then zn 0 data ((p - pos) `mod` T) else ring_at s p) ->
  (T | q - pos) -> 0 < n -> 0 <= m -> n + m <= T -> ring_at s' (q - n) = ring_at s (q - n).
Proof.
  intros Hw Hd Hn Hm Hnm. rewrite Hw.
  destruct (mod_before pos q n Hd) as [-> | ->]; [lia|by rewrite (proj2 (Z.ltb_ge _ _)) by lia|].
  assert (m = 0) as -> by lia. by rewrite (proj2 (Z.ltb_ge _ _)) by apply T_mod.
Qed.

Lemma write_at s s' pos m data p i :
  (forall p, ring_at s' p =
     if (p - pos) `mod` T <? m then zn 0 data ((p - pos) `mod` T) else ring_at s p) ->
  (T | p - pos) -> 0 <= i < m -> m <= T -> ring_at s' (p + i) = zn 0 data i.
Proof.
  intros Hw Hd Hi Hm. rewrite Hw. rewrite (mod_in i (p + i - pos)); [|lia|].
  - by rewrite (proj2 (Z.ltb_lt _ _)) by lia.
  - by replace (p + i - pos - i) with (p - pos) by lia.
Qed.

(** Both strings of a header are written behind those of the table. *)
Lemma store_ok s pos es t h s1 p1 s2 p2 :
  ring_wf s -> 0 <= pos <= T -> laid s pos es t -> tbytes t + hbytes h <= T ->
  ring_write s pos (T - pos) (name h) = (s1, p1) ->
  ring_write s1 p1 ((if len (name h) <=? T - pos then T - pos else T) - len (name h)) (value h)
    = (s2, p2) ->
  ring_wf s2 /\ 0 <= p2 <= T /\
  laid s2 p2 (Entry (len (name h)) pos (len (value h)) p1 :: es) (h :: t).
Proof.
  intros Hs Hp Hl Hroom E1 E2. pose proof (tbytes_total t). unfold hbytes in Hroom.
  pose proof (len_nonneg (name h)). pose proof (len_nonneg (value h)).
  pose proof (ring_write_spec s pos _ (name h) _ _ Hs Hp ltac:(lia) (or_introl eq_refl) E1)
    as (Hs1 & Hp1 & Hd1 & Hw1).
  assert (p1 = if len (name h) <=? T - pos then pos + len (name h) else len (name h) - (T - pos))
    as Ep1 by (unfold ring_write in E1; destruct (len (name h) <=? T - pos); congruence).
  pose proof (ring_write_spec s1 p1 ((if len (name h) <=? T - pos then T - pos else T) - len (name h))
    (value h) _ _ Hs1 Hp1 ltac:(lia)
    ltac:(rewrite Ep1; destruct (Z.leb_spec (len (name h)) (T - pos)); [left|right]; lia) E2) as (Hs2 & Hp2 & Hd2 & Hw2).
  split; [done|]. split; [done|]. cbn [laid name_len name_data value_len value_data].
  unfold hbytes. set (q := p2 - (len (name h) + len (value h))).
  assert (T | q - pos) as Hq.
  { replace (q - pos) with (p2 - (p1 + len (value h)) + (p1 - (pos + len (name h)))) by (unfold q; lia).
    by apply Z.divide_add_r. }
  assert (forall p, (T | p - pos) -> (T | p + len (name h) - p1)) as Hshift.
  { intros p Hpp. replace (p + len (name h) - p1) with (p - pos - (p1 - (pos + len (name h)))) by lia.
    by apply Z.divide_sub_r. }
  split; [split_and!; try (done || lia)|split; [split_and!; try (done || lia)|]].
  - replace (pos - q) with (- (q - pos)) by lia. by apply Z.divide_opp_r.
  - apply ring_eq; [done|]. intros i Hi.
    replace (q + i) with (q + len (name h) - (len (name h) - i)) by lia.
    rewrite (write_before s1 s2 p1 (len (name h) - i) (len (value h)) (value h)); [|exact Hw2|by apply Hshift|lia..].
    replace (q + len (name h) - (len (name h) - i)) with (q + i) by lia.
    eapply write_at; [exact Hw1|done|lia|lia].
  - replace (p1 - (q + len (name h))) with (- (q + len (name h) - p1)) by lia.
    by apply Z.divide_opp_r, Hshift.
  - apply ring_eq; [done|]. intros i Hi. eapply write_at; [exact Hw2|by apply Hshift|lia|lia].
  - apply (laid_mod _ pos); [replace (pos - q) with (- (q - pos)) by lia; by apply Z.divide_opp_r|].
    apply (laid_ext s); [|done]. intros i Hi.
    transitivity (ring_at s1 (pos - i)).
    + replace (pos - i) with (pos + len (name h) - (i + len (name h))) by lia.
      eapply write_before; [exact Hw2|apply Hshift; exists 0; lia|lia..].
    + eapply write_before; [exact Hw1|exists 0; lia|lia..].
Qed.

Lemma evict_total room t : 0 <= room -> total (evict room t) <= room.
Proof.
  revert room. induction t as [|h t IH]; intros room Hr; simpl; [lia|].
  destruct (Z.leb_spec (hsize h) room); simpl; [|lia]. specialize (IH (room - hsize h)). lia.
Qed.

Lemma add_header_ok st t max h :
  entries st <> None -> table_ok st t max 0 -> added st < 2 ^ 64 - 1 ->
  exists st', ngx_http_v2_add_header st h = Some st' /\ table_ok st' (table_add max h t) max 0 /\
    added st' <= added st + 1 /\ entries st' <> None.
Proof.
  intros He H Hadd. unfold ngx_http_v2_add_header.
  assert (hpack_alloc st = st) as -> by (unfold hpack_alloc; by destruct (entries st)).
  change (len (name h) + len (value h)) with (hbytes h).
  destruct (table_account_ok st t max h H) as (st1 & ok & -> & Ha1 & Hok & H1).
  cbn [mbind option_bind]. unfold table_add. rewrite <- Hok. destruct ok; cbn [negb].
  2: { exists st1. split; [done|]. split; [done|]. split; [lia|].
       destruct H1 as [[(es & E & _) _ _ _ _ _] _ _ _ _ _]. by rewrite E. }
  set (t1 := evict (max - hsize h) t) in *. destruct H1 as [Har Hst Hp Hl [Hs Hm] (Hf & Hf0 & _)].
  pose proof (tbytes_total t1). pose proof (hsize_bytes h).
  destruct (new_entry st1) as [e st2] eqn:En.
  destruct (new_entry_ok _ _ _ Har En) as (Har2 & Hfr2 & (Es & Ep & Esz & Ef & El) & Ead & Hroom).
  rewrite Es, Ep. destruct (ring_write _ _ _ (name h)) as [s1 p1] eqn:E1.
  destruct (ring_write s1 _ _ (value h)) as [s2 p2] eqn:E2.
  destruct (store_ok _ _ _ t1 h _ _ _ _ Hst Hp Hl ltac:(lia) E1 E2) as (Hs2 & Hp2 & Hl2).
  set (x := Entry _ _ _ _) in *.
  destruct (array_write st2 e x s2 p2 Har2 Hfr2) as (Har3 & Hfr3 & El3).
  set (st3 := set_objs _ _) in *. cbv zeta in *.
  destruct (grow_ok st3 e Har3 Hfr3) as (Har4 & Hfr4 & (Es4 & Ep4 & Esz4 & Ef4 & El4) & Eo4 & Ha4 & Hr4);
    [simpl; lia|exact Hroom|].
  destruct (push_ok (grow st3) e Har4 Hfr4) as (Har5 & El5); [simpl in *; lia|done|].
  set (st5 := set_added _ _) in *. eexists. split; [done|]. split; [|split].
  - assert (live st5 = x :: live st1) as El'.
    { rewrite El5, El4, El3, El, Eo4. f_equal. simpl. rewrite nth_lookup, list_lookup_insert_eq; [done|].
      by destruct Hfr2. }
    split; [done|..]; change (storage st5) with (storage (grow st3));
      change (pos st5) with (pos (grow st3)); change (size st5) with (size (grow st3));
      change (free st5) with (free (grow st3)); rewrite ?Es4, ?Ep4, ?Esz4, ?Ef4, ?El'; simpl in *.
    + done.
    + done.
    + done.
    + split; [congruence|done].
    + rewrite Ef. lia.
  - assert (0 <= added (grow st3)) by (destruct Har4 as [_ _ Ho _ _ _]; lia).
    change (added st5) with (u64 (added (grow st3) + 1)). rewrite u64_id; [|simpl in *; lia].
    simpl in *. lia.
  - by destruct Har5 as [(es & -> & _) _ _ _ _ _].
Qed.

Lemma table_alloc_ok st :
  entries st = None -> added st = 0 -> deleted st = 0 -> reused st = 0 ->
  table_ok (hpack_alloc st) [] T 0 /\ entries (hpack_alloc st) <> None /\ added (hpack_alloc st) = 0.
Proof.
  intros He Ha Hd Hr. unfold hpack_alloc. rewrite He. split; [|done].
  split; simpl; rewrite ?Ha, ?Hd, ?Hr; try done.
  split; simpl; rewrite ?Ha, ?Hd, ?Hr; try lia. by eexists.
Qed.

(** *** Lookup *)

(** The index address space (section 2.3.3): the static table, then the dynamic
    one; with [name_only], the value of a dynamic entry is not taken. *)
Definition table_get (t : list header) (old : header) (index : Z) (name_only : bool)
  : option header :=
  if index =? 0 then None
  else
    h ← (ngx_http_v2_static_table ++ t) !! Z.to_nat (index - 1);
    Some (if name_only && (NGX_HTTP_V2_STATIC_TABLE_ENTRIES <? index)
          then Header (name h) (value old) else h).

Lemma laid_lookup s p es t k h :
  ring_wf s -> tbytes t <= T -> laid s p es t -> t !! k = Some h ->
  exists e, es !! k = Some e /\
    ring_copy s (name_data e) (name_len e) = name h /\
    ring_copy s (value_data e) (value_len e) = value h.
Proof.
  revert p es k. induction t as [|h' t IH]; intros p es k Hs Ht Hl Hk; [done|].
  destruct es as [|e es]; [done|]. destruct Hl as ((H1 & H2 & H3 & H4) & (H5 & H6 & H7 & H8) & Hl).
  cbn [tbytes] in Ht. pose proof (tbytes_total t). unfold hbytes in *.
  pose proof (len_nonneg (name h')). pose proof (len_nonneg (value h')).
  destruct k as [|k]; simpl in Hk.
  - simplify_eq. exists e. split; [done|]. rewrite H1, H5, !ring_copy_spec by (done || lia). split.
    + etransitivity; [apply ring_mod|exact H4]. done.
    + etransitivity; [apply ring_mod|exact H8]. done.
  - destruct (IH _ es k Hs ltac:(lia) Hl Hk) as (e' & He' & Hc). by exists e'.
Qed.

Lemma get_ok st t max old index name_only :
  table_ok st t max 0 -> 0 <= index ->
  ngx_http_v2_get_indexed_header st old index name_only = table_get t old index name_only.
Proof.
  intros H Hi. pose proof (table_length _ _ _ _ H) as Hlen.
  destruct H as [[_ _ Ho _ _ _] Hs _ Hl [_ Hm] (Hf & Hf0 & _)].
  pose proof (tbytes_total t). unfold ngx_http_v2_get_indexed_header, table_get.
  destruct (Z.eqb_spec index 0); [done|].
  assert (NGX_HTTP_V2_STATIC_TABLE_ENTRIES = 61) as E61 by done.
  assert (length ngx_http_v2_static_table = 61%nat) as L61 by done. rewrite E61 in *.
  destruct (Z.ltb_spec (index - 1) 61).
  - rewrite lookup_app_l by lia.
    destruct (lookup_lt_is_Some_2 ngx_http_v2_static_table (Z.to_nat (index - 1))) as [h Hh]; [lia|].
    rewrite Hh. cbn [mbind option_bind]. rewrite (proj2 (Z.ltb_ge 61 _)), andb_false_r by lia.
    by rewrite (nth_lookup_Some _ _ _ _ Hh).
  - rewrite lookup_app_r, L61 by lia. rewrite (u64_id (added st - deleted st)) by lia.
    destruct (Z.ltb_spec (index - 1 - 61) (added st - deleted st)).
    + rewrite u64_id by lia.
      destruct (lookup_lt_is_Some_2 t (Z.to_nat (index - 1) - 61)) as [h Hh]; [lia|].
      destruct (laid_lookup _ _ _ t _ _ Hs ltac:(lia) Hl Hh) as (e & He & Hn & Hv).
      rewrite Hh. cbn [mbind option_bind]. rewrite (proj2 (Z.ltb_lt 61 index)), andb_true_r by lia.
      unfold live in He. rewrite list_lookup_fmap, lookup_seqZ_lt in He by lia. simpl in He.
      assert (entry_at st (added st - (index - 1 - 61) - 1) = e) as ->.
      { injection He as <-. f_equal. lia. }
      destruct name_only; [by rewrite Hn|rewrite Hn, Hv; by destruct h].
    + rewrite lookup_ge_None_2 by lia. done.
Qed.

(** ** Any sequence of operations *)

Inductive op : Type :=
  | Add (h : header)
  | Resize (n : Z)
  | Get (old : header) (index : Z) (name_only : bool).

Inductive reply : Type := Done | Failed | Got (h : header).

Definition got (o : option header) : reply := match o with Some h => Got h | None => Failed end.

Definition hpack_step (st : hpack) (o : op) : option (hpack * reply) :=
  match o with
  | Add h => st ← ngx_http_v2_add_header st h; Some (st, Done)
  | Resize n => r ← ngx_http_v2_table_size st n;
                Some (match r with Some st => (st, Done) | None => (st, Failed) end)
  | Get old i b => Some (st, got (ngx_http_v2_get_indexed_header st old i b))
  end.

Fixpoint hpack_run (st : hpack) (ops : list op) : option (list reply) :=
  match ops with
  | [] => Some []
  | o :: ops => '(st, r) ← hpack_step st o; rs ← hpack_run st ops; Some (r :: rs)
  end.

(** *** The table of the code as a list

    This is what the code does, not the RFC: next to the list and its maximal
    size it has whether a header has been inserted, because the first insertion
    sets the maximal size to 4096. *)
Record table : Type := Table { t_list : list header; t_max : Z; t_used : bool }.

Definition table_step (s : table) (o : op) : table * reply :=
  match o with
  | Add h =>
      let max := if t_used s then t_max s else T in
      (Table (table_add max h (t_list s)) max true, Done)
  | Resize n =>
      if T <? n then (s, Failed) else (Table (evict n (t_list s)) n (t_used s), Done)
  | Get old i b => (s, got (table_get (t_list s) old i b))
  end.

Fixpoint table_run (s : table) (ops : list op) : list reply :=
  match ops with
  | [] => []
  | o :: ops => let '(s, r) := table_step s o in r :: table_run s ops
  end.

Definition op_ok (o : op) : Prop :=
  match o with Add _ => True | Resize n => 0 <= n | Get _ i _ => 0 <= i end.

(** The simulation relation; [n] bounds the insertions so far. *)
Definition represents (st : hpack) (s : table) (n : Z) : Prop :=
  added st <= n /\
  if t_used s then entries st <> None /\ table_ok st (t_list s) (t_max s) 0
  else exists z, st = Hpack None [] 0 0 0 0 z z [] 0 /\ 0 <= z <= T /\ t_list s = [].

Lemma step_refines st s n o :
  represents st s n -> op_ok o -> 0 <= n < 2 ^ 64 - 1 ->
  exists st', hpack_step st o = Some (st', (table_step s o).2) /\
    represents st' (table_step s o).1 (n + 1).
Proof.
  intros [Ha Hr] Ho Hn. destruct o as [h|z|old i b]; simpl in Ho |- *.
  - destruct (t_used s) eqn:Hu.
    + destruct Hr as [He H]. destruct (add_header_ok _ _ _ h He H) as (st' & -> & H' & Ha' & He'); [lia|].
      exists st'. split; [done|]. split; [lia|]. simpl. done.
    + destruct Hr as (z & -> & Hz & ->).
      destruct (table_alloc_ok (Hpack None [] 0 0 0 0 z z [] 0)) as (H & He & H0); [done..|].
      destruct (add_header_ok _ _ _ h He H) as (st' & E & H' & Ha' & He'); [lia|].
      change (ngx_http_v2_add_header (Hpack None [] 0 0 0 0 z z [] 0) h = Some st') in E.
      rewrite E. exists st'. split; [done|]. split; [lia|]. simpl. done.
  - destruct (Z.ltb_spec T z).
    + unfold ngx_http_v2_table_size. rewrite (proj2 (Z.ltb_lt _ _)) by done. simpl.
      exists st. split; [done|]. split; [lia|done].
    + destruct (t_used s) eqn:Hu.
      * destruct Hr as [He H']. destruct (table_size_ok _ _ _ z H') as (st' & -> & H1 & H2); [lia|].
        exists st'. split; [done|]. split; [lia|]. simpl. split; [|done].
        destruct H1 as [[(es & -> & _) _ _ _ _ _] _ _ _ _ _]. done.
      * destruct Hr as (y & -> & Hy & Ht). unfold ngx_http_v2_table_size.
        rewrite (proj2 (Z.ltb_ge _ _)) by done. simpl.
        rewrite (proj2 (Z.ltb_ge _ _)) by lia. simpl.
        eexists. split; [done|]. split; [simpl; lia|]. simpl. exists z.
        rewrite Ht. split; [|split; [lia|done]]. unfold set_free, set_size. simpl.
        unfold NGX_HTTP_V2_TABLE_SIZE in *. rewrite u64_id by lia. f_equal. lia.
  - exists st. split.
    + do 3 f_equal. destruct (t_used s) eqn:Hu.
      * destruct Hr as [He H]. by eapply get_ok.
      * destruct Hr as (y & -> & Hy & ->). unfold ngx_http_v2_get_indexed_header, table_get.
        destruct (Z.eqb_spec i 0); [done|]. rewrite app_nil_r.
        assert (NGX_HTTP_V2_STATIC_TABLE_ENTRIES = 61) as E61 by done.
        assert (length ngx_http_v2_static_table = 61%nat) as L61 by done. rewrite E61.
        destruct (Z.ltb_spec (i - 1) 61).
        -- destruct (lookup_lt_is_Some_2 ngx_http_v2_static_table (Z.to_nat (i - 1))) as [h Hh]; [lia|].
           rewrite Hh. cbn [mbind option_bind]. rewrite (proj2 (Z.ltb_ge 61 _)), andb_false_r by lia.
           by rewrite (nth_lookup_Some _ _ _ _ Hh).
        -- rewrite lookup_ge_None_2 by lia. cbn [mbind option_bind added deleted]. change (u64 (0 - 0)) with 0.
           by rewrite (proj2 (Z.ltb_ge _ _)) by lia.
    + split; [lia|done].
Qed.

Lemma run_refines ops : Forall op_ok ops -> forall n st s,
  represents st s n -> 0 <= n -> n + Z.of_nat (length ops) < 2 ^ 63 -> hpack_run st ops = Some (table_run s ops).
Proof.
  induction 1 as [|o ops Ho Hops IH]; intros n st s H H0 Hn; [done|].
  cbn [length] in Hn. cbn [hpack_run table_run].
  destruct (step_refines st s n o H Ho) as (st' & -> & H'); [lia|]. cbn [mbind option_bind].
  destruct (table_step s o) as [s' r]. simpl in H'.
  by rewrite (IH (n + 1) st' s') by (done || lia).
Qed.

(** *** The table of RFC 7541 *)

(** A list and its maximal size, which a size update sets (4.3, 6.3). *)
Record rfc_table : Type := Rfc { rfc_list : list header; rfc_max : Z }.

Definition rfc_step (s : rfc_table) (o : op) : rfc_table * reply :=
  match o with
  | Add h => (Rfc (table_add (rfc_max s) h (rfc_list s)) (rfc_max s), Done)
  | Resize n => if T <? n then (s, Failed) else (Rfc (evict n (rfc_list s)) n, Done)
  | Get old i b => (s, got (table_get (rfc_list s) old i b))
  end.

Fixpoint rfc_run (s : rfc_table) (ops : list op) : list reply :=
  match ops with
  | [] => []
  | o :: ops => let '(s, r) := rfc_step s o in r :: rfc_run s ops
  end.

Definition rfc_init : rfc_table := Rfc [] T.

(** The maximal size is 4096 at the first insertion, if there is one. *)
Fixpoint settled (max : Z) (ops : list op) : bool :=
  match ops with
  | [] => true
  | Add _ :: _ => max =? T
  | Resize n :: ops => settled (if T <? n then max else n) ops
  | Get _ _ _ :: ops => settled max ops
  end.

(** The operations with the sizes before the first insertion replaced by 4096. *)
Fixpoint forget (ops : list op) : list op :=
  match ops with
  | Resize n :: ops => Resize (if T <? n then n else T) :: forget ops
  | Get old i b :: ops => Get old i b :: forget ops
  | _ => ops
  end.

(** Once a header has been inserted, the code does as the RFC. *)
Lemma used_run_rfc ops l max : table_run (Table l max true) ops = rfc_run (Rfc l max) ops.
Proof.
  revert l max. induction ops as [|o ops IH]; intros l max; [done|]. cbn [table_run rfc_run].
  destruct o as [h|n|old i b]; cbn; [by rewrite IH| |by rewrite IH]. destruct (T <? n); by rewrite IH.
Qed.

Lemma settled_run_rfc ops max max' : settled max ops = true -> table_run (Table [] max' false) ops = rfc_run (Rfc [] max) ops.
Proof.
  revert max max'. induction ops as [|o ops IH]; intros max max' Hs; [done|]. cbn [table_run rfc_run].
  destruct o as [h|n|old i b]; cbn in Hs |- *.
  - apply Z.eqb_eq in Hs as ->. by rewrite used_run_rfc.
  - destruct (T <? n); f_equal; by apply IH.
  - f_equal. by apply IH.
Qed.

Lemma forget_run_rfc ops max : table_run (Table [] max false) ops = rfc_run (Rfc [] T) (forget ops).
Proof.
  revert max. induction ops as [|o ops IH]; intros max; [done|].
  destruct o as [h|n|old i b]; cbn [forget table_run rfc_run].
  - cbn. by rewrite used_run_rfc.
  - cbn. destruct (Z.ltb_spec T n) as [Hn|Hn]; cbn.
    + rewrite (proj2 (Z.ltb_lt T n)) by done. f_equal. apply IH.
    + f_equal. apply IH.
  - cbn. f_equal. apply IH.
Qed.

(** C4. The pointer array, the recycled entries and the storage ring behave as a
    list: every sequence of insertions, size updates and lookups from a new
    connection ends, and gives the replies of the list of RFC 7541, provided
    that the maximal size is 4096 when the first header is inserted.  In general
    they are those of the list when each size update before the first insertion
    is one to 4096: the code forgets it, which the RFC does not allow. *)
Theorem hpack_table_refines ops :
  Forall op_ok ops -> Z.of_nat (length ops) < 2 ^ 63 ->
  (settled T ops = true -> hpack_run hpack_init ops = Some (rfc_run rfc_init ops)) /\
  hpack_run hpack_init ops = Some (rfc_run rfc_init (forget ops)).
Proof.
  intros Hops Hn.
  assert (hpack_run hpack_init ops = Some (table_run (Table [] 0 false) ops)) as ->.
  { apply (run_refines ops Hops 0); [|lia|lia]. split; [done|]. by exists 0. }
  split; [intros Hs; f_equal; by apply settled_run_rfc|f_equal; apply forget_run_rfc].
Qed.

Definition sample_ops : list op :=
  [Add (hdr "custom-key" "custom-value"); Resize 60; Add (hdr "cache-control" "no-cache");
   Get (hdr "" "") 62 false; Get (hdr "" "") 63 false].

Lemma hpack_table_refines_witness :
  hpack_run hpack_init sample_ops = Some (rfc_run rfc_init sample_ops) /\
  rfc_run rfc_init sample_ops = [Done; Done; Done; Got (hdr "cache-control" "no-cache"); Failed] /\
  hpack_run hpack_init (Resize 0 :: sample_ops) = Some (rfc_run rfc_init (forget (Resize 0 :: sample_ops))).
Proof.
  split; [|split; [vm_compute; reflexivity|]].
  - refine (proj1 (hpack_table_refines sample_ops _ _) eq_refl); [|vm_compute; reflexivity].
    repeat constructor; vm_compute; discriminate.
  - refine (proj2 (hpack_table_refines (Resize 0 :: sample_ops) _ _)); [|vm_compute; reflexivity].
    repeat constructor; vm_compute; discriminate.
Defined.

(** A size update that comes before the first insertion is forgotten: the table
    of size 0 keeps the entry, which that of the RFC does not have. *)
Theorem hpack_size_update_lost :
  let ops := [Resize 0; Add (hdr "a" "b"); Get (hdr "" "") 62 false] in
  hpack_run hpack_init ops = Some [Done; Done; Got (hdr "a" "b")] /\
  rfc_run rfc_init ops = [Done; Done; Failed].
Proof. vm_compute. done. Qed.
