(* ===== verification/Http2Block.v ===== *)
(** * Http2Block: the HTTP/2 header block

    The handlers of src/http/v2/ngx_http_v2.c that decode the header block of
    HEADERS and CONTINUATION frames (header_block, field_len, field_huff,
    field_raw, field_skip, process_header, header_complete,
    handle_continuation, state_save and the loop of the read handler), over the
    integer code, the Huffman code (Http2Huff) and the header table
    (Http2Table); and what src/http/v2/ngx_http_v2_filter_module.c writes.

    The bytes between [pos] and [end] are a list.  The code that takes a header
    into the request (validation, pseudo headers, the header list) is a
    parameter [take_header]: whether it accepts the header after those it has
    accepted; if not, the stream is given up. *)

From S2P Require Import Prelude NgxHashKey Http2HuffTables Http2Huff Http2Table.

(** ** Integers *)

Definition NGX_HTTP_V2_INT_OCTETS : Z := 4.

(* http/v2/ngx_http_v2.h:289-289 ngx_http_v2_prefix *)
Definition ngx_http_v2_prefix (bits : Z) : Z := Z.shiftl 1 bits - 1.

(** The value and the number of bytes read, [NGX_ERROR], [NGX_DECLINED],
    [NGX_AGAIN]. *)
Inductive parsed : Type :=
  | Value (v : Z) (used : nat)
  | Pi_error
  | Pi_declined
  | Pi_again.

(* http/v2/ngx_http_v2.c:2419-2434 ngx_http_v2_parse_int: for *)
Fixpoint int_octets (shift value : Z) (used : nat) (p : list Z) : option (Z * nat) :=
  match p with
  | [] => None
  | octet :: p =>
      let value := u64 (value + Z.shiftl (Z.land octet 0x7f) shift) in
      if octet <? 128 then Some (value, S used)
      else int_octets (shift + 7) value (S used) p
  end.

(** [length] is [h2c->state.length], from which the caller subtracts the bytes
    read. *)
(* http/v2/ngx_http_v2.c:2392-2445 ngx_http_v2_parse_int *)
Definition ngx_http_v2_parse_int (length : Z) (pos : list Z) (prefix : Z) : parsed :=
  match pos with
  | [] => Pi_again
  | c :: _ =>
      let value := Z.land c prefix in
      if negb (value =? prefix) then
        if length =? 0 then Pi_error else Value value 1
      else
        let pos := take (Z.to_nat NGX_HTTP_V2_INT_OCTETS) pos in
        match int_octets 0 value 1 (tail pos) with
        | Some (value, used) => if length <? Z.of_nat used then Pi_error else Value value used
        | None =>
            if length <=? len pos then Pi_error
            else if len pos =? NGX_HTTP_V2_INT_OCTETS then Pi_declined
            else Pi_again
        end
  end.

(** [while (value >= 128)], at most [fuel] times. *)
(* http/v2/ngx_http_v2_filter_module.c:676-681 ngx_http_v2_write_int: while *)
Fixpoint write_octets (fuel : nat) (value : Z) : option (list Z) :=
  if 128 <=? value then
    match fuel with
    | O => None
    | S fuel =>
        rest ← write_octets fuel (value / 128);
        Some (u8 (value `mod` 128 + 128) :: rest)
    end
  else Some [u8 value].

(** The bytes written over [first], the byte at [pos]. *)
(* http/v2/ngx_http_v2_filter_module.c:665-684 ngx_http_v2_write_int *)
Definition ngx_http_v2_write_int (first prefix value : Z) : option (list Z) :=
  if value <? prefix then Some [Z.lor first (u8 value)]
  else
    rest ← write_octets 10 (value - prefix);
    Some (Z.lor first (u8 prefix) :: rest).

Definition NGX_HTTP_V2_ENCODE_RAW : Z := 0.
Definition NGX_HTTP_V2_ENCODE_HUFF : Z := 0x80.

(* http/v2/ngx_http_v2_filter_module.c:639-662 ngx_http_v2_string_encode *)
Definition ngx_http_v2_string_encode (src : list Z) (lower : bool) : option (list Z) :=
  let tmp := ngx_http_v2_huff_encode src lower in
  if 0 <? len tmp then
    dst ← ngx_http_v2_write_int NGX_HTTP_V2_ENCODE_HUFF (ngx_http_v2_prefix 7) (len tmp);
    Some (dst ++ tmp)
  else
    dst ← ngx_http_v2_write_int NGX_HTTP_V2_ENCODE_RAW (ngx_http_v2_prefix 7) (len src);
    Some (dst ++ if lower then ngx_tolower <$> src else src).

(* http/v2/ngx_http_v2_filter_module.c:20-20 ngx_http_v2_integer_octets *)
Definition ngx_http_v2_integer_octets (v : Z) : Z := 1 + v / 127.

(** A header line of the response. *)
(* http/v2/ngx_http_v2_filter_module.c:606-613 ngx_http_v2_header_filter: the header lines *)
Definition write_header (key val : list Z) : option (list Z) :=
  n ← ngx_http_v2_string_encode key true;
  v ← ngx_http_v2_string_encode val false;
  Some (0 :: n ++ v).

(** The first bytes of a representation whose index fits in the prefix. *)
(* http/v2/ngx_http_v2_filter_module.c:25-25 ngx_http_v2_indexed *)
Definition ngx_http_v2_indexed (i : Z) : Z := 128 + i.
(* http/v2/ngx_http_v2_filter_module.c:26-26 ngx_http_v2_inc_indexed *)
Definition ngx_http_v2_inc_indexed (i : Z) : Z := 64 + i.

(** ** The state of the connection *)

Inductive handler : Type :=
  | header_block | field_len | field_huff | field_raw | field_skip | header_complete.
#[export] Instance handler_eq_dec : EqDecision handler.
Proof. solve_decision. Defined.

(** [field] are the bytes between [field_start] and [field_end], [field_size]
    the size that was allocated for them; [stream] is [false] for [NULL];
    [taken] are the headers that the request has accepted. *)
(* http/v2/ngx_http_v2.h:68-94 ngx_http_v2_state_t *)
Record state : Type := State {
  sid : Z;
  length_ : Z;
  padding : Z;
  flags : Z;
  parse_name : bool;
  parse_value : bool;
  index : bool;
  cur : header;
  header_limit : Z;
  field_state : Z;
  field : list Z;
  field_size : Z;
  field_rest : Z;
  stream : bool;
  hpack_ : hpack;
  taken : list header
}.

Definition eta_state (x : state) : state :=
  State (sid x) (length_ x) (padding x) (flags x) (parse_name x) (parse_value x) (index x) (cur x)
    (header_limit x) (field_state x) (field x) (field_size x) (field_rest x) (stream x)
    (hpack_ x) (taken x).
Definition set_length := ltac:(setter eta_state length_).
Definition set_padding := ltac:(setter eta_state padding).
Definition set_flags := ltac:(setter eta_state flags).
Definition set_parse_name := ltac:(setter eta_state parse_name).
Definition set_parse_value := ltac:(setter eta_state parse_value).
Definition set_index := ltac:(setter eta_state index).
Definition set_cur := ltac:(setter eta_state cur).
Definition set_header_limit := ltac:(setter eta_state header_limit).
Definition set_field_state := ltac:(setter eta_state field_state).
Definition set_field := ltac:(setter eta_state field).
Definition set_field_size := ltac:(setter eta_state field_size).
Definition set_field_rest := ltac:(setter eta_state field_rest).
Definition set_stream := ltac:(setter eta_state stream).
Definition set_hpack := ltac:(setter eta_state hpack_).
Definition set_taken := ltac:(setter eta_state taken).

Definition NGX_HTTP_V2_PROTOCOL_ERROR : Z := 1.
Definition NGX_HTTP_V2_INTERNAL_ERROR : Z := 2.
Definition NGX_HTTP_V2_SIZE_ERROR : Z := 6.
Definition NGX_HTTP_V2_COMP_ERROR : Z := 9.
Definition NGX_HTTP_V2_ENHANCE_YOUR_CALM : Z := 11.

Definition NGX_HTTP_V2_CONTINUATION_FRAME : Z := 9.
Definition NGX_HTTP_V2_END_HEADERS_FLAG : Z := 4.
Definition NGX_HTTP_V2_FRAME_HEADER_SIZE : Z := 9.
Definition NGX_HTTP_V2_STATE_BUFFER_SIZE : Z := 16.

(** How a handler ends: a call of another handler, [return pos] with the
    handler that is to run next, a saved state with the bytes it keeps, a
    connection error, the end of the block. *)
Inductive outcome : Type :=
  | Call (h : handler) (st : state) (pos : list Z)
  | Return (h : handler) (st : state) (pos : list Z)
  | Save (h : handler) (st : state) (pos : list Z)
  | Conn_error (code : Z)
  | Complete (st : state) (pos : list Z).

Section Handlers.

(** The configured limit of a string, and the request code. *)
Context (max_field_size : Z) (take_header : list header -> header -> bool).

(* http/v2/ngx_http_v2.c:2324-2350 ngx_http_v2_state_save *)
Definition state_save (h : handler) (st : state) (pos : list Z) : outcome :=
  if NGX_HTTP_V2_STATE_BUFFER_SIZE <? len pos then Conn_error NGX_HTTP_V2_INTERNAL_ERROR
  else Save h st pos.

(** The bytes of a big-endian 32-bit integer. *)
(* http/v2/ngx_http_v2.h:300-301 ngx_http_v2_parse_uint32 *)
Definition ngx_http_v2_parse_uint32 (p : list Z) : Z :=
  u32 (Z.lor (Z.lor (Z.shiftl (nth 0 p 0) 24) (Z.shiftl (nth 1 p 0) 16))
        (Z.lor (Z.shiftl (nth 2 p 0) 8) (nth 3 p 0))).

Definition end_headers (st : state) : bool :=
  negb (Z.land (flags st) NGX_HTTP_V2_END_HEADERS_FLAG =? 0).

(** The padding that follows the [len] bytes of the frame is skipped, and they
    are moved over it; how many bytes were skipped, and the bytes that are left. *)
(* http/v2/ngx_http_v2.c:1719-1729 ngx_http_v2_handle_continuation: padding *)
Definition skip_padding (n padding : Z) (pos : list Z) : Z * list Z :=
  let skip := if (0 <? padding) && (n <? len pos) then Z.min padding (len pos - n) else 0 in
  (skip, take (Z.to_nat n) pos ++ drop (Z.to_nat (n + skip)) pos).

(** The rest of the frame is moved to the start of the next one. *)
(* http/v2/ngx_http_v2.c:1711-1770 ngx_http_v2_handle_continuation *)
Definition handle_continuation (h : handler) (st : state) (pos : list Z) : outcome :=
  let n := length_ st in
  let '(skip, pos) := skip_padding n (padding st) pos in
  let st := set_padding (padding st - skip) st in
  if len pos <? n + NGX_HTTP_V2_FRAME_HEADER_SIZE then state_save h st pos
  else
    let p := drop (Z.to_nat n) pos in
    let head := ngx_http_v2_parse_uint32 p in
    if negb (Z.land head 0xff =? NGX_HTTP_V2_CONTINUATION_FRAME) then
      Conn_error NGX_HTTP_V2_PROTOCOL_ERROR
    else
      let st := set_flags (Z.lor (flags st) (nth 4 p 0)) st in
      if negb (sid st =? Z.land (ngx_http_v2_parse_uint32 (drop 5 p)) 0x7fffffff) then
        Conn_error NGX_HTTP_V2_PROTOCOL_ERROR
      else
        Return h (set_length (n + Z.shiftr head 8) st)
          (take (Z.to_nat n) pos ++ drop (Z.to_nat (n + NGX_HTTP_V2_FRAME_HEADER_SIZE)) pos).

(* http/v2/ngx_http_v2.c:1674-1708 ngx_http_v2_state_header_complete *)
Definition state_header_complete (st : state) (pos : list Z) : outcome :=
  if negb (length_ st =? 0) then Return header_block st pos
  else if negb (end_headers st) then handle_continuation header_complete st pos
  else Complete st pos.

(* http/v2/ngx_http_v2.c:1569-1670 ngx_http_v2_state_process_header: the request takes the header *)
Definition process_stream (st : state) : state :=
  if negb (stream st) then st
  else if take_header (taken st) (cur st) then set_taken (taken st ++ [cur st]) st
  else set_stream false st.

(* http/v2/ngx_http_v2.c:1516-1671 ngx_http_v2_state_process_header *)
Definition state_process_header (st : state) (pos : list Z) : outcome :=
  if parse_name st then
    Call field_len (set_cur (Header (field st) (value (cur st))) (set_parse_name false st)) pos
  else
    let st :=
      if parse_value st then
        set_cur (Header (name (cur st)) (field st)) (set_parse_value false st)
      else st in
    let n := len (name (cur st)) + len (value (cur st)) in
    if header_limit st <? n then Conn_error NGX_HTTP_V2_ENHANCE_YOUR_CALM
    else
      let st := set_header_limit (header_limit st - n) st in
      if index st then
        match ngx_http_v2_add_header (hpack_ st) (cur st) with
        | None => Conn_error NGX_HTTP_V2_INTERNAL_ERROR
        | Some hp =>
            state_header_complete (process_stream (set_index false (set_hpack hp st))) pos
        end
      else state_header_complete (process_stream st) pos.

(** The bytes of the string that are in the frame and in the buffer. *)
Definition available (st : state) (pos : list Z) : nat :=
  Z.to_nat (Z.min (Z.min (len pos) (field_rest st)) (length_ st)).

Definition consume (st : state) (size : nat) : state :=
  set_field_rest (field_rest st - Z.of_nat size) (set_length (length_ st - Z.of_nat size) st).

(** What follows when a part of a string has been consumed. *)
(* http/v2/ngx_http_v2.c:1452-1470 ngx_http_v2_state_field_raw: after the copy *)
Definition field_next (h : handler) (st : state) (pos : list Z) : outcome :=
  if field_rest st =? 0 then state_process_header st pos
  else if negb (length_ st =? 0) then state_save h st pos
  else if end_headers st then Conn_error NGX_HTTP_V2_SIZE_ERROR
  else handle_continuation h st pos.

(* http/v2/ngx_http_v2.c:1374-1426 ngx_http_v2_state_field_huff *)
Definition state_field_huff (st : state) (pos : list Z) : outcome :=
  let size := available st pos in
  let st := consume st size in
  match ngx_http_v2_huff_decode (field_state st) (take size pos) (field_rest st =? 0) with
  | None => Conn_error NGX_HTTP_V2_COMP_ERROR
  | Some (fs, out) =>
      field_next field_huff (set_field (field st ++ out) (set_field_state fs st)) (drop size pos)
  end.

(* http/v2/ngx_http_v2.c:1429-1471 ngx_http_v2_state_field_raw *)
Definition state_field_raw (st : state) (pos : list Z) : outcome :=
  let size := available st pos in
  let st := consume st size in
  field_next field_raw (set_field (field st ++ take size pos) st) (drop size pos).

(* http/v2/ngx_http_v2.c:1474-1513 ngx_http_v2_state_field_skip *)
Definition state_field_skip (st : state) (pos : list Z) : outcome :=
  let size := available st pos in
  field_next field_skip (consume st size) (drop size pos).

(* http/v2/ngx_http_v2.c:1287-1371 ngx_http_v2_state_field_len *)
Definition state_field_len (st : state) (pos : list Z) : outcome :=
  if negb (end_headers st) && (length_ st <? NGX_HTTP_V2_INT_OCTETS) then
    handle_continuation field_len st pos
  else if length_ st <? 1 then Conn_error NGX_HTTP_V2_SIZE_ERROR
  else
    match pos with
    | [] => state_save field_len st pos
    | c :: _ =>
        let huff := negb (Z.shiftr c 7 =? 0) in
        match ngx_http_v2_parse_int (length_ st) pos (ngx_http_v2_prefix 7) with
        | Pi_again => state_save field_len st pos
        | Pi_declined => Conn_error NGX_HTTP_V2_COMP_ERROR
        | Pi_error => Conn_error NGX_HTTP_V2_SIZE_ERROR
        | Value n used =>
            if max_field_size <? n then Conn_error NGX_HTTP_V2_ENHANCE_YOUR_CALM
            else
              let st := set_field_rest n (set_length (length_ st - Z.of_nat used) st) in
              let pos := drop used pos in
              if negb (stream st) && negb (index st) then Call field_skip st pos
              else
                let alloc := (if huff then n * 8 / 5 else n) + 1 in
                let st := set_field [] (set_field_size alloc st) in
                Call (if huff then field_huff else field_raw) st pos
        end
    end.

(** The representation that a first byte announces: its prefix, and whether it
    is an indexed field, a size update, or to be added to the table. *)
(* http/v2/ngx_http_v2.c:1207-1234 ngx_http_v2_state_header_block: the first byte *)
Definition representation (ch : Z) : Z * bool * bool * bool :=
  if 128 <=? ch then (ngx_http_v2_prefix 7, true, false, false)
  else if 64 <=? ch then (ngx_http_v2_prefix 6, false, false, true)
  else if 32 <=? ch then (ngx_http_v2_prefix 5, false, true, false)
  else if 16 <=? ch then (ngx_http_v2_prefix 4, false, false, false)
  else (ngx_http_v2_prefix 4, false, false, false).

(** What follows the index, the size or the zero [v]. *)
(* http/v2/ngx_http_v2.c:1258-1283 ngx_http_v2_state_header_block: after the value *)
Definition header_value (indexed size_update : bool) (v : Z) (st : state) (pos : list Z) : outcome :=
  if indexed then
    match ngx_http_v2_get_indexed_header (hpack_ st) (cur st) v false with
    | None => Conn_error NGX_HTTP_V2_COMP_ERROR
    | Some h => state_process_header (set_cur h st) pos
    end
  else if size_update then
    match ngx_http_v2_table_size (hpack_ st) v with
    | Some (Some hp) => state_header_complete (set_hpack hp st) pos
    | Some None => Conn_error NGX_HTTP_V2_COMP_ERROR
    | None => Conn_error NGX_HTTP_V2_INTERNAL_ERROR
    end
  else if v =? 0 then
    Call field_len (set_parse_value true (set_parse_name true st)) pos
  else
    match ngx_http_v2_get_indexed_header (hpack_ st) (cur st) v true with
    | None => Conn_error NGX_HTTP_V2_COMP_ERROR
    | Some h => Call field_len (set_parse_value true (set_cur h st)) pos
    end.

(* http/v2/ngx_http_v2.c:1187-1284 ngx_http_v2_state_header_block *)
Definition state_header_block (st : state) (pos : list Z) : outcome :=
  match pos with
  | [] => state_save header_block st pos
  | ch :: _ =>
      if negb (end_headers st) && (length_ st <? NGX_HTTP_V2_INT_OCTETS) then
        handle_continuation header_block st pos
      else
        let '(prefix, indexed, size_update, inc) := representation ch in
        let st := if inc : bool then set_index true st else st in
        match ngx_http_v2_parse_int (length_ st) pos prefix with
        | Pi_again => state_save header_block st pos
        | Pi_declined => Conn_error NGX_HTTP_V2_COMP_ERROR
        | Pi_error => Conn_error NGX_HTTP_V2_SIZE_ERROR
        | Value v used =>
            header_value indexed size_update v (set_length (length_ st - Z.of_nat used) st)
              (drop used pos)
        end
  end.

Definition step (h : handler) (st : state) (pos : list Z) : outcome :=
  match h with
  | header_block => state_header_block st pos
  | field_len => state_field_len st pos
  | field_huff => state_field_huff st pos
  | field_raw => state_field_raw st pos
  | field_skip => state_field_skip st pos
  | header_complete => state_header_complete st pos
  end.

(** ** The read handler *)

(** Between two calls of [recv]: the handler and the bytes kept for it, or the
    end. *)
Inductive progress : Type :=
  | Waiting (h : handler) (st : state) (buffer : list Z)
  | Closed (code : Z)
  | Finished (st : state) (pos : list Z).

(** [do p = h2c->state.handler(h2c, p, end) while (p != end)] and the calls
    between handlers. *)
(* http/v2/ngx_http_v2.c:383-390 ngx_http_v2_read_handler: do while *)
Fixpoint drive (fuel : nat) (h : handler) (st : state) (pos : list Z) : option progress :=
  match fuel with
  | O => None
  | S fuel =>
      match step h st pos with
      | Call h st pos => drive fuel h st pos
      | Return h st [] => Some (Waiting h st [])
      | Return h st pos => drive fuel h st pos
      | Save h st pos => Some (Waiting h st pos)
      | Conn_error code => Some (Closed code)
      | Complete st pos => Some (Finished st pos)
      end
  end.

Definition drive_fuel (pos : list Z) : nat := 2 + 3 * length pos.

(** One call of [recv] that yields [data]. *)
(* http/v2/ngx_http_v2.c:355-392 ngx_http_v2_read_handler: do while (rev->ready) *)
Definition receive (p : progress) (data : list Z) : option progress :=
  match p with
  | Waiting h st buffer => drive (drive_fuel (buffer ++ data)) h st (buffer ++ data)
  | Closed code => Some (Closed code)
  | Finished st pos => Some (Finished st (pos ++ data))
  end.

End Handlers.

(** ** The frames of a block *)

Definition NGX_HTTP_V2_HEADERS_FRAME : Z := 1.
Definition NGX_HTTP_V2_NO_FLAG : Z := 0.
Definition NGX_HTTP_V2_END_STREAM_FLAG : Z := 1.

(* http/v2/ngx_http_v2.h:328-333 ngx_http_v2_write_uint32 *)
Definition ngx_http_v2_write_uint32 (s : Z) : list Z :=
  [u8 (Z.shiftr s 24); u8 (Z.shiftr s 16); u8 (Z.shiftr s 8); u8 s].

(* http/v2/ngx_http_v2.h:337-338 ngx_http_v2_write_len_and_type *)
Definition ngx_http_v2_write_len_and_type (l t : Z) : list Z :=
  ngx_http_v2_write_uint32 (Z.lor (Z.shiftl l 8) t).

(** The nine bytes before the payload. *)
(* http/v2/ngx_http_v2_filter_module.c:727-734 ngx_http_v2_create_headers_frame: the frame header *)
Definition frame_head (size type flags sid : Z) : list Z :=
  ngx_http_v2_write_len_and_type size type ++ [flags] ++ ngx_http_v2_write_uint32 sid.

(** The flags and the payload of each frame. *)
(* http/v2/ngx_http_v2_filter_module.c:721-793 ngx_http_v2_create_headers_frame: for *)
Fixpoint headers_frames (fuel : nat) (flags frame_size : Z) (pos : list Z)
  : option (list (Z * list Z)) :=
  match fuel with
  | O => None
  | S fuel =>
      let fits := len pos <=? frame_size in
      let flags := if fits then Z.lor flags NGX_HTTP_V2_END_HEADERS_FLAG else flags in
      let payload := if fits then pos else take (Z.to_nat frame_size) pos in
      let rest := drop (length payload) pos in
      match rest with
      | [] => Some [(flags, payload)]
      | _ =>
          frames ← headers_frames fuel NGX_HTTP_V2_NO_FLAG frame_size rest;
          Some ((flags, payload) :: frames)
      end
  end.

Definition first_flags (header_only : bool) : Z :=
  if header_only then NGX_HTTP_V2_END_STREAM_FLAG else NGX_HTTP_V2_NO_FLAG.

(** The first frame is a HEADERS frame, the others continue it. *)
(* http/v2/ngx_http_v2_filter_module.c:687-795 ngx_http_v2_create_headers_frame *)
Definition ngx_http_v2_create_headers_frame (header_only : bool) (frame_size sid : Z) (pos : list Z)
  : option (list Z) :=
  frames ← headers_frames (S (length pos)) (first_flags header_only) frame_size pos;
  match frames with
  | [] => None
  | (flags, p) :: frames =>
      Some (frame_head (len p) NGX_HTTP_V2_HEADERS_FRAME flags sid ++ p ++
        concat ((fun '(flags, p) =>
          frame_head (len p) NGX_HTTP_V2_CONTINUATION_FRAME flags sid ++ p) <$> frames))
  end.
