(* ===== verification/Http2BlockLoop.v ===== *)
(** * Http2BlockLoop: the read handler on a header block

    The loop of Http2Block ends on every input, and it does not matter how the
    bytes are cut into calls of [recv]. *)

From S2P Require Import Prelude Http2HuffTables Http2Huff Http2Table Http2Block.

(** ** Termination *)

(** What every state satisfies; the counters are unsigned in the code. *)
Definition counts_ok (st : state) : Prop := 0 <= length_ st /\ 0 <= padding st /\ 0 <= field_rest st.

Definition rank (h : handler) : Z :=
  match h with header_block | field_len => 0 | _ => 1 end.

Definition measure (h : handler) (pos : list Z) : Z := 3 * len pos + rank h.

Lemma u64_nonneg z : 0 <= u64 z.
Proof. by apply Z.mod_pos_bound. Qed.

Lemma int_octets_used shift value used p v k :
  int_octets shift value used p = Some (v, k) -> 0 <= v /\ (used < k <= used + length p)%nat.
Proof.
  revert shift value used. induction p as [|c p IH]; intros shift value used; simpl; [done|].
  case_match.
  - intros; simplify_eq. split; [apply u64_nonneg|lia].
  - intros H1. apply IH in H1. lia.
Qed.

Lemma parse_int_used n pos prefix v used :
  ngx_http_v2_parse_int n pos prefix = Value v used -> 0 <= prefix -> 0 <= n ->
  0 <= v /\ (1 <= used <= length pos)%nat /\ Z.of_nat used <= n.
Proof.
  unfold ngx_http_v2_parse_int. destruct pos as [|c pos]; [done|]. intros H Hp Hn.
  destruct (negb (Z.land c prefix =? prefix)).
  - destruct (Z.eqb_spec n 0); [done|]. simplify_eq. simpl. split; [|lia].
    apply Z.land_nonneg. by right.
  - change (take (Z.to_nat NGX_HTTP_V2_INT_OCTETS) (c :: pos)) with (c :: take 3 pos) in H.
    cbn [tail] in H.
    destruct (int_octets _ _ _ _) as [[v' k]|] eqn:E; [|by repeat case_match].
    apply int_octets_used in E. rewrite length_take in E.
    destruct (Z.ltb_spec n (Z.of_nat k)); [done|]. simplify_eq. simpl. lia.
Qed.

Lemma len_app (l k : list Z) : len (l ++ k) = len l + len k.
Proof. unfold len. rewrite length_app. lia. Qed.
Lemma len_drop (n : nat) (l : list Z) : len (drop n l) = Z.max 0 (len l - Z.of_nat n).
Proof. unfold len. rewrite length_drop. lia. Qed.
Lemma len_take (n : nat) (l : list Z) : len (take n l) = Z.min (Z.of_nat n) (len l).
Proof. unfold len. rewrite length_take. lia. Qed.
Lemma len_nil : len [] = 0.
Proof. done. Qed.
Lemma len_pos (l : list Z) : 0 <= len l.
Proof. unfold len. lia. Qed.
Lemma len_cons x (l : list Z) : len (x :: l) = 1 + len l.
Proof. unfold len. simpl. lia. Qed.

Create Rewrite HintDb len.
#[export] Hint Rewrite len_app len_drop len_take len_nil len_cons : len.

Lemma skip_padding_bounds n pad pos skip pos' :
  skip_padding n pad pos = (skip, pos') -> 0 <= n -> 0 <= pad ->
  0 <= skip <= pad /\ len pos' <= len pos.
Proof.
  intros E Hn Hp. unfold skip_padding in E.
  destruct (Z.ltb_spec 0 pad), (Z.ltb_spec n (len pos)); cbn [andb] in E;
    inversion E; subst; autorewrite with len; pose proof (len_pos pos); lia.
Qed.

(** A continuation frame takes its header of 9 bytes. *)
Lemma continuation_cases h st pos :
  counts_ok st ->
  match handle_continuation h st pos with
  | Call _ _ _ | Complete _ _ => False
  | Return h' st' pos' => h' = h /\ len pos' + 9 <= len pos /\ counts_ok st'
  | Save h' st' pos' => h' = h /\ counts_ok st' /\ len pos' < length_ st + 9 /\ len pos' <= 16
  | Conn_error _ => True
  end.
Proof.
  intros (Hl & Hp & Hr). unfold handle_continuation.
  destruct (skip_padding _ _ pos) as [skip pos1] eqn:E.
  apply skip_padding_bounds in E as [Hs H1]; [|done..].
  destruct (Z.ltb_spec (len pos1) (length_ st + NGX_HTTP_V2_FRAME_HEADER_SIZE)).
  - unfold state_save. destruct (Z.ltb_spec NGX_HTTP_V2_STATE_BUFFER_SIZE (len pos1)); [done|].
    unfold counts_ok, NGX_HTTP_V2_STATE_BUFFER_SIZE, NGX_HTTP_V2_FRAME_HEADER_SIZE in *. simpl.
    split_and!; (done || lia).
  - cbn zeta. destruct (negb (Z.land _ _ =? _)); [done|]. destruct (negb _); [done|]. split; [done|].
    unfold NGX_HTTP_V2_FRAME_HEADER_SIZE in *. split; [autorewrite with len; lia|].
    unfold counts_ok. simpl. split_and!; [|lia|done].
    assert (0 <= Z.shiftr (ngx_http_v2_parse_uint32 (drop (Z.to_nat (length_ st)) pos1)) 8); [|lia].
    apply Z.shiftr_nonneg. by apply Z.mod_pos_bound.
Qed.

Section Driver.
Context (max_field_size : Z) (take_header : list header -> header -> bool).

Local Abbreviation step := (step max_field_size take_header).
Local Abbreviation drive := (drive max_field_size take_header).
Local Abbreviation receive := (receive max_field_size take_header).

(** A property of the outcomes of a step that its parts share. *)
Definition progresses (m : Z) (o : outcome) : Prop :=
  match o with
  | Call h st pos | Return h st pos => measure h pos < m /\ counts_ok st
  | Save _ st pos => counts_ok st
  | Complete st _ => counts_ok st
  | Conn_error _ => True
  end.

Lemma continuation_progresses h st pos m :
  counts_ok st -> 3 * len pos <= m -> progresses m (handle_continuation h st pos).
Proof using Type.
  intros Hc Hm. pose proof (continuation_cases h st pos Hc) as H.
  destruct (handle_continuation h st pos); simpl in *; try done; try tauto.
  destruct H as (-> & H & ?). split; [|done]. unfold measure. pose proof (len_pos pos0).
  assert (rank h <= 1) by (destruct h; simpl; lia). lia.
Qed.

Lemma complete_progresses st pos m :
  counts_ok st -> 3 * len pos < m -> progresses m (state_header_complete st pos).
Proof using Type.
  intros Hc Hm. unfold state_header_complete. case_match.
  - split; [|done]. unfold measure. simpl. lia.
  - case_match; [|done]. apply continuation_progresses; [done|lia].
Qed.

Lemma stream_counts st : counts_ok st -> counts_ok (process_stream take_header st).
Proof using Type. intros H. unfold process_stream. by repeat case_match. Qed.

Lemma process_progresses st pos m :
  counts_ok st -> 3 * len pos < m -> progresses m (state_process_header take_header st pos).
Proof using Type.
  intros Hc Hm. unfold state_process_header. destruct (parse_name st).
  - split; [|done]. unfold measure. simpl. lia.
  - set (st1 := if parse_value st then _ else st).
    assert (counts_ok st1) by (unfold st1; by destruct (parse_value st)).
    clearbody st1. case_match; [done|]. case_match; [case_match; [|done]|];
      (apply complete_progresses; [|done]); by apply stream_counts.
Qed.

Lemma next_progresses h st pos m :
  counts_ok st -> 3 * len pos < m -> progresses m (field_next take_header h st pos).
Proof using Type.
  intros Hc Hm. unfold field_next. case_match; [by apply process_progresses|].
  case_match; [by unfold state_save; case_match|]. case_match; [done|].
  apply continuation_progresses; [done|lia].
Qed.

Lemma available_le st pos :
  counts_ok st ->
  Z.of_nat (available st pos) <= length_ st /\ Z.of_nat (available st pos) <= field_rest st /\
  Z.of_nat (available st pos) <= len pos.
Proof using Type. intros (Hl & Hp & Hr). unfold available. pose proof (len_pos pos). lia. Qed.

Lemma consume_counts st pos : counts_ok st -> counts_ok (consume st (available st pos)).
Proof using Type.
  intros H. pose proof (available_le st pos H) as (H1 & H2 & _). destruct H as (? & ? & ?).
  unfold counts_ok, consume. simpl. lia.
Qed.

Lemma step_progresses h st pos :
  counts_ok st -> progresses (measure h pos) (step h st pos).
Proof using Type.
  intros Hc. pose proof (consume_counts st pos Hc) as Hcc.
  assert (forall n, 3 * len (drop n pos) < measure field_huff pos) as Hdrop.
  { intros n. unfold measure. simpl. autorewrite with len. pose proof (len_pos pos). lia. }
  destruct h; cbn [Http2Block.step].
  - unfold state_header_block. destruct pos as [|c pos].
    { unfold state_save. by case_match. }
    case_match; [apply continuation_progresses; [done|unfold measure; simpl; lia]|].
    destruct (representation c) as [[[prefix indexed] upd] inc] eqn:Er.
    assert (0 <= prefix) by (unfold representation in Er; repeat case_match; simplify_eq; done).
    set (st1 := if inc then _ else st).
    assert (counts_ok st1 /\ length_ st1 = length_ st) as [H1 E1] by (unfold st1; by destruct inc).
    destruct (ngx_http_v2_parse_int (length_ st1) (c :: pos) prefix) as [v used| | |] eqn:E; try done;
      [|unfold state_save; by case_match].
    apply parse_int_used in E as (Hv & Hu & Hle); [|done|by destruct H1].
    set (st2 := set_length _ st1).
    assert (counts_ok st2) by (unfold counts_ok in *; unfold st2; simpl; lia).
    assert (3 * len (drop used (c :: pos)) < measure header_block (c :: pos)) as Hm.
    { unfold measure. autorewrite with len. pose proof (len_pos pos). simpl rank. lia. }
    clearbody st2. unfold header_value. repeat case_match; try done;
      try (by apply process_progresses); try (by apply complete_progresses).
    all: split; [|done]; unfold measure in *; simpl rank in *; lia.
  - unfold state_field_len.
    case_match; [apply continuation_progresses; [done|unfold measure; simpl; lia]|].
    case_match; [done|]. destruct pos as [|c pos]; [by unfold state_save; case_match|].
    destruct (ngx_http_v2_parse_int _ _ _) as [v used| | |] eqn:E; try done;
      [|unfold state_save; by case_match].
    apply parse_int_used in E as (Hv & Hu & Hle); [|done|by destruct Hc].
    assert (3 * len (drop used (c :: pos)) + 3 <= measure field_len (c :: pos)) as Hm.
    { unfold measure. autorewrite with len. pose proof (len_pos pos). simpl rank. lia. }
    case_match; [done|]. unfold counts_ok in Hc.
    repeat case_match; (split; [unfold measure in *; simpl rank in *; lia|]); unfold counts_ok; simpl; lia.
  - unfold state_field_huff. case_match; [|done]. case_match. apply next_progresses; [done|apply Hdrop].
  - unfold state_field_raw. apply next_progresses; [done|apply Hdrop].
  - unfold state_field_skip. apply next_progresses; [done|apply Hdrop].
  - apply complete_progresses; [done|unfold measure; simpl; lia].
Qed.

(** The loop as a relation. *)
Inductive drives : handler -> state -> list Z -> progress -> Prop :=
  | drives_call h st pos h' st' pos' p :
      step h st pos = Call h' st' pos' -> drives h' st' pos' p -> drives h st pos p
  | drives_return h st pos h' st' :
      step h st pos = Return h' st' [] -> drives h st pos (Waiting h' st' [])
  | drives_loop h st pos h' st' pos' p :
      step h st pos = Return h' st' pos' -> pos' <> [] -> drives h' st' pos' p ->
      drives h st pos p
  | drives_save h st pos h' st' pos' :
      step h st pos = Save h' st' pos' -> drives h st pos (Waiting h' st' pos')
  | drives_error h st pos code : step h st pos = Conn_error code -> drives h st pos (Closed code)
  | drives_complete h st pos st' pos' :
      step h st pos = Complete st' pos' -> drives h st pos (Finished st' pos').

Lemma drives_det h st pos p q : drives h st pos p -> drives h st pos q -> p = q.
Proof using Type.
  intros Hp. revert q. induction Hp; intros q Hq; inversion Hq; subst;
    repeat match goal with A : step _ _ _ = _, B : step _ _ _ = _ |- _ => rewrite A in B; simplify_eq end;
    eauto; done.
Qed.

Lemma drive_drives fuel h st pos p : drive fuel h st pos = Some p -> drives h st pos p.
Proof using Type.
  revert h st pos. induction fuel as [|fuel IH]; intros h st pos; [done|]. cbn [Http2Block.drive].
  destruct (step h st pos) as [h' st' pos'|h' st' pos'| | |] eqn:E; intros; simplify_eq;
    eauto using drives_call, drives_save, drives_error, drives_complete.
  destruct pos' as [|c pos']; simplify_eq; [by apply drives_return|].
  eapply drives_loop; [done..|]. by apply IH.
Qed.

Lemma drive_total fuel h st pos :
  counts_ok st -> measure h pos < Z.of_nat fuel -> exists p, drive fuel h st pos = Some p.
Proof using Type.
  revert h st pos. induction fuel as [|fuel IH]; intros h st pos Hc Hm.
  - unfold measure in Hm. pose proof (len_pos pos). assert (0 <= rank h) by (destruct h; simpl; lia). lia.
  - cbn [Http2Block.drive]. pose proof (step_progresses h st pos Hc) as Hp.
    destruct (step h st pos) as [h' st' pos'|h' st' pos'| | |]; simpl in Hp; eauto.
    + apply IH; [tauto|lia].
    + destruct pos'; [eauto|]. apply IH; [tauto|lia].
Qed.

Lemma receive_drives h st buf data p :
  counts_ok st -> receive (Waiting h st buf) data = Some p <-> drives h st (buf ++ data) p.
Proof using Type.
  intros Hc. cbn [Http2Block.receive]. destruct (drive_total (drive_fuel (buf ++ data)) h st (buf ++ data) Hc) as [q Hq].
  { unfold measure, drive_fuel, len. assert (rank h <= 1) by (destruct h; simpl; lia). lia. }
  split; [apply drive_drives|]. intros Hp. rewrite Hq. f_equal.
  eapply drives_det; [|exact Hp]. by eapply drive_drives.
Qed.

Lemma drives_counts h st pos p :
  drives h st pos p -> counts_ok st ->
  match p with Waiting _ st' _ | Finished st' _ => counts_ok st' | Closed _ => True end.
Proof using Type.
  induction 1; intros Hc; pose proof (step_progresses h st pos Hc) as Hp;
    match goal with E : step h st pos = _ |- _ => rewrite E in Hp end; simpl in Hp; try tauto.
Qed.
End Driver.

(** ** Cuts *)

Lemma int_octets_app shift value used p q :
  match int_octets shift value used p with
  | Some r => int_octets shift value used (p ++ q) = Some r
  | None =>
      match int_octets shift value used (p ++ q) with
      | Some (_, k) => (used + length p < k)%nat
      | None => True
      end
  end.
Proof.
  revert shift value used. induction p as [|c p IH]; intros shift value used; simpl.
  - destruct (int_octets _ _ _ q) as [[v k]|] eqn:E; [|done]. apply int_octets_used in E. lia.
  - destruct (c <? 128); [done|].
    specialize (IH (shift + 7) (u64 (value + Z.shiftl (Z.land c 127) shift)) (S used)).
    destruct (int_octets _ _ _ p); [done|]. destruct (int_octets _ _ _ (p ++ q)) as [[v k]|]; [lia|done].
Qed.

(** More bytes change the result of [ngx_http_v2_parse_int] only when it is
    [NGX_AGAIN], which it is on fewer than 4 bytes. *)
Lemma parse_int_app n a b prefix :
  a <> [] ->
  match ngx_http_v2_parse_int n a prefix with
  | Pi_again => len a < 4
  | r => ngx_http_v2_parse_int n (a ++ b) prefix = r
  end.
Proof.
  destruct a as [|c a]; [done|]. intros _. unfold ngx_http_v2_parse_int. cbn [app].
  destruct (negb _); [by destruct (n =? 0)|].
  change (take (Z.to_nat NGX_HTTP_V2_INT_OCTETS)) with (take (A:=Z) 4). cbn [take tail].
  rewrite !len_cons, take_app.
  pose proof (int_octets_app 0 (Z.land c prefix) 1 (take 3 a) (take (3 - length a) b)) as H.
  assert (len (take 3 a) = Z.of_nat (length (take 3 a))) as El by done.
  destruct (int_octets _ _ _ (take 3 a)) as [[v k]|] eqn:E0; [by rewrite H; destruct (n <? Z.of_nat k)|].
  destruct (Z.leb_spec n (1 + len (take 3 a))).
  - destruct (int_octets _ _ _ (_ ++ _)) as [[v k]|].
    + destruct (Z.ltb_spec n (Z.of_nat k)); [done|]. lia.
    + rewrite len_app. pose proof (len_pos (take (3 - length a) b)).
      destruct (Z.leb_spec n (1 + (len (take 3 a) + len (take (3 - length a) b)))); [done|lia].
  - destruct (Z.eqb_spec (1 + len (take 3 a)) NGX_HTTP_V2_INT_OCTETS) as [E|E].
    + unfold NGX_HTTP_V2_INT_OCTETS in E. rewrite len_take in E. unfold len in E.
      replace (3 - length a)%nat with O in * by lia. rewrite take_0, app_nil_r in *.
      rewrite E0.
      destruct (Z.leb_spec n (1 + len (take 3 a))); [lia|]. rewrite len_take. unfold len.
      destruct (Z.eqb_spec (1 + Z.min (Z.of_nat 3) (Z.of_nat (length a))) NGX_HTTP_V2_INT_OCTETS); [done|].
      unfold NGX_HTTP_V2_INT_OCTETS in *. lia.
    + unfold NGX_HTTP_V2_INT_OCTETS in E. rewrite len_take in E. unfold len in *. lia.
Qed.

Lemma skip_padding_none n pad pos : pad <= 0 \/ len pos <= n -> skip_padding n pad pos = (0, pos).
Proof.
  intros H. unfold skip_padding. replace ((0 <? pad) && (n <? len pos)) with false by lia.
  by rewrite Z.add_0_r, take_drop.
Qed.

Lemma skip_padding_some n pad pos :
  0 <= n -> 0 < pad -> n < len pos ->
  skip_padding n pad pos = (Z.min pad (len pos - n), take (Z.to_nat n) pos ++ drop (Z.to_nat (n + Z.min pad (len pos - n))) pos).
Proof.
  intros Hn Hp H. unfold skip_padding. by replace ((0 <? pad) && (n <? len pos)) with true by lia.
Qed.

(** Padding that arrives in two parts is skipped in two parts. *)
Lemma skip_padding_app n pad a b s1 p1 :
  0 <= n -> 0 <= pad -> b <> [] -> skip_padding n pad a = (s1, p1) ->
  0 <= s1 <= pad /\
  skip_padding n pad (a ++ b) =
    (s1 + fst (skip_padding n (pad - s1) (p1 ++ b)), snd (skip_padding n (pad - s1) (p1 ++ b))).
Proof.
  intros Hn Hp Hb E. assert (0 < len b) as Hlb by (destruct b; [done|rewrite len_cons; pose proof (len_pos b); lia]).
  destruct (decide (pad <= 0 \/ len a <= n)) as [Hc|Hc].
  { rewrite skip_padding_none in E by done. simplify_eq. split; [lia|]. rewrite Z.sub_0_r, Z.add_0_l.
    by destruct (skip_padding n pad (p1 ++ b)). }
  assert (0 < pad /\ n < len a) as [H1 H2] by lia. clear Hc.
  rewrite skip_padding_some in E by lia. simplify_eq. split; [lia|].
  rewrite skip_padding_some by (rewrite ?len_app; lia). rewrite len_app.
  assert (length (take (Z.to_nat n) a) = Z.to_nat n) as El by (rewrite length_take; unfold len in *; lia).
  destruct (decide (pad <= len a - n)) as [Hle|Hgt].
  - rewrite !Z.min_l by lia. rewrite Z.sub_diag, skip_padding_none by lia. simpl. f_equal; [lia|].
    unfold len in *. rewrite take_app_le, drop_app_le by lia. by rewrite app_assoc.
  - rewrite (Z.min_r pad (len a - n)) by lia.
    rewrite (drop_ge a) by (unfold len in *; lia). rewrite app_nil_r.
    assert (len (take (Z.to_nat n) a ++ b) = n + len b) as Eq by (autorewrite with len; lia).
    rewrite skip_padding_some by lia. rewrite Eq. simpl. f_equal; [lia|].
    unfold len in *. rewrite (take_app_le a), (drop_app_ge a) by lia.
    rewrite take_app_le, drop_app_ge by lia. rewrite El, take_take, Nat.min_id. f_equal. f_equal. lia.
Qed.

(** All of it is skipped when something follows it. *)
Lemma skip_padding_all n pad a s1 p1 :
  0 <= n -> 0 <= pad -> skip_padding n pad a = (s1, p1) -> n < len p1 -> s1 = pad.
Proof.
  intros Hn Hp E Hl. destruct (decide (pad <= 0 \/ len a <= n)) as [Hc|Hc].
  { rewrite skip_padding_none in E by done. simplify_eq. lia. }
  rewrite skip_padding_some in E by lia. simplify_eq. autorewrite with len in Hl. lia.
Qed.

Lemma skip_padding_app_all n pad a b s1 p1 :
  0 <= n -> 0 <= pad -> b <> [] -> skip_padding n pad a = (s1, p1) -> n < len p1 ->
  skip_padding n pad (a ++ b) = (s1, p1 ++ b).
Proof.
  intros Hn Hp Hb E Hl. destruct (skip_padding_app n pad a b s1 p1 Hn Hp Hb E) as [_ ->].
  rewrite (skip_padding_all n pad a s1 p1) by done. rewrite skip_padding_none by lia. simpl. by rewrite Z.add_0_r.
Qed.

Lemma state_save_small h st pos :
  len pos <= 16 -> state_save h st pos = Save h st pos.
Proof.
  intros H. unfold state_save. by destruct (Z.ltb_spec NGX_HTTP_V2_STATE_BUFFER_SIZE (len pos)); [unfold NGX_HTTP_V2_STATE_BUFFER_SIZE in *; lia|].
Qed.

Lemma set_padding_id st : set_padding (padding st) st = st.
Proof. by destruct st. Qed.

Lemma uint32_app p b : (4 <= length p)%nat -> ngx_http_v2_parse_uint32 (p ++ b) = ngx_http_v2_parse_uint32 p.
Proof. intros H. unfold ngx_http_v2_parse_uint32. by rewrite !app_nth1 by lia. Qed.

Section Cuts.
Context (max_field_size : Z) (take_header : list header -> header -> bool).
Context (b : list Z) (b_more : b <> []).

Local Abbreviation step := (step max_field_size take_header).
Local Abbreviation drives := (drives max_field_size take_header).

(** What a step does on [pos], against what it does when [b] follows: the bytes
    are passed on, and a saved state takes the step again. *)
Definition extends (o o' : outcome) : Prop :=
  match o with
  | Call h st pos => o' = Call h st (pos ++ b)
  | Return h st pos => o' = Return h st (pos ++ b)
  | Save h st pos => step h st (pos ++ b) = o'
  | Conn_error code => o' = Conn_error code
  | Complete st pos => o' = Complete st (pos ++ b)
  end.

Lemma app_more (p : list Z) : p ++ b <> [].
Proof using b_more. by destruct p. Qed.

Lemma continuation_extends h st pos :
  counts_ok st -> length_ st < 8 ->
  (forall k q, q <> [] -> step h (set_padding k st) q = handle_continuation h (set_padding k st) q) ->
  extends (handle_continuation h st pos) (handle_continuation h st (pos ++ b)).
Proof using b_more.
  intros (Hl & Hp & Hr) H8 Hs. unfold handle_continuation.
  destruct (skip_padding (length_ st) (padding st) pos) as [s1 p1] eqn:E.
  destruct (Z.ltb_spec (len p1) (length_ st + NGX_HTTP_V2_FRAME_HEADER_SIZE)) as [Hlt|Hge];
    unfold NGX_HTTP_V2_FRAME_HEADER_SIZE in *.
  - rewrite state_save_small by lia. cbn [extends]. rewrite Hs by apply app_more.
    destruct (skip_padding_app _ _ _ _ _ _ Hl Hp b_more E) as [_ ->]. unfold handle_continuation.
    cbn [length_ padding set_padding]. destruct (skip_padding _ _ (p1 ++ b)) as [s2 p2]. cbn [fst snd].
    by rewrite Z.sub_add_distr.
  - rewrite (skip_padding_app_all _ _ _ b _ _ Hl Hp b_more E) by lia. cbn zeta.
    rewrite (proj2 (Z.ltb_ge (len (p1 ++ b)) (length_ st + 9))) by (rewrite len_app; pose proof (len_pos b); lia).
    assert (9 <= length (drop (Z.to_nat (length_ st)) p1))%nat as Hd
      by (rewrite length_drop; unfold len in *; lia).
    assert (Z.to_nat (length_ st + 9) <= length p1)%nat as Hlen by (unfold len in *; lia).
    rewrite (drop_app_le p1 b (Z.to_nat (length_ st))) by lia.
    rewrite (drop_app_le p1 b (Z.to_nat (length_ st + 9))) by lia.
    rewrite (take_app_le p1 b) by lia.
    rewrite uint32_app by lia. destruct (negb _); [done|]. rewrite app_nth1 by lia.
    rewrite (drop_app_le _ b 5), uint32_app by (rewrite ?length_drop; lia).
    destruct (negb _); [done|]. cbn [extends]. by rewrite app_assoc.
Qed.

Lemma complete_extends st pos :
  counts_ok st -> extends (state_header_complete st pos) (state_header_complete st (pos ++ b)).
Proof using b_more.
  intros Hc. unfold state_header_complete. destruct (Z.eqb_spec (length_ st) 0) as [E|E]; simpl; [|done].
  destruct (end_headers st) eqn:Ee; simpl; [done|]. apply continuation_extends; [done|lia|].
  intros k q _. cbn [Http2Block.step]. unfold state_header_complete.
  change (end_headers (set_padding k st)) with (end_headers st). cbn [length_ set_padding]. by rewrite E, Ee.
Qed.

Lemma process_extends st pos :
  counts_ok st ->
  extends (state_process_header take_header st pos) (state_process_header take_header st (pos ++ b)).
Proof using b_more.
  intros Hc. unfold state_process_header. destruct (parse_name st); [done|]. cbn zeta.
  set (st1 := if parse_value st then _ else st).
  assert (counts_ok st1) as Hc1 by (unfold st1; by destruct (parse_value st)). clearbody st1.
  destruct (header_limit st1 <? _); [done|]. cbn [index set_header_limit].
  assert (counts_ok (set_header_limit (header_limit st1 - (len (name (cur st1)) + len (value (cur st1)))) st1))
    as Hc2 by done.
  destruct (index st1); [destruct (ngx_http_v2_add_header _ _); [|done]|];
    apply complete_extends; by apply stream_counts.
Qed.

(** A part of a string that the frame does not hold more of. *)
Lemma next_extends h st pos :
  counts_ok st -> length_ st = 0 \/ field_rest st = 0 ->
  (forall k q, field_rest st <> 0 -> length_ st = 0 -> end_headers st = false ->
    step h (set_padding k st) q = handle_continuation h (set_padding k st) q) ->
  extends (field_next take_header h st pos) (field_next take_header h st (pos ++ b)).
Proof using b_more.
  intros Hc Hz Hs. unfold field_next. destruct (Z.eqb_spec (field_rest st) 0) as [E|E].
  { by apply process_extends. }
  destruct (Z.eqb_spec (length_ st) 0) as [E1|E1]; [simpl|lia].
  destruct (end_headers st) eqn:Ee; [done|]. apply continuation_extends; [done|lia|].
  intros k q _. by apply Hs.
Qed.

(** The bytes of a string: those that are there are all that it needs, or all
    that is there. *)
Lemma available_app st pos :
  counts_ok st ->
  (available st (pos ++ b) = available st pos /\ (available st pos <= length pos)%nat /\
    (length_ (consume st (available st pos)) = 0 \/ field_rest (consume st (available st pos)) = 0)) \/
  (available st pos = length pos /\ 0 < field_rest (consume st (available st pos)) /\
    0 < length_ (consume st (available st pos)) /\
    available st (pos ++ b) = (length pos + available (consume st (length pos)) b)%nat /\
    (0 < available (consume st (length pos)) b)%nat).
Proof using b_more.
  intros (Hl & Hp & Hr). unfold available, consume. cbn. rewrite len_app. 
  assert (0 < len b) as Hb by (destruct b; [done|rewrite len_cons; pose proof (len_pos l); lia]).
  unfold len in *. destruct (decide (Z.min (field_rest st) (length_ st) <= Z.of_nat (length pos))).
  - left. lia.
  - right. lia.
Qed.
End Cuts.

Section Strings.
Context (max_field_size : Z) (take_header : list header -> header -> bool).

Local Abbreviation step := (step max_field_size take_header).
Local Abbreviation drives := (drives max_field_size take_header).

(** The three handlers of a string, up to what they do with its bytes. *)
Definition is_field (h : handler) : bool :=
  match h with field_huff | field_raw | field_skip => true | _ => false end.

Definition absorb (h : handler) (st : state) (p : list Z) : option state :=
  match h with
  | field_huff =>
      '(fs, out) ← ngx_http_v2_huff_decode (field_state st) p (field_rest st =? 0);
      Some (set_field (field st ++ out) (set_field_state fs st))
  | field_raw => Some (set_field (field st ++ p) st)
  | _ => Some st
  end.

Lemma step_field h st pos :
  is_field h = true ->
  step h st pos =
    match absorb h (consume st (available st pos)) (take (available st pos) pos) with
    | Some st' => field_next take_header h st' (drop (available st pos) pos)
    | None => Conn_error NGX_HTTP_V2_COMP_ERROR
    end.
Proof using Type.
  destruct h; try done. intros _. cbn [Http2Block.step absorb]. unfold state_field_huff.
  destruct (ngx_http_v2_huff_decode _ _ _) as [[fs out]|]; reflexivity.
Qed.

(** What the bytes of a string do not change. *)
Definition same_frame (st st' : state) : Prop :=
  length_ st' = length_ st /\ field_rest st' = field_rest st /\ padding st' = padding st /\
  flags st' = flags st.

Lemma absorb_frame h st p st' : absorb h st p = Some st' -> same_frame st st'.
Proof using Type.
  destruct h; simpl; intros; simplify_eq; try done.
  destruct (ngx_http_v2_huff_decode _ _ _) as [[fs out]|]; simpl in *; by simplify_eq.
Qed.

Lemma frame_counts st st' : same_frame st st' -> counts_ok st -> counts_ok st'.
Proof using Type. unfold counts_ok. intros (-> & -> & -> & _). done. Qed.

Lemma consume_0 st : consume st 0 = st.
Proof using Type. destruct st. unfold consume. cbn. by rewrite !Z.sub_0_r. Qed.

Lemma consume_add st n m : consume (consume st n) m = consume st (n + m).
Proof using Type.
  unfold consume. cbn. by rewrite Nat2Z.inj_add, !Z.sub_add_distr.
Qed.

Lemma absorb_nil h st : field_rest st <> 0 -> absorb h st [] = Some st.
Proof using Type.
  intros H. destruct h; simpl; try done.
  - rewrite (proj2 (Z.eqb_neq _ _) H). cbn. rewrite app_nil_r. by destruct st.
  - rewrite app_nil_r. by destruct st.
Qed.

Lemma absorb_app h st a c m :
  field_rest st <> 0 -> c <> [] ->
  absorb h (consume st m) (a ++ c) = (st ← absorb h st a; absorb h (consume st m) c).
Proof using Type.
  intros H Hc. destruct h; simpl; try done.
  - rewrite (proj2 (Z.eqb_neq _ _) H). rewrite huff_decode_app by done.
    destruct (ngx_http_v2_huff_decode (field_state st) a false) as [[s1 o1]|]; simpl; [|done].
    destruct (ngx_http_v2_huff_decode s1 c _) as [[s2 o2]|]; simpl; [|done].
    unfold consume. cbn. by rewrite app_assoc.
  - unfold consume. cbn. by rewrite app_assoc.
Qed.

Lemma field_waits h st pos :
  is_field h = true -> field_rest st <> 0 -> length_ st = 0 -> end_headers st = false ->
  step h st pos = handle_continuation h st pos.
Proof using Type.
  intros Hh Hr Hl He. rewrite step_field by done.
  assert (available st pos = 0%nat) as ->
    by (unfold available; rewrite Hl; pose proof (len_pos pos); lia).
  rewrite consume_0, take_0, absorb_nil, drop_0 by done. unfold field_next.
  rewrite (proj2 (Z.eqb_neq _ _) Hr), Hl, He. done.
Qed.

Lemma field_extends b h st pos :
  b <> [] -> is_field h = true -> counts_ok st -> extends max_field_size take_header b (step h st pos) (step h st (pos ++ b)).
Proof using Type.
  intros Hb Hh Hc. pose proof (consume_counts st pos Hc) as Hcc.
  rewrite !step_field by done. destruct (available_app b Hb st pos Hc) as [(E & Hle & Hz)|(E & Hr & Hl & E2 & Hm)].
  - rewrite E, take_app_le, drop_app_le by done.
    destruct (absorb _ _ _) as [st1|] eqn:Ea; [|done]. apply absorb_frame in Ea as Hf.
    pose proof (frame_counts _ _ Hf Hcc) as Hc1. destruct Hf as (F1 & F2 & F3 & F4).
    apply next_extends; [done..|by rewrite F1, F2|].
    intros k q H1 H2 H3. by apply field_waits.
  - rewrite E, E2, firstn_all, drop_all.
    rewrite (take_app_ge pos), (drop_app_ge pos) by lia.
    replace (length pos + available (consume st (length pos)) b - length pos)%nat
      with (available (consume st (length pos)) b) by lia.
    rewrite <- consume_add. rewrite E in *. rewrite absorb_app.
    2: lia.
    2: { destruct b; [done|]. by destruct (available (consume st (length pos)) _); [lia|]. }
    destruct (absorb h (consume st (length pos)) pos) as [st1|] eqn:Ea; [|done]. cbn [mbind option_bind].
    apply absorb_frame in Ea as (F1 & F2 & F3 & F4). unfold field_next at 1.
    rewrite F2, F1. destruct (Z.eqb_spec (field_rest (consume st (length pos))) 0); [lia|].
    destruct (Z.eqb_spec (length_ (consume st (length pos))) 0); [lia|]. simpl negb. cbn iota.
    rewrite state_save_small by done. cbn [extends app]. rewrite step_field by done.
    assert (available st1 b = available (consume st (length pos)) b) as -> by (unfold available; by rewrite F1, F2).
    done.
Qed.

End Strings.

Section Receive.
Context (max_field_size : Z) (take_header : list header -> header -> bool).

Local Abbreviation step := (step max_field_size take_header).
Local Abbreviation drives := (drives max_field_size take_header).
Local Abbreviation receive := (receive max_field_size take_header).
Local Abbreviation ext := (extends max_field_size take_header).

Lemma representation_prefix c prefix i u inc : representation c = (prefix, i, u, inc) -> 0 <= prefix.
Proof using Type. unfold representation. repeat case_match; intros; by simplify_eq. Qed.

Lemma block_extends b st pos :
  b <> [] -> counts_ok st -> ext b (step header_block st pos) (step header_block st (pos ++ b)).
Proof using Type.
  intros Hb Hc. cbn [Http2Block.step]. destruct pos as [|c pos]; [done|].
  set (a := c :: pos). unfold state_header_block. change (a ++ b) with (c :: (pos ++ b)). subst a. cbn iota.
  change (c :: (pos ++ b)) with ((c :: pos) ++ b). set (a := c :: pos).
  destruct (negb (end_headers st) && (length_ st <? NGX_HTTP_V2_INT_OCTETS)) eqn:Eg.
  { apply andb_true_iff in Eg as Eg'. destruct Eg' as [_ Hlt%Z.ltb_lt].
    apply continuation_extends; [done..|unfold NGX_HTTP_V2_INT_OCTETS in *; lia|].
    intros k q Hq. cbn. destruct q; [done|]. unfold state_header_block.
    change (end_headers (set_padding k st)) with (end_headers st).
    change (length_ (set_padding k st)) with (length_ st). by rewrite Eg. }
  destruct (representation c) as [[[prefix indexed] upd] inc] eqn:Er.
  set (st1 := if inc then set_index true st else st).
  assert (counts_ok st1) as Hc1 by (unfold st1; by destruct inc).
  pose proof (parse_int_app (length_ st1) a b prefix ltac:(done)) as Hp.
  destruct (ngx_http_v2_parse_int (length_ st1) a prefix) as [v used| | |] eqn:E.
  - rewrite Hp. apply parse_int_used in E as (Hv & Hu & Hle);
      [|by eapply representation_prefix|by destruct Hc1].
    rewrite drop_app_le by lia. set (st2 := set_length _ st1).
    assert (counts_ok st2) as Hc2 by (destruct Hc1; unfold counts_ok, st2; cbn; lia).
    unfold header_value. destruct indexed.
    { destruct (ngx_http_v2_get_indexed_header _ _ _ _); [|done]. by apply process_extends. }
    destruct upd.
    { destruct (ngx_http_v2_table_size _ _) as [[hp|]|]; [|done..]. by apply complete_extends. }
    destruct (v =? 0); [done|]. by destruct (ngx_http_v2_get_indexed_header _ _ _ _).
  - by rewrite Hp.
  - by rewrite Hp.
  - rewrite state_save_small by lia. cbn [extends Http2Block.step]. unfold state_header_block.
    change (a ++ b) with (c :: (pos ++ b)). cbn iota. rewrite Er.
    unfold st1. destruct inc; [|by rewrite Eg].
    change (end_headers (set_index true st)) with (end_headers st).
    change (length_ (set_index true st)) with (length_ st). rewrite Eg. reflexivity.
Qed.

Lemma len_extends b st pos :
  b <> [] -> counts_ok st -> ext b (step field_len st pos) (step field_len st (pos ++ b)).
Proof using Type.
  intros Hb Hc. cbn [Http2Block.step]. unfold state_field_len.
  destruct (negb (end_headers st) && (length_ st <? NGX_HTTP_V2_INT_OCTETS)) eqn:Eg.
  { apply andb_true_iff in Eg as Eg'. destruct Eg' as [_ Hlt%Z.ltb_lt].
    apply continuation_extends; [done..|unfold NGX_HTTP_V2_INT_OCTETS in *; lia|].
    intros k q Hq. cbn [Http2Block.step]. unfold state_field_len.
    change (end_headers (set_padding k st)) with (end_headers st).
    change (length_ (set_padding k st)) with (length_ st). by rewrite Eg. }
  destruct (length_ st <? 1) eqn:El; [done|]. destruct pos as [|c pos].
  { cbn [state_save extends app]. rewrite state_save_small by done.
    cbn [extends Http2Block.step app]. unfold state_field_len. by rewrite Eg, El. }
  change ((c :: pos) ++ b) with (c :: (pos ++ b)). cbn iota.
  change (c :: (pos ++ b)) with ((c :: pos) ++ b). set (a := c :: pos).
  pose proof (parse_int_app (length_ st) a b (ngx_http_v2_prefix 7) ltac:(done)) as Hp.
  destruct (ngx_http_v2_parse_int (length_ st) a _) as [v used| | |] eqn:E.
  - rewrite Hp. apply parse_int_used in E as (Hv & Hu & Hle); [|done|by destruct Hc].
    rewrite drop_app_le by lia. destruct (max_field_size <? v); [done|].
    by destruct (negb _ && negb _).
  - by rewrite Hp.
  - by rewrite Hp.
  - rewrite state_save_small by lia. cbn [extends Http2Block.step]. unfold state_field_len.
    by rewrite Eg, El.
Qed.

Lemma step_extends b h st pos :
  b <> [] -> counts_ok st -> ext b (step h st pos) (step h st (pos ++ b)).
Proof using Type.
  intros Hb Hc. destruct h; try by apply field_extends.
  - by apply block_extends.
  - by apply len_extends.
  - by apply complete_extends.
Qed.

Lemma drives_step h st pos h' st' pos' p :
  step h st pos = step h' st' pos' -> drives h st pos p -> drives h' st' pos' p.
Proof using Type.
  intros E H. inversion H; subst; rewrite E in *;
    eauto using drives_call, drives_return, drives_loop, drives_save, drives_error, drives_complete.
Qed.

(** The loop on the bytes of two calls of [recv]. *)
Lemma drives_app b h st pos p :
  b <> [] -> counts_ok st -> drives h st pos p ->
  match p with
  | Waiting h' st' buf => forall q, drives h' st' (buf ++ b) q -> drives h st (pos ++ b) q
  | Closed code => drives h st (pos ++ b) (Closed code)
  | Finished st' pos' => drives h st (pos ++ b) (Finished st' (pos' ++ b))
  end.
Proof using Type.
  intros Hb Hc H. induction H as [h st pos h' st' pos' p E H IH|h st pos h' st' E|h st pos h' st' pos' p E Hne H IH
    |h st pos h' st' pos' E|h st pos code E|h st pos st' pos' E];
    pose proof (step_extends b h st pos Hb Hc) as He; rewrite E in He; cbn in He;
    pose proof (step_progresses max_field_size take_header h st pos Hc) as Hp; rewrite E in Hp; cbn in Hp.
  - destruct Hp as [_ Hp]. specialize (IH Hp).
    destruct p; [intros q Hq|..]; (eapply drives_call; [exact He|]); auto.
  - intros q Hq. eapply drives_loop; [exact He|done..].
  - destruct Hp as [_ Hp]. specialize (IH Hp).
    destruct p; [intros q Hq|..]; (eapply drives_loop; [exact He|by destruct pos'|]); auto.
  - intros q Hq. by eapply drives_step.
  - by apply drives_error.
  - by apply drives_complete.
Qed.

(** What the handlers need of a connection. *)
Definition conn_ok (p : progress) : Prop :=
  match p with Waiting _ st _ => counts_ok st | _ => True end.

Lemma receive_ok p data : conn_ok p -> exists p', receive p data = Some p' /\ conn_ok p'.
Proof using Type.
  intros Hc. destruct p as [h st buf|code|st pos]; [|by eexists..].
  cbn [conn_ok] in Hc. cbn [Http2Block.receive].
  destruct (drive_total max_field_size take_header (drive_fuel (buf ++ data)) h st (buf ++ data) Hc) as [q Hq].
  { unfold measure, drive_fuel, len. assert (rank h <= 1) by (destruct h; simpl; lia). lia. }
  exists q. split; [done|]. apply drive_drives, drives_counts in Hq; [|done]. by destruct q.
Qed.

Lemma receive_app p p' a b :
  conn_ok p -> b <> [] -> receive p a = Some p' -> receive p' b = receive p (a ++ b).
Proof using Type.
  intros Hc Hb H. destruct p as [h st buf|code|st pos].
  - destruct (receive_ok _ a Hc) as (p1 & H1 & Hc1). rewrite H in H1. injection H1 as <-.
    destruct (receive_ok _ b Hc1) as (q & Hq & _). rewrite Hq. symmetry.
    cbn [conn_ok] in Hc. apply receive_drives in H; [|done]. apply receive_drives; [done|].
    apply (drives_app b) in H; [|done..]. rewrite app_assoc. destruct p' as [h' st' buf'|code|st' pos'].
    + apply H. by apply receive_drives in Hq.
    + cbn in Hq. by simplify_eq.
    + cbn in Hq. by simplify_eq.
  - cbn in *. by simplify_eq.
  - cbn in *. simplify_eq. cbn. by rewrite app_assoc.
Qed.

(** The calls of [recv] in turn. *)
Fixpoint receives (p : progress) (chunks : list (list Z)) : option progress :=
  match chunks with
  | [] => Some p
  | data :: chunks => p ← receive p data; receives p chunks
  end.

Lemma header_block_cuts_ok p data chunks :
  conn_ok p -> Forall (fun c => c <> []) chunks ->
  receives p (data :: chunks) = receive p (concat (data :: chunks)) /\
  is_Some (receives p (data :: chunks)).
Proof using Type.
  intros Hc Hf. revert p data Hc. induction chunks as [|c chunks IH]; intros p data Hc.
  - cbn. rewrite app_nil_r. destruct (receive_ok p data Hc) as (p' & E & _). by rewrite E.
  - apply Forall_cons in Hf as [Hne Hf]. specialize (IH Hf).
    destruct (receive_ok p data Hc) as (p' & E & Hc'). cbn [receives]. rewrite E. cbn [mbind option_bind].
    destruct (IH p' c Hc') as [H1 H2]. split; [|done].
    change (receives p' (c :: chunks) = receive p (concat (data :: c :: chunks))).
    rewrite H1. apply receive_app; [done| |done]. cbn. by destruct c.
Qed.

(** C7. How the bytes are cut into calls of [recv] does not matter: the calls end
    as one call with all the bytes ends, and each of them does end. *)
Theorem header_block_cuts p data chunks :
  conn_ok p -> Forall (fun c => c <> []) chunks ->
  receives p (data :: chunks) = receive p (concat (data :: chunks)) /\
  is_Some (receives p (data :: chunks)).
Proof using Type. apply header_block_cuts_ok. Qed.
End Receive.

(** A connection on which no header block has arrived: a HEADERS frame of [n]
    bytes, with [padding] bytes of padding. *)
Definition start (sid n padding flags limit : Z) : state :=
  State sid n padding flags false false false (Header [] []) limit 0 [] 0 0 true hpack_init [].

Definition accept_all (_ : list header) (_ : header) : bool := true.

Lemma header_block_cuts_witness :
  let p := Waiting header_block (start 1 6 0 4 1000) [] in
  let chunks := [[0x82; 0x01]; [3; 97]; [98; 99]] in
  receives 100 accept_all p chunks = receive 100 accept_all p (concat chunks) /\
  is_Some (receives 100 accept_all p chunks).
Proof. apply header_block_cuts; [done|repeat constructor; discriminate]. Defined.
