(* ===== verification/Http2BlockSafe.v ===== *)
(** * Http2BlockSafe: what holds on every header block

    On any input: the buffer of the connection holds what is saved, a header
    string stays inside what was allocated for it, and the header table is one
    that a list represents. *)

From S2P Require Import Prelude Http2HuffTables Http2Huff Http2Table Http2Block Http2BlockLoop.

(** ** What a string takes *)

Lemma code_length_checked :
  forallb (fun c => (5 <=? length (code_bits c))%nat) all_bytes = true.
Proof. vm_compute. reflexivity. Qed.

Lemma codes_length l : Forall is_byte l -> 5 * len l <= Z.of_nat (length (codes l)).
Proof.
  induction 1 as [|c l Hc Hl IH]; [done|]. unfold codes in *. cbn [fmap list_fmap concat].
  rewrite length_app, len_cons. unfold len in *.
  pose proof (forall_bytes _ c code_length_checked Hc) as H. cbv beta in H. apply Nat.leb_le in H. lia.
Qed.

Lemma nibble_bits_length src :
  Forall is_byte src -> Z.of_nat (length (nibble_bits (nibbles src))) = 8 * len src.
Proof.
  intros H. rewrite nibbles_bits. unfold byte_bits, len. induction src as [|c src IH]; [done|].
  cbn [fmap list_fmap concat length]. rewrite length_app, bits_length.
  apply Forall_cons in H as [_ H]. specialize (IH H). lia.
Qed.

(** Each symbol takes five bits of the source at least. *)
Lemma huff_decode_bound s src last s' out :
  is_byte s -> Forall is_byte src -> ngx_http_v2_huff_decode s src last = Some (s', out) ->
  is_byte s' /\ (last = true -> s' = 0) /\
  5 * len out + Z.of_nat (length (prefix_bits s')) <= Z.of_nat (length (prefix_bits s)) + 8 * len src.
Proof.
  intros Hs Hb H. unfold ngx_http_v2_huff_decode in H. rewrite decode_loop_run in H.
  destruct (run s 1 (nibbles src)) as [[[s1 e1] o1]|] eqn:E; [|done].
  apply run_sound in E as (Hbits & Hs1 & Ho & _); [|done|by apply nibbles_range].
  apply (f_equal length) in Hbits. rewrite !length_app in Hbits.
  pose proof (nibble_bits_length src Hb). pose proof (codes_length o1 Ho).
  cbn in H. destruct last; [destruct (e1 =? 0); [done|]|]; simplify_eq.
  - split; [unfold is_byte; lia|]. split; [done|]. change (prefix_bits 0) with (@nil bool). simpl. lia.
  - split; [done|]. split; [done|]. lia.
Qed.

(** ** Safety *)

(** The string, with its terminating zero, is inside what was allocated. *)
Definition field_fits (st : state) : Prop :=
  (field st = [] /\ field_size st = 0) \/ len (field st) + 1 <= field_size st.

(** While a string is read, there is room for the rest of it. *)
Definition string_ok (h : handler) (st : state) : Prop :=
  match h with
  | field_huff =>
      is_byte (field_state st) /\
      exists n, field_size st = n * 8 / 5 + 1 /\
        5 * len (field st) + Z.of_nat (length (prefix_bits (field_state st))) + 8 * field_rest st <= 8 * n
  | field_raw => field_state st = 0 /\ len (field st) + field_rest st + 1 <= field_size st
  | _ => field_state st = 0
  end.

(** At most [n] headers have been added to the table. *)
Record safe (n : Z) (h : handler) (st : state) : Prop := Safe {
  safe_counts : counts_ok st;
  safe_table : exists t, represents (hpack_ st) t n;
  safe_fits : field_fits st;
  safe_string : string_ok h st
}.

Definition is_bytes (l : list Z) : Prop := Forall is_byte l.

Definition outcome_safe (n : Z) (o : outcome) : Prop :=
  match o with
  | Call h st pos | Return h st pos => safe n h st /\ is_bytes pos
  | Save h st pos => safe n h st /\ is_bytes pos /\ len pos <= 11
  | Conn_error code => code <> NGX_HTTP_V2_INTERNAL_ERROR
  | Complete st pos => safe n header_complete st /\ is_bytes pos
  end.

Lemma represents_le st t n m : represents st t n -> n <= m -> represents st t m.
Proof. intros [H1 H2] H. split; [lia|done]. Qed.

(** The parts of the state that a table and a string depend on. *)
Lemma safe_ext n n' h st st' :
  safe n h st -> n <= n' -> counts_ok st' -> hpack_ st' = hpack_ st ->
  field st' = field st -> field_size st' = field_size st -> field_state st' = field_state st ->
  field_rest st' <= field_rest st -> safe n' h st'.
Proof.
  intros [Hc [t Ht] Hf Hs] Hn Hc' E1 E2 E3 E4 E5. split; [done|..].
  - exists t. rewrite E1. by eapply represents_le.
  - unfold field_fits in *. by rewrite E2, E3.
  - destruct h; simpl in *; rewrite ?E2, ?E3, ?E4; try done; [|lia].
    destruct Hs as [? (k & ? & ?)]. split; [done|]. exists k. split; [done|]. lia.
Qed.

Ltac by_safe H :=
  eapply safe_ext; [exact H|lia|by destruct (safe_counts _ _ _ H)|reflexivity..|try reflexivity; lia].

(** Outside of a string the handler does not matter. *)
Lemma safe_handler n h h' st :
  is_field h = false -> h' <> field_huff -> h' <> field_raw -> safe n h st -> safe n h' st.
Proof. intros H H1 H2 [? ? ? Hs]. split; [done..|]. by destruct h, h'. Qed.

Lemma skip_padding_bytes n pad pos s p : is_bytes pos -> skip_padding n pad pos = (s, p) -> is_bytes p.
Proof.
  intros H E. unfold skip_padding in E. simplify_eq. unfold is_bytes in *.
  apply Forall_app. split; [by apply Forall_take|by apply Forall_drop].
Qed.

Section Safety.
Context (max_field_size : Z) (take_header : list header -> header -> bool).
Local Abbreviation step := (step max_field_size take_header).

Lemma continuation_safe n h st pos :
  safe n h st -> is_bytes pos -> length_ st < 4 -> (is_field h = true -> length_ st = 0) ->
  outcome_safe n (handle_continuation h st pos).
Proof using Type.
  intros Hs Hb Hl Hh. pose proof (continuation_cases h st pos (safe_counts _ _ _ Hs)) as H.
  unfold handle_continuation in *. destruct (skip_padding (length_ st) _ pos) as [s p] eqn:E.
  apply skip_padding_bytes in E as Hp; [|done].
  destruct (Z.ltb_spec (len p) (length_ st + NGX_HTTP_V2_FRAME_HEADER_SIZE));
    unfold NGX_HTTP_V2_FRAME_HEADER_SIZE in *.
  - rewrite state_save_small in * by lia. cbn in H. split_and!; [|done|lia].
    eapply safe_ext; [exact Hs|lia|by destruct H as (_ & H & _)|done..].
  - cbn zeta in *. destruct (negb _); [done|]. destruct (negb _); [done|]. split.
    + eapply safe_ext; [exact Hs|lia|by destruct H as (_ & _ & H)|done..].
    + unfold is_bytes in *. apply Forall_app. split; [by apply Forall_take|by apply Forall_drop].
Qed.

Lemma complete_safe n st pos :
  safe n header_complete st -> is_bytes pos -> outcome_safe n (state_header_complete st pos).
Proof using Type.
  intros Hs Hb. unfold state_header_complete. destruct (Z.eqb_spec (length_ st) 0) as [E|E]; simpl.
  - destruct (negb (end_headers st)); [|done]. apply continuation_safe; [done..|lia|done].
  - split; [|done]. by eapply safe_handler; [..|exact Hs].
Qed.

Lemma stream_safe n h st : safe n h st -> safe n h (process_stream take_header st).
Proof using Type.
  intros H. unfold process_stream. destruct (negb (stream st)); [done|].
  destruct (take_header _ _); by_safe H.
Qed.

Lemma process_safe n st pos :
  safe n header_complete st -> is_bytes pos -> 0 <= n < 2 ^ 64 - 1 ->
  outcome_safe (n + 1) (state_process_header take_header st pos).
Proof using Type.
  intros Hs Hb Hn. pose proof (safe_counts _ _ _ Hs) as Hc. unfold state_process_header.
  destruct (parse_name st).
  - split; [|done]. eapply (safe_handler _ header_complete); [done..|]. by_safe Hs.
  - cbn zeta. set (st1 := if parse_value st then _ else st).
    assert (safe n header_complete st1) as Hs1.
    { unfold st1. destruct (parse_value st); [|done]. by_safe Hs. }
    clearbody st1. destruct (header_limit st1 <? _); [done|]. cbn [index set_header_limit hpack_ cur].
    set (st2 := set_header_limit _ st1).
    assert (safe n header_complete st2) as Hs2 by (by_safe Hs1).
    destruct (index st1).
    + destruct (safe_table _ _ _ Hs1) as [t Ht].
      destruct (step_refines _ _ _ (Add (cur st1)) Ht I Hn) as (hp & E & Hr). cbn in E.
      destruct (ngx_http_v2_add_header (hpack_ st1) (cur st1)) as [hp'|]; [|done]. cbn in E. simplify_eq.
      apply complete_safe; [|done]. apply stream_safe. destruct Hs2 as [? _ ? ?].
      split; [done|by eexists|done..].
    + apply complete_safe; [|done]. apply stream_safe. by_safe Hs2.
Qed.

Lemma outcome_safe_le n m o : n <= m -> outcome_safe n o -> outcome_safe m o.
Proof using Type.
  intros H. destruct o as [h st pos|h st pos|h st pos| |st pos]; simpl; try done.
  all: intros (Hs & Hr); split; [by_safe Hs|done].
Qed.

Lemma next_safe n h st pos :
  is_field h = true -> safe n h st -> (field_rest st = 0 -> safe n header_complete st) ->
  (field_rest st <> 0 -> length_ st <> 0 -> pos = []) ->
  is_bytes pos -> 0 <= n < 2 ^ 64 - 1 -> outcome_safe (n + 1) (field_next take_header h st pos).
Proof using Type.
  intros Hh Hs H0 Hp Hb Hn. unfold field_next. destruct (Z.eqb_spec (field_rest st) 0) as [E|E].
  { apply process_safe; auto. }
  apply (outcome_safe_le n); [lia|]. destruct (Z.eqb_spec (length_ st) 0) as [E1|E1]; simpl.
  - destruct (end_headers st); [done|]. apply continuation_safe; done || lia.
  - rewrite (Hp E E1), state_save_small by done. split_and!; [done|constructor|done].
Qed.

Lemma absorb_safe n h st (size : nat) p st' :
  is_field h = true -> safe n h st -> is_bytes p -> length p = size ->
  Z.of_nat size <= length_ st -> Z.of_nat size <= field_rest st ->
  absorb h (consume st size) p = Some st' ->
  safe n h st' /\ (field_rest st' = 0 -> safe n header_complete st').
Proof using Type.
  intros Hh Hs Hb Hsz Hl Hr Ha. pose proof (absorb_frame _ _ _ _ Ha) as (F1 & F2 & F3 & F4).
  destruct Hs as [(C1 & C2 & C3) Ht Hf Hs].
  assert (counts_ok st') as Hc by (unfold counts_ok; rewrite F1, F2, F3; cbn; lia).
  unfold field_fits, consume in *. destruct h; try done; cbn in Ha, Hs.
  - destruct Hs as (Hbyte & k & Hk & Hbound).
    destruct (ngx_http_v2_huff_decode _ _ _) as [[fs out]|] eqn:E; [|done]. cbn in Ha. simplify_eq.
    apply huff_decode_bound in E as (H1 & H2 & H3); [|done..].
    cbn in F2 |- *. unfold len in H3 at 2.
    assert (5 * len (field st ++ out) + Z.of_nat (length (prefix_bits fs)) + 8 * (field_rest st - Z.of_nat (length p)) <= 8 * k)
      as Hb2 by (rewrite len_app; lia).
    assert (len (field st ++ out) + 1 <= field_size st) as Hfit.
    { rewrite Hk. assert (len (field st ++ out) <= k * 8 / 5); [|lia].
      apply Z.div_le_lower_bound; lia. }
    split; [split; [done|done|by right|]|intros H0; split; [done|done|by right|]].
    + cbn. split; [done|]. by exists k.
    + apply H2. by apply Z.eqb_eq.
  - simplify_eq. destruct Hs as [Hz Hfit]. cbn.
    assert (len (field st ++ p) + (field_rest st - Z.of_nat (length p)) + 1 <= field_size st) as H1
      by (rewrite len_app; unfold len in *; lia).
    split; [split; [done|done|right; cbn; lia|done]|intros H0; split; [done|done|right; cbn; lia|done]].
  - simplify_eq. split; [|intros H0]; by split.
Qed.

Lemma field_safe n h st pos :
  is_field h = true -> safe n h st -> is_bytes pos -> 0 <= n < 2 ^ 64 - 1 ->
  outcome_safe (n + 1) (step h st pos).
Proof using Type.
  intros Hh Hs Hb Hn. rewrite step_field by done.
  pose proof (available_le st pos (safe_counts _ _ _ Hs)) as (A1 & A2 & A3).
  destruct (absorb _ _ _) as [st'|] eqn:E; [|done].
  pose proof (absorb_frame _ _ _ _ E) as (F1 & F2 & F3 & F4).
  apply (absorb_safe n) in E as [Hs' H0]; try done.
  - apply next_safe; [done..| |by apply Forall_drop|done].
    rewrite F1, F2. cbn. intros H1 H2. apply drop_ge. unfold available, len in *. lia.
  - by apply Forall_take.
  - rewrite length_take. unfold len in *. lia.
Qed.

Lemma block_safe n st pos :
  safe n header_block st -> is_bytes pos -> 0 <= n < 2 ^ 64 - 1 ->
  outcome_safe (n + 1) (step header_block st pos).
Proof using Type.
  intros Hs Hb Hn. apply (safe_handler _ header_block header_complete) in Hs as Hsc; [|done..].
  cbn [Http2Block.step]. unfold state_header_block. destruct pos as [|c pos].
  { rewrite state_save_small by done. split_and!; [by_safe Hs|done..]. }
  set (a := c :: pos) in *. destruct (negb (end_headers st) && _) eqn:Eg.
  { apply andb_true_iff in Eg as [_ Hlt%Z.ltb_lt]. apply (outcome_safe_le n); [lia|].
    by apply continuation_safe. }
  destruct (representation c) as [[[prefix indexed] upd] inc] eqn:Er.
  set (st1 := if inc then set_index true st else st).
  assert (safe n header_complete st1) as Hs1 by (unfold st1; destruct inc; [by_safe Hsc|done]).
  clearbody st1. pose proof (parse_int_app (length_ st1) a [] prefix ltac:(done)) as Hp.
  destruct (ngx_http_v2_parse_int (length_ st1) a prefix) as [v used| | |] eqn:E; [|done..|].
  2: { rewrite state_save_small by lia. split_and!; [|done|lia].
       eapply (safe_handler _ header_complete); [done..|]. by_safe Hs1. }
  apply parse_int_used in E as (Hv & Hu & Hle); [|by eapply representation_prefix|by destruct Hs1 as [[]]].
  set (st2 := set_length _ st1).
  assert (safe n header_complete st2) as Hs2.
  { eapply safe_ext; [exact Hs1|lia| |done..].
    destruct (safe_counts _ _ _ Hs1). unfold counts_ok, st2; cbn; lia. }
  clearbody st2. assert (is_bytes (drop used a)) as Hd by (by apply Forall_drop).
  assert (safe n field_len st2) as Hs3 by (by apply (safe_handler _ header_complete)).
  unfold header_value.
  destruct indexed.
  { destruct (ngx_http_v2_get_indexed_header _ _ _ _); [|done]. apply process_safe; [by_safe Hs2|done..]. }
  destruct upd.
  { destruct (safe_table _ _ _ Hs2) as [t Ht].
    destruct (step_refines _ _ _ (Resize v) Ht Hv Hn) as (hp & E & Hr). cbn in E.
    destruct (ngx_http_v2_table_size (hpack_ st2) v) as [[hp'|]|]; [|done..]. cbn in E. simplify_eq.
    apply complete_safe; [|done]. destruct Hs2. split; [done|by eexists|done..]. }
  destruct (v =? 0); [|destruct (ngx_http_v2_get_indexed_header _ _ _ _); [|done]];
    (split; [by_safe Hs3|done]).
Qed.

Lemma len_safe n st pos :
  safe n field_len st -> is_bytes pos -> 0 <= n < 2 ^ 64 - 1 ->
  outcome_safe (n + 1) (step field_len st pos).
Proof using Type.
  intros Hs Hb Hn. cbn [Http2Block.step]. unfold state_field_len.
  destruct (negb (end_headers st) && _) eqn:Eg.
  { apply andb_true_iff in Eg as [_ Hlt%Z.ltb_lt]. apply (outcome_safe_le n); [lia|].
    by apply continuation_safe. }
  destruct (length_ st <? 1); [done|]. destruct pos as [|c pos].
  { rewrite state_save_small by done. split_and!; [by_safe Hs|done..]. }
  set (a := c :: pos) in *.
  pose proof (parse_int_app (length_ st) a [] (ngx_http_v2_prefix 7) ltac:(done)) as Hp.
  destruct (ngx_http_v2_parse_int (length_ st) a _) as [v used| | |] eqn:E; [|done..|].
  2: { rewrite state_save_small by lia. split_and!; [by_safe Hs|done|lia]. }
  apply parse_int_used in E as (Hv & Hu & Hle); [|done|by destruct Hs as [[]]].
  destruct (max_field_size <? v); [done|]. destruct Hs as [(C1 & C2 & C3) [t Ht] Hf Hz]. cbn in Hz.
  assert (is_bytes (drop used a)) as Hd by (by apply Forall_drop).
  assert (exists t, represents (hpack_ st) t (n + 1)) as Ht' by (exists t; eapply represents_le; [done|lia]).
  cbn zeta. destruct (negb _ && negb _).
  { split; [|done]. split; [unfold counts_ok; cbn; lia|done..]. }
  split; [|done]. assert (0 <= v * 8 / 5) by (apply Z.div_pos; lia).
  remember (v * 8 / 5) as alloc eqn:Ealloc.
  destruct (negb (Z.shiftr c 7 =? 0)); (split; [unfold counts_ok; cbn; lia|done|right; cbn; rewrite len_nil; lia|]).
  - cbn. rewrite Hz. split; [unfold is_byte; lia|]. exists v. rewrite <- Ealloc. split; [done|].
    rewrite len_nil. change (length (prefix_bits 0)) with O. lia.
  - cbn. rewrite len_nil. split; [done|]. lia.
Qed.

Lemma step_safe n h st pos :
  safe n h st -> is_bytes pos -> 0 <= n < 2 ^ 64 - 1 -> outcome_safe (n + 1) (step h st pos).
Proof using Type.
  intros Hs Hb Hn. destruct h; try by apply field_safe.
  - by apply block_safe.
  - by apply len_safe.
  - apply (outcome_safe_le n); [lia|]. by apply complete_safe.
Qed.

Definition progress_safe (n : Z) (p : progress) : Prop :=
  match p with
  | Waiting h st buf => safe n h st /\ is_bytes buf /\ len buf <= 11
  | Closed code => code <> NGX_HTTP_V2_INTERNAL_ERROR
  | Finished st pos => safe n header_complete st /\ is_bytes pos
  end.

Lemma progress_safe_le n m p : n <= m -> progress_safe n p -> progress_safe m p.
Proof using Type.
  intros H. destruct p as [h st buf| |st pos]; simpl; try done.
  all: intros (Hs & Hr); split; [by_safe Hs|done].
Qed.

Lemma drives_safe h st pos p n :
  drives max_field_size take_header h st pos p -> safe n h st -> is_bytes pos -> 0 <= n ->
  n + measure h pos + 2 < 2 ^ 64 -> progress_safe (n + measure h pos + 1) p.
Proof using Type.
  intros H. revert n. induction H as [h st pos h' st' pos' p E H IH|h st pos h' st' E
    |h st pos h' st' pos' p E Hne H IH|h st pos h' st' pos' E|h st pos code E|h st pos st' pos' E];
    intros n Hs Hb Hn Hm; (assert (0 <= measure h pos)
      by (unfold measure; pose proof (len_pos pos); assert (0 <= rank h) by (destruct h; simpl; lia); lia));
    pose proof (step_safe n h st pos Hs Hb ltac:(lia)) as He; rewrite E in He; cbn in He;
    pose proof (step_progresses max_field_size take_header h st pos (safe_counts _ _ _ Hs)) as Hp;
    rewrite E in Hp; cbn in Hp; try done.
  - destruct He as [He Hb']. destruct Hp as [Hp _].
    eapply progress_safe_le; [|apply (IH (n + 1)); [done..|lia|lia]]. lia.
  - apply (progress_safe_le (n + 1)); [lia|]. destruct He. split_and!; [done|done|done].
  - destruct He as [He Hb']. destruct Hp as [Hp _].
    eapply progress_safe_le; [|apply (IH (n + 1)); [done..|lia|lia]]. lia.
  - apply (progress_safe_le (n + 1)); [lia|done].
  - apply (progress_safe_le (n + 1)); [lia|done].
Qed.

Lemma receive_safe p data n :
  progress_safe n p -> is_bytes data -> 0 <= n -> n + 3 * len data + 36 < 2 ^ 64 ->
  exists p', receive max_field_size take_header p data = Some p' /\ progress_safe (n + 3 * len data + 35) p'.
Proof using Type.
  intros Hs Hb Hn Hm. pose proof (len_pos data). destruct p as [h st buf|code|st pos].
  - destruct Hs as (Hs & Hbuf & Hlen). pose proof (safe_counts _ _ _ Hs) as Hc.
    destruct (receive_ok max_field_size take_header (Waiting h st buf) data Hc) as (p' & E & _).
    exists p'. split; [done|]. apply receive_drives in E; [|done].
    assert (measure h (buf ++ data) <= 34 + 3 * len data)
      by (unfold measure; rewrite len_app; assert (rank h <= 1) by (destruct h; simpl; lia); lia).
    eapply progress_safe_le; [|eapply drives_safe; [exact E|exact Hs|by apply Forall_app|lia|lia]]. lia.
  - by exists (Closed code).
  - eexists. split; [done|]. eapply progress_safe_le; [|split; [apply Hs|]]; [lia|].
    apply Forall_app. split; [apply Hs|done].
Qed.

(** C6. Whatever arrives, and however it is cut. *)
Theorem header_block_safe p data chunks n :
  progress_safe n p -> 0 <= n < 2 ^ 63 -> Forall (fun c => c <> []) chunks ->
  is_bytes (concat (data :: chunks)) -> len (concat (data :: chunks)) < 2 ^ 60 ->
  exists p', receives max_field_size take_header p (data :: chunks) = Some p' /\
    progress_safe (n + 3 * len (concat (data :: chunks)) + 35) p'.
Proof using Type.
  intros Hs Hn Hne Hb Hlen.
  assert (conn_ok p) as Hc by (destruct p; [by destruct Hs as [[] _]|done..]).
  destruct (header_block_cuts_ok max_field_size take_header p data chunks Hc Hne) as [-> _].
  apply receive_safe; [done..|lia|lia].
Qed.
End Safety.

Lemma start_safe sid length padding flags limit :
  0 <= length -> 0 <= padding -> safe 0 header_block (start sid length padding flags limit).
Proof.
  intros. split; [done| |by left|done].
  exists (Table [] 0 false). split; [done|]. exists 0. done.
Qed.

Lemma header_block_safe_witness :
  let p := Waiting header_block (start 1 6 0 4 1000) [] in
  let chunks := [[0x82; 0x01]; [3; 97]; [98; 99]] in
  exists p', receives 100 accept_all p chunks = Some p' /\ progress_safe (0 + 3 * len (concat chunks) + 35) p'.
Proof.
  apply header_block_safe; [|lia|repeat constructor; discriminate|by_decide|vm_compute; reflexivity].
  split_and!; [by apply start_safe|constructor|done].
Defined.
