(* ===== verification/Http2BlockWrite.v ===== *)
(** * Http2BlockWrite: header blocks are read back

    What the functions of the header filter write: integers, strings, and the
    representations of a header block. *)

From S2P Require Import Prelude Http2HuffTables Http2Huff Http2Table Http2Block Http2BlockLoop Http2BlockSafe.

(** ** Integers *)

Lemma write_octets_total fuel v :
  0 <= v < 2 ^ (7 * (Z.of_nat fuel + 1)) -> exists os, write_octets fuel v = Some os.
Proof.
  revert v. induction fuel as [|fuel IH]; intros v Hv; simpl.
  - destruct (Z.leb_spec 128 v); [change (2 ^ _) with 128 in Hv; lia|eauto].
  - destruct (Z.leb_spec 128 v); [|eauto].
    destruct (IH (v / 128)) as [os ->]; [|simpl; eauto].
    split; [apply Z.div_pos; lia|]. apply Z.div_lt_upper_bound; [done|].
    replace (7 * (Z.of_nat (S fuel) + 1)) with (7 + 7 * (Z.of_nat fuel + 1)) in Hv by lia.
    rewrite Z.pow_add_r in Hv by lia. lia.
Qed.

(** What [ngx_http_v2_parse_int] makes of the octets: at most [k] of them. *)
Lemma octets_roundtrip k : forall fuel v os shift value used rest,
  write_octets fuel v = Some os -> 0 <= v < 2 ^ (7 * Z.of_nat k) -> (0 < k)%nat ->
  0 <= value -> 0 <= shift -> value + v * 2 ^ shift < 2 ^ 64 ->
  int_octets shift value used (take k (os ++ rest)) = Some (value + v * 2 ^ shift, (used + length os)%nat).
Proof.
  induction k as [|k IH]; [lia|]. intros fuel v os shift value used rest H Hv _ Hval Hsh H64.
  pose proof (Z.pow_pos_nonneg 2 shift ltac:(done) Hsh) as Hpos.
  destruct (Z.leb_spec 128 v) as [Hbig|Hsmall].
  - destruct fuel as [|fuel]; simpl in H; rewrite (proj2 (Z.leb_le _ _) Hbig) in H; [done|].
    destruct (write_octets fuel (v / 128)) as [os'|] eqn:E; [|done]. cbn in H. simplify_eq.
    pose proof (Z.div_mod v 128 ltac:(done)) as Hdm. pose proof (Z.mod_pos_bound v 128 ltac:(done)) as Hm.
    assert (0 <= v / 128 < 2 ^ (7 * Z.of_nat k)) as Hd.
    { split; [apply Z.div_pos; lia|]. apply Z.div_lt_upper_bound; [done|].
      replace (7 * Z.of_nat (S k)) with (7 + 7 * Z.of_nat k) in Hv by lia.
      rewrite Z.pow_add_r in Hv by lia. lia. }
    assert (0 < k)%nat as Hk by (destruct k; [change (2 ^ _) with 128 in Hv; lia|lia]).
    cbn [app take int_octets]. unfold u8. rewrite Z.mod_small by lia.
    rewrite (proj2 (Z.ltb_ge _ _)) by lia.
    assert (Z.land (v `mod` 128 + 128) 0x7f = v `mod` 128) as ->.
    { change 0x7f with (Z.ones 7). rewrite Z.land_ones by done. change (2 ^ 7) with 128.
      replace (v `mod` 128 + 128) with (v `mod` 128 + 1 * 128) by lia.
      rewrite Z.mod_add by done. by apply Z.mod_small. }
    rewrite Z.shiftl_mul_pow2 by done.
    assert (value + v `mod` 128 * 2 ^ shift + v / 128 * 2 ^ (shift + 7) = value + v * 2 ^ shift) as Heq.
    { rewrite Z.pow_add_r by lia. change (2 ^ 7) with 128. rewrite Hdm at 3. ring. }
    assert (0 <= v / 128 * 2 ^ (shift + 7)) by (apply Z.mul_nonneg_nonneg; lia).
    assert (0 <= v `mod` 128 * 2 ^ shift) by (apply Z.mul_nonneg_nonneg; lia).
    unfold u64. rewrite (Z.mod_small (value + v `mod` 128 * 2 ^ shift)) by lia.
    rewrite (IH fuel (v / 128) os') by (done || lia). f_equal. f_equal; [lia|simpl; lia].
  - assert (os = [v]) as ->.
    { destruct fuel; simpl in H; rewrite (proj2 (Z.leb_gt _ _) Hsmall) in H; unfold u8 in H;
        rewrite Z.mod_small in H by lia; by simplify_eq. }
    cbn [app take int_octets length]. rewrite (proj2 (Z.ltb_lt _ _)) by lia.
    change 0x7f with (Z.ones 7). rewrite Z.land_ones, (Z.mod_small v) by (change (2 ^ 7) with 128; lia).
    rewrite Z.shiftl_mul_pow2 by done. unfold u64. rewrite Z.mod_small by lia. f_equal. f_equal. lia.
Qed.

(** The values that four octets hold. *)
Definition small_int (k v : Z) : Prop := 0 <= v < ngx_http_v2_prefix k + 2 ^ 21.

Lemma prefix_ones k : ngx_http_v2_prefix k = Z.ones k.
Proof. unfold ngx_http_v2_prefix, Z.ones. lia. Qed.

Lemma write_int_total first k v :
  0 <= k <= 7 -> 0 <= v < 2 ^ 64 -> exists bs, ngx_http_v2_write_int first (ngx_http_v2_prefix k) v = Some bs.
Proof.
  intros Hk Hv. unfold ngx_http_v2_write_int. destruct (Z.ltb_spec v (ngx_http_v2_prefix k)); [eauto|].
  assert (0 <= ngx_http_v2_prefix k).
  { rewrite prefix_ones, Z.ones_equiv. pose proof (Z.pow_pos_nonneg 2 k). lia. }
  destruct (write_octets_total 10 (v - ngx_http_v2_prefix k)) as [os ->]; [|simpl; eauto].
  change (2 ^ (7 * (Z.of_nat 10 + 1))) with (2 ^ 77). assert (2 ^ 64 < 2 ^ 77) by done. lia.
Qed.

(** The bits of [first] are above those of the prefix. *)
Lemma write_int_parses first k v bs n rest :
  ngx_http_v2_write_int first (ngx_http_v2_prefix k) v = Some bs ->
  0 < k <= 7 -> Z.land first (ngx_http_v2_prefix k) = 0 -> small_int k v -> len bs <= n ->
  ngx_http_v2_parse_int n (bs ++ rest) (ngx_http_v2_prefix k) = Value v (length bs) /\ (0 < length bs)%nat.
Proof.
  intros H Hk Hf [Hv0 Hv] Hn. unfold ngx_http_v2_write_int in H.
  assert (0 < ngx_http_v2_prefix k < 128) as Hp.
  { rewrite prefix_ones, Z.ones_equiv. pose proof (Z.pow_le_mono_r 2 1 k). pose proof (Z.pow_le_mono_r 2 k 7).
    change (2 ^ 7) with 128 in *. lia. }
  assert (forall x, 0 <= x <= ngx_http_v2_prefix k -> Z.land (Z.lor first (u8 x)) (ngx_http_v2_prefix k) = x) as Hl.
  { intros x Hx. unfold u8. rewrite Z.mod_small by lia. rewrite Z.land_lor_distr_l, Hf, Z.lor_0_l.
    rewrite prefix_ones, Z.land_ones by lia. apply Z.mod_small. rewrite prefix_ones, Z.ones_equiv in Hx. lia. }
  destruct (Z.ltb_spec v (ngx_http_v2_prefix k)) as [Hlt|Hge].
  - simplify_eq. cbn [app ngx_http_v2_parse_int]. rewrite Hl by lia.
    rewrite (proj2 (Z.eqb_neq v _)) by lia. cbn [negb]. unfold len in Hn. simpl in Hn.
    rewrite (proj2 (Z.eqb_neq n 0)) by lia. split; [done|]. simpl. lia.
  - destruct (write_octets 10 _) as [os|] eqn:E; [|done]. cbn in H. simplify_eq.
    rewrite len_cons in Hn. cbn [app ngx_http_v2_parse_int]. rewrite Hl by lia.
    rewrite Z.eqb_refl. cbn [negb].
    change (take (Z.to_nat NGX_HTTP_V2_INT_OCTETS)) with (take (A:=Z) 4). cbn [take tail].
    rewrite (octets_roundtrip 3 _ _ _ _ _ _ _ E) by (change (2 ^ (7 * Z.of_nat 3)) with (2 ^ 21); change (2 ^ 0) with 1; lia).
    rewrite (proj2 (Z.ltb_ge _ _)) by (unfold len in Hn; lia). change (2 ^ 0) with 1.
    split; [f_equal; lia|simpl; lia].
Qed.

(** What [ngx_http_v2_integer_octets] estimates. *)
Lemma octets_length fuel v os :
  write_octets fuel v = Some os -> 0 <= v -> len os <= 1 + v / 127.
Proof.
  revert v os. induction fuel as [|fuel IH]; intros v os H Hv; simpl in H.
  - destruct (128 <=? v); [done|]. simplify_eq. pose proof (Z.div_pos v 127). rewrite len_cons, len_nil. lia.
  - destruct (Z.leb_spec 128 v).
    + destruct (write_octets fuel (v / 128)) as [os'|] eqn:E; [|done]. cbn in H. simplify_eq.
      apply IH in E; [|by apply Z.div_pos]. rewrite len_cons.
      assert (v / 128 / 127 + 1 <= v / 127); [|lia].
      pose proof (Z.div_mod v 128 ltac:(done)). pose proof (Z.mod_pos_bound v 128 ltac:(done)).
      assert (1 <= v / 128) by (apply Z.div_le_lower_bound; lia).
      apply Z.div_le_lower_bound; [done|]. pose proof (Z.mul_div_le (v / 128) 127 ltac:(done)). lia.
    + simplify_eq. pose proof (Z.div_pos v 127). rewrite len_cons, len_nil. lia.
Qed.

(** The room that the filter sets aside for a length is enough. *)
Lemma write_int_fits first v bs :
  ngx_http_v2_write_int first (ngx_http_v2_prefix 7) v = Some bs -> 0 <= v ->
  len bs <= ngx_http_v2_integer_octets v.
Proof.
  unfold ngx_http_v2_write_int, ngx_http_v2_integer_octets. change (ngx_http_v2_prefix 7) with 127. intros H Hv.
  destruct (Z.ltb_spec v 127).
  - simplify_eq. pose proof (Z.div_pos v 127). rewrite len_cons, len_nil. lia.
  - destruct (write_octets 10 _) as [os|] eqn:E; [|done]. cbn in H. simplify_eq.
    apply octets_length in E; [|lia]. rewrite len_cons.
    replace v with (v - 127 + 1 * 127) by lia. rewrite Z.div_add by done. lia.
Qed.

Lemma write_int_head first k v bs :
  ngx_http_v2_write_int first (ngx_http_v2_prefix k) v = Some bs ->
  0 < k <= 7 -> (2 ^ k | first) -> 0 <= v ->
  exists x tl, bs = (first + x) :: tl /\ 0 <= x <= ngx_http_v2_prefix k.
Proof.
  intros H Hk Hd Hv. assert (0 < ngx_http_v2_prefix k < 128 /\ ngx_http_v2_prefix k < 2 ^ k) as [Hp Hp2].
  { rewrite prefix_ones, Z.ones_equiv. pose proof (Z.pow_le_mono_r 2 1 k). pose proof (Z.pow_le_mono_r 2 k 7).
    change (2 ^ 7) with 128 in *. lia. }
  unfold ngx_http_v2_write_int in H.
  assert (forall x, 0 <= x <= ngx_http_v2_prefix k -> Z.lor first (u8 x) = first + x) as Hl.
  { intros x Hx. unfold u8. rewrite Z.mod_small by lia. apply (lor_add_low _ _ k); [lia|done|lia]. }
  destruct (Z.ltb_spec v (ngx_http_v2_prefix k)) as [Hlt|Hge].
  - simplify_eq. rewrite Hl by lia. eexists _, _. split; [done|lia].
  - destruct (write_octets 10 _) as [os|]; [|done]. cbn in H. simplify_eq.
    rewrite Hl by lia. eexists _, _. split; [done|lia].
Qed.

Lemma divide_land first k : 0 <= k -> (2 ^ k | first) -> Z.land first (ngx_http_v2_prefix k) = 0.
Proof.
  intros Hk [q ->]. rewrite prefix_ones, Z.land_ones by done. apply Z.mod_mul.
  pose proof (Z.pow_pos_nonneg 2 k). lia.
Qed.

(** ** Reading what was written *)

Section Reading.
Context (max_field_size : Z) (take_header : list header -> header -> bool).
Local Abbreviation step := (step max_field_size take_header).
Local Abbreviation drives := (drives max_field_size take_header).

(** A string that can be read: its length in four octets, and not above the
    limit. *)
Definition string_fits (src : list Z) : Prop :=
  is_bytes src /\ len src < 2 ^ 21 /\ len src <= max_field_size.

(** The state in which a string of [n] bytes has been read. *)
Definition read_string (f : list Z) (n size : Z) (st : state) : state :=
  set_field f (set_field_rest 0 (set_field_size size (set_length (length_ st - n) st))).

(** All of a string is there: it is taken at once. *)
Lemma field_read h st p rest f :
  is_field h = true -> len p = field_rest st -> field_rest st <= length_ st ->
  absorb h (consume st (length p)) p = Some f -> field_rest f = 0 ->
  step h st (p ++ rest) = state_process_header take_header f rest.
Proof using Type.
  intros Hh Hp Hl Ha Hf. rewrite step_field by done.
  assert (available st (p ++ rest) = length p) as ->.
  { unfold available. rewrite len_app. pose proof (len_pos rest). unfold len in *. lia. }
  rewrite take_app_length, drop_app_length, Ha. unfold field_next. by rewrite Hf.
Qed.

Lemma absorb_huff st p out :
  field st = [] -> field_rest st = len p -> field_state st = 0 ->
  ngx_http_v2_huff_decode 0 p true = Some (0, out) ->
  absorb field_huff (consume st (length p)) p =
    Some (set_field out (set_field_rest 0 (set_length (length_ st - len p) st))).
Proof using Type.
  intros Hf Hr Hs Hd. unfold absorb, consume. cbn [field_state set_field_rest set_length field_rest field].
  rewrite Hr, Hs. unfold len. rewrite Z.sub_diag. change (0 =? 0) with true. rewrite Hd. cbn.
  destruct st. cbn in *. by subst.
Qed.

Lemma absorb_raw st p :
  field st = [] -> field_rest st = len p ->
  absorb field_raw (consume st (length p)) p =
    Some (set_field p (set_field_rest 0 (set_length (length_ st - len p) st))).
Proof using Type.
  intros Hf Hr. unfold absorb, consume. cbn. rewrite Hr, Hf. unfold len. by rewrite Z.sub_diag.
Qed.

Lemma string_read st src lower enc rest :
  ngx_http_v2_string_encode src lower = Some enc -> string_fits src -> end_headers st = true ->
  len enc <= length_ st -> field_state st = 0 -> stream st || index st = true ->
  exists h size st1 pos1,
    step field_len st (enc ++ rest) = Call h st1 pos1 /\
    step h st1 pos1 =
      state_process_header take_header (read_string (folded lower src) (len enc) size st) rest.
Proof using Type.
  intros He (Hb & H21 & Hmax) Hend Hl Hfs Hlive. unfold ngx_http_v2_string_encode in He.
  set (tmp := ngx_http_v2_huff_encode src lower) in *.
  pose proof (huff_encode_reads src lower Hb) as [Hreads _]. fold tmp in Hreads.
  assert (exists (first : Z) (huff : bool) body, 
    (first = if huff then 0x80 else 0) /\ len body <= len src /\
    (if huff then ngx_http_v2_huff_decode 0 body true = Some (0, folded lower src) else body = folded lower src) /\
    exists dst, ngx_http_v2_write_int first (ngx_http_v2_prefix 7) (len body) = Some dst /\ enc = dst ++ body)
    as (first & huff & body & Hfirst & Hlen & Hbody & dst & Hdst & ->).
  { destruct (Z.ltb_spec 0 (len tmp)) as [Hpos|Hpos].
    - destruct (ngx_http_v2_write_int NGX_HTTP_V2_ENCODE_HUFF _ _) as [dst|] eqn:E; [|done].
      cbn in He. simplify_eq. assert (tmp <> []) as Hne by (intros E0; by rewrite E0 in Hpos).
      destruct (Hreads Hne) as (_ & Hlt & Hd). exists 0x80, true, tmp. split_and!; [done|unfold len; lia|done|].
      by exists dst.
    - destruct (ngx_http_v2_write_int NGX_HTTP_V2_ENCODE_RAW _ _) as [dst|] eqn:E; [|done].
      cbn in He. simplify_eq. exists 0, false, (folded lower src).
      assert (len (folded lower src) = len src) as Hlf by (destruct lower; [unfold len, folded; by rewrite length_fmap|done]).
      rewrite Hlf. split_and!; [done|lia|done|]. by exists dst. }
  rewrite len_app in Hl. pose proof (len_pos body) as Hb0.
  destruct (write_int_parses first 7 (len body) dst (length_ st) (body ++ rest)) as [Hparse Hd0]; [done..| |split|lia|].
  { by destruct huff; subst. }
  { lia. }
  { change (ngx_http_v2_prefix 7) with 127. lia. }
  destruct (write_int_head first 7 (len body) dst) as (x & tl & -> & Hx); [done..| |lia|].
  { destruct huff; subst; [by exists 1|by exists 0]. }
  assert (negb (Z.shiftr (first + x) 7 =? 0) = huff) as Hhuff.
  { rewrite Z.shiftr_div_pow2 by done. change (2 ^ 7) with 128. change (ngx_http_v2_prefix 7) with 127 in Hx.
    destruct huff; subst.
    - replace (128 + x) with (x + 1 * 128) by lia. rewrite Z.div_add, Z.div_small by lia. done.
    - rewrite Z.div_small by lia. done. }
  rewrite <- app_assoc. set (dst := (first + x) :: tl) in *.
  exists (if huff then field_huff else field_raw), ((if huff then len body * 8 / 5 else len body) + 1).
  eexists _, (body ++ rest). split.
  - cbn [Http2Block.step]. unfold state_field_len. rewrite Hend. cbn [negb andb].
    rewrite (proj2 (Z.ltb_ge _ _)) by (unfold len in Hl; lia).
    change (dst ++ body ++ rest) with ((first + x) :: (tl ++ body ++ rest)). cbn iota.
    change ((first + x) :: (tl ++ body ++ rest)) with (dst ++ body ++ rest).
    rewrite Hparse, Hhuff. rewrite (proj2 (Z.ltb_ge _ _)) by lia.
    rewrite drop_app_length. cbn zeta. cbn [stream index set_field_rest set_length].
    replace (negb (stream st) && negb (index st)) with false by (by destruct (stream st), (index st)).
    reflexivity.
  - clearbody dst. rewrite len_app. unfold read_string. destruct huff.
    + erewrite field_read; [|done|done| |apply absorb_huff; done|done]; [|cbn; unfold len in *; lia].
      unfold len. by rewrite Z.sub_add_distr.
    + subst body. erewrite field_read; [|done|done| |apply absorb_raw; done|done]; [|cbn; unfold len in *; lia].
      unfold len. by rewrite Z.sub_add_distr.
Qed.
End Reading.

(** ** Header blocks *)

(** The representations of RFC 7541, section 6. *)
Inductive name_ref : Type := Ref (i : Z) | New (key : list Z).
Inductive kind : Type := Incremental | Without_indexing | Never_indexed.
Inductive rep : Type :=
  | Indexed (i : Z)
  | Literal (k : kind) (nm : name_ref) (v : list Z)
  | Size_update (n : Z).

Definition kind_first (k : kind) : Z :=
  match k with Incremental => 0x40 | Without_indexing => 0 | Never_indexed => 0x10 end.
Definition kind_bits (k : kind) : Z := match k with Incremental => 6 | _ => 4 end.

(** How they are written with the functions of the filter. *)
Definition encode_rep (r : rep) : option (list Z) :=
  match r with
  | Indexed i => ngx_http_v2_write_int 0x80 (ngx_http_v2_prefix 7) i
  | Literal k nm v =>
      first ← ngx_http_v2_write_int (kind_first k) (ngx_http_v2_prefix (kind_bits k))
                (match nm with Ref i => i | New _ => 0 end);
      key ← match nm with Ref _ => Some [] | New key => ngx_http_v2_string_encode key true end;
      val ← ngx_http_v2_string_encode v false;
      Some (first ++ key ++ val)
  | Size_update n => ngx_http_v2_write_int 0x20 (ngx_http_v2_prefix 5) n
  end.

Fixpoint encode_block (reps : list rep) : option (list Z) :=
  match reps with
  | [] => Some []
  | r :: reps => a ← encode_rep r; b ← encode_block reps; Some (a ++ b)
  end.

(** What a representation means for the table as the code has it: the table
    after it and the header. *)
Definition no_header : header := Header [] [].

Definition rep_step (t : table) (r : rep) : option (table * list header) :=
  match r with
  | Indexed i => h ← table_get (t_list t) no_header i false; Some (t, [h])
  | Literal k nm v =>
      n ← match nm with
          | Ref i => h ← table_get (t_list t) no_header i true; Some (name h)
          | New key => Some (folded true key)
          end;
      let h := Header n v in
      Some (match k with Incremental => (table_step t (Add h)).1 | _ => t end, [h])
  | Size_update n => if NGX_HTTP_V2_TABLE_SIZE <? n then None else Some ((table_step t (Resize n)).1, [])
  end.

Fixpoint block_step (t : table) (reps : list rep) : option (table * list header) :=
  match reps with
  | [] => Some (t, [])
  | r :: reps => '(t, hs) ← rep_step t r; '(t, hs') ← block_step t reps; Some (t, hs ++ hs')
  end.

(** The same for the table of RFC 7541 (sections 3.2 and 6); that size updates
    come first in a block (4.2) is not asked for. *)
Definition rfc_rep (t : rfc_table) (r : rep) : option (rfc_table * list header) :=
  match r with
  | Indexed i => h ← table_get (rfc_list t) no_header i false; Some (t, [h])
  | Literal k nm v =>
      n ← match nm with
          | Ref i => h ← table_get (rfc_list t) no_header i true; Some (name h)
          | New key => Some (folded true key)
          end;
      let h := Header n v in
      Some (match k with Incremental => (rfc_step t (Add h)).1 | _ => t end, [h])
  | Size_update n => if NGX_HTTP_V2_TABLE_SIZE <? n then None else Some ((rfc_step t (Resize n)).1, [])
  end.

Fixpoint rfc_block (t : rfc_table) (reps : list rep) : option (rfc_table * list header) :=
  match reps with
  | [] => Some (t, [])
  | r :: reps => '(t, hs) ← rfc_rep t r; '(t, hs') ← rfc_block t reps; Some (t, hs ++ hs')
  end.

(** Whether a representation inserts, *)
Definition inserts (r : rep) : bool := match r with Literal Incremental _ _ => true | _ => false end.

(** and whether the maximal size is 4096 at the first insertion on the
    connection: [used] is whether it has been before the block. *)
Fixpoint settled_block (used : bool) (max : Z) (reps : list rep) : bool :=
  match reps with
  | [] => true
  | r :: reps =>
      (used || negb (inserts r) || (max =? NGX_HTTP_V2_TABLE_SIZE)) &&
      settled_block (used || inserts r) (match r with Size_update n => n | _ => max end) reps
  end.

(** The table of the RFC with what the code knows of it. *)
Definition code_table (used : bool) (t : rfc_table) : table := Table (rfc_list t) (rfc_max t) used.

Lemma rep_rfc used t r t' hs :
  rfc_rep t r = Some (t', hs) -> used || negb (inserts r) || (rfc_max t =? NGX_HTTP_V2_TABLE_SIZE) = true ->
  rep_step (code_table used t) r = Some (code_table (used || inserts r) t', hs) /\
  rfc_max t' = match r with Size_update n => n | _ => rfc_max t end.
Proof.
  intros Hr Hs. destruct t as [l max]. unfold code_table in *. destruct r as [i|k nm v|n]; cbn in Hr, Hs |- *.
  - destruct (table_get l no_header i false) as [h|]; [|done]. cbn in Hr |- *. simplify_eq. by rewrite orb_false_r.
  - destruct (match nm with Ref i => _ | New key => _ end) as [n|]; [|done]. cbn in Hr |- *. simplify_eq.
    destruct k; cbn in Hs |- *; rewrite ?orb_false_r in *; [|done..]. rewrite orb_true_r.
    destruct used; cbn in Hs |- *; [done|]. by apply Z.eqb_eq in Hs as ->.
  - destruct (NGX_HTTP_V2_TABLE_SIZE <? n); [done|]. cbn in Hr |- *. simplify_eq. by rewrite orb_false_r.
Qed.

Lemma block_rfc reps : forall used t t' hs,
  rfc_block t reps = Some (t', hs) -> settled_block used (rfc_max t) reps = true ->
  block_step (code_table used t) reps = Some (code_table (used || existsb inserts reps) t', hs).
Proof.
  induction reps as [|r reps IH]; intros used t t' hs Hb Hs; cbn in Hb, Hs |- *; [simplify_eq; by rewrite orb_false_r|].
  destruct (rfc_rep t r) as [[t1 hs1]|] eqn:Hr; [|done]. cbn [mbind option_bind] in Hb.
  destruct (rfc_block t1 reps) as [[t2 hs2]|] eqn:Hb2; [|done]. cbn in Hb. simplify_eq.
  apply andb_true_iff in Hs as [Hs1 Hs2]. destruct (rep_rfc used t r t1 hs1 Hr Hs1) as [-> Hmax].
  cbn [mbind option_bind]. rewrite <- Hmax in Hs2. rewrite (IH _ t1 t' hs2 Hb2 Hs2). cbn. by rewrite orb_assoc.
Qed.

(** The request accepts each header after those before it. *)
Fixpoint all_taken (take_header : list header -> header -> bool) (l hs : list header) : Prop :=
  match hs with
  | [] => True
  | h :: hs => take_header l h = true /\ all_taken take_header (l ++ [h]) hs
  end.

Lemma all_taken_app f l a b : all_taken f l (a ++ b) <-> all_taken f l a /\ all_taken f (l ++ a) b.
Proof.
  revert l. induction a as [|h a IH]; intros l; simpl; [rewrite app_nil_r; tauto|].
  rewrite IH, <- app_assoc. simpl. tauto.
Qed.

Fixpoint headers_size (hs : list header) : Z :=
  match hs with [] => 0 | h :: hs => hbytes h + headers_size hs end.

Lemma headers_size_app a b : headers_size (a ++ b) = headers_size a + headers_size b.
Proof. induction a as [|h a IH]; simpl; lia. Qed.

Lemma headers_size_nonneg a : 0 <= headers_size a.
Proof. induction a as [|h a IH]; simpl; [lia|]. pose proof (hsize_bytes h). lia. Qed.

(** [ngx_http_v2_indexed] and [ngx_http_v2_inc_indexed] are the first bytes of
    indices that fit in the prefix. *)
Lemma indexed_rep i : 0 <= i < 127 -> encode_rep (Indexed i) = Some [ngx_http_v2_indexed i].
Proof.
  intros Hi. cbn. unfold ngx_http_v2_write_int. change (ngx_http_v2_prefix 7) with 127.
  rewrite (proj2 (Z.ltb_lt _ _)) by lia. unfold u8. rewrite Z.mod_small by lia.
  by rewrite (lor_add_low 128 i 7) by (done || lia || by exists 1).
Qed.

Lemma header_rep key val :
  encode_rep (Literal Without_indexing (New key) val) = write_header key val.
Proof. done. Qed.

Section Blocks.
Context (max_field_size : Z) (take_header : list header -> header -> bool).
Local Abbreviation step := (step max_field_size take_header).
Local Abbreviation drives := (drives max_field_size take_header).
Local Abbreviation receives := (receives max_field_size take_header).

Definition rep_ok (r : rep) : Prop :=
  match r with
  | Indexed i => small_int 7 i
  | Literal k nm v =>
      string_fits max_field_size v /\
      match nm with Ref i => small_int (kind_bits k) i /\ i <> 0 | New key => string_fits max_field_size key end
  | Size_update n => small_int 5 n
  end.

(** Between two representations of the last frame, with the table [t], after at
    most [n] insertions. *)
Record ready (t : table) (n : Z) (st : state) : Prop := Ready {
  r_end : end_headers st = true;
  r_name : parse_name st = false;
  r_value : parse_value st = false;
  r_index : index st = false;
  r_stream : stream st = true;
  r_field : field_state st = 0;
  r_table : represents (hpack_ st) t n
}.

(** The header that has been read is added to the table, if it is to be, and
    to the request. *)
Lemma process_taken st rest t n (h : header) :
  end_headers st = true -> parse_name st = false -> stream st = true -> field_state st = 0 ->
  represents (hpack_ st) t n -> 0 <= n < 2 ^ 64 - 1 ->
  (if parse_value st then Header (name (cur st)) (field st) else cur st) = h ->
  hbytes h <= header_limit st -> take_header (taken st) h = true ->
  exists st',
    state_process_header take_header st rest = state_header_complete st' rest /\
    ready (if index st then (table_step t (Add h)).1 else t) (n + 1) st' /\
    length_ st' = length_ st /\ taken st' = taken st ++ [h] /\
    header_limit st' = header_limit st - headers_size [h].
Proof using Type.
  intros He Hpn Hst Hfs Hrep Hn Hh Hlim Htake.
  destruct st as [s l pd fl pn pv ix c lim fs f fsz fr str hp tk]. cbn in Hpn, Hst, Hfs, Hrep, Hh, Hlim, Htake |- *.
  subst pn str fs. unfold state_process_header. cbn [parse_name]. cbn zeta.
  set (st1 := if parse_value _ then _ else _).
  assert (st1 = State s l pd fl false false ix h lim 0 f fsz fr true hp tk) as ->.
  { unfold st1. cbn. destruct pv; cbn; by subst. }
  cbn [cur header_limit index hpack_ set_header_limit]. clear Hh.
  rewrite (proj2 (Z.ltb_ge lim _)) by (unfold hbytes in Hlim; lia).
  assert (forall hp' t' ix', represents hp' t' (n + 1) -> 
    let st2 := process_stream take_header (set_index false (State s l pd fl false false ix' h
                (lim - (len (name h) + len (value h))) 0 f fsz fr true hp' tk)) in
    ready t' (n + 1) st2 /\ length_ st2 = l /\ taken st2 = tk ++ [h] /\ header_limit st2 = lim - headers_size [h]) as Hst.
  { intros hp' t' ix' Hr'. unfold process_stream. cbn [stream set_index taken cur negb]. rewrite Htake.
    cbn. split_and!; [by split|done|done|]. unfold hbytes. lia. }
  destruct ix.
  - destruct (step_refines _ _ _ (Add h) Hrep I Hn) as (hp' & E & Hr'). cbn in E.
    destruct (ngx_http_v2_add_header hp h) as [hp2|]; [|done]. cbn in E. simplify_eq.
    eexists. split; [reflexivity|]. by apply (Hst hp' _ true).
  - eexists. split; [reflexivity|]. apply (Hst hp _ false). eapply represents_le; [done|lia].
Qed.

(** The first byte announces its prefix. *)
Lemma representation_spec first x :
  match first with
  | 0x80 => 0 <= x <= 127 -> representation (0x80 + x) = (ngx_http_v2_prefix 7, true, false, false)
  | 0x40 => 0 <= x <= 63 -> representation (0x40 + x) = (ngx_http_v2_prefix 6, false, false, true)
  | 0x20 => 0 <= x <= 31 -> representation (0x20 + x) = (ngx_http_v2_prefix 5, false, true, false)
  | 0x10 => 0 <= x <= 15 -> representation (0x10 + x) = (ngx_http_v2_prefix 4, false, false, false)
  | 0 => 0 <= x <= 15 -> representation (0 + x) = (ngx_http_v2_prefix 4, false, false, false)
  | _ => True
  end.
Proof using Type.
  repeat case_match; try done; intros Hx; unfold representation;
    repeat match goal with |- context [?a <=? ?b] => destruct (Z.leb_spec a b); try lia end; done.
Qed.

Lemma block_first first k i u inc v bs rest st :
  (forall x, 0 <= x <= ngx_http_v2_prefix k -> representation (first + x) = (ngx_http_v2_prefix k, i, u, inc)) ->
  ngx_http_v2_write_int first (ngx_http_v2_prefix k) v = Some bs -> 0 < k <= 7 -> (2 ^ k | first) ->
  small_int k v -> len bs <= length_ st -> end_headers st = true ->
  step header_block st (bs ++ rest) =
    header_value take_header i u v
      (set_length (length_ st - len bs) (if inc then set_index true st else st)) rest.
Proof using Type.
  intros Hrep Hw Hk Hdiv Hv Hl He.
  destruct (write_int_parses first k v bs (length_ st) rest) as [Hp _]; [done..|by apply divide_land; [lia|]|done|done|].
  destruct (write_int_head first k v bs Hw Hk Hdiv) as (x & tl & Hbs & Hx); [by destruct Hv|].
  cbn [Http2Block.step]. unfold state_header_block.
  assert (exists y, bs ++ rest = (first + x) :: y) as [y Hy] by (rewrite Hbs; eexists; done).
  rewrite Hy. cbn iota. rewrite <- Hy. rewrite He. cbn [negb andb]. rewrite (Hrep x Hx).
  assert (length_ (if inc then set_index true st else st) = length_ st) as El by (by destruct inc).
  rewrite El, Hp, drop_app_length. done.
Qed.

(** A sequence of calls that ends a representation. *)
Definition leads (h : handler) (st : state) (pos : list Z) (st2 : state) (rest : list Z) : Prop :=
  exists h' st' pos', (forall p, drives h' st' pos' p -> drives h st pos p) /\
    step h' st' pos' = state_header_complete st2 rest.

Lemma leads_here h st pos st2 rest :
  step h st pos = state_header_complete st2 rest -> leads h st pos st2 rest.
Proof using Type. intros H. by exists h, st, pos. Qed.

Lemma leads_call h st pos h1 st1 pos1 st2 rest :
  step h st pos = Call h1 st1 pos1 -> leads h1 st1 pos1 st2 rest -> leads h st pos st2 rest.
Proof using Type.
  intros H (h' & st' & pos' & Hd & Hs). exists h', st', pos'. split; [|done].
  intros p Hp. eapply drives_call; [done|]. by apply Hd.
Qed.

(** The value of a literal, and the header with it. *)
Lemma value_leads st v enc rest t n (h : header) :
  ngx_http_v2_string_encode v false = Some enc -> string_fits max_field_size v ->
  end_headers st = true -> parse_name st = false -> parse_value st = true -> stream st = true ->
  field_state st = 0 -> len enc <= length_ st ->
  represents (hpack_ st) t n -> 0 <= n < 2 ^ 64 - 1 -> h = Header (name (cur st)) v ->
  hbytes h <= header_limit st -> take_header (taken st) h = true ->
  exists st2, leads field_len st (enc ++ rest) st2 rest /\
    ready (if index st then (table_step t (Add h)).1 else t) (n + 1) st2 /\
    length_ st2 = length_ st - len enc /\ taken st2 = taken st ++ [h] /\
    header_limit st2 = header_limit st - headers_size [h].
Proof using Type.
  intros He Hfit Hend Hpn Hpv Hst Hfs Hl Hrep Hn Hh Hlim Htake.
  destruct (string_read max_field_size take_header st v false enc rest He Hfit Hend Hl Hfs)
    as (h' & size & st1 & pos1 & E1 & E2); [by rewrite Hst|].
  destruct (process_taken (read_string v (len enc) size st) rest t n h) as (st2 & E3 & Hr & Hrest); try done.
  { unfold read_string. cbn. by rewrite Hpv, Hh. }
  exists st2. split; [|done]. eapply leads_call; [exact E1|]. apply leads_here. rewrite E2. exact E3.
Qed.

Lemma table_get_name t old old' i h :
  table_get t old i true = Some h -> exists h', table_get t old' i true = Some h' /\ name h' = name h.
Proof using Type.
  unfold table_get. destruct (i =? 0); [done|]. destruct ((ngx_http_v2_static_table ++ t) !! _) as [e|]; [|done].
  cbn. intros; simplify_eq. eexists. split; [done|]. by destruct (_ <? i).
Qed.

(** The lookup of the code in a state that represents a table. *)
Lemma get_represents hp t n old i name_only :
  represents hp t n -> 0 <= i -> 0 <= n < 2 ^ 64 - 1 ->
  ngx_http_v2_get_indexed_header hp old i name_only = table_get (t_list t) old i name_only.
Proof using Type.
  intros Hr Hi Hn. destruct (step_refines _ _ _ (Get old i name_only) Hr Hi Hn) as (hp' & E & _).
  cbn in E. injection E as _ E. unfold got in E.
  destruct (ngx_http_v2_get_indexed_header hp old i name_only), (table_get _ _ _ _); simplify_eq; done.
Qed.

(** What a representation does. *)
Definition advances (st : state) (used n : Z) (t : table) (hs : list header) (st2 : state) : Prop :=
  ready t n st2 /\ length_ st2 = length_ st - used /\ taken st2 = taken st ++ hs /\
  header_limit st2 = header_limit st - headers_size hs.

Lemma kind_facts k (nm : name_ref) :
  0 < kind_bits k <= 7 /\ (2 ^ kind_bits k | kind_first k) /\
  forall x, 0 <= x <= ngx_http_v2_prefix (kind_bits k) ->
    representation (kind_first k + x) =
      (ngx_http_v2_prefix (kind_bits k), false, false, match k with Incremental => true | _ => false end).
Proof using Type.
  destruct k; simpl; (split; [lia|split; [first [by exists 1|by exists 0]|]]); intros x Hx.
  - by apply (representation_spec 0x40).
  - by apply (representation_spec 0).
  - by apply (representation_spec 0x10).
Qed.

Lemma literal_leads k nm v enc rest st t n t' hs :
  encode_rep (Literal k nm v) = Some enc -> rep_ok (Literal k nm v) -> ready t n st ->
  rep_step t (Literal k nm v) = Some (t', hs) -> 0 <= n < 2 ^ 64 - 1 -> len enc <= length_ st ->
  headers_size hs <= header_limit st -> all_taken take_header (taken st) hs ->
  exists st2, leads header_block st (enc ++ rest) st2 rest /\ advances st (len enc) (n + 1) t' hs st2.
Proof using Type.
  intros He [Hv Hnm] [Hend Hpn Hpv Hix Hst Hfs Hrep] Hs Hn Hl Hlim Htake. cbn in He, Hs.
  destruct (ngx_http_v2_write_int _ _ _) as [first|] eqn:E1; [|done]. cbn [mbind option_bind] in He.
  destruct (match nm with Ref _ => Some [] | New key => ngx_http_v2_string_encode key true end)
    as [ke|] eqn:E2; [|done]. cbn [mbind option_bind] in He.
  destruct (ngx_http_v2_string_encode v false) as [ve|] eqn:E3; [|done]. cbn in He.
  destruct (kind_facts k nm) as (Hk & Hdiv & Hkr).
  assert (enc = first ++ ke ++ ve) as -> by congruence. clear He. rewrite !len_app in Hl.
  pose proof (len_pos first) as P1. pose proof (len_pos ke) as P2. pose proof (len_pos ve) as P3.
  rewrite <- !app_assoc. set (inc := match k with Incremental => true | _ => false end) in *.
  set (st1 := set_length (length_ st - len first) (if inc then set_index true st else st)).
  assert (step header_block st (first ++ ke ++ ve ++ rest) =
    header_value take_header false false (match nm with Ref i => i | New _ => 0 end) st1 (ke ++ ve ++ rest)) as Hstep.
  { apply (block_first _ _ _ _ _ _ _ _ _ Hkr); try done; [|lia]. destruct nm; [by destruct Hnm|].
    split; [lia|]. unfold small_int. destruct k; done. }
  assert (end_headers st1 = true /\ parse_name st1 = false /\ stream st1 = true /\ field_state st1 = 0 /\
    represents (hpack_ st1) t n /\ length_ st1 = length_ st - len first /\ taken st1 = taken st /\
    header_limit st1 = header_limit st /\ index st1 = inc) as (F1 & F2 & F3 & F4 & F5 & F6 & F7 & F8 & F9).
  { unfold st1. by destruct inc; cbn. }
  clearbody st1. unfold advances. rewrite !len_app.
  unfold header_value in Hstep. destruct nm as [i|key].
  - (* a name of the table *)
    destruct Hnm as [[Hi _] Hi0]. simplify_eq. cbn [app] in *. rewrite len_nil in *.
    rewrite (proj2 (Z.eqb_neq i 0)) in Hstep by done. cbn iota in Hstep.
    destruct (table_get (t_list t) no_header i true) as [e|] eqn:Eg; [|done]. cbn in Hs. simplify_eq.
    destruct (table_get_name _ _ (cur st1) _ _ Eg) as (e' & Eg' & Hname).
    rewrite (get_represents _ t n) in Hstep by done. rewrite Eg' in Hstep.
    destruct (value_leads (set_parse_value true (set_cur e' st1)) v ve rest t n (Header (name e) v))
      as (st2 & H1 & H2 & H3 & H4 & H5); try done; cbn in *.
    { lia. }
    { by rewrite Hname. }
    { lia. }
    { rewrite F7. tauto. }
    exists st2. split; [by eapply leads_call|]. rewrite F9 in H2. rewrite H3, H4, H5, F6, F7, F8.
    split; [by destruct k|]. split; [lia|done].
  - (* a new name *)
    cbn [Z.eqb] in Hstep. cbn in Hs. simplify_eq.
    set (stn := set_parse_value true (set_parse_name true st1)) in *.
    destruct (string_read max_field_size take_header stn key true ke (ve ++ rest) E2 Hnm)
      as (h' & size & sk & pk & S1 & S2); try done; [unfold stn; cbn; lia|unfold stn; cbn; by rewrite F3|].
    set (stv := read_string (folded true key) (len ke) size stn) in *.
    destruct (value_leads (set_cur (Header (field stv) (value (cur stv))) (set_parse_name false stv))
      v ve rest t n (Header (folded true key) v)) as (st2 & H1 & H2 & H3 & H4 & H5); try done; cbn in *.
    { lia. }
    { lia. }
    { rewrite F7. tauto. }
    exists st2. split.
    { eapply leads_call; [exact Hstep|]. eapply leads_call; [exact S1|]. eapply leads_call; [|exact H1].
      rewrite S2. reflexivity. }
    rewrite F9 in H2. rewrite H3, H4, H5, F6, F7, F8. split; [by destruct k|]. split; [lia|done].
Qed.

Lemma rep_leads r enc rest st t n t' hs :
  encode_rep r = Some enc -> rep_ok r -> ready t n st ->
  rep_step t r = Some (t', hs) -> 0 <= n < 2 ^ 64 - 1 -> len enc <= length_ st ->
  headers_size hs <= header_limit st -> all_taken take_header (taken st) hs ->
  exists st2, leads header_block st (enc ++ rest) st2 rest /\ advances st (len enc) (n + 1) t' hs st2.
Proof using Type.
  intros He Hok Hr Hs Hn Hl Hlim Htake. destruct r as [i|k nm v|sz]; [| |].
  2: by eapply literal_leads.
  - destruct Hr as [Hend Hpn Hpv Hix Hst Hfs Hrep]. cbn in He, Hok, Hs.
    pose proof (block_first 0x80 7 true false false i enc rest st (fun x => representation_spec 0x80 x)
      He ltac:(lia) ltac:(by exists 1) Hok Hl Hend) as Hstep. unfold header_value in Hstep. cbn [hpack_ set_length cur] in Hstep.
    destruct (table_get (t_list t) no_header i false) as [e|] eqn:Eg; [|done]. cbn in Hs. simplify_eq.
    rewrite (get_represents _ t' n) in Hstep by (done || apply Hok).
    assert (table_get (t_list t') (cur st) i false = Some e) as Eg'.
    { revert Eg. unfold table_get. destruct (i =? 0); [done|]. by destruct ((ngx_http_v2_static_table ++ _) !! _). }
    rewrite Eg' in Hstep. set (st1 := set_cur e (set_length (length_ st - len enc) st)) in *.
    destruct (process_taken st1 rest t' n e) as (st2 & E & Hr2 & H1 & H2 & H3); try done; cbn in *.
    { by rewrite Hpv. }
    { lia. }
    { tauto. }
    exists st2. split; [apply leads_here; etransitivity; [exact Hstep|exact E]|]. rewrite Hix in Hr2. by split.
  - pose proof Hr as [Hend Hpn Hpv Hix Hst Hfs Hrep]. cbn in He, Hok. cbn [rep_step] in Hs.
    pose proof (block_first 0x20 5 false true false sz enc rest st (fun x => representation_spec 0x20 x)
      He ltac:(lia) ltac:(by exists 1) Hok Hl Hend) as Hstep. unfold header_value in Hstep. cbn [hpack_ set_length] in Hstep.
    destruct (step_refines _ _ _ (Resize sz) Hrep (proj1 Hok) Hn) as (hp & E & Hr').
    cbn in E, Hr', Hs. destruct (Z.ltb_spec NGX_HTTP_V2_TABLE_SIZE sz); [done|].
    cbn in E, Hr'. simplify_eq.
    destruct (ngx_http_v2_table_size (hpack_ st) sz) as [[hp'|]|]; [|done..]. cbn in E. simplify_eq.
    eexists. split; [apply leads_here; exact Hstep|]. split_and!; [by split|done| |]; cbn.
    + by rewrite app_nil_r.
    + lia.
Qed.

Lemma write_int_nonempty first prefix v bs : ngx_http_v2_write_int first prefix v = Some bs -> 0 < len bs.
Proof using Type.
  unfold ngx_http_v2_write_int. destruct (v <? prefix); [|destruct (write_octets 10 _); [|done]]; cbn; intros; simplify_eq;
    rewrite len_cons; [pose proof (len_pos [])|pose proof (len_pos l)]; lia.
Qed.

Lemma encode_rep_nonempty r enc : encode_rep r = Some enc -> 0 < len enc.
Proof using Type.
  destruct r; cbn; try apply write_int_nonempty.
  destruct (ngx_http_v2_write_int _ _ _) as [a|] eqn:E; [|done]. apply write_int_nonempty in E. cbn [mbind option_bind].
  destruct (match nm with Ref _ => _ | New _ => _ end) as [b|]; [|done]. cbn [mbind option_bind].
  destruct (ngx_http_v2_string_encode v false) as [c|]; [|done]. cbn. intros; simplify_eq.
  rewrite !len_app. pose proof (len_pos b). pose proof (len_pos c). lia.
Qed.

Lemma block_drives reps : forall enc st t n t' hs rest,
  reps <> [] -> encode_block reps = Some enc -> Forall rep_ok reps -> ready t n st ->
  block_step t reps = Some (t', hs) -> 0 <= n -> n + Z.of_nat (length reps) < 2 ^ 64 - 1 ->
  length_ st = len enc -> headers_size hs <= header_limit st -> all_taken take_header (taken st) hs ->
  exists st', drives header_block st (enc ++ rest) (Finished st' rest) /\
    ready t' (n + Z.of_nat (length reps)) st' /\ taken st' = taken st ++ hs.
Proof using Type.
  induction reps as [|r reps IH]; [done|].
  intros enc st t n t' hs rest _ He Hok Hr Hs Hn Hn2 Hl Hlim Htake.
  apply Forall_cons in Hok as [Hok1 Hok]. cbn [encode_block block_step length] in *.
  destruct (encode_rep r) as [a|] eqn:E1; [|done]. cbn [mbind option_bind] in He.
  destruct (encode_block reps) as [b|] eqn:E2; [|done]. cbn in He. injection He as <-.
  destruct (rep_step t r) as [[t1 hs1]|] eqn:E3; [|done]. cbn [mbind option_bind] in Hs.
  destruct (block_step t1 reps) as [[t2 hs2]|] eqn:E4; [|done]. cbn in Hs. injection Hs as <- <-.
  rewrite headers_size_app in Hlim. apply all_taken_app in Htake as [Htk1 Htk2].
  pose proof (headers_size_nonneg hs1) as Hh1. pose proof (headers_size_nonneg hs2) as Hh2.
  rewrite len_app in Hl. pose proof (len_pos b) as Hb. rewrite <- app_assoc.
  destruct (rep_leads r a (b ++ rest) st t n t1 hs1 E1 Hok1 Hr E3) as (st2 & Hlead & Hr2 & L2 & T2 & M2);
    [lia|lia|lia|done|].
  destruct Hlead as (h' & s' & p' & Hd & Hstep). unfold state_header_complete in Hstep.
  destruct reps as [|r' reps].
  - cbn in E2, E4. injection E2 as <-. injection E4 as <- <-. rewrite len_nil in Hl.
    rewrite (proj2 (Z.eqb_eq (length_ st2) 0)) in Hstep by lia. cbn [negb] in Hstep.
    rewrite (r_end _ _ _ Hr2) in Hstep. exists st2.
    split; [apply Hd; by apply drives_complete|]. rewrite app_nil_r. by split.
  - assert (0 < len b) as Hb2.
    { cbn [encode_block] in E2. destruct (encode_rep r') as [c|] eqn:E5; [|done]. apply encode_rep_nonempty in E5.
      cbn [mbind option_bind] in E2. destruct (encode_block reps) as [d|]; [|done]. cbn in E2. injection E2 as <-.
      rewrite len_app. pose proof (len_pos d). lia. }
    rewrite (proj2 (Z.eqb_neq (length_ st2) 0)) in Hstep by lia. cbn [negb] in Hstep.
    destruct (IH b st2 t1 (n + 1) t2 hs2 rest) as (st' & Hd' & Hr' & Ht'); try done; [lia|lia|lia|lia|by rewrite T2|].
    exists st'. split; [|split; [|by rewrite Ht', T2, app_assoc]].
    + apply Hd. eapply drives_loop; [exact Hstep| |exact Hd']. destruct b; [done|]. done.
    + replace (n + Z.of_nat (S (length (r' :: reps)))) with (n + 1 + Z.of_nat (length (r' :: reps))) by lia. done.
Qed.

Theorem header_block_roundtrip reps enc data chunks rest st t n t' hs :
  encode_block reps = Some enc -> reps <> [] -> Forall rep_ok reps ->
  block_step t reps = Some (t', hs) ->
  concat (data :: chunks) = enc ++ rest -> Forall (fun c => c <> []) chunks ->
  ready t n st -> counts_ok st -> 0 <= n -> n + Z.of_nat (length reps) < 2 ^ 64 - 1 -> length_ st = len enc ->
  headers_size hs <= header_limit st -> all_taken take_header (taken st) hs ->
  exists st',
    receives (Waiting header_block st []) (data :: chunks) = Some (Finished st' rest) /\
    ready t' (n + Z.of_nat (length reps)) st' /\ taken st' = taken st ++ hs.
Proof using Type.
  intros He Hne Hok Hs Hcat Hchunks Hr Hc Hn Hn2 Hl Hlim Htake.
  destruct (block_drives reps enc st t n t' hs rest) as (st' & Hd & Hr' & Ht'); [done..|].
  exists st'. split; [|done].
  destruct (header_block_cuts_ok max_field_size take_header (Waiting header_block st []) data chunks Hc Hchunks) as [-> _].
  rewrite Hcat. apply receive_drives; [done|]. done.
Qed.
End Blocks.
