(* ===== verification/Http2BlockFrames.v ===== *)
(** * Http2BlockFrames: a header block in several frames

    A HEADERS frame and the CONTINUATION frames after it are decoded as one
    frame; what ngx_http_v2_create_headers_frame makes of a block is read back,
    however the bytes arrive. *)

From S2P Require Import Prelude Http2HuffTables Http2Huff Http2Table Http2Block Http2BlockLoop Http2BlockSafe Http2BlockWrite.

(** ** Frame headers *)

Lemma uint32_roundtrip s rest :
  0 <= s < 2 ^ 32 -> ngx_http_v2_parse_uint32 (ngx_http_v2_write_uint32 s ++ rest) = s.
Proof.
  intros Hs. unfold ngx_http_v2_parse_uint32, ngx_http_v2_write_uint32. cbn [app nth].
  unfold u8, u32. rewrite !Z.shiftr_div_pow2 by done.
  assert (forall a b, 0 <= b < 2 ^ 8 -> Z.lor (Z.shiftl a 8) b = a * 2 ^ 8 + b) as H8
    by (intros; by apply lor_shiftl_add).
  pose proof (Z.mod_pos_bound (s / 2 ^ 24) (2 ^ 8) ltac:(done)).
  pose proof (Z.mod_pos_bound (s / 2 ^ 16) (2 ^ 8) ltac:(done)).
  pose proof (Z.mod_pos_bound (s / 2 ^ 8) (2 ^ 8) ltac:(done)).
  pose proof (Z.mod_pos_bound s (2 ^ 8) ltac:(done)).
  rewrite H8 by done. rewrite (lor_add_low (Z.shiftl _ 24) (Z.shiftl _ 16) 24);
    [|done|rewrite Z.shiftl_mul_pow2 by done; by eexists|rewrite Z.shiftl_mul_pow2 by done; lia].
  rewrite (lor_add_low _ _ 16); [|done| |lia].
  2: { rewrite !Z.shiftl_mul_pow2 by done. exists ((s / 2 ^ 24) `mod` 2 ^ 8 * 2 ^ 8 + (s / 2 ^ 16) `mod` 2 ^ 8). lia. }
  rewrite !Z.shiftl_mul_pow2 by done.
  pose proof (Z.div_mod s (2 ^ 8) ltac:(done)). pose proof (Z.div_mod (s / 2 ^ 8) (2 ^ 8) ltac:(done)).
  pose proof (Z.div_mod (s / 2 ^ 8 / 2 ^ 8) (2 ^ 8) ltac:(done)).
  assert (s / 2 ^ 8 / 2 ^ 8 = s / 2 ^ 16) as E16 by (rewrite Z.div_div by done; done).
  assert (s / 2 ^ 8 / 2 ^ 8 / 2 ^ 8 = s / 2 ^ 24) as E24 by (rewrite !Z.div_div by done; done).
  rewrite E24, E16 in *.
  assert ((s / 2 ^ 24) `mod` 2 ^ 8 = s / 2 ^ 24) as ->.
  { apply Z.mod_small. split; [apply Z.div_pos; lia|]. apply Z.div_lt_upper_bound; [done|].
    change (2 ^ 24 * 2 ^ 8) with (2 ^ 32). lia. }
  replace (_ + _) with s by lia. apply Z.mod_small. lia.
Qed.

Lemma uint32_length s : length (ngx_http_v2_write_uint32 s) = 4%nat.
Proof. done. Qed.

(** What the continuation reads of a frame header. *)
Lemma frame_head_reads size type flags sid rest :
  0 <= size < 2 ^ 24 -> 0 <= type < 2 ^ 8 -> 0 <= sid < 2 ^ 31 ->
  let p := frame_head size type flags sid ++ rest in
  let head := ngx_http_v2_parse_uint32 p in
  Z.land head 0xff = type /\ Z.shiftr head 8 = size /\ nth 4 p 0 = flags /\
  Z.land (ngx_http_v2_parse_uint32 (drop 5 p)) 0x7fffffff = sid /\ length (frame_head size type flags sid) = 9%nat.
Proof.
  intros Hs Ht Hsid p head.
  assert (head = size * 2 ^ 8 + type) as Eh.
  { unfold head, p, frame_head, ngx_http_v2_write_len_and_type. rewrite <- !app_assoc.
    rewrite uint32_roundtrip; rewrite lor_shiftl_add by done; [done|lia]. }
  split_and!.
  - rewrite Eh. change 0xff with (2 ^ 8 - 1). rewrite land_ones_mod by done.
    rewrite Z.add_comm, Z.mod_add by done. by apply Z.mod_small.
  - rewrite Eh, Z.shiftr_div_pow2 by done. rewrite Z.add_comm, Z.div_add, Z.div_small by done. lia.
  - done.
  - change (drop 5 p) with (ngx_http_v2_write_uint32 sid ++ rest). rewrite uint32_roundtrip by lia.
    change 0x7fffffff with (2 ^ 31 - 1). rewrite land_ones_mod by done. by apply Z.mod_small.
  - done.
Qed.

(** *** A frame and its continuation are one frame *)

Section Merge.
Context (max_field_size : Z) (take_header : list header -> header -> bool).
Context (m fl id : Z) (pad y : list Z).
Context (m_range : 0 <= m < 2 ^ 24) (id_range : 0 <= id < 2 ^ 31) (y_more : y <> []).

Local Abbreviation step := (step max_field_size take_header).
Local Abbreviation drives := (drives max_field_size take_header).

(** The continuation is of [m] bytes, [y] is what follows its header, [pad] the
    padding before it. *)
Definition tail_bytes : list Z := pad ++ frame_head m NGX_HTTP_V2_CONTINUATION_FRAME fl id ++ y.

Definition merge (st : state) : state :=
  set_length (length_ st + m) (set_flags (Z.lor (flags st) fl) (set_padding 0 st)).

(** The frame holds [x], and does not end the block. *)
Definition framed (st : state) (x : list Z) : Prop :=
  length_ st = len x /\ padding st = len pad /\ sid st = id /\ end_headers st = false /\ 0 <= field_rest st.



Lemma continuation_merges h st x :
  framed st x -> handle_continuation h st (x ++ tail_bytes) = Return h (merge st) (x ++ y).
Proof using m_range id_range y_more.
  intros (Hl & Hp & Hid & He & Hr). unfold handle_continuation. rewrite Hl, Hp.
  unfold tail_bytes. set (head := frame_head m NGX_HTTP_V2_CONTINUATION_FRAME fl id).
  assert (length head = 9%nat) as Hhead by done.
  assert (skip_padding (len x) (len pad) (x ++ pad ++ head ++ y) = (len pad, x ++ head ++ y)) as ->.
  { destruct (decide (len pad <= 0)) as [Hz|Hz].
    - assert (pad = []) as -> by (destruct pad; [done|rewrite len_cons in Hz; pose proof (len_pos l); lia]).
      rewrite skip_padding_none by (left; done). done.
    - rewrite skip_padding_some by (rewrite ?len_app; pose proof (len_pos x); pose proof (len_pos head); pose proof (len_pos y); lia).
      rewrite !len_app. pose proof (len_pos head). pose proof (len_pos y). rewrite Z.min_l by lia.
      f_equal. unfold len. rewrite take_app_length' by lia. f_equal.
      rewrite (drop_app_ge x) by lia. rewrite drop_app_length' by lia. done. }
  replace (len (x ++ head ++ y) <? len x + NGX_HTTP_V2_FRAME_HEADER_SIZE) with false.
  2: { symmetry. apply Z.ltb_ge. rewrite !len_app. unfold len at 3. rewrite Hhead.
       pose proof (len_pos y). unfold NGX_HTTP_V2_FRAME_HEADER_SIZE. lia. }
  cbn zeta. unfold len. rewrite !Nat2Z.id. rewrite drop_app_length.
  destruct (frame_head_reads m NGX_HTTP_V2_CONTINUATION_FRAME fl id y m_range ltac:(done) id_range)
    as (E1 & E2 & E3 & E4 & _). cbn zeta in E1, E2, E3, E4. fold head in E1, E2, E3, E4.
  rewrite E1, E2, E3, E4, Z.eqb_refl. cbn [negb sid set_flags set_padding]. rewrite Hid, Z.eqb_refl. cbn [negb].
  rewrite take_app_length. f_equal.
  - unfold merge. rewrite Hl. unfold len. by rewrite Z.sub_diag.
  - f_equal. rewrite drop_app_ge by (unfold NGX_HTTP_V2_FRAME_HEADER_SIZE; lia).
    apply drop_app_length'. rewrite Hhead. unfold NGX_HTTP_V2_FRAME_HEADER_SIZE. lia.
Qed.

(** What a step does on the frame, against what it does on the merged frame: the
    same, or the frame is continued first.  An error of the merged frame may be
    another one. *)
Definition sim (o o' : outcome) : Prop :=
  match o' with
  | Conn_error _ => True
  | _ =>
      (exists h st x, framed st x /\
        ((o = Call h st (x ++ tail_bytes) /\ o' = Call h (merge st) (x ++ y)) \/
         (o = Return h st (x ++ tail_bytes) /\ o' = Return h (merge st) (x ++ y)))) \/
      (exists h st pos, o = Return h st pos /\ pos <> [] /\ step h st pos = o')
  end.

Lemma sim_continued h st x o' :
  framed st x -> step h (merge st) (x ++ y) = o' -> sim (handle_continuation h st (x ++ tail_bytes)) o'.
Proof using m_range id_range y_more.
  intros Hf Ho. rewrite continuation_merges by done. unfold sim.
  assert (x ++ y <> []) as Hne by (destruct x; [done|done]).
  destruct o'; try done; right; by eexists _, _, _.
Qed.

Lemma sim_call h st x : framed st x -> sim (Call h st (x ++ tail_bytes)) (Call h (merge st) (x ++ y)).
Proof using m_range id_range y_more. intros Hf. left. exists h, st, x. split; [done|]. by left. Qed.

Lemma sim_return h st x : framed st x -> sim (Return h st (x ++ tail_bytes)) (Return h (merge st) (x ++ y)).
Proof using m_range id_range y_more. intros Hf. left. exists h, st, x. split; [done|]. by right. Qed.

Lemma complete_sim st x :
  framed st x -> sim (state_header_complete st (x ++ tail_bytes)) (state_header_complete (merge st) (x ++ y)).
Proof using m_range id_range y_more.
  intros Hf. pose proof Hf as (Hl & Hp & Hid & He & Hr). unfold state_header_complete at 1. rewrite He.
  destruct (Z.eqb_spec (length_ st) 0) as [E|E]; cbn [negb].
  - by apply sim_continued.
  - unfold state_header_complete. rewrite (proj2 (Z.eqb_neq (length_ (merge st)) 0)).
    + by apply sim_return.
    + unfold merge. cbn. pose proof (len_pos x). lia.
Qed.

(** Fields of the state that a frame does not depend on. *)
Lemma process_sim st x :
  framed st x ->
  sim (state_process_header take_header st (x ++ tail_bytes))
      (state_process_header take_header (merge st) (x ++ y)).
Proof using m_range id_range y_more.
  intros Hf. unfold state_process_header. change (parse_name (merge st)) with (parse_name st).
  destruct (parse_name st).
  - by apply (sim_call field_len (set_cur _ (set_parse_name false st))).
  - cbn zeta. change (parse_value (merge st)) with (parse_value st).
    set (st1 := if parse_value st then set_cur _ (set_parse_value false st) else st).
    set (st1' := if parse_value st then set_cur _ (set_parse_value false (merge st)) else merge st).
    assert (st1' = merge st1) as -> by (unfold st1, st1'; by destruct (parse_value st)).
    assert (framed st1 x) as Hf1 by (unfold st1; by destruct (parse_value st)). clearbody st1.
    change (header_limit (merge st1)) with (header_limit st1). change (cur (merge st1)) with (cur st1).
    destruct (header_limit st1 <? _); [done|]. cbn [index set_header_limit merge set_length set_flags set_padding hpack_ cur].
    assert (forall s, framed s x -> sim (state_header_complete (process_stream take_header s) (x ++ tail_bytes))
      (state_header_complete (process_stream take_header (merge s)) (x ++ y))) as Hst.
    { intros s Hs. assert (process_stream take_header (merge s) = merge (process_stream take_header s)) as ->.
      { unfold process_stream. cbn [stream taken cur merge set_length set_flags set_padding].
        destruct (negb (stream s)); [done|]. by destruct (take_header _ _). }
      apply complete_sim. unfold process_stream. destruct (negb (stream s)); [done|]. by destruct (take_header _ _). }
    destruct (index st1).
    + destruct (ngx_http_v2_add_header _ _) as [hp|]; [|done].
      apply (Hst (set_index false (set_hpack hp (set_header_limit _ st1)))). done.
    + apply (Hst (set_header_limit _ st1)). done.
Qed.

Lemma absorb_merge h st p : absorb h (merge st) p = merge <$> absorb h st p.
Proof using m_range id_range y_more.
  destruct h; try done. cbn [absorb]. change (field_state (merge st)) with (field_state st).
  change (field_rest (merge st)) with (field_rest st).
  by destruct (ngx_http_v2_huff_decode _ _ _) as [[fs out]|].
Qed.

Lemma consume_merge st n : consume (merge st) n = merge (consume st n).
Proof using m_range id_range y_more.
  unfold consume, merge. cbn.
  replace (length_ st + m - Z.of_nat n) with (length_ st - Z.of_nat n + m) by lia. done.
Qed.

Lemma absorb_pieces h st a c k :
  field_rest st <> 0 -> c <> [] \/ (c = [] /\ k = O) ->
  absorb h (consume st k) (a ++ c) = (st ← absorb h st a; absorb h (consume st k) c).
Proof using m_range id_range y_more.
  intros Hr [Hc|[-> ->]]; [by apply absorb_app|]. rewrite consume_0, app_nil_r.
  destruct (absorb h st a) as [st1|] eqn:E; [|done]. cbn. rewrite consume_0, absorb_nil; [done|].
  apply absorb_frame in E as (_ & -> & _). done.
Qed.

Lemma framed_absorb h st x p st1 : framed st x -> absorb h st p = Some st1 -> framed st1 x.
Proof using m_range id_range y_more.
  intros (H1 & H2 & H3 & H4 & H5) Ha. pose proof (absorb_frame _ _ _ _ Ha) as (F1 & F2 & F3 & F4).
  assert (sid st1 = sid st) as Es.
  { destruct h; simpl in Ha; simplify_eq; try done.
    destruct (ngx_http_v2_huff_decode _ _ _) as [[fs out]|]; simpl in Ha; by simplify_eq. }
  unfold framed, end_headers in *. by rewrite F1, F2, F3, F4, Es.
Qed.

(** A string that the frame holds. *)
Lemma field_inside h st x :
  is_field h = true -> framed st x -> field_rest st <= len x ->
  sim (step h st (x ++ tail_bytes)) (step h (merge st) (x ++ y)).
Proof using m_range id_range y_more.
  intros Hh Hf Hle. pose proof Hf as (Hl & Hp & Hid & He & Hr). set (n := Z.to_nat (field_rest st)).
  assert (forall t, len x <= len t -> available st t = n /\ available (merge st) t = n) as Hav.
  { intros t Ht. unfold available, n. change (field_rest (merge st)) with (field_rest st).
    change (length_ (merge st)) with (length_ st + m). lia. }
  destruct (Hav (x ++ tail_bytes)) as [Ha _]; [rewrite len_app; pose proof (len_pos tail_bytes); lia|].
  destruct (Hav (x ++ y)) as [_ Hb]; [rewrite len_app; pose proof (len_pos y); lia|].
  assert (n <= length x)%nat as Hn by (unfold n, len in *; lia).
  rewrite !step_field, Ha, Hb by done. rewrite !take_app_le, !drop_app_le by done.
  rewrite consume_merge, absorb_merge.
  destruct (absorb h (consume st n) (take n x)) as [st1|] eqn:E; [|done]. cbn [fmap option_fmap option_map].
  pose proof (absorb_frame _ _ _ _ E) as (F1 & F2 & F3 & F4).
  assert (framed (consume st n) (drop n x)) as Hf1.
  { unfold framed, consume. cbn. split_and!; [rewrite len_drop, Hl; unfold len in *; lia|done|done|done|unfold n; lia]. }
  apply (framed_absorb _ _ _ _ _ Hf1) in E as Hf2. unfold field_next.
  change (field_rest (merge st1)) with (field_rest st1). rewrite F2.
  rewrite (proj2 (Z.eqb_eq (field_rest (consume st n)) 0)) by (cbn; unfold n; lia).
  by apply process_sim.
Qed.

(** One that goes on in the next frame. *)
Lemma field_across h st x :
  is_field h = true -> framed st x -> len x < field_rest st ->
  sim (step h st (x ++ tail_bytes)) (step h (merge st) (x ++ y)).
Proof using m_range id_range y_more.
  intros Hh Hf Hlt. pose proof Hf as (Hl & Hp & Hid & He & Hr).
  assert (0 < len y) as Hy by (destruct y; [done|rewrite len_cons; pose proof (len_pos l); lia]).
  rewrite step_field by done.
  assert (available st (x ++ tail_bytes) = length x) as ->.
  { unfold available. rewrite len_app. pose proof (len_pos tail_bytes). unfold len in *. lia. }
  rewrite take_app_length, drop_app_length.
  set (r := Z.to_nat (Z.min (Z.min (len y) (field_rest st - len x)) m)).
  assert (available (merge st) (x ++ y) = (length x + r)%nat) as Hav.
  { unfold available, r. rewrite len_app. change (field_rest (merge st)) with (field_rest st).
    change (length_ (merge st)) with (length_ st + m). unfold len in *. lia. }
  assert (field_rest (consume (merge st) (length x)) <> 0) as Hne by (cbn; unfold len in *; lia).
  assert (step h (merge st) (x ++ y) =
    match absorb h (consume st (length x)) x with
    | Some st1 => step h (merge st1) y
    | None => Conn_error NGX_HTTP_V2_COMP_ERROR
    end) as Hm.
  { rewrite step_field by done. rewrite Hav.
    rewrite take_app_ge, drop_app_ge by lia. replace (length x + r - length x)%nat with r by lia.
    rewrite <- consume_add, absorb_pieces; [|done|].
    2: { destruct y; [done|]. destruct r; [by right|by left]. }
    rewrite consume_merge, absorb_merge.
    destruct (absorb h (consume st (length x)) x) as [st1|] eqn:E; [|done]. cbn [fmap option_fmap option_map mbind option_bind].
    rewrite step_field by done. pose proof (absorb_frame _ _ _ _ E) as (F1 & F2 & _).
    assert (available (merge st1) y = r) as ->; [|done].
    unfold available. change (field_rest (merge st1)) with (field_rest st1).
    change (length_ (merge st1)) with (length_ st1 + m). rewrite F1, F2. unfold r. cbn. do 2 f_equal. rewrite Hl. unfold len. lia. }
  rewrite Hm. destruct (absorb h (consume st (length x)) x) as [st1|] eqn:E; [|done].
  pose proof (absorb_frame _ _ _ _ E) as (F1 & F2 & F3 & F4).
  assert (framed st1 []) as Hf1.
  { apply (framed_absorb _ (consume st (length x)) [] _ _) in E; [done|].
    unfold framed, consume. cbn. split_and!; [rewrite Hl, len_nil; unfold len; lia|done|done|done|unfold len in *; lia]. }
  unfold field_next. rewrite (proj2 (Z.eqb_neq (field_rest st1) 0)) by (rewrite F2; done).
  pose proof Hf1 as (E1 & _ & _ & E4 & _). rewrite E1, E4. cbn [negb Z.eqb len length Z.of_nat].
  change tail_bytes with ([] ++ tail_bytes). by apply sim_continued.
Qed.

Lemma field_sim h st x :
  is_field h = true -> framed st x -> sim (step h st (x ++ tail_bytes)) (step h (merge st) (x ++ y)).
Proof using m_range id_range y_more.
  intros Hh Hf. destruct (decide (field_rest st <= len x)); [by apply field_inside|apply field_across; done || lia].
Qed.

Lemma parse_int_length n n' p prefix v used :
  4 <= n -> ngx_http_v2_parse_int n' p prefix = Value v used -> ngx_http_v2_parse_int n p prefix = Value v used.
Proof using m_range id_range y_more.
  intros Hn H. unfold ngx_http_v2_parse_int in *. destruct p as [|c p]; [done|]. cbv zeta in *.
  destruct (negb (Z.land c prefix =? prefix)).
  { destruct (n' =? 0); [done|]. by rewrite (proj2 (Z.eqb_neq n 0)) by lia. }
  change (take (Z.to_nat NGX_HTTP_V2_INT_OCTETS) (c :: p)) with (c :: take 3 p) in *. cbn [tail] in *.
  destruct (int_octets _ _ _ _) as [[v' k]|] eqn:E; [|by repeat case_match].
  apply int_octets_used in E. rewrite length_take in E.
  destruct (n' <? Z.of_nat k); [done|]. by rewrite (proj2 (Z.ltb_ge _ _)) by lia.
Qed.

(** An integer is in the frame if four octets are. *)
Lemma parse_sim n x prefix :
  4 <= n -> 4 <= len x ->
  match ngx_http_v2_parse_int (n + m) (x ++ y) prefix with
  | Value v used =>
      ngx_http_v2_parse_int n (x ++ tail_bytes) prefix = Value v used /\
      ngx_http_v2_parse_int (n + m) x prefix = Value v used
  | Pi_again => False
  | _ => True
  end.
Proof using m_range id_range y_more.
  intros Hn Hx. assert (x <> []) as Hne by (intros ->; rewrite len_nil in Hx; lia).
  pose proof (parse_int_app (n + m) x y prefix Hne) as H1.
  destruct (ngx_http_v2_parse_int (n + m) x prefix) as [v used| | |] eqn:E; [|by rewrite H1..|lia].
  rewrite H1. split; [|done]. apply (parse_int_length n) in E; [|done].
  pose proof (parse_int_app n x tail_bytes prefix Hne) as H2. by rewrite E in H2.
Qed.

Lemma framed_used st x used :
  framed st x -> (used <= length x)%nat ->
  framed (set_length (length_ st - Z.of_nat used) st) (drop used x) /\
  set_length (length_ (merge st) - Z.of_nat used) (merge st) = merge (set_length (length_ st - Z.of_nat used) st).
Proof using m_range id_range y_more.
  intros (Hl & Hp & Hid & He & Hr) Hu. split.
  - unfold framed. cbn. split_and!; try done. rewrite len_drop, Hl. unfold len. lia.
  - unfold merge. cbn. replace (length_ st + m - Z.of_nat used) with (length_ st - Z.of_nat used + m) by lia. done.
Qed.

Lemma value_sim i u v st x :
  framed st x ->
  sim (header_value take_header i u v st (x ++ tail_bytes)) (header_value take_header i u v (merge st) (x ++ y)).
Proof using m_range id_range y_more.
  intros Hf. unfold header_value. change (hpack_ (merge st)) with (hpack_ st). change (cur (merge st)) with (cur st).
  destruct i.
  { destruct (ngx_http_v2_get_indexed_header _ _ _ _) as [e|]; [|done]. by apply (process_sim (set_cur e st)). }
  destruct u.
  { destruct (ngx_http_v2_table_size _ _) as [[hp|]|]; [|done..]. by apply (complete_sim (set_hpack hp st)). }
  destruct (v =? 0); [by apply (sim_call _ (set_parse_value true (set_parse_name true st)))|].
  destruct (ngx_http_v2_get_indexed_header _ _ _ _) as [e|]; [|done].
  by apply (sim_call _ (set_parse_value true (set_cur e st))).
Qed.

Lemma block_sim st x :
  framed st x -> sim (step header_block st (x ++ tail_bytes)) (step header_block (merge st) (x ++ y)).
Proof using m_range id_range y_more.
  intros Hf. pose proof Hf as (Hl & Hp & Hid & He & Hr).
  destruct (Z.ltb_spec (length_ st) NGX_HTTP_V2_INT_OCTETS) as [Hlt|Hge].
  - assert (step header_block st (x ++ tail_bytes) = handle_continuation header_block st (x ++ tail_bytes)) as ->;
      [|by apply sim_continued].
    cbn [Http2Block.step]. unfold state_header_block.
    destruct (x ++ tail_bytes) eqn:E; [by apply app_eq_nil in E as [_ E]; apply app_eq_nil in E as [_ E]|].
    by rewrite He, (proj2 (Z.ltb_lt _ _) Hlt).
  - unfold NGX_HTTP_V2_INT_OCTETS in Hge.
    destruct x as [|c x]; [rewrite len_nil in Hl; lia|]. set (a := c :: x) in *.
    cbn [Http2Block.step]. unfold state_header_block.
    assert (forall t, a ++ t = c :: (x ++ t)) as Ha by done. rewrite !Ha. cbn iota. rewrite <- !Ha.
    change (length_ (merge st)) with (length_ st + m).
    rewrite !(proj2 (Z.ltb_ge _ NGX_HTTP_V2_INT_OCTETS)), !andb_false_r by (unfold NGX_HTTP_V2_INT_OCTETS; lia).
    destruct (representation c) as [[[prefix i] u] inc] eqn:Er.
    set (st1 := if inc then set_index true st else st).
    set (st1' := if inc then set_index true (merge st) else merge st).
    assert (st1' = merge st1 /\ framed st1 a /\ length_ st1 = length_ st) as (-> & Hf1 & E1)
      by (unfold st1, st1'; by destruct inc).
    clearbody st1. change (length_ (merge st1)) with (length_ st1 + m). rewrite E1.
    pose proof (parse_sim (length_ st) a prefix Hge ltac:(lia)) as Hps.
    destruct (ngx_http_v2_parse_int (length_ st + m) (a ++ y) prefix) as [v used| | |]; [|done..].
    destruct Hps as [-> Hpx].
    apply parse_int_used in Hpx as (_ & [_ Hu] & _); [|by eapply representation_prefix|lia].
    destruct (framed_used _ _ used Hf1 Hu) as [Hf2 Em]. change (length_ (merge st1)) with (length_ st1 + m) in Em.
    rewrite E1 in *. rewrite Em, !drop_app_le by done. by apply value_sim.
Qed.

Lemma len_sim st x :
  framed st x -> sim (step field_len st (x ++ tail_bytes)) (step field_len (merge st) (x ++ y)).
Proof using m_range id_range y_more.
  intros Hf. pose proof Hf as (Hl & Hp & Hid & He & Hr).
  destruct (Z.ltb_spec (length_ st) NGX_HTTP_V2_INT_OCTETS) as [Hlt|Hge].
  - assert (step field_len st (x ++ tail_bytes) = handle_continuation field_len st (x ++ tail_bytes)) as ->;
      [|by apply sim_continued].
    cbn [Http2Block.step]. unfold state_field_len. by rewrite He, (proj2 (Z.ltb_lt _ _) Hlt).
  - unfold NGX_HTTP_V2_INT_OCTETS in Hge.
    destruct x as [|c x]; [rewrite len_nil in Hl; lia|]. set (a := c :: x) in *.
    cbn [Http2Block.step]. unfold state_field_len. change (length_ (merge st)) with (length_ st + m).
    rewrite !(proj2 (Z.ltb_ge _ NGX_HTTP_V2_INT_OCTETS)), !andb_false_r by (unfold NGX_HTTP_V2_INT_OCTETS; lia).
    rewrite !(proj2 (Z.ltb_ge _ 1)) by lia.
    assert (forall t, a ++ t = c :: (x ++ t)) as Ha by done. rewrite !Ha. cbn iota. rewrite <- !Ha.
    pose proof (parse_sim (length_ st) a (ngx_http_v2_prefix 7) Hge ltac:(lia)) as Hps.
    destruct (ngx_http_v2_parse_int (length_ st + m) (a ++ y) _) as [v used| | |]; [|done..].
    destruct Hps as [-> Hpx]. apply parse_int_used in Hpx as (Hv & [_ Hu] & _); [|done|lia].
    destruct (max_field_size <? v); [done|].
    destruct (framed_used _ _ used Hf Hu) as [Hf2 Em]. change (length_ (merge st)) with (length_ st + m) in Em.
    rewrite Em, !drop_app_le by done. cbv zeta.
    set (st2 := set_length (length_ st - Z.of_nat used) st) in *.
    change (stream (set_field_rest v (merge st2))) with (stream (set_field_rest v st2)).
    change (index (set_field_rest v (merge st2))) with (index (set_field_rest v st2)).
    assert (forall s, framed s (drop used a) -> framed (set_field_rest v s) (drop used a)) as Hrest
      by (intros s (F1 & F2 & F3 & F4 & F5); by split_and!).
    destruct (negb _ && negb _).
    + apply (sim_call field_skip (set_field_rest v st2)). by apply Hrest.
    + apply (sim_call (if negb (Z.shiftr c 7 =? 0) then field_huff else field_raw)
        (set_field [] (set_field_size _ (set_field_rest v st2)))). by apply Hrest.
Qed.

Lemma step_sim h st x :
  framed st x -> sim (step h st (x ++ tail_bytes)) (step h (merge st) (x ++ y)).
Proof using m_range id_range y_more.
  intros Hf. destruct h; try by apply field_sim.
  - by apply block_sim.
  - by apply len_sim.
  - by apply complete_sim.
Qed.

(** The loop ends on the frame and its continuation as on the merged frame. *)
Lemma drives_sim h st x p :
  framed st x -> drives h (merge st) (x ++ y) p -> (forall code, p <> Closed code) ->
  drives h st (x ++ tail_bytes) p.
Proof using m_range id_range y_more.
  intros Hf H Hp. remember (merge st) as stm eqn:Es. remember (x ++ y) as pos eqn:Epos.
  revert st x Hf Es Epos.
  assert (forall h st x o', framed st x -> step h (merge st) (x ++ y) = o' -> (forall c, o' <> Conn_error c) ->
    (exists h1 st1 x1, framed st1 x1 /\
      ((step h st (x ++ tail_bytes) = Call h1 st1 (x1 ++ tail_bytes) /\ o' = Call h1 (merge st1) (x1 ++ y)) \/
       (step h st (x ++ tail_bytes) = Return h1 st1 (x1 ++ tail_bytes) /\ o' = Return h1 (merge st1) (x1 ++ y)))) \/
    (exists h1 st1 pos1, step h st (x ++ tail_bytes) = Return h1 st1 pos1 /\ pos1 <> [] /\ step h1 st1 pos1 = o')) as Hsim.
  { intros h0 st x o' Hf Ho Hne. pose proof (step_sim h0 st x Hf) as Hs. rewrite Ho in Hs. unfold sim in Hs.
    destruct o'; try done. by destruct (Hne code). }
  assert (forall x, x ++ tail_bytes <> []) as Hne.
  { intros x E. apply app_eq_nil in E as [_ E]. by apply app_eq_nil in E as [_ E]. }
  induction H as [h stm pos h' st' pos' p E H IH|h stm pos h' st' E|h stm pos h' st' pos' p E Hne' H IH
    |h stm pos h' st' pos' E|h stm pos code E|h stm pos st' pos' E]; intros st x Hf -> ->;
    try (exfalso; by eapply Hp);
    (destruct (Hsim h st x _ Hf E) as [(h1 & st1 & x1 & Hf1 & [[E1 Ho]|[E1 Ho]])|(h1 & st1 & pos1 & E1 & Hn1 & Ho)];
     [by intros ? ?|simplify_eq..|]).
  - eapply drives_call; [exact E1|]. by apply IH.
  - eapply drives_loop; [exact E1|done|]. by eapply drives_call.
  - exfalso. destruct x1; [|done]. by simplify_list_eq.
  - eapply drives_loop; [exact E1|done|]. by eapply drives_return.
  - eapply drives_loop; [exact E1|done|]. by apply IH.
  - eapply drives_loop; [exact E1|done|]. by eapply drives_loop.
  - eapply drives_loop; [exact E1|done|]. by eapply drives_save.
  - eapply drives_loop; [exact E1|done|]. by eapply drives_complete.
Qed.
End Merge.

(** ** Blocks of several frames *)

Section Frames.
Context (max_field_size : Z) (take_header : list header -> header -> bool).
Local Abbreviation drives := (drives max_field_size take_header).
Local Abbreviation receives := (receives max_field_size take_header).


(** The bytes of the frames that continue a block. *)
Definition continuations (id : Z) (frames : list (Z * list Z)) : list Z :=
  concat ((fun '(flags, p) => frame_head (len p) NGX_HTTP_V2_CONTINUATION_FRAME flags id ++ p) <$> frames).

Definition payloads (frames : list (Z * list Z)) : list Z := concat (snd <$> frames).

Definition ends_headers (flags : Z) : bool := negb (Z.land flags NGX_HTTP_V2_END_HEADERS_FLAG =? 0).

(** Only the last frame has the flag, and no frame is empty. *)
Fixpoint last_ends (flags : Z) (frames : list (Z * list Z)) : Prop :=
  match frames with
  | [] => ends_headers flags = true
  | (flags', p) :: frames =>
      ends_headers flags = false /\ p <> [] /\ len p < 2 ^ 24 /\ last_ends flags' frames
  end.

Fixpoint merge_all (frames : list (Z * list Z)) (st : state) : state :=
  match frames with [] => st | (flags, p) :: frames => merge_all frames (merge (len p) flags st) end.

Lemma ends_headers_lor a b : ends_headers (Z.lor a b) = ends_headers a || ends_headers b.
Proof using Type.
  unfold ends_headers, NGX_HTTP_V2_END_HEADERS_FLAG. change 4 with (Z.shiftl 1 2).
  by rewrite !land_bit, Z.lor_spec.
Qed.

Lemma frames_drive frames : forall h st x fl rest p,
  length_ st = len x -> padding st = 0 -> 0 <= sid st < 2 ^ 31 -> 0 <= field_rest st ->
  ends_headers (flags st) = ends_headers fl -> last_ends fl frames ->
  drives h (merge_all frames st) (x ++ payloads frames ++ rest) p -> (forall code, p <> Closed code) ->
  drives h st (x ++ continuations (sid st) frames ++ rest) p.
Proof using Type.
  induction frames as [|[fl' q] frames IH]; intros h st x fl rest p Hl Hp Hid Hr He Hlast H Hnc; [done|].
  destruct Hlast as (Hf & Hq & Hm & Hlast). cbn [merge_all] in H.
  unfold payloads in H. cbn [fmap list_fmap concat snd] in H. fold (payloads frames) in H.
  rewrite <- app_assoc, (app_assoc x) in H.
  set (st1 := merge (len q) fl' st) in *.
  apply (IH h st1 (x ++ q) fl' rest p) in H; try done.
  - unfold continuations. cbn [fmap list_fmap concat]. fold (continuations (sid st) frames).
    assert (0 <= len q < 2 ^ 24) as Hq2 by (pose proof (len_pos q); lia).
    rewrite <- app_assoc in H. change (sid st1) with (sid st) in H.
    apply (drives_sim max_field_size take_header (len q) fl' (sid st) [] (q ++ continuations (sid st) frames ++ rest)
      Hq2 Hid) in H.
    + unfold tail_bytes in H. cbn [app] in H. by rewrite <- !app_assoc.
    + by destruct q.
    + split_and!; try done. unfold end_headers. fold (ends_headers (flags st)). by rewrite He.
    + done.
  - unfold st1, merge. cbn. rewrite Hl, len_app. done.
  - unfold st1, merge. cbn [flags set_length set_flags]. rewrite ends_headers_lor, He, Hf. done.
Qed.

(** What [ngx_http_v2_create_headers_frame] makes of a block. *)
Lemma headers_frames_spec fuel : forall fl size pos,
  (length pos < fuel)%nat -> 0 < size < 2 ^ 24 -> ends_headers fl = false ->
  exists fl' p frames,
    headers_frames fuel fl size pos = Some ((fl', p) :: frames) /\
    p ++ payloads frames = pos /\ (pos <> [] -> p <> []) /\ len p <= size /\ last_ends fl' frames.
Proof using Type.
  induction fuel as [|fuel IH]; intros fl size pos Hfuel Hsize Hfl; [lia|]. cbn [headers_frames].
  destruct (Z.leb_spec (len pos) size) as [Hle|Hgt].
  - rewrite drop_all. eexists _, _, []. split; [done|]. split_and!; [by rewrite app_nil_r|done|done|].
    cbn. by rewrite ends_headers_lor, orb_true_r.
  - set (p := take (Z.to_nat size) pos).
    assert (length p = Z.to_nat size) as Hp by (unfold p; rewrite length_take; unfold len in *; lia).
    rewrite Hp. destruct (drop (Z.to_nat size) pos) as [|c rest] eqn:E.
    { apply (f_equal length) in E. rewrite length_drop in E. simpl in E. unfold len in *. lia. }
    rewrite <- E in *. destruct (IH NGX_HTTP_V2_NO_FLAG size (drop (Z.to_nat size) pos)) as (fl' & q & frames & -> & Hcat & Hne & Hq & Hlast);
      [rewrite length_drop; unfold len in *; lia|done|done|].
    cbn [mbind option_bind]. eexists _, _, _. split; [reflexivity|]. split_and!.
    + unfold payloads. cbn [fmap list_fmap concat snd]. fold (payloads frames). rewrite Hcat. apply take_drop.
    + intros _ E0. rewrite E0 in Hp. simpl in Hp. lia.
    + unfold len. lia.
    + cbn. split; [done|]. split; [apply Hne; by rewrite E|]. split; [lia|done].
Qed.

Lemma merge_all_facts frames : forall st fl,
  ends_headers (flags st) = ends_headers fl -> last_ends fl frames -> padding st = 0 ->
  end_headers (merge_all frames st) = true /\
  merge_all frames st = set_length (length_ st + len (payloads frames)) (set_flags (flags (merge_all frames st)) st).
Proof using Type.
  induction frames as [|[fl' q] frames IH]; intros st fl Hfl Hlast Hpad.
  - split; [unfold end_headers; cbn; fold (ends_headers (flags st)); by rewrite Hfl|].
    unfold payloads. cbn. rewrite len_nil, Z.add_0_r. by destruct st.
  - destruct Hlast as (Hf & _ & _ & Hlast). cbn [merge_all].
    destruct (IH (merge (len q) fl' st) fl') as [H1 H2]; [|done|done|].
    { unfold merge. cbn [flags set_length set_flags]. by rewrite ends_headers_lor, Hfl, Hf. }
    split; [done|]. rewrite H2 at 1. unfold payloads. cbn [fmap list_fmap concat snd]. rewrite len_app.
    unfold merge. cbn. rewrite Z.add_assoc. by rewrite <- Hpad.
Qed.

(** Everything that can be read can be written. *)
Lemma string_encode_total src lower :
  string_fits max_field_size src -> exists enc, ngx_http_v2_string_encode src lower = Some enc.
Proof using Type.
  intros (Hb & Hlen & _). unfold ngx_http_v2_string_encode. cbv zeta.
  pose proof (huff_encode_reads src lower Hb) as [Hreads _]. cbv zeta in Hreads.
  set (tmp := ngx_http_v2_huff_encode src lower) in *. pose proof (len_pos src) as Hs.
  assert (2 ^ 21 < 2 ^ 64) by done.
  destruct (Z.ltb_spec 0 (len tmp)) as [Hpos|Hpos].
  - destruct Hreads as (_ & Hlt & _); [intros E; by rewrite E in Hpos|]. unfold len in *.
    destruct (write_int_total NGX_HTTP_V2_ENCODE_HUFF 7 (Z.of_nat (length tmp))) as [bs ->]; [lia|lia|]. cbn. eauto.
  - destruct (write_int_total NGX_HTTP_V2_ENCODE_RAW 7 (len src)) as [bs ->]; [lia|lia|]. cbn. eauto.
Qed.

Lemma small_int_total first k v :
  0 < k <= 7 -> small_int k v -> exists bs, ngx_http_v2_write_int first (ngx_http_v2_prefix k) v = Some bs.
Proof using Type.
  intros Hk [Hv0 Hv]. apply write_int_total; [lia|]. split; [done|].
  assert (ngx_http_v2_prefix k < 2 ^ 7).
  { rewrite prefix_ones, Z.ones_equiv. pose proof (Z.pow_le_mono_r 2 k 7). lia. }
  assert (2 ^ 7 + 2 ^ 21 < 2 ^ 64) by done. lia.
Qed.

Lemma encode_block_total reps :
  Forall (rep_ok max_field_size) reps -> exists enc, encode_block reps = Some enc.
Proof using Type.
  induction 1 as [|r reps Hr Hreps [enc IH]]; cbn; [eauto|].
  assert (exists a, encode_rep r = Some a) as [a ->]; [|cbn; rewrite IH; cbn; eauto].
  destruct r as [i|k nm v|sz]; cbn in Hr |- *.
  - by apply small_int_total.
  - destruct Hr as [Hv Hnm]. destruct (string_encode_total v false Hv) as [ve ->].
    assert (exists f, ngx_http_v2_write_int (kind_first k) (ngx_http_v2_prefix (kind_bits k))
      (match nm with Ref i => i | New _ => 0 end) = Some f) as [f ->].
    { apply small_int_total; [by destruct k|]. destruct nm; [by destruct Hnm|]. by destruct k. }
    destruct nm as [i|key]; cbn; [eauto|]. destruct (string_encode_total key true Hnm) as [ke ->]. cbn. eauto.
  - by apply small_int_total.
Qed.

(** C5. A block that the server's own functions encode and cut into frames is read
    back, however the bytes arrive, with the headers and the table that RFC 7541
    gives it; provided that the maximal size of the table is 4096 when the first
    header on the connection is inserted, because the code forgets size updates
    before that. *)
Theorem headers_frame_roundtrip header_only size id reps used t t' hs :
  reps <> [] -> Forall (rep_ok max_field_size) reps ->
  rfc_block t reps = Some (t', hs) -> settled_block used (rfc_max t) reps = true ->
  0 < size < 2 ^ 24 -> 0 <= id < 2 ^ 31 ->
  exists enc fl p frames,
    encode_block reps = Some enc /\
    headers_frames (S (length enc)) (first_flags header_only) size enc = Some ((fl, p) :: frames) /\
    ngx_http_v2_create_headers_frame header_only size id enc =
      Some (frame_head (len p) NGX_HTTP_V2_HEADERS_FRAME fl id ++ p ++ continuations id frames) /\
    forall st k data chunks rest,
      sid st = id -> length_ st = len p -> flags st = fl -> padding st = 0 -> 0 <= field_rest st ->
      ready (code_table used t) k (set_flags NGX_HTTP_V2_END_HEADERS_FLAG st) ->
      0 <= k -> k + Z.of_nat (length reps) < 2 ^ 64 - 1 ->
      headers_size hs <= header_limit st -> all_taken take_header (taken st) hs ->
      concat (data :: chunks) = p ++ continuations id frames ++ rest -> Forall (fun c => c <> []) chunks ->
      exists st',
        receives (Waiting header_block st []) (data :: chunks) = Some (Finished st' rest) /\
        ready (code_table (used || existsb inserts reps) t') (k + Z.of_nat (length reps)) st' /\ taken st' = taken st ++ hs.
Proof using Type.
  intros Hne Hok Hrfc Hset Hsize Hid. pose proof (block_rfc reps used t t' hs Hrfc Hset) as Hs.
  destruct (encode_block_total reps Hok) as [enc Henc].
  destruct (headers_frames_spec (S (length enc)) (first_flags header_only)
    size enc) as (fl & p & frames & Hfr & Hcat & _ & Hp & Hlast); [lia|done|by destruct header_only|].
  exists enc, fl, p, frames. split; [done|]. split; [done|]. split.
  { unfold ngx_http_v2_create_headers_frame. by rewrite Hfr. }
  intros st k data chunks rest Esid El Efl Epad Hr0 Hready Hk Hk2 Hlim Htake Hdata Hch.
  destruct (merge_all_facts frames st fl) as [Hend Hm]; [by rewrite Efl|done|done|].
  destruct (block_drives max_field_size take_header reps enc (merge_all frames st) (code_table used t) k (code_table (used || existsb inserts reps) t') hs rest)
    as (st' & Hd & Hr' & Ht'); try done.
  { destruct Hready as [_ R2 R3 R4 R5 R6 R7]. split; [done|..]; rewrite Hm; done. }
  { rewrite Hm. cbn. by rewrite El, <- Hcat, len_app. }
  { by rewrite Hm. }
  { by rewrite Hm. }
  exists st'. split; [|split; [done|by rewrite Ht', Hm]].
  assert (counts_ok st) as Hc.
  { unfold counts_ok. rewrite El, Epad. split_and!; [apply len_pos|done|done]. }
  destruct (header_block_cuts_ok max_field_size take_header (Waiting header_block st []) data chunks Hc Hch) as [-> _].
  rewrite Hdata. apply receive_drives; [done|]. cbn [app]. rewrite <- Esid.
  apply (frames_drive frames header_block st p fl); try done; [by rewrite Esid|by rewrite Efl|].
  rewrite app_assoc, Hcat. exact Hd.
Qed.
End Frames.

(** A block that an empty CONTINUATION frame ends. *)
Definition empty_continuation : list Z :=
  [0x01; 3] ++ bytes "abc" ++ frame_head 0 NGX_HTTP_V2_CONTINUATION_FRAME NGX_HTTP_V2_END_HEADERS_FLAG 1.

(** When an empty CONTINUATION frame ends a block, the loop stops where the
    bytes end: the request does not start before more bytes arrive. *)
Theorem empty_continuation_waits :
  let st := start 1 5 0 NGX_HTTP_V2_NO_FLAG 1000 in
  (exists st', receives 100 accept_all (Waiting header_block st []) [empty_continuation] =
    Some (Waiting header_complete st' []) /\ end_headers st' = true /\ length_ st' = 0 /\
    taken st' = [hdr ":authority" "abc"]) /\
  exists st', receives 100 accept_all (Waiting header_block st []) [empty_continuation; [0]] =
    Some (Finished st' [0]).
Proof.
  split; eexists; [split_and!|]; vm_compute; reflexivity.
Qed.



Definition sample_reps : list rep :=
  [Indexed 2; Literal Incremental (Ref 1) (bytes "www.example.com");
   Literal Without_indexing (New (bytes "Custom-Key")) (bytes "custom value"); Indexed 62; Size_update 0].

Definition sample_headers : list header :=
  [hdr ":method" "GET"; hdr ":authority" "www.example.com"; hdr "custom-key" "custom value";
   hdr ":authority" "www.example.com"].

Lemma headers_frame_roundtrip_witness :
  exists enc fl p frames,
    encode_block sample_reps = Some enc /\
    headers_frames (S (length enc)) (first_flags true) 10 enc = Some ((fl, p) :: frames) /\
    ngx_http_v2_create_headers_frame true 10 1 enc =
      Some (frame_head (len p) NGX_HTTP_V2_HEADERS_FRAME fl 1 ++ p ++ continuations 1 frames) /\
    exists st', receives 100 accept_all
      (Waiting header_block (start 1 (len p) 0 fl 1000) []) [take 3 p; drop 3 p ++ continuations 1 frames] =
      Some (Finished st' []) /\ taken st' = sample_headers.
Proof.
  destruct (headers_frame_roundtrip 100 accept_all true 10 1 sample_reps false rfc_init (Rfc [] 0) sample_headers)
    as (enc & fl & p & frames & E1 & E2 & E3 & H).
  - discriminate.
  - repeat constructor; by_decide || done.
  - vm_compute. reflexivity.
  - reflexivity.
  - lia.
  - lia.
  - exists enc, fl, p, frames. split_and!; [done..|].
    destruct (H (start 1 (len p) 0 fl 1000) 0 (take 3 p) [drop 3 p ++ continuations 1 frames] [])
      as (st' & E & _ & Ht).
    1-4: reflexivity.
    + by_decide.
    + split; [reflexivity..|]. split; [by_decide|]. exists 0. split; [reflexivity|by split].
    + by_decide.
    + by_decide.
    + by_decide.
    + repeat split.
    + cbn [concat]. rewrite !app_nil_r. by rewrite app_assoc, take_drop.
    + constructor; [|constructor]. vm_compute in E1. injection E1 as <-. vm_compute in E2. injection E2 as <- <- <-.
      vm_compute. discriminate.
    + exists st'. split; [exact E|exact Ht].
Defined.

(** A block in which the size of the table becomes 0 before the first insertion:
    an index of the inserted header is an error for the RFC, the code takes it. *)
Definition early_update : list rep :=
  [Size_update 0; Literal Incremental (Ref 1) (bytes "www.example.com"); Indexed 62].

(** The headers of a block in one frame on a new connection. *)
Definition read_block (reps : list rep) : option (list header) :=
  enc ← encode_block reps;
  match receives 100 accept_all (Waiting header_block (start 1 (len enc) 0 NGX_HTTP_V2_END_HEADERS_FLAG 1000) []) [enc] with
  | Some (Finished st []) => Some (taken st)
  | _ => None
  end.

Theorem early_update_read :
  rfc_block rfc_init early_update = None /\
  read_block early_update = Some [hdr ":authority" "www.example.com"; hdr ":authority" "www.example.com"].
Proof. split; vm_compute; reflexivity. Qed.
