(* ===== verification/HttpChunked.v ===== *)
(** * HttpChunked: [ngx_http_parse_chunked]

    The incremental decoder of the chunked transfer coding at the end of
    src/http/ngx_http_parse.c: the state machine over the chunk headers and
    the trailer, and the computation of [ctx->length], the number of bytes
    the decoder knows it still has to see. *)

From S2P Require Import Prelude Scan HttpRequest.

(** [NGX_MAX_OFF_T_VALUE] of a 64-bit [off_t]. *)
Definition NGX_MAX_OFF_T_VALUE : Z := 9223372036854775807.

(* http/ngx_http_parse.c:2123-2137 ngx_http_parse_chunked: enum state *)
Inductive ch_state : Type :=
  | sw_chunk_start
  | sw_chunk_size
  | sw_chunk_extension
  | sw_chunk_extension_almost_done
  | sw_chunk_data
  | sw_after_data
  | sw_after_data_almost_done
  | sw_last_chunk_extension
  | sw_last_chunk_extension_almost_done
  | sw_trailer
  | sw_trailer_almost_done
  | sw_trailer_header
  | sw_trailer_header_almost_done.

#[export] Instance ch_state_eq_dec : EqDecision ch_state.
Proof. solve_decision. Defined.

(* http/ngx_http.h:59-63 ngx_http_chunked_s *)
Record chunked : Type := Chunked { ch_st : ch_state; ch_size : Z; ch_length : Z }.

(** A zeroed context ([ngx_pcalloc]). *)
Definition chunked_init : chunked := Chunked sw_chunk_start 0 0.

(** How the loop is left: [goto data] with [rc = NGX_OK], [goto done],
    [goto invalid]. *)
Inductive ch_exit : Type := ChData | ChDone | ChInvalid.

Definition ch_local : Type := ch_state * Z.
Definition ch_ctl : Type := ctl ch_exit ch_local.

Section states.
Variables (p ch size : Z).

Definition ch_break (s : ch_state) : ch_ctl := Next (s, size) p.
Definition ch_break_size (s : ch_state) (size : Z) : ch_ctl := Next (s, size) p.
Definition ch_goto (l : ch_exit) (s : ch_state) : ch_ctl := Leave l (s, size) p.

Definition ch_is_digit : bool := ($ "0" <=? ch) && (ch <=? $ "9").
(** [c = (u_char) (ch | 0x20)] is one of 'a' .. 'f'. *)
Definition lower : Z := Z.lor ch 0x20.
Definition ch_is_xdigit : bool := ($ "a" <=? lower) && (lower <=? $ "f").

(* http/ngx_http_parse.c:2156-2171 ngx_http_parse_chunked: case sw_chunk_start *)
Definition on_chunk_start : ch_ctl :=
  if ch_is_digit then ch_break_size sw_chunk_size (ch - $ "0")
  else if ch_is_xdigit then ch_break_size sw_chunk_size (lower - $ "a" + 10)
  else ch_goto ChInvalid sw_chunk_start.

(* http/ngx_http_parse.c:2173-2227 ngx_http_parse_chunked: case sw_chunk_size *)
Definition on_chunk_size : ch_ctl :=
  if NGX_MAX_OFF_T_VALUE / 16 <? size then ch_goto ChInvalid sw_chunk_size
  else if ch_is_digit then ch_break_size sw_chunk_size (size * 16 + (ch - $ "0"))
  else if ch_is_xdigit then ch_break_size sw_chunk_size (size * 16 + (lower - $ "a" + 10))
  else if size =? 0 then
    if ch =? CR then ch_break sw_last_chunk_extension_almost_done
    else if ch =? LF then ch_break sw_trailer
    else if (ch =? $ ";") || (ch =? $ " ") || (ch =? 9) then
      ch_break sw_last_chunk_extension
    else ch_goto ChInvalid sw_chunk_size
  else if ch =? CR then ch_break sw_chunk_extension_almost_done
  else if ch =? LF then ch_break sw_chunk_data
  else if (ch =? $ ";") || (ch =? $ " ") || (ch =? 9) then ch_break sw_chunk_extension
  else ch_goto ChInvalid sw_chunk_size.

(* http/ngx_http_parse.c:2229-2237 ngx_http_parse_chunked: case sw_chunk_extension *)
Definition on_chunk_extension : ch_ctl :=
  if ch =? CR then ch_break sw_chunk_extension_almost_done
  else if ch =? LF then ch_break sw_chunk_data
  else ch_break sw_chunk_extension.

(* http/ngx_http_parse.c:2239-2244 ngx_http_parse_chunked: case sw_chunk_extension_almost_done *)
Definition on_chunk_extension_almost_done : ch_ctl :=
  if ch =? LF then ch_break sw_chunk_data
  else ch_goto ChInvalid sw_chunk_extension_almost_done.

(* http/ngx_http_parse.c:2250-2258 ngx_http_parse_chunked: case sw_after_data *)
Definition on_after_data : ch_ctl :=
  if ch =? CR then ch_break sw_after_data_almost_done
  else if ch =? LF then ch_break sw_chunk_start
  else ch_break sw_after_data.

(* http/ngx_http_parse.c:2260-2265 ngx_http_parse_chunked: case sw_after_data_almost_done *)
Definition on_after_data_almost_done : ch_ctl :=
  if ch =? LF then ch_break sw_chunk_start
  else ch_goto ChInvalid sw_after_data_almost_done.

(* http/ngx_http_parse.c:2267-2275 ngx_http_parse_chunked: case sw_last_chunk_extension *)
Definition on_last_chunk_extension : ch_ctl :=
  if ch =? CR then ch_break sw_last_chunk_extension_almost_done
  else if ch =? LF then ch_break sw_trailer
  else ch_break sw_last_chunk_extension.

(* http/ngx_http_parse.c:2277-2282 ngx_http_parse_chunked: case sw_last_chunk_extension_almost_done *)
Definition on_last_chunk_extension_almost_done : ch_ctl :=
  if ch =? LF then ch_break sw_trailer
  else ch_goto ChInvalid sw_last_chunk_extension_almost_done.

(* http/ngx_http_parse.c:2284-2294 ngx_http_parse_chunked: case sw_trailer *)
Definition on_trailer : ch_ctl :=
  if ch =? CR then ch_break sw_trailer_almost_done
  else if ch =? LF then ch_goto ChDone sw_trailer
  else ch_break sw_trailer_header.

(* http/ngx_http_parse.c:2296-2300 ngx_http_parse_chunked: case sw_trailer_almost_done *)
Definition on_trailer_almost_done : ch_ctl :=
  if ch =? LF then ch_goto ChDone sw_trailer_almost_done
  else ch_goto ChInvalid sw_trailer_almost_done.

(* http/ngx_http_parse.c:2302-2310 ngx_http_parse_chunked: case sw_trailer_header *)
Definition on_trailer_header : ch_ctl :=
  if ch =? CR then ch_break sw_trailer_header_almost_done
  else if ch =? LF then ch_break sw_trailer
  else ch_break sw_trailer_header.

(* http/ngx_http_parse.c:2312-2317 ngx_http_parse_chunked: case sw_trailer_header_almost_done *)
Definition on_trailer_header_almost_done : ch_ctl :=
  if ch =? LF then ch_break sw_trailer
  else ch_goto ChInvalid sw_trailer_header_almost_done.
End states.

(* http/ngx_http_parse.c:2147-2154 ngx_http_parse_chunked: switch (state) *)
Definition ch_step (mem : memory) (l : ch_local) (p : Z) : ch_ctl :=
  let '(s, size) := l in
  let ch := mem p in
  match s with
  | sw_chunk_start => on_chunk_start p ch size
  | sw_chunk_size => on_chunk_size p ch size
  | sw_chunk_extension => on_chunk_extension p ch size
  | sw_chunk_extension_almost_done => on_chunk_extension_almost_done p ch size
  | sw_chunk_data => ch_goto p size ChData sw_chunk_data
  | sw_after_data => on_after_data p ch size
  | sw_after_data_almost_done => on_after_data_almost_done p ch size
  | sw_last_chunk_extension => on_last_chunk_extension p ch size
  | sw_last_chunk_extension_almost_done => on_last_chunk_extension_almost_done p ch size
  | sw_trailer => on_trailer p ch size
  | sw_trailer_almost_done => on_trailer_almost_done p ch size
  | sw_trailer_header => on_trailer_header p ch size
  | sw_trailer_header_almost_done => on_trailer_header_almost_done p ch size
  end.

(* http/ngx_http_parse.c:2331-2365 ngx_http_parse_chunked: ctx->length *)
Definition ch_needed (s : ch_state) (size : Z) : Z :=
  match s with
  | sw_chunk_start => 3
  | sw_chunk_size => 1 + (if size =? 0 then 1 else size + 4)
  | sw_chunk_extension | sw_chunk_extension_almost_done => 1 + size + 4
  | sw_chunk_data => size + 4
  | sw_after_data | sw_after_data_almost_done => 4
  | sw_last_chunk_extension | sw_last_chunk_extension_almost_done => 2
  | sw_trailer | sw_trailer_almost_done => 1
  | sw_trailer_header | sw_trailer_header_almost_done => 2
  end.

(** The label [data]; the [goto invalid] it may take comes after [ctx->state]
    and [b->pos] were stored. *)
(* http/ngx_http_parse.c:2322-2367 ngx_http_parse_chunked: data *)
Definition ch_data (rc : Z) (s : ch_state) (size p : Z) (ctx : chunked) (b : buf)
  : Z * chunked * buf :=
  let b := Buf p (last b) in
  if NGX_MAX_OFF_T_VALUE - 5 <? size then
    (NGX_ERROR, Chunked s size (ch_length ctx), b)
  else (rc, Chunked s size (ch_needed s size), b).

(* http/ngx_http_parse.c:2320-2379 ngx_http_parse_chunked: data, done, invalid *)
Definition ch_finish (ctx : chunked) (b : buf) (o : outcome ch_exit ch_local)
  : Z * chunked * buf :=
  match o with
  | Fell (s, size) p => ch_data NGX_AGAIN s size p ctx b
  | Left ChData (s, size) p => ch_data NGX_OK s size p ctx b
  | Left ChDone (s, size) p =>
      (NGX_DONE, Chunked sw_chunk_start size (ch_length ctx), Buf (p + 1) (last b))
  | Left ChInvalid (s, size) p =>
      (NGX_ERROR, Chunked (ch_st ctx) size (ch_length ctx), b)
  end.

(* http/ngx_http_parse.c:2139-2145 ngx_http_parse_chunked: initial state *)
Definition ch_entry (ctx : chunked) : ch_state :=
  if decide (ch_st ctx = sw_chunk_data) then
    if ch_size ctx =? 0 then sw_after_data else sw_chunk_data
  else ch_st ctx.

(* http/ngx_http_parse.c:2117-2154 ngx_http_parse_chunked *)
Definition ngx_http_parse_chunked (mem : memory) (ctx : chunked) (b : buf)
  : option (Z * chunked * buf) :=
  o ← scan (ch_step mem) (scan_fuel 0 (last b) (pos b)) (last b)
        (ch_entry ctx, ch_size ctx) (pos b);
  Some (ch_finish ctx b o).

Example parse_chunked_example :
  ngx_http_parse_chunked (load 1 (bytes "1a;x" ++ [CR; LF] ++ bytes "abc")) chunked_init
    (Buf 1 10) = Some (NGX_OK, Chunked sw_chunk_data 26 30, Buf 7 10).
Proof. vm_compute. reflexivity. Qed.

(** ** Running the parser *)

Ltac ch_unfold :=
  unfold ch_step, on_chunk_start, on_chunk_size, on_chunk_extension,
    on_chunk_extension_almost_done, on_after_data, on_after_data_almost_done,
    on_last_chunk_extension, on_last_chunk_extension_almost_done, on_trailer,
    on_trailer_almost_done, on_trailer_header, on_trailer_header_almost_done,
    ch_goto, ch_break, ch_break_size, ch_is_digit, ch_is_xdigit, lower in *;
  cbv zeta in *.

(** Splits [H : ch_step mem (s, size) p = c] into the branches of the handler. *)
Ltac ch_cases H :=
  ch_unfold;
  repeat match type of H with
    | (if ?c then _ else _) = _ => let E := fresh "E" in destruct c eqn:E
    end;
  simplify_eq/=.

Lemma ch_progress mem l p l' p' :
  ch_step mem l p = Next l' p' -> p' = p \/ (p' = p - 1 /\ (0 < 0)%nat).
Proof. destruct l as [s size]. intros H. destruct s; ch_cases H; auto. Qed.

(** The exits leave the local state as it is. *)
Lemma ch_step_exit mem l p e l' p' :
  ch_step mem l p = Leave e l' p' -> l' = l /\ p' = p /\ (e = ChData -> l.1 = sw_chunk_data).
Proof. destruct l as [s size]. intros H. destruct s; ch_cases H; done. Qed.

Lemma parse_chunked_iff mem ctx b res :
  ngx_http_parse_chunked mem ctx b = Some res <->
  exists o, scans (ch_step mem) (last b) (ch_entry ctx, ch_size ctx) (pos b) o /\
    res = ch_finish ctx b o.
Proof.
  unfold ngx_http_parse_chunked. rewrite bind_Some.
  setoid_rewrite (scan_iff (ch_step mem) (fun _ => O) 0 (fun _ => le_n 0) (ch_progress mem)).
  split; intros (o & Ho & ?); simplify_eq; eauto.
Qed.

Lemma parse_chunked_total mem ctx b : is_Some (ngx_http_parse_chunked mem ctx b).
Proof.
  destruct (scan_total (ch_step mem) (fun _ => O) 0 (fun _ => le_n 0) (ch_progress mem)
    (last b) (ch_entry ctx, ch_size ctx) (pos b)) as [o Ho].
  exists (ch_finish ctx b o). apply parse_chunked_iff. exists o.
  apply scan_scans in Ho. auto.
Qed.

(** ** The invariant of the context

    Sizes stay within [off_t], only a size that is still being read can exceed
    the bound that is checked there, and a chunk whose data is awaited is not
    empty. *)

Definition awaits_data (s : ch_state) : bool :=
  match s with
  | sw_chunk_extension | sw_chunk_extension_almost_done | sw_chunk_data => true
  | _ => false
  end.

Definition ch_wf (l : ch_local) : Prop :=
  0 <= l.2 <= NGX_MAX_OFF_T_VALUE /\
  (l.1 = sw_chunk_size \/ l.2 <= NGX_MAX_OFF_T_VALUE / 16) /\
  (awaits_data l.1 = true -> 0 < l.2).

Lemma MAX_div_16 : NGX_MAX_OFF_T_VALUE / 16 = 576460752303423487.
Proof. reflexivity. Qed.
Lemma MAX_value : NGX_MAX_OFF_T_VALUE = 9223372036854775807.
Proof. reflexivity. Qed.

Lemma ch_step_wf mem l p l' p' :
  (forall a, is_byte (mem a)) -> ch_wf l -> ch_step mem l p = Next l' p' -> ch_wf l'.
Proof.
  intros Hm. pose proof (Hm p) as Hb. unfold is_byte in Hb. clear Hm.
  destruct l as [s size], l' as [s' size']. unfold ch_wf. rewrite MAX_div_16, MAX_value.
  intros Hl H.
  destruct s; ch_cases H; simpl in *; rewrite ?MAX_div_16 in *;
    (destruct Hl as (? & Hl1 & Hl2); split_and!;
      [lia|lia|first [by left | right; by destruct Hl1 | right; lia]
      |intros; first [done | lia | by apply Hl2]]).
Qed.

(** ** [ctx->length] never overestimates

    [ch_needed] drops by at most one for every byte read, and is one when the
    last byte of the body is read. *)

Lemma ch_needed_step mem s size p s' size' p' :
  (forall a, is_byte (mem a)) -> 0 <= size ->
  ch_step mem (s, size) p = Next (s', size') p' ->
  ch_needed s size - 1 <= ch_needed s' size'.
Proof.
  intros Hm Hs H. pose proof (Hm p) as Hb. unfold is_byte in Hb. clear Hm.
  destruct s; ch_cases H; simpl; try lia; repeat case_match; lia.
Qed.

Lemma ch_needed_done mem s size p l' p' :
  ch_step mem (s, size) p = Leave ChDone l' p' -> ch_needed s size = 1.
Proof. intros H. destruct s; ch_cases H; done. Qed.

(** The state in which the next call of the parser resumes. *)
Definition ch_resume (ctx : chunked) : ch_local := (ch_entry ctx, ch_size ctx).

Lemma parse_chunked_in_bounds mem ctx b rc ctx' b' :
  (forall a, is_byte (mem a)) -> ch_wf (ch_resume ctx) ->
  ngx_http_parse_chunked mem ctx b = Some (rc, ctx', b') -> rc = NGX_OK \/ rc = NGX_AGAIN ->
  ch_wf (ch_resume ctx') /\ 0 < ch_length ctx' <= NGX_MAX_OFF_T_VALUE /\
  (rc = NGX_OK -> ch_st ctx' = sw_chunk_data /\ 0 < ch_size ctx').
Proof.
  intros Hm Hwf Hr Hrc. apply parse_chunked_iff in Hr as (o & Ho & Hr).
  assert (Hinv : match o with
    | Fell l _ => ch_wf l
    | Left e l _ => e = ChData -> ch_wf l /\ l.1 = sw_chunk_data end).
  { eapply (scans_inv (ch_step mem) _ (fun l _ => ch_wf l)
      (fun e l _ => e = ChData -> ch_wf l /\ l.1 = sw_chunk_data)) in Ho; [|..|exact Hwf].
    - by destruct o as [l p|e l p]; [destruct Ho|].
    - intros l p l' p' _ Hi Hs. by eapply ch_step_wf.
    - intros l p e l' p' _ Hl (-> & _ & Hd)%ch_step_exit He. auto. }
  assert (Hd : forall s size, ch_wf (s, size) -> size <= NGX_MAX_OFF_T_VALUE - 5 ->
    ch_wf (ch_resume (Chunked s size (ch_needed s size))) /\
    0 < ch_needed s size <= NGX_MAX_OFF_T_VALUE).
  { unfold ch_wf. rewrite MAX_div_16, MAX_value. intros s size (H1 & H2 & H3) H4.
    unfold ch_resume, ch_entry. simpl in *. split.
    - case_decide as Hs; [|done]. subst s. specialize (H3 eq_refl).
      rewrite (proj2 (Z.eqb_neq _ _)) by lia. done.
    - destruct s; simpl; try destruct (Z.eqb_spec size 0); lia. }
  destruct o as [[s size] p|[] [s size] p]; cbn [ch_finish] in Hr; unfold ch_data in Hr.
  - rename Hinv into Hl. destruct (Z.ltb_spec (NGX_MAX_OFF_T_VALUE - 5) size);
      simplify_eq; [by destruct Hrc|]. destruct (Hd s size) as [? ?]; [done|lia|done].
  - destruct (Hinv eq_refl) as [Hl Hs]. simpl in Hs. subst s.
    destruct (Z.ltb_spec (NGX_MAX_OFF_T_VALUE - 5) size); simplify_eq; [by destruct Hrc|].
    destruct (Hd sw_chunk_data size) as [? ?]; [done|lia|].
    destruct Hl as (? & ? & H3). specialize (H3 eq_refl). auto.
  - simplify_eq. by destruct Hrc.
  - simplify_eq. by destruct Hrc.
Qed.

(** Parsing part of a chunked body keeps the context well formed: every size
    stored is an [off_t], so is [ctx->length], which is positive. *)
Theorem parse_chunked_bounds mem ctx b rc ctx' b' :
  (forall a, is_byte (mem a)) -> ch_wf (ch_resume ctx) ->
  ngx_http_parse_chunked mem ctx b = Some (rc, ctx', b') -> rc = NGX_OK \/ rc = NGX_AGAIN ->
  ch_wf (ch_resume ctx') /\ 0 < ch_length ctx' <= NGX_MAX_OFF_T_VALUE /\
  (rc = NGX_OK -> ch_st ctx' = sw_chunk_data /\ 0 < ch_size ctx').
Proof. apply parse_chunked_in_bounds. Qed.

Lemma parse_chunked_bounds_witness :
  let ctx' := Chunked sw_chunk_data 26 30 in
  ch_wf (ch_resume ctx') /\ 0 < ch_length ctx' <= NGX_MAX_OFF_T_VALUE /\
  (NGX_OK = NGX_OK -> ch_st ctx' = sw_chunk_data /\ 0 < ch_size ctx').
Proof.
  apply (parse_chunked_bounds (load 1 (bytes "1a;x" ++ [CR; LF] ++ bytes "abc")) chunked_init
    (Buf 1 10) NGX_OK (Chunked sw_chunk_data 26 30) (Buf 7 10)).
  - intros a. apply load_is_byte. by_decide.
  - unfold ch_wf, NGX_MAX_OFF_T_VALUE. simpl.
    split_and!; [lia|lia|right; vm_compute; discriminate|done].
  - vm_compute. reflexivity.
  - by left.
Defined.

Definition ch_need (l : ch_local) : Z := ch_needed l.1 l.2.

(** [ctx->length] is a lower bound of what is still to be read: a call that
    needs more input has reduced the need of its initial state by no more than
    the bytes it consumed, and a call that finds the end of the body consumed
    at least that need. *)
Theorem parse_chunked_length mem ctx b rc ctx' b' :
  (forall a, is_byte (mem a)) -> ch_wf (ch_resume ctx) ->
  ngx_http_parse_chunked mem ctx b = Some (rc, ctx', b') ->
  (rc = NGX_OK \/ rc = NGX_AGAIN ->
     ch_length ctx' = ch_need (ch_resume ctx') /\
     ch_need (ch_resume ctx) - (pos b' - pos b) <= ch_length ctx') /\
  (rc = NGX_DONE -> ch_need (ch_resume ctx) <= pos b' - pos b).
Proof.
  intros Hm Hwf Hr.
  assert (Hb : rc = NGX_OK \/ rc = NGX_AGAIN -> ch_wf (ch_resume ctx') /\ 0 <= ch_size ctx')
    by (intros Hrc; pose proof (parse_chunked_in_bounds _ _ _ _ _ _ Hm Hwf Hr Hrc) as (Hw & _);
        split; [done|by apply Hw]).
  apply parse_chunked_iff in Hr as (o & Ho & Hr).
  set (n := ch_need (ch_resume ctx)) in *.
  assert (Hinv : match o with
    | Fell l p => n - (p - pos b) <= ch_need l
    | Left ChData l p => n - (p - pos b) <= ch_need l /\ l.1 = sw_chunk_data
    | Left ChDone _ p => n <= p + 1 - pos b
    | _ => True end).
  { eapply (scans_inv (ch_step mem) _ (fun l p => ch_wf l /\ n - (p - pos b) <= ch_need l)
      (fun e l p => match e with
         | ChData => n - (p - pos b) <= ch_need l /\ l.1 = sw_chunk_data
         | ChDone => n <= p + 1 - pos b | _ => True end)) in Ho.
    - destruct o as [l p|[] l p]; [by destruct Ho as [[] ?]|done..].
    - intros [s size] p [s' size'] p' _ [Hl Hn] Hs.
      destruct (ch_progress _ _ _ _ _ Hs) as [->|[_ ?]]; [|lia].
      split; [by eapply ch_step_wf|]. unfold ch_need in *. simpl in *.
      apply ch_needed_step in Hs; [lia|done|by apply Hl].
    - intros [s size] p e l' p' _ [Hl Hn] Hs.
      destruct (ch_step_exit _ _ _ _ _ _ Hs) as (-> & -> & Hd). destruct e; [by auto| |done].
      unfold ch_need in Hn. simpl in Hn. rewrite (ch_needed_done _ _ _ _ _ _ Hs) in Hn. lia.
    - split; [done|]. unfold n, ch_resume. simpl. lia. }
  assert (Hd : forall s size len, ch_wf (ch_resume (Chunked s size len)) ->
    ch_need (ch_resume (Chunked s size len)) = ch_needed s size).
  { intros s size len. unfold ch_resume, ch_entry, ch_need. simpl. case_decide as Hs; [|done].
    subst s. destruct (Z.eqb_spec size 0) as [->|]; done. }
  destruct o as [[s size] p|[] [s size] p]; cbn [ch_finish] in Hr; unfold ch_data in Hr;
    try destruct (NGX_MAX_OFF_T_VALUE - 5 <? size); simplify_eq;
    (split; [intros [Hrc|Hrc]|intros Hrc]); try discriminate Hrc;
    try (destruct Hb as [Hw Hs]; [auto|]; rewrite Hd by done; unfold ch_need in *; simpl in *).
  all: first [done | by split | by destruct Hinv].
Qed.

Lemma parse_chunked_length_witness :
  let ctx' := Chunked sw_chunk_data 26 30 in
  (NGX_OK = NGX_OK \/ NGX_OK = NGX_AGAIN ->
     ch_length ctx' = ch_need (ch_resume ctx') /\
     ch_need (ch_resume chunked_init) - (7 - 1) <= ch_length ctx') /\
  (NGX_OK = NGX_DONE -> ch_need (ch_resume chunked_init) <= 7 - 1).
Proof.
  apply (parse_chunked_length (load 1 (bytes "1a;x" ++ [CR; LF] ++ bytes "abc")) chunked_init
    (Buf 1 10) NGX_OK (Chunked sw_chunk_data 26 30) (Buf 7 10)).
  - intros a. apply load_is_byte. by_decide.
  - unfold ch_wf, NGX_MAX_OFF_T_VALUE. simpl.
    split_and!; [lia|lia|right; vm_compute; discriminate|done].
  - vm_compute. reflexivity.
Defined.
