(* ===== verification/HttpChunkedBody.v ===== *)
(** * HttpChunkedBody: chunked bodies, written and read

    The two users of the chunked coding: the output filter of
    src/http/modules/ngx_http_chunked_filter_module.c, which frames a response
    body, and [ngx_http_request_body_chunked_filter] of
    src/http/ngx_http_request_body.c, which unframes a request body with
    [ngx_http_parse_chunked].  The two are inverse to each other, however the
    framed bytes are cut into buffers. *)

From S2P Require Import Prelude Scan HttpRequest NgxNumber HttpChunked.

(** ** Writing *)

(** A buffer of an output chain: its bytes, whether it has any storage or flag
    that makes the filter pass it on, and its [last_buf] flag. *)
Record obuf : Type := Obuf { ob_data : list Z; ob_passed : bool; ob_last : bool }.

(** [ngx_buf_size] of a buffer without storage is 0. *)
Definition obuf_ok (b : obuf) : Prop := ob_passed b = false -> ob_data b = [].

Definition CRLF : list Z := [CR; LF].

(* http/modules/ngx_http_chunked_filter_module.c:119-146 ngx_http_chunked_body_filter: for ( ;; ) *)
Fixpoint chunked_collect (in_ : list obuf) : Z * list (list Z) * bool :=
  match in_ with
  | [] => (0, [], false)
  | b :: rest =>
      let '(size, out, last) := chunked_collect rest in
      (Z.of_nat (length (ob_data b)) + size,
       (if ob_passed b then ob_data b :: out else out),
       (match rest with [] => ob_last b | _ => last end))
  end.

(** The chain handed to the next filter, as the bytes of its buffers. *)
(* http/modules/ngx_http_chunked_filter_module.c:100-230 ngx_http_chunked_body_filter *)
Definition ngx_http_chunked_body_filter (in_ : list obuf) : option (list (list Z)) :=
  let '(size, out, last) := chunked_collect in_ in
  head ← (if size =? 0 then Some []
          else digits ← ngx_sprintf_num (2 ^ 64 - 1) size ($ " ") 1 0;
               Some [digits ++ CRLF]);
  let tail :=
    if last then [if size =? 0 then bytes "0" ++ CRLF ++ CRLF
                  else CRLF ++ bytes "0" ++ CRLF ++ CRLF]
    else if 0 <? size then [CRLF] else [] in
  Some (head ++ out ++ tail).

(** ** Reading *)

Definition NGX_HTTP_BAD_REQUEST : Z := 400.
Definition NGX_HTTP_REQUEST_ENTITY_TOO_LARGE : Z := 413.

(** The fields of [r->request_body] and [r->headers_in] the filter works on,
    and the chain it builds: the data buffers and the final [last_buf]. *)
Record rbody : Type := Rbody {
  rb_rest : Z;
  rb_chunked : chunked;
  rb_content_length_n : Z;
  rb_out : list (list Z);
  rb_last : bool
}.

Inductive rb_result : Type :=
  | RbOk (rb : rbody) (b : buf)
  | RbFail (code : Z).

(** The inner loop, on one buffer. *)
(* http/ngx_http_request_body.c:959-1054 ngx_http_request_body_chunked_filter: for ( ;; ) *)
Fixpoint chunked_buf_loop (fuel : nat) (client_max_body_size : Z) (mem : memory)
    (rb : rbody) (b : buf) : option rb_result :=
  match fuel with
  | O => None
  | S fuel =>
      '(rc, ctx, b) ← ngx_http_parse_chunked mem (rb_chunked rb) b;
      if rc =? NGX_OK then
        if negb (client_max_body_size =? 0)
           && (client_max_body_size - rb_content_length_n rb <? ch_size ctx)
        then Some (RbFail NGX_HTTP_REQUEST_ENTITY_TOO_LARGE)
        else
          let size := last b - pos b in
          if ch_size ctx <? size then
            let e := pos b + ch_size ctx in
            chunked_buf_loop fuel client_max_body_size mem
              (Rbody (rb_rest rb) (Chunked (ch_st ctx) 0 (ch_length ctx))
                 (rb_content_length_n rb + ch_size ctx)
                 (rb_out rb ++ [slice mem (pos b) e]) (rb_last rb))
              (Buf e (last b))
          else
            chunked_buf_loop fuel client_max_body_size mem
              (Rbody (rb_rest rb) (Chunked (ch_st ctx) (ch_size ctx - size) (ch_length ctx))
                 (rb_content_length_n rb + size)
                 (rb_out rb ++ [slice mem (pos b) (last b)]) (rb_last rb))
              (Buf (last b) (last b))
      else if rc =? NGX_DONE then
        Some (RbOk (Rbody 0 ctx (rb_content_length_n rb) (rb_out rb) true) b)
      else if rc =? NGX_AGAIN then
        Some (RbOk (Rbody (ch_length ctx) ctx (rb_content_length_n rb) (rb_out rb) (rb_last rb)) b)
      else Some (RbFail NGX_HTTP_BAD_REQUEST)
  end.

(** The chain of input buffers, each given by its bytes. *)
(* http/ngx_http_request_body.c:957-1056 ngx_http_request_body_chunked_filter: for (cl = in; cl; cl = cl->next) *)
Fixpoint chunked_chain (client_max_body_size : Z) (rb : rbody) (in_ : list (list Z))
  : option rb_result :=
  match in_ with
  | [] => Some (RbOk rb (Buf 0 0))
  | l :: in_ =>
      match chunked_buf_loop (2 + length l) client_max_body_size (load 1 l) rb
              (Buf 1 (1 + Z.of_nat (length l))) with
      | Some (RbOk rb _) => chunked_chain client_max_body_size rb in_
      | res => res
      end
  end.

(* http/ngx_http_request_body.c:927-956 ngx_http_request_body_chunked_filter *)
Definition ngx_http_request_body_chunked_filter (client_max_body_size : Z) (rb : rbody)
    (in_ : list (list Z)) : option rb_result :=
  let rb := if rb_rest rb =? -1
            then Rbody 3 chunked_init 0 [] (rb_last rb)
            else Rbody (rb_rest rb) (rb_chunked rb) (rb_content_length_n rb) [] (rb_last rb) in
  chunked_chain client_max_body_size rb in_.

Definition rbody_init : rbody := Rbody (-1) chunked_init 0 [] false.

Example chunked_filters_example :
  (wire ← ngx_http_chunked_body_filter [Obuf (bytes "Hello, ") true false;
                                        Obuf (bytes "world") true true];
   ngx_http_request_body_chunked_filter 0 rbody_init
     [take 9 (concat wire); drop 9 (concat wire)])
  = Some (RbOk (Rbody 0 (Chunked sw_chunk_start 0 10) 12
                  [bytes "Hello,"; bytes " world"] true) (Buf 0 0)).
Proof. vm_compute. reflexivity. Qed.

(** ** The byte machine that the reader refines

    [feed] reads one byte: a data byte is output, any other byte is a step of
    the parser's state machine.  A context is seen as its local state at the
    next call of the parser. *)

Definition ch_view (ctx : chunked) : ch_local := (ch_entry ctx, ch_size ctx).

Inductive fed : Type := FMore (l : ch_local) (data : list Z) | FDone | FBad.

Definition feed (l : ch_local) (c : Z) : fed :=
  let '(s, size) := l in
  if decide (s = sw_chunk_data) then
    FMore (if size - 1 =? 0 then sw_after_data else sw_chunk_data, size - 1) [c]
  else
    match ch_step (fun _ => c) (s, size) 0 with
    | Next l _ => FMore l []
    | Leave ChDone _ _ => FDone
    | Leave _ _ _ => FBad
    end.

(** [feeds l bs]: the state after [bs] (or [Done rest], the body being over
    before [rest]) and the data that [bs] holds. *)
Inductive fstat : Type := More (l : ch_local) | Done (rest : list Z) | Bad.

Fixpoint feeds (l : ch_local) (bs : list Z) : fstat * list Z :=
  match bs with
  | [] => (More l, [])
  | c :: bs =>
      match feed l c with
      | FMore l d => let '(st, ds) := feeds l bs in (st, d ++ ds)
      | FDone => (Done bs, [])
      | FBad => (Bad, [])
      end
  end.

Lemma feeds_app l a b :
  feeds l (a ++ b) =
  match feeds l a with
  | (More l, d) => let '(st, ds) := feeds l b in (st, d ++ ds)
  | (Done r, d) => (Done (r ++ b), d)
  | (Bad, d) => (Bad, d)
  end.
Proof.
  revert l. induction a as [|c a IH]; intros l; simpl.
  - by destruct (feeds l b).
  - destruct (feed l c) as [l' d| |]; [|done|done]. rewrite IH.
    destruct (feeds l' a) as [[l2|r|] ds]; simpl; [|done|done].
    destruct (feeds l2 b). by rewrite app_assoc.
Qed.

(** A step depends on the byte under the cursor only. *)
Lemma ch_step_local mem l p :
  ch_step mem l p =
  match ch_step (fun _ => mem p) l 0 with
  | Next l' _ => Next l' p
  | Leave e l' _ => Leave e l' p
  end.
Proof. destruct l as [s size]. destruct s; ch_unfold; by repeat case_match; simplify_eq. Qed.

Lemma feed_wf l c l' d : is_byte c -> ch_wf l -> feed l c = FMore l' d -> ch_wf l'.
Proof.
  intros Hc Hl. destruct l as [s size]. unfold feed. case_decide as Hs.
  - intros ?; simplify_eq. destruct Hl as (H1 & [H2|H2] & H3); [done|]. simpl in *.
    specialize (H3 eq_refl). unfold ch_wf. simpl.
    destruct (Z.eqb_spec (size - 1) 0); simpl; split_and!; try lia; try done; right; lia.
  - destruct (ch_step _ _ _) as [l1 p1|[] ? ?] eqn:E; intros; simplify_eq.
    eapply (ch_step_wf (fun _ => c)); eauto.
Qed.

Lemma feeds_wf l bs l' d :
  Forall is_byte bs -> ch_wf l -> feeds l bs = (More l', d) -> ch_wf l'.
Proof.
  intros Hb. revert l d. induction Hb as [|c bs Hc Hb IH]; intros l d Hl; simpl.
  - by intros; simplify_eq.
  - destruct (feed l c) as [l1 d1| |] eqn:E; [|done|done].
    apply feed_wf in E; auto. destruct (feeds l1 bs) as [st ds] eqn:E2.
    intros; simplify_eq. eauto.
Qed.

(** Data bytes that are still to come in the current chunk. *)
Definition pending (l : ch_local) : Z := if awaits_data l.1 then l.2 else 0.

(** A run of data: what is available of the chunk, then the rest. *)
Lemma feeds_data size bs :
  0 < size ->
  feeds (sw_chunk_data, size) bs =
  if size <? Z.of_nat (length bs) then
    let '(st, ds) := feeds (sw_after_data, 0) (drop (Z.to_nat size) bs) in
    (st, take (Z.to_nat size) bs ++ ds)
  else
    (More (if size =? Z.of_nat (length bs) then sw_after_data else sw_chunk_data,
           size - Z.of_nat (length bs)), bs).
Proof.
  revert size. induction bs as [|c bs IH]; intros size Hs.
  - cbn [feeds length]. rewrite (proj2 (Z.ltb_ge size _)), (proj2 (Z.eqb_neq size _)) by lia.
    by rewrite Z.sub_0_r.
  - cbn [feeds]. unfold feed. rewrite decide_True by done.
    assert (Hlen : Z.of_nat (length (c :: bs)) = Z.of_nat (length bs) + 1) by (simpl; lia).
    rewrite Hlen.
    destruct (Z.eqb_spec (size - 1) 0) as [E|E].
    + assert (size = 1) as -> by lia. change (Z.to_nat 1) with 1%nat. change (1 - 1) with 0.
      cbn [take drop]. rewrite drop_0.
      destruct bs as [|c' bs]; [done|].
      rewrite (proj2 (Z.ltb_lt 1 _)) by (cbn [length]; lia). by rewrite take_0.
    + rewrite IH by lia.
      replace (size <? Z.of_nat (length bs) + 1) with (size - 1 <? Z.of_nat (length bs)) by lia.
      replace (size =? Z.of_nat (length bs) + 1) with (size - 1 =? Z.of_nat (length bs)) by lia.
      replace (Z.to_nat size) with (S (Z.to_nat (size - 1))) by lia. cbn [take drop].
      destruct (size - 1 <? _); [by destruct (feeds _ _)|].
      simpl. do 3 f_equal. lia.
Qed.

(** ** The reader refines the byte machine *)

(** What one buffer does to the request body, as the byte machine says:
    [l'] and [d] are the state after the buffer and the data found in it. *)
Definition body_step (rb rb' : rbody) (st : fstat) (d : list Z) : Prop :=
  rb_content_length_n rb' = rb_content_length_n rb + Z.of_nat (length d) /\
  concat (rb_out rb') = concat (rb_out rb) ++ d /\
  match st with
  | More l => ch_view (rb_chunked rb') = l /\ rb_last rb' = rb_last rb /\
      rb_rest rb' = ch_needed l.1 l.2
  | Done _ => rb_last rb' = true /\ rb_rest rb' = 0
  | Bad => False
  end.

(** The part of the buffer that a finished body leaves. *)
Definition stat_rest (st : fstat) : list Z := match st with Done r => r | _ => [] end.

(** [client_max_body_size] does not cut the body off. *)
Definition within (max clen : Z) (st : fstat) (d : list Z) : Prop :=
  max = 0 \/
  clen + Z.of_nat (length d) + match st with More l => pending l | _ => 0 end <= max.

(** A final state that the size check after the loop accepts. *)
Definition stat_ok (st : fstat) : Prop :=
  match st with More l => l.2 <= NGX_MAX_OFF_T_VALUE - 5 | Done _ => True | Bad => False end.

Definition set_chunked (ctx : chunked) (rb : rbody) : rbody :=
  Rbody (rb_rest rb) ctx (rb_content_length_n rb) (rb_out rb) (rb_last rb).

(** A byte of a chunk header may be read in a call of its own. *)
Lemma buf_loop_header fuel max mem rb p last l' :
  p < last -> ch_wf l' ->
  ch_step mem (ch_view (rb_chunked rb)) p = Next l' p ->
  chunked_buf_loop (S fuel) max mem rb (Buf p last) =
  chunked_buf_loop (S fuel) max mem
    (set_chunked (Chunked l'.1 l'.2 (ch_length (rb_chunked rb))) rb) (Buf (p + 1) last).
Proof.
  intros Hp Hwf Hs. cbn [chunked_buf_loop].
  set (ctx := rb_chunked rb) in *. destruct l' as [s' size'].
  change (rb_chunked (set_chunked _ rb)) with (Chunked s' size' (ch_length ctx)).
  set (ctx1 := Chunked s' size' (ch_length ctx)).
  assert (Hv : ch_view ctx1 = (s', size')).
  { unfold ch_view, ch_entry, ctx1; simpl. case_decide as E; [|done]. subst s'.
    destruct Hwf as (_ & _ & Hw). specialize (Hw eq_refl). simpl in Hw.
    by rewrite (proj2 (Z.eqb_neq size' 0)) by lia. }
  destruct (parse_chunked_total mem ctx1 (Buf (p + 1) last)) as [res1 H1].
  apply parse_chunked_iff in H1 as H1'. destruct H1' as (o & Ho & ->).
  assert (ngx_http_parse_chunked mem ctx (Buf p last) = Some (ch_finish ctx (Buf p last) o)) as ->.
  { apply parse_chunked_iff. exists o. split; [|done].
    eapply scans_next; [done|exact Hs|].
    change (ch_entry ctx1, ch_size ctx1) with (ch_view ctx1) in Ho. by rewrite Hv in Ho. }
  rewrite H1. simpl.
  destruct o as [[s2 z2] p2|[| |] [s2 z2] p2]; simpl; unfold ch_data; simpl;
    try (destruct (_ <? z2)); simpl; reflexivity.
Qed.

Lemma feed_step mem l p c l' d :
  mem p = c -> l.1 <> sw_chunk_data -> feed l c = FMore l' d ->
  ch_step mem l p = Next l' p /\ d = [].
Proof.
  intros <- Hd. destruct l as [s size]. unfold feed. simpl in Hd. rewrite decide_False by done.
  rewrite (ch_step_local mem). destruct (ch_step _ _ 0) as [l1 p1|[] l1 p1]; intros H; try discriminate H.
  injection H as <- <-. done.
Qed.

(** The end of a buffer. *)
Lemma buf_loop_end fuel max mem rb p :
  ch_size (rb_chunked rb) <= NGX_MAX_OFF_T_VALUE - 5 ->
  exists rb', chunked_buf_loop (S fuel) max mem rb (Buf p p) = Some (RbOk rb' (Buf p p)) /\
    ch_view (rb_chunked rb') = ch_view (rb_chunked rb) /\ rb_last rb' = rb_last rb /\
    rb_content_length_n rb' = rb_content_length_n rb /\ rb_out rb' = rb_out rb /\
    rb_rest rb' = ch_needed (ch_entry (rb_chunked rb)) (ch_size (rb_chunked rb)).
Proof.
  intros Hs. cbn [chunked_buf_loop]. set (ctx := rb_chunked rb) in *.
  assert (ngx_http_parse_chunked mem ctx (Buf p p) =
    Some (ch_finish ctx (Buf p p) (Fell (ch_entry ctx, ch_size ctx) p))) as ->.
  { apply parse_chunked_iff. eexists. split; [|done]. apply scans_fell. simpl. lia. }
  simpl. unfold ch_data. rewrite (proj2 (Z.ltb_ge _ (ch_size ctx))) by lia. simpl.
  eexists. split; [reflexivity|]. simpl. split_and!; try done.
  unfold ch_view, ch_entry. simpl. repeat case_decide; try done.
Qed.

(** The last byte of a body. *)
Lemma buf_loop_done fuel max mem rb p last c :
  p < last -> mem p = c -> feed (ch_view (rb_chunked rb)) c = FDone ->
  exists rb', chunked_buf_loop (S fuel) max mem rb (Buf p last)
      = Some (RbOk rb' (Buf (p + 1) last)) /\
    rb_content_length_n rb' = rb_content_length_n rb /\ rb_out rb' = rb_out rb /\
    rb_last rb' = true /\ rb_rest rb' = 0.
Proof.
  intros Hp <- Hf. cbn [chunked_buf_loop]. set (ctx := rb_chunked rb) in *.
  unfold feed in Hf. destruct (ch_view ctx) as [s size] eqn:Hv.
  destruct (decide (s = sw_chunk_data)); [done|].
  destruct (ch_step _ _ 0) as [|[] l1 p1] eqn:E; try done. destruct l1 as [s1 size1].
  assert (ngx_http_parse_chunked mem ctx (Buf p last) =
    Some (ch_finish ctx (Buf p last) (Left ChDone (s1, size1) p))) as ->.
  { apply parse_chunked_iff. eexists. split; [|done]. apply scans_left; [done|].
    change (ch_entry ctx, ch_size ctx) with (ch_view ctx).
    rewrite Hv, (ch_step_local mem). cbn [pos]. by rewrite E. }
  simpl. eauto 10.
Qed.

Lemma feeds_pending l bs st d :
  Forall is_byte bs -> ch_wf l -> feeds l bs = (st, d) ->
  0 <= match st with More l => pending l | _ => 0 end.
Proof.
  intros Hb Hl Hf. destruct st as [l'| |]; [|done|done].
  apply feeds_wf in Hf; auto. destruct Hf as (? & _). unfold pending. case_match; lia.
Qed.

(** The chunk that is about to be read fits. *)
Lemma within_chunk max clen size bs st d :
  Forall is_byte bs -> ch_wf (sw_chunk_data, size) ->
  feeds (sw_chunk_data, size) bs = (st, d) -> within max clen st d ->
  max = 0 \/ clen + size <= max.
Proof.
  intros Hb Hwf Hf [Hw|Hw]; [by left|]. right.
  destruct (id Hwf) as (Hr & _ & Hp). specialize (Hp eq_refl). simpl in Hp, Hr.
  pose proof (feeds_pending _ _ _ _ Hb Hwf Hf) as Hpd.
  rewrite feeds_data in Hf by done. destruct (Z.ltb_spec size (Z.of_nat (length bs))).
  - destruct (feeds _ _) as [st1 ds]. simplify_eq. rewrite length_app, length_take in Hw. lia.
  - simplify_eq. unfold pending in Hw. simpl in Hw.
    destruct (Z.eqb_spec size (Z.of_nat (length d))); simpl in Hw; lia.
Qed.

Lemma wf_view_data ctx :
  ch_wf (ch_view ctx) -> (ch_view ctx).1 = sw_chunk_data ->
  ch_view ctx = (sw_chunk_data, ch_size ctx) /\ 0 < ch_size ctx <= NGX_MAX_OFF_T_VALUE / 16.
Proof.
  unfold ch_view. simpl. intros (Hr & [Hd|Hm] & Hp) H; simpl in *; [congruence|].
  rewrite H in Hp |- *. specialize (Hp eq_refl). auto.
Qed.

(** In a chunk's data, one turn of the loop takes what the buffer has. *)
Lemma buf_loop_data fuel max mem rb p last :
  p < last -> ch_wf (ch_view (rb_chunked rb)) ->
  (ch_view (rb_chunked rb)).1 = sw_chunk_data ->
  max = 0 \/ rb_content_length_n rb + ch_size (rb_chunked rb) <= max ->
  let size := ch_size (rb_chunked rb) in
  let n := Z.min size (last - p) in
  chunked_buf_loop (S fuel) max mem rb (Buf p last) =
  chunked_buf_loop fuel max mem
    (Rbody (rb_rest rb) (Chunked sw_chunk_data (size - n) (size + 4))
       (rb_content_length_n rb + n) (rb_out rb ++ [slice mem p (p + n)]) (rb_last rb))
    (Buf (p + n) last).
Proof.
  intros Hp Hwf Hd Hmax size n. destruct (wf_view_data _ Hwf Hd) as [Hv Hs].
  cbn [chunked_buf_loop].
  assert (ngx_http_parse_chunked mem (rb_chunked rb) (Buf p last) =
    Some (NGX_OK, Chunked sw_chunk_data size (size + 4), Buf p last)) as ->.
  { apply parse_chunked_iff. exists (Left ChData (sw_chunk_data, size) p). split.
    - change (ch_entry (rb_chunked rb), ch_size (rb_chunked rb)) with (ch_view (rb_chunked rb)).
      rewrite Hv. by apply scans_left.
    - simpl. unfold ch_data. rewrite (proj2 (Z.ltb_ge _ _)); [done|].
      rewrite MAX_div_16 in Hs. rewrite MAX_value. unfold size. lia. }
  cbn [mbind option_bind ch_size ch_st ch_length pos HttpRequest.last]. cbn -[chunked_buf_loop Z.sub Z.add slice].
  fold size in Hmax, Hs.
  assert (negb (max =? 0) && (max - rb_content_length_n rb <? size) = false) as ->.
  { destruct (Z.eqb_spec max 0); simpl; [done|]. apply Z.ltb_ge. lia. }
  unfold n. destruct (Z.ltb_spec size (last - p)).
  - rewrite Z.min_l by lia. by rewrite Z.sub_diag.
  - rewrite Z.min_r by lia. by replace (p + (last - p)) with last by lia.
Qed.

Lemma within_shift max clen bs st d n :
  within max clen st (bs ++ d) -> n = Z.of_nat (length bs) ->
  within max (clen + n) st d.
Proof. intros [?|H] ->; [by left|right]. rewrite length_app in H. lia. Qed.

Lemma slice_take mem p bs n :
  holds mem p bs -> 0 <= n <= Z.of_nat (length bs) ->
  slice mem p (p + n) = take (Z.to_nat n) bs /\ holds mem (p + n) (drop (Z.to_nat n) bs).
Proof.
  intros H Hn. rewrite <- (take_drop (Z.to_nat n) bs) in H. apply holds_app in H as [H1 H2].
  rewrite length_take in H2. rewrite Nat.min_l in H2 by lia. rewrite Z2Nat.id in H2 by lia.
  split; [|done]. rewrite <- (slice_holds mem p (take (Z.to_nat n) bs)) by done.
  f_equal. rewrite length_take. lia.
Qed.

Lemma view_mk s n len :
  ch_view (Chunked s n len) =
  (if decide (s = sw_chunk_data) then if n =? 0 then sw_after_data else sw_chunk_data else s, n).
Proof. done. Qed.

(** One buffer: the reader does what the byte machine does. *)
Lemma buf_loop_feeds max mem bs : forall fuel rb p st d,
  (forall a, is_byte (mem a)) -> Forall is_byte bs -> holds mem p bs ->
  ch_wf (ch_view (rb_chunked rb)) -> feeds (ch_view (rb_chunked rb)) bs = (st, d) ->
  stat_ok st -> within max (rb_content_length_n rb) st d -> (length bs < fuel)%nat ->
  exists rb', chunked_buf_loop fuel max mem rb (Buf p (p + Z.of_nat (length bs))) =
      Some (RbOk rb' (Buf (p + Z.of_nat (length bs) - Z.of_nat (length (stat_rest st)))
                          (p + Z.of_nat (length bs)))) /\
    body_step rb rb' st d.
Proof.
  induction bs as [bs IH] using (induction_ltof1 _ (@length Z)). unfold ltof in IH.
  intros fuel rb p st d Hm Hb Hh Hwf Hf Hok Hw Hfuel.
  destruct fuel as [|fuel]; [lia|].
  destruct bs as [|c bs].
  { simpl in Hf. simplify_eq. simpl in *. rewrite Z.add_0_r, Z.sub_0_r.
    destruct (buf_loop_end fuel max mem rb p) as (rb' & H & Hv & Hl & Hc & Ho & Hr); [done|].
    exists rb'. split; [done|]. unfold body_step. rewrite Hc, Ho, app_nil_r. simpl. auto with lia. }
  set (e := p + Z.of_nat (length (c :: bs))) in *.
  assert (He : e = p + 1 + Z.of_nat (length bs)) by (unfold e; cbn [length]; lia).
  inversion Hb as [|? ? Hc Hbs]; subst. apply holds_cons in Hh as Hh'. destruct Hh' as [Hc' Hh'].
  destruct (decide ((ch_view (rb_chunked rb)).1 = sw_chunk_data)) as [Hd|Hd].
  - destruct (wf_view_data _ Hwf Hd) as [Hv Hs]. rewrite Hv in Hf, Hwf.
    rewrite buf_loop_data; [|lia|by rewrite Hv|done|by apply (within_chunk _ _ _ _ _ _ Hb Hwf Hf)].
    set (size := ch_size (rb_chunked rb)) in *.
    set (n := Z.min size (e - p)).
    destruct (slice_take mem p (c :: bs) n Hh) as [Hsl Hh2]; [unfold n, e in *; lia|].
    rewrite Hsl.
    set (rb1 := Rbody _ _ _ _ _).
    assert (Hlt : (length (drop (Z.to_nat n) (c :: bs)) < length (c :: bs))%nat).
    { rewrite length_drop. unfold n. cbn [length] in *. lia. }
    assert (exists d1, d = take (Z.to_nat n) (c :: bs) ++ d1 /\
      feeds (ch_view (rb_chunked rb1)) (drop (Z.to_nat n) (c :: bs)) = (st, d1)) as (d1 & -> & Hf1).
    { rewrite feeds_data in Hf by lia. unfold rb1. cbn [rb_chunked]. rewrite view_mk, decide_True by done.
      destruct (Z.ltb_spec size (Z.of_nat (length (c :: bs)))).
      - unfold n. rewrite Z.min_l by lia. rewrite Z.sub_diag. simpl Z.eqb. cbv iota.
        destruct (feeds _ _) as [st1 ds]. simplify_eq. eauto.
      - unfold n. rewrite Z.min_r by lia.
        replace (e - p) with (Z.of_nat (length (c :: bs))) by lia. rewrite Nat2Z.id.
        rewrite take_ge, drop_ge by lia. injection Hf as <- <-. exists []. rewrite app_nil_r.
        split; [done|]. cbn [feeds].
        by replace (size - Z.of_nat (length (c :: bs)) =? 0)
          with (size =? Z.of_nat (length (c :: bs))) by lia. }
    assert (Hlen : Z.of_nat (length (take (Z.to_nat n) (c :: bs))) = n).
    { rewrite length_take. unfold n, e in *. lia. }
    assert (Hwf1 : ch_wf (ch_view (rb_chunked rb1))).
    { unfold rb1. cbn [rb_chunked]. rewrite view_mk, decide_True by done.
      destruct Hwf as ((? & ?) & [?|?] & ?); [done|]. unfold ch_wf. simpl in *.
      destruct (Z.eqb_spec (size - n) 0); simpl; split_and!; try lia; try done; right; lia. }
    destruct (IH (drop (Z.to_nat n) (c :: bs)) Hlt fuel rb1 (p + n) st d1) as (rb' & Hr & Hst);
      [done|by apply Forall_drop|done|done|done|done| |lia|].
    { eapply within_shift; [exact Hw|done]. }
    rewrite length_drop in Hr.
    replace (p + n + Z.of_nat (length (c :: bs) - Z.to_nat n)) with e in Hr
      by (unfold n, e in *; lia).
    exists rb'. split; [done|]. destruct Hst as (H1 & H2 & H3). unfold rb1 in *. simpl in H1, H2, H3.
    split_and!; [rewrite length_app; lia| |done].
    rewrite H2, concat_app. simpl. by rewrite app_nil_r, <- app_assoc.
  - cbn [feeds] in Hf. destruct (feed _ c) as [l1 d1| |] eqn:E.
    + destruct (feeds l1 bs) as [st1 d2] eqn:E2. injection Hf as <- <-.
      destruct (feed_step mem _ p _ _ _ Hc' Hd E) as [Hs ->].
      assert (Hwf1 : ch_wf l1) by eauto using feed_wf.
      rewrite (buf_loop_header fuel max mem rb p _ l1) by (done || lia).
      set (rb1 := set_chunked _ rb).
      assert (Hv1 : ch_view (rb_chunked rb1) = l1).
      { unfold rb1. simpl. rewrite view_mk. destruct l1 as [s1 z1]. simpl.
        case_decide; [|done]. subst s1. destruct Hwf1 as (_ & _ & Hz). specialize (Hz eq_refl).
        simpl in Hz. by rewrite (proj2 (Z.eqb_neq z1 0)) by lia. }
      destruct (IH bs) with (fuel := S fuel) (rb := rb1) (p := p + 1) (st := st1) (d := d2)
        as (rb' & Hr & Hst); try done; [cbn [length]; lia|by rewrite Hv1|by rewrite Hv1|cbn [length] in *; lia|].
      rewrite He. exists rb'. split; [done|]. exact Hst.
    + injection Hf as <- <-.
      destruct (buf_loop_done fuel max mem rb p e c) as (rb' & H & H1 & H2 & H3 & H4);
        [lia|done|done|].
      exists rb'. rewrite H. split; [simpl; do 4 f_equal; lia|].
      unfold body_step. rewrite H1, H2, app_nil_r. simpl. auto with lia.
    + injection Hf as <- <-. done.
Qed.

(** ** A chain of buffers *)

Lemma feed_pending l c l' d :
  is_byte c -> ch_wf l -> feed l c = FMore l' d -> pending l <= Z.of_nat (length d) + pending l'.
Proof.
  intros Hc Hl Hf. assert (0 <= pending l').
  { pose proof (feed_wf _ _ _ _ Hc Hl Hf) as (? & _). unfold pending. case_match; lia. }
  destruct l as [s size]. unfold feed in Hf. case_decide as Hs.
  - injection Hf as <- <-. subst s. unfold pending. simpl.
    destruct (Z.eqb_spec (size - 1) 0); simpl; lia.
  - destruct (ch_step _ _ _) as [l1 p1|[] ? ?] eqn:E; try done. injection Hf as <- <-.
    unfold pending in *. simpl. destruct s; ch_cases E; simpl in *; lia.
Qed.

(** The data announced has to come, unless the input ends. *)
Lemma feeds_pending_le l bs st d :
  Forall is_byte bs -> ch_wf l -> feeds l bs = (st, d) -> st <> Bad ->
  pending l <= Z.of_nat (length d) + match st with More l => pending l | _ => 0 end.
Proof.
  intros Hb. revert l st d. induction Hb as [|c bs Hc Hb IH]; intros l st d Hl Hf Hst; simpl in Hf.
  - injection Hf as <- <-. simpl. lia.
  - destruct (feed l c) as [l1 d1| |] eqn:E.
    + destruct (feeds l1 bs) as [st1 d2] eqn:E2. injection Hf as <- <-.
      pose proof (feed_pending _ _ _ _ Hc Hl E). apply IH in E2; [|by eauto using feed_wf|done].
      rewrite length_app. lia.
    + injection Hf as <- <-. destruct l as [s size]. unfold feed in E. case_decide; [done|].
      destruct (ch_step _ _ _) as [|[] l1 p1] eqn:E1; try done.
      unfold pending. destruct s; ch_cases E1; simpl; lia.
    + congruence.
Qed.

(** A size that a further byte extends is not too large. *)
Lemma feeds_size l c bs st d :
  ch_wf l -> feeds l (c :: bs) = (st, d) -> st <> Bad -> l.2 <= NGX_MAX_OFF_T_VALUE / 16.
Proof.
  intros (_ & [Hs|?] & _) Hf Hst; [|done]. destruct l as [s size]. simpl in Hs |- *. subst s.
  destruct (Z.le_gt_cases size (NGX_MAX_OFF_T_VALUE / 16)) as [?|Hgt]; [done|].
  destruct Hst. simpl in Hf. unfold feed in Hf. simpl in Hf. unfold on_chunk_size in Hf.
  rewrite (proj2 (Z.ltb_lt _ size)) in Hf by lia. by injection Hf as <- <-.
Qed.

(** The reader, on a chain of buffers that are not empty. *)
Lemma chain_feeds max segs : forall rb st d,
  segs <> [] -> Forall (fun s => s <> []) segs -> Forall is_byte (concat segs) ->
  ch_wf (ch_view (rb_chunked rb)) ->
  feeds (ch_view (rb_chunked rb)) (concat segs) = (st, d) ->
  stat_ok st -> stat_rest st = [] -> within max (rb_content_length_n rb) st d ->
  exists rb', chunked_chain max rb segs = Some (RbOk rb' (Buf 0 0)) /\ body_step rb rb' st d.
Proof.
  induction segs as [|s segs IH]; intros rb st d Hne Hs Hb Hwf Hf Hok Hrest Hw; [done|].
  inversion Hs as [|? ? Hs1 Hs2]; subst. simpl in Hb. apply Forall_app in Hb as [Hb1 Hb2].
  cbn [concat] in Hf. rewrite feeds_app in Hf.
  destruct (feeds (ch_view (rb_chunked rb)) s) as [st1 d1] eqn:E1.
  assert (Hcase : segs = [] \/ exists c rest, concat segs = c :: rest).
  { destruct segs as [|[|c s'] segs']; [by left| |right; simpl; eauto].
    by inversion Hs2. }
  assert (Hsolve : stat_ok st1 /\ within max (rb_content_length_n rb) st1 d1 /\
    exists d2, d = d1 ++ d2 /\ (segs = [] -> st = st1 /\ d2 = []) /\
     (segs <> [] -> exists l1, st1 = More l1 /\ feeds l1 (concat segs) = (st, d2))).
  { destruct Hcase as [-> |(c & rest & Hc)].
    - simpl in Hf. assert (st = st1 /\ d = d1) as [-> ->].
      { destruct st1; simpl in Hf; rewrite ?app_nil_r in Hf; by simplify_eq. }
      split_and!; [done|done|]. exists []. by rewrite app_nil_r.
    - destruct st1 as [l1|r|]; [|simplify_eq; simpl in Hrest; rewrite Hc in Hrest; by destruct r
        |by simplify_eq].
      destruct (feeds l1 (concat segs)) as [st2 d2] eqn:E2. simplify_eq.
      assert (Hwf1 : ch_wf l1) by eauto using feeds_wf.
      assert (Hnb : st <> Bad) by (by intros ->).
      pose proof (feeds_pending_le _ _ _ _ Hb2 Hwf1 E2 Hnb).
      split_and!.
      + rewrite Hc in E2. apply feeds_size in E2; [|done|done]. simpl.
        rewrite MAX_div_16 in E2. rewrite MAX_value. lia.
      + destruct Hw as [?|Hw]; [by left|right]. rewrite length_app in Hw. lia.
      + exists d2. split; [done|]. split; [by intros ->|]. eauto. }
  destruct Hsolve as (Hok1 & Hw1 & d2 & -> & Hnil & Hcons).
  destruct (buf_loop_feeds max (load 1 s) s (2 + length s) rb 1 st1 d1) as (rb1 & Hr & Hst);
    try done; [intros; by apply load_is_byte|apply holds_load|lia|].
  cbn [chunked_chain]. rewrite Hr. destruct Hst as (H1 & H2 & H3).
  destruct segs as [|s' segs].
  - destruct Hnil as [-> ->]; [done|]. exists rb1. rewrite app_nil_r. by split.
  - destruct Hcons as (l1 & -> & Hf2); [done|]. destruct H3 as (Hv & Hl & _).
    destruct (IH rb1 st d2) as (rb' & Hr' & Hst'); try done.
    + rewrite Hv. eauto using feeds_wf.
    + by rewrite Hv.
    + rewrite H1. eapply within_shift; [exact Hw|done].
    + exists rb'. split; [done|]. destruct Hst' as (G1 & G2 & G3).
      split_and!; [rewrite length_app; lia|by rewrite G2, H2, app_assoc|].
      destruct st; [|done|done]. by rewrite <- Hl.
Qed.

(** ** What the writer produces *)

Lemma feed_size_digit v c d :
  hex_digit c = Some d -> v <= NGX_MAX_OFF_T_VALUE / 16 ->
  feed (sw_chunk_size, v) c = FMore (sw_chunk_size, v * 16 + d) [].
Proof.
  intros Hd Hv. unfold feed. simpl. unfold on_chunk_size, ch_is_digit, ch_is_xdigit, lower.
  rewrite (proj2 (Z.ltb_ge _ v)) by done.
  unfold hex_digit, is_digit in Hd.
  destruct (_ && _); [by injection Hd as <-|]. destruct (_ && _); [by injection Hd as <-|done].
Qed.

Lemma feed_start_digit z c d :
  hex_digit c = Some d -> feed (sw_chunk_start, z) c = FMore (sw_chunk_size, d) [].
Proof.
  intros Hd. unfold feed. simpl. unfold on_chunk_start, ch_is_digit, ch_is_xdigit, lower.
  unfold hex_digit, is_digit in Hd.
  destruct (_ && _); [by injection Hd as <-|]. destruct (_ && _); [by injection Hd as <-|done].
Qed.

Lemma feeds_digits l n v :
  0 <= v -> pos_value 16 hex_digit v l = Some n -> n <= NGX_MAX_OFF_T_VALUE / 16 ->
  feeds (sw_chunk_size, v) l = (More (sw_chunk_size, n), []).
Proof.
  revert v. induction l as [|c l IH]; intros v Hv Hl Hn; [by simplify_eq/=|].
  cbn [feeds]. simpl in Hl. destruct (hex_digit c) as [d|] eqn:E; [|done]. simpl in Hl.
  pose proof (hex_digit_range _ _ E).
  assert (0 <= v * 16 + d) as Hv' by lia.
  pose proof (pos_value_mono 16 hex_digit _ _ _ ltac:(lia) hex_digit_range Hv' Hl).
  rewrite (feed_size_digit v c d) by (done || lia).
  by rewrite (IH (v * 16 + d)) by (done || lia).
Qed.

Lemma feeds_chunk z digits data :
  pos_value 16 hex_digit 0 digits = Some (Z.of_nat (length data)) -> digits <> [] ->
  0 < Z.of_nat (length data) <= NGX_MAX_OFF_T_VALUE / 16 ->
  feeds (sw_chunk_start, z) ((digits ++ CRLF) ++ data ++ CRLF)
  = (More (sw_chunk_start, 0), data).
Proof.
  set (n := Z.of_nat (length data)). intros Hv Hne Hn.
  assert (feeds (sw_chunk_start, z) digits = (More (sw_chunk_size, n), [])) as Hd.
  { destruct digits as [|c l]; [done|]. simpl in Hv.
    destruct (hex_digit c) as [d|] eqn:E; [|done]. simpl in Hv.
    pose proof (hex_digit_range _ _ E). cbn [feeds]. rewrite (feed_start_digit z c d) by done.
    by rewrite (feeds_digits l n d) by (done || lia). }
  assert (feeds (sw_chunk_size, n) CRLF = (More (sw_chunk_data, n), [])) as Hc.
  { cbn [feeds CRLF]. unfold feed. simpl. unfold on_chunk_size, ch_is_digit, ch_is_xdigit, lower.
    rewrite (proj2 (Z.ltb_ge _ n)) by lia. simpl. by rewrite (proj2 (Z.eqb_neq n 0)) by lia. }
  rewrite 2!feeds_app, Hd, Hc. rewrite feeds_app, feeds_data by lia. fold n.
  rewrite Z.ltb_irrefl, Z.eqb_refl, Z.sub_diag. simpl. by rewrite app_nil_r.
Qed.

Lemma feeds_last z :
  feeds (sw_chunk_start, z) (bytes "0" ++ CRLF ++ CRLF) = (Done [], []).
Proof. done. Qed.

Definition odata (in_ : list obuf) : list Z := concat (ob_data <$> in_).
Definition olast (in_ : list obuf) : bool :=
  match list.last in_ with Some b => ob_last b | None => false end.

Lemma chunked_collect_spec in_ :
  Forall obuf_ok in_ ->
  exists out, chunked_collect in_ = (Z.of_nat (length (odata in_)), out, olast in_) /\
    concat out = odata in_.
Proof.
  induction 1 as [|b in_ Hb Hin (out & IH & Ho)]; [by exists []|].
  cbn [chunked_collect]. rewrite IH.
  exists (if ob_passed b then ob_data b :: out else out). split.
  - unfold odata. cbn [fmap list_fmap concat]. rewrite length_app, Nat2Z.inj_add.
    do 2 f_equal. unfold olast. by destruct in_.
  - unfold odata in *. simpl. destruct (ob_passed b) eqn:E; simpl; [by rewrite Ho|].
    by rewrite Hb, Ho by done.
Qed.

(** One call of the writer, as the reader sees it. *)
Lemma body_filter_feeds in_ z :
  Forall obuf_ok in_ -> Z.of_nat (length (odata in_)) <= NGX_MAX_OFF_T_VALUE / 16 ->
  exists w, ngx_http_chunked_body_filter in_ = Some w /\
    exists z', feeds (sw_chunk_start, z) (concat w) =
      (if olast in_ then Done [] else More (sw_chunk_start, z'), odata in_).
Proof.
  intros Hok Hn. unfold ngx_http_chunked_body_filter.
  destruct (chunked_collect_spec _ Hok) as (out & -> & Ho).
  destruct (Z.eqb_spec (Z.of_nat (length (odata in_))) 0) as [E|E].
  - simpl. eexists. split; [done|]. exists z.
    assert (odata in_ = []) as Hnil by (apply nil_length_inv; lia).
    rewrite E. simpl. rewrite concat_app, Ho, Hnil. simpl.
    by destruct (olast in_).
  - destruct (num_digits_spec (Z.of_nat (length (odata in_))) 1) as (ds & Hd & Hne & Hl & Hv).
    { rewrite MAX_div_16 in Hn. lia. }
    unfold ngx_sprintf_num. rewrite Hd. cbn [mbind option_bind].
    replace (Z.to_nat (Z.min (0 - Z.of_nat (length ds)) (2 ^ 64 - 1))) with O by lia.
    cbn [replicate app length]. rewrite take_ge by (unfold NGX_INT64_LEN in *; case_match; lia).
    eexists. split; [done|]. exists 0. simpl.
    rewrite (proj2 (Z.ltb_lt 0 _)) by lia.
    pose proof (feeds_chunk z ds (odata in_) Hv Hne ltac:(lia)) as Hc.
    destruct (olast in_); rewrite concat_app, Ho; cbn [concat]; rewrite app_nil_r; [|done].
    trans (feeds (sw_chunk_start, z)
      (((ds ++ CRLF) ++ odata in_ ++ CRLF) ++ bytes "0" ++ CRLF ++ CRLF));
      [f_equal; by rewrite <- !app_assoc|].
    rewrite feeds_app, Hc, feeds_last. by rewrite app_nil_r.
Qed.

(** All calls of the writer for one response, the last of them ending it. *)
Lemma body_filters_feeds calls lastcall z :
  Forall (Forall obuf_ok) (calls ++ [lastcall]) ->
  Forall (fun c => Z.of_nat (length (odata c)) <= NGX_MAX_OFF_T_VALUE / 16) (calls ++ [lastcall]) ->
  Forall (fun c => olast c = false) calls -> olast lastcall = true ->
  exists ws, mapM ngx_http_chunked_body_filter (calls ++ [lastcall]) = Some ws /\
    feeds (sw_chunk_start, z) (concat ((@concat Z) <$> ws)) =
      (Done [], concat (odata <$> calls ++ [lastcall])).
Proof.
  intros Hok Hsz Hnl Hl. revert z Hok Hsz. induction Hnl as [|c calls Hc Hnl IH]; intros z Hok Hsz.
  - inversion Hok; inversion Hsz; subst.
    destruct (body_filter_feeds lastcall z) as (w & Hw & z' & Hf); [done|done|].
    rewrite Hl in Hf. exists [w]. simpl. rewrite Hw. split; [done|]. simpl.
    by rewrite !app_nil_r.
  - inversion Hok; inversion Hsz; subst.
    destruct (body_filter_feeds c z) as (w & Hw & z' & Hf); [done|done|]. rewrite Hc in Hf.
    destruct (IH z') as (ws & Hws & Hfs); [done|done|].
    exists (w :: ws). split.
    + cbn [app mapM]. rewrite Hw. simpl. by rewrite Hws.
    + cbn [fmap list_fmap concat app]. rewrite feeds_app, Hf. by rewrite Hfs.
Qed.

(** C1. Chunked bodies round trip.  A response body handed to the writer in
    any number of calls, each with any buffers and the last one with
    [last_buf], is framed so that the reader, given the framed bytes cut into
    arbitrary non-empty buffers, finds exactly the bytes of the body, its
    length in [content_length_n], and the end of the body. *)
Theorem chunked_roundtrip calls lastcall max :
  Forall (Forall obuf_ok) (calls ++ [lastcall]) ->
  Forall (fun c => Z.of_nat (length (odata c)) <= NGX_MAX_OFF_T_VALUE / 16) (calls ++ [lastcall]) ->
  Forall (fun c => olast c = false) calls -> olast lastcall = true ->
  let data := concat (odata <$> calls ++ [lastcall]) in
  max = 0 \/ Z.of_nat (length data) <= max ->
  exists ws, mapM ngx_http_chunked_body_filter (calls ++ [lastcall]) = Some ws /\
    forall segs, concat segs = concat ((@concat Z) <$> ws) ->
      Forall is_byte (concat segs) -> Forall (fun s => s <> []) segs ->
      exists rb, ngx_http_request_body_chunked_filter max rbody_init segs
          = Some (RbOk rb (Buf 0 0)) /\
        concat (rb_out rb) = data /\ rb_last rb = true /\ rb_rest rb = 0 /\
        rb_content_length_n rb = Z.of_nat (length data).
Proof.
  intros Hok Hsz Hnl Hl data Hmax.
  destruct (body_filters_feeds calls lastcall 0 Hok Hsz Hnl Hl) as (ws & Hws & Hf).
  exists ws. split; [done|]. intros segs Hc Hb Hne. rewrite <- Hc in Hf. fold data in Hf.
  destruct (chain_feeds max segs (Rbody 3 chunked_init 0 [] false) (Done []) data)
    as (rb & Hr & H1 & H2 & H3); try done.
  - intros ->. done.
  - unfold ch_wf, NGX_MAX_OFF_T_VALUE. simpl. split_and!; [lia|lia|right; vm_compute; discriminate|done].
  - unfold within. simpl. destruct Hmax; [by left|right; lia].
  - exists rb. unfold ngx_http_request_body_chunked_filter, rbody_init. simpl.
    split; [done|]. simpl in *. by destruct H3.
Qed.

Lemma chunked_roundtrip_witness :
  let calls := [[Obuf (bytes "Hello, ") true false; Obuf [] true false]] in
  let lastcall := [Obuf (bytes "world") true true] in
  exists ws, mapM ngx_http_chunked_body_filter (calls ++ [lastcall]) = Some ws /\
    forall segs, concat segs = concat ((@concat Z) <$> ws) ->
      Forall is_byte (concat segs) -> Forall (fun s => s <> []) segs ->
      exists rb, ngx_http_request_body_chunked_filter 20 rbody_init segs
          = Some (RbOk rb (Buf 0 0)) /\
        concat (rb_out rb) = bytes "Hello, world" /\ rb_last rb = true /\ rb_rest rb = 0 /\
        rb_content_length_n rb = 12.
Proof.
  apply (chunked_roundtrip [[Obuf (bytes "Hello, ") true false; Obuf [] true false]]
    [Obuf (bytes "world") true true] 20).
  - repeat constructor; done.
  - repeat constructor; vm_compute; discriminate.
  - repeat constructor.
  - reflexivity.
  - right. vm_compute. discriminate.
Defined.
