(* ===== verification/HttpRange.v ===== *)
(** * HttpRange: byte ranges, the header filter

    [ngx_http_range_header_filter] of http/modules/ngx_http_range_filter_module.c
    with the parser of the Range header, the response headers of one and of
    several ranges, and [ngx_strncasecmp].  A header value is the list of its
    bytes; the NUL that ends it in memory is read at the end of the list.
    Allocation does not fail. *)

From S2P Require Import Prelude NgxHashKey NgxNumber NgxSprintf NgxTimes NgxParseTime NgxHttpTime.

(** ** Data *)

Definition NGX_HTTP_VERSION_10 : Z := 1000.
Definition NGX_HTTP_OK : Z := 200.
Definition NGX_HTTP_PARTIAL_CONTENT : Z := 206.
Definition NGX_HTTP_RANGE_NOT_SATISFIABLE : Z := 416.
Definition NGX_MAX_OFF_T_VALUE : Z := 2 ^ 63 - 1.

(* http/modules/ngx_http_range_filter_module.c:48-52 ngx_http_range_t *)
Record range : Type := Range { r_start : Z; r_end : Z; r_content_range : list Z }.

(* http/modules/ngx_http_range_filter_module.c:55-59 ngx_http_range_filter_ctx_t *)
Record ctx : Type := Ctx {
  offset : Z;
  boundary_header : list Z;
  ranges : list range
}.

(** What the filter reads and writes of a request: [range_in], [if_range] are
    values of [r->headers_in]; the fields from [status] on are those of
    [r->headers_out].  [etag], [content_length], [content_range] and
    [accept_ranges] are pointers to elements of the list of headers, here the
    values of these; [single_part_ranges] is the configured [max_ranges]. *)
Record request : Type := Request {
  is_main : bool;
  http_version : Z;
  subrequest_ranges : bool;
  allow_ranges : bool;
  single_range : bool;
  max_ranges : Z;
  range_in : option (list Z);
  if_range : option (list Z);
  status : Z;
  status_line : list Z;
  etag : option (list Z);
  last_modified_time : Z;
  content_length_n : Z;
  content_length : option (list Z);
  content_offset : Z;
  content_type : list Z;
  content_type_len : Z;
  content_type_lowcase : option (list Z);
  charset : list Z;
  content_range : option (list Z);
  accept_ranges : option (list Z)
}.

Definition eta_request (x : request) : request :=
  Request (is_main x) (http_version x) (subrequest_ranges x) (allow_ranges x) (single_range x)
    (max_ranges x) (range_in x) (if_range x) (status x) (status_line x) (etag x)
    (last_modified_time x) (content_length_n x) (content_length x) (content_offset x)
    (content_type x) (content_type_len x) (content_type_lowcase x) (charset x)
    (content_range x) (accept_ranges x).
Definition set_status := ltac:(setter eta_request status).
Definition set_status_line := ltac:(setter eta_request status_line).
Definition set_content_length_n := ltac:(setter eta_request content_length_n).
Definition set_content_length := ltac:(setter eta_request content_length).
Definition set_content_offset := ltac:(setter eta_request content_offset).
Definition set_content_type := ltac:(setter eta_request content_type).
Definition set_content_type_len := ltac:(setter eta_request content_type_len).
Definition set_content_type_lowcase := ltac:(setter eta_request content_type_lowcase).
Definition set_charset := ltac:(setter eta_request charset).
Definition set_content_range := ltac:(setter eta_request content_range).
Definition set_accept_ranges := ltac:(setter eta_request accept_ranges).

(** ** The parser *)

(** The byte [*p]: the NUL behind the value at its end. *)
Definition peek (p : list Z) : Z := hd 0 p.

(** [while ( *p == ' ') { p++; }] *)
Fixpoint spaces (p : list Z) : list Z :=
  match p with
  | c :: p' => if c =? $ " " then spaces p' else p
  | [] => []
  end.

Definition cutoff : Z := NGX_MAX_OFF_T_VALUE / 10.
Definition cutlim : Z := NGX_MAX_OFF_T_VALUE `mod` 10.

(** A number, [None] where 416 is returned. *)
(* http/modules/ngx_http_range_filter_module.c:313-319 ngx_http_range_parse: start *)
Fixpoint digits (n : Z) (p : list Z) : option (Z * list Z) :=
  match p with
  | c :: p' =>
      if is_digit c then
        if (cutoff <=? n) && ((cutoff <? n) || (cutlim <? c - $ "0")) then None
        else digits (s64 (n * 10 + c - $ "0")) p'
      else Some (n, p)
  | [] => Some (n, [])
  end.

(** The end of a range, from its first digit on to the label [found]. *)
(* http/modules/ngx_http_range_filter_module.c:339-367 ngx_http_range_parse: end *)
Definition range_end (clen : Z) (suffix : bool) (start : Z) (p : list Z)
  : option (Z * Z * list Z) :=
  if negb (is_digit (peek p)) then None
  else
    '(end_, p) ← digits 0 p;
    let p := spaces p in
    if negb (peek p =? $ ",") && negb (peek p =? 0) then None
    else
      let '(start, end_) :=
        if suffix then (s64 (clen - end_), s64 (clen - 1)) else (start, end_) in
      Some (start, if clen <=? end_ then clen else end_ + 1, p).

(** One range up to the label [found]: its start and end, and the rest. *)
(* http/modules/ngx_http_range_filter_module.c:302-367 ngx_http_range_parse: for *)
Definition range_spec (clen : Z) (p : list Z) : option (Z * Z * list Z) :=
  let p := spaces p in
  if negb (peek p =? $ "-") then
    if negb (is_digit (peek p)) then None
    else
      '(start, p) ← digits 0 p;
      let p := spaces p in
      if negb (peek p =? $ "-") then None
      else
        let p := spaces (tail p) in
        if (peek p =? $ ",") || (peek p =? 0) then Some (start, clen, p)
        else range_end clen false start p
  else range_end clen true 0 (tail p).

(** The loop: the code and the ranges pushed.  [fuel] bounds the number of
    ranges, of which each takes at least one byte; [None]: it did not do. *)
(* http/modules/ngx_http_range_filter_module.c:301-398 ngx_http_range_parse: for *)
Fixpoint range_loop (fuel : nat) (clen : Z) (rs : list range) (size ranges : Z) (p : list Z)
  : option (Z * list range) :=
  match fuel with
  | O => None
  | S fuel =>
      match range_spec clen p with
      | None => Some (NGX_HTTP_RANGE_NOT_SATISFIABLE, rs)
      | Some (start, end_, p) =>
          let next rs size ranges :=
            if peek p =? $ "," then range_loop fuel clen rs size ranges (tail p)
            else if match rs with [] => true | _ => false end
            then Some (NGX_HTTP_RANGE_NOT_SATISFIABLE, rs)
            else if clen <? size then Some (NGX_DECLINED, rs)
            else Some (NGX_OK, rs) in
          if start <? end_ then
            let rs := rs ++ [Range start end_ []] in
            let size := s64 (size + s64 (end_ - start)) in
            if ranges =? 0 then Some (NGX_DECLINED, rs)
            else next rs size (u64 (ranges - 1))
          else next rs size ranges
      end
  end.

(** [value] is the Range header, [mctx] the context of the main request. *)
(* http/modules/ngx_http_range_filter_module.c:268-401 ngx_http_range_parse *)
Definition ngx_http_range_parse (r : request) (mctx : option ctx) (value : list Z) (max : Z)
  : option (Z * list range) :=
  match (if is_main r then None else mctx) with
  | Some m => Some (NGX_OK, ranges m)
  | None =>
      let p := drop 6 value in
      range_loop (S (length p)) (content_length_n r) [] 0 max p
  end.

(** ** The response headers *)

(** What the filter ends with: the header filter after it is called with the
    request, whose context is set, or 416 is returned. *)
Inductive outcome : Type :=
  | Next (r : request) (c : option ctx)
  | NotSatisfiable (r : request).

Section Headers.
(** The address of the blocks that are printed to, the number that
    [ngx_next_temp_number] returns. *)
Context (buf boundary : Z).

(* http/modules/ngx_http_range_filter_module.c:404-450 ngx_http_range_singlepart_header *)
Definition ngx_http_range_singlepart_header (r : request) (c : ctx) : option outcome :=
  if negb (is_main r) then Some (Next r (Some c))
  else
    let range := nth 0 (ranges c) (Range 0 0 []) in
    value ← ngx_sprintf buf (bytes "bytes %O-%O/%O")
              [Aint (r_start range); Aint (s64 (r_end range - 1)); Aint (content_length_n r)];
    let r := set_content_range (Some value) r in
    let r := set_content_length_n (s64 (r_end range - r_start range)) r in
    let r := set_content_offset (r_start range) r in
    Some (Next (set_content_length None r) (Some c)).

Definition CRLF : list Z := [CR; LF].

(** "SSSS-EEEE/TTTT" CRLF CRLF for every range, and what they add to [len]. *)
(* http/modules/ngx_http_range_filter_module.c:544-564 ngx_http_range_multipart_header: for *)
Fixpoint content_ranges (clen header_len len : Z) (rs : list range) : option (Z * list range) :=
  match rs with
  | [] => Some (len, [])
  | range :: rs =>
      value ← ngx_sprintf buf (bytes "%O-%O/%O" ++ CRLF ++ CRLF)
                [Aint (r_start range); Aint (s64 (r_end range - 1)); Aint clen];
      '(len, rs) ← content_ranges clen header_len
                     (u64 (len + (header_len + Z.of_nat (length value) + u64 (s64 (r_end range - r_start range))))) rs;
      Some (len, Range (r_start range) (r_end range) value :: rs)
  end.

(** The boundary header of the ranges. *)
(* http/modules/ngx_http_range_filter_module.c:488-515 ngx_http_range_multipart_header: boundary_header *)
Definition print_boundary (r : request) : option (list Z) :=
  if (content_type_len r =? Z.of_nat (length (content_type r)))
     && negb (Z.of_nat (length (charset r)) =? 0) then
    ngx_sprintf buf
      (CRLF ++ bytes "--%0muA" ++ CRLF ++ bytes "Content-Type: %V; charset=%V" ++ CRLF
       ++ bytes "Content-Range: bytes ")
      [Aint boundary; Astr (content_type r); Astr (charset r)]
  else if negb (Z.of_nat (length (content_type r)) =? 0) then
    ngx_sprintf buf
      (CRLF ++ bytes "--%0muA" ++ CRLF ++ bytes "Content-Type: %V" ++ CRLF
       ++ bytes "Content-Range: bytes ")
      [Aint boundary; Astr (content_type r)]
  else
    ngx_sprintf buf (CRLF ++ bytes "--%0muA" ++ CRLF ++ bytes "Content-Range: bytes ")
      [Aint boundary].

(* http/modules/ngx_http_range_filter_module.c:453-574 ngx_http_range_multipart_header *)
Definition ngx_http_range_multipart_header (r : request) (c : ctx) : option outcome :=
  header ← print_boundary r;
  type ← ngx_sprintf buf (bytes "multipart/byteranges; boundary=%0muA") [Aint boundary];
  let r := set_content_type_lowcase None r in
  let r := set_content_type type r in
  let r := set_content_type_len (Z.of_nat (length type)) r in
  let r := set_charset [] r in
  (* the last boundary CRLF "--0123456789--" CRLF *)
  let len := 4 + NGX_ATOMIC_T_LEN + 4 in
  '(len, rs) ← content_ranges (content_length_n r) (Z.of_nat (length header)) len (ranges c);
  let r := set_content_length_n (s64 len) r in
  Some (Next (set_content_length None r) (Some (Ctx (offset c) header rs))).

(* http/modules/ngx_http_range_filter_module.c:577-608 ngx_http_range_not_satisfiable *)
Definition ngx_http_range_not_satisfiable (r : request) : option outcome :=
  let r := set_status NGX_HTTP_RANGE_NOT_SATISFIABLE r in
  value ← ngx_sprintf buf (bytes "bytes */%O") [Aint (content_length_n r)];
  let r := set_content_range (Some value) r in
  Some (NotSatisfiable (set_content_length None (set_content_length_n (-1) r))).

(** ** The filter *)

(** Strings are compared up to [n] bytes; the NUL behind them is a byte. *)
(* core/ngx_string.c:596-622 ngx_strncasecmp *)
Fixpoint ngx_strncasecmp (s1 s2 : list Z) (n : nat) : Z :=
  match n with
  | O => 0
  | S n =>
      let c1 := ngx_tolower (hd 0 s1) in
      let c2 := ngx_tolower (hd 0 s2) in
      if c1 =? c2 then
        if negb (c1 =? 0) then ngx_strncasecmp (tail s1) (tail s2) n else 0
      else c1 - c2
  end.

(** strncmp of the C library, for equality. *)
Fixpoint strncmp_eq (s1 s2 : list Z) (n : nat) : bool :=
  match n with
  | O => true
  | S n => (hd 0 s1 =? hd 0 s2) && ((hd 0 s1 =? 0) || strncmp_eq (tail s1) (tail s2) n)
  end.

(** The conditions that lead to the label [parse]. *)
(* http/modules/ngx_http_range_filter_module.c:179-216 ngx_http_range_header_filter: If-Range *)
Definition if_range_ok (r : request) : bool :=
  match if_range r with
  | None => true
  | Some if_range =>
      if (2 <=? Z.of_nat (length if_range)) && (default 0 (last if_range) =? 34) then
        match etag r with
        | None => false
        | Some etag =>
            (Z.of_nat (length if_range) =? Z.of_nat (length etag))
            && strncmp_eq if_range etag (length etag)
        end
      else if last_modified_time r =? -1 then false
      else ngx_parse_http_time (load 1 if_range) 1 (Z.of_nat (length if_range))
             =? last_modified_time r
  end.

(* http/modules/ngx_http_range_filter_module.c:253-265 ngx_http_range_header_filter: next_filter *)
Definition next_filter (r : request) : option outcome :=
  Some (Next (set_accept_ranges (Some (bytes "bytes")) r) None).

(** [mctx]: the context of the main request, for a subrequest. *)
(* http/modules/ngx_http_range_filter_module.c:146-265 ngx_http_range_header_filter *)
Definition ngx_http_range_header_filter (r : request) (mctx : option ctx) : option outcome :=
  if (http_version r <? NGX_HTTP_VERSION_10)
     || negb (status r =? NGX_HTTP_OK)
     || (negb (is_main r) && negb (subrequest_ranges r))
     || (content_length_n r =? -1)
     || negb (allow_ranges r)
  then Some (Next r None)
  else if max_ranges r =? 0 then Some (Next r None)
  else
    match range_in r with
    | None => next_filter r
    | Some value =>
        if (Z.of_nat (length value) <? 7)
           || negb (ngx_strncasecmp value (bytes "bytes=") 6 =? 0)
        then next_filter r
        else if negb (if_range_ok r) then next_filter r
        else
          let max := if single_range r then 1 else max_ranges r in
          '(rc, rs) ← ngx_http_range_parse r mctx value max;
          if rc =? NGX_OK then
            let r := set_status_line [] (set_status NGX_HTTP_PARTIAL_CONTENT r) in
            let c := Ctx (content_offset r) [] rs in
            if Z.of_nat (length rs) =? 1 then ngx_http_range_singlepart_header r c
            else ngx_http_range_multipart_header r c
          else if rc =? NGX_HTTP_RANGE_NOT_SATISFIABLE then ngx_http_range_not_satisfiable r
          else next_filter r
    end.

End Headers.

Definition sample_request (range : string) : request :=
  Request true 1001 false true false 10 (Some (bytes range)) None 200 [] None 0 1000
    (Some (bytes "1000")) 0 (bytes "text/html") 9 None [] None None.

Example range_single_example :
  ngx_http_range_header_filter 4096 7 (sample_request "Bytes= 100 - 199 , 2000-") None
  = Some (Next
      (Request true 1001 false true false 10 (Some (bytes "Bytes= 100 - 199 , 2000-")) None 206 [] None 0 100
        None 100 (bytes "text/html") 9 None [] (Some (bytes "bytes 100-199/1000")) None)
      (Some (Ctx 0 [] [Range 100 200 []]))).
Proof. vm_compute. reflexivity. Qed.

Example range_multi_example :
  match ngx_http_range_header_filter 4096 7 (sample_request "bytes=0-9,-5") None with
  | Some (Next r (Some c)) =>
      (ranges c, content_length_n r, Z.of_nat (length (boundary_header c)))
      = ([Range 0 10 (bytes "0-9/1000" ++ CRLF ++ CRLF); Range 995 1000 (bytes "995-999/1000" ++ CRLF ++ CRLF)],
         215, 72)
  | _ => False
  end.
Proof. vm_compute. reflexivity. Qed.

(** ** Bounds of the parser *)

Definition off_t_max (n : Z) : Prop := 0 <= n <= NGX_MAX_OFF_T_VALUE.

Lemma digits_step n c :
  off_t_max n -> is_digit c = true ->
  (cutoff <=? n) && ((cutoff <? n) || (cutlim <? c - $ "0"))
    = negb (n * 10 + (c - $ "0") <=? NGX_MAX_OFF_T_VALUE).
Proof.
  unfold off_t_max, is_digit, cutoff, cutlim. intros Hn Hc.
  change (NGX_MAX_OFF_T_VALUE / 10) with 922337203685477580.
  change (NGX_MAX_OFF_T_VALUE `mod` 10) with 7.
  change NGX_MAX_OFF_T_VALUE with 9223372036854775807 in *.
  destruct (Z.leb_spec 922337203685477580 n), (Z.ltb_spec 922337203685477580 n),
    (Z.ltb_spec 7 (c - 48)), (Z.leb_spec (n * 10 + (c - 48)) 9223372036854775807); simpl; lia.
Qed.

Lemma s64_off_t n : off_t_max n -> s64 n = n.
Proof. intros H. apply s64_small. unfold off_t_max, NGX_MAX_OFF_T_VALUE in H. lia. Qed.

Lemma digits_read n ds rest :
  off_t_max n -> (forall v, pos_value 10 dec_digit n ds = Some v ->
  is_digit (peek rest) = false ->
  digits n (ds ++ rest) = if v <=? NGX_MAX_OFF_T_VALUE then Some (v, rest) else None).
Proof.
  revert n. induction ds as [|c ds IH]; intros n Hn v Hv Hr; simpl in *.
  - simplify_eq. rewrite (proj2 (Z.leb_le _ _)) by apply Hn.
    destruct rest as [|c rest]; [done|]. simpl in *. by rewrite Hr.
  - unfold dec_digit in Hv. destruct (is_digit c) eqn:Ec; [|done]. simpl in Hv.
    rewrite digits_step by done. 
    assert (0 <= c - 48 < 10) by (unfold is_digit in Ec; lia).
    destruct (Z.leb_spec (n * 10 + (c - 48)) NGX_MAX_OFF_T_VALUE); simpl.
    + replace (n * 10 + c - 48) with (n * 10 + (c - 48)) by lia.
      rewrite s64_off_t by (unfold off_t_max in *; lia). apply IH; [unfold off_t_max in *; lia|done|done].
    + pose proof (pos_value_mono 10 dec_digit (n * 10 + (c - 48)) ds v ltac:(lia) dec_digit_range ltac:(unfold off_t_max in Hn; lia) Hv).
      rewrite (proj2 (Z.leb_gt _ _)); [done|]. unfold off_t_max in *. nia.
Qed.

Lemma digits_bounds n p v q :
  off_t_max n -> digits n p = Some (v, q) ->
  off_t_max v /\ (length q <= length p)%nat /\ n <= v.
Proof.
  revert n. induction p as [|c p IH]; intros n Hn Hd; simpl in Hd; [by simplify_eq|].
  destruct (is_digit c) eqn:Ec; [|by simplify_eq].
  rewrite digits_step in Hd by done. 
  assert (0 <= c - 48 < 10) by (unfold is_digit in Ec; lia).
  destruct (Z.leb_spec (n * 10 + (c - 48)) NGX_MAX_OFF_T_VALUE); simpl in Hd; [|done].
  replace (n * 10 + c - 48) with (n * 10 + (c - 48)) in Hd by lia.
  assert (off_t_max (n * 10 + (c - 48))) by (unfold off_t_max in *; lia).
  rewrite s64_off_t in Hd by done. destruct (IH _ ltac:(done) Hd) as (?&?&?).
  unfold off_t_max in *. simpl. split_and!; try lia.
Qed.

Lemma spaces_length p : (length (spaces p) <= length p)%nat.
Proof. induction p as [|c p IH]; simpl; [done|]. case_match; simpl; lia. Qed.

(** What is known of a range that the parser pushes: it may start before the
    content, then it is a suffix. *)
Definition pushed (clen : Z) (s e : Z) : Prop :=
  - NGX_MAX_OFF_T_VALUE <= s /\ e <= clen /\ (s < 0 -> e = clen).

Lemma range_end_bounds clen suffix s p s' e q :
  off_t_max clen -> 0 <= s -> range_end clen suffix s p = Some (s', e, q) ->
  pushed clen s' e /\ (length q <= length p)%nat.
Proof.
  intros Hc Hs. unfold range_end. destruct (is_digit (peek p)); simpl; [|done].
  destruct (digits 0 p) as [[v p']|] eqn:Ed; simpl; [|done].
  destruct (digits_bounds 0 p v p' ltac:(unfold off_t_max, NGX_MAX_OFF_T_VALUE; lia) Ed) as (Hv & Hl & _).
  pose proof (spaces_length p'). destruct (_ && _); [done|].
  unfold pushed, off_t_max, NGX_MAX_OFF_T_VALUE in *.
  destruct suffix; intros H1; simplify_eq;
    rewrite ?(s64_small (clen - v)), ?(s64_small (clen - 1)) by lia;
    repeat match goal with |- context [?x <=? ?y] => destruct (Z.leb_spec x y) end; lia.
Qed.

Lemma range_spec_bounds clen p s e q :
  off_t_max clen -> range_spec clen p = Some (s, e, q) ->
  pushed clen s e /\ (length q <= length p)%nat.
Proof.
  intros Hc. unfold range_spec. pose proof (spaces_length p).
  assert (forall l : list Z, (length (tail l) <= length l)%nat) as Ht by (intros []; simpl; lia).
  destruct (negb (peek (spaces p) =? $ "-")).
  2: { intros Hr. pose proof (Ht (spaces p)). apply range_end_bounds in Hr; [|done|lia].
       split; [tauto|]. lia. }
  destruct (is_digit (peek (spaces p))); simpl; [|done].
  destruct (digits 0 (spaces p)) as [[v p']|] eqn:Ed; simpl; [|done].
  destruct (digits_bounds 0 _ v p' ltac:(unfold off_t_max, NGX_MAX_OFF_T_VALUE; lia) Ed) as (Hv & Hl & _).
  destruct (negb (peek (spaces p') =? $ "-")); [done|].
  pose proof (spaces_length p'). pose proof (Ht (spaces p')).
  pose proof (spaces_length (tail (spaces p'))).
  destruct (_ || _).
  - intros ?. simplify_eq. unfold pushed, off_t_max in *. split; [lia|lia].
  - intros Hr. apply range_end_bounds in Hr; [|done|apply Hv]. split; [tauto|lia].
Qed.

(** The bytes that ranges hold, without a bound. *)
Fixpoint total (rs : list range) : Z :=
  match rs with
  | [] => 0
  | r :: rs => r_end r - r_start r + total rs
  end.

Lemma total_app rs rs' : total (rs ++ rs') = total rs + total rs'.
Proof. induction rs as [|r rs IH]; simpl; lia. Qed.

Lemma s64_add a b : s64 (s64 a + s64 b) = s64 (a + b).
Proof.
  assert (forall z k, s64 (z + k * 2 ^ 64) = s64 z) as Hk.
  { intros z k. unfold s64. rewrite <- (Z.mod_add (z + 2 ^ 63) k (2 ^ 64)) by lia. do 2 f_equal. lia. }
  assert (forall z, s64 z = z + - ((z + 2 ^ 63) / 2 ^ 64) * 2 ^ 64) as Hz.
  { intros z. unfold s64. pose proof (Z.div_mod (z + 2 ^ 63) (2 ^ 64) ltac:(lia)). lia. }
  rewrite (Hz a), (Hz b).
  set (i := - ((a + 2 ^ 63) / 2 ^ 64)). set (j := - ((b + 2 ^ 63) / 2 ^ 64)).
  rewrite <- (Hk (a + b) (i + j)). f_equal. lia.
Qed.

Definition range_ok (clen : Z) (r : range) : Prop :=
  pushed clen (r_start r) (r_end r) /\ r_start r < r_end r.

(** A list of ranges that the parser accepts. *)
Definition accepted (clen : Z) (rs : list range) : Prop :=
  rs <> [] /\ Forall (range_ok clen) rs /\ s64 (total rs) <= clen.

Lemma peek_comma p : peek p = $ "," -> (length (tail p) < length p)%nat.
Proof. destruct p; simpl; [done|lia]. Qed.

Lemma range_loop_bounds fuel clen rs size ranges p :
  off_t_max clen -> (length p < fuel)%nat -> Forall (range_ok clen) rs -> size = s64 (total rs) ->
  0 <= ranges < 2 ^ 64 ->
  exists rc rs', range_loop fuel clen rs size ranges p = Some (rc, rs') /\
    (rc = NGX_OK \/ rc = NGX_DECLINED \/ rc = NGX_HTTP_RANGE_NOT_SATISFIABLE) /\
    (rc = NGX_OK -> accepted clen rs' /\ Z.of_nat (length rs') <= Z.of_nat (length rs) + ranges).
Proof.
  intros Hc. revert rs size ranges p. induction fuel as [|fuel IH]; intros rs size ranges p Hf Hrs Hsz Hr; [lia|].
  cbn [range_loop]. destruct (range_spec clen p) as [[[s e] q]|] eqn:Es; [|by eexists _, _; split_and!; eauto].
  destruct (range_spec_bounds _ _ _ _ _ Hc Es) as [Hp Hl].
  assert (forall rs size ranges k, Forall (range_ok clen) rs -> size = s64 (total rs) -> 0 <= ranges < 2 ^ 64 ->
    Z.of_nat (length rs) + ranges <= k ->
    exists rc rs', (if peek q =? $ "," then range_loop fuel clen rs size ranges (tail q)
       else if match rs with [] => true | _ => false end then Some (NGX_HTTP_RANGE_NOT_SATISFIABLE, rs)
       else if clen <? size then Some (NGX_DECLINED, rs) else Some (NGX_OK, rs)) = Some (rc, rs') /\
    (rc = NGX_OK \/ rc = NGX_DECLINED \/ rc = NGX_HTTP_RANGE_NOT_SATISFIABLE) /\
    (rc = NGX_OK -> accepted clen rs' /\ Z.of_nat (length rs') <= k)) as Hnext.
  { clear - IH Hf Hl. intros rs size ranges k Hrs Hsz Hr Hk. destruct (Z.eqb_spec (peek q) ($ ",")) as [Eq|].
    - apply peek_comma in Eq. destruct (IH rs size ranges (tail q) ltac:(lia) Hrs Hsz Hr) as (rc & rs' & ? & ? & H).
      exists rc, rs'. split_and!; [done|done|]. intros Hok. destruct (H Hok). split; [done|lia].
    - destruct rs as [|r rs]; [by eexists _, _; split_and!; eauto|].
      destruct (Z.ltb_spec clen size); eexists _, _; split_and!; eauto; [done|].
      intros _. split; [|simpl in *; lia]. split_and!; [done|done|lia]. }
  destruct (Z.ltb_spec s e) as [Hse|]; [|apply Hnext; [done..|lia]].
  destruct (Z.eqb_spec ranges 0); [by eexists _, _; split_and!; eauto|].
  unfold u64. rewrite Z.mod_small by lia.
  apply Hnext; [|rewrite total_app, Hsz; simpl; rewrite s64_add; f_equal; lia|lia|rewrite length_app; simpl; lia].
  apply Forall_app. split; [done|]. repeat constructor; simpl; apply Hp || done.
Qed.

(** If the numbers of bytes do not add up to 2^63, every range lies in the content. *)
Lemma accepted_in clen rs :
  off_t_max clen -> accepted clen rs -> total rs < 2 ^ 63 ->
  Forall (fun r => 0 <= r_start r < r_end r /\ r_end r <= clen) rs /\ total rs <= clen.
Proof.
  intros Hc (_ & Hrs & Hs) Ht.
  assert (forall rs, Forall (range_ok clen) rs -> 0 <= total rs) as Hpos.
  { clear. induction 1 as [|r rs [_ Hr] _ IH]; simpl; lia. }
  assert (total rs <= clen) as Hle.
  { pose proof (Hpos rs Hrs). rewrite s64_small in Hs; lia. }
  split; [|done]. clear Hs Ht. revert Hle. induction Hrs as [|r rs [(H1 & H2 & H3) H4] Hrs IH]; intros Hle; [constructor|].
  pose proof (Hpos rs Hrs). simpl in Hle. constructor; [|apply IH; unfold off_t_max in *; lia].
  destruct (Z.lt_ge_cases (r_start r) 0); [|lia]. specialize (H3 ltac:(done)). lia.
Qed.

(** C30. The parser always ends with one of three codes; the ranges it accepts are
    not empty, not more than [max], end in the content, and lie in it and
    are together not longer unless the sum of their lengths wraps around. *)
Theorem range_parse_bounds r value max :
  off_t_max (content_length_n r) -> 0 <= max < 2 ^ 64 ->
  exists rc rs, ngx_http_range_parse r None value max = Some (rc, rs) /\
    (rc = NGX_OK \/ rc = NGX_DECLINED \/ rc = NGX_HTTP_RANGE_NOT_SATISFIABLE) /\
    (rc = NGX_OK ->
      rs <> [] /\ Z.of_nat (length rs) <= max /\
      Forall (fun x => r_start x < r_end x <= content_length_n r) rs /\
      (total rs < 2 ^ 63 ->
       Forall (fun x => 0 <= r_start x) rs /\ total rs <= content_length_n r)).
Proof.
  intros Hc Hm. unfold ngx_http_range_parse. replace (if is_main r then None else None) with (@None ctx) by (by destruct (is_main r)).
  destruct (range_loop_bounds (S (length (drop 6 value))) (content_length_n r) [] 0 max (drop 6 value))
    as (rc & rs & -> & Hrc & Hok); [done|lia|done|by rewrite s64_small|done|].
  exists rc, rs. split_and!; [done|done|]. intros E. destruct (Hok E) as [Ha Hl]. pose proof Ha as (Hne & Hrs & _).
  split_and!; [done|simpl in Hl; lia| |].
  - eapply Forall_impl; [exact Hrs|]. intros x [(?&?&?) ?]. lia.
  - intros Ht. destruct (accepted_in _ _ Hc Ha Ht) as [Hin ?]. split; [|done].
    eapply Forall_impl; [exact Hin|]. intros x. simpl. lia.
Qed.

(** ** The ranges of RFC 7233 *)

Inductive byte_range : Type :=
  | From (first : Z)
  | FromTo (first last : Z)
  | Suffix (length : Z).

(** [ds] is a decimal notation of [n], which fits [off_t]. *)
Definition number (ds : list Z) (n : Z) : Prop :=
  ds <> [] /\ pos_value 10 dec_digit 0 ds = Some n /\ n <= NGX_MAX_OFF_T_VALUE.

Definition pad (i : nat) : list Z := replicate i ($ " ").

(** The notations of a range, with the spaces that the parser skips; RFC 7233
    has tabs and larger numbers, too. *)
Inductive spells : byte_range -> list Z -> Prop :=
  | spells_from i j k ds a : number ds a ->
      spells (From a) (pad i ++ ds ++ pad j ++ [$ "-"] ++ pad k)
  | spells_from_to i j k l ds a ds' b : number ds a -> number ds' b ->
      spells (FromTo a b) (pad i ++ ds ++ pad j ++ [$ "-"] ++ pad k ++ ds' ++ pad l)
  | spells_suffix i l ds n : number ds n ->
      spells (Suffix n) (pad i ++ [$ "-"] ++ ds ++ pad l).

(** The bytes of the content that a range selects: from the first component
    on, before the second. *)
Definition selects (clen : Z) (b : byte_range) : option (Z * Z) :=
  match b with
  | From a => if a <? clen then Some (a, clen) else None
  | FromTo a b => let e := Z.min (b + 1) clen in if a <? e then Some (a, e) else None
  | Suffix n => if 0 <? n then Some (Z.max 0 (clen - n), clen) else None
  end.

(** The bytes a range asks for: a suffix may be longer than the content. *)
Definition asked (clen : Z) (b : byte_range) : Z :=
  match b with
  | Suffix n => n
  | _ => match selects clen b with Some (s, e) => e - s | None => 0 end
  end.

Definition asked_all (clen : Z) (bs : list byte_range) : Z :=
  foldr (fun b n => asked clen b + n) 0 bs.

Lemma peek_cons c p : peek (c :: p) = c.
Proof. done. Qed.

Lemma spaces_pad i p : peek p <> $ " " -> spaces (pad i ++ p) = p.
Proof.
  intros Hp. induction i as [|i IH]; simpl; [|done].
  destruct p as [|c p]; [done|]. simpl in *. by rewrite (proj2 (Z.eqb_neq _ _)) by done.
Qed.

Lemma number_head ds n rest : number ds n -> is_digit (peek (ds ++ rest)) = true.
Proof.
  intros (Hne & Hv & _). destruct ds as [|c ds]; [done|]. simpl in *. unfold dec_digit in Hv.
  by destruct (is_digit c).
Qed.

Lemma digit_cases c : is_digit c = true -> c <> $ " " /\ c <> $ "-" /\ c <> $ "," /\ c <> 0.
Proof. unfold is_digit. lia. Qed.

Lemma number_digits ds n rest : number ds n -> is_digit (peek rest) = false ->
  digits 0 (ds ++ rest) = Some (n, rest) /\ off_t_max n.
Proof.
  intros (Hne & Hv & Hn) Hr. pose proof (pos_value_mono 10 dec_digit 0 ds n ltac:(lia) dec_digit_range ltac:(lia) Hv).
  rewrite (digits_read 0 ds rest) with (v := n); [|unfold off_t_max, NGX_MAX_OFF_T_VALUE; lia|done|done].
  rewrite (proj2 (Z.leb_le _ _)) by done. done.
Qed.

(** The end of a range specification. *)
Definition stops (rest : list Z) : Prop := peek rest = $ "," \/ peek rest = 0.

Lemma stops_space rest : stops rest -> peek rest <> $ " " /\ is_digit (peek rest) = false /\ (peek rest =? $ ",") || (peek rest =? 0) = true.
Proof. unfold stops, is_digit. lia. Qed.

Lemma pad_stops l rest : stops rest -> is_digit (peek (pad l ++ rest)) = false.
Proof. intros H. destruct l; simpl; [by apply stops_space|done]. Qed.

(** What the parser finds for the range [b]. *)
Definition finds (clen : Z) (b : byte_range) (s e : Z) : Prop :=
  if s <? e then selects clen b = Some (Z.max 0 s, e) /\ asked clen b = e - s
  else selects clen b = None /\ asked clen b = 0.

Lemma range_end_number clen suffix s ds n l rest :
  number ds n -> stops rest ->
  range_end clen suffix s (ds ++ pad l ++ rest)
  = Some (let s' := if suffix then s64 (clen - n) else s in
          let n := if suffix then s64 (clen - 1) else n in
          (s', if clen <=? n then clen else n + 1, rest)).
Proof.
  intros Hn Hr. unfold range_end. rewrite (number_head _ _ _ Hn). cbn [negb].
  destruct (number_digits ds n (pad l ++ rest) Hn (pad_stops _ _ Hr)) as [-> _]. cbn [mbind option_bind].
  destruct (stops_space rest Hr) as (Hs & _ & Ht). rewrite spaces_pad by done.
  rewrite <- negb_orb, Ht. by destruct suffix.
Qed.

Lemma range_spec_spells clen b t rest :
  off_t_max clen -> spells b t -> stops rest ->
  exists s e, range_spec clen (t ++ rest) = Some (s, e, rest) /\ finds clen b s e.
Proof.
  intros Hc Hb Hr. destruct (stops_space rest Hr) as (Hsp & Hd & Hend).
  assert (forall ds n r, number ds n -> peek (ds ++ r) <> $ " " /\ peek (ds ++ r) <> $ "-" /\
    peek (ds ++ r) <> $ "," /\ peek (ds ++ r) <> 0) as Hds.
  { intros ds n r Hn. by apply digit_cases, (number_head _ n). }
  assert (forall j r, is_digit (peek (pad j ++ $ "-" :: r)) = false) as Hm by (by intros []).
  unfold off_t_max, NGX_MAX_OFF_T_VALUE in Hc.
  destruct Hb as [i j k ds a Ha|i j k l ds a ds' b Ha Hb|i l ds n Hn]; unfold range_spec;
    rewrite <- !app_assoc; cbn [app].
  - destruct (Hds ds a (pad j ++ $ "-" :: pad k ++ rest) Ha) as (H1 & H2 & _).
    rewrite spaces_pad by done. rewrite (proj2 (Z.eqb_neq _ _) H2), (number_head _ a) by done. cbn [negb].
    destruct (number_digits ds a (pad j ++ $ "-" :: pad k ++ rest) Ha (Hm _ _)) as [-> Hav].
    cbn [mbind option_bind]. rewrite spaces_pad by done. rewrite peek_cons, Z.eqb_refl. cbn [negb tail].
    rewrite spaces_pad by done. rewrite Hend. eexists _, _. split; [done|].
    unfold finds, asked, selects, off_t_max in *. destruct (Z.ltb_spec a clen); [|done].
    rewrite Z.max_r by lia. done.
  - destruct (Hds ds a (pad j ++ $ "-" :: pad k ++ ds' ++ pad l ++ rest) Ha) as (H1 & H2 & _).
    rewrite spaces_pad by done. rewrite (proj2 (Z.eqb_neq _ _) H2), (number_head _ a) by done. cbn [negb].
    destruct (number_digits ds a (pad j ++ $ "-" :: pad k ++ ds' ++ pad l ++ rest) Ha (Hm _ _)) as [-> Hav].
    cbn [mbind option_bind]. rewrite spaces_pad by done. rewrite peek_cons, Z.eqb_refl. cbn [negb tail].
    destruct (Hds ds' b (pad l ++ rest) Hb) as (H3 & _ & H4 & H5). rewrite spaces_pad by done.
    rewrite (proj2 (Z.eqb_neq _ _) H4), (proj2 (Z.eqb_neq _ _) H5). cbn [orb].
    rewrite (range_end_number _ _ _ ds' b) by done. eexists _, _. split; [done|].
    destruct (number_digits ds' b (pad l ++ rest) Hb (pad_stops _ _ Hr)) as [_ Hbv].
    unfold finds, asked, selects, off_t_max in *.
    replace (Z.min (b + 1) clen) with (if clen <=? b then clen else b + 1) by (destruct (Z.leb_spec clen b); lia).
    destruct (Z.ltb_spec a (if clen <=? b then clen else b + 1)); [|done].
    rewrite Z.max_r by lia. done.
  - rewrite spaces_pad by done. rewrite peek_cons, Z.eqb_refl. cbn [negb tail].
    rewrite (range_end_number _ _ _ ds n) by done. eexists _, _. split; [done|].
    destruct (number_digits ds n (pad l ++ rest) Hn (pad_stops _ _ Hr)) as [_ Hnv].
    unfold off_t_max, NGX_MAX_OFF_T_VALUE in Hnv.
    rewrite !s64_small by lia. rewrite (proj2 (Z.leb_gt _ _)) by lia.
    replace (clen - 1 + 1) with clen by lia.
    unfold finds, asked, selects. destruct (Z.ltb_spec (clen - n) clen), (Z.ltb_spec 0 n); try lia; (split; [|lia]); done.
Qed.

(** Ranges separated by commas. *)
Fixpoint join (ts : list (list Z)) : list Z :=
  match ts with
  | [] => []
  | [t] => t
  | t :: ts => t ++ $ "," :: join ts
  end.

Definition to_range (x : Z * Z) : range := Range x.1 x.2 [].
Definition clipped (x : range) : range := Range (Z.max 0 (r_start x)) (r_end x) (r_content_range x).

(** The code for the ranges that are selected out of a content of [clen] bytes. *)
Definition reply (clen max size : Z) (sel : list (Z * Z)) : Z :=
  if max <? Z.of_nat (length sel) then NGX_DECLINED
  else if Z.of_nat (length sel) =? 0 then NGX_HTTP_RANGE_NOT_SATISFIABLE
  else if clen <? size then NGX_DECLINED
  else NGX_OK.

Lemma range_loop_spells fuel clen rs size ranges sel bs ts :
  off_t_max clen -> Forall2 spells bs ts -> bs <> [] -> (length (join ts) < fuel)%nat ->
  size = s64 (total rs) -> 0 <= ranges < 2 ^ 64 -> clipped <$> rs = to_range <$> sel ->
  exists rc rs', range_loop fuel clen rs size ranges (join ts) = Some (rc, rs') /\
    let all := sel ++ omap (selects clen) bs in
    rc = reply clen (Z.of_nat (length rs) + ranges) (s64 (total rs + asked_all clen bs)) all /\
    (rc = NGX_OK -> clipped <$> rs' = to_range <$> all /\ total rs' = total rs + asked_all clen bs).
Proof.
  intros Hc. revert rs size ranges sel bs ts.
  induction fuel as [|fuel IH]; intros rs size ranges sel bs ts Hbs Hne Hf Hsz Hr Hsel; [lia|].
  destruct Hbs as [|b t bs ts Hb Hbs]; [done|]. clear Hne.
  assert (length rs = length sel) as Hlen by (rewrite <- (length_fmap clipped rs), Hsel; apply length_fmap).
  set (rest := match ts with [] => [] | _ => $ "," :: join ts end).
  assert (join (t :: ts) = t ++ rest) as Hj by (subst rest; destruct ts; [by rewrite app_nil_r|done]).
  assert (stops rest) as Hst by (subst rest; destruct ts; [by right|by left]).
  rewrite Hj in *. destruct (range_spec_spells clen b t rest Hc Hb Hst) as (s & e & Es & Hfind).
  cbn [range_loop]. rewrite Es. clear Es Hb.
  assert (forall rs size ranges sel, size = s64 (total rs) -> 0 <= ranges < 2 ^ 64 ->
    length rs = length sel -> clipped <$> rs = to_range <$> sel ->
    exists rc rs', (if peek rest =? $ "," then range_loop fuel clen rs size ranges (tail rest)
       else if match rs with [] => true | _ => false end then Some (NGX_HTTP_RANGE_NOT_SATISFIABLE, rs)
       else if clen <? size then Some (NGX_DECLINED, rs) else Some (NGX_OK, rs)) = Some (rc, rs') /\
    let all := sel ++ omap (selects clen) bs in
    rc = reply clen (Z.of_nat (length rs) + ranges) (s64 (total rs + asked_all clen bs)) all /\
    (rc = NGX_OK -> clipped <$> rs' = to_range <$> all /\ total rs' = total rs + asked_all clen bs)) as Hnext.
  { clear - IH Hbs Hf. intros rs size ranges sel Hsz Hr Hlen Hsel. destruct Hbs as [|b' t' bs ts Hb' Hbs]; subst rest.
    - simpl. rewrite app_nil_r, Z.add_0_r, <- Hsz. unfold reply.
      rewrite (proj2 (Z.ltb_ge (Z.of_nat (length rs) + ranges) _)) by lia. rewrite <- Hlen.
      destruct rs as [|x rs]; [by eexists _, _|]. rewrite (proj2 (Z.eqb_neq _ _)) by (simpl; lia).
      destruct (clen <? size); by eexists _, _.
    - cbn [peek hd tail]. rewrite Z.eqb_refl. rewrite length_app in Hf. cbn [length] in Hf.
      apply (IH rs size ranges sel (b' :: bs) (t' :: ts)); try done; [by constructor|lia]. }
  unfold finds in Hfind. cbn [asked_all foldr omap list_omap]. destruct (Z.ltb_spec s e) as [Hse|]; destruct Hfind as [-> Ha].
  2: { rewrite Ha, Z.add_0_l. by apply Hnext. }
  destruct (Z.eqb_spec ranges 0) as [->|].
  { eexists _, _. split; [done|]. unfold reply. rewrite length_app. cbn [length].
    rewrite (proj2 (Z.ltb_lt _ _)) by lia. done. }
  unfold u64. rewrite Z.mod_small by lia.
  destruct (Hnext (rs ++ [Range s e []]) (s64 (size + s64 (e - s))) (ranges - 1) (sel ++ [(Z.max 0 s, e)]))
    as (rc & rs' & Hl & Hrc & Hok).
  - rewrite total_app, Hsz. simpl. rewrite s64_add. f_equal. lia.
  - lia.
  - rewrite !length_app. simpl. lia.
  - by rewrite !fmap_app, Hsel.
  - exists rc, rs'. rewrite total_app in *. rewrite <- app_assoc in *. simpl in *. split; [done|]. rewrite Ha.
    replace (total rs + (e - s + 0) + asked_all clen bs) with (total rs + (e - s + asked_all clen bs)) in * by lia.
    split; [|done]. rewrite Hrc. f_equal. rewrite length_app. simpl. lia.
Qed.

Lemma asked_all_nonneg clen bs ts : Forall2 spells bs ts -> 0 <= asked_all clen bs.
Proof.
  induction 1 as [|b t bs ts Hb _ IH]; simpl; [done|]. enough (0 <= asked clen b) by lia.
  destruct Hb as [i j k ds a _|i j k l ds a ds2 c _ _|i l ds n (_ & Hv & _)]; cbn [asked selects];
    [destruct (Z.ltb_spec a clen); lia|destruct (Z.ltb_spec a (Z.min (c + 1) clen)); lia|].
  pose proof (pos_value_mono 10 dec_digit 0 ds n ltac:(lia) dec_digit_range ltac:(lia) Hv). lia.
Qed.

(** A Range header in the notations of [spells], as long as the sizes do not
    add up to 2^63: the parser takes the ranges that select something, clipped
    to the content; it refuses the header if there is none, and ignores it if
    there are more than [max] or more bytes asked for than the content has. *)
Lemma range_parse_selects r pre bs ts max :
  length pre = 6%nat -> off_t_max (content_length_n r) -> 0 <= max < 2 ^ 64 -> bs <> [] -> Forall2 spells bs ts ->
  asked_all (content_length_n r) bs < 2 ^ 63 ->
  let sel := omap (selects (content_length_n r)) bs in
  let rc := reply (content_length_n r) max (asked_all (content_length_n r) bs) sel in
  exists rs, ngx_http_range_parse r None (pre ++ join ts) max = Some (rc, rs) /\
    (rc = NGX_OK -> rs = to_range <$> sel).
Proof.
  intros Hu Hc Hm Hne Hbs Ha sel rc. set (clen := content_length_n r) in *. unfold ngx_http_range_parse.
  replace (if is_main r then None else None) with (@None ctx) by (by destruct (is_main r)).
  rewrite (drop_app_length' pre) by done. fold clen.
  pose proof (asked_all_nonneg clen bs ts Hbs) as Hpos.
  destruct (range_loop_spells (S (length (join ts))) clen [] 0 max [] bs ts) as (rc' & rs & Hl & Hrc & Hok);
    [done..|lia|by rewrite s64_small|done|done|].
  destruct (range_loop_bounds (S (length (join ts))) clen [] 0 max (join ts)) as (rc'' & rs'' & Hl' & _ & Hok');
    [done|lia|done|by rewrite s64_small|done|].
  rewrite Hl in Hl'. injection Hl' as <- <-. cbn [app length fmap total] in *.
  rewrite !Z.add_0_l, s64_small in Hrc by lia. fold sel in Hrc, Hok.
  exists rs. rewrite Hl. subst rc. rewrite <- Hrc. split; [done|]. intros E.
  destruct (Hok E) as [Hr Ht]. destruct (Hok' E) as [Hacc _].
  destruct (accepted_in clen rs Hc Hacc ltac:(lia)) as [Hin _]. rewrite <- Hr.
  clear - Hin. induction Hin as [|[s e h] rs [Hs _] _ IH]; simpl; [done|]. f_equal; [|done].
  unfold clipped. simpl in *. by rewrite Z.max_r by lia.
Qed.

Lemma range_spec_suffix clen ds n rest :
  off_t_max clen -> number ds n -> stops rest ->
  range_spec clen (($ "-" :: ds) ++ rest) = Some (clen - n, clen, rest) /\ off_t_max n.
Proof.
  intros Hc Hn Hr. destruct (number_digits ds n (pad 0 ++ rest) Hn (pad_stops _ _ Hr)) as [_ Hnv].
  split; [|done]. unfold range_spec. cbn [app spaces peek hd negb Z.eqb Pos.eqb tail].
  pose proof (range_end_number clen true 0 ds n 0 rest Hn Hr) as He. cbn [pad replicate app] in He.
  rewrite He. unfold off_t_max, NGX_MAX_OFF_T_VALUE in *.
  rewrite !s64_small by lia. rewrite (proj2 (Z.leb_gt _ _)) by lia. do 3 f_equal. lia.
Qed.

(** Two suffixes of together 2^63 bytes are accepted for any content, although
    the first is longer than the content: the signed sum of the sizes wraps to
    a negative number, and the first range starts before the content. *)
Theorem range_parse_wraps r ds ds' n max :
  off_t_max (content_length_n r) -> content_length_n r < n -> 2 <= max < 2 ^ 64 ->
  number ds n -> number ds' (2 ^ 63 - n) ->
  let clen := content_length_n r in
  ngx_http_range_parse r None (bytes "bytes=" ++ join [$ "-" :: ds; $ "-" :: ds']) max
  = Some (NGX_OK, [Range (clen - n) clen []; Range (clen - (2 ^ 63 - n)) clen []]) /\ clen - n < 0.
Proof.
  intros Hc Hn Hm Hds Hds' clen. split; [|lia]. unfold ngx_http_range_parse. fold clen in Hc, Hn |- *.
  replace (if is_main r then None else None) with (@None ctx) by (by destruct (is_main r)).
  change (drop 6 _) with (join [$ "-" :: ds; $ "-" :: ds']). cbn [join].
  set (tl := $ "," :: $ "-" :: ds').
  destruct (range_spec_suffix clen ds n tl Hc Hds ltac:(by left)) as [H1 Hn1].
  destruct (range_spec_suffix clen ds' (2 ^ 63 - n) [] Hc Hds' ltac:(by right)) as [H2 Hn2].
  rewrite app_nil_r in H2. set (l := length _).
  assert (exists k, l = S k) as [k ->] by (subst l; simpl; eauto).
  unfold off_t_max, NGX_MAX_OFF_T_VALUE in *. cbn [range_loop]. rewrite H1.
  rewrite (proj2 (Z.ltb_lt (clen - n) clen)) by lia. rewrite (proj2 (Z.eqb_neq max 0)) by lia.
  subst tl. cbn [peek hd Z.eqb Pos.eqb tail app]. rewrite H2.
  rewrite (proj2 (Z.ltb_lt (clen - (2 ^ 63 - n)) clen)) by lia.
  unfold u64. rewrite (Z.mod_small (max - 1)) by lia.
  rewrite (proj2 (Z.eqb_neq (max - 1) 0)) by lia. cbn [peek hd Z.eqb app].
  rewrite (s64_small (clen - (clen - n))), (s64_small (clen - (clen - (2 ^ 63 - n)))) by lia.
  rewrite (s64_small (0 + (clen - (clen - n)))) by lia. replace (0 + (clen - (clen - n)) + (clen - (clen - (2 ^ 63 - n)))) with (2 ^ 63) by lia.
  change (s64 (2 ^ 63)) with (- 2 ^ 63). by rewrite (proj2 (Z.ltb_ge clen _)) by lia.
Qed.

(** 1500 and 2^63 - 1500 bytes from the end of 1000: the first range starts 500
    bytes before the content. *)
Lemma range_parse_wraps_witness :
  number (bytes "1500") 1500 /\ number (bytes "9223372036854774308") (2 ^ 63 - 1500) /\
  ngx_http_range_parse (sample_request "") None
    (bytes "bytes=" ++ join [$ "-" :: bytes "1500"; $ "-" :: bytes "9223372036854774308"]) 10
  = Some (NGX_OK, [Range (1000 - 1500) 1000 []; Range (1000 - (2 ^ 63 - 1500)) 1000 []]).
Proof.
  assert (number (bytes "1500") 1500) as H1 by (split_and!; [done|reflexivity|done]).
  assert (number (bytes "9223372036854774308") (2 ^ 63 - 1500)) as H2 by (split_and!; [done|reflexivity|done]).
  split; [exact H1|]. split; [exact H2|].
  apply (range_parse_wraps (sample_request "") (bytes "1500") (bytes "9223372036854774308") 1500 10);
    [split; done|done|done|exact H1|exact H2].
Defined.

Lemma range_parse_bounds_witness :
  off_t_max 1000 /\
  exists rc rs, ngx_http_range_parse (sample_request "") None (bytes "bytes=0-9,-5") 10 = Some (rc, rs) /\
    (rc = NGX_OK \/ rc = NGX_DECLINED \/ rc = NGX_HTTP_RANGE_NOT_SATISFIABLE) /\
    (rc = NGX_OK ->
      rs <> [] /\ Z.of_nat (length rs) <= 10 /\
      Forall (fun x => r_start x < r_end x <= 1000) rs /\
      (total rs < 2 ^ 63 -> Forall (fun x => 0 <= r_start x) rs /\ total rs <= 1000)).
Proof.
  split; [split; done|].
  apply (range_parse_bounds (sample_request "") (bytes "bytes=0-9,-5") 10); [split; done|done].
Defined.
