(* ===== verification/HttpRangeReply.v ===== *)
(** * HttpRangeReply: the headers of a partial response

    What the range header filter prints and announces for the ranges that the
    parser has taken. *)

From S2P Require Import Prelude NgxHashKey NgxNumber NgxSprintf NgxTimes NgxParseTime NgxHttpTime HttpRange.

(** ** Printing *)

(** The decimal digits of a number, and with its sign. *)
Definition dec (n : Z) : list Z := default [] (num_digits n 0).
Definition signed (z : Z) : list Z := if z <? 0 then $ "-" :: dec (- z) else dec z.

(** A number of [NGX_ATOMIC_T_LEN] digits. *)
Definition padded (n : Z) : list Z :=
  replicate (Z.to_nat (NGX_ATOMIC_T_LEN - Z.of_nat (length (dec n)))) ($ "0") ++ dec n.

Lemma dec_digits n : 0 <= n < 2 ^ 64 ->
  num_digits n 0 = Some (dec n) /\ (0 < length (dec n) <= 20)%nat /\ pos_value 10 dec_digit 0 (dec n) = Some n.
Proof.
  intros Hn. destruct (num_digits_spec n 0 Hn) as (l & Hl & Hne & Hlen & Hv). unfold dec. rewrite Hl.
  split; [done|]. unfold NGX_INT64_LEN in Hlen. simpl. split; [destruct l; [done|simpl in *; lia]|done].
Qed.

Lemma print_num n width zero room :
  0 <= n < 2 ^ 64 -> 0 <= width <= 20 -> 40 <= room ->
  num n zero 0 width room = Some (replicate (Z.to_nat (width - Z.of_nat (length (dec n)))) zero ++ dec n).
Proof.
  intros Hn Hw Hr. destruct (dec_digits n Hn) as (Hd & Hl & _). unfold num, ngx_sprintf_num. rewrite Hd.
  cbn [mbind option_bind]. rewrite length_replicate.
  rewrite (proj2 (Z.ltb_ge _ (Z.of_nat (length (dec n))))) by lia.
  rewrite take_ge by lia. do 3 f_equal. lia.
Qed.

Definition off_t (z : Z) : Prop := - 2 ^ 63 <= z < 2 ^ 63.

Lemma print_off z room :
  off_t z -> 50 <= room -> fmt_finish (Conv ($ " ") 0 true 0 false 0 SIZE_MAX) (s64 z) 0 room = Some (signed z).
Proof.
  intros Hz Hr. unfold off_t in Hz. rewrite s64_small by lia. unfold fmt_finish, signed. cbn [sign zero hexa width].
  assert (forall n, 0 <= n < 2 ^ 64 -> forall room, 40 <= room -> num n ($ " ") 0 0 room = Some (dec n)) as Hp.
  { intros n Hn ro Hro. rewrite print_num by (done || lia). by rewrite Z2Nat.nonpos by lia. }
  destruct (Z.ltb_spec z 0); [|by rewrite Hp by lia].
  unfold then_, put. cbn [mbind option_bind length]. unfold u64. rewrite Z.mod_small by lia.
  by rewrite Hp by lia.
Qed.

Lemma signed_length z : off_t z -> (0 < length (signed z) <= 21)%nat.
Proof.
  intros Hz. unfold off_t in Hz. unfold signed. destruct (Z.ltb_spec z 0).
  - destruct (dec_digits (- z) ltac:(lia)) as (_ & H1 & _). simpl. lia.
  - destruct (dec_digits z ltac:(lia)) as (_ & H1 & _). lia.
Qed.

Lemma print_boundary_number n room :
  0 <= n < 2 ^ 64 -> 40 <= room ->
  fmt_finish (Conv ($ "0") 20 false 0 true 0 SIZE_MAX) 0 (u64 n) room = Some (padded n).
Proof.
  intros Hn Hr. unfold fmt_finish. cbn [sign zero hexa width]. unfold u64. rewrite Z.mod_small by done.
  by rewrite print_num by (done || lia).
Qed.

Lemma padded_length n : 0 <= n < 2 ^ 64 -> length (padded n) = 20%nat.
Proof.
  intros Hn. destruct (dec_digits n Hn) as (_ & H & _). unfold padded, NGX_ATOMIC_T_LEN.
  rewrite length_app, length_replicate. lia.
Qed.

Lemma copy_all data room : Z.of_nat (length data) <= room -> copy (Z.of_nat (length data)) data room = Some data.
Proof.
  intros H. unfold copy. rewrite Z.ltb_irrefl. f_equal. apply take_ge. lia.
Qed.

Ltac run_range :=
  lazymatch goal with
  | |- vslprintf_loop _ [] _ _ = _ => apply run_end
  | |- vslprintf_loop _ (37 :: _) _ _ = _ => eapply run_directive; [lia|reflexivity|reflexivity|..]
  | |- vslprintf_loop _ (_ :: _) _ _ = _ => apply run_put; [lia|discriminate|]
  | |- copy _ _ _ = _ => apply copy_all; lia
  | |- fmt_finish _ (s64 _) _ _ = _ => apply print_off; [done|lia]
  | |- fmt_finish _ _ (u64 _) _ = _ => apply print_boundary_number; [done|lia]
  end; cbn [app].

Ltac run_sprintf fmt :=
  let f := fresh in set (f := fmt); vm_compute in f; subst f;
  unfold ngx_sprintf, ngx_vslprintf;
  repeat run_range.

(** [SSSS-EEEE/TTTT]. *)
Definition range_text (s e clen : Z) : list Z := signed s ++ $ "-" :: signed e ++ $ "/" :: signed clen.

Lemma sprintf_content_range buf s e clen :
  0 <= buf < 2 ^ 63 -> off_t s -> off_t e -> off_t clen ->
  ngx_sprintf buf (bytes "bytes %O-%O/%O") [Aint s; Aint e; Aint clen]
  = Some (bytes "bytes " ++ range_text s e clen).
Proof.
  intros Hb Hs He Hc. pose proof (signed_length s Hs). pose proof (signed_length e He). pose proof (signed_length clen Hc).
  rewrite <- (app_nil_r (range_text s e clen)). unfold range_text. rewrite <- !app_assoc. cbn [app]. rewrite <- !app_assoc. cbn [app].
  set (t := bytes "bytes "). vm_compute in t. subst t. cbn [app].
  set (fmt := bytes "bytes %O-%O/%O"). vm_compute in fmt. subst fmt.
  unfold ngx_sprintf, ngx_vslprintf. repeat run_range.
Qed.

Lemma sprintf_part buf s e clen :
  0 <= buf < 2 ^ 63 -> off_t s -> off_t e -> off_t clen ->
  ngx_sprintf buf (bytes "%O-%O/%O" ++ CRLF ++ CRLF) [Aint s; Aint e; Aint clen]
  = Some (range_text s e clen ++ CRLF ++ CRLF).
Proof.
  intros Hb Hs He Hc. pose proof (signed_length s Hs). pose proof (signed_length e He). pose proof (signed_length clen Hc).
  unfold range_text. rewrite <- !app_assoc. cbn [app]. rewrite <- !app_assoc. cbn [app].
  set (fmt := bytes "%O-%O/%O" ++ CRLF ++ CRLF). vm_compute in fmt. subst fmt.
  set (t := CRLF ++ CRLF). vm_compute in t. subst t.
  unfold ngx_sprintf, ngx_vslprintf. repeat run_range.
Qed.

Lemma sprintf_unsatisfied buf clen :
  0 <= buf < 2 ^ 63 -> off_t clen ->
  ngx_sprintf buf (bytes "bytes */%O") [Aint clen] = Some (bytes "bytes */" ++ signed clen).
Proof.
  intros Hb Hc. pose proof (signed_length clen Hc).
  rewrite <- (app_nil_r (signed clen)).
  set (t := bytes "bytes */"). vm_compute in t. subst t. cbn [app].
  set (fmt := bytes "bytes */%O"). vm_compute in fmt. subst fmt.
  unfold ngx_sprintf, ngx_vslprintf. repeat run_range.
Qed.

Lemma sprintf_type buf n :
  0 <= buf < 2 ^ 63 -> 0 <= n < 2 ^ 64 ->
  ngx_sprintf buf (bytes "multipart/byteranges; boundary=%0muA") [Aint n]
  = Some (bytes "multipart/byteranges; boundary=" ++ padded n).
Proof.
  intros Hb Hn. pose proof (padded_length n Hn).
  rewrite <- (app_nil_r (padded n)).
  set (t := bytes "multipart/byteranges; boundary="). vm_compute in t. subst t. cbn [app].
  set (fmt := bytes "multipart/byteranges; boundary=%0muA"). vm_compute in fmt. subst fmt.
  unfold ngx_sprintf, ngx_vslprintf. repeat run_range.
Qed.

(** The lines of a part of a multipart body, up to its range. *)
Definition type_line (r : request) : list Z :=
  if (content_type_len r =? Z.of_nat (length (content_type r))) && negb (Z.of_nat (length (charset r)) =? 0)
  then bytes "Content-Type: " ++ content_type r ++ bytes "; charset=" ++ charset r ++ CRLF
  else if negb (Z.of_nat (length (content_type r)) =? 0)
  then bytes "Content-Type: " ++ content_type r ++ CRLF else [].

Definition part_header (r : request) (n : Z) : list Z :=
  CRLF ++ bytes "--" ++ padded n ++ CRLF ++ type_line r ++ bytes "Content-Range: bytes ".

(** A request whose strings are not enormous. *)
Definition short_type (r : request) : Prop :=
  Z.of_nat (length (content_type r)) + Z.of_nat (length (charset r)) < 2 ^ 32.

Lemma print_boundary_text buf n r :
  0 <= buf < 2 ^ 63 -> 0 <= n < 2 ^ 64 -> short_type r ->
  print_boundary buf n r = Some (part_header r n).
Proof.
  intros Hb Hn Hr. unfold short_type in Hr. pose proof (padded_length n Hn).
  unfold print_boundary, part_header, type_line.
  destruct (_ && _); [|destruct (negb _)];
    rewrite <- ?app_assoc; cbn [app CRLF bytes];
    repeat match goal with |- context [char_code ?c] => let v := eval vm_compute in (char_code c) in change (char_code c) with v end;
    unfold CR, LF; unfold ngx_sprintf, ngx_vslprintf; repeat run_range.
Qed.

(** What the multipart body adds for one range. *)
Definition part_size (header_len clen : Z) (x : range) : Z :=
  header_len + Z.of_nat (length (range_text (r_start x) (r_end x - 1) clen ++ CRLF ++ CRLF))
  + (r_end x - r_start x).

Definition with_text (clen : Z) (x : range) : range :=
  Range (r_start x) (r_end x) (range_text (r_start x) (r_end x - 1) clen ++ CRLF ++ CRLF).

Definition parts_size (header_len clen : Z) (rs : list range) : Z :=
  foldr (fun x n => part_size header_len clen x + n) 0 rs.

(** Offsets that are not at the ends of their type. *)
Definition inner (x : range) : Prop := off_t (r_start x) /\ off_t (r_end x) /\ off_t (r_end x - 1) /\ 0 <= r_end x - r_start x < 2 ^ 63.

Lemma u64_add a b : u64 (u64 a + b) = u64 (a + b).
Proof. unfold u64. by rewrite Z.add_mod_idemp_l by lia. Qed.

Lemma content_ranges_ok buf clen header_len len rs :
  0 <= buf < 2 ^ 63 -> off_t clen -> Forall inner rs ->
  content_ranges buf clen header_len (u64 len) rs
  = Some (u64 (len + parts_size header_len clen rs), with_text clen <$> rs).
Proof.
  intros Hb Hc Hrs. revert len. induction Hrs as [|x rs (Hs & He & He1 & Hd) _ IH]; intros len; cbn [content_ranges].
  - simpl. by rewrite Z.add_0_r.
  - change (parts_size header_len clen (x :: rs)) with (part_size header_len clen x + parts_size header_len clen rs).
    rewrite (s64_small (r_end x - 1)) by (unfold off_t in He1; lia). rewrite sprintf_part by done. cbn [mbind option_bind].
    rewrite u64_add. rewrite IH. cbn [mbind option_bind fmap list_fmap]. fold (with_text clen x). do 3 f_equal.
    rewrite s64_small by lia. unfold u64. rewrite (Z.mod_small (r_end x - r_start x)) by lia.
    replace (len + (part_size header_len clen x + parts_size header_len clen rs))
      with (len + part_size header_len clen x + parts_size header_len clen rs) by lia.
    f_equal.
Qed.

(** ** The two headers *)

Lemma range_inner clen x : off_t_max clen -> 0 <= r_start x < r_end x -> r_end x <= clen -> inner x.
Proof. unfold off_t_max, inner, off_t, NGX_MAX_OFF_T_VALUE. lia. Qed.

Lemma singlepart_header_ok buf r c x :
  0 <= buf < 2 ^ 63 -> is_main r = true -> off_t_max (content_length_n r) -> ranges c = [x] -> inner x ->
  exists r', ngx_http_range_singlepart_header buf r c = Some (Next r' (Some c)) /\
    status r' = status r /\ content_length_n r' = r_end x - r_start x /\ content_length r' = None /\
    content_range r' = Some (bytes "bytes " ++ range_text (r_start x) (r_end x - 1) (content_length_n r)).
Proof.
  intros Hb Hm Hc Hx (Hs & He & He1 & Hd). unfold ngx_http_range_singlepart_header. rewrite Hm, Hx. cbn [negb nth].
  rewrite (s64_small (r_end x - 1)) by (unfold off_t in He1; lia). rewrite sprintf_content_range; try done.
  2: { unfold off_t_max, off_t, NGX_MAX_OFF_T_VALUE in *. lia. }
  cbn [mbind option_bind]. eexists. split; [done|]. split_and!; try done. simpl. apply s64_small. lia.
Qed.

Lemma bind_some {A B} (m : option A) (f : A -> option B) a o :
  m = Some a -> f a = o -> m ≫= f = o.
Proof. by intros -> <-. Qed.

Lemma s64_u64_mod z : s64 (u64 z) = s64 z.
Proof.
  unfold s64, u64. f_equal. by rewrite Z.add_mod_idemp_l by lia.
Qed.

Lemma multipart_header_ok buf n r c :
  0 <= buf < 2 ^ 63 -> 0 <= n < 2 ^ 64 -> short_type r -> off_t_max (content_length_n r) -> Forall inner (ranges c) ->
  exists r', ngx_http_range_multipart_header buf n r c
    = Some (Next r' (Some (Ctx (offset c) (part_header r n) (with_text (content_length_n r) <$> ranges c)))) /\
    status r' = status r /\ content_length r' = None /\
    content_length_n r'
      = s64 (28 + parts_size (Z.of_nat (length (part_header r n))) (content_length_n r) (ranges c)) /\
    content_type r' = bytes "multipart/byteranges; boundary=" ++ padded n /\ charset r' = [].
Proof.
  intros Hb Hn Hr Hc Hx.
  assert (off_t (content_length_n r)) as Ho by (unfold off_t_max, off_t, NGX_MAX_OFF_T_VALUE in *; lia).
  pose proof (content_ranges_ok buf _ (Z.of_nat (length (part_header r n))) 28 (ranges c) Hb Ho Hx) as Hcr.
  rewrite <- s64_u64_mod. revert Hcr.
  generalize (u64 (28 + parts_size (Z.of_nat (length (part_header r n))) (content_length_n r) (ranges c))).
  intros len Hcr. eexists. split.
  - unfold ngx_http_range_multipart_header.
    eapply bind_some; [by apply print_boundary_text|].
    eapply bind_some; [by apply sprintf_type|].
    eapply bind_some; [exact Hcr|]. reflexivity.
  - by split_and!.
Qed.

Lemma not_satisfiable_ok buf r :
  0 <= buf < 2 ^ 63 -> off_t_max (content_length_n r) ->
  exists r', ngx_http_range_not_satisfiable buf r = Some (NotSatisfiable r') /\
    status r' = NGX_HTTP_RANGE_NOT_SATISFIABLE /\ content_length_n r' = -1 /\ content_length r' = None /\
    content_range r' = Some (bytes "bytes */" ++ signed (content_length_n r)).
Proof.
  intros Hb Hc. unfold ngx_http_range_not_satisfiable.
  change (content_length_n (set_status NGX_HTTP_RANGE_NOT_SATISFIABLE r)) with (content_length_n r).
  rewrite sprintf_unsatisfied; [|done|unfold off_t_max, off_t, NGX_MAX_OFF_T_VALUE in *; lia].
  cbn [mbind option_bind]. by eexists.
Qed.

(** ** The reply to a Range header *)

(** A response that the filter looks at. *)
Definition partial (r : request) : Prop :=
  is_main r = true /\ NGX_HTTP_VERSION_10 <= http_version r /\ status r = NGX_HTTP_OK /\
  off_t_max (content_length_n r) /\ allow_ranges r = true /\ 0 < max_ranges r < 2 ^ 64 /\
  if_range_ok r = true /\ short_type r.

Definition max_of (r : request) : Z := if single_range r then 1 else max_ranges r.

(** The filter for the response to the Range header [value]. *)
Definition asks (r : request) (pre value : list Z) : Prop :=
  range_in r = Some (pre ++ value) /\ ngx_tolower <$> pre = bytes "bytes=" /\ value <> [].

Lemma strncasecmp_eq pre value s :
  ngx_tolower <$> pre = s -> Forall (fun c => c <> 0 /\ ngx_tolower c = c) s ->
  ngx_strncasecmp (pre ++ value) s (length s) = 0.
Proof.
  revert pre. induction s as [|c s IH]; intros pre Hp Hs; [done|].
  destruct pre as [|d pre]; [done|]. simpl in Hp. injection Hp as Hd Hp.
  inversion_clear Hs as [|?? [Hc Hl] Hs']. cbn [length ngx_strncasecmp app hd tail].
  rewrite Hd, Hl, Z.eqb_refl. rewrite (proj2 (Z.eqb_neq c 0)) by done. cbn [negb]. by apply IH.
Qed.

Lemma filter_parses buf n r pre value :
  partial r -> asks r pre value ->
  ngx_http_range_header_filter buf n r None =
    ('(rc, rs) ← ngx_http_range_parse r None (pre ++ value) (max_of r);
     if rc =? NGX_OK then
       let r := set_status_line [] (set_status NGX_HTTP_PARTIAL_CONTENT r) in
       let c := Ctx (content_offset r) [] rs in
       if Z.of_nat (length rs) =? 1 then ngx_http_range_singlepart_header buf r c
       else ngx_http_range_multipart_header buf n r c
     else if rc =? NGX_HTTP_RANGE_NOT_SATISFIABLE then ngx_http_range_not_satisfiable buf r
     else next_filter r).
Proof.
  intros (Hm & Hv & Hs & Hc & Ha & Hmax & Hi & _) (Hr & Hp & Hne). unfold ngx_http_range_header_filter.
  unfold off_t_max in Hc.
  rewrite (proj2 (Z.ltb_ge (http_version r) _)), Hs, Hm, Ha, (proj2 (Z.eqb_neq (content_length_n r) (-1))),
    (proj2 (Z.eqb_neq (max_ranges r) 0)) by lia.
  cbn [negb orb andb Z.eqb Pos.eqb]. rewrite Hr, Hi.
  assert (length pre = 6%nat) as Hl by (by rewrite <- (length_fmap ngx_tolower), Hp).
  assert (ngx_strncasecmp (pre ++ value) (bytes "bytes=") 6 = 0) as ->.
  { apply (strncasecmp_eq pre value (bytes "bytes=")); [done|by_decide]. }
  rewrite (proj2 (Z.ltb_ge _ 7)); [done|]. rewrite length_app, Hl. destruct value; [done|]. simpl. lia.
Qed.

(** What the filter makes of the response [r] for the code [rc] and the ranges
    [sel]: the headers of the partial response and the context of the body
    filter, an error response, or the response as it is. *)
Definition replies (n : Z) (r : request) (rc : Z) (sel : list (Z * Z)) (o : outcome) : Prop :=
  let clen := content_length_n r in
  match o with
  | Next r' (Some c) =>
      rc = NGX_OK /\ status r' = NGX_HTTP_PARTIAL_CONTENT /\ content_length r' = None /\
      offset c = content_offset r /\
      match sel with
      | [(s, e)] =>
          ranges c = [Range s e []] /\ content_length_n r' = e - s /\
          content_range r' = Some (bytes "bytes " ++ range_text s (e - 1) clen)
      | _ =>
          ranges c = with_text clen <$> (to_range <$> sel) /\ boundary_header c = part_header r n /\
          content_type r' = bytes "multipart/byteranges; boundary=" ++ padded n /\
          content_length_n r'
          = s64 (28 + parts_size (Z.of_nat (length (part_header r n))) clen (to_range <$> sel))
      end
  | Next r' None =>
      rc = NGX_DECLINED /\ r' = set_accept_ranges (Some (bytes "bytes")) r
  | NotSatisfiable r' =>
      rc = NGX_HTTP_RANGE_NOT_SATISFIABLE /\ status r' = NGX_HTTP_RANGE_NOT_SATISFIABLE /\
      content_range r' = Some (bytes "bytes */" ++ signed clen) /\ content_length_n r' = -1
  end.

Lemma replies_ok buf n r sel :
  0 <= buf < 2 ^ 63 -> 0 <= n < 2 ^ 64 -> is_main r = true -> short_type r -> off_t_max (content_length_n r) ->
  Forall (fun x => 0 <= x.1 < x.2 /\ x.2 <= content_length_n r) sel ->
  exists o, (let r := set_status_line [] (set_status NGX_HTTP_PARTIAL_CONTENT r) in
    let c := Ctx (content_offset r) [] (to_range <$> sel) in
    if Z.of_nat (length (to_range <$> sel)) =? 1 then ngx_http_range_singlepart_header buf r c
    else ngx_http_range_multipart_header buf n r c) = Some o /\ replies n r NGX_OK sel o.
Proof.
  intros Hb Hn Hm Ht Hc Hsel. cbv zeta.
  set (r1 := set_status_line [] (set_status NGX_HTTP_PARTIAL_CONTENT r)).
  assert (Forall inner (to_range <$> sel)) as Hin.
  { apply Forall_fmap. eapply Forall_impl; [exact Hsel|]. intros [s e] [H1 H2]. by eapply range_inner. }
  rewrite length_fmap. destruct (Z.eqb_spec (Z.of_nat (length sel)) 1) as [H1|H1].
  - destruct sel as [|[s e] [|]]; try (simpl in H1; lia). inversion_clear Hin as [|?? Hx _].
    destruct (singlepart_header_ok buf r1 (Ctx (content_offset r1) [] [to_range (s, e)]) (to_range (s, e)) Hb Hm Hc eq_refl Hx)
      as (r' & Ho & Hs & Hn' & Hl & Hr). eexists. split; [exact Ho|]. by split_and!.
  - destruct (multipart_header_ok buf n r1 (Ctx (content_offset r1) [] (to_range <$> sel)) Hb Hn Ht Hc Hin)
      as (r' & Ho & Hs & Hl & Hn' & Hr & _). eexists. split; [exact Ho|]. split_and!; try done.
    destruct sel as [|[s e] [|]]; [by split_and!|simpl in H1; lia|by split_and!].
Qed.

Lemma selects_in clen b s e : off_t_max clen -> selects clen b = Some (s, e) -> asked clen b <= clen ->
  forall t, spells b t -> 0 <= s < e /\ e <= clen.
Proof.
  intros Hc Hs Ha t Hb. unfold off_t_max in Hc.
  assert (forall ds n, number ds n -> 0 <= n) as Hnn.
  { intros ds n (_ & Hv & _). apply (pos_value_mono 10 dec_digit 0 ds n ltac:(lia) dec_digit_range ltac:(lia) Hv). }
  destruct Hb as [i j k ds a Hd|i j k l ds a ds' b Hd Hd'|i l ds m Hd]; cbn [selects asked] in *.
  - pose proof (Hnn _ _ Hd). destruct (Z.ltb_spec a clen); simplify_eq. lia.
  - pose proof (Hnn _ _ Hd). destruct (Z.ltb_spec a (Z.min (b + 1) clen)); simplify_eq. lia.
  - destruct (Z.ltb_spec 0 m); simplify_eq. lia.
Qed.

Lemma all_selects_in clen bs ts : off_t_max clen -> Forall2 spells bs ts -> asked_all clen bs <= clen ->
  Forall (fun x => 0 <= x.1 < x.2 /\ x.2 <= clen) (omap (selects clen) bs).
Proof.
  intros Hc Hbs. induction Hbs as [|b t bs ts Hb Hbs IH]; simpl; [constructor|]. intros Ha.
  pose proof (asked_all_nonneg clen bs ts Hbs).
  pose proof (asked_all_nonneg clen [b] [t] ltac:(by repeat constructor)) as H0. simpl in H0.
  destruct (selects clen b) as [[s e]|] eqn:E; [constructor|]; [|apply IH; lia..].
  by apply (selects_in clen b s e Hc E ltac:(lia) t Hb).
Qed.

Lemma reply_ok clen max size sel : NGX_OK = reply clen max size sel -> size <= clen.
Proof.
  unfold reply. destruct (max <? _); [done|]. destruct (_ =? 0); [done|].
  destruct (Z.ltb_spec clen size); [done|lia].
Qed.

Lemma filter_replies buf n r pre bs ts :
  0 <= buf < 2 ^ 63 -> 0 <= n < 2 ^ 64 -> partial r -> asks r pre (join ts) ->
  Forall2 spells bs ts -> asked_all (content_length_n r) bs < 2 ^ 63 ->
  let sel := omap (selects (content_length_n r)) bs in
  let rc := reply (content_length_n r) (max_of r) (asked_all (content_length_n r) bs) sel in
  exists o, ngx_http_range_header_filter buf n r None = Some o /\ replies n r rc sel o.
Proof.
  intros Hb Hn Hp Hask Hbs Ha sel rc. rewrite (filter_parses buf n r pre (join ts) Hp Hask).
  destruct Hp as (Hm & Hv & Hs & Hc & _ & Hmax & _ & Ht). destruct Hask as (_ & Hpre & Hne).
  assert (length pre = 6%nat) as Hl by (by rewrite <- (length_fmap ngx_tolower), Hpre).
  assert (bs <> []) as Hbne by (intros ->; by inversion Hbs; subst).
  assert (0 <= max_of r < 2 ^ 64) as Hm' by (unfold max_of; destruct (single_range r); lia).
  destruct (range_parse_selects r pre bs ts (max_of r) Hl Hc Hm' Hbne Hbs Ha) as (rs & -> & Hok).
  cbn [mbind option_bind]. fold sel rc. fold sel rc in Hok.
  assert (rc = NGX_OK /\ asked_all (content_length_n r) bs <= content_length_n r \/ rc = NGX_DECLINED
    \/ rc = NGX_HTTP_RANGE_NOT_SATISFIABLE) as [[E Hle]|[E|E]].
  { subst rc. unfold reply. repeat case_match; auto. left. split; [done|]. lia. }
  - rewrite E. cbn [Z.eqb]. rewrite (Hok E). apply replies_ok; try done. by eapply all_selects_in.
  - rewrite E. cbn [Z.eqb Pos.eqb]. eexists. split; [reflexivity|]. done.
  - rewrite E. destruct (not_satisfiable_ok buf r Hb Hc) as (r' & Ho & Hst & Hcn & _ & Hcr).
    eexists. split; [exact Ho|]. by split_and!.
Qed.

(** C29. For a response that the filter looks at ([partial]: a main request, status
    200, a known size, ranges allowed, If-Range passed, a content type that is
    not too long) and a Range header that lists ranges in the notations of
    [spells], with spaces but no tabs and no empty elements, and numbers up to
    2^63 - 1, as long as the sizes do not add up to 2^63, the filter answers with
    the ranges that select something, clipped to the content: one in
    Content-Range, several as a multipart body; with 416 if there are none; and
    with the whole content if there are more than allowed, or if they ask for
    more bytes than it has.  Of what RFC 7233 allows besides, see
    [range_refused]. *)
Theorem range_header_reply buf n r pre bs ts :
  0 <= buf < 2 ^ 63 -> 0 <= n < 2 ^ 64 -> partial r -> asks r pre (join ts) ->
  Forall2 spells bs ts -> asked_all (content_length_n r) bs < 2 ^ 63 ->
  let sel := omap (selects (content_length_n r)) bs in
  let rc := reply (content_length_n r) (max_of r) (asked_all (content_length_n r) bs) sel in
  exists o, ngx_http_range_header_filter buf n r None = Some o /\ replies n r rc sel o.
Proof. apply filter_replies. Qed.

(** Bytes 2 to 4 and the last 5 of 20. *)
Definition small_request : request :=
  Request true 1001 false true false 10 (Some (bytes "Bytes=2- 4 ,-5")) None 200 [] None 0 20
    (Some (bytes "20")) 0 (bytes "text/plain") 10 None (bytes "utf-8") None None.

Definition small_ranges : list byte_range := [FromTo 2 4; Suffix 5].
Definition small_texts : list (list Z) := [bytes "2- 4 "; bytes "-5"].

Lemma small_request_partial : partial small_request.
Proof. unfold partial, short_type, off_t_max. repeat split; try done; vm_compute; congruence. Qed.

Lemma small_request_asks : asks small_request (bytes "Bytes=") (join small_texts).
Proof. by split_and!. Qed.

Lemma small_spells : Forall2 spells small_ranges small_texts.
Proof.
  assert (forall c n, 0 <= n < 10 -> c = 48 + n -> number [c] n) as Hd.
  { intros c n Hn ->. split_and!; [done| |unfold NGX_MAX_OFF_T_VALUE; lia]. cbn. unfold dec_digit, is_digit.
    rewrite (proj2 (andb_true_iff _ _)) by lia. cbn. f_equal. lia. }
  repeat constructor.
  - by apply (spells_from_to 0 0 1 1 [$ "2"] 2 [$ "4"] 4); apply Hd.
  - by apply (spells_suffix 0 0 [$ "5"] 5), Hd.
Qed.

Lemma range_header_reply_witness :
  partial small_request /\ asks small_request (bytes "Bytes=") (join small_texts) /\
  exists o, ngx_http_range_header_filter 4096 7 small_request None = Some o /\
    replies 7 small_request NGX_OK [(2, 5); (15, 20)] o.
Proof.
  split; [exact small_request_partial|]. split; [exact small_request_asks|].
  apply (range_header_reply 4096 7 small_request (bytes "Bytes=") small_ranges small_texts);
    [done|done|exact small_request_partial|exact small_request_asks|exact small_spells|done].
Defined.

(** The status of the answer to a Range header for 2000 bytes. *)
Definition answer (range : string) : option Z :=
  match ngx_http_range_header_filter 4096 7 (sample_request range) None with
  | Some (Next r _) | Some (NotSatisfiable r) => Some (status r)
  | None => None
  end.

(** What RFC 7233 lets a client write and the parser refuses: an empty element of
    the list, a tab, and a last position of 2^63 and more, which is to be clipped. *)
Example range_refused :
  answer "bytes=0-1,5-6" = Some 206 /\ answer "bytes=0-1,,5-6" = Some 416 /\ answer "bytes=0-1," = Some 416 /\
  answer (String.append "bytes=0-1," (String.String (Ascii.ascii_of_nat 9) "5-6")) = Some 416 /\
  answer "bytes=0-9223372036854775807" = Some 206 /\ answer "bytes=0-9223372036854775808" = Some 416.
Proof. vm_compute. repeat split. Qed.
