(* ===== verification/HttpRangeBody.v ===== *)
(** * HttpRangeBody: byte ranges, the body filter

    [ngx_http_range_body_filter] of http/modules/ngx_http_range_filter_module.c
    for one and for several ranges, on chains of buffers as
    core/ngx_buf.h has them. *)

From S2P Require Import Prelude NgxHashKey NgxNumber NgxSprintf NgxTimes NgxParseTime NgxHttpTime HttpRange HttpRangeReply.

(** ** Buffers *)

(** The fields of a buffer that the filter uses; [b_file] stands for the file. *)
(* core/ngx_buf.h:21-73 ngx_buf_s *)
Record buf : Type := Buf {
  b_pos : Z;
  b_last : Z;
  b_file_pos : Z;
  b_file_last : Z;
  b_file : Z;
  b_temporary : bool;
  b_memory : bool;
  b_mmap : bool;
  b_in_file : bool;
  b_flush : bool;
  b_sync : bool;
  b_last_buf : bool;
  b_last_in_chain : bool
}.

Definition eta_buf (x : buf) : buf :=
  Buf (b_pos x) (b_last x) (b_file_pos x) (b_file_last x) (b_file x) (b_temporary x) (b_memory x)
    (b_mmap x) (b_in_file x) (b_flush x) (b_sync x) (b_last_buf x) (b_last_in_chain x).
Definition set_pos := ltac:(setter eta_buf b_pos).
Definition set_last := ltac:(setter eta_buf b_last).
Definition set_file_pos := ltac:(setter eta_buf b_file_pos).
Definition set_file_last := ltac:(setter eta_buf b_file_last).
Definition set_sync := ltac:(setter eta_buf b_sync).
Definition set_last_buf := ltac:(setter eta_buf b_last_buf).
Definition set_last_in_chain := ltac:(setter eta_buf b_last_in_chain).

(* core/ngx_buf.h:149-149 ngx_buf_in_memory *)
Definition ngx_buf_in_memory (b : buf) : bool := b_temporary b || b_memory b || b_mmap b.

(* core/ngx_buf.h:152-154 ngx_buf_special *)
Definition ngx_buf_special (b : buf) : bool :=
  (b_flush b || b_last_buf b || b_sync b) && negb (ngx_buf_in_memory b) && negb (b_in_file b).

(* core/ngx_buf.h:160-162 ngx_buf_size *)
Definition ngx_buf_size (b : buf) : Z :=
  if ngx_buf_in_memory b then b_last b - b_pos b else b_file_last b - b_file_pos b.

(** ** The filter *)

Section Filter.
(** Whether the response is that of the main request. *)
Context (main : bool).

(** The buffer of a skipped link. *)
(* http/modules/ngx_http_range_filter_module.c:722-727 ngx_http_range_singlepart_body: skip *)
Definition skipped (b : buf) : buf :=
  let b := if b_in_file b then set_file_pos (b_file_last b) b else b in
  set_sync true (set_pos (b_last b) b).

(** The start of the range is behind that of the buffer. *)
(* http/modules/ngx_http_range_filter_module.c:732-741 ngx_http_range_singlepart_body: range->start > start *)
Definition cut_start (r : range) (start : Z) (b : buf) : buf :=
  if start <? r_start r then
    let b := if b_in_file b then set_file_pos (b_file_pos b + (r_start r - start)) b else b in
    if ngx_buf_in_memory b then set_pos (b_pos b + (r_start r - start)) b else b
  else b.

(** The end of the range is in the buffer. *)
(* http/modules/ngx_http_range_filter_module.c:745-754 ngx_http_range_singlepart_body: range->end <= last *)
Definition cut_end (r : range) (last : Z) (b : buf) : buf :=
  let b := if b_in_file b then set_file_last (b_file_last b - (last - r_end r)) b else b in
  let b := if ngx_buf_in_memory b then set_last (b_last b - (last - r_end r)) b else b in
  set_last_in_chain true (set_last_buf main b).

(** The offset after the chain, the buffers of the chain as the filter leaves
    them, and the chain that [ll] points to, [None] if it has not been set: the
    link before then keeps its successors, the buffers skipped. *)
(* http/modules/ngx_http_range_filter_module.c:699-763 ngx_http_range_singlepart_body: for *)
Fixpoint singlepart_loop (r : range) (offset : Z) (in_ : list buf)
  : Z * list buf * option (list buf) :=
  match in_ with
  | [] => (offset, [], None)
  | b :: in_ =>
      let start := offset in
      let last := offset + ngx_buf_size b in
      if ngx_buf_special b then
        let '(offset, seen, out) := singlepart_loop r last in_ in
        (offset, b :: seen, Some (b :: default seen out))
      else if (r_end r <=? start) || (last <=? r_start r) then
        let '(offset, seen, out) := singlepart_loop r last in_ in
        (offset, skipped b :: seen, out)
      else
        let b := cut_start r start b in
        if r_end r <=? last then
          let b := cut_end r last b in (last, b :: in_, Some [b])
        else
          let '(offset, seen, out) := singlepart_loop r last in_ in
          (offset, b :: seen, Some (b :: default seen out))
  end.

(** A link of a chain for the next filter: a buffer with bytes that the filter
    has put in memory, or a buffer of the content. *)
Inductive link : Type :=
  | Text (data : list Z) (last_buf : bool)
  | Content (b : buf).

(** What the body filter ends with: the next filter gets a chain, or the
    filter returns a code itself. *)
Inductive sent : Type :=
  | Pass (out : list link)
  | Return (code : Z).

(* http/modules/ngx_http_range_filter_module.c:686-770 ngx_http_range_singlepart_body *)
Definition ngx_http_range_singlepart_body (c : ctx) (in_ : list buf) : ctx * list buf * sent :=
  let range := nth 0 (ranges c) (Range 0 0 []) in
  let '(off, seen, out) := singlepart_loop range (offset c) in_ in
  (Ctx off (boundary_header c) (ranges c), seen,
   match out with None => Return NGX_OK | Some out => Pass (Content <$> out) end).

(* http/modules/ngx_http_range_filter_module.c:655-671 ngx_http_range_test_overlapped: overlapped *)
Definition overlaps (c : ctx) (b : buf) : bool :=
  negb (offset c =? 0)
  || (negb (b_last_buf b)
      && existsb (fun r => (r_start r <? offset c) || (offset c + ngx_buf_size b <? r_end r)) (ranges c)).

(* http/modules/ngx_http_range_filter_module.c:646-683 ngx_http_range_test_overlapped *)
Definition ngx_http_range_test_overlapped (c : ctx) (b : buf) : ctx * Z :=
  if overlaps c b then (c, NGX_ERROR)
  else (Ctx (ngx_buf_size b) (boundary_header c) (ranges c), NGX_OK).

(** The data of one range: offsets into memory are [size_t]. *)
(* http/modules/ngx_http_range_filter_module.c:839-853 ngx_http_range_multipart_body: the range data *)
Definition range_data (b : buf) (r : range) : buf :=
  let d := Buf 0 0 0 0 (b_file b) (b_temporary b) (b_memory b) (b_mmap b) (b_in_file b) false false false false in
  let d := if b_in_file b then
             set_file_last (b_file_pos b + r_end r) (set_file_pos (b_file_pos b + r_start r) d) else d in
  if ngx_buf_in_memory b then
    set_last (u64 (b_pos b + u64 (r_end r))) (set_pos (u64 (b_pos b + u64 (r_start r))) d) else d.

(** Three links for every range. *)
(* http/modules/ngx_http_range_filter_module.c:784-866 ngx_http_range_multipart_body: for *)
Definition range_parts (c : ctx) (b : buf) : list link :=
  concat ((fun r => [Text (boundary_header c) false; Text (r_content_range r) false;
                     Content (range_data b r)]) <$> ranges c).

(** The last boundary; the bytes [cpymem] reads are in the boundary header. *)
(* http/modules/ngx_http_range_filter_module.c:868-887 ngx_http_range_multipart_body: the last boundary *)
Definition last_boundary (c : ctx) : list Z :=
  take (Z.to_nat (4 + NGX_ATOMIC_T_LEN)) (boundary_header c) ++ bytes "--" ++ CRLF.

(* http/modules/ngx_http_range_filter_module.c:773-900 ngx_http_range_multipart_body *)
Definition ngx_http_range_multipart_body (c : ctx) (b : buf) : sent :=
  Pass (range_parts c b ++ [Text (last_boundary c) true]).

(** One call: the context, the chain as the filter leaves it, the result. *)
(* http/modules/ngx_http_range_filter_module.c:611-643 ngx_http_range_body_filter *)
Definition ngx_http_range_body_filter (c : option ctx) (in_ : list buf) : option ctx * list buf * sent :=
  match in_, c with
  | [], _ | _, None => (c, in_, Pass (Content <$> in_))
  | b :: _, Some ctx =>
      if Z.of_nat (length (ranges ctx)) =? 1 then
        let '(ctx, seen, s) := ngx_http_range_singlepart_body ctx in_ in (Some ctx, seen, s)
      else if ngx_buf_special b then (c, in_, Pass (Content <$> in_))
      else
        let '(ctx, rc) := ngx_http_range_test_overlapped ctx b in
        if negb (rc =? NGX_OK) then (Some ctx, in_, Return NGX_ERROR)
        else (Some ctx, in_, ngx_http_range_multipart_body ctx b)
  end.

(** Calls one after the other. *)
Fixpoint body_calls (c : option ctx) (ins : list (list buf)) : option ctx * list sent :=
  match ins with
  | [] => (c, [])
  | in_ :: ins =>
      let '(c, _, s) := ngx_http_range_body_filter c in_ in
      let '(c, ss) := body_calls c ins in (c, s :: ss)
  end.

End Filter.

(** ** The bytes of buffers and chains *)

Section Bytes.
Context (main : bool) (mem : memory) (files : Z -> memory).

Definition buf_data (b : buf) : list Z :=
  if ngx_buf_in_memory b then slice mem (b_pos b) (b_last b)
  else if b_in_file b then slice (files (b_file b)) (b_file_pos b) (b_file_last b) else [].

Definition bufs_data (in_ : list buf) : list Z := concat (buf_data <$> in_).

Definition link_data (l : link) : list Z :=
  match l with Text d _ => d | Content b => buf_data b end.

Definition sent_data (s : sent) : list Z :=
  match s with Pass out => concat (link_data <$> out) | Return _ => [] end.

(** The pointers of a buffer are in order; one without data has no size. *)
Definition buf_ok (b : buf) : Prop :=
  if ngx_buf_in_memory b then b_pos b <= b_last b
  else if b_in_file b then b_file_pos b <= b_file_last b else b_file_pos b = b_file_last b.

Lemma length_slice m a e : a <= e -> Z.of_nat (length (slice m a e)) = e - a.
Proof. intros H. unfold slice. rewrite length_fmap, length_seqZ. lia. Qed.

Lemma slice_nil m a e : e <= a -> slice m a e = [].
Proof. intros H. unfold slice. by rewrite seqZ_nil by lia. Qed.

Lemma slice_split m a b e : a <= b <= e -> slice m a e = slice m a b ++ slice m b e.
Proof.
  intros H. unfold slice. rewrite <- fmap_app. f_equal.
  replace (e - a) with ((b - a) + (e - b)) by lia. rewrite seqZ_app by lia. do 2 f_equal; lia.
Qed.

Lemma slice_cut m a e j k :
  0 <= j -> j <= k <= e - a -> slice m (a + j) (a + k) = drop (Z.to_nat j) (take (Z.to_nat k) (slice m a e)).
Proof.
  intros Hj Hk. rewrite (slice_split m a (a + k) e) by lia.
  assert (length (slice m a (a + k)) = Z.to_nat k) as H1.
  { pose proof (length_slice m a (a + k)). lia. }
  rewrite take_app_length' by done. rewrite (slice_split m a (a + j) (a + k)) by lia.
  rewrite drop_app_length'; [done|]. pose proof (length_slice m a (a + j)). lia.
Qed.

Lemma buf_size b : buf_ok b -> ngx_buf_size b = Z.of_nat (length (buf_data b)).
Proof.
  unfold buf_ok, ngx_buf_size, buf_data. destruct (ngx_buf_in_memory b); [|destruct (b_in_file b)].
  - intros. by rewrite length_slice.
  - intros. by rewrite length_slice.
  - simpl. lia.
Qed.

Lemma special_data b : ngx_buf_special b = true -> buf_data b = [].
Proof.
  unfold ngx_buf_special, buf_data. destruct (ngx_buf_in_memory b), (b_in_file b); simpl; rewrite ?andb_false_r; done.
Qed.

Lemma skipped_data b : buf_data (skipped b) = [].
Proof.
  unfold skipped, buf_data. destruct b as [p l fp fl f t m mm inf fu sy lb lc].
  destruct inf; cbn; unfold ngx_buf_in_memory; cbn; destruct (t || m || mm); by rewrite ?slice_nil by lia.
Qed.

(** The bytes of [d], which starts at offset [o] of the content, between [s] and [e]. *)
Definition cut (o s e : Z) (d : list Z) : list Z :=
  drop (Z.to_nat (s - o)) (take (Z.to_nat (e - o)) d).

Lemma cut_app o s e d1 d2 :
  cut o s e (d1 ++ d2) = cut o s e d1 ++ cut (o + Z.of_nat (length d1)) s e d2.
Proof.
  unfold cut. rewrite take_app.
  replace (Z.to_nat (e - (o + Z.of_nat (length d1)))) with (Z.to_nat (e - o) - length d1)%nat by lia.
  destruct (decide (Z.to_nat (e - o) <= length d1)%nat).
  - replace (Z.to_nat (e - o) - length d1)%nat with O by lia. rewrite take_0, drop_nil. by rewrite !app_nil_r.
  - rewrite (take_ge d1) by lia. rewrite drop_app. do 2 f_equal. lia.
Qed.

Lemma cut_nil o s e : cut o s e [] = [].
Proof. unfold cut. by rewrite take_nil, drop_nil. Qed.

Lemma cut_before o s e d : e <= o -> cut o s e d = [].
Proof. intros H. unfold cut. replace (Z.to_nat (e - o)) with O by lia. by rewrite take_0, drop_nil. Qed.

Lemma cut_behind o s e d : o + Z.of_nat (length d) <= s -> cut o s e d = [].
Proof. intros H. unfold cut. apply drop_ge. rewrite length_take. lia. Qed.

Lemma cut_length o s e d :
  o <= s <= e -> e <= o + Z.of_nat (length d) -> Z.of_nat (length (cut o s e d)) = e - s.
Proof. intros Hs He. unfold cut. rewrite length_drop, length_take. lia. Qed.

Ltac buf_cases b :=
  destruct b as [p l fp fl f t m mm inf fu sy lb lc]; unfold cut_end, cut_start, buf_ok, buf_data, ngx_buf_in_memory in *;
  cbn in *.

(** What the two steps leave of a buffer. *)
Lemma cut_start_data r o b :
  buf_ok b -> r_start r < o + ngx_buf_size b ->
  buf_data (cut_start r o b) = drop (Z.to_nat (r_start r - o)) (buf_data b) /\ buf_ok (cut_start r o b) /\
  ngx_buf_size (cut_start r o b) = ngx_buf_size b - Z.max 0 (r_start r - o).
Proof.
  intros Hb Hs. unfold ngx_buf_size in *. buf_cases b.
  destruct (Z.ltb_spec o (r_start r)) as [Hlt|]; cbn.
  2: { replace (Z.to_nat (r_start r - o)) with O by lia. cbn. split_and!; [done|done|]. case_match; lia. }
  assert (forall mm a e, o + (e - a) > r_start r -> a <= e ->
    slice mm (a + (r_start r - o)) e = drop (Z.to_nat (r_start r - o)) (slice mm a e)) as Hd.
  { intros mm' a e H1 H2. replace e with (a + (e - a)) at 1 by lia. rewrite (slice_cut mm' a e) by lia.
    rewrite take_ge; [done|]. pose proof (length_slice mm' a e). lia. }
  destruct inf, (t || m || mm) eqn:E; cbn in *; rewrite ?E; cbn; rewrite ?E; try lia;
    (split_and!; [by apply Hd; lia|lia|lia]).
Qed.

Lemma cut_end_data r last b :
  buf_ok b -> r_end r <= last -> last - r_end r <= ngx_buf_size b ->
  buf_data (cut_end main r last b) = take (Z.to_nat (ngx_buf_size b - (last - r_end r))) (buf_data b).
Proof.
  intros Hb Hs Hl. unfold ngx_buf_size in *. buf_cases b.
  assert (forall mm a e, a <= e -> last - r_end r <= e - a ->
    slice mm a (e - (last - r_end r)) = take (Z.to_nat (e - a - (last - r_end r))) (slice mm a e)) as Hd.
  { intros mm' a e H1 H2. replace (e - (last - r_end r)) with (a + (e - a - (last - r_end r))) by lia.
    rewrite <- (Z.add_0_r a) at 1. rewrite (slice_cut mm' a e) by lia. done. }
  destruct inf, (t || m || mm) eqn:E; cbn in *; rewrite ?E; cbn; rewrite ?E; try (by rewrite Hd by lia).
  by rewrite take_nil.
Qed.

(** ** One range *)

Lemma bufs_data_cons b l : bufs_data (b :: l) = buf_data b ++ bufs_data l.
Proof. done. Qed.

(** A buffer that is neither special nor skipped: its bytes in the range. *)
Lemma cut_start_only r o b :
  buf_ok b -> r_start r < o + ngx_buf_size b -> o + ngx_buf_size b < r_end r ->
  buf_data (cut_start r o b) = cut o (r_start r) (r_end r) (buf_data b).
Proof.
  intros Hb Hs He. destruct (cut_start_data r o b Hb Hs) as (-> & _ & _).
  unfold cut. rewrite take_ge; [done|]. rewrite (buf_size b Hb) in He. lia.
Qed.

Lemma cut_both r o b :
  buf_ok b -> r_start r < r_end r -> r_start r < o + ngx_buf_size b -> o < r_end r -> r_end r <= o + ngx_buf_size b ->
  buf_data (cut_end main r (o + ngx_buf_size b) (cut_start r o b)) = cut o (r_start r) (r_end r) (buf_data b).
Proof.
  intros Hb Hr Hs Ho He. destruct (cut_start_data r o b Hb Hs) as (Hd & Hok & Hsz).
  rewrite cut_end_data by (done || lia). rewrite Hsz, Hd. unfold cut.
  rewrite take_drop_commute. do 2 f_equal. lia.
Qed.

(** The last link of a response: marked, and with the data in order. *)
Definition marked (b : buf) : Prop := b_last_buf b = main /\ b_last_in_chain b = true.

Lemma singlepart_loop_data r o in_ o' seen out :
  Forall buf_ok in_ -> r_start r < r_end r ->
  singlepart_loop main r o in_ = (o', seen, out) ->
  bufs_data (default [] out) = cut o (r_start r) (r_end r) (bufs_data in_) /\
  (o' = o + Z.of_nat (length (bufs_data in_)) \/ r_end r <= o' <= o + Z.of_nat (length (bufs_data in_))) /\
  (out = None -> bufs_data seen = []) /\
  (o < r_end r <= o + Z.of_nat (length (bufs_data in_)) ->
   exists l b, out = Some (l ++ [b]) /\ marked b /\ r_end r <= o').
Proof.
  intros Hin Hr. revert o o' seen out. induction Hin as [|b in_ Hb Hin IH]; intros o o' seen out E; cbn [singlepart_loop] in E.
  { simplify_eq. cbn. rewrite cut_nil. split_and!; [done|by left; lia|done|]. intros ?. simpl in *. lia. }
  rewrite bufs_data_cons, cut_app, length_app. rewrite (buf_size b Hb) in *.
  destruct (singlepart_loop main r (o + Z.of_nat (length (buf_data b))) in_) as [[o1 seen1] out1] eqn:E1.
  destruct (IH _ _ _ _ E1) as (Hd & Ho & Hn & Hl). clear IH.
  assert (bufs_data (default seen1 out1) = bufs_data (default [] out1)) as Hdef.
  { destruct out1; [done|]. simpl. by rewrite Hn. }
  assert (forall x, (exists l b, out1 = Some (l ++ [b]) /\ marked b /\ r_end r <= o1) ->
    exists l b, Some (x :: default seen1 out1) = Some (l ++ [b]) /\ marked b /\ r_end r <= o1) as Hcons.
  { intros x (l & y & -> & ? & ?). exists (x :: l), y. done. }
  destruct (ngx_buf_special b) eqn:Esp.
  { simplify_eq. rewrite (special_data b Esp) in *. match goal with |- context [default [] (Some ?x)] => change (default [] (Some x)) with x end. rewrite bufs_data_cons, Hdef, (special_data b Esp), Hd, cut_nil.
    cbn [length] in *. rewrite Z.add_0_r in *. split_and!; [done|done|done|]. intros ?. apply Hcons, Hl. simpl in *. lia. }
  destruct ((r_end r <=? o) || (o + Z.of_nat (length (buf_data b)) <=? r_start r)) eqn:Esk.
  { simplify_eq. rewrite bufs_data_cons, (skipped_data b), Hd. 
    assert (cut o (r_start r) (r_end r) (buf_data b) = []) as ->.
    { apply orb_true_iff in Esk as [?|?]; [by apply cut_before; lia|by apply cut_behind; lia]. }
    split_and!; [done|lia|done|]. intros ?. apply Hl. lia. }
  destruct (Z.leb_spec (r_end r) (o + Z.of_nat (length (buf_data b)))) as [Hle|Hgt]; simplify_eq;
    match goal with |- context [default [] (Some ?x)] => change (default [] (Some x)) with x end.
  - rewrite bufs_data_cons. cbn. rewrite !app_nil_r.
    rewrite <- (buf_size b Hb) in *. rewrite (cut_before (o + _)), app_nil_r by lia.
    pose proof (buf_size b Hb) as Hz.
    split_and!; [by apply cut_both; try done; lia|right; lia|done|].
    intros _. exists [], (cut_end main r (o + ngx_buf_size b) (cut_start r o b)). split_and!; [done|by unfold marked, cut_end; repeat case_match|lia].
  - rewrite bufs_data_cons, Hdef, Hd. rewrite <- (buf_size b Hb) in *. rewrite cut_start_only by (done || lia).
    pose proof (buf_size b Hb) as Hz. split_and!; [done|lia|done|]. intros ?. apply Hcons, Hl. lia.
Qed.

Definition response_data (ss : list sent) : list Z := concat (sent_data <$> ss).

Definition calls_data (ins : list (list buf)) : list Z := concat (bufs_data <$> ins).

Lemma pass_data out : sent_data (Pass (Content <$> out)) = bufs_data out.
Proof. cbn [sent_data]. unfold bufs_data. by rewrite <- list_fmap_compose. Qed.

(** One call for one range. *)
Lemma body_filter_single c x in_ :
  ranges c = [x] -> Forall buf_ok in_ -> r_start x < r_end x ->
  exists c' seen s, ngx_http_range_body_filter main (Some c) in_ = (Some c', seen, s) /\
    ranges c' = [x] /\
    sent_data s = cut (offset c) (r_start x) (r_end x) (bufs_data in_) /\
    (offset c' = offset c + Z.of_nat (length (bufs_data in_)) \/
     r_end x <= offset c' <= offset c + Z.of_nat (length (bufs_data in_))) /\
    (offset c < r_end x <= offset c + Z.of_nat (length (bufs_data in_)) ->
     exists l b, s = Pass (l ++ [Content b]) /\ marked b /\ r_end x <= offset c').
Proof.
  intros Hc Hin Hx. destruct in_ as [|b0 in_].
  { exists c, [], (Pass []). cbn. rewrite cut_nil. split_and!; [done|done|done|left; lia|intros; lia]. }
  cbn [ngx_http_range_body_filter]. rewrite Hc. cbn [length Z.of_nat Z.eqb Pos.of_succ_nat Pos.eqb].
  unfold ngx_http_range_singlepart_body. rewrite Hc. cbn [nth].
  destruct (singlepart_loop main x (offset c) (b0 :: in_)) as [[o' seen] out] eqn:E.
  destruct (singlepart_loop_data _ _ _ _ _ _ Hin Hx E) as (Hd & Ho & _ & Hl).
  eexists _, _, _. split; [reflexivity|]. cbn [ranges offset]. split_and!; [done| |done|].
  - rewrite <- Hd. destruct out; [apply pass_data|done].
  - intros H. destruct (Hl H) as (l & b & -> & Hm & He). exists (Content <$> l), b.
    by rewrite fmap_app.
Qed.

Lemma body_calls_single c x ins :
  ranges c = [x] -> Forall (Forall buf_ok) ins -> r_start x < r_end x ->
  let '(c', ss) := body_calls main (Some c) ins in
  response_data ss = cut (offset c) (r_start x) (r_end x) (calls_data ins) /\
  (offset c < r_end x <= offset c + Z.of_nat (length (calls_data ins)) ->
   exists ss1 l b ss2, ss = ss1 ++ Pass (l ++ [Content b]) :: ss2 /\ marked b /\ response_data ss2 = []).
Proof.
  intros Hc Hin Hx. revert c Hc. induction Hin as [|in_ ins Hi Hin IH]; intros c Hc; cbn [body_calls].
  { cbn. rewrite cut_nil. split; [done|]. intros ?. unfold calls_data in *. simpl in *. lia. }
  destruct (body_filter_single c x in_ Hc Hi Hx) as (c' & seen & s & -> & Hc' & Hs & Ho & Hl).
  specialize (IH c' Hc'). destruct (body_calls main (Some c') ins) as [c'' ss]. destruct IH as [IHd IHl].
  assert (cut (offset c') (r_start x) (r_end x) (calls_data ins)
    = cut (offset c + Z.of_nat (length (bufs_data in_))) (r_start x) (r_end x) (calls_data ins)) as Hcut.
  { destruct Ho as [->|Ho]; [done|]. by rewrite !cut_before by lia. }
  change (calls_data (in_ :: ins)) with (bufs_data in_ ++ calls_data ins).
  change (response_data (s :: ss)) with (sent_data s ++ response_data ss).
  rewrite cut_app, Hs, IHd, Hcut, length_app. split; [done|]. intros Hr.
  destruct (Z.le_gt_cases (r_end x) (offset c + Z.of_nat (length (bufs_data in_)))) as [Hle|Hgt].
  - destruct (Hl ltac:(lia)) as (l & b & -> & Hm & He). exists [], l, b, ss. split_and!; [done|done|].
    rewrite IHd. by apply cut_before.
  - destruct IHl as (ss1 & l & b & ss2 & -> & Hm & He); [lia|]. by exists (s :: ss1), l, b, ss2.
Qed.

(** For one range: however the content is cut into buffers in memory or in a
    file and these into calls, the responses hold exactly the bytes of the
    range that are in the input; the buffer with the last one is marked as the
    last of the response, and only empty buffers follow. *)
Theorem singlepart_body_slice c x ins :
  ranges c = [x] -> Forall (Forall buf_ok) ins -> r_start x < r_end x ->
  let '(c', ss) := body_calls main (Some c) ins in
  response_data ss = cut (offset c) (r_start x) (r_end x) (calls_data ins) /\
  (offset c < r_end x <= offset c + Z.of_nat (length (calls_data ins)) ->
   exists ss1 l b ss2, ss = ss1 ++ Pass (l ++ [Content b]) :: ss2 /\ marked b /\ response_data ss2 = []).
Proof. apply body_calls_single. Qed.


(** ** Several ranges *)

(** A buffer in memory lies in the address space. *)
Definition buf_in (b : buf) : Prop := ngx_buf_in_memory b = true -> 0 <= b_pos b /\ b_last b < 2 ^ 64.

Lemma range_data_cut b x :
  buf_ok b -> buf_in b -> 0 <= r_start x < r_end x -> r_end x <= ngx_buf_size b ->
  buf_data (range_data b x) = cut 0 (r_start x) (r_end x) (buf_data b).
Proof.
  intros Hb Hi Hs He. unfold ngx_buf_size, buf_in, range_data in *. unfold cut. rewrite !Z.sub_0_r. buf_cases b.
  assert (forall n, 0 <= n -> 0 <= p -> p + n < 2 ^ 64 -> u64 (p + u64 n) = p + n) as Hu.
  { intros n H1 H2 H3. unfold u64. rewrite (Z.mod_small n) by lia. by rewrite Z.mod_small by lia. }
  destruct inf, (t || m || mm) eqn:E; cbn in *; rewrite ?E; cbn; rewrite ?E; try lia.
  all: try (specialize (Hi eq_refl); rewrite !Hu by lia).
  all: by apply slice_cut; lia.
Qed.

(** A part of the body, and the whole body for the ranges [rs]. *)
Definition part_text (header content : list Z) (x : range) : list Z :=
  header ++ r_content_range x ++ cut 0 (r_start x) (r_end x) content.

Definition multipart_text (c : ctx) (content : list Z) : list Z :=
  concat (part_text (boundary_header c) content <$> ranges c) ++ last_boundary c.

Lemma multipart_body_text c b :
  buf_ok b -> buf_in b -> Forall (fun x => 0 <= r_start x < r_end x /\ r_end x <= ngx_buf_size b) (ranges c) ->
  sent_data (ngx_http_range_multipart_body c b) = multipart_text c (buf_data b).
Proof.
  intros Hb Hi Hr. unfold ngx_http_range_multipart_body, multipart_text, range_parts. cbn [sent_data].
  rewrite fmap_app, concat_app. f_equal; [|apply app_nil_r].
  induction Hr as [|x rs [Hx1 Hx2] _ IH]; cbn; [done|]. rewrite IH. unfold part_text.
  rewrite (range_data_cut b x) by done. by rewrite <- !app_assoc.
Qed.

(** One call for several ranges, with the content in the first buffer. *)
Lemma body_filter_multi c b in_ :
  Z.of_nat (length (ranges c)) <> 1 -> ngx_buf_special b = false -> offset c = 0 -> buf_ok b -> buf_in b ->
  Forall (fun x => 0 <= r_start x < r_end x /\ r_end x <= ngx_buf_size b) (ranges c) ->
  exists c' seen s, ngx_http_range_body_filter main (Some c) (b :: in_) = (c', seen, s) /\
    sent_data s = multipart_text c (buf_data b).
Proof.
  intros Hl Hs Ho Hb Hi Hr. cbn [ngx_http_range_body_filter]. rewrite (proj2 (Z.eqb_neq _ _) Hl), Hs.
  unfold ngx_http_range_test_overlapped.
  assert (overlaps c b = false) as ->.
  { unfold overlaps. rewrite Ho. cbn [Z.eqb negb orb].
    apply andb_false_iff. right. apply not_true_iff_false. rewrite existsb_exists. intros (x & Hx & Hov).
    rewrite Forall_forall in Hr. destruct (Hr x) as [H1 H2]; [by apply list_elem_of_In|]. lia. }
  cbn [negb Z.eqb]. eexists _, _, _. split; [reflexivity|].
  by apply (multipart_body_text (Ctx _ _ _)).
Qed.
End Bytes.

(** ** Header and body together *)

(** The body for the ranges [sel] of [content]. *)
Definition partial_body (n : Z) (r : request) (sel : list (Z * Z)) (content : list Z) : list Z :=
  match sel with
  | [(s, e)] => cut 0 s e content
  | _ =>
      concat ((fun x => part_header r n ++ (range_text x.1 (x.2 - 1) (content_length_n r) ++ CRLF ++ CRLF)
                        ++ cut 0 x.1 x.2 content) <$> sel)
      ++ CRLF ++ bytes "--" ++ padded n ++ bytes "--" ++ CRLF
  end.

(** The calls of the body filter: for several ranges the content has to be in
    the first buffer. *)
Definition delivers (mem : memory) (files : Z -> memory) (sel : list (Z * Z)) (ins : list (list buf)) : Prop :=
  Forall (Forall buf_ok) ins /\
  match sel with
  | [_] => True
  | _ => exists b rest, ins = [b :: rest] /\ ngx_buf_special b = false /\ buf_in b /\ bufs_data mem files rest = []
  end.

Lemma part_header_prefix r n : 0 <= n < 2 ^ 64 ->
  take (Z.to_nat (4 + NGX_ATOMIC_T_LEN)) (part_header r n) = CRLF ++ bytes "--" ++ padded n.
Proof.
  intros Hn. unfold part_header. rewrite !app_assoc. rewrite <- !(app_assoc ((CRLF ++ _) ++ padded n)).
  apply take_app_length'. rewrite length_app, padded_length by done. done.
Qed.

Lemma parts_length clen content header sel :
  Z.of_nat (length content) = clen -> Forall (fun x => 0 <= x.1 < x.2 /\ x.2 <= clen) sel ->
  Z.of_nat (length (concat (part_text header content <$> (with_text clen <$> (to_range <$> sel)))))
  = parts_size (Z.of_nat (length header)) clen (to_range <$> sel).
Proof.
  intros Hc Hsel. induction Hsel as [|[s e] sel [H1 H2] _ IH]; [done|]. cbn [fmap list_fmap concat parts_size foldr].
  rewrite length_app, Nat2Z.inj_add, IH. fold (parts_size (Z.of_nat (length header)) clen (to_range <$> sel)).
  f_equal. unfold part_text, part_size, to_range, with_text. cbn [r_start r_end r_content_range fst snd] in *.
  rewrite (length_app header), (length_app (_ ++ CRLF ++ CRLF)).
  pose proof (cut_length 0 s e content ltac:(lia) ltac:(lia)). lia.
Qed.

(** The response for several ranges, with the context that the header filter sets. *)
Lemma multi_response mem files n r c clen sel b rest :
  0 <= n < 2 ^ 64 -> Z.of_nat (length sel) <> 1 -> offset c = 0 ->
  ranges c = with_text clen <$> (to_range <$> sel) -> boundary_header c = part_header r n ->
  Forall (fun x => 0 <= x.1 < x.2 /\ x.2 <= clen) sel ->
  buf_ok b -> buf_in b -> ngx_buf_special b = false -> Z.of_nat (length (buf_data mem files b)) = clen ->
  let body := response_data mem files (body_calls true (Some c) [b :: rest]).2 in
  body = concat ((fun x => part_header r n ++ (range_text x.1 (x.2 - 1) clen ++ CRLF ++ CRLF)
                           ++ cut 0 x.1 x.2 (buf_data mem files b)) <$> sel)
         ++ CRLF ++ bytes "--" ++ padded n ++ bytes "--" ++ CRLF /\
  Z.of_nat (length body) = 28 + parts_size (Z.of_nat (length (part_header r n))) clen (to_range <$> sel).
Proof.
  intros Hn Hne Ho Hr Hbh Hin Hb Hbi Hsp Hlen body.
  destruct (body_filter_multi true mem files c b rest) as (c' & seen & st & Hcall & Hst); try done.
  { by rewrite Hr, !length_fmap. }
  { rewrite Hr, (buf_size mem files b Hb), Hlen, !Forall_fmap. exact Hin. }
  assert (body = multipart_text c (buf_data mem files b)) as ->.
  { subst body. cbn [body_calls]. rewrite Hcall. cbn. by rewrite app_nil_r. }
  unfold multipart_text, last_boundary. rewrite Hbh, part_header_prefix, Hr by done. split.
  - rewrite <- !app_assoc. f_equal. by rewrite <- !list_fmap_compose.
  - rewrite length_app, Nat2Z.inj_add, (parts_length clen) by done.
    rewrite !length_app, padded_length by done. change (length CRLF) with 2%nat. change (length (bytes "--")) with 2%nat. lia.
Qed.

Lemma partial_body_multi n r sel content : Z.of_nat (length sel) <> 1 ->
  partial_body n r sel content
  = concat ((fun x => part_header r n ++ (range_text x.1 (x.2 - 1) (content_length_n r) ++ CRLF ++ CRLF)
                        ++ cut 0 x.1 x.2 content) <$> sel)
      ++ CRLF ++ bytes "--" ++ padded n ++ bytes "--" ++ CRLF.
Proof. intros H. by destruct sel as [|[s e] [|]]. Qed.

(** C28. For a response that the header filter looks at ([partial]: a main request,
    status 200, a known size, ranges allowed, If-Range passed, a content type
    that is not too long) and that is sent from the start of its content, and for
    a Range header that [range_header_reply] is about: when the header filter has
    announced a partial response for one range, the body filter sends its bytes,
    however the content comes in buffers and calls; for several it sends a part
    with its header for each range and the last boundary, provided that the whole
    content is in the first buffer of the one call and that this buffer is not
    special ([delivers]).  Content-Length is the number of bytes sent, if that is
    below 2^63.  The limit on the sum of the sizes is needed: see
    [range_reads_before]. *)
Theorem partial_response mem files addr n r pre bs ts r' c ins :
  0 <= addr < 2 ^ 63 -> 0 <= n < 2 ^ 64 -> partial r -> asks r pre (join ts) -> content_offset r = 0 ->
  Forall2 spells bs ts -> asked_all (content_length_n r) bs < 2 ^ 63 ->
  ngx_http_range_header_filter addr n r None = Some (Next r' (Some c)) ->
  let sel := omap (selects (content_length_n r)) bs in
  delivers mem files sel ins -> Z.of_nat (length (calls_data mem files ins)) = content_length_n r ->
  let body := response_data mem files (body_calls true (Some c) ins).2 in
  body = partial_body n r sel (calls_data mem files ins) /\
  (Z.of_nat (length body) < 2 ^ 63 -> content_length_n r' = Z.of_nat (length body)).
Proof.
  intros Ha Hn Hp Hask Ho Hbs Hasked Hf sel [Hok Hdel] Hlen body.
  destruct (filter_replies addr n r pre bs ts Ha Hn Hp Hask Hbs Hasked) as (o & Hf' & Hrep).
  rewrite Hf in Hf'. injection Hf' as <-. cbn [replies] in Hrep. destruct Hrep as (Hrc & _ & _ & Hoff & Hsel).
  fold sel in Hrc, Hsel. rewrite Ho in Hoff. destruct Hp as (_ & _ & _ & Hclen & _).
  assert (Forall (fun x => 0 <= x.1 < x.2 /\ x.2 <= content_length_n r) sel) as Hin.
  { apply (all_selects_in _ _ ts); [done|done|]. by apply (reply_ok _ (max_of r) _ sel). }
  destruct (decide (Z.of_nat (length sel) = 1)) as [H1|H1].
  - destruct sel as [|[s e] [|]]; try (simpl in H1; lia). destruct Hsel as (Hr & Hcl & _).
    inversion_clear Hin as [|?? [Hs He] _]. cbn [fst snd] in *.
    pose proof (body_calls_single true mem files c (Range s e []) ins Hr Hok ltac:(cbn; lia)) as Hd.
    subst body. destruct (body_calls true (Some c) ins) as [c' ss]. destruct Hd as [Hd _]. cbn [snd].
    rewrite Hd, Hoff. cbn [r_start r_end partial_body]. split; [done|]. intros _. rewrite Hcl.
    by rewrite cut_length by lia.
  - assert (exists b rest, ins = [b :: rest] /\ ngx_buf_special b = false /\ buf_in b /\ bufs_data mem files rest = [])
      as (b & rest & -> & Hsp & Hbi & Hrest) by (by destruct sel as [|x [|]]).
    assert (calls_data mem files [b :: rest] = buf_data mem files b) as Hcd.
    { unfold calls_data. cbn [fmap list_fmap concat]. by rewrite bufs_data_cons, Hrest, !app_nil_r. }
    rewrite Hcd in *. inversion_clear Hok as [|?? Hb _]. inversion_clear Hb as [|?? Hb0 _].
    assert (ranges c = with_text (content_length_n r) <$> (to_range <$> sel) /\ boundary_header c = part_header r n /\
      content_length_n r' = s64 (28 + parts_size (Z.of_nat (length (part_header r n))) (content_length_n r) (to_range <$> sel)))
      as (Hr & Hbh & Hcl) by (destruct sel as [|[s e] [|]]; [tauto|simpl in H1; lia|tauto]).
    destruct (multi_response mem files n r c _ sel b rest Hn H1 Hoff Hr Hbh Hin Hb0 Hbi Hsp Hlen) as [Hbody Hsize].
    rewrite partial_body_multi by done. split; [exact Hbody|]. intros Hlt. fold body in Hsize.
    rewrite Hcl, s64_small, Hsize; [done|]. lia.
Qed.

(** ** Examples *)

Definition sample_files : Z -> memory := fun _ => load 0 [].

(** A buffer of [n] bytes in memory from address [a] on. *)
Definition memory_buf (a n : Z) : buf := Buf a (a + n) 0 0 0 false true false false false false false false.

Definition letters : list Z := bytes "abcdefghijklmnopqrst".

(** The letters in buffers of 3, 9 and 8 bytes, in two calls. *)
Lemma singlepart_body_slice_witness :
  let ins := [[memory_buf 1 3; memory_buf 4 9]; [memory_buf 13 8]] in
  let '(c', ss) := body_calls true (Some (Ctx 0 [] [Range 2 11 []])) ins in
  response_data (load 1 letters) sample_files ss = bytes "cdefghijk" /\
  (0 < 11 <= 0 + 20 ->
   exists ss1 l b ss2, ss = ss1 ++ Pass (l ++ [Content b]) :: ss2 /\ marked true b /\
     response_data (load 1 letters) sample_files ss2 = []).
Proof.
  refine (singlepart_body_slice true (load 1 letters) sample_files (Ctx 0 [] [Range 2 11 []]) (Range 2 11 [])
    [[memory_buf 1 3; memory_buf 4 9]; [memory_buf 13 8]] eq_refl _ eq_refl).
  repeat constructor; vm_compute; congruence.
Defined.

Lemma partial_response_witness :
  exists r' c, ngx_http_range_header_filter 4096 7 small_request None = Some (Next r' (Some c)) /\
    let body := response_data (load 1 letters) sample_files (body_calls true (Some c) [[memory_buf 1 20]]).2 in
    body = partial_body 7 small_request [(2, 5); (15, 20)] letters /\
    (Z.of_nat (length body) < 2 ^ 63 -> content_length_n r' = Z.of_nat (length body)).
Proof.
  eexists _, _. split; [vm_compute; reflexivity|].
  apply (partial_response (load 1 letters) sample_files 4096 7 small_request (bytes "Bytes=") small_ranges small_texts);
    [done|done|exact small_request_partial|exact small_request_asks|done|exact small_spells|done|vm_compute; reflexivity| |done].
  split; [repeat constructor; vm_compute; congruence|].
  exists (memory_buf 1 20), []. by split_and!.
Defined.

(** With the sum of the sizes wrapped the body filter reads before the content:
    it lies in a cache file from byte 600 on, and is sent from byte 100 on. *)
Example range_reads_before :
  match ngx_http_range_header_filter 4096 7 (sample_request "bytes=-1500,-9223372036854774308") None with
  | Some (Next r (Some c)) =>
      match ngx_http_range_body_filter true (Some c)
              [Buf 0 0 600 1600 3 false false false true false false true true] with
      | (_, _, Pass (_ :: _ :: Content b :: _)) => (status r, b_file_pos b, b_file_last b) = (206, 100, 1600)
      | _ => False
      end
  | _ => False
  end.
Proof. vm_compute. reflexivity. Qed.

(** A buffer that is skipped behind a special one stays in its chain, with no
    bytes left. *)
Example special_keeps_skipped :
  let flush := Buf 0 0 0 0 0 false false false false true false false false in
  let '(_, _, out) := singlepart_loop true (Range 100 200 []) 0 [flush; memory_buf 1 20] in
  match out with
  | Some [f; b] => (ngx_buf_size b, ngx_buf_special b) = (0, false)
  | _ => False
  end.
Proof. vm_compute. reflexivity. Qed.
