(* ===== verification/NgxRbtree.v ===== *)
(** * NgxRbtree: red-black trees

    core/ngx_rbtree.c and ngx_rbtree.h: insertion, deletion, minimum and
    successor, on nodes with parent pointers in a heap.  Keys are [ngx_uint_t];
    a tree is its root pointer, and the nodes that are reached from it until
    the sentinel. *)

From S2P Require Import Prelude NgxSprintf.

(** ** Data *)

(* core/ngx_rbtree.h:20-29 ngx_rbtree_node_s *)
Record node : Type := Node {
  n_key : Z;
  n_left : Z;
  n_right : Z;
  n_parent : Z;
  n_color : Z
}.

(** The nodes by their addresses, and [tree->root]. *)
(* core/ngx_rbtree.h:32-41 ngx_rbtree_s *)
Record state : Type := State { heap : Z -> node; root : Z }.

(** The two sides of a node. *)
Inductive side : Type := L | R.

#[export] Instance side_eq_dec : EqDecision side.
Proof. solve_decision. Defined.

Definition other (d : side) : side := match d with L => R | R => L end.

Definition key (st : state) (a : Z) : Z := n_key (heap st a).
Definition parent (st : state) (a : Z) : Z := n_parent (heap st a).
Definition color (st : state) (a : Z) : Z := n_color (heap st a).
Definition child (d : side) (st : state) (a : Z) : Z :=
  match d with L => n_left (heap st a) | R => n_right (heap st a) end.

(** [a->field = v]. *)
Definition upd (a : Z) (f : node -> node) (st : state) : state :=
  State (fun x => if x =? a then f (heap st x) else heap st x) (root st).

Definition set_root (a : Z) (st : state) : state := State (heap st) a.
Definition set_key (a v : Z) : state -> state :=
  upd a (fun x => Node v (n_left x) (n_right x) (n_parent x) (n_color x)).
Definition set_parent (a v : Z) : state -> state :=
  upd a (fun x => Node (n_key x) (n_left x) (n_right x) v (n_color x)).
Definition set_color (a v : Z) : state -> state :=
  upd a (fun x => Node (n_key x) (n_left x) (n_right x) (n_parent x) v).
Definition set_child (d : side) (a v : Z) : state -> state :=
  upd a (fun x => match d with
                  | L => Node (n_key x) v (n_right x) (n_parent x) (n_color x)
                  | R => Node (n_key x) (n_left x) v (n_parent x) (n_color x)
                  end).

(* core/ngx_rbtree.h:61-65 ngx_rbt_red, ngx_rbt_black, ngx_rbt_is_red, ngx_rbt_is_black, ngx_rbt_copy_color *)
Definition ngx_rbt_red (a : Z) : state -> state := set_color a 1.
Definition ngx_rbt_black (a : Z) : state -> state := set_color a 0.
Definition ngx_rbt_is_red (st : state) (a : Z) : bool := negb (color st a =? 0).
Definition ngx_rbt_is_black (st : state) (a : Z) : bool := negb (ngx_rbt_is_red st a).
Definition ngx_rbt_copy_color (a b : Z) (st : state) : state := set_color a (color st b) st.

(** ** The operations

    Loops take a number of turns, [None] when it is used up: [rb_fuel] is
    enough for any tree that fits in memory. *)

Section Tree.
(** [tree->sentinel]. *)
Context (s : Z).

Definition rb_fuel : nat := 160.

(* core/ngx_rbtree.h:44-48 ngx_rbtree_init *)
Definition ngx_rbtree_init (st : state) : state := set_root s (ngx_rbt_black s st).

(** [ngx_rbtree_left_rotate] for [L], [ngx_rbtree_right_rotate] for [R]: the two
    functions are mirror images. *)
(* core/ngx_rbtree.c:323-380 ngx_rbtree_left_rotate, ngx_rbtree_right_rotate *)
Definition ngx_rbtree_rotate (d : side) (node : Z) (st : state) : state :=
  let temp := child (other d) st node in
  let st := set_child (other d) node (child d st temp) st in
  let st := if negb (child d st temp =? s) then set_parent (child d st temp) node st else st in
  let st := set_parent temp (parent st node) st in
  let st :=
    if node =? root st then set_root temp st
    else if node =? child d st (parent st node) then set_child d (parent st node) temp st
    else set_child (other d) (parent st node) temp st in
  let st := set_child d temp node st in
  set_parent node temp st.

(** Down from [temp] to a free place for [node]: the last node and the side.
    [less] compares two nodes, with their keys. *)
(* core/ngx_rbtree.c:102-111 ngx_rbtree_insert_value: for *)
Fixpoint descend (fuel : nat) (less : Z * Z -> Z * Z -> bool) (st : state) (temp node : Z) : option (Z * side) :=
  match fuel with
  | O => None
  | S fuel =>
      let p := if less (node, key st node) (temp, key st temp) then L else R in
      if child p st temp =? s then Some (temp, p)
      else descend fuel less st (child p st temp) node
  end.

(* core/ngx_rbtree.c:113-117 ngx_rbtree_insert_value: after the loop *)
Definition attach (temp node : Z) (p : side) (st : state) : state :=
  ngx_rbt_red node (set_child R node s (set_child L node s (set_parent node temp (set_child p temp node st)))).

Definition insert_with (less : Z * Z -> Z * Z -> bool) (temp node : Z) (st : state) : option state :=
  '(temp, p) ← descend rb_fuel less st temp node; Some (attach temp node p st).

(** [node->key < temp->key], and the comparison that allows for overflow. *)
Definition value_less (x y : Z * Z) : bool := x.2 <? y.2.
(* core/ngx_rbtree.c:136-139 ngx_rbtree_insert_timer_value: p *)
Definition timer_less (x y : Z * Z) : bool := s64 (u64 (x.2 - y.2)) <? 0.

(* core/ngx_rbtree.c:96-118 ngx_rbtree_insert_value *)
Definition ngx_rbtree_insert_value := insert_with value_less.
(* core/ngx_rbtree.c:121-153 ngx_rbtree_insert_timer_value *)
Definition ngx_rbtree_insert_timer_value := insert_with timer_less.

(** The body of the loop, for a parent on the side [d] of its parent: the
    state and the next node. *)
(* core/ngx_rbtree.c:50-89 ngx_rbtree_insert: the body of the loop *)
Definition insert_turn (d : side) (node : Z) (st : state) : state * Z :=
  let temp := child (other d) st (parent st (parent st node)) in
  if ngx_rbt_is_red st temp then
    let st := ngx_rbt_black (parent st node) st in
    let st := ngx_rbt_black temp st in
    let st := ngx_rbt_red (parent st (parent st node)) st in
    (st, parent st (parent st node))
  else
    let '(st, node) :=
      if node =? child (other d) st (parent st node) then
        let node := parent st node in (ngx_rbtree_rotate d node st, node)
      else (st, node) in
    let st := ngx_rbt_black (parent st node) st in
    let st := ngx_rbt_red (parent st (parent st node)) st in
    (ngx_rbtree_rotate (other d) (parent st (parent st node)) st, node).

(* core/ngx_rbtree.c:46-92 ngx_rbtree_insert: re-balance tree *)
Fixpoint insert_balance (fuel : nat) (node : Z) (st : state) : option state :=
  match fuel with
  | O => None
  | S fuel =>
      if negb (node =? root st) && ngx_rbt_is_red st (parent st node) then
        let d := if parent st node =? child L st (parent st (parent st node)) then L else R in
        let '(st, node) := insert_turn d node st in
        insert_balance fuel node st
      else Some (ngx_rbt_black (root st) st)
  end.

(** [insert] is [tree->insert]. *)
(* core/ngx_rbtree.c:24-93 ngx_rbtree_insert *)
Definition ngx_rbtree_insert (insert : Z -> Z -> state -> option state) (node : Z) (st : state)
  : option state :=
  if root st =? s then
    let st := set_parent node NULL st in
    let st := set_child L node s st in
    let st := set_child R node s st in
    let st := ngx_rbt_black node st in
    Some (set_root node st)
  else
    st ← insert (root st) node st;
    insert_balance rb_fuel node st.

(* core/ngx_rbtree.h:76-80 ngx_rbtree_min: while *)
Fixpoint min_loop (fuel : nat) (node : Z) (st : state) : option Z :=
  match fuel with
  | O => None
  | S fuel => if negb (child L st node =? s) then min_loop fuel (child L st node) st else Some node
  end.
(* core/ngx_rbtree.h:73-81 ngx_rbtree_min *)
Definition ngx_rbtree_min : Z -> state -> option Z := min_loop rb_fuel.

(** The body of the loop, for a node on the side [d] of its parent: the state
    and the next node; first the part with a black sibling [w]. *)
(* core/ngx_rbtree.c:269-287 ngx_rbtree_delete: if (ngx_rbt_is_black(w->left) && ngx_rbt_is_black(w->right)) *)
Definition delete_turn_black (d : side) (temp w : Z) (st : state) : state * Z :=
  if ngx_rbt_is_black st (child d st w) && ngx_rbt_is_black st (child (other d) st w) then
    let st := ngx_rbt_red w st in
    (st, parent st temp)
  else
    let '(st, w) :=
      if ngx_rbt_is_black st (child (other d) st w) then
        let st := ngx_rbt_black (child d st w) st in
        let st := ngx_rbt_red w st in
        let st := ngx_rbtree_rotate (other d) w st in
        (st, child (other d) st (parent st temp))
      else (st, w) in
    let st := ngx_rbt_copy_color w (parent st temp) st in
    let st := ngx_rbt_black (parent st temp) st in
    let st := ngx_rbt_black (child (other d) st w) st in
    let st := ngx_rbtree_rotate d (parent st temp) st in
    (st, root st).

(* core/ngx_rbtree.c:259-317 ngx_rbtree_delete: the body of the loop *)
Definition delete_turn (d : side) (temp : Z) (st : state) : state * Z :=
  let w := child (other d) st (parent st temp) in
  if ngx_rbt_is_red st w then
    let st := ngx_rbt_black w st in
    let st := ngx_rbt_red (parent st temp) st in
    let st := ngx_rbtree_rotate d (parent st temp) st in
    delete_turn_black d temp (child (other d) st (parent st temp)) st
  else delete_turn_black d temp w st.

(* core/ngx_rbtree.c:255-320 ngx_rbtree_delete: a delete fixup *)
Fixpoint delete_fixup (fuel : nat) (temp : Z) (st : state) : option state :=
  match fuel with
  | O => None
  | S fuel =>
      if negb (temp =? root st) && ngx_rbt_is_black st temp then
        let d := if temp =? child L st (parent st temp) then L else R in
        let '(st, temp) := delete_turn d temp st in
        delete_fixup fuel temp st
      else Some (ngx_rbt_black temp st)
  end.

(** DEBUG stuff. *)
(* core/ngx_rbtree.c:245-249 ngx_rbtree_delete: DEBUG stuff *)
Definition clear (node : Z) (st : state) : state :=
  set_key node 0 (set_parent node NULL (set_child R node NULL (set_child L node NULL st))).

(** [subst] in the place of [node]. *)
(* core/ngx_rbtree.c:219-241 ngx_rbtree_delete: subst for node *)
Definition replace (node subst : Z) (st : state) : state :=
  let st := set_child L subst (child L st node) st in
  let st := set_child R subst (child R st node) st in
  let st := set_parent subst (parent st node) st in
  let st := ngx_rbt_copy_color subst node st in
  let st :=
    if node =? root st then set_root subst st
    else if node =? child L st (parent st node) then set_child L (parent st node) subst st
    else set_child R (parent st node) subst st in
  let st := if negb (child L st subst =? s) then set_parent (child L st subst) subst st else st in
  if negb (child R st subst =? s) then set_parent (child R st subst) subst st else st.

(* core/ngx_rbtree.c:165-183 ngx_rbtree_delete: a binary tree delete *)
Definition choose_subst (node : Z) (st : state) : option (Z * Z) :=
  if child L st node =? s then Some (node, child R st node)
  else if child R st node =? s then Some (node, child L st node)
  else
    subst ← ngx_rbtree_min (child R st node) st;
    Some (subst, if negb (child L st subst =? s) then child L st subst else child R st subst).

(* core/ngx_rbtree.c:156-321 ngx_rbtree_delete *)
Definition ngx_rbtree_delete (node : Z) (st : state) : option state :=
  '(subst, temp) ← choose_subst node st;
  if subst =? root st then
    let st := set_root temp st in
    let st := ngx_rbt_black temp st in
    Some (clear node st)
  else
    let red := ngx_rbt_is_red st subst in
    let st :=
      if subst =? child L st (parent st subst) then set_child L (parent st subst) temp st
      else set_child R (parent st subst) temp st in
    let st :=
      if subst =? node then set_parent temp (parent st subst) st
      else
        let st :=
          if parent st subst =? node then set_parent temp subst st
          else set_parent temp (parent st subst) st in
        replace node subst st in
    let st := clear node st in
    if red then Some st else delete_fixup rb_fuel temp st.

(** Up from [node]; [Some None] stands for the end, NULL. *)
(* core/ngx_rbtree.c:396-408 ngx_rbtree_next: for *)
Fixpoint next_loop (fuel : nat) (node : Z) (st : state) : option (option Z) :=
  match fuel with
  | O => None
  | S fuel =>
      let parent := parent st node in
      if node =? root st then Some None
      else if node =? child L st parent then Some (Some parent)
      else next_loop fuel parent st
  end.

(* core/ngx_rbtree.c:383-409 ngx_rbtree_next *)
Definition ngx_rbtree_next (node : Z) (st : state) : option (option Z) :=
  if negb (child R st node =? s) then Some <$> ngx_rbtree_min (child R st node) st
  else next_loop rb_fuel node st.

End Tree.

(** Ten insertions and three deletions with the sentinel at 0, node [a] with
    the key [7 a mod 11]. *)
Definition sample_heap : state := State (fun a => Node ((7 * a) `mod` 11) 0 0 0 0) 0.

Fixpoint in_order (fuel : nat) (s a : Z) (st : state) : list Z :=
  match fuel with
  | O => []
  | S fuel =>
      if a =? s then []
      else in_order fuel s (child L st a) st ++ [a] ++ in_order fuel s (child R st a) st
  end.

Example rbtree_example :
  (st ← foldr (fun a o => st ← o; ngx_rbtree_insert 0 (ngx_rbtree_insert_value 0) a st) (Some sample_heap) (rev (seqZ 1 10));
   st ← foldr (fun a o => st ← o; ngx_rbtree_delete 0 a st) (Some st) [3; 5; 1];
   Some (in_order 8 0 (root st) st, ngx_rbtree_next 0 2 st)) =
  Some ([8; 2; 10; 7; 4; 9; 6], Some (Some 10)).
Proof. vm_compute. reflexivity. Qed.
