(* ===== verification/NgxRbtreeShape.v ===== *)
(** * NgxRbtreeShape: trees with a hole, and what rotations do to them

    The heap is related to an inductive tree [tree] whose nodes carry their
    addresses; a path from the root to a place in it is a list of frames. *)

From S2P Require Import Prelude NgxRbtree.

(** ** Trees and paths *)

Inductive tree : Type :=
  | E
  | T (c : bool) (l : tree) (a k : Z) (r : tree).

(** The node [a] with [x] on the side [d] and [y] on the other. *)
Definition mk (d : side) (c : bool) (a k : Z) (x y : tree) : tree :=
  match d with L => T c x a k y | R => T c y a k x end.

(** A node whose subtree on the side [f_side] is the hole. *)
Record frame : Type := Frame { f_side : side; f_red : bool; f_node : Z; f_key : Z; f_sib : tree }.

(** The path, from the hole to the root. *)
Definition path := list frame.

Fixpoint plug (ctx : path) (t : tree) : tree :=
  match ctx with
  | [] => t
  | f :: ctx => plug ctx (mk (f_side f) (f_red f) (f_node f) (f_key f) t (f_sib f))
  end.

(** The nodes in order, with their keys. *)
Fixpoint inorder (t : tree) : list (Z * Z) :=
  match t with
  | E => []
  | T _ l a k r => inorder l ++ (a, k) :: inorder r
  end.

Definition nodes (t : tree) : list Z := (inorder t).*1.

(** The nodes of a path. *)
Fixpoint path_nodes (ctx : path) : list Z :=
  match ctx with
  | [] => []
  | f :: ctx => f_node f :: nodes (f_sib f) ++ path_nodes ctx
  end.

Definition is_E (t : tree) : bool := match t with E => true | _ => false end.
Definition red (t : tree) : bool := match t with E => false | T c _ _ _ _ => c end.

#[global] Arguments nodes : simpl never.

Lemma nodes_mk d c a k x y : nodes (mk d c a k x y) ≡ₚ (a :: (nodes x ++ nodes y)).
Proof.
  unfold nodes. destruct d; cbn; rewrite fmap_app; cbn; [by rewrite Permutation_middle|].
  rewrite <- Permutation_middle. by rewrite (Permutation_app_comm (inorder x).*1).
Qed.

Lemma nodes_self c l a k r : a ∈ nodes (T c l a k r).
Proof. change (T c l a k r) with (mk L c a k l r). rewrite nodes_mk. apply elem_of_cons. by left. Qed.

Lemma nodes_plug ctx t : nodes (plug ctx t) ≡ₚ (nodes t ++ path_nodes ctx).
Proof.
  revert t. induction ctx as [|f ctx IH]; intros t; cbn; [by rewrite app_nil_r|].
  rewrite IH, nodes_mk. cbn. by rewrite <- app_assoc, <- Permutation_middle.
Qed.

Lemma red_mk d c a k x y : red (mk d c a k x y) = c.
Proof. by destruct d. Qed.

(** What comes before and behind the hole. *)
Fixpoint before (ctx : path) : list (Z * Z) :=
  match ctx with
  | [] => []
  | f :: ctx =>
      match f_side f with
      | L => before ctx
      | R => before ctx ++ inorder (f_sib f) ++ [(f_node f, f_key f)]
      end
  end.
Fixpoint behind (ctx : path) : list (Z * Z) :=
  match ctx with
  | [] => []
  | f :: ctx =>
      match f_side f with
      | L => (f_node f, f_key f) :: inorder (f_sib f) ++ behind ctx
      | R => behind ctx
      end
  end.

Lemma inorder_plug ctx t : inorder (plug ctx t) = before ctx ++ inorder t ++ behind ctx.
Proof.
  revert t. induction ctx as [|[[] c a k sib] ctx IH]; intros t; cbn; [by rewrite app_nil_r|..].
  - rewrite IH. cbn. by rewrite <- app_assoc.
  - rewrite IH. cbn. by rewrite <- !app_assoc.
Qed.

Lemma inorder_plug_ext ctx t t' : inorder t = inorder t' -> inorder (plug ctx t) = inorder (plug ctx t').
Proof. intros H. by rewrite !inorder_plug, H. Qed.

Lemma other_other d : other (other d) = d.
Proof. by destruct d. Qed.

(** A rotation does not change the order. *)
Lemma inorder_rotate d c a k c' a' k' c1 c1' x y z :
  inorder (mk d c1' a' k' (mk d c1 a k x y) z) = inorder (mk d c a k x (mk (other d) c' a' k' z y)).
Proof. destruct d; cbn; by rewrite <- ?app_assoc. Qed.

(** ** The heap *)

Section Shape.
Context (s : Z).
Implicit Types (st : state) (d : side) (a p : Z) (t : tree) (ctx : path).

Definition color_of (c : bool) : Z := if c then 1 else 0.

(** The tree [t] is at [a]; [p] is the parent of its root. *)
Fixpoint sub st p a t : Prop :=
  match t with
  | E => a = s
  | T c l n k r =>
      a = n /\ parent st n = p /\ color st n = color_of c /\ key st n = k /\
      sub st n (child L st n) l /\ sub st n (child R st n) r
  end.

(** The hole of [ctx] is at [a], and [p] is its parent; that of the root is not known. *)
Fixpoint up st p a ctx : Prop :=
  match ctx with
  | [] => root st = a
  | Frame d c n k sib :: ctx =>
      p = n /\ child d st n = a /\ color st n = color_of c /\ key st n = k /\
      sub st n (child (other d) st n) sib /\ up st (parent st n) n ctx
  end.

(** The heap holds [t] in the hole of [ctx]; the sentinel is black. *)
Definition zip st p a ctx t : Prop :=
  up st p a ctx /\ sub st p a t /\ NoDup (nodes t ++ path_nodes ctx) /\
  s ∉ nodes t ++ path_nodes ctx /\ color st s = 0.

Lemma sub_mk st p a d c n k x y :
  sub st p a (mk d c n k x y) <->
  a = n /\ parent st n = p /\ color st n = color_of c /\ key st n = k /\
  sub st n (child d st n) x /\ sub st n (child (other d) st n) y.
Proof. destruct d; cbn; tauto. Qed.

Lemma zip_frame_nodes d c n k sib ctx t :
  (nodes t ++ path_nodes (Frame d c n k sib :: ctx)) ≡ₚ (nodes (mk d c n k t sib) ++ path_nodes ctx).
Proof. rewrite nodes_mk. cbn. by rewrite <- Permutation_middle, <- app_assoc. Qed.

(** Moving the hole down to a child and up again. *)
Lemma zip_down st p a ctx d c n k x y :
  zip st p a ctx (mk d c n k x y) <->
  a = n /\ p = parent st n /\ zip st n (child d st n) (Frame d c n k y :: ctx) x.
Proof.
  unfold zip. rewrite sub_mk, (zip_frame_nodes d c n k y ctx x). cbn [up].
  split; [intros (?&(?&?&?&?&?&?)&?&?&?); subst; by split_and!|].
  intros (?&?&(?&?&?&?&?&?)&?&?&?&?). subst. by split_and!.
Qed.

Lemma zip_down_eq st p ctx d c n k x y :
  zip st p n ctx (mk d c n k x y) -> zip st n (child d st n) (Frame d c n k y :: ctx) x.
Proof. intros H. by apply zip_down in H as (_ & _ & H). Qed.

Lemma zip_into st p a ctx d c n k x y :
  zip st p a ctx (mk d c n k x y) -> zip st n (child d st n) (Frame d c n k y :: ctx) x.
Proof. intros H. by apply zip_down in H as (_ & _ & H). Qed.

Lemma zip_up st p a d c n k y ctx x :
  zip st p a (Frame d c n k y :: ctx) x -> p = n /\ a = child d st n /\ zip st (parent st n) n ctx (mk d c n k x y).
Proof.
  intros H. assert (p = n /\ a = child d st n) as [-> ->] by (destruct H as ((-> & -> & _) & _); done).
  split; [done|]. split; [done|]. by apply zip_down.
Qed.

Lemma sub_root st p a t : sub st p a t -> a = s \/ a ∈ nodes t.
Proof.
  destruct t as [|c l n k r]; [by left|]. intros [-> _]. right.
  change (T c l n k r) with (mk L c n k l r). rewrite nodes_mk. set_solver.
Qed.

Lemma zip_node st p a ctx d c n k x y :
  zip st p a ctx (mk d c n k x y) ->
  n <> s /\ n ∉ nodes x /\ n ∉ nodes y /\ n ∉ path_nodes ctx /\
  (forall v, v ∈ nodes x -> v <> s /\ v ∉ nodes y /\ v ∉ path_nodes ctx) /\
  (forall v, v ∈ nodes y -> v <> s /\ v ∉ path_nodes ctx) /\ s ∉ path_nodes ctx.
Proof.
  intros (_ & _ & Hnd & Hs & _). rewrite nodes_mk in Hnd, Hs. cbn in Hnd.
  apply NoDup_cons in Hnd as [Hn Hnd]. rewrite <- app_assoc in Hnd.
  apply NoDup_app in Hnd as (_ & Hx & Hnd). apply NoDup_app in Hnd as (_ & Hy & _).
  set_solver.
Qed.

(** ** Frame properties *)

(** [st'] has the nodes [l] of [st]. *)
Definition same st st' (l : list Z) : Prop := forall v, v ∈ l -> heap st' v = heap st v.

Lemma sub_same st st' p a t : same st st' (nodes t) -> sub st p a t -> sub st' p a t.
Proof.
  revert p a. induction t as [|c l IHl n k r IHr]; intros p a Hh; cbn; [done|].
  assert (same st st' (n :: nodes l ++ nodes r)) as Hh'.
  { intros v Hv. apply Hh. change (T c l n k r) with (mk L c n k l r). by rewrite nodes_mk. }
  unfold parent, color, key, child. rewrite (Hh' n) by set_solver.
  intros (?&?&?&?&?&?). split_and!; try done.
  - apply IHl; [|done]. intros v Hv. apply Hh'. set_solver.
  - apply IHr; [|done]. intros v Hv. apply Hh'. set_solver.
Qed.

(** The parent pointer of the root is another. *)
Lemma sub_reparent st st' p p' a t :
  (forall v, v ∈ nodes t -> v <> a -> heap st' v = heap st v) ->
  (t <> E -> heap st' a = let x := heap st a in Node (n_key x) (n_left x) (n_right x) p' (n_color x)) ->
  NoDup (nodes t) -> sub st p a t -> sub st' p' a t.
Proof.
  destruct t as [|c l n k r]; [done|]. intros Hv Ha Hnd (-> & Hp & Hc & Hk & Hl & Hr).
  change (T c l n k r) with (mk L c n k l r) in *. rewrite nodes_mk in Hnd.
  apply NoDup_cons in Hnd as [Hn _]. specialize (Ha ltac:(done)). cbn in Ha.
  assert (same st st' (nodes l ++ nodes r)) as Hs.
  { intros v Hv'. apply Hv; [rewrite nodes_mk; set_solver|]. intros ->. done. }
  unfold parent, color, key, child in *. cbn. unfold parent, color, key, child. rewrite Ha. cbn. split_and!; try done.
  - eapply sub_same; [|exact Hl]. intros v ?. apply Hs. set_solver.
  - eapply sub_same; [|exact Hr]. intros v ?. apply Hs. set_solver.
Qed.

Lemma up_same st st' p a ctx : same st st' (path_nodes ctx) -> root st' = root st -> up st p a ctx -> up st' p a ctx.
Proof.
  revert p a. induction ctx as [|[d c n k sib] ctx IH]; intros p a Hh Hr; cbn [up path_nodes f_node f_sib]; [congruence|].
  assert (heap st' n = heap st n) as Hn by (apply Hh; cbn; set_solver).
  intros (-> & Hc & ? & ? & Hsib & Hup). unfold child, parent, color, key in *. rewrite Hn. split_and!; try done.
  - eapply sub_same; [|exact Hsib]. intros v ?. apply Hh. cbn. set_solver.
  - apply IH; [|done|done]. intros v ?. apply Hh. cbn. set_solver.
Qed.

(** The pointer to the hole is another: in the root, or in the node [p]. *)
Definition repoint st st' ctx a' : Prop :=
  match ctx with
  | [] => root st' = a'
  | f :: _ =>
      root st' = root st /\
      heap st' (f_node f) =
        let x := heap st (f_node f) in
        match f_side f with
        | L => Node (n_key x) a' (n_right x) (n_parent x) (n_color x)
        | R => Node (n_key x) (n_left x) a' (n_parent x) (n_color x)
        end
  end.

Lemma up_repoint st st' p a a' ctx :
  (forall v, v ∈ path_nodes ctx -> match ctx with [] => True | f :: _ => v <> f_node f end -> heap st' v = heap st v) ->
  NoDup (path_nodes ctx) -> repoint st st' ctx a' -> up st p a ctx -> up st' p a' ctx.
Proof.
  destruct ctx as [|[d c n k sib] ctx]; cbn [up path_nodes repoint f_node f_side f_sib]; [done|].
  intros Hv Hnd [Hr Hn] (-> & Hc & Hcol & Hk & Hsib & Hup). apply NoDup_cons in Hnd as [Hn' Hnd].
  assert (same st st' (nodes sib ++ path_nodes ctx)) as Hs.
  { intros v Hv'. apply Hv; [set_solver|]. intros ->. done. }
  unfold child, parent, color, key in *. cbn in Hn. rewrite Hn.
  split_and!; [done|by destruct d|by destruct d|by destruct d| |].
  - eapply sub_same; [intros v ?; apply Hs; set_solver|]. by destruct d.
  - eapply up_same; [intros v ?; apply Hs; set_solver|done|]. by destruct d.
Qed.

Lemma up_root st p a ctx : up st p a ctx -> ctx <> [] -> root st ∈ path_nodes ctx.
Proof.
  revert p a. induction ctx as [|[d c n k sib] ctx IH]; intros p a Hup Hne; [done|].
  cbn in Hup. destruct Hup as (_ & _ & _ & _ & _ & Hup). cbn. destruct ctx as [|f ctx]; [cbn in Hup; set_solver|].
  specialize (IH _ _ Hup ltac:(done)). set_solver.
Qed.

(** The root is not a node under a path. *)
Lemma zip_not_root st p a ctx t : zip st p a ctx t -> ctx <> [] -> a <> root st.
Proof.
  intros (Hup & Hsub & Hnd & Hs & _) Hne ->. pose proof (up_root _ _ _ _ Hup Hne) as Hr.
  apply NoDup_app in Hnd as (_ & Hd & _). destruct (sub_root _ _ _ _ Hsub) as [Heq|Hin].
  - rewrite Heq in Hr. set_solver.
  - by apply (Hd (root st)).
Qed.

Lemma zip_root st p a t : zip st p a [] t -> root st = a.
Proof. by intros (Hup & _). Qed.

(** ** Writing to the heap *)

Lemma heap_eq st a f : heap (upd a f st) a = f (heap st a).
Proof. cbn. by rewrite Z.eqb_refl. Qed.
Lemma heap_ne st a f x : x <> a -> heap (upd a f st) x = heap st x.
Proof. intros H. cbn. by rewrite (proj2 (Z.eqb_neq _ _)). Qed.
Lemma root_upd a f st : root (upd a f st) = root st.
Proof. done. Qed.
Lemma heap_set_root a st x : heap (set_root a st) x = heap st x.
Proof. done. Qed.
End Shape.

(** Evaluates the heap at addresses that the context tells apart. *)
Ltac heap_eval :=
  repeat first
    [ rewrite heap_eq | rewrite heap_ne by (done || congruence) | rewrite heap_set_root | rewrite root_upd ].
Ltac heap_unfold :=
  unfold ngx_rbt_red, ngx_rbt_black, ngx_rbt_copy_color, set_child, set_parent, set_color, set_key in *;
  unfold child, parent, color, key in *.

Section Rotate.
Context (s : Z).

(** The heap after a rotation at [n]: five nodes at most have changed. *)
Lemma rotate_heap d st n m y p :
  child (other d) st n = m -> child d st m = y -> parent st n = p ->
  n <> m -> n <> y -> m <> y -> (n = root st \/ (n <> root st /\ p <> n /\ p <> m /\ p <> y)) ->
  let st' := ngx_rbtree_rotate s d n st in
  (forall v, v <> n -> v <> m -> (y <> s -> v <> y) -> (n <> root st -> v <> p) -> heap st' v = heap st v) /\
  (y <> s -> heap st' y = let x := heap st y in Node (n_key x) (n_left x) (n_right x) n (n_color x)) /\
  (n = root st -> root st' = m) /\
  (n <> root st -> root st' = root st /\
     heap st' p = let x := heap st p in
       if n =? child d st p then
         match d with L => Node (n_key x) m (n_right x) (n_parent x) (n_color x)
                    | R => Node (n_key x) (n_left x) m (n_parent x) (n_color x) end
       else
         match d with L => Node (n_key x) (n_left x) m (n_parent x) (n_color x)
                    | R => Node (n_key x) m (n_right x) (n_parent x) (n_color x) end) /\
  heap st' n = (let x := heap st n in
    match d with L => Node (n_key x) (n_left x) y m (n_color x)
               | R => Node (n_key x) y (n_right x) m (n_color x) end) /\
  heap st' m = (let x := heap st m in
    match d with L => Node (n_key x) n (n_right x) p (n_color x)
               | R => Node (n_key x) (n_left x) n p (n_color x) end).
Proof.
  intros Hm Hy Hp Hnm Hny Hmy Hr. unfold ngx_rbtree_rotate. rewrite Hm.
  assert (child d (set_child (other d) n (child d st m) st) m = y) as Hy'.
  { rewrite Hy. unfold child, set_child. rewrite heap_ne by done. by destruct d. }
  rewrite Hy', Hy.
  set (st1 := set_child (other d) n y st).
  set (st2 := if negb (y =? s) then set_parent y n st1 else st1).
  assert (parent st2 n = p /\ root st2 = root st) as [Hp2 Hr2].
  { subst st2 st1. destruct (negb (y =? s)); (split; [|done]); rewrite <- Hp;
      unfold parent, set_parent, set_child; heap_eval; by destruct d. }
  rewrite Hp2. replace (root (set_parent m p st2)) with (root st) by done.
  assert (parent (set_parent m p st2) n = p) as Hp3.
  { rewrite <- Hp2. unfold parent, set_parent. by heap_eval. }
  rewrite Hp3.
  assert (n <> root st -> child d (set_parent m p st2) p = child d st p) as Hc3.
  { intros Hn. destruct Hr as [?|(_ & H1 & H2 & H3)]; [done|]. subst st2 st1.
    unfold child, set_parent, set_child. destruct (negb (y =? s)); by heap_eval. }
  destruct (Z.eqb_spec n (root st)) as [Hn|Hn].
  - subst st2 st1. unfold set_parent, set_child.
    split_and!; try done.
    + intros v H1 H2 H3 _. destruct (Z.eqb_spec y s); cbn [negb]; heap_eval; [done|].
      specialize (H3 ltac:(done)). by heap_eval.
    + intros H. rewrite (proj2 (Z.eqb_neq _ _)) by done. cbn [negb]. by heap_eval.
    + destruct (negb (y =? s)); heap_eval; by destruct d.
    + destruct (negb (y =? s)); heap_eval; by destruct d.
  - rewrite (Hc3 Hn). destruct Hr as [?|(_ & Hpn & Hpm & Hpy)]; [done|]. subst st2 st1.
    unfold set_parent, set_child.
    split_and!; try done.
    + intros v H1 H2 H3 H4. specialize (H4 Hn). destruct (Z.eqb_spec y s), (n =? child d st p); cbn [negb]; heap_eval; try done;
        specialize (H3 ltac:(done)); by heap_eval.
    + intros H. rewrite (proj2 (Z.eqb_neq y s)) by done. cbn [negb]. destruct (n =? child d st p); by heap_eval.
    + intros _. split; [by destruct (n =? child d st p), (negb (y =? s))|].
      destruct (n =? child d st p), (negb (y =? s)); heap_eval; by destruct d.
    + destruct (n =? child d st p), (negb (y =? s)); heap_eval; by destruct d.
    + destruct (n =? child d st p), (negb (y =? s)); heap_eval; by destruct d.
Qed.

(** What the distinct nodes of a rotation know of each other. *)
Lemma rotate_nodes d c n k x c' m k' z y ctx :
  NoDup (nodes (mk d c n k x (mk (other d) c' m k' z y)) ++ path_nodes ctx) ->
  n <> m /\
  (forall v, v ∈ nodes x -> v <> n /\ v <> m /\ v ∉ nodes y /\ v ∉ path_nodes ctx) /\
  (forall v, v ∈ nodes y -> v <> n /\ v <> m /\ v ∉ nodes z /\ v ∉ path_nodes ctx) /\
  (forall v, v ∈ nodes z -> v <> n /\ v <> m /\ v ∉ nodes y /\ v ∉ path_nodes ctx) /\
  (forall v, v ∈ path_nodes ctx -> v <> n /\ v <> m /\ v ∉ nodes y) /\
  NoDup (nodes y) /\ NoDup (path_nodes ctx).
Proof.
  rewrite !nodes_mk. cbn. rewrite NoDup_cons. intros [Hn Hnd].
  rewrite <- app_assoc in Hnd. apply NoDup_app in Hnd as (_ & Hx & Hnd). cbn in Hnd, Hx.
  apply NoDup_cons in Hnd as [Hm Hnd]. rewrite <- app_assoc in Hnd.
  apply NoDup_app in Hnd as (_ & Hz & Hnd). apply NoDup_app in Hnd as (Hy & Hy' & Hc).
  assert (forall v, v ∈ nodes x ++ m :: (nodes z ++ nodes y) ++ path_nodes ctx -> v <> n) as Hn'.
  { intros v Hv ->. apply Hn. set_solver. }
  split_and!; try done.
  - intros ->. apply Hn. set_solver.
  - intros v Hv. split_and!; [apply Hn'; set_solver| | |]; intros H; try subst v; apply (Hx _ Hv); set_solver.
  - intros v Hv. split_and!; [apply Hn'; set_solver|intros ->; set_solver|intros H; apply (Hz _ H); set_solver|by apply Hy'].
  - intros v Hv. split_and!; [apply Hn'; set_solver|intros ->; set_solver|intros H; apply (Hz _ Hv); set_solver|intros H; apply (Hz _ Hv); set_solver].
  - intros v Hv. split_and!; [apply Hn'; set_solver|intros ->; set_solver|intros H; by apply (Hy' _ H)].
Qed.

Lemma perm_rotate d c n k x c' m k' z y c1 c2 :
  nodes (mk d c1 m k' (mk d c2 n k x y) z) = nodes (mk d c n k x (mk (other d) c' m k' z y)).
Proof. unfold nodes. by rewrite (inorder_rotate d c n k c' m k' c2 c1). Qed.

(** A rotation of the tree in the hole. *)
Lemma rbtree_rotate_ok d st ctx p n c k x c' m k' z y :
  zip s st p n ctx (mk d c n k x (mk (other d) c' m k' z y)) ->
  let st' := ngx_rbtree_rotate s d n st in
  zip s st' p m ctx (mk d c' m k' (mk d c n k x y) z) /\ heap st' s = heap st s.
Proof.
  intros (Hup & Hsub & Hnd & Hs & Hblack) st'.
  destruct (rotate_nodes _ _ _ _ _ _ _ _ _ _ _ Hnd) as (Hnm & Hx & Hy & Hz & Hc & Hny & Hnc).
  rewrite sub_mk, sub_mk, other_other in Hsub.
  destruct Hsub as (_ & Hp & Hcn & Hkn & Hsx & Hm & Hpm & Hcm & Hkm & Hsz & Hsy).
  assert (s <> n /\ s <> m /\ s ∉ nodes x /\ s ∉ nodes y /\ s ∉ nodes z /\ s ∉ path_nodes ctx) as (Hsn & Hsm & Hs1 & Hs2 & Hs3 & Hs4).
  { rewrite !nodes_mk in Hs. clear - Hs. set_solver. }
  set (ya := child d st m) in *.
  assert (ya = s \/ ya ∈ nodes y) as Hya by (by eapply sub_root).
  assert (ya <> n /\ ya <> m /\ ya ∉ nodes x /\ ya ∉ nodes z /\ ya ∉ path_nodes ctx) as (Hyn & Hym & Hyx & Hyz & Hyc).
  { destruct Hya as [Heq|Hya]; [rewrite Heq; done|]. destruct (Hy ya Hya) as (?&?&?&?). split_and!; try done.
    intros Hin. by destruct (Hx _ Hin) as (_ & _ & ? & _). }
  assert (ctx = [] /\ n = root st \/ (n <> root st /\ p <> n /\ p <> m /\ p <> ya) /\ p ∈ path_nodes ctx) as Hr.
  { destruct ctx as [|f ctx]; [left; by split|right].
    assert (p = f_node f) as -> by (destruct f; by destruct Hup).
    assert (f_node f ∈ path_nodes (f :: ctx)) as Hf by (cbn; set_solver).
    destruct (Hc _ Hf) as (?&?&?). split_and!; try done; [|by intros <-].
    pose proof (up_root _ _ _ _ _ Hup ltac:(done)) as Hroot. intros ->. by destruct (Hc _ Hroot) as (?&_). }
  destruct (rotate_heap d st n m ya p Hm eq_refl Hp Hnm ltac:(done) ltac:(done) ltac:(tauto))
    as (Hsame & Hhy & Hroot & Hnroot & Hhn & Hhm). fold st' in Hsame, Hhy, Hroot, Hnroot, Hhn, Hhm.
  assert (forall l, (forall v, v ∈ l -> v <> n /\ v <> m /\ v <> ya /\ v ∉ path_nodes ctx) -> same st st' l) as Hl.
  { intros l Hl v Hv. destruct (Hl v Hv) as (?&?&?&?). apply Hsame; [done|done|done|]. intros ? ->.
    destruct Hr as [[_ ?]|[_ ?]]; done. }
  assert (s <> p \/ n = root st) as Hsp by (destruct Hr as [[_ ?]|[_ Hr]]; [by right|left; by intros ->]).
  assert (heap st' s = heap st s) as Hss by (apply Hsame; [done|done|congruence|intros ? ->; by destruct Hsp]).
  split; [|done]. split; [|split; [|split; [|split]]].
  - apply (up_repoint s st st' p n m ctx); [|done| |done].
    + intros v Hv Hf. destruct (Hc v Hv) as (?&?&?). apply Hsame; [done|done|by intros ? ->|].
      intros Hn ->. destruct ctx as [|f ctx]; [done|]. destruct f; by destruct Hup.
    + destruct ctx as [|[e cf g kg sib] ctx]; cbn [repoint f_node f_side].
      { apply Hroot. by symmetry. }
      destruct Hup as (-> & Hg & _ & _ & Hsib & _). destruct Hr as [[? _]|[(Hn & _) _]]; [done|].
      destruct (Hnroot Hn) as [? ->]. split; [done|].
      assert (e = d \/ e = other d) as [->| ->] by (destruct d, e; auto).
      { rewrite Hg, Z.eqb_refl. by destruct d. }
      rewrite other_other in Hsib. rewrite (proj2 (Z.eqb_neq _ _)); [by destruct d|]. intros Heq. rewrite <- Heq in Hsib.
      destruct (sub_root _ _ _ _ _ Hsib) as [?|Hin]; [done|].
      destruct (Hc n) as (? & _); [|done]. cbn. apply elem_of_cons. right. apply elem_of_app. by left.
  - assert (sub s st' n (child d st n) x) as Hsx'.
    { eapply sub_same; [|exact Hsx]. apply Hl. intros v Hv. destruct (Hx v Hv) as (?&?&?&?).
      split_and!; try done. intros ->. done. }
    assert (sub s st' m (child (other d) st m) z) as Hsz'.
    { eapply sub_same; [|exact Hsz]. apply Hl. intros v Hv. destruct (Hz v Hv) as (?&?&?&?).
      split_and!; try done. intros ->. done. }
    assert (sub s st' n ya y) as Hsy'.
    { eapply (sub_reparent s st st' m n ya y); [| |done|exact Hsy].
      - intros v Hv Hne. destruct (Hy v Hv) as (?&?&?&?). apply Hl with (l := [v]); [|by apply list_elem_of_singleton].
        intros w ->%list_elem_of_singleton. done.
      - intros Hne. apply Hhy. intros Heq. destruct y as [|cy ly ny ky ry]; [done|].
        destruct Hsy as [Hny' _]. apply Hs2. rewrite <- Heq, Hny'. by apply nodes_self. }
    rewrite !sub_mk. unfold parent, color, key, child in *. rewrite Hhm, Hhn.
    destruct d; cbn in *; rewrite ?Hhm, ?Hhn; cbn; by split_and!.
  - by rewrite (perm_rotate d c n k x c' m k' z y).
  - by rewrite (perm_rotate d c n k x c' m k' z y).
  - unfold color. by rewrite Hss.
Qed.

(** ** Colours *)

Lemma parent_color a v st x : parent (set_color a v st) x = parent st x.
Proof. unfold parent, set_color, upd. cbn. by case_match. Qed.
Lemma child_color d a v st x : child d (set_color a v st) x = child d st x.
Proof. unfold child, set_color, upd. cbn. destruct d; by case_match. Qed.
Lemma key_color a v st x : key (set_color a v st) x = key st x.
Proof. unfold key, set_color, upd. cbn. by case_match. Qed.
Lemma color_color a v st x : color (set_color a v st) x = if x =? a then v else color st x.
Proof. unfold color, set_color, upd. cbn. by case_match. Qed.

Lemma set_color_ok st p a ctx d c c' n k x y :
  zip s st p a ctx (mk d c n k x y) ->
  zip s (set_color n (color_of c') st) p a ctx (mk d c' n k x y) /\
  heap (set_color n (color_of c') st) s = heap st s.
Proof.
  intros Hz. pose proof (zip_node _ _ _ _ _ _ _ _ _ _ _ Hz) as (Hs & Hx & Hy & Hc & _).
  destruct Hz as (Hup & Hsub & Hnd & Hns & Hb). rewrite nodes_mk in Hnd, Hns.
  assert (heap (set_color n (color_of c') st) s = heap st s) as Hss by (apply heap_ne; congruence).
  assert (forall l, n ∉ l -> same st (set_color n (color_of c') st) l) as Hl.
  { intros l Hl v Hv. apply heap_ne. by intros ->. }
  split; [|done]. split; [|split; [|rewrite nodes_mk; split_and!; [done|done|]]].
  - eapply up_same; [by apply Hl|done|exact Hup].
  - rewrite sub_mk in *. rewrite parent_color, !child_color, key_color, color_color, Z.eqb_refl.
    destruct Hsub as (?&?&_&?&?&?). split_and!; try done; (eapply sub_same; [by apply Hl|done]).
  - unfold color. by rewrite Hss.
Qed.

(** A state with the same nodes. *)
Lemma zip_ext st st' p a ctx t :
  (forall x, heap st' x = heap st x) -> root st' = root st -> zip s st p a ctx t -> zip s st' p a ctx t.
Proof.
  intros Hh Hr (Hup & Hsub & Hnd & Hs & Hb). split_and!; try done.
  - eapply up_same; [|done|exact Hup]. by intros v _.
  - eapply sub_same; [|exact Hsub]. by intros v _.
  - unfold color. by rewrite Hh.
Qed.

Lemma is_red_sub st p a t : sub s st p a t -> color st s = 0 -> ngx_rbt_is_red st a = red t.
Proof.
  intros Ht Hs. unfold ngx_rbt_is_red. destruct t as [|c l n k r]; cbn in Ht |- *.
  - by rewrite Ht, Hs.
  - destruct Ht as (-> & _ & -> & _). by destruct c.
Qed.

Lemma mk_other d c a k x y : mk (other d) c a k x y = mk d c a k y x.
Proof. by destruct d. Qed.

Lemma tree_mk d t : t <> E -> exists c a k x y, t = mk d c a k x y.
Proof. destruct t as [|c l a k r]; [done|]. intros _. exists c, a, k. destruct d; eauto. Qed.

(** The hole moved to the sibling. *)
Lemma zip_sibling st p a d c n k y ctx x :
  zip s st p a (Frame d c n k y :: ctx) x ->
  zip s st p (child (other d) st n) (Frame (other d) c n k x :: ctx) y.
Proof.
  intros H. apply zip_up in H as (-> & _ & H). rewrite <- mk_other in H. by apply zip_down_eq in H.
Qed.

(** Which child the hole is. *)
Lemma frame_test st p a d e c n k y ctx x :
  zip s st p a (Frame d c n k y :: ctx) x -> x <> E \/ y <> E ->
  (a =? child e st p) = bool_decide (d = e).
Proof.
  intros Hz Hxy. destruct Hz as ((-> & Ha & _ & _ & Hy & _) & Hx & Hnd & Hs & _).
  destruct (decide (d = e)) as [->|Hde]; [by rewrite Ha, Z.eqb_refl, bool_decide_true|].
  rewrite bool_decide_false by done. assert (other d = e) as Ho by (by destruct d, e).
  rewrite Ho in Hy. apply Z.eqb_neq. intros Heq. rewrite <- Heq in Hy. cbn in Hnd, Hs.
  apply NoDup_app in Hnd as (_ & Hd & _).
  destruct (sub_root _ _ _ _ _ Hx) as [Hax|Hax], (sub_root _ _ _ _ _ Hy) as [Hay|Hay].
  - destruct x as [|cx lx nx kx rx].
    + destruct y as [|cy ly ny ky ry]; [by destruct Hxy|]. destruct Hy as [Hy _]. apply Hs. rewrite <- Hax, Hy.
      apply elem_of_app. right. apply elem_of_cons. right. apply elem_of_app. left. apply nodes_self.
    + destruct Hx as [Hx _]. apply Hs. rewrite <- Hax, Hx. apply elem_of_app. left. apply nodes_self.
  - apply Hs. rewrite <- Hax. apply elem_of_app. right. apply elem_of_cons. right. apply elem_of_app. by left.
  - apply Hs. rewrite <- Hay. apply elem_of_app. by left.
  - apply (Hd a Hax). apply elem_of_cons. right. apply elem_of_app. by left.
Qed.

Lemma frame_side st p a d c n k y ctx x :
  zip s st p a (Frame d c n k y :: ctx) x -> x <> E \/ y <> E ->
  (if a =? child L st p then L else R) = d.
Proof. intros Hz Hxy. rewrite (frame_test _ _ _ _ L _ _ _ _ _ _ Hz Hxy). by destruct d. Qed.

(** The whole tree. *)
Lemma zip_plug st p a ctx t : zip s st p a ctx t -> exists p', zip s st p' (root st) [] (plug ctx t).
Proof.
  revert p a t. induction ctx as [|[d c n k y] ctx IH]; intros p a t Hz.
  - exists p. by rewrite (zip_root _ _ _ _ _ Hz).
  - apply zip_up in Hz as (_ & _ & Hz). by eapply IH.
Qed.
End Rotate.

(** ** Red-black trees *)

(** [t] is a red-black tree with a root of the colour [c] and [h] black nodes
    on every path. *)
Inductive rb : tree -> bool -> nat -> Prop :=
  | rb_E : rb E false 0
  | rb_red l a k r h : rb l false h -> rb r false h -> rb (T true l a k r) true h
  | rb_black l a k r c1 c2 h : rb l c1 h -> rb r c2 h -> rb (T false l a k r) false (S h).

(** A tree with a root of the colour [c] and [h] black nodes on every path can
    be put in the hole. *)
Inductive accepts : path -> bool -> nat -> Prop :=
  | accepts_root h : accepts [] false h
  | accepts_red d n k y ctx h : rb y false h -> accepts ctx true h ->
      accepts (Frame d true n k y :: ctx) false h
  | accepts_black d n k y ctx c c' h : rb y c' h -> accepts ctx false (S h) ->
      accepts (Frame d false n k y :: ctx) c h.

Lemma rb_mk_red d a k x y h : rb x false h -> rb y false h -> rb (mk d true a k x y) true h.
Proof. destruct d; by constructor. Qed.
Lemma rb_mk_black d a k x y c1 c2 h : rb x c1 h -> rb y c2 h -> rb (mk d false a k x y) false (S h).
Proof. destruct d; by econstructor. Qed.
Lemma rb_color t c h : rb t c h -> red t = c.
Proof. by destruct 1. Qed.

Lemma rb_red_inv d a k x y h : rb (mk d true a k x y) true h -> rb x false h /\ rb y false h.
Proof. destruct d; inversion 1; auto. Qed.
Lemma rb_black_inv d a k x y h : rb (mk d false a k x y) false h ->
  exists c1 c2 h', h = S h' /\ rb x c1 h' /\ rb y c2 h'.
Proof. destruct d; inversion 1; subst; eauto 8. Qed.

Lemma accepts_weaken ctx h : accepts ctx true h -> accepts ctx false h.
Proof. inversion 1; subst. by econstructor. Qed.

Lemma plug_rb ctx c h t : accepts ctx c h -> rb t c h -> exists h', rb (plug ctx t) false h' /\ (h <= h')%nat.
Proof.
  intros Hc. revert t. induction Hc as [h|d n k y ctx h Hy Hc IH|d n k y ctx c c' h Hy Hc IH]; intros t Ht; cbn.
  - eauto.
  - destruct (IH (mk d true n k t y)) as (h' & ? & ?); [by apply rb_mk_red|]. eauto.
  - destruct (IH (mk d false n k t y)) as (h' & ? & ?); [by eapply rb_mk_black|]. exists h'. split; [done|lia].
Qed.

(** ** Height *)

Fixpoint height (t : tree) : nat :=
  match t with E => O | T _ l _ _ r => S (max (height l) (height r)) end.

Lemma height_plug ctx t : (length ctx + height t <= height (plug ctx t))%nat.
Proof.
  revert t. induction ctx as [|f ctx IH]; intros t; cbn [length plug]; [lia|].
  specialize (IH (mk (f_side f) (f_red f) (f_node f) (f_key f) t (f_sib f))).
  destruct (f_side f); cbn in *; lia.
Qed.

Lemma rb_height t c h : rb t c h ->
  (height t <= 2 * h + (if c then 1 else 0))%nat /\ (2 ^ h <= length (inorder t) + 1)%nat.
Proof.
  induction 1 as [|l a k r h Hl [IHl1 IHl2] Hr [IHr1 IHr2]|l a k r c1 c2 h Hl [IHl1 IHl2] Hr [IHr1 IHr2]]; cbn.
  - lia.
  - rewrite length_app. cbn. lia.
  - rewrite length_app. cbn. split; [destruct c1, c2; lia|lia].
Qed.

(** A tree that fits in the address space. *)
Definition fits (t : tree) : Prop := Z.of_nat (length (inorder t)) < 2 ^ 64.

Lemma fits_height t h : rb t false h -> fits t -> (height t <= 130)%nat.
Proof.
  intros Ht Hf. destruct (rb_height _ _ _ Ht) as [H1 H2]. unfold fits in Hf.
  assert (h <= 65)%nat; [|lia].
  destruct (Nat.le_gt_cases h 65) as [|Hgt]; [done|]. exfalso.
  assert (2 ^ 65 <= 2 ^ h)%nat by (apply Nat.pow_le_mono_r; lia).
  assert (Z.of_nat (2 ^ h) <= Z.of_nat (length (inorder t)) + 1) by lia.
  rewrite Nat2Z.inj_pow in *. assert (2 ^ 65 <= 2 ^ Z.of_nat h) by (apply Z.pow_le_mono_r; lia). lia.
Qed.
