(* ===== verification/NgxRbtreeInsert.v ===== *)
(** * NgxRbtreeInsert: insertion keeps the tree and its order *)

From Stdlib Require Import Sorted.
From S2P Require Import Prelude NgxSprintf NgxRbtree NgxRbtreeShape.

(** ** Sorted lists *)

(** A strict weak order. *)
Class WeakOrder (lt : Z * Z -> Z * Z -> bool) : Prop := {
  lt_asym x y : lt x y = true -> lt y x = false;
  lt_split x y z : lt x y = true -> lt x z = true \/ lt z y = true
}.

Section Sorted.
Context (lt : Z * Z -> Z * Z -> bool).

Definition sorted (l : list (Z * Z)) : Prop := StronglySorted (fun x y => lt y x = false) l.

Lemma sorted_app l1 l2 : sorted (l1 ++ l2) <->
  sorted l1 /\ sorted l2 /\ (forall x y, x ∈ l1 -> y ∈ l2 -> lt y x = false).
Proof.
  unfold sorted. induction l1 as [|z l1 IH]; cbn.
  - split; [intros; split_and!; [constructor|done|set_solver]|tauto].
  - split.
    + inversion_clear 1 as [|? ? H1 H2]. apply IH in H1 as (H1 & H3 & H4). rewrite Forall_app in H2. destruct H2 as [H2 H5].
      split_and!; [by constructor|done|]. intros x y [->|Hx]%elem_of_cons Hy; [|by apply H4].
      rewrite Forall_forall in H5. by apply H5.
    + intros (H1 & H2 & H3). inversion_clear H1 as [|? ? H4 H5]. constructor.
      * apply IH. split_and!; [done|done|]. intros x y Hx Hy. apply H3; [by right|done].
      * apply Forall_app. split; [done|]. apply Forall_forall. intros y Hy. apply H3; [by left|done].
Qed.

(** The list with [x] behind all elements that are not greater. *)
Fixpoint ins (x : Z * Z) (l : list (Z * Z)) : list (Z * Z) :=
  match l with
  | [] => [x]
  | y :: l' => if lt x y then x :: l else y :: ins x l'
  end.

Lemma ins_app x l1 l2 :
  Forall (fun y => lt x y = false) l1 -> Forall (fun y => lt x y = true) l2 ->
  ins x (l1 ++ l2) = l1 ++ x :: l2.
Proof.
  intros H1 H2. induction H1 as [|y l1 Hy H1 IH]; cbn.
  - destruct H2 as [|z l2 Hz H2]; [done|]. cbn. by rewrite Hz.
  - rewrite Hy. by rewrite IH.
Qed.

(** In a weak order. *)
Context `{!WeakOrder lt}.

Lemma lt_below x y z : lt x y = true -> lt z y = false -> lt x z = true.
Proof. intros H1 H2. destruct (lt_split _ _ z H1); congruence. Qed.

Lemma lt_not_trans x y z : lt x y = false -> lt y z = false -> lt x z = false.
Proof.
  intros H1 H2. destruct (lt x z) eqn:H; [|done]. destruct (lt_split _ _ y H); congruence.
Qed.
End Sorted.

Section Insert.
Context (s : Z).
Implicit Types (st : state) (d : side) (ctx : path) (t : tree).

(** A red-black tree in the heap, with its nodes in order. *)
Definition holds_tree st t : Prop :=
  (exists p, zip s st p (root st) [] t) /\ exists h, rb t false h.

Lemma zip_parent st p a ctx c l n k r : zip s st p a ctx (T c l n k r) -> a = n /\ parent st n = p /\ color st n = color_of c.
Proof. intros (_ & Hsub & _). cbn in Hsub. tauto. Qed.

Lemma zip_mk_parent st p a ctx d c n k x y :
  zip s st p a ctx (mk d c n k x y) -> a = n /\ parent st n = p /\ color st n = color_of c /\ color st s = 0.
Proof. intros (_ & Hsub & _ & _ & Hb). rewrite sub_mk in Hsub. tauto. Qed.

Lemma zip_red st p a ctx t : zip s st p a ctx t -> ngx_rbt_is_red st a = red t.
Proof. intros (_ & Hsub & _ & _ & Hb). by eapply is_red_sub. Qed.

(** The uncle is black: [q], red, hangs on the outer side of its red parent [m]. *)
Lemma outer_rotate d st p a ctx g kg m km q y u :
  zip s st p a ctx (mk d false g kg (mk d true m km q y) u) ->
  let st1 := ngx_rbt_black m st in
  let st2 := ngx_rbt_red g st1 in
  let st3 := ngx_rbtree_rotate s (other d) g st2 in
  zip s st3 p m ctx (mk d false m km q (mk d true g kg y u)).
Proof.
  intros Hz. destruct (zip_mk_parent _ _ _ _ _ _ _ _ _ _ Hz) as (-> & _).
  pose proof (zip_down_eq _ _ _ _ _ _ _ _ _ _ Hz) as Hm.
  destruct (set_color_ok s _ _ _ _ d true false _ _ _ _ Hm) as [H1 _].
  cbv zeta. unfold ngx_rbt_black, ngx_rbt_red. change 0 with (color_of false). change 1 with (color_of true).
  apply zip_up in H1 as (_ & _ & H1). rewrite parent_color in H1.
  replace (parent st g) with p in H1 by (symmetry; by destruct (zip_mk_parent _ _ _ _ _ _ _ _ _ _ Hz) as (_ & ? & _)).
  destruct (set_color_ok s _ _ _ _ d false true _ _ _ _ H1) as [H2 _].
  set (st2 := set_color g _ _) in *.
  assert (zip s st2 p g ctx (mk (other d) true g kg u (mk (other (other d)) false m km q y))) as H2'.
  { by rewrite other_other, mk_other. }
  destruct (rbtree_rotate_ok s (other d) st2 ctx p g true kg u false m km q y H2') as [H3 _].
  rewrite !mk_other in H3. exact H3.
Qed.

(** Both the parent and the uncle are red. *)
Lemma turn_recolor d2 st n d1 p kp sib g kg ul un uk ur ctx t :
  zip s st p n (Frame d1 true p kp sib :: Frame d2 false g kg (T true ul un uk ur) :: ctx) t -> t <> E ->
  exists st' gp, insert_turn s d2 n st = (st', g) /\
    zip s st' gp g ctx (mk d2 true g kg (mk d1 false p kp t sib) (T false ul un uk ur)).
Proof.
  intros Hz Ht. destruct t as [|ct l n' k r]; [done|].
  destruct (zip_parent _ _ _ _ _ _ _ _ _ Hz) as (-> & Hpn & _).
  apply zip_up in Hz as (_ & _ & Hz).
  assert (parent st p = g) as Hpg.
  { by destruct Hz as ((Hg & _) & _). }
  assert (child (other d2) st g = un /\ ngx_rbt_is_red st un = true) as [Hu Hur].
  { apply zip_up in Hz as (_ & _ & Hg). rewrite <- mk_other in Hg. apply zip_down_eq in Hg.
    destruct (zip_parent _ _ _ _ _ _ _ _ _ Hg) as (Hu & _). split; [done|]. rewrite <- Hu.
    by rewrite (zip_red _ _ _ _ _ Hg). }
  unfold insert_turn. rewrite Hpn, Hpg, Hu, Hur. cbv zeta.
  unfold ngx_rbt_black, ngx_rbt_red. rewrite ?parent_color, ?Hpn, ?parent_color, ?Hpg.
  change 0 with (color_of false). change 1 with (color_of true).
  destruct (set_color_ok s _ _ _ _ d1 true false _ _ _ _ Hz) as [H1 _].
  apply zip_sibling in H1. change (T true ul un uk ur) with (mk L true un uk ul ur) in H1.
  destruct (set_color_ok s _ _ _ _ L true false _ _ _ _ H1) as [H2 _].
  apply zip_up in H2 as (_ & _ & H2). rewrite mk_other in H2.
  destruct (set_color_ok s _ _ _ _ d2 false true _ _ _ _ H2) as [H3 _].
  eexists _, _. split; [reflexivity|]. exact H3.
Qed.

(** The uncle is black: one rotation or two, after which the parent is black. *)
Lemma turn_rotate h d2 st n d1 p kp sib g kg u ctx l k r :
  zip s st p n (Frame d1 true p kp sib :: Frame d2 false g kg u :: ctx) (T true l n k r) ->
  rb l false h -> rb r false h -> rb sib false h -> rb u false h ->
  exists st' gp q kq x y m km w,
    insert_turn s d2 n st = (st', q) /\
    zip s st' gp m ctx (mk d2 false m km (T true x q kq y) w) /\
    inorder (mk d2 false m km (T true x q kq y) w) = inorder (mk d2 false g kg (mk d1 true p kp (T true l n k r) sib) u) /\
    rb x false h /\ rb y false h /\ rb w true h.
Proof.
  intros Hz Hl Hr Hsib Hu.
  destruct (zip_parent _ _ _ _ _ _ _ _ _ Hz) as (_ & Hpn & _).
  assert (Hz1 := Hz). apply zip_up in Hz1 as (_ & Hnc & Hz1).
  assert (parent st p = g) as Hpg.
  { by destruct Hz1 as ((Hg & _) & _). }
  assert (Hg := Hz1). apply zip_up in Hg as (_ & _ & Hg).
  assert (ngx_rbt_is_red st (child (other d2) st g) = false) as Hur.
  { assert (Hg' := Hg). rewrite <- mk_other in Hg'. apply zip_down_eq in Hg'.
    rewrite (zip_red _ _ _ _ _ Hg'). by apply (rb_color _ _ _ Hu). }
  unfold insert_turn. rewrite Hpn, Hpg, Hur. cbv zeta.
  rewrite (frame_test _ _ _ _ _ (other d2) _ _ _ _ _ _ Hz) by (by left).
  destruct (decide (d1 = d2)) as [->|Hd].
  - rewrite bool_decide_false by (by destruct d2). rewrite Hpn.
    pose proof (outer_rotate d2 st _ _ ctx g kg p kp (T true l n k r) sib u Hg) as Ho.
    eexists _, _, n, _, _, _, _, _, _. split; [|split; [exact Ho|]].
    + unfold ngx_rbt_black, ngx_rbt_red. by rewrite ?parent_color, ?Hpn, ?parent_color, ?Hpg.
    + split_and!; [destruct d2; cbn; rewrite <- ?app_assoc; cbn; by rewrite <- ?app_assoc|done|done|by apply rb_mk_red].
  - assert (d1 = other d2) as -> by (by destruct d1, d2). rewrite bool_decide_true by done.
    destruct (tree_mk d2 (T true l n k r) ltac:(done)) as (c & n' & k' & yd & zo & Ht).
    assert (c = true /\ n' = n /\ rb yd false h /\ rb zo false h) as (-> & -> & Hyd & Hzo).
    { destruct d2; cbn in Ht; injection Ht as <- <- <- <- <-; done. }
    rewrite Ht, mk_other in Hz1.
    assert (zip s st g p (Frame d2 false g kg u :: ctx) (mk d2 true p kp sib (mk (other d2) true n k' zo yd))) as Hrot.
    { rewrite Hpg in Hz1. by rewrite mk_other. }
    destruct (rbtree_rotate_ok s d2 st _ _ _ _ _ _ _ _ _ _ _ Hrot) as [Hz2 _].
    set (st1 := ngx_rbtree_rotate s d2 p st) in *.
    assert (parent st1 p = n) as Hp1.
    { apply zip_down_eq in Hz2. destruct (zip_mk_parent _ _ _ _ _ _ _ _ _ _ Hz2) as (_ & ? & _). done. }
    assert (parent st1 n = g) as Hp2.
    { by destruct (zip_mk_parent _ _ _ _ _ _ _ _ _ _ Hz2) as (_ & ? & _). }
    apply zip_up in Hz2 as (_ & _ & Hg2).
    pose proof (outer_rotate d2 st1 _ _ ctx g kg n k' (mk d2 true p kp sib yd) zo u Hg2) as Ho.
    destruct (tree_mk L (mk d2 true p kp sib yd) ltac:(by destruct d2)) as (c & q & kq & x & y & Htq).
    assert (c = true /\ q = p /\ rb x false h /\ rb y false h) as (-> & -> & Hx & Hy).
    { destruct d2; cbn in Htq; injection Htq as <- <- <- <- <-; done. }
    change (mk L true p kq x y) with (T true x p kq y) in Htq.
    eexists _, _, p, kq, x, y, _, _, _. split; [|split; [by rewrite <- Htq|]].
    + unfold ngx_rbt_black, ngx_rbt_red. rewrite ?parent_color, ?Hp1, ?parent_color, ?Hp2. reflexivity.
    + rewrite <- Htq, Ht. split_and!; [|done|done|by apply rb_mk_red].
      destruct d2; cbn; rewrite <- ?app_assoc; cbn; by rewrite <- ?app_assoc.
Qed.

(** The loop ends at a black parent, and the root is black already. *)
Lemma balance_stop fuel st p n ctx c l k r h :
  zip s st p n ctx (T c l n k r) -> rb (T c l n k r) c h -> accepts ctx c h ->
  (ctx = [] \/ exists f ctx', ctx = f :: ctx' /\ f_red f = false) ->
  exists st', insert_balance s (S fuel) n st = Some st' /\ holds_tree st' (plug ctx (T c l n k r)).
Proof.
  intros Hz Ht Hc Hf. cbn [insert_balance].
  assert (negb (n =? root st) && ngx_rbt_is_red st (parent st n) = false) as ->.
  { destruct (zip_parent _ _ _ _ _ _ _ _ _ Hz) as (_ & -> & _). destruct Hf as [->|([d c' g kg u] & ctx' & -> & Hred)].
    - rewrite (zip_root _ _ _ _ _ Hz). by rewrite Z.eqb_refl.
    - apply andb_false_iff. right. cbn in Hred. subst c'. apply zip_up in Hz as (-> & _ & Hz).
      by rewrite (zip_red _ _ _ _ _ Hz), red_mk. }
  eexists. split; [reflexivity|]. destruct (plug_rb _ _ _ _ Hc Ht) as (h' & Hrb & _).
  destruct (zip_plug _ _ _ _ _ _ Hz) as [p' Hz']. split; [|by exists h'].
  exists p'. destruct (plug ctx (T c l n k r)) as [|c1 l1 a1 k1 r1] eqn:E.
  { exfalso. assert (Hn : In (n, k) (inorder (plug ctx (T c l n k r)))); [|by rewrite E in Hn].
    rewrite inorder_plug. apply in_or_app. right. apply in_or_app. left. cbn. apply in_or_app. right. by left. }
  assert (c1 = false) as -> by (by inversion Hrb).
  destruct (zip_parent _ _ _ _ _ _ _ _ _ Hz') as (-> & _).
  change (T false l1 a1 k1 r1) with (mk L false a1 k1 l1 r1) in *.
  destruct (set_color_ok s _ _ _ _ L false false _ _ _ _ Hz') as [H _]. exact H.
Qed.

(** Rebalancing after the insertion of a red node. *)
Lemma insert_balance_ok fuel h st p n ctx l k r :
  zip s st p n ctx (T true l n k r) -> rb l false h -> rb r false h -> accepts ctx false h ->
  (length ctx + 2 <= fuel)%nat ->
  exists st' t', insert_balance s fuel n st = Some st' /\ holds_tree st' t' /\
    inorder t' = inorder (plug ctx (T true l n k r)).
Proof.
  revert h st p n ctx l k r. induction fuel as [|fuel IH]; intros h st p n ctx l k r Hz Hl Hr Hc Hfuel; [lia|].
  destruct ctx as [|[d1 c1 g1 k1 sib] ctx].
  { (* the root becomes black *)
    cbn [insert_balance]. rewrite (zip_root _ _ _ _ _ Hz), Z.eqb_refl. cbn [negb andb].
    change (T true l n k r) with (mk L true n k l r) in *.
    destruct (set_color_ok s _ _ _ _ L true false _ _ _ _ Hz) as [H _].
    eexists _, (mk L false n k l r). split; [reflexivity|]. split; [|done]. split.
    - exists p. replace (root (ngx_rbt_black n st)) with n by (symmetry; exact (zip_root _ _ _ _ _ Hz)). exact H.
    - exists (S h). by eapply rb_mk_black. }
  destruct c1.
  2: { destruct (balance_stop fuel st p n _ true l k r h Hz) as (st' & ? & ?); [by constructor| |right; by eexists _, _|].
    { inversion Hc; subst. by econstructor. }
    by eexists _, _. }
  inversion Hc as [|? ? ? ? ? ? Hsib Hc1|]; subst.
  inversion Hc1 as [| |d2 g kg u ctx2 ? cu h2 Hu Hc2]; subst.
  assert (g1 = p) as -> by (by destruct Hz as ((-> & _) & _)).
  assert (negb (n =? root st) && ngx_rbt_is_red st (parent st n) = true /\ parent st n = p /\
    (if p =? child L st (parent st p) then L else R) = d2) as (Htest & Hpn & Hside).
  { destruct (zip_parent _ _ _ _ _ _ _ _ _ Hz) as (_ & Hpn & _).
    assert (n <> root st) as Hnr by (by eapply zip_not_root).
    assert (Hz1 := Hz). apply zip_up in Hz1 as (_ & _ & Hz1). split; [|split; [done|]].
    - apply andb_true_iff. split; [by apply negb_true_iff, Z.eqb_neq|]. by rewrite Hpn, (zip_red _ _ _ _ _ Hz1), red_mk.
    - assert (parent st p = g) as Hpg by (by destruct Hz1 as ((-> & _) & _)). rewrite Hpg in *.
      apply (frame_side s _ _ _ _ _ _ _ _ _ _ Hz1). left. by destruct d1. }
  cbn [insert_balance]. rewrite Htest, Hpn, Hside. cbn [plug f_side f_red f_node f_key f_sib]. clear Htest Hpn Hside.
  destruct (red u) eqn:Eu.
  - destruct u as [|cu' ul un uk ur]; [done|]. cbn in Eu. subst cu'.
    destruct (turn_recolor d2 st n d1 p k1 sib g kg ul un uk ur ctx2 _ Hz ltac:(done)) as (st' & gp & -> & Hz').
    inversion Hu; subst.
    destruct (tree_mk L (mk d2 true g kg (mk d1 false p k1 (T true l n k r) sib) (T false ul un uk ur)) ltac:(by destruct d2))
      as (c & g' & kg' & x & y & Ht).
    assert (c = true /\ g' = g /\ rb x false (S h) /\ rb y false (S h)) as (-> & -> & Hx & Hy).
    { assert (rb (mk d1 false p k1 (T true l n k r) sib) false (S h)) by (eapply rb_mk_black; [by constructor|done]).
      assert (rb (T false ul un uk ur) false (S h)) by (by econstructor).
      destruct d2; cbn in Ht; injection Ht as <- <- <- <- <-; done. }
    rewrite Ht in Hz'. change (mk L true g kg' x y) with (T true x g kg' y) in *.
    destruct (IH (S h) st' gp g ctx2 x kg' y Hz' Hx Hy Hc2) as (st2 & t' & ? & ? & Ho); [cbn in Hfuel; lia|].
    exists st2, t'. split_and!; [done|done|]. rewrite Ho. apply inorder_plug_ext.
    etransitivity; [exact (eq_sym (f_equal inorder Ht))|]. by destruct d1, d2.
  - assert (cu = false) as -> by (by rewrite <- Eu; symmetry; eapply rb_color).
    destruct (turn_rotate h d2 st n d1 p k1 sib g kg u ctx2 l k r Hz Hl Hr Hsib Hu)
      as (st' & gp & q & kq & x & y & m & km & w & -> & Hz' & Ho & Hx & Hy & Hw).
    apply zip_down_eq in Hz'. cbn in Hfuel. destruct fuel as [|fuel]; [lia|].
    destruct (balance_stop fuel st' m q (Frame d2 false m km w :: ctx2) true x kq y h) as (st2 & ? & ?).
    + destruct (zip_parent _ _ _ _ _ _ _ _ _ Hz') as (Hq & _). by rewrite Hq in Hz'.
    + by constructor.
    + by econstructor.
    + right. by eexists _, _.
    + eexists _, _. split_and!; [done|done|]. cbn [plug f_side f_red f_node f_key f_sib].
      apply inorder_plug_ext. etransitivity; [exact Ho|]. by destruct d1, d2.
Qed.

(** ** The way down *)

(** The new node in the free place. *)
Lemma attach_ok st temp n d c k y ctx :
  zip s st temp s (Frame d c temp k y :: ctx) E ->
  n <> s -> n ∉ path_nodes (Frame d c temp k y :: ctx) ->
  zip s (attach s temp n d st) temp n (Frame d c temp k y :: ctx) (T true E n (key st n) E).
Proof.
  intros (Hup & _ & Hnd & Hs & Hb) Hns Hn.
  assert (temp <> n) as Htn by (intros ->; apply Hn; cbn; apply elem_of_cons; by left).
  set (st' := attach s temp n d st).
  assert (Hv : forall v, v <> n -> v <> temp -> heap st' v = heap st v).
  { intros v H1 H2. unfold st', attach. heap_unfold. by heap_eval. }
  assert (Hn' : heap st' n = Node (key st n) s s temp 1).
  { unfold st', attach. heap_unfold. by heap_eval. }
  assert (Ht' : heap st' temp = let x := heap st temp in
    match d with L => Node (n_key x) n (n_right x) (n_parent x) (n_color x)
               | R => Node (n_key x) (n_left x) n (n_parent x) (n_color x) end).
  { unfold st', attach. heap_unfold. heap_eval. by destruct d. }
  assert (s <> temp) as Hst by (intros ->; apply Hs; cbn; apply elem_of_cons; by left).
  assert (Hr' : root st' = root st) by done. clearbody st'.
  split; [|split; [|split; [|split]]].
  - apply (up_repoint s st st' temp s n); [| |done|done].
    + intros v Hin Hf. cbn in Hf. apply Hv; [|done]. intros ->. done.
    + exact Hnd.
  - cbn. unfold parent, color, key, child. rewrite Hn'. cbn. by split_and!.
  - cbn. apply NoDup_cons. split; [exact Hn|exact Hnd].
  - cbn. apply not_elem_of_cons. split; [done|exact Hs].
  - unfold color. rewrite Hv by done. exact Hb.
Qed.

Section Order.
(** [less] compares the new node as the order [lt] does. *)
Context (less lt : Z * Z -> Z * Z -> bool) `{!WeakOrder lt}.

#[local] Abbreviation sorted := (sorted lt).
#[local] Abbreviation ins := (ins lt).

(** What the loop arrives at. *)
Lemma descend_ok fuel st p a ctx c c0 l k r n h :
  zip s st p a ctx (T c l a k r) -> rb (T c l a k r) c0 h -> accepts ctx c0 h ->
  (height (T c l a k r) <= fuel)%nat ->
  (forall x, x ∈ inorder (T c l a k r) -> less (n, key st n) x = lt (n, key st n) x) ->
  sorted (inorder (T c l a k r)) ->
  Forall (fun y => lt (n, key st n) y = false) (before ctx) ->
  Forall (fun y => lt (n, key st n) y = true) (behind ctx) ->
  exists d cf temp kf y ctx',
    let ctx2 := Frame d cf temp kf y :: ctx' in
    descend s fuel less st a n = Some (temp, d) /\ zip s st temp s ctx2 E /\ accepts ctx2 false 0 /\
    plug ctx2 E = plug ctx (T c l a k r) /\
    Forall (fun y => lt (n, key st n) y = false) (before ctx2) /\
    Forall (fun y => lt (n, key st n) y = true) (behind ctx2).
Proof.
  revert p a ctx c c0 l k r h. induction fuel as [|fuel IH]; intros p a ctx c c0 l k r h Hz Hrb Hacc Hf Hless Hsort Hbef Hbeh;
    [cbn in Hf; lia|].
  cbn [descend].
  assert (key st a = k) as -> by (destruct Hz as (_ & Hsub & _); cbn in Hsub; tauto).
  assert (less (n, key st n) (a, k) = lt (n, key st n) (a, k)) as ->.
  { apply Hless. cbn. apply elem_of_app. right. by left. }
  set (d := if lt (n, key st n) (a, k) then L else R).
  destruct (tree_mk d (T c l a k r) ltac:(done)) as (c' & a' & k' & x & y & Ht).
  assert (c' = c /\ a' = a /\ k' = k) as (-> & -> & ->) by (destruct d; cbn in Ht; by injection Ht).
  assert (Forall (fun y => lt (n, key st n) y = false) (before (Frame d c a k y :: ctx)) /\
          Forall (fun y => lt (n, key st n) y = true) (behind (Frame d c a k y :: ctx))) as [Hbef' Hbeh'].
  { cbn in Hsort. apply (sorted_app lt) in Hsort as (_ & Hs2 & Hs3). inversion_clear Hs2 as [|? ? _ Hs4].
    rewrite Forall_forall in Hs4. subst d. destruct (lt (n, key st n) (a, k)) eqn:Hlt; cbn in Ht |- *; injection Ht as <- <-.
    - split; [done|]. constructor; [done|]. apply Forall_app. split; [|done]. apply Forall_forall. intros z Hz'.
      exact (lt_below lt _ _ _ Hlt (Hs4 z Hz')).
    - split; [|done]. apply Forall_app. split; [done|]. apply Forall_app. split; [|by repeat constructor].
      apply Forall_forall. intros z Hz'. exact (lt_not_trans lt _ _ _ Hlt (Hs3 z (a, k) Hz' ltac:(by left))). }
  clearbody d.
  assert (exists cx h', rb x cx h' /\ accepts (Frame d c a k y :: ctx) cx h') as (cx & h' & Hx & Hacc').
  { rewrite Ht in Hrb. destruct c.
    - assert (c0 = true) as -> by (by rewrite <- (rb_color _ _ _ Hrb), red_mk).
      destruct (rb_red_inv _ _ _ _ _ _ Hrb) as [Hx Hy]. exists false, h. split; [done|]. by constructor.
    - assert (c0 = false) as -> by (by rewrite <- (rb_color _ _ _ Hrb), red_mk).
      destruct (rb_black_inv _ _ _ _ _ _ Hrb) as (c1 & c2 & h' & -> & Hx & Hy). exists c1, h'. split; [done|]. by econstructor. }
  rewrite Ht in Hz. apply zip_down_eq in Hz.
  destruct x as [|c1 l1 a1 k1 r1].
  - assert (child d st a = s) as Hc by (by destruct Hz as (_ & Hsub & _)). rewrite Hc, Z.eqb_refl.
    assert (cx = false /\ h' = O) as [-> ->] by (by inversion Hx).
    exists d, c, a, k, y, ctx. split_and!; try done.
    + by rewrite Hc in Hz.
    + cbn [plug f_side f_red f_node f_key f_sib]. by rewrite Ht.
  - assert (child d st a = a1 /\ a1 <> s) as [Hc Hne].
    { destruct Hz as (_ & [Hc _] & _ & Hs & _). split; [done|]. intros ->. apply Hs. apply elem_of_app. left. apply nodes_self. }
    rewrite Hc in *. rewrite (proj2 (Z.eqb_neq _ _)) by done.
    assert (forall z, z ∈ inorder (T c1 l1 a1 k1 r1) -> z ∈ inorder (T c l a k r)) as Hin.
    { intros z Hz'. rewrite Ht. destruct d; cbn [mk inorder]; set_solver. }
    destruct (IH a a1 (Frame d c a k y :: ctx) c1 cx l1 k1 r1 h' Hz Hx Hacc')
      as (d2 & cf & temp & kf & y2 & ctx2 & H1 & H2 & H3 & H4 & H5 & H6); try done.
    + rewrite Ht in Hf. destruct d; cbn [mk height] in Hf |- *; lia.
    + intros z Hz'. apply Hless. by apply Hin.
    + assert (sorted (inorder (mk d c a k (T c1 l1 a1 k1 r1) y))) as Hs by (by rewrite <- Ht).
      destruct d; cbn [mk inorder] in Hs; apply (sorted_app lt) in Hs as (Hs1 & Hs2 & _); [done|]. by inversion Hs2.
    + exists d2, cf, temp, kf, y2, ctx2. split_and!; try done. rewrite H4. cbn [plug f_side f_red f_node f_key f_sib]. by rewrite Ht.
Qed.

Lemma insert_first st n :
  n <> s -> color st s = 0 ->
  holds_tree
    (set_root n (ngx_rbt_black n (set_child R n s (set_child L n s (set_parent n NULL st)))))
    (T false E n (key st n) E).
Proof.
  intros Hn Hs. set (st' := set_root _ _).
  assert (heap st' n = Node (key st n) s s NULL 0) as Hh by (unfold st'; heap_unfold; by heap_eval).
  assert (heap st' s = heap st s) as Hhs by (unfold st'; heap_unfold; by heap_eval).
  assert (root st' = n) as Hr by done. clearbody st'. split.
  - exists NULL. rewrite Hr. split; [done|]. split; [cbn; unfold parent, color, key, child; by rewrite Hh|].
    split; [apply NoDup_singleton|]. split; [by apply not_elem_of_cons; split; [done|apply not_elem_of_nil]|].
    unfold color. by rewrite Hhs.
  - exists 1%nat. by econstructor; constructor.
Qed.

(** Insertion of a node that is not in the tree. *)
Lemma insert_ok st t n :
  holds_tree st t -> n <> s -> n ∉ nodes t -> fits t -> sorted (inorder t) ->
  (forall x, x ∈ inorder t -> less (n, key st n) x = lt (n, key st n) x) ->
  exists st' t', ngx_rbtree_insert s (insert_with s less) n st = Some st' /\ holds_tree st' t' /\
    inorder t' = ins (n, key st n) (inorder t).
Proof.
  intros [[p Hz] [h Hrb]] Hns Hn Hfits Hsort Hless. unfold ngx_rbtree_insert.
  destruct t as [|c l a k r].
  { assert (root st = s) as -> by (by destruct Hz as (_ & ? & _)). rewrite Z.eqb_refl.
    eexists _, (T false E n (key st n) E). split; [reflexivity|]. split; [|done]. apply insert_first; [done|]. by destruct Hz as (_ & _ & _ & _ & ?). }
  assert (root st = a /\ a <> s) as [Hr Ha].
  { destruct Hz as (_ & [Hc _] & _ & Hs & _). split; [done|]. intros ->. apply Hs. apply elem_of_app. left. apply nodes_self. }
  rewrite Hr in Hz |- *. rewrite (proj2 (Z.eqb_neq _ _)) by done.
  assert (c = false) as -> by (by rewrite <- (rb_color _ _ _ Hrb)).
  pose proof (fits_height _ _ Hrb Hfits) as Hh.
  destruct (descend_ok rb_fuel st p a [] false false l k r n h Hz Hrb) as (d & cf & temp & kf & y & ctx & H1 & H2 & H3 & H4 & H5 & H6);
    [constructor|unfold rb_fuel; lia|done|done|constructor|constructor|].
  unfold insert_with. rewrite H1. cbn [mbind option_bind].
  set (ctx2 := Frame d cf temp kf y :: ctx) in *. cbn [plug] in H4.
  assert (n ∉ path_nodes ctx2) as Hn2.
  { intros Hin. apply Hn. rewrite <- H4, nodes_plug. apply elem_of_app. by right. }
  pose proof (attach_ok st temp n d cf kf y ctx H2 Hns Hn2) as Hz2. fold ctx2 in Hz2.
  pose proof (height_plug ctx2 E) as Hlen. rewrite H4 in Hlen.
  destruct (insert_balance_ok rb_fuel 0 _ _ _ _ _ _ _ Hz2) as (st' & t' & Hb & Ht & Ho); [constructor|constructor|done|unfold rb_fuel; cbn [height] in *; lia|].
  exists st', t'. split; [exact Hb|]. split; [exact Ht|]. rewrite Ho, <- H4, !inorder_plug. cbn [inorder app].
  rewrite ins_app; done.
Qed.
End Order.
End Insert.
