(* ===== verification/NgxRbtreeDelete.v ===== *)
(** * NgxRbtreeDelete: deletion keeps the tree and its order *)

From S2P Require Import Prelude NgxSprintf NgxRbtree NgxRbtreeShape NgxRbtreeInsert.

Section Delete.
Context (s : Z).
Implicit Types (st : state) (d : side) (ctx : path) (t : tree).

(** ** The fixup *)

(** The tree [t] in the hole, whose parent pointer is right even if it is the
    sentinel. *)
Definition hangs st p a ctx t : Prop := zip s st p a ctx t /\ parent st a = p.

Lemma hangs_tree st p a ctx t : zip s st p a ctx t -> t <> E -> hangs st p a ctx t.
Proof. intros Hz Ht. split; [done|]. destruct t as [|c l n k r]; [done|]. by destruct (zip_parent _ _ _ _ _ _ _ _ _ _ Hz) as (-> & ? & _). Qed.

Lemma hangs_keep st st' p a ctx ctx' t p' :
  hangs st p a ctx t -> zip s st' p' a ctx' t -> heap st' s = heap st s -> p' = p -> hangs st' p' a ctx' t.
Proof.
  intros [Hz Hp] Hz' Hs ->. split; [done|]. destruct t as [|c l n k r].
  - assert (a = s) as -> by (by destruct Hz as (_ & ? & _)). unfold parent in *. by rewrite Hs.
  - by destruct (zip_parent _ _ _ _ _ _ _ _ _ _ Hz') as (-> & ? & _).
Qed.

(** One black node is missing on every path of the tree in the hole; a red root
    may have a red child. *)
Definition short t (h : nat) : Prop :=
  match t with T true l a k r => rb (T false l a k r) false (S h) | _ => rb t false h end.

(** A sibling of the tree in the hole, and its parts. *)
Lemma sibling_parts ctx d c p k w h : accepts (Frame d c p k w :: ctx) false (S h) ->
  exists cw wa wk wn wf c1 c2, w = mk d cw wa wk wn wf /\ rb w cw (S h) /\
    (if cw then c = false /\ rb wn false (S h) /\ rb wf false (S h) else rb wn c1 h /\ rb wf c2 h) /\
    (if c then accepts ctx true (S h) else accepts ctx false (S (S h))).
Proof.
  intros Ha.
  assert (exists cw, rb w cw (S h) /\ (cw = true -> c = false) /\
    (if c then accepts ctx true (S h) else accepts ctx false (S (S h)))) as (cw & Hw & Hc & Hacc).
  { inversion Ha; subst; eauto. }
  destruct (tree_mk d w) as (cw' & wa & wk & wn & wf & ->); [by intros ->; inversion Hw|].
  assert (cw' = cw) as -> by (by rewrite <- (rb_color _ _ _ Hw), red_mk).
  destruct cw.
  - destruct (rb_red_inv _ _ _ _ _ _ Hw). exists true, wa, wk, wn, wf, false, false. split_and!; auto.
  - destruct (rb_black_inv _ _ _ _ _ _ Hw) as (c1 & c2 & h' & [= <-] & ? & ?).
    exists false, wa, wk, wn, wf, c1, c2. split_and!; auto.
Qed.

(** The sibling is red: a rotation gives a black one. *)
Lemma turn_red_sibling st p a d k wa wk wn wf ctx t :
  hangs st p a (Frame d false p k (mk d true wa wk wn wf) :: ctx) t ->
  let st' := ngx_rbtree_rotate s d p (ngx_rbt_red p (ngx_rbt_black wa st)) in
  hangs st' p a (Frame d true p k wn :: Frame d false wa wk wf :: ctx) t.
Proof.
  intros H st'. assert (Hz := proj1 H). apply zip_sibling in Hz.
  destruct (set_color_ok s _ _ _ _ d true false _ _ _ _ Hz) as [H1 E1].
  apply zip_up in H1 as (_ & _ & H1). rewrite mk_other in H1.
  destruct (set_color_ok s _ _ _ _ d false true _ _ _ _ H1) as [H2 E2].
  rewrite <- (mk_other d false wa) in H2.
  destruct (rbtree_rotate_ok s d _ _ _ _ _ _ _ _ _ _ _ _ H2) as [H3 E3].
  assert (heap st' s = heap st s) as Es by (etransitivity; [exact E3|]; etransitivity; [exact E2|exact E1]).
  apply zip_into in H3.
  assert (child d st' wa = p) as Hcp.
  { destruct H3 as (_ & Hsub & _). rewrite sub_mk in Hsub. by destruct Hsub as (Hsub & _). }
  change (zip s st' wa (child d st' wa) (Frame d false wa wk wf :: ctx) (mk d true p k t wn)) in H3.
  rewrite Hcp in H3. assert (Ht := H3). apply zip_into in Ht.
  replace (child d st' p) with a in Ht; [by eapply hangs_keep|].
  destruct t as [|ct l n kn r].
  - destruct H as [(_ & Ha & _) _]. destruct Ht as (_ & Ha' & _). cbn in Ha, Ha'. congruence.
  - destruct H as [(_ & [Ha _] & _) _]. destruct Ht as (_ & [Ha' _] & _). congruence.
Qed.

(** The sibling and its children are black: the sibling becomes red. *)
Lemma turn_black_nephews st p a d c k wa wk wn wf ctx t :
  hangs st p a (Frame d c p k (mk d false wa wk wn wf) :: ctx) t ->
  zip s (ngx_rbt_red wa st) (parent st p) p ctx (mk d c p k t (mk d true wa wk wn wf)).
Proof.
  intros [H _]. apply zip_sibling in H.
  destruct (set_color_ok s _ _ _ _ d false true _ _ _ _ H) as [H1 _].
  apply zip_up in H1 as (_ & _ & H1). rewrite mk_other, parent_color in H1. exact H1.
Qed.

(** The near child is red, the far one black: a rotation of the sibling. *)
Lemma turn_near_red st p a d c k wa wk nn nk x y wf ctx t :
  hangs st p a (Frame d c p k (mk d false wa wk (mk d true nn nk x y) wf) :: ctx) t ->
  let st' := ngx_rbtree_rotate s (other d) wa (ngx_rbt_red wa (ngx_rbt_black nn st)) in
  hangs st' p a (Frame d c p k (mk d false nn nk x (mk d true wa wk y wf)) :: ctx) t.
Proof.
  intros H st'. assert (Hz := proj1 H). apply zip_sibling in Hz.
  assert (Hn := Hz). apply zip_into in Hn.
  destruct (set_color_ok s _ _ _ _ d true false _ _ _ _ Hn) as [H1 E1].
  apply zip_up in H1 as (_ & _ & H1).
  destruct (set_color_ok s _ _ _ _ d false true _ _ _ _ H1) as [H2 E2].
  rewrite <- (mk_other d true wa) in H2.
  assert (zip s (set_color wa (color_of true) (set_color nn (color_of false) st))
    (parent (set_color nn (color_of false) st) wa) wa (Frame (other d) c p k t :: ctx)
    (mk (other d) true wa wk wf (mk (other (other d)) false nn nk x y))) as H2' by (by rewrite other_other).
  destruct (rbtree_rotate_ok s (other d) _ _ _ _ _ _ _ _ _ _ _ _ H2') as [H3 E3].
  change (ngx_rbtree_rotate s (other d) wa _) with st' in H3, E3.
  assert (heap st' s = heap st s) as Es by (etransitivity; [exact E3|]; etransitivity; [exact E2|exact E1]).
  apply zip_sibling in H3. rewrite other_other, !mk_other in H3.
  assert (parent (set_color nn (color_of false) st) wa = p) as Hp.
  { rewrite parent_color. by destruct (zip_mk_parent _ _ _ _ _ _ _ _ _ _ _ Hz) as (_ & ? & _). }
  rewrite Hp in H3.
  replace (child d st' p) with a in H3; [by eapply hangs_keep|].
  destruct t as [|ct l n kn r].
  - destruct H as [(_ & Ha & _) _]. destruct H3 as (_ & Ha' & _). cbn in Ha, Ha'. congruence.
  - destruct H as [(_ & [Ha _] & _) _]. destruct H3 as (_ & [Ha' _] & _). congruence.
Qed.

(** The far child is red: the last rotation. *)
Lemma turn_far_red st p a d c k wa wk wn fa fk fx fy ctx t :
  hangs st p a (Frame d c p k (mk d false wa wk wn (mk d true fa fk fx fy)) :: ctx) t ->
  let st1 := ngx_rbt_copy_color wa p st in
  let st2 := ngx_rbt_black fa (ngx_rbt_black p st1) in
  let st' := ngx_rbtree_rotate s d p st2 in
  exists p', zip s st' p' wa ctx (mk d c wa wk (mk d false p k t wn) (mk d false fa fk fx fy)).
Proof.
  intros [H _] st1 st2 st'.
  assert (color st p = color_of c) as Hcp by (destruct H as ((_ & _ & ? & _) & _); done).
  apply zip_sibling in H.
  destruct (set_color_ok s _ _ _ _ d false c _ _ _ _ H) as [H1 _]. rewrite <- Hcp in H1.
  change (set_color wa (color st p) st) with st1 in H1.
  apply zip_up in H1 as (_ & _ & H1).
  destruct (set_color_ok s _ _ _ _ (other d) c false _ _ _ _ H1) as [H2 _].
  apply zip_into in H2. rewrite <- mk_other in H2. apply zip_into in H2.
  destruct (set_color_ok s _ _ _ _ d true false _ _ _ _ H2) as [H3 _].
  apply zip_up in H3 as (_ & _ & H3). rewrite mk_other in H3.
  apply zip_up in H3 as (_ & _ & H3). rewrite mk_other in H3. rewrite <- (mk_other d c wa) in H3.
  change (color_of false) with 0 in H3.
  change (set_color fa 0 (set_color p 0 st1)) with st2 in H3.
  destruct (rbtree_rotate_ok s d _ _ _ _ _ _ _ _ _ _ _ _ H3) as [H4 _].
  eexists. exact H4.
Qed.

Lemma nephews st p q d e c k t ctx cw wa wk wn wf :
  zip s st p q (Frame e c p k t :: ctx) (mk d cw wa wk wn wf) ->
  q = wa /\ ngx_rbt_is_black st (child d st wa) = negb (red wn) /\
  ngx_rbt_is_black st (child (other d) st wa) = negb (red wf).
Proof.
  intros Hz. destruct (zip_mk_parent _ _ _ _ _ _ _ _ _ _ _ Hz) as (Hq & _).
  assert (Hz' := Hz). rewrite <- mk_other in Hz'. apply zip_into in Hz, Hz'. unfold ngx_rbt_is_black.
  by rewrite (zip_red _ _ _ _ _ _ Hz), (zip_red _ _ _ _ _ _ Hz').
Qed.

(** What a turn leaves: a shorter tree with a node missing higher up or a red
    root, or a red-black tree. *)
Definition turned st' a' (to_red : bool) ctx (l : list (Z * Z)) : Prop :=
  (exists p' ctx' t' h', zip s st' p' a' ctx' t' /\ t' <> E /\ short t' h' /\ accepts ctx' false (S h') /\
     inorder (plug ctx' t') = l /\ if to_red then red t' = true else (length ctx' <= length ctx)%nat) \/
  (exists t', holds_tree s st' t' /\ a' = root st' /\ inorder t' = l).

Lemma turn_black_ok st p a d c k wa wk wn wf c1 c2 ctx t h :
  hangs st p a (Frame d c p k (mk d false wa wk wn wf) :: ctx) t -> rb t false h ->
  rb wn c1 h -> rb wf c2 h -> (if c then accepts ctx true (S h) else accepts ctx false (S (S h))) ->
  exists st' a', delete_turn_black s d a wa st = (st', a') /\
    turned st' a' c ctx (inorder (plug ctx (mk d c p k t (mk d false wa wk wn wf)))).
Proof.
  intros H Ht Hn Hf Hacc. assert (Hz := proj1 H). assert (Hpa := proj2 H). apply zip_sibling in Hz.
  destruct (nephews _ _ _ _ _ _ _ _ _ _ _ _ _ _ Hz) as (_ & Hbn & Hbf). unfold delete_turn_black.
  rewrite Hbn, Hbf, (rb_color _ _ _ Hn), (rb_color _ _ _ Hf).
  destruct (negb c1 && negb c2) eqn:Eb.
  { apply andb_true_iff in Eb as [->%negb_true_iff ->%negb_true_iff].
    unfold ngx_rbt_red at 2. rewrite parent_color, Hpa. eexists _, _. split; [reflexivity|]. left.
    pose proof (turn_black_nephews _ _ _ _ _ _ _ _ _ _ _ _ H) as H1.
    eexists _, ctx, _, (if c then h else S h). split; [exact H1|]. split; [by destruct d|].
    split; [|split; [|split; [|by destruct c, d]]].
    - assert (rb (mk d true wa wk wn wf) true h) by (by apply rb_mk_red).
      destruct c; [|destruct d; cbn; by econstructor]. destruct d; cbn; by econstructor.
    - destruct c; [by apply accepts_weaken|done].
    - apply inorder_plug_ext. by destruct d. }
  (* the last rotation *)
  assert (forall st wa wk wn wf cn, hangs st p a (Frame d c p k (mk d false wa wk wn wf) :: ctx) t ->
    rb wn cn h -> rb wf true h ->
    let st1 := ngx_rbt_copy_color wa (parent st a) st in
    let st2 := ngx_rbt_black (parent st1 a) st1 in
    let st3 := ngx_rbt_black (child (other d) st2 wa) st2 in
    let st' := ngx_rbtree_rotate s d (parent st3 a) st3 in
    turned st' (root st') c ctx (inorder (plug ctx (mk d c p k t (mk d false wa wk wn wf))))) as Hlast.
  { clear -Ht Hacc. intros st wa wk wn wf cn H Hn Hf. cbv zeta. right.
    destruct (tree_mk d wf) as (cf & fa & fk & fx & fy & ->); [by intros ->; inversion Hf|].
    assert (cf = true) as -> by (by rewrite <- (rb_color _ _ _ Hf), red_mk).
    destruct (rb_red_inv _ _ _ _ _ _ Hf) as [Hfx Hfy].
    destruct (turn_far_red _ _ _ _ _ _ _ _ _ _ _ _ _ _ _ H) as [p' Hz].
    assert (child (other d) st wa = fa) as Hfa.
    { assert (Hw := proj1 H). apply zip_sibling in Hw. rewrite <- (mk_other d false wa) in Hw. apply zip_into in Hw.
      by destruct (zip_mk_parent _ _ _ _ _ _ _ _ _ _ _ Hw) as (? & _). }
    unfold ngx_rbt_copy_color, ngx_rbt_black in *. rewrite !parent_color, !child_color, Hfa, (proj2 H).
    destruct (zip_plug _ _ _ _ _ _ Hz) as [p2 Hz2]. eexists. split; [|split; [done|]].
    - split; [eexists; exact Hz2|].
      assert (rb (mk d c wa wk (mk d false p k t wn) (mk d false fa fk fx fy)) c (if c then S h else S (S h))) as Hrb.
      { assert (rb (mk d false p k t wn) false (S h)) by (by eapply rb_mk_black).
        assert (rb (mk d false fa fk fx fy) false (S h)) by (by eapply rb_mk_black).
        destruct c; [by apply rb_mk_red|by eapply rb_mk_black]. }
      assert (accepts ctx c (if c then S h else S (S h))) as Hacc' by (by destruct c).
      destruct (plug_rb _ _ _ _ Hacc' Hrb) as (h' & ? & _). by exists h'.
    - apply inorder_plug_ext. destruct d; cbn; rewrite <- ?app_assoc; cbn; by rewrite <- ?app_assoc. }
  destruct c2; cbn [negb].
  { eexists _, _. split; [reflexivity|]. by eapply (Hlast st wa wk wn wf c1). }
  (* the near child is red *)
  destruct c1; [|done]. destruct (tree_mk d wn) as (cn & nn & nk & x & y & ->); [by intros ->; inversion Hn|].
  assert (cn = true) as -> by (by rewrite <- (rb_color _ _ _ Hn), red_mk).
  destruct (rb_red_inv _ _ _ _ _ _ Hn) as [Hx Hy].
  pose proof (turn_near_red _ _ _ _ _ _ _ _ _ _ _ _ _ _ _ H) as H1.
  assert (child d st wa = nn) as Hnn.
  { assert (Hw := Hz). apply zip_into in Hw. by destruct (zip_mk_parent _ _ _ _ _ _ _ _ _ _ _ Hw) as (? & _). }
  rewrite Hnn. cbv zeta in H1. set (st1 := ngx_rbtree_rotate s (other d) wa _) in *.
  assert (child (other d) st1 (parent st1 a) = nn) as ->.
  { rewrite (proj2 H1). assert (Hw := proj1 H1). apply zip_sibling in Hw.
    by destruct (zip_mk_parent _ _ _ _ _ _ _ _ _ _ _ Hw) as (? & _). }
  eexists _, _. split; [reflexivity|].
  replace (inorder (plug ctx (mk d c p k t (mk d false wa wk (mk d true nn nk x y) wf))))
    with (inorder (plug ctx (mk d c p k t (mk d false nn nk x (mk d true wa wk y wf)))))
    by (apply inorder_plug_ext; destruct d; cbn; rewrite <- ?app_assoc; cbn; by rewrite <- ?app_assoc).
  apply (Hlast st1 nn nk x (mk d true wa wk y wf) false); [done|done|by apply rb_mk_red].
Qed.

Lemma turn_ok st p a d c k w ctx t h :
  hangs st p a (Frame d c p k w :: ctx) t -> rb t false h -> accepts (Frame d c p k w :: ctx) false (S h) ->
  exists st' a' b, delete_turn s d a st = (st', a') /\
    turned st' a' b ctx (inorder (plug (Frame d c p k w :: ctx) t)).
Proof.
  intros H Ht Hacc. destruct (sibling_parts _ _ _ _ _ _ _ Hacc) as (cw & wa & wk & wn & wf & c1 & c2 & -> & Hw & Hparts & Hctx).
  assert (Hz := proj1 H). assert (Hpa := proj2 H). apply zip_sibling in Hz.
  destruct (zip_mk_parent _ _ _ _ _ _ _ _ _ _ _ Hz) as (Hwa & _).
  unfold delete_turn. rewrite Hpa, Hwa.
  assert (ngx_rbt_is_red st wa = cw) as -> by (rewrite Hwa in Hz; by rewrite (zip_red _ _ _ _ _ _ Hz), red_mk).
  destruct cw.
  - destruct Hparts as (-> & Hn & Hf). cbv zeta.
    assert (parent (ngx_rbt_black wa st) a = p) as -> by (unfold ngx_rbt_black; by rewrite parent_color).
    pose proof (turn_red_sibling _ _ _ _ _ _ _ _ _ _ _ H) as H1. cbv zeta in H1.
    assert (parent (ngx_rbt_red p (ngx_rbt_black wa st)) a = p) as ->
      by (unfold ngx_rbt_red, ngx_rbt_black; by rewrite !parent_color).
    set (st1 := ngx_rbtree_rotate s d p _) in *. rewrite (proj2 H1).
    destruct (tree_mk d wn) as (cn & na & nk & x & y & ->); [by intros ->; inversion Hn|].
    assert (cn = false) as -> by (by rewrite <- (rb_color _ _ _ Hn), red_mk).
    assert (child (other d) st1 p = na) as ->.
    { assert (Hw1 := proj1 H1). apply zip_sibling in Hw1. by destruct (zip_mk_parent _ _ _ _ _ _ _ _ _ _ _ Hw1) as (? & _). }
    destruct (rb_black_inv _ _ _ _ _ _ Hn) as (cx & cy & h' & [= <-] & Hx & Hy).
    destruct (turn_black_ok _ _ _ _ _ _ _ _ _ _ _ _ _ _ _ H1 Ht Hx Hy) as (st' & a' & Ht' & Hturn).
    { by econstructor. }
    exists st', a', true. split; [exact Ht'|].
    replace (inorder (plug (Frame d false p k (mk d true wa wk (mk d false na nk x y) wf) :: ctx) t))
      with (inorder (plug (Frame d false wa wk wf :: ctx) (mk d true p k t (mk d false na nk x y)))); [exact Hturn|].
    cbn [plug f_side f_red f_node f_key f_sib]. apply inorder_plug_ext. destruct d; cbn; rewrite <- ?app_assoc; cbn; by rewrite <- ?app_assoc.
  - destruct Hparts as (Hn & Hf). destruct (turn_black_ok _ _ _ _ _ _ _ _ _ _ _ _ _ _ _ H Ht Hn Hf Hctx) as (st' & a' & Ht' & Hturn).
    by exists st', a', c.
Qed.

(** The root is black already. *)
Lemma black_root st t : holds_tree s st t -> holds_tree s (ngx_rbt_black (root st) st) t.
Proof.
  intros [[p Hz] [h Hrb]]. split; [|by exists h]. exists p. change (root (ngx_rbt_black (root st) st)) with (root st).
  destruct t as [|c l a k r].
  - assert (root st = s) as Hr by (by destruct Hz as (_ & ? & _)). eapply (zip_ext s st); [|done|done].
    intros x. unfold ngx_rbt_black, set_color, upd. cbn. destruct (Z.eqb_spec x (root st)) as [->|]; [|done].
    destruct Hz as (_ & _ & _ & _ & Hb). unfold color in Hb. rewrite Hr. rewrite <- Hb. by destruct (heap st s).
  - assert (c = false) as -> by (by rewrite <- (rb_color _ _ _ Hrb)).
    assert (a = root st) as Ha by (by destruct Hz as (_ & [? _] & _)). 
    change (T false l a k r) with (mk L false a k l r) in Hz.
    destruct (set_color_ok s _ _ _ _ L false false _ _ _ _ Hz) as [H _]. by rewrite Ha in *.
Qed.

(** The loop ends at a red tree in the hole, which becomes black. *)
Lemma fixup_stop fuel st p a ctx t h :
  zip s st p a ctx t -> red t = true -> short t h -> accepts ctx false (S h) ->
  exists st' t', delete_fixup s (S fuel) a st = Some st' /\ holds_tree s st' t' /\ inorder t' = inorder (plug ctx t).
Proof.
  intros Hz Hred Hs Hacc. cbn [delete_fixup].
  replace (ngx_rbt_is_black st a) with false by (unfold ngx_rbt_is_black; by rewrite (zip_red _ _ _ _ _ _ Hz), Hred).
  rewrite andb_false_r. destruct t as [|c l n k r]; [done|]. cbn in Hred. subst c. cbn in Hs.
  change (T true l n k r) with (mk L true n k l r) in *.
  assert (a = n) as -> by (by destruct (zip_mk_parent _ _ _ _ _ _ _ _ _ _ _ Hz) as (? & _)).
  destruct (set_color_ok s _ _ _ _ L true false _ _ _ _ Hz) as [H _].
  destruct (zip_plug _ _ _ _ _ _ H) as [p' H']. destruct (plug_rb _ _ _ _ Hacc Hs) as (h' & ? & _).
  eexists _, _. split; [reflexivity|]. split; [split; [by exists p'|by exists h']|]. by apply inorder_plug_ext.
Qed.

Lemma delete_fixup_ok fuel st p a ctx t h :
  hangs st p a ctx t -> t <> E \/ ctx <> [] -> short t h -> accepts ctx false (S h) -> (length ctx + 2 <= fuel)%nat ->
  exists st' t', delete_fixup s fuel a st = Some st' /\ holds_tree s st' t' /\ inorder t' = inorder (plug ctx t).
Proof.
  revert st p a ctx t h. induction fuel as [|fuel IH]; intros st p a ctx t h H Hne Hs Hacc Hf; [lia|].
  assert (Hz := proj1 H). destruct (red t) eqn:Er; [by eapply fixup_stop|].
  assert (rb t false h) as Ht by (destruct t as [|[] ? ? ? ?]; done).
  destruct ctx as [|[d c q k w] ctx].
  - cbn [delete_fixup]. rewrite (zip_root _ _ _ _ _ Hz), Z.eqb_refl. cbn [negb andb].
    assert (holds_tree s st t) as Hh.
    { split; [exists p; by rewrite (zip_root _ _ _ _ _ Hz)|by exists h]. }
    exists (ngx_rbt_black a st), t. split; [done|]. split; [|done].
    apply black_root in Hh. by rewrite (zip_root _ _ _ _ _ Hz) in Hh.
  - assert (q = p) as -> by (by destruct Hz as ((-> & _) & _)).
    destruct (sibling_parts _ _ _ _ _ _ _ Hacc) as (cw & wa & wk & wn & wf & c1 & c2 & Hw & _).
    assert (negb (a =? root st) && ngx_rbt_is_black st a = true) as Htest.
    { apply andb_true_iff. split; [apply negb_true_iff, Z.eqb_neq; by eapply zip_not_root|].
      unfold ngx_rbt_is_black. by rewrite (zip_red _ _ _ _ _ _ Hz), Er. }
    assert ((if a =? child L st (parent st a) then L else R) = d) as Hd.
    { rewrite (proj2 H). eapply frame_side; [exact Hz|right; rewrite Hw; by destruct d]. }
    cbn [delete_fixup]. rewrite Htest, Hd.
    destruct (turn_ok _ _ _ _ _ _ _ _ _ _ H Ht Hacc) as (st' & a' & b & -> & [Hgo|Hend]).
    + destruct Hgo as (p' & ctx' & t' & h' & Hz' & Hne' & Hs' & Hacc' & Hin & Hlen).
      destruct (red t') eqn:Er'.
      * destruct fuel as [|fuel]; [cbn in Hf; lia|].
        destruct (fixup_stop fuel _ _ _ _ _ _ Hz' Er' Hs' Hacc') as (st2 & t2 & ? & ? & Ho).
        exists st2, t2. by rewrite Ho.
      * destruct b; [congruence|].
        destruct (IH st' p' a' ctx' t' h' (hangs_tree _ _ _ _ _ Hz' Hne') ltac:(by left) Hs' Hacc') as (st2 & t2 & ? & ? & Ho).
        { cbn in Hf. lia. }
        exists st2, t2. by rewrite Ho.
    + destruct Hend as (t' & Hh & -> & Hin). destruct fuel as [|fuel]; [cbn in Hf; lia|].
      cbn [delete_fixup]. rewrite Z.eqb_refl. cbn [negb andb]. eexists _, t'. split; [reflexivity|].
      split; [by apply black_root|exact Hin].
Qed.

(** ** Taking a node out *)

Lemma rb_short t c h : rb t c h -> short t h.
Proof. destruct 1; cbn; [constructor|by econstructor|by econstructor]. Qed.

(** The pointer to a node with one subtree goes to that subtree. *)
Lemma unlink_ok st q m e ce kq sib ctx d cm km t1 :
  zip s st q m (Frame e ce q kq sib :: ctx) (mk d cm m km E t1) ->
  let temp := child (other d) st m in
  (if m =? child L st (parent st m) then set_child L (parent st m) temp st
   else set_child R (parent st m) temp st) = set_child e q temp st /\
  let st1 := set_child e q temp st in
  up s st1 q temp (Frame e ce q kq sib :: ctx) /\ sub s st1 m temp t1 /\ color st1 s = 0 /\
  (forall x, x <> q -> heap st1 x = heap st x) /\ root st1 = root st.
Proof.
  intros Hz temp. assert (Hf := frame_test s _ _ _ _ L _ _ _ _ _ _ Hz ltac:(left; by destruct d)).
  destruct (zip_mk_parent _ _ _ _ _ _ _ _ _ _ _ Hz) as (_ & Hpm & _). rewrite Hpm, Hf. split; [by destruct e|].
  set (st1 := set_child e q temp st).
  assert (Hne : forall x, x <> q -> heap st1 x = heap st x) by (intros x Hx; by apply heap_ne).
  assert (Hq : heap st1 q = let x := heap st q in match e with
    | L => Node (n_key x) temp (n_right x) (n_parent x) (n_color x)
    | R => Node (n_key x) (n_left x) temp (n_parent x) (n_color x) end) by (unfold st1, set_child; by rewrite heap_eq).
  assert (root st1 = root st) as Hr by done. clearbody st1.
  destruct Hz as (Hup & Hsub & Hnd & Hs & Hb). rewrite nodes_mk in Hnd, Hs. rewrite sub_mk in Hsub.
  destruct Hsub as (_ & _ & _ & _ & _ & Ht). cbn in Hnd, Hs.
  assert (NoDup (q :: nodes sib ++ path_nodes ctx) /\ q ∉ nodes t1 /\ q <> s) as (Hnc & Hqt & Hqs).
  { inversion_clear Hnd as [|? ? _ Hnd']. apply NoDup_app in Hnd' as (_ & Hd & Hnc).
    split; [done|]. split; [intros Hin; apply (Hd _ Hin); by left|].
    intros ->. apply Hs. apply elem_of_cons. right. apply elem_of_app. right. by left. }
  split_and!; [| | |done|done].
  - apply (up_repoint s st st1 q m temp); [|done|done|done]. intros v _ Hv. by apply Hne.
  - eapply sub_same; [|exact Ht]. intros v Hv. apply Hne. by intros ->.
  - unfold color. rewrite Hne by done. exact Hb.
Qed.

(** A subtree gets its parent pointer. *)
Lemma link_ok st q p1 a ctx t v :
  up s st q a ctx -> sub s st p1 a t -> NoDup (nodes t ++ path_nodes ctx) -> s ∉ nodes t ++ path_nodes ctx ->
  color st s = 0 ->
  up s (set_parent a v st) q a ctx /\ sub s (set_parent a v st) v a t /\ color (set_parent a v st) s = 0 /\
  parent (set_parent a v st) a = v.
Proof.
  intros Hup Hsub Hnd Hs Hb. set (st1 := set_parent a v st).
  assert (Hne : forall x, x <> a -> heap st1 x = heap st x) by (intros x Hx; by apply heap_ne).
  assert (Ha : heap st1 a = let x := heap st a in Node (n_key x) (n_left x) (n_right x) v (n_color x))
    by (unfold st1, set_parent; by rewrite heap_eq).
  assert (root st1 = root st) as Hr by done. clearbody st1.
  assert (a ∉ path_nodes ctx) as Hac.
  { apply NoDup_app in Hnd as (_ & Hd & _). destruct (sub_root _ _ _ _ _ Hsub) as [->|Hin]; [|by apply Hd].
    intros Hin. apply Hs. apply elem_of_app. by right. }
  apply NoDup_app in Hnd as (Hndt & _ & _). split_and!.
  - eapply up_same; [|done|exact Hup]. intros x Hx. apply Hne. by intros ->.
  - apply (sub_reparent s st st1 p1 v a t); [|by intros _|done|done]. intros x _ Hx. by apply Hne.
  - unfold color in *. destruct (decide (s = a)) as [<-|Hsa]; [by rewrite Ha|by rewrite Hne].
  - unfold parent. by rewrite Ha.
Qed.

(** The heap after [m] has taken the place of [n]: four nodes at most have changed. *)
Lemma replace_heap st n m la ra p :
  child L st n = la -> child R st n = ra -> parent st n = p ->
  n <> m -> la <> m -> ra <> m -> la <> n -> ra <> n -> (la = ra -> la = s) ->
  (n = root st \/ (n <> root st /\ p <> n /\ p <> m /\ p <> la /\ p <> ra)) ->
  let st' := replace s n m st in
  (forall v, v <> m -> (la <> s -> v <> la) -> (ra <> s -> v <> ra) -> (n <> root st -> v <> p) -> heap st' v = heap st v) /\
  (la <> s -> heap st' la = let x := heap st la in Node (n_key x) (n_left x) (n_right x) m (n_color x)) /\
  (ra <> s -> heap st' ra = let x := heap st ra in Node (n_key x) (n_left x) (n_right x) m (n_color x)) /\
  heap st' m = Node (key st m) la ra p (color st n) /\
  (n = root st -> root st' = m) /\
  (n <> root st -> root st' = root st /\
     heap st' p = let x := heap st p in
       if n =? child L st p then Node (n_key x) m (n_right x) (n_parent x) (n_color x)
       else Node (n_key x) (n_left x) m (n_parent x) (n_color x)).
Proof.
  intros Hla Hra Hp Hnm Hlm Hrm Hln Hrn Hlr Hr. unfold replace. rewrite Hla.
  set (st1 := set_child L m la st).
  assert (child R st1 n = ra) as -> by (rewrite <- Hra; unfold child, st1, set_child; by rewrite heap_ne).
  set (st2 := set_child R m ra st1).
  assert (parent st2 n = p) as -> by (rewrite <- Hp; unfold parent, st2, st1, set_child; by heap_eval).
  set (st3 := set_parent m p st2).
  set (st4 := ngx_rbt_copy_color m n st3).
  assert (H4m : heap st4 m = Node (key st m) la ra p (color st n)).
  { unfold st4, st3, st2, st1. heap_unfold. heap_eval. cbn. by heap_eval. }
  assert (H4 : forall x, x <> m -> heap st4 x = heap st x).
  { intros x Hx. unfold st4, st3, st2, st1. heap_unfold. by heap_eval. }
  assert (root st4 = root st) as Hr4 by done. clearbody st4. clear st1 st2 st3.
  assert (parent st4 n = p) as -> by (unfold parent; by rewrite H4).
  rewrite Hr4.
  set (st5 := if n =? root st then _ else _).
  assert (H5 : (forall x, x <> m -> (n <> root st -> x <> p) -> heap st5 x = heap st x) /\
    heap st5 m = Node (key st m) la ra p (color st n) /\
    (n = root st -> root st5 = m) /\
    (n <> root st -> root st5 = root st /\ heap st5 p = let x := heap st p in
       if n =? child L st p then Node (n_key x) m (n_right x) (n_parent x) (n_color x)
       else Node (n_key x) (n_left x) m (n_parent x) (n_color x))).
  { subst st5. destruct (Z.eqb_spec n (root st)) as [Hn|Hn].
    - split_and!; [|done|done|done]. intros x Hx _. by apply H4.
    - destruct Hr as [?|(_ & H1 & H2 & H3 & H3')]; [done|].
      assert (child L st4 p = child L st p) as -> by (unfold child; by rewrite H4).
      destruct (n =? child L st p); unfold set_child; split_and!; try done;
        try (intros x Hx Hx'; rewrite heap_ne by auto; by apply H4); try (by rewrite heap_ne by done);
        intros _; (split; [done|]); by rewrite heap_eq, H4. }
  clearbody st5. destruct H5 as (H5 & H5m & H5r & H5p).
  assert (child L st5 m = la) as -> by (unfold child; by rewrite H5m).
  set (st6 := if negb (la =? s) then set_parent la m st5 else st5).
  assert (child R st6 m = ra) as ->.
  { unfold child, st6, set_parent. destruct (negb (la =? s)); [rewrite heap_ne by done|]; by rewrite H5m. }
  assert (Hpne : n <> root st -> p <> m /\ p <> la /\ p <> ra) by (intros Hn; destruct Hr as [?|(_ & ? & ? & ? & ?)]; done).
  unfold st6, set_parent.
  destruct (Z.eqb_spec la s) as [El|El], (Z.eqb_spec ra s) as [Er|Er]; cbn [negb];
    (split_and!;
     [ intros v Hv Hvl Hvr Hvp; try specialize (Hvl El); try specialize (Hvr Er); heap_eval; by apply H5
     | intros Hls; first [ done | assert (la <> ra) by (intros ?; tauto); heap_eval;
         rewrite H5; [done|done|intros Hn; destruct (Hpne Hn) as (?&?&?); congruence] ]
     | intros Hrs; first [ done | assert (la <> ra) by (intros ?; try tauto; congruence); heap_eval;
         rewrite H5; [done|done|intros Hn; destruct (Hpne Hn) as (?&?&?); congruence] ]
     | heap_eval; exact H5m
     | exact H5r
     | intros Hn; destruct (Hpne Hn) as (?&?&?); split; [by apply H5p|]; heap_eval; by apply H5p ]).
Qed.

(** [m] in the place of [n], with the subtrees of [n]. *)
Lemma replace_ok st p n m ctx c l r pl pr :
  up s st p n ctx -> parent st n = p -> color st n = color_of c ->
  sub s st pl (child L st n) l -> sub s st pr (child R st n) r ->
  NoDup (n :: m :: nodes l ++ nodes r ++ path_nodes ctx) -> s ∉ n :: m :: nodes l ++ nodes r ++ path_nodes ctx ->
  color st s = 0 ->
  zip s (replace s n m st) p m ctx (T c l m (key st m) r) /\ heap (replace s n m st) s = heap st s.
Proof.
  intros Hup Hp Hc Hl Hr Hnd Hs Hb.
  apply NoDup_cons in Hnd as [Hn Hnd]. assert (Hnd' := Hnd). apply NoDup_cons in Hnd' as [Hm Hnd'].
  apply NoDup_app in Hnd' as (Hndl & Hdl & Hnd'). apply NoDup_app in Hnd' as (Hndr & Hdr & Hndc).
  set (la := child L st n) in *. set (ra := child R st n) in *.
  assert (n <> m /\ n <> s /\ m <> s) as (Hnm & Hns & Hms) by (clear -Hn Hs; set_solver).
  assert (forall v, v ∈ nodes l -> v <> m /\ v <> n /\ v <> s /\ v ∉ nodes r /\ v ∉ path_nodes ctx) as Hvl.
  { intros v Hv. assert (v ∉ nodes r ++ path_nodes ctx) by (by apply Hdl). clear -Hv Hn Hm Hs H. set_solver. }
  assert (forall v, v ∈ nodes r -> v <> m /\ v <> n /\ v <> s /\ v ∉ nodes l /\ v ∉ path_nodes ctx) as Hvr.
  { intros v Hv. assert (v ∉ nodes l) by (intros Hin; apply (Hdl _ Hin), elem_of_app; by left).
    assert (v ∉ path_nodes ctx) by (by apply Hdr). clear -Hv Hn Hm Hs H H0. set_solver. }
  assert (forall v, v ∈ path_nodes ctx -> v <> m /\ v <> n /\ v <> s) as Hvc by (clear -Hn Hm Hs; set_solver).
  assert (la = s \/ la ∈ nodes l) as Hla by (by eapply sub_root).
  assert (ra = s \/ ra ∈ nodes r) as Hra by (by eapply sub_root).
  assert (la <> m /\ la <> n /\ ra <> m /\ ra <> n /\ (la = ra -> la = s)) as (Hlm & Hln & Hrm & Hrn & Hlr).
  { destruct Hla as [Ela|Ela], Hra as [Era|Era]; try (destruct (Hvl _ Ela) as (?&?&?&?&?)); try (destruct (Hvr _ Era) as (?&?&?&?&?));
      split_and!; try congruence; intros Heq; rewrite Heq in *; done. }
  assert (la ∉ path_nodes ctx /\ ra ∉ path_nodes ctx) as [Hlc Hrc].
  { split; intros Hin; destruct (Hvc _ Hin) as (?&?&?); [destruct Hla as [?|Hla]; [done|]; by destruct (Hvl _ Hla) as (?&?&?&?&?)
    |destruct Hra as [?|Hra]; [done|]; by destruct (Hvr _ Hra) as (?&?&?&?&?)]. }
  assert (ctx = [] /\ n = root st \/ (n <> root st /\ p <> n /\ p <> m /\ p <> la /\ p <> ra) /\ p ∈ path_nodes ctx) as Hroot.
  { destruct ctx as [|f ctx]; [left; by split|right].
    assert (p = f_node f) as -> by (destruct f; by destruct Hup as (? & _)).
    assert (f_node f ∈ path_nodes (f :: ctx)) as Hf by (apply elem_of_cons; by left).
    destruct (Hvc _ Hf) as (?&?&?). split_and!; try done; [|by intros <-|by intros <-].
    pose proof (up_root _ _ _ _ _ Hup ltac:(done)) as Hu. intros Heq. destruct (Hvc _ Hu) as (?&?&?). congruence. }
  assert (n = root st \/ (n <> root st /\ p <> n /\ p <> m /\ p <> la /\ p <> ra)) as Hroot' by tauto.
  destruct (replace_heap st n m la ra p eq_refl eq_refl Hp Hnm Hlm Hrm Hln Hrn Hlr Hroot')
    as (Hsame & Hhl & Hhr & Hhm & Hrt & Hnrt).
  set (st' := replace s n m st) in *. clearbody st'.
  assert (n <> root st -> p ∈ path_nodes ctx) as Hpc by (destruct Hroot as [[_ ?]|[_ ?]]; done).
  assert (forall v, v <> m -> v <> la \/ v = s -> v <> ra \/ v = s -> v ∉ path_nodes ctx -> heap st' v = heap st v) as Hout.
  { intros v H1 H2 H3 H4. apply Hsame; [done|intros Hx; destruct H2; congruence|intros Hx; destruct H3; congruence|].
    intros Hn' ->. by apply H4, Hpc. }
  assert (s ∉ path_nodes ctx) as Hsc by (intros Hin; by destruct (Hvc _ Hin) as (?&?&?)).
  assert (heap st' s = heap st s) as Hss by (apply Hout; auto).
  split; [|done]. split; [|split; [|split; [|split]]].
  - apply (up_repoint s st st' p n m ctx); [|done| |done].
    + intros v Hv Hf. destruct (Hvc v Hv) as (?&?&?). apply Hsame; [done|by intros ? ->|by intros ? ->|].
      intros Hn' ->. destruct ctx as [|f ctx]; [done|]. destruct f; by destruct Hup as (? & _).
    + destruct ctx as [|[e cf g kg sib] ctx]; cbn [repoint f_node f_side]; [apply Hrt; by symmetry|].
      destruct Hup as (-> & Hg & _ & _ & Hsib & _). destruct Hroot as [[? _]|[(Hn' & _) _]]; [done|].
      destruct (Hnrt Hn') as [? ->]. split; [done|].
      destruct e; [by rewrite Hg, Z.eqb_refl|]. rewrite (proj2 (Z.eqb_neq _ _)); [done|]. cbn [other] in Hsib. intros Heq. rewrite <- Heq in Hsib.
      destruct (sub_root _ _ _ _ _ Hsib) as [?|Hin]; [done|].
      destruct (Hvc n) as (?&?&?); [|done]. cbn. apply elem_of_cons. right. apply elem_of_app. by left.
  - assert (sub s st' m la l) as Hl'.
    { apply (sub_reparent s st st' pl m la l); [| |done|done].
      - intros v Hv Hne. destruct (Hvl v Hv) as (?&?&?&Hvr'&?). apply Hout; [done|by left| |done].
        destruct (decide (v = ra)) as [->|]; [right|by left]. destruct Hra as [Hra|Hra]; [done|]. by exfalso.
      - intros Hne. apply Hhl. intros Heq. destruct l as [|cl ll nl kl rl]; [done|]. destruct Hl as [Hl _].
        destruct (Hvl nl (nodes_self _ _ _ _ _)) as (_&_&?&_). congruence. }
    assert (sub s st' m ra r) as Hr'.
    { apply (sub_reparent s st st' pr m ra r); [| |done|done].
      - intros v Hv Hne. destruct (Hvr v Hv) as (?&?&?&?&?). apply Hout; [done| |by left|done].
        destruct (decide (v = la)) as [->|]; [right|by left]. destruct Hla as [Hla|Hla]; [done|]. destruct (Hvl _ Hla) as (_&_&_&?&_). by exfalso.
      - intros Hne. apply Hhr. intros Heq. destruct r as [|cr lr nr kr rr]; [done|]. destruct Hr as [Hr _].
        destruct (Hvr nr (nodes_self _ _ _ _ _)) as (_&_&?&_). congruence. }
    cbn. unfold parent, color, key, child in *. rewrite Hhm. cbn. by split_and!.
  - change (T c l m (key st m) r) with (mk L c m (key st m) l r). rewrite nodes_mk. cbn. by rewrite <- app_assoc.
  - change (T c l m (key st m) r) with (mk L c m (key st m) l r). rewrite nodes_mk. cbn. rewrite <- app_assoc. clear -Hs. set_solver.
  - unfold color. by rewrite Hss.
Qed.
End Delete.
