(* ===== verification/NgxRbtreeRemove.v ===== *)
(** * NgxRbtreeRemove: a node leaves the tree

    [ngx_rbtree_delete] as a whole: the choice of the node that is taken out,
    the three ways to take it out, and the fixup; [ngx_rbtree_min]. *)

From S2P Require Import Prelude NgxSprintf NgxRbtree NgxRbtreeShape NgxRbtreeInsert NgxRbtreeDelete.

Section Remove.
Context (s : Z).
Implicit Types (st : state) (d : side) (ctx : path) (t : tree).

(** ** Focusing *)

Lemma plug_app ctx1 ctx2 t : plug (ctx1 ++ ctx2) t = plug ctx2 (plug ctx1 t).
Proof. revert t. induction ctx1 as [|f ctx1 IH]; intros t; cbn; [done|]. apply IH. Qed.

(** A node of a tree is the root of a subtree. *)
Lemma focus t n : n ∈ nodes t -> exists ctx c l k r, t = plug ctx (T c l n k r).
Proof.
  induction t as [|c l IHl a k r IHr]; intros Hn; [by apply not_elem_of_nil in Hn|].
  change (T c l a k r) with (mk L c a k l r) in Hn. rewrite nodes_mk in Hn.
  apply elem_of_cons in Hn as [->|[Hn|Hn]%elem_of_app]; [by exists [], c, l, k, r|..].
  - destruct (IHl Hn) as (ctx & c' & l' & k' & r' & ->). exists (ctx ++ [Frame L c a k r]), c', l', k', r'. by rewrite plug_app.
  - destruct (IHr Hn) as (ctx & c' & l' & k' & r' & ->). exists (ctx ++ [Frame R c a k l]), c', l', k', r'. by rewrite plug_app.
Qed.

Lemma zip_focus st p a ctx1 ctx t : zip s st p a ctx (plug ctx1 t) -> exists p' a', zip s st p' a' (ctx1 ++ ctx) t.
Proof.
  revert t. induction ctx1 as [|[d c n k y] ctx1 IH]; intros t Hz; [by exists p, a|].
  destruct (IH _ Hz) as (p' & a' & H). apply zip_into in H. by eexists _, _.
Qed.

Lemma rb_focus ctx1 ctx t c h : accepts ctx c h -> rb (plug ctx1 t) c h ->
  exists c' h', rb t c' h' /\ accepts (ctx1 ++ ctx) c' h'.
Proof.
  intros Hacc. revert t. induction ctx1 as [|[d c1 n k y] ctx1 IH]; intros t Ht; [by exists c, h|].
  destruct (IH _ Ht) as (c' & h' & Hrb & Ha).
  assert (c' = c1) as -> by (by rewrite <- (rb_color _ _ _ Hrb), red_mk). destruct c1.
  - destruct (rb_red_inv _ _ _ _ _ _ Hrb) as [Hx Hy]. exists false, h'. split; [done|]. by constructor.
  - destruct (rb_black_inv _ _ _ _ _ _ Hrb) as (c1 & c2 & h2 & -> & Hx & Hy). exists c1, h2. split; [done|]. by econstructor.
Qed.

(** The key and the address of a node on the path do not matter. *)
Lemma accepts_rename ctx1 d c n k n' k' y ctx c' h :
  accepts (ctx1 ++ Frame d c n k y :: ctx) c' h -> accepts (ctx1 ++ Frame d c n' k' y :: ctx) c' h.
Proof.
  revert c' h. induction ctx1 as [|f ctx1 IH]; intros c' h; cbn; inversion 1; subst; econstructor; eauto.
Qed.

(** ** The minimum *)

Lemma min_loop_ok fuel st p c l a k r ctx :
  zip s st p a ctx (T c l a k r) -> (height (T c l a k r) <= fuel)%nat ->
  exists ctx1 cm m km rm, min_loop s fuel a st = Some m /\ T c l a k r = plug ctx1 (T cm E m km rm) /\
    before ctx1 = [] /\ Forall (fun f => f_side f = L) ctx1.
Proof.
  revert p c l a k r ctx. induction fuel as [|fuel IH]; intros p c l a k r ctx Hz Hf; [cbn in Hf; lia|].
  change (T c l a k r) with (mk L c a k l r) in Hz. apply zip_down_eq in Hz. cbn [min_loop].
  destruct l as [|cl ll nl kl rl].
  - assert (child L st a = s) as -> by (by destruct Hz as (_ & ? & _)). rewrite Z.eqb_refl. cbn [negb].
    by exists [], c, a, k, r.
  - assert (child L st a = nl /\ nl <> s) as [Hc Hne].
    { destruct Hz as (_ & [Hc _] & _ & Hs & _). split; [done|]. intros ->. apply Hs, elem_of_app. left. apply nodes_self. }
    rewrite Hc in Hz |- *. rewrite (proj2 (Z.eqb_neq _ _)) by done. cbn [negb].
    destruct (IH _ _ _ _ _ _ _ Hz) as (ctx1 & cm & m & km & rm & Hm & Ht & Hb & Hl); [cbn [height] in *; lia|].
    exists (ctx1 ++ [Frame L c a k r]), cm, m, km, rm. split; [done|]. split; [by rewrite plug_app, <- Ht|].
    split; [|apply Forall_app; split; [done|by repeat constructor]]. clear -Hb.
    induction ctx1 as [|[[] c1 a1 k1 y1] ctx1 IH]; cbn in *; [done|by apply IH|].
    apply app_eq_nil in Hb as [_ Hb]. by destruct (inorder y1).
Qed.

(** ** The end of a deletion *)

(** A node outside the tree may change. *)
Lemma hangs_outside st st' n p a ctx t :
  hangs s st p a ctx t -> n <> s -> n ∉ nodes t ++ path_nodes ctx ->
  (forall x, x <> n -> heap st' x = heap st x) -> root st' = root st -> hangs s st' p a ctx t.
Proof.
  intros [(Hup & Hsub & Hnd & Hs & Hb) Hp] Hns Hn Hh Hr.
  assert (forall l, n ∉ l -> same st st' l) as Hl by (intros l Hl v Hv; apply Hh; by intros ->).
  assert (n ∉ nodes t /\ n ∉ path_nodes ctx) as [Hn1 Hn2] by (rewrite elem_of_app in Hn; tauto).
  split; [split_and!; try done|].
  - eapply up_same; [by apply Hl|done|done].
  - eapply sub_same; [by apply Hl|done].
  - unfold color. by rewrite Hh.
  - unfold parent. rewrite Hh; [done|]. intros ->. by destruct (sub_root _ _ _ _ _ Hsub).
Qed.

Lemma clear_outside n st : (forall x, x <> n -> heap (clear n st) x = heap st x) /\ root (clear n st) = root st.
Proof. split; [|done]. intros x Hx. unfold clear. heap_unfold. by heap_eval. Qed.

(** The tree [t1] in the place of the node with [t1] as its only subtree. *)
Lemma finish_ok st d q a m km cm ctx t1 h :
  hangs s st q a ctx t1 -> ctx <> [] -> rb (mk d cm m km E t1) cm h -> accepts ctx cm h ->
  (length ctx + 2 <= rb_fuel)%nat ->
  exists st' t', (if cm then Some st else delete_fixup s rb_fuel a st) = Some st' /\ holds_tree s st' t' /\
    inorder t' = inorder (plug ctx t1).
Proof.
  intros H Hne Hrb Hacc Hlen. destruct cm.
  - destruct (rb_red_inv _ _ _ _ _ _ Hrb) as [_ Ht]. apply accepts_weaken in Hacc.
    destruct (zip_plug _ _ _ _ _ _ (proj1 H)) as [p' Hz]. destruct (plug_rb _ _ _ _ Hacc Ht) as (h' & ? & _).
    exists st, (plug ctx t1). split; [done|]. split; [|done]. split; [by exists p'|by exists h'].
  - destruct (rb_black_inv _ _ _ _ _ _ Hrb) as (c1 & c2 & h' & -> & _ & Ht).
    eapply delete_fixup_ok; [exact H|by right|by eapply rb_short|exact Hacc|done].
Qed.

(** The root is taken out. *)
Lemma delete_root_ok st p n d c k t1 h :
  zip s st p n [] (mk d c n k E t1) -> rb (mk d c n k E t1) false h ->
  let temp := child (other d) st n in
  exists t', holds_tree s (clear n (ngx_rbt_black temp (set_root temp st))) t' /\ inorder t' = inorder t1.
Proof.
  intros Hz Hrb temp. assert (c = false) as -> by (by rewrite <- (rb_color _ _ _ Hrb), red_mk).
  destruct (rb_black_inv _ _ _ _ _ _ Hrb) as (c1 & c2 & h' & -> & _ & Ht).
  destruct (zip_node _ _ _ _ _ _ _ _ _ _ _ Hz) as (Hns & _ & Hnt & _).
  rewrite <- mk_other in Hz. apply zip_down_eq in Hz. fold temp in Hz.
  assert (zip s (set_root temp st) n temp [] t1) as Hz1.
  { destruct Hz as (_ & Hsub & Hnd & Hs & Hb). cbn in Hnd, Hs. apply NoDup_app in Hnd as (Hnd & _ & _).
    rewrite elem_of_app in Hs. split_and!; [done|by eapply sub_same; [|exact Hsub]|by rewrite app_nil_r|cbn; rewrite app_nil_r; tauto|done]. }
  clear Hz. set (st1 := set_root temp st) in *. assert (root st1 = temp) as Hr by done. clearbody st1.
  assert (exists t' h2, zip s (ngx_rbt_black temp st1) n temp [] t' /\ rb t' false h2 /\ inorder t' = inorder t1 /\ nodes t' = nodes t1)
    as (t' & h2 & Hz2 & Ht' & Ho & Hnn).
  { destruct t1 as [|ct l a kt r].
    - exists E, O. split_and!; [|constructor|done|done]. rewrite <- Hr. assert (temp = s) as -> by (by destruct Hz1 as (_ & ? & _)).
      destruct (black_root s st1 E) as [[p' H] _]; [split; [exists n; by rewrite Hr|exists O; constructor]|].
      change (root (ngx_rbt_black (root st1) st1)) with (root st1) in H. rewrite Hr in *.
      destruct H as (? & ? & ? & ? & ?). by split_and!.
    - assert (temp = a) as -> by (by destruct Hz1 as (_ & [? _] & _)).
      change (T ct l a kt r) with (mk L ct a kt l r) in Hz1, Ht.
      destruct (set_color_ok s _ _ _ _ L ct false _ _ _ _ Hz1) as [H _]. exists (mk L false a kt l r).
      assert (c2 = ct) as -> by (by rewrite <- (rb_color _ _ _ Ht), red_mk).
      destruct ct.
      + destruct (rb_red_inv _ _ _ _ _ _ Ht). exists (S h'). split_and!; [exact H|by eapply rb_mk_black|done|done].
      + exists h'. by split_and!. }
  assert (root (ngx_rbt_black temp st1) = temp) as Hr2 by done. set (st2 := ngx_rbt_black temp st1) in *. clearbody st2.
  destruct (clear_outside n st2) as [Hc1 Hc2].
  exists t'. split; [|done]. split; [|by exists h2]. exists n. rewrite Hc2, Hr2. unfold nodes in Hnn.
  destruct Hz2 as (_ & Hsub & Hnd & Hs & Hb). split_and!; try done.
  - eapply sub_same; [|exact Hsub]. intros v Hv. apply Hc1. intros ->. apply Hnt. unfold nodes. by rewrite <- Hnn.
  - unfold color. by rewrite Hc1.
Qed.

Lemma zip_one st p a ctx d c m km t1 : zip s st p a ctx (mk d c m km E t1) ->
  m <> s /\ m ∉ nodes t1 ++ path_nodes ctx /\ NoDup (nodes t1 ++ path_nodes ctx) /\ s ∉ nodes t1 ++ path_nodes ctx.
Proof.
  intros (_ & _ & Hnd & Hs & _). rewrite nodes_mk in Hnd, Hs. cbn [nodes app] in Hnd, Hs.
  apply NoDup_cons in Hnd as [? ?]. apply not_elem_of_cons in Hs as [? ?]. by split_and!.
Qed.

(** [m] has left the tree, and its subtree has the parent pointer [v]. *)
Lemma splice_ok st q m e ce kq sib ctx d cm km t1 v :
  zip s st q m (Frame e ce q kq sib :: ctx) (mk d cm m km E t1) ->
  let temp := child (other d) st m in
  let st1 := if m =? child L st (parent st m) then set_child L (parent st m) temp st
             else set_child R (parent st m) temp st in
  let st2 := set_parent temp v st1 in
  parent st1 m = q /\ up s st2 q temp (Frame e ce q kq sib :: ctx) /\ sub s st2 v temp t1 /\ color st2 s = 0 /\
  parent st2 temp = v /\ key st2 m = km /\ root st2 = root st.
Proof.
  intros Hz temp st1 st2. destruct (zip_one _ _ _ _ _ _ _ _ _ Hz) as (Hms & Hm & Hnd & Hs).
  destruct (unlink_ok s _ _ _ _ _ _ _ _ _ _ _ _ Hz) as (Hif & Hup & Hsub & Hb & Hne & Hr).
  fold temp in Hif, Hup, Hsub, Hb, Hne, Hr. change (st1 = set_child e q temp st) in Hif. rewrite <- Hif in *. clearbody st1.
  destruct (link_ok s _ _ _ _ _ _ v Hup Hsub Hnd Hs Hb) as (Hup2 & Hsub2 & Hb2 & Hp2).
  destruct (zip_mk_parent _ _ _ _ _ _ _ _ _ _ _ Hz) as (_ & Hpm & _).
  assert (m <> q) as Hmq by (intros ->; apply Hm, elem_of_app; right; by left).
  split_and!; try done.
  - unfold parent in *. by rewrite Hne.
  - destruct Hz as (_ & Hz & _). rewrite sub_mk in Hz. destruct Hz as (_ & _ & _ & Hk & _ & Hsub0).
    unfold st2, key, set_parent, upd in *. cbn. rewrite Hne by done. case_match; done.
Qed.

(** A node with one subtree at most is taken out itself. *)
Lemma delete_one_ok st p d n c k t1 ctx h :
  zip s st p n ctx (mk d c n k E t1) -> rb (mk d c n k E t1) c h -> accepts ctx c h ->
  (length ctx + 2 <= rb_fuel)%nat -> choose_subst s n st = Some (n, child (other d) st n) ->
  exists st' t', ngx_rbtree_delete s n st = Some st' /\ holds_tree s st' t' /\ inorder t' = inorder (plug ctx t1).
Proof.
  intros Hz Hrb Hacc Hlen Hch. unfold ngx_rbtree_delete. rewrite Hch. cbn [mbind option_bind].
  destruct ctx as [|[e ce q kq sib] ctx].
  { rewrite (zip_root _ _ _ _ _ Hz), Z.eqb_refl. assert (c = false) as -> by (by inversion Hacc).
    destruct (delete_root_ok _ _ _ _ _ _ _ _ Hz Hrb) as (t' & ? & ?). by eexists _, t'. }
  rewrite (proj2 (Z.eqb_neq n (root st))) by (by eapply zip_not_root).
  assert (ngx_rbt_is_red st n = c) as -> by (by rewrite (zip_red _ _ _ _ _ _ Hz), red_mk).
  assert (p = q) as -> by (by destruct Hz as ((? & _) & _)).
  destruct (splice_ok _ _ _ _ _ _ _ _ _ _ _ _ q Hz) as (Hp1 & Hup & Hsub & Hb & Hp & _).
  destruct (zip_one _ _ _ _ _ _ _ _ _ Hz) as (Hns & Hn & Hnd & Hs).
  cbv zeta. rewrite Z.eqb_refl. set (temp := child (other d) st n) in *.
  set (st1 := if n =? _ then _ else _) in *. rewrite Hp1. set (st2 := set_parent temp q st1) in *. clearbody st2.
  destruct (clear_outside n st2) as [Hc1 Hc2].
  eapply finish_ok; [|done|exact Hrb|exact Hacc|done].
  eapply (hangs_outside st2); [|exact Hns|exact Hn|exact Hc1|exact Hc2]. by split; [split_and!|].
Qed.

(** The right subtree of [n], and the rest. *)
Lemma up_focus st q a v ctx1 c n k l ctx t :
  up s st q a (ctx1 ++ Frame R c n k l :: ctx) -> sub s st v a t -> (ctx1 <> [] -> v = q) ->
  (exists pr, sub s st pr (child R st n) (plug ctx1 t)) /\ color st n = color_of c /\
  sub s st n (child L st n) l /\ up s st (parent st n) n ctx.
Proof.
  revert q a v t. induction ctx1 as [|[d c1 n1 k1 y] ctx1 IH]; intros q a v t Hup Hsub Hv.
  - cbn in Hup. destruct Hup as (-> & Hc & ? & ? & ? & ?). split_and!; try done. exists v. unfold child. by rewrite Hc.
  - cbn [app up] in Hup. destruct Hup as (-> & Hc & ? & ? & Hy & Hup). rewrite Hv in Hsub by done.
    apply (IH _ _ (parent st n1) (mk d c1 n1 k1 t y) Hup); [|done]. apply sub_mk. split_and!; try done. by rewrite Hc.
Qed.

Lemma up_parent st p a ctx1 f ctx : up s st p a (ctx1 ++ f :: ctx) ->
  p = if ctx1 is g :: _ then f_node g else f_node f.
Proof. destruct ctx1 as [|[] ctx1], f; cbn; tauto. Qed.

(** [m], taken out of the tree in the hole of [ctx1] below [n], in the place of [n]. *)
Lemma swap_ok st ctx1 c n k l m km ctx tm t1 v q :
  up s st q tm (ctx1 ++ Frame R c n k l :: ctx) -> sub s st v tm t1 -> color st s = 0 -> parent st tm = v -> key st m = km ->
  NoDup (n :: m :: nodes l ++ nodes (plug ctx1 t1) ++ path_nodes ctx) ->
  s ∉ n :: m :: nodes l ++ nodes (plug ctx1 t1) ++ path_nodes ctx ->
  v = (if ctx1 is [] then m else q) ->
  exists q', hangs s (clear n (replace s n m st)) q' tm (ctx1 ++ Frame R c m km l :: ctx) t1.
Proof.
  intros Hup Hsub Hb Hp Hk Hnd Hs Hv.
  destruct (up_focus _ _ _ _ _ _ _ _ _ _ _ Hup Hsub) as ([pr Hr] & Hc & Hl & Hctx); [by destruct ctx1|].
  destruct (replace_ok s st _ n m ctx c l (plug ctx1 t1) n pr Hctx eq_refl Hc Hl Hr Hnd Hs Hb) as [Hz Hhs].
  rewrite Hk in Hz. set (st1 := replace s n m st) in *. clearbody st1.
  change (T c l m km (plug ctx1 t1)) with (mk R c m km (plug ctx1 t1) l) in Hz. apply zip_into, zip_focus in Hz.
  destruct Hz as (q' & a' & Hz). exists q'.
  assert (q' = v) as ->.
  { pose proof (up_parent _ _ _ _ _ _ (proj1 Hz)) as ->. pose proof (up_parent _ _ _ _ _ _ Hup) as Hq. rewrite Hv. destruct ctx1; [done|]. by rewrite Hq. }
  assert (a' = tm /\ parent st1 tm = v) as [-> Hp1].
  { destruct Hz as (_ & Hz & _). destruct t1 as [|ct lt nt kt rt]; cbn in Hz, Hsub.
    - subst a' tm. split; [done|]. unfold parent in *. by rewrite Hhs.
    - destruct Hz as (-> & ? & _), Hsub as (-> & _). done. }
  destruct (clear_outside n st1) as [Hc1 Hc2].
  apply NoDup_cons in Hnd as [Hn _]. apply not_elem_of_cons in Hs as [Hsn _].
  eapply (hangs_outside st1); [by split|done| |exact Hc1|exact Hc2].
  intros Hin. rewrite <- nodes_plug, plug_app in Hin. cbn [plug f_side f_red f_node f_key f_sib] in Hin.
  rewrite nodes_plug, nodes_mk in Hin. apply Hn. clear -Hin. set_solver.
Qed.

(** [splice_ok] below [n]: the parent pointer is that of the place that the subtree gets. *)
Lemma splice_below_ok st q m ctx1 c n k l ctx cm km rm :
  zip s st q m (ctx1 ++ Frame R c n k l :: ctx) (mk L cm m km E rm) -> n ∉ nodes (plug ctx1 rm) ->
  let temp := child R st m in
  let st1 := if m =? child L st (parent st m) then set_child L (parent st m) temp st
             else set_child R (parent st m) temp st in
  let st2 := if parent st1 m =? n then set_parent temp m st1 else set_parent temp (parent st1 m) st1 in
  let v := if ctx1 is [] then m else q in
  m <> n /\ up s st2 q temp (ctx1 ++ Frame R c n k l :: ctx) /\ sub s st2 v temp rm /\ color st2 s = 0 /\
  parent st2 temp = v /\ key st2 m = km.
Proof.
  intros Hz Hn temp st1 st2 v. assert (Hq := up_parent _ _ _ _ _ _ (proj1 Hz)). cbn in Hq.
  split.
  { destruct (zip_one _ _ _ _ _ _ _ _ _ Hz) as (_ & Hm & _ & _). intros ->. apply Hm, elem_of_app. right. clear.
    induction ctx1 as [|f ctx1 IH]; cbn; [by left|]. right. apply elem_of_app. by right. }
  assert (parent st1 m = q /\ st2 = set_parent temp v st1) as [_ ->].
  { assert (parent st1 m = q) as Hp.
    { destruct ctx1 as [|[e ce q' kq sib] ctx1]; cbn in Hq; subst q; exact (proj1 (splice_ok _ _ _ _ _ _ _ _ _ _ _ _ v Hz)). }
    split; [done|]. unfold st2. rewrite Hp. unfold v. destruct ctx1 as [|g ctx1]; [by rewrite Hq, Z.eqb_refl|].
    rewrite (proj2 (Z.eqb_neq q n)); [done|]. intros Hqn. apply Hn. rewrite nodes_plug. cbn [path_nodes].
    rewrite <- Hqn, Hq. clear. set_solver. }
  destruct ctx1 as [|[e ce q' kq sib] ctx1]; cbn in Hq; subst q;
    destruct (splice_ok _ _ _ _ _ _ _ _ _ _ _ _ v Hz) as (? & ? & ? & ? & ? & ? & _); by split_and!.
Qed.

(** A node with two subtrees: its successor takes its place. *)
Lemma delete_two_ok st p n c k l r ctx h ctx1 cm m km rm :
  zip s st p n ctx (T c l n k r) -> rb (T c l n k r) c h -> accepts ctx c h -> r = plug ctx1 (T cm E m km rm) ->
  (length ctx + S (length ctx1) + 2 <= rb_fuel)%nat -> choose_subst s n st = Some (m, child R st m) ->
  exists st' t', ngx_rbtree_delete s n st = Some st' /\ holds_tree s st' t' /\
    inorder t' = inorder (plug (ctx1 ++ Frame R c m km l :: ctx) rm).
Proof.
  intros Hz Hrb Hacc -> Hlen Hch. unfold ngx_rbtree_delete. rewrite Hch. cbn [mbind option_bind].
  assert (NoDup (n :: m :: nodes l ++ nodes (plug ctx1 rm) ++ path_nodes ctx) /\
          s ∉ n :: m :: nodes l ++ nodes (plug ctx1 rm) ++ path_nodes ctx) as [Hnodup Hs].
  { destruct Hz as (_ & _ & Hnd & Hs & _).
    assert (nodes (mk R c n k (plug ctx1 (mk L cm m km E rm)) l) ++ path_nodes ctx ≡ₚ
            n :: m :: nodes l ++ nodes (plug ctx1 rm) ++ path_nodes ctx) as Heq.
    { rewrite nodes_mk, !nodes_plug, nodes_mk. cbn [nodes app]. constructor. constructor. solve_Permutation. }
    cbn [mk] in Heq. by rewrite Heq in Hnd, Hs. }
  change (T c l n k (plug ctx1 (T cm E m km rm))) with (plug [Frame R c n k l] (plug ctx1 (T cm E m km rm))) in Hz, Hrb.
  rewrite <- plug_app in Hz, Hrb. apply zip_focus in Hz as (q & a & Hz).
  destruct (rb_focus _ _ _ _ _ Hacc Hrb) as (c' & h' & Hrbm & Haccm).
  rewrite <- app_assoc in Hz, Haccm. cbn [app] in Hz, Haccm.
  change (T cm E m km rm) with (mk L cm m km E rm) in *.
  assert (c' = cm) as -> by (by rewrite <- (rb_color _ _ _ Hrbm)).
  assert (a = m) as -> by (by destruct (zip_mk_parent _ _ _ _ _ _ _ _ _ _ _ Hz) as (? & _)).
  rewrite (proj2 (Z.eqb_neq m (root st))) by (eapply zip_not_root; [exact Hz|by destruct ctx1]).
  assert (ngx_rbt_is_red st m = cm) as -> by (by rewrite (zip_red _ _ _ _ _ _ Hz), red_mk).
  assert (n ∉ nodes (plug ctx1 rm)) as Hn by (clear -Hnodup; apply NoDup_cons in Hnodup as [Hn _]; set_solver).
  destruct (splice_below_ok _ _ _ _ _ _ _ _ _ _ _ _ Hz Hn) as (Hmn & Hup & Hsub & Hb & Hpv & Hk).
  cbv zeta. rewrite (proj2 (Z.eqb_neq m n) Hmn).
  destruct (swap_ok _ _ _ _ _ _ _ _ _ _ _ _ _ Hup Hsub Hb Hpv Hk Hnodup Hs eq_refl) as [q' Hh].
  eapply finish_ok; [exact Hh|by destruct ctx1|exact Hrbm|by eapply accepts_rename|].
  rewrite length_app. cbn [length]. lia.
Qed.

(** ** Deletion *)

Lemma split_unique (l1 l2 l3 l4 : list (Z * Z)) n k k' :
  l1 ++ (n, k) :: l2 = l3 ++ (n, k') :: l4 -> NoDup (l1 ++ (n, k) :: l2).*1 -> l1 = l3 /\ k = k' /\ l2 = l4.
Proof.
  revert l3. induction l1 as [|x l1 IH]; intros [|y l3]; cbn; intros Heq Hnd; apply NoDup_cons in Hnd as [Hn Hnd];
    injection Heq.
  - by intros -> ->.
  - intros -> <-. exfalso. apply Hn. cbn. rewrite fmap_app. apply elem_of_app. right. by left.
  - intros <- ->. exfalso. apply Hn. cbn. rewrite fmap_app. apply elem_of_app. right. by left.
  - intros Heq' ->. destruct (IH _ Heq' Hnd) as (-> & ? & ?). done.
Qed.

(** Whether the subtree on one side is empty. *)
Lemma zip_child_sentinel st p n ctx d c k x y : zip s st p n ctx (mk d c n k x y) -> (child d st n =? s) = is_E x.
Proof.
  intros Hz. apply zip_down_eq in Hz. destruct x as [|cx lx nx kx rx].
  - assert (child d st n = s) as -> by (by destruct Hz as (_ & ? & _)). apply Z.eqb_refl.
  - apply Z.eqb_neq. assert (child d st n = nx) as -> by (by destruct Hz as (_ & [? _] & _)).
    destruct Hz as (_ & _ & _ & Hs & _). intros ->. apply Hs, elem_of_app. left. apply nodes_self.
Qed.

Lemma delete_focused st p n c k l r ctx h :
  zip s st p n ctx (T c l n k r) -> rb (T c l n k r) c h -> accepts ctx c h ->
  (length ctx + height (T c l n k r) <= 130)%nat ->
  exists st' t', ngx_rbtree_delete s n st = Some st' /\ holds_tree s st' t' /\
    inorder t' = before ctx ++ (inorder l ++ inorder r) ++ behind ctx.
Proof.
  intros Hz Hrb Hacc Hh. cbn [height] in Hh.
  pose proof (zip_child_sentinel _ _ _ _ L _ _ _ _ Hz) as Hl.
  change (T c l n k r) with (mk R c n k r l) in Hz. pose proof (zip_child_sentinel _ _ _ _ _ _ _ _ _ Hz) as Hr.
  destruct l as [|cl ll nl kl rl]; [|destruct r as [|cr lr nr kr rr]]; cbn [is_E] in Hl, Hr.
  - destruct (delete_one_ok st p L n c k r ctx h) as (st' & t' & ? & ? & Ho); [exact Hz|exact Hrb|done|unfold rb_fuel; lia| |].
    { unfold choose_subst. by rewrite Hl. }
    exists st', t'. by rewrite Ho, inorder_plug.
  - destruct (delete_one_ok st p R n c k (T cl ll nl kl rl) ctx h) as (st' & t' & ? & ? & Ho); [exact Hz|exact Hrb|done|unfold rb_fuel; lia| |].
    { unfold choose_subst. by rewrite Hl, Hr. }
    exists st', t'. rewrite Ho, inorder_plug. by rewrite app_nil_r.
  - assert (Hz' := Hz). apply zip_down_eq in Hz'.
    assert (child R st n = nr) as Hnr by (by destruct Hz' as (_ & [? _] & _)). rewrite Hnr in Hz'.
    destruct (min_loop_ok rb_fuel _ _ _ _ _ _ _ _ Hz') as (ctx1 & cm & m & km & rm & Hm & Ht & Hb & Hf); [unfold rb_fuel; lia|].
    rewrite Ht in Hz'. apply zip_focus in Hz' as (q & a & Hz').
    change (T cm E m km rm) with (mk L cm m km E rm) in Hz'.
    assert (a = m) as -> by (by destruct (zip_mk_parent _ _ _ _ _ _ _ _ _ _ _ Hz') as (? & _)).
    pose proof (zip_child_sentinel _ _ _ _ _ _ _ _ _ Hz') as Hlm.
    destruct (delete_two_ok st p n c k _ _ ctx h ctx1 cm m km rm Hz Hrb Hacc Ht) as (st' & t' & ? & ? & Ho).
    + pose proof (height_plug ctx1 (T cm E m km rm)) as Hp. rewrite <- Ht in Hp. unfold rb_fuel. cbn [height] in *. lia.
    + unfold choose_subst, ngx_rbtree_min. rewrite Hl, Hr, Hnr, Hm. cbn [mbind option_bind]. by rewrite Hlm.
    + exists st', t'. split; [done|]. split; [done|]. rewrite Ho, plug_app. cbn [plug f_side f_red f_node f_key f_sib].
      rewrite inorder_plug, Ht. cbn [mk inorder]. rewrite !inorder_plug, Hb. cbn. by rewrite <- !app_assoc.
Qed.

(** Deletion takes one node out of the order. *)
Lemma rbtree_delete_ok st t n l1 k l2 :
  holds_tree s st t -> fits t -> inorder t = l1 ++ (n, k) :: l2 ->
  exists st' t', ngx_rbtree_delete s n st = Some st' /\ holds_tree s st' t' /\ inorder t' = l1 ++ l2.
Proof.
  intros [[p Hz] [h Hrb]] Hfits Hin. pose proof (fits_height _ _ Hrb Hfits) as Hh.
  destruct (focus t n) as (ctx & c & l & k' & r & ->).
  { unfold nodes. rewrite Hin, fmap_app. apply elem_of_app. right. by left. }
  assert (NoDup (inorder (plug ctx (T c l n k' r))).*1) as Hnd.
  { destruct Hz as (_ & _ & Hnd & _). by apply NoDup_app in Hnd as (Hnd & _ & _). }
  destruct (rb_focus _ _ _ _ _ (accepts_root h) Hrb) as (c' & h' & Hrbn & Hacc).
  apply zip_focus in Hz as (p' & a & Hz). rewrite app_nil_r in Hz, Hacc.
  assert (c' = c) as -> by (by rewrite <- (rb_color _ _ _ Hrbn)).
  assert (a = n) as -> by (by destruct Hz as (_ & [? _] & _)).
  destruct (delete_focused _ _ _ _ _ _ _ _ _ Hz Hrbn Hacc) as (st' & t' & ? & ? & Ho).
  { pose proof (height_plug ctx (T c l n k' r)). lia. }
  exists st', t'. split; [done|]. split; [done|]. rewrite Hin in Hnd. rewrite Ho. rewrite inorder_plug in Hin. cbn [inorder] in Hin.
  assert (l1 ++ (n, k) :: l2 = (before ctx ++ inorder l) ++ (n, k') :: (inorder r ++ behind ctx)) as Heq
    by (by rewrite <- Hin, <- !app_assoc).
  destruct (split_unique _ _ _ _ _ _ _ Heq Hnd) as (-> & _ & ->). by rewrite <- !app_assoc.
Qed.
End Remove.
