(* ===== verification/NgxRbtreeTrace.v ===== *)
(** * NgxRbtreeTrace: sequences of operations on a tree

    Any sequence of insertions, deletions, minima and successors behaves as on
    a list of nodes in the order of their keys, equal keys in the order of
    insertion; the depth is at most twice the logarithm of the number of nodes.
    The order is that of the integers for [ngx_rbtree_insert_value], and that
    of the distance from a base, modulo 2^64, for
    [ngx_rbtree_insert_timer_value]. *)

From S2P Require Import Prelude NgxSprintf NgxRbtree NgxRbtreeShape NgxRbtreeInsert NgxRbtreeDelete NgxRbtreeRemove.

(** ** The specification *)

Inductive op : Type :=
  | Insert (n k : Z)
  | Delete (n : Z)
  | Min
  | Next (n : Z).

(** The node behind [n]. *)
Fixpoint next_in (n : Z) (l : list (Z * Z)) : option Z :=
  match l with
  | [] => None
  | x :: l => if x.1 =? n then fst <$> head l else next_in n l
  end.

(** The list of nodes and keys after an operation, and the node it returns. *)
Definition spec_op (lt : Z * Z -> Z * Z -> bool) (o : op) (l : list (Z * Z)) : list (Z * Z) * option Z :=
  match o with
  | Insert n k => (ins lt (n, k) l, None)
  | Delete n => (filter (fun x => x.1 <> n) l, None)
  | Min => (l, fst <$> head l)
  | Next n => (l, next_in n l)
  end.

Fixpoint spec_run (lt : Z * Z -> Z * Z -> bool) (ops : list op) (l : list (Z * Z)) : list (Z * Z) * list (option Z) :=
  match ops with
  | [] => (l, [])
  | o :: ops =>
      let (l, r) := spec_op lt o l in
      let (l, rs) := spec_run lt ops l in (l, r :: rs)
  end.

(** What the callers take care of: a node is at an address of its own and in
    the tree at most once, only nodes of the tree are deleted or asked for
    their successor, the minimum is that of some node; nodes with their
    keys are in [K]. *)
Definition allowed (s : Z) (K : Z * Z -> bool) (o : op) (l : list (Z * Z)) : bool :=
  match o with
  | Insert n k => bool_decide (0 <= n < 2 ^ 64 /\ n <> s /\ n ∉ l.*1) && K (n, k)
  | Delete n | Next n => bool_decide (n ∈ l.*1)
  | Min => bool_decide (l <> [])
  end.

Fixpoint all_allowed (s : Z) (lt : Z * Z -> Z * Z -> bool) (K : Z * Z -> bool) (ops : list op) (l : list (Z * Z)) : bool :=
  match ops with
  | [] => true
  | o :: ops => allowed s K o l && all_allowed s lt K ops (spec_op lt o l).1
  end.

(** ** The operations on the heap *)

Definition run_op (s : Z) (insert : Z -> Z -> state -> option state) (o : op) (st : state) : option (state * option Z) :=
  match o with
  | Insert n k => st ← ngx_rbtree_insert s insert n (set_key n k st); Some (st, None)
  | Delete n => st ← ngx_rbtree_delete s n st; Some (st, None)
  | Min => n ← ngx_rbtree_min s (root st) st; Some (st, Some n)
  | Next n => r ← ngx_rbtree_next s n st; Some (st, r)
  end.

Fixpoint run (s : Z) (insert : Z -> Z -> state -> option state) (ops : list op) (st : state)
  : option (state * list (option Z)) :=
  match ops with
  | [] => Some (st, [])
  | o :: ops =>
      '(st, r) ← run_op s insert o st;
      '(st, rs) ← run s insert ops st;
      Some (st, r :: rs)
  end.

(** ** Minimum and successor *)

Section Walk.
Context (s : Z).
Implicit Types (st : state) (d : side) (ctx : path) (t : tree).

Lemma min_head st p c l a k r ctx :
  zip s st p a ctx (T c l a k r) -> (height (T c l a k r) <= rb_fuel)%nat ->
  exists m, ngx_rbtree_min s a st = Some m /\ Some m = fst <$> head (inorder (T c l a k r)).
Proof.
  intros Hz Hh. destruct (min_loop_ok _ _ _ _ _ _ _ _ _ _ Hz Hh) as (ctx1 & cm & m & km & rm & Hm & Ht & Hb & _).
  exists m. split; [done|]. by rewrite Ht, inorder_plug, Hb.
Qed.

Lemma min_ok st t : holds_tree s st t -> fits t -> t <> E ->
  exists m, ngx_rbtree_min s (root st) st = Some m /\ Some m = fst <$> head (inorder t).
Proof.
  intros [[p Hz] [h Hrb]] Hf Hne. destruct t as [|c l a k r]; [done|].
  assert (root st = a) as Hr by (by destruct Hz as (_ & [? _] & _)). rewrite Hr in *.
  eapply min_head; [exact Hz|]. pose proof (fits_height _ _ Hrb Hf). unfold rb_fuel. lia.
Qed.

Lemma next_loop_ok fuel st p a ctx t :
  zip s st p a ctx t -> t <> E -> (length ctx < fuel)%nat ->
  next_loop fuel a st = Some (fst <$> head (behind ctx)).
Proof.
  revert p a ctx t. induction fuel as [|fuel IH]; intros p a ctx t Hz Hne Hf; [lia|]. cbn [next_loop].
  assert (parent st a = p) as ->.
  { destruct t as [|c l n k r]; [done|]. by destruct (zip_parent _ _ _ _ _ _ _ _ _ _ Hz) as (-> & ? & _). }
  destruct ctx as [|[d c q k y] ctx]; [by rewrite (zip_root _ _ _ _ _ Hz), Z.eqb_refl|].
  rewrite (proj2 (Z.eqb_neq _ _)) by (by eapply zip_not_root).
  assert (p = q) as -> by (by destruct Hz as ((? & _) & _)).
  rewrite (frame_test s _ _ _ _ L _ _ _ _ _ _ Hz (or_introl Hne)). apply zip_up in Hz as (_ & _ & Hz).
  destruct d; cbn [bool_decide behind f_side]; [done|]. cbn in Hf. eapply IH; [exact Hz|by destruct t|lia].
Qed.

Lemma next_in_split n k l1 l2 : n ∉ l1.*1 -> next_in n (l1 ++ (n, k) :: l2) = fst <$> head l2.
Proof.
  induction l1 as [|x l1 IH]; cbn; [by rewrite Z.eqb_refl|]. intros [Hn Hn']%not_elem_of_cons.
  rewrite (proj2 (Z.eqb_neq _ _)) by done. by apply IH.
Qed.

Lemma next_ok st t n : holds_tree s st t -> fits t -> n ∈ nodes t ->
  ngx_rbtree_next s n st = Some (next_in n (inorder t)).
Proof.
  intros [[p Hz] [h Hrb]] Hfits Hn. pose proof (fits_height _ _ Hrb Hfits) as Hh.
  destruct (focus t n Hn) as (ctx & c & l & k & r & ->). pose proof (height_plug ctx (T c l n k r)) as Hp.
  assert (NoDup (inorder (plug ctx (T c l n k r))).*1) as Hnd.
  { destruct Hz as (_ & _ & Hnd & _). by apply NoDup_app in Hnd as (Hnd & _ & _). }
  apply zip_focus in Hz as (p' & a & Hz). rewrite app_nil_r in Hz.
  assert (a = n) as -> by (by destruct Hz as (_ & [? _] & _)).
  rewrite inorder_plug in Hnd |- *. cbn [inorder] in Hnd |- *. rewrite <- app_assoc in Hnd |- *. rewrite app_assoc in Hnd |- *.
  cbn [app] in Hnd |- *. rewrite next_in_split.
  2:{ rewrite fmap_app in Hnd. apply NoDup_app in Hnd as (_ & Hd & _). intros Hin. apply (Hd _ Hin). by left. }
  assert (Hz0 := Hz). change (T c l n k r) with (mk R c n k r l) in Hz. unfold ngx_rbtree_next.
  rewrite (zip_child_sentinel _ _ _ _ _ _ _ _ _ _ Hz). apply zip_down_eq in Hz.
  destruct r as [|cr lr nr kr rr]; cbn [is_E negb].
  - rewrite (next_loop_ok _ _ _ _ _ _ Hz0); [done|done|]. unfold rb_fuel. cbn [height] in *. lia.
  - assert (child R st n = nr) as Hc by (by destruct Hz as (_ & [? _] & _)). rewrite Hc in *.
    destruct (min_head _ _ _ _ _ _ _ _ Hz) as (m & -> & Hm); [unfold rb_fuel; cbn [height] in *; lia|].
    cbn [fmap option_fmap option_map]. rewrite Hm. cbn [inorder]. by destruct (inorder lr).
Qed.
End Walk.

(** ** One operation *)

Section Refinement.
Context (s : Z) (less lt : Z * Z -> Z * Z -> bool) `{!WeakOrder lt} (K : Z * Z -> bool).
Hypothesis less_lt : forall x y, K x -> K y -> less x y = lt x y.

(** The tree holds the nodes and keys of [l]. *)
Definition contents (st : state) (l : list (Z * Z)) : Prop :=
  (exists t, holds_tree s st t /\ inorder t = l) /\ sorted lt l /\
  Forall (fun x => 0 <= x.1 < 2 ^ 64 /\ K x) l.

Lemma holds_tree_nodes st t : holds_tree s st t -> NoDup (nodes t) /\ s ∉ nodes t.
Proof. intros [[p (_ & _ & Hnd & Hs & _)] _]. cbn in Hnd, Hs. by rewrite app_nil_r in Hnd, Hs. Qed.

(** Different addresses are no more than there are. *)
Lemma contents_fits st l t : contents st l -> holds_tree s st t -> inorder t = l -> 0 <= s < 2 ^ 64 -> fits t.
Proof.
  intros (_ & _ & Hl) Ht Hin Hs. destruct (holds_tree_nodes _ _ Ht) as [Hnd Hns]. unfold fits, nodes in *. rewrite Hin in *.
  assert (s :: l.*1 ⊆+ seqZ 0 (2 ^ 64)) as Hsub.
  { apply NoDup_submseteq; [by constructor|]. intros x [->|Hx]%elem_of_cons; apply elem_of_seqZ; [lia|].
    apply list_elem_of_fmap in Hx as (y & -> & Hy). rewrite Forall_forall in Hl. destruct (Hl y Hy). lia. }
  apply submseteq_length in Hsub. rewrite length_seqZ in Hsub. cbn [length] in Hsub. rewrite length_fmap in Hsub. lia.
Qed.

Lemma ins_perm x l : ins lt x l ≡ₚ x :: l.
Proof. induction l as [|y l IH]; cbn; [done|]. case_match; [done|]. rewrite IH. by apply perm_swap. Qed.

Lemma ins_sorted x l : sorted lt l -> sorted lt (ins lt x l).
Proof.
  unfold sorted. induction 1 as [|y l Hs IH Hy]; cbn; [by repeat constructor|].
  destruct (lt x y) eqn:Hxy.
  - constructor; [by constructor|]. constructor; [by apply lt_asym|]. eapply Forall_impl; [exact Hy|]. cbn.
    intros z Hz. apply lt_asym. by eapply lt_below.
  - constructor; [done|]. rewrite ins_perm. by constructor.
Qed.

Lemma filter_out (l1 l2 : list (Z * Z)) n k : NoDup (l1 ++ (n, k) :: l2).*1 ->
  filter (fun x => x.1 <> n) (l1 ++ (n, k) :: l2) = l1 ++ l2.
Proof.
  rewrite fmap_app. intros (_ & Hd & [Hn _]%NoDup_cons)%NoDup_app.
  assert (forall l : list (Z * Z), n ∉ l.*1 -> filter (fun x => x.1 <> n) l = l) as Hf.
  { clear. induction l as [|x l IH]; [done|]. intros [Hn Hn']%not_elem_of_cons.
    rewrite filter_cons_True by congruence. by rewrite IH. }
  rewrite filter_app, filter_cons_False by (cbn; tauto). rewrite !Hf; [done|done|].
  intros Hin. apply (Hd _ Hin). by left.
Qed.

Lemma sorted_sub l1 l2 : sorted lt l1 -> sublist l2 l1 -> sorted lt l2.
Proof.
  unfold sorted. intros Hs Hsub. induction Hsub as [|x l1 l2 Hsub IH|x l1 l2 Hsub IH]; [done|..]; inversion_clear Hs as [|? ? H1 H2].
  - constructor; [by apply IH|]. rewrite Forall_forall in H2 |- *. intros y Hy. apply H2. by eapply sublist_subseteq.
  - by apply IH.
Qed.

(** The key of a node outside the tree. *)
Lemma set_key_outside st t n k : holds_tree s st t -> n <> s -> n ∉ nodes t -> holds_tree s (set_key n k st) t.
Proof.
  intros [[p (Hup & Hsub & Hnd & Hs & Hb)] Hrb] Hns Hn. split; [|done]. exists p. split_and!; try done.
  - eapply sub_same; [|exact Hsub]. intros v Hv. apply heap_ne. by intros ->.
  - unfold color, set_key. by rewrite heap_ne.
Qed.

(** Each operation on the contents. *)
Lemma contents_insert st l n k :
  contents st l -> 0 <= s < 2 ^ 64 -> 0 <= n < 2 ^ 64 -> n <> s -> n ∉ l.*1 -> K (n, k) ->
  exists st', ngx_rbtree_insert s (insert_with s less) n (set_key n k st) = Some st' /\ contents st' (ins lt (n, k) l).
Proof.
  intros Hc Hs Hn1 Hn2 Hn3 HK. assert (Hc' := Hc). destruct Hc' as ((t & Ht & Hin) & Hsort & Hl).
  assert (n ∉ nodes t) as Hnt by (unfold nodes; by rewrite Hin).
  assert (key (set_key n k st) n = k) as Hk by (unfold key, set_key; by rewrite heap_eq).
  destruct (insert_ok s less lt (set_key n k st) t n) as (st' & t' & -> & Ht' & Ho); try done.
  - by apply set_key_outside.
  - by eapply contents_fits.
  - by rewrite Hin.
  - rewrite Hk, Hin. intros x Hx. apply less_lt; [done|]. rewrite Forall_forall in Hl. by destruct (Hl x Hx).
  - exists st'. split; [done|]. rewrite Hk, Hin in Ho. split; [by exists t'|].
    split; [by apply ins_sorted|]. rewrite ins_perm. by constructor.
Qed.

Lemma contents_nodup st l : contents st l -> NoDup l.*1.
Proof. intros ((t & Ht & <-) & _). exact (proj1 (holds_tree_nodes _ _ Ht)). Qed.

Lemma contents_delete st l n : contents st l -> 0 <= s < 2 ^ 64 -> n ∈ l.*1 ->
  exists st', ngx_rbtree_delete s n st = Some st' /\ contents st' (filter (fun x => x.1 <> n) l).
Proof.
  intros Hc Hs Hn. pose proof (contents_nodup _ _ Hc) as Hnd. assert (Hc' := Hc). destruct Hc' as ((t & Ht & Hin) & Hsort & Hl).
  apply list_elem_of_fmap in Hn as ([n' k] & -> & Hx). cbn [fst] in *. apply list_elem_of_split in Hx as (l1 & l2 & ->).
  assert (fits t) as Hfits by (by eapply contents_fits).
  destruct (rbtree_delete_ok s st t n' l1 k l2 Ht Hfits Hin) as (st' & t' & -> & Ht' & Ho). exists st'. split; [done|].
  rewrite filter_out by done.
  assert (sublist (l1 ++ l2) (l1 ++ (n', k) :: l2)) as Hsub by (apply sublist_app; [done|by constructor]).
  split; [by exists t'|]. split; [by eapply sorted_sub|]. rewrite Forall_app in *. rewrite Forall_cons in Hl. tauto.
Qed.

Lemma contents_min st l : contents st l -> 0 <= s < 2 ^ 64 -> l <> [] ->
  exists m, ngx_rbtree_min s (root st) st = Some m /\ Some m = fst <$> head l.
Proof.
  intros Hc Hs Hne. assert (Hc' := Hc). destruct Hc' as ((t & Ht & Hin) & _). rewrite <- Hin.
  apply min_ok; [done|by eapply contents_fits|]. intros ->. by subst l.
Qed.

Lemma contents_next st l n : contents st l -> 0 <= s < 2 ^ 64 -> n ∈ l.*1 ->
  ngx_rbtree_next s n st = Some (next_in n l).
Proof.
  intros Hc Hs Hn. assert (Hc' := Hc). destruct Hc' as ((t & Ht & Hin) & _). rewrite <- Hin.
  apply next_ok; [done|by eapply contents_fits|]. unfold nodes. by rewrite Hin.
Qed.

Lemma contents_root st l : contents st l -> (root st =? s) = bool_decide (l = []).
Proof.
  intros ((t & [[p (_ & Hsub & _ & Hs & _)] _] & <-) & _). destruct t as [|c l' n k r]; cbn in Hsub.
  - rewrite Hsub. by rewrite Z.eqb_refl.
  - destruct Hsub as (Hr & _). rewrite bool_decide_false by (cbn; by destruct (inorder l')). apply Z.eqb_neq.
    rewrite Hr. intros ->. apply Hs, elem_of_app. left. apply nodes_self.
Qed.

Lemma run_op_ok o st l :
  contents st l -> 0 <= s < 2 ^ 64 -> allowed s K o l ->
  exists st', run_op s (insert_with s less) o st = Some (st', (spec_op lt o l).2) /\ contents st' (spec_op lt o l).1.
Proof.
  intros Hc Hs Ho. destruct o as [n k|n| |n]; cbn [allowed run_op spec_op fst snd] in *.
  - apply andb_prop_elim in Ho as [(Hn1 & Hn2 & Hn3)%bool_decide_unpack HK].
    destruct (contents_insert st l n k) as (st' & -> & Hc'); try done. by exists st'.
  - apply bool_decide_unpack in Ho. destruct (contents_delete st l n) as (st' & -> & Hc'); try done. by exists st'.
  - apply bool_decide_unpack in Ho. destruct (contents_min st l) as (m & -> & Hm); try done.
    exists st. cbn [mbind option_bind]. by rewrite Hm.
  - apply bool_decide_unpack in Ho. rewrite (contents_next _ _ _ Hc Hs Ho). by exists st.
Qed.

Lemma rbtree_run_ok ops st l :
  contents st l -> 0 <= s < 2 ^ 64 -> all_allowed s lt K ops l ->
  exists st', run s (insert_with s less) ops st = Some (st', (spec_run lt ops l).2) /\
    contents st' (spec_run lt ops l).1.
Proof.
  revert st l. induction ops as [|o ops IH]; intros st l Hc Hs Ho; [by exists st|].
  cbn [all_allowed] in Ho. apply andb_prop_elim in Ho as [Ho Hops].
  destruct (run_op_ok _ _ _ Hc Hs Ho) as (st1 & H1 & Hc1). cbn [run spec_run]. rewrite H1. cbn [mbind option_bind].
  destruct (spec_op lt o l) as [l1 r]. cbn [fst snd] in *.
  destruct (IH st1 l1 Hc1 Hs Hops) as (st2 & H2 & Hc2). rewrite H2. cbn [mbind option_bind].
  destruct (spec_run lt ops l1) as [l2 rs]. by exists st2.
Qed.

Lemma init_contents st : contents (ngx_rbtree_init s st) [].
Proof.
  split; [|by split; [constructor|constructor]]. exists E. split; [|done]. split; [|exists O; constructor].
  exists NULL. split_and!; [done|done|constructor|by apply not_elem_of_nil|].
  unfold ngx_rbtree_init, color, set_root, ngx_rbt_black, set_color. cbn [heap]. by rewrite heap_eq.
Qed.

(** What an observer of the heap sees, with no more depth than the balance allows. *)
Lemma in_order_ok fuel st p a t : sub s st p a t -> s ∉ nodes t -> (height t <= fuel)%nat -> in_order fuel s a st = nodes t.
Proof.
  revert p a t. induction fuel as [|fuel IH]; intros p a t Hsub Hs Hh; [by destruct t; [|cbn in Hh; lia]|].
  destruct t as [|c l n k r]; cbn [in_order]; [by rewrite Hsub, Z.eqb_refl|].
  destruct Hsub as (-> & _ & _ & _ & Hl & Hr).
  assert (n <> s /\ s ∉ nodes l /\ s ∉ nodes r) as (Hns & Hsl & Hsr).
  { change (T c l n k r) with (mk L c n k l r) in Hs. rewrite nodes_mk in Hs. clear -Hs. set_solver. }
  rewrite (proj2 (Z.eqb_neq n s)) by done. cbn [height] in Hh. unfold nodes in *. cbn [inorder].
  rewrite (IH _ _ _ Hl Hsl), (IH _ _ _ Hr Hsr) by lia. by rewrite fmap_app.
Qed.

Lemma contents_depth st l : contents st l ->
  in_order (2 * Nat.log2 (length l + 1)) s (root st) st = l.*1 /\ Forall (fun x => key st x.1 = x.2) l.
Proof.
  intros ((t & Ht & <-) & _ & _). destruct (holds_tree_nodes _ _ Ht) as [_ Hns].
  destruct Ht as [[p (_ & Hsub & _)] [h Hrb]]. split.
  - apply (in_order_ok _ _ p); [done|done|]. destruct (rb_height _ _ _ Hrb) as [H1 H2].
    apply Nat.log2_le_mono in H2. rewrite Nat.log2_pow2 in H2 by lia. lia.
  - clear Hns Hrb. revert Hsub. generalize (root st) as a. revert p. induction t as [|c l IHl n k r IHr]; intros p a Hsub; [constructor|].
    destruct Hsub as (-> & _ & _ & Hk & Hl & Hr). cbn [inorder]. rewrite Forall_app, Forall_cons.
    split_and!; [by eapply IHl|done|by eapply IHr].
Qed.
End Refinement.

(** ** The two orders *)

(** An order by a number for every key. *)
Definition by_rank (rank : Z -> Z) (x y : Z * Z) : bool := rank x.2 <? rank y.2.

#[export] Instance by_rank_order rank : WeakOrder (by_rank rank).
Proof.
  split; unfold by_rank; [intros x y; rewrite Z.ltb_lt, Z.ltb_ge; lia|]. intros x y z. rewrite !Z.ltb_lt. lia.
Qed.

#[export] Instance value_less_order : WeakOrder value_less.
Proof. exact (by_rank_order (fun k => k)). Qed.

(** C12. A sequence of operations on a tree with plain keys gives the results of
    the list ordered by keys; in the end the tree has its nodes in that order,
    within the depth that the balance allows, and their keys. *)
Theorem rbtree_refines s st0 ops :
  0 <= s < 2 ^ 64 -> all_allowed s value_less (fun _ => true) ops [] ->
  forall l results, spec_run value_less ops [] = (l, results) ->
  exists st, run s (ngx_rbtree_insert_value s) ops (ngx_rbtree_init s st0) = Some (st, results) /\
    in_order (2 * Nat.log2 (length l + 1)) s (root st) st = l.*1 /\ Forall (fun x => key st x.1 = x.2) l.
Proof.
  intros Hs Ho l rs Hspec.
  destruct (rbtree_run_ok s value_less value_less (fun _ => true) (fun _ _ _ _ => eq_refl)
    ops _ _ (init_contents s _ _ st0) Hs Ho) as (st & Hrun & Hc).
  rewrite Hspec in Hrun, Hc. exists st. split; [exact Hrun|]. by eapply contents_depth.
Qed.

(** The signed distance of a key from [base]. *)
Definition distance (base k : Z) : Z := s64 (u64 (k - base)).
Definition near (base : Z) (x : Z * Z) : bool :=
  (0 <=? x.2) && (x.2 <? 2 ^ 64) && (Z.abs (distance base x.2) <? 2 ^ 62).

Lemma s64_u64_eq z : exists q, s64 (u64 z) = z + q * 2 ^ 64 /\ - 2 ^ 63 <= s64 (u64 z) < 2 ^ 63.
Proof.
  unfold s64, u64. pose proof (Z.div_mod z (2 ^ 64) ltac:(lia)). set (m := z `mod` 2 ^ 64) in *.
  pose proof (Z.div_mod (m + 2 ^ 63) (2 ^ 64) ltac:(lia)). pose proof (Z.mod_pos_bound (m + 2 ^ 63) (2 ^ 64) ltac:(lia)).
  exists (- (z / 2 ^ 64) - (m + 2 ^ 63) / 2 ^ 64). lia.
Qed.

(** The signed value is the only one in its range. *)
Lemma s64_u64_unique z r q : z = r + q * 2 ^ 64 -> - 2 ^ 63 <= r < 2 ^ 63 -> s64 (u64 z) = r.
Proof. intros -> Hr. destruct (s64_u64_eq (r + q * 2 ^ 64)) as (q' & H1 & H2). lia. Qed.

Lemma distance_sub b k k' :
  Z.abs (distance b k) < 2 ^ 62 -> Z.abs (distance b k') < 2 ^ 62 ->
  s64 (u64 (k - k')) = distance b k - distance b k'.
Proof.
  unfold distance. destruct (s64_u64_eq (k - b)) as (q & H & _), (s64_u64_eq (k' - b)) as (q' & H' & _).
  intros H1 H2. apply (s64_u64_unique _ _ (q' - q)); lia.
Qed.

Lemma near_distance b x : near b x -> Z.abs (distance b x.2) < 2 ^ 62.
Proof. intros [_ H]%andb_prop_elim. by apply Is_true_true, Z.ltb_lt in H. Qed.

Lemma timer_less_rank b x y : near b x -> near b y -> timer_less x y = by_rank (distance b) x y.
Proof.
  intros H%near_distance H'%near_distance. unfold timer_less, by_rank. rewrite (distance_sub b) by done.
  apply eq_iff_eq_true. rewrite !Z.ltb_lt. lia.
Qed.

(** The same for keys that wrap around, in the order of their distance from a
    base that none is further from than 2^62. *)
Theorem rbtree_timer_refines s st0 base ops :
  0 <= s < 2 ^ 64 -> all_allowed s (by_rank (distance base)) (near base) ops [] ->
  forall l results, spec_run (by_rank (distance base)) ops [] = (l, results) ->
  exists st, run s (ngx_rbtree_insert_timer_value s) ops (ngx_rbtree_init s st0) = Some (st, results) /\
    in_order (2 * Nat.log2 (length l + 1)) s (root st) st = l.*1 /\ Forall (fun x => key st x.1 = x.2) l.
Proof.
  intros Hs Ho l rs Hspec.
  destruct (rbtree_run_ok s timer_less (by_rank (distance base)) (near base) (timer_less_rank base)
    ops _ _ (init_contents s _ _ st0) Hs Ho) as (st & Hrun & Hc).
  rewrite Hspec in Hrun, Hc. exists st. split; [exact Hrun|]. by eapply contents_depth.
Qed.

(** Keys around the wrap, one of them twice. *)
Definition sample_ops (k : Z) : list op :=
  [Insert 1 k; Insert 2 (u64 (k + 9)); Insert 3 (u64 (k + 3)); Min; Insert 4 (u64 (k - 1)); Insert 5 k; Insert 6 (u64 (k + 5));
   Insert 7 (u64 (k + 4)); Next 1; Delete 3; Delete 4; Min; Next 2; Insert 4 (u64 (k + 6)); Delete 1; Delete 5; Delete 7; Min].

Lemma rbtree_refines_witness :
  exists st, run 0 (ngx_rbtree_insert_value 0) (sample_ops 10) (ngx_rbtree_init 0 sample_heap) =
    Some (st, [None; None; None; Some 1; None; None; None; None; Some 5; None; None; Some 1; None; None; None; None; None; Some 6]) /\
    in_order 4 0 (root st) st = [6; 4; 2] /\ Forall (fun x => key st x.1 = x.2) [(6, 15); (4, 16); (2, 19)].
Proof.
  apply (rbtree_refines 0 sample_heap (sample_ops 10)) with (l := [(6, 15); (4, 16); (2, 19)]); [lia|vm_compute; exact I|].
  vm_compute. reflexivity.
Defined.

Lemma rbtree_timer_refines_witness :
  exists st, run 0 (ngx_rbtree_insert_timer_value 0) (sample_ops (2 ^ 64 - 5)) (ngx_rbtree_init 0 sample_heap) =
    Some (st, [None; None; None; Some 1; None; None; None; None; Some 5; None; None; Some 1; None; None; None; None; None; Some 6]) /\
    in_order 4 0 (root st) st = [6; 4; 2] /\ Forall (fun x => key st x.1 = x.2) [(6, 0); (4, 1); (2, 4)].
Proof.
  apply (rbtree_timer_refines 0 sample_heap (2 ^ 64 - 5) (sample_ops (2 ^ 64 - 5))) with (l := [(6, 0); (4, 1); (2, 4)]);
    [lia|vm_compute; exact I|].
  vm_compute. reflexivity.
Defined.
