(* ===== verification/NgxEventTimer.v ===== *)
(** * NgxEventTimer: timers

    event/ngx_event_timer.c and ngx_event_timer.h on the red-black tree.  An
    event is its [timer] node: [offsetof(ngx_event_t, timer)] is left out.  The
    handlers of events are code elsewhere; what matters of them here are the
    timers that they add and delete. *)

From S2P Require Import Prelude NgxSprintf NgxRbtree NgxRbtreeShape NgxRbtreeInsert NgxRbtreeTrace.

(* event/ngx_event_timer.h:17 NGX_TIMER_INFINITE *)
Definition NGX_TIMER_INFINITE : Z := 2 ^ 64 - 1.
(* event/ngx_event_timer.h:19 NGX_TIMER_LAZY_DELAY *)
Definition NGX_TIMER_LAZY_DELAY : Z := 300.

(** [ngx_event_timer_rbtree], the flags of all events, and the cached time. *)
Record timers : Type := Timers {
  tree : state;
  timer_set : Z -> bool;
  timedout : Z -> bool;
  cancelable : Z -> bool;
  ngx_current_msec : Z
}.

Definition set_tree (st : state) (w : timers) : timers :=
  Timers st (timer_set w) (timedout w) (cancelable w) (ngx_current_msec w).
Definition set_timer_set (ev : Z) (b : bool) (w : timers) : timers :=
  Timers (tree w) (fun x => if x =? ev then b else timer_set w x) (timedout w) (cancelable w) (ngx_current_msec w).
Definition set_timedout (ev : Z) (b : bool) (w : timers) : timers :=
  Timers (tree w) (timer_set w) (fun x => if x =? ev then b else timedout w x) (cancelable w) (ngx_current_msec w).

(** ** The operations *)

Section Timers.
(** [ngx_event_timer_sentinel]. *)
Context (s : Z).

(* event/ngx_event_timer.c:22-29 ngx_event_timer_init *)
Definition ngx_event_timer_init (w : timers) : timers := set_tree (ngx_rbtree_init s (tree w)) w.

(* event/ngx_event_timer.c:32-50 ngx_event_find_timer *)
Definition ngx_event_find_timer (w : timers) : option Z :=
  if root (tree w) =? s then Some NGX_TIMER_INFINITE
  else
    node ← ngx_rbtree_min s (root (tree w)) (tree w);
    let timer := s64 (u64 (key (tree w) node - ngx_current_msec w)) in
    Some (u64 (if 0 <? timer then timer else 0)).

(* event/ngx_event_timer.h:31-47 ngx_event_del_timer *)
Definition ngx_event_del_timer (ev : Z) (w : timers) : option timers :=
  st ← ngx_rbtree_delete s ev (tree w);
  Some (set_timer_set ev false (set_tree st w)).

(** The part that starts with [ev->timer.key = key]. *)
(* event/ngx_event_timer.h:78-86 ngx_event_add_timer: ev->timer.key = key *)
Definition insert_timer (ev timer_key : Z) (w : timers) : option timers :=
  let w := set_tree (set_key ev timer_key (tree w)) w in
  st ← ngx_rbtree_insert s (ngx_rbtree_insert_timer_value s) ev (tree w);
  Some (set_timer_set ev true (set_tree st w)).

(* event/ngx_event_timer.h:50-87 ngx_event_add_timer *)
Definition ngx_event_add_timer (ev timer : Z) (w : timers) : option timers :=
  let timer_key := u64 (ngx_current_msec w + timer) in
  if timer_set w ev then
    let diff := s64 (u64 (timer_key - key (tree w) ev)) in
    if Z.abs diff <? NGX_TIMER_LAZY_DELAY then Some w
    else
      w ← ngx_event_del_timer ev w;
      insert_timer ev timer_key w
  else insert_timer ev timer_key w.

(** The events whose handlers are called, in order, are a second result. *)
(* event/ngx_event_timer.c:61-102 ngx_event_expire_timers: for *)
Fixpoint expire_loop (handler : Z -> timers -> option timers) (fuel : nat) (w : timers) : option (timers * list Z) :=
  match fuel with
  | O => None
  | S fuel =>
      if root (tree w) =? s then Some (w, [])
      else
        node ← ngx_rbtree_min s (root (tree w)) (tree w);
        if 0 <? s64 (u64 (key (tree w) node - ngx_current_msec w)) then Some (w, [])
        else
          let ev := node in
          st ← ngx_rbtree_delete s ev (tree w);
          let w := set_tree st w in
          let w := set_timer_set ev false w in
          let w := set_timedout ev true w in
          w ← handler ev w;
          '(w, evs) ← expire_loop handler fuel w;
          Some (w, ev :: evs)
  end.

(* event/ngx_event_timer.c:53-103 ngx_event_expire_timers *)
Definition ngx_event_expire_timers := expire_loop.

(* event/ngx_event_timer.c:119-128 ngx_event_no_timers_left: for *)
Fixpoint no_timers_loop (fuel : nat) (node : Z) (w : timers) : option Z :=
  match fuel with
  | O => None
  | S fuel =>
      if negb (cancelable w node) then Some NGX_AGAIN
      else
        next ← ngx_rbtree_next s node (tree w);
        match next with
        | Some node => no_timers_loop fuel node w
        | None => Some NGX_OK
        end
  end.

(* event/ngx_event_timer.c:106-133 ngx_event_no_timers_left *)
Definition ngx_event_no_timers_left (fuel : nat) (w : timers) : option Z :=
  if root (tree w) =? s then Some NGX_OK
  else
    node ← ngx_rbtree_min s (root (tree w)) (tree w);
    no_timers_loop fuel node w.

(** ** Handlers and sequences of calls *)

(** The calls that a handler makes. *)
Inductive call : Type :=
  | Add (ev timer : Z)
  | Del (ev : Z).

Definition run_call (c : call) (w : timers) : option timers :=
  match c with
  | Add ev timer => ngx_event_add_timer ev timer w
  | Del ev => ngx_event_del_timer ev w
  end.

Fixpoint run_calls (cs : list call) (w : timers) : option timers :=
  match cs with
  | [] => Some w
  | c :: cs => w ← run_call c w; run_calls cs w
  end.

(** What the program does with the timers: calls, time that passes, and the
    three functions above. *)
Inductive event : Type :=
  | Call (c : call)
  | Tick (d : Z)
  | Find
  | Expire
  | NoTimersLeft.

Definition tick (d : Z) (w : timers) : timers :=
  Timers (tree w) (timer_set w) (timedout w) (cancelable w) (u64 (ngx_current_msec w + d)).

Section Run.
Context (handler : Z -> list call) (fuel : nat).

Definition run_event (e : event) (w : timers) : option (timers * list Z) :=
  match e with
  | Call c => w ← run_call c w; Some (w, [])
  | Tick d => Some (tick d w, [])
  | Find => r ← ngx_event_find_timer w; Some (w, [r])
  | Expire => ngx_event_expire_timers (fun ev => run_calls (handler ev)) fuel w
  | NoTimersLeft => r ← ngx_event_no_timers_left fuel w; Some (w, [r])
  end.

Fixpoint run_events (es : list event) (w : timers) : option (timers * list (list Z)) :=
  match es with
  | [] => Some (w, [])
  | e :: es =>
      '(w, r) ← run_event e w;
      '(w, rs) ← run_events es w;
      Some (w, r :: rs)
  end.
End Run.
End Timers.

(** ** The specification: a list of events with the time that each has left

    Times are unbounded integers.  [None] stands for what callers must not
    do: deleting a timer that is not set, or a distance of 2^62 or more. *)

Fixpoint time_left (ev : Z) (l : list (Z * Z)) : option Z :=
  match l with
  | [] => None
  | x :: l => if x.1 =? ev then Some x.2 else time_left ev l
  end.

Definition remove (ev : Z) (l : list (Z * Z)) : list (Z * Z) := filter (fun x => x.1 <> ev) l.

Definition spec_call (s : Z) (c : call) (l : list (Z * Z)) : option (list (Z * Z)) :=
  match c with
  | Add ev timer =>
      if bool_decide (0 <= ev < 2 ^ 64 /\ ev <> s /\ 0 <= timer < 2 ^ 62) then
        match time_left ev l with
        | Some r => if Z.abs (timer - r) <? NGX_TIMER_LAZY_DELAY then Some l else Some (ins (by_rank (fun r => r)) (ev, timer) (remove ev l))
        | None => Some (ins (by_rank (fun r => r)) (ev, timer) l)
        end
      else None
  | Del ev => if time_left ev l is Some _ then Some (remove ev l) else None
  end.

Fixpoint spec_calls (s : Z) (cs : list call) (l : list (Z * Z)) : option (list (Z * Z)) :=
  match cs with
  | [] => Some l
  | c :: cs => l ← spec_call s c l; spec_calls s cs l
  end.

(** The timers that are due, in order, each followed by its handler. *)
Fixpoint spec_expire (s : Z) (handler : Z -> list call) (fuel : nat) (l : list (Z * Z)) : option (list (Z * Z) * list Z) :=
  match fuel with
  | O => None
  | S fuel =>
      match l with
      | [] => Some ([], [])
      | (ev, r) :: l' =>
          if 0 <? r then Some (l, [])
          else
            l ← spec_calls s (handler ev) l';
            '(l, evs) ← spec_expire s handler fuel l;
            Some (l, ev :: evs)
      end
  end.

Definition spec_event (s : Z) (handler : Z -> list call) (fuel : nat) (cancelable : Z -> bool) (e : event)
    (l : list (Z * Z)) : option (list (Z * Z) * list Z) :=
  match e with
  | Call c => l ← spec_call s c l; Some (l, [])
  | Tick d =>
      let l' := (fun x => (x.1, x.2 - d)) <$> l in
      if (0 <=? d) && forallb (fun x => - 2 ^ 62 <? x.2) l' then Some (l', []) else None
  | Find => Some (l, [if l is x :: _ then Z.max 0 x.2 else NGX_TIMER_INFINITE])
  | Expire => spec_expire s handler fuel l
  | NoTimersLeft =>
      if (length l <? fuel)%nat then Some (l, [if forallb cancelable l.*1 then NGX_OK else NGX_AGAIN]) else None
  end.

Fixpoint spec_events (s : Z) (handler : Z -> list call) (fuel : nat) (cancelable : Z -> bool) (es : list event)
    (l : list (Z * Z)) : option (list (Z * Z) * list (list Z)) :=
  match es with
  | [] => Some (l, [])
  | e :: es =>
      '(l, r) ← spec_event s handler fuel cancelable e l;
      '(l, rs) ← spec_events s handler fuel cancelable es l;
      Some (l, r :: rs)
  end.
