(* ===== verification/NgxEventTimerSpec.v ===== *)
(** * NgxEventTimerSpec: timers keep unbounded time

    The operations of NgxEventTimer on the red-black tree of wrapped keys give
    the results of its specification, a list ordered by the time that is left;
    and the expiry of timers ends. *)

From Stdlib Require Import Sorted.
From S2P Require Import Prelude NgxSprintf NgxRbtree NgxRbtreeInsert NgxRbtreeTrace NgxEventTimer.

(** ** Lists *)

(** The time left for every key. *)
Definition view (now : Z) (lk : list (Z * Z)) : list (Z * Z) := (fun x => (x.1, distance now x.2)) <$> lk.

Lemma view_fst now lk : (view now lk).*1 = lk.*1.
Proof. unfold view. by rewrite <- list_fmap_compose. Qed.

Lemma ins_view now ev k lk :
  view now (ins (by_rank (distance now)) (ev, k) lk) = ins (by_rank (fun r => r)) (ev, distance now k) (view now lk).
Proof. induction lk as [|x lk IH]; [done|]. unfold view, by_rank in *. cbn in *. case_match; [done|]. cbn. f_equal. exact IH. Qed.

Lemma remove_view now ev lk : view now (filter (fun x => x.1 <> ev) lk) = remove ev (view now lk).
Proof.
  unfold remove. induction lk as [|x lk IH]; [done|]. cbn [view fmap list_fmap]. rewrite !filter_cons. cbn [fst].
  case_decide; [|exact IH]. unfold view in *. cbn. f_equal. exact IH.
Qed.

Lemma time_left_in ev l r : time_left ev l = Some r -> (ev, r) ∈ l.
Proof.
  induction l as [|[e t] l IH]; cbn; [done|]. destruct (Z.eqb_spec e ev) as [->|]; [intros [= ->]; by left|].
  intros H. right. by apply IH.
Qed.

Lemma time_left_none ev l : time_left ev l = None -> ev ∉ l.*1.
Proof.
  induction l as [|[e t] l IH]; cbn; [intros _; apply not_elem_of_nil|]. destruct (Z.eqb_spec e ev) as [->|]; [done|].
  intros H. apply not_elem_of_cons. split; [done|by apply IH].
Qed.

Lemma remove_fst ev ev' l : ev' ∈ (remove ev l).*1 <-> ev' <> ev /\ ev' ∈ l.*1.
Proof.
  unfold remove. rewrite !list_elem_of_fmap. split.
  - intros (x & -> & [Hx Hin]%list_elem_of_filter). eauto.
  - intros (Hne & x & -> & Hin). exists x. split; [done|]. by apply list_elem_of_filter.
Qed.

Lemma ins_fst x l ev : ev ∈ (ins (by_rank (fun r => r)) x l).*1 <-> ev = x.1 \/ ev ∈ l.*1.
Proof. rewrite (ins_perm (by_rank (fun r => r))). cbn. by rewrite elem_of_cons. Qed.

Lemma remove_head ev r l : NoDup ((ev, r) :: l).*1 -> remove ev ((ev, r) :: l) = l.
Proof. intros Hnd. exact (filter_out [] l ev r Hnd). Qed.

(** ** Distances *)

Lemma distance_add now ev t : 0 <= t < 2 ^ 62 ->
  distance now (u64 (now + t)) = t /\ near now (ev, u64 (now + t)).
Proof.
  intros Ht. assert (distance now (u64 (now + t)) = t) as Hd.
  { unfold distance. apply (s64_u64_unique _ _ (- ((now + t) / 2 ^ 64))); [|lia].
    unfold u64. pose proof (Z.div_mod (now + t) (2 ^ 64) ltac:(lia)). lia. }
  split; [done|]. unfold near. cbn [snd]. rewrite Hd. pose proof (Z.mod_pos_bound (now + t) (2 ^ 64) ltac:(lia)).
  apply Is_true_true. rewrite !andb_true_iff, Z.leb_le, !Z.ltb_lt. unfold u64. lia.
Qed.

Lemma distance_tick now d k : Z.abs (distance now k) < 2 ^ 62 -> 0 <= d -> - 2 ^ 62 < distance now k - d ->
  distance (u64 (now + d)) k = distance now k - d.
Proof.
  unfold distance. destruct (s64_u64_eq (k - now)) as (q & -> & _). intros H1 Hd H2.
  pose proof (Z.div_mod (now + d) (2 ^ 64) ltac:(lia)). unfold u64 at 2.
  apply (s64_u64_unique _ _ ((now + d) / 2 ^ 64 - q)); lia.
Qed.

Section Spec.
Context (s : Z) (Hs : 0 <= s < 2 ^ 64).

(** The tree and the flags stand for [l]. *)
Definition rep (w : timers) (l : list (Z * Z)) : Prop :=
  (exists lk, contents s (by_rank (distance (ngx_current_msec w))) (near (ngx_current_msec w)) (tree w) lk /\
     l = view (ngx_current_msec w) lk) /\
  forall ev, timer_set w ev = bool_decide (ev ∈ l.*1).

(** Time and the [cancelable] flags are the same. *)
Definition same_rest (w w' : timers) : Prop :=
  ngx_current_msec w' = ngx_current_msec w /\ cancelable w' = cancelable w.

Lemma rep_nodup w l : rep w l -> NoDup l.*1.
Proof. intros ((lk & Hc & ->) & _). rewrite view_fst. by eapply contents_nodup. Qed.

Lemma rep_empty w l : rep w l -> (root (tree w) =? s) = bool_decide (l = []).
Proof.
  intros ((lk & Hc & ->) & _). rewrite (contents_root _ _ _ _ _ Hc). by destruct lk.
Qed.

(** A key in the tree and the time left. *)
Lemma rep_key w l ev r : rep w l -> (ev, r) ∈ l -> s64 (u64 (key (tree w) ev - ngx_current_msec w)) = r /\ Z.abs r < 2 ^ 62.
Proof.
  intros ((lk & Hc & ->) & _) Hin. apply list_elem_of_fmap in Hin as (x & [= -> ->] & Hx).
  destruct (contents_depth _ _ _ _ _ Hc) as [_ Hk]. rewrite Forall_forall in Hk. rewrite (Hk _ Hx).
  destruct Hc as (_ & _ & Hl). rewrite Forall_forall in Hl. destruct (Hl _ Hx) as [_ Hn]. split; [done|by apply near_distance].
Qed.

Lemma rep_min w ev r l : rep w ((ev, r) :: l) -> ngx_rbtree_min s (root (tree w)) (tree w) = Some ev.
Proof.
  intros ((lk & Hc & Hl) & _). destruct lk as [|[e k] lk]; [done|]. injection Hl as -> -> ->.
  destruct (contents_min _ _ _ _ _ Hc Hs ltac:(done)) as (m & -> & Hm). by rewrite Hm.
Qed.

(** ** Each operation *)

Lemma rep_find w l : rep w l ->
  ngx_event_find_timer s w = Some (if l is x :: _ then Z.max 0 x.2 else NGX_TIMER_INFINITE).
Proof.
  intros Hr. unfold ngx_event_find_timer. rewrite (rep_empty _ _ Hr). destruct l as [|[ev r] l]; [done|].
  rewrite bool_decide_false, (rep_min _ _ _ _ Hr) by done. cbn [mbind option_bind snd].
  destruct (rep_key _ _ ev r Hr) as [-> Hb]; [by left|]. unfold u64. destruct (Z.ltb_spec 0 r); rewrite Z.mod_small by lia; f_equal; lia.
Qed.

Lemma rep_delete w l ev : rep w l -> ev ∈ l.*1 ->
  exists st, ngx_rbtree_delete s ev (tree w) = Some st /\ rep (set_timer_set ev false (set_tree st w)) (remove ev l).
Proof.
  intros ((lk & Hc & ->) & Hset) Hin. rewrite view_fst in Hin.
  destruct (contents_delete _ _ _ _ _ _ Hc Hs Hin) as (st & Hd & Hc'). exists st. split; [done|].
  split; [eexists; split; [exact Hc'|]; symmetry; apply remove_view|].
  intros e. cbn. rewrite Hset. destruct (Z.eqb_spec e ev) as [->|Hne]; [symmetry; apply bool_decide_false|apply bool_decide_ext];
    rewrite remove_fst; tauto.
Qed.

Lemma rep_insert w l ev timer : rep w l -> ev ∉ l.*1 -> 0 <= ev < 2 ^ 64 -> ev <> s -> 0 <= timer < 2 ^ 62 ->
  exists w', insert_timer s ev (u64 (ngx_current_msec w + timer)) w = Some w' /\
    rep w' (ins (by_rank (fun r => r)) (ev, timer) l) /\ same_rest w w'.
Proof.
  intros ((lk & Hc & ->) & Hset) Hin Hev1 Hev2 Ht. rewrite view_fst in Hin.
  destruct (distance_add (ngx_current_msec w) ev timer Ht) as [Hd Hn].
  destruct (contents_insert s timer_less _ _ (timer_less_rank _) _ _ ev _ Hc Hs Hev1 Hev2 Hin Hn) as (st & Hi & Hc').
  unfold insert_timer. cbn [tree set_tree]. unfold ngx_rbtree_insert_timer_value. rewrite Hi. cbn [mbind option_bind].
  eexists. split; [reflexivity|]. split; [|done]. split.
  - eexists. split; [exact Hc'|]. cbn. by rewrite ins_view, Hd.
  - intros e. cbn. rewrite Hset. destruct (Z.eqb_spec e ev) as [->|Hne]; [symmetry; apply bool_decide_true|apply bool_decide_ext];
      rewrite ins_fst; cbn; tauto.
Qed.

Lemma rep_call w l c l' : rep w l -> spec_call s c l = Some l' ->
  exists w', run_call s c w = Some w' /\ rep w' l' /\ same_rest w w'.
Proof.
  intros Hr Hspec. destruct c as [ev timer|ev]; cbn [spec_call run_call] in *.
  - case_bool_decide as Hok; [|done]. destruct Hok as (Hev1 & Hev2 & Ht). unfold ngx_event_add_timer.
    rewrite (proj2 Hr ev). destruct (time_left ev l) as [r|] eqn:Hl.
    + apply time_left_in in Hl. destruct (rep_key _ _ _ _ Hr Hl) as [Hk Hb].
      assert (ev ∈ l.*1) as Hin by (apply list_elem_of_fmap; by exists (ev, r)).
      rewrite bool_decide_true by done.
      assert (s64 (u64 (u64 (ngx_current_msec w + timer) - key (tree w) ev)) = timer - r) as ->.
      { destruct (s64_u64_eq (key (tree w) ev - ngx_current_msec w)) as (q & Hq & _).
        pose proof (Z.div_mod (ngx_current_msec w + timer) (2 ^ 64) ltac:(lia)). unfold u64 at 2.
        apply (s64_u64_unique _ _ (q - (ngx_current_msec w + timer) / 2 ^ 64)); lia. }
      destruct (Z.abs (timer - r) <? NGX_TIMER_LAZY_DELAY); injection Hspec as <-; [by exists w|].
      unfold ngx_event_del_timer. destruct (rep_delete _ _ _ Hr Hin) as (st & -> & Hr'). cbn [mbind option_bind].
      apply (rep_insert _ _ ev timer Hr'); [rewrite remove_fst; tauto|done..].
    + apply time_left_none in Hl. rewrite bool_decide_false by done. injection Hspec as <-. by apply rep_insert.
  - destruct (time_left ev l) as [r|] eqn:Hl; [|done]. injection Hspec as <-. apply time_left_in in Hl.
    destruct (rep_delete w l ev Hr) as (st & Hd & Hr'); [apply list_elem_of_fmap; by exists (ev, r)|].
    unfold ngx_event_del_timer. rewrite Hd. by eexists.
Qed.

Lemma rep_calls w l cs l' : rep w l -> spec_calls s cs l = Some l' ->
  exists w', run_calls s cs w = Some w' /\ rep w' l' /\ same_rest w w'.
Proof.
  revert w l. induction cs as [|c cs IH]; intros w l Hr Hspec; cbn [spec_calls run_calls] in *.
  - injection Hspec as <-. by exists w.
  - apply bind_Some in Hspec as (l1 & H1 & H2). destruct (rep_call _ _ _ _ Hr H1) as (w1 & -> & Hr1 & [Hn1 Hc1]).
    cbn [mbind option_bind]. destruct (IH _ _ Hr1 H2) as (w2 & -> & Hr2 & [Hn2 Hc2]). exists w2.
    split; [done|]. split; [done|]. split; congruence.
Qed.

Lemma rep_timedout w l ev b : rep w l -> rep (set_timedout ev b w) l.
Proof. done. Qed.

Lemma rep_expire handler fuel w l l' evs : rep w l -> spec_expire s handler fuel l = Some (l', evs) ->
  exists w', expire_loop s (fun ev => run_calls s (handler ev)) fuel w = Some (w', evs) /\ rep w' l' /\ same_rest w w'.
Proof.
  revert w l l' evs. induction fuel as [|fuel IH]; intros w l l' evs Hr Hspec; cbn [spec_expire expire_loop] in *; [done|].
  rewrite (rep_empty _ _ Hr). destruct l as [|[ev r] l]; [injection Hspec as <- <-; by exists w|].
  rewrite bool_decide_false, (rep_min _ _ _ _ Hr) by done. cbn [mbind option_bind].
  destruct (rep_key _ _ ev r Hr) as [-> Hb]; [by left|].
  destruct (0 <? r); [injection Hspec as <- <-; by exists w|].
  apply bind_Some in Hspec as (l1 & H1 & Hspec). apply bind_Some in Hspec as ([l2 evs2] & H2 & [= <- <-]).
  destruct (rep_delete _ _ ev Hr) as (st & -> & Hr'); [by left|]. rewrite (remove_head _ _ _ (rep_nodup _ _ Hr)) in Hr'.
  cbn [mbind option_bind]. apply (rep_timedout _ _ ev true) in Hr'.
  destruct (rep_calls _ _ _ _ Hr' H1) as (w1 & -> & Hr1 & [Hn1 Hc1]). cbn [mbind option_bind].
  destruct (IH _ _ _ _ Hr1 H2) as (w2 & -> & Hr2 & [Hn2 Hc2]). exists w2. split; [done|]. split; [done|].
  split; [rewrite Hn2, Hn1|rewrite Hc2, Hc1]; done.
Qed.

Lemma sorted_shift now now' d (lk : list (Z * Z)) :
  Forall (fun x => distance now' x.2 = distance now x.2 - d) lk -> sorted (by_rank (distance now)) lk -> sorted (by_rank (distance now')) lk.
Proof.
  unfold sorted. intros Hd Hsort. induction Hsort as [|x lk Hsort IH Hx]; [constructor|].
  apply Forall_cons in Hd as [Hd0 Hd]. constructor; [by apply IH|]. rewrite Forall_forall in Hx, Hd |- *.
  intros y Hy. specialize (Hx y Hy). unfold by_rank in *. rewrite Z.ltb_ge in *. rewrite Hd0, Hd by done. lia.
Qed.

Lemma rep_tick w l d : rep w l -> 0 <= d -> Forall (fun x => - 2 ^ 62 < x.2 - d) l ->
  rep (tick d w) ((fun x => (x.1, x.2 - d)) <$> l).
Proof.
  intros ((lk & (Ht & Hsort & Hl) & ->) & Hset) Hd Hb. unfold view in Hb. rewrite Forall_fmap in Hb.
  assert (Forall (fun x => distance (u64 (ngx_current_msec w + d)) x.2 = distance (ngx_current_msec w) x.2 - d) lk) as Hdist.
  { rewrite Forall_forall in Hb, Hl |- *. intros x Hx. destruct (Hl x Hx) as [_ Hn]. specialize (Hb x Hx). cbn in Hb.
    apply distance_tick; [by apply near_distance|done|done]. }
  split.
  - exists lk. cbn. split.
    + split; [done|]. split; [by eapply sorted_shift|]. rewrite Forall_forall in Hdist, Hl, Hb |- *. intros x Hx.
      destruct (Hl x Hx) as [H1 H2]. split; [done|]. assert (Hn := near_distance _ _ H2). specialize (Hb x Hx). cbn in Hb.
      unfold near in H2 |- *. rewrite (Hdist x Hx). apply Is_true_true in H2. apply Is_true_true.
      rewrite !andb_true_iff, Z.leb_le, !Z.ltb_lt in *. lia.
    + unfold view. rewrite <- list_fmap_compose. apply list_fmap_ext. intros i x Hx. cbn. f_equal. symmetry.
      rewrite Forall_forall in Hdist. apply Hdist. by eapply list_elem_of_lookup_2.
  - intros ev. cbn. rewrite Hset. apply bool_decide_ext. by rewrite <- list_fmap_compose.
Qed.

Lemma no_timers_loop_ok w lk fuel n k l1 l2 :
  contents s (by_rank (distance (ngx_current_msec w))) (near (ngx_current_msec w)) (tree w) lk -> lk = l1 ++ (n, k) :: l2 ->
  (length l2 < fuel)%nat ->
  no_timers_loop s fuel n w = Some (if forallb (cancelable w) (n :: l2.*1) then NGX_OK else NGX_AGAIN).
Proof.
  intros Hc. revert n k l1 l2. induction fuel as [|fuel IH]; intros n k l1 l2 Hlk Hf; [lia|]. cbn [no_timers_loop forallb].
  destruct (cancelable w n); [cbn [negb andb]|done].
  assert (n ∈ lk.*1 /\ n ∉ l1.*1) as [Hin Hn1].
  { pose proof (contents_nodup _ _ _ _ _ Hc) as Hnd. rewrite Hlk, fmap_app in Hnd |- *.
    apply NoDup_app in Hnd as (_ & Hd & _). split; [apply elem_of_app; right; by left|]. intros Hin. apply (Hd _ Hin). by left. }
  rewrite (contents_next _ _ _ _ _ _ Hc Hs Hin), Hlk, next_in_split by done. cbn [mbind option_bind].
  destruct l2 as [|[n2 k2] l2]; [done|]. cbn [head fmap option_fmap option_map fst].
  apply (IH n2 k2 (l1 ++ [(n, k)]) l2); [by rewrite <- app_assoc|cbn in Hf; lia].
Qed.

Lemma rep_no_timers w l fuel : rep w l -> (length l < fuel)%nat ->
  ngx_event_no_timers_left s fuel w = Some (if forallb (cancelable w) l.*1 then NGX_OK else NGX_AGAIN).
Proof.
  intros Hr Hf. unfold ngx_event_no_timers_left. rewrite (rep_empty _ _ Hr). destruct l as [|[ev r] l]; [done|].
  rewrite bool_decide_false, (rep_min _ _ _ _ Hr) by done. cbn [mbind option_bind].
  destruct Hr as ((lk & Hc & Hl) & _). destruct lk as [|[e k] lk]; [done|]. injection Hl as -> -> ->.
  change (map _ lk) with (view (ngx_current_msec w) lk). cbn [length fmap list_fmap fst] in *.
  rewrite view_fst. eapply (no_timers_loop_ok w _ _ _ k []); [exact Hc|done|]. unfold view in Hf. rewrite length_fmap in Hf. lia.
Qed.

(** ** Sequences *)

Lemma rep_event handler fuel w l e l' r : rep w l -> spec_event s handler fuel (cancelable w) e l = Some (l', r) ->
  exists w', run_event s handler fuel e w = Some (w', r) /\ rep w' l' /\ cancelable w' = cancelable w.
Proof.
  intros Hr Hspec. destruct e as [c|d| | |]; cbn [spec_event run_event] in *.
  - apply bind_Some in Hspec as (l1 & H1 & [= <- <-]). destruct (rep_call _ _ _ _ Hr H1) as (w' & -> & Hr' & [_ Hc]).
    by exists w'.
  - destruct ((0 <=? d) && _) eqn:Hd; [|done]. injection Hspec as <- <-. apply andb_true_iff in Hd as [Hd%Z.leb_le Hf].
    exists (tick d w). split; [done|]. split; [|done]. apply rep_tick; [done|done|].
    rewrite forallb_forall in Hf. apply Forall_forall. intros x Hx. apply Z.ltb_lt.
    apply (Hf (x.1, x.2 - d)). apply list_elem_of_In, list_elem_of_fmap. by exists x.
  - injection Hspec as <- <-. rewrite (rep_find _ _ Hr). by exists w.
  - destruct (rep_expire _ _ _ _ _ _ Hr Hspec) as (w' & H & Hr' & [_ Hc]). by exists w'.
  - destruct (Nat.ltb_spec (length l) fuel) as [Hf|]; [|done]. injection Hspec as <- <-.
    rewrite (rep_no_timers _ _ _ Hr Hf). by exists w.
Qed.

Lemma rep_events handler fuel es w l l' rs : rep w l -> spec_events s handler fuel (cancelable w) es l = Some (l', rs) ->
  exists w', run_events s handler fuel es w = Some (w', rs) /\ rep w' l' /\ cancelable w' = cancelable w.
Proof.
  revert w l l' rs. induction es as [|e es IH]; intros w l l' rs Hr Hspec; cbn [spec_events run_events] in *.
  - injection Hspec as <- <-. by exists w.
  - apply bind_Some in Hspec as ([l1 r1] & H1 & Hspec). apply bind_Some in Hspec as ([l2 rs2] & H2 & [= <- <-]).
    destruct (rep_event _ _ _ _ _ _ _ Hr H1) as (w1 & -> & Hr1 & Hc1). rewrite <- Hc1 in H2.
    destruct (IH _ _ _ _ Hr1 H2) as (w2 & Hrun & Hr2 & Hc2). cbn [mbind option_bind]. rewrite Hrun.
    exists w2. split; [done|]. split; [done|]. by rewrite Hc2.
Qed.

Lemma rep_init w : (forall ev, timer_set w ev = false) -> rep (ngx_event_timer_init s w) [].
Proof.
  intros Hw. split; [exists []; split; [apply init_contents|done]|]. intros ev. cbn. by rewrite Hw.
Qed.

(** ** What is due *)

Definition due (l : list (Z * Z)) : list (Z * Z) := filter (fun x => x.2 <= 0) l.

(** The timers that a handler adds are in the future. *)
Definition adds_later (handler : Z -> list call) : Prop :=
  forall ev, Forall (fun c => exists e t, c = Add e t /\ 0 <= e < 2 ^ 64 /\ e <> s /\ 0 < t < 2 ^ 62) (handler ev).

Lemma due_ins ev t l : 0 < t -> due (ins (by_rank (fun r => r)) (ev, t) l) = due l.
Proof.
  intros Ht. unfold due. induction l as [|x l IH]; cbn [ins]; [by rewrite filter_cons_False by (cbn; lia)|].
  case_match; [by rewrite filter_cons_False by (cbn; lia)|]. rewrite !filter_cons. case_decide; by rewrite IH.
Qed.

Lemma due_remove ev l : sublist (due (remove ev l)) (due l).
Proof.
  unfold due, remove. induction l as [|x l IH]; [constructor|]. rewrite (filter_cons (fun x => x.1 <> ev)).
  case_decide; rewrite !filter_cons; case_decide; by try constructor.
Qed.

Lemma remove_sublist ev l : sublist (remove ev l) l.
Proof. unfold remove. apply sublist_filter. Qed.

Lemma spec_calls_later cs l :
  Forall (fun c => exists e t, c = Add e t /\ 0 <= e < 2 ^ 64 /\ e <> s /\ 0 < t < 2 ^ 62) cs ->
  sorted (by_rank (fun r => r)) l ->
  exists l', spec_calls s cs l = Some l' /\ sorted (by_rank (fun r => r)) l' /\ sublist (due l') (due l).
Proof.
  intros Hcs. revert l. induction Hcs as [|c cs (e & t & -> & He1 & He2 & Ht) Hcs IH]; intros l Hl; [by exists l|].
  cbn [spec_calls spec_call]. rewrite bool_decide_true by (split_and!; [lia..|done|lia|lia]).
  assert (exists l1, match time_left e l with
    | Some r => if Z.abs (t - r) <? NGX_TIMER_LAZY_DELAY then Some l else Some (ins (by_rank (fun r => r)) (e, t) (remove e l))
    | None => Some (ins (by_rank (fun r => r)) (e, t) l) end = Some l1 /\ sorted (by_rank (fun r => r)) l1 /\ sublist (due l1) (due l)) as (l1 & -> & Hl1 & Hd1).
  { destruct (time_left e l); [case_match|].
    - by exists l.
    - eexists. split; [reflexivity|]. split; [apply ins_sorted; [apply _|]; eapply sorted_sub; [exact Hl|apply remove_sublist]|].
      rewrite due_ins by lia. apply due_remove.
    - eexists. split; [reflexivity|]. split; [apply ins_sorted; [apply _|done]|]. by rewrite due_ins by lia. }
  cbn [mbind option_bind]. destruct (IH l1 Hl1) as (l2 & -> & ? & ?). exists l2. split; [done|]. split; [done|]. by etransitivity.
Qed.

Lemma spec_expire_ends handler fuel l : adds_later handler -> sorted (by_rank (fun r => r)) l -> (length (due l) < fuel)%nat ->
  exists l' evs, spec_expire s handler fuel l = Some (l', evs) /\ sublist evs (due l).*1 /\ Forall (fun x => 0 < x.2) l'.
Proof.
  intros Hh. revert l. induction fuel as [|fuel IH]; intros l Hl Hf; [lia|]. cbn [spec_expire].
  destruct l as [|[ev r] l]; [exists [], []; split; [done|]; split; constructor|].
  inversion_clear Hl as [|? ? Hl' Hx]. cbn in Hx. destruct (Z.ltb_spec 0 r) as [Hr|Hr].
  - eexists _, _. split; [reflexivity|]. split; [apply sublist_nil_l|]. constructor; [done|].
    eapply Forall_impl; [exact Hx|]. intros y Hy%Z.ltb_ge. cbn in Hy. lia.
  - unfold due in Hf |- *. rewrite filter_cons_True in Hf |- * by (cbn; lia). fold (due l) in Hf |- *. cbn [length] in Hf.
    destruct (spec_calls_later _ l (Hh ev) Hl') as (l1 & -> & Hl1 & Hd1). cbn [mbind option_bind].
    pose proof (sublist_length _ _ Hd1). destruct (IH l1 Hl1) as (l2 & evs & -> & Hs2 & Hp); [lia|].
    cbn [mbind option_bind]. eexists _, _. split; [reflexivity|]. split; [|done]. cbn. constructor.
    etransitivity; [exact Hs2|]. by apply fmap_sublist.
Qed.

Lemma rep_sorted w l : rep w l -> sorted (by_rank (fun r => r)) l.
Proof.
  intros ((lk & (_ & Hsort & _) & ->) & _). unfold sorted, view in *. induction Hsort as [|x lk H IH Hx]; [constructor|].
  cbn. constructor; [exact IH|]. apply Forall_fmap. exact Hx.
Qed.
End Spec.

(** ** The theorems *)

(** C13. Any sequence of timers set, moved and deleted, time that passes, and calls
    of the three functions, in which callers keep to the rules of the
    specification, gives its results, whatever the handlers of expired events
    do; in the end the flags and the keys show the timers of the list. *)
Theorem timers_refine s w handler fuel es :
  0 <= s < 2 ^ 64 -> (forall ev, timer_set w ev = false) ->
  forall l results, spec_events s handler fuel (cancelable w) es [] = Some (l, results) ->
  exists w', run_events s handler fuel es (ngx_event_timer_init s w) = Some (w', results) /\
    (forall ev, timer_set w' ev = bool_decide (ev ∈ l.*1)) /\
    forall ev r, (ev, r) ∈ l -> s64 (u64 (key (tree w') ev - ngx_current_msec w')) = r.
Proof.
  intros Hs Hw l rs Hspec. destruct (rep_events s Hs _ _ _ _ _ _ _ (rep_init s w Hw) Hspec) as (w' & Hrun & Hr & _).
  exists w'. split; [done|]. split; [apply Hr|]. intros ev r Hin. by eapply (proj1 (rep_key _ _ _ _ _ Hr Hin)).
Qed.

(** The expiry of timers ends, when handlers set timers in the future only: it
    calls the handlers of timers that are due, in their order and each once,
    and leaves none that is due. *)
Theorem expire_ends s w handler fuel es :
  0 <= s < 2 ^ 64 -> (forall ev, timer_set w ev = false) -> adds_later s handler ->
  forall l results, spec_events s handler fuel (cancelable w) es [] = Some (l, results) -> (length (due l) < fuel)%nat ->
  exists w1 w2 evs, run_events s handler fuel es (ngx_event_timer_init s w) = Some (w1, results) /\
    ngx_event_expire_timers s (fun ev => run_calls s (handler ev)) fuel w1 = Some (w2, evs) /\
    sublist evs (due l).*1 /\
    forall ev, timer_set w2 ev = true -> 0 < s64 (u64 (key (tree w2) ev - ngx_current_msec w2)).
Proof.
  intros Hs Hw Hh l rs Hspec Hf. destruct (rep_events s Hs _ _ _ _ _ _ _ (rep_init s w Hw) Hspec) as (w1 & Hrun & Hr & _).
  destruct (spec_expire_ends s handler fuel l Hh (rep_sorted _ _ _ Hr) Hf) as (l2 & evs & He & Hsub & Hpos).
  destruct (rep_expire s Hs _ _ _ _ _ _ Hr He) as (w2 & Hexp & Hr2 & _).
  exists w1, w2, evs. split; [done|]. split; [done|]. split; [done|]. intros ev Hev. rewrite (proj2 Hr2) in Hev.
  apply bool_decide_eq_true in Hev. apply list_elem_of_fmap in Hev as ([e r] & -> & Hin). cbn [fst].
  rewrite (proj1 (rep_key _ _ _ _ _ Hr2 Hin)). rewrite Forall_forall in Hpos. by apply (Hpos (e, r)).
Qed.

(** Timers around the wrap of the clock; the handler of event 2 sets timer 9. *)
Definition sample_timers : timers :=
  Timers sample_heap (fun _ => false) (fun _ => false) (fun ev => ev =? 5) (2 ^ 64 - 1000).
Definition sample_handler (ev : Z) : list call := if ev =? 2 then [Add 9 4000; Add 9 4100] else [].
Definition sample_events : list event :=
  [Find; Call (Add 1 3000); Call (Add 2 500); Call (Add 3 900); Call (Add 1 2800); Call (Add 5 9000); Find;
   Call (Add 3 2000); Call (Del 3); Tick 1500; Find; NoTimersLeft; Expire; Find; Tick 3000].

Lemma timers_refine_witness :
  exists w', run_events 0 sample_handler 10 sample_events (ngx_event_timer_init 0 sample_timers) =
      Some (w', [[2 ^ 64 - 1]; []; []; []; []; []; [500]; []; []; []; [0]; [-2]; [2]; [1500]; []]) /\
    (forall ev, timer_set w' ev = bool_decide (ev ∈ [1; 9; 5])) /\
    forall ev r, (ev, r) ∈ [(1, -1500); (9, 1000); (5, 4500)] ->
      s64 (u64 (key (tree w') ev - ngx_current_msec w')) = r.
Proof.
  apply (timers_refine 0 sample_timers sample_handler 10 sample_events) with (l := [(1, -1500); (9, 1000); (5, 4500)]); [lia|done|]. vm_compute. reflexivity.
Defined.

Lemma expire_ends_witness :
  exists w1 w2 evs, run_events 0 sample_handler 10 sample_events (ngx_event_timer_init 0 sample_timers) =
      Some (w1, [[2 ^ 64 - 1]; []; []; []; []; []; [500]; []; []; []; [0]; [-2]; [2]; [1500]; []]) /\
    ngx_event_expire_timers 0 (fun ev => run_calls 0 (sample_handler ev)) 10 w1 = Some (w2, evs) /\
    sublist evs [1] /\
    forall ev, timer_set w2 ev = true -> 0 < s64 (u64 (key (tree w2) ev - ngx_current_msec w2)).
Proof.
  apply (expire_ends 0 sample_timers sample_handler 10 sample_events) with (l := [(1, -1500); (9, 1000); (5, 4500)]); [lia|done| | |].
  - intros ev. unfold sample_handler. case_match; [|constructor]. repeat constructor; eexists _, _; (split; [reflexivity|lia]).
  - vm_compute. reflexivity.
  - vm_compute. lia.
Defined.
