(* ===== verification/NgxQueue.v ===== *)
(** * NgxQueue: doubly linked queues

    core/ngx_queue.h and ngx_queue.c: the queue macros on links in a heap,
    [ngx_queue_middle] and [ngx_queue_sort].  A queue is a ring through its
    head [h]; [queue st h l] relates it to the list of its elements. *)

From Stdlib Require Import Sorted.
From S2P Require Import Prelude.

(** ** Data *)

(* core/ngx_queue.h:18-21 ngx_queue_s *)
Record link : Type := Link { q_prev : Z; q_next : Z }.

Definition links : Type := Z -> link.

Definition prev (st : links) (a : Z) : Z := q_prev (st a).
Definition next (st : links) (a : Z) : Z := q_next (st a).
Definition set_prev (a v : Z) (st : links) : links := fun x => if x =? a then Link v (q_next (st x)) else st x.
Definition set_next (a v : Z) (st : links) : links := fun x => if x =? a then Link (q_prev (st x)) v else st x.

(** ** The macros, without [NGX_DEBUG] *)

(* core/ngx_queue.h:24-26 ngx_queue_init *)
Definition ngx_queue_init (q : Z) (st : links) : links := set_next q q (set_prev q q st).

(* core/ngx_queue.h:29-30 ngx_queue_empty *)
Definition ngx_queue_empty (h : Z) (st : links) : bool := h =? prev st h.

(* core/ngx_queue.h:33-40 ngx_queue_insert_head, ngx_queue_insert_after *)
Definition ngx_queue_insert_head (h x : Z) (st : links) : links :=
  let st := set_next x (next st h) st in
  let st := set_prev (next st x) x st in
  let st := set_prev x h st in
  set_next h x st.

(* core/ngx_queue.h:43-47 ngx_queue_insert_tail *)
Definition ngx_queue_insert_tail (h x : Z) (st : links) : links :=
  let st := set_prev x (prev st h) st in
  let st := set_next (prev st x) x st in
  let st := set_next x h st in
  set_prev h x st.

(* core/ngx_queue.h:50-67 ngx_queue_head, ngx_queue_last, ngx_queue_next, ngx_queue_prev *)
Definition ngx_queue_head (h : Z) (st : links) : Z := next st h.
Definition ngx_queue_last (h : Z) (st : links) : Z := prev st h.

(* core/ngx_queue.h:80-82 ngx_queue_remove *)
Definition ngx_queue_remove (x : Z) (st : links) : links :=
  let st := set_prev (next st x) (prev st x) st in
  set_next (prev st x) (next st x) st.

(* core/ngx_queue.h:87-93 ngx_queue_split *)
Definition ngx_queue_split (h q n : Z) (st : links) : links :=
  let st := set_prev n (prev st h) st in
  let st := set_next (prev st n) n st in
  let st := set_next n q st in
  let st := set_prev h (prev st q) st in
  let st := set_next (prev st h) h st in
  set_prev q n st.

(* core/ngx_queue.h:96-100 ngx_queue_add *)
Definition ngx_queue_add (h n : Z) (st : links) : links :=
  let st := set_next (prev st h) (next st n) st in
  let st := set_prev (next st n) (prev st h) st in
  let st := set_prev h (prev st n) st in
  set_next (prev st h) h st.

(** ** The functions *)

(* core/ngx_queue.c:30-44 ngx_queue_middle: for *)
Fixpoint middle_loop (fuel : nat) (h middle nxt : Z) (st : links) : option Z :=
  match fuel with
  | O => None
  | S fuel =>
      let middle := next st middle in
      let nxt := next st nxt in
      if nxt =? ngx_queue_last h st then Some middle
      else
        let nxt := next st nxt in
        if nxt =? ngx_queue_last h st then Some middle
        else middle_loop fuel h middle nxt st
  end.

(* core/ngx_queue.c:17-45 ngx_queue_middle *)
Definition ngx_queue_middle (fuel : nat) (h : Z) (st : links) : option Z :=
  let middle := ngx_queue_head h st in
  if middle =? ngx_queue_last h st then Some middle
  else middle_loop fuel h middle (ngx_queue_head h st) st.

Section Sort.
Context (cmp : Z -> Z -> Z).

(* core/ngx_queue.c:69-76 ngx_queue_sort: do *)
Fixpoint sort_back (fuel : nat) (h p q : Z) (st : links) : option Z :=
  match fuel with
  | O => None
  | S fuel =>
      if cmp p q <=? 0 then Some p
      else
        let p := prev st p in
        if negb (p =? h) then sort_back fuel h p q st else Some p
  end.

(* core/ngx_queue.c:62-79 ngx_queue_sort: for *)
Fixpoint sort_loop (turns fuel : nat) (h q : Z) (st : links) : option links :=
  match fuel with
  | O => None
  | S fuel' =>
      if negb (q =? h) then
        let p := prev st q in
        let nxt := next st q in
        let st := ngx_queue_remove q st in
        p ← sort_back turns h p q st;
        sort_loop turns fuel' h nxt (ngx_queue_insert_head p q st)
      else Some st
  end.

(** [fuel] is a number of turns for each of the loops. *)
(* core/ngx_queue.c:50-80 ngx_queue_sort *)
Definition ngx_queue_sort (fuel : nat) (h : Z) (st : links) : option links :=
  let q := ngx_queue_head h st in
  if q =? ngx_queue_last h st then Some st
  else sort_loop fuel fuel h (next st q) st.
End Sort.

(** ** Rings *)

Definition linked (st : links) (a b : Z) : Prop := next st a = b /\ prev st b = a.

(** From [a] over the elements of [l] to [b]. *)
Fixpoint chain (st : links) (a : Z) (l : list Z) (b : Z) : Prop :=
  match l with
  | [] => linked st a b
  | x :: l => linked st a x /\ chain st x l b
  end.

Definition queue (st : links) (h : Z) (l : list Z) : Prop := chain st h l h /\ NoDup (h :: l).

Lemma chain_app st a l1 x l2 b : chain st a (l1 ++ x :: l2) b <-> chain st a l1 x /\ chain st x l2 b.
Proof. revert a. induction l1 as [|y l1 IH]; intros a; cbn; [done|]. rewrite IH. tauto. Qed.

(** The element before the place behind [l], and the element at the place before [l]. *)
Definition last_of (h : Z) (l : list Z) : Z := default h (last l).
Definition head_of (h : Z) (l : list Z) : Z := default h (head l).

Lemma chain_head st a l b : chain st a l b -> next st a = head_of b l.
Proof. destruct l; cbn; [by intros [? _]|by intros [[? _] _]]. Qed.

Lemma last_of_cons h x l : last_of h (x :: l) = last_of x l.
Proof. unfold last_of. rewrite last_cons. by destruct (last l). Qed.

Lemma last_of_app h l1 l2 : last_of h (l1 ++ l2) = last_of (last_of h l1) l2.
Proof. unfold last_of. rewrite last_app. by destruct (last l2). Qed.

Lemma chain_last st a l b : chain st a l b -> prev st b = last_of a l.
Proof.
  revert a. induction l as [|x l IH]; intros a; cbn [chain]; [by intros [_ ?]|]. intros [_ H]. rewrite last_of_cons. by apply IH.
Qed.

(** A chain depends on the [next] pointers from its start and the [prev] pointers to its end. *)
Lemma links_ext st st' a l b :
  (forall x, x ∈ a :: l -> next st' x = next st x) -> (forall x, x ∈ b :: l -> prev st' x = prev st x) ->
  chain st a l b -> chain st' a l b.
Proof.
  revert a. induction l as [|x l IH]; intros a Hn Hp; cbn.
  - intros [? ?]. split; [rewrite Hn|rewrite Hp]; try done; by left.
  - intros [[Hax Hxa] Hc]. split; [split; [rewrite Hn|rewrite Hp]; try done; set_solver|].
    apply IH; [|set_solver|done]. intros y Hy. apply Hn. by right.
Qed.

Lemma next_set_next a v st x : next (set_next a v st) x = if x =? a then v else next st x.
Proof. unfold next, set_next. by case_match. Qed.
Lemma next_set_prev a v st x : next (set_prev a v st) x = next st x.
Proof. unfold next, set_prev. by case_match. Qed.
Lemma prev_set_prev a v st x : prev (set_prev a v st) x = if x =? a then v else prev st x.
Proof. unfold prev, set_prev. by case_match. Qed.
Lemma prev_set_next a v st x : prev (set_next a v st) x = prev st x.
Proof. unfold prev, set_next. by case_match. Qed.

Ltac links_eval := repeat (rewrite ?next_set_next, ?next_set_prev, ?prev_set_prev, ?prev_set_next, ?Z.eqb_refl).

Lemma last_of_in h l : last_of h l ∈ h :: l.
Proof.
  unfold last_of. destruct (last l) as [x|] eqn:Hx; [right|by left]. by apply last_Some_elem_of.
Qed.
Lemma head_of_in h l : head_of h l ∈ h :: l.
Proof. destruct l; cbn; [by left|right; by left]. Qed.

(** The part [m] between [l1] and [l2] is replaced by [m']. *)
Lemma chain_replace st st' a b l1 m m' l2 :
  chain st a (l1 ++ m ++ l2) b -> chain st' (last_of a l1) m' (head_of b l2) ->
  NoDup (a :: l1 ++ l2) -> NoDup (b :: l1 ++ l2) ->
  (forall x, x ∈ a :: l1 ++ l2 -> x <> last_of a l1 -> next st' x = next st x) ->
  (forall x, x ∈ b :: l1 ++ l2 -> x <> head_of b l2 -> prev st' x = prev st x) ->
  chain st' a (l1 ++ m' ++ l2) b.
Proof.
  revert a. induction l1 as [|y l1 IH]; intros a Hc Hm Ha Hb Hn Hp.
  - cbn [app] in *. change (last_of a []) with a in *. destruct l2 as [|z l2]; [by rewrite app_nil_r|].
    apply chain_app in Hc as [_ Hc]. apply chain_app. split; [exact Hm|]. cbn in Hp.
    apply NoDup_cons in Ha as [Ha _]. apply NoDup_cons in Hb as [Hb1 Hb2]. apply NoDup_cons in Hb2 as [Hb2 _].
    eapply links_ext; [| |exact Hc].
    + intros x Hx. apply Hn; [by right|]. intros ->. done.
    + intros x Hx. apply Hp; [set_solver|]. intros ->. apply elem_of_cons in Hx as [->|Hx]; [|done]. apply Hb1. by left.
  - rewrite last_of_cons in Hm, Hn. cbn [app chain] in *. destruct Hc as [[Hay Hya] Hc].
    apply NoDup_cons in Ha as [Ha Hnd]. apply NoDup_cons in Hb as [Hb Hnd']. apply NoDup_cons in Hnd' as [Hy Hnd'].
    assert (last_of y l1 ∈ y :: l1) as Hl by apply last_of_in.
    assert (head_of b l2 ∈ b :: l2) as Hh by apply head_of_in.
    split; [split|].
    + rewrite Hn; [done|by left|]. intros ->. set_solver.
    + rewrite Hp; [done|set_solver|]. intros ->. set_solver.
    + apply (IH y); try done.
      * apply NoDup_cons. split; [set_solver|done].
      * intros x Hx. apply Hn. by right.
      * intros x Hx. apply Hp. set_solver.
Qed.

Lemma queue_replace st st' h l1 m m' l2 :
  queue st h (l1 ++ m ++ l2) -> chain st' (last_of h l1) m' (head_of h l2) -> NoDup (h :: l1 ++ m' ++ l2) ->
  (forall x, x ∈ h :: l1 ++ l2 -> x <> last_of h l1 -> next st' x = next st x) ->
  (forall x, x ∈ h :: l1 ++ l2 -> x <> head_of h l2 -> prev st' x = prev st x) ->
  queue st' h (l1 ++ m' ++ l2).
Proof.
  intros [Hc Hnd] Hm Hnd' Hn Hp. split; [|done].
  assert (NoDup (h :: l1 ++ l2)).
  { eapply sublist_NoDup; [exact Hnd'|]. constructor. apply sublist_app; [done|]. by apply sublist_inserts_l. }
  by eapply chain_replace.
Qed.

(** What is before and behind a place. *)
Lemma chain_cut st a b l1 l2 : chain st a (l1 ++ l2) b ->
  next st (last_of a l1) = head_of b l2 /\ prev st (head_of b l2) = last_of a l1.
Proof.
  revert a. induction l1 as [|y l1 IH]; intros a; cbn [app].
  - change (last_of a []) with a. intros Hc. split; [by apply chain_head in Hc|].
    destruct l2 as [|z l2]; cbn in Hc |- *; unfold linked in Hc; tauto.
  - intros [_ Hc]. rewrite last_of_cons. by apply IH.
Qed.

Lemma queue_cut st h l1 l2 : queue st h (l1 ++ l2) ->
  next st (last_of h l1) = head_of h l2 /\ prev st (head_of h l2) = last_of h l1.
Proof. intros [Hc _]. by apply chain_cut. Qed.

(** ** The operations on the list *)

Lemma queue_init_ok st h : queue (ngx_queue_init h st) h [].
Proof. split; [|by apply NoDup_singleton]. unfold ngx_queue_init. split; by links_eval. Qed.

Lemma empty_ok st h l : queue st h l -> ngx_queue_empty h st = bool_decide (l = []).
Proof.
  intros [Hc Hnd]. unfold ngx_queue_empty. rewrite (chain_last _ _ _ _ Hc). unfold last_of.
  destruct l as [|x l]; [by rewrite Z.eqb_refl|]. rewrite bool_decide_false by done. apply Z.eqb_neq. intros Heq.
  apply NoDup_cons in Hnd as [Hh _]. apply Hh. destruct (last (x :: l)) as [y|] eqn:Hl; [|by apply last_None in Hl].
  cbn in Heq. subst y. by apply last_Some_elem_of.
Qed.

Lemma insert_after_ok st h l1 l2 x : queue st h (l1 ++ l2) -> x ∉ h :: l1 ++ l2 ->
  queue (ngx_queue_insert_head (last_of h l1) x st) h (l1 ++ x :: l2).
Proof.
  intros Hq Hx. destruct (queue_cut _ _ _ _ Hq) as [Hn Hp].
  set (p := last_of h l1) in *. set (n := head_of h l2) in *.
  assert (p ∈ h :: l1 ++ l2 /\ n ∈ h :: l1 ++ l2) as [Hpi Hni].
  { pose proof (last_of_in h l1). pose proof (head_of_in h l2). set_solver. }
  assert (x <> p /\ x <> n) as [Hxp Hxn] by (split; intros ->; done).
  apply (queue_replace st _ h l1 [] [x] l2); [done| | | |]; unfold ngx_queue_insert_head; fold p n; links_eval; rewrite ?Hn.
  - cbn. unfold linked. links_eval. rewrite !(proj2 (Z.eqb_neq _ _)) by done. by split_and!.
  - destruct Hq as [_ Hnd]. cbn [app]. rewrite <- Permutation_middle, Permutation_swap. by constructor.
  - intros y Hy Hyp. links_eval. rewrite !(proj2 (Z.eqb_neq y _)); [done|by intros ->|done].
  - intros y Hy Hyn. links_eval. rewrite !(proj2 (Z.eqb_neq y _)); [done|done|by intros ->].
Qed.

Lemma insert_head_ok st h l x : queue st h l -> x ∉ h :: l -> queue (ngx_queue_insert_head h x st) h (x :: l).
Proof. intros Hq Hx. exact (insert_after_ok st h [] l x Hq Hx). Qed.

(** The neighbours of an element. *)
Lemma queue_at st h l1 x l2 : queue st h (l1 ++ x :: l2) ->
  prev st x = last_of h l1 /\ next st x = head_of h l2 /\ x <> h /\ x ∉ l1 /\ x ∉ l2 /\ NoDup (h :: l1 ++ l2).
Proof.
  intros [Hc Hnd]. apply chain_app in Hc as [Hc1 Hc2]. split; [by apply chain_last|]. split; [by apply chain_head|].
  rewrite <- Permutation_middle, Permutation_swap in Hnd. apply NoDup_cons in Hnd as [Hx Hnd]. set_solver.
Qed.

Lemma insert_tail_ok st h l x : queue st h l -> x ∉ h :: l -> queue (ngx_queue_insert_tail h x st) h (l ++ [x]).
Proof.
  intros Hq Hx. pose proof (chain_last _ _ _ _ (proj1 Hq)) as Hp.
  set (p := last_of h l) in *. assert (p ∈ h :: l) as Hpi by apply last_of_in.
  assert (x <> p /\ x <> h) as [Hxp Hxh] by (split; intros ->; [done|apply Hx; by left]).
  rewrite <- (app_nil_r l) in Hq. rewrite <- (app_nil_r [x]).
  apply (queue_replace st _ h l [] [x] []); [exact Hq| | | |]; unfold ngx_queue_insert_tail; links_eval; rewrite ?Hp; fold p.
  - cbn. unfold linked. links_eval. rewrite !(proj2 (Z.eqb_neq _ _)) by done. by split_and!.
  - destruct Hq as [_ Hnd]. rewrite app_nil_r in Hnd |- *. rewrite (Permutation_app_comm l [x]). cbn.
    rewrite Permutation_swap. by constructor.
  - intros y Hy Hyp. rewrite app_nil_r in Hy. links_eval. by rewrite (proj2 (Z.eqb_neq y p) Hyp), (proj2 (Z.eqb_neq y x)) by (by intros ->).
  - intros y Hy Hyn. rewrite app_nil_r in Hy. cbn in Hyn. links_eval. by rewrite (proj2 (Z.eqb_neq y h) Hyn), (proj2 (Z.eqb_neq y x)) by (by intros ->).
Qed.

Lemma remove_ok st h l1 x l2 : queue st h (l1 ++ x :: l2) -> queue (ngx_queue_remove x st) h (l1 ++ l2).
Proof.
  intros Hq. destruct (queue_at _ _ _ _ _ Hq) as (Hp & Hn & Hxh & Hx1 & Hx2 & Hnd).
  set (p := last_of h l1) in *. set (n := head_of h l2) in *.
  assert (x <> p /\ x <> n) as [Hxp Hxn].
  { pose proof (last_of_in h l1). pose proof (head_of_in h l2). split; intros Heq.
    - fold p in H. rewrite <- Heq in H. apply elem_of_cons in H as [?|?]; done.
    - fold n in H0. rewrite <- Heq in H0. apply elem_of_cons in H0 as [?|?]; done. }
  apply (queue_replace st _ h l1 [x] [] l2); [exact Hq| |exact Hnd| |]; unfold ngx_queue_remove; links_eval;
    rewrite ?Hn, ?(proj2 (Z.eqb_neq x n) Hxn), ?Hp.
  - cbn. unfold linked. by links_eval.
  - intros y Hy Hyp. links_eval. by rewrite (proj2 (Z.eqb_neq y p) Hyp).
  - intros y Hy Hyn. links_eval. by rewrite (proj2 (Z.eqb_neq y n) Hyn).
Qed.

(** A chain with another end. *)
Lemma chain_end st st' a l b b' :
  chain st a l b -> NoDup (a :: l) -> linked st' (last_of a l) b' ->
  (forall x, x ∈ a :: l -> x <> last_of a l -> next st' x = next st x) ->
  (forall x, x ∈ l -> prev st' x = prev st x) -> chain st' a l b'.
Proof.
  revert a. induction l as [|y l IH]; intros a Hc Hnd Hl Hn Hp; [done|].
  rewrite last_of_cons in Hl, Hn. destruct Hc as [[Hay Hya] Hc]. apply NoDup_cons in Hnd as [Ha Hnd].
  assert (last_of y l ∈ y :: l) as Hin by apply last_of_in.
  split; [split|].
  - rewrite Hn; [done|by left|]. intros ->. done.
  - rewrite Hp; [done|by left].
  - apply IH; [done|done|done| |].
    + intros x Hx. apply Hn. by right.
    + intros x Hx. apply Hp. by right.
Qed.

Lemma queue_split_ok st h l1 q l2 n : queue st h (l1 ++ q :: l2) -> n ∉ h :: l1 ++ q :: l2 ->
  queue (ngx_queue_split h q n st) h l1 /\ queue (ngx_queue_split h q n st) n (q :: l2).
Proof.
  intros Hq Hn. destruct (queue_at _ _ _ _ _ Hq) as (Hp & _ & Hqh & Hq1 & Hq2 & Hnd).
  pose proof (chain_last _ _ _ _ (proj1 Hq)) as Hl. rewrite last_of_app, last_of_cons in Hl.
  destruct Hq as [Hc Hnd']. apply chain_app in Hc as [Hc1 Hc2].
  set (p := last_of h l1) in *. set (z := last_of q l2) in *.
  assert (p ∈ h :: l1) as Hpi by apply last_of_in. assert (z ∈ q :: l2) as Hzi by apply last_of_in.
  assert (NoDup (h :: l1) /\ NoDup (q :: l2) /\ (forall x, x ∈ h :: l1 -> x ∉ q :: l2)) as (Hnd1 & Hnd2 & Hdis).
  { rewrite app_comm_cons in Hnd'. apply NoDup_app in Hnd' as (? & ? & ?). done. }
  assert (n ∉ h :: l1 /\ n ∉ q :: l2) as [Hn1 Hn2] by (clear -Hn; set_solver).
  assert (n <> h /\ n <> q /\ n <> p /\ n <> z /\ p <> z /\ h <> z /\ p <> q) as (Hnh & Hnq & Hnp & Hnz & Hpz & Hhz & Hpq).
  { clear -Hn1 Hn2 Hpi Hzi Hdis. assert (h ∈ h :: l1 /\ q ∈ q :: l2) as [H1 H2] by (split; left).
    clearbody p z. split_and!; intros ->; naive_solver. }
  unfold ngx_queue_split. links_eval. rewrite Hl.
  rewrite !(proj2 (Z.eqb_neq q n)), Hp by congruence.
  set (st' := set_prev q n _).
  assert (forall x, next st' x = if x =? p then h else if x =? n then q else if x =? z then n else next st x) as Hnext.
  { intros x. unfold st'. by links_eval. }
  assert (forall x, prev st' x = if x =? q then n else if x =? h then p else if x =? n then z else prev st x) as Hprev.
  { intros x. unfold st'. by links_eval. }
  clearbody st'. split; (split; [|first [done|constructor; done]]).
  - apply (chain_end st st' h l1 q h); [done|done| | |].
    + fold p. unfold linked. rewrite Hnext, Hprev, !Z.eqb_refl. by rewrite (proj2 (Z.eqb_neq h q)) by congruence.
    + fold p. intros x Hx Hxp. rewrite Hnext, !(proj2 (Z.eqb_neq x _)); [done|..]; try done; intros ->; [by apply (Hdis z)|done].
    + intros x Hx. rewrite Hprev, !(proj2 (Z.eqb_neq x _)); [done|..]; intros ->; clear -Hx Hn1 Hnd1 Hq1; [set_solver| |done].
      by apply NoDup_cons in Hnd1 as [? _].
  - cbn [chain]. split; [unfold linked; rewrite Hnext, Hprev, !Z.eqb_refl; by rewrite (proj2 (Z.eqb_neq n p)) by congruence|].
    apply (chain_end st st' q l2 h n); [done|done| | |].
    + fold z. unfold linked. rewrite Hnext, Hprev, !Z.eqb_refl.
      by rewrite (proj2 (Z.eqb_neq z p)), (proj2 (Z.eqb_neq z n)), (proj2 (Z.eqb_neq n q)), (proj2 (Z.eqb_neq n h)) by congruence.
    + fold z. intros x Hx Hxz. rewrite Hnext, !(proj2 (Z.eqb_neq x _)); [done|..]; try done; intros ->; [done|by apply (Hdis p)].
    + intros x Hx. rewrite Hprev, !(proj2 (Z.eqb_neq x _)); [done|..]; intros ->.
      * apply Hn2. by right.
      * apply (Hdis h); [by left|by right].
      * by apply NoDup_cons in Hnd2 as [? _].
Qed.

Lemma add_ok st h l1 n l2 : queue st h l1 -> queue st n l2 -> NoDup (h :: n :: l1 ++ l2) ->
  queue (ngx_queue_add h n st) h (l1 ++ l2).
Proof.
  intros [Hc1 Hnd1] [Hc2 Hnd2] Hnd.
  pose proof (chain_last _ _ _ _ Hc1) as Hp. pose proof (chain_last _ _ _ _ Hc2) as Hz. pose proof (chain_head _ _ _ _ Hc2) as Hy.
  set (p := last_of h l1) in *. assert (p ∈ h :: l1) as Hpi by apply last_of_in.
  assert (NoDup (h :: l1 ++ l2)) as Hnd'.
  { rewrite Permutation_swap in Hnd. by apply NoDup_cons in Hnd as [_ ?]. }
  assert (n ∉ h :: l1 /\ n ∉ l2 /\ (forall x, x ∈ h :: l1 -> x ∉ l2)) as (Hn1 & Hn2 & Hdis).
  { split; [|split].
    - rewrite Permutation_swap in Hnd. apply NoDup_cons in Hnd as [Hn _]. clear -Hn. set_solver.
    - by apply NoDup_cons in Hnd2 as [? _].
    - rewrite app_comm_cons in Hnd'. by apply NoDup_app in Hnd' as (_ & ? & _). }
  assert (n <> p /\ n <> h) as [Hnp Hnh] by (split; intros ->; [done|apply Hn1; by left]).
  assert (exists st', ngx_queue_add h n st = st' /\
    (forall x, next st' x = if x =? last_of p l2 then h else if x =? p then head_of n l2 else next st x) /\
    (forall x, prev st' x = if x =? h then last_of p l2 else if x =? head_of n l2 then p else prev st x)) as (st' & -> & Hnext & Hprev).
  { eexists. split; [reflexivity|]. unfold ngx_queue_add. links_eval.
    rewrite Hp, (proj2 (Z.eqb_neq n p) Hnp), Hy, Hz.
    assert ((if n =? head_of n l2 then p else last_of n l2) = last_of p l2) as Hlast.
    { destruct l2 as [|y l2]; [by rewrite Z.eqb_refl|]. rewrite !last_of_cons. cbn. rewrite (proj2 (Z.eqb_neq n y)); [done|].
      intros ->. apply Hn2. by left. }
    split; intros x; links_eval; by rewrite ?Z.eqb_refl, Hlast. }
  rewrite <- (app_nil_r l1) in Hc1. rewrite <- (app_nil_r l2).
  apply (queue_replace st _ h l1 [] l2 []); [by split; [|rewrite app_nil_r]| |by rewrite app_nil_r| |]; fold p.
  - cbn [head_of head default]. destruct l2 as [|y l2].
    + cbn. unfold linked. rewrite Hnext, Hprev, !Z.eqb_refl. done.
    + rewrite last_of_cons in *. cbn [head_of head default] in Hnext, Hprev. assert (last_of y l2 ∈ y :: l2) as Hli by apply last_of_in.
      assert (h ∈ h :: l1 /\ y ∈ y :: l2) as [Hh1 Hy1] by (split; left).
      destruct Hc2 as [_ Hc2]. cbn [chain]. split.
      * unfold linked. rewrite Hnext, Hprev, !Z.eqb_refl, !(proj2 (Z.eqb_neq _ _)); [done|..]; intros Heq; rewrite ?Heq in *; naive_solver.
      * apply NoDup_cons in Hnd2 as [_ Hnd2]. apply (chain_end st st' y l2 n h); [done|done| | |].
        -- unfold linked. by rewrite Hnext, Hprev, !Z.eqb_refl.
        -- intros x Hx Hxl. rewrite Hnext, !(proj2 (Z.eqb_neq x _)); [done|intros ->; naive_solver|done].
        -- intros x Hx. apply NoDup_cons in Hnd2 as [Hyl _]. rewrite Hprev, !(proj2 (Z.eqb_neq x _)); [done|..]; intros ->; [done|].
           apply (Hdis h); [done|by right].
  - intros x Hx Hxp. rewrite app_nil_r in Hx. rewrite Hnext, (proj2 (Z.eqb_neq x p) Hxp), (proj2 (Z.eqb_neq x _)); [done|].
    pose proof (last_of_in p l2) as Hl. intros ->. apply elem_of_cons in Hl as [?|Hl]; [done|]. by apply (Hdis _ Hx).
  - intros x Hx Hxh. rewrite app_nil_r in Hx. cbn in Hxh. rewrite Hprev, (proj2 (Z.eqb_neq x h) Hxh), (proj2 (Z.eqb_neq x _)); [done|].
    pose proof (head_of_in n l2) as Hl. intros ->. apply elem_of_cons in Hl as [Hl|Hl]; [by rewrite Hl in Hx|]. by apply (Hdis _ Hx).
Qed.

(** ** The middle *)

Lemma next_at st h l i x : queue st h l -> l !! i = Some x -> next st x = default h (l !! S i).
Proof.
  intros Hq Hx. assert (l = take i l ++ x :: drop (S i) l) as Hl by (symmetry; by apply take_drop_middle).
  rewrite Hl in Hq. destruct (queue_at _ _ _ _ _ Hq) as (_ & -> & _). unfold head_of. f_equal.
  by rewrite head_lookup, lookup_drop, Nat.add_0_r.
Qed.

Lemma last_test st h l i x : queue st h l -> l !! i = Some x -> (x =? ngx_queue_last h st) = (S i =? length l)%nat.
Proof.
  intros Hq Hx. unfold ngx_queue_last. rewrite (chain_last _ _ _ _ (proj1 Hq)). unfold last_of. rewrite last_lookup.
  pose proof (lookup_lt_Some _ _ _ Hx) as Hi. destruct (lookup_lt_is_Some_2 l (pred (length l))) as [y Hy]; [lia|].
  rewrite Hy. cbn [default from_option]. destruct Hq as [_ Hnd]. apply NoDup_cons in Hnd as [_ Hnd]. apply eq_iff_eq_true.
  rewrite Z.eqb_eq, Nat.eqb_eq. unfold id. split.
  - intros ->. pose proof (NoDup_lookup _ _ _ _ Hnd Hx Hy). lia.
  - intros Heq. replace (pred (length l)) with i in Hy by lia. congruence.
Qed.

Lemma middle_loop_ok fuel st h l k m n : queue st h l -> l !! k = Some m -> l !! (2 * k)%nat = Some n ->
  (2 * k + 1 < length l)%nat -> (length l < 2 * k + 2 * fuel)%nat ->
  middle_loop fuel h m n st = l !! (length l / 2)%nat.
Proof.
  intros Hq. revert k m n. induction fuel as [|fuel IH]; intros k m n Hm Hn Hk Hf; [lia|]. cbn [middle_loop].
  destruct (lookup_lt_is_Some_2 l (S k)) as [m' Hm']; [lia|]. destruct (lookup_lt_is_Some_2 l (S (2 * k))) as [n1 Hn1]; [lia|].
  rewrite (next_at _ _ _ _ _ Hq Hm), Hm', (next_at _ _ _ _ _ Hq Hn), Hn1. cbn [default from_option]. unfold id.
  rewrite (last_test _ _ _ _ _ Hq Hn1). destruct (Nat.eqb_spec (S (S (2 * k))) (length l)) as [Hl|Hl].
  - rewrite <- Hm'. f_equal. rewrite <- Hl. replace (S (S (2 * k))) with (S k * 2)%nat by lia. by rewrite Nat.div_mul.
  - destruct (lookup_lt_is_Some_2 l (S (S (2 * k)))) as [n2 Hn2]; [lia|].
    rewrite (next_at _ _ _ _ _ Hq Hn1), Hn2. cbn [default from_option]. unfold id.
    rewrite (last_test _ _ _ _ _ Hq Hn2). destruct (Nat.eqb_spec (S (S (S (2 * k)))) (length l)) as [Hl2|Hl2].
    + rewrite <- Hm'. f_equal. rewrite <- Hl2. replace (S (S (S (2 * k)))) with (1 + S k * 2)%nat by lia.
      by rewrite Nat.div_add.
    + apply (IH (S k)); [done|by replace (2 * S k)%nat with (S (S (2 * k))) by lia|lia|lia].
Qed.

(** The middle of a queue, the first element of the second half if the length is even. *)
Lemma middle_ok fuel st h l : queue st h l -> l <> [] -> (length l <= fuel)%nat ->
  ngx_queue_middle fuel h st = l !! (length l / 2)%nat.
Proof.
  intros Hq Hl Hf. unfold ngx_queue_middle, ngx_queue_head. rewrite (chain_head _ _ _ _ (proj1 Hq)).
  destruct l as [|x l]; [done|]. cbn [head_of head default from_option]. unfold id.
  rewrite (last_test _ _ _ 0 _ Hq eq_refl). destruct (Nat.eqb_spec 1 (length (x :: l))) as [Heq|Hne].
  - by rewrite <- Heq.
  - apply (middle_loop_ok _ _ _ _ 0); [done|done|done|cbn in *; lia|cbn in *; lia].
Qed.

(** ** Sorting *)

Section Sorting.
Context (cmp : Z -> Z -> Z).

(** From the back of a list, the elements that [q] passes, and those that are left. *)
Fixpoint pass (q : Z) (rl : list Z) : list Z * list Z :=
  match rl with
  | [] => ([], [])
  | p :: rl' => if cmp p q <=? 0 then ([], rl) else let (big, small) := pass q rl' in (p :: big, small)
  end.

(** Insertion into a list that is held backwards. *)
Definition back (q : Z) (rl : list Z) : list Z := let (big, small) := pass q rl in big ++ q :: small.

(** Insertion sort, from the front. *)
Definition isort (l : list Z) : list Z := rev (foldl (fun rl q => back q rl) [] l).

Lemma pass_app q rl : (pass q rl).1 ++ (pass q rl).2 = rl.
Proof.
  induction rl as [|p rl IH]; cbn; [done|]. case_match; [done|]. destruct (pass q rl) as [big small]. cbn in *. by rewrite IH.
Qed.

Lemma sort_back_ok fuel st h p rl rest q : queue st h (rev (p :: rl) ++ rest) -> (length rl < fuel)%nat ->
  sort_back cmp fuel h p q st = Some (last_of h (rev (pass q (p :: rl)).2)).
Proof.
  revert p rl rest. induction fuel as [|fuel IH]; intros p rl rest Hq Hf; [lia|]. cbn [sort_back pass].
  destruct (cmp p q <=? 0); [cbn; unfold last_of; by rewrite last_snoc|].
  cbn [rev] in Hq. rewrite <- app_assoc in Hq. cbn [app] in Hq. destruct (queue_at _ _ _ _ _ Hq) as (-> & _).
  destruct rl as [|p' rl].
  - cbn. by rewrite Z.eqb_refl.
  - assert (last_of h (rev (p' :: rl)) = p') as -> by (cbn; unfold last_of; by rewrite last_snoc).
    rewrite (proj2 (Z.eqb_neq p' h)); cbn [negb].
    + rewrite (IH _ _ _ Hq) by (cbn in Hf; lia). by destruct (pass q (p' :: rl)).
    + destruct Hq as [_ Hnd]. apply NoDup_cons in Hnd as [Hh _]. intros ->. apply Hh, elem_of_app. left. cbn.
      apply elem_of_app. right. by left.
Qed.

Lemma queue_sort_loop_ok turns fuel st h rl rest : queue st h (rev rl ++ rest) -> rl <> [] -> (length (rl ++ rest) < turns)%nat ->
  (length rest < fuel)%nat -> exists st', sort_loop cmp turns fuel h (head_of h rest) st = Some st' /\
    queue st' h (rev (foldl (fun rl q => back q rl) rl rest)).
Proof.
  revert st rl rest. induction fuel as [|fuel IH]; intros st rl rest Hq Hrl Hf Hf2; [lia|]. cbn [sort_loop].
  destruct rest as [|q rest]; [rewrite app_nil_r in Hq; cbn; rewrite Z.eqb_refl; by exists st|].
  cbn [head_of head default from_option foldl]. unfold id. destruct (queue_at _ _ _ _ _ Hq) as (Hp & Hn & Hqh & Hq1 & Hq2 & _).
  rewrite (proj2 (Z.eqb_neq q h) Hqh), Hp, Hn. cbn [negb]. apply remove_ok in Hq.
  set (st1 := ngx_queue_remove q st) in *. clearbody st1. rewrite length_app in Hf. cbn in Hf.
  destruct rl as [|p rl]; [done|]. assert (last_of h (rev (p :: rl)) = p) as -> by (cbn; unfold last_of; by rewrite last_snoc).
  rewrite (sort_back_ok turns _ _ _ _ _ q Hq) by (cbn in Hf; lia). cbn [mbind option_bind].
  pose proof (pass_app q (p :: rl)) as Hpass. set (big := (pass q (p :: rl)).1) in *. set (small := (pass q (p :: rl)).2) in *.
  assert (back q (p :: rl) = big ++ q :: small) as Hback by (unfold back, big, small; by destruct (pass q (p :: rl))).
  clearbody big small. rewrite <- Hpass, rev_app_distr, <- app_assoc in Hq.
  apply (insert_after_ok _ _ _ _ q) in Hq.
  - destruct (IH (ngx_queue_insert_head (last_of h (rev small)) q st1) (back q (p :: rl)) rest) as (st' & Hrun & Hq'); [| | |cbn in Hf2; lia|by exists st'].
    + rewrite Hback, rev_app_distr. cbn [rev]. rewrite <- !app_assoc. exact Hq.
    + rewrite Hback. by destruct big.
    + apply (f_equal length) in Hpass. rewrite length_app in Hpass. rewrite Hback, !length_app. cbn [length] in *. lia.
  - intros Hin. apply elem_of_cons in Hin as [?|Hin]; [done|]. rewrite app_assoc, <- rev_app_distr, Hpass in Hin.
    apply elem_of_app in Hin as [?|?]; done.
Qed.

(** The sort of a queue is insertion sort on its elements. *)
Lemma queue_sort_ok fuel st h l : queue st h l -> (length l < fuel)%nat ->
  exists st', ngx_queue_sort cmp fuel h st = Some st' /\ queue st' h (isort l).
Proof.
  intros Hq Hf. unfold ngx_queue_sort, ngx_queue_head, ngx_queue_last.
  rewrite (chain_head _ _ _ _ (proj1 Hq)), (chain_last _ _ _ _ (proj1 Hq)).
  destruct l as [|x l]; [cbn; rewrite Z.eqb_refl; by exists st|]. cbn [head_of head default from_option]. unfold id.
  assert (next st x = head_of h l) as Hn by (destruct (queue_at st h [] x l Hq) as (_ & ? & _); done).
  rewrite last_of_cons. destruct l as [|y l]; [cbn; rewrite Z.eqb_refl; by exists st|].
  rewrite (proj2 (Z.eqb_neq x _)), Hn.
  - destruct (queue_sort_loop_ok fuel fuel st h [x] (y :: l) Hq) as (st' & ? & ?); [done|done|cbn in *; lia|]. by exists st'.
  - rewrite last_of_cons. destruct Hq as [_ Hnd]. apply NoDup_cons in Hnd as [_ Hnd]. apply NoDup_cons in Hnd as [Hx _].
    intros Heq. apply Hx. rewrite Heq. apply last_of_in.
Qed.

(** ** What insertion sort gives *)

Lemma back_perm q rl : back q rl ≡ₚ q :: rl.
Proof.
  unfold back. pose proof (pass_app q rl) as H. destruct (pass q rl) as [big small]. cbn in H.
  rewrite <- Permutation_middle. by rewrite H.
Qed.

Lemma isort_perm l : isort l ≡ₚ l.
Proof.
  unfold isort. rewrite <- Permutation_rev.
  assert (forall acc, foldl (fun rl q => back q rl) acc l ≡ₚ l ++ acc) as H; [|by rewrite H, app_nil_r].
  induction l as [|q l IH]; intros acc; cbn; [done|]. rewrite IH, back_perm. by rewrite Permutation_middle.
Qed.

(** A comparison that is a total preorder. *)
Hypothesis cmp_total : forall x y, cmp x y <= 0 \/ cmp y x <= 0.
Hypothesis cmp_trans : forall x y z, cmp x y <= 0 -> cmp y z <= 0 -> cmp x z <= 0.

Lemma pass_big q rl : Forall (fun p => 0 < cmp p q) (pass q rl).1.
Proof.
  induction rl as [|p rl IH]; cbn; [constructor|]. destruct (Z.leb_spec (cmp p q) 0); [constructor|].
  destruct (pass q rl). by constructor.
Qed.

Definition falling : list Z -> Prop := StronglySorted (fun x y => cmp y x <= 0).

Lemma back_falling q rl : falling rl -> falling (back q rl).
Proof.
  unfold falling, back. intros Hs. induction Hs as [|p rl Hs IH Hp]; cbn; [by repeat constructor|].
  destruct (Z.leb_spec (cmp p q) 0) as [Hle|Hgt]; cbn.
  - constructor; [by constructor|]. constructor; [done|]. eapply Forall_impl; [exact Hp|]. cbn. intros y Hy. by eapply cmp_trans.
  - pose proof (back_perm q rl) as Hperm. unfold back in Hperm. destruct (pass q rl) as [big small]. cbn. constructor; [exact IH|].
    rewrite Hperm. constructor; [|done]. destruct (cmp_total q p); [done|lia].
Qed.

Lemma rev_sorted l : falling l -> StronglySorted (fun x y => cmp x y <= 0) (rev l).
Proof.
  induction 1 as [|x l Hs IH Hx]; cbn; [constructor|].
  assert (forall l', StronglySorted (fun x y => cmp x y <= 0) l' -> Forall (fun y => cmp y x <= 0) l' ->
    StronglySorted (fun x y => cmp x y <= 0) (l' ++ [x])) as Happ.
  { intros l'. induction 1 as [|y l' Hs' IH' Hy]; cbn; [by repeat constructor|]. intros [Hyx Hl]%Forall_cons.
    constructor; [by apply IH'|]. apply Forall_app. split; [done|by repeat constructor]. }
  apply Happ; [done|]. by rewrite <- Permutation_rev.
Qed.

Lemma isort_sorted l : StronglySorted (fun x y => cmp x y <= 0) (isort l).
Proof.
  unfold isort. apply rev_sorted.
  assert (forall acc, falling acc -> falling (foldl (fun rl q => back q rl) acc l)) as H; [|apply H; constructor].
  induction l as [|q l IH]; intros acc Ha; cbn; [done|]. apply IH. by apply back_falling.
Qed.

(** Elements that compare as equal to [x]. *)
Definition same_as (x y : Z) : Prop := cmp x y <= 0 /\ cmp y x <= 0.
#[local] Instance same_as_dec x y : Decision (same_as x y).
Proof. unfold same_as. apply _. Defined.

Lemma back_stable x q rl : filter (same_as x) (back q rl) = filter (same_as x) (q :: rl).
Proof.
  unfold back. pose proof (pass_app q rl) as Happ. pose proof (pass_big q rl) as Hbig.
  destruct (pass q rl) as [big small]. cbn in Happ, Hbig. subst rl.
  destruct (decide (same_as x q)) as [Hq|Hq].
  - rewrite (filter_cons_True _ q) by done. rewrite !filter_app, (filter_cons_True _ q) by done.
    assert (filter (same_as x) big = []) as ->; [|done]. clear -Hbig Hq cmp_trans.
    induction Hbig as [|p big Hp Hbig IH]; [done|]. rewrite filter_cons_False; [exact IH|]. intros [? ?].
    assert (cmp p q <= 0) by (apply (cmp_trans p x q); [done|by destruct Hq]). lia.
  - rewrite (filter_cons_False _ q) by done. rewrite !filter_app, (filter_cons_False _ q) by done. done.
Qed.

Lemma isort_stable x l : filter (same_as x) (isort l) = filter (same_as x) l.
Proof.
  assert (forall l, filter (same_as x) (rev l) = rev (filter (same_as x) l)) as Hrev.
  { clear. induction l as [|y l IH]; [done|]. cbn [rev]. rewrite filter_app, IH, !filter_cons, filter_nil.
    case_decide; [done|]. by rewrite app_nil_r. }
  unfold isort. rewrite Hrev.
  assert (forall acc, filter (same_as x) (foldl (fun rl q => back q rl) acc l) = rev (filter (same_as x) l) ++ filter (same_as x) acc) as H.
  { induction l as [|q l IH]; intros acc; cbn [foldl]; [done|]. rewrite IH, back_stable, !filter_cons.
    case_decide; [|done]. cbn [rev]. by rewrite <- app_assoc. }
  rewrite H, filter_nil, app_nil_r. apply rev_involutive.
Qed.
End Sorting.

(** ** The theorems *)

(** C21. The sort of a queue ends with a permutation of its elements in the order
    of the comparison, and is stable. *)
Theorem queue_sort_stable cmp fuel st h l :
  (forall x y, cmp x y <= 0 \/ cmp y x <= 0) -> (forall x y z, cmp x y <= 0 -> cmp y z <= 0 -> cmp x z <= 0) ->
  queue st h l -> (length l < fuel)%nat ->
  exists st' l', ngx_queue_sort cmp fuel h st = Some st' /\ queue st' h l' /\ l' ≡ₚ l /\
    StronglySorted (fun x y => cmp x y <= 0) l' /\
    forall x, filter (fun y => cmp x y <= 0 /\ cmp y x <= 0) l' = filter (fun y => cmp x y <= 0 /\ cmp y x <= 0) l.
Proof.
  intros Htot Htrans Hq Hf. destruct (queue_sort_ok cmp _ _ _ _ Hq Hf) as (st' & ? & ?).
  exists st', (isort cmp l). split_and!; [done|done|apply isort_perm|by apply isort_sorted|].
  intros x. exact (isort_stable cmp Htrans x l).
Qed.

(** Six elements by their tens. *)
Definition sample_queue : links := fold_right (ngx_queue_insert_head 1) (ngx_queue_init 1 (fun _ => Link NULL NULL)) [31; 12; 25; 11; 21; 10].

Lemma queue_sort_stable_witness :
  exists st' l', ngx_queue_sort (fun x y => x / 10 - y / 10) 7 1 sample_queue = Some st' /\ queue st' 1 l' /\ l' ≡ₚ [31; 12; 25; 11; 21; 10] /\
    StronglySorted (fun x y => x / 10 - y / 10 <= 0) l' /\
    forall x, filter (fun y => x / 10 - y / 10 <= 0 /\ y / 10 - x / 10 <= 0) l' =
      filter (fun y => x / 10 - y / 10 <= 0 /\ y / 10 - x / 10 <= 0) [31; 12; 25; 11; 21; 10].
Proof.
  apply (queue_sort_stable (fun x y => x / 10 - y / 10)); [lia|lia| |cbn; lia].
  repeat apply insert_head_ok; [apply queue_init_ok|by_decide..].
Defined.
