(* ===== verification/NgxCrc32.v ===== *)
(** * NgxCrc32: cyclic redundancy checks

    core/ngx_crc32.c and ngx_crc32.h: the check sum with the table of 16
    entries, with that of 256, and in steps.  All of them divide by the
    polynomial bit by bit ([crc_bits]). *)

From S2P Require Import Prelude.

(** ** The tables *)

(* core/ngx_crc32.c:26-31 ngx_crc32_table16 *)
Definition ngx_crc32_table16 : list Z := [
  0x00000000; 0x1db71064; 0x3b6e20c8; 0x26d930ac;
  0x76dc4190; 0x6b6b51f4; 0x4db26158; 0x5005713c;
  0xedb88320; 0xf00f9344; 0xd6d6a3e8; 0xcb61b38c;
  0x9b64c2b0; 0x86d3d2d4; 0xa00ae278; 0xbdbdf21c
].

(* core/ngx_crc32.c:34-99 ngx_crc32_table256 *)
Definition ngx_crc32_table256 : list Z := [
  0x00000000; 0x77073096; 0xee0e612c; 0x990951ba;
  0x076dc419; 0x706af48f; 0xe963a535; 0x9e6495a3;
  0x0edb8832; 0x79dcb8a4; 0xe0d5e91e; 0x97d2d988;
  0x09b64c2b; 0x7eb17cbd; 0xe7b82d07; 0x90bf1d91;
  0x1db71064; 0x6ab020f2; 0xf3b97148; 0x84be41de;
  0x1adad47d; 0x6ddde4eb; 0xf4d4b551; 0x83d385c7;
  0x136c9856; 0x646ba8c0; 0xfd62f97a; 0x8a65c9ec;
  0x14015c4f; 0x63066cd9; 0xfa0f3d63; 0x8d080df5;
  0x3b6e20c8; 0x4c69105e; 0xd56041e4; 0xa2677172;
  0x3c03e4d1; 0x4b04d447; 0xd20d85fd; 0xa50ab56b;
  0x35b5a8fa; 0x42b2986c; 0xdbbbc9d6; 0xacbcf940;
  0x32d86ce3; 0x45df5c75; 0xdcd60dcf; 0xabd13d59;
  0x26d930ac; 0x51de003a; 0xc8d75180; 0xbfd06116;
  0x21b4f4b5; 0x56b3c423; 0xcfba9599; 0xb8bda50f;
  0x2802b89e; 0x5f058808; 0xc60cd9b2; 0xb10be924;
  0x2f6f7c87; 0x58684c11; 0xc1611dab; 0xb6662d3d;
  0x76dc4190; 0x01db7106; 0x98d220bc; 0xefd5102a;
  0x71b18589; 0x06b6b51f; 0x9fbfe4a5; 0xe8b8d433;
  0x7807c9a2; 0x0f00f934; 0x9609a88e; 0xe10e9818;
  0x7f6a0dbb; 0x086d3d2d; 0x91646c97; 0xe6635c01;
  0x6b6b51f4; 0x1c6c6162; 0x856530d8; 0xf262004e;
  0x6c0695ed; 0x1b01a57b; 0x8208f4c1; 0xf50fc457;
  0x65b0d9c6; 0x12b7e950; 0x8bbeb8ea; 0xfcb9887c;
  0x62dd1ddf; 0x15da2d49; 0x8cd37cf3; 0xfbd44c65;
  0x4db26158; 0x3ab551ce; 0xa3bc0074; 0xd4bb30e2;
  0x4adfa541; 0x3dd895d7; 0xa4d1c46d; 0xd3d6f4fb;
  0x4369e96a; 0x346ed9fc; 0xad678846; 0xda60b8d0;
  0x44042d73; 0x33031de5; 0xaa0a4c5f; 0xdd0d7cc9;
  0x5005713c; 0x270241aa; 0xbe0b1010; 0xc90c2086;
  0x5768b525; 0x206f85b3; 0xb966d409; 0xce61e49f;
  0x5edef90e; 0x29d9c998; 0xb0d09822; 0xc7d7a8b4;
  0x59b33d17; 0x2eb40d81; 0xb7bd5c3b; 0xc0ba6cad;
  0xedb88320; 0x9abfb3b6; 0x03b6e20c; 0x74b1d29a;
  0xead54739; 0x9dd277af; 0x04db2615; 0x73dc1683;
  0xe3630b12; 0x94643b84; 0x0d6d6a3e; 0x7a6a5aa8;
  0xe40ecf0b; 0x9309ff9d; 0x0a00ae27; 0x7d079eb1;
  0xf00f9344; 0x8708a3d2; 0x1e01f268; 0x6906c2fe;
  0xf762575d; 0x806567cb; 0x196c3671; 0x6e6b06e7;
  0xfed41b76; 0x89d32be0; 0x10da7a5a; 0x67dd4acc;
  0xf9b9df6f; 0x8ebeeff9; 0x17b7be43; 0x60b08ed5;
  0xd6d6a3e8; 0xa1d1937e; 0x38d8c2c4; 0x4fdff252;
  0xd1bb67f1; 0xa6bc5767; 0x3fb506dd; 0x48b2364b;
  0xd80d2bda; 0xaf0a1b4c; 0x36034af6; 0x41047a60;
  0xdf60efc3; 0xa867df55; 0x316e8eef; 0x4669be79;
  0xcb61b38c; 0xbc66831a; 0x256fd2a0; 0x5268e236;
  0xcc0c7795; 0xbb0b4703; 0x220216b9; 0x5505262f;
  0xc5ba3bbe; 0xb2bd0b28; 0x2bb45a92; 0x5cb36a04;
  0xc2d7ffa7; 0xb5d0cf31; 0x2cd99e8b; 0x5bdeae1d;
  0x9b64c2b0; 0xec63f226; 0x756aa39c; 0x026d930a;
  0x9c0906a9; 0xeb0e363f; 0x72076785; 0x05005713;
  0x95bf4a82; 0xe2b87a14; 0x7bb12bae; 0x0cb61b38;
  0x92d28e9b; 0xe5d5be0d; 0x7cdcefb7; 0x0bdbdf21;
  0x86d3d2d4; 0xf1d4e242; 0x68ddb3f8; 0x1fda836e;
  0x81be16cd; 0xf6b9265b; 0x6fb077e1; 0x18b74777;
  0x88085ae6; 0xff0f6a70; 0x66063bca; 0x11010b5c;
  0x8f659eff; 0xf862ae69; 0x616bffd3; 0x166ccf45;
  0xa00ae278; 0xd70dd2ee; 0x4e048354; 0x3903b3c2;
  0xa7672661; 0xd06016f7; 0x4969474d; 0x3e6e77db;
  0xaed16a4a; 0xd9d65adc; 0x40df0b66; 0x37d83bf0;
  0xa9bcae53; 0xdebb9ec5; 0x47b2cf7f; 0x30b5ffe9;
  0xbdbdf21c; 0xcabac28a; 0x53b39330; 0x24b4a3a6;
  0xbad03605; 0xcdd70693; 0x54de5729; 0x23d967bf;
  0xb3667a2e; 0xc4614ab8; 0x5d681b02; 0x2a6f2b94;
  0xb40bbe37; 0xc30c8ea1; 0x5a05df1b; 0x2d02ef8d
].

Definition at16 (i : Z) : Z := nth (Z.to_nat i) ngx_crc32_table16 0.
Definition at256 (i : Z) : Z := nth (Z.to_nat i) ngx_crc32_table256 0.

(** ** The functions *)

(* core/ngx_crc32.h:28-32 ngx_crc32_short: while *)
Definition short_step (crc c : Z) : Z :=
  let crc := Z.lxor (at16 (Z.land (Z.lxor crc (Z.land c 0xf)) 0xf)) (Z.shiftr crc 4) in
  Z.lxor (at16 (Z.land (Z.lxor crc (Z.shiftr c 4)) 0xf)) (Z.shiftr crc 4).

(* core/ngx_crc32.h:20-35 ngx_crc32_short *)
Definition ngx_crc32_short (p : list Z) : Z := Z.lxor (foldl short_step 0xffffffff p) 0xffffffff.

(* core/ngx_crc32.h:45-47 ngx_crc32_long: while *)
Definition long_step (crc c : Z) : Z :=
  Z.lxor (at256 (Z.land (Z.lxor crc c) 0xff)) (Z.shiftr crc 8).

(* core/ngx_crc32.h:38-50 ngx_crc32_long *)
Definition ngx_crc32_long (p : list Z) : Z := Z.lxor (foldl long_step 0xffffffff p) 0xffffffff.

(* core/ngx_crc32.h:53-54 ngx_crc32_init *)
Definition ngx_crc32_init : Z := 0xffffffff.

(* core/ngx_crc32.h:57-69 ngx_crc32_update *)
Definition ngx_crc32_update (crc : Z) (p : list Z) : Z := foldl long_step crc p.

(* core/ngx_crc32.h:72-73 ngx_crc32_final *)
Definition ngx_crc32_final (crc : Z) : Z := Z.lxor crc 0xffffffff.

(** ** The reference: one bit at a time *)

Definition POLY : Z := 0xedb88320.

Definition bit_step (x : Z) : Z := Z.lxor (if Z.testbit x 0 then POLY else 0) (Z.shiftr x 1).

Fixpoint bit_steps (n : nat) (x : Z) : Z :=
  match n with O => x | S n => bit_steps n (bit_step x) end.

Definition crc_bits (p : list Z) : Z :=
  Z.lxor (foldl (fun crc c => bit_steps 8 (Z.lxor crc c)) 0xffffffff p) 0xffffffff.

(** The step is linear. *)
Lemma bit_step_lxor x y : bit_step (Z.lxor x y) = Z.lxor (bit_step x) (bit_step y).
Proof.
  unfold bit_step. rewrite Z.lxor_spec, Z.shiftr_lxor. apply Z.bits_inj'. intros n Hn. rewrite !Z.lxor_spec.
  destruct (Z.testbit x 0), (Z.testbit y 0); cbn [xorb]; rewrite ?Z.bits_0;
    destruct (Z.testbit POLY n), (Z.testbit (Z.shiftr x 1) n), (Z.testbit (Z.shiftr y 1) n); done.
Qed.

Lemma bit_steps_lxor n x y : bit_steps n (Z.lxor x y) = Z.lxor (bit_steps n x) (bit_steps n y).
Proof. revert x y. induction n as [|n IH]; intros x y; cbn; [done|]. by rewrite bit_step_lxor, IH. Qed.

(** Low zeros are shifted out. *)
Lemma bit_steps_shift n x : bit_steps n (Z.shiftl x (Z.of_nat n)) = x.
Proof.
  induction n as [|n IH]; [by rewrite Z.shiftl_0_r|]. cbn [bit_steps]. rewrite <- IH at 2. f_equal.
  unfold bit_step. rewrite Z.shiftl_spec_low by lia. rewrite Z.lxor_0_l, <- Z.shiftl_opp_r, Z.shiftl_shiftl by lia.
  f_equal. lia.
Qed.

(** [n] steps: the low bits through the table, the others shifted. *)
Lemma bit_steps_split n x : 0 <= x ->
  bit_steps n x = Z.lxor (bit_steps n (Z.land x (Z.ones (Z.of_nat n)))) (Z.shiftr x (Z.of_nat n)).
Proof.
  intros Hx. assert (x = Z.lxor (Z.land x (Z.ones (Z.of_nat n))) (Z.shiftl (Z.shiftr x (Z.of_nat n)) (Z.of_nat n))) as Heq.
  { apply Z.bits_inj'. intros i Hi. rewrite Z.lxor_spec, Z.land_spec. destruct (Z.lt_ge_cases i (Z.of_nat n)) as [Hlt|Hge].
    - rewrite Z.ones_spec_low, Z.shiftl_spec_low by lia. by rewrite andb_true_r, xorb_false_r.
    - rewrite Z.ones_spec_high, Z.shiftl_spec, Z.shiftr_spec by lia. rewrite andb_false_r, xorb_false_l. f_equal. lia. }
  rewrite Heq at 1. by rewrite bit_steps_lxor, bit_steps_shift.
Qed.

Lemma table16_ok i : 0 <= i < 16 -> at16 i = bit_steps 4 i.
Proof.
  intros Hi. assert (forallb (fun n => at16 (Z.of_nat n) =? bit_steps 4 (Z.of_nat n)) (seq 0 16) = true) as H by (vm_compute; done).
  rewrite forallb_forall in H. specialize (H (Z.to_nat i)). rewrite Z2Nat.id in H by lia. apply Z.eqb_eq, H. apply in_seq. lia.
Qed.

Lemma table256_ok i : 0 <= i < 256 -> at256 i = bit_steps 8 i.
Proof.
  intros Hi. assert (forallb (fun n => at256 (Z.of_nat n) =? bit_steps 8 (Z.of_nat n)) (seq 0 256) = true) as H by (vm_compute; done).
  rewrite forallb_forall in H. specialize (H (Z.to_nat i)). rewrite Z2Nat.id in H by lia. apply Z.eqb_eq, H. apply in_seq. lia.
Qed.

Lemma land_ones_range x n : 0 <= n -> 0 <= Z.land x (Z.ones n) < 2 ^ n.
Proof. intros Hn. rewrite Z.land_ones by lia. apply Z.mod_pos_bound. lia. Qed.

Lemma bit_steps_nonneg n x : 0 <= x -> 0 <= bit_steps n x.
Proof.
  revert x. induction n as [|n IH]; intros x Hx; cbn; [done|]. apply IH. unfold bit_step.
  apply Z.lxor_nonneg. split; intros _; [by apply Z.shiftr_nonneg|]. by destruct (Z.testbit x 0).
Qed.

Lemma nibble_step x : 0 <= x -> Z.lxor (at16 (Z.land x 0xf)) (Z.shiftr x 4) = bit_steps 4 x.
Proof.
  intros Hx. rewrite (bit_steps_split 4 x Hx). change 0xf with (Z.ones 4). f_equal. apply table16_ok.
  exact (land_ones_range x 4 ltac:(lia)).
Qed.

Lemma long_step_ok crc c : 0 <= crc -> is_byte c -> long_step crc c = bit_steps 8 (Z.lxor crc c).
Proof.
  intros Hcrc [Hc1 Hc2]. unfold long_step. assert (0 <= Z.lxor crc c) as Hx by (apply Z.lxor_nonneg; lia).
  rewrite (bit_steps_split 8 _ Hx). change 0xff with (Z.ones 8). f_equal.
  - apply table256_ok. exact (land_ones_range (Z.lxor crc c) 8 ltac:(lia)).
  - rewrite Z.shiftr_lxor. rewrite (Z.shiftr_div_pow2 c) by lia. rewrite (Z.div_small c) by lia. by rewrite Z.lxor_0_r.
Qed.

Lemma bit_steps_add n m x : bit_steps (n + m) x = bit_steps m (bit_steps n x).
Proof. revert x. induction n as [|n IH]; intros x; cbn; [done|]. apply IH. Qed.

Lemma short_step_ok crc c : 0 <= crc -> is_byte c -> short_step crc c = bit_steps 8 (Z.lxor crc c).
Proof.
  intros Hcrc [Hc1 Hc2]. unfold short_step.
  assert (0 <= Z.lxor crc c /\ 0 <= Z.shiftr c 4) as [Hx Hs] by (split; [apply Z.lxor_nonneg; lia|by apply Z.shiftr_nonneg]).
  (* the first half, without the high bits of the byte *)
  assert (Z.lxor (at16 (Z.land (Z.lxor crc (Z.land c 0xf)) 0xf)) (Z.shiftr crc 4) = Z.lxor (bit_steps 4 (Z.lxor crc c)) (Z.shiftr c 4)) as ->.
  { rewrite <- (nibble_step _ Hx), Z.shiftr_lxor, Z.lxor_assoc, Z.lxor_assoc, Z.lxor_nilpotent, Z.lxor_0_r. f_equal. f_equal.
    apply Z.bits_inj'. intros i Hi. rewrite !Z.land_spec, !Z.lxor_spec, Z.land_spec. destruct (Z.testbit 15 i); [|by rewrite !andb_false_r].
    by rewrite !andb_true_r. }
  pose proof (bit_steps_nonneg 4 _ Hx) as Hb. set (y := bit_steps 4 (Z.lxor crc c)) in *.
  rewrite Z.lxor_assoc, Z.lxor_nilpotent, Z.lxor_0_r, Z.shiftr_lxor.
  assert (Z.shiftr (Z.shiftr c 4) 4 = 0) as ->.
  { rewrite Z.shiftr_shiftr by lia. rewrite Z.shiftr_div_pow2 by lia. apply Z.div_small. lia. }
  rewrite Z.lxor_0_r, (nibble_step y Hb). unfold y. by rewrite <- bit_steps_add.
Qed.

(** A step that is the bitwise one, over bytes. *)
Lemma fold_ok (step : Z -> Z -> Z) crc p :
  (forall crc c, 0 <= crc -> is_byte c -> step crc c = bit_steps 8 (Z.lxor crc c)) -> 0 <= crc -> Forall is_byte p ->
  foldl step crc p = foldl (fun crc c => bit_steps 8 (Z.lxor crc c)) crc p.
Proof.
  intros Hstep Hcrc Hp. revert crc Hcrc. induction Hp as [|c p Hc Hp IH]; intros crc Hcrc; cbn [foldl]; [done|].
  rewrite Hstep by done. apply IH. apply bit_steps_nonneg, Z.lxor_nonneg. unfold is_byte in Hc. lia.
Qed.

(** C22. The two tables give the same check sum, that of the bitwise division, and
    so does a message in two pieces. *)
Theorem crc32_correct p q : Forall is_byte p -> Forall is_byte q ->
  ngx_crc32_short p = crc_bits p /\ ngx_crc32_long p = crc_bits p /\
  ngx_crc32_final (ngx_crc32_update (ngx_crc32_update ngx_crc32_init p) q) = crc_bits (p ++ q).
Proof.
  intros Hp Hq. unfold ngx_crc32_short, ngx_crc32_long, ngx_crc32_final, ngx_crc32_update, crc_bits. split; [|split].
  - f_equal. by apply fold_ok; [apply short_step_ok| |].
  - f_equal. by apply fold_ok; [apply long_step_ok| |].
  - rewrite <- foldl_app. f_equal. apply fold_ok; [apply long_step_ok|done|by apply Forall_app].
Qed.

Lemma crc32_correct_witness :
  ngx_crc32_short (bytes "123456789") = 0xcbf43926 /\ ngx_crc32_long (bytes "123456789") = 0xcbf43926 /\
  ngx_crc32_final (ngx_crc32_update (ngx_crc32_update ngx_crc32_init (bytes "123456789")) (bytes "0")) = 0x261daee5.
Proof.
  apply (crc32_correct (bytes "123456789") (bytes "0")); by_decide.
Defined.
