(* ===== verification/NgxSlab.v ===== *)
(** * NgxSlab: the allocator of shared memory

    core/ngx_slab.c: blocks from a pool that is cut into pages.  A page is free,
    part of a block of whole pages, or cut into chunks of one size, whose use a
    bit map records: in the first chunks of the page for small ones, in the
    descriptor of the page for others.  Descriptors and list heads are a memory
    of records, keyed by address; the words of bit maps are another one. *)

From S2P Require Import Prelude NgxSprintf.

(** ** Data *)

(** The values for pages of 4096 bytes and pointers of 8. *)
Definition ngx_pagesize : Z := 4096.
Definition ngx_pagesize_shift : Z := 12.
Definition sizeof_uintptr_t : Z := 8.
Definition sizeof_ngx_slab_page_t : Z := 24.
Definition sizeof_ngx_slab_stat_t : Z := 32.

(* core/ngx_slab.c:11-11 NGX_SLAB_PAGE_MASK *)
Definition NGX_SLAB_PAGE_MASK : Z := 3.
(* core/ngx_slab.c:12-12 NGX_SLAB_PAGE *)
Definition NGX_SLAB_PAGE : Z := 0.
(* core/ngx_slab.c:13-13 NGX_SLAB_BIG *)
Definition NGX_SLAB_BIG : Z := 1.
(* core/ngx_slab.c:14-14 NGX_SLAB_EXACT *)
Definition NGX_SLAB_EXACT : Z := 2.
(* core/ngx_slab.c:15-15 NGX_SLAB_SMALL *)
Definition NGX_SLAB_SMALL : Z := 3.
(* core/ngx_slab.c:31-31 NGX_SLAB_PAGE_FREE *)
Definition NGX_SLAB_PAGE_FREE : Z := 0.
(* core/ngx_slab.c:32-32 NGX_SLAB_PAGE_BUSY *)
Definition NGX_SLAB_PAGE_BUSY : Z := 0xffffffffffffffff.
(* core/ngx_slab.c:33-33 NGX_SLAB_PAGE_START *)
Definition NGX_SLAB_PAGE_START : Z := 0x8000000000000000.
(* core/ngx_slab.c:35-35 NGX_SLAB_SHIFT_MASK *)
Definition NGX_SLAB_SHIFT_MASK : Z := 0xf.
(* core/ngx_slab.c:36-36 NGX_SLAB_MAP_MASK *)
Definition NGX_SLAB_MAP_MASK : Z := 0xffffffff00000000.
(* core/ngx_slab.c:37-37 NGX_SLAB_MAP_SHIFT *)
Definition NGX_SLAB_MAP_SHIFT : Z := 32.
(* core/ngx_slab.c:39-39 NGX_SLAB_BUSY *)
Definition NGX_SLAB_BUSY : Z := 0xffffffffffffffff.

(** [~] of a word. *)
Definition lnot64 (z : Z) : Z := 2 ^ 64 - 1 - z.

(* core/ngx_slab.h:18-25 ngx_slab_page_t *)
Record page : Type := Page { slab : Z; p_next : Z; p_prev : Z }.

(* core/ngx_slab.h:28-34 ngx_slab_stat_t *)
Record stat : Type := Stat { total : Z; used : Z; reqs : Z; fails : Z }.

(** [heap] holds the descriptors of pages and the heads of lists, [words] the
    words of bit maps, at the start of pages; [free] is [&pool->free].  The
    mutex, what messages need, and what the users of the pool keep in it
    ([data], [addr]) are left out. *)
(* core/ngx_slab.h:37-69 ngx_slab_pool_t *)
Record slab_pool : Type := Pool {
  heap : Z -> page; words : Z -> Z; stats : Z -> stat; pfree : Z;
  min_size : Z; min_shift : Z; pages : Z; last : Z; start : Z; end_ : Z; slots : Z; free : Z }.

Definition set_heap (h : Z -> page) (p : slab_pool) : slab_pool :=
  Pool h (words p) (stats p) (pfree p) (min_size p) (min_shift p) (pages p) (last p) (start p) (end_ p) (slots p) (free p).
Definition set_word (a v : Z) (p : slab_pool) : slab_pool :=
  Pool (heap p) (fun x => if x =? a then v else words p x) (stats p) (pfree p) (min_size p) (min_shift p) (pages p) (last p) (start p) (end_ p) (slots p) (free p).
Definition set_stat (i : Z) (f : stat -> stat) (p : slab_pool) : slab_pool :=
  Pool (heap p) (words p) (fun x => if x =? i then f (stats p i) else stats p x) (pfree p) (min_size p) (min_shift p) (pages p) (last p) (start p) (end_ p) (slots p) (free p).
Definition set_pfree (n : Z) (p : slab_pool) : slab_pool :=
  Pool (heap p) (words p) (stats p) n (min_size p) (min_shift p) (pages p) (last p) (start p) (end_ p) (slots p) (free p).

Definition set_page (a : Z) (x : page) (h : Z -> page) : Z -> page := fun y => if y =? a then x else h y.
Definition set_slab (a v : Z) (p : slab_pool) : slab_pool :=
  set_heap (set_page a (Page v (p_next (heap p a)) (p_prev (heap p a))) (heap p)) p.
Definition set_next (a v : Z) (p : slab_pool) : slab_pool :=
  set_heap (set_page a (Page (slab (heap p a)) v (p_prev (heap p a))) (heap p)) p.
Definition set_prev (a v : Z) (p : slab_pool) : slab_pool :=
  set_heap (set_page a (Page (slab (heap p a)) (p_next (heap p a)) v) (heap p)) p.

Definition add_total (n : Z) (s : stat) : stat := Stat (u64 (total s + n)) (used s) (reqs s) (fails s).
Definition add_used (n : Z) (s : stat) : stat := Stat (total s) (u64 (used s + n)) (reqs s) (fails s).
Definition add_reqs (n : Z) (s : stat) : stat := Stat (total s) (used s) (u64 (reqs s + n)) (fails s).
Definition add_fails (n : Z) (s : stat) : stat := Stat (total s) (used s) (reqs s) (u64 (fails s + n)).

(** The address of the [i]th element after [a]. *)
Definition at_page (a i : Z) : Z := a + i * sizeof_ngx_slab_page_t.

(* core/ngx_slab.c:47-47 ngx_slab_page_type *)
Definition ngx_slab_page_type (a : Z) (p : slab_pool) : Z := Z.land (p_prev (heap p a)) NGX_SLAB_PAGE_MASK.

(* core/ngx_slab.c:49-50 ngx_slab_page_prev *)
Definition ngx_slab_page_prev (a : Z) (p : slab_pool) : Z := Z.land (p_prev (heap p a)) (lnot64 NGX_SLAB_PAGE_MASK).

(* core/ngx_slab.c:52-54 ngx_slab_page_addr *)
Definition ngx_slab_page_addr (p : slab_pool) (a : Z) : Z :=
  Z.shiftl ((a - pages p) / sizeof_ngx_slab_page_t) ngx_pagesize_shift + start p.

(** The number of times that [n] can be halved, from [shift] on. *)
(* core/ngx_slab.c:98-100 ngx_slab_init: n >>= 1 *)
Fixpoint halvings (fuel : nat) (n shift : Z) : Z :=
  match fuel with
  | O => shift
  | S fuel =>
      let n := Z.shiftr n 1 in
      if n =? 0 then shift else halvings fuel n (shift + 1)
  end.

(* core/ngx_slab.c:96-96 ngx_slab_init: ngx_slab_max_size *)
Definition ngx_slab_max_size : Z := ngx_pagesize / 2.
(* core/ngx_slab.c:97-97 ngx_slab_init: ngx_slab_exact_size *)
Definition ngx_slab_exact_size : Z := ngx_pagesize / (8 * sizeof_uintptr_t).
(* core/ngx_slab.c:98-100 ngx_slab_init: ngx_slab_exact_shift *)
Definition ngx_slab_exact_shift : Z := halvings 64 ngx_slab_exact_size 0.

(** ** Lists of pages *)

(** A page leaves its list. *)
(* core/ngx_slab.c:736-740 ngx_slab_free_pages: page->next *)
Definition unlink (page : Z) (p : slab_pool) : slab_pool :=
  let prev := ngx_slab_page_prev page p in
  let p := set_next prev (p_next (heap p page)) p in
  set_prev (p_next (heap p page)) (p_prev (heap p page)) p.

(** A page that is full leaves its list. *)
(* core/ngx_slab.c:255-260 ngx_slab_alloc_locked: prev *)
Definition retire (page type : Z) (p : slab_pool) : slab_pool :=
  let p := unlink page p in
  set_prev page type (set_next page NULL p).

(** A page that was full goes to the front of its list. *)
(* core/ngx_slab.c:491-499 ngx_slab_free_locked: page->next == NULL *)
Definition relist (page slot type : Z) (p : slab_pool) : slab_pool :=
  let head := at_page (slots p) slot in
  let p := set_next page (p_next (heap p head)) p in
  let p := set_next head page p in
  let p := set_prev page (Z.lor head type) p in
  set_prev (p_next (heap p page)) (Z.lor page type) p.

(** A page with the first chunk in use, in an empty list. *)
(* core/ngx_slab.c:350-354 ngx_slab_alloc_locked: page->slab = shift *)
Definition enlist (page slot v type : Z) (p : slab_pool) : slab_pool :=
  let head := at_page (slots p) slot in
  let p := set_slab page v p in
  let p := set_next page head p in
  let p := set_prev page (Z.lor head type) p in
  set_next head page p.

(** ** Pages *)

(** The first element of the list that is large enough: [Some None] if there is none. *)
(* core/ngx_slab.c:671-673 ngx_slab_alloc_pages: for *)
Fixpoint find_pages (fuel : nat) (n page : Z) (p : slab_pool) : option (option Z) :=
  match fuel with
  | O => None
  | S fuel =>
      if negb (page =? free p) then
        if n <=? slab (heap p page) then Some (Some page)
        else find_pages fuel n (p_next (heap p page)) p
      else Some None
  end.

(* core/ngx_slab.c:702-707 ngx_slab_alloc_pages: for (p = page + 1; *)
Fixpoint busy_pages (n : nat) (a : Z) (p : slab_pool) : slab_pool :=
  match n with
  | O => p
  | S n => busy_pages n (at_page a 1) (set_prev a NGX_SLAB_PAGE (set_next a NULL (set_slab a NGX_SLAB_PAGE_BUSY p)))
  end.

(** A run leaves the list, or the rest of it takes its place. *)
(* core/ngx_slab.c:675-690 ngx_slab_alloc_pages: page->slab > pages *)
Definition cut_run (n page : Z) (p : slab_pool) : slab_pool :=
  let size := slab (heap p page) in
  if n <? size then
    let rest := at_page page n in
    let p := set_prev (at_page page (size - 1)) rest p in
    let p := set_slab rest (size - n) p in
    let p := set_next rest (p_next (heap p page)) p in
    let p := set_prev rest (p_prev (heap p page)) p in
    let p := set_next (p_prev (heap p page)) rest p in
    set_prev (p_next (heap p page)) rest p
  else
    let p := set_next (p_prev (heap p page)) (p_next (heap p page)) p in
    set_prev (p_next (heap p page)) (p_prev (heap p page)) p.

(* core/ngx_slab.c:675-709 ngx_slab_alloc_pages: page->slab >= pages *)
Definition take_pages (n page : Z) (p : slab_pool) : slab_pool :=
  let p := cut_run n page p in
  let p := set_slab page (Z.lor n NGX_SLAB_PAGE_START) p in
  let p := set_next page NULL p in
  let p := set_prev page NGX_SLAB_PAGE p in
  let p := set_pfree (u64 (pfree p - n)) p in
  busy_pages (Z.to_nat (n - 1)) (at_page page 1) p.

(** A turn for each page, and one for the head. *)
Definition pages_fuel (p : slab_pool) : nat := S (Z.to_nat ((last p - pages p) / sizeof_ngx_slab_page_t)).

(** [NULL] if there are not so many pages in a row. *)
(* core/ngx_slab.c:666-719 ngx_slab_alloc_pages *)
Definition ngx_slab_alloc_pages (n : Z) (p : slab_pool) : option (Z * slab_pool) :=
  page ← find_pages (pages_fuel p) n (p_next (heap p (free p))) p;
  match page with
  | Some page => Some (page, take_pages n page p)
  | None => Some (NULL, p)
  end.

(** [ngx_memzero] of [n] descriptors. *)
(* core/ngx_slab.c:732-734 ngx_slab_free_pages: ngx_memzero *)
Fixpoint zero_pages (n : nat) (a : Z) (p : slab_pool) : slab_pool :=
  match n with
  | O => p
  | S n => zero_pages n (at_page a 1) (set_heap (set_page a (Page 0 0 0) (heap p)) p)
  end.

(** The pages after it are free. *)
(* core/ngx_slab.c:742-761 ngx_slab_free_pages: join < pool->last *)
Definition join_next (page n : Z) (p : slab_pool) : Z * slab_pool :=
  let join := at_page page (slab (heap p page)) in
  if (join <? last p) && (ngx_slab_page_type join p =? NGX_SLAB_PAGE) && negb (p_next (heap p join) =? NULL) then
    let n := n + slab (heap p join) in
    let p := set_slab page (slab (heap p page) + slab (heap p join)) p in
    let p := unlink join p in
    (n, set_prev join NGX_SLAB_PAGE (set_next join NULL (set_slab join NGX_SLAB_PAGE_FREE p)))
  else (n, p).

(** The pages before it are free. *)
(* core/ngx_slab.c:763-787 ngx_slab_free_pages: page > pool->pages *)
Definition join_prev (page n : Z) (p : slab_pool) : Z * Z * slab_pool :=
  if pages p <? page then
    let join := at_page page (- 1) in
    if ngx_slab_page_type join p =? NGX_SLAB_PAGE then
      let join := if slab (heap p join) =? NGX_SLAB_PAGE_FREE then ngx_slab_page_prev join p else join in
      if negb (p_next (heap p join) =? NULL) then
        let n := n + slab (heap p join) in
        let p := set_slab join (slab (heap p join) + slab (heap p page)) p in
        let p := unlink join p in
        (join, n, set_prev page NGX_SLAB_PAGE (set_next page NULL (set_slab page NGX_SLAB_PAGE_FREE p)))
      else (page, n, p)
    else (page, n, p)
  else (page, n, p).

(** The run is joined with those next to it and goes to the front of the list;
    [n] is one less than the number of pages. *)
(* core/ngx_slab.c:742-798 ngx_slab_free_pages: join *)
Definition join_pages (page n : Z) (p : slab_pool) : slab_pool :=
  let '(n, p) := join_next page n p in
  let '(page, n, p) := join_prev page n p in
  let p := if negb (n =? 0) then set_prev (at_page page n) page p else p in
  let p := set_prev page (free p) p in
  let p := set_next page (p_next (heap p (free p))) p in
  let p := set_prev (p_next (heap p page)) page p in
  set_next (free p) page p.

(* core/ngx_slab.c:722-799 ngx_slab_free_pages *)
Definition ngx_slab_free_pages (page n : Z) (p : slab_pool) : slab_pool :=
  let p := set_pfree (u64 (pfree p + n)) p in
  let p := set_slab page n p in
  let n := n - 1 in
  let p := if negb (n =? 0) then zero_pages (Z.to_nat n) (at_page page 1) p else p in
  let p := if negb (p_next (heap p page) =? NULL) then unlink page p else p in
  join_pages page n p.

(** ** Chunks *)

(** The first bit from [m] on, number [i], that is not set, as long as [go] holds. *)
(* core/ngx_slab.c:235-238 ngx_slab_alloc_locked: for (m = 1, i = 0; *)
Fixpoint bit_loop (fuel : nat) (go : Z -> bool) (w m i : Z) : option (Z * Z) :=
  match fuel with
  | O => None
  | S fuel =>
      if go m then
        if negb (Z.land w m =? 0) then bit_loop fuel go w (u64 (Z.shiftl m 1)) (i + 1)
        else Some (m, i)
      else None
  end.

(** The word and the bit of the first chunk that is not in use. *)
(* core/ngx_slab.c:231-238 ngx_slab_alloc_locked: for (n = 0; *)
Fixpoint word_loop (fuel : nat) (map bitmap n : Z) (p : slab_pool) : option (Z * Z * Z) :=
  match fuel with
  | O => None
  | S fuel =>
      if n <? map then
        let w := words p (bitmap + n * sizeof_uintptr_t) in
        if negb (w =? NGX_SLAB_BUSY) then
          match bit_loop 65 (fun m => negb (m =? 0)) w 1 0 with
          | Some (m, i) => Some (n, m, i)
          | None => word_loop fuel map bitmap (n + 1) p
          end
        else word_loop fuel map bitmap (n + 1) p
      else None
  end.

(** Whether the words from [n] on are all [v]. *)
(* core/ngx_slab.c:249-253 ngx_slab_alloc_locked: for (n = n + 1; *)
Fixpoint all_words (fuel : nat) (v map bitmap n : Z) (p : slab_pool) : bool :=
  match fuel with
  | O => true
  | S fuel =>
      if n <? map then
        if negb (words p (bitmap + n * sizeof_uintptr_t) =? v) then false
        else all_words fuel v map bitmap (n + 1) p
      else true
  end.

(** The number of words of a bit map, and of chunks that hold it. *)
(* core/ngx_slab.c:229-229 ngx_slab_alloc_locked: map *)
Definition map_words (shift : Z) : Z := Z.shiftr ngx_pagesize shift / (sizeof_uintptr_t * 8).
(* core/ngx_slab.c:335-339 ngx_slab_alloc_locked: n *)
Definition map_chunks (shift : Z) : Z :=
  let n := Z.shiftr ngx_pagesize shift / (Z.shiftl 1 shift * 8) in
  if n =? 0 then 1 else n.

(* core/ngx_slab.c:225-266 ngx_slab_alloc_locked: shift < ngx_slab_exact_shift *)
Definition alloc_small (page shift slot : Z) (p : slab_pool) : option (Z * slab_pool) :=
  let bitmap := ngx_slab_page_addr p page in
  let map := map_words shift in
  '(n, m, i) ← word_loop 65 map bitmap 0 p;
  let a := bitmap + n * sizeof_uintptr_t in
  let p := set_word a (Z.lor (words p a) m) p in
  let i := Z.shiftl (n * sizeof_uintptr_t * 8 + i) shift in
  let p := set_stat slot (add_used 1) p in
  let p :=
    if (words p a =? NGX_SLAB_BUSY) && all_words 65 NGX_SLAB_BUSY map bitmap (n + 1) p then retire page NGX_SLAB_SMALL p
    else p in
  Some (bitmap + i, p).

(* core/ngx_slab.c:268-291 ngx_slab_alloc_locked: shift == ngx_slab_exact_shift *)
Definition alloc_exact (page shift slot : Z) (p : slab_pool) : option (Z * slab_pool) :=
  '(m, i) ← bit_loop 65 (fun m => negb (m =? 0)) (slab (heap p page)) 1 0;
  let p := set_slab page (Z.lor (slab (heap p page)) m) p in
  let p := if slab (heap p page) =? NGX_SLAB_BUSY then retire page NGX_SLAB_EXACT p else p in
  let a := ngx_slab_page_addr p page + Z.shiftl i shift in
  Some (a, set_stat slot (add_used 1) p).

(* core/ngx_slab.c:293-323 ngx_slab_alloc_locked: shift > ngx_slab_exact_shift *)
Definition alloc_big (page shift slot : Z) (p : slab_pool) : option (Z * slab_pool) :=
  let mask := Z.shiftl (Z.shiftl 1 (Z.shiftr ngx_pagesize shift) - 1) NGX_SLAB_MAP_SHIFT in
  '(m, i) ← bit_loop 65 (fun m => negb (Z.land m mask =? 0)) (slab (heap p page)) (Z.shiftl 1 NGX_SLAB_MAP_SHIFT) 0;
  let p := set_slab page (Z.lor (slab (heap p page)) m) p in
  let p := if Z.land (slab (heap p page)) NGX_SLAB_MAP_MASK =? mask then retire page NGX_SLAB_BIG p else p in
  let a := ngx_slab_page_addr p page + Z.shiftl i shift in
  Some (a, set_stat slot (add_used 1) p).

(* core/ngx_slab.c:346-348 ngx_slab_alloc_locked: for (i = 1; *)
Fixpoint zero_words (n : nat) (a : Z) (p : slab_pool) : slab_pool :=
  match n with
  | O => p
  | S n => zero_words n (a + sizeof_uintptr_t) (set_word a 0 p)
  end.

(* core/ngx_slab.c:332-362 ngx_slab_alloc_locked: page, small *)
Definition first_small (page shift slot : Z) (p : slab_pool) : Z * slab_pool :=
  let bitmap := ngx_slab_page_addr p page in
  let n := map_chunks shift in
  let p := set_word bitmap (u64 (Z.shiftl 2 n) - 1) p in
  let p := zero_words (Z.to_nat (map_words shift - 1)) (bitmap + sizeof_uintptr_t) p in
  let p := enlist page slot shift NGX_SLAB_SMALL p in
  let p := set_stat slot (add_total (Z.shiftr ngx_pagesize shift - n)) p in
  let a := ngx_slab_page_addr p page + Z.shiftl n shift in
  (a, set_stat slot (add_used 1) p).

(* core/ngx_slab.c:364-378 ngx_slab_alloc_locked: page, exact *)
Definition first_exact (page shift slot : Z) (p : slab_pool) : Z * slab_pool :=
  let p := enlist page slot 1 NGX_SLAB_EXACT p in
  let p := set_stat slot (add_total (sizeof_uintptr_t * 8)) p in
  let a := ngx_slab_page_addr p page in
  (a, set_stat slot (add_used 1) p).

(* core/ngx_slab.c:380-395 ngx_slab_alloc_locked: page, big *)
Definition first_big (page shift slot : Z) (p : slab_pool) : Z * slab_pool :=
  let p := enlist page slot (Z.lor (Z.shiftl 1 NGX_SLAB_MAP_SHIFT) shift) NGX_SLAB_BIG p in
  let p := set_stat slot (add_total (Z.shiftr ngx_pagesize shift)) p in
  let a := ngx_slab_page_addr p page in
  (a, set_stat slot (add_used 1) p).

(* core/ngx_slab.c:205-213 ngx_slab_alloc_locked: shift *)
Definition size_shift (size : Z) (p : slab_pool) : Z :=
  if min_size p <? size then halvings 64 (size - 1) 1 else min_shift p.

(** A chunk of a page that has one: [None] if there is no such page. *)
(* core/ngx_slab.c:220-327 ngx_slab_alloc_locked: page->next != page *)
Definition alloc_chunk (shift slot : Z) (p : slab_pool) : option (Z * slab_pool) :=
  let page := p_next (heap p (at_page (slots p) slot)) in
  if negb (p_next (heap p page) =? page) then
    if shift <? ngx_slab_exact_shift then alloc_small page shift slot p
    else if shift =? ngx_slab_exact_shift then alloc_exact page shift slot p
    else alloc_big page shift slot p
  else None.

(** [NULL] if there is no memory left. *)
(* core/ngx_slab.c:180-408 ngx_slab_alloc_locked *)
Definition ngx_slab_alloc_locked (size : Z) (p : slab_pool) : option (Z * slab_pool) :=
  if ngx_slab_max_size <? size then
    '(page, p) ← ngx_slab_alloc_pages (Z.shiftr size ngx_pagesize_shift + (if negb (size mod ngx_pagesize =? 0) then 1 else 0)) p;
    if negb (page =? NULL) then Some (ngx_slab_page_addr p page, p) else Some (NULL, p)
  else
    let shift := size_shift size p in
    let slot := shift - min_shift p in
    let p := set_stat slot (add_reqs 1) p in
    match alloc_chunk shift slot p with
    | Some r => Some r
    | None =>
        '(page, p) ← ngx_slab_alloc_pages 1 p;
        if negb (page =? NULL) then
          Some (if shift <? ngx_slab_exact_shift then first_small page shift slot p
                else if shift =? ngx_slab_exact_shift then first_exact page shift slot p
                else first_big page shift slot p)
        else Some (NULL, set_stat slot (add_fails 1) p)
    end.

(* core/ngx_slab.c:473-528 ngx_slab_free_locked: case NGX_SLAB_SMALL *)
Definition free_small (a page : Z) (p : slab_pool) : slab_pool :=
  let shift := Z.land (slab (heap p page)) NGX_SLAB_SHIFT_MASK in
  let size := Z.shiftl 1 shift in
  if negb (Z.land a (size - 1) =? 0) then p
  else
    let n := Z.shiftr (Z.land a (ngx_pagesize - 1)) shift in
    let m := Z.shiftl 1 (n mod (sizeof_uintptr_t * 8)) in
    let n := n / (sizeof_uintptr_t * 8) in
    let bitmap := Z.land a (lnot64 (ngx_pagesize - 1)) in
    let w := bitmap + n * sizeof_uintptr_t in
    if negb (Z.land (words p w) m =? 0) then
      let slot := shift - min_shift p in
      let p := if p_next (heap p page) =? NULL then relist page slot NGX_SLAB_SMALL p else p in
      let p := set_word w (Z.land (words p w) (lnot64 m)) p in
      let n := map_chunks shift in
      let p :=
        if negb (Z.land (words p bitmap) (lnot64 (Z.shiftl 1 n - 1)) =? 0) then p
        else if negb (all_words 65 0 (map_words shift) bitmap 1 p) then p
        else
          set_stat slot (add_total (- (Z.shiftr ngx_pagesize shift - n))) (ngx_slab_free_pages page 1 p) in
      set_stat slot (add_used (- 1)) p
    else p.

(* core/ngx_slab.c:530-566 ngx_slab_free_locked: case NGX_SLAB_EXACT *)
Definition free_exact (a page : Z) (p : slab_pool) : slab_pool :=
  let s := slab (heap p page) in
  let m := Z.shiftl 1 (Z.shiftr (Z.land a (ngx_pagesize - 1)) ngx_slab_exact_shift) in
  let size := ngx_slab_exact_size in
  if negb (Z.land a (size - 1) =? 0) then p
  else if negb (Z.land s m =? 0) then
    let slot := ngx_slab_exact_shift - min_shift p in
    let p := if s =? NGX_SLAB_BUSY then relist page slot NGX_SLAB_EXACT p else p in
    let p := set_slab page (Z.land (slab (heap p page)) (lnot64 m)) p in
    let p :=
      if negb (slab (heap p page) =? 0) then p
      else set_stat slot (add_total (- (sizeof_uintptr_t * 8))) (ngx_slab_free_pages page 1 p) in
    set_stat slot (add_used (- 1)) p
  else p.

(* core/ngx_slab.c:568-606 ngx_slab_free_locked: case NGX_SLAB_BIG *)
Definition free_big (a page : Z) (p : slab_pool) : slab_pool :=
  let s := slab (heap p page) in
  let shift := Z.land s NGX_SLAB_SHIFT_MASK in
  let size := Z.shiftl 1 shift in
  if negb (Z.land a (size - 1) =? 0) then p
  else
    let m := Z.shiftl 1 (Z.shiftr (Z.land a (ngx_pagesize - 1)) shift + NGX_SLAB_MAP_SHIFT) in
    if negb (Z.land s m =? 0) then
      let slot := shift - min_shift p in
      let p := if p_next (heap p page) =? NULL then relist page slot NGX_SLAB_BIG p else p in
      let p := set_slab page (Z.land (slab (heap p page)) (lnot64 m)) p in
      let p :=
        if negb (Z.land (slab (heap p page)) NGX_SLAB_MAP_MASK =? 0) then p
        else set_stat slot (add_total (- Z.shiftr ngx_pagesize shift)) (ngx_slab_free_pages page 1 p) in
      set_stat slot (add_used (- 1)) p
    else p.

(* core/ngx_slab.c:608-634 ngx_slab_free_locked: case NGX_SLAB_PAGE *)
Definition free_page (a page : Z) (p : slab_pool) : slab_pool :=
  let s := slab (heap p page) in
  if negb (Z.land a (ngx_pagesize - 1) =? 0) then p
  else if Z.land s NGX_SLAB_PAGE_START =? 0 then p
  else if s =? NGX_SLAB_PAGE_BUSY then p
  else ngx_slab_free_pages page (Z.land s (lnot64 NGX_SLAB_PAGE_START)) p.

(** Errors are logged, and change nothing. *)
(* core/ngx_slab.c:451-663 ngx_slab_free_locked *)
Definition ngx_slab_free_locked (a : Z) (p : slab_pool) : slab_pool :=
  if (a <? start p) || (end_ p <? a) then p
  else
    let page := at_page (pages p) (Z.shiftr (a - start p) ngx_pagesize_shift) in
    let type := ngx_slab_page_type page p in
    if type =? NGX_SLAB_SMALL then free_small a page p
    else if type =? NGX_SLAB_EXACT then free_exact a page p
    else if type =? NGX_SLAB_BIG then free_big a page p
    else free_page a page p.

(** ** A new pool *)

(* core/ngx_slab.c:115-120 ngx_slab_init: for *)
Fixpoint init_slots (n : nat) (a : Z) (p : slab_pool) : slab_pool :=
  match n with
  | O => p
  | S n => init_slots n (at_page a 1) (set_heap (set_page a (Page 0 a 0) (heap p)) p)
  end.

(** [end_], [min_shift], [slots] and [free] are set before. *)
(* core/ngx_slab.c:85-162 ngx_slab_init *)
Definition ngx_slab_init (p : slab_pool) : slab_pool :=
  let a := slots p in
  let size := u64 (end_ p - a) in
  let n := ngx_pagesize_shift - min_shift p in
  let p := init_slots (Z.to_nat n) a p in
  let a := at_page a n + n * sizeof_ngx_slab_stat_t in
  let size := u64 (size - n * (sizeof_ngx_slab_page_t + sizeof_ngx_slab_stat_t)) in
  let n := size / (ngx_pagesize + sizeof_ngx_slab_page_t) in
  let p := zero_pages (Z.to_nat n) a p in
  let p := set_heap (set_page (free p) (Page 0 a 0) (heap p)) p in
  let p := set_heap (set_page a (Page n (free p) (free p)) (heap p)) p in
  let st := (at_page a n + (ngx_pagesize - 1)) / ngx_pagesize * ngx_pagesize in
  let m := s64 (u64 (n - u64 (end_ p - st) / ngx_pagesize)) in
  let '(n, p) := if 0 <? m then (n - m, set_slab a (n - m) p) else (n, p) in
  Pool (heap p) (words p) (fun _ => Stat 0 0 0 0) n (Z.shiftl 1 (min_shift p)) (min_shift p) a (at_page a n) st (end_ p) (slots p) (free p).
