(* ===== verification/NgxSlabLayout.v ===== *)
(** * NgxSlabLayout: the pages of a pool and their lists

    The descriptors of a pool are those of a list of segments: runs of free
    pages, blocks of whole pages, and pages of chunks with a mask of what is in
    use.  Free runs, and pages that have free chunks, are in lists. *)

From S2P Require Import Prelude NgxSprintf NgxSlab.

(** ** Pointers with a tag *)

Lemma tag_type a t : (4 | a) -> 0 <= t < 4 -> Z.land (a + t) NGX_SLAB_PAGE_MASK = t.
Proof.
  intros [q ->] Ht. unfold NGX_SLAB_PAGE_MASK. change 3 with (2 ^ 2 - 1). rewrite land_ones_mod by lia.
  change (2 ^ 2) with 4. rewrite Z.add_comm, Z.mod_add by lia. by apply Z.mod_small.
Qed.

Lemma tag_or a t : (4 | a) -> 0 <= t < 4 -> Z.lor a t = a + t.
Proof. intros Ha Ht. by apply (lor_add_low a t 2). Qed.

Lemma land_lnot a n : 0 <= n <= 64 -> 0 <= a < 2 ^ 64 -> Z.land a (lnot64 (2 ^ n - 1)) = a - a mod 2 ^ n.
Proof.
  intros Hn Ha. assert (Z.land a (lnot64 (2 ^ n - 1)) = Z.ldiff a (Z.ones n)) as ->.
  { apply Z.bits_inj'. intros i Hi. rewrite Z.land_spec, Z.ldiff_spec.
    destruct (decide (i < 64)) as [Hlt|Hge].
    - f_equal. unfold lnot64. replace (2 ^ 64 - 1 - (2 ^ n - 1)) with (2 ^ 64 - 2 ^ n) by lia.
      assert (2 ^ 64 - 2 ^ n = Z.shiftl (Z.ones (64 - n)) n) as ->.
      { rewrite Z.shiftl_mul_pow2, Z.ones_equiv by lia. rewrite <- Z.sub_1_r, Z.mul_sub_distr_r, <- Z.pow_add_r by lia.
        replace (64 - n + n) with 64 by lia. lia. }
      rewrite Z.shiftl_spec by lia. destruct (decide (i < n)).
      + rewrite Z.testbit_neg_r by lia. by rewrite Z.ones_spec_low by lia.
      + rewrite Z.ones_spec_low by lia. by rewrite Z.ones_spec_high by lia.
    - rewrite (Z.bits_above_log2 a i); [done|lia|]. destruct (decide (a = 0)) as [->|]; [cbn; lia|].
      apply Z.log2_lt_pow2; [lia|]. eapply Z.lt_le_trans; [apply Ha|]. apply Z.pow_le_mono_r; lia. }
  rewrite Z.ldiff_ones_r by lia. rewrite Z.shiftl_mul_pow2, Z.shiftr_div_pow2 by lia.
  pose proof (Z.div_mod a (2 ^ n) ltac:(lia)). lia.
Qed.

Lemma tag_prev a t : (4 | a) -> 0 <= t < 4 -> 0 <= a < 2 ^ 64 - 4 -> Z.land (a + t) (lnot64 NGX_SLAB_PAGE_MASK) = a.
Proof.
  intros [q ->] Ht Ha. change NGX_SLAB_PAGE_MASK with (2 ^ 2 - 1). rewrite land_lnot by lia.
  change (2 ^ 2) with 4. rewrite (Z.add_comm (q * 4)), Z.mod_add by lia. rewrite Z.mod_small by lia. lia.
Qed.

(** ** Lists *)

(** From [a] on the elements [l], with the tag [t], to [e]. *)
Fixpoint linked (h : Z -> page) (t a : Z) (l : list Z) (e : Z) : Prop :=
  match l with
  | [] => p_next (h a) = e
  | x :: l => p_next (h a) = x /\ p_prev (h x) = a + t /\ linked h t x l e
  end.

(** The list [l] of the head [hd]. *)
Definition dlist (h : Z -> page) (t hd : Z) (l : list Z) : Prop := linked h t hd l hd /\ NoDup (hd :: l).

Definition first (e : Z) (l : list Z) : Z := match l with [] => e | x :: _ => x end.
Fixpoint final (a : Z) (l : list Z) : Z := match l with [] => a | x :: l => final x l end.

Lemma final_in a l : final a l ∈ a :: l.
Proof. revert a. induction l as [|x l IH]; intros a; cbn; [by left|]. right. apply IH. Qed.
Lemma first_in e l : first e l ∈ e :: l.
Proof. destruct l; cbn; [by left|right; by left]. Qed.

Lemma linked_app h t a l1 l2 e : linked h t a (l1 ++ l2) e <-> linked h t a l1 (first e l2) /\ linked h t (final a l1) l2 e.
Proof.
  revert a. induction l1 as [|x l1 IH]; intros a; cbn.
  - destruct l2; cbn; tauto.
  - rewrite IH. tauto.
Qed.

Lemma linked_ext h h' t a l e : (forall x, x ∈ a :: l -> p_next (h' x) = p_next (h x)) -> (forall x, x ∈ l -> p_prev (h' x) = p_prev (h x)) ->
  linked h t a l e -> linked h' t a l e.
Proof.
  revert a. induction l as [|x l IH]; intros a Hn Hp; cbn; [by rewrite Hn by left|]. intros (H1 & H2 & H3).
  split; [by rewrite Hn by left|]. split; [by rewrite Hp by left|]. apply IH; [|by intros y Hy; apply Hp; right|done].
  intros y Hy. apply Hn. by right.
Qed.

(** Where the list is cut. *)
Lemma linked_at h t a l1 x l2 e : linked h t a (l1 ++ x :: l2) e <->
  linked h t a l1 x /\ p_prev (h x) = final a l1 + t /\ linked h t x l2 e.
Proof.
  rewrite linked_app. cbn. split; [tauto|]. intros (H1 & H2 & H3). split; [done|]. split; [|done].
  rewrite <- (app_nil_r l1), linked_app in H1. apply H1.
Qed.

Lemma linked_next h t a l e : linked h t a l e -> p_next (h (final a l)) = e.
Proof. intros Hl. rewrite <- (app_nil_r l), linked_app in Hl. apply Hl. Qed.

Lemma linked_first h t a l e : linked h t a l e -> p_next (h a) = first e l.
Proof. destruct l; cbn; tauto. Qed.

(** ** Changes of the links *)

(** [h'] has the links of other addresses than [X], and the sizes. *)
Definition keeps (X : list Z) (h h' : Z -> page) : Prop :=
  (forall a, slab (h' a) = slab (h a)) /\ forall a, a ∉ X -> h' a = h a.

Lemma keeps_trans X h1 h2 h3 : keeps X h1 h2 -> keeps X h2 h3 -> keeps X h1 h3.
Proof. intros [H1 H1'] [H2 H2']. split; [intros; by rewrite H2|]. intros a Ha. by rewrite H2', H1'. Qed.

Lemma keeps_more X Y h h' : (forall a, a ∈ X -> a ∈ Y) -> keeps X h h' -> keeps Y h h'.
Proof. intros HX [H1 H2]. split; [done|]. intros a Ha. apply H2. intros ?. by apply Ha, HX. Qed.

Lemma dlist_keeps X h h' t hd l : keeps X h h' -> (forall a, a ∈ hd :: l -> a ∉ X) -> dlist h t hd l -> dlist h' t hd l.
Proof.
  intros [_ Hk] HX [Hl Hnd]. split; [|done]. eapply linked_ext; [..|exact Hl]; intros x Hx; rewrite Hk; try done; apply HX; [done|by right].
Qed.

(** The heap after the neighbours of an element have been joined. *)
Lemma heap_next a v p x : heap (set_next a v p) x = if x =? a then Page (slab (heap p a)) v (p_prev (heap p a)) else heap p x.
Proof. done. Qed.
Lemma heap_prev a v p x : heap (set_prev a v p) x = if x =? a then Page (slab (heap p a)) (p_next (heap p a)) v else heap p x.
Proof. done. Qed.
Lemma heap_slab a v p x : heap (set_slab a v p) x = if x =? a then Page v (p_next (heap p a)) (p_prev (heap p a)) else heap p x.
Proof. done. Qed.

Lemma heap_next_ne a v p x : x <> a -> heap (set_next a v p) x = heap p x.
Proof. intros Hx. by rewrite heap_next, (proj2 (Z.eqb_neq x a)). Qed.
Lemma heap_prev_ne a v p x : x <> a -> heap (set_prev a v p) x = heap p x.
Proof. intros Hx. by rewrite heap_prev, (proj2 (Z.eqb_neq x a)). Qed.
Lemma heap_slab_ne a v p x : x <> a -> heap (set_slab a v p) x = heap p x.
Proof. intros Hx. by rewrite heap_slab, (proj2 (Z.eqb_neq x a)). Qed.

Lemma next_prev a v p x : p_next (heap (set_prev a v p) x) = p_next (heap p x).
Proof. rewrite heap_prev. destruct (Z.eqb_spec x a) as [->|]; done. Qed.
Lemma next_next a v p x : p_next (heap (set_next a v p) x) = if x =? a then v else p_next (heap p x).
Proof. rewrite heap_next. by destruct (x =? a). Qed.
Lemma prev_next a v p x : p_prev (heap (set_next a v p) x) = p_prev (heap p x).
Proof. rewrite heap_next. destruct (Z.eqb_spec x a) as [->|]; done. Qed.
Lemma prev_prev a v p x : p_prev (heap (set_prev a v p) x) = if x =? a then v else p_prev (heap p x).
Proof. rewrite heap_prev. by destruct (x =? a). Qed.
Lemma slab_next a v p x : slab (heap (set_next a v p) x) = slab (heap p x).
Proof. rewrite heap_next. destruct (Z.eqb_spec x a) as [->|]; done. Qed.
Lemma slab_prev a v p x : slab (heap (set_prev a v p) x) = slab (heap p x).
Proof. rewrite heap_prev. destruct (Z.eqb_spec x a) as [->|]; done. Qed.
Lemma slab_slab a v p x : slab (heap (set_slab a v p) x) = if x =? a then v else slab (heap p x).
Proof. rewrite heap_slab. by destruct (x =? a). Qed.
Lemma next_slab a v p x : p_next (heap (set_slab a v p) x) = p_next (heap p x).
Proof. rewrite heap_slab. destruct (Z.eqb_spec x a) as [->|]; done. Qed.
Lemma prev_slab a v p x : p_prev (heap (set_slab a v p) x) = p_prev (heap p x).
Proof. rewrite heap_slab. destruct (Z.eqb_spec x a) as [->|]; done. Qed.

Ltac read_heap := repeat first
  [rewrite next_prev|rewrite next_next|rewrite prev_next|rewrite prev_prev|rewrite slab_next|rewrite slab_prev|rewrite slab_slab|rewrite next_slab|rewrite prev_slab].

Lemma keeps_next X a v p : a ∈ X -> keeps X (heap p) (heap (set_next a v p)).
Proof. intros Ha. split; [intros; by rewrite slab_next|]. intros b Hb. rewrite heap_next. destruct (Z.eqb_spec b a) as [->|]; done. Qed.
Lemma keeps_prev X a v p : a ∈ X -> keeps X (heap p) (heap (set_prev a v p)).
Proof. intros Ha. split; [intros; by rewrite slab_prev|]. intros b Hb. rewrite heap_prev. destruct (Z.eqb_spec b a) as [->|]; done. Qed.

(** Nothing else than the heap changes. *)
Definition same_pool (p p' : slab_pool) : Prop := p' = set_heap (heap p') p.

Lemma same_trans p1 p2 p3 : same_pool p1 p2 -> same_pool p2 p3 -> same_pool p1 p3.
Proof. unfold same_pool. intros H1 H2. rewrite H2 at 1. by rewrite H1. Qed.

(** ** Operations on lists *)

(** A part of a list is replaced. *)
Lemma linked_splice h h' t hd l1 old mid l2 :
  linked h t hd (l1 ++ old ++ l2) hd -> NoDup (hd :: l1 ++ l2) ->
  linked h' t (final hd l1) mid (first hd l2) ->
  (forall y l, l2 = y :: l -> p_prev (h' y) = final (final hd l1) mid + t) ->
  (forall x, x ∈ hd :: l1 ++ l2 -> x <> final hd l1 -> p_next (h' x) = p_next (h x)) ->
  (forall x, x ∈ l1 ++ l2 -> x <> first hd l2 -> p_prev (h' x) = p_prev (h x)) ->
  linked h' t hd (l1 ++ mid ++ l2) hd.
Proof.
  intros Hl Hnd Hmid Hn Hnext Hprev. rewrite !linked_app in Hl. destruct Hl as (H1 & _ & H2).
  assert (Hd : forall x, x ∈ hd :: l1 -> x ∉ l2).
  { intros x Hx Hx2. rewrite app_comm_cons in Hnd. apply NoDup_app in Hnd as (_ & Hd & _). by apply (Hd x). }
  assert (Hin1 : forall x, x ∈ l1 -> x <> first hd l2).
  { intros x Hx Heq. destruct l2 as [|y l2]; cbn in Heq; subst x.
    - apply NoDup_cons in Hnd as [Hnd _]. apply Hnd. by rewrite app_nil_r.
    - apply (Hd y); [by right|by left]. }
  rewrite !linked_app. split; [|split].
  - (* the part in front, but for where it leads to *)
    assert (first hd (mid ++ l2) = p_next (h' (final hd l1))) as ->.
    { destruct mid as [|z mid]; cbn in Hmid |- *; [by rewrite Hmid|by destruct Hmid as (-> & _)]. }
    assert (Hf : forall a l e, (forall x, x ∈ a :: l -> x <> final a l -> p_next (h' x) = p_next (h x)) ->
      (forall x, x ∈ l -> p_prev (h' x) = p_prev (h x)) -> NoDup (a :: l) -> linked h t a l e -> linked h' t a l (p_next (h' (final a l)))).
    { clear. intros a l e. revert a. induction l as [|x l IH]; intros a Hn Hp Hnd; cbn; [done|]. intros (E1 & E2 & E3).
      apply NoDup_cons in Hnd as [Ha Hnd]. split; [|split].
      - rewrite Hn; [done|by left|]. intros Heq. cbn in Heq. apply Ha. rewrite Heq. apply final_in.
      - rewrite Hp; [done|by left].
      - apply IH; [|by intros y Hy; apply Hp; right|done|done]. intros y Hy Hne. apply Hn; [by right|done]. }
    eapply Hf; [..|exact H1].
    + intros x Hx. apply Hnext. rewrite app_comm_cons. apply elem_of_app. by left.
    + intros x Hx. apply Hprev; [apply elem_of_app; by left|by apply Hin1].
    + rewrite app_comm_cons in Hnd. by apply NoDup_app in Hnd as (? & _).
  - done.
  - destruct l2 as [|y l2]; cbn in *; [by apply linked_next in Hmid|]. destruct H2 as (_ & _ & H2). split; [|split].
    + by apply linked_next in Hmid.
    + by eapply Hn.
    + assert (NoDup (y :: l2)) as Hndy.
      { apply NoDup_cons in Hnd as [_ Hnd]. by apply NoDup_app in Hnd as (_ & _ & ?). }
      apply NoDup_cons in Hndy as [Hy _]. eapply linked_ext; [..|exact H2].
      * intros x Hx. apply Hnext; [right; apply elem_of_app; by right|]. intros ->. apply (Hd (final hd l1)); [apply final_in|done].
      * intros x Hx. apply Hprev; [apply elem_of_app; right; by right|]. by intros ->.
Qed.

(** The addresses of a list. *)
Definition aligned (l : list Z) : Prop := Forall (fun a => (4 | a) /\ 0 < a < 2 ^ 64 - 4) l.

Lemma dlist_prev h t hd l1 x l2 : dlist h t hd (l1 ++ x :: l2) -> p_prev (h x) = final hd l1 + t /\ p_next (h x) = first hd l2.
Proof. intros [Hl _]. apply linked_at in Hl as (_ & Hp & Hl). split; [done|]. by apply linked_first in Hl. Qed.

Lemma dlist_nodup h t hd l1 x l2 : dlist h t hd (l1 ++ x :: l2) ->
  NoDup (hd :: l1 ++ l2) /\ x <> hd /\ x ∉ l1 /\ x ∉ l2.
Proof.
  intros [_ Hnd]. rewrite <- Permutation_middle, Permutation_swap in Hnd. apply NoDup_cons in Hnd as [Hx Hnd].
  split; [done|]. rewrite elem_of_cons, elem_of_app in Hx. tauto.
Qed.

Lemma slab_unlink_ok p t hd l1 x l2 : dlist (heap p) t hd (l1 ++ x :: l2) -> 0 <= t < 4 -> aligned (hd :: l1 ++ x :: l2) ->
  same_pool p (unlink x p) /\ dlist (heap (unlink x p)) t hd (l1 ++ l2) /\ keeps (hd :: l1 ++ l2) (heap p) (heap (unlink x p)).
Proof.
  intros Hd Ht Hal. pose proof (dlist_prev _ _ _ _ _ _ Hd) as [Hp Hn]. pose proof (dlist_nodup _ _ _ _ _ _ Hd) as (Hnd & Hxh & Hx1 & Hx2).
  assert (Hfin : final hd l1 ∈ hd :: l1) by apply final_in. assert (Hfst : first hd l2 ∈ hd :: l2) by apply first_in.
  unfold unlink, ngx_slab_page_prev. rewrite Hp, tag_prev by
    (try done; eapply Forall_forall in Hal; [apply Hal|clear -Hfin; rewrite app_comm_cons; apply elem_of_app; by left]
     || (assert (0 < final hd l1 < 2 ^ 64 - 4); [|lia]; eapply Forall_forall in Hal; [apply Hal|clear -Hfin; rewrite app_comm_cons; apply elem_of_app; by left])).
  set (q := final hd l1) in *. set (n := first hd l2) in *.
  assert (x <> q) as Hxq by (intros ->; apply elem_of_cons in Hfin as [?|?]; done).
  assert (x <> n) as Hxn by (intros ->; apply elem_of_cons in Hfst as [?|?]; done).
  rewrite Hn. read_heap. rewrite (proj2 (Z.eqb_neq x q)), Hn, Hp by done. fold q n.
  split; [done|]. split.
  - split; [|done]. apply (linked_splice (heap p) _ _ _ _ [x] []); fold q n; [apply Hd|done|..].
    + cbn [linked]. read_heap. by rewrite Z.eqb_refl.
    + intros y l Hy. subst n. rewrite Hy. cbn [first final]. read_heap. by rewrite Z.eqb_refl.
    + intros y Hy Hne. read_heap. by rewrite (proj2 (Z.eqb_neq y q) Hne).
    + intros y Hy Hne. read_heap. by rewrite (proj2 (Z.eqb_neq y n) Hne).
  - eapply keeps_trans; [apply keeps_next|apply keeps_prev].
    + clear -Hfin. rewrite app_comm_cons. apply elem_of_app. by left.
    + clear -Hfst. apply elem_of_cons in Hfst as [->|?]; [by left|]. right. apply elem_of_app. by right.
Qed.

Lemma aligned_in a l : aligned l -> a ∈ l -> (4 | a) /\ 0 < a < 2 ^ 64 - 4.
Proof. unfold aligned. rewrite Forall_forall. intros Hl. apply Hl. Qed.

Lemma in_front (hd : Z) l1 l2 x : x ∈ hd :: l1 -> x ∈ hd :: l1 ++ l2.
Proof. rewrite app_comm_cons, elem_of_app. by left. Qed.
Lemma in_back (hd : Z) l1 l2 x : x ∈ hd :: l2 -> x ∈ hd :: l1 ++ l2.
Proof. rewrite !elem_of_cons, elem_of_app. tauto. Qed.

(** The rest of the heap with one descriptor changed. *)
Lemma retire_ok p t hd l1 x l2 : dlist (heap p) t hd (l1 ++ x :: l2) -> 0 <= t < 4 -> aligned (hd :: l1 ++ x :: l2) ->
  let p' := retire x t p in
  same_pool p p' /\ dlist (heap p') t hd (l1 ++ l2) /\ keeps (hd :: l1 ++ x :: l2) (heap p) (heap p') /\
  p_next (heap p' x) = NULL /\ p_prev (heap p' x) = t.
Proof.
  intros Hd Ht Hal. cbv zeta. unfold retire. destruct (slab_unlink_ok _ _ _ _ _ _ Hd Ht Hal) as (Hs & Hl & Hk).
  pose proof (dlist_nodup _ _ _ _ _ _ Hd) as (_ & Hxh & Hx1 & Hx2).
  set (p1 := unlink x p) in *. assert (keeps [x] (heap p1) (heap (set_prev x t (set_next x NULL p1)))) as Hk1.
  { eapply keeps_trans; [apply keeps_next|apply keeps_prev]; by left. }
  split; [eapply same_trans; [exact Hs|done]|]. split; [|split; [|by split; read_heap; rewrite Z.eqb_refl]].
  - eapply dlist_keeps; [exact Hk1| |exact Hl]. intros a Ha ->%list_elem_of_singleton. rewrite elem_of_cons, elem_of_app in Ha. tauto.
  - eapply keeps_trans; eapply keeps_more; [|exact Hk| |exact Hk1].
    + intros a. rewrite !elem_of_cons, !elem_of_app, elem_of_cons. tauto.
    + intros a ->%list_elem_of_singleton. right. apply elem_of_app. right. by left.
Qed.

(** An element goes to the front, whatever the order of the writes. *)
Lemma front_ok h h' t hd l x : dlist h t hd l -> x ∉ hd :: l ->
  p_next (h' hd) = x -> p_prev (h' x) = hd + t -> p_next (h' x) = first hd l ->
  (forall y l', l = y :: l' -> p_prev (h' y) = x + t) ->
  (forall y, y ∈ l -> p_next (h' y) = p_next (h y)) ->
  (forall y, y ∈ l -> y <> first hd l -> p_prev (h' y) = p_prev (h y)) -> dlist h' t hd (x :: l).
Proof.
  intros [Hl Hnd] Hx H1 H2 H3 H4 H5 H6. split.
  - apply (linked_splice h h' t hd [] [] [x] l); cbn [app final]; try done.
    intros y [->|Hy]%elem_of_cons Hne; [done|]. by apply H5.
  - apply not_elem_of_cons in Hx as [Hxh Hxl]. apply NoDup_cons in Hnd as [Hhd Hnd]. constructor.
    + apply not_elem_of_cons. split; [congruence|done].
    + by constructor.
Qed.

Lemma relist_ok p t slot l x : let hd := at_page (slots p) slot in
  dlist (heap p) t hd l -> x ∉ hd :: l -> 0 <= t < 4 -> (4 | hd) -> (4 | x) ->
  let p' := relist x slot t p in
  same_pool p p' /\ dlist (heap p') t hd (x :: l) /\ keeps (hd :: x :: l) (heap p) (heap p').
Proof.
  intros hd Hd Hx Ht Hhd Hxa. cbv zeta. unfold relist. fold hd. rewrite !tag_or by done.
  apply not_elem_of_cons in Hx as Hx'. destruct Hx' as [Hxh Hxl].
  pose proof (linked_first _ _ _ _ _ (proj1 Hd)) as Hf. rewrite Hf.
  assert (first hd l ∈ hd :: l) as Hfin by apply first_in. set (n := first hd l) in *.
  assert (x <> n) as Hxn by (intros ->; done).
  read_heap. rewrite Z.eqb_refl, (proj2 (Z.eqb_neq x hd) Hxh).
  split; [done|]. split.
  - apply (front_ok (heap p)); [done|done|..]; read_heap.
    + by rewrite Z.eqb_refl.
    + rewrite (proj2 (Z.eqb_neq x n) Hxn). by rewrite Z.eqb_refl.
    + rewrite (proj2 (Z.eqb_neq x hd) Hxh). by rewrite Z.eqb_refl.
    + intros y l' ->. read_heap. cbn [first] in n. subst n. by rewrite Z.eqb_refl.
    + intros y Hy. read_heap. rewrite (proj2 (Z.eqb_neq y hd)), (proj2 (Z.eqb_neq y x)); [done|by intros ->|].
      intros ->. destruct Hd as [_ Hnd]. by apply NoDup_cons in Hnd as [? _].
    + intros y Hy Hne. read_heap. rewrite (proj2 (Z.eqb_neq y n) Hne), (proj2 (Z.eqb_neq y x)); [done|by intros ->].
  - assert (n ∈ hd :: x :: l) as Hn' by (rewrite !elem_of_cons in *; tauto).
    repeat first [eapply keeps_trans; [|apply keeps_prev]|eapply keeps_trans; [|apply keeps_next]]; try done; try (by left); try (right; by left).
Qed.

(** The end of [ngx_slab_free_pages]. *)
Lemma slab_push_ok p hd l x : dlist (heap p) 0 hd l -> x ∉ hd :: l ->
  let p' := let p := set_prev x hd p in let p := set_next x (p_next (heap p hd)) p in
    let p := set_prev (p_next (heap p x)) x p in set_next hd x p in
  same_pool p p' /\ dlist (heap p') 0 hd (x :: l) /\ keeps (hd :: x :: l) (heap p) (heap p').
Proof.
  intros Hd Hx. cbv zeta. apply not_elem_of_cons in Hx as Hx'. destruct Hx' as [Hxh Hxl].
  pose proof (linked_first _ _ _ _ _ (proj1 Hd)) as Hf.
  assert (first hd l ∈ hd :: l) as Hfin by apply first_in. set (n := first hd l) in *.
  assert (x <> n) as Hxn by (intros ->; done).
  read_heap. rewrite Z.eqb_refl, Hf. split; [done|]. split.
  - apply (front_ok (heap p)); [done|done|..]; read_heap.
    + by rewrite Z.eqb_refl.
    + rewrite (proj2 (Z.eqb_neq x n) Hxn), Z.eqb_refl. lia.
    + rewrite (proj2 (Z.eqb_neq x hd) Hxh). by rewrite Z.eqb_refl.
    + intros y l' ->. read_heap. cbn [first] in n. subst n. rewrite Z.eqb_refl. lia.
    + intros y Hy. read_heap. rewrite (proj2 (Z.eqb_neq y hd)), (proj2 (Z.eqb_neq y x)); [done|by intros ->|].
      intros ->. destruct Hd as [_ Hnd]. by apply NoDup_cons in Hnd as [? _].
    + intros y Hy Hne. read_heap. rewrite (proj2 (Z.eqb_neq y n) Hne), (proj2 (Z.eqb_neq y x)); [done|by intros ->].
  - assert (n ∈ hd :: x :: l) as Hn' by (rewrite !elem_of_cons in *; tauto).
    repeat first [eapply keeps_trans; [|apply keeps_prev]|eapply keeps_trans; [|apply keeps_next]]; try done; try (by left); try (right; by left).
Qed.

(** The rest of a run takes its place: the links in [take_pages]. *)
Lemma slab_replace_ok p hd l1 x l2 y : dlist (heap p) 0 hd (l1 ++ x :: l2) -> y ∉ hd :: l1 ++ x :: l2 ->
  let p' := let p := set_next y (p_next (heap p x)) p in let p := set_prev y (p_prev (heap p x)) p in
    let p := set_next (p_prev (heap p x)) y p in set_prev (p_next (heap p x)) y p in
  same_pool p p' /\ dlist (heap p') 0 hd (l1 ++ y :: l2) /\ keeps (hd :: l1 ++ y :: l2) (heap p) (heap p').
Proof.
  intros Hd Hy. pose proof (dlist_prev _ _ _ _ _ _ Hd) as [Hp Hn]. rewrite Z.add_0_r in Hp.
  pose proof (dlist_nodup _ _ _ _ _ _ Hd) as (Hnd & Hxh & Hx1 & Hx2). cbv zeta.
  assert (Hfin : final hd l1 ∈ hd :: l1) by apply final_in. assert (Hfst : first hd l2 ∈ hd :: l2) by apply first_in.
  set (q := final hd l1) in *. set (n := first hd l2) in *.
  assert (x <> q) as Hxq by (intros ->; apply elem_of_cons in Hfin as [?|?]; done).
  assert (x <> n) as Hxn by (intros ->; apply elem_of_cons in Hfst as [?|?]; done).
  assert (y <> x /\ y <> hd /\ y ∉ l1 /\ y ∉ l2) as (Hyx & Hyh & Hy1 & Hy2).
  { rewrite elem_of_cons, elem_of_app, elem_of_cons in Hy. tauto. }
  assert (y <> q) as Hyq by (intros ->; apply elem_of_cons in Hfin as [?|?]; done).
  assert (y <> n) as Hyn by (intros ->; apply elem_of_cons in Hfst as [?|?]; done).
  assert (x =? y = false) as Hxy by (apply Z.eqb_neq; congruence).
  read_heap. rewrite Hxy, Hp, (proj2 (Z.eqb_neq x q) Hxq), Hn. split; [done|]. split.
  - split.
    + apply (linked_splice (heap p) _ _ _ _ [x] [y]); fold q n; [apply Hd|done|..].
      * cbn [linked]. read_heap. rewrite Z.eqb_refl, (proj2 (Z.eqb_neq y n) Hyn), Z.eqb_refl, (proj2 (Z.eqb_neq y q) Hyq). lia.
      * intros z l Hz. subst n. rewrite Hz. cbn [first final]. read_heap. rewrite Z.eqb_refl. lia.
      * intros z Hz Hne. read_heap. rewrite (proj2 (Z.eqb_neq z q) Hne), (proj2 (Z.eqb_neq z y)); [done|]. intros ->.
        rewrite elem_of_cons, elem_of_app in Hz. tauto.
      * intros z Hz Hne. read_heap. rewrite (proj2 (Z.eqb_neq z n) Hne), (proj2 (Z.eqb_neq z y)); [done|]. intros ->.
        rewrite elem_of_app in Hz. tauto.
    + rewrite <- Permutation_middle, Permutation_swap. constructor; [|done]. rewrite elem_of_cons, elem_of_app. tauto.
  - assert (forall z, z ∈ hd :: l1 \/ z ∈ hd :: l2 -> z ∈ hd :: l1 ++ y :: l2) as Hin.
    { intros z. rewrite !elem_of_cons, elem_of_app, elem_of_cons. tauto. }
    assert (y ∈ hd :: l1 ++ y :: l2) as Hyin by (rewrite elem_of_cons, elem_of_app, elem_of_cons; tauto).
    repeat first [eapply keeps_trans; [|apply keeps_prev]|eapply keeps_trans; [|apply keeps_next]]; try done; apply Hin; tauto.
Qed.

(** A page that begins an empty list, with its mask. *)
Lemma enlist_ok p t slot x v : let hd := at_page (slots p) slot in
  dlist (heap p) t hd [] -> x <> hd -> 0 <= t < 4 -> (4 | hd) ->
  let p' := enlist x slot v t p in
  same_pool p p' /\ dlist (heap p') t hd [x] /\ slab (heap p' x) = v /\
  (forall a, a <> x -> slab (heap p' a) = slab (heap p a)) /\ (forall a, a <> x -> a <> hd -> heap p' a = heap p a).
Proof.
  intros hd Hd Hx Ht Hhd. cbv zeta. unfold enlist. change (slots (set_slab x v p)) with (slots p). fold hd. rewrite tag_or by done.
  split; [done|]. split; [|split; [|split]].
  - split; [cbn [linked]; read_heap|].
    + rewrite !Z.eqb_refl. by rewrite (proj2 (Z.eqb_neq x hd) Hx).
    + constructor; [by rewrite list_elem_of_singleton|]. constructor; [by apply not_elem_of_nil|constructor].
  - read_heap. by rewrite Z.eqb_refl.
  - intros a Ha. read_heap. by rewrite (proj2 (Z.eqb_neq a x)).
  - intros a Ha Hah. by rewrite heap_next_ne, heap_prev_ne, heap_next_ne, heap_slab_ne.
Qed.

(** [p->next] of a free page, without the mask. *)
Lemma unlink_free x p v : p_prev (heap p x) = v -> (4 | v) -> 0 <= v < 2 ^ 64 - 4 ->
  (let p := set_next (p_prev (heap p x)) (p_next (heap p x)) p in set_prev (p_next (heap p x)) (p_prev (heap p x)) p) = unlink x p.
Proof.
  intros Hv H4 Hb. unfold unlink, ngx_slab_page_prev. rewrite Hv.
  assert (Z.land v (lnot64 NGX_SLAB_PAGE_MASK) = v) as ->; [|done]. rewrite <- (Z.add_0_r v) at 1. by apply tag_prev.
Qed.
