(* ===== verification/NgxSlabSegs.v ===== *)
(** * NgxSlabSegs: segments

    A list of segments describes the pages of a pool; [lay] says that the
    descriptors and the bit maps are those of the segments, [invariant] that
    the lists are those of the free runs and of the pages with free chunks, and
    [blocks] is what is in use. *)

From S2P Require Import Prelude NgxSprintf NgxSlab NgxSlabLayout.

Inductive seg : Type :=
  | Free (k : Z)
  | Block (k : Z)
  | Chunks (s u : Z).

Definition len (g : seg) : Z := match g with Free k | Block k => k | Chunks _ _ => 1 end.
Fixpoint total_len (segs : list seg) : Z := match segs with [] => 0 | g :: segs => len g + total_len segs end.

(** Chunks of [2 ^ s] bytes: how many, and how many hold the bit map. *)
Definition chunks (s : Z) : Z := 2 ^ (12 - s).
Definition reserved (s : Z) : Z := if s <? 6 then map_chunks s else 0.

Definition chunk_type (s : Z) : Z :=
  if s <? ngx_slab_exact_shift then NGX_SLAB_SMALL else if s =? ngx_slab_exact_shift then NGX_SLAB_EXACT else NGX_SLAB_BIG.

(** A mask of chunks in use, with that of the bit map, and one more. *)
Definition mask_ok (s u : Z) : Prop :=
  0 <= u < 2 ^ chunks s /\ (forall j, 0 <= j < reserved s -> Z.testbit u j = true) /\
  exists j, reserved s <= j < chunks s /\ Z.testbit u j = true.

Definition full (s u : Z) : bool := u =? 2 ^ chunks s - 1.


Section Segments.
(** The first descriptor, the first page, and the number of pages. *)
Context (pg st np : Z).

Definition A (i : Z) : Z := at_page pg i.

(** The mask [u] of the page [i]. *)
Definition bits (h : Z -> page) (w : Z -> Z) (i s u : Z) : Prop :=
  if s <? ngx_slab_exact_shift then
    slab (h (A i)) = s /\ forall n, 0 <= n < map_words s -> w (st + i * ngx_pagesize + n * sizeof_uintptr_t) = (u / 2 ^ (64 * n)) mod 2 ^ 64
  else if s =? ngx_slab_exact_shift then slab (h (A i)) = u
  else slab (h (A i)) = u * 2 ^ 32 + s.

(** A page of a free run that is not its first. *)
Definition idle (h : Z -> page) (i : Z) : Prop :=
  slab (h (A i)) = NGX_SLAB_PAGE_FREE /\ Z.land (p_prev (h (A i))) NGX_SLAB_PAGE_MASK = NGX_SLAB_PAGE.

Definition seg_ok (h : Z -> page) (w : Z -> Z) (i : Z) (g : seg) : Prop :=
  match g with
  | Free k => 0 < k /\ slab (h (A i)) = k /\
      (1 < k -> slab (h (A (i + k - 1))) = NGX_SLAB_PAGE_FREE /\ (i + k < np -> p_prev (h (A (i + k - 1))) = A i)) /\
      forall j, 0 < j < k -> idle h (i + j)
  | Block k => 0 < k /\ h (A i) = Page (k + NGX_SLAB_PAGE_START) NULL NGX_SLAB_PAGE /\
      (forall j, 0 < j < k -> h (A (i + j)) = Page NGX_SLAB_PAGE_BUSY NULL NGX_SLAB_PAGE)
  | Chunks s u => 3 <= s < 12 /\ mask_ok s u /\ bits h w i s u /\
      (full s u = true -> p_next (h (A i)) = NULL /\ p_prev (h (A i)) = chunk_type s)
  end.

Fixpoint lay (h : Z -> page) (w : Z -> Z) (i : Z) (segs : list seg) : Prop :=
  match segs with
  | [] => True
  | g :: segs => seg_ok h w i g /\ lay h w (i + len g) segs
  end.

(** The first pages of free runs, those with free chunks of one size, and all of these. *)
Definition seg_free (i : Z) (g : seg) : list Z := match g with Free _ => [A i] | _ => [] end.
Definition seg_open (s i : Z) (g : seg) : list Z :=
  match g with Chunks s' u => if (s' =? s) && negb (full s' u) then [A i] else [] | _ => [] end.
Definition seg_head (i : Z) (g : seg) : list Z :=
  match g with Free _ => [A i] | Block _ => [] | Chunks s u => if negb (full s u) then [A i] else [] end.

Fixpoint collect {T} (f : Z -> seg -> list T) (i : Z) (segs : list seg) : list T :=
  match segs with
  | [] => []
  | g :: segs => f i g ++ collect f (i + len g) segs
  end.

Definition frees := collect seg_free.
Definition opens (s : Z) := collect (seg_open s).
Definition heads := collect seg_head.

(** What is in use, with the sizes. *)
Definition page_addr (i : Z) : Z := st + i * ngx_pagesize.
Definition seg_blocks (i : Z) (g : seg) : list (Z * Z) :=
  match g with
  | Free _ => []
  | Block k => [(page_addr i, k * ngx_pagesize)]
  | Chunks s u => (fun j => (page_addr i + j * 2 ^ s, 2 ^ s)) <$> filter (fun j => Z.testbit u j = true) (seqZ (reserved s) (chunks s - reserved s))
  end.
Definition blocks := collect seg_blocks.

Lemma total_len_app l r : total_len (l ++ r) = total_len l + total_len r.
Proof. induction l as [|g l IH]; cbn; [done|]. rewrite IH. lia. Qed.

Lemma collect_app {T} (f : Z -> seg -> list T) i l r : collect f i (l ++ r) = collect f i l ++ collect f (i + total_len l) r.
Proof.
  revert i. induction l as [|g l IH]; intros i; cbn; [by rewrite Z.add_0_r|]. rewrite IH, <- app_assoc. do 3 f_equal. lia.
Qed.

Lemma lay_app h w i l r : lay h w i (l ++ r) <-> lay h w i l /\ lay h w (i + total_len l) r.
Proof.
  revert i. induction l as [|g l IH]; intros i; cbn; [rewrite Z.add_0_r; tauto|]. rewrite IH.
  rewrite Z.add_assoc. tauto.
Qed.

Lemma seg_len h w i g : seg_ok h w i g -> 0 < len g.
Proof. destruct g; cbn; [by intros (? & _)|by intros (? & _)|lia]. Qed.

Lemma lay_len h w i segs : lay h w i segs -> 0 <= total_len segs.
Proof.
  revert i. induction segs as [|g segs IH]; intros i; cbn; [done|]. intros [Hg Hl]. apply seg_len in Hg. specialize (IH _ Hl). lia.
Qed.

Lemma collect_in {T} (f : Z -> seg -> list T) i segs x : x ∈ collect f i segs <->
  exists l g r, segs = l ++ g :: r /\ x ∈ f (i + total_len l) g.
Proof.
  split.
  - revert i. induction segs as [|g segs IH]; intros i; cbn; [by intros ?%elem_of_nil|]. intros [Hx|Hx]%elem_of_app.
    + exists [], g, segs. cbn. by rewrite Z.add_0_r.
    + destruct (IH _ Hx) as (l & g' & r & -> & Hg). exists (g :: l), g', r. split; [done|]. cbn.
      rewrite Z.add_assoc. done.
  - intros (l & g & r & -> & Hx). rewrite collect_app. cbn. apply elem_of_app. right. apply elem_of_app. by left.
Qed.

Lemma seg_head_eq i g : seg_head i g = [A i] \/ seg_head i g = [].
Proof. destruct g as [k|k|s u]; cbn; [by left|by right|]. destruct (full s u); cbn; [by right|by left]. Qed.

(** The address of a head is that of the first page of a segment. *)
Lemma heads_in h w i segs a : lay h w i segs -> a ∈ heads i segs -> exists j, a = A j /\ i <= j < i + total_len segs.
Proof.
  intros Hl Ha. apply collect_in in Ha as (l & g & r & -> & Hg). rewrite lay_app in Hl. destruct Hl as [Hl [Hok Hr]].
  apply lay_len in Hl as Hl0. apply lay_len in Hr as Hr0. pose proof (seg_len _ _ _ _ Hok).
  exists (i + total_len l). rewrite total_len_app. cbn. split; [|lia].
  destruct (seg_head_eq (i + total_len l) g) as [Hh|Hh]; rewrite Hh in Hg; [by apply list_elem_of_singleton in Hg|by apply elem_of_nil in Hg].
Qed.

Lemma frees_heads i segs a : a ∈ frees i segs -> a ∈ heads i segs.
Proof.
  intros (l & g & r & -> & Hg)%collect_in. apply collect_in. exists l, g, r. split; [done|]. destruct g; cbn in *; [done|by apply elem_of_nil in Hg..].
Qed.
Lemma opens_heads s i segs a : a ∈ opens s i segs -> a ∈ heads i segs.
Proof.
  intros (l & g & r & -> & Hg)%collect_in. apply collect_in. exists l, g, r. split; [done|]. destruct g as [| |s' u]; cbn in *; [by apply elem_of_nil in Hg..|].
  destruct (s' =? s); cbn in Hg; [done|by apply elem_of_nil in Hg].
Qed.

Lemma A_inj i j : A i = A j -> i = j.
Proof. unfold A, at_page, sizeof_ngx_slab_page_t. lia. Qed.

(** ** What a segment depends on *)

Lemma seg_frame h h' w w' i g :
  (forall j, i <= j < i + len g -> slab (h' (A j)) = slab (h (A j)) /\ (A j ∉ seg_head i g -> h' (A j) = h (A j))) ->
  (forall x, page_addr i <= x < page_addr (i + len g) -> w' x = w x) ->
  seg_ok h w i g -> seg_ok h' w' i g.
Proof.
  intros Hh Hw. destruct g as [k|k|s u]; cbn in *.
  - intros (Hk & Hs & Hl & Hid). split; [done|]. destruct (Hh i ltac:(lia)) as [-> _]. split; [done|].
    assert (forall j, 0 < j < k -> h' (A (i + j)) = h (A (i + j))) as Hin.
    { intros j Hj. apply Hh; [lia|]. intros Hin%list_elem_of_singleton. apply A_inj in Hin. lia. }
    split; [|intros j Hj; unfold idle; rewrite Hin by done; by apply Hid].
    intros H1. replace (i + k - 1) with (i + (k - 1)) in * by lia. rewrite Hin by lia. by apply Hl.
  - intros (Hk & Hs & Hl). split; [done|]. destruct (Hh i ltac:(lia)) as [_ ->]; [|apply not_elem_of_nil]. split; [done|].
    intros j Hj. destruct (Hh (i + j) ltac:(lia)) as [_ ->]; [by apply Hl|apply not_elem_of_nil].
  - intros (Hs & Hm & Hb & Hf). destruct (Hh i ltac:(lia)) as [Hsl Hhead]. split; [done|]. split; [done|]. split.
    + unfold bits in *. destruct (Z.ltb_spec s ngx_slab_exact_shift) as [H6|H6]; [|by rewrite Hsl].
      rewrite Hsl. destruct Hb as [Hb1 Hb2]. split; [done|]. intros n Hn. rewrite Hw; [by apply Hb2|].
      unfold page_addr, ngx_pagesize, sizeof_uintptr_t. assert (map_words s <= 8); [|lia].
      change ngx_slab_exact_shift with 6 in H6. assert (s = 3 \/ s = 4 \/ s = 5) as [-> | [-> | ->]] by lia; by vm_compute.
    + intros Hfull. rewrite Hfull in Hhead. cbn in Hhead. rewrite Hhead by apply not_elem_of_nil. by apply Hf.
Qed.

Lemma lay_frame h h' w w' i segs :
  (forall j, i <= j < i + total_len segs -> slab (h' (A j)) = slab (h (A j)) /\ (A j ∉ heads i segs -> h' (A j) = h (A j))) ->
  (forall x, page_addr i <= x < page_addr (i + total_len segs) -> w' x = w x) ->
  lay h w i segs -> lay h' w' i segs.
Proof.
  revert i. induction segs as [|g segs IH]; intros i Hh Hw; cbn; [done|]. intros [Hg Hl].
  pose proof (seg_len _ _ _ _ Hg) as Hlen. pose proof (lay_len _ _ _ _ Hl) as Htot. cbn [total_len] in Hh, Hw. split.
  - eapply seg_frame; [..|exact Hg].
    + intros j Hj. destruct (Hh j ltac:(lia)) as [H1 H2]. split; [done|]. intros Hn. apply H2. unfold heads. cbn.
      rewrite elem_of_app. intros [?|Hin]; [done|]. destruct (heads_in _ _ _ _ _ Hl Hin) as (j' & Hj' & ?). apply A_inj in Hj'. lia.
    + intros x Hx. apply Hw. unfold page_addr, ngx_pagesize in *. lia.
  - apply IH; [..|exact Hl].
    + intros j Hj. destruct (Hh j ltac:(lia)) as [H1 H2]. split; [done|]. intros Hn. apply H2. unfold heads. cbn.
      rewrite elem_of_app. intros [Hin|?]; [|done]. destruct (seg_head_eq i g) as [E|E]; rewrite E in Hin; [|by apply elem_of_nil in Hin].
      apply list_elem_of_singleton, A_inj in Hin. lia.
    + intros x Hx. apply Hw. unfold page_addr, ngx_pagesize in *. lia.
Qed.

(** ** Where a page belongs *)

Lemma lay_unique h w i l1 g1 r1 l2 g2 r2 j : lay h w i (l1 ++ g1 :: r1) -> l1 ++ g1 :: r1 = l2 ++ g2 :: r2 ->
  i + total_len l1 <= j < i + total_len l1 + len g1 -> i + total_len l2 <= j < i + total_len l2 + len g2 ->
  l1 = l2 /\ g1 = g2 /\ r1 = r2.
Proof.
  revert i l2. induction l1 as [|x l1 IH]; intros i l2 Hl Heq H1 H2; destruct l2 as [|y l2]; cbn in *.
  - by injection Heq as -> ->.
  - injection Heq as -> ->. exfalso. destruct Hl as [_ Hl]. apply lay_app in Hl as [Hl _]. apply lay_len in Hl. lia.
  - injection Heq as -> <-. exfalso. destruct Hl as [_ Hl]. apply lay_app in Hl as [Hl _]. apply lay_len in Hl. lia.
  - injection Heq as -> Heq. destruct Hl as [_ Hl]. destruct (IH _ _ Hl Heq) as (-> & -> & ->); [lia|lia|done].
Qed.

(** The segment that a page heads. *)
Lemma heads_owner h w i l g r a : lay h w i (l ++ g :: r) -> a = A (i + total_len l) ->
  (a ∈ frees i (l ++ g :: r) -> exists k, g = Free k) /\
  (forall s, a ∈ opens s i (l ++ g :: r) -> exists u, g = Chunks s u /\ full s u = false) /\
  (a ∈ heads i (l ++ g :: r) -> a ∈ seg_head (i + total_len l) g).
Proof.
  intros Hl ->.
  assert (Hown : forall {T} (f : Z -> seg -> list T) (v : T), v ∈ collect f i (l ++ g :: r) ->
    (forall j g', v ∈ f j g' -> 0 < len g' -> j = i + total_len l) -> v ∈ f (i + total_len l) g).
  { intros T f v Hv Hpos. apply collect_in in Hv as (l' & g' & r' & Heq & Hg'). assert (Hl' := Hl). rewrite Heq in Hl'.
    assert (0 < len g') as Hlen by (apply lay_app in Hl' as [_ [Hok _]]; by eapply seg_len).
    assert (0 < len g) as Hlen2 by (apply lay_app in Hl as [_ [Hok _]]; by eapply seg_len).
    pose proof (Hpos _ _ Hg' Hlen) as Hpo. destruct (lay_unique _ _ _ _ _ _ _ _ _ (i + total_len l) Hl Heq) as (-> & -> & ->); [lia|lia|done]. }
  split; [|split].
  - intros Hin. apply Hown in Hin; [destruct g as [k| |]; cbn in Hin; [by exists k|by apply elem_of_nil in Hin..]|].
    intros j [k| |] Hj _; cbn in Hj; [|by apply elem_of_nil in Hj..]. apply list_elem_of_singleton, A_inj in Hj. done.
  - intros s Hin. apply Hown in Hin.
    + destruct g as [| |s' u]; cbn in Hin; [by apply elem_of_nil in Hin..|]. destruct (Z.eqb_spec s' s) as [->|]; [|by apply elem_of_nil in Hin].
      destruct (full s u) eqn:Hf; [by apply elem_of_nil in Hin|by exists u].
    + intros j [| |s' u] Hj _; cbn in Hj; [by apply elem_of_nil in Hj..|]. destruct ((s' =? s) && negb (full s' u)); [|by apply elem_of_nil in Hj].
      by apply list_elem_of_singleton, A_inj in Hj.
  - intros Hin. apply Hown in Hin; [done|]. intros j g' Hj _. destruct (seg_head_eq j g') as [E|E]; rewrite E in Hj; [|by apply elem_of_nil in Hj].
    by apply list_elem_of_singleton, A_inj in Hj.
Qed.

(** ** Blocks lie apart *)

Lemma seg_blocks_range h w i g b : seg_ok h w i g -> b ∈ seg_blocks i g ->
  page_addr i <= b.1 /\ b.1 + b.2 <= page_addr (i + len g) /\ 0 < b.2.
Proof.
  destruct g as [k|k|s u]; cbn.
  - by intros _ ?%elem_of_nil.
  - intros (Hk & _) ->%list_elem_of_singleton. cbn. unfold page_addr, ngx_pagesize. lia.
  - intros (Hs & _) (j & -> & Hj)%list_elem_of_fmap. apply list_elem_of_filter in Hj as [_ Hj%elem_of_seqZ]. cbn.
    assert (0 <= reserved s) as Hr.
    { unfold reserved. destruct (Z.ltb_spec s 6); [|lia]. assert (s = 3 \/ s = 4 \/ s = 5) as [-> | [-> | ->]] by lia; by vm_compute. }
    assert (0 < 2 ^ s) as H2 by (apply Z.pow_pos_nonneg; lia).
    assert (chunks s * 2 ^ s = ngx_pagesize) as Hc.
    { unfold chunks. rewrite <- Z.pow_add_r by lia. by replace (12 - s + s) with 12 by lia. }
    unfold page_addr. nia.
Qed.

Lemma blocks_range h w i segs b : lay h w i segs -> b ∈ blocks i segs ->
  page_addr i <= b.1 /\ b.1 + b.2 <= page_addr (i + total_len segs) /\ 0 < b.2.
Proof.
  intros Hl (l & g & r & -> & Hb)%collect_in. apply lay_app in Hl as [Hl [Hg Hr]].
  apply lay_len in Hl. apply lay_len in Hr. destruct (seg_blocks_range _ _ _ _ _ Hg Hb) as (H1 & H2 & H3).
  rewrite total_len_app. cbn. unfold page_addr, ngx_pagesize in *. lia.
Qed.

Lemma blocks_apart h w i segs : lay h w i segs -> apart (blocks i segs).
Proof.
  revert i. induction segs as [|g segs IH]; intros i; cbn; [done|]. intros [Hg Hl]. unfold blocks. cbn. apply apart_app.
  split; [|split; [by apply IH|]].
  - destruct g as [k|k|s u]; cbn; [done|split; [constructor|done]|]. destruct Hg as (Hs & _).
    apply apart_fmap; [apply NoDup_filter, NoDup_seqZ|]. intros x y Hxy. unfold separate. cbn.
    assert (0 < 2 ^ s) by (apply Z.pow_pos_nonneg; lia). destruct (Z.lt_total x y) as [?|[?|?]]; [left; nia|done|right; nia].
  - intros x y Hx Hy. pose proof (seg_blocks_range _ _ _ _ _ Hg Hx) as (_ & H1 & _).
    pose proof (blocks_range _ _ _ _ _ Hl Hy) as (H2 & _). left. lia.
Qed.
End Segments.
