(* ===== verification/NgxSlabPages.v ===== *)
(** * NgxSlabPages: runs of pages

    The invariant of a pool, and what taking and freeing pages does to its
    segments: a run is split, and a run that becomes free is joined with those
    next to it. *)

From S2P Require Import Prelude NgxSprintf NgxSlab NgxSlabLayout NgxSlabSegs.

Fixpoint free_len (segs : list seg) : Z :=
  match segs with
  | [] => 0
  | Free k :: segs => k + free_len segs
  | _ :: segs => free_len segs
  end.

(** No two free runs are next to each other. *)
Fixpoint tight (segs : list seg) : bool :=
  match segs with
  | Free _ :: segs' => match segs' with Free _ :: _ => false | _ => tight segs' end
  | _ :: segs' => tight segs'
  | [] => true
  end.

Definition starts_free (segs : list seg) : bool := match segs with Free _ :: _ => true | _ => false end.
Definition ends_free (segs : list seg) : bool := starts_free (rev segs).

Lemma tight_cons g r : tight (g :: r) = tight r && negb (starts_free [g] && starts_free r).
Proof. destruct g as [k| |]; cbn; [|by rewrite andb_true_r..]. destruct r as [|[k'| |] r]; cbn; by rewrite ?andb_true_r, ?andb_false_r. Qed.

Lemma tight_app l r : tight (l ++ r) = tight l && tight r && negb (ends_free l && starts_free r).
Proof.
  induction l as [|g l IH]; [by rewrite andb_true_r|]. change ((g :: l) ++ r) with (g :: (l ++ r)). rewrite !tight_cons, IH. unfold ends_free.
  destruct l as [|g' l].
  - cbn [app]. destruct (tight r), (starts_free r), g; done.
  - assert (starts_free (rev (g :: g' :: l)) = starts_free (rev (g' :: l))) as ->.
    { cbn [rev]. by destruct ((rev l ++ [g'])) as [|x y] eqn:E; [by destruct (rev l)|]. }
    change (starts_free ((g' :: l) ++ r)) with (starts_free (g' :: l)).
    destruct (tight (g' :: l)), (tight r), (starts_free (rev (g' :: l))), (starts_free r), (starts_free [g] && starts_free (g' :: l)); done.
Qed.

Section Pool.
(** The descriptors, the first page and their number, the heads, and the end. *)
Context (pg st np sl fr en : Z).

Record geometry : Prop := {
  geo_np : 0 < np;
  geo_aligned : (8 | pg) /\ (8 | sl) /\ (8 | fr);
  geo_order : 0 < fr /\ fr + 24 <= sl /\ sl + 9 * 24 <= pg /\ pg + np * 24 <= st;
  geo_page : (ngx_pagesize | st);
  geo_end : st + np * ngx_pagesize <= en < 2 ^ 64
}.

Definition slot_head (s : Z) : Z := at_page sl (s - 3).

Record consts (p : slab_pool) : Prop := {
  c_min : min_size p = 8 /\ min_shift p = 3;
  c_pages : pages p = pg /\ last p = at_page pg np;
  c_start : start p = st /\ end_ p = en;
  c_heads : slots p = sl /\ free p = fr
}.

Record invariant (p : slab_pool) (segs : list seg) (fl : list Z) (ls : Z -> list Z) : Prop := {
  inv_consts : consts p;
  inv_total : total_len segs = np;
  inv_lay : lay pg st np (heap p) (words p) 0 segs;
  inv_free : dlist (heap p) 0 fr fl /\ fl ≡ₚ frees pg 0 segs;
  inv_open s : 3 <= s < 12 -> dlist (heap p) (chunk_type s) (slot_head s) (ls s) /\ ls s ≡ₚ opens pg s 0 segs;
  inv_tight : tight segs = true;
  inv_pfree : pfree p = free_len segs
}.

Context (Hg : geometry).
#[local] Abbreviation A := (A pg).

Ltac geo := destruct Hg as [? (? & ? & ?) (? & ? & ? & ?) ? ?]; unfold slot_head, NgxSlabSegs.A, at_page, sizeof_ngx_slab_page_t, ngx_pagesize in *.

Lemma A_fr j : 0 <= j -> A j <> fr.
Proof. geo. lia. Qed.
Lemma A_slot j s : 0 <= j -> s < 12 -> A j <> slot_head s.
Proof. geo. lia. Qed.
Lemma slot_fr s : 3 <= s -> slot_head s <> fr.
Proof. geo. lia. Qed.
Lemma slot_inj s s' : slot_head s = slot_head s' -> s = s'.
Proof. geo. lia. Qed.

Lemma div8 a b : (8 | a) -> (4 | a + b * 24).
Proof. intros [q ->]. exists (q * 2 + b * 6). lia. Qed.

Lemma aligned_A j : 0 <= j < np -> (4 | A j) /\ 0 < A j < 2 ^ 64 - 4.
Proof. intros Hj. geo. split; [by apply div8|lia]. Qed.
Lemma aligned_slot s : 3 <= s < 12 -> (4 | slot_head s) /\ 0 < slot_head s < 2 ^ 64 - 4.
Proof. intros Hj. geo. split; [by apply div8|lia]. Qed.
Lemma aligned_fr : (4 | fr) /\ 0 < fr < 2 ^ 64 - 4.
Proof. geo. split; [|lia]. rewrite <- (Z.add_0_r fr). by apply (div8 fr 0). Qed.

Lemma type_range s : 0 <= chunk_type s < 4.
Proof. unfold chunk_type. repeat case_match; by vm_compute. Qed.

(** ** The pages of the lists *)

Lemma head_index h w segs a : total_len segs = np -> lay pg st np h w 0 segs -> a ∈ heads pg 0 segs -> exists j, a = A j /\ 0 <= j < np.
Proof. intros Ht Hl Ha. destruct (heads_in _ _ _ _ _ _ _ _ Hl Ha) as (j & ? & ?). exists j. split; [done|lia]. Qed.

Lemma free_index p segs fl ls a : invariant p segs fl ls -> a ∈ fl -> exists j, a = A j /\ 0 <= j < np.
Proof.
  intros Hi Ha. destruct (inv_free _ _ _ _ Hi) as [_ Hp]. rewrite Hp in Ha. eapply head_index; [apply Hi|apply Hi|by apply frees_heads].
Qed.

Lemma open_index p segs fl ls s a : invariant p segs fl ls -> 3 <= s < 12 -> a ∈ ls s -> exists j, a = A j /\ 0 <= j < np.
Proof.
  intros Hi Hs Ha. destruct (inv_open _ _ _ _ Hi s Hs) as [_ Hp]. rewrite Hp in Ha. eapply head_index; [apply Hi|apply Hi|by eapply opens_heads].
Qed.

Lemma free_aligned p segs fl ls : invariant p segs fl ls -> aligned (fr :: fl).
Proof.
  intros Hi. constructor; [apply aligned_fr|]. apply Forall_forall. intros a Ha. destruct (free_index _ _ _ _ _ Hi Ha) as (j & -> & ?). by apply aligned_A.
Qed.

Lemma open_aligned p segs fl ls s : invariant p segs fl ls -> 3 <= s < 12 -> aligned (slot_head s :: ls s).
Proof.
  intros Hi Hs. constructor; [by apply aligned_slot|]. apply Forall_forall. intros a Ha.
  destruct (open_index _ _ _ _ _ _ Hi Hs Ha) as (j & -> & ?). by apply aligned_A.
Qed.

(** A page that a segment covers is in a list only as its first. *)
Lemma head_start h w l g r j : lay pg st np h w 0 (l ++ g :: r) -> total_len l <= j < total_len l + len g ->
  A j ∈ heads pg 0 (l ++ g :: r) -> j = total_len l /\ A j ∈ seg_head pg (total_len l) g.
Proof.
  intros Hl Hj Ha. assert (exists l' g' r', l ++ g :: r = l' ++ g' :: r' /\ j = total_len l' /\ 0 < len g') as (l' & g' & r' & Heq & Hj' & Hlen).
  { apply collect_in in Ha as (l' & g' & r' & Heq & Hh). exists l', g', r'. split; [done|]. rewrite Heq in Hl. apply lay_app in Hl as [_ [Hok _]].
    split; [|by eapply seg_len]. destruct (seg_head_eq pg (0 + total_len l') g') as [E|E]; rewrite E in Hh; [|by apply elem_of_nil in Hh].
    by apply list_elem_of_singleton, A_inj in Hh. }
  destruct (lay_unique _ _ _ _ _ _ _ _ _ _ _ _ j Hl Heq) as (<- & <- & <-); [lia|lia|]. split; [done|].
  apply (heads_owner pg st np h w 0 l g r (A j) Hl); [by rewrite Hj'|done].
Qed.

Lemma frees_opens h w i segs s a : lay pg st np h w i segs -> a ∈ frees pg i segs -> a ∈ opens pg s i segs -> False.
Proof.
  intros Hl H1 H2. apply collect_in in H1 as (l & g & r & -> & Hf).
  destruct g as [k| |]; cbn in Hf; [|by apply elem_of_nil in Hf..]. apply list_elem_of_singleton in Hf.
  destruct (heads_owner pg st np _ _ i l (Free k) r a Hl Hf) as (_ & Ho & _). by destruct (Ho s H2) as (u & ? & _).
Qed.

Lemma free_not_open p l g r fl ls s a : invariant p (l ++ g :: r) fl ls -> 3 <= s < 12 -> a ∈ fl -> a ∈ ls s -> False.
Proof.
  intros Hi Hs H1 H2. rewrite (proj2 (inv_free _ _ _ _ Hi)) in H1. rewrite (proj2 (inv_open _ _ _ _ Hi s Hs)) in H2.
  eapply frees_opens; [apply Hi|exact H1|exact H2].
Qed.

Lemma open_once p segs fl ls s s' a : invariant p segs fl ls -> 3 <= s < 12 -> 3 <= s' < 12 -> a ∈ ls s -> a ∈ ls s' -> s = s'.
Proof.
  intros Hi Hs Hs' H1 H2. rewrite (proj2 (inv_open _ _ _ _ Hi s Hs)) in H1. rewrite (proj2 (inv_open _ _ _ _ Hi s' Hs')) in H2.
  apply collect_in in H1 as (l & g & r & -> & Hf). pose proof (inv_lay _ _ _ _ Hi) as Hl.
  assert (a = A (0 + total_len l)) as Ha.
  { destruct g as [| |s1 u1]; cbn in Hf; [by apply elem_of_nil in Hf..|]. destruct ((s1 =? s) && negb (full s1 u1)); [|by apply elem_of_nil in Hf].
    by apply list_elem_of_singleton in Hf. }
  destruct (heads_owner pg st np _ _ 0 l g r a Hl Ha) as (_ & Ho & _).
  destruct (Ho s) as (u & -> & _). { apply collect_in. by exists l, g, r. }
  by destruct (Ho s' H2) as (u' & [= ->] & _).
Qed.

(** ** Segments in their place *)

Lemma lay_outer h h' w w' l old mid r : lay pg st np h w 0 (l ++ old ++ r) -> total_len mid = total_len old ->
  (forall j, 0 <= j < total_len l \/ total_len l + total_len old <= j < total_len (l ++ old ++ r) ->
    slab (h' (A j)) = slab (h (A j)) /\ (A j ∉ heads pg 0 (l ++ old ++ r) -> h' (A j) = h (A j))) ->
  (forall x, x < page_addr st (total_len l) \/ page_addr st (total_len l + total_len old) <= x -> w' x = w x) ->
  lay pg st np h' w' (total_len l) mid -> lay pg st np h' w' 0 (l ++ mid ++ r).
Proof.
  intros Hl Hm Hh Hw Hmid. assert (Hl' := Hl). rewrite !lay_app in Hl'. destruct Hl' as (H1 & H2 & H3).
  pose proof (lay_len _ _ _ _ _ _ _ H1) as L1. pose proof (lay_len _ _ _ _ _ _ _ H2) as L2. pose proof (lay_len _ _ _ _ _ _ _ H3) as L3.
  rewrite !total_len_app in Hh. rewrite Z.add_0_l in H2, H3.
  assert (Hheads : heads pg 0 (l ++ old ++ r) = heads pg 0 l ++ heads pg (total_len l) old ++ heads pg (total_len l + total_len old) r).
  { unfold heads. by rewrite !collect_app, Z.add_0_l. }
  rewrite Hheads in Hh. rewrite !lay_app, Z.add_0_l. split; [|split; [done|]].
  - eapply lay_frame; [..|exact H1].
    + intros j Hj. destruct (Hh j ltac:(lia)) as [Ha Hb]. split; [done|]. intros Hn. apply Hb. rewrite !elem_of_app. intros [?|[Hin|Hin]]; [done|..].
      * destruct (heads_in _ _ _ _ _ _ _ _ H2 Hin) as (j' & Hj' & ?). apply A_inj in Hj'. lia.
      * destruct (heads_in _ _ _ _ _ _ _ _ H3 Hin) as (j' & Hj' & ?). apply A_inj in Hj'. lia.
    + intros x Hx. apply Hw. left. rewrite Z.add_0_l in Hx. lia.
  - rewrite Hm. eapply lay_frame; [..|exact H3].
    + intros j Hj. destruct (Hh j ltac:(lia)) as [Ha Hb]. split; [done|]. intros Hn. apply Hb. rewrite !elem_of_app. intros [Hin|[Hin|?]]; [..|done].
      * destruct (heads_in _ _ _ _ _ _ _ _ H1 Hin) as (j' & Hj' & ?). apply A_inj in Hj'. lia.
      * destruct (heads_in _ _ _ _ _ _ _ _ H2 Hin) as (j' & Hj' & ?). apply A_inj in Hj'. lia.
    + intros x Hx. apply Hw. right. lia.
Qed.

(** ** Taking pages *)

Lemma busy_heap m a p : same_pool p (busy_pages m a p) /\
  (forall j, 0 <= j < Z.of_nat m -> heap (busy_pages m a p) (at_page a j) = Page NGX_SLAB_PAGE_BUSY NULL NGX_SLAB_PAGE) /\
  (forall y, (forall j, 0 <= j < Z.of_nat m -> y <> at_page a j) -> heap (busy_pages m a p) y = heap p y).
Proof.
  revert a p. induction m as [|m IH]; intros a p; cbn [busy_pages]; [split; [unfold same_pool; by destruct p|]; split; [intros j Hj; lia|done]|].
  set (p1 := set_prev a _ _). destruct (IH (at_page a 1) p1) as (H1 & H2 & H3).
  assert (forall j, at_page (at_page a 1) j = at_page a (j + 1)) as Hat by (intros; unfold at_page; lia).
  assert (heap p1 a = Page NGX_SLAB_PAGE_BUSY NULL NGX_SLAB_PAGE) as Ha.
  { subst p1. rewrite heap_prev, Z.eqb_refl. read_heap. by rewrite !Z.eqb_refl. }
  assert (forall y, y <> a -> heap p1 y = heap p y) as Hy.
  { intros y Hy. subst p1. by rewrite heap_prev_ne, heap_next_ne, heap_slab_ne. }
  split; [eapply same_trans; [|exact H1]; done|]. split.
  - intros j Hj. destruct (decide (j = 0)) as [->|Hne].
    + replace (at_page a 0) with a by (unfold at_page; lia). rewrite H3; [done|]. intros j' Hj'. rewrite Hat. unfold at_page, sizeof_ngx_slab_page_t. lia.
    + replace (at_page a j) with (at_page (at_page a 1) (j - 1)) by (rewrite Hat; f_equal; lia). apply H2. lia.
  - intros y Hya. rewrite H3.
    + apply Hy. replace a with (at_page a 0) by (unfold at_page; lia). apply Hya. lia.
    + intros j Hj. rewrite Hat. apply Hya. lia.
Qed.

(** The descriptors of a block. *)
Lemma block_heap p i n v w : 1 <= n ->
  let p' := busy_pages (Z.to_nat (n - 1)) (at_page (A i) 1) (set_pfree v (set_prev (A i) NGX_SLAB_PAGE (set_next (A i) NULL (set_slab (A i) w p)))) in
  p' = set_pfree v (set_heap (heap p') p) /\ heap p' (A i) = Page w NULL NGX_SLAB_PAGE /\
  (forall j, 0 < j < n -> heap p' (A (i + j)) = Page NGX_SLAB_PAGE_BUSY NULL NGX_SLAB_PAGE) /\
  (forall y, (forall j, 0 <= j < n -> y <> A (i + j)) -> heap p' y = heap p y).
Proof.
  intros Hn. cbv zeta. set (p1 := set_pfree v _). destruct (busy_heap (Z.to_nat (n - 1)) (at_page (A i) 1) p1) as (H1 & H2 & H3).
  assert (forall j, at_page (at_page (A i) 1) j = A (i + j + 1)) as Hat by (intros; unfold NgxSlabSegs.A, at_page; lia).
  unfold same_pool in H1. split; [etransitivity; [exact H1|done]|]. split; [|split].
  - rewrite H3.
    + subst p1. cbn [heap set_pfree]. rewrite heap_prev, Z.eqb_refl. read_heap. by rewrite !Z.eqb_refl.
    + intros j Hj. rewrite Hat. intros Heq%A_inj. lia.
  - intros j Hj. replace (A (i + j)) with (at_page (at_page (A i) 1) (j - 1)) by (rewrite Hat; f_equal; lia). apply H2. lia.
  - intros y Hy. rewrite H3.
    + subst p1. cbn [heap set_pfree]. specialize (Hy 0 ltac:(lia)). rewrite Z.add_0_r in Hy.
      by rewrite heap_prev_ne, heap_next_ne, heap_slab_ne.
    + intros j Hj. rewrite Hat. rewrite <- Z.add_assoc. apply Hy. lia.
Qed.

(** The lists of pages with free chunks, when the heap changes at pages of other segments. *)
Lemma open_lists p p' segs fl ls : invariant p segs fl ls ->
  (forall s a, 3 <= s < 12 -> a ∈ slot_head s :: ls s -> heap p' a = heap p a) ->
  forall s, 3 <= s < 12 -> dlist (heap p') (chunk_type s) (slot_head s) (ls s).
Proof.
  intros Hi Hh s Hs. destruct (inv_open _ _ _ _ Hi s Hs) as [[Hl Hnd] _]. split; [|done].
  eapply linked_ext; [..|exact Hl]; intros x Hx; (rewrite (Hh s); [done|done|]); [done|by right].
Qed.

Lemma consts_heap p h v : consts p -> consts (set_pfree v (set_heap h p)).
Proof. by intros [H1 H2 H3 H4]. Qed.

Lemma free_len_app l r : free_len (l ++ r) = free_len l + free_len r.
Proof. induction l as [|g l IH]; cbn; [done|]. rewrite IH. destruct g; lia. Qed.

Lemma free_len_range h w i segs : lay pg st np h w i segs -> 0 <= free_len segs <= total_len segs.
Proof.
  revert i. induction segs as [|g segs IH]; intros i; cbn; [done|]. intros [Hok Hl]. specialize (IH _ Hl).
  apply seg_len in Hok. destruct g; cbn in *; lia.
Qed.

Lemma np_small : np * 4096 < 2 ^ 64.
Proof. geo. lia. Qed.

(** A page with free chunks is none that a free run or a block covers. *)
Lemma open_outside p l g r fl ls s a : invariant p (l ++ g :: r) fl ls -> 3 <= s < 12 -> a ∈ ls s ->
  (forall u, g <> Chunks s u) -> exists j, a = A j /\ 0 <= j < np /\ ~ (total_len l <= j < total_len l + len g).
Proof.
  intros Hi Hs Ha Hne. destruct (open_index _ _ _ _ _ _ Hi Hs Ha) as (j & -> & Hj). exists j. split; [done|]. split; [done|]. intros Hr.
  rewrite (proj2 (inv_open _ _ _ _ Hi s Hs)) in Ha. pose proof (inv_lay _ _ _ _ Hi) as Hl.
  destruct (head_start _ _ _ _ _ _ Hl Hr (opens_heads _ _ _ _ _ Ha)) as [-> _].
  destruct (heads_owner pg st np _ _ 0 l g r _ Hl eq_refl) as (_ & Ho & _). destruct (Ho s Ha) as (u & -> & _). by apply (Hne u).
Qed.

(** The list of free runs at the place of one. *)
Lemma frees_split p l k r fl ls : invariant p (l ++ Free k :: r) fl ls -> exists f1 f2,
  fl = f1 ++ A (total_len l) :: f2 /\ f1 ++ f2 ≡ₚ frees pg 0 l ++ frees pg (total_len l + k) r /\
  slab (heap p (A (total_len l))) = k /\ 0 < k.
Proof.
  intros Hi. destruct (inv_free _ _ _ _ Hi) as [_ Hp]. unfold frees in Hp. rewrite collect_app in Hp. cbn in Hp. rewrite Z.add_0_l in Hp.
  fold (frees pg 0 l) (frees pg (total_len l + k) r) in Hp. set (x := A (total_len l)) in *.
  assert (x ∈ fl) as Hx by (rewrite Hp; apply elem_of_app; right; by left). apply list_elem_of_split in Hx as (f1 & f2 & ->).
  exists f1, f2. split; [done|]. rewrite <- !Permutation_middle in Hp. apply (inj (cons x)) in Hp. split; [done|].
  pose proof (inv_lay _ _ _ _ Hi) as Hl. apply lay_app in Hl as [_ [(Hk & Hs & _) _]]. by rewrite Z.add_0_l in Hs.
Qed.

Lemma free_inner p l k r fl ls j : invariant p (l ++ Free k :: r) fl ls -> total_len l < j < total_len l + k -> A j ∉ fr :: fl.
Proof.
  intros Hi Hj Hin. pose proof (inv_lay _ _ _ _ Hi) as Hl.
  assert (0 <= total_len l) by (apply lay_app in Hl as [Hl _]; by eapply lay_len).
  apply elem_of_cons in Hin as [Hin|Hin]; [by apply (A_fr j) in Hin; [|lia]|].
  rewrite (proj2 (inv_free _ _ _ _ Hi)) in Hin. destruct (head_start _ _ _ _ _ j Hl ltac:(cbn; lia) (frees_heads _ _ _ _ Hin)); lia.
Qed.

Lemma page_bounds p l g r fl ls : invariant p (l ++ g :: r) fl ls -> 0 <= total_len l /\ 0 < len g /\ total_len l + len g <= np.
Proof.
  intros Hi. pose proof (inv_lay _ _ _ _ Hi) as Hl. pose proof (inv_total _ _ _ _ Hi) as Ht. rewrite total_len_app in Ht. cbn in Ht.
  apply lay_app in Hl as [H1 [H2 H3]]. apply lay_len in H1, H3. apply seg_len in H2. lia.
Qed.

Definition rest (n k : Z) : list seg := if n <? k then [Free (k - n)] else [].

(** What [cut_run] does to the list and to the run. *)
Lemma cut_run_ok p l k r fl ls n : invariant p (l ++ Free k :: r) fl ls -> 1 <= n <= k -> let i := total_len l in
  let p' := cut_run n (A i) p in exists fl',
    same_pool p p' /\ dlist (heap p') 0 fr fl' /\ fl' ≡ₚ frees pg 0 l ++ frees pg (i + n) (rest n k ++ r) /\
    (n < k -> slab (heap p' (A (i + n))) = k - n /\
      (1 < k - n -> slab (heap p' (A (i + k - 1))) = NGX_SLAB_PAGE_FREE /\ p_prev (heap p' (A (i + k - 1))) = A (i + n)) /\
      forall j, n < j < k -> idle pg (heap p') (i + j)) /\
    (forall a, a ∉ fr :: fl -> (forall j, i < j < i + k -> a <> A j) -> heap p' a = heap p a) /\
    (forall a, (forall j, i < j < i + k -> a <> A j) -> slab (heap p' a) = slab (heap p a)) /\
    (forall a, a ∈ fr :: fl' -> forall j, i <= j < i + n -> a <> A j).
Proof.
  intros Hi Hn. cbv zeta. destruct (frees_split _ _ _ _ _ _ Hi) as (f1 & f2 & -> & Hperm & Hk & Hk0).
  destruct (page_bounds _ _ _ _ _ _ Hi) as (Hi0 & _ & Hi1). cbn [len] in Hi1. set (i := total_len l) in *.
  destruct (inv_free _ _ _ _ Hi) as [Hfree _]. pose proof (free_aligned _ _ _ _ Hi) as Hal.
  assert (Hfl : forall j, i < j < i + k -> A j ∉ fr :: f1 ++ A i :: f2) by (intros j Hj; by apply (free_inner _ _ _ _ _ _ _ Hi Hj)).
  assert (Hx : A i ∉ fr :: f1 ++ f2).
  { destruct (dlist_nodup _ _ _ _ _ _ Hfree) as (_ & ? & ? & ?). rewrite elem_of_cons, elem_of_app. tauto. }
  unfold cut_run, rest. rewrite Hk. destruct (Z.ltb_spec n k) as [Hlt|Hge].
  - replace (at_page (A i) n) with (A (i + n)) by (unfold NgxSlabSegs.A, at_page; lia).
    replace (at_page (A i) (k - 1)) with (A (i + k - 1)) by (unfold NgxSlabSegs.A, at_page; lia).
    set (y := A (i + n)). set (z := A (i + k - 1)).
    assert (y ∉ fr :: f1 ++ A i :: f2 /\ z ∉ fr :: f1 ++ A i :: f2) as [Hy Hz] by (split; apply Hfl; lia).
    set (p2 := set_slab y (k - n) (set_prev z y p)).
    assert (dlist (heap p2) 0 fr (f1 ++ A i :: f2)) as Hd2.
    { split; [|apply Hfree]. eapply linked_ext; [..|apply Hfree]; intros a Ha; subst p2; read_heap; [done|].
      rewrite (proj2 (Z.eqb_neq a z)); [done|]. intros ->. apply Hz. by right. }
    destruct (slab_replace_ok p2 fr f1 (A i) f2 y Hd2 Hy) as (Hs & Hd & Hkeep). cbv zeta in Hs, Hd, Hkeep. match type of Hs with same_pool _ ?q => set (p3 := q) in * end.
    exists (f1 ++ y :: f2). split; [eapply same_trans; [|exact Hs]; done|]. split; [done|]. split; [|split; [|split; [|split]]].
    + rewrite <- Permutation_middle, Hperm. cbn. replace (i + n + (k - n)) with (i + k) by lia. fold y. apply Permutation_middle.
    + intros _. destruct Hkeep as [Hks Hko]. rewrite Hks.
      pose proof (inv_lay _ _ _ _ Hi) as Hl. apply lay_app in Hl as [_ [(_ & _ & Hlast & Hidle) _]]. rewrite Z.add_0_l in Hlast, Hidle. fold i z in Hlast, Hidle.
      assert (forall j, n < j < k -> heap p3 (A (i + j)) = heap p2 (A (i + j)) /\ A (i + j) <> y) as Hin.
      { intros j Hj. assert (A (i + j) <> y) as Hjy by (intros Heq; apply A_inj in Heq; lia). split; [|done]. apply Hko.
        specialize (Hfl (i + j) ltac:(lia)). rewrite elem_of_cons, elem_of_app, elem_of_cons in Hfl |- *. tauto. }
      split; [subst p2; read_heap; by rewrite Z.eqb_refl|]. split.
      * intros H1. destruct (Hin (k - 1) ltac:(lia)) as [Heq Hzy]. replace (i + (k - 1)) with (i + k - 1) in Heq, Hzy by lia. fold z in Heq, Hzy. rewrite Heq. subst p2.
        read_heap. rewrite (proj2 (Z.eqb_neq z y) Hzy), Z.eqb_refl. split; [|done]. by apply Hlast; lia.
      * intros j Hj. destruct (Hin j Hj) as [Heq Hjy]. destruct (Hidle j ltac:(lia)) as [Hid1 Hid2]. unfold idle. rewrite Heq. subst p2. read_heap.
        rewrite (proj2 (Z.eqb_neq _ y) Hjy). split; [done|]. destruct (A (i + j) =? z); [|done].
        rewrite <- (Z.add_0_r y). apply (tag_type y 0); [|lia]. apply aligned_A. lia.
    + intros a Ha Hin. destruct Hkeep as [_ Hko]. rewrite Hko.
      * subst p2. rewrite heap_slab_ne, heap_prev_ne; [done|apply Hin; lia..].
      * assert (a <> y) by (apply Hin; lia). rewrite elem_of_cons, elem_of_app, elem_of_cons in Ha |- *. tauto.
    + intros a Hin. destruct Hkeep as [Hks _]. rewrite Hks. subst p2. read_heap. rewrite (proj2 (Z.eqb_neq a y)); [done|]. apply Hin. lia.
    + intros a Ha j Hj ->. assert (j = i \/ i < j) as [->|Hj'] by lia.
      * rewrite elem_of_cons, elem_of_app, elem_of_cons in Ha. rewrite elem_of_cons, elem_of_app in Hx. destruct Ha as [?|[?|[Heq|?]]]; [tauto|tauto| |tauto]. apply A_inj in Heq. lia.
      * specialize (Hfl j ltac:(lia)). rewrite elem_of_cons, elem_of_app, elem_of_cons in Ha, Hfl. destruct Ha as [?|[?|[Heq|?]]]; [tauto|tauto| |tauto].
        apply A_inj in Heq. lia.
  - destruct (dlist_prev _ _ _ _ _ _ Hfree) as [Hprev _]. rewrite Z.add_0_r in Hprev.
    assert (4 | final fr f1) as H4 by (eapply aligned_in; [exact Hal|]; apply in_front, final_in).
    assert (0 <= final fr f1 < 2 ^ 64 - 4) as Hb by (destruct (aligned_in (final fr f1) _ Hal) as [_ ?]; [apply in_front, final_in|lia]).
    pose proof (unlink_free (A i) p (final fr f1) Hprev H4 Hb) as Hun. cbv zeta in Hun |- *. rewrite Hun.
    destruct (slab_unlink_ok _ _ _ _ _ _ Hfree ltac:(lia) Hal) as (Hs & Hd & Hkeep). exists (f1 ++ f2).
    split; [done|]. split; [done|]. split; [by replace (i + n) with (i + k) by lia|]. split; [lia|]. destruct Hkeep as [Hks Hko].
    split; [|split; [intros; apply Hks|]].
    + intros a Ha _. apply Hko. rewrite elem_of_cons, elem_of_app, elem_of_cons in Ha. rewrite elem_of_cons, elem_of_app. tauto.
    + intros a Ha j Hj ->. assert (j = i \/ i < j) as [->|Hj'] by lia; [done|].
      specialize (Hfl j ltac:(lia)). rewrite elem_of_cons, elem_of_app, elem_of_cons in Hfl. rewrite elem_of_cons, elem_of_app in Ha. tauto.
Qed.

Lemma slot_not_free p segs fl ls s : invariant p segs fl ls -> 3 <= s < 12 -> slot_head s ∉ fr :: fl.
Proof.
  intros Hi Hs [Heq|Hin]%elem_of_cons; [by apply (slot_fr s) in Heq; [|lia]|].
  destruct (free_index _ _ _ _ _ Hi Hin) as (j & Hj & ?). symmetry in Hj. apply A_slot in Hj; [done|lia|lia].
Qed.

(** What a change leaves of the open lists: it keeps to the heads of free
    runs, and the pages of the segment. *)
Lemma open_lists_seg p p' l g r fl ls : invariant p (l ++ g :: r) fl ls -> (forall s u, g <> Chunks s u) ->
  (forall a, a ∉ fr :: fl -> (forall j, total_len l <= j < total_len l + len g -> a <> A j) -> heap p' a = heap p a) ->
  forall s, 3 <= s < 12 -> dlist (heap p') (chunk_type s) (slot_head s) (ls s).
Proof.
  intros Hi Hne Hh. destruct (page_bounds _ _ _ _ _ _ Hi) as (Hi0 & _ & _). apply (open_lists p p' _ _ _ Hi). intros s a Hs Ha. apply Hh.
  - apply elem_of_cons in Ha as [->|Ha]; [by eapply slot_not_free|]. intros [->|Hin]%elem_of_cons.
    + destruct (open_index _ _ _ _ _ _ Hi Hs Ha) as (j & Hj & ?). symmetry in Hj. by apply A_fr in Hj; [|lia].
    + by eapply (free_not_open p l g r fl ls s a).
  - intros j Hj ->. apply elem_of_cons in Ha as [Ha|Ha]; [apply A_slot in Ha; [done|lia|lia]|].
    destruct (open_outside _ _ _ _ _ _ _ _ Hi Hs Ha (Hne s)) as (j' & Hj' & _ & Hout). apply A_inj in Hj'. lia.
Qed.

Lemma collect_shift {T} (f : Z -> seg -> list T) i l old mid r : total_len mid = total_len old ->
  collect f i (l ++ mid ++ r) = collect f i l ++ collect f (i + total_len l) mid ++ collect f (i + total_len l + total_len old) r.
Proof. intros Hm. by rewrite !collect_app, Hm. Qed.

(** The first [n] pages of a run become a block. *)
Lemma take_pages_ok p l k r fl ls n : invariant p (l ++ Free k :: r) fl ls -> 1 <= n <= k ->
  let p' := take_pages n (A (total_len l)) p in
  words p' = words p /\ stats p' = stats p /\ exists fl', invariant p' (l ++ (Block n :: rest n k) ++ r) fl' ls.
Proof.
  intros Hi Hn. cbv zeta. destruct (cut_run_ok _ _ _ _ _ _ n Hi Hn) as (fl' & Hs & Hd & Hperm & Hrest & Hout & Hsl & Hfl').
  destruct (page_bounds _ _ _ _ _ _ Hi) as (Hi0 & _ & Hi1). cbn [len] in Hi1. pose proof np_small as Hnp.
  unfold take_pages. cbv zeta in *. set (i := total_len l) in *. set (p1 := cut_run n (A i) p) in *.
  destruct (block_heap p1 i n (u64 (pfree p1 - n)) (Z.lor n NGX_SLAB_PAGE_START) ltac:(lia)) as (Hp' & Hb1 & Hb2 & Hb3). cbv zeta in *.
  set (p' := busy_pages _ _ _) in *.
  assert (Hall : forall a, a ∉ fr :: fl -> (forall j, i <= j < i + k -> a <> A j) -> heap p' a = heap p a).
  { intros a Ha Hj. rewrite Hb3; [apply Hout; [done|intros j ?; apply Hj; lia]|]. intros j ?. apply Hj. lia. }
  assert (Hslab : forall a, (forall j, i <= j < i + k -> a <> A j) -> slab (heap p' a) = slab (heap p a)).
  { intros a Hj. rewrite Hb3; [apply Hsl; intros j ?; apply Hj; lia|]. intros j ?. apply Hj. lia. }
  assert (words p' = words p /\ stats p' = stats p /\ pfree p' = u64 (pfree p - n)) as (Hw & Hst & Hpf) by (rewrite Hp', Hs; done).
  split; [done|]. split; [done|]. exists fl'. pose proof (inv_lay _ _ _ _ Hi) as Hlay. pose proof (inv_total _ _ _ _ Hi) as Htot.
  assert (Hlen : total_len (Block n :: rest n k) = total_len [Free k]) by (unfold rest; cbn; destruct (Z.ltb_spec n k); cbn; lia).
  split.
  - rewrite Hp', Hs. apply consts_heap. apply (consts_heap p (heap p1) (pfree p)). by destruct (inv_consts _ _ _ _ Hi).
  - rewrite total_len_app in Htot. rewrite !total_len_app, Hlen. cbn [total_len len] in Htot |- *. lia.
  - rewrite Hw. apply (lay_outer (heap p) _ (words p) _ l [Free k]); [done|done| |done|].
    + intros j Hj. cbn in Hj. assert (forall j', i <= j' < i + k -> A j <> A j') as Hne by (intros j' ? Heq; apply A_inj in Heq; lia).
      split; [by apply Hslab|]. intros Hnh. apply Hall; [|done]. intros [Heq|Hin]%elem_of_cons; [apply A_fr in Heq; [done|]|].
      * cbn in Hj. apply lay_app in Hlay as [_ [_ Hr]]. apply lay_len in Hr. lia.
      * apply Hnh, frees_heads. by rewrite <- (proj2 (inv_free _ _ _ _ Hi)).
    + fold i. cbn [lay len seg_ok]. split; [split; [lia|]|].
      * split; [|done]. rewrite Hb1. f_equal. rewrite Z.lor_comm, (lor_add_low _ _ 63); [apply Z.add_comm|lia|by exists 1|lia].
      * unfold rest. destruct (Z.ltb_spec n k) as [Hlt|]; [|done]. split; [|done]. destruct (Hrest Hlt) as (Hr1 & Hr2 & Hr3). split; [lia|].
        rewrite Hb3 by (intros j ? Heq; apply A_inj in Heq; lia). split; [done|]. split.
        2:{ intros j Hj. replace (i + n + j) with (i + (n + j)) by lia. destruct (Hr3 (n + j) ltac:(lia)) as [Hr4 Hr5].
            unfold idle. by rewrite Hb3 by (intros j' ? Heq; apply A_inj in Heq; lia). }
        intros H1. replace (i + n + (k - n) - 1) with (i + k - 1) by lia. rewrite Hb3 by (intros j ? Heq; apply A_inj in Heq; lia).
        destruct (Hr2 H1) as [-> ->]. done.
  - split.
    + split; [|apply Hd]. eapply linked_ext; [..|apply Hd]; intros a Ha; rewrite Hb3; try done; intros j Hj; (apply Hfl'; [|lia]); [done|by right].
    + rewrite Hperm. unfold frees. rewrite (collect_shift _ 0 l [Free k] (Block n :: rest n k) r Hlen), Z.add_0_l. cbn. fold i.
      rewrite collect_app. replace (i + n + total_len (rest n k)) with (i + (k + 0)) by (unfold rest; destruct (Z.ltb_spec n k); cbn; lia). done.
  - intros s Hs'. split; [apply (open_lists_seg p p' l (Free k) r fl ls Hi); [done|exact Hall|done]|].
    rewrite (proj2 (inv_open _ _ _ _ Hi s Hs')). unfold opens. rewrite (collect_shift _ 0 l [Free k] (Block n :: rest n k) r Hlen).
    rewrite (collect_shift _ 0 l [Free k] [Free k] r eq_refl). cbn. unfold rest. by destruct (n <? k).
  - pose proof (inv_tight _ _ _ _ Hi) as Ht. change (l ++ Free k :: r) with (l ++ [Free k] ++ r) in Ht.
    unfold rest. destruct (n <? k); cbn [app]; rewrite !tight_app, !tight_cons in *; cbn in Ht |- *; rewrite ?andb_true_r, ?andb_false_r in *;
    destruct (tight l), (tight r), (ends_free l), (starts_free r); done.
  - rewrite Hpf, (inv_pfree _ _ _ _ Hi). pose proof (free_len_range _ _ _ _ Hlay) as Hfr. rewrite Htot in Hfr.
    assert (free_len (l ++ (Block n :: rest n k) ++ r) = free_len (l ++ Free k :: r) - n) as Heq.
    { rewrite !free_len_app. cbn. unfold rest. destruct (Z.ltb_spec n k); cbn; lia. }
    assert (0 <= free_len (l ++ (Block n :: rest n k) ++ r)).
    { rewrite !free_len_app. apply lay_app in Hlay as [H1 [_ H2]]. apply free_len_range in H1, H2. cbn. unfold rest. destruct (Z.ltb_spec n k); cbn; lia. }
    rewrite Heq in *. unfold u64. rewrite Z.mod_small; lia.
Qed.
End Pool.
