(* ===== verification/NgxSlabFree.v ===== *)
(** * NgxSlabFree: pages are allocated and become free

    The search for a run, and the two joins of a run that becomes free. *)

From S2P Require Import Prelude NgxSprintf NgxSlab NgxSlabLayout NgxSlabSegs NgxSlabPages.

Section Pool.
Context (pg st np sl fr en : Z).
Context (Hg : geometry pg st np sl fr en).
#[local] Abbreviation A := (A pg).
#[local] Abbreviation invariant := (invariant pg st np sl fr en).
#[local] Abbreviation consts := (consts pg st np sl fr en).
#[local] Abbreviation slot_head := (slot_head sl).

(** ** The search *)

Lemma frees_length h w i segs : lay pg st np h w i segs -> Z.of_nat (length (frees pg i segs)) <= total_len segs.
Proof.
  revert i. induction segs as [|g segs IH]; intros i; cbn; [done|]. intros [Hok Hl]. apply seg_len in Hok. unfold frees in *. cbn.
  rewrite length_app. specialize (IH _ Hl). destruct g; cbn in *; lia.
Qed.

Lemma find_pages_loop p n a m fuel : linked (heap p) 0 a m (free p) -> free p ∉ m -> (length m < fuel)%nat ->
  exists r, find_pages fuel n (first (free p) m) p = Some r /\
    match r with Some x => x ∈ m /\ n <= slab (heap p x) | None => forall x, x ∈ m -> slab (heap p x) < n end.
Proof.
  revert a fuel. induction m as [|x m IH]; intros a fuel Hl Hf Hlen; (destruct fuel as [|fuel]; [cbn in Hlen; lia|]); cbn [find_pages first].
  - rewrite Z.eqb_refl. exists None. split; [done|]. by intros x ?%elem_of_nil.
  - apply not_elem_of_cons in Hf as [Hfx Hf]. rewrite (proj2 (Z.eqb_neq x (free p))) by congruence. cbn [negb].
    destruct Hl as (_ & _ & Hl). destruct (Z.leb_spec n (slab (heap p x))) as [Hle|Hgt].
    + exists (Some x). split; [done|]. split; [by left|done].
    + rewrite (linked_first _ _ _ _ _ Hl). destruct (IH x fuel Hl Hf) as (r & Hr & Hres); [cbn in Hlen; lia|]. exists r. split; [done|].
      destruct r as [y|]; [destruct Hres; split; [by right|done]|]. intros y [->|Hy]%elem_of_cons; [done|by apply Hres].
Qed.

Lemma free_seg p segs fl ls x : invariant p segs fl ls -> x ∈ fl -> exists l k r,
  segs = l ++ Free k :: r /\ x = A (total_len l) /\ slab (heap p x) = k.
Proof.
  intros Hi Hx. rewrite (proj2 (inv_free _ _ _ _ _ _ _ _ _ _ Hi)) in Hx. apply collect_in in Hx as (l & g & r & -> & Hf).
  destruct g as [k| |]; cbn in Hf; [|by apply elem_of_nil in Hf..]. apply list_elem_of_singleton in Hf. rewrite Z.add_0_l in Hf. subst x.
  exists l, k, r. destruct (frees_split _ _ _ _ _ _ _ _ _ _ _ _ Hi) as (_ & _ & _ & _ & ? & _). done.
Qed.

Lemma alloc_pages_ok p segs fl ls n : invariant p segs fl ls -> 1 <= n -> exists a p', ngx_slab_alloc_pages n p = Some (a, p') /\
  (a = NULL /\ p' = p /\ (forall k, Free k ∈ segs -> k < n) \/
   words p' = words p /\ stats p' = stats p /\ exists l k r fl', segs = l ++ Free k :: r /\ n <= k /\ a = A (total_len l) /\ a <> NULL /\
     invariant p' (l ++ (Block n :: rest n k) ++ r) fl' ls).
Proof.
  intros Hi Hn. unfold ngx_slab_alloc_pages. destruct (inv_consts _ _ _ _ _ _ _ _ _ _ Hi) as [_ [Hpg Hlast] _ [_ Hfr]].
  destruct (inv_free _ _ _ _ _ _ _ _ _ _ Hi) as [[Hl Hnd] Hperm]. apply NoDup_cons in Hnd as [Hnin _].
  assert (length fl < pages_fuel p)%nat as Hfuel.
  { pose proof (frees_length _ _ _ _ (inv_lay _ _ _ _ _ _ _ _ _ _ Hi)) as H. rewrite <- Hperm, (inv_total _ _ _ _ _ _ _ _ _ _ Hi) in H.
    unfold pages_fuel. rewrite Hpg, Hlast. unfold at_page. replace (pg + np * sizeof_ngx_slab_page_t - pg) with (np * sizeof_ngx_slab_page_t) by lia.
    rewrite Z.div_mul by done. lia. }
  rewrite <- Hfr in Hl, Hnin. rewrite (linked_first _ _ _ _ _ Hl).
  destruct (find_pages_loop p n _ _ _ Hl Hnin Hfuel) as (r & -> & Hres). cbn [mbind option_bind]. destruct r as [x|].
  - destruct Hres as [Hx Hk]. destruct (free_seg _ _ _ _ _ Hi Hx) as (l & k & r & -> & -> & Hs). rewrite Hs in Hk.
    destruct (take_pages_ok _ _ _ _ _ _ Hg _ _ _ _ _ _ n Hi ltac:(lia)) as (Hw & Hst & fl' & Hi'). cbv zeta in *.
    eexists _, _. split; [done|]. right. split; [done|]. split; [done|]. exists l, k, r, fl'. split_and!; try done.
    destruct (page_bounds _ _ _ _ _ _ _ _ _ _ _ _ Hi) as (? & ? & ?). destruct (aligned_A _ _ _ _ _ _ Hg (total_len l)) as [_ ?]; [lia|]. unfold NULL. lia.
  - eexists _, _. split; [done|]. left. split; [done|]. split; [done|]. intros k Hk. apply list_elem_of_split in Hk as (l & r & ->).
    destruct (frees_split _ _ _ _ _ _ _ _ _ _ _ _ Hi) as (f1 & f2 & -> & _ & <- & _). apply Hres. apply elem_of_app. right. by left.
Qed.

(** ** A run that becomes free *)

(** All but the [k] pages after those of [l]. *)
Record hole (p : slab_pool) (l : list seg) (k : Z) (r : list seg) (fl : list Z) (ls : Z -> list Z) : Prop := {
  hole_consts : consts p;
  hole_total : 0 < k /\ total_len l + k + total_len r = np;
  hole_left : lay pg st np (heap p) (words p) 0 l;
  hole_right : lay pg st np (heap p) (words p) (total_len l + k) r;
  hole_free : dlist (heap p) 0 fr fl /\ fl ≡ₚ frees pg 0 l ++ frees pg (total_len l + k) r;
  hole_open s : 3 <= s < 12 -> dlist (heap p) (chunk_type s) (slot_head s) (ls s) /\
    ls s ≡ₚ opens pg s 0 l ++ opens pg s (total_len l + k) r;
  hole_tight : tight l = true /\ tight r = true
}.

(** The run is marked as far as the joins read it. *)
Definition loose (p : slab_pool) (i k : Z) : Prop :=
  slab (heap p (A i)) = k /\ forall j, 0 < j < k -> idle pg (heap p) (i + j).

Lemma member_prev h t hd l x : dlist h t hd l -> x ∈ l -> exists a, a ∈ hd :: l /\ p_prev (h x) = a + t /\ p_next (h x) ∈ hd :: l.
Proof.
  intros Hd Hx. apply list_elem_of_split in Hx as (l1 & l2 & ->). destruct (dlist_prev _ _ _ _ _ _ Hd) as [Hp Hn].
  exists (final hd l1). split; [apply in_front, final_in|]. split; [done|]. rewrite Hn. pose proof (first_in hd l2) as Hf.
  rewrite !elem_of_cons, elem_of_app, elem_of_cons in *. tauto.
Qed.

Lemma hole_index p l k r fl ls a : hole p l k r fl ls -> a ∈ heads pg 0 l ++ heads pg (total_len l + k) r ->
  exists j, a = A j /\ 0 <= j < np /\ ~ (total_len l <= j < total_len l + k).
Proof.
  intros [_ Ht Hl Hr _ _ _]. pose proof (lay_len _ _ _ _ _ _ _ Hl). pose proof (lay_len _ _ _ _ _ _ _ Hr).
  intros [Ha|Ha]%elem_of_app; [apply (heads_in _ _ _ _ _ _ _ _ Hl) in Ha|apply (heads_in _ _ _ _ _ _ _ _ Hr) in Ha]; destruct Ha as (j & -> & Hj);
    exists j; (split; [done|]); lia.
Qed.

Lemma hole_free_index p l k r fl ls a : hole p l k r fl ls -> a ∈ fl -> exists j, a = A j /\ 0 <= j < np /\ ~ (total_len l <= j < total_len l + k).
Proof.
  intros Hh Ha. eapply hole_index; [exact Hh|]. destruct (hole_free _ _ _ _ _ _ Hh) as [_ Hp]. rewrite Hp, elem_of_app in Ha.
  rewrite elem_of_app. destruct Ha; [left|right]; by apply frees_heads.
Qed.

Lemma hole_open_index p l k r fl ls s a : hole p l k r fl ls -> 3 <= s < 12 -> a ∈ ls s ->
  exists j, a = A j /\ 0 <= j < np /\ ~ (total_len l <= j < total_len l + k).
Proof.
  intros Hh Hs Ha. eapply hole_index; [exact Hh|]. destruct (hole_open _ _ _ _ _ _ Hh s Hs) as [_ Hp]. rewrite Hp, elem_of_app in Ha.
  rewrite elem_of_app. destruct Ha; [left|right]; by eapply opens_heads.
Qed.

Lemma hole_free_aligned p l k r fl ls : hole p l k r fl ls -> aligned (fr :: fl).
Proof.
  intros Hh. constructor; [by eapply aligned_fr|]. apply Forall_forall. intros a Ha.
  destruct (hole_free_index _ _ _ _ _ _ _ Hh Ha) as (j & -> & ? & _). by eapply aligned_A.
Qed.

Lemma hole_open_aligned p l k r fl ls s : hole p l k r fl ls -> 3 <= s < 12 -> aligned (slot_head s :: ls s).
Proof.
  intros Hh Hs. constructor; [by eapply aligned_slot|]. apply Forall_forall. intros a Ha.
  destruct (hole_open_index _ _ _ _ _ _ _ _ Hh Hs Ha) as (j & -> & ? & _). by eapply aligned_A.
Qed.

(** The page after the hole, or before it, is free or is not of a free run. *)
Lemma free_page_type p l k r fl ls x : hole p l k r fl ls -> x ∈ fl ->
  ngx_slab_page_type x p = NGX_SLAB_PAGE /\ p_next (heap p x) <> NULL.
Proof.
  intros Hh Hx. destruct (hole_free _ _ _ _ _ _ Hh) as [Hd _]. pose proof (hole_free_aligned _ _ _ _ _ _ Hh) as Hal.
  destruct (member_prev _ _ _ _ _ Hd Hx) as (a & Ha & Hp & Hn). unfold ngx_slab_page_type. rewrite Hp. split.
  - apply tag_type; [by eapply aligned_in|done].
  - destruct (aligned_in _ _ Hal Hn) as [_ ?]. unfold NULL. lia.
Qed.

Lemma chunk_type_pos s : chunk_type s <> NGX_SLAB_PAGE.
Proof. unfold chunk_type. repeat case_match; done. Qed.

Lemma chunk_page_type p l k r fl ls s u i : hole p l k r fl ls -> seg_ok pg st np (heap p) (words p) i (Chunks s u) ->
  (full s u = false -> A i ∈ ls s) -> ngx_slab_page_type (A i) p = chunk_type s.
Proof.
  intros Hh (Hs & _ & _ & Hf) Hin. unfold ngx_slab_page_type. destruct (full s u).
  - destruct Hf as [_ ->]; [done|]. rewrite <- (Z.add_0_l (chunk_type s)) at 1. apply tag_type; [by exists 0|apply type_range].
  - destruct (hole_open _ _ _ _ _ _ Hh s Hs) as [Hd _]. pose proof (hole_open_aligned _ _ _ _ _ _ _ Hh Hs) as Hal.
    destruct (member_prev _ _ _ _ _ Hd (Hin eq_refl)) as (a & Ha & -> & _). apply tag_type; [by eapply aligned_in|apply type_range].
Qed.

(** The hole grows by runs next to it: what the rest sees when the heap changes
    there, and in the links of free runs. *)
Lemma hole_keeps p h l la k ra r fl ls : hole p (l ++ la) k (ra ++ r) fl ls ->
  (forall s i, opens pg s i la = []) -> (forall s i, opens pg s i ra = []) ->
  let lo := total_len l in let hi := lo + total_len la + k + total_len ra in
  (forall a, a ∉ fr :: fl -> (forall j, lo <= j < hi -> a <> A j) -> h a = heap p a) ->
  (forall a, (forall j, lo <= j < hi -> a <> A j) -> slab (h a) = slab (heap p a)) ->
  lay pg st np h (words p) 0 l /\ lay pg st np h (words p) hi r /\
  forall s, 3 <= s < 12 -> dlist h (chunk_type s) (slot_head s) (ls s) /\ ls s ≡ₚ opens pg s 0 l ++ opens pg s hi r.
Proof.
  intros Hh Hla Hra lo hi Hout Hsl. destruct (hole_total _ _ _ _ _ _ Hh) as [Hk Ht]. rewrite !total_len_app in Ht.
  pose proof (hole_left _ _ _ _ _ _ Hh) as Hl. pose proof (hole_right _ _ _ _ _ _ Hh) as Hr. rewrite total_len_app in Hr. rewrite lay_app in Hl, Hr.
  destruct Hl as [Hl Hla']. destruct Hr as [Hra' Hr]. replace (total_len l + total_len la + k + total_len ra) with hi in Hr by lia.
  pose proof (lay_len _ _ _ _ _ _ _ Hl) as Ll. pose proof (lay_len _ _ _ _ _ _ _ Hr) as Lr.
  pose proof (lay_len _ _ _ _ _ _ _ Hla') as Lla. pose proof (lay_len _ _ _ _ _ _ _ Hra') as Lra.
  destruct (hole_free _ _ _ _ _ _ Hh) as [_ Hperm]. unfold frees in Hperm. rewrite !collect_app, total_len_app in Hperm.
  fold (frees pg 0 l) (frees pg (0 + total_len l) la) (frees pg (total_len l + total_len la + k) ra) in Hperm.
  replace (total_len l + total_len la + k + total_len ra) with hi in Hperm by lia. fold (frees pg hi r) in Hperm.
  assert (Hfr : forall j, 0 <= j -> A j <> fr) by (intros j Hj; by eapply A_fr).
  (* a free run is in one of the four parts *)
  assert (Hfree : forall j, 0 <= j < lo \/ hi <= j < np -> A j ∈ fl -> A j ∈ frees pg 0 l \/ A j ∈ frees pg hi r).
  { intros j Hj. rewrite Hperm, !elem_of_app. intros [[?|Hin]|[Hin|?]]; [by left| | |by right]; exfalso; apply frees_heads in Hin.
    - apply (heads_in _ _ _ _ _ _ _ _ Hla') in Hin as (j' & Heq & ?). apply A_inj in Heq. lia.
    - apply (heads_in _ _ _ _ _ _ _ _ Hra') in Hin as (j' & Heq & ?). apply A_inj in Heq. lia. }
  assert (Hin_l : forall a, a ∈ heads pg 0 l -> exists j, a = A j /\ 0 <= j < lo).
  { intros a Ha. destruct (heads_in _ _ _ _ _ _ _ _ Hl Ha) as (j & ? & ?). exists j. split; [done|lia]. }
  assert (Hin_r : forall a, a ∈ heads pg hi r -> exists j, a = A j /\ hi <= j < np).
  { intros a Ha. destruct (heads_in _ _ _ _ _ _ _ _ Hr Ha) as (j & ? & ?). exists j. split; [done|lia]. }
  split; [|split].
  - eapply lay_frame; [..|exact Hl]; [|done]. intros j Hj.
    assert (forall j', lo <= j' < hi -> A j <> A j') as Hne by (intros j' ? Heq; apply A_inj in Heq; lia).
    split; [by apply Hsl|]. intros Hn. apply Hout; [|done]. intros [Heq|Hin]%elem_of_cons; [apply Hfr in Heq; [done|lia]|].
    destruct (Hfree j ltac:(lia) Hin) as [Hf|Hf]; [by apply Hn, frees_heads|]. apply frees_heads, Hin_r in Hf as (j' & Heq & ?). apply A_inj in Heq. lia.
  - eapply lay_frame; [..|exact Hr]; [|done]. intros j Hj.
    assert (forall j', lo <= j' < hi -> A j <> A j') as Hne by (intros j' ? Heq; apply A_inj in Heq; lia).
    split; [by apply Hsl|]. intros Hn. apply Hout; [|done]. intros [Heq|Hin]%elem_of_cons; [apply Hfr in Heq; [done|lia]|].
    destruct (Hfree j ltac:(lia) Hin) as [Hf|Hf]; [|by apply Hn, frees_heads]. apply frees_heads, Hin_l in Hf as (j' & Heq & ?). apply A_inj in Heq. lia.
  - intros s Hs. destruct (hole_open _ _ _ _ _ _ Hh s Hs) as [[Hlk Hnd] Hpo]. unfold opens in Hpo. rewrite !collect_app, total_len_app in Hpo.
    fold (opens pg s 0 l) (opens pg s (0 + total_len l) la) (opens pg s (total_len l + total_len la + k) ra) in Hpo.
    replace (total_len l + total_len la + k + total_len ra) with hi in Hpo by lia. fold (opens pg s hi r) in Hpo.
    rewrite Hla, Hra, app_nil_r in Hpo. cbn [app] in Hpo. split; [|done]. split; [|done].
    assert (Hidx : forall x, x ∈ ls s -> exists j, x = A j /\ (0 <= j < lo \/ hi <= j < np) /\ x ∉ fl).
    { intros x Hx. rewrite Hpo, elem_of_app in Hx.
      assert (exists j, x = A j /\ (0 <= j < lo \/ hi <= j < np)) as (j & -> & Hj).
      { destruct Hx as [Hx|Hx]; apply opens_heads in Hx; [apply Hin_l in Hx|apply Hin_r in Hx]; destruct Hx as (j & ? & ?); exists j; (split; [done|lia]). }
      exists j. split; [done|]. split; [done|]. intros Hf. destruct (Hfree j Hj Hf) as [Hin|Hin], Hx as [Hx|Hx].
      - eapply frees_opens; [exact Hl|exact Hin|exact Hx].
      - apply frees_heads, Hin_l in Hin as (j1 & E1 & ?). apply opens_heads, Hin_r in Hx as (j2 & E2 & ?). apply A_inj in E1, E2. lia.
      - apply frees_heads, Hin_r in Hin as (j1 & E1 & ?). apply opens_heads, Hin_l in Hx as (j2 & E2 & ?). apply A_inj in E1, E2. lia.
      - eapply frees_opens; [exact Hr|exact Hin|exact Hx]. }
    assert (Heq : forall x, x ∈ slot_head s :: ls s -> h x = heap p x).
    { intros x Hx. apply Hout.
      - intros Hin. apply elem_of_cons in Hx as [->|Hx].
        + apply elem_of_cons in Hin as [Heq|Hin]; [by apply (slot_fr _ _ _ _ _ _ Hg s) in Heq; [|lia]|].
          destruct (hole_free_index _ _ _ _ _ _ _ Hh Hin) as (j & Hj & ? & _). symmetry in Hj. by apply (A_slot _ _ _ _ _ _ Hg) in Hj; [|lia..].
        + destruct (Hidx x Hx) as (j & -> & Hj & Hnf). apply elem_of_cons in Hin as [Heq|Hin]; [by apply Hfr in Heq; [|lia]|done].
      - intros j Hj ->. apply elem_of_cons in Hx as [Heq|Hx]; [by apply (A_slot _ _ _ _ _ _ Hg) in Heq; [|lia..]|].
        destruct (Hidx _ Hx) as (j' & Heq & ? & _). apply A_inj in Heq. lia. }
    eapply linked_ext; [..|exact Hlk]; intros x Hx; rewrite Heq; try done. by right.
Qed.

(** An element is unlinked and cleared. *)
Lemma drop_ok p fl y : dlist (heap p) 0 fr fl -> aligned (fr :: fl) -> y ∈ fl -> exists f1 f2, fl = f1 ++ y :: f2 /\
  let p' := set_prev y NGX_SLAB_PAGE (set_next y NULL (set_slab y NGX_SLAB_PAGE_FREE (unlink y p))) in
  same_pool p p' /\ dlist (heap p') 0 fr (f1 ++ f2) /\ heap p' y = Page 0 0 0 /\
  (forall a, a ∉ fr :: fl -> heap p' a = heap p a) /\ (forall a, a <> y -> slab (heap p' a) = slab (heap p a)).
Proof.
  intros Hd Hal Hy. apply list_elem_of_split in Hy as (f1 & f2 & ->). exists f1, f2. split; [done|]. cbv zeta.
  assert (0 <= 0 < 4) as H04 by lia. destruct (slab_unlink_ok _ _ _ _ _ _ Hd H04 Hal) as (Hs & Hd' & Hks & Hko). destruct (dlist_nodup _ _ _ _ _ _ Hd) as (_ & H1 & H2 & H3).
  set (p1 := unlink y p) in *. set (p2 := set_prev y _ _).
  assert (forall a, a <> y -> heap p2 a = heap p1 a) as Hne by (intros a Ha; subst p2; by rewrite heap_prev_ne, heap_next_ne, heap_slab_ne).
  split; [eapply same_trans; [exact Hs|done]|]. split; [|split; [|split]].
  - split; [|apply Hd']. eapply linked_ext; [..|apply Hd']; intros a Ha; (rewrite Hne; [done|]); intros ->; rewrite ?elem_of_cons, elem_of_app in Ha; tauto.
  - subst p2. rewrite heap_prev, Z.eqb_refl. read_heap. by rewrite !Z.eqb_refl.
  - intros a Ha. rewrite elem_of_cons, elem_of_app, elem_of_cons in Ha. rewrite Hne by tauto. apply Hko. rewrite elem_of_cons, elem_of_app. tauto.
  - intros a Ha. by rewrite Hne, Hks.
Qed.

Lemma dlist_slab p a v t hd l : dlist (heap p) t hd l -> dlist (heap (set_slab a v p)) t hd l.
Proof. intros [Hl Hnd]. split; [|done]. eapply linked_ext; [..|exact Hl]; intros x _; by read_heap. Qed.

Lemma no_open_free s i b : opens pg s i [Free b] = [].
Proof. done. Qed.

Lemma join_next_ok p l k r fl ls n : hole p l k r fl ls -> loose p (total_len l) k ->
  exists b r' fl' p', join_next (A (total_len l)) n p = (n + b, p') /\ (b = 0 /\ r = r' \/ r = Free b :: r') /\ starts_free r' = false /\
    same_pool p p' /\ hole p' l (k + b) r' fl' ls /\ loose p' (total_len l) (k + b).
Proof.
  intros Hh [Hk Hlast]. set (i := total_len l) in *. unfold join_next. rewrite Hk.
  destruct (hole_total _ _ _ _ _ _ Hh) as [Hk0 Ht]. destruct (hole_consts _ _ _ _ _ _ Hh) as [_ [_ Hlst] _ _].
  replace (at_page (A i) k) with (A (i + k)) by (unfold NgxSlabSegs.A, at_page; lia). rewrite Hlst.
  pose proof (hole_left _ _ _ _ _ _ Hh) as Hl. apply lay_len in Hl. pose proof (hole_right _ _ _ _ _ _ Hh) as Hr. fold i in Hr.
  assert (Hstop : starts_free r = false -> exists b r' fl' p', (n, p) = (n + b, p') /\ (b = 0 /\ r = r' \/ r = Free b :: r') /\ starts_free r' = false /\
    same_pool p p' /\ hole p' l (k + b) r' fl' ls /\ loose p' i (k + b)).
  { intros Hsf. exists 0, r, fl, p. rewrite !Z.add_0_r. split; [done|]. split; [by left|]. split; [done|]. split; [unfold same_pool; by destruct p|]. done. }
  destruct r as [|g r].
  { cbn in Ht. replace (A (i + k) <? at_page pg np) with false; [by apply Hstop|]. symmetry. apply Z.ltb_ge. unfold NgxSlabSegs.A, at_page, sizeof_ngx_slab_page_t. lia. }
  destruct Hr as [Hok Hr]. pose proof (seg_len _ _ _ _ _ _ _ Hok) as Hlen. apply lay_len in Hr as Hrl. cbn in Ht.
  replace (A (i + k) <? at_page pg np) with true by (symmetry; apply Z.ltb_lt; unfold NgxSlabSegs.A, at_page, sizeof_ngx_slab_page_t; lia).
  cbn [andb]. destruct g as [b|b|s u].
  - (* a free run *)
    clear Hstop. destruct (hole_free _ _ _ _ _ _ Hh) as [Hd Hperm]. fold i in Hperm. pose proof (hole_free_aligned _ _ _ _ _ _ Hh) as Hal.
    set (y := A (i + k)) in *. unfold frees in Hperm. cbn in Hperm. fold (frees pg 0 l) (frees pg (i + k + b) r) y in Hperm.
    assert (y ∈ fl) as Hy by (rewrite Hperm; apply elem_of_app; right; by left).
    destruct (free_page_type _ _ _ _ _ _ _ Hh Hy) as [-> Hnn]. rewrite (proj2 (Z.eqb_neq _ NULL) Hnn). cbn [andb negb]. change (NGX_SLAB_PAGE =? NGX_SLAB_PAGE) with true. cbn iota.
    destruct Hok as (_ & Hb & _ & Hbidle). fold y in Hb. cbn in Hlen. rewrite Hb.
    set (x := A i) in *. assert (y <> x) as Hyx by (intros Heq; apply A_inj in Heq; lia).
    set (p1 := set_slab x (k + b) p). pose proof (dlist_slab p x (k + b) _ _ _ Hd) as Hd1. fold p1 in Hd1.
    destruct (drop_ok p1 fl y Hd1 Hal Hy) as (f1 & f2 & Hfl & Hs & Hd2 & Hpy & Hout & Hsl). cbv zeta in *. set (p2 := set_prev y _ _) in *.
    exists b, r, (f1 ++ f2), p2. split; [done|]. split; [by right|]. assert (Hxp : slab (heap p2 x) = k + b) by (rewrite Hsl by congruence; subst p1; read_heap; by rewrite Z.eqb_refl).
    split; [pose proof (proj2 (hole_tight _ _ _ _ _ _ Hh)) as Htr; cbn in Htr; by destruct r as [|[]]|].
    split; [eapply same_trans; [|exact Hs]; done|]. split.
    + destruct (hole_keeps p (heap p2) l [] k [Free b] r fl ls) as (K1 & K2 & K3); [by rewrite app_nil_r|done|done|..].
      { intros a Ha Hj. rewrite Hout by done. subst p1. rewrite heap_slab_ne; [done|]. apply Hj. cbn. lia. }
      { intros a Hj. rewrite Hsl by (apply Hj; cbn; lia). subst p1. rewrite heap_slab_ne; [done|]. apply Hj. cbn. lia. }
      cbv zeta in *. cbn [total_len len] in K2, K3. fold i in K2, K3. replace (i + 0 + k + (b + 0)) with (i + (k + b)) in K2, K3 by lia.
      assert (words p2 = words p) as Hw by (by rewrite Hs). rewrite <- Hw in K1, K2. split; try done.
      * rewrite Hs. apply (consts_heap _ _ _ _ _ _ p (heap p2) (pfree p)), Hh.
      * fold i in Ht |- *. cbn [len] in Ht. lia.
      * split; [done|]. rewrite Hfl, <- !Permutation_middle in Hperm. apply (inj (cons y)) in Hperm. rewrite Hperm. fold i. by rewrite Z.add_assoc.
      * destruct (hole_tight _ _ _ _ _ _ Hh) as [? Htr]. rewrite tight_cons in Htr. apply andb_true_iff in Htr as [? _]. done.
    + split; [done|]. intros j Hj. fold i. unfold idle.
      destruct (decide (j = k)) as [->|Hjk]; [fold y; by rewrite Hpy|].
      assert (A (i + j) ∉ fr :: fl) as Hnot.
      { intros [Heq|Hin]%elem_of_cons; [by apply (A_fr _ _ _ _ _ _ Hg) in Heq; [|lia]|]. rewrite Hperm, elem_of_app, elem_of_cons in Hin.
        destruct Hin as [Hin|[Heq|Hin]]; [apply frees_heads, (heads_in _ _ _ _ _ _ _ _ (hole_left _ _ _ _ _ _ Hh)) in Hin| |apply frees_heads, (heads_in _ _ _ _ _ _ _ _ Hr) in Hin].
        - destruct Hin as (j' & Heq & Hin). fold i in Hin. apply A_inj in Heq. lia.
        - apply A_inj in Heq. lia.
        - destruct Hin as (j' & Heq & ?). cbn [len] in *. apply A_inj in Heq. lia. }
      rewrite Hout by done. subst p1. rewrite heap_slab_ne by (intros Heq; apply A_inj in Heq; lia).
      destruct (decide (j < k)); [apply Hlast; lia|]. replace (i + j) with (i + k + (j - k)) by lia. apply Hbidle. lia.
  - (* a block *)
    destruct Hok as (_ & Hb & _). unfold ngx_slab_page_type. rewrite Hb. cbn [p_next p_prev]. by apply Hstop.
  - (* chunks *)
    rewrite (chunk_page_type p l k _ fl ls s u (i + k) Hh Hok).
    + rewrite (proj2 (Z.eqb_neq _ _) (chunk_type_pos s)). by apply Hstop.
    + intros Hf. destruct Hok as (Hs & _). destruct (hole_open _ _ _ _ _ _ Hh s Hs) as [_ Hp]. rewrite Hp, elem_of_app. right. fold i.
      unfold opens. cbn. rewrite Z.eqb_refl, Hf. by left.
Qed.

Lemma ends_free_snoc l g : ends_free (l ++ [g]) = starts_free [g].
Proof. unfold ends_free. by rewrite rev_app_distr. Qed.

(** The first page of the free run before the hole, from its last one. *)
Lemma prev_free p l a k r fl ls : hole p (l ++ [Free a]) k r fl ls -> let j := total_len l in let join := A (j + a - 1) in
  A j ∈ fl /\ ngx_slab_page_type join p = NGX_SLAB_PAGE /\
  (if slab (heap p join) =? NGX_SLAB_PAGE_FREE then ngx_slab_page_prev join p else join) = A j /\
  slab (heap p (A j)) = a /\ p_next (heap p (A j)) <> NULL /\ 0 < a.
Proof.
  intros Hh. cbv zeta. set (j := total_len l). pose proof (hole_left _ _ _ _ _ _ Hh) as Hl. apply lay_app in Hl as [Hl [(Ha & Hs & Hlast & _) _]].
  rewrite Z.add_0_l in Hs, Hlast. fold j in Hs, Hlast. apply lay_len in Hl. fold j in Hl.
  destruct (hole_total _ _ _ _ _ _ Hh) as [Hk Ht]. rewrite total_len_app in Ht. cbn in Ht. fold j in Ht.
  pose proof (lay_len _ _ _ _ _ _ _ (hole_right _ _ _ _ _ _ Hh)) as Hrl.
  destruct (hole_free _ _ _ _ _ _ Hh) as [_ Hperm]. unfold frees in Hperm. rewrite collect_app in Hperm. cbn in Hperm.
  assert (A j ∈ fl) as Hj by (rewrite Hperm, !elem_of_app; left; right; by left).
  destruct (free_page_type _ _ _ _ _ _ _ Hh Hj) as [Htype Hnn]. split; [done|].
  destruct (decide (a = 1)) as [->|Ha1].
  - replace (j + 1 - 1) with j by lia. split; [done|]. rewrite Hs. done.
  - destruct (Hlast ltac:(lia)) as [H1 H2]. specialize (H2 ltac:(lia)). destruct (aligned_A _ _ _ _ _ _ Hg j) as [Hal Hb]; [lia|].
    unfold ngx_slab_page_type, ngx_slab_page_prev. rewrite H1, H2. change (NGX_SLAB_PAGE_FREE =? NGX_SLAB_PAGE_FREE) with true. cbn iota.
    rewrite <- (Z.add_0_r (A j)) at 1 2. rewrite tag_type, tag_prev by (done || lia). done.
Qed.

Lemma join_prev_ok p l k r fl ls n : hole p l k r fl ls -> loose p (total_len l) k ->
  exists a l' fl' p', join_prev (A (total_len l)) n p = (A (total_len l'), n + a, p') /\ (a = 0 /\ l = l' \/ l = l' ++ [Free a]) /\
    ends_free l' = false /\ same_pool p p' /\ hole p' l' (a + k) r fl' ls /\ loose p' (total_len l') (a + k).
Proof.
  intros Hh [Hk Hlast]. unfold join_prev. destruct (hole_total _ _ _ _ _ _ Hh) as [Hk0 Ht].
  destruct (hole_consts _ _ _ _ _ _ Hh) as [_ [Hpg _] _ _]. rewrite Hpg.
  assert (Hstop : ends_free l = false -> exists a l' fl' p', (A (total_len l), n, p) = (A (total_len l'), n + a, p') /\ (a = 0 /\ l = l' \/ l = l' ++ [Free a]) /\
    ends_free l' = false /\ same_pool p p' /\ hole p' l' (a + k) r fl' ls /\ loose p' (total_len l') (a + k)).
  { intros Hsf. exists 0, l, fl, p. rewrite Z.add_0_l, Z.add_0_r. split; [done|]. split; [by left|]. split; [done|]. split; [unfold same_pool; by destruct p|]. done. }
  destruct l as [|g0 l0] using rev_ind; [|clear IHl0].
  { cbn. replace (pg <? A 0) with false; [by apply Hstop|]. symmetry. apply Z.ltb_ge. unfold NgxSlabSegs.A, at_page. lia. }
  rename l0 into l, g0 into g. pose proof (hole_left _ _ _ _ _ _ Hh) as Hl. apply lay_app in Hl as [Hl [Hok _]]. rewrite Z.add_0_l in Hok.
  pose proof (seg_len _ _ _ _ _ _ _ Hok) as Hlen. pose proof (lay_len _ _ _ _ _ _ _ Hl) as Hll.
  pose proof (lay_len _ _ _ _ _ _ _ (hole_right _ _ _ _ _ _ Hh)) as Hrl.
  rewrite total_len_app in *. cbn [total_len] in *. rewrite Z.add_0_r in *. set (j := total_len l) in *. set (i := j + len g) in *.
  replace (pg <? A i) with true by (symmetry; apply Z.ltb_lt; unfold NgxSlabSegs.A, at_page, sizeof_ngx_slab_page_t; lia).
  replace (at_page (A i) (- 1)) with (A (j + len g - 1)) by (unfold NgxSlabSegs.A, at_page; lia).
  destruct g as [a|b|s u].
  - (* a free run *)
    clear Hstop. cbn [len] in *. pose proof (prev_free _ _ _ _ _ _ _ Hh) as Hpf. cbv zeta in Hpf. fold j in Hpf. destruct Hpf as (Hy & -> & -> & Hs & Hnn & _).
    change (NGX_SLAB_PAGE =? NGX_SLAB_PAGE) with true. cbn iota. rewrite (proj2 (Z.eqb_neq _ NULL) Hnn). cbn [negb]. rewrite Hs, Hk.
    destruct (hole_free _ _ _ _ _ _ Hh) as [Hd Hperm]. pose proof (hole_free_aligned _ _ _ _ _ _ Hh) as Hal.
    set (x := A i) in *. set (y := A j) in *. assert (y <> x) as Hyx by (intros Heq; apply A_inj in Heq; lia).
    set (p1 := set_slab y (a + k) p). pose proof (dlist_slab p y (a + k) _ _ _ Hd) as Hd1. fold p1 in Hd1.
    assert (x ∉ fr :: fl) as Hxn.
    { intros [Heq|Hin]%elem_of_cons; [by apply (A_fr _ _ _ _ _ _ Hg) in Heq; [|lia]|].
      destruct (hole_free_index _ _ _ _ _ _ _ Hh Hin) as (j' & Heq & _ & ?). apply A_inj in Heq. rewrite total_len_app in *. cbn in *. lia. }
    apply list_elem_of_split in Hy as (f1 & f2 & ->). assert (0 <= 0 < 4) as H04 by lia.
    destruct (slab_unlink_ok _ _ _ _ _ _ Hd1 H04 Hal) as (Hsm & Hd2 & Hks & Hko). destruct (dlist_nodup _ _ _ _ _ _ Hd) as (_ & N1 & N2 & N3).
    set (p2 := unlink y p1) in *. set (p3 := set_prev x _ _).
    assert (Hx3 : heap p3 x = Page 0 0 0) by (subst p3; rewrite heap_prev, Z.eqb_refl; read_heap; by rewrite !Z.eqb_refl).
    assert (Hn3 : forall a0, a0 <> x -> heap p3 a0 = heap p2 a0) by (intros a0 Ha0; subst p3; by rewrite heap_prev_ne, heap_next_ne, heap_slab_ne).
    assert (Hout : forall b, b ∉ fr :: f1 ++ y :: f2 -> b <> x -> heap p3 b = heap p b).
    { intros b Hb Hbx. rewrite elem_of_cons, elem_of_app, elem_of_cons in Hb. rewrite Hn3 by done. rewrite Hko by (rewrite elem_of_cons, elem_of_app; tauto).
      subst p1. rewrite heap_slab_ne; [done|tauto]. }
    assert (Hsl : forall b, b <> x -> b <> y -> slab (heap p3 b) = slab (heap p b)).
    { intros b Hbx Hby. rewrite Hn3, Hks by done. subst p1. by rewrite heap_slab_ne. }
    assert (same_pool p p3) as Hsame by (eapply same_trans; [|exact (same_trans _ _ _ Hsm eq_refl)]; done).
    exists a, l, (f1 ++ f2), p3. split; [done|]. split; [by right|]. pose proof (hole_tight _ _ _ _ _ _ Hh) as [Htl Htr]. rewrite tight_app in Htl. cbn in Htl.
    split; [by destruct (tight l), (ends_free l)|]. split; [done|]. split.
    + destruct (hole_keeps p (heap p3) l [Free a] k [] r (f1 ++ y :: f2) ls) as (K1 & K2 & K3); [done|done|done|..].
      { intros b Hb Hj. apply Hout; [done|]. apply Hj. cbn. fold j. lia. }
      { intros b Hj. apply Hsl; apply Hj; cbn; fold j; lia. }
      cbv zeta in *. cbn [total_len len] in K2, K3. fold j in K2, K3. replace (j + (a + 0) + k + 0) with (j + (a + k)) in K2, K3 by lia.
      assert (words p3 = words p) as Hw by (by rewrite Hsame). rewrite <- Hw in K1, K2. split; try done.
      * rewrite Hsame. apply (consts_heap _ _ _ _ _ _ p (heap p3) (pfree p)), Hh.
      * fold j. lia.
      * split.
        -- split; [|apply Hd2]. eapply linked_ext; [..|apply Hd2]; intros b Hb; (rewrite Hn3; [done|]); intros ->; apply Hxn;
             rewrite ?elem_of_cons, ?elem_of_app in *; rewrite ?elem_of_cons; tauto.
        -- unfold frees in Hperm. rewrite collect_app, total_len_app in Hperm. cbn in Hperm. fold j in Hperm. rewrite <- app_assoc in Hperm. cbn [app] in Hperm. change (A (0 + j)) with y in Hperm. rewrite <- !Permutation_middle in Hperm.
           apply (inj (cons y)) in Hperm. rewrite Hperm. fold j. cbn. by replace (j + (a + k)) with (j + (a + 0) + k) by lia.
      * by destruct (tight l).
    + split.
      * fold j y. rewrite Hn3, Hks by done. subst p1. read_heap. by rewrite Z.eqb_refl.
      * intros j' Hj'. fold j. unfold idle. destruct (decide (j' = a)) as [->|Hja]; [fold i x; by rewrite Hx3|].
        assert (A (j + j') ∉ fr :: f1 ++ y :: f2) as Hnot.
        { intros [Heq|Hin]%elem_of_cons; [by apply (A_fr _ _ _ _ _ _ Hg) in Heq; [|lia]|]. unfold frees in Hperm. rewrite collect_app, total_len_app in Hperm. cbn in Hperm.
          rewrite Hperm, !elem_of_app in Hin. destruct Hin as [[Hin|Heq]|Hin].
          - apply (frees_heads pg), (heads_in _ _ _ _ _ _ _ _ Hl) in Hin as (j2 & Heq & Hj2). fold j in Hj2. apply A_inj in Heq. lia.
          - apply list_elem_of_singleton in Heq. change (A (j + j') = A (0 + j)) in Heq. apply A_inj in Heq. lia.
          - pose proof (hole_right _ _ _ _ _ _ Hh) as Hlr. rewrite total_len_app in Hlr. cbn in Hlr.
            apply (frees_heads pg), (heads_in _ _ _ _ _ _ _ _ Hlr) in Hin as (j2 & Heq & Hj2). fold j in Hj2. apply A_inj in Heq. lia. }
        rewrite Hout by (done || intros Heq; apply A_inj in Heq; lia). destruct (decide (j' < a)).
        -- destruct Hok as (_ & _ & _ & Hidle). apply Hidle. lia.
        -- replace (j + j') with (i + (j' - a)) by lia. apply Hlast. lia.
  - (* a block *)
    cbn [len] in *. assert (heap p (A (j + b - 1)) = Page (if b =? 1 then 1 + NGX_SLAB_PAGE_START else NGX_SLAB_PAGE_BUSY) NULL NGX_SLAB_PAGE) as Hb.
    { destruct Hok as (_ & H1 & H2). destruct (Z.eqb_spec b 1) as [->|]; [replace (j + 1 - 1) with j by lia; exact H1|].
      replace (j + b - 1) with (j + (b - 1)) by lia. apply H2. lia. }
    unfold ngx_slab_page_type. rewrite Hb. cbn [p_prev p_next slab]. change (Z.land NGX_SLAB_PAGE NGX_SLAB_PAGE_MASK =? NGX_SLAB_PAGE) with true. cbn iota.
    replace ((if b =? 1 then 1 + NGX_SLAB_PAGE_START else NGX_SLAB_PAGE_BUSY) =? NGX_SLAB_PAGE_FREE) with false by (by destruct (b =? 1)).
    rewrite Hb. cbn [p_next]. change (negb (NULL =? NULL)) with false. cbn iota. apply Hstop. by rewrite ends_free_snoc.
  - (* chunks *)
    cbn [len] in *. replace (j + 1 - 1) with j by lia. rewrite (chunk_page_type p _ k r fl ls s u j Hh Hok).
    + rewrite (proj2 (Z.eqb_neq _ _) (chunk_type_pos s)). apply Hstop. by rewrite ends_free_snoc.
    + intros Hf. destruct Hok as (Hs & _). destruct (hole_open _ _ _ _ _ _ Hh s Hs) as [_ Hp]. rewrite Hp, elem_of_app. left.
      unfold opens. rewrite collect_app. cbn. rewrite Z.eqb_refl, Hf. cbn. apply elem_of_app. right. by left.
Qed.

Lemma join_pages_ok p l k r fl ls : hole p l k r fl ls -> loose p (total_len l) k -> pfree p = free_len l + free_len r + k ->
  let p' := join_pages (A (total_len l)) (k - 1) p in
  same_pool p p' /\ exists segs' fl', invariant p' segs' fl' ls /\ blocks st 0 segs' = blocks st 0 l ++ blocks st (total_len l + k) r.
Proof.
  intros Hh Hlo Hpf. cbv zeta. unfold join_pages.
  destruct (join_next_ok _ _ _ _ _ _ (k - 1) Hh Hlo) as (b & r' & fl1 & p1 & -> & Hr & Hsf & Hs1 & Hh1 & Hlo1).
  destruct (join_prev_ok _ _ _ _ _ _ (k - 1 + b) Hh1 Hlo1) as (a & l' & fl2 & p2 & -> & Hl & Hef & Hs2 & Hh2 & Hlo2).
  set (i := total_len l') in *. set (k' := a + (k + b)) in *. replace (k - 1 + b + a) with (k' - 1) by lia.
  destruct (hole_total _ _ _ _ _ _ Hh2) as [Hk' Ht]. fold i in Ht.
  pose proof (lay_len _ _ _ _ _ _ _ (hole_left _ _ _ _ _ _ Hh2)) as Hll. pose proof (lay_len _ _ _ _ _ _ _ (hole_right _ _ _ _ _ _ Hh2)) as Hrl. fold i in Hll.
  destruct (hole_consts _ _ _ _ _ _ Hh2) as [_ _ _ [_ Hfr]]. destruct (hole_free _ _ _ _ _ _ Hh2) as [Hd Hperm].
  assert (Hin : forall j, i <= j < i + k' -> A j ∉ fr :: fl2).
  { intros j Hj [Heq|Hin]%elem_of_cons; [by apply (A_fr _ _ _ _ _ _ Hg) in Heq; [|lia]|].
    destruct (hole_free_index _ _ _ _ _ _ _ Hh2 Hin) as (j' & Heq & _ & Hj'). fold i in Hj'. apply A_inj in Heq. lia. }
  set (p3 := if negb (k' - 1 =? 0) then _ else _).
  assert (same_pool p2 p3 /\ dlist (heap p3) 0 fr fl2 /\ (forall x, x <> A (i + k' - 1) -> heap p3 x = heap p2 x) /\
    (forall x, slab (heap p3 x) = slab (heap p2 x)) /\ (1 < k' -> p_prev (heap p3 (A (i + k' - 1))) = A i)) as (Hs3 & Hd3 & Hn3 & Hsl3 & Hl3).
  { subst p3. replace (at_page (A i) (k' - 1)) with (A (i + k' - 1)) by (unfold NgxSlabSegs.A, at_page; lia).
    destruct (Z.eqb_spec (k' - 1) 0); cbn [negb]; [split; [unfold same_pool; by destruct p2|]; split; [done|]; split; [done|]; split; [done|lia]|].
    split; [done|]. split; [|split; [intros x Hx; by rewrite heap_prev_ne|split; [intros x; by read_heap|intros _; read_heap; by rewrite Z.eqb_refl]]].
    eapply dlist_keeps; [apply (keeps_prev [A (i + k' - 1)]); by left| |exact Hd]. intros x Hx ->%list_elem_of_singleton. by apply (Hin (i + k' - 1)) in Hx; [|lia]. }
  assert (Hfr3 : free p3 = fr) by (rewrite Hs3; exact Hfr). rewrite Hfr3.
  destruct (slab_push_ok p3 fr fl2 (A i) Hd3 (Hin i ltac:(lia))) as (Hs4 & Hd4 & Hks & Hko). cbv zeta in *.
  match type of Hs4 with same_pool _ ?q => set (p4 := q) in * end. change (free (set_prev (A i) fr p3)) with (free p3). rewrite Hfr3.
  match goal with |- context [set_next (free ?q) ?x ?q'] => change (free q) with (free p3); rewrite Hfr3; change (set_next fr x q') with p4 end.
  assert (Hsame : same_pool p p4) by (eapply same_trans; [exact Hs1|]; eapply same_trans; [exact Hs2|]; eapply same_trans; [exact Hs3|exact Hs4]).
  split; [done|]. exists (l' ++ Free k' :: r'), (A i :: fl2).
  assert (Hsame24 : same_pool p2 p4) by (eapply same_trans; [exact Hs3|exact Hs4]).
  assert (words p4 = words p2) as Hw by (by rewrite Hsame24).
  destruct (hole_keeps p2 (heap p4) l' [] k' [] r' fl2 ls) as (K1 & K2 & K3); [by rewrite app_nil_r|done|done|..].
  { intros x Hx Hj. cbn in Hj. fold i in Hj. rewrite Hko; [apply Hn3, Hj; lia|]. assert (x <> A i) by (apply Hj; lia). rewrite !elem_of_cons in *. tauto. }
  { intros x Hj. by rewrite Hks, Hsl3. }
  cbv zeta in *. cbn [total_len] in K2, K3. fold i in K2, K3. replace (i + 0 + k' + 0) with (i + k') in K2, K3 by lia. rewrite <- Hw in K1, K2.
  assert (Hlay : lay pg st np (heap p4) (words p4) 0 (l' ++ Free k' :: r')).
  { apply lay_app. split; [done|]. rewrite Z.add_0_l. fold i. cbn [lay len]. split; [|done]. destruct Hlo2 as [Hlo2 Hlast2]. fold i in Hlo2, Hlast2.
    assert (forall x, 0 < x < k' -> heap p4 (A (i + x)) = heap p3 (A (i + x))) as Heq4.
    { intros x Hx. apply Hko. specialize (Hin (i + x) ltac:(lia)). rewrite !elem_of_cons in *. intros [?|[Heq|?]]; [tauto| |tauto]. apply A_inj in Heq. lia. }
    split; [done|]. rewrite !Hks, !Hsl3. split; [done|]. split.
    - intros H1. replace (i + k' - 1) with (i + (k' - 1)) in * by lia. split; [apply Hlast2; lia|]. intros _. rewrite Heq4 by lia. by apply Hl3.
    - intros x Hx. destruct (Hlast2 x Hx) as [I1 I2]. unfold idle. rewrite Heq4, Hsl3 by done. split; [done|].
      destruct (decide (x = k' - 1)) as [->|Hne]; [|by rewrite Hn3 by (intros Heq; apply A_inj in Heq; lia)].
      replace (i + (k' - 1)) with (i + k' - 1) by lia. rewrite Hl3 by lia. rewrite <- (Z.add_0_r (A i)). apply (tag_type (A i) 0); [|lia]. eapply aligned_A; [done|lia]. }
  split; [split|].
  - rewrite Hsame24. apply (consts_heap _ _ _ _ _ _ p2 (heap p4) (pfree p2)), Hh2.
  - rewrite total_len_app. cbn. fold i. lia.
  - done.
  - split; [done|]. unfold frees. rewrite collect_app. cbn. fold i. rewrite <- Permutation_middle. constructor. exact Hperm.
  - intros s Hs. destruct (K3 s Hs) as [? Hpo]. split; [done|]. rewrite Hpo. unfold opens. by rewrite collect_app.
  - destruct (hole_tight _ _ _ _ _ _ Hh2) as [T1 T2]. by rewrite tight_app, tight_cons, T1, T2, Hef, Hsf.
  - assert (pfree p4 = pfree p) as -> by (by rewrite Hsame). rewrite Hpf, free_len_app. cbn.
    destruct Hl as [[-> ->]| ->], Hr as [[-> ->]| ->]; rewrite ?free_len_app; cbn; lia.
  - unfold blocks. rewrite collect_app. cbn. fold i.
    destruct Hl as [[Ha ->]| ->], Hr as [[Hb ->]| ->]; rewrite ?collect_app, ?total_len_app, ?app_nil_r; cbn; fold i; rewrite ?app_nil_r;
      f_equal; f_equal; subst k'; lia.
Qed.

(** ** Blocks of pages *)

Lemma zero_heap m a p : same_pool p (zero_pages m a p) /\
  (forall j, 0 <= j < Z.of_nat m -> heap (zero_pages m a p) (at_page a j) = Page 0 0 0) /\
  (forall y, (forall j, 0 <= j < Z.of_nat m -> y <> at_page a j) -> heap (zero_pages m a p) y = heap p y).
Proof.
  revert a p. induction m as [|m IH]; intros a p; cbn [zero_pages].
  { split; [unfold same_pool; by destruct p|]. split; [intros j Hj; lia|done]. }
  set (p1 := set_heap _ p). destruct (IH (at_page a 1) p1) as (H1 & H2 & H3).
  assert (forall j, at_page (at_page a 1) j = at_page a (j + 1)) as Hat by (intros; unfold at_page; lia).
  assert (heap p1 a = Page 0 0 0) as Ha by (subst p1; cbn; unfold set_page; by rewrite Z.eqb_refl).
  assert (forall y, y <> a -> heap p1 y = heap p y) as Hy by (intros y Hy; subst p1; cbn; unfold set_page; by rewrite (proj2 (Z.eqb_neq y a) Hy)).
  split; [eapply same_trans; [|exact H1]; done|]. split.
  - intros j Hj. destruct (decide (j = 0)) as [->|Hne].
    + replace (at_page a 0) with a by (unfold at_page; lia). rewrite H3; [done|]. intros j' Hj'. rewrite Hat. unfold at_page, sizeof_ngx_slab_page_t. lia.
    + replace (at_page a j) with (at_page (at_page a 1) (j - 1)) by (rewrite Hat; f_equal; lia). apply H2. lia.
  - intros y Hya. rewrite H3.
    + apply Hy. replace a with (at_page a 0) by (unfold at_page; lia). apply Hya. lia.
    + intros j Hj. rewrite Hat. apply Hya. lia.
Qed.

Lemma invariant_hole p l g r fl ls : invariant p (l ++ g :: r) fl ls -> (forall i, seg_free pg i g = []) -> (forall s i, seg_open pg s i g = []) ->
  hole p l (len g) r fl ls /\ pfree p = free_len l + free_len r.
Proof.
  intros Hi Hf Ho. pose proof (page_bounds _ _ _ _ _ _ _ _ _ _ _ _ Hi) as (H1 & H2 & H3). destruct Hi as [Hc Ht Hl Hfree Hopen Htight Hpf].
  rewrite total_len_app in Ht. cbn in Ht. apply lay_app in Hl as [Hl [_ Hr]]. rewrite Z.add_0_l in Hr. split; [split|]; try done.
  - lia.
  - split; [apply Hfree|]. destruct Hfree as [_ ->]. unfold frees. rewrite collect_app. cbn. rewrite Hf. done.
  - intros s Hs. destruct (Hopen s Hs) as [Hd Hp]. split; [done|]. rewrite Hp. unfold opens. rewrite collect_app. cbn. by rewrite Ho.
  - rewrite tight_app, tight_cons in Htight. by destruct (tight l), (tight r).
  - rewrite Hpf, free_len_app. destruct g as [k| |]; [|done..]. specialize (Hf 0). done.
Qed.

Lemma pages_u64 z : 0 <= z <= np -> u64 z = z.
Proof. intros Hz. unfold u64. apply Z.mod_small. pose proof (np_small _ _ _ _ _ _ Hg). lia. Qed.

Lemma free_block_ok p l k r fl ls : invariant p (l ++ Block k :: r) fl ls ->
  let p' := ngx_slab_free_pages (A (total_len l)) k p in
  words p' = words p /\ exists segs' fl', invariant p' segs' fl' ls /\ blocks st 0 segs' = blocks st 0 l ++ blocks st (total_len l + k) r.
Proof.
  intros Hi. cbv zeta. pose proof (page_bounds _ _ _ _ _ _ _ _ _ _ _ _ Hi) as (Hi0 & Hk & Hi1). cbn [len] in *. set (i := total_len l) in *.
  destruct (invariant_hole _ _ _ _ _ _ Hi) as [Hh Hpf]; [done|done|]. cbn [len] in Hh.
  pose proof (inv_lay _ _ _ _ _ _ _ _ _ _ Hi) as Hl. apply lay_app in Hl as [Hl [(_ & Hb & _) Hr]]. rewrite Z.add_0_l in Hb, Hr. cbn [len] in Hr. fold i in Hb, Hr.
  pose proof (lay_len _ _ _ _ _ _ _ Hr) as Hrl. pose proof (free_len_range _ _ _ _ _ _ _ Hl). pose proof (free_len_range _ _ _ _ _ _ _ Hr).
  destruct (hole_total _ _ _ _ _ _ Hh) as [_ Ht]. fold i in Ht.
  unfold ngx_slab_free_pages. rewrite pages_u64 by (rewrite Hpf; lia).
  set (p0 := set_slab (A i) k _). set (p1 := if negb (k - 1 =? 0) then _ else _).
  assert (words p1 = words p /\ p1 = set_pfree (pfree p + k) (set_heap (heap p1) p) /\ p_next (heap p1 (A i)) = NULL /\ slab (heap p1 (A i)) = k /\
    (forall j, 0 < j < k -> heap p1 (A (i + j)) = Page 0 0 0) /\ (forall a, (forall j, i <= j < i + k -> a <> A j) -> heap p1 a = heap p a)) as (Hw & Hp1 & Hnx & Hsl & Hz & Hout).
  { assert (Hp0 : p_next (heap p0 (A i)) = NULL /\ slab (heap p0 (A i)) = k /\ forall a, a <> A i -> heap p0 a = heap p a).
    { subst p0. read_heap. rewrite Z.eqb_refl. cbn [heap set_pfree]. rewrite Hb. split; [done|]. split; [done|]. intros a Ha. by rewrite heap_slab_ne. }
    destruct Hp0 as (E1 & E2 & E3). subst p1. destruct (Z.eqb_spec (k - 1) 0) as [H1|H1]; cbn [negb].
    - split; [done|]. split; [done|]. split; [done|]. split; [done|]. split; [lia|]. intros a Ha. apply E3. apply Ha. lia.
    - destruct (zero_heap (Z.to_nat (k - 1)) (at_page (A i) 1) p0) as (Z1 & Z2 & Z3).
      assert (forall j, at_page (at_page (A i) 1) j = A (i + j + 1)) as Hat by (intros; unfold NgxSlabSegs.A, at_page; lia).
      rewrite (Z3 (A i)) by (intros j Hj; rewrite Hat; intros Heq%A_inj; lia).
      split; [by rewrite Z1|]. split; [etransitivity; [exact Z1|done]|]. split; [done|]. split; [done|]. split.
      + intros j Hj. replace (A (i + j)) with (at_page (at_page (A i) 1) (j - 1)) by (rewrite Hat; f_equal; lia). rewrite Z2 by lia. done.
      + intros a Ha. rewrite Z3; [apply E3, Ha; lia|]. intros j Hj. rewrite Hat. apply Ha. lia. }
  rewrite Hnx. change (negb (NULL =? NULL)) with false. cbn iota.
  assert (Hh1 : hole p1 l k r fl ls).
  { destruct (hole_keeps p (heap p1) l [] k [] r fl ls) as (K1 & K2 & K3); [by rewrite app_nil_r|done|done|..].
    { intros a _ Ha. apply Hout. intros j Hj. apply Ha. cbn. fold i. lia. }
    { intros a Ha. rewrite Hout; [done|]. intros j Hj. apply Ha. cbn. fold i. lia. }
    cbv zeta in *. cbn [total_len] in K2, K3. fold i in K2, K3. replace (i + 0 + k + 0) with (i + k) in K2, K3 by lia. rewrite <- Hw in K1, K2.
    split; try done.
    - rewrite Hp1. apply consts_heap, Hh.
    - destruct (hole_free _ _ _ _ _ _ Hh) as [[Hd Hnd] Hp]. split; [|done]. split; [|done].
      assert (forall a, a ∈ fr :: fl -> heap p1 a = heap p a) as Hsame.
      { intros a Ha. apply Hout. intros j Hj ->. apply elem_of_cons in Ha as [Heq|Ha]; [by apply (A_fr _ _ _ _ _ _ Hg) in Heq; [|lia]|].
        destruct (hole_free_index _ _ _ _ _ _ _ Hh Ha) as (j' & Heq & _ & Hj'). fold i in Hj'. apply A_inj in Heq. lia. }
      eapply linked_ext; [..|exact Hd]; intros a Ha; rewrite Hsame; try done; by right.
    - apply Hh. }
  assert (loose p1 i k) as Hlo.
  { split; [done|]. intros j Hj. unfold idle. by rewrite Hz. }
  destruct (join_pages_ok p1 l k r fl ls Hh1 Hlo) as (Hs & segs' & fl' & Hi' & Hbl).
  { rewrite Hp1. cbn [pfree set_pfree]. lia. }
  cbv zeta in *. fold i in Hs, Hi', Hbl. split; [rewrite Hs; exact Hw|]. by exists segs', fl'.
Qed.
End Pool.
