(* ===== verification/NgxSlabChunks.v ===== *)
(** * NgxSlabChunks: a page of chunks and its list

    What taking and freeing a chunk does to the links of its page: the page
    leaves its list when it becomes full, comes back with the first chunk that
    is freed, and becomes a free run with the last one. *)

From S2P Require Import Prelude NgxSprintf NgxSlab NgxSlabLayout NgxSlabSegs NgxSlabPages NgxSlabFree.

Definition update {T} (f : Z -> T) (s : Z) (v : T) : Z -> T := fun x => if x =? s then v else f x.

Lemma update_same {T} (f : Z -> T) s v : update f s v s = v.
Proof. unfold update. by rewrite Z.eqb_refl. Qed.
Lemma update_other {T} (f : Z -> T) s v x : x <> s -> update f s v x = f x.
Proof. intros Hx. unfold update. by rewrite (proj2 (Z.eqb_neq x s) Hx). Qed.

Section Pool.
Context (pg st np sl fr en : Z).
Context (Hg : geometry pg st np sl fr en).
#[local] Abbreviation A := (A pg).
#[local] Abbreviation invariant := (invariant pg st np sl fr en).
#[local] Abbreviation consts := (consts pg st np sl fr en).
#[local] Abbreviation slot_head := (slot_head sl).
#[local] Abbreviation hole := (hole pg st np sl fr en).

(** All but the page after those of [l], of chunks of [2 ^ s] bytes, which is in its list if [o]. *)
Record chunk_hole (o : bool) (p : slab_pool) (l : list seg) (s : Z) (r : list seg) (fl : list Z) (ls : Z -> list Z) : Prop := {
  ch_consts : consts p;
  ch_total : total_len l + 1 + total_len r = np;
  ch_size : 3 <= s < 12;
  ch_left : lay pg st np (heap p) (words p) 0 l;
  ch_right : lay pg st np (heap p) (words p) (total_len l + 1) r;
  ch_free : dlist (heap p) 0 fr fl /\ fl ≡ₚ frees pg 0 l ++ frees pg (total_len l + 1) r;
  ch_open s' : 3 <= s' < 12 -> dlist (heap p) (chunk_type s') (slot_head s') (ls s') /\
    ls s' ≡ₚ (if (s' =? s) && o then [A (total_len l)] else []) ++ opens pg s' 0 l ++ opens pg s' (total_len l + 1) r;
  ch_tight : tight l = true /\ tight r = true;
  ch_pfree : pfree p = free_len l + free_len r
}.

Lemma opens_once h w i segs s s' a : lay pg st np h w i segs -> a ∈ opens pg s i segs -> a ∈ opens pg s' i segs -> s = s'.
Proof.
  intros Hl H1 H2. assert (H1' := H1). apply collect_in in H1 as (l & g & r & -> & Hf).
  assert (a = A (i + total_len l)) as Ha.
  { destruct g as [| |s1 u1]; cbn in Hf; [by apply elem_of_nil in Hf..|]. destruct ((s1 =? s) && negb (full s1 u1)); [|by apply elem_of_nil in Hf].
    by apply list_elem_of_singleton in Hf. }
  destruct (heads_owner pg st np _ _ i l g r a Hl Ha) as (_ & Ho & _).
  destruct (Ho s H1') as (u & -> & _). by destruct (Ho s' H2) as (u' & [= ->] & _).
Qed.

(** Where the pages of the lists are. *)
Lemma ch_sides o p l s r fl ls : chunk_hole o p l s r fl ls -> 0 <= total_len l /\
  (forall a, a ∈ heads pg 0 l -> exists j, a = A j /\ 0 <= j < total_len l) /\
  (forall a, a ∈ heads pg (total_len l + 1) r -> exists j, a = A j /\ total_len l + 1 <= j < np).
Proof.
  intros Hc. pose proof (ch_left _ _ _ _ _ _ _ Hc) as Hl. pose proof (ch_right _ _ _ _ _ _ _ Hc) as Hr.
  pose proof (ch_total _ _ _ _ _ _ _ Hc). split; [by eapply lay_len|]. split; intros a Ha.
  - destruct (heads_in _ _ _ _ _ _ _ _ Hl Ha) as (j & -> & ?). exists j. split; [done|lia].
  - destruct (heads_in _ _ _ _ _ _ _ _ Hr Ha) as (j & -> & ?). exists j. split; [done|lia].
Qed.

Lemma ch_free_in o p l s r fl ls a : chunk_hole o p l s r fl ls -> a ∈ fl -> exists j, a = A j /\ 0 <= j < np /\ j <> total_len l.
Proof.
  intros Hc Ha. destruct (ch_sides _ _ _ _ _ _ _ Hc) as (H0 & Hl & Hr). pose proof (ch_total _ _ _ _ _ _ _ Hc).
  pose proof (ch_right _ _ _ _ _ _ _ Hc) as Hlr. apply lay_len in Hlr.
  rewrite (proj2 (ch_free _ _ _ _ _ _ _ Hc)), elem_of_app in Ha.
  destruct Ha as [Ha|Ha]; apply frees_heads in Ha; [apply Hl in Ha|apply Hr in Ha]; destruct Ha as (j & -> & ?); exists j; (split; [done|lia]).
Qed.

Lemma ch_open_in o p l s r fl ls s' a : chunk_hole o p l s r fl ls -> 3 <= s' < 12 -> a ∈ ls s' ->
  exists j, a = A j /\ 0 <= j < np /\ (s' <> s \/ o = false -> j <> total_len l).
Proof.
  intros Hc Hs Ha. destruct (ch_sides _ _ _ _ _ _ _ Hc) as (H0 & Hl & Hr). pose proof (ch_total _ _ _ _ _ _ _ Hc).
  pose proof (ch_right _ _ _ _ _ _ _ Hc) as Hlr. apply lay_len in Hlr.
  rewrite (proj2 (ch_open _ _ _ _ _ _ _ Hc s' Hs)), !elem_of_app in Ha. destruct Ha as [Ha|[Ha|Ha]].
  - destruct (Z.eqb_spec s' s), o; cbn in Ha; try (by apply elem_of_nil in Ha). apply list_elem_of_singleton in Ha.
    exists (total_len l). split; [done|]. split; [lia|]. by intros [?|?].
  - apply opens_heads, Hl in Ha as (j & -> & ?). exists j. split; [done|]. lia.
  - apply opens_heads, Hr in Ha as (j & -> & ?). exists j. split; [done|]. lia.
Qed.

Lemma ch_in_ls o p l s r fl ls a : chunk_hole o p l s r fl ls -> a ∈ ls s -> a <> A (total_len l) ->
  a ∈ opens pg s 0 l \/ a ∈ opens pg s (total_len l + 1) r.
Proof.
  intros Hc Ha Hne. rewrite (proj2 (ch_open _ _ _ _ _ _ _ Hc s (ch_size _ _ _ _ _ _ _ Hc))), !elem_of_app in Ha.
  destruct Ha as [Ha|[Ha|Ha]]; [|by left|by right]. destruct ((s =? s) && o); [|by apply elem_of_nil in Ha].
  by apply list_elem_of_singleton in Ha.
Qed.

(** A change of the page and of the links of its list. *)
Lemma chunk_change o p h l s r fl ls : chunk_hole o p l s r fl ls ->
  (forall a, a ∉ slot_head s :: A (total_len l) :: ls s -> h a = heap p a) ->
  (forall a, a <> A (total_len l) -> slab (h a) = slab (heap p a)) ->
  lay pg st np h (words p) 0 l /\ lay pg st np h (words p) (total_len l + 1) r /\ dlist h 0 fr fl /\
  forall s', 3 <= s' < 12 -> s' <> s -> dlist h (chunk_type s') (slot_head s') (ls s').
Proof.
  intros Hc Hout Hsl. destruct (ch_sides _ _ _ _ _ _ _ Hc) as (H0 & Hinl & Hinr). pose proof (ch_total _ _ _ _ _ _ _ Hc) as Ht.
  pose proof (ch_size _ _ _ _ _ _ _ Hc) as Hs. pose proof (ch_left _ _ _ _ _ _ _ Hc) as Hl. pose proof (ch_right _ _ _ _ _ _ _ Hc) as Hr.
  pose proof (lay_len _ _ _ _ _ _ _ Hr) as Hrl. set (i := total_len l) in *.
  assert (Hcross : forall a, a ∈ heads pg 0 l -> a ∈ heads pg (i + 1) r -> False).
  { intros a Ha Ha'. destruct (Hinl _ Ha) as (j & -> & ?), (Hinr _ Ha') as (j' & Heq & ?). apply A_inj in Heq. lia. }
  assert (Hnot : forall j, 0 <= j -> j <> i -> (A j ∈ opens pg s 0 l -> False) -> (A j ∈ opens pg s (i + 1) r -> False) -> h (A j) = heap p (A j)).
  { intros j Hj Hji H1 H2. apply Hout. intros [Heq|[Heq|Hin]%elem_of_cons]%elem_of_cons.
    - by apply (A_slot _ _ _ _ _ _ Hg) in Heq; [|lia..].
    - apply A_inj in Heq. done.
    - destruct (ch_in_ls _ _ _ _ _ _ _ _ Hc Hin) as [?|?]; [|by apply H1|by apply H2]. intros Heq%A_inj. done. }
  split; [|split; [|split]].
  - eapply lay_frame; [..|exact Hl]; [|done]. intros j Hj. rewrite Z.add_0_l in Hj. fold i in Hj. split; [apply Hsl; intros Heq%A_inj; lia|].
    intros Hn. apply Hnot; [lia|lia|intros Hin; by apply Hn, (opens_heads _ s)|]. intros Hin%opens_heads%Hinr. destruct Hin as (j' & Heq & ?). apply A_inj in Heq. lia.
  - eapply lay_frame; [..|exact Hr]; [|done]. intros j Hj. split; [apply Hsl; intros Heq%A_inj; lia|].
    intros Hn. apply Hnot; [lia|lia| |intros Hin; by apply Hn, (opens_heads _ s)]. intros Hin%opens_heads%Hinl. destruct Hin as (j' & Heq & ?). apply A_inj in Heq. lia.
  - destruct (ch_free _ _ _ _ _ _ _ Hc) as [[Hd Hnd] Hp]. split; [|done].
    assert (forall a, a ∈ fr :: fl -> h a = heap p a) as Heq; [|eapply linked_ext; [..|exact Hd]; intros a Ha; rewrite Heq; try done; by right].
    intros a [->|Ha]%elem_of_cons.
    + apply Hout. intros [Heq|[Heq|Hin]%elem_of_cons]%elem_of_cons.
      * symmetry in Heq. by apply (slot_fr _ _ _ _ _ _ Hg) in Heq; [|lia].
      * symmetry in Heq. by apply (A_fr _ _ _ _ _ _ Hg) in Heq.
      * destruct (ch_open_in _ _ _ _ _ _ _ _ _ Hc Hs Hin) as (j & Heq & ? & _). symmetry in Heq. by apply (A_fr _ _ _ _ _ _ Hg) in Heq; [|lia].
    + destruct (ch_free_in _ _ _ _ _ _ _ _ Hc Ha) as (j & -> & Hj & Hji). rewrite Hp, elem_of_app in Ha. apply Hnot; [lia|done|..]; intros Hin; destruct Ha as [Ha|Ha].
      * by eapply frees_opens; [exact Hl|..].
      * eapply Hcross; [by eapply opens_heads|by apply frees_heads].
      * eapply Hcross; [by apply frees_heads|by eapply opens_heads].
      * by eapply frees_opens; [exact Hr|..].
  - intros s' Hs' Hne. destruct (ch_open _ _ _ _ _ _ _ Hc s' Hs') as [[Hd Hnd] Hp]. split; [|done].
    assert (forall a, a ∈ slot_head s' :: ls s' -> h a = heap p a) as Heq; [|eapply linked_ext; [..|exact Hd]; intros a Ha; rewrite Heq; try done; by right].
    intros a [->|Ha]%elem_of_cons.
    + apply Hout. intros [Heq|[Heq|Hin]%elem_of_cons]%elem_of_cons.
      * by apply (slot_inj _ _ _ _ _ _ Hg) in Heq.
      * symmetry in Heq. by apply (A_slot _ _ _ _ _ _ Hg) in Heq; [|lia..].
      * destruct (ch_open_in _ _ _ _ _ _ _ _ _ Hc Hs Hin) as (j & Heq & ? & _). symmetry in Heq. by apply (A_slot _ _ _ _ _ _ Hg) in Heq; [|lia..].
    + destruct (ch_open_in _ _ _ _ _ _ _ _ _ Hc Hs' Ha) as (j & -> & Hj & Hji). specialize (Hji (or_introl Hne)).
      rewrite Hp, (proj2 (Z.eqb_neq s' s) Hne) in Ha. cbn [andb app] in Ha. rewrite elem_of_app in Ha. apply Hnot; [lia|done|..]; intros Hin; destruct Ha as [Ha|Ha].
      * apply Hne. by eapply opens_once; [exact Hl|..].
      * eapply Hcross; by eapply opens_heads.
      * eapply Hcross; by eapply opens_heads.
      * apply Hne. by eapply opens_once; [exact Hr|..].
Qed.

(** ** In and out of the list *)

Lemma ch_open_aligned o p l s r fl ls s' : chunk_hole o p l s r fl ls -> 3 <= s' < 12 -> aligned (slot_head s' :: ls s').
Proof.
  intros Hc Hs. constructor; [by eapply aligned_slot|]. apply Forall_forall. intros a Ha.
  destruct (ch_open_in _ _ _ _ _ _ _ _ _ Hc Hs Ha) as (j & -> & ? & _). by eapply aligned_A.
Qed.

Lemma ch_slot_at s : at_page sl (s - 3) = slot_head s.
Proof. done. Qed.

Lemma invariant_chunk p l s u r fl ls : invariant p (l ++ Chunks s u :: r) fl ls ->
  chunk_hole (negb (full s u)) p l s r fl ls /\ mask_ok s u /\ bits pg st (heap p) (words p) (total_len l) s u /\
  (full s u = true -> p_next (heap p (A (total_len l))) = NULL /\ p_prev (heap p (A (total_len l))) = chunk_type s).
Proof.
  intros [Hc Ht Hl Hfree Hopen Htight Hpf]. rewrite total_len_app in Ht. cbn in Ht. apply lay_app in Hl as [Hl [(Hs & Hm & Hb & Hf) Hr]].
  rewrite Z.add_0_l in Hr, Hb, Hf. cbn [len] in Hr. split; [|done]. split; try done.
  - lia.
  - split; [apply Hfree|]. destruct Hfree as [_ ->]. unfold frees. by rewrite collect_app.
  - intros s' Hs'. destruct (Hopen s' Hs') as [Hd Hp]. split; [done|]. rewrite Hp. unfold opens. rewrite collect_app. cbn.
    rewrite Z.eqb_sym, Permutation_app_swap_app. done.
  - rewrite tight_app, tight_cons in Htight. by destruct (tight l), (tight r).
  - by rewrite Hpf, free_len_app.
Qed.

Lemma chunk_invariant p l s u r fl ls : chunk_hole (negb (full s u)) p l s r fl ls -> mask_ok s u ->
  bits pg st (heap p) (words p) (total_len l) s u ->
  (full s u = true -> p_next (heap p (A (total_len l))) = NULL /\ p_prev (heap p (A (total_len l))) = chunk_type s) ->
  invariant p (l ++ Chunks s u :: r) fl ls.
Proof.
  intros [Hc Ht Hs Hl Hr Hfree Hopen [Htl Htr] Hpf] Hm Hb Hf. split; try done.
  - rewrite total_len_app. cbn. lia.
  - apply lay_app. split; [done|]. rewrite Z.add_0_l. cbn [lay len]. done.
  - split; [apply Hfree|]. destruct Hfree as [_ ->]. unfold frees. by rewrite collect_app.
  - intros s' Hs'. destruct (Hopen s' Hs') as [Hd Hp]. split; [done|]. rewrite Hp. unfold opens. rewrite collect_app. cbn.
    rewrite (Z.eqb_sym s s'). apply Permutation_app_swap_app.
  - by rewrite tight_app, tight_cons, Htl, Htr, andb_false_r.
  - by rewrite Hpf, free_len_app.
Qed.

(** What does not touch the links. *)
Lemma chunk_same o p p' l s r fl ls : chunk_hole o p l s r fl ls -> p' = set_heap (heap p') (Pool (heap p) (words p') (stats p') (pfree p) (min_size p) (min_shift p) (pages p) (last p) (start p) (end_ p) (slots p) (NgxSlab.free p)) ->
  (forall a, p_next (heap p' a) = p_next (heap p a) /\ p_prev (heap p' a) = p_prev (heap p a)) -> (forall a, a <> A (total_len l) -> heap p' a = heap p a) ->
  (forall x, x < page_addr st (total_len l) \/ page_addr st (total_len l + 1) <= x -> words p' x = words p x) -> chunk_hole o p' l s r fl ls.
Proof.
  intros Hc Hp' Hlinks Hh Hw. destruct (chunk_change o p (heap p') l s r fl ls Hc) as (H1 & H2 & H3 & H4).
  { intros a Ha. apply Hh. rewrite !elem_of_cons in Ha. tauto. }
  { intros a Ha. by rewrite Hh. }
  destruct Hc as [Hco Ht Hs Hl Hr Hfree Hopen Htight Hpf]. split; try done.
  - rewrite Hp'. apply (consts_heap _ _ _ _ _ _ (Pool (heap p) (words p') (stats p') (pfree p) (min_size p) (min_shift p) (pages p) (last p) (start p) (end_ p) (slots p) (NgxSlab.free p)) (heap p') (pfree p)).
    destruct Hco. by split.
  - eapply lay_frame; [..|exact H1]; [done|]. intros x Hx. apply Hw. left. rewrite Z.add_0_l in Hx. lia.
  - eapply lay_frame; [..|exact H2]; [done|]. intros x Hx. apply Hw. right. lia.
  - split; [done|apply Hfree].
  - intros s' Hs'. destruct (Hopen s' Hs') as [[Hd Hnd] Hp]. split; [|done]. split; [|done]. eapply linked_ext; [..|exact Hd]; intros a _; by destruct (Hlinks a).
  - by rewrite Hp'.
Qed.

Lemma chunk_slab o p l s r fl ls v : chunk_hole o p l s r fl ls -> chunk_hole o (set_slab (A (total_len l)) v p) l s r fl ls.
Proof. intros Hc. eapply chunk_same; [exact Hc|done|intros a; by read_heap|intros a Ha; by rewrite heap_slab_ne|done]. Qed.

Lemma chunk_word o p l s r fl ls a v : chunk_hole o p l s r fl ls -> page_addr st (total_len l) <= a < page_addr st (total_len l + 1) ->
  chunk_hole o (set_word a v p) l s r fl ls.
Proof.
  intros Hc Ha. eapply chunk_same; [exact Hc|done|done|done|]. intros x Hx. cbn. rewrite (proj2 (Z.eqb_neq x a)); [done|lia].
Qed.

Lemma chunk_stat o p l s r fl ls i f : chunk_hole o p l s r fl ls -> chunk_hole o (set_stat i f p) l s r fl ls.
Proof. intros Hc. by eapply chunk_same; [exact Hc|..]. Qed.

(** The page leaves its list. *)
Lemma chunk_retire p l s r fl ls : chunk_hole true p l s r fl ls -> exists ls',
  let p' := retire (A (total_len l)) (chunk_type s) p in
  same_pool p p' /\ chunk_hole false p' l s r fl ls' /\ slab (heap p' (A (total_len l))) = slab (heap p (A (total_len l))) /\
  p_next (heap p' (A (total_len l))) = NULL /\ p_prev (heap p' (A (total_len l))) = chunk_type s.
Proof.
  intros Hc. set (i := total_len l). pose proof (ch_size _ _ _ _ _ _ _ Hc) as Hs.
  destruct (ch_open _ _ _ _ _ _ _ Hc s Hs) as [Hd Hp]. rewrite Z.eqb_refl in Hp. cbn [andb app] in Hp. fold i in Hp.
  assert (A i ∈ ls s) as Hin by (rewrite Hp; by left). apply list_elem_of_split in Hin as (l1 & l2 & Hls).
  pose proof (ch_open_aligned _ _ _ _ _ _ _ s Hc Hs) as Hal. rewrite Hls in Hd, Hp, Hal.
  destruct (retire_ok _ _ _ _ _ _ Hd (type_range s) Hal) as (Hsm & Hd' & Hk & Hn & Hpv). cbv zeta in *.
  exists (update ls s (l1 ++ l2)). cbv zeta. set (p' := retire (A i) (chunk_type s) p) in *.
  destruct Hk as [Hks Hko]. split; [done|]. split; [|by rewrite Hks].
  destruct (chunk_change true p (heap p') l s r fl ls Hc) as (H1 & H2 & H3 & H4).
  { intros a Ha. apply Hko. rewrite Hls in Ha. rewrite elem_of_cons, elem_of_cons in Ha. rewrite elem_of_cons. tauto. }
  { intros a Ha. apply Hks. }
  assert (words p' = words p) as Hw by (by rewrite Hsm). rewrite <- Hw in H1, H2.
  destruct Hc as [Hco Ht _ _ _ Hfree Hopen Htight Hpf]. split; try done.
  - rewrite Hsm. by apply (consts_heap _ _ _ _ _ _ p (heap p') (pfree p)).
  - split; [done|apply Hfree].
  - intros s' Hs'. rewrite andb_false_r. cbn [app]. destruct (decide (s' = s)) as [->|Hne].
    + rewrite update_same. split; [done|]. rewrite <- Permutation_middle in Hp. by apply (inj (cons (A i))) in Hp.
    + rewrite update_other by done. split; [by apply H4|]. destruct (Hopen s' Hs') as [_ ->]. by rewrite (proj2 (Z.eqb_neq s' s) Hne).
Qed.

(** It comes back. *)
Lemma chunk_relist p l s r fl ls : chunk_hole false p l s r fl ls -> exists ls',
  let p' := relist (A (total_len l)) (s - 3) (chunk_type s) p in
  same_pool p p' /\ chunk_hole true p' l s r fl ls' /\ slab (heap p' (A (total_len l))) = slab (heap p (A (total_len l))).
Proof.
  intros Hc. set (i := total_len l). pose proof (ch_size _ _ _ _ _ _ _ Hc) as Hs. destruct (ch_consts _ _ _ _ _ _ _ Hc) as [_ _ _ [Hsl _]].
  destruct (ch_open _ _ _ _ _ _ _ Hc s Hs) as [Hd Hp]. rewrite andb_false_r in Hp. cbn [app] in Hp.
  pose proof (ch_total _ _ _ _ _ _ _ Hc) as Ht. pose proof (ch_right _ _ _ _ _ _ _ Hc) as Hrl. apply lay_len in Hrl.
  destruct (ch_sides _ _ _ _ _ _ _ Hc) as (H0 & _). fold i in Ht, H0.
  assert (A i ∉ slot_head s :: ls s) as Hx.
  { intros [Heq|Hin]%elem_of_cons; [by apply (A_slot _ _ _ _ _ _ Hg) in Heq; [|lia..]|].
    destruct (ch_open_in _ _ _ _ _ _ _ _ _ Hc Hs Hin) as (j & Heq & _ & Hj). apply A_inj in Heq. by apply Hj; [right|]. }
  pose proof (relist_ok p (chunk_type s) (s - 3) (ls s) (A i)) as Hrel. cbv zeta in Hrel. rewrite Hsl in Hrel. change (at_page sl (s - 3)) with (slot_head s) in Hrel.
  destruct (Hrel Hd Hx (type_range s)) as (Hsm & Hd' & Hk); [by eapply aligned_slot|eapply aligned_A; [done|lia]|]. clear Hrel.
  exists (update ls s (A i :: ls s)). cbv zeta. set (p' := relist _ _ _ _) in *. destruct Hk as [Hks Hko]. split; [done|]. split; [|by rewrite Hks].
  destruct (chunk_change false p (heap p') l s r fl ls Hc) as (H1 & H2 & H3 & H4).
  { intros a Ha. by apply Hko. }
  { intros a Ha. apply Hks. }
  assert (words p' = words p) as Hw by (by rewrite Hsm). rewrite <- Hw in H1, H2.
  destruct Hc as [Hco _ _ _ _ Hfree Hopen Htight Hpf]. split; try done.
  - rewrite Hsm. by apply (consts_heap _ _ _ _ _ _ p (heap p') (pfree p)).
  - split; [done|apply Hfree].
  - intros s' Hs'. destruct (decide (s' = s)) as [->|Hne].
    + rewrite update_same, Z.eqb_refl. split; [done|]. cbn. by rewrite Hp.
    + rewrite update_other by done. rewrite (proj2 (Z.eqb_neq s' s) Hne). split; [by apply H4|]. destruct (Hopen s' Hs') as [_ ->]. by rewrite andb_false_r.
Qed.

(** ** The first chunk and the last one *)

Lemma block_chunk p l r fl ls s : invariant p (l ++ Block 1 :: r) fl ls -> 3 <= s < 12 -> chunk_hole false p l s r fl ls.
Proof.
  intros Hi Hs. destruct (invariant_hole _ _ _ _ _ _ _ _ _ _ _ _ Hi) as [Hh Hpf]; [done|done|]. destruct Hh as [Hc [_ Ht] Hl Hr Hfree Hopen Htight].
  cbn [len] in *. split; try done. intros s' Hs'. rewrite andb_false_r. by apply Hopen.
Qed.

Lemma chunk_enlist p l s r fl ls v : chunk_hole false p l s r fl ls -> ls s = [] ->
  let p' := enlist (A (total_len l)) (s - 3) v (chunk_type s) p in
  same_pool p p' /\ chunk_hole true p' l s r fl (update ls s [A (total_len l)]) /\ slab (heap p' (A (total_len l))) = v.
Proof.
  intros Hc Hemp. cbv zeta. pose proof (ch_size _ _ _ _ _ _ _ Hc) as Hs. set (i := total_len l).
  destruct (ch_consts _ _ _ _ _ _ _ Hc) as [_ _ _ [Hsl _]]. destruct (ch_open _ _ _ _ _ _ _ Hc s Hs) as [Hd Hp]. rewrite andb_false_r in Hp. cbn [app] in Hp.
  destruct (ch_sides _ _ _ _ _ _ _ Hc) as (H0 & _). fold i in H0. rewrite Hemp in Hd, Hp.
  pose proof (enlist_ok p (chunk_type s) (s - 3) (A i) v) as Hen. cbv zeta in Hen. rewrite Hsl in Hen. change (at_page sl (s - 3)) with (slot_head s) in Hen.
  destruct (Hen Hd) as (Hsm & Hd' & Hv & Hks & Hko); [by eapply A_slot; [done|lia..]|apply type_range|by eapply aligned_slot|]. clear Hen.
  set (p' := enlist _ _ _ _ _) in *. split; [done|]. split; [|done].
  destruct (chunk_change false p (heap p') l s r fl ls Hc) as (H1 & H2 & H3 & H4).
  { intros a Ha. rewrite !elem_of_cons in Ha. apply Hko; tauto. }
  { intros a Ha. by apply Hks. }
  assert (words p' = words p) as Hw by (by rewrite Hsm). rewrite <- Hw in H1, H2.
  destruct Hc as [Hco Ht _ _ _ Hfree Hopen Htight Hpf]. split; try done.
  - rewrite Hsm. by apply (consts_heap _ _ _ _ _ _ p (heap p') (pfree p)).
  - split; [done|apply Hfree].
  - intros s' Hs'. destruct (decide (s' = s)) as [->|Hne].
    + rewrite update_same, Z.eqb_refl. split; [done|]. fold i in Hp. cbn [andb app]. fold i. by rewrite <- Hp.
    + rewrite update_other by done. rewrite (proj2 (Z.eqb_neq s' s) Hne). split; [by apply H4|]. destruct (Hopen s' Hs') as [_ ->]. by rewrite andb_false_r.
Qed.

Lemma chunk_listed p l s r fl ls : chunk_hole true p l s r fl ls -> p_next (heap p (A (total_len l))) <> NULL.
Proof.
  intros Hc. pose proof (ch_size _ _ _ _ _ _ _ Hc) as Hs. destruct (ch_open _ _ _ _ _ _ _ Hc s Hs) as [Hd Hp]. rewrite Z.eqb_refl in Hp. cbn [andb app] in Hp.
  assert (A (total_len l) ∈ ls s) as Hin by (rewrite Hp; by left). destruct (member_prev _ _ _ _ _ Hd Hin) as (_ & _ & _ & Hn).
  destruct (aligned_in _ _ (ch_open_aligned _ _ _ _ _ _ _ s Hc Hs) Hn) as [_ ?]. unfold NULL. lia.
Qed.

(** The page of the last chunk becomes a free run. *)
Lemma chunk_free p l s r fl ls : chunk_hole true p l s r fl ls -> let p' := ngx_slab_free_pages (A (total_len l)) 1 p in
  words p' = words p /\ stats p' = stats p /\ exists segs' fl' ls', invariant p' segs' fl' ls' /\
  blocks st 0 segs' = blocks st 0 l ++ blocks st (total_len l + 1) r.
Proof.
  intros Hc0. cbv zeta. unfold ngx_slab_free_pages. change (negb (1 - 1 =? 0)) with false. cbn iota.
  pose proof (ch_size _ _ _ _ _ _ _ Hc0) as Hs. set (i := total_len l). pose proof (ch_total _ _ _ _ _ _ _ Hc0) as Ht. fold i in Ht.
  pose proof (ch_left _ _ _ _ _ _ _ Hc0) as Hl. pose proof (ch_right _ _ _ _ _ _ _ Hc0) as Hr.
  apply free_len_range in Hl, Hr. rewrite (pages_u64 _ _ _ _ _ _ Hg) by (rewrite (ch_pfree _ _ _ _ _ _ _ Hc0); fold i in Hl; lia).
  pose proof (chunk_slab _ _ _ _ _ _ _ 1 Hc0) as Hc. fold i in Hc. change (set_slab (A i) 1 (set_pfree (pfree p + 1) p)) with (set_pfree (pfree p + 1) (set_slab (A i) 1 p)).
  set (p1 := set_slab (A i) 1 p) in *. cbn [heap set_pfree]. pose proof (chunk_listed _ _ _ _ _ _ Hc) as Hnn. fold i in Hnn. rewrite (proj2 (Z.eqb_neq _ NULL) Hnn). cbn [negb].
  change (unlink (A i) (set_pfree (pfree p + 1) p1)) with (set_pfree (pfree p + 1) (unlink (A i) p1)).
  destruct (ch_open _ _ _ _ _ _ _ Hc s Hs) as [Hd Hp]. rewrite Z.eqb_refl in Hp. cbn [andb app] in Hp. fold i in Hp.
  assert (A i ∈ ls s) as Hin by (rewrite Hp; by left). apply list_elem_of_split in Hin as (l1 & l2 & Hls).
  pose proof (ch_open_aligned _ _ _ _ _ _ _ s Hc Hs) as Hal. rewrite Hls in Hd, Hp, Hal.
  destruct (slab_unlink_ok _ _ _ _ _ _ Hd (type_range s) Hal) as (Hsm & Hd' & Hks & Hko). set (p2 := unlink (A i) p1) in *.
  destruct (chunk_change true p1 (heap p2) l s r fl ls Hc) as (H1 & H2 & H3 & H4).
  { intros a Ha. apply Hko. rewrite Hls in Ha. rewrite !elem_of_cons, elem_of_app, elem_of_cons in Ha. rewrite elem_of_cons, elem_of_app. tauto. }
  { intros a Ha. apply Hks. }
  assert (words p2 = words p1) as Hw by (by rewrite Hsm). rewrite <- Hw in H1, H2.
  set (p3 := set_pfree (pfree p + 1) p2). assert (hole p3 l 1 r fl (update ls s (l1 ++ l2))) as Hh.
  { destruct Hc as [Hco _ _ _ _ Hfree Hopen Htight Hpf]. split; try done.
    - replace p3 with (set_pfree (pfree p + 1) (set_heap (heap p2) p1)) by (subst p3; by rewrite Hsm). by apply consts_heap.
    - split; [done|apply Hfree].
    - intros s' Hs'. destruct (decide (s' = s)) as [->|Hne].
      + rewrite update_same. split; [done|]. rewrite <- Permutation_middle in Hp. by apply (inj (cons (A i))) in Hp.
      + rewrite update_other by done. split; [by apply H4|]. destruct (Hopen s' Hs') as [_ ->]. by rewrite (proj2 (Z.eqb_neq s' s) Hne). }
  assert (loose pg p3 (total_len l) 1) as Hlo.
  { split; [|intros j Hj; lia]. fold i. change (heap p3) with (heap p2). rewrite Hks. subst p1. read_heap. by rewrite Z.eqb_refl. }
  destruct (join_pages_ok _ _ _ _ _ _ Hg p3 l 1 r fl _ Hh Hlo) as (Hsj & segs' & fl' & Hi' & Hbl).
  { change (pfree p3) with (pfree p + 1). rewrite (ch_pfree _ _ _ _ _ _ _ Hc0). lia. }
  cbv zeta in *. fold i in Hsj, Hi', Hbl. split; [by rewrite Hsj|]. split; [by rewrite Hsj|]. by exists segs', fl', (update ls s (l1 ++ l2)).
Qed.
End Pool.
