(* ===== verification/NgxSlabBits.v ===== *)
(** * NgxSlabBits: masks of chunks

    Setting and clearing a bit, in a word, in the upper half of a descriptor
    and in a bit map of several words, and the search for a bit that is clear. *)

From S2P Require Import Prelude NgxSprintf NgxSlab NgxSlabLayout NgxSlabSegs.

Definition set_bit (u k : Z) : Z := Z.lor u (2 ^ k).
Definition clear_bit (u k : Z) : Z := Z.ldiff u (2 ^ k).

Lemma set_bit_spec u k i : 0 <= k -> Z.testbit (set_bit u k) i = (i =? k) || Z.testbit u i.
Proof. intros Hk. unfold set_bit. rewrite Z.lor_spec, Z.pow2_bits_eqb, Z.eqb_sym by done. apply orb_comm. Qed.
Lemma clear_bit_spec u k i : 0 <= k -> Z.testbit (clear_bit u k) i = negb (i =? k) && Z.testbit u i.
Proof. intros Hk. unfold clear_bit. rewrite Z.ldiff_spec, Z.pow2_bits_eqb, Z.eqb_sym by done. apply andb_comm. Qed.

(** Numbers below a power of two. *)
Lemma small_bits u n : 0 <= n -> (0 <= u < 2 ^ n <-> 0 <= u /\ forall i, n <= i -> Z.testbit u i = false).
Proof.
  intros Hn. split.
  - intros Hu. split; [lia|]. intros i Hi. rewrite <- (Z.mod_small u (2 ^ n)) by lia. by apply Z.mod_pow2_bits_high.
  - intros [Hu Hb]. split; [done|]. assert (u = u mod 2 ^ n) as ->; [|by apply Z.mod_pos_bound, Z.pow_pos_nonneg].
    apply Z.bits_inj'. intros i Hi. destruct (decide (i < n)); [by rewrite Z.mod_pow2_bits_low|]. rewrite Z.mod_pow2_bits_high by lia. apply Hb. lia.
Qed.

Lemma set_bit_range u k n : 0 <= u < 2 ^ n -> 0 <= k < n -> 0 <= set_bit u k < 2 ^ n.
Proof.
  intros Hu Hk. apply small_bits in Hu as [Hu Hb]; [|lia]. apply small_bits; [lia|]. split; [apply Z.lor_nonneg; split; [done|apply Z.pow_nonneg; lia]|].
  intros i Hi. rewrite set_bit_spec, Hb by lia. by rewrite (proj2 (Z.eqb_neq i k)) by lia.
Qed.
Lemma clear_bit_range u k n : 0 <= u < 2 ^ n -> 0 <= k -> 0 <= n -> 0 <= clear_bit u k < 2 ^ n.
Proof.
  intros Hu Hk Hn. apply small_bits in Hu as [Hu Hb]; [|lia]. apply small_bits; [lia|]. split; [apply Z.ldiff_nonneg; by left|].
  intros i Hi. rewrite clear_bit_spec, Hb by lia. apply andb_false_r.
Qed.

Lemma all_ones u n : 0 <= n -> 0 <= u < 2 ^ n -> (forall i, 0 <= i < n -> Z.testbit u i = true) -> u = 2 ^ n - 1.
Proof.
  intros Hn Hu Hb. apply small_bits in Hu as [Hu Hh]; [|done]. rewrite Z.sub_1_r, <- Z.ones_equiv. apply Z.bits_inj'. intros i Hi.
  destruct (decide (i < n)); [rewrite Hb, Z.ones_spec_low by lia; done|rewrite Hh, Z.ones_spec_high by lia; done].
Qed.

Lemma ones_bit n i : 0 <= i < n -> Z.testbit (2 ^ n - 1) i = true.
Proof. intros Hi. rewrite Z.sub_1_r, <- Z.ones_equiv. apply Z.ones_spec_low. lia. Qed.

(** The first bit that is clear. *)
Lemma first_clear u n : 0 <= n -> 0 <= u < 2 ^ n -> u <> 2 ^ n - 1 ->
  exists k, 0 <= k < n /\ Z.testbit u k = false /\ forall i, 0 <= i < k -> Z.testbit u i = true.
Proof.
  intros Hn Hu Hne.
  assert (Hsearch : forall m, 0 <= m <= n -> (exists k, 0 <= k < m /\ Z.testbit u k = false /\ forall i, 0 <= i < k -> Z.testbit u i = true) \/
    forall i, 0 <= i < m -> Z.testbit u i = true).
  { intros m [Hm0 Hm]. revert Hm. pattern m. apply natlike_ind; [right; lia| |done]. intros x Hx IH Hm. destruct IH as [(k & ? & ? & ?)|Hall]; [lia|left; exists k; split_and!; try done; lia|].
    destruct (Z.testbit u x) eqn:Hb; [right|left; exists x; split; [lia|done]]. intros i Hi. destruct (decide (i = x)) as [->|]; [done|apply Hall; lia]. }
  destruct (Hsearch n ltac:(lia)) as [?|Hall]; [done|]. exfalso. by apply Hne, all_ones.
Qed.

(** The search finds it. *)
Lemma bit_loop_ok fuel go w j k i : 0 <= j <= k -> k < 64 -> k - j < Z.of_nat fuel -> (forall x, j <= x <= k -> go (2 ^ x) = true) ->
  (forall x, j <= x < k -> Z.testbit w x = true) -> Z.testbit w k = false -> bit_loop fuel go w (2 ^ j) i = Some (2 ^ k, i + (k - j)).
Proof.
  revert j i. induction fuel as [|fuel IH]; intros j i Hj Hk Hf Hgo Hset Hclear; [lia|]. cbn [bit_loop].
  rewrite Hgo by lia. rewrite <- (Z.shiftl_1_l j), (land_bit w j) by lia. destruct (decide (j = k)) as [->|Hne].
  - rewrite Hclear. rewrite Z.shiftl_1_l. do 2 f_equal. lia.
  - rewrite Hset by lia. rewrite Z.shiftl_1_l. assert (u64 (Z.shiftl (2 ^ j) 1) = 2 ^ (j + 1)) as ->.
    { rewrite Z.shiftl_mul_pow2, <- Z.pow_add_r by lia. unfold u64. apply Z.mod_small. split; [apply Z.pow_nonneg; lia|apply Z.pow_lt_mono_r; lia]. }
    rewrite IH; [do 2 f_equal; lia|lia|lia|lia|intros; apply Hgo; lia|intros; apply Hset; lia|done].
Qed.

(** ** The upper half of a descriptor *)

Lemma pack_bits u s i : 0 <= s < 2 ^ 32 -> 0 <= i -> Z.testbit (u * 2 ^ 32 + s) i = if i <? 32 then Z.testbit s i else Z.testbit u (i - 32).
Proof.
  intros Hs Hi. rewrite <- lor_shiftl_add by lia. rewrite Z.lor_spec, Z.shiftl_spec by done. destruct (Z.ltb_spec i 32).
  - by rewrite Z.testbit_neg_r by lia.
  - apply (small_bits s 32) in Hs as [_ Hs]; [|lia]. rewrite Hs by done. by rewrite orb_false_r.
Qed.

Lemma pack_set u s k : 0 <= s < 2 ^ 32 -> 0 <= k -> Z.lor (u * 2 ^ 32 + s) (2 ^ (32 + k)) = set_bit u k * 2 ^ 32 + s.
Proof.
  intros Hs Hk. apply Z.bits_inj'. intros i Hi. rewrite Z.lor_spec, !pack_bits, Z.pow2_bits_eqb by (done || lia). destruct (Z.ltb_spec i 32).
  - rewrite (proj2 (Z.eqb_neq (32 + k) i)) by lia. apply orb_false_r.
  - rewrite set_bit_spec by lia. rewrite orb_comm. f_equal. apply eq_iff_eq_true. rewrite !Z.eqb_eq. lia.
Qed.

Lemma lnot_bit k i : 0 <= k < 64 -> 0 <= i < 64 -> Z.testbit (lnot64 (2 ^ k)) i = negb (i =? k).
Proof.
  intros Hk Hi. unfold lnot64. assert (2 ^ 64 - 1 - 2 ^ k = Z.ldiff (Z.ones 64) (2 ^ k)) as ->.
  { rewrite <- Z.sub_nocarry_ldiff; [by rewrite Z.ones_equiv, Z.sub_1_r|]. apply Z.bits_inj'. intros x Hx.
    rewrite Z.ldiff_spec, Z.pow2_bits_eqb, Z.bits_0 by lia. destruct (Z.eqb_spec k x) as [->|]; [|done]. by rewrite Z.ones_spec_low by lia. }
  rewrite Z.ldiff_spec, Z.ones_spec_low, Z.pow2_bits_eqb, Z.eqb_sym by lia. done.
Qed.

Lemma land_lnot_bit w k : 0 <= w < 2 ^ 64 -> 0 <= k < 64 -> Z.land w (lnot64 (2 ^ k)) = clear_bit w k.
Proof.
  intros Hw Hk. apply (small_bits w 64) in Hw as [_ Hw]; [|lia]. apply Z.bits_inj'. intros i Hi. rewrite Z.land_spec, clear_bit_spec by lia.
  destruct (decide (i < 64)); [rewrite lnot_bit by lia; apply andb_comm|]. rewrite Hw by lia. by rewrite andb_false_r.
Qed.

Lemma pack_range u s : 0 <= u < 2 ^ 32 -> 0 <= s < 2 ^ 32 -> 0 <= u * 2 ^ 32 + s < 2 ^ 64.
Proof. lia. Qed.

Lemma pack_clear u s k : 0 <= u < 2 ^ 32 -> 0 <= s < 2 ^ 32 -> 0 <= k < 32 ->
  Z.land (u * 2 ^ 32 + s) (lnot64 (2 ^ (k + 32))) = clear_bit u k * 2 ^ 32 + s.
Proof.
  intros Hu Hs Hk. rewrite land_lnot_bit by (lia || by apply pack_range). apply Z.bits_inj'. intros i Hi.
  rewrite clear_bit_spec, !pack_bits by lia. destruct (Z.ltb_spec i 32).
  - by rewrite (proj2 (Z.eqb_neq i (k + 32))) by lia.
  - rewrite clear_bit_spec by lia. f_equal. f_equal. apply eq_iff_eq_true. rewrite !Z.eqb_eq. lia.
Qed.

Lemma pack_mask u s : 0 <= u < 2 ^ 32 -> 0 <= s < 2 ^ 32 -> Z.land (u * 2 ^ 32 + s) NGX_SLAB_MAP_MASK = u * 2 ^ 32.
Proof.
  intros Hu Hs. change NGX_SLAB_MAP_MASK with (lnot64 (2 ^ 32 - 1)). rewrite land_lnot by (lia || by apply pack_range).
  rewrite Z.add_comm, Z.mod_add, Z.mod_small by lia. lia.
Qed.

(** ** A bit map of several words *)

Definition word (u n : Z) : Z := (u / 2 ^ (64 * n)) mod 2 ^ 64.

Lemma word_bits u n i : 0 <= n -> 0 <= i -> Z.testbit (word u n) i = (i <? 64) && Z.testbit u (64 * n + i).
Proof.
  intros Hn Hi. unfold word. destruct (Z.ltb_spec i 64).
  - rewrite Z.mod_pow2_bits_low, Z.div_pow2_bits by lia. cbn. f_equal. lia.
  - by rewrite Z.mod_pow2_bits_high by lia.
Qed.

Lemma word_range u n : 0 <= word u n < 2 ^ 64.
Proof. apply Z.mod_pos_bound. lia. Qed.

Lemma word_set u n k : 0 <= n -> 0 <= k < 64 -> word (set_bit u (64 * n + k)) n = set_bit (word u n) k.
Proof.
  intros Hn Hk. apply Z.bits_inj'. intros i Hi. rewrite word_bits, !set_bit_spec, word_bits by lia. destruct (Z.ltb_spec i 64); cbn.
  - f_equal. apply eq_iff_eq_true. rewrite !Z.eqb_eq. lia.
  - by rewrite (proj2 (Z.eqb_neq i k)) by lia.
Qed.
Lemma word_clear u n k : 0 <= n -> 0 <= k < 64 -> word (clear_bit u (64 * n + k)) n = clear_bit (word u n) k.
Proof.
  intros Hn Hk. apply Z.bits_inj'. intros i Hi. rewrite word_bits, !clear_bit_spec, word_bits by lia. destruct (Z.ltb_spec i 64); cbn.
  - f_equal. f_equal. apply eq_iff_eq_true. rewrite !Z.eqb_eq. lia.
  - by rewrite andb_false_r.
Qed.
Lemma word_set_other u n n' k : 0 <= n -> 0 <= n' -> n' <> n -> 0 <= k < 64 -> word (set_bit u (64 * n + k)) n' = word u n'.
Proof.
  intros Hn Hn' Hne Hk. apply Z.bits_inj'. intros i Hi. rewrite !word_bits, set_bit_spec by lia. destruct (Z.ltb_spec i 64); [|done]. cbn.
  by rewrite (proj2 (Z.eqb_neq (64 * n' + i) (64 * n + k))) by lia.
Qed.
Lemma word_clear_other u n n' k : 0 <= n -> 0 <= n' -> n' <> n -> 0 <= k < 64 -> word (clear_bit u (64 * n + k)) n' = word u n'.
Proof.
  intros Hn Hn' Hne Hk. apply Z.bits_inj'. intros i Hi. rewrite !word_bits, clear_bit_spec by lia. destruct (Z.ltb_spec i 64); [|done]. cbn.
  by rewrite (proj2 (Z.eqb_neq (64 * n' + i) (64 * n + k))) by lia.
Qed.

(** ** The chunks in use *)

Lemma filter_bit (f : Z -> bool) (g : Z -> bool) (k : Z) l : NoDup l -> k ∈ l -> f k = false -> (forall i, g i = (i =? k) || f i) ->
  filter (fun i => g i = true) l ≡ₚ k :: filter (fun i => f i = true) l.
Proof.
  intros Hnd Hk Hf Hg. apply NoDup_Permutation.
  - by apply NoDup_filter.
  - constructor; [|by apply NoDup_filter]. rewrite list_elem_of_filter. rewrite Hf. by intros [? _].
  - intros i. rewrite elem_of_cons, !list_elem_of_filter, Hg, orb_true_iff, Z.eqb_eq. split; [tauto|]. intros [->|?]; tauto.
Qed.
