(* ===== verification/NgxSlabAlloc.v ===== *)
(** * NgxSlabAlloc: chunks are taken

    A page with a free chunk gives its first one, for each of the three ways
    in which a page records what is in use. *)

From S2P Require Import Prelude NgxSprintf NgxSlab NgxSlabLayout NgxSlabSegs NgxSlabPages NgxSlabFree NgxSlabChunks NgxSlabBits.

(** ** Masks *)

Lemma shift_cases s : 3 <= s < 12 -> s = 3 \/ s = 4 \/ s = 5 \/ s = 6 \/ s = 7 \/ s = 8 \/ s = 9 \/ s = 10 \/ s = 11.
Proof. lia. Qed.

Ltac each_shift H := destruct (shift_cases _ H) as [-> | [-> | [-> | [-> | [-> | [-> | [-> | [-> | ->]]]]]]]].

Lemma chunk_range s : 3 <= s < 12 -> 0 <= reserved s < chunks s /\ 0 < 2 ^ s /\ chunks s * 2 ^ s = ngx_pagesize /\
  (if s <? 6 then chunks s = 64 * map_words s /\ reserved s <= 8 /\ 0 < map_words s <= 8 else if s =? 6 then chunks s = 64 else chunks s <= 32).
Proof. intros Hs. each_shift Hs; vm_compute; repeat split; (done || (intros; discriminate)). Qed.

Lemma not_full_clear s u : 3 <= s < 12 -> mask_ok s u -> full s u = false -> exists k, reserved s <= k < chunks s /\ Z.testbit u k = false /\
  forall j, 0 <= j < k -> Z.testbit u j = true.
Proof.
  intros Hs (Hu & Hr & _) Hf. destruct (chunk_range s Hs) as ([H0 H1] & _).
  destruct (first_clear u (chunks s)) as (k & Hk & Hc & Hb); [lia|done|by apply Z.eqb_neq|]. exists k. split; [|done].
  destruct (decide (k < reserved s)); [|lia]. rewrite Hr in Hc by lia. done.
Qed.

Lemma mask_set s u k : mask_ok s u -> reserved s <= k < chunks s -> 0 <= k -> mask_ok s (set_bit u k).
Proof.
  intros (Hu & Hr & _) Hk H0. split; [apply set_bit_range; [done|lia]|]. split.
  - intros j Hj. rewrite set_bit_spec, Hr by lia. by rewrite orb_true_r.
  - exists k. split; [done|]. rewrite set_bit_spec, Z.eqb_refl by lia. done.
Qed.

Lemma full_bits s u : 3 <= s < 12 -> 0 <= u < 2 ^ chunks s -> full s u = true <-> forall j, 0 <= j < chunks s -> Z.testbit u j = true.
Proof.
  intros Hs Hu. destruct (chunk_range s Hs) as ([H0 H1] & _). unfold full. rewrite Z.eqb_eq. split; [intros ->; apply ones_bit|]. apply all_ones; lia || done.
Qed.

Lemma blocks_set st i s u k : reserved s <= k < chunks s -> Z.testbit u k = false -> 0 <= reserved s ->
  seg_blocks st i (Chunks s (set_bit u k)) ≡ₚ (page_addr st i + k * 2 ^ s, 2 ^ s) :: seg_blocks st i (Chunks s u).
Proof.
  intros Hk Hb H0. unfold seg_blocks. rewrite (filter_bit (Z.testbit u) (Z.testbit (set_bit u k)) k); [done|apply NoDup_seqZ|apply elem_of_seqZ; lia|done|].
  intros i'. apply set_bit_spec. lia.
Qed.

(** The words of a full bit map. *)
Lemma all_words_ok fuel v map bitmap n p : 0 <= n -> map - n <= Z.of_nat fuel ->
  all_words fuel v map bitmap n p = true <-> forall j, n <= j < map -> words p (bitmap + j * sizeof_uintptr_t) = v.
Proof.
  revert n. induction fuel as [|fuel IH]; intros n Hn Hf; cbn [all_words]; [split; [intros _ j Hj; lia|done]|].
  destruct (Z.ltb_spec n map); [|split; [intros _ j Hj; lia|done]].
  destruct (Z.eqb_spec (words p (bitmap + n * sizeof_uintptr_t)) v) as [Heq|Hne]; cbn [negb].
  - rewrite IH by lia. split; intros Hall j Hj; [|apply Hall; lia]. destruct (decide (j = n)) as [->|]; [done|apply Hall; lia].
  - split; [done|]. intros Hall. exfalso. apply Hne, Hall. lia.
Qed.

Lemma word_busy u n : 0 <= n -> word u n = NGX_SLAB_BUSY <-> forall j, 64 * n <= j < 64 * n + 64 -> Z.testbit u j = true.
Proof.
  intros Hn. split.
  - intros Hw j Hj. assert (Z.testbit (word u n) (j - 64 * n) = true) as Hb.
    { rewrite Hw. change NGX_SLAB_BUSY with (2 ^ 64 - 1). apply ones_bit. lia. }
    rewrite word_bits in Hb by lia. apply andb_true_iff in Hb as [_ Hb]. by replace (64 * n + (j - 64 * n)) with j in Hb by lia.
  - intros Hb. change NGX_SLAB_BUSY with (2 ^ 64 - 1). apply all_ones; [lia|apply word_range|]. intros i Hi. rewrite word_bits by lia.
    rewrite (proj2 (Z.ltb_lt i 64)) by lia. apply Hb. lia.
Qed.

(** The search for a word and a bit in it. *)
Lemma word_loop_ok fuel map bitmap n p u k : 0 <= n -> map - n < Z.of_nat fuel -> 64 * n <= k < 64 * map ->
  (forall j, 0 <= j < map -> words p (bitmap + j * sizeof_uintptr_t) = word u j) ->
  (forall j, 0 <= j < k -> Z.testbit u j = true) -> Z.testbit u k = false ->
  word_loop fuel map bitmap n p = Some (k / 64, 2 ^ (k mod 64), k mod 64).
Proof.
  intros Hn Hf Hk Hw Hset Hclear. revert n Hn Hf Hk. induction fuel as [|fuel IH]; intros n Hn Hf Hk; [lia|]. cbn [word_loop].
  rewrite (proj2 (Z.ltb_lt n map)) by lia. rewrite Hw by lia.
  destruct (decide (k < 64 * n + 64)) as [Hlt|Hge].
  - assert (k / 64 = n) as Hq by (symmetry; apply Z.div_unique with (k - 64 * n); lia).
    assert (k mod 64 = k - 64 * n) as Hm by (rewrite Z.mod_eq, Hq by lia; lia). rewrite Hq, Hm.
    assert (Z.testbit (word u n) (k - 64 * n) = false) as Hcb.
    { rewrite word_bits by lia. replace (64 * n + (k - 64 * n)) with k by lia. rewrite Hclear. apply andb_false_r. }
    replace (word u n =? NGX_SLAB_BUSY) with false by (symmetry; apply Z.eqb_neq; intros Heq; rewrite (word_busy u n Hn) in Heq; rewrite Heq in Hclear by lia; done).
    cbn [negb]. change 1 with (2 ^ 0) at 1. rewrite (bit_loop_ok 65 _ _ 0 (k - 64 * n)); [do 2 f_equal; lia|lia|lia|lia| | |done].
    + intros x Hx. apply negb_true_iff, Z.eqb_neq. apply Z.pow_nonzero; lia.
    + intros x Hx. rewrite word_bits by lia. rewrite (proj2 (Z.ltb_lt x 64)) by lia. apply Hset. lia.
  - rewrite (proj2 (Z.eqb_eq (word u n) NGX_SLAB_BUSY)).
    + cbn [negb]. apply IH; lia.
    + apply word_busy; [done|]. intros j Hj. apply Hset. lia.
Qed.

Section Pool.
Context (pg st np sl fr en : Z).
Context (Hg : geometry pg st np sl fr en).
#[local] Abbreviation A := (A pg).
#[local] Abbreviation invariant := (invariant pg st np sl fr en).
#[local] Abbreviation consts := (consts pg st np sl fr en).
#[local] Abbreviation slot_head := (slot_head sl).
#[local] Abbreviation chunk_hole := (chunk_hole pg st np sl fr en).

Lemma page_addr_ok p i : consts p -> 0 <= i -> ngx_slab_page_addr p (A i) = page_addr st i.
Proof.
  intros [_ [Hpg _] [Hst _] _] Hi. unfold ngx_slab_page_addr, page_addr, NgxSlabSegs.A, at_page. rewrite Hpg, Hst.
  replace (pg + i * sizeof_ngx_slab_page_t - pg) with (i * sizeof_ngx_slab_page_t) by lia.
  rewrite Z.div_mul by done. rewrite Z.shiftl_mul_pow2 by done. change (2 ^ ngx_pagesize_shift) with ngx_pagesize. lia.
Qed.

Lemma invariant_stat p segs fl ls i f : invariant p segs fl ls -> invariant (set_stat i f p) segs fl ls.
Proof. intros [[C1 C2 C3 C4] H1 H2 H3 H4 H5 H6]. by split. Qed.

(** A page whose mask has been set: it leaves its list when it is full. *)
Lemma chunk_taken p l s u r fl ls : chunk_hole true p l s r fl ls -> mask_ok s u -> bits pg st (heap p) (words p) (total_len l) s u ->
  exists ls', invariant (if full s u then retire (A (total_len l)) (chunk_type s) p else p) (l ++ Chunks s u :: r) fl ls'.
Proof.
  intros Hc Hm Hb. destruct (full s u) eqn:Hf.
  - destruct (chunk_retire _ _ _ _ _ _ Hg _ _ _ _ _ _ Hc) as (ls' & Hsm & Hc' & Hsl & Hn). cbv zeta in *. exists ls'.
    apply chunk_invariant; [by rewrite Hf|done| |done]. set (p' := retire _ _ _) in *. assert (words p' = words p) as -> by (by rewrite Hsm).
    unfold bits in *. by rewrite Hsl.
  - exists ls. apply chunk_invariant; [by rewrite Hf|done|done|by rewrite Hf].
Qed.

Lemma in_page i s k : 3 <= s < 12 -> 0 <= k < chunks s -> page_addr st i <= page_addr st i + k * 2 ^ s /\
  page_addr st i + k * 2 ^ s + 2 ^ s <= page_addr st (i + 1).
Proof. intros Hs Hk. destruct (chunk_range s Hs) as (_ & H2 & Hc & _). unfold page_addr. nia. Qed.

(** One chunk more. *)
Definition takes (op : Z -> Z -> Z -> slab_pool -> option (Z * slab_pool)) (s : Z) : Prop :=
  forall p l u r fl ls, invariant p (l ++ Chunks s u :: r) fl ls -> full s u = false ->
  exists k p' ls', op (A (total_len l)) s (s - 3) p = Some (page_addr st (total_len l) + k * 2 ^ s, p') /\
    reserved s <= k < chunks s /\ Z.testbit u k = false /\ invariant p' (l ++ Chunks s (set_bit u k) :: r) fl ls'.

Lemma alloc_exact_ok s : s = 6 -> takes alloc_exact s.
Proof.
  intros -> p l u r fl ls Hi Hf. destruct (invariant_chunk _ _ _ _ _ _ _ _ _ _ _ _ _ Hi) as (Hc & Hm & Hb & _). rewrite Hf in Hc. cbn [negb] in Hc.
  destruct (ch_sides _ _ _ _ _ _ _ _ _ _ _ _ _ Hc) as (H0 & _). set (i := total_len l) in *. change (slab (heap p (A i)) = u) in Hb.
  destruct (not_full_clear 6 u) as (k & Hk & Hcl & Hset); [done|done|done|]. change (reserved 6) with 0 in *. change (chunks 6) with 64 in *.
  unfold alloc_exact. rewrite Hb. change 1 with (2 ^ 0) at 1.
  rewrite (bit_loop_ok 65 _ u 0 k); [|lia|lia|lia|intros x Hx; apply negb_true_iff, Z.eqb_neq, Z.pow_nonzero; lia|intros; apply Hset; lia|done].
  cbn [mbind option_bind]. cbv zeta. replace (0 + (k - 0)) with k by lia. fold (set_bit u k).
  set (p1 := set_slab (A i) (set_bit u k) p). pose proof (chunk_slab _ _ _ _ _ _ Hg _ _ _ _ _ _ _ (set_bit u k) Hc) as Hc1. fold i p1 in Hc1.
  assert (slab (heap p1 (A i)) = set_bit u k) as Hs1 by (subst p1; read_heap; by rewrite Z.eqb_refl). rewrite Hs1.
  assert (mask_ok 6 (set_bit u k)) as Hm' by (apply mask_set; [done|done|lia]).
  destruct (chunk_taken p1 l 6 (set_bit u k) r fl ls Hc1 Hm' Hs1) as (ls' & Hi'). fold i in Hi'.
  change (full 6 (set_bit u k)) with (set_bit u k =? NGX_SLAB_BUSY) in Hi'. change (chunk_type 6) with NGX_SLAB_EXACT in Hi'.
  set (p2 := if set_bit u k =? NGX_SLAB_BUSY then _ else _) in *. rewrite page_addr_ok by (apply Hi' || lia). rewrite Z.shiftl_mul_pow2 by lia.
  exists k, (set_stat (6 - 3) (add_used 1) p2), ls'. split; [done|]. split; [done|]. split; [done|]. by apply invariant_stat.
Qed.

Lemma alloc_big_ok s : 6 < s < 12 -> takes alloc_big s.
Proof.
  intros Hs p l u r fl ls Hi Hf. destruct (invariant_chunk _ _ _ _ _ _ _ _ _ _ _ _ _ Hi) as (Hc & Hm & Hb & _). rewrite Hf in Hc. cbn [negb] in Hc.
  destruct (ch_sides _ _ _ _ _ _ _ _ _ _ _ _ _ Hc) as (H0 & _). set (i := total_len l) in *. unfold bits in Hb. change ngx_slab_exact_shift with 6 in Hb.
  rewrite (proj2 (Z.ltb_ge s 6)), (proj2 (Z.eqb_neq s 6)) in Hb by lia.
  destruct (chunk_range s) as (_ & H2 & _ & H32); [lia|]. rewrite (proj2 (Z.ltb_ge s 6)), (proj2 (Z.eqb_neq s 6)) in H32 by lia.
  destruct (not_full_clear s u) as (k & Hk & Hcl & Hset); [lia|done|done|]. assert (reserved s = 0) as Hres by (unfold reserved; by rewrite (proj2 (Z.ltb_ge s 6)) by lia).
  rewrite Hres in Hk. unfold alloc_big. rewrite Hb.
  assert (Z.shiftl 1 (Z.shiftr ngx_pagesize s) = 2 ^ chunks s) as ->.
  { rewrite Z.shiftl_1_l. f_equal. unfold chunks. rewrite Z.shiftr_div_pow2 by lia. change ngx_pagesize with (2 ^ 12). by rewrite <- Z.pow_sub_r by lia. }
  set (mask := Z.shiftl (2 ^ chunks s - 1) NGX_SLAB_MAP_SHIFT).
  assert (forall x, 32 <= x < 32 + chunks s -> Z.testbit mask x = true) as Hmask.
  { intros x Hx. subst mask. rewrite Z.shiftl_spec by lia. apply ones_bit. unfold NGX_SLAB_MAP_SHIFT. lia. }
  change (Z.shiftl 1 NGX_SLAB_MAP_SHIFT) with (2 ^ 32).
  rewrite (bit_loop_ok 65 _ _ 32 (32 + k)); [|lia|lia|lia| | |].
  2:{ intros x Hx. rewrite Z.land_comm, <- (Z.shiftl_1_l x), land_bit by lia. apply Hmask. lia. }
  2:{ intros x Hx. rewrite pack_bits by lia. rewrite (proj2 (Z.ltb_ge x 32)) by lia. apply Hset. lia. }
  2:{ rewrite pack_bits by lia. rewrite (proj2 (Z.ltb_ge (32 + k) 32)) by lia. by replace (32 + k - 32) with k by lia. }
  cbn [mbind option_bind]. cbv zeta. replace (0 + (32 + k - 32)) with k by lia. rewrite pack_set by lia.
  set (u' := set_bit u k). set (p1 := set_slab (A i) (u' * 2 ^ 32 + s) p).
  pose proof (chunk_slab _ _ _ _ _ _ Hg _ _ _ _ _ _ _ (u' * 2 ^ 32 + s) Hc) as Hc1. fold i p1 in Hc1.
  assert (slab (heap p1 (A i)) = u' * 2 ^ 32 + s) as Hs1 by (subst p1; read_heap; by rewrite Z.eqb_refl). rewrite Hs1.
  assert (mask_ok s u') as Hm' by (apply mask_set; [done|lia|lia]).
  assert (2 ^ chunks s <= 2 ^ 32) as H64 by (apply Z.pow_le_mono_r; lia).
  assert (0 <= u' < 2 ^ 32) as Hu' by (destruct Hm' as [? _]; lia). rewrite pack_mask by lia.
  destruct (chunk_taken p1 l s u' r fl ls Hc1 Hm') as (ls' & Hi').
  { unfold bits. change ngx_slab_exact_shift with 6. by rewrite (proj2 (Z.ltb_ge s 6)), (proj2 (Z.eqb_neq s 6)) by lia. }
  fold i in Hi'. assert (full s u' = (u' * 2 ^ 32 =? mask)) as Hfull.
  { unfold full, mask, NGX_SLAB_MAP_SHIFT. rewrite Z.shiftl_mul_pow2 by lia. apply eq_iff_eq_true. rewrite !Z.eqb_eq. lia. }
  assert (chunk_type s = NGX_SLAB_BIG) as Hty. { unfold chunk_type. change ngx_slab_exact_shift with 6. by rewrite (proj2 (Z.ltb_ge s 6)), (proj2 (Z.eqb_neq s 6)) by lia. }
  rewrite Hfull, Hty in Hi'. set (p2 := if u' * 2 ^ 32 =? mask then _ else _) in *. rewrite page_addr_ok by (apply Hi' || lia). rewrite Z.shiftl_mul_pow2 by lia.
  exists k, (set_stat (s - 3) (add_used 1) p2), ls'. split; [done|]. split; [by rewrite Hres|]. split; [done|]. by apply invariant_stat.
Qed.

Lemma bits_small h w i s u : s < 6 -> bits pg st h w i s u <->
  slab (h (A i)) = s /\ forall n, 0 <= n < map_words s -> w (page_addr st i + n * sizeof_uintptr_t) = word u n.
Proof. intros Hs. unfold bits. change ngx_slab_exact_shift with 6. by rewrite (proj2 (Z.ltb_lt s 6) Hs). Qed.

Lemma small_type s : s < 6 -> chunk_type s = NGX_SLAB_SMALL.
Proof. intros Hs. unfold chunk_type. change ngx_slab_exact_shift with 6. by rewrite (proj2 (Z.ltb_lt s 6) Hs). Qed.

(** A word of the bit map is in the page. *)
Lemma word_in_page i s n : 3 <= s < 6 -> 0 <= n < map_words s -> page_addr st i <= page_addr st i + n * sizeof_uintptr_t < page_addr st (i + 1).
Proof.
  intros Hs Hn. destruct (chunk_range s) as (_ & _ & _ & Hm); [lia|]. rewrite (proj2 (Z.ltb_lt s 6)) in Hm by lia.
  unfold page_addr, ngx_pagesize, sizeof_uintptr_t. lia.
Qed.

(** One word of the bit map is written. *)
Lemma words_update w i s u u' n : 0 <= n < map_words s -> (forall j, 0 <= j < map_words s -> w (page_addr st i + j * sizeof_uintptr_t) = word u j) ->
  (forall j, 0 <= j < map_words s -> j <> n -> word u' j = word u j) ->
  forall j, 0 <= j < map_words s -> (fun x => if x =? page_addr st i + n * sizeof_uintptr_t then word u' n else w x) (page_addr st i + j * sizeof_uintptr_t) = word u' j.
Proof.
  intros Hn Hw Hu j Hj. cbv beta. destruct (Z.eqb_spec (page_addr st i + j * sizeof_uintptr_t) (page_addr st i + n * sizeof_uintptr_t)) as [Heq|Hne].
  - assert (j = n) as -> by (unfold sizeof_uintptr_t in *; lia). done.
  - rewrite Hw by done. symmetry. apply Hu; [done|]. by intros ->.
Qed.

Lemma alloc_small_ok s : 3 <= s < 6 -> takes alloc_small s.
Proof.
  intros Hs p l u r fl ls Hi Hf. destruct (invariant_chunk _ _ _ _ _ _ _ _ _ _ _ _ _ Hi) as (Hc & Hm & Hb & _). rewrite Hf in Hc. cbn [negb] in Hc.
  destruct (ch_sides _ _ _ _ _ _ _ _ _ _ _ _ _ Hc) as (H0 & _). set (i := total_len l) in *. apply bits_small in Hb as [Hsl Hw]; [|lia].
  destruct (chunk_range s) as ([Hr0 Hr1] & _ & _ & Hmap); [lia|]. rewrite (proj2 (Z.ltb_lt s 6)) in Hmap by lia. destruct Hmap as (Hch & Hr8 & Hmw).
  destruct (not_full_clear s u) as (k & Hk & Hcl & Hset); [lia|done|done|]. unfold alloc_small. rewrite page_addr_ok by (apply Hi || lia).
  set (bitmap := page_addr st i) in *. rewrite (word_loop_ok 65 (map_words s) bitmap 0 p u k); [|lia|lia|lia|done|done|done].
  cbn [mbind option_bind]. cbv zeta. set (n := k / 64). set (b := k mod 64).
  assert (k = 64 * n + b /\ 0 <= b < 64 /\ 0 <= n < map_words s) as (Hkn & Hb & Hn).
  { pose proof (Z.div_mod k 64 ltac:(lia)). pose proof (Z.mod_pos_bound k 64 ltac:(lia)). fold n b in H, H1. lia. }
  set (a := bitmap + n * sizeof_uintptr_t). set (u' := set_bit u k).
  assert (Z.lor (words p a) (2 ^ b) = word u' n) as Hval by (subst a u'; rewrite (Hw n Hn), Hkn, word_set by lia; done). rewrite Hval.
  set (p1 := set_word a (word u' n) p). set (p2 := set_stat (s - 3) (add_used 1) p1).
  assert (Hw' : forall j, 0 <= j < map_words s -> words p2 (bitmap + j * sizeof_uintptr_t) = word u' j).
  { apply (words_update (words p) i s u u' n Hn Hw). intros j Hj Hjn. subst u'. rewrite Hkn. apply word_set_other; lia. }
  assert (chunk_hole true p2 l s r fl ls) as Hc2.
  { apply chunk_stat; [done|]. apply chunk_word; [done|done|]. fold i. subst a bitmap. by apply (word_in_page i s n). }
  assert (mask_ok s u') as Hm' by (apply mask_set; [done|lia|lia]).
  assert (((words p2 a =? NGX_SLAB_BUSY) && all_words 65 NGX_SLAB_BUSY (map_words s) bitmap (n + 1) p2) = full s u') as Hfull.
  { apply eq_iff_eq_true. rewrite andb_true_iff, Z.eqb_eq, all_words_ok, full_bits by (lia || apply Hm'). subst a. rewrite (Hw' n Hn). split.
    - intros [Ha Hrest] j Hj. destruct (decide (j < k)) as [Hlt|Hge]; [subst u'; rewrite set_bit_spec, Hset by lia; apply orb_true_r|].
      destruct (decide (j / 64 = n)) as [Hq|Hq].
      + rewrite (word_busy u' n) in Ha by lia. apply Ha. rewrite <- Hq. pose proof (Z.div_mod j 64 ltac:(lia)). pose proof (Z.mod_pos_bound j 64 ltac:(lia)). lia.
      + assert (n + 1 <= j / 64 < map_words s) as Hj'.
        { split; [|apply Z.div_lt_upper_bound; lia]. assert (n <= j / 64) by (apply Z.div_le_mono; lia). lia. }
        specialize (Hrest _ Hj'). rewrite Hw', word_busy in Hrest by lia. apply Hrest.
        pose proof (Z.div_mod j 64 ltac:(lia)). pose proof (Z.mod_pos_bound j 64 ltac:(lia)). lia.
    - intros Hall. split; [apply word_busy; [lia|]; intros j Hj; apply Hall; lia|]. intros j Hj. rewrite Hw', word_busy by lia. intros x Hx. apply Hall. lia. }
  rewrite Hfull. destruct (chunk_taken p2 l s u' r fl ls Hc2 Hm') as (ls' & Hi').
  { apply bits_small; [lia|]. split; [exact Hsl|exact Hw']. }
  fold i in Hi'. rewrite small_type in Hi' by lia. exists k. eexists. exists ls'. split; [|split; [lia|split; [done|exact Hi']]].
  do 3 f_equal. rewrite Z.shiftl_mul_pow2 by lia. f_equal. unfold sizeof_uintptr_t. lia.
Qed.
End Pool.
