(* ===== verification/NgxSlabTake.v ===== *)
(** * NgxSlabTake: allocations

    A size is rounded up to that of a chunk or to pages; a chunk is taken from
    the first page of its list, or from a page that has been free. *)

From S2P Require Import Prelude NgxSprintf NgxSlab NgxSlabLayout NgxSlabSegs NgxSlabPages NgxSlabFree NgxSlabChunks NgxSlabBits NgxSlabAlloc.

(** ** Sizes *)

Lemma halvings_log2 fuel n sh : 1 <= n < 2 ^ Z.of_nat fuel -> halvings fuel n sh = sh + Z.log2 n.
Proof.
  revert n sh. induction fuel as [|fuel IH]; intros n sh Hn; [cbn in Hn; lia|]. cbn [halvings]. rewrite Z.shiftr_div_pow2 by lia. change (2 ^ 1) with 2.
  rewrite Nat2Z.inj_succ, Z.pow_succ_r in Hn by lia. destruct (Z.eqb_spec (n / 2) 0) as [H0|H0].
  - assert (n = 1) as -> by (pose proof (Z.div_mod n 2 ltac:(lia)); pose proof (Z.mod_pos_bound n 2 ltac:(lia)); lia). cbn. lia.
  - assert (1 <= n / 2) by (pose proof (Z.div_pos n 2 ltac:(lia) ltac:(lia)); lia). rewrite IH by (split; [done|apply Z.div_lt_upper_bound; lia]).
    pose proof (Z.log2_shiftr n 1 ltac:(lia)) as Hlog. rewrite Z.shiftr_div_pow2 in Hlog by lia. change (2 ^ 1) with 2 in Hlog.
    assert (1 <= Z.log2 n) by (pose proof (Z.div_mod n 2 ltac:(lia)); pose proof (Z.mod_pos_bound n 2 ltac:(lia)); apply Z.log2_le_pow2; lia). lia.
Qed.

(** The pages of a block, and the size of what is given for [size] bytes. *)
Definition size_pages (size : Z) : Z := Z.shiftr size ngx_pagesize_shift + (if negb (size mod ngx_pagesize =? 0) then 1 else 0).
Definition block_size (size : Z) : Z :=
  if ngx_slab_max_size <? size then size_pages size * ngx_pagesize else Z.max 8 (2 ^ Z.log2_up size).

Lemma size_pages_ok size : 0 <= size -> size <= size_pages size * ngx_pagesize < size + ngx_pagesize.
Proof.
  intros Hs. unfold size_pages. rewrite Z.shiftr_div_pow2 by done. change (2 ^ ngx_pagesize_shift) with ngx_pagesize.
  unfold ngx_pagesize. pose proof (Z.div_mod size 4096 ltac:(lia)). pose proof (Z.mod_pos_bound size 4096 ltac:(lia)).
  destruct (Z.eqb_spec (size mod 4096) 0); cbn [negb]; lia.
Qed.

Lemma size_shift_ok size p : 0 <= size <= ngx_slab_max_size -> min_size p = 8 -> min_shift p = 3 ->
  3 <= size_shift size p < 12 /\ 2 ^ size_shift size p = block_size size.
Proof.
  intros Hs Hmin Hsh. unfold size_shift, block_size. rewrite (proj2 (Z.ltb_ge ngx_slab_max_size size)) by lia. rewrite Hmin, Hsh.
  change ngx_slab_max_size with 2048 in Hs. destruct (Z.ltb_spec 8 size) as [Hlt|Hge].
  - rewrite halvings_log2 by (split; [lia|]; change (2 ^ Z.of_nat 64) with 18446744073709551616; lia).
    assert (1 + Z.log2 (size - 1) = Z.log2_up size) as -> by (rewrite Z.log2_up_eqn by lia; rewrite <- Z.sub_1_r; lia).
    assert (4 <= Z.log2_up size <= 11) as Hr.
    { split; [apply Z.lt_pred_le, (Z.log2_up_lt_pow2 size 3); [lia|change (2 ^ 3) with 8; lia]|]. apply Z.log2_up_le_pow2; [lia|]. change (2 ^ 11) with 2048. lia. }
    split; [lia|]. rewrite Z.max_r; [done|]. change 8 with (2 ^ 3). apply Z.pow_le_mono_r; lia.
  - split; [lia|]. rewrite Z.max_l; [done|]. change 8 with (2 ^ 3). apply Z.pow_le_mono_r; [lia|].
    destruct (decide (size <= 1)); [rewrite Z.log2_up_eqn0 by lia; lia|]. apply Z.log2_up_le_pow2; [lia|]. change (2 ^ 3) with 8. lia.
Qed.

(** At least what has been asked for. *)
Lemma block_size_ge size : 0 <= size -> size <= block_size size /\ 8 <= block_size size.
Proof.
  intros Hs. unfold block_size. destruct (Z.ltb_spec ngx_slab_max_size size) as [Hlt|Hge].
  - change ngx_slab_max_size with 2048 in Hlt. pose proof (size_pages_ok size Hs). lia.
  - split; [|lia]. destruct (decide (size <= 1)); [lia|]. pose proof (Z.log2_up_spec size ltac:(lia)). lia.
Qed.

Section Pool.
Context (pg st np sl fr en : Z).
Context (Hg : geometry pg st np sl fr en).
#[local] Abbreviation A := (A pg).
#[local] Abbreviation invariant := (invariant pg st np sl fr en).
#[local] Abbreviation slot_head := (slot_head sl).
#[local] Abbreviation chunk_hole := (chunk_hole pg st np sl fr en).

(** ** A page that has a free chunk *)

Lemma alloc_chunk_ok p segs fl ls s : invariant p segs fl ls -> 3 <= s < 12 ->
  ls s = [] /\ alloc_chunk s (s - 3) p = None \/
  exists l u r k p' ls', segs = l ++ Chunks s u :: r /\ alloc_chunk s (s - 3) p = Some (page_addr st (total_len l) + k * 2 ^ s, p') /\
    reserved s <= k < chunks s /\ Z.testbit u k = false /\ invariant p' (l ++ Chunks s (set_bit u k) :: r) fl ls'.
Proof.
  intros Hi Hs. destruct (inv_consts _ _ _ _ _ _ _ _ _ _ Hi) as [_ _ _ [Hsl _]]. destruct (inv_open _ _ _ _ _ _ _ _ _ _ Hi s Hs) as [[Hl Hnd] Hp].
  unfold alloc_chunk. rewrite Hsl. change (at_page sl (s - 3)) with (slot_head s). rewrite (linked_first _ _ _ _ _ Hl).
  destruct (ls s) as [|x t] eqn:Hls; [left; split; [done|]|right]; cbn [first].
  - rewrite (linked_first _ _ _ _ _ Hl). cbn [first]. by rewrite Z.eqb_refl.
  - destruct Hl as (_ & _ & Hl). rewrite (linked_first _ _ _ _ _ Hl). pose proof (first_in (slot_head s) t) as Hfi.
    assert (first (slot_head s) t <> x) as Hne.
    { intros Heq. rewrite Heq in Hfi. apply NoDup_cons in Hnd as [H1 Hnd]. apply NoDup_cons in Hnd as [H2 _].
      apply elem_of_cons in Hfi as [->|?]; [|done]. apply H1. by left. }
    rewrite (proj2 (Z.eqb_neq _ _) Hne). cbn [negb]. assert (x ∈ opens pg s 0 segs) as Hx by (rewrite <- Hp; by left).
    apply collect_in in Hx as (l & g & r & -> & Hx). rewrite Z.add_0_l in Hx.
    destruct g as [| |s' u]; cbn in Hx; [by apply elem_of_nil in Hx..|]. destruct (Z.eqb_spec s' s) as [->|]; [|by apply elem_of_nil in Hx].
    destruct (full s u) eqn:Hf; [by apply elem_of_nil in Hx|]. apply list_elem_of_singleton in Hx as ->. change ngx_slab_exact_shift with 6.
    assert (forall op, takes pg st np sl fr en op s -> exists k p' ls', op (A (total_len l)) s (s - 3) p = Some (page_addr st (total_len l) + k * 2 ^ s, p') /\
      reserved s <= k < chunks s /\ Z.testbit u k = false /\ invariant p' (l ++ Chunks s (set_bit u k) :: r) fl ls') as Hop.
    { intros op Htk. by apply (Htk p l u r fl ls Hi). }
    destruct (Z.ltb_spec s 6); [|destruct (Z.eqb_spec s 6) as [->|]];
      (match goal with |- context [?op (A (total_len l)) _ _ p] => destruct (Hop op) as (k & p' & ls' & H1 & H2) end);
      [apply alloc_small_ok; [done|lia]|by exists l, u, r, k, p', ls'|by apply alloc_exact_ok|by exists l, u, r, k, p', ls'|apply alloc_big_ok; [done|lia]|by exists l, u, r, k, p', ls'].
Qed.

Lemma page_addr_inv p segs fl ls i : invariant p segs fl ls -> 0 <= i -> ngx_slab_page_addr p (A i) = page_addr st i.
Proof. intros Hi. eapply page_addr_ok, Hi. Qed.

(** ** A page that has been free *)

Definition first_mask (s : Z) : Z := 2 ^ (reserved s + 1) - 1.

Lemma first_mask_ok s : 3 <= s < 12 -> mask_ok s (first_mask s) /\ full s (first_mask s) = false /\
  forall st i, seg_blocks st i (Chunks s (first_mask s)) = [(page_addr st i + reserved s * 2 ^ s, 2 ^ s)].
Proof.
  intros Hs. destruct (chunk_range s Hs) as ([H0 H1] & _). split; [|split].
  - split; [|split].
    + unfold first_mask. pose proof (Z.pow_le_mono_r 2 (reserved s + 1) (chunks s) ltac:(lia) ltac:(lia)). pose proof (Z.pow_pos_nonneg 2 (reserved s + 1) ltac:(lia) ltac:(lia)). lia.
    + intros j Hj. apply ones_bit. lia.
    + exists (reserved s). split; [lia|]. apply ones_bit. lia.
  - clear H0 H1. each_shift Hs; by vm_compute.
  - intros st' i. unfold seg_blocks.
    assert (filter (fun j => Z.testbit (first_mask s) j = true) (seqZ (reserved s) (chunks s - reserved s)) = [reserved s]) as ->; [|done].
    clear H0 H1. each_shift Hs; by vm_compute.
Qed.

Lemma zero_words_ok m a p :
  zero_words m a p = Pool (heap p) (words (zero_words m a p)) (stats p) (pfree p) (min_size p) (min_shift p) (pages p) (last p) (start p) (end_ p) (slots p) (NgxSlab.free p) /\
  (forall j, 0 <= j < Z.of_nat m -> words (zero_words m a p) (a + j * sizeof_uintptr_t) = 0) /\
  (forall x, (forall j, 0 <= j < Z.of_nat m -> x <> a + j * sizeof_uintptr_t) -> words (zero_words m a p) x = words p x).
Proof.
  revert a p. induction m as [|m IH]; intros a p; cbn [zero_words]; [split; [by destruct p|]; split; [lia|done]|].
  destruct (IH (a + sizeof_uintptr_t) (set_word a 0 p)) as (H1 & H2 & H3). split; [etransitivity; [exact H1|done]|]. split.
  - intros j Hj. destruct (decide (j = 0)) as [->|Hne].
    + rewrite H3; [cbn; by rewrite Z.mul_0_l, Z.add_0_r, Z.eqb_refl|]. intros j' Hj'. unfold sizeof_uintptr_t. lia.
    + replace (a + j * sizeof_uintptr_t) with (a + sizeof_uintptr_t + (j - 1) * sizeof_uintptr_t) by lia. apply H2. lia.
  - intros x Hx. rewrite H3.
    + cbn. assert (x <> a) by (specialize (Hx 0 ltac:(lia)); lia). by rewrite (proj2 (Z.eqb_neq x a)).
    + intros j Hj. specialize (Hx (j + 1) ltac:(lia)). lia.
Qed.

(** A page of chunks with the first mask, once its descriptor is written. *)
Lemma first_finish p l r fl ls s v : chunk_hole false p l s r fl ls -> ls s = [] ->
  (forall h, slab (h (A (total_len l))) = v -> bits pg st h (words p) (total_len l) s (first_mask s)) ->
  exists ls', invariant (enlist (A (total_len l)) (s - 3) v (chunk_type s) p) (l ++ Chunks s (first_mask s) :: r) fl ls'.
Proof.
  intros Hc Hemp Hb. pose proof (ch_size _ _ _ _ _ _ _ _ _ _ _ _ _ Hc) as Hs. destruct (first_mask_ok s Hs) as (Hm & Hf & _).
  destruct (chunk_enlist _ _ _ _ _ _ Hg _ _ _ _ _ _ v Hc Hemp) as (Hsm & Hc' & Hv). cbv zeta in *. set (p' := enlist _ _ _ _ _) in *.
  eexists. apply chunk_invariant; [by rewrite Hf|done| |by rewrite Hf]. assert (words p' = words p) as -> by (by rewrite Hsm). by apply Hb.
Qed.

Lemma zero_hole m p l r fl ls s j : chunk_hole false p l s r fl ls -> page_addr st (total_len l) <= j -> j + Z.of_nat m * sizeof_uintptr_t <= page_addr st (total_len l + 1) ->
  chunk_hole false (zero_words m j p) l s r fl ls.
Proof.
  revert j p. induction m as [|m IH]; intros j p Hc H1 H2; cbn [zero_words]; [done|]. rewrite Nat2Z.inj_succ in H2. unfold sizeof_uintptr_t in *.
  apply IH; [|lia|lia]. apply chunk_word; [done|done|lia].
Qed.

(** The bit map of a new page of small chunks. *)
Lemma first_words p l r fl ls s : chunk_hole false p l s r fl ls -> s < 6 ->
  let bitmap := page_addr st (total_len l) in
  let p' := zero_words (Z.to_nat (map_words s - 1)) (bitmap + sizeof_uintptr_t) (set_word bitmap (u64 (Z.shiftl 2 (map_chunks s)) - 1) p) in
  chunk_hole false p' l s r fl ls /\ forall n, 0 <= n < map_words s -> words p' (bitmap + n * sizeof_uintptr_t) = word (first_mask s) n.
Proof.
  intros Hc Hlt. cbv zeta. pose proof (ch_size _ _ _ _ _ _ _ _ _ _ _ _ _ Hc) as Hs. set (bitmap := page_addr st (total_len l)).
  destruct (chunk_range s Hs) as ([Hr0 _] & _ & _ & Hmap). rewrite (proj2 (Z.ltb_lt s 6)) in Hmap by lia. destruct Hmap as (_ & Hr8 & Hmw).
  assert (u64 (Z.shiftl 2 (map_chunks s)) - 1 = first_mask s) as ->.
  { change (map_chunks s) with (if true then map_chunks s else 0). rewrite <- (proj2 (Z.ltb_lt s 6) Hlt). fold (reserved s). unfold first_mask. rewrite Z.shiftl_mul_pow2, Z.pow_add_r by lia.
    unfold u64. rewrite Z.mod_small; [lia|]. assert (2 ^ reserved s <= 2 ^ 8) by (apply Z.pow_le_mono_r; lia). split; [lia|].
    change (2 ^ 8) with 256 in *. change (2 ^ 64) with 18446744073709551616. lia. }
  assert (0 <= first_mask s < 2 ^ 64) as Hfm.
  { unfold first_mask. assert (2 ^ (reserved s + 1) <= 2 ^ 9) by (apply Z.pow_le_mono_r; lia). assert (0 < 2 ^ (reserved s + 1)) by (apply Z.pow_pos_nonneg; lia).
    change (2 ^ 9) with 512 in *. change (2 ^ 64) with 18446744073709551616. lia. }
  set (p1 := set_word bitmap (first_mask s) p).
  destruct (zero_words_ok (Z.to_nat (map_words s - 1)) (bitmap + sizeof_uintptr_t) p1) as (_ & Hz & Hn). split.
  - apply zero_hole; [apply chunk_word; [done|done|]| |]; fold bitmap; unfold bitmap, page_addr, sizeof_uintptr_t, ngx_pagesize; lia.
  - intros n Hn'. destruct (decide (n = 0)) as [->|Hne].
    + rewrite Hn by (intros j Hj; unfold sizeof_uintptr_t; lia). subst p1. cbn. rewrite Z.mul_0_l, Z.add_0_r, Z.eqb_refl.
      unfold word. rewrite Z.mul_0_r. change (2 ^ 0) with 1. rewrite Z.div_1_r. symmetry. by apply Z.mod_small.
    + replace (bitmap + n * sizeof_uintptr_t) with (bitmap + sizeof_uintptr_t + (n - 1) * sizeof_uintptr_t) by lia. rewrite Hz by lia.
      unfold word. rewrite Z.div_small; [done|]. split; [lia|]. eapply Z.lt_le_trans; [apply Hfm|]. apply Z.pow_le_mono_r; lia.
Qed.

(** The first chunk of a page that has been free. *)
Lemma alloc_first_ok p l r fl ls s : invariant p (l ++ Block 1 :: r) fl ls -> 3 <= s < 12 -> ls s = [] ->
  exists p' ls', (if s <? ngx_slab_exact_shift then first_small (A (total_len l)) s (s - 3) p
    else if s =? ngx_slab_exact_shift then first_exact (A (total_len l)) s (s - 3) p
    else first_big (A (total_len l)) s (s - 3) p) = (page_addr st (total_len l) + reserved s * 2 ^ s, p') /\
    invariant p' (l ++ Chunks s (first_mask s) :: r) fl ls'.
Proof.
  intros Hi Hs Hemp. pose proof (block_chunk _ _ _ _ _ _ _ _ _ _ _ s Hi Hs) as Hc. destruct (ch_sides _ _ _ _ _ _ _ _ _ _ _ _ _ Hc) as (H0 & _).
  pose proof (ch_consts _ _ _ _ _ _ _ _ _ _ _ _ _ Hc) as Hco. change ngx_slab_exact_shift with 6. set (i := total_len l) in *.
  destruct (Z.ltb_spec s 6) as [Hlt|Hge]; [|destruct (Z.eqb_spec s 6) as [->|Hne]].
  - unfold first_small. rewrite (page_addr_ok _ _ _ _ _ _ p i Hco H0). destruct (first_words _ _ _ _ _ _ Hc Hlt) as (Hc1 & Hw). cbv zeta in *. fold i in Hc1, Hw.
    set (p1 := zero_words _ _ _) in *. destruct (first_finish p1 l r fl ls s s Hc1 Hemp) as (ls' & Hi').
    { intros h Hh. apply bits_small; [lia|]. split; [exact Hh|exact Hw]. }
    fold i in Hi'. rewrite small_type in Hi' by lia. set (p2 := enlist _ _ _ _ _) in *. eexists _, ls'. split; [|by do 2 apply invariant_stat].
    rewrite (page_addr_inv _ _ _ _ i (invariant_stat _ _ _ _ _ _ _ _ _ _ _ _ Hi') H0). do 2 f_equal. unfold reserved. rewrite (proj2 (Z.ltb_lt s 6)) by lia. rewrite Z.shiftl_mul_pow2 by lia. done.
  - unfold first_exact. destruct (first_finish p l r fl ls 6 1 Hc Hemp) as (ls' & Hi'); [intros h Hh; exact Hh|]. fold i in Hi'. change (chunk_type 6) with NGX_SLAB_EXACT in Hi'.
    set (p2 := enlist _ _ _ _ _) in *. eexists _, ls'. split; [|by do 2 apply invariant_stat]. rewrite (page_addr_inv _ _ _ _ i (invariant_stat _ _ _ _ _ _ _ _ _ _ _ _ Hi') H0).
    f_equal. change (reserved 6) with 0. lia.
  - unfold first_big. assert (reserved s = 0) as Hr by (unfold reserved; by rewrite (proj2 (Z.ltb_ge s 6)) by lia).
    assert (Z.lor (Z.shiftl 1 NGX_SLAB_MAP_SHIFT) s = first_mask s * 2 ^ 32 + s) as ->.
    { unfold first_mask. rewrite Hr. change (Z.shiftl 1 NGX_SLAB_MAP_SHIFT) with (1 * 2 ^ 32). clear -Hs. each_shift Hs; by vm_compute. }
    destruct (first_finish p l r fl ls s (first_mask s * 2 ^ 32 + s) Hc Hemp) as (ls' & Hi').
    { intros h Hh. unfold bits. change ngx_slab_exact_shift with 6. by rewrite (proj2 (Z.ltb_ge s 6)), (proj2 (Z.eqb_neq s 6)) by lia. }
    fold i in Hi'. assert (chunk_type s = NGX_SLAB_BIG) as Hty by (unfold chunk_type; change ngx_slab_exact_shift with 6; by rewrite (proj2 (Z.ltb_ge s 6)), (proj2 (Z.eqb_neq s 6)) by lia).
    rewrite Hty in Hi'. set (p2 := enlist _ _ _ _ _) in *. eexists _, ls'. split; [|by do 2 apply invariant_stat]. rewrite (page_addr_inv _ _ _ _ i (invariant_stat _ _ _ _ _ _ _ _ _ _ _ _ Hi') H0).
    f_equal. rewrite Hr. lia.
Qed.

(** ** Allocations *)

Lemma page_addr_pos i : 0 <= i -> page_addr st i <> NULL.
Proof. intros Hi. destruct Hg as [? _ (? & ? & ? & ?) _ _]. unfold page_addr, NULL, ngx_pagesize. lia. Qed.

Definition free_runs (segs : list seg) (n : Z) : Prop := forall k, Free k ∈ segs -> k < n.

Lemma alloc_ok p segs fl ls size : invariant p segs fl ls -> 0 <= size -> exists a p', ngx_slab_alloc_locked size p = Some (a, p') /\
  (a = NULL /\ (exists fl' ls', invariant p' segs fl' ls') /\ free_runs segs (if ngx_slab_max_size <? size then size_pages size else 1) \/
   a <> NULL /\ exists segs' fl' ls', invariant p' segs' fl' ls' /\ blocks st 0 segs' ≡ₚ (a, block_size size) :: blocks st 0 segs).
Proof.
  intros Hi Hsz. unfold ngx_slab_alloc_locked. destruct (inv_consts _ _ _ _ _ _ _ _ _ _ Hi) as [[Hmin Hsh] _ _ _].
  destruct (Z.ltb_spec ngx_slab_max_size size) as [Hbig|Hsmall].
  - fold (size_pages size). pose proof (size_pages_ok size Hsz) as Hsp. change ngx_slab_max_size with 2048 in Hbig.
    destruct (alloc_pages_ok _ _ _ _ _ _ Hg p segs fl ls (size_pages size) Hi) as (a & p' & -> & Hres); [unfold ngx_pagesize in Hsp; lia|]. cbn [mbind option_bind].
    destruct Hres as [(-> & -> & Hno)|(_ & _ & l & k & r & fl' & -> & Hk & -> & Hnn & Hi')].
    + change (negb (NULL =? NULL)) with false. cbn iota. eexists _, p. split; [done|]. left. split; [done|]. split; [by exists fl, ls|done].
    + rewrite (proj2 (Z.eqb_neq _ NULL) Hnn). cbn [negb]. eexists _, p'. split; [done|]. right.
      assert (0 <= total_len l) as H0 by (apply page_bounds in Hi; lia). rewrite (page_addr_inv _ _ _ _ _ Hi' H0). split; [by apply page_addr_pos|].
      eexists _, fl', ls. split; [exact Hi'|]. unfold block_size. rewrite (proj2 (Z.ltb_lt ngx_slab_max_size size)) by (change ngx_slab_max_size with 2048; lia).
      unfold blocks. rewrite !collect_app. cbn. change (collect (seg_blocks st) (0 + total_len l + size_pages size) (rest (size_pages size) k)) with (blocks st (0 + total_len l + size_pages size) (rest (size_pages size) k)).
      assert (blocks st (0 + total_len l + size_pages size) (rest (size_pages size) k) = []) as -> by (unfold rest; by destruct (size_pages size <? k)). cbn [app].
      assert (size_pages size + total_len (rest (size_pages size) k) = k) as ->.
      { unfold rest. destruct (Z.ltb_spec (size_pages size) k); cbn; lia. }
      rewrite Z.add_0_l. by rewrite <- Permutation_middle.
  - destruct (size_shift_ok size p) as [Hs Hbs]; [lia|done|done|]. set (s := size_shift size p) in *. rewrite Hsh.
    set (p1 := set_stat (s - 3) (add_reqs 1) p). assert (invariant p1 segs fl ls) as Hi1 by (by apply invariant_stat).
    destruct (alloc_chunk_ok p1 segs fl ls s Hi1 Hs) as [[Hemp ->]|(l & u & r & k & p' & ls' & -> & -> & Hk & Hb & Hi')].
    + destruct (alloc_pages_ok _ _ _ _ _ _ Hg p1 segs fl ls 1 Hi1 ltac:(lia)) as (a & p' & -> & Hres). cbn [mbind option_bind].
      destruct Hres as [(-> & -> & Hno)|(_ & _ & l & k & r & fl' & -> & Hk & -> & Hnn & Hi')].
      * change (negb (NULL =? NULL)) with false. cbn iota. eexists _, _. split; [done|]. left. split; [done|].
        split; [|done]. exists fl, ls. by apply invariant_stat.
      * rewrite (proj2 (Z.eqb_neq _ NULL) Hnn). cbn [negb]. assert (0 <= total_len l) as H0 by (apply page_bounds in Hi; lia).
        destruct (alloc_first_ok p' l (rest 1 k ++ r) fl' ls s Hi' Hs Hemp) as (p2 & ls2 & Heq & Hi2). rewrite Heq. eexists _, p2. split; [done|]. right.
        destruct (chunk_range s Hs) as ([Hr0 Hr1] & H2 & _). split.
        { pose proof (page_addr_pos (total_len l) H0) as Hp0. destruct Hg as [? _ (? & ? & ? & ?) _ _]. unfold page_addr, NULL, ngx_pagesize in *. nia. }
        eexists _, fl', ls2. split; [exact Hi2|]. unfold blocks. rewrite !collect_app. cbn [collect]. rewrite (proj2 (proj2 (first_mask_ok s Hs))), (collect_app (seg_blocks st) _ (rest 1 k) r).
        change (collect (seg_blocks st) (0 + total_len l + len (Chunks s (first_mask s))) (rest 1 k)) with (blocks st (0 + total_len l + 1) (rest 1 k)).
        assert (blocks st (0 + total_len l + 1) (rest 1 k) = []) as -> by (unfold rest; by destruct (1 <? k)).
        assert (0 + total_len l + len (Chunks s (first_mask s)) + total_len (rest 1 k) = 0 + total_len l + len (Free k)) as ->.
        { unfold rest. destruct (Z.ltb_spec 1 k); cbn; lia. }
        rewrite Hbs, Z.add_0_l. cbn [app seg_blocks]. by rewrite <- Permutation_middle.
    + eexists _, p'. split; [done|]. right. assert (0 <= total_len l) as H0 by (apply page_bounds in Hi; lia). destruct (chunk_range s Hs) as ([Hr0 Hr1] & H2 & _). split.
      { pose proof (page_addr_pos (total_len l) H0) as Hp0. destruct Hg as [? _ (? & ? & ? & ?) _ _]. unfold page_addr, NULL, ngx_pagesize in *. nia. }
      eexists _, fl, ls'. split; [exact Hi'|]. unfold blocks. rewrite !collect_app. cbn [collect len]. rewrite (blocks_set st _ s u k Hk Hb Hr0), Hbs, Z.add_0_l.
      cbn [app]. by rewrite <- Permutation_middle.
Qed.
End Pool.
