(* ===== verification/NgxSlabGive.v ===== *)
(** * NgxSlabGive: chunks and blocks are freed

    A live block is found from its address, its bit is cleared, and its page
    goes back to its list, or becomes free with its last chunk. *)

From S2P Require Import Prelude NgxSprintf NgxSlab NgxSlabLayout NgxSlabSegs NgxSlabPages NgxSlabFree NgxSlabChunks NgxSlabBits NgxSlabAlloc NgxSlabTake.

(** ** Masks *)

(** Only the chunks of the bit map are in use. *)
Definition none (s u : Z) : bool := u =? 2 ^ reserved s - 1.

Lemma blocks_clear st i s u k : reserved s <= k < chunks s -> Z.testbit u k = true -> 0 <= reserved s ->
  seg_blocks st i (Chunks s u) ≡ₚ (page_addr st i + k * 2 ^ s, 2 ^ s) :: seg_blocks st i (Chunks s (clear_bit u k)).
Proof.
  intros Hk Hb H0. unfold seg_blocks. rewrite (filter_bit (Z.testbit (clear_bit u k)) (Z.testbit u) k); [done|apply NoDup_seqZ|apply elem_of_seqZ; lia|..].
  - rewrite clear_bit_spec by lia. by rewrite Z.eqb_refl.
  - intros j. rewrite clear_bit_spec by lia. destruct (Z.eqb_spec j k) as [->|]; [done|by destruct (Z.testbit u j)].
Qed.

Lemma clear_mask s u k : 3 <= s < 12 -> mask_ok s u -> reserved s <= k < chunks s -> let u' := clear_bit u k in
  0 <= u' < 2 ^ chunks s /\ (forall j, 0 <= j < reserved s -> Z.testbit u' j = true) /\ full s u' = false /\
  (none s u' = false -> mask_ok s u') /\ (none s u' = true -> forall st i, seg_blocks st i (Chunks s u') = []).
Proof.
  intros Hs (Hu & Hr & _) Hk. destruct (chunk_range s Hs) as ([H0 H1] & _). cbv zeta. set (u' := clear_bit u k).
  assert (0 <= u' < 2 ^ chunks s) as Hu' by (apply clear_bit_range; lia).
  assert (forall j, 0 <= j < reserved s -> Z.testbit u' j = true) as Hr'.
  { intros j Hj. subst u'. rewrite clear_bit_spec, Hr by lia. by rewrite (proj2 (Z.eqb_neq j k)) by lia. }
  split; [done|]. split; [done|]. split; [|split].
  - destruct (full s u') eqn:Hf; [|done]. pose proof (proj1 (full_bits s u' Hs Hu') Hf k ltac:(lia)) as Hall. subst u'.
    rewrite clear_bit_spec, Z.eqb_refl in Hall by lia. done.
  - intros Hn. split; [done|]. split; [done|].
    assert (exists j, reserved s <= j /\ Z.testbit u' j = true) as (j & Hj & Hb).
    { apply Z.eqb_neq in Hn. destruct (decide (u' < 2 ^ reserved s)) as [Hlt|Hge].
      - exfalso. apply Hn, all_ones; [lia|lia|done].
      - exists (Z.log2 u'). assert (0 < 2 ^ reserved s) by (apply Z.pow_pos_nonneg; lia). split; [apply Z.log2_le_pow2; lia|apply Z.bit_log2; lia]. }
    exists j. split; [|done]. split; [done|]. destruct (decide (j < chunks s)); [done|]. apply (small_bits u' (chunks s)) in Hu' as [_ Hh]; [|lia].
    rewrite Hh in Hb by lia. done.
  - intros Hn st i. apply Z.eqb_eq in Hn. unfold seg_blocks.
    assert (filter (fun j => Z.testbit u' j = true) (seqZ (reserved s) (chunks s - reserved s)) = []) as ->; [|done].
    apply elem_of_nil_inv. intros j [Hb Hj%elem_of_seqZ]%list_elem_of_filter. rewrite Hn in Hb.
    assert (0 <= 2 ^ reserved s - 1 < 2 ^ reserved s) as Hx by (assert (0 < 2 ^ reserved s) by (apply Z.pow_pos_nonneg; lia); lia).
    apply (small_bits _ (reserved s)) in Hx as [_ Hx]; [|lia]. rewrite Hx in Hb by lia. done.
Qed.

(** The test for a bit map with nothing in use. *)
Lemma none_words s u p bitmap : 3 <= s < 6 -> 0 <= u < 2 ^ chunks s -> (forall j, 0 <= j < reserved s -> Z.testbit u j = true) ->
  (forall n, 0 <= n < map_words s -> words p (bitmap + n * sizeof_uintptr_t) = word u n) ->
  (Z.land (words p bitmap) (lnot64 (Z.shiftl 1 (map_chunks s) - 1)) =? 0) && all_words 65 0 (map_words s) bitmap 1 p = none s u.
Proof.
  intros Hs Hu Hr Hw. destruct (chunk_range s) as ([H0 H1] & _ & _ & Hmap); [lia|]. rewrite (proj2 (Z.ltb_lt s 6)) in Hmap by lia.
  destruct Hmap as (Hch & Hr8 & Hmw). pose proof (Hw 0 ltac:(lia)) as Hw0. rewrite Z.mul_0_l, Z.add_0_r in Hw0. rewrite Hw0.
  assert (map_chunks s = reserved s) as -> by (unfold reserved; by rewrite (proj2 (Z.ltb_lt s 6)) by lia). rewrite Z.shiftl_1_l.
  rewrite land_lnot by (lia || apply word_range). assert (0 < 2 ^ reserved s) as Hpos by (apply Z.pow_pos_nonneg; lia).
  assert (2 ^ reserved s <= 2 ^ 8) as H8 by (apply Z.pow_le_mono_r; lia). change (2 ^ 8) with 256 in H8.
  apply eq_iff_eq_true. rewrite andb_true_iff, Z.eqb_eq, all_words_ok by lia. unfold none. rewrite Z.eqb_eq. split.
  - intros [Hlow Hhigh]. assert (word u 0 < 2 ^ reserved s) as Hlt by (pose proof (Z.mod_pos_bound (word u 0) (2 ^ reserved s) Hpos); lia).
    assert (u = word u 0) as ->; [|apply all_ones; [lia|split; [apply word_range|done]|]].
    + apply Z.bits_inj'. intros i Hi. rewrite word_bits by lia. rewrite Z.mul_0_r, Z.add_0_l. destruct (Z.ltb_spec i 64) as [|Hge]; [done|]. cbn [andb].
      destruct (decide (i < chunks s)) as [Hic|Hic]; [|apply (small_bits u (chunks s)) in Hu as [_ Hh]; [|lia]; by apply Hh; lia].
      pose proof (Z.div_mod i 64 ltac:(lia)) as Hd. pose proof (Z.mod_pos_bound i 64 ltac:(lia)) as Hm.
      assert (1 <= i / 64 < map_words s) as Hq by (split; [apply Z.div_le_lower_bound; lia|apply Z.div_lt_upper_bound; lia]).
      specialize (Hhigh _ Hq). rewrite Hw in Hhigh by lia. assert (Z.testbit (word u (i / 64)) (i mod 64) = false) as Hb by (by rewrite Hhigh, Z.bits_0).
      rewrite word_bits in Hb by lia. rewrite (proj2 (Z.ltb_lt (i mod 64) 64)) in Hb by lia. by rewrite <- Hd in Hb.
    + intros i Hi. rewrite word_bits by lia. rewrite (proj2 (Z.ltb_lt i 64)) by lia. rewrite Z.mul_0_r, Z.add_0_l. by apply Hr.
  - intros ->. split.
    + unfold word. rewrite Z.mul_0_r. change (2 ^ 0) with 1. rewrite Z.div_1_r. change (2 ^ 64) with 18446744073709551616. rewrite (Z.mod_small _ 18446744073709551616) by lia.
      rewrite Z.mod_small; lia.
    + intros j Hj. rewrite Hw by lia. unfold word. rewrite Z.div_small; [done|]. split; [lia|].
      eapply Z.lt_le_trans with (2 ^ 64); [change (2 ^ 64) with 18446744073709551616; lia|]. apply Z.pow_le_mono_r; lia.
Qed.

Section Pool.
Context (pg st np sl fr en : Z).
Context (Hg : geometry pg st np sl fr en).
#[local] Abbreviation A := (A pg).
#[local] Abbreviation invariant := (invariant pg st np sl fr en).
#[local] Abbreviation consts := (consts pg st np sl fr en).
#[local] Abbreviation slot_head := (slot_head sl).
#[local] Abbreviation chunk_hole := (chunk_hole pg st np sl fr en).

(** ** The page of an address *)

Lemma page_div i : page_addr st i mod ngx_pagesize = 0.
Proof. destruct Hg as [_ _ _ [q ->] _]. unfold page_addr. rewrite <- Z.mul_add_distr_r. by apply Z.mod_mul. Qed.

Lemma addr_mod i off : 0 <= off < ngx_pagesize -> (page_addr st i + off) mod ngx_pagesize = off.
Proof. intros Ho. rewrite Z.add_mod by done. rewrite page_div, Z.add_0_l, Z.mod_mod by done. by apply Z.mod_small. Qed.

Lemma addr_range i off : 0 <= i < np -> 0 <= off < ngx_pagesize -> 0 <= page_addr st i + off < 2 ^ 64.
Proof. destruct Hg as [? _ (? & ? & ? & ?) _ ?]. unfold page_addr, ngx_pagesize in *. lia. Qed.

Lemma addr_low i off : 0 <= i < np -> 0 <= off < ngx_pagesize ->
  Z.land (page_addr st i + off) (ngx_pagesize - 1) = off /\ Z.land (page_addr st i + off) (lnot64 (ngx_pagesize - 1)) = page_addr st i.
Proof.
  intros Hi Ho. pose proof (addr_range i off Hi Ho). change (ngx_pagesize - 1) with (2 ^ 12 - 1). split.
  - rewrite land_ones_mod by lia. by apply addr_mod.
  - rewrite land_lnot by lia. change (2 ^ 12) with ngx_pagesize. rewrite addr_mod by done. lia.
Qed.

Lemma free_page_of p i off : consts p -> 0 <= i < np -> 0 <= off < ngx_pagesize -> ngx_slab_free_locked (page_addr st i + off) p =
  (let type := ngx_slab_page_type (A i) p in
   if type =? NGX_SLAB_SMALL then free_small (page_addr st i + off) (A i) p
   else if type =? NGX_SLAB_EXACT then free_exact (page_addr st i + off) (A i) p
   else if type =? NGX_SLAB_BIG then free_big (page_addr st i + off) (A i) p
   else free_page (page_addr st i + off) (A i) p).
Proof.
  intros [_ [Hpg _] [Hst Hen] _] Hi Ho. unfold ngx_slab_free_locked. rewrite Hpg, Hst, Hen.
  assert (Z.shiftr (page_addr st i + off - st) ngx_pagesize_shift = i) as ->.
  { rewrite Z.shiftr_div_pow2 by done. change (2 ^ ngx_pagesize_shift) with ngx_pagesize. unfold page_addr.
    replace (st + i * ngx_pagesize + off - st) with (off + i * ngx_pagesize) by lia. rewrite Z.div_add by done. rewrite Z.div_small by done. lia. }
  destruct Hg as [_ _ _ _ ?]. rewrite (proj2 (Z.ltb_ge _ st)), (proj2 (Z.ltb_ge en _)) by (unfold page_addr, ngx_pagesize in *; lia). done.
Qed.

(** ** One chunk less *)

Lemma reopen p l s u r fl ls : invariant p (l ++ Chunks s u :: r) fl ls ->
  (p_next (heap p (A (total_len l))) =? NULL) = full s u /\ exists ls',
  let p' := if full s u then relist (A (total_len l)) (s - 3) (chunk_type s) p else p in
  chunk_hole true p' l s r fl ls' /\ slab (heap p' (A (total_len l))) = slab (heap p (A (total_len l))) /\ words p' = words p.
Proof.
  intros Hi. destruct (invariant_chunk _ _ _ _ _ _ _ _ _ _ _ _ _ Hi) as (Hc & _ & _ & Hfull). destruct (full s u) eqn:Hf; cbn [negb] in Hc.
  - destruct Hfull as [-> _]; [done|]. split; [done|]. destruct (chunk_relist _ _ _ _ _ _ Hg _ _ _ _ _ _ Hc) as (ls' & Hsm & Hc' & Hsl). cbv zeta in *.
    exists ls'. split; [done|]. split; [done|]. by rewrite Hsm.
  - split; [apply Z.eqb_neq; by eapply chunk_listed|]. by exists ls.
Qed.

(** The end of a free, when the bit of the chunk has been cleared. *)
Lemma chunk_given p l s u k r fl ls d : chunk_hole true p l s r fl ls -> mask_ok s u -> reserved s <= k < chunks s -> let u' := clear_bit u k in
  bits pg st (heap p) (words p) (total_len l) s u' -> exists segs fl' ls',
  invariant (if negb (none s u') then p else set_stat (s - 3) d (ngx_slab_free_pages (A (total_len l)) 1 p)) segs fl' ls' /\
  blocks st 0 segs = blocks st 0 l ++ seg_blocks st (total_len l) (Chunks s u') ++ blocks st (total_len l + 1) r.
Proof.
  intros Hc Hm Hk u' Hb. pose proof (ch_size _ _ _ _ _ _ _ _ _ _ _ _ _ Hc) as Hs. destruct (clear_mask s u k Hs Hm Hk) as (_ & _ & Hf & Hsome & Hnone).
  cbv zeta in *. fold u' in Hf, Hsome, Hnone. destruct (none s u'); cbn [negb].
  - destruct (chunk_free _ _ _ _ _ _ Hg _ _ _ _ _ _ Hc) as (_ & _ & segs & fl' & ls' & Hi & Hbl). cbv zeta in *. exists segs, fl', ls'.
    split; [by apply invariant_stat|]. by rewrite Hnone.
  - exists (l ++ Chunks s u' :: r), fl, ls. split.
    + apply chunk_invariant; [by rewrite Hf|by apply Hsome|done|by rewrite Hf].
    + unfold blocks. rewrite collect_app. by rewrite Z.add_0_l.
Qed.

(** A free of the chunk [k]. *)
Definition gives (op : Z -> Z -> slab_pool -> slab_pool) (s : Z) : Prop :=
  forall p l u k r fl ls, invariant p (l ++ Chunks s u :: r) fl ls -> reserved s <= k < chunks s -> Z.testbit u k = true ->
  exists segs fl' ls', invariant (op (page_addr st (total_len l) + k * 2 ^ s) (A (total_len l)) p) segs fl' ls' /\
    blocks st 0 segs = blocks st 0 l ++ seg_blocks st (total_len l) (Chunks s (clear_bit u k)) ++ blocks st (total_len l + 1) r.

(** The number of a chunk from its address. *)
Lemma chunk_addr i s k : 0 <= i < np -> 3 <= s < 12 -> 0 <= k < chunks s -> let a := page_addr st i + k * 2 ^ s in
  Z.land a (Z.shiftl 1 s - 1) = 0 /\ Z.shiftr (Z.land a (ngx_pagesize - 1)) s = k /\ Z.land a (lnot64 (ngx_pagesize - 1)) = page_addr st i.
Proof.
  intros Hi Hs Hk a. destruct (chunk_range s Hs) as (_ & H2 & Hc & _). destruct (addr_low i (k * 2 ^ s) Hi) as [H1 H3]; [nia|].
  split; [|split; [|done]].
  - rewrite Z.shiftl_1_l, land_ones_mod by lia. subst a. rewrite Z.mod_add by lia. unfold page_addr. destruct Hg as [_ _ _ [q ->] _].
    rewrite <- Z.mul_add_distr_r, <- Hc, Z.mul_assoc. apply Z.mod_mul. lia.
  - subst a. rewrite H1, Z.shiftr_div_pow2 by lia. apply Z.div_mul. lia.
Qed.

Lemma low_shift s : 3 <= s < 12 -> Z.land s NGX_SLAB_SHIFT_MASK = s.
Proof. intros Hs. each_shift Hs; done. Qed.

Lemma free_exact_ok s : s = 6 -> gives free_exact s.
Proof.
  intros -> p l u k r fl ls Hi Hk Hb. destruct (invariant_chunk _ _ _ _ _ _ _ _ _ _ _ _ _ Hi) as (_ & Hm & Hbits & _).
  destruct (reopen _ _ _ _ _ _ _ Hi) as (_ & ls1 & Hc1 & Hsl & Hw). cbv zeta in *. apply page_bounds in Hi as Hbd. cbn [len] in Hbd. set (i := total_len l) in *.
  destruct (inv_consts _ _ _ _ _ _ _ _ _ _ Hi) as [[_ Hmin] _ _ _]. change (slab (heap p (A i)) = u) in Hbits.
  change (reserved 6) with 0 in Hk. destruct (chunk_addr i 6 k) as (Ha1 & Ha2 & _); [lia|lia|lia|]. change (chunks 6) with 64 in *. unfold free_exact. rewrite Hbits.
  change ngx_slab_exact_shift with 6. rewrite Ha2. change ngx_slab_exact_size with (Z.shiftl 1 6). rewrite Ha1. cbn [negb].
  change (negb (0 =? 0)) with false. cbn iota. rewrite land_bit, Hb by lia. rewrite Hmin.
  change (u =? NGX_SLAB_BUSY) with (full 6 u). change NGX_SLAB_EXACT with (chunk_type 6). set (p1 := if full 6 u then _ else p) in *.
  rewrite Hsl, Hbits, Z.shiftl_1_l, land_lnot_bit by (apply Hm || lia). set (u' := clear_bit u k). set (p2 := set_slab (A i) u' p1).
  pose proof (chunk_slab _ _ _ _ _ _ Hg _ _ _ _ _ _ _ u' Hc1) as Hc2. fold i p2 in Hc2.
  assert (slab (heap p2 (A i)) = u') as Hs2 by (subst p2; read_heap; by rewrite Z.eqb_refl). rewrite Hs2.
  destruct (chunk_given p2 l 6 u k r fl ls1 (add_total (- (sizeof_uintptr_t * 8))) Hc2 Hm) as (segs & fl' & ls' & Hi' & Hbl); [done|exact Hs2|].
  fold u' in Hi', Hbl. exists segs, fl', ls'. split; [by apply invariant_stat|done].
Qed.

Lemma big_shift u s : 0 <= u < 2 ^ 32 -> 3 <= s < 12 -> Z.land (u * 2 ^ 32 + s) NGX_SLAB_SHIFT_MASK = s.
Proof.
  intros Hu Hs. change NGX_SLAB_SHIFT_MASK with (2 ^ 4 - 1). rewrite land_ones_mod by lia.
  replace (u * 2 ^ 32) with (u * 2 ^ 28 * 2 ^ 4) by lia. rewrite Z.add_comm, Z.mod_add by lia. apply Z.mod_small. lia.
Qed.

Lemma free_big_ok s : 6 < s < 12 -> gives free_big s.
Proof.
  intros Hs p l u k r fl ls Hi Hk Hb. destruct (invariant_chunk _ _ _ _ _ _ _ _ _ _ _ _ _ Hi) as (_ & Hm & Hbits & _).
  destruct (reopen _ _ _ _ _ _ _ Hi) as (Hnx & ls1 & Hc1 & Hsl & Hw). cbv zeta in *. apply page_bounds in Hi as Hbd. cbn [len] in Hbd. set (i := total_len l) in *.
  destruct (inv_consts _ _ _ _ _ _ _ _ _ _ Hi) as [[_ Hmin] _ _ _]. unfold bits in Hbits. change ngx_slab_exact_shift with 6 in Hbits.
  rewrite (proj2 (Z.ltb_ge s 6)), (proj2 (Z.eqb_neq s 6)) in Hbits by lia.
  destruct (chunk_range s) as (_ & _ & _ & H32); [lia|]. rewrite (proj2 (Z.ltb_ge s 6)), (proj2 (Z.eqb_neq s 6)) in H32 by lia.
  assert (reserved s = 0) as Hr0 by (unfold reserved; by rewrite (proj2 (Z.ltb_ge s 6)) by lia).
  assert (chunk_type s = NGX_SLAB_BIG) as Hty by (unfold chunk_type; change ngx_slab_exact_shift with 6; by rewrite (proj2 (Z.ltb_ge s 6)), (proj2 (Z.eqb_neq s 6)) by lia).
  destruct (chunk_addr i s k) as (Ha1 & Ha2 & _); [lia|lia|lia|]. assert (2 ^ chunks s <= 2 ^ 32) as H64 by (apply Z.pow_le_mono_r; lia).
  assert (0 <= u < 2 ^ 32) as Hu by (destruct Hm as [? _]; lia). unfold free_big. rewrite Hbits, big_shift by lia.
  rewrite Ha1, Ha2. change (negb (0 =? 0)) with false. cbn iota. change NGX_SLAB_MAP_SHIFT with 32. rewrite land_bit, pack_bits by lia.
  rewrite (proj2 (Z.ltb_ge (k + 32) 32)) by lia. replace (k + 32 - 32) with k by lia. rewrite Hb, Hmin, Hnx, <- Hty.
  set (p1 := if full s u then _ else p) in *. rewrite Hsl, Hbits, Z.shiftl_1_l, pack_clear by lia. set (u' := clear_bit u k). set (p2 := set_slab (A i) _ p1).
  pose proof (chunk_slab _ _ _ _ _ _ Hg _ _ _ _ _ _ _ (u' * 2 ^ 32 + s) Hc1) as Hc2. fold i p2 in Hc2.
  assert (slab (heap p2 (A i)) = u' * 2 ^ 32 + s) as Hs2 by (subst p2; read_heap; by rewrite Z.eqb_refl). rewrite Hs2.
  assert (0 <= u' < 2 ^ 32) as Hu' by (apply clear_bit_range; lia). rewrite pack_mask by lia.
  assert (negb (u' * 2 ^ 32 =? 0) = negb (none s u')) as ->.
  { f_equal. unfold none. rewrite Hr0. change (2 ^ 0 - 1) with 0. apply eq_iff_eq_true. rewrite !Z.eqb_eq. lia. }
  destruct (chunk_given p2 l s u k r fl ls1 (add_total (- Z.shiftr ngx_pagesize s)) Hc2 Hm Hk) as (segs & fl' & ls' & Hi' & Hbl).
  { fold i u'. unfold bits. change ngx_slab_exact_shift with 6. by rewrite (proj2 (Z.ltb_ge s 6)), (proj2 (Z.eqb_neq s 6)) by lia. }
  fold u' in Hi', Hbl. exists segs, fl', ls'. split; [by apply invariant_stat|done].
Qed.

Lemma free_small_ok s : 3 <= s < 6 -> gives free_small s.
Proof.
  intros Hs p l u k r fl ls Hi Hk Hb. destruct (invariant_chunk _ _ _ _ _ _ _ _ _ _ _ _ _ Hi) as (_ & Hm & Hbits & _).
  destruct (reopen _ _ _ _ _ _ _ Hi) as (Hnx & ls1 & Hc1 & Hsl & Hw). cbv zeta in *. apply page_bounds in Hi as Hbd. cbn [len] in Hbd. set (i := total_len l) in *.
  destruct (inv_consts _ _ _ _ _ _ _ _ _ _ Hi) as [[_ Hmin] _ _ _]. apply bits_small in Hbits as [Hbs Hbw]; [|lia].
  destruct (chunk_range s) as ([Hr0 Hr1] & _ & _ & Hmap); [lia|]. rewrite (proj2 (Z.ltb_lt s 6)) in Hmap by lia. destruct Hmap as (Hch & Hr8 & Hmw).
  destruct (chunk_addr i s k) as (Ha1 & Ha2 & Ha3); [lia|lia|lia|]. destruct (clear_mask s u k ltac:(lia) Hm Hk) as (Hu' & Hres' & _).
  unfold free_small. rewrite Hbs, low_shift by lia. rewrite Ha1, Ha2, Ha3. change (negb (0 =? 0)) with false. cbn iota. change (sizeof_uintptr_t * 8) with 64.
  set (n := k / 64). set (b := k mod 64). set (bitmap := page_addr st i) in *.
  assert (k = 64 * n + b /\ 0 <= b < 64 /\ 0 <= n < map_words s) as (Hkn & Hb64 & Hn).
  { pose proof (Z.div_mod k 64 ltac:(lia)) as Hd. pose proof (Z.mod_pos_bound k 64 ltac:(lia)) as Hmo. fold n b in Hd, Hmo. lia. }
  assert (Z.testbit (word u n) b = true) as Hwb by (rewrite word_bits by lia; rewrite (proj2 (Z.ltb_lt b 64)) by lia; by rewrite <- Hkn).
  rewrite land_bit by lia. rewrite (Hbw n Hn), Hwb, Hmin, Hnx, <- (small_type s) by lia. set (p1 := if full s u then _ else p) in *. cbv zeta.
  set (u' := clear_bit u k). set (a := bitmap + n * sizeof_uintptr_t).
  assert (Z.land (words p1 a) (lnot64 (Z.shiftl 1 b)) = word u' n) as ->.
  { subst a u'. rewrite Hw, (Hbw n Hn), Z.shiftl_1_l, land_lnot_bit by (lia || apply word_range). rewrite Hkn. symmetry. apply word_clear; lia. }
  set (p2 := set_word a (word u' n) p1).
  assert (chunk_hole true p2 l s r fl ls1) as Hc2.
  { apply chunk_word; [done|done|]. fold i. subst a bitmap. by apply (word_in_page st i s n). }
  assert (Hbw' : forall j, 0 <= j < map_words s -> words p2 (bitmap + j * sizeof_uintptr_t) = word u' j).
  { rewrite <- Hw in Hbw. apply (words_update st (words p1) i s u u' n Hn Hbw). intros j Hj Hjn. subst u'. rewrite Hkn. apply word_clear_other; lia. }
  pose proof (none_words s u' p2 bitmap ltac:(lia) Hu' Hres' Hbw') as Hnone.
  destruct (chunk_given p2 l s u k r fl ls1 (add_total (- (Z.shiftr ngx_pagesize s - map_chunks s))) Hc2 Hm Hk) as (segs & fl' & ls' & Hi' & Hbl).
  { apply bits_small; [lia|]. split; [|exact Hbw']. change (heap p2) with (heap p1). fold i. by rewrite Hsl. }
  fold i u' in Hi', Hbl. exists segs, fl', ls'. split; [|done]. apply invariant_stat. rewrite <- Hnone in Hi'.
  destruct (Z.land (words p2 bitmap) _ =? 0); cbn [negb andb] in *; [|exact Hi']. by destruct (all_words 65 0 (map_words s) bitmap 1 p2).
Qed.

(** ** Frees *)

Lemma block_start k : 0 < k < 2 ^ 63 -> Z.land (k + NGX_SLAB_PAGE_START) NGX_SLAB_PAGE_START = NGX_SLAB_PAGE_START /\
  Z.land (k + NGX_SLAB_PAGE_START) (lnot64 NGX_SLAB_PAGE_START) = k.
Proof.
  intros Hk. assert (k + NGX_SLAB_PAGE_START = Z.lor (1 * 2 ^ 63) k) as Heq by (rewrite (lor_add_low _ _ 63); [unfold NGX_SLAB_PAGE_START; lia|lia|by exists 1|lia]).
  assert (forall i, 0 <= i -> Z.testbit (k + NGX_SLAB_PAGE_START) i = (i =? 63) || Z.testbit k i) as Hbit.
  { intros i Hi. rewrite Heq, Z.lor_spec, Z.mul_1_l, Z.pow2_bits_eqb, Z.eqb_sym by lia. done. }
  assert (forall i, 63 <= i -> Z.testbit k i = false) as Hh by (apply (small_bits k 63); lia).
  split; apply Z.bits_inj'; intros i Hi.
  - rewrite Z.land_spec, Hbit by done. change NGX_SLAB_PAGE_START with (2 ^ 63). rewrite Z.pow2_bits_eqb, (Z.eqb_sym 63 i) by lia.
    destruct (Z.eqb_spec i 63); [done|apply andb_false_r].
  - change NGX_SLAB_PAGE_START with (2 ^ 63) at 2. rewrite land_lnot_bit by (unfold NGX_SLAB_PAGE_START; lia). rewrite clear_bit_spec, Hbit by lia.
    destruct (Z.eqb_spec i 63) as [->|]; [by rewrite Hh|done].
Qed.

(** The type of the first page of a segment. *)
Lemma seg_type p l s u r fl ls : invariant p (l ++ Chunks s u :: r) fl ls -> ngx_slab_page_type (A (total_len l)) p = chunk_type s.
Proof.
  intros Hi. pose proof (inv_lay _ _ _ _ _ _ _ _ _ _ Hi) as Hl. apply lay_app in Hl as [_ [(Hs & _ & _ & Hf) _]]. rewrite Z.add_0_l in Hf. unfold ngx_slab_page_type.
  destruct (full s u) eqn:Hfu.
  - destruct Hf as [_ ->]; [done|]. rewrite <- (Z.add_0_l (chunk_type s)) at 1. apply tag_type; [by exists 0|apply type_range].
  - destruct (inv_open _ _ _ _ _ _ _ _ _ _ Hi s Hs) as [Hd Hp]. pose proof (open_aligned _ _ _ _ _ _ Hg _ _ _ _ _ Hi Hs) as Hal.
    destruct (member_prev _ _ _ _ (A (total_len l)) Hd) as (a & Ha & -> & _); [|apply tag_type; [by eapply aligned_in|apply type_range]].
    rewrite Hp. unfold opens. rewrite collect_app. cbn. rewrite Z.eqb_refl, Hfu. cbn. apply elem_of_app. right. by left.
Qed.

Lemma free_ok p segs fl ls b : invariant p segs fl ls -> b ∈ blocks st 0 segs -> exists segs' fl' ls',
  invariant (ngx_slab_free_locked b.1 p) segs' fl' ls' /\ blocks st 0 segs ≡ₚ b :: blocks st 0 segs'.
Proof.
  intros Hi Hb. apply collect_in in Hb as (l & g & r & -> & Hb). rewrite Z.add_0_l in Hb. apply page_bounds in Hi as Hbd.
  pose proof (inv_consts _ _ _ _ _ _ _ _ _ _ Hi) as Hco. pose proof (inv_lay _ _ _ _ _ _ _ _ _ _ Hi) as Hl. apply lay_app in Hl as [_ [Hok _]].
  assert (blocks st 0 (l ++ g :: r) = blocks st 0 l ++ seg_blocks st (total_len l) g ++ blocks st (total_len l + len g) r) as Hbl.
  { unfold blocks. rewrite collect_app. by rewrite Z.add_0_l. }
  rewrite Z.add_0_l in Hok. destruct g as [k|k|s u]; cbn [len] in *; [by apply elem_of_nil in Hb|..].
  - cbn [seg_blocks] in *. apply list_elem_of_singleton in Hb as ->. cbn [fst]. destruct Hok as (Hk & Hh & _). set (i := total_len l) in *.
    pose proof (free_page_of p i 0 Hco ltac:(lia) ltac:(done)) as Hfp. rewrite Z.add_0_r in Hfp. rewrite Hfp. unfold ngx_slab_page_type. rewrite Hh. cbn [p_prev].
    cbv zeta. change (Z.land NGX_SLAB_PAGE NGX_SLAB_PAGE_MASK) with 0. change (0 =? NGX_SLAB_SMALL) with false. change (0 =? NGX_SLAB_EXACT) with false. change (0 =? NGX_SLAB_BIG) with false. cbn iota.
    unfold free_page. rewrite Hh. cbn [slab]. destruct (addr_low i 0) as [Ha _]; [lia|done|]. rewrite Z.add_0_r in Ha. rewrite Ha.
    assert (0 < k < 2 ^ 63) as Hk63 by (pose proof (np_small _ _ _ _ _ _ Hg); lia). destruct (block_start k Hk63) as [Hb1 Hb2]. rewrite Hb1, Hb2.
    change (negb (0 =? 0)) with false. change (NGX_SLAB_PAGE_START =? 0) with false. cbn iota.
    rewrite (proj2 (Z.eqb_neq (k + NGX_SLAB_PAGE_START) NGX_SLAB_PAGE_BUSY)) by (pose proof (np_small _ _ _ _ _ _ Hg); unfold NGX_SLAB_PAGE_START, NGX_SLAB_PAGE_BUSY; lia).
    destruct (free_block_ok _ _ _ _ _ _ Hg _ _ _ _ _ _ Hi) as (_ & segs' & fl' & Hi' & Hbl'). cbv zeta in *. fold i in Hi', Hbl'. exists segs', fl', ls. split; [done|].
    rewrite Hbl, Hbl'. cbn [app]. by rewrite <- Permutation_middle.
  - unfold seg_blocks in Hb. apply list_elem_of_fmap in Hb as (k & -> & Hk). apply list_elem_of_filter in Hk as [Hbit Hk%elem_of_seqZ]. cbn [fst].
    destruct Hok as (Hs & Hm & _). destruct (chunk_range s Hs) as ([Hr0 Hr1] & H2 & Hc & _). assert (reserved s <= k < chunks s) as Hk' by lia.
    set (i := total_len l) in *. rewrite free_page_of by (done || lia || nia). unfold i. rewrite (seg_type _ _ _ _ _ _ _ Hi). fold i. cbv zeta.
    assert (forall op, gives op s -> exists segs' fl' ls', invariant (op (page_addr st i + k * 2 ^ s) (A i) p) segs' fl' ls' /\
      blocks st 0 (l ++ Chunks s u :: r) ≡ₚ (page_addr st i + k * 2 ^ s, 2 ^ s) :: blocks st 0 segs') as Hop.
    { intros op Hgv. destruct (Hgv p l u k r fl ls Hi Hk' Hbit) as (segs' & fl' & ls' & Hi' & Hbl'). exists segs', fl', ls'. split; [done|].
      rewrite Hbl, Hbl'. fold i. rewrite (blocks_clear st i s u k Hk' Hbit Hr0). cbn [app]. by rewrite <- Permutation_middle. }
    unfold chunk_type. change ngx_slab_exact_shift with 6. destruct (Z.ltb_spec s 6); [|destruct (Z.eqb_spec s 6) as [->|]].
    + apply Hop, free_small_ok. lia.
    + by apply Hop, free_exact_ok.
    + apply Hop, free_big_ok. lia.
Qed.
End Pool.
