(* ===== verification/NgxSlabSpec.v ===== *)
(** * NgxSlabSpec: a pool and its clients

    A new pool is one free run.  The clients of a pool hold blocks; whatever
    they allocate and free, the blocks lie apart in the pool, and all of it is
    one free run again when they hold none. *)

From S2P Require Import Prelude NgxSprintf NgxSlab NgxSlabLayout NgxSlabSegs NgxSlabPages NgxSlabFree NgxSlabChunks NgxSlabBits NgxSlabAlloc NgxSlabTake NgxSlabGive.

(** ** A new pool *)

(** The memory of a zone: the pool's own fields, then room for two pages or more. *)
Record new_pool (p : slab_pool) : Prop := {
  new_shift : min_shift p = 3;
  new_aligned : (8 | slots p) /\ (8 | free p);
  new_order : 0 < free p /\ free p + 24 <= slots p;
  new_room : slots p + 9 * 56 + 2 * (ngx_pagesize + sizeof_ngx_slab_page_t) <= end_ p < 2 ^ 63
}.

Lemma init_slots_ok m a p : same_pool p (init_slots m a p) /\
  (forall j, 0 <= j < Z.of_nat m -> heap (init_slots m a p) (at_page a j) = Page 0 (at_page a j) 0) /\
  (forall y, (forall j, 0 <= j < Z.of_nat m -> y <> at_page a j) -> heap (init_slots m a p) y = heap p y).
Proof.
  revert a p. induction m as [|m IH]; intros a p; cbn [init_slots].
  { split; [unfold same_pool; by destruct p|]. split; [intros j Hj; lia|done]. }
  set (p1 := set_heap _ p). destruct (IH (at_page a 1) p1) as (H1 & H2 & H3).
  assert (forall j, at_page (at_page a 1) j = at_page a (j + 1)) as Hat by (intros; unfold at_page; lia).
  assert (heap p1 a = Page 0 a 0) as Ha by (subst p1; cbn; unfold set_page; by rewrite Z.eqb_refl).
  assert (forall y, y <> a -> heap p1 y = heap p y) as Hy by (intros y Hy; subst p1; cbn; unfold set_page; by rewrite (proj2 (Z.eqb_neq y a) Hy)).
  split; [eapply same_trans; [|exact H1]; done|]. split.
  - intros j Hj. destruct (decide (j = 0)) as [->|Hne].
    + replace (at_page a 0) with a by (unfold at_page; lia). rewrite H3; [done|]. intros j' Hj'. rewrite Hat. unfold at_page, sizeof_ngx_slab_page_t. lia.
    + replace (at_page a j) with (at_page (at_page a 1) (j - 1)) by (rewrite Hat; f_equal; lia). apply H2. lia.
  - intros y Hya. rewrite H3.
    + apply Hy. replace a with (at_page a 0) by (unfold at_page; lia). apply Hya. lia.
    + intros j Hj. rewrite Hat. apply Hya. lia.
Qed.

(** How many pages there are, and where the first one is. *)
Definition pool_pages (p : slab_pool) : Z := slots p + 9 * 56.
Definition pool_room (p : slab_pool) : Z := (end_ p - pool_pages p) / (ngx_pagesize + sizeof_ngx_slab_page_t).
Definition pool_start (p : slab_pool) : Z := (at_page (pool_pages p) (pool_room p) + (ngx_pagesize - 1)) / ngx_pagesize * ngx_pagesize.
Definition pool_count (p : slab_pool) : Z := Z.min (pool_room p) ((end_ p - pool_start p) / ngx_pagesize).

Lemma new_geometry p : new_pool p -> geometry (pool_pages p) (pool_start p) (pool_count p) (slots p) (free p) (end_ p) /\
  2 <= pool_room p /\ 0 <= (end_ p - pool_start p) / ngx_pagesize /\ pool_start p <= end_ p.
Proof.
  intros [_ [Ha1 Ha2] [Ho1 Ho2] Hr]. unfold ngx_pagesize, sizeof_ngx_slab_page_t in Hr.
  assert (2 <= pool_room p /\ pool_room p * 4120 <= end_ p - pool_pages p) as [Hn Hn'].
  { unfold pool_room, ngx_pagesize, sizeof_ngx_slab_page_t. change (4096 + 24) with 4120. unfold pool_pages.
    split; [apply Z.div_le_lower_bound; lia|]. rewrite Z.mul_comm. apply Z.mul_div_le. lia. }
  assert (at_page (pool_pages p) (pool_room p) <= pool_start p < at_page (pool_pages p) (pool_room p) + 4096) as Hst.
  { unfold pool_start, ngx_pagesize. set (a := at_page _ _). pose proof (Z.div_mod (a + (4096 - 1)) 4096 ltac:(lia)). pose proof (Z.mod_pos_bound (a + (4096 - 1)) 4096 ltac:(lia)). lia. }
  unfold at_page, sizeof_ngx_slab_page_t in Hst.
  assert (pool_start p <= end_ p /\ 4096 <= end_ p - pool_start p) as [Hse Hse'] by (unfold pool_pages in *; lia).
  assert (1 <= (end_ p - pool_start p) / 4096) as Hq by (apply Z.div_le_lower_bound; lia).
  split; [|unfold ngx_pagesize; lia]. pose proof (Z.mul_div_le (end_ p - pool_start p) 4096 ltac:(lia)) as Hqe. unfold pool_count, ngx_pagesize. split.
  - lia.
  - split; [|done]. unfold pool_pages. destruct Ha1 as [q ->]. exists (q + 63). lia.
  - unfold pool_pages in *. lia.
  - by exists ((at_page (pool_pages p) (pool_room p) + (ngx_pagesize - 1)) / ngx_pagesize).
  - unfold ngx_pagesize in *. lia.
Qed.

Theorem slab_init_ok p : new_pool p ->
  invariant (pool_pages p) (pool_start p) (pool_count p) (slots p) (free p) (end_ p) (ngx_slab_init p) [Free (pool_count p)] [pool_pages p] (fun _ => []).
Proof.
  intros Hp. destruct (new_geometry _ Hp) as (Hg & Hn & Hq & Hse). destruct Hp as [Hsh [Ha1 Ha2] [Ho1 Ho2] Hr]. unfold ngx_pagesize, sizeof_ngx_slab_page_t in Hr.
  unfold ngx_slab_init. rewrite Hsh. change (ngx_pagesize_shift - 3) with 9. change (Z.to_nat 9) with 9%nat.
  destruct (init_slots_ok 9 (slots p) p) as (Hs1 & Hi1 & _). set (p1 := init_slots 9 (slots p) p) in *.
  replace (at_page (slots p) 9 + 9 * sizeof_ngx_slab_stat_t) with (pool_pages p) by (unfold pool_pages, at_page, sizeof_ngx_slab_page_t, sizeof_ngx_slab_stat_t; lia).
  assert (u64 (u64 (end_ p - slots p) - 9 * (sizeof_ngx_slab_page_t + sizeof_ngx_slab_stat_t)) = end_ p - pool_pages p) as ->.
  { unfold u64, pool_pages, sizeof_ngx_slab_page_t, sizeof_ngx_slab_stat_t. rewrite (Z.mod_small (end_ p - slots p)) by lia. rewrite Z.mod_small; lia. }
  fold (pool_room p). set (n0 := pool_room p) in *. set (pg := pool_pages p) in *. set (np := pool_count p) in *.
  destruct (zero_heap (Z.to_nat n0) pg p1) as (Hs2 & Hz & Hzo). set (p2 := zero_pages (Z.to_nat n0) pg p1) in *.
  assert (same_pool p p2) as Hs12 by (eapply same_trans; [exact Hs1|exact Hs2]).
  set (p3 := set_heap (set_page (free p2) (Page 0 pg 0) (heap p2)) p2). assert (free p2 = free p /\ free p3 = free p /\ end_ p3 = end_ p /\ slots p3 = slots p) as (Hf2 & Hf3 & He3 & Hsl3) by (subst p3; by rewrite Hs12).
  set (p4 := set_heap (set_page pg (Page n0 (free p3) (free p3)) (heap p3)) p3). assert (free p4 = free p /\ end_ p4 = end_ p /\ slots p4 = slots p) as (Hf4 & He4 & Hsl4) by (subst p4; done).
  change ((at_page pg n0 + (ngx_pagesize - 1)) / ngx_pagesize * ngx_pagesize) with (pool_start p). set (st := pool_start p) in *. rewrite He4.
  (* the descriptors *)
  pose proof Hg as [Hnp _ (_ & _ & Hslpg & Hpgst) _ Hen]. fold pg in Hslpg, Hpgst.
  assert (heap p4 pg = Page n0 (free p) (free p)) as Hpg4 by (subst p4; rewrite Hf3; cbn; unfold set_page; by rewrite Z.eqb_refl).
  assert (heap p4 (free p) = Page 0 pg 0) as Hfr4.
  { subst p4 p3. cbn. unfold set_page. rewrite Hf2, Z.eqb_refl. by rewrite (proj2 (Z.eqb_neq (free p) pg)) by lia. }
  assert (forall a, a <> pg -> a <> free p -> heap p4 a = heap p2 a) as Ho4.
  { intros a H1 H2. subst p4 p3. cbn. unfold set_page. rewrite Hf2. by rewrite (proj2 (Z.eqb_neq a pg) H1), (proj2 (Z.eqb_neq a (free p)) H2). }
  match goal with |- context [match ?e with (_, _) => _ end] =>
    assert (exists p5, e = (np, p5) /\ same_pool p4 p5 /\ heap p5 pg = Page np (free p) (free p) /\ forall a, a <> pg -> heap p5 a = heap p4 a) as (p5 & -> & Hs5 & Hpg5 & Ho5) end.
  { assert (s64 (u64 (n0 - u64 (end_ p - st) / ngx_pagesize)) = n0 - (end_ p - st) / ngx_pagesize) as ->.
    { unfold u64 at 2. rewrite (Z.mod_small (end_ p - st)) by lia.
      assert (0 <= n0 < 2 ^ 62 /\ 0 <= (end_ p - st) / ngx_pagesize < 2 ^ 62) as [H1 H2].
      { split; [split; [lia|]; unfold n0, pool_room, ngx_pagesize, sizeof_ngx_slab_page_t; apply Z.div_lt_upper_bound; unfold pg, pool_pages in *; lia|].
        split; [done|]. unfold ngx_pagesize. apply Z.div_lt_upper_bound; lia. }
      apply s64_u64. lia. }
    unfold np, pool_count. fold n0 st. set (q := (end_ p - st) / ngx_pagesize) in *. destruct (Z.ltb_spec 0 (n0 - q)).
    - rewrite Z.min_r by lia. replace (n0 - (n0 - q)) with q by lia. eexists. split; [done|]. split; [done|]. split; [rewrite heap_slab, Z.eqb_refl, Hpg4; done|].
      intros a Ha. by apply heap_slab_ne.
    - rewrite Z.min_l by lia. eexists. split; [done|]. split; [unfold same_pool; by destruct p4|]. by rewrite Hpg4. }
  assert (same_pool p p5) as Hs15 by (eapply same_trans; [exact Hs12|]; eapply same_trans; [|exact Hs5]; done).
  assert (heap p5 (free p) = Page 0 pg 0) as Hfr5 by (by rewrite Ho5 by lia).
  set (p6 := Pool _ _ _ _ _ _ _ _ _ _ _ _). change (heap p6) with (heap p5).
  assert (consts pg st np (slots p) (free p) (end_ p) p6) as Hco by (subst p6; rewrite Hs15; split; cbn; rewrite ?Hsh; done).
  split; try done.
  - cbn. lia.
  - cbn [lay len seg_ok]. split; [|done]. change (heap p6) with (heap p5). unfold A. replace (at_page pg 0) with pg by (unfold at_page; lia). rewrite Hpg5. split; [lia|]. split; [done|].
    assert (forall j, 0 < j < np -> heap p5 (at_page pg j) = Page 0 0 0) as Hidle.
    { intros j Hj. rewrite Ho5, Ho4 by (unfold at_page, sizeof_ngx_slab_page_t; lia). apply Hz. unfold np, pool_count in *. lia. }
    split; [intros H1; split; [by rewrite Hidle by lia|lia]|]. intros j Hj. unfold idle, A. by rewrite Hidle.
  - split; [|cbn; unfold A; by replace (at_page pg 0) with pg by (unfold at_page; lia)]. change (heap p6) with (heap p5). split.
    + cbn [linked]. rewrite Hfr5, Hpg5. cbn. split; [done|]. split; [lia|done].
    + constructor; [rewrite list_elem_of_singleton; lia|]. constructor; [apply not_elem_of_nil|constructor].
  - intros s Hs. change (heap p6) with (heap p5). split; [|done]. split; [|constructor; [apply not_elem_of_nil|constructor]]. cbn [linked]. unfold slot_head.
    rewrite Ho5, Ho4 by (unfold at_page, sizeof_ngx_slab_page_t; lia). rewrite Hzo by (intros j Hj; unfold at_page, sizeof_ngx_slab_page_t; lia). rewrite Hi1 by lia. done.
  - cbn. lia.
Qed.

(** ** Clients *)

(** The pool, and the blocks that clients hold, with the sizes they have asked for. *)
Definition clients : Type := slab_pool * list (Z * Z).

Inductive slab_step : clients -> clients -> Prop :=
  | step_alloc size p B a p' : 0 <= size -> ngx_slab_alloc_locked size p = Some (a, p') -> a <> NULL ->
      slab_step (p, B) (p', (a, size) :: B)
  | step_no_memory size p B p' : 0 <= size -> ngx_slab_alloc_locked size p = Some (NULL, p') -> slab_step (p, B) (p', B)
  | step_free p B1 b B2 : slab_step (p, B1 ++ b :: B2) (ngx_slab_free_locked b.1 p, B1 ++ B2).

(** What has been given for them. *)
Definition granted (b : Z * Z) : Z * Z := (b.1, block_size b.2).

Section Pool.
Context (pg st np sl fr en : Z).
Context (Hg : geometry pg st np sl fr en).
#[local] Abbreviation invariant := (invariant pg st np sl fr en).

(** The blocks in use are those of the list. *)
Definition slab_ok (p : slab_pool) (B : list (Z * Z)) : Prop :=
  exists segs fl ls, invariant p segs fl ls /\ B ≡ₚ blocks st 0 segs.

#[local] Instance slab_ok_perm : Proper ((=) ==> (≡ₚ) ==> iff) slab_ok.
Proof. intros p ? <- B B' HB. split; intros (segs & fl & ls & ? & ?); exists segs, fl, ls; (split; [done|]); [by rewrite <- HB|by rewrite HB]. Qed.

Lemma slab_ok_alloc p B size a p' : slab_ok p B -> 0 <= size -> ngx_slab_alloc_locked size p = Some (a, p') ->
  if a =? NULL then slab_ok p' B else slab_ok p' ((a, block_size size) :: B).
Proof.
  intros (segs & fl & ls & Hi & HB) Hs Ha. destruct (alloc_ok _ _ _ _ _ _ Hg _ _ _ _ _ Hi Hs) as (a' & q & Heq & Hres).
  rewrite Heq in Ha. injection Ha as -> ->. destruct Hres as [(-> & (fl' & ls' & Hi') & _)|(Hnn & segs' & fl' & ls' & Hi' & Hbl)].
  - by exists segs, fl', ls'.
  - rewrite (proj2 (Z.eqb_neq a NULL) Hnn). exists segs', fl', ls'. by rewrite Hbl, HB.
Qed.

Lemma slab_ok_free p B b : slab_ok p (b :: B) -> slab_ok (ngx_slab_free_locked b.1 p) B.
Proof.
  intros (segs & fl & ls & Hi & HB). assert (b ∈ blocks st 0 segs) as Hb by (rewrite <- HB; by left).
  destruct (free_ok _ _ _ _ _ _ Hg _ _ _ _ _ Hi Hb) as (segs' & fl' & ls' & Hi' & Hbl). exists segs', fl', ls'. split; [done|].
  rewrite Hbl in HB. by apply (inj (cons b)) in HB.
Qed.

Lemma block_aligned h w i segs b : lay pg st np h w i segs -> b ∈ blocks st i segs -> (8 | b.1).
Proof.
  intros Hl (l & g & r & -> & Hb)%collect_in. apply lay_app in Hl as [_ [Hok _]].
  assert (forall j, (8 | page_addr st j)) as Hp.
  { intros j. destruct Hg as [_ _ _ [q ->] _]. exists ((q + j) * 512). unfold page_addr, ngx_pagesize. lia. }
  destruct g as [k|k|s u]; cbn in Hb; [by apply elem_of_nil in Hb|apply list_elem_of_singleton in Hb as ->; apply Hp|].
  apply list_elem_of_fmap in Hb as (j & -> & _). cbn [fst]. apply Z.divide_add_r; [done|]. destruct Hok as (Hs & _).
  exists (j * 2 ^ (s - 3)). replace s with (s - 3 + 3) at 1 by lia. rewrite Z.pow_add_r by lia. change (2 ^ 3) with 8. lia.
Qed.

Lemma slab_ok_blocks p B : slab_ok p B -> apart B /\ forall b, b ∈ B -> st <= b.1 /\ b.1 + b.2 <= st + np * ngx_pagesize /\ 0 < b.2 /\ (8 | b.1).
Proof.
  intros (segs & fl & ls & Hi & HB). pose proof (inv_lay _ _ _ _ _ _ _ _ _ _ Hi) as Hl. pose proof (inv_total _ _ _ _ _ _ _ _ _ _ Hi) as Ht.
  split; [eapply apart_perm; [symmetry; exact HB|by eapply blocks_apart]|]. intros b Hb. rewrite HB in Hb.
  pose proof (block_aligned _ _ _ _ _ Hl Hb) as Hal. destruct (blocks_range _ _ _ _ _ _ _ _ Hl Hb) as (H1 & H2 & H3). rewrite Ht in H2. unfold page_addr in *.
  split; [lia|]. split; [lia|done].
Qed.

(** Without a block there is one run. *)
Lemma no_blocks h w i segs : lay pg st np h w i segs -> blocks st i segs = [] -> tight segs = true -> segs = [] \/ segs = [Free (total_len segs)].
Proof.
  revert i. induction segs as [|g segs IH]; intros i; [by left|]. intros [Hok Hl] Hb Ht. right. unfold blocks in Hb. cbn in Hb.
  apply app_eq_nil in Hb as [Hb1 Hb2]. rewrite tight_cons in Ht. apply andb_true_iff in Ht as [Ht Hsf].
  destruct g as [k|k|s u]; cbn in Hb1; [|done|].
  - destruct (IH _ Hl Hb2 Ht) as [->|Heq]; [cbn; by rewrite Z.add_0_r|]. rewrite Heq in Hsf. done.
  - exfalso. destruct Hok as (Hs & (_ & _ & j & Hj & Hbit) & _). apply fmap_nil_inv in Hb1.
    assert (j ∈ filter (fun j => Z.testbit u j = true) (seqZ (reserved s) (chunks s - reserved s))) as Hin.
    { apply list_elem_of_filter. split; [done|]. apply elem_of_seqZ. lia. }
    rewrite Hb1 in Hin. by apply elem_of_nil in Hin.
Qed.

Lemma slab_ok_empty p : slab_ok p [] -> exists fl ls, invariant p [Free np] fl ls.
Proof.
  intros (segs & fl & ls & Hi & HB). symmetry in HB. apply Permutation_nil_r in HB. destruct (no_blocks _ _ _ _ (inv_lay _ _ _ _ _ _ _ _ _ _ Hi) HB (inv_tight _ _ _ _ _ _ _ _ _ _ Hi)) as [->|Heq].
  - pose proof (inv_total _ _ _ _ _ _ _ _ _ _ Hi) as Ht. cbn in Ht. destruct Hg. lia.
  - rewrite (inv_total _ _ _ _ _ _ _ _ _ _ Hi) in Heq. rewrite Heq in Hi. by exists fl, ls.
Qed.

Lemma no_free_run h w i segs : lay pg st np h w i segs -> free_runs segs 1 -> free_len segs = 0.
Proof.
  revert i. induction segs as [|g segs IH]; intros i; [done|]. intros [Hok Hl] Hfr.
  assert (free_runs segs 1) as Hfr' by (intros k' Hk'; apply Hfr; by right).
  destruct g as [k| |]; cbn [free_len]; [|by eapply IH..]. exfalso. assert (k < 1) by (apply Hfr; by left). destruct Hok as (? & _). lia.
Qed.

Lemma slab_step_ok c c' : slab_step c c' -> slab_ok c.1 (granted <$> c.2) -> slab_ok c'.1 (granted <$> c'.2).
Proof.
  destruct 1 as [size p B a p' Hs Ha Hnn|size p B p' Hs Ha|p B1 b B2]; cbn [fst snd]; intros Hok.
  - pose proof (slab_ok_alloc _ _ _ _ _ Hok Hs Ha) as H. by rewrite (proj2 (Z.eqb_neq a NULL) Hnn) in H.
  - exact (slab_ok_alloc _ _ _ _ _ Hok Hs Ha).
  - rewrite fmap_app, fmap_cons, <- Permutation_middle, <- fmap_app in Hok. exact (slab_ok_free _ _ (granted b) Hok).
Qed.

Lemma slab_steps_ok c c' : rtc slab_step c c' -> slab_ok c.1 (granted <$> c.2) -> slab_ok c'.1 (granted <$> c'.2).
Proof. induction 1 as [|c c1 c2 Hs _ IH]; [done|]. intros Hok. by eapply IH, slab_step_ok. Qed.
End Pool.

(** The pools that clients can see. *)
Definition reachable (q : slab_pool) (p : slab_pool) (B : list (Z * Z)) : Prop := new_pool q /\ rtc slab_step (ngx_slab_init q, []) (p, B).

Lemma reachable_ok q p B : reachable q p B ->
  slab_ok (pool_pages q) (pool_start q) (pool_count q) (slots q) (free q) (end_ q) p (granted <$> B).
Proof.
  intros [Hn Hr]. destruct (new_geometry _ Hn) as [Hg _]. apply (slab_steps_ok _ _ _ _ _ _ Hg _ _ Hr).
  eexists _, _, _. split; [by apply slab_init_ok|done].
Qed.

(** ** A small pool *)

(** 12288 bytes, with room for two pages. *)
Definition sample_memory : slab_pool :=
  Pool (fun _ => Page 0 0 0) (fun _ => 0) (fun _ => Stat 0 0 0 0) 0 0 3 0 0 0 12288 128 64.

Lemma sample_memory_new : new_pool sample_memory.
Proof. split; cbn; [done|split; [by exists 16|by exists 8]|lia|unfold ngx_pagesize, sizeof_ngx_slab_page_t; lia]. Qed.

(** A client that allocates, if it can. *)
Definition client_alloc (size : Z) (c : clients) : clients :=
  match ngx_slab_alloc_locked size c.1 with
  | Some (a, p) => if a =? NULL then (p, c.2) else (p, (a, size) :: c.2)
  | None => c
  end.

Lemma client_alloc_steps q c size : reachable q c.1 c.2 -> 0 <= size -> reachable q (client_alloc size c).1 (client_alloc size c).2.
Proof.
  destruct c as [p B]. cbn [fst snd]. intros [Hn Hr] Hs. split; [done|]. unfold client_alloc. cbn [fst snd].
  destruct (ngx_slab_alloc_locked size p) as [[a p']|] eqn:Ha; [|done]. eapply rtc_r; [exact Hr|].
  destruct (Z.eqb_spec a NULL) as [->|]; [by eapply step_no_memory|by eapply step_alloc].
Qed.

Lemma reachable_new q : new_pool q -> reachable q (ngx_slab_init q) [].
Proof. intros Hn. split; [done|apply rtc_refl]. Qed.

Lemma client_free q p b : reachable q p [b] -> reachable q (ngx_slab_free_locked b.1 p) [].
Proof. intros [Hn Hr]. split; [done|]. eapply rtc_r; [exact Hr|]. apply (step_free p [] b []). Qed.

Definition sample_client : clients := client_alloc 100 (ngx_slab_init sample_memory, []).
Definition sample_clients : clients := client_alloc 8 (client_alloc 2048 (client_alloc 64 sample_client)).

Lemma sample_client_reachable : reachable sample_memory sample_client.1 sample_client.2.
Proof. apply (client_alloc_steps sample_memory (ngx_slab_init sample_memory, []) 100); [|lia]. apply (reachable_new _ sample_memory_new). Qed.

Lemma sample_clients_reachable : reachable sample_memory sample_clients.1 sample_clients.2.
Proof. unfold sample_clients. apply client_alloc_steps; [|lia]. apply client_alloc_steps; [|lia]. apply client_alloc_steps; [|lia]. apply sample_client_reachable. Qed.

(** The third and the fourth size find no page. *)
Example sample_clients_blocks : sample_clients.2 = [(8192, 64); (4096, 100)].
Proof. vm_compute. reflexivity. Qed.

(** ** What clients can rely on *)

(** C14. Whatever clients allocate and free, the blocks they hold are pairwise
    disjoint, lie between [start] and [end], are aligned to 8 bytes and are as
    large as has been asked for. *)
Theorem slab_blocks_apart q p B : reachable q p B ->
  apart (granted <$> B) /\ forall b, b ∈ B -> start p <= b.1 /\ b.1 + block_size b.2 <= end_ p /\ (8 | b.1) /\ (0 <= b.2 -> b.2 <= block_size b.2).
Proof.
  intros Hr. pose proof (reachable_ok _ _ _ Hr) as Hok. destruct Hr as [Hn _]. destruct (new_geometry _ Hn) as [Hg _].
  destruct (slab_ok_blocks _ _ _ _ _ _ Hg _ _ Hok) as [Ha Hb]. split; [done|]. intros b Hin.
  destruct (Hb (granted b)) as (H1 & H2 & _ & H3); [by apply list_elem_of_fmap_2|]. destruct Hok as (segs & fl & ls & Hi & _).
  destruct (inv_consts _ _ _ _ _ _ _ _ _ _ Hi) as [_ _ [-> ->] _]. pose proof (geo_end _ _ _ _ _ _ Hg) as He. unfold granted in H1, H2, H3. cbn [fst snd] in H1, H2, H3.
  split; [done|]. split; [lia|]. split; [done|]. intros H0. by apply block_size_ge.
Qed.

(** C16. An allocation returns, and one of at most half a page fails only if
    no page is free. *)
Theorem slab_alloc_returns q p B size : reachable q p B -> 0 <= size ->
  exists a p', ngx_slab_alloc_locked size p = Some (a, p') /\ (a = NULL -> size <= ngx_slab_max_size -> pfree p = 0).
Proof.
  intros Hr Hs. pose proof (reachable_ok _ _ _ Hr) as Hok. destruct Hr as [Hn _]. destruct (new_geometry _ Hn) as [Hg _].
  destruct Hok as (segs & fl & ls & Hi & _). destruct (alloc_ok _ _ _ _ _ _ Hg _ _ _ _ _ Hi Hs) as (a & p' & Heq & Hres).
  exists a, p'. split; [done|]. intros Ha Hsz. destruct Hres as [(_ & _ & Hfr)|(Hnn & _)]; [|done].
  rewrite (proj2 (Z.ltb_ge ngx_slab_max_size size)) in Hfr by done. rewrite (inv_pfree _ _ _ _ _ _ _ _ _ _ Hi).
  eapply no_free_run; [apply Hi|done].
Qed.

(** C15. When clients hold no block, all pages are free, and they are one run:
    a block of all of them can be allocated. *)
Theorem slab_all_free q p : reachable q p [] -> pfree p = pool_count q /\
  exists p', ngx_slab_alloc_locked (pool_count q * ngx_pagesize) p = Some (start p, p').
Proof.
  intros Hr. pose proof (reachable_ok _ _ _ Hr) as Hok. destruct Hr as [Hn _]. destruct (new_geometry _ Hn) as [Hg _].
  set (np := pool_count q) in *. assert (0 < np) as Hnp by apply Hg. destruct (slab_ok_empty _ _ _ _ _ _ Hg _ Hok) as (fl & ls & Hi).
  split; [rewrite (inv_pfree _ _ _ _ _ _ _ _ _ _ Hi); cbn; lia|].
  assert (0 <= np * ngx_pagesize) as H0 by (unfold ngx_pagesize; lia).
  assert (ngx_slab_max_size < np * ngx_pagesize) as Hmax by (change ngx_slab_max_size with 2048; unfold ngx_pagesize; lia).
  assert (size_pages (np * ngx_pagesize) = np) as Hsp by (pose proof (size_pages_ok _ H0); unfold ngx_pagesize in *; lia).
  destruct (alloc_ok _ _ _ _ _ _ Hg _ _ _ _ _ Hi H0) as (a & p' & Heq & Hres). exists p'. rewrite Heq. do 2 f_equal.
  rewrite (proj2 (Z.ltb_lt _ _) Hmax) in Hres. rewrite Hsp in Hres. destruct Hres as [(_ & _ & Hfr)|(_ & segs' & fl' & ls' & Hi' & Hbl)].
  - assert (np < np); [|lia]. apply Hfr. by left.
  - destruct (blocks_range _ _ _ _ _ _ _ (a, block_size (np * ngx_pagesize)) (inv_lay _ _ _ _ _ _ _ _ _ _ Hi')) as (H1 & H2 & _); [rewrite Hbl; by left|].
    cbn [fst snd] in *. rewrite (inv_total _ _ _ _ _ _ _ _ _ _ Hi') in H2. unfold block_size in H2. rewrite (proj2 (Z.ltb_lt _ _) Hmax), Hsp in H2.
    destruct (inv_consts _ _ _ _ _ _ _ _ _ _ Hi) as [_ _ [Hst _] _]. unfold page_addr in *. f_equal. lia.
Qed.

Lemma slab_blocks_apart_witness : reachable sample_memory sample_clients.1 sample_clients.2 /\ apart (granted <$> sample_clients.2) /\
  forall b, b ∈ sample_clients.2 -> start sample_clients.1 <= b.1 /\ b.1 + block_size b.2 <= end_ sample_clients.1 /\ (8 | b.1) /\ (0 <= b.2 -> b.2 <= block_size b.2).
Proof. split; [apply sample_clients_reachable|]. apply (slab_blocks_apart sample_memory), sample_clients_reachable. Defined.

Lemma slab_alloc_returns_witness : exists a p', ngx_slab_alloc_locked 8 sample_clients.1 = Some (a, p') /\ (a = NULL -> 8 <= ngx_slab_max_size -> pfree sample_clients.1 = 0).
Proof. apply (slab_alloc_returns sample_memory _ sample_clients.2); [apply sample_clients_reachable|lia]. Defined.

Lemma slab_all_free_witness : pfree (ngx_slab_free_locked 4096 sample_client.1) = pool_count sample_memory /\
  exists p', ngx_slab_alloc_locked (pool_count sample_memory * ngx_pagesize) (ngx_slab_free_locked 4096 sample_client.1) =
    Some (start (ngx_slab_free_locked 4096 sample_client.1), p').
Proof.
  apply slab_all_free. apply (client_free _ _ (4096, 100)). pose proof sample_client_reachable as Hr.
  assert (sample_client.2 = [(4096, 100)]) as Hb by (vm_compute; reflexivity). rewrite Hb in Hr. exact Hr.
Defined.
