(* ===== verification/NgxSlabErrors.v ===== *)
(** * NgxSlabErrors: frees that are refused

    An address that is not that of a block in use is refused, and the pool does
    not change: outside of the pool, inside a block or a chunk, a page or a
    chunk that is free already.  The chunks of a bit map are not told from
    those in use. *)

From S2P Require Import Prelude NgxSprintf NgxSlab NgxSlabLayout NgxSlabSegs NgxSlabPages NgxSlabFree NgxSlabChunks NgxSlabBits NgxSlabAlloc NgxSlabTake NgxSlabGive NgxSlabSpec.

(** The page of an address, and whether it is in the bit map of a page of small chunks. *)
Definition page_of (p : slab_pool) (a : Z) : Z := at_page (pages p) (Z.shiftr (a - start p) ngx_pagesize_shift).
Definition in_bitmap (p : slab_pool) (a : Z) : bool :=
  let page := page_of p a in
  if ngx_slab_page_type page p =? NGX_SLAB_SMALL then
    Z.shiftr (Z.land a (ngx_pagesize - 1)) (slab (heap p page)) <? map_chunks (slab (heap p page))
  else false.

Section Pool.
Context (pg st np sl fr en : Z).
Context (Hg : geometry pg st np sl fr en).
#[local] Abbreviation A := (A pg).
#[local] Abbreviation invariant := (invariant pg st np sl fr en).
#[local] Abbreviation consts := (consts pg st np sl fr en).

Lemma seg_at h w segs i j : lay pg st np h w i segs -> i <= j < i + total_len segs ->
  exists l g r, segs = l ++ g :: r /\ i + total_len l <= j < i + total_len l + len g.
Proof.
  revert i. induction segs as [|g segs IH]; intros i; cbn [total_len]; [lia|]. intros [_ Hl] Hj.
  destruct (decide (j < i + len g)) as [Hlt|Hge]; [exists [], g, segs; cbn; split; [done|lia]|].
  destruct (IH _ Hl) as (l & g' & r & -> & Hr); [lia|]. exists (g :: l), g', r. cbn. split; [done|lia].
Qed.

Lemma page_of_ok p i off : consts p -> 0 <= off < ngx_pagesize -> page_of p (page_addr st i + off) = A i.
Proof.
  intros [_ [Hpg _] [Hst _] _] Ho. unfold page_of. rewrite Hpg, Hst. f_equal. rewrite Z.shiftr_div_pow2 by done. change (2 ^ ngx_pagesize_shift) with ngx_pagesize.
  unfold page_addr. replace (st + i * ngx_pagesize + off - st) with (off + i * ngx_pagesize) by lia. rewrite Z.div_add, Z.div_small by done. lia.
Qed.

(** A page that is not of chunks. *)
Lemma refuse_page p i off : consts p -> 0 <= i < np -> 0 <= off < ngx_pagesize -> ngx_slab_page_type (A i) p = NGX_SLAB_PAGE ->
  (off = 0 -> Z.testbit (slab (heap p (A i))) 63 = false \/ slab (heap p (A i)) = NGX_SLAB_PAGE_BUSY) ->
  ngx_slab_free_locked (page_addr st i + off) p = p.
Proof.
  intros Hco Hi Ho Hty Hs. rewrite (free_page_of _ _ _ _ _ _ Hg) by done. rewrite Hty. cbv zeta.
  change (NGX_SLAB_PAGE =? NGX_SLAB_SMALL) with false. change (NGX_SLAB_PAGE =? NGX_SLAB_EXACT) with false. change (NGX_SLAB_PAGE =? NGX_SLAB_BIG) with false. cbn iota.
  unfold free_page. destruct (addr_low _ _ _ _ _ _ Hg i off) as [-> _]; [done|done|]. destruct (Z.eqb_spec off 0) as [->|]; [|done]. cbn [negb].
  change NGX_SLAB_PAGE_START with (Z.shiftl 1 63) at 1. rewrite <- (negb_involutive (Z.land _ _ =? 0)), land_bit by lia.
  destruct (Hs eq_refl) as [->| ->]; [done|]. change (Z.testbit NGX_SLAB_PAGE_BUSY 63) with true. cbn [negb]. by rewrite Z.eqb_refl.
Qed.

(** The number of the chunk of an address. *)
Lemma chunk_of i off s : 0 <= i < np -> 3 <= s < 12 -> 0 <= off < ngx_pagesize ->
  Z.land (page_addr st i + off) (Z.shiftl 1 s - 1) = 0 -> exists k, off = k * 2 ^ s /\ 0 <= k < chunks s.
Proof.
  intros Hi Hs Ho Hz. destruct (chunk_range s Hs) as (_ & H2 & Hc & _). rewrite Z.shiftl_1_l, land_ones_mod in Hz by lia.
  assert (page_addr st i mod 2 ^ s = 0) as Hp.
  { unfold page_addr. destruct Hg as [_ _ _ [q ->] _]. rewrite <- Z.mul_add_distr_r, <- Hc, Z.mul_assoc. apply Z.mod_mul. lia. }
  rewrite Z.add_mod, Hp, Z.add_0_l, Z.mod_mod in Hz by lia. pose proof (Z.div_mod off (2 ^ s) ltac:(lia)) as Hd. rewrite Hz in Hd.
  exists (off / 2 ^ s). split; [lia|]. split; [apply Z.div_pos; lia|]. apply Z.div_lt_upper_bound; [lia|]. lia.
Qed.

(** A page of chunks: an aligned address is that of a chunk that is not in use. *)
Lemma refuse_chunk p l s u r fl ls off : invariant p (l ++ Chunks s u :: r) fl ls -> 0 <= off < ngx_pagesize ->
  (forall k, off = k * 2 ^ s -> 0 <= k < chunks s -> Z.testbit u k = false) ->
  ngx_slab_free_locked (page_addr st (total_len l) + off) p = p.
Proof.
  intros Hi Ho Hk. apply page_bounds in Hi as Hbd. cbn [len] in Hbd. pose proof (inv_consts _ _ _ _ _ _ _ _ _ _ Hi) as Hco.
  pose proof (inv_lay _ _ _ _ _ _ _ _ _ _ Hi) as Hl. apply lay_app in Hl as [_ [(Hs & Hm & Hb & _) _]]. rewrite Z.add_0_l in Hb.
  set (i := total_len l) in *. rewrite (free_page_of _ _ _ _ _ _ Hg) by (done || lia). cbv zeta. unfold i. rewrite (seg_type _ _ _ _ _ _ Hg _ _ _ _ _ _ _ Hi). fold i.
  set (a := page_addr st i + off).
  assert (Hbit : Z.land a (Z.shiftl 1 s - 1) = 0 -> 0 <= Z.shiftr (Z.land a (ngx_pagesize - 1)) s < chunks s /\ Z.testbit u (Z.shiftr (Z.land a (ngx_pagesize - 1)) s) = false).
  { intros Hz. destruct (chunk_of i off s) as (k & Heq & Hkr); [lia|done|done|done|]. destruct (chunk_addr _ _ _ _ _ _ Hg i s k) as (_ & Ha & _); [lia|done|done|].
    subst a. rewrite Heq in *. rewrite Ha. split; [done|]. by apply Hk. }
  destruct (chunk_range s Hs) as (_ & _ & _ & Hkind). unfold chunk_type. change ngx_slab_exact_shift with 6. unfold bits in Hb. change ngx_slab_exact_shift with 6 in Hb.
  destruct (Z.ltb_spec s 6) as [Hlt|Hge]; [|destruct (Z.eqb_spec s 6) as [->|Hne]].
  - change (NGX_SLAB_SMALL =? NGX_SLAB_SMALL) with true. cbn iota. destruct Hb as [Hsl Hw]. unfold free_small. rewrite Hsl, low_shift by done.
    destruct (Z.eqb_spec (Z.land a (Z.shiftl 1 s - 1)) 0) as [Hz|]; [|done]. cbn [negb]. destruct (Hbit Hz) as [Hr Hcl]. set (k := Z.shiftr (Z.land a (ngx_pagesize - 1)) s) in *.
    subst a. destruct (addr_low _ _ _ _ _ _ Hg i off) as [_ ->]; [lia|done|]. change (sizeof_uintptr_t * 8) with 64.
    assert (0 <= k / 64 < map_words s) as Hn by (split; [apply Z.div_pos; lia|apply Z.div_lt_upper_bound; lia]).
    pose proof (Z.mod_pos_bound k 64 ltac:(lia)). rewrite land_bit by lia. change (page_addr st i) with (st + i * ngx_pagesize). rewrite (Hw _ Hn).
    fold (word u (k / 64)). rewrite word_bits by lia. rewrite (proj2 (Z.ltb_lt (k mod 64) 64)) by lia. rewrite <- Z.div_mod, Hcl by lia. done.
  - change (NGX_SLAB_EXACT =? NGX_SLAB_SMALL) with false. change (NGX_SLAB_EXACT =? NGX_SLAB_EXACT) with true. cbn iota. unfold free_exact.
    change ngx_slab_exact_size with (Z.shiftl 1 6). change ngx_slab_exact_shift with 6.
    destruct (Z.eqb_spec (Z.land a (Z.shiftl 1 6 - 1)) 0) as [Hz|]; [|done]. cbn [negb]. destruct (Hbit Hz) as [Hr Hcl]. rewrite Hb, land_bit, Hcl by lia. done.
  - change (NGX_SLAB_BIG =? NGX_SLAB_SMALL) with false. change (NGX_SLAB_BIG =? NGX_SLAB_EXACT) with false. change (NGX_SLAB_BIG =? NGX_SLAB_BIG) with true. cbn iota.
    assert (0 <= u < 2 ^ 32) as Hu by (destruct Hm as [? _]; assert (2 ^ chunks s <= 2 ^ 32) by (apply Z.pow_le_mono_r; lia); lia).
    unfold free_big. rewrite Hb, big_shift by lia.
    destruct (Z.eqb_spec (Z.land a (Z.shiftl 1 s - 1)) 0) as [Hz|]; [|done]. cbn [negb]. destruct (Hbit Hz) as [Hr Hcl].
    set (k := Z.shiftr (Z.land a (ngx_pagesize - 1)) s) in *. change NGX_SLAB_MAP_SHIFT with 32. rewrite land_bit, pack_bits by lia.
    rewrite (proj2 (Z.ltb_ge (k + 32) 32)) by lia. replace (k + 32 - 32) with k by lia. by rewrite Hcl.
Qed.

Lemma refuse p segs fl ls a : invariant p segs fl ls -> st <= a < st + np * ngx_pagesize ->
  (forall b, b ∈ blocks st 0 segs -> b.1 <> a) -> in_bitmap p a = false -> ngx_slab_free_locked a p = p.
Proof.
  intros Hi Ha Hnb Hbm. set (i := (a - st) / ngx_pagesize). set (off := (a - st) mod ngx_pagesize).
  assert (a = page_addr st i + off /\ 0 <= off < ngx_pagesize /\ 0 <= i < np) as (Heq & Ho & Hir).
  { pose proof (Z.div_mod (a - st) ngx_pagesize ltac:(done)) as Hd. pose proof (Z.mod_pos_bound (a - st) ngx_pagesize ltac:(done)) as Hm. fold i off in Hd, Hm.
    unfold page_addr, ngx_pagesize in *. split; [lia|]. split; [lia|]. split; lia. }
  pose proof (inv_consts _ _ _ _ _ _ _ _ _ _ Hi) as Hco. pose proof (inv_lay _ _ _ _ _ _ _ _ _ _ Hi) as Hl.
  destruct (seg_at _ _ _ _ i Hl) as (l & g & r & -> & Hj); [rewrite (inv_total _ _ _ _ _ _ _ _ _ _ Hi); lia|]. rewrite Z.add_0_l in Hj.
  assert (forall b, b ∈ seg_blocks st (total_len l) g -> b.1 <> a) as Hng.
  { intros b Hb. apply Hnb. apply collect_in. exists l, g, r. by rewrite Z.add_0_l. }
  assert (Hl' := Hl). apply lay_app in Hl' as [_ [Hok _]]. rewrite Z.add_0_l in Hok. rewrite Heq. pose proof (np_small _ _ _ _ _ _ Hg) as Hns. apply page_bounds in Hi as Hbd.
  destruct g as [k|k|s u]; cbn [len] in *.
  - destruct Hok as (_ & Hk & _ & Hidle). apply refuse_page; [done|done|done|..]; destruct (decide (i = total_len l)) as [Hil|Hil].
    + rewrite Hil. unfold ngx_slab_page_type. destruct (inv_free _ _ _ _ _ _ _ _ _ _ Hi) as [Hd Hp]. pose proof (free_aligned _ _ _ _ _ _ Hg _ _ _ _ Hi) as Hal.
      destruct (member_prev _ _ _ _ (A (total_len l)) Hd) as (x & Hx & -> & _); [|apply (tag_type x 0); [by eapply aligned_in|lia]].
      rewrite Hp. unfold frees. rewrite collect_app. apply elem_of_app. right. by left.
    + destruct (Hidle (i - total_len l)) as [_ H2]; [lia|]. by replace (total_len l + (i - total_len l)) with i in H2 by lia.
    + intros _. left. rewrite Hil, Hk. apply (small_bits k 63); lia.
    + intros _. left. destruct (Hidle (i - total_len l)) as [H1 _]; [lia|]. replace (total_len l + (i - total_len l)) with i in H1 by lia. by rewrite H1.
  - destruct Hok as (_ & Hk & Hbusy). apply refuse_page; [done|done|done|..]; destruct (decide (i = total_len l)) as [Hil|Hil].
    + unfold ngx_slab_page_type. by rewrite Hil, Hk.
    + specialize (Hbusy (i - total_len l) ltac:(lia)). replace (total_len l + (i - total_len l)) with i in Hbusy by lia. unfold ngx_slab_page_type. by rewrite Hbusy.
    + intros ->. exfalso. apply (Hng (page_addr st (total_len l), k * ngx_pagesize)); [by left|]. cbn. rewrite Heq, Hil. lia.
    + intros _. right. specialize (Hbusy (i - total_len l) ltac:(lia)). replace (total_len l + (i - total_len l)) with i in Hbusy by lia. by rewrite Hbusy.
  - assert (i = total_len l) as Hil by lia. rewrite Hil. apply (refuse_chunk p l s u r fl ls); [done|done|]. intros k Hk Hkr.
    destruct (Z.testbit u k) eqn:Hbit; [exfalso|done]. destruct Hok as (Hs & _ & Hb & _). destruct (chunk_range s Hs) as ([H0 _] & _).
    destruct (decide (k < reserved s)) as [Hlt|Hge].
    + unfold in_bitmap in Hbm. rewrite Heq, page_of_ok, Hil in Hbm by done. rewrite (seg_type _ _ _ _ _ _ Hg _ _ _ _ _ _ _ Hi) in Hbm.
      destruct (chunk_addr _ _ _ _ _ _ Hg (total_len l) s k) as (_ & Hsh & _); [lia|done|done|]. rewrite <- Hk in Hsh.
      unfold reserved in Hlt. destruct (Z.ltb_spec s 6) as [H6|]; [|lia]. apply bits_small in Hb as [Hsl _]; [|done]. rewrite small_type in Hbm by done.
      rewrite Hsl, Hsh in Hbm. rewrite (proj2 (Z.ltb_lt k (map_chunks s)) Hlt) in Hbm. done.
    + apply (Hng (page_addr st (total_len l) + k * 2 ^ s, 2 ^ s)); [|cbn; rewrite Heq, Hil, Hk; done].
      unfold seg_blocks. apply (list_elem_of_fmap_2 (fun j => (page_addr st (total_len l) + j * 2 ^ s, 2 ^ s))). apply list_elem_of_filter. split; [done|]. apply elem_of_seqZ. lia.
Qed.
End Pool.

(** C17. A free of an address that no client holds changes nothing, unless the
    address is in the bit map of a page, or is one of the bytes after the last page. *)
Theorem slab_free_other q p B a : reachable q p B -> (forall b, b ∈ B -> b.1 <> a) -> in_bitmap p a = false ->
  a < start p + pool_count q * ngx_pagesize \/ end_ p < a -> ngx_slab_free_locked a p = p.
Proof.
  intros Hr Hnb Hbm Ha. pose proof (reachable_ok _ _ _ Hr) as Hok. destruct Hr as [Hn _]. destruct (new_geometry _ Hn) as [Hg _].
  destruct Hok as (segs & fl & ls & Hi & HB). destruct (inv_consts _ _ _ _ _ _ _ _ _ _ Hi) as [_ _ [Hst Hen] _]. rewrite Hst, Hen in Ha.
  destruct (decide (a < pool_start q \/ end_ q < a)) as [Hout|Hin].
  - unfold ngx_slab_free_locked. rewrite Hst, Hen. destruct Hout as [?|?]; [by rewrite (proj2 (Z.ltb_lt a (pool_start q)))|].
    rewrite (proj2 (Z.ltb_lt (end_ q) a)) by done. by rewrite orb_true_r.
  - apply (refuse _ _ _ _ _ _ Hg p segs fl ls a Hi); [lia| |done]. intros b Hb. rewrite <- HB in Hb. apply list_elem_of_fmap in Hb as (b' & -> & Hb'). exact (Hnb b' Hb').
Qed.

(** The next chunk of the page is free. *)
Lemma slab_free_other_witness : ngx_slab_free_locked 4224 sample_client.1 = sample_client.1.
Proof.
  apply (slab_free_other sample_memory _ sample_client.2); [apply sample_client_reachable| |vm_compute; reflexivity|left; vm_compute; reflexivity].
  assert (sample_client.2 = [(4096, 100)]) as -> by (vm_compute; reflexivity). intros b ->%list_elem_of_singleton. cbn. lia.
Defined.

(** A free of the first address of a page of small chunks, which is that of its
    bit map, is not refused: the next allocation gives the bit map to a client. *)
Example slab_free_bitmap :
  match ngx_slab_alloc_locked 8 (ngx_slab_init sample_memory) with
  | Some (a, p) => match ngx_slab_alloc_locked 8 (ngx_slab_free_locked 4096 p) with Some (a', _) => Some (a, a') | None => None end
  | None => None
  end = Some (4160, 4096).
Proof. vm_compute. reflexivity. Qed.
