(* ===== verification/HttpLimitReq.v ===== *)
(** * HttpLimitReq: limiting the rate of requests

    http/modules/ngx_http_limit_req_module.c: the lookup of a key in a zone of
    shared memory, the account of a request, the removal of old entries, and
    the handler.  A zone is a red-black tree (NgxRbtree), a queue in the order
    of use (NgxQueue), both through nodes from a slab allocator. *)

From stdpp Require Import gmap.
From S2P Require Import Prelude NgxSprintf NgxRbtree NgxQueue NgxCrc32.

(** ** The allocator

    What the module relies on of core/ngx_slab.c: a block that is allocated is
    as large as it has to be and lies apart from those in use, until it is
    freed.  HttpLimitReqSlab shows that NgxSlab does this. *)

Class Slab := {
  pool : Type;
  slab_blocks : pool -> list (Z * Z) -> Prop;
  ngx_slab_alloc_locked : pool -> Z -> option Z * pool;
  ngx_slab_free_locked : pool -> Z -> pool;
  slab_alloc_some p B size a p' : slab_blocks p B -> 0 <= size -> ngx_slab_alloc_locked p size = (Some a, p') ->
    exists n, size <= n /\ 0 < a < 2 ^ 64 /\ Forall (separate (a, n)) B /\ slab_blocks p' ((a, n) :: B);
  slab_alloc_none p B size p' : slab_blocks p B -> 0 <= size -> ngx_slab_alloc_locked p size = (None, p') -> slab_blocks p' B;
  slab_free p B b : slab_blocks p (b :: B) -> slab_blocks (ngx_slab_free_locked p b.1) B;
  slab_perm p B B' : B ≡ₚ B' -> slab_blocks p B -> slab_blocks p B'
}.

(** ** Data *)

(** The entry of a key; [data] is [data] with [len]. *)
(* http/modules/ngx_http_limit_req_module.c:13-23 ngx_http_limit_req_node_t *)
Record lr_node : Type := Lr { lr_data : list Z; lr_last : Z; lr_excess : Z; lr_count : Z }.

(** The shared memory of a zone.  A node stands for its part of the tree, its
    part of the queue and its entry, which exists as long as the block. *)
(* http/modules/ngx_http_limit_req_module.c:26-30 ngx_http_limit_req_shctx_t *)
Record zone `{Slab} : Type := Zone { z_tree : state; z_queue : links; z_lr : gmap Z lr_node; z_pool : pool }.

Section Zone.
Context `{Slab}.

Definition set_tree (st : state) (z : zone) : zone := Zone _ st (z_queue z) (z_lr z) (z_pool z).
Definition set_queue (q : links) (z : zone) : zone := Zone _ (z_tree z) q (z_lr z) (z_pool z).
Definition set_lr (a : Z) (lr : lr_node) (z : zone) : zone := Zone _ (z_tree z) (z_queue z) (<[a := lr]> (z_lr z)) (z_pool z).
Definition set_pool (p : pool) (z : zone) : zone := Zone _ (z_tree z) (z_queue z) (z_lr z) p.

Definition NGX_BUSY : Z := -3.

(** [memcmp]: the first difference. *)
Fixpoint ngx_memcmp (s1 s2 : list Z) (n : nat) : Z :=
  match n, s1, s2 with
  | S n, x :: s1, y :: s2 => if x =? y then ngx_memcmp s1 s2 n else x - y
  | _, _, _ => 0
  end.

(* core/ngx_string.c:805-827 ngx_memn2cmp *)
Definition ngx_memn2cmp (s1 s2 : list Z) : Z :=
  let n1 := length s1 in
  let n2 := length s2 in
  let '(n, z) := if (n1 <=? n2)%nat then (n1, -1) else (n2, 1) in
  let m := ngx_memcmp s1 s2 n in
  if negb (m =? 0) || (n1 =? n2)%nat then m else z.

Definition data_of (m : gmap Z lr_node) (a : Z) : list Z :=
  match m !! a with Some lr => lr_data lr | None => [] end.

(** The order of two nodes with their keys, the hashes. *)
(* http/modules/ngx_http_limit_req_module.c:327-342 ngx_http_limit_req_rbtree_insert_value: p *)
Definition limit_req_less (m : gmap Z lr_node) (x y : Z * Z) : bool :=
  if x.2 <? y.2 then true
  else if y.2 <? x.2 then false
  else ngx_memn2cmp (data_of m x.1) (data_of m y.1) <? 0.

Section Operations.
(** [&ctx->sh->sentinel], [&ctx->sh->queue] and [ctx->rate]. *)
Context (s qh rate : Z).

(* http/modules/ngx_http_limit_req_module.c:318-356 ngx_http_limit_req_rbtree_insert_value *)
Definition ngx_http_limit_req_rbtree_insert_value (m : gmap Z lr_node) := insert_with s (limit_req_less m).

(** The excess of an entry after the time since its last request. *)
(* http/modules/ngx_http_limit_req_module.c:400-406 ngx_http_limit_req_lookup: excess *)
Definition drained (lr : lr_node) (now : Z) : Z :=
  let ms := s64 (u64 (now - lr_last lr)) in
  let excess := s64 (u64 (lr_excess lr - u64 (rate * Z.abs ms) / 1000 + 1000)) in
  if excess <? 0 then 0 else excess.

(* http/modules/ngx_http_limit_req_module.c:571-605 ngx_http_limit_req_expire: the body of the loop *)
Definition expire_turn (now n q : Z) (z : zone) : option (bool * zone) :=
  lr ← z_lr z !! q;
  if negb (lr_count lr =? 0) then Some (false, z)
  else
    let keep :=
      if negb (n =? 0) then
        let ms := Z.abs (s64 (u64 (now - lr_last lr))) in
        if ms <? 60000 then true
        else 0 <? s64 (u64 (lr_excess lr - u64 (rate * ms) / 1000))
      else false in
    if keep then Some (false, z)
    else
      let z := set_queue (ngx_queue_remove q (z_queue z)) z in
      st ← ngx_rbtree_delete s q (z_tree z);
      let z := set_tree st z in
      Some (true, Zone _ (z_tree z) (z_queue z) (delete q (z_lr z)) (ngx_slab_free_locked (z_pool z) q)).

(* http/modules/ngx_http_limit_req_module.c:561-605 ngx_http_limit_req_expire: while *)
Fixpoint expire_loop (fuel : nat) (now n : Z) (z : zone) : option zone :=
  match fuel with
  | O => None
  | S fuel =>
      if n <? 3 then
        if ngx_queue_empty qh (z_queue z) then Some z
        else
          let q := ngx_queue_last qh (z_queue z) in
          '(go, z) ← expire_turn now n q z;
          if go : bool then expire_loop fuel now (n + 1) z else Some z
      else Some z
  end.

(* http/modules/ngx_http_limit_req_module.c:543-606 ngx_http_limit_req_expire *)
Definition ngx_http_limit_req_expire (now n : Z) (z : zone) : option zone := expire_loop 4 now n z.

(** Down the tree to the entry of the key: [Some None] if there is none. *)
(* http/modules/ngx_http_limit_req_module.c:378-428 ngx_http_limit_req_lookup: while *)
Fixpoint search_loop (fuel : nat) (hash : Z) (key_ : list Z) (node : Z) (z : zone) : option (option Z) :=
  match fuel with
  | O => None
  | S fuel =>
      if node =? s then Some None
      else if hash <? key (z_tree z) node then search_loop fuel hash key_ (child L (z_tree z) node) z
      else if key (z_tree z) node <? hash then search_loop fuel hash key_ (child R (z_tree z) node) z
      else
        lr ← z_lr z !! node;
        let rc := ngx_memn2cmp key_ (lr_data lr) in
        if rc =? 0 then Some (Some node)
        else search_loop fuel hash key_ (child (if rc <? 0 then L else R) (z_tree z) node) z
  end.

(** What a lookup returns: the code, [*ep], the zone, and the node that
    [ctx->node] is set to. *)
Definition result : Type := Z * Z * zone * option Z.

(* http/modules/ngx_http_limit_req_module.c:396-425 ngx_http_limit_req_lookup: if (rc == 0) *)
Definition lookup_found (burst now : Z) (account : bool) (node : Z) (z : zone) : option result :=
  lr ← z_lr z !! node;
  let z := set_queue (ngx_queue_insert_head qh node (ngx_queue_remove node (z_queue z))) z in
  let excess := drained lr now in
  if burst <? excess then Some (NGX_BUSY, excess, z, None)
  else if account then Some (NGX_OK, excess, set_lr node (Lr (lr_data lr) now excess (lr_count lr)) z, None)
  else Some (NGX_AGAIN, excess, set_lr node (Lr (lr_data lr) (lr_last lr) (lr_excess lr) (u64 (lr_count lr + 1))) z, Some node).

(* http/modules/ngx_http_limit_req_module.c:451-475 ngx_http_limit_req_lookup: the new node *)
Definition new_node (hash : Z) (key_ : list Z) (now : Z) (account : bool) (node : Z) (z : zone) : option result :=
  let z := set_tree (set_key node hash (z_tree z)) z in
  let lr := if account then Lr (take (Z.to_nat (u16 (Z.of_nat (length key_)))) key_) now 0 0
            else Lr (take (Z.to_nat (u16 (Z.of_nat (length key_)))) key_) 0 0 1 in
  let z := set_lr node lr z in
  st ← ngx_rbtree_insert s (ngx_http_limit_req_rbtree_insert_value (z_lr z)) node (z_tree z);
  let z := set_tree st z in
  let z := set_queue (ngx_queue_insert_head qh node (z_queue z)) z in
  if account then Some (NGX_OK, 0, z, None) else Some (NGX_AGAIN, 0, z, Some node).

(** 32 and 48 are the offsets of [color] and [data]. *)
(* http/modules/ngx_http_limit_req_module.c:430-449 ngx_http_limit_req_lookup: node *)
Definition allocate (now : Z) (key_ : list Z) (z : zone) : option (option Z * zone) :=
  let size := 32 + 48 + Z.of_nat (length key_) in
  z ← ngx_http_limit_req_expire now 1 z;
  let '(node, p) := ngx_slab_alloc_locked (z_pool z) size in
  let z := set_pool p z in
  match node with
  | Some node => Some (Some node, z)
  | None =>
      z ← ngx_http_limit_req_expire now 0 z;
      let '(node, p) := ngx_slab_alloc_locked (z_pool z) size in
      Some (node, set_pool p z)
  end.

(* http/modules/ngx_http_limit_req_module.c:359-476 ngx_http_limit_req_lookup *)
Definition ngx_http_limit_req_lookup (burst hash : Z) (key_ : list Z) (now : Z) (account : bool) (z : zone) : option result :=
  found ← search_loop rb_fuel hash key_ (root (z_tree z)) z;
  match found with
  | Some node => lookup_found burst now account node z
  | None =>
      '(node, z) ← allocate now key_ z;
      match node with
      | Some node => new_node hash key_ now account node z
      | None => Some (NGX_ERROR, 0, z, None)
      end
  end.

(** The part of [ngx_http_limit_req_account] under the lock: the new excess. *)
(* http/modules/ngx_http_limit_req_module.c:509-520 ngx_http_limit_req_account: lr *)
Definition account_node (now node : Z) (z : zone) : option (Z * zone) :=
  lr ← z_lr z !! node;
  let excess := drained lr now in
  Some (excess, set_lr node (Lr (lr_data lr) now excess (u64 (lr_count lr - 1))) z).

(* http/modules/ngx_http_limit_req_module.c:247-247 ngx_http_limit_req_handler: ctx->node->count-- *)
Definition release_node (node : Z) (z : zone) : option zone :=
  lr ← z_lr z !! node;
  Some (set_lr node (Lr (lr_data lr) (lr_last lr) (lr_excess lr) (u64 (lr_count lr - 1))) z).

(* http/modules/ngx_http_limit_req_module.c:654-657 ngx_http_limit_req_init_zone *)
Definition init_zone (st : state) (q : links) (p : pool) : zone :=
  Zone _ (ngx_rbtree_init s st) (ngx_queue_init qh q) ∅ p.
End Operations.

(** ** The handler *)

Definition NGX_HTTP_INTERNAL_SERVER_ERROR : Z := 500.

(** A limit, with the addresses of the sentinel and of the queue of its zone. *)
(* http/modules/ngx_http_limit_req_module.c:43-48 ngx_http_limit_req_limit_t *)
Record limit : Type := Limit { l_s : Z; l_qh : Z; l_rate : Z; l_burst : Z; l_nodelay : bool }.

(** [shm_zone->data] of a limit, in a process: the zone, and [ctx->node]. *)
(* http/modules/ngx_http_limit_req_module.c:33-40 ngx_http_limit_req_ctx_t *)
Record ctx : Type := Ctx { c_zone : zone; c_node : option Z }.

(** The limits in turn, from [n] on: [rc], [n] and [excess] at the end of the
    loop, or [None] for the return in it.  [keys] are what
    [ngx_http_complex_value] gives. *)
(* http/modules/ngx_http_limit_req_module.c:183-221 ngx_http_limit_req_handler: for *)
Fixpoint lookup_limits (now rc : Z) (n : nat) (excess : Z) (limits : list limit) (keys : list (option (list Z))) (cs : list ctx)
  : option (option (Z * nat * Z) * list ctx) :=
  match limits, keys, cs with
  | l :: limits, value :: keys, c :: cs =>
      match value with
      | None => Some (None, c :: cs)
      | Some key_ =>
          if (length key_ =? 0)%nat || (65535 <? Z.of_nat (length key_)) then
            '(r, cs) ← lookup_limits now rc (S n) excess limits keys cs;
            Some (r, c :: cs)
          else
            let hash := ngx_crc32_short key_ in
            let account := match limits with [] => true | _ => false end in
            '(rc, excess, z, node) ← ngx_http_limit_req_lookup (l_s l) (l_qh l) (l_rate l) (l_burst l) hash key_ now account (c_zone c);
            let c := Ctx z (match node with Some _ => node | None => c_node c end) in
            if negb (rc =? NGX_AGAIN) then Some (Some (rc, n, excess), c :: cs)
            else
              '(r, cs) ← lookup_limits now rc (S n) excess limits keys cs;
              Some (r, c :: cs)
      end
  | _, _, _ => Some (Some (rc, n, excess), cs)
  end.

(** The first [n] from the last to the first. *)
(* http/modules/ngx_http_limit_req_module.c:238-252 ngx_http_limit_req_handler: while *)
Fixpoint release_limits (n : nat) (cs : list ctx) : option (list ctx) :=
  match n, cs with
  | S n, c :: cs =>
      cs ← release_limits n cs;
      match c_node c with
      | None => Some (c :: cs)
      | Some node =>
          z ← release_node node (c_zone c);
          Some (Ctx z None :: cs)
      end
  | _, _ => Some cs
  end.

(** [max_delay], [*ep] and [*limit]. *)
Definition delays : Type := Z * Z * limit.

(* http/modules/ngx_http_limit_req_module.c:500-536 ngx_http_limit_req_account: the body of the loop *)
Definition account_turn (now : Z) (l : limit) (c : ctx) (d : delays) : option (delays * ctx) :=
  match c_node c with
  | None => Some (d, c)
  | Some node =>
      '(excess, z) ← account_node (l_rate l) now node (c_zone c);
      let c := Ctx z None in
      if l_nodelay l then Some (d, c)
      else
        let delay := u64 (excess * 1000) / l_rate l in
        if d.1.1 <? delay then Some ((delay, excess, l), c) else Some (d, c)
  end.

(* http/modules/ngx_http_limit_req_module.c:499-537 ngx_http_limit_req_account: while *)
Fixpoint account_limits (now : Z) (n : nat) (limits : list limit) (cs : list ctx) (d : delays) : option (delays * list ctx) :=
  match n, limits, cs with
  | S n, l :: limits, c :: cs =>
      '(d, cs) ← account_limits now n limits cs d;
      '(d, c) ← account_turn now l c d;
      Some (d, c :: cs)
  | _, _, _ => Some (d, cs)
  end.

(* http/modules/ngx_http_limit_req_module.c:479-540 ngx_http_limit_req_account *)
Definition ngx_http_limit_req_account (now : Z) (limits : list limit) (n : nat) (ep : Z) (l : limit) (cs : list ctx)
  : option (delays * list ctx) :=
  let excess := s64 ep in
  let max_delay := if (excess =? 0) || l_nodelay l then 0 else u64 (excess * 1000) / l_rate l in
  account_limits now n limits cs (max_delay, ep, l).

(** [limit] is the one of the last turn, which breaks off at [n] or ends before it.
    The results are the code, [limit_req_set], the delay of the timer and the contexts.
    [read_ok] is whether [ngx_handle_read_event] succeeds. *)
(* http/modules/ngx_http_limit_req_module.c:156-284 ngx_http_limit_req_handler *)
Definition ngx_http_limit_req_handler (status_code : Z) (read_ok limit_req_set : bool) (now : Z)
    (limits : list limit) (keys : list (option (list Z))) (cs : list ctx) : option (Z * bool * Z * list ctx) :=
  if limit_req_set then Some (NGX_DECLINED, limit_req_set, 0, cs)
  else
    '(r, cs) ← lookup_limits now NGX_DECLINED 0 0 limits keys cs;
    match r with
    | None => Some (NGX_HTTP_INTERNAL_SERVER_ERROR, limit_req_set, 0, cs)
    | Some (rc, n, excess) =>
        if rc =? NGX_DECLINED then Some (NGX_DECLINED, limit_req_set, 0, cs)
        else if (rc =? NGX_BUSY) || (rc =? NGX_ERROR) then
          cs ← release_limits n cs;
          Some (status_code, true, 0, cs)
        else
          let excess := if rc =? NGX_AGAIN then 0 else excess in
          l ← limits !! (if rc =? NGX_AGAIN then pred n else n);
          '((delay, _, _), cs) ← ngx_http_limit_req_account now limits n excess l cs;
          if delay =? 0 then Some (NGX_DECLINED, true, 0, cs)
          else if negb read_ok then Some (NGX_HTTP_INTERNAL_SERVER_ERROR, true, 0, cs)
          else Some (NGX_AGAIN, true, delay, cs)
    end.
End Zone.
