(* ===== verification/HttpLimitReqZone.v ===== *)
(** * HttpLimitReqZone: a zone is a list of entries in the order of use

    Each operation of HttpLimitReq on the tree, the queue and the allocator is
    one on a list of entries. *)

From stdpp Require Import gmap.
From S2P Require Import Prelude NgxSprintf NgxRbtree NgxRbtreeShape NgxRbtreeInsert NgxRbtreeTrace NgxQueue NgxCrc32 HttpLimitReq.

(** ** The order of keys *)

Fixpoint lex (s1 s2 : list Z) : comparison :=
  match s1, s2 with
  | [], [] => Eq
  | [], _ :: _ => Lt
  | _ :: _, [] => Gt
  | x :: s1, y :: s2 => match x ?= y with Eq => lex s1 s2 | c => c end
  end.

Lemma memn2cmp_lex s1 s2 : (ngx_memn2cmp s1 s2 ?= 0) = lex s1 s2.
Proof.
  unfold ngx_memn2cmp. revert s2. induction s1 as [|x s1 IH]; intros [|y s2]; cbn [length Nat.leb ngx_memcmp lex]; [done..|].
  specialize (IH s2). cbn [Nat.eqb]. 
  destruct (length s1 <=? length s2)%nat; cbn [ngx_memcmp];
    (destruct (Z.compare_spec x y) as [->|Hlt|Hgt]; [rewrite Z.eqb_refl; exact IH|..];
     rewrite (proj2 (Z.eqb_neq x y)), (proj2 (Z.eqb_neq (x - y) 0)) by lia; cbn [negb orb];
     first [apply Z.compare_lt_iff; lia|apply Z.compare_gt_iff; lia]).
Qed.

Lemma lex_eq s1 s2 : lex s1 s2 = Eq <-> s1 = s2.
Proof.
  revert s2. induction s1 as [|x s1 IH]; intros [|y s2]; cbn; [done..|].
  destruct (Z.compare_spec x y) as [->|?|?]; [rewrite IH|..]; split; try congruence; intros [= ->]; lia.
Qed.

Lemma lex_opp s1 s2 : lex s2 s1 = CompOpp (lex s1 s2).
Proof.
  revert s2. induction s1 as [|x s1 IH]; intros [|y s2]; cbn; [done..|]. rewrite (Z.compare_antisym x y).
  destruct (x ?= y); cbn; [apply IH|done..].
Qed.

Lemma lex_trans s1 s2 s3 : lex s1 s2 = Lt -> lex s2 s3 = Lt -> lex s1 s3 = Lt.
Proof.
  revert s2 s3. induction s1 as [|x s1 IH]; intros [|y s2] [|z s3]; cbn; try done.
  destruct (Z.compare_spec x y), (Z.compare_spec y z), (Z.compare_spec x z); try done; try lia. apply IH.
Qed.

(** The order of nodes: by the hash, then by the key. *)
Definition node_compare (m : gmap Z lr_node) (x y : Z * Z) : comparison :=
  match x.2 ?= y.2 with Eq => lex (data_of m x.1) (data_of m y.1) | c => c end.

Lemma less_compare m x y : limit_req_less m x y = match node_compare m x y with Lt => true | _ => false end.
Proof.
  unfold limit_req_less, node_compare. rewrite <- memn2cmp_lex.
  destruct (Z.compare_spec x.2 y.2) as [->|Hlt|Hgt].
  - rewrite Z.ltb_irrefl. unfold Z.ltb. by destruct (_ ?= 0).
  - by rewrite (proj2 (Z.ltb_lt _ _) Hlt).
  - rewrite (proj2 (Z.ltb_ge _ _)) by lia. by rewrite (proj2 (Z.ltb_lt _ _) Hgt).
Qed.

Lemma node_compare_opp m x y : node_compare m y x = CompOpp (node_compare m x y).
Proof. unfold node_compare. rewrite (Z.compare_antisym x.2 y.2), (lex_opp (data_of m x.1)). by destruct (x.2 ?= y.2). Qed.

Lemma node_compare_trans m x y z : node_compare m x y <> Gt -> node_compare m y z = Lt -> node_compare m x z = Lt.
Proof.
  unfold node_compare. destruct (Z.compare_spec x.2 y.2) as [Hxy2|?|?], (Z.compare_spec y.2 z.2) as [Hyz2|?|?]; try done.
  - rewrite Hxy2, Hyz2, Z.compare_refl. intros Hxy Hyz. destruct (lex (data_of m x.1) (data_of m y.1)) eqn:Hl; [|by eapply lex_trans|done].
    apply lex_eq in Hl. by rewrite Hl.
  - by rewrite (proj2 (Z.compare_lt_iff _ _)) by lia.
  - by rewrite (proj2 (Z.compare_lt_iff _ _)) by lia.
  - by rewrite (proj2 (Z.compare_lt_iff _ _)) by lia.
Qed.

#[export] Instance limit_req_order m : WeakOrder (limit_req_less m).
Proof.
  split; intros x y; rewrite !less_compare.
  - rewrite (node_compare_opp m x y). by destruct (node_compare m x y).
  - intros z. rewrite !less_compare. destruct (node_compare m x y) eqn:Hxy; try done. intros _.
    destruct (node_compare m x z) eqn:Hxz; [right|by left|right].
    + rewrite (node_compare_trans m z x y); [done| |done]. rewrite node_compare_opp, Hxz. done.
    + rewrite (node_compare_trans m z x y); [done| |done]. rewrite node_compare_opp, Hxz. done.
Qed.

(** ** The specification *)

Section Spec.
Context (rate : Z).

Definition spec_find (k : list Z) (E : list lr_node) : option lr_node := snd <$> list_find (fun lr => lr_data lr = k) E.
Definition without (k : list Z) (E : list lr_node) : list lr_node := filter (fun lr => lr_data lr <> k) E.

(** An entry is moved to the front. *)
Definition put (lr : lr_node) (E : list lr_node) : list lr_node := lr :: without (lr_data lr) E.

(** Whether the last entry goes in the turn [n]. *)
Definition expires (now n : Z) (lr : lr_node) : bool :=
  (lr_count lr =? 0) &&
  ((n =? 0) ||
   (60000 <=? Z.abs (s64 (u64 (now - lr_last lr)))) &&
   (s64 (u64 (lr_excess lr - u64 (rate * Z.abs (s64 (u64 (now - lr_last lr)))) / 1000)) <=? 0)).

Fixpoint spec_expire (fuel : nat) (now n : Z) (E : list lr_node) : list lr_node :=
  match fuel with
  | O => E
  | S fuel =>
      match last E with
      | Some lr => if (n <? 3) && expires now n lr then spec_expire fuel now (n + 1) (removelast E) else E
      | None => E
      end
  end.

Definition new_lr (k : list Z) (now : Z) (account : bool) : lr_node :=
  if account then Lr k now 0 0 else Lr k 0 0 1.

(** [first] and [second] are whether the allocations succeed.  The results are
    whether there was an entry, the code, and the excess. *)
Definition spec_lookup (burst : Z) (k : list Z) (now : Z) (account first second : bool) (E : list lr_node)
  : bool * Z * Z * list lr_node :=
  match spec_find k E with
  | Some lr =>
      let e := drained rate lr now in
      if burst <? e then (true, NGX_BUSY, e, put lr E)
      else if account then (true, NGX_OK, e, put (Lr k now e (lr_count lr)) E)
      else (true, NGX_AGAIN, e, put (Lr k (lr_last lr) (lr_excess lr) (u64 (lr_count lr + 1))) E)
  | None =>
      let E := spec_expire 4 now 1 E in
      let rc := if account then NGX_OK else NGX_AGAIN in
      if first then (false, rc, 0, new_lr k now account :: E)
      else
        let E := spec_expire 4 now 0 E in
        if second then (false, rc, 0, new_lr k now account :: E)
        else (false, NGX_ERROR, 0, E)
  end.
End Spec.

(** ** Lists of entries *)

Lemma find_split E1 lr E2 : NoDup (lr_data <$> (E1 ++ lr :: E2)) ->
  spec_find (lr_data lr) (E1 ++ lr :: E2) = Some lr /\ without (lr_data lr) (E1 ++ lr :: E2) = E1 ++ E2.
Proof.
  rewrite fmap_app. cbn. intros (_ & Hd & [Hlr _]%NoDup_cons)%NoDup_app.
  assert (Forall (fun x => lr_data x <> lr_data lr) E1) as H1.
  { apply Forall_forall. intros x Hx Heq. apply (Hd (lr_data x)); [by apply list_elem_of_fmap_2|rewrite Heq; by left]. }
  assert (Forall (fun x => lr_data x <> lr_data lr) E2) as H2.
  { apply Forall_forall. intros x Hx Heq. apply Hlr. rewrite <- Heq. by apply list_elem_of_fmap_2. }
  assert (forall E, Forall (fun x => lr_data x <> lr_data lr) E -> without (lr_data lr) E = E) as Hw.
  { unfold without. induction 1; [done|]. by rewrite filter_cons_True, IHForall. }
  split.
  - unfold spec_find. clear -H1. induction H1 as [|x E1 Hx H1 IH]; cbn.
    + by rewrite decide_True.
    + rewrite decide_False by done. destruct (list_find _ (E1 ++ lr :: E2)) as [[i y]|]; done.
  - unfold without in *. rewrite filter_app, filter_cons_False by tauto. by rewrite !Hw.
Qed.

Lemma find_none k E : spec_find k E = None <-> k ∉ lr_data <$> E.
Proof.
  unfold spec_find. rewrite fmap_None, list_find_None, Forall_forall, list_elem_of_fmap. split.
  - intros HE (x & -> & Hx). by apply (HE x).
  - intros HE x Hx Heq. apply HE. by exists x.
Qed.

Lemma without_fst k E : k ∉ lr_data <$> without k E.
Proof. rewrite list_elem_of_fmap. intros (x & -> & [Hx _]%list_elem_of_filter). done. Qed.

Lemma without_nodup k E : NoDup (lr_data <$> E) -> NoDup (lr_data <$> without k E).
Proof. intros HE. eapply sublist_NoDup; [exact HE|]. apply fmap_sublist, sublist_filter. Qed.

Lemma spec_expire_sublist rate fuel now n E : sublist (spec_expire rate fuel now n E) E.
Proof.
  revert n E. induction fuel as [|fuel IH]; intros n E; cbn [spec_expire]; [done|].
  destruct (last E) as [lr|] eqn:Hl; [|done]. destruct ((n <? 3) && expires rate now n lr); [|done].
  etransitivity; [apply IH|]. apply last_Some in Hl as [E' ->]. rewrite removelast_last. by apply sublist_inserts_r.
Qed.

(** ** A zone and its entries *)

Section Rep.
Context `{Slab} (s qh rate : Z) (Hs : 0 <= s < 2 ^ 64).
Implicit Types (z : zone) (l : list Z) (E : list lr_node).

(** The sentinel and the queue are in blocks of the pool, and the nodes [l] are
    other blocks of it. *)
Definition held (p : pool) l : Prop := exists nodes rest, slab_blocks p (nodes ++ rest) /\ nodes.*1 ≡ₚ l /\
  Forall (fun b => 0 < b.2) nodes /\ Exists (within s) rest /\ Exists (within qh) rest.

Lemma held_perm p l l' : l ≡ₚ l' -> held p l -> held p l'.
Proof. intros Hl (nodes & rest & Hb & Hn & Hrest). exists nodes, rest. by rewrite <- Hl. Qed.

Lemma held_split p a l : held p (a :: l) -> exists n nodes rest, slab_blocks p ((a, n) :: nodes ++ rest) /\ nodes.*1 ≡ₚ l /\ 0 < n /\
  Forall (fun b => 0 < b.2) nodes /\ Exists (within s) rest /\ Exists (within qh) rest.
Proof.
  intros (nodes & rest & Hb & Hn & Hpos & Hrest). assert (a ∈ nodes.*1) as Ha by (rewrite Hn; by left).
  apply list_elem_of_fmap in Ha as ([a' n] & -> & Ha). apply list_elem_of_split in Ha as (n1 & n2 & ->). exists n, (n1 ++ n2), rest.
  rewrite <- Permutation_middle in Hn, Hpos. apply Forall_cons in Hpos as [Hp Hpos]. apply (inj (cons a')) in Hn. split; [|done].
  eapply slab_perm; [|exact Hb]. by rewrite <- Permutation_middle.
Qed.

Lemma held_tail p a l : held p (a :: l) -> held p l.
Proof.
  intros (n & nodes & rest & Hb & Hn & _ & Hpos & Hs1 & Hq1)%held_split. exists nodes, ((a, n) :: rest). split; [|split; [done|split; [done|split; by right]]].
  eapply slab_perm; [|exact Hb]. apply Permutation_middle.
Qed.

Lemma held_free p a l : held p (a :: l) -> held (ngx_slab_free_locked p a) l.
Proof. intros (n & nodes & rest & Hb & Hn & _ & Hrest)%held_split. exists nodes, rest. split; [by apply (slab_free p _ (a, n))|done]. Qed.

Lemma separate_within a n b x : 0 < n -> separate (a, n) b -> within x b -> a <> x.
Proof. unfold separate, within. cbn. intros Hn Hsep Hw ->. lia. Qed.

Lemma held_alloc p l size node p' : held p l -> 0 < size -> ngx_slab_alloc_locked p size = (node, p') ->
  match node with Some a => 0 < a < 2 ^ 64 /\ a <> s /\ a <> qh /\ a ∉ l /\ held p' (a :: l) | None => held p' l end.
Proof.
  intros (nodes & rest & Hb & Hn & Hpos & Hs1 & Hq1) Hsz Ha. destruct node as [a|].
  - destruct (slab_alloc_some _ _ size _ _ Hb ltac:(lia) Ha) as (n & Hsn & Har & Hsep & Hb'). apply Forall_app in Hsep as [Hsep1 Hsep2]. rewrite Forall_forall in Hsep1, Hsep2.
    assert (forall x, Exists (within x) rest -> a <> x) as Hne.
    { intros x (b & Hin & Hw)%Exists_exists. eapply separate_within; [|by apply Hsep2|done]. lia. }
    split; [done|]. split; [by apply Hne|]. split; [by apply Hne|]. split.
    + rewrite <- Hn. intros ([a' m] & -> & Hin)%list_elem_of_fmap. rewrite Forall_forall in Hpos. pose proof (Hpos _ Hin) as Hm. specialize (Hsep1 _ Hin).
      unfold separate in Hsep1. cbn [fst snd] in *. lia.
    + exists ((a, n) :: nodes), rest. split; [done|]. split; [cbn; by rewrite Hn|]. split; [constructor; [cbn; lia|done]|done].
  - exists nodes, rest. split; [|done]. eapply slab_alloc_none; [done| |done]. lia.
Qed.

(** The zone [z] has its nodes [l] in the order of the queue, with the entries [E]. *)
Record rep z l E : Prop := {
  rep_queue : queue (z_queue z) qh l;
  rep_lr : Forall2 (fun a lr => z_lr z !! a = Some lr) l E;
  rep_tree : exists lk, contents s (limit_req_less (z_lr z)) (fun _ => true) (z_tree z) lk /\ lk.*1 ≡ₚ l /\
    Forall (fun x => x.2 = ngx_crc32_short (data_of (z_lr z) x.1)) lk;
  rep_keys : NoDup (lr_data <$> E);
  rep_pool : held (z_pool z) l
}.

Lemma zone_init st q p : held p [] -> rep (init_zone s qh st q p) [] [].
Proof.
  intros Hp. split; cbn; [apply queue_init_ok|constructor| |constructor|done].
  exists []. split; [apply init_contents|done].
Qed.

(** The order of the nodes in the tree depends on their keys. *)
Lemma contents_keys m m' st lk :
  (forall a, a ∈ lk.*1 -> data_of m' a = data_of m a) ->
  contents s (limit_req_less m) (fun _ => true) st lk -> contents s (limit_req_less m') (fun _ => true) st lk.
Proof.
  intros Hm (Ht & Hsort & Hl). split; [done|]. split; [|done]. clear Ht Hl. unfold sorted in *.
  induction Hsort as [|x lk Hsort IH Hx]; [constructor|].
  constructor; [apply IH; intros a Ha; apply Hm; by right|]. rewrite Forall_forall in Hx |- *. intros y Hy.
  specialize (Hx y Hy). unfold limit_req_less in *. rewrite !Hm; [done|by left|]. right. by apply list_elem_of_fmap_2.
Qed.

Lemma search_loop_eq fuel hash k node z : search_loop s (S fuel) hash k node z =
  if node =? s then Some None
  else if hash <? key (z_tree z) node then search_loop s fuel hash k (child L (z_tree z) node) z
  else if key (z_tree z) node <? hash then search_loop s fuel hash k (child R (z_tree z) node) z
  else
    lr ← z_lr z !! node;
    if ngx_memn2cmp k (lr_data lr) =? 0 then Some (Some node)
    else search_loop s fuel hash k (child (if ngx_memn2cmp k (lr_data lr) <? 0 then L else R) (z_tree z) node) z.
Proof. done. Qed.

(** The search arrives at the node of the key. *)
Lemma search_tree fuel hash k z p a t :
  sub s (z_tree z) p a t -> s ∉ nodes t -> (height t <= fuel)%nat -> sorted (limit_req_less (z_lr z)) (inorder t) ->
  (forall n, n ∈ nodes t -> is_Some (z_lr z !! n)) ->
  exists r, search_loop s (S fuel) hash k a z = Some r /\
    match r with
    | Some n => (n, hash) ∈ inorder t /\ data_of (z_lr z) n = k
    | None => forall n, (n, hash) ∈ inorder t -> data_of (z_lr z) n <> k
    end.
Proof.
  revert p a t. induction fuel as [|fuel IH]; intros p a t Hsub Hst Hh Hsort Hlr.
  { destruct t; [|cbn in Hh; lia]. cbn in Hsub. subst a. cbn. rewrite Z.eqb_refl. exists None. split; [done|].
    intros n Hn. by apply not_elem_of_nil in Hn. }
  rewrite search_loop_eq. destruct t as [|c l n kn r].
  { cbn in Hsub. subst a. rewrite Z.eqb_refl. exists None. split; [done|]. intros n Hn. by apply not_elem_of_nil in Hn. }
  assert (Hnodes : nodes (T c l n kn r) ≡ₚ n :: nodes l ++ nodes r) by (change (T c l n kn r) with (mk L c n kn l r); apply nodes_mk).
  destruct Hsub as (-> & _ & _ & Hk & Hl & Hr). cbn [height] in Hh. rewrite Hnodes in Hst.
  apply not_elem_of_cons in Hst as [Hns Hst]. rewrite elem_of_app in Hst. rewrite (proj2 (Z.eqb_neq n s)), Hk by done.
  destruct (Hlr n) as [lr Hlrn]; [rewrite Hnodes; by left|].
  cbn [inorder] in Hsort |- *. apply sorted_app in Hsort as (Hsl & Hsr & Hslr). inversion_clear Hsr as [|? ? Hsr' Hsn].
  rewrite Forall_forall in Hsn.
  (* what the comparison with [n] tells about a node with the key *)
  set (c0 := match hash ?= kn with Eq => lex k (lr_data lr) | c => c end).
  assert (forall y, data_of (z_lr z) y = k -> node_compare (z_lr z) (y, hash) (n, kn) = c0) as Hc.
  { intros y Hy. unfold node_compare, c0. cbn [fst snd]. rewrite Hy. unfold data_of. by rewrite Hlrn. }
  assert (c0 = Lt -> forall y, (y, hash) ∈ (n, kn) :: inorder r -> data_of (z_lr z) y <> k) as Hright.
  { intros Hlt y Hy Hdata. specialize (Hc y Hdata). rewrite Hlt in Hc. apply elem_of_cons in Hy as [[= -> ->]|Hy].
    - unfold node_compare in Hc. cbn in Hc. rewrite Z.compare_refl in Hc. by rewrite (proj2 (lex_eq _ _) eq_refl) in Hc.
    - specialize (Hsn _ Hy). cbn in Hsn. by rewrite less_compare, Hc in Hsn. }
  assert (c0 = Gt -> forall y, (y, hash) ∈ inorder l ++ [(n, kn)] -> data_of (z_lr z) y <> k) as Hleft.
  { intros Hgt y Hy Hdata. specialize (Hc y Hdata). rewrite Hgt in Hc. apply elem_of_app in Hy as [Hy|[= -> ->]%list_elem_of_singleton].
    - specialize (Hslr _ (n, kn) Hy ltac:(by left)). rewrite less_compare, node_compare_opp, Hc in Hslr. done.
    - unfold node_compare in Hc. cbn in Hc. rewrite Z.compare_refl in Hc. by rewrite (proj2 (lex_eq _ _) eq_refl) in Hc. }
  assert (Hgol : c0 = Lt -> exists r0, search_loop s (S fuel) hash k (child L (z_tree z) n) z = Some r0 /\
    match r0 with Some y => (y, hash) ∈ inorder l ++ (n, kn) :: inorder r /\ data_of (z_lr z) y = k
    | None => forall y, (y, hash) ∈ inorder l ++ (n, kn) :: inorder r -> data_of (z_lr z) y <> k end).
  { intros Hlt. destruct (IH _ _ _ Hl) as (r0 & Hr0 & Hres); [tauto|lia|done|intros y Hy; apply Hlr; rewrite Hnodes; right; apply elem_of_app; by left|].
    exists r0. split; [done|]. destruct r0 as [y|]; [split; [apply elem_of_app; left|]; apply Hres|].
    intros y [Hy|Hy]%elem_of_app; [by apply Hres|by apply Hright]. }
  assert (Hgor : c0 = Gt -> exists r0, search_loop s (S fuel) hash k (child R (z_tree z) n) z = Some r0 /\
    match r0 with Some y => (y, hash) ∈ inorder l ++ (n, kn) :: inorder r /\ data_of (z_lr z) y = k
    | None => forall y, (y, hash) ∈ inorder l ++ (n, kn) :: inorder r -> data_of (z_lr z) y <> k end).
  { intros Hgt. destruct (IH _ _ _ Hr) as (r0 & Hr0 & Hres); [tauto|lia|done|intros y Hy; apply Hlr; rewrite Hnodes; right; apply elem_of_app; by right|].
    exists r0. split; [done|]. destruct r0 as [y|]; [split; [apply elem_of_app; right; right|]; apply Hres|].
    intros y Hy. rewrite cons_middle, app_assoc in Hy. apply elem_of_app in Hy as [Hy|Hy]; [by apply Hleft|by apply Hres]. }
  unfold c0 in *. clear c0 Hc Hright Hleft.
  destruct (Z.compare_spec hash kn) as [->|Hlt|Hgt].
  - rewrite Z.ltb_irrefl, Hlrn. cbn [mbind option_bind].
    pose proof (memn2cmp_lex k (lr_data lr)) as Hm. destruct (Z.eqb_spec (ngx_memn2cmp k (lr_data lr)) 0) as [H0|H0].
    + exists (Some n). split; [done|]. split; [apply elem_of_app; right; by left|]. unfold data_of. rewrite Hlrn.
      rewrite H0 in Hm. symmetry. by apply lex_eq.
    + destruct (Z.ltb_spec (ngx_memn2cmp k (lr_data lr)) 0) as [Hneg|Hpos].
      * apply Hgol. rewrite <- Hm. by apply Z.compare_lt_iff.
      * apply Hgor. rewrite <- Hm. apply Z.compare_gt_iff. lia.
  - rewrite (proj2 (Z.ltb_lt _ _) Hlt). by apply Hgol.
  - rewrite (proj2 (Z.ltb_ge _ _)), (proj2 (Z.ltb_lt _ _) Hgt) by lia. by apply Hgor.
Qed.

Lemma data_of_insert (m : gmap Z lr_node) a lr lr' b : m !! a = Some lr -> lr_data lr' = lr_data lr -> data_of (<[a := lr']> m) b = data_of m b.
Proof.
  intros Ha Hd. unfold data_of. destruct (decide (b = a)) as [->|]; [by rewrite lookup_insert_eq, Ha|by rewrite lookup_insert_ne].
Qed.

Lemma rep_in z l E a : rep z l E -> a ∈ l -> exists lr, z_lr z !! a = Some lr /\ lr ∈ E.
Proof.
  intros Hr Ha. destruct Hr as [_ Hlr _ _ _]. induction Hlr as [|b lr l E Hb Hlr IH]; [by apply not_elem_of_nil in Ha|].
  apply elem_of_cons in Ha as [->|Ha]; [exists lr; split; [done|by left]|].
  destruct (IH Ha) as (lr' & ? & ?). exists lr'. split; [done|by right].
Qed.

Lemma rep_search z l E k : rep z l E ->
  exists r, search_loop s rb_fuel (ngx_crc32_short k) k (root (z_tree z)) z = Some r /\
    match r with Some n => n ∈ l /\ data_of (z_lr z) n = k | None => spec_find k E = None end.
Proof.
  intros Hr. destruct (rep_tree _ _ _ Hr) as (lk & Hc & Hperm & Hhash).
  assert (Hc' := Hc). destruct Hc' as ((t & Ht & Hin) & Hsort & _).
  pose proof (contents_fits _ _ _ _ _ _ Hc Ht Hin Hs) as Hfits. destruct (holds_tree_nodes _ _ _ Ht) as [_ Hst].
  destruct Ht as [[p (_ & Hsub & _)] [h Hrb]]. pose proof (fits_height _ _ Hrb Hfits) as Hh.
  destruct (search_tree 159 (ngx_crc32_short k) k z p _ t Hsub Hst) as (r & Hrun & Hres); [lia|by rewrite Hin| |].
  { intros n Hn. unfold nodes in Hn. rewrite Hin, Hperm in Hn. destruct (rep_in _ _ _ _ Hr Hn) as (lr & ? & _). by exists lr. }
  exists r. split; [exact Hrun|]. rewrite Hin in Hres. destruct r as [n|].
  - destruct Hres as [Hn Hd]. split; [|done]. rewrite <- Hperm. apply list_elem_of_fmap. by exists (n, ngx_crc32_short k).
  - apply find_none. intros Hk. apply list_elem_of_fmap in Hk as (lr & Hd & Hlr).
    apply list_elem_of_lookup in Hlr as [i Hi]. destruct (Forall2_lookup_r _ _ _ _ _ (rep_lr _ _ _ Hr) Hi) as (a & Ha & Hma).
    apply list_elem_of_lookup_2 in Ha. rewrite <- Hperm in Ha. apply list_elem_of_fmap in Ha as ([a' ka] & -> & Hx). cbn [fst] in Hma.
    rewrite Forall_forall in Hhash. pose proof (Hhash _ Hx) as Hka. cbn in Hka.
    assert (data_of (z_lr z) a' = k) as Hdk by (unfold data_of; by rewrite Hma).
    rewrite Hdk in Hka. subst ka. by apply (Hres a').
Qed.

Lemma rep_split z l E n : rep z l E -> n ∈ l -> exists l1 l2 E1 E2 lr,
  l = l1 ++ n :: l2 /\ E = E1 ++ lr :: E2 /\ z_lr z !! n = Some lr /\
  Forall2 (fun a lr => z_lr z !! a = Some lr) l1 E1 /\ Forall2 (fun a lr => z_lr z !! a = Some lr) l2 E2 /\ n ∉ l1 ++ l2.
Proof.
  intros Hr Hn. apply list_elem_of_split in Hn as (l1 & l2 & ->). pose proof (rep_lr _ _ _ Hr) as Hlr.
  apply Forall2_app_inv_l in Hlr as (E1 & E' & H1 & H2 & ->). inversion H2 as [|? lr ? E2 Hnl H2' Heq1 Heq2]; subst.
  exists l1, l2, E1, E2, lr. split_and!; try done. destruct (rep_queue _ _ _ Hr) as [_ Hnd].
  apply NoDup_cons in Hnd as [_ Hnd]. rewrite <- Permutation_middle in Hnd. by apply NoDup_cons in Hnd as [? _].
Qed.

Lemma forall2_insert (m : gmap Z lr_node) n v l E : n ∉ l -> Forall2 (fun a lr => m !! a = Some lr) l E ->
  Forall2 (fun a lr => <[n := v]> m !! a = Some lr) l E.
Proof.
  intros Hn Hl. induction Hl as [|a x l E Ha Hl IH]; [constructor|]. apply not_elem_of_cons in Hn as [Hna Hn].
  constructor; [by rewrite lookup_insert_ne|by apply IH].
Qed.

Lemma forall2_delete (m : gmap Z lr_node) n l E : n ∉ l -> Forall2 (fun a lr => m !! a = Some lr) l E ->
  Forall2 (fun a lr => delete n m !! a = Some lr) l E.
Proof.
  intros Hn Hl. induction Hl as [|a x l E Ha Hl IH]; [constructor|]. apply not_elem_of_cons in Hn as [Hna Hn].
  constructor; [by rewrite lookup_delete_ne|by apply IH].
Qed.

(** The tree, when an entry changes but for its key. *)
Lemma tree_update z l n lr lr' :
  (exists lk, contents s (limit_req_less (z_lr z)) (fun _ => true) (z_tree z) lk /\ lk.*1 ≡ₚ l /\
    Forall (fun x => x.2 = ngx_crc32_short (data_of (z_lr z) x.1)) lk) ->
  z_lr z !! n = Some lr -> lr_data lr' = lr_data lr ->
  exists lk, contents s (limit_req_less (<[n := lr']> (z_lr z))) (fun _ => true) (z_tree z) lk /\ lk.*1 ≡ₚ l /\
    Forall (fun x => x.2 = ngx_crc32_short (data_of (<[n := lr']> (z_lr z)) x.1)) lk.
Proof.
  intros (lk & Hc & Hp & Hh) Hn Hd. exists lk. split; [|split; [done|]].
  - eapply contents_keys; [|exact Hc]. intros a _. by eapply data_of_insert.
  - eapply Forall_impl; [exact Hh|]. intros x Hx. cbn. by rewrite (data_of_insert _ _ lr).
Qed.

(** An entry changes, and moves to the front. *)
Lemma rep_front z z' l1 l2 E1 E2 n lr lr' :
  rep z (l1 ++ n :: l2) (E1 ++ lr :: E2) -> z_lr z !! n = Some lr -> lr_data lr' = lr_data lr ->
  Forall2 (fun a lr => z_lr z !! a = Some lr) l1 E1 -> Forall2 (fun a lr => z_lr z !! a = Some lr) l2 E2 ->
  n ∉ l1 ++ l2 ->
  z_queue z' = ngx_queue_insert_head qh n (ngx_queue_remove n (z_queue z)) -> z_tree z' = z_tree z ->
  z_pool z' = z_pool z -> z_lr z' = <[n := lr']> (z_lr z) ->
  rep z' (n :: l1 ++ l2) (put lr' (E1 ++ lr :: E2)).
Proof.
  intros Hr Hn Hd H1 H2 Hnl Hq Ht Hp Hm. unfold put. rewrite Hd.
  rewrite (proj2 (find_split _ _ _ (rep_keys _ _ _ Hr))).
  assert (n :: l1 ++ l2 ≡ₚ l1 ++ n :: l2) as Hperm by apply Permutation_middle.
  split.
  - rewrite Hq. pose proof (rep_queue _ _ _ Hr) as Hqu. destruct (queue_at _ _ _ _ _ Hqu) as (_ & _ & Hnh & _ & _ & _).
    apply insert_head_ok; [by apply remove_ok|]. by apply not_elem_of_cons.
  - rewrite Hm. constructor; [by rewrite lookup_insert_eq|]. apply forall2_insert; [done|]. by apply Forall2_app.
  - rewrite Hm, Ht. destruct (tree_update z _ n lr lr' (rep_tree _ _ _ Hr) Hn Hd) as (lk & ? & ? & ?). exists lk.
    by rewrite Hperm.
  - pose proof (rep_keys _ _ _ Hr) as Hk. cbn. rewrite Hd. rewrite fmap_app in Hk |- *. cbn in Hk. by rewrite <- Permutation_middle in Hk.
  - rewrite Hp. eapply held_perm; [symmetry; exact Hperm|apply Hr].
Qed.

(** An entry changes in its place. *)
Lemma rep_update z l1 l2 E1 E2 n lr lr' :
  rep z (l1 ++ n :: l2) (E1 ++ lr :: E2) -> z_lr z !! n = Some lr -> lr_data lr' = lr_data lr ->
  Forall2 (fun a lr => z_lr z !! a = Some lr) l1 E1 -> Forall2 (fun a lr => z_lr z !! a = Some lr) l2 E2 ->
  n ∉ l1 ++ l2 -> rep (set_lr n lr' z) (l1 ++ n :: l2) (E1 ++ lr' :: E2).
Proof.
  intros Hr Hn Hd H1 H2 Hnl. rewrite not_elem_of_app in Hnl. destruct Hnl as [Hn1 Hn2]. split; cbn [z_queue z_lr z_tree z_pool set_lr].
  - apply Hr.
  - apply Forall2_app; [by apply forall2_insert|]. constructor; [by rewrite lookup_insert_eq|by apply forall2_insert].
  - by apply (tree_update z _ n lr lr' (rep_tree _ _ _ Hr)).
  - pose proof (rep_keys _ _ _ Hr) as Hk. rewrite !fmap_app in *. cbn in *. by rewrite Hd.
  - apply Hr.
Qed.

(** ** The operations *)

Lemma rep_found z l E n k burst now (account : bool) : rep z l E -> n ∈ l -> data_of (z_lr z) n = k ->
  exists lr rc e z' l' E' nd, spec_find k E = Some lr /\ lr_data lr = k /\ lookup_found qh rate burst now account n z = Some (rc, e, z', nd) /\
    rep z' l' E' /\ nd = (if rc =? NGX_AGAIN then Some n else None) /\
    (forall first second, spec_lookup rate burst k now account first second E = (true, rc, e, E')) /\
    (exists lr', z_lr z' !! n = Some lr' /\ lr_data lr' = k) /\ l' ≡ₚ l /\
    (forall a, a ≠ n -> z_lr z' !! a = z_lr z !! a).
Proof.
  intros Hr Hn Hk. destruct (rep_split _ _ _ _ Hr Hn) as (l1 & l2 & E1 & E2 & lr & -> & -> & Hlr & H1 & H2 & Hnl).
  assert (lr_data lr = k) as Hd by (rewrite <- Hk; unfold data_of; by rewrite Hlr).
  pose proof (find_split _ _ _ (rep_keys _ _ _ Hr)) as [Hf _]. rewrite Hd in Hf.
  unfold spec_lookup. rewrite Hf. unfold lookup_found. rewrite Hlr. cbn [mbind option_bind].
  exists lr. destruct (burst <? drained rate lr now); [|destruct account].
  - eexists NGX_BUSY, _, _, _, _, _. split; [done|]. split; [done|]. split; [reflexivity|]. split; [|split; [done|split; [intros; reflexivity|]]].
    + apply (rep_front z _ l1 l2 E1 E2 n lr lr); try done. cbn. by rewrite insert_id.
    + cbn. split; [by exists lr|]. split; [apply Permutation_middle|done].
  - eexists NGX_OK, _, _, _, _, _. split; [done|]. split; [done|]. split; [reflexivity|]. split; [|split; [done|split; [intros; by rewrite <- Hd|]]].
    + apply (rep_front z _ l1 l2 E1 E2 n lr); try done.
    + cbn. split; [eexists; split; [apply lookup_insert_eq|done]|]. split; [apply Permutation_middle|]. intros a Ha. by apply lookup_insert_ne.
  - eexists NGX_AGAIN, _, _, _, _, _. split; [done|]. split; [done|]. split; [reflexivity|]. split; [|split; [done|split; [intros; by rewrite <- Hd|]]].
    + apply (rep_front z _ l1 l2 E1 E2 n lr); try done.
    + cbn. split; [eexists; split; [apply lookup_insert_eq|done]|]. split; [apply Permutation_middle|]. intros a Ha. by apply lookup_insert_ne.
Qed.

(** The last entry goes. *)
Lemma rep_drop z l E n lr : rep z (l ++ [n]) (E ++ [lr]) ->
  exists st, ngx_rbtree_delete s n (z_tree z) = Some st /\
    rep (Zone _ st (ngx_queue_remove n (z_queue z)) (delete n (z_lr z)) (ngx_slab_free_locked (z_pool z) n)) l E.
Proof.
  intros Hr. pose proof (rep_queue _ _ _ Hr) as Hqu. destruct (rep_tree _ _ _ Hr) as (lk & Hc & Hperm & Hh).
  assert (n ∈ lk.*1) as Hnlk by (rewrite Hperm; apply elem_of_app; right; by left).
  destruct (contents_delete s _ _ _ _ n Hc Hs Hnlk) as (st & Hdel & Hc'). exists st. split; [done|].
  assert (n <> qh /\ n ∉ l /\ NoDup (qh :: l)) as (Hnq & Hnl & Hnd).
  { destruct (queue_at _ _ _ _ _ Hqu) as (_ & _ & ? & ? & _ & Hnd). by rewrite app_nil_r in Hnd. }
  assert (forall a, a <> n -> data_of (delete n (z_lr z)) a = data_of (z_lr z) a) as Hdata.
  { intros a Ha. unfold data_of. by rewrite lookup_delete_ne. }
  split; cbn [z_queue z_lr z_tree z_pool].
  - rewrite <- (app_nil_r l). by apply remove_ok.
  - apply forall2_delete; [done|]. pose proof (rep_lr _ _ _ Hr) as Hlr.
    apply Forall2_app_inv in Hlr as [? _]; [done|]. pose proof (Forall2_length _ _ _ Hlr) as Hlen. rewrite !length_app in Hlen. cbn in Hlen. lia.
  - pose proof (contents_nodup _ _ _ _ _ Hc) as Hndk.
    exists (filter (fun x => x.1 <> n) lk).
    assert (forall x, x ∈ filter (fun x => x.1 <> n) lk -> x.1 <> n) as Hne by (intros x [? _]%list_elem_of_filter; done).
    split; [|split].
    + eapply contents_keys; [|exact Hc']. intros a (x & -> & Hx)%list_elem_of_fmap. by apply Hdata, Hne.
    + apply NoDup_Permutation.
      * eapply sublist_NoDup; [exact Hndk|]. apply fmap_sublist, sublist_filter.
      * by apply NoDup_cons in Hnd as [_ ?].
      * intros a. transitivity (a <> n /\ a ∈ lk.*1).
        -- rewrite !list_elem_of_fmap. split; [intros (x & -> & [? ?]%list_elem_of_filter); eauto|].
           intros (? & x & -> & ?). exists x. split; [done|]. by apply list_elem_of_filter.
        -- rewrite Hperm, elem_of_app, list_elem_of_singleton. split; [tauto|]. intros Ha. split; [by intros ->|by left].
    + apply Forall_forall. intros x Hx. rewrite (Hdata _ (Hne _ Hx)). rewrite Forall_forall in Hh. apply Hh.
      by apply list_elem_of_filter in Hx as [_ ?].
  - pose proof (rep_keys _ _ _ Hr) as Hk. rewrite fmap_app in Hk. by apply NoDup_app in Hk as (? & _).
  - apply held_free. eapply held_perm; [|apply Hr]. symmetry. apply Permutation_cons_append.
Qed.

Lemma rep_unique z l E a b : rep z l E -> a ∈ l -> b ∈ l -> data_of (z_lr z) a = data_of (z_lr z) b -> a = b.
Proof.
  intros Hr Ha Hb Hab. destruct (rep_split _ _ _ _ Hr Ha) as (l1 & l2 & E1 & E2 & lr & -> & -> & Hlr & H1 & H2 & Hnl).
  destruct (decide (a = b)) as [|Hne]; [done|]. exfalso.
  assert (exists lrb, z_lr z !! b = Some lrb /\ lrb ∈ E1 ++ E2) as (lrb & Hlrb & Hin).
  { assert (b ∈ l1 ++ l2) as Hb' by (rewrite <- Permutation_middle in Hb; apply elem_of_cons in Hb as [?|?]; [by subst|done]).
    assert (H12 := Forall2_app H1 H2). apply list_elem_of_lookup in Hb' as [i Hi].
    destruct (Forall2_lookup_l _ _ _ _ _ H12 Hi) as (lrb & ? & ?). exists lrb. split; [done|]. by eapply list_elem_of_lookup_2. }
  unfold data_of in Hab. rewrite Hlr, Hlrb in Hab. pose proof (rep_keys _ _ _ Hr) as Hk.
  rewrite <- Permutation_middle in Hk. cbn in Hk. apply NoDup_cons in Hk as [Hk _]. apply Hk. rewrite Hab. by apply list_elem_of_fmap_2.
Qed.

(** [z'] keeps the nodes [l'] of [z]. *)
Definition keeps z z' (l' : list Z) : Prop := forall a, a ∈ l' -> z_lr z' !! a = z_lr z !! a.

Lemma zone_expire fuel now n z l E : rep z l E -> 0 <= n <= 3 -> 3 - n < Z.of_nat fuel ->
  exists z' l', expire_loop s qh rate fuel now n z = Some z' /\ rep z' l' (spec_expire rate fuel now n E) /\
    sublist l' l /\ keeps z z' l'.
Proof.
  revert n z l E. induction fuel as [|fuel IH]; intros n z l E Hr Hn Hf; [lia|]. cbn [expire_loop spec_expire].
  assert (Hstop : exists z' l', Some z = Some z' /\ rep z' l' E /\ sublist l' l /\ keeps z z' l') by (by exists z, l).
  destruct (Z.ltb_spec n 3) as [Hn3|Hn3]; [|cbn [andb]; by destruct (last E)].
  pose proof (rep_queue _ _ _ Hr) as Hq. rewrite (empty_ok _ _ _ Hq).
  destruct (decide (l = [])) as [->|Hne]; [pose proof (rep_lr _ _ _ Hr) as Hl; inversion Hl; subst; by rewrite bool_decide_true|].
  destruct (exists_last Hne) as (l0 & q & ->).
  rewrite bool_decide_false by (by destruct l0). pose proof (rep_lr _ _ _ Hr) as Hl.
  apply Forall2_app_inv_l in Hl as (E0 & E1 & Hl0 & Hl1 & ->). inversion Hl1 as [|? lr ? E2 Hqlr Hnil]; subst. inversion Hnil; subst.
  assert (ngx_queue_last qh (z_queue z) = q) as ->.
  { unfold ngx_queue_last. rewrite (chain_last _ _ _ _ (proj1 Hq)). unfold last_of. by rewrite last_snoc. }
  rewrite last_snoc. unfold expire_turn. rewrite Hqlr. cbn [mbind option_bind andb]. unfold expires.
  destruct (Z.eqb_spec (lr_count lr) 0) as [Hc|Hc]; cbn [negb andb]; [|done].
  set (keep := if negb (n =? 0) then _ else _).
  assert (((n =? 0) || (60000 <=? Z.abs (s64 (u64 (now - lr_last lr)))) &&
    (s64 (u64 (lr_excess lr - u64 (rate * Z.abs (s64 (u64 (now - lr_last lr)))) / 1000)) <=? 0)) = negb keep) as ->.
  { subst keep. destruct (n =? 0); [done|]. cbn [negb orb]. set (ms := Z.abs _). rewrite (Z.leb_antisym ms). destruct (ms <? 60000); [done|].
    cbn [negb andb]. by rewrite (Z.leb_antisym 0). }
  destruct keep; cbn [negb]; [done|]. rewrite removelast_last.
  destruct (rep_drop _ _ _ _ _ Hr) as (st & Hdel & Hr1). cbn [z_tree set_queue]. rewrite Hdel. cbn [mbind option_bind].
  destruct (IH (n + 1) _ _ _ Hr1) as (z2 & l2 & Hrun & Hr2 & Hsub & Hk); [lia|lia|].
  exists z2, l2. split; [exact Hrun|]. split; [done|]. split; [etransitivity; [exact Hsub|by apply sublist_inserts_r]|].
  intros a Ha. rewrite (Hk a Ha). cbn [z_lr]. apply lookup_delete_ne. intros ->.
  destruct Hq as [_ Hnd]. apply NoDup_cons in Hnd as [_ Hnd]. apply NoDup_app in Hnd as (_ & Hd & _).
  apply (Hd a); [by eapply sublist_subseteq|by left].
Qed.

Lemma rep_set_pool z l E p : rep z l E -> held p l -> rep (set_pool p z) l E.
Proof. intros [Hq Hl Ht Hk _] Hp. by split. Qed.

(** What an allocation gives. *)
Lemma rep_alloc z l E size node p : rep z l E -> 0 < size -> ngx_slab_alloc_locked (z_pool z) size = (node, p) ->
  rep (set_pool p z) l E /\
  match node with Some a => 0 < a < 2 ^ 64 /\ a <> s /\ a <> qh /\ a ∉ l /\ held p (a :: l) | None => True end.
Proof.
  intros Hr Hsz Ha. pose proof (held_alloc _ _ _ _ _ (rep_pool _ _ _ Hr) Hsz Ha) as Hh. destruct node as [a|]; [|by split; [apply rep_set_pool|]].
  split; [|done]. apply rep_set_pool; [done|]. eapply held_tail. apply Hh.
Qed.

Lemma rep_allocate now k z l E : rep z l E -> exists first second node z' l' E',
  allocate s qh rate now k z = Some (node, z') /\ rep z' l' E' /\ sublist l' l /\ keeps z z' l' /\
  (let E1 := spec_expire rate 4 now 1 E in E' = if first : bool then E1 else spec_expire rate 4 now 0 E1) /\
  match node with
  | Some a => first || second = true /\ 0 < a < 2 ^ 64 /\ a <> s /\ a <> qh /\ a ∉ l' /\ held (z_pool z') (a :: l')
  | None => first || second = false
  end.
Proof.
  intros Hr. unfold allocate, ngx_http_limit_req_expire.
  destruct (zone_expire 4 now 1 _ _ _ Hr) as (z1 & l1 & -> & Hr1 & Hs1 & Hk1); [lia|lia|]. cbn [mbind option_bind].
  destruct (ngx_slab_alloc_locked (z_pool z1) _) as [node p] eqn:Ha. destruct (rep_alloc _ _ _ (32 + 48 + Z.of_nat (length k)) _ _ Hr1 ltac:(lia) Ha) as [Hr1' Hnode].
  destruct node as [a|].
  - exists true, false, (Some a), (set_pool p z1), l1, (spec_expire rate 4 now 1 E). split_and!; try done; tauto.
  - destruct (zone_expire 4 now 0 _ _ _ Hr1') as (z2 & l2 & -> & Hr2 & Hs2 & Hk2); [lia|lia|]. cbn [mbind option_bind].
    destruct (ngx_slab_alloc_locked (z_pool z2) _) as [node2 p2] eqn:Ha2. destruct (rep_alloc _ _ _ (32 + 48 + Z.of_nat (length k)) _ _ Hr2 ltac:(lia) Ha2) as [Hr2' Hnode2].
    exists false, (match node2 with Some _ => true | None => false end), node2, (set_pool p2 z2), l2, (spec_expire rate 4 now 0 (spec_expire rate 4 now 1 E)).
    split; [done|]. split; [done|]. split; [by etransitivity|]. split.
    + intros b Hb. etransitivity; [exact (Hk2 b Hb)|]. apply Hk1. by eapply sublist_subseteq.
    + split; [done|]. destruct node2; [split; [done|]; tauto|done].
Qed.

(** A new entry in front. *)
Lemma rep_new z l E k now (account : bool) a : rep z l E -> spec_find k E = None -> Z.of_nat (length k) <= 65535 ->
  0 < a < 2 ^ 64 -> a <> s -> a <> qh -> a ∉ l -> held (z_pool z) (a :: l) ->
  exists z', new_node s qh (ngx_crc32_short k) k now account a z =
      Some (if account then NGX_OK else NGX_AGAIN, 0, z', if account then None else Some a) /\
    rep z' (a :: l) (new_lr k now account :: E) /\ z_lr z' = <[a := new_lr k now account]> (z_lr z).
Proof.
  intros Hr Hf Hlen Ha Has Haq Hal Hau. unfold new_node.
  assert (take (Z.to_nat (u16 (Z.of_nat (length k)))) k = k) as ->.
  { unfold u16. rewrite Z.mod_small by lia. rewrite Nat2Z.id. by rewrite firstn_all. }
  replace (if account then Lr k now 0 0 else Lr k 0 0 1) with (new_lr k now account) by done.
  set (lr := new_lr k now account). assert (lr_data lr = k) as Hd by (subst lr; by destruct account).
  destruct (rep_tree _ _ _ Hr) as (lk & Hc & Hperm & Hh). cbn [z_tree set_tree z_lr set_lr z_queue].
  set (m' := <[a := lr]> (z_lr z)).
  assert (forall b, b ∈ l -> data_of m' b = data_of (z_lr z) b) as Hdata.
  { intros b Hb. unfold data_of, m'. rewrite lookup_insert_ne; [done|]. by intros ->. }
  assert (contents s (limit_req_less m') (fun _ => true) (z_tree z) lk) as Hc1.
  { eapply contents_keys; [|exact Hc]. intros b Hb. rewrite Hperm in Hb. by apply Hdata. }
  destruct (contents_insert s (limit_req_less m') _ _ (fun _ _ _ _ => eq_refl) _ _ a (ngx_crc32_short k) Hc1 Hs) as (st & Hins & Hc2);
    [lia|done|by rewrite Hperm|done|].
  unfold ngx_http_limit_req_rbtree_insert_value. rewrite Hins. cbn [mbind option_bind].
  eexists. split; [by destruct account|]. split; [|done]. split; cbn [z_queue z_lr z_tree z_pool set_queue set_tree set_lr].
  - apply insert_head_ok; [apply Hr|]. by apply not_elem_of_cons.
  - constructor; [by rewrite lookup_insert_eq|]. apply forall2_insert; [done|apply Hr].
  - exists (ins (limit_req_less m') (a, ngx_crc32_short k) lk). split; [done|]. split; [by rewrite ins_perm, <- Hperm|].
    rewrite ins_perm. constructor; [cbn; unfold data_of, m'; by rewrite lookup_insert_eq, Hd|].
    rewrite Forall_forall in Hh |- *. intros x Hx. rewrite Hdata by (rewrite <- Hperm; by apply list_elem_of_fmap_2). by apply Hh.
  - cbn. rewrite Hd. constructor; [by apply find_none|apply Hr].
  - done.
Qed.

(** A node of the zone whose key is still there is still its node. *)
Definition stays z (l : list Z) z' (l' : list Z) (E' : list lr_node) : Prop :=
  forall a, a ∈ l -> data_of (z_lr z) a ∈ lr_data <$> E' -> a ∈ l' /\ data_of (z_lr z') a = data_of (z_lr z) a.

Lemma rep_lookup burst k now (account : bool) z l E : rep z l E -> Z.of_nat (length k) <= 65535 ->
  exists first second hit rc e z' l' E' nd,
    ngx_http_limit_req_lookup s qh rate burst (ngx_crc32_short k) k now account z = Some (rc, e, z', nd) /\
    spec_lookup rate burst k now account first second E = (hit, rc, e, E') /\ rep z' l' E' /\ stays z l z' l' E' /\
    (exists r, search_loop s rb_fuel (ngx_crc32_short k) k (root (z_tree z)) z = Some r /\ hit = (if r is Some _ then true else false)) /\
    (if rc =? NGX_AGAIN then exists n, nd = Some n /\ n ∈ l' /\ data_of (z_lr z') n = k else nd = None).
Proof.
  intros Hr Hlen. unfold ngx_http_limit_req_lookup. destruct (rep_search _ _ _ k Hr) as (r & Hsearch & Hres). rewrite Hsearch.
  cbn [mbind option_bind]. destruct r as [n|].
  - destruct Hres as [Hn Hk].
    destruct (rep_found _ _ _ _ _ burst now account Hr Hn Hk) as (lr & rc & e & z' & l' & E' & nd & Hf & Hd & Hrun & Hr' & Hnd & Hspec & (lr' & Hlr' & Hd') & Hperm & Hrest).
    assert (data_of (z_lr z') n = k) as Hk' by (unfold data_of; by rewrite Hlr').
    exists true, true, true, rc, e, z', l', E', nd. split; [done|]. split; [apply Hspec|]. split; [done|]. split; [|split].
    + intros a Ha _. split; [by rewrite Hperm|].
      destruct (decide (a = n)) as [->|Hne]; [by rewrite Hk, Hk'|unfold data_of; by rewrite Hrest].
    + by exists (Some n).
    + subst nd. destruct (rc =? NGX_AGAIN); [|done]. exists n. by rewrite Hperm.
  - destruct (rep_allocate now k _ _ _ Hr) as (first & second & node & z1 & l1 & E1 & Hall & Hr1 & Hsub & Hkeep & HE1 & Hnode).
    rewrite Hall. cbn [mbind option_bind].
    assert (forall E0, sublist E0 E -> spec_find k E0 = None) as Hsubnone.
    { intros E0 HE0. apply find_none. apply find_none in Hres. intros Hin. apply Hres. eapply sublist_subseteq; [|exact Hin]. by apply fmap_sublist. }
    assert (forall a, a ∈ l -> data_of (z_lr z) a ∈ lr_data <$> E1 -> a ∈ l1 /\ data_of (z_lr z1) a = data_of (z_lr z) a) as Hstay.
    { intros a Ha Hin. apply list_elem_of_fmap in Hin as (lr & Hd & Hlr). apply list_elem_of_lookup in Hlr as [i Hi].
      destruct (Forall2_lookup_r _ _ _ _ _ (rep_lr _ _ _ Hr1) Hi) as (b & Hb & Hmb). apply list_elem_of_lookup_2 in Hb.
      assert (data_of (z_lr z) b = data_of (z_lr z) a) as Hab.
      { rewrite Hd. unfold data_of. rewrite <- (Hkeep b Hb). by rewrite Hmb. }
      assert (b = a) as -> by (eapply rep_unique; [exact Hr| |done|done]; by eapply sublist_subseteq).
      split; [done|]. unfold data_of. by rewrite Hkeep. }
    assert (sublist E1 E) as HsubE by (rewrite HE1; destruct first; [apply spec_expire_sublist|etransitivity; apply spec_expire_sublist]).
    pose proof (Hsubnone _ HsubE) as Hnone1.
    assert (forall a b, a <> b -> data_of (<[a := new_lr k now account]> (z_lr z1)) b = data_of (z_lr z1) b) as Hins.
    { intros a b Hab. unfold data_of. by rewrite lookup_insert_ne. }
    exists first, second, false. unfold spec_lookup. rewrite Hres. destruct node as [a|].
    + destruct Hnode as (Hfs & Ha & Has & Haq & Hal & Hau).
      destruct (rep_new _ _ _ k now account a Hr1 Hnone1 Hlen Ha Has Haq Hal Hau) as (z' & Hnew & Hr' & Hm).
      exists (if account then NGX_OK else NGX_AGAIN), 0, z', (a :: l1), (new_lr k now account :: E1), (if account then None else Some a).
      split; [exact Hnew|]. split; [rewrite HE1; destruct first; [done|]; cbn in Hfs; by rewrite Hfs|]. split; [done|]. split; [|split].
      * intros b Hb Hin. cbn in Hin. apply elem_of_cons in Hin as [Heq|Hin].
        -- exfalso. apply find_none in Hres. apply Hres. destruct (rep_in _ _ _ _ Hr Hb) as (lr & Hlr & HlrE).
           assert (data_of (z_lr z) b = lr_data lr) as Hdb by (unfold data_of; by rewrite Hlr).
           apply list_elem_of_fmap. exists lr. split; [|done]. rewrite <- Hdb, Heq. by destruct account.
        -- destruct (Hstay b Hb Hin) as [Hb1 Hd1]. split; [by right|]. rewrite Hm, Hins; [done|]. by intros ->.
      * by exists None.
      * destruct account; cbn; [done|]. exists a. split; [done|]. split; [by left|]. unfold data_of. by rewrite Hm, lookup_insert_eq.
    + exists NGX_ERROR, 0, z1, l1, E1, None. split; [done|]. split; [|split; [done|split; [exact Hstay|split; [by exists None|done]]]].
      apply orb_false_iff in Hnode as [-> ->]. by rewrite HE1.
Qed.
End Rep.
