(* ===== verification/HttpLimitReqSlab.v ===== *)
(** * HttpLimitReqSlab: the allocator of a zone

    The interface of HttpLimitReq is that of NgxSlab; a pool of two pages, with
    the tree and the queue of a zone in its first block, for the examples. *)

From stdpp Require Import gmap.
From S2P Require Import Prelude NgxSprintf NgxQueue NgxRbtree NgxSlab NgxSlabSegs NgxSlabPages NgxSlabTake NgxSlabSpec HttpLimitReq HttpLimitReqZone.

(** A pool somewhere in memory. *)
Definition slab_holds (p : slab_pool) (B : list (Z * Z)) : Prop :=
  exists pg st np sl fr en, geometry pg st np sl fr en /\ slab_ok pg st np sl fr en p B.

Definition slab_alloc (p : slab_pool) (size : Z) : option Z * slab_pool :=
  match NgxSlab.ngx_slab_alloc_locked size p with
  | Some (a, p') => (if a =? NULL then None else Some a, p')
  | None => (None, p)
  end.

Lemma slab_holds_alloc p B size : slab_holds p B -> 0 <= size -> match slab_alloc p size with
  | (Some a, p') => size <= block_size size /\ 0 < a < 2 ^ 64 /\ Forall (separate (a, block_size size)) B /\ slab_holds p' ((a, block_size size) :: B)
  | (None, p') => slab_holds p' B
  end.
Proof.
  intros (pg & st & np & sl & fr & en & Hg & Hok) Hs. unfold slab_alloc. destruct (NgxSlab.ngx_slab_alloc_locked size p) as [[a p']|] eqn:Ha.
  - pose proof (slab_ok_alloc _ _ _ _ _ _ Hg _ _ _ _ _ Hok Hs Ha) as Hok'. destruct (Z.eqb_spec a NULL); [by exists pg, st, np, sl, fr, en|].
    destruct (slab_ok_blocks _ _ _ _ _ _ Hg _ _ Hok') as [[Hsep _] Hb]. destruct (Hb (a, block_size size)) as (H1 & H2 & H3 & _); [by left|]. cbn [fst snd] in *.
    split; [by apply block_size_ge|]. split; [destruct Hg as [? _ (? & ? & ? & ?) _ ?]; lia|]. split; [done|]. by exists pg, st, np, sl, fr, en.
  - destruct Hok as (segs & fl & ls & Hi & _). destruct (alloc_ok _ _ _ _ _ _ Hg _ _ _ _ _ Hi Hs) as (a & p' & Heq & _). by rewrite Heq in Ha.
Qed.

#[export] Instance ngx_slab : Slab.
Proof.
  refine {| pool := slab_pool; slab_blocks := slab_holds; HttpLimitReq.ngx_slab_alloc_locked := slab_alloc;
    HttpLimitReq.ngx_slab_free_locked p a := NgxSlab.ngx_slab_free_locked a p |}.
  - intros p B size a p' HB Hs Ha. pose proof (slab_holds_alloc _ _ _ HB Hs) as H. rewrite Ha in H. by exists (block_size size).
  - intros p B size p' HB Hs Ha. pose proof (slab_holds_alloc _ _ _ HB Hs) as H. by rewrite Ha in H.
  - intros p B b (pg & st & np & sl & fr & en & Hg & Hok). exists pg, st, np, sl, fr, en. split; [done|]. by apply slab_ok_free.
  - intros p B B' HB (pg & st & np & sl & fr & en & Hg & segs & fl & ls & Hi & Hp). exists pg, st, np, sl, fr, en. split; [done|].
    exists segs, fl, ls. by rewrite <- HB.
Defined.

(** ** A zone in a small pool *)

(** 80 bytes for the tree, its sentinel at 24 and the queue at 64. *)
Definition sample_pool : slab_pool := (slab_alloc (ngx_slab_init sample_memory) 80).2.

Lemma sample_held : held (H := ngx_slab) 4120 4160 sample_pool [].
Proof.
  assert (slab_holds (ngx_slab_init sample_memory) []) as Hi.
  { destruct (new_geometry _ sample_memory_new) as [Hg _]. do 6 eexists. split; [exact Hg|]. do 3 eexists. split; [by apply slab_init_ok, sample_memory_new|done]. }
  pose proof (slab_holds_alloc _ _ 80 Hi ltac:(lia)) as H. unfold sample_pool.
  assert ((slab_alloc (ngx_slab_init sample_memory) 80).1 = Some 4096) as Ha by (vm_compute; reflexivity).
  destruct (slab_alloc (ngx_slab_init sample_memory) 80) as [a p]. cbn [fst snd] in *. subst a. destruct H as (_ & _ & _ & Hb).
  exists [], [(4096, block_size 80)]. split; [exact Hb|]. split; [done|]. split; [constructor|].
  change (block_size 80) with 128. split; left; unfold within; cbn; lia.
Qed.
