(* ===== verification/HttpLimitReqTrace.v ===== *)
(** * HttpLimitReqTrace: processes that share a zone

    The worker processes take turns under the lock of the zone: lookups, and,
    for the nodes that they hold, accounts and releases.  No process is left
    with a node that is freed, and the rate is limited. *)

From stdpp Require Import gmap.
From S2P Require Import Prelude NgxSprintf NgxRbtree NgxQueue NgxCrc32 HttpLimitReq HttpLimitReqZone HttpLimitReqSlab.

(** ** Operations *)

(** The parts of the handler that run under the lock, for the process [p]; the
    clocks of processes may differ. *)
Inductive op : Type :=
  | Lookup (p : nat) (burst : Z) (k : list Z) (account : bool) (now : Z)
  | Account (p : nat) (now : Z)
  | Release (p : nat).

Section World.
Context `{Slab}.

(** The zone, and [ctx->node] of every process. *)
Record world : Type := World { w_zone : zone; w_nodes : list (option Z) }.

(** Whether there was an entry, the code, and the excess. *)
Definition outcome : Type := bool * Z * Z.

Section Run.
Context (s qh rate : Z).

Definition run_op (o : op) (w : world) : option (world * outcome) :=
  match o with
  | Lookup p burst k account now =>
      found ← search_loop s rb_fuel (ngx_crc32_short k) k (root (z_tree (w_zone w))) (w_zone w);
      '(rc, e, z, node) ← ngx_http_limit_req_lookup s qh rate burst (ngx_crc32_short k) k now account (w_zone w);
      let nodes := match node with Some n => <[p := Some n]> (w_nodes w) | None => w_nodes w end in
      Some (World z nodes, (match found with Some _ => true | None => false end, rc, e))
  | Account p now =>
      match mjoin (w_nodes w !! p) with
      | Some n =>
          '(e, z) ← account_node rate now n (w_zone w);
          Some (World z (<[p := None]> (w_nodes w)), (true, NGX_OK, e))
      | None => Some (w, (false, NGX_DECLINED, 0))
      end
  | Release p =>
      match mjoin (w_nodes w !! p) with
      | Some n =>
          z ← release_node n (w_zone w);
          Some (World z (<[p := None]> (w_nodes w)), (true, NGX_OK, 0))
      | None => Some (w, (false, NGX_DECLINED, 0))
      end
  end.

Fixpoint run (ops : list op) (w : world) : option (world * list outcome) :=
  match ops with
  | [] => Some (w, [])
  | o :: ops =>
      '(w, r) ← run_op o w;
      '(w, rs) ← run ops w;
      Some (w, r :: rs)
  end.
End Run.
End World.

(** Processes are numbered from 0, and keys are no longer than the handler lets them be. *)
Definition allowed (N : nat) (o : op) : bool :=
  match o with
  | Lookup p _ k _ _ => (p <? N)%nat && (Z.of_nat (length k) <=? 65535)
  | Account p _ | Release p => (p <? N)%nat
  end.

(** ** The specification *)

Section Spec.
Context (rate : Z).

(** The entries, and the key of the entry that each process holds. *)
Definition spec_state : Type := list lr_node * list (option (list Z)).

Definition change (k : list Z) (lr' : lr_node) (E : list lr_node) : list lr_node :=
  (fun lr => if decide (lr_data lr = k) then lr' else lr) <$> E.

(** [first] and [second] are whether allocations succeed. *)
Definition spec_op (first second : bool) (o : op) (S : spec_state) : option (spec_state * outcome) :=
  let '(E, hs) := S in
  match o with
  | Lookup p burst k account now =>
      let '(hit, rc, e, E) := spec_lookup rate burst k now account first second E in
      Some ((E, if rc =? NGX_AGAIN then <[p := Some k]> hs else hs), (hit, rc, e))
  | Account p now =>
      match mjoin (hs !! p) with
      | Some k =>
          lr ← spec_find k E;
          let e := drained rate lr now in
          Some ((change k (Lr k now e (u64 (lr_count lr - 1))) E, <[p := None]> hs), (true, NGX_OK, e))
      | None => Some ((E, hs), (false, NGX_DECLINED, 0))
      end
  | Release p =>
      match mjoin (hs !! p) with
      | Some k =>
          lr ← spec_find k E;
          Some ((change k (Lr k (lr_last lr) (lr_excess lr) (u64 (lr_count lr - 1))) E, <[p := None]> hs), (true, NGX_OK, 0))
      | None => Some ((E, hs), (false, NGX_DECLINED, 0))
      end
  end.

Fixpoint spec_run (flags : list (bool * bool)) (ops : list op) (S : spec_state) : option (spec_state * list outcome) :=
  match ops, flags with
  | o :: ops, (first, second) :: flags =>
      '(S, r) ← spec_op first second o S;
      '(S, rs) ← spec_run flags ops S;
      Some (S, r :: rs)
  | _, _ => Some (S, [])
  end.

(** ** The counts *)

(** The processes that hold the entry of [k]. *)
Definition holders (k : list Z) (hs : list (option (list Z))) : Z := Z.of_nat (length (filter (fun h => h = Some k) hs)).

(** An entry counts at least its holders, and is there as long as it has one. *)
Record counted (E : list lr_node) (hs : list (option (list Z))) (bound : Z) : Prop := {
  counted_keys : NoDup (lr_data <$> E);
  counted_some lr : lr ∈ E -> holders (lr_data lr) hs <= lr_count lr <= bound;
  counted_held k : 0 < holders k hs -> k ∈ lr_data <$> E
}.

Lemma holders_nonneg k hs : 0 <= holders k hs.
Proof. unfold holders. lia. Qed.

(** One process changes. *)
Lemma holders_change p h h0 k hs : hs !! p = Some h0 ->
  holders k (<[p := h]> hs) = holders k hs + (if decide (h = Some k) then 1 else 0) - (if decide (h0 = Some k) then 1 else 0).
Proof.
  intros Hp. unfold holders. rewrite insert_take_drop by (by eapply lookup_lt_Some).
  rewrite <- (take_drop_middle hs p h0 Hp) at 3. rewrite !filter_app, !filter_cons.
  repeat case_decide; rewrite !length_app; cbn [length]; lia.
Qed.

Lemma holders_in k hs : Some k ∈ hs -> 0 < holders k hs.
Proof.
  intros Hin. unfold holders. assert (Some k ∈ filter (fun h => h = Some k) hs) as Hf by (by apply list_elem_of_filter).
  destruct (filter (fun h => h = Some k) hs); [by apply not_elem_of_nil in Hf|cbn; lia].
Qed.

Lemma spec_find_some k E lr : spec_find k E = Some lr -> lr_data lr = k /\ lr ∈ E.
Proof.
  unfold spec_find. destruct (list_find _ E) as [[i x]|] eqn:Hf; [|done]. intros [= ->].
  apply list_find_Some in Hf as (Hi & Hd & _). split; [done|]. by eapply list_elem_of_lookup_2.
Qed.

Lemma expire_keeps fuel now n E lr : lr ∈ E -> lr_count lr <> 0 -> lr ∈ spec_expire rate fuel now n E.
Proof.
  revert n E. induction fuel as [|fuel IH]; intros n E Hin Hc; cbn [spec_expire]; [done|].
  destruct (last E) as [x|] eqn:Hl; [|done]. destruct ((n <? 3) && expires rate now n x) eqn:He; [|done].
  apply last_Some in Hl as [E' ->]. rewrite removelast_last. apply IH; [|done].
  apply elem_of_app in Hin as [?|Hin%list_elem_of_singleton]; [done|]. subst x. exfalso.
  apply andb_true_iff in He as [_ He]. unfold expires in He. apply andb_true_iff in He as [He%Z.eqb_eq _]. done.
Qed.

Lemma counted_expire fuel now n E hs b : counted E hs b -> counted (spec_expire rate fuel now n E) hs b.
Proof.
  intros [Hk Hs Hh]. pose proof (spec_expire_sublist rate fuel now n E) as Hsub. split.
  - eapply sublist_NoDup; [exact Hk|]. by apply fmap_sublist.
  - intros lr Hlr. apply Hs. by eapply sublist_subseteq.
  - intros k Hpos. specialize (Hh k Hpos). apply list_elem_of_fmap in Hh as (lr & -> & Hlr). apply list_elem_of_fmap_2.
    apply expire_keeps; [done|]. specialize (Hs lr Hlr). lia.
Qed.

Lemma put_in lr E x : x ∈ put lr E <-> x = lr \/ (x ∈ E /\ lr_data x <> lr_data lr).
Proof. unfold put, without. rewrite elem_of_cons, list_elem_of_filter. tauto. Qed.

Lemma counted_put E hs hs' b b' lr lr' :
  counted E hs b -> lr ∈ E -> lr_data lr' = lr_data lr -> b <= b' ->
  (forall k, k <> lr_data lr -> holders k hs' <= holders k hs) ->
  holders (lr_data lr) hs' <= lr_count lr' <= b' -> counted (put lr' E) hs' b'.
Proof.
  intros [Hk Hs Hh] Hlr Hd Hb Hother Hcount. split.
  - unfold put. cbn. constructor; [apply without_fst|by apply without_nodup].
  - intros x [->|[Hx Hne]]%put_in; [by rewrite Hd|]. rewrite Hd in Hne. specialize (Hs x Hx). specialize (Hother _ Hne). lia.
  - intros k Hpos. apply list_elem_of_fmap. destruct (decide (k = lr_data lr)) as [->|Hne].
    + exists lr'. split; [done|]. apply put_in. by left.
    + specialize (Hother k Hne). assert (k ∈ lr_data <$> E) as Hin by (apply Hh; lia).
      apply list_elem_of_fmap in Hin as (x & -> & Hx). exists x. split; [done|]. apply put_in. right. by rewrite Hd.
Qed.

Lemma counted_more E hs b b' : counted E hs b -> b <= b' -> counted E hs b'.
Proof. intros [Hk Hs Hh] Hb. split; try done. intros lr Hlr. specialize (Hs lr Hlr). lia. Qed.

(** An entry that nobody holds yet. *)
Lemma counted_new E hs hs' b lr :
  counted E hs b -> lr_data lr ∉ lr_data <$> E ->
  (forall k, k <> lr_data lr -> holders k hs' <= holders k hs) ->
  holders (lr_data lr) hs' <= lr_count lr <= b -> counted (lr :: E) hs' b.
Proof.
  intros [Hk Hs Hh] Hlr Hother Hcount. split.
  - cbn. by constructor.
  - intros x [->|Hx]%elem_of_cons; [done|]. specialize (Hs x Hx). assert (lr_data x <> lr_data lr) as Hne.
    { intros Heq. apply Hlr. rewrite <- Heq. by apply list_elem_of_fmap_2. }
    specialize (Hother _ Hne). lia.
  - intros k Hpos. cbn. apply elem_of_cons. destruct (decide (k = lr_data lr)) as [->|Hne]; [by left|right].
    specialize (Hother k Hne). apply Hh. lia.
Qed.

Lemma change_split E1 lr E2 lr' : NoDup (lr_data <$> (E1 ++ lr :: E2)) ->
  change (lr_data lr) lr' (E1 ++ lr :: E2) = E1 ++ lr' :: E2.
Proof.
  intros Hnd. rewrite <- Permutation_middle in Hnd. cbn in Hnd. apply NoDup_cons in Hnd as [Hlr _].
  assert (forall E, (forall x, x ∈ E -> x ∈ E1 ++ E2) -> change (lr_data lr) lr' E = E) as Hid.
  { unfold change. induction E as [|x E IH]; intros HE; [done|]. cbn. rewrite decide_False.
    - f_equal. apply IH. intros y Hy. apply HE. by right.
    - intros Heq. apply Hlr. rewrite <- Heq. apply list_elem_of_fmap_2, HE. by left. }
  unfold change. rewrite fmap_app. cbn. rewrite decide_True by done. fold (change (lr_data lr) lr' E1) (change (lr_data lr) lr' E2).
  rewrite !Hid; [done|..]; intros x Hx; apply elem_of_app; tauto.
Qed.

Lemma counted_perm E E' hs b : E ≡ₚ E' -> counted E hs b -> counted E' hs b.
Proof.
  intros HE [Hk Hs Hh]. split; [by rewrite <- HE|intros lr Hlr; apply Hs; by rewrite HE|].
  intros k Hpos. rewrite <- HE. by apply Hh.
Qed.

(** An entry whose count changes with its holders. *)
Lemma counted_change E hs hs' b b' lr lr' :
  counted E hs b -> lr ∈ E -> lr_data lr' = lr_data lr -> b <= b' ->
  (forall k, k <> lr_data lr -> holders k hs' <= holders k hs) ->
  holders (lr_data lr) hs' <= lr_count lr' <= b' -> counted (change (lr_data lr) lr' E) hs' b'.
Proof.
  intros Hc Hlr Hd Hb Hother Hcount. apply (counted_perm (put lr' E)); [|by eapply counted_put].
  apply list_elem_of_split in Hlr as (E1 & E2 & ->). rewrite change_split by apply Hc.
  unfold put. rewrite Hd, (proj2 (find_split _ _ _ (counted_keys _ _ _ Hc))). apply Permutation_middle.
Qed.

Lemma spec_lookup_counted burst k now account first second E hs p b hit rc e E' h0 :
  counted E hs b -> 0 <= b -> b + 1 < 2 ^ 64 -> hs !! p = Some h0 ->
  spec_lookup rate burst k now account first second E = (hit, rc, e, E') ->
  counted E' (if rc =? NGX_AGAIN then <[p := Some k]> hs else hs) (b + 1).
Proof.
  intros Hc Hb0 Hb Hp. unfold spec_lookup.
  assert (forall k', k' <> k -> holders k' (<[p := Some k]> hs) <= holders k' hs) as Hother.
  { intros k' Hne. rewrite (holders_change _ _ _ _ _ Hp). rewrite decide_False by congruence. case_decide; lia. }
  assert (holders k (<[p := Some k]> hs) <= holders k hs + 1) as Hself.
  { rewrite (holders_change _ _ _ _ _ Hp). rewrite decide_True by done. case_decide; lia. }
  assert (Hnk := holders_nonneg k (<[p := Some k]> hs)).
  destruct (spec_find k E) as [lr|] eqn:Hf.
  - apply spec_find_some in Hf as [Hd Hlr]. pose proof (counted_some _ _ _ Hc _ Hlr) as Hcount. rewrite Hd in Hcount.
    pose proof (holders_nonneg k hs) as Hnn.
    destruct (burst <? drained rate lr now); [|destruct account]; intros [= <- <- <- <-];
      [change (NGX_BUSY =? NGX_AGAIN) with false|change (NGX_OK =? NGX_AGAIN) with false|change (NGX_AGAIN =? NGX_AGAIN) with true]; cbn iota.
    + eapply counted_put; [exact Hc|exact Hlr|done|lia|done|]. rewrite Hd. lia.
    + eapply counted_put; [exact Hc|exact Hlr|done|lia|done|]. rewrite Hd. cbn. lia.
    + eapply counted_put; [exact Hc|exact Hlr|done|lia|by rewrite Hd|]. rewrite Hd. cbn [lr_count].
      unfold u64. rewrite Z.mod_small by lia. lia.
  - set (E1 := spec_expire rate 4 now 1 E).
    assert (Hnew : forall E0, counted E0 hs b -> sublist E0 E ->
      counted (new_lr k now account :: E0) (if (if account then NGX_OK else NGX_AGAIN) =? NGX_AGAIN then <[p := Some k]> hs else hs) (b + 1)).
    { intros E0 Hc0 Hsub. apply find_none in Hf. assert (k ∉ lr_data <$> E0) as Hk0.
      { intros Hin. apply Hf. eapply sublist_subseteq; [|exact Hin]. by apply fmap_sublist. }
      assert (holders k hs = 0) as Hz.
      { pose proof (holders_nonneg k hs). destruct (decide (0 < holders k hs)) as [Hpos|]; [|lia]. by apply (counted_held _ _ _ Hc0) in Hpos. }
      eapply counted_more with (b := b + 1); [|lia]. eapply counted_new; [by eapply counted_more; [exact Hc0|lia]|by destruct account|..].
      - destruct account; cbn; [done|]. by apply Hother.
      - destruct account; cbn; lia. }
    assert (counted E1 hs b) as Hc1 by by apply counted_expire.
    assert (sublist E1 E) as Hs1 by apply spec_expire_sublist.
    set (E2 := spec_expire rate 4 now 0 E1). assert (counted E2 hs b) as Hc2 by by apply counted_expire.
    assert (sublist E2 E) as Hs2 by (etransitivity; [apply spec_expire_sublist|done]). clearbody E1 E2.
    destruct first; [intros [= <- <- <- <-]; by apply Hnew|]. destruct second; intros [= <- <- <- <-]; [by apply Hnew|].
    change (NGX_ERROR =? NGX_AGAIN) with false. cbn iota. eapply counted_more; [done|lia].
Qed.

(** The process [p] gives its entry back. *)
Lemma spec_release E hs (p : nat) k b : counted E hs b -> 0 <= b -> hs !! p = Some (Some k) -> exists lr,
  spec_find k E = Some lr /\ lr ∈ E /\ lr_data lr = k /\
  (b < 2 ^ 64 -> forall t e, counted (change k (Lr k t e (u64 (lr_count lr - 1))) E) (<[p := None]> hs) (b + 1)).
Proof.
  intros Hc Hb0 Hp. assert (0 < holders k hs) as Hpos by (apply holders_in; by eapply list_elem_of_lookup_2).
  pose proof (counted_held _ _ _ Hc _ Hpos) as Hin. destruct (spec_find k E) as [lr|] eqn:Hf; [|by apply find_none in Hf].
  apply spec_find_some in Hf as [<- Hlr]. exists lr. split_and!; try done. intros Hb t e.
  pose proof (counted_some _ _ _ Hc _ Hlr) as Hcount.
  eapply counted_change; [exact Hc|exact Hlr|done|lia|..].
  - intros k' Hne. rewrite (holders_change _ _ _ _ _ Hp). rewrite decide_False by done. case_decide; lia.
  - cbn [lr_count]. unfold u64. rewrite Z.mod_small by lia. rewrite (holders_change _ _ _ _ _ Hp).
    rewrite decide_False, decide_True by done. lia.
Qed.
End Spec.

(** ** The processes and the specification *)

Section Simulation.
Context `{Slab} (s qh rate : Z) (Hs : 0 <= s < 2 ^ 64).

(** What a process has in [ctx->node] is the node of the entry that it holds. *)
Definition points (z : zone) (l : list Z) (nd : option Z) (h : option (list Z)) : Prop :=
  match nd, h with
  | Some a, Some k => a ∈ l /\ data_of (z_lr z) a = k
  | None, None => True
  | _, _ => False
  end.

Record sim (w : world) (S : spec_state) (b : Z) : Prop := {
  sim_counted : counted S.1 S.2 b;
  sim_bound : 0 <= b;
  sim_zone : exists l, rep s qh (w_zone w) l S.1 /\ Forall2 (points (w_zone w) l) (w_nodes w) S.2
}.

(** Processes whose entries are still there. *)
Lemma points_stay z l z' l' E' ns hs :
  stays z l z' l' E' -> (forall k, Some k ∈ hs -> k ∈ lr_data <$> E') ->
  Forall2 (points z l) ns hs -> Forall2 (points z' l') ns hs.
Proof.
  intros Hst Hin Hp. induction Hp as [|nd h ns hs Hh Hp IH]; [constructor|].
  constructor; [|apply IH; intros k Hk; apply Hin; by right].
  destruct nd as [a|], h as [k|]; try done. destruct Hh as [Ha Hd]. destruct (Hst a Ha) as [Ha' Hd'].
  { rewrite Hd. apply Hin. by left. }
  split; [done|]. by rewrite Hd'.
Qed.

Lemma counted_in E hs b k : counted E hs b -> Some k ∈ hs -> k ∈ lr_data <$> E.
Proof. intros Hc Hk. by apply (counted_held _ _ _ Hc), holders_in. Qed.

(** The process [p] takes the node [n], or none. *)
Lemma points_take z l z' l' E' b ns hs p nd h :
  stays z l z' l' E' -> counted E' (<[p := h]> hs) b -> points z' l' nd h ->
  Forall2 (points z l) ns hs -> Forall2 (points z' l') (<[p := nd]> ns) (<[p := h]> hs).
Proof.
  intros Hst Hc Hn Hp.
  assert (Forall2 (points z' l') (<[p := None]> ns) (<[p := None]> hs)) as Hnone.
  { eapply points_stay; [exact Hst| |by apply Forall2_insert]. intros k Hk. eapply counted_in; [exact Hc|].
    apply list_elem_of_lookup in Hk as [i Hi]. apply list_elem_of_lookup. exists i.
    apply list_lookup_insert_Some in Hi as [(_ & ? & _)|[Hne Hi]]; [done|]. by rewrite list_lookup_insert_ne. }
  rewrite <- (list_insert_insert_eq ns p nd None), <- (list_insert_insert_eq hs p h None). by apply Forall2_insert.
Qed.

(** The entries change in their places, but for their keys. *)
Lemma stays_update z l n lr lr' E' : z_lr z !! n = Some lr -> lr_data lr' = lr_data lr -> stays z l (set_lr n lr' z) l E'.
Proof. intros Hn Hd a Ha _. split; [done|]. cbn. by rewrite (data_of_insert _ _ lr). Qed.

(** The process [p] gives its node back. *)
Lemma release_sim w E hs b p a : sim w (E, hs) b -> b < 2 ^ 64 -> mjoin (w_nodes w !! p) = Some a -> exists k lr,
  mjoin (hs !! p) = Some k /\ z_lr (w_zone w) !! a = Some lr /\ spec_find k E = Some lr /\ lr_data lr = k /\
  forall t e, sim (World (set_lr a (Lr k t e (u64 (lr_count lr - 1))) (w_zone w)) (<[p := None]> (w_nodes w)))
    (change k (Lr k t e (u64 (lr_count lr - 1))) E, <[p := None]> hs) (b + 1).
Proof.
  intros [Hc Hb0 (l & Hr & Hp)] Hb Ha. cbn [fst snd] in *.
  destruct (w_nodes w !! p) as [[a'|]|] eqn:Hnp; simplify_eq/=.
  destruct (Forall2_lookup_l _ _ _ _ _ Hp Hnp) as ([k|] & Hhp & Hpt); [|done]. destruct Hpt as [Hal Hd].
  destruct (rep_split _ _ _ _ _ _ Hr Hal) as (l1 & l2 & E1 & E2 & lr & -> & -> & Hlr & H1 & H2 & Hnl).
  assert (lr_data lr = k) as Hdk by (rewrite <- Hd; unfold data_of; by rewrite Hlr).
  destruct (spec_release _ _ _ _ _ Hc Hb0 Hhp) as (lr0 & Hf & _ & _ & Hc').
  assert (lr0 = lr) as ->.
  { pose proof (proj1 (find_split _ _ _ (rep_keys _ _ _ _ _ Hr))) as Hf'. rewrite Hdk in Hf'. congruence. }
  exists k, lr. rewrite Hhp. split_and!; try done. intros t e. specialize (Hc' Hb t e). split; [exact Hc'|cbn; lia|].
  exists (l1 ++ a :: l2). cbn [w_zone w_nodes fst snd]. set (lr' := Lr k t e _) in *. split.
  - rewrite <- Hdk, change_split by apply Hc. by apply (rep_update _ _ _ _ _ _ _ _ lr).
  - eapply points_take; [by apply (stays_update _ _ _ lr)|exact Hc'|done|done].
Qed.

(** One operation. *)
Lemma run_op_sim N o w E hs b : sim w (E, hs) b -> length hs = N -> b + 1 < 2 ^ 64 -> allowed N o = true ->
  exists first second w' E' hs' r, run_op s qh rate o w = Some (w', r) /\ spec_op rate first second o (E, hs) = Some (E', hs', r) /\
    length hs' = N /\ sim w' (E', hs') (b + 1).
Proof.
  intros Hsim HN Hb Hal.
  assert (Hmore : sim w (E, hs) (b + 1)).
  { destruct Hsim as [Hc Hb0 Hz]. split; [eapply counted_more; [exact Hc|lia]|lia|done]. }
  assert (Hnone : forall p, mjoin (w_nodes w !! p) = None -> mjoin (hs !! p) = None).
  { intros p Hp. destruct Hsim as [_ _ (l & _ & Hpt)]. cbn [snd] in Hpt. apply (Forall2_lookup _ _ _) with (i := p) in Hpt.
    inversion Hpt as [x y Hxy Hx Hy|]; [|done]. destruct x, y; try done. by rewrite <- Hx in Hp. }
  destruct o as [p burst k account now|p now|p]; cbn [run_op spec_op allowed] in *.
  - apply andb_true_iff in Hal as [Hp%Nat.ltb_lt Hk%Z.leb_le]. destruct Hsim as [Hc Hb0 (l & Hr & Hpt)]. cbn [fst snd] in *.
    destruct (rep_lookup s qh rate Hs burst k now account _ _ _ Hr Hk) as (first & second & hit & rc & e & z' & l' & E' & nd & Hrun & Hspec & Hr' & Hst & (r & Hsearch & Hhit) & Hnd).
    destruct (lookup_lt_is_Some_2 hs p) as [h0 Hh0]; [lia|].
    pose proof (spec_lookup_counted _ _ _ _ _ _ _ _ _ _ _ _ _ _ _ _ Hc Hb0 Hb Hh0 Hspec) as Hc'.
    exists first, second. rewrite Hsearch, Hrun, Hspec. cbn [mbind option_bind].
    eexists _, _, _, _. split; [by rewrite <- Hhit|]. split; [done|].
    split; [destruct (rc =? NGX_AGAIN); [by rewrite length_insert|done]|].
    split; cbn [fst snd w_zone w_nodes]; [done|lia|]. exists l'. split; [done|].
    destruct (rc =? NGX_AGAIN).
    + destruct Hnd as (n & -> & Hn & Hdn). by eapply points_take.
    + subst nd. eapply points_stay; [done| |done]. intros k'. by eapply counted_in.
  - exists true, true. destruct (mjoin (w_nodes w !! p)) as [a|] eqn:Ha.
    + destruct (release_sim _ _ _ _ _ _ Hsim ltac:(lia) Ha) as (k & lr & -> & Hlr & -> & Hd & Hsim').
      unfold account_node. rewrite Hlr. cbn [mbind option_bind]. rewrite Hd. eexists _, _, _, _. split; [done|]. split; [done|].
      split; [by rewrite length_insert|apply Hsim'].
    + rewrite (Hnone _ Ha). by eexists _, _, _, _.
  - exists true, true. destruct (mjoin (w_nodes w !! p)) as [a|] eqn:Ha.
    + destruct (release_sim _ _ _ _ _ _ Hsim ltac:(lia) Ha) as (k & lr & -> & Hlr & -> & Hd & Hsim').
      unfold release_node. rewrite Hlr. cbn [mbind option_bind]. rewrite Hd. eexists _, _, _, _. split; [done|]. split; [done|].
      split; [by rewrite length_insert|apply Hsim'].
    + rewrite (Hnone _ Ha). by eexists _, _, _, _.
Qed.

Lemma run_sim N ops w E hs b : sim w (E, hs) b -> length hs = N -> b + Z.of_nat (length ops) < 2 ^ 64 -> forallb (allowed N) ops = true ->
  exists flags w' E' hs' rs, length flags = length ops /\ run s qh rate ops w = Some (w', rs) /\
    spec_run rate flags ops (E, hs) = Some (E', hs', rs) /\ length hs' = N /\ sim w' (E', hs') (b + Z.of_nat (length ops)).
Proof.
  revert w E hs b. induction ops as [|o ops IH]; intros w E hs b Hsim HN Hb Hal; cbn [length forallb run spec_run] in *.
  { exists [], w, E, hs, []. by rewrite Z.add_0_r. }
  apply andb_true_iff in Hal as [Ho Hal].
  destruct (run_op_sim N o _ _ _ _ Hsim HN ltac:(lia) Ho) as (first & second & w1 & E1 & hs1 & r & -> & Hspec & HN1 & Hsim1).
  destruct (IH _ _ _ _ Hsim1 HN1 ltac:(lia) Hal) as (flags & w' & E' & hs' & rs & Hfl & Hrun & Hspecs & HN' & Hsim').
  exists ((first, second) :: flags), w', E', hs', (r :: rs). cbn [length spec_run mbind option_bind]. rewrite Hrun, Hspec. cbn [mbind option_bind].
  rewrite Hspecs. split_and!; try done; [by f_equal|]. by replace (b + Z.of_nat (S (length ops))) with (b + 1 + Z.of_nat (length ops)) by lia.
Qed.

Lemma holders_none k N : holders k (replicate N None) = 0.
Proof. unfold holders. induction N as [|N IH]; [done|]. cbn [replicate]. by rewrite filter_cons_False. Qed.

(** A new zone. *)
Lemma init_sim st q p N : held s qh p [] ->
  sim (World (init_zone s qh st q p) (replicate N None)) ([], replicate N None) 0.
Proof.
  intros Hp. split; cbn [fst snd w_zone w_nodes]; [|done|].
  - split; [constructor|by intros lr ?%elem_of_nil|]. intros k Hk. by rewrite holders_none in Hk.
  - exists []. split; [by apply zone_init|by induction N; constructor].
Qed.
End Simulation.

(** ** Who holds a node *)

Lemma points_holding `{Slab} z l a ns hs : Forall2 (points z l) ns hs ->
  Z.of_nat (length (filter (fun nd => nd = Some a) ns)) <= holders (data_of (z_lr z) a) hs.
Proof.
  unfold holders. induction 1 as [|nd h ns hs Hp Hps IH]; [done|]. rewrite !filter_cons.
  destruct nd as [b|], h as [k|]; try done; repeat case_decide; cbn [length]; try lia; try done.
  destruct Hp as [_ Hd]. simplify_eq.
Qed.

(** C18. Sequences of lookups, accounts and releases by [N] processes with any
    clocks, starting from a new zone, end and give the codes and the excesses
    of the list of entries in the order of use, for some outcome of each
    allocation; and the node in [ctx->node] of a process is always that of an
    entry, that of the key it has looked up, with at least as many in its count
    as processes have the node, so that it is not freed under them. *)
Theorem limit_req_refines `{Slab} s qh rate st q p N ops :
  0 <= s < 2 ^ 64 -> held s qh p [] -> forallb (allowed N) ops = true -> Z.of_nat (length ops) < 2 ^ 64 ->
  exists flags w E hs rs,
    run s qh rate ops (World (init_zone s qh st q p) (replicate N None)) = Some (w, rs) /\
    length flags = length ops /\ spec_run rate flags ops ([], replicate N None) = Some (E, hs, rs) /\
    forall i a, w_nodes w !! i = Some (Some a) -> exists lr,
      z_lr (w_zone w) !! a = Some lr /\ lr ∈ E /\ hs !! i = Some (Some (lr_data lr)) /\
      Z.of_nat (length (filter (fun nd => nd = Some a) (w_nodes w))) <= lr_count lr.
Proof.
  intros Hs Hp Hal Hlen. pose proof (init_sim s qh st q p N Hp) as Hsim.
  destruct (run_sim s qh rate Hs N ops _ _ _ 0 Hsim ltac:(by rewrite length_replicate) ltac:(lia) Hal)
    as (flags & w & E & hs & rs & Hfl & Hrun & Hspec & _ & [Hc _ (l & Hr & Hpt)]).
  exists flags, w, E, hs, rs. split_and!; try done. intros i a Ha. cbn [fst snd] in *.
  destruct (Forall2_lookup_l _ _ _ _ _ Hpt Ha) as (h & Hk & Hpa). destruct h as [k|]; [|done]. destruct Hpa as [Hal' Hd].
  destruct (rep_in s qh _ _ _ _ Hr Hal') as (lr & Hlr & HE). exists lr.
  assert (lr_data lr = k) as Hdk by (rewrite <- Hd; unfold data_of; by rewrite Hlr).
  split_and!; try done; [by rewrite Hdk|].
  pose proof (points_holding _ _ a _ _ Hpt) as Hh. rewrite Hd, <- Hdk in Hh. etransitivity; [exact Hh|]. by apply (counted_some _ _ _ Hc).
Qed.

(** ** The rate *)

(** Lookups that account at once, in the order of time between [t] and [t'], with bursts up to [B]. *)
Fixpoint timely (B t t' : Z) (ops : list op) : bool :=
  match ops with
  | [] => true
  | Lookup _ burst _ true now :: ops => (0 <=? burst) && (burst <=? B) && (t <=? now) && (now <=? t') && timely B now t' ops
  | _ => false
  end.

(** The requests with the key [k] that are let through, *)
Fixpoint accepted (k : list Z) (ops : list op) (rs : list outcome) : Z :=
  match ops, rs with
  | Lookup _ _ k' _ _ :: ops, (_, rc, _) :: rs =>
      (if bool_decide (k' = k) && (rc =? NGX_OK) then 1 else 0) + accepted k ops rs
  | _ :: ops, _ :: rs => accepted k ops rs
  | _, _ => 0
  end.

(** and whether its entry is there for each of them. *)
Fixpoint hits (k : list Z) (ops : list op) (rs : list outcome) : bool :=
  match ops, rs with
  | Lookup _ _ k' _ _ :: ops, (hit, _, _) :: rs => (negb (bool_decide (k' = k)) || hit) && hits k ops rs
  | _ :: ops, _ :: rs => hits k ops rs
  | _, _ => true
  end.

Section Rate.
Context (rate : Z) (Hrate : 0 <= rate).

(** At the time [t], [n] requests since [t0]: the excess and what has been
    drained make up for all but the first. *)
Definition level (B t0 : Z) (k : list Z) (n t : Z) (E : list lr_node) : Prop :=
  n = 0 \/ 1000000 * (n - 1) <= 1000 * B + rate * (t - t0) /\
  forall lr, lr ∈ E -> lr_data lr = k ->
    0 <= lr_excess lr <= B /\ t0 <= lr_last lr <= t /\ 1000000 * (n - 1) <= 1000 * lr_excess lr + rate * (lr_last lr - t0).

Lemma level_later B t0 k n t t' E E' : t <= t' -> (forall lr, lr ∈ E' -> lr_data lr = k -> lr ∈ E) ->
  level B t0 k n t E -> level B t0 k n t' E'.
Proof.
  intros Ht HE [->|[Hn Hl]]; [by left|right]. split; [nia|]. intros lr Hlr Hd. specialize (Hl lr (HE lr Hlr Hd) Hd). lia.
Qed.

Lemma drained_le lr t0 T now B :
  0 <= lr_excess lr <= B -> B < 2 ^ 62 -> t0 <= lr_last lr <= now -> now <= t0 + T -> T < 2 ^ 63 -> rate * T < 2 ^ 63 ->
  1000 * lr_excess lr + 1000000 <= 1000 * drained rate lr now + rate * (now - lr_last lr).
Proof.
  intros He HB Hl Hnow HT HrT. unfold drained.
  assert (0 <= rate * (now - lr_last lr) <= rate * T) as Hd by nia.
  set (d := now - lr_last lr) in *. assert (0 <= d <= T) as Hd' by lia.
  rewrite (s64_u64 d), (Z.abs_eq d) by lia. assert (u64 (rate * d) = rate * d) as -> by (unfold u64; apply Z.mod_small; lia).
  set (x := rate * d) in *. clearbody x d. assert (0 <= x / 1000 <= x) by (split; [apply Z.div_pos; lia|apply Z.div_le_upper_bound; lia]).
  pose proof (Z.mul_div_le x 1000 ltac:(lia)). rewrite s64_u64 by lia. destruct (Z.ltb_spec (lr_excess lr - x / 1000 + 1000) 0); lia.
Qed.

Lemma drained_nonneg lr now : 0 <= drained rate lr now.
Proof. unfold drained. set (x := s64 _). by destruct (Z.ltb_spec x 0). Qed.

(** A lookup leaves the other entries, if they stay. *)
Lemma spec_lookup_others burst k now first second E hit rc e E' lr :
  spec_lookup rate burst k now true first second E = (hit, rc, e, E') -> lr ∈ E' -> lr_data lr <> k -> lr ∈ E.
Proof.
  intros Hspec Hlr Hne. unfold spec_lookup in Hspec. destruct (spec_find k E) as [x|] eqn:Hf.
  - apply spec_find_some in Hf as [Hd Hx]. destruct (burst <? drained rate x now); simplify_eq; apply put_in in Hlr; naive_solver.
  - assert (forall fuel n E0, sublist E0 E -> sublist (spec_expire rate fuel now n E0) E) as Hsub.
    { intros fuel n E0 HE0. etransitivity; [apply spec_expire_sublist|done]. }
    pose proof (Hsub 4%nat 1 E ltac:(done)) as H1. set (E1 := spec_expire rate 4 now 1 E) in *.
    pose proof (Hsub 4%nat 0 E1 H1) as H2. set (E2 := spec_expire rate 4 now 0 E1) in *. clearbody E1 E2.
    destruct first; [|destruct second]; injection Hspec as <- <- <- <-; [..|by apply (sublist_subseteq _ _ H2)];
      (apply elem_of_cons in Hlr as [->|Hlr]; [done|]); [by apply (sublist_subseteq _ _ H1)|by apply (sublist_subseteq _ _ H2)].
Qed.

Lemma level_lookup B t0 T k n t E burst k' now first second hit rc e E' :
  0 <= t0 -> B < 2 ^ 62 -> T < 2 ^ 63 -> rate * T < 2 ^ 63 -> 0 <= n ->
  level B t0 k n t E -> t0 <= t <= now -> now <= t0 + T -> 0 <= burst <= B ->
  spec_lookup rate burst k' now true first second E = (hit, rc, e, E') -> (k' = k -> hit = true) ->
  level B t0 k (n + (if bool_decide (k' = k) && (rc =? NGX_OK) then 1 else 0)) now E'.
Proof.
  intros Ht0 HB HT HrT Hn Hl Ht Hnow Hburst Hspec Hhit. destruct (decide (k' = k)) as [->|Hne].
  2:{ rewrite bool_decide_false by done. cbn [andb]. rewrite Z.add_0_r. eapply level_later; [..|exact Hl]; [lia|].
    intros lr Hlr Hd. eapply spec_lookup_others; [exact Hspec|done|congruence]. }
  rewrite bool_decide_true by done. cbn [andb]. specialize (Hhit eq_refl). unfold spec_lookup in Hspec.
  destruct (spec_find k E) as [lr|] eqn:Hf; [|repeat case_match; congruence]. apply spec_find_some in Hf as [Hd Hlr].
  destruct (Z.ltb_spec burst (drained rate lr now)) as [Hbusy|Hok]; injection Hspec as <- <- <- <-.
  - change (NGX_BUSY =? NGX_OK) with false. rewrite Z.add_0_r. eapply level_later; [..|exact Hl]; [lia|].
    intros x [->|[Hx _]]%put_in; done.
  - change (NGX_OK =? NGX_OK) with true. cbn iota. right. pose proof (drained_nonneg lr now) as Hnn.
    assert (1000000 * (n + 1 - 1) <= 1000 * drained rate lr now + rate * (now - t0)) as Hkey.
    { assert (0 <= rate * (now - t0)) by (apply Z.mul_nonneg_nonneg; lia). destruct Hl as [->|[_ Hl]]; [lia|]. specialize (Hl lr Hlr Hd) as (He & Hlast & Hl).
      pose proof (drained_le lr t0 T now B He HB ltac:(lia) Hnow HT HrT). rewrite !Z.mul_sub_distr_l in *. lia. }
    split; [nia|]. intros x [->|[_ Hx]]%put_in Hdx; [cbn; lia|]. cbn in Hx. congruence.
Qed.

Lemma level_run B t0 T k flags ops n t E hs S rs :
  0 <= t0 -> B < 2 ^ 62 -> T < 2 ^ 63 -> rate * T < 2 ^ 63 -> 0 <= n ->
  level B t0 k n t E -> t0 <= t <= t0 + T -> timely B t (t0 + T) ops = true ->
  length flags = length ops -> spec_run rate flags ops (E, hs) = Some (S, rs) -> hits k ops rs = true ->
  n + accepted k ops rs = 0 \/ 1000000 * (n + accepted k ops rs - 1) <= 1000 * B + rate * T.
Proof.
  intros Ht0 HB HT HrT. revert flags n t E hs S rs. induction ops as [|o ops IH]; intros flags n t E hs S rs Hn Hl Ht Htime Hfl Hrun Hh.
  { cbn. rewrite Z.add_0_r. destruct Hl as [->|[Hl _]]; [by left|right; nia]. }
  destruct flags as [|[first second] flags]; [done|]. destruct o as [p burst k' account now| |]; [|done..].
  destruct account; [|done]. cbn [timely] in Htime. rewrite !andb_true_iff, !Z.leb_le in Htime. destruct Htime as [[[[Hb0 HbB] Htn] HnT] Htime].
  cbn [spec_run spec_op] in Hrun. destruct (spec_lookup _ _ _ _ _ _ _ _) as [[[hit rc] e] E'] eqn:Hspec. cbn [mbind option_bind] in Hrun.
  destruct (spec_run rate flags ops _) as [[S' rs']|] eqn:Hrun'; [|done]. injection Hrun as <- <-.
  cbn [hits accepted] in *. apply andb_true_iff in Hh as [Hhit Hh]. rewrite Z.add_assoc.
  assert (k' = k -> hit = true) as Hhit' by (intros ->; by rewrite bool_decide_true in Hhit).
  pose proof (level_lookup B t0 T k n t E burst k' now first second hit rc e E' Ht0 HB HT HrT Hn Hl ltac:(lia) HnT ltac:(lia) Hspec Hhit') as Hl'.
  eapply IH; [|exact Hl'|lia|done|by injection Hfl|exact Hrun'|done]. destruct (_ && _); lia.
Qed.
End Rate.

(** C19. After any sequence of operations, let requests with any keys arrive in
    the order of the clocks that they see, within [T] milliseconds, and be
    accounted at once, as the last or only limit of a location does ([timely]).
    As long as the entry of a key is not removed meanwhile, the requests with that
    key that are let through are at most one, and [B / 1000] for the burst, and
    [rate / 1000] for each second.  The order is needed: see
    [limit_req_clocks_apart]. *)
Theorem limit_req_rate `{Slab} s qh rate st q p N ops1 ops2 B t0 T k :
  0 <= s < 2 ^ 64 -> held s qh p [] -> forallb (allowed N) (ops1 ++ ops2) = true -> Z.of_nat (length (ops1 ++ ops2)) < 2 ^ 64 ->
  0 <= rate -> 0 <= B < 2 ^ 62 -> 0 <= t0 -> 0 <= T < 2 ^ 63 -> rate * T < 2 ^ 63 -> timely B t0 (t0 + T) ops2 = true ->
  exists w1 rs1 w2 rs2,
    run s qh rate ops1 (World (init_zone s qh st q p) (replicate N None)) = Some (w1, rs1) /\
    run s qh rate ops2 w1 = Some (w2, rs2) /\
    (hits k ops2 rs2 = true -> 1000000 * (accepted k ops2 rs2 - 1) <= 1000 * B + rate * T).
Proof.
  intros Hs Hp Hal Hlen Hrate HB Ht0 HT HrT Htime. pose proof (init_sim s qh st q p N Hp) as Hsim.
  rewrite length_app in Hlen. rewrite forallb_app in Hal. apply andb_true_iff in Hal as [Hal1 Hal2].
  destruct (run_sim s qh rate Hs N ops1 _ _ _ 0 Hsim ltac:(by rewrite length_replicate) ltac:(lia) Hal1)
    as (flags1 & w1 & E1 & hs1 & rs1 & _ & Hrun1 & _ & HN1 & Hsim1).
  destruct (run_sim s qh rate Hs N ops2 _ _ _ _ Hsim1 HN1 ltac:(lia) Hal2) as (flags2 & w2 & E2 & hs2 & rs2 & Hfl2 & Hrun2 & Hspec2 & _).
  exists w1, rs1, w2, rs2. split_and!; try done. intros Hh.
  destruct (level_run rate Hrate B t0 T k flags2 ops2 0 t0 E1 hs1 _ rs2 Ht0 ltac:(lia) ltac:(lia) HrT ltac:(lia) ltac:(by left) ltac:(lia) Htime Hfl2 Hspec2 Hh); nia.
Qed.

(** ** Examples *)

(** A zone in a pool of two pages. *)
Definition sample_zone : world :=
  World (init_zone 4120 4160 (State (fun _ => Node NULL NULL NULL 0 0) NULL) (fun _ => Link NULL NULL) sample_pool) (replicate 2 None).

(** Two processes; one request in a second and a burst of two. *)
Definition sample_ops : list op :=
  [Lookup 0 2000 (bytes "a") false 5; Lookup 1 2000 (bytes "a") false 6; Lookup 0 2000 (bytes "b") true 7;
   Release 0; Lookup 0 2000 (bytes "c") true 8; Lookup 0 2000 (bytes "d") true 9; Account 1 10; Lookup 0 2000 (bytes "e") true 11;
   Lookup 1 2000 (bytes "a") true 50].

Lemma limit_req_refines_witness : exists flags w E hs rs,
  run 4120 4160 1000 sample_ops sample_zone = Some (w, rs) /\
  length flags = length sample_ops /\ spec_run 1000 flags sample_ops ([], replicate 2 None) = Some (E, hs, rs) /\
  forall i a, w_nodes w !! i = Some (Some a) -> exists lr,
    z_lr (w_zone w) !! a = Some lr /\ lr ∈ E /\ hs !! i = Some (Some (lr_data lr)) /\
    Z.of_nat (length (filter (fun nd => nd = Some a) (w_nodes w))) <= lr_count lr.
Proof. unfold sample_zone. apply limit_req_refines; [lia|apply sample_held|done|cbn; lia]. Defined.

Definition sample_requests : list op :=
  (fun now => Lookup 0 2000 (bytes "a") true now) <$> [100; 100; 101; 102; 600; 1050; 1100].

Lemma limit_req_rate_witness : exists w1 rs1 w2 rs2,
  run 4120 4160 1000 sample_ops sample_zone = Some (w1, rs1) /\ run 4120 4160 1000 sample_requests w1 = Some (w2, rs2) /\
  (hits (bytes "a") sample_requests rs2 = true -> 1000000 * (accepted (bytes "a") sample_requests rs2 - 1) <= 1000 * 2000 + 1000 * 1000).
Proof. unfold sample_zone. eapply (limit_req_rate 4120 4160 1000 _ _ _ 2 sample_ops sample_requests 2000 100); [lia|apply sample_held|done|cbn; lia|lia|lia|lia|lia|lia|done]. Defined.

(** Two processes whose clocks are a millisecond apart: the distance of the times
    is taken without its sign, so that each request drains what the last one
    has added. *)
Example limit_req_clocks_apart :
  let requests := (fun now => Lookup 0 0 (bytes "a") true now) <$> [100; 101; 100; 101; 100; 101] in
  let same := (fun now => Lookup 0 0 (bytes "a") true now) <$> [100; 100; 101; 101] in
  let codes ops := (fun r : world * list outcome => (fun o : outcome => o.1.2) <$> r.2) <$> run 4120 4160 1000000 ops sample_zone in
  codes requests = Some [NGX_OK; NGX_OK; NGX_OK; NGX_OK; NGX_OK; NGX_OK] /\
  codes same = Some [NGX_OK; NGX_BUSY; NGX_OK; NGX_BUSY].
Proof. split; vm_compute; reflexivity. Qed.
