(* ===== verification/HttpLimitReqHandler.v ===== *)
(** * HttpLimitReqHandler: the handler gives back what it takes

    The handler of HttpLimitReq, in a process among others: which of the
    operations of HttpLimitReqTrace it does to each of its zones
    ([handler_ops]), what it answers ([answers]), and that no entry stays in
    use for a request that has been answered. *)

From stdpp Require Import gmap.
From S2P Require Import Prelude NgxSprintf NgxRbtree NgxQueue NgxCrc32 HttpLimitReq HttpLimitReqZone HttpLimitReqSlab HttpLimitReqTrace.

Section Handler.
Context `{Slab} (N pr : nat).

(** What the process [pr] sees of a zone. *)
Definition seen (w : world) : ctx := Ctx (w_zone w) (mjoin (w_nodes w !! pr)).

(** A state that at most [b] operations of [N] processes have led to. *)
Definition reached (b : Z) (l : limit) (w : world) : Prop :=
  exists st q p ops rs, 0 <= l_s l < 2 ^ 64 /\ held (l_s l) (l_qh l) p [] /\ forallb (allowed N) ops = true /\
    Z.of_nat (length ops) <= b /\
    run (l_s l) (l_qh l) (l_rate l) ops (World (init_zone (l_s l) (l_qh l) st q p) (replicate N None)) = Some (w, rs).

(** The other processes have the nodes they had. *)
Definition others (w w' : world) : Prop := forall i, i <> pr -> w_nodes w' !! i = w_nodes w !! i.

Lemma run_app s qh rate ops1 ops2 w : run s qh rate (ops1 ++ ops2) w =
  '(w1, rs1) ← run s qh rate ops1 w; '(w2, rs2) ← run s qh rate ops2 w1; Some (w2, rs1 ++ rs2).
Proof.
  revert w. induction ops1 as [|o ops1 IH]; intros w; cbn [app run mbind option_bind].
  { destruct (run s qh rate ops2 w) as [[w2 rs2]|]; done. }
  destruct (run_op s qh rate o w) as [[w1 r]|]; [|done]. cbn [mbind option_bind]. rewrite IH.
  destruct (run s qh rate ops1 w1) as [[w2 rs2]|]; [|done]. cbn [mbind option_bind].
  destruct (run s qh rate ops2 w2) as [[w3 rs3]|]; done.
Qed.

Lemma reached_more b b' l w : reached b l w -> b <= b' -> reached b' l w.
Proof. intros (st & q & p & ops & rs & ? & ? & ? & ? & ?) Hb. exists st, q, p, ops, rs. split; [done|]. split; [done|]. split; [done|]. split; [lia|done]. Qed.

Lemma reached_sim b l w : reached b l w -> b < 2 ^ 64 ->
  0 <= l_s l < 2 ^ 64 /\ exists E hs b', sim (l_s l) (l_qh l) w (E, hs) b' /\ length hs = N /\ b' <= b.
Proof.
  intros (st & q & p & ops & rs & Hs & Hp & Hal & Hlen & Hrun) Hb. split; [done|].
  pose proof (init_sim (l_s l) (l_qh l) st q p N Hp) as Hsim.
  destruct (run_sim (l_s l) (l_qh l) (l_rate l) Hs N ops _ _ _ 0 Hsim ltac:(by rewrite length_replicate) ltac:(lia) Hal)
    as (flags & w1 & E & hs & rs1 & _ & Hrun1 & _ & HN & Hsim1). rewrite Hrun in Hrun1. injection Hrun1 as <- <-.
  by exists E, hs, (0 + Z.of_nat (length ops)).
Qed.

Lemma reached_nodes b l w : reached b l w -> b < 2 ^ 64 -> length (w_nodes w) = N.
Proof.
  intros Hr Hb. destruct (reached_sim _ _ _ Hr Hb) as (_ & E & hs & b' & [_ _ (l0 & _ & Hpt)] & HN & _).
  by rewrite (Forall2_length _ _ _ Hpt).
Qed.

Lemma reached_step b l w o : reached b l w -> b + 1 < 2 ^ 64 -> allowed N o = true ->
  exists w' r, run_op (l_s l) (l_qh l) (l_rate l) o w = Some (w', r) /\ reached (b + 1) l w'.
Proof.
  intros Hr Hb Ho. destruct (reached_sim _ _ _ Hr ltac:(lia)) as (Hs & E & hs & b' & Hsim & HN & Hb').
  destruct (run_op_sim (l_s l) (l_qh l) (l_rate l) Hs N o _ _ _ _ Hsim HN ltac:(lia) Ho) as (f1 & f2 & w' & E' & hs' & r & Hop & _).
  exists w', r. split; [done|]. destruct Hr as (st & q & p & ops & rs & _ & Hp & Hal & Hlen & Hrun).
  exists st, q, p, (ops ++ [o]), (rs ++ [r]). split; [done|]. split; [done|]. split; [|split].
  - by rewrite forallb_app, Hal; cbn; rewrite Ho.
  - rewrite length_app. cbn. lia.
  - rewrite run_app, Hrun. cbn [mbind option_bind run]. rewrite Hop. done.
Qed.

(** From [ws] to [ws'] with up to [n] operations on each zone. *)
Definition moved (b n : Z) (limits : list limit) (ws ws' : list world) : Prop :=
  Forall2 (reached (b + n)) limits ws' /\ Forall2 others ws ws'.

(** The process [pr] has no node. *)
Definition free (w : world) : Prop := mjoin (w_nodes w !! pr) = None.

Lemma moved_refl b n limits ws : 0 <= n -> Forall2 (reached b) limits ws -> moved b n limits ws ws.
Proof.
  intros Hn Hr. split; [eapply Forall2_impl; [exact Hr|]; intros l w Hw; eapply reached_more; [exact Hw|lia]|].
  clear Hr. by induction ws; constructor.
Qed.

Lemma moved_trans b n m limits ws1 ws2 ws3 : moved b n limits ws1 ws2 -> moved (b + n) m limits ws2 ws3 -> moved b (n + m) limits ws1 ws3.
Proof.
  intros [_ Ho] [Hr Ho']. split; [by rewrite Z.add_assoc|]. clear Hr. revert ws3 Ho'.
  induction Ho as [|w1 w2 ws1 ws2 H12 Ho IH]; intros ws3 Ho'; inversion Ho' as [|? w3 ? ws3' H23 Ho'']; subst; constructor.
  - intros i Hi. by rewrite (H23 i Hi), (H12 i Hi).
  - by apply IH.
Qed.

Lemma moved_cons b n l limits w w' ws ws' : reached (b + n) l w' -> others w w' -> moved b n limits ws ws' ->
  moved b n (l :: limits) (w :: ws) (w' :: ws').
Proof. intros Hr Ho [Hrs Hos]. split; by constructor. Qed.

(** ** The operations of the handler *)

(** The limits with other keys are passed over. *)
Definition usable (k : list Z) : bool := negb ((length k =? 0)%nat || (65535 <? Z.of_nat (length k))).

Definition lookup_ops (now : Z) (account : bool) (l : limit) (key : option (list Z)) : list op :=
  match key with
  | Some k => if usable k then [Lookup pr (l_burst l) k account now] else []
  | None => []
  end.

(** The lookup in each zone; that of the last limit accounts at once. *)
Fixpoint lookups (now : Z) (limits : list limit) (keys : list (option (list Z))) : list (list op) :=
  match limits, keys with
  | l :: limits, key :: keys =>
      lookup_ops now (match limits with [] => true | _ => false end) l key :: lookups now limits keys
  | _, _ => []
  end.

(** The zones up to the [n]-th are looked up, those before it get [last] as well. *)
Fixpoint turns (n : nat) (last : list op) (opss : list (list op)) : list (list op) :=
  match n, opss with
  | S n, ops :: opss => (ops ++ last) :: turns n last opss
  | O, ops :: opss => ops :: ((fun _ => []) <$> opss)
  | _, [] => []
  end.

(** The operations of each zone, from its state. *)
Fixpoint run_all (limits : list limit) (opss : list (list op)) (ws : list world) : option (list world * list (list outcome)) :=
  match limits, opss, ws with
  | l :: limits, ops :: opss, w :: ws =>
      '(w, rs) ← run (l_s l) (l_qh l) (l_rate l) ops w;
      '(ws, rss) ← run_all limits opss ws;
      Some (w :: ws, rs :: rss)
  | _, _, _ => Some ([], [])
  end.

(** How the handler ends: without looking anything up, at a key that cannot be
    evaluated, at a limit that is exceeded, or with the request let through. *)
Inductive verdict : Type := Skipped | Broken | Refused | Passed.

Definition ending (v : verdict) (now : Z) : list op :=
  match v with Refused => [Release pr] | Passed => [Account pr now] | _ => [] end.

(** A zone that is looked up has an entry for the key that is counted. *)
Definition again (ops : list op) (rs : list outcome) : Prop :=
  ops = [] \/ exists hit e rs', rs = (hit, NGX_AGAIN, e) :: rs'.

(** The delay for an excess in a zone, and the longest delay. *)
Definition delay_of (l : limit) (e : Z) : Z := if l_nodelay l then 0 else u64 (e * 1000) / l_rate l.

Definition last_excess (rs : list outcome) : Z := match last rs with Some (_, _, e) => e | None => 0 end.

Fixpoint longest (limits : list limit) (rss : list (list outcome)) : Z :=
  match limits, rss with
  | l :: limits, rs :: rss => Z.max (delay_of l (last_excess rs)) (longest limits rss)
  | _, _ => 0
  end.

(** What the handler returns for a verdict at the [n]-th limit: the code,
    [limit_req_set] and the delay, and what the zones have answered. *)
Definition answers (status_code : Z) (read_ok limit_req_set : bool) (now : Z) (limits : list limit)
    (keys : list (option (list Z))) (v : verdict) (n : nat) (rss : list (list outcome)) (res : Z * bool * Z) : Prop :=
  match v with
  | Skipped =>
      (limit_req_set = true \/ Forall (fun key => exists k, key = Some k /\ usable k = false) keys) /\
      res = (NGX_DECLINED, limit_req_set, 0)
  | Broken =>
      limit_req_set = false /\ keys !! n = Some None /\ Forall2 again (take n (lookups now limits keys)) (take n rss) /\
      res = (NGX_HTTP_INTERNAL_SERVER_ERROR, false, 0)
  | Refused =>
      limit_req_set = false /\ Forall2 again (take n (lookups now limits keys)) (take n rss) /\
      (exists hit rc e, rss !! n = Some [(hit, rc, e)] /\ (rc = NGX_BUSY \/ rc = NGX_ERROR)) /\
      res = (status_code, true, 0)
  | Passed =>
      limit_req_set = false /\ Forall2 again (take n (lookups now limits keys)) (take n rss) /\
      (n = length limits \/ S n = length limits /\ exists hit e, rss !! n = Some [(hit, NGX_OK, e)]) /\
      res = (if longest limits rss =? 0 then (NGX_DECLINED, true, 0)
             else if negb read_ok then (NGX_HTTP_INTERNAL_SERVER_ERROR, true, 0)
             else (NGX_AGAIN, true, longest limits rss))
  end.

(** What the zones are put through. *)
Definition handler_ops (v : verdict) (n : nat) (now : Z) (limits : list limit) (keys : list (option (list Z))) : list (list op) :=
  match v with
  | Skipped => (fun _ => []) <$> limits
  | _ => turns n (ending v now) (lookups now limits keys)
  end.

Lemma run_all_cons l limits ops opss w ws w' rs ws' rss :
  run (l_s l) (l_qh l) (l_rate l) ops w = Some (w', rs) -> run_all limits opss ws = Some (ws', rss) ->
  run_all (l :: limits) (ops :: opss) (w :: ws) = Some (w' :: ws', rs :: rss).
Proof. intros Hrun Hall. cbn [run_all]. rewrite Hrun. cbn [mbind option_bind]. by rewrite Hall. Qed.

Lemma run_one l w o w' r :
  run_op (l_s l) (l_qh l) (l_rate l) o w = Some (w', r) -> run (l_s l) (l_qh l) (l_rate l) [o] w = Some (w', [r]).
Proof. intros Ho. cbn [run]. by rewrite Ho. Qed.

Lemma run_all_none {A} (xs : list A) limits ws : length limits = length xs -> length ws = length xs ->
  run_all limits ((fun _ => []) <$> xs) ws = Some (ws, (fun _ => []) <$> xs).
Proof.
  revert limits ws. induction xs as [|x xs IH]; intros [|l limits] [|w ws] Hl Hw; try done.
  injection Hl as Hl. injection Hw as Hw. cbn [fmap list_fmap]. by apply run_all_cons; [|apply IH].
Qed.

Lemma lookups_length now limits keys : length keys = length limits -> length (lookups now limits keys) = length limits.
Proof. revert keys. induction limits as [|l limits IH]; intros [|k keys] Hk; try done. cbn in *. f_equal. apply IH. lia. Qed.

(** What all zones get after the lookups. *)
Definition ends (n : nat) (ops : list op) (limits : list limit) : list (list op) :=
  replicate n ops ++ replicate (length limits - n) [].

Lemma run_all_app limits opss ops ws ws1 rss1 ws2 rss2 n :
  length opss = length limits -> length ws = length limits -> (n <= length limits)%nat ->
  run_all limits (turns n [] opss) ws = Some (ws1, rss1) -> run_all limits (ends n ops limits) ws1 = Some (ws2, rss2) ->
  run_all limits (turns n ops opss) ws = Some (ws2, zip_with app rss1 rss2).
Proof.
  intros Ho Hw Hn. revert opss ws ws1 rss1 ws2 rss2 n Ho Hw Hn.
  induction limits as [|l limits IH]; intros [|ops1 opss] [|w ws] ws1 rss1 ws2 rss2 n Ho Hw Hn H1 H2; try done.
  { destruct n; [|cbn in Hn; lia]. cbn in H1, H2 |- *. by simplify_eq. }
  injection Ho as Ho. injection Hw as Hw. destruct n as [|n]; cbn [turns] in *.
  - cbn [run_all] in H1. destruct (run _ _ _ ops1 w) as [[w1 rs1]|] eqn:Hr1; [|done]. cbn [mbind option_bind] in H1.
    rewrite (run_all_none opss) in H1 by congruence. cbn in H1. simplify_eq. unfold ends in H2. cbn [replicate app] in H2.
    cbn [length Nat.sub replicate] in H2. cbn [run_all run mbind option_bind] in H2.
    assert (replicate (length limits) ([] : list op) = (fun _ => []) <$> opss) as E.
    { rewrite <- Ho. clear. by induction opss; cbn; f_equal. }
    rewrite E, (run_all_none opss) in H2 by congruence. cbn in H2. simplify_eq.
    cbn [zip_with]. rewrite app_nil_r. apply run_all_cons; [done|].
    rewrite (run_all_none opss) by congruence. do 2 f_equal. clear. by induction opss; cbn; f_equal.
  - rewrite app_nil_r in H1. cbn [run_all] in H1. destruct (run _ _ _ ops1 w) as [[w1 rs1]|] eqn:Hr1; [|done].
    cbn [mbind option_bind] in H1. destruct (run_all limits (turns n [] opss) ws) as [[ws1' rss1']|] eqn:Hr1'; [|done].
    cbn in H1. simplify_eq. unfold ends in H2. cbn [replicate app length Nat.sub] in H2. fold (ends n ops limits) in H2.
    cbn [run_all] in H2. destruct (run _ _ _ ops w1) as [[w2 rs2]|] eqn:Hr2; [|done]. cbn [mbind option_bind] in H2.
    destruct (run_all limits (ends n ops limits) ws1') as [[ws2' rss2']|] eqn:Hr2'; [|done]. cbn in H2. simplify_eq.
    cbn [zip_with]. apply run_all_cons; [|eapply IH; [done|done|cbn in Hn; lia|exact Hr1'|exact Hr2']].
    rewrite run_app, Hr1. cbn [mbind option_bind]. by rewrite Hr2.
Qed.

Lemma nothing_all {A} (xs : list A) : Forall (fun rs : list outcome => rs = []) ((fun _ => []) <$> xs).
Proof. by induction xs; constructor. Qed.

(** ** One zone *)

Context (Hpr : (pr < N)%nat).

Lemma seen_set w z nd : (pr < length (w_nodes w))%nat -> seen (World z (<[pr := nd]> (w_nodes w))) = Ctx z nd.
Proof. intros Hlen. unfold seen. cbn. by rewrite list_lookup_insert_eq. Qed.

Lemma others_set w z nd : others w (World z (<[pr := nd]> (w_nodes w))).
Proof. intros i Hi. cbn. by rewrite list_lookup_insert_ne. Qed.

Lemma run_lookup s qh rate p burst k account now w r rc e z nd :
  search_loop s rb_fuel (ngx_crc32_short k) k (root (z_tree (w_zone w))) (w_zone w) = Some r ->
  ngx_http_limit_req_lookup s qh rate burst (ngx_crc32_short k) k now account (w_zone w) = Some (rc, e, z, nd) ->
  run_op s qh rate (Lookup p burst k account now) w =
    Some (World z (match nd with Some n => <[p := Some n]> (w_nodes w) | None => w_nodes w end), (if r is Some _ then true else false, rc, e)).
Proof. intros Hsearch Hl. cbn [run_op]. rewrite Hsearch, Hl. cbn [mbind option_bind]. by destruct r. Qed.

Lemma spec_lookup_rc rate burst k now (account : bool) first second E hit rc e E' :
  spec_lookup rate burst k now account first second E = (hit, rc, e, E') ->
  rc = NGX_BUSY \/ rc = NGX_ERROR \/ rc = (if account then NGX_OK else NGX_AGAIN).
Proof.
  unfold spec_lookup. intros Hl.
  destruct (spec_find k E); [destruct (_ <? _), account|destruct first, second, account]; simplify_eq; auto.
Qed.

Lemma handler_lookup b l w k now (account : bool) : reached b l w -> b + 1 < 2 ^ 64 -> Z.of_nat (length k) <= 65535 ->
  exists hit rc e z nd w',
    ngx_http_limit_req_lookup (l_s l) (l_qh l) (l_rate l) (l_burst l) (ngx_crc32_short k) k now account (w_zone w) = Some (rc, e, z, nd) /\
    run_op (l_s l) (l_qh l) (l_rate l) (Lookup pr (l_burst l) k account now) w = Some (w', (hit, rc, e)) /\
    Ctx z (match nd with Some _ => nd | None => mjoin (w_nodes w !! pr) end) = seen w' /\ reached (b + 1) l w' /\ others w w' /\
    (rc = NGX_BUSY \/ rc = NGX_ERROR \/ rc = (if account then NGX_OK else NGX_AGAIN)) /\
    (rc <> NGX_AGAIN -> mjoin (w_nodes w' !! pr) = mjoin (w_nodes w !! pr)).
Proof.
  intros Hr Hb Hk. pose proof (reached_nodes _ _ _ Hr ltac:(lia)) as HN.
  destruct (reached_step b l w (Lookup pr (l_burst l) k account now) Hr Hb) as (w' & r & Hop & Hr').
  { cbn. apply andb_true_iff. split; [by apply Nat.ltb_lt|by apply Z.leb_le]. }
  destruct (reached_sim _ _ _ Hr ltac:(lia)) as (Hs & E & hs & b' & [_ _ (l0 & Hrep & _)] & _).
  destruct (rep_lookup _ _ (l_rate l) Hs (l_burst l) k now account _ _ _ Hrep Hk)
    as (f1 & f2 & hit & rc & e & z & l' & E' & nd & Hl & Hspec & _ & _ & (r0 & Hsearch & ->) & Hnd).
  apply spec_lookup_rc in Hspec. pose proof Hop as Hop'.
  rewrite (run_lookup _ _ _ _ _ _ _ _ _ _ _ _ _ _ Hsearch Hl) in Hop. injection Hop as <- <-.
  assert (rc <> NGX_AGAIN -> nd = None) as Hnone by (intros Hrc; by rewrite (proj2 (Z.eqb_neq rc NGX_AGAIN) Hrc) in Hnd).
  eexists _, rc, e, z, nd, (World z (match nd with Some n => <[pr := Some n]> (w_nodes w) | None => w_nodes w end)).
  split; [done|]. split; [exact Hop'|]. destruct nd as [n|].
  - split; [by rewrite seen_set by lia|]. split; [done|]. split; [apply others_set|]. split; [done|]. by intros ?%Hnone.
  - done.
Qed.

(** The turn of a zone in the loop that gives back. *)
Lemma release_turn b l w : reached b l w -> b + 1 < 2 ^ 64 -> exists w' r,
  match c_node (seen w) with
  | None => Some (seen w)
  | Some node => z ← release_node node (c_zone (seen w)); Some (Ctx z None)
  end = Some (seen w') /\
  run_op (l_s l) (l_qh l) (l_rate l) (Release pr) w = Some (w', r) /\ reached (b + 1) l w' /\ others w w' /\ free w'.
Proof.
  intros Hr Hb. pose proof (reached_nodes _ _ _ Hr ltac:(lia)) as HN.
  destruct (reached_step b l w (Release pr) Hr Hb) as (w' & r & Hop & Hr'); [by apply Nat.ltb_lt|].
  exists w', r. rewrite Hop. cbn [run_op] in Hop. cbn [seen c_node c_zone]. destruct (mjoin (w_nodes w !! pr)) as [n|] eqn:Hn.
  - destruct (release_node n (w_zone w)) as [z|]; [|done]. cbn [mbind option_bind] in *. injection Hop as <- _.
    split; [by rewrite seen_set by lia|]. split; [done|]. split; [done|]. split; [apply others_set|].
    unfold free. cbn. by rewrite list_lookup_insert_eq by lia.
  - injection Hop as <- _. done.
Qed.

(** The turn of a zone in [ngx_http_limit_req_account]. *)
Lemma account_turn_ok b l w now d : reached b l w -> b + 1 < 2 ^ 64 -> 0 <= d.1.1 -> exists d' w' hit rc e,
  account_turn now l (seen w) d = Some (d', seen w') /\
  run_op (l_s l) (l_qh l) (l_rate l) (Account pr now) w = Some (w', (hit, rc, e)) /\
  d'.1.1 = Z.max (delay_of l e) d.1.1 /\ reached (b + 1) l w' /\ others w w' /\ free w'.
Proof.
  intros Hr Hb Hd. pose proof (reached_nodes _ _ _ Hr ltac:(lia)) as HN.
  destruct (reached_step b l w (Account pr now) Hr Hb) as (w' & [[hit rc] e] & Hop & Hr'); [by apply Nat.ltb_lt|].
  unfold account_turn, delay_of. rewrite Hop. cbn [run_op] in Hop. cbn [seen c_node c_zone].
  destruct (mjoin (w_nodes w !! pr)) as [n|] eqn:Hn.
  - destruct (account_node (l_rate l) now n (w_zone w)) as [[e0 z]|]; [|done]. cbn [mbind option_bind] in *. simplify_eq.
    rewrite <- (seen_set w z None) by lia.
    assert (free (World z (<[pr:=None]> (w_nodes w)))) as Hf by (unfold free; cbn; by rewrite list_lookup_insert_eq by lia).
    destruct (l_nodelay l).
    + eexists _, _, _, _, _. split; [done|]. split; [done|]. split; [lia|]. split; [done|]. split; [apply others_set|done].
    + destruct (Z.ltb_spec d.1.1 (u64 (e * 1000) / l_rate l)); (eexists _, _, _, _, _; split; [done|]; split; [done|];
        split; [cbn; lia|]; split; [done|]; split; [apply others_set|done]).
  - simplify_eq. eexists _, _, _, _, _. split; [done|]. split; [done|]. split; [|done].
    change (u64 (0 * 1000)) with 0. destruct (l_nodelay l); [lia|]. rewrite Zdiv_0_l. lia.
Qed.

(** ** The loops *)

Lemma release_limits_ok b n limits ws : b + 1 < 2 ^ 64 -> Forall2 (reached b) limits ws -> (n <= length limits)%nat ->
  exists ws' rss,
    release_limits n (seen <$> ws) = Some (seen <$> ws') /\ run_all limits (ends n [Release pr] limits) ws = Some (ws', rss) /\
    length rss = length limits /\ Forall (fun rs => rs = []) (drop n rss) /\
    moved b 1 limits ws ws' /\ Forall free (take n ws') /\ drop n ws' = drop n ws.
Proof.
  intros Hb Hr. revert n. induction Hr as [|l w limits ws Hw Hr IH]; intros [|n] Hn; cbn [release_limits fmap list_fmap length] in *.
  - exists [], []. split; [done|]. split; [done|]. split; [done|]. split; [done|]. split; [by apply moved_refl|done].
  - lia.
  - exists (w :: ws), ((fun _ => []) <$> (l :: limits)). split; [done|]. split.
    { unfold ends. cbn [replicate app length]. rewrite Nat.sub_0_r.
      assert (replicate (S (length limits)) ([] : list op) = (fun _ => []) <$> (l :: limits)) as ->
        by (cbn; f_equal; clear; by induction limits; cbn; f_equal).
      apply run_all_none; [done|]. cbn. by rewrite (Forall2_length _ _ _ Hr). }
    split; [by rewrite length_fmap|]. split; [apply nothing_all|]. split; [apply moved_refl; [lia|by constructor]|done].
  - destruct (IH n ltac:(lia)) as (ws' & rss & -> & Hrun & Hlen & Hnil & Hm & Hf & Hd).
    destruct (release_turn b l w Hw Hb) as (w' & r & Hturn & Hop & Hw' & Ho & Hfree).
    exists (w' :: ws'), ([r] :: rss). cbn [mbind option_bind]. split.
    { revert Hturn. cbn [seen c_node c_zone]. destruct (mjoin (w_nodes w !! pr)) as [a|].
      - destruct (release_node a (w_zone w)) as [z|]; [|done]. cbn [mbind option_bind]. intros Hs.
        assert (Ctx z None = seen w') as -> by congruence. done.
      - intros Hs. assert (seen w = seen w') as -> by congruence. done. }
    split; [unfold ends; cbn [replicate app Nat.sub]; by apply run_all_cons; [by apply run_one|]|].
    split; [by cbn; f_equal|]. split; [done|]. split; [by apply moved_cons|]. split; [by constructor|done].
Qed.

Lemma account_limits_ok b n limits ws now d :
  b + 1 < 2 ^ 64 -> Forall2 (reached b) limits ws -> (n <= length limits)%nat -> 0 <= d.1.1 ->
  exists d' ws' rss,
    account_limits now n limits (seen <$> ws) d = Some (d', seen <$> ws') /\
    run_all limits (ends n [Account pr now] limits) ws = Some (ws', rss) /\ length rss = length limits /\
    d'.1.1 = Z.max (longest (take n limits) (take n rss)) d.1.1 /\ Forall (fun rs => rs <> []) (take n rss) /\
    Forall (fun rs => rs = []) (drop n rss) /\
    moved b 1 limits ws ws' /\ Forall free (take n ws') /\ drop n ws' = drop n ws.
Proof.
  intros Hb Hr. revert n. induction Hr as [|l w limits ws Hw Hr IH]; intros [|n] Hn Hd0; cbn [account_limits fmap list_fmap length] in *.
  - exists d, [], []. split; [done|]. split; [done|]. split; [done|]. split; [cbn; lia|]. split; [done|]. split; [done|]. split; [by apply moved_refl|done].
  - lia.
  - exists d, (w :: ws), ((fun _ => []) <$> (l :: limits)). split; [done|]. split.
    { unfold ends. cbn [replicate app length]. rewrite Nat.sub_0_r.
      assert (replicate (S (length limits)) ([] : list op) = (fun _ => []) <$> (l :: limits)) as ->
        by (cbn; f_equal; clear; by induction limits; cbn; f_equal).
      apply run_all_none; [done|]. cbn. by rewrite (Forall2_length _ _ _ Hr). }
    split; [by rewrite length_fmap|]. split; [cbn; lia|]. split; [done|]. split; [apply nothing_all|].
    split; [apply moved_refl; [lia|by constructor]|done].
  - destruct (IH n ltac:(lia) Hd0) as (d1 & ws' & rss & -> & Hrun & Hlen & Hd1 & Hne & Hnil & Hm & Hf & Hd). cbn [mbind option_bind].
    destruct (account_turn_ok b l w now d1 Hw Hb ltac:(lia)) as (d2 & w' & hit & rc & e & -> & Hop & Hd2 & Hw' & Ho & Hfree).
    cbn [mbind option_bind]. exists d2, (w' :: ws'), ([(hit, rc, e)] :: rss). split; [done|].
    split; [unfold ends; cbn [replicate app Nat.sub]; by apply run_all_cons; [by apply run_one|]|].
    split; [by cbn; f_equal|]. split; [cbn [take longest last_excess last]; lia|]. split; [by constructor|]. split; [done|].
    split; [by apply moved_cons|]. split; [by constructor|done].
Qed.

(** The loop of the lookups ends at the [m]-th of the limits. *)
Lemma lookup_limits_ok b limits ws now : b + 1 < 2 ^ 64 -> Forall2 (reached b) limits ws ->
  forall keys rc n ex, length keys = length limits -> exists r ws' rss m,
    lookup_limits now rc n ex limits keys (seen <$> ws) = Some (r, seen <$> ws') /\ moved b 1 limits ws ws' /\
    run_all limits (turns m [] (lookups now limits keys)) ws = Some (ws', rss) /\
    length rss = length limits /\ (m <= length limits)%nat /\
    Forall2 again (take m (lookups now limits keys)) (take m rss) /\ (Forall free ws -> Forall free (drop m ws')) /\
    match r with
    | None => keys !! m = Some None
    | Some (rc', n', ex') => n' = (n + m)%nat /\
        ((m = length limits /\ ((rc' = NGX_AGAIN /\ (0 < m)%nat) \/ rc' = rc /\ ws' = ws /\ Forall (fun key => exists k, key = Some k /\ usable k = false) keys)) \/
         (exists hit, rss !! m = Some [(hit, rc', ex')]) /\
           (rc' = NGX_BUSY \/ rc' = NGX_ERROR \/ rc' = NGX_OK /\ S m = length limits))
    end.
Proof.
  intros Hb Hr. induction Hr as [|l w limits ws Hw Hr IH]; intros keys rc n ex Hkeys; cbn [lookup_limits fmap list_fmap length] in *.
  { destruct keys; [|done]. exists (Some (rc, n, ex)), [], [], 0%nat. split; [done|]. split; [by apply moved_refl|].
    split; [done|]. split; [done|]. split; [done|]. split; [constructor|]. split; [done|].
    split; [lia|]. left. split; [done|]. right. by split_and!. }
  destruct keys as [|[k|] keys]; [done| |]; injection Hkeys as Hkeys; cbn [lookups].
  2:{ exists None, (w :: ws), ((fun _ => []) <$> (l :: limits)), 0%nat. split; [done|].
    split; [apply moved_refl; [lia|by constructor]|]. cbn [turns lookup_ops]. split.
    { apply run_all_cons; [done|]. rewrite (run_all_none (lookups now limits keys)).
      - do 2 f_equal. pose proof (lookups_length now limits keys Hkeys) as Hl. clear -Hl. revert Hl. generalize (lookups now limits keys).
        induction limits as [|l limits IH]; intros [|x xs] Hl; try done. cbn. f_equal. apply IH. by injection Hl.
      - by rewrite lookups_length.
      - rewrite lookups_length by done. by rewrite (Forall2_length _ _ _ Hr). }
    split; [by rewrite length_fmap|]. split; [lia|]. split; [constructor|]. by split. }
  unfold lookup_ops, usable. destruct ((length k =? 0)%nat || (65535 <? Z.of_nat (length k))) eqn:Hlen; cbn [negb].
  - destruct (IH keys rc (S n) ex Hkeys) as (r & ws' & rss & m & -> & Hm & Hrun & Hlr & Hml & Hag & Hf & Hres). cbn [mbind option_bind].
    exists r, (w :: ws'), ([] :: rss), (S m).
    split; [done|]. split; [apply moved_cons; [eapply reached_more; [done|lia]|done|done]|].
    split; [by apply run_all_cons|]. split; [by cbn; f_equal|]. split; [lia|]. split; [constructor; [by left|done]|].
    split; [intros Hfree; apply Hf; by inversion Hfree|]. destruct r as [[[rc' n'] e']|]; [|done].
    destruct Hres as [-> Hres]. split; [lia|]. destruct Hres as [[-> [[-> _]|(-> & -> & Hkall)]]|[Hhit Hrc]].
    + left. split; [done|]. left. split; [done|lia].
    + left. split; [done|]. right. split; [done|]. split; [done|]. constructor; [|done]. exists k. unfold usable. by rewrite Hlen.
    + right. split; [done|]. destruct Hrc as [?|[?|[? <-]]]; auto.
  - pose proof Hlen as Husable. apply orb_false_iff in Hlen as [_ Hlen%Z.ltb_ge].
    set (account := match limits with [] => true | _ => false end).
    destruct (handler_lookup b l w k now account Hw Hb Hlen) as (hit & rc1 & e & z & nd & w' & Hl & Hop & Hs & Hw' & Ho & Hcodes & Hnd).
    change (c_zone (seen w)) with (w_zone w). rewrite Hl. cbn [mbind option_bind].
    change (c_node (seen w)) with (mjoin (w_nodes w !! pr)). rewrite Hs. destruct (Z.eqb_spec rc1 NGX_AGAIN) as [->|Hrc]; cbn [negb].
    + destruct (IH keys NGX_AGAIN (S n) e Hkeys) as (r & ws' & rss & m & -> & Hm & Hrun & Hlr & Hml & Hag & Hf & Hres).
      cbn [mbind option_bind]. exists r, (w' :: ws'), ([(hit, NGX_AGAIN, e)] :: rss), (S m).
      split; [done|]. split; [by apply moved_cons|]. split; [apply run_all_cons; [by apply run_one|done]|].
      split; [by cbn; f_equal|]. split; [lia|]. split; [constructor; [right; by eexists _, _, _|done]|].
      split; [intros Hfree; apply Hf; by inversion Hfree|]. destruct r as [[[rc' n'] e']|]; [|done].
      destruct Hres as [-> Hres]. split; [lia|]. destruct Hres as [[-> [[-> _]|(-> & -> & Hkall)]]|[Hhit Hrc]].
      * left. split; [done|]. left. split; [done|lia].
      * left. split; [done|]. left. split; [done|lia].
      * right. split; [done|]. destruct Hrc as [?|[?|[? <-]]]; auto.
    + exists (Some (rc1, n, e)), (w' :: ws), ([(hit, rc1, e)] :: ((fun _ => []) <$> lookups now limits keys)), 0%nat.
      split; [done|]. split; [apply moved_cons; [done|done|apply moved_refl; [lia|done]]|]. cbn [turns].
      split. { apply run_all_cons; [by apply run_one|]. apply run_all_none; rewrite lookups_length by done; [done|].
        by rewrite (Forall2_length _ _ _ Hr). }
      split; [cbn; by rewrite length_fmap, lookups_length|]. split; [lia|]. split; [constructor|].
      split. { cbn [drop]. intros Hfree. inversion Hfree; subst. constructor; [|done]. unfold free. by rewrite Hnd. }
      split; [lia|]. right. split; [by exists hit|]. destruct Hcodes as [?|[?|Hc]]; [by left|by right; left|].
      right; right. subst account. destruct limits; [done|]. by subst.
Qed.
End Handler.

(** ** The delay *)

Lemma delay_of_nonneg l e : 0 <= l_rate l -> 0 <= delay_of l e.
Proof.
  intros Hr. unfold delay_of. destruct (l_nodelay l); [done|]. pose proof (Z.mod_pos_bound (e * 1000) (2 ^ 64) ltac:(done)). unfold u64.
  destruct (decide (l_rate l = 0)) as [->|]; [by rewrite Z.div_0_r|]. apply Z.div_pos; lia.
Qed.

Lemma delay_of_0 l : delay_of l 0 = 0.
Proof. unfold delay_of. destruct (l_nodelay l); [done|]. apply Zdiv_0_l. Qed.

(** What [ngx_http_limit_req_account] starts from. *)
Lemma start_delay l e :
  (if (s64 e =? 0) || l_nodelay l then 0 else u64 (s64 e * 1000) / l_rate l) = delay_of l e.
Proof.
  assert (u64 (e * 1000) = u64 (s64 e * 1000)) as E.
  { unfold u64, s64. pose proof (Z.div_mod (e + 2 ^ 63) (2 ^ 64) ltac:(done)) as Hd.
    replace (e * 1000) with (((e + 2 ^ 63) `mod` 2 ^ 64 - 2 ^ 63) * 1000 + ((e + 2 ^ 63) / 2 ^ 64 * 1000) * 2 ^ 64) by lia.
    by rewrite Z.mod_add. }
  unfold delay_of. rewrite E. destruct (l_nodelay l); [by rewrite orb_true_r|]. rewrite orb_false_r.
  destruct (Z.eqb_spec (s64 e) 0) as [->|]; [by rewrite Zdiv_0_l|done].
Qed.

Lemma last_excess_app rs1 rs2 : rs2 <> [] -> last_excess (rs1 ++ rs2) = last_excess rs2.
Proof.
  intros Hne. unfold last_excess. destruct rs2 as [|r rs2 _] using rev_ind; [done|].
  by rewrite app_assoc, !last_snoc.
Qed.

Lemma longest_nonneg limits rss : 0 <= longest limits rss.
Proof. revert rss. induction limits as [|l limits IH]; intros [|rs rss]; cbn; try lia. specialize (IH rss). lia. Qed.

Lemma longest_app n : forall limits rss1 rss2, length rss1 = length limits -> length rss2 = length limits ->
  Forall (fun rs => rs <> []) (take n rss2) -> Forall (fun rs => rs = []) (drop n rss2) ->
  longest limits (zip_with app rss1 rss2) =
    Z.max (longest (take n limits) (take n rss2)) (longest (drop n limits) (drop n rss1)).
Proof.
  induction n as [|n IH]; intros limits rss1 rss2 H1 H2 Hne Hnil.
  - cbn [take drop longest] in *. pose proof (longest_nonneg limits rss1). rewrite Z.max_r by done. f_equal.
    clear Hne H. revert rss1 rss2 H1 H2 Hnil. induction limits as [|l limits IH]; intros [|rs1 rss1] [|rs2 rss2] H1 H2 Hnil; try done.
    inversion Hnil as [|? ? -> Hnil']; subst. cbn [zip_with]. rewrite app_nil_r. change (rs1 :: zip_with app rss1 rss2 = rs1 :: rss1). f_equal. apply IH; [by injection H1|by injection H2|done].
  - destruct limits as [|l limits], rss1 as [|rs1 rss1], rss2 as [|rs2 rss2]; try done.
    cbn [take drop zip_with longest] in *. inversion Hne as [|? ? Hne1 Hne']; subst.
    injection H1 as H1. injection H2 as H2. rewrite last_excess_app by done. rewrite (IH limits rss1 rss2 H1 H2 Hne' Hnil). lia.
Qed.

Lemma again_app opss : forall rss1 rss2, Forall2 again opss rss1 -> length rss2 = length rss1 -> Forall2 again opss (zip_with app rss1 rss2).
Proof.
  induction opss as [|ops opss IH]; intros rss1 rss2 Hag Hlen; inversion Hag as [|? rs1 ? rss1' H1 Hag']; subst; [constructor|].
  destruct rss2 as [|rs2 rss2]; [done|]. cbn [zip_with]. constructor; [|by apply IH; [|injection Hlen]].
  destruct H1 as [->|(hit & e & rs' & ->)]; [by left|]. right. by exists hit, e, (rs' ++ rs2).
Qed.

(** The answer of the zone that ends the loop stays as it is. *)
Lemma zip_lookup n (rss1 rss2 : list (list outcome)) x : rss1 !! n = Some x -> length rss2 = length rss1 ->
  Forall (fun rs => rs = []) (drop n rss2) -> zip_with app rss1 rss2 !! n = Some x.
Proof.
  intros Hx Hlen Hnil. rewrite lookup_zip_with, Hx. cbn [mbind option_bind].
  destruct (lookup_lt_is_Some_2 rss2 n) as [rs Hrs]; [rewrite Hlen; by eapply lookup_lt_Some|]. rewrite Hrs. cbn.
  rewrite Forall_lookup in Hnil. specialize (Hnil 0%nat rs). rewrite lookup_drop, Nat.add_0_r in Hnil.
  by rewrite (Hnil Hrs), app_nil_r.
Qed.

(** The delay of a request that is let through. *)
Lemma passed_delay limits rss1 rss2 n rc ex l :
  length rss1 = length limits -> length rss2 = length limits ->
  Forall (fun rs => rs <> []) (take n rss2) -> Forall (fun rs => rs = []) (drop n rss2) ->
  n = length limits /\ (0 < n)%nat /\ rc = NGX_AGAIN \/
    rc = NGX_OK /\ S n = length limits /\ (exists hit, rss1 !! n = Some [(hit, NGX_OK, ex)]) ->
  limits !! (if rc =? NGX_AGAIN then pred n else n) = Some l -> 0 <= l_rate l ->
  Z.max (longest (take n limits) (take n rss2)) (delay_of l (if rc =? NGX_AGAIN then 0 else ex)) =
    longest limits (zip_with app rss1 rss2).
Proof.
  intros Hl1 Hl2 Hne Hnil Hok Hl Hrate. rewrite (longest_app n) by done.
  destruct Hok as [(-> & _ & ->)|(-> & HS & hit & Hhit)].
  - change (NGX_AGAIN =? NGX_AGAIN) with true. cbn iota. by rewrite delay_of_0, drop_all.
  - change (NGX_OK =? NGX_AGAIN) with false in Hl |- *. cbn iota in Hl |- *.
    rewrite (drop_S _ _ _ Hl), (drop_S (A := list outcome) _ _ _ Hhit).
    rewrite (drop_ge limits), (drop_ge rss1) by lia. cbn [longest last_excess last].
    pose proof (delay_of_nonneg l ex Hrate). f_equal. lia.
Qed.

(** ** The theorem *)

(** C20. On zones that any operations of [N] processes have led to, the handler
    ends, and does to the zones exactly this: those up to the [n]-th limit are
    looked up, and, when that limit is exceeded or fails, what was taken before it
    is released, or else accounted.  The code and the delay are those of
    [answers]; the other processes keep their nodes, what holds after any
    operations holds after it, and, unless a key cannot be evaluated, the process
    has no node afterwards when it had none before. *)
Theorem limit_req_handler_balanced `{Slab} N pr b status_code read_ok limit_req_set now limits keys ws :
  (pr < N)%nat -> b + 2 < 2 ^ 64 -> Forall2 (reached N b) limits ws -> length keys = length limits ->
  Forall (fun l => 0 <= l_rate l) limits ->
  exists code set' delay ws' v n rss,
    ngx_http_limit_req_handler status_code read_ok limit_req_set now limits keys (seen pr <$> ws) = Some (code, set', delay, seen pr <$> ws') /\
    run_all limits (handler_ops pr v n now limits keys) ws = Some (ws', rss) /\
    answers pr status_code read_ok limit_req_set now limits keys v n rss (code, set', delay) /\
    Forall2 (reached N (b + 2)) limits ws' /\ Forall2 (others pr) ws ws' /\
    (None ∉ keys -> Forall (free pr) ws -> Forall (free pr) ws').
Proof.
  intros Hpr Hb Hr Hkeys Hrates. unfold ngx_http_limit_req_handler. pose proof (Forall2_length _ _ _ Hr) as Hlw.
  assert (Hend : forall ws', moved N pr b 1 limits ws ws' -> moved N pr b 2 limits ws ws').
  { intros ws' [Hm Ho]. split; [|done]. eapply Forall2_impl; [exact Hm|]. intros l w Hw. eapply reached_more; [exact Hw|lia]. }
  destruct limit_req_set.
  { eexists _, _, _, ws, Skipped, 0%nat, _. split; [done|]. split; [by apply run_all_none|]. split; [by split; [left|]|].
    destruct (moved_refl N pr b 2 limits ws ltac:(lia) Hr) as [? ?]. done. }
  destruct (lookup_limits_ok N pr Hpr b limits ws now ltac:(lia) Hr keys NGX_DECLINED 0 0 Hkeys)
    as (r & ws1 & rss1 & n & -> & Hm1 & Hrun1 & Hl1 & Hn & Hag & Hf & Hres).
  cbn [mbind option_bind]. destruct r as [[[rc n0] ex]|].
  2:{ eexists _, _, _, ws1, Broken, n, _. split; [done|]. split; [exact Hrun1|]. split; [done|]. destruct (Hend _ Hm1) as [? ?].
    split; [done|]. split; [done|]. intros []. by eapply list_elem_of_lookup_2. }
  destruct Hres as [-> Hcase]. cbn [Nat.add].
  assert (Hall : forall ws2, Forall (free pr) (take n ws2) -> drop n ws2 = drop n ws1 -> Forall (free pr) ws -> Forall (free pr) ws2).
  { intros ws2 Ht Hd Hfree. rewrite <- (take_drop n ws2). apply Forall_app. split; [done|]. rewrite Hd. by apply Hf. }
  pose proof (Forall2_length _ _ _ (proj1 Hm1)) as Hlw1.
  destruct (Z.eqb_spec rc NGX_DECLINED) as [->|Hrc].
  { destruct Hcase as [[-> [[? _]|(_ & -> & Hskip)]]|[_ [?|[?|[? _]]]]]; try done.
    eexists _, _, _, ws, Skipped, 0%nat, _. split; [done|]. split; [by apply run_all_none|]. split; [by split; [right|]|].
    by destruct (moved_refl N pr b 2 limits ws ltac:(lia) Hr) as [? ?]. }
  destruct ((rc =? NGX_BUSY) || (rc =? NGX_ERROR)) eqn:Hbad.
  - destruct (release_limits_ok N pr Hpr (b + 1) n limits ws1 ltac:(lia) (proj1 Hm1) Hn)
      as (ws2 & rss2 & -> & Hrun2 & Hl2 & Hnil & Hm2 & Ht & Hd). cbn [mbind option_bind].
    destruct (moved_trans N pr b 1 1 _ _ _ _ Hm1 Hm2) as [? ?]. eexists _, _, _, ws2, Refused, n, (zip_with app rss1 rss2).
    split; [done|]. split; [apply (run_all_app limits _ _ ws ws1 rss1); [by apply lookups_length|by rewrite Hlw|done|done|done]|].
    split; [|split; [done|split; [done|by intros _; apply Hall]]]. split; [done|]. split.
    { rewrite zip_with_take. apply again_app; [done|]. rewrite !length_take. lia. }
    split; [|done]. destruct Hcase as [[-> [[-> _]|(-> & _)]]|[[hit Hhit] Hrc']]; [done|done|].
    exists hit, rc, ex. split; [apply zip_lookup; [done|congruence|done]|]. by destruct Hrc' as [?|[?|[-> _]]]; [left|right|].
  - assert (Hok : n = length limits /\ (0 < n)%nat /\ rc = NGX_AGAIN \/
      rc = NGX_OK /\ S n = length limits /\ exists hit, rss1 !! n = Some [(hit, NGX_OK, ex)]).
    { destruct Hcase as [[-> [[-> ?]|(-> & _)]]|[[hit Hhit] [->|[->|[-> ?]]]]]; try done; [by left|right; eauto]. }
    destruct (lookup_lt_is_Some_2 limits (if rc =? NGX_AGAIN then pred n else n)) as [l Hl].
    { destruct Hok as [(-> & ? & ->)|(-> & ? & _)]; cbn; lia. }
    rewrite Hl. cbn [mbind option_bind]. unfold ngx_http_limit_req_account. rewrite start_delay.
    set (e0 := if rc =? NGX_AGAIN then 0 else ex).
    assert (0 <= l_rate l) as Hrate by (rewrite Forall_lookup in Hrates; by eapply Hrates).
    destruct (account_limits_ok N pr Hpr (b + 1) n limits ws1 now (delay_of l e0, e0, l) ltac:(lia) (proj1 Hm1) Hn (delay_of_nonneg l e0 Hrate))
      as ([[delay e] l'] & ws2 & rss2 & -> & Hrun2 & Hl2 & Hdelay & Hne & Hnil & Hm2 & Ht & Hd).
    cbn [mbind option_bind fst snd] in *. destruct (moved_trans N pr b 1 1 _ _ _ _ Hm1 Hm2) as [? ?].
    subst e0. rewrite (passed_delay _ rss1 _ _ _ _ _ Hl1 Hl2 Hne Hnil Hok Hl Hrate) in Hdelay. subst delay.
    assert (Hans : forall res, res = (if longest limits (zip_with app rss1 rss2) =? 0 then (NGX_DECLINED, true, 0)
             else if negb read_ok then (NGX_HTTP_INTERNAL_SERVER_ERROR, true, 0)
             else (NGX_AGAIN, true, longest limits (zip_with app rss1 rss2))) ->
      answers pr status_code read_ok false now limits keys Passed n (zip_with app rss1 rss2) res).
    { intros res Hres. split; [done|]. split; [|split; [|exact Hres]].
      - rewrite zip_with_take. apply again_app; [done|]. rewrite !length_take. lia.
      - destruct Hok as [(-> & _)|(-> & HS & hit & Hhit)]; [by left|right]. split; [done|]. exists hit, ex. apply zip_lookup; [done|congruence|done]. }
    assert (Hrun : run_all limits (handler_ops pr Passed n now limits keys) ws = Some (ws2, zip_with app rss1 rss2))
      by (apply (run_all_app limits _ _ ws ws1 rss1); [by apply lookups_length|by rewrite Hlw|done|done|done]).
    destruct (longest limits (zip_with app rss1 rss2) =? 0); [|destruct read_ok];
      (eexists _, _, _, ws2, Passed, n, (zip_with app rss1 rss2); split; [done|]; split; [exact Hrun|]; split; [by apply Hans|];
       split; [done|]; split; [done|by intros _; apply Hall]).
Qed.

(** Two limits, the second of which refuses the request. *)
Definition sample_limits : list limit := [Limit 4120 4160 1000 0 false; Limit 4120 4160 1000 0 false].

Definition sample_run (ops : list op) : world :=
  match run 4120 4160 1000 ops sample_zone with Some (w, _) => w | None => sample_zone end.

Definition sample_worlds : list world := [sample_run []; sample_run [Lookup 1 0 (bytes "b") true 100]].

Lemma sample_reached ops : forallb (allowed 2) ops = true -> Z.of_nat (length ops) <= 1 ->
  reached 2 1 (Limit 4120 4160 1000 0 false) (sample_run ops).
Proof.
  intros Hal Hlen. unfold sample_run. destruct (run 4120 4160 1000 ops sample_zone) as [[w rs]|] eqn:Hrun.
  - eexists _, _, sample_pool, ops, rs. split; [cbn; lia|]. split; [apply sample_held|].
    split; [done|]. split; [done|]. exact Hrun.
  - eexists _, _, sample_pool, [], []. split; [cbn; lia|]. split; [apply sample_held|].
    split; [done|]. split; [cbn; lia|]. reflexivity.
Qed.

Definition sample_keys : list (option (list Z)) := [Some (bytes "a"); Some (bytes "b")].

Lemma limit_req_handler_balanced_witness : exists code set' delay ws' v n rss,
  ngx_http_limit_req_handler 503 true false 101 sample_limits sample_keys (seen 0 <$> sample_worlds) =
    Some (code, set', delay, seen 0 <$> ws') /\
  run_all sample_limits (handler_ops 0 v n 101 sample_limits sample_keys) sample_worlds = Some (ws', rss) /\
  answers 0 503 true false 101 sample_limits sample_keys v n rss (code, set', delay) /\
  Forall2 (reached 2 (1 + 2)) sample_limits ws' /\ Forall2 (others 0) sample_worlds ws' /\
  (None ∉ sample_keys -> Forall (free 0) sample_worlds -> Forall (free 0) ws').
Proof.
  apply limit_req_handler_balanced; [lia|lia| |done|]. 
  - unfold sample_worlds, sample_limits.
    constructor; [by apply sample_reached|]. constructor; [by apply sample_reached|constructor].
  - unfold sample_limits. repeat constructor; cbn; lia.
Defined.

(** The code, the delay and the nodes after a call. *)
Definition handled (limits : list limit) (keys : list (option (list Z))) : option (Z * Z * list (option Z)) :=
  match ngx_http_limit_req_handler 503 true false 101 limits keys (seen 0 <$> sample_worlds) with
  | Some (code, _, delay, cs) => Some (code, delay, c_node <$> cs)
  | None => None
  end.

(** The second zone refuses the request; with a burst it delays it, until the
    excess of 0.999 requests has been drained at one request in a second. *)
Example limit_req_refused :
  handled sample_limits sample_keys = Some (503, 0, [None; None]) /\
  handled [Limit 4120 4160 1000 0 false; Limit 4120 4160 1000 2000 false] sample_keys = Some (NGX_AGAIN, 999, [None; None]).
Proof. split; vm_compute; reflexivity. Qed.

(** A key that cannot be evaluated: the entry of the limit before it stays in use. *)
Example limit_req_key_error : handled sample_limits [Some (bytes "a"); None] = Some (500, 0, [Some 4224; None]).
Proof. vm_compute. reflexivity. Qed.
