(* ===== verification/HttpUpstreamRR.v ===== *)
(** * HttpUpstreamRR: the balancing of upstream servers

    http/ngx_http_upstream_round_robin.c: the peers made of the configured
    servers, the smooth weighted choice ([ngx_http_upstream_get_peer]), the
    fall back to the backup servers, and what the end of a connection changes.

    The array of peers that [next] chains is a list, a pointer into it an index.
    [tried] is the bit map of a request, a list of 64-bit words.  Times are
    arguments.  Weights and [fails] are unbounded: the code keeps them in machine
    words, which configured weights stay far below.  Locks, addresses, names and
    TLS sessions are left out. *)

From S2P Require Import Prelude.

(** ** Peers *)

(* http/ngx_http_upstream_round_robin.h:19-56 ngx_http_upstream_rr_peer_s *)
Record peer : Type := Peer {
  current_weight : Z;
  effective_weight : Z;
  weight : Z;
  conns : Z;
  max_conns : Z;
  fails : Z;
  accessed : Z;
  checked : Z;
  max_fails : Z;
  fail_timeout : Z;
  down : bool
}.

Definition eta_peer (x : peer) : peer :=
  Peer (current_weight x) (effective_weight x) (weight x) (conns x) (max_conns x) (fails x)
    (accessed x) (checked x) (max_fails x) (fail_timeout x) (down x).
Definition set_current_weight := ltac:(setter eta_peer current_weight).
Definition set_effective_weight := ltac:(setter eta_peer effective_weight).
Definition set_conns := ltac:(setter eta_peer conns).
Definition set_fails := ltac:(setter eta_peer fails).
Definition set_accessed := ltac:(setter eta_peer accessed).
Definition set_checked := ltac:(setter eta_peer checked).

(* http/ngx_http_upstream_round_robin.h:61-80 ngx_http_upstream_rr_peers_s *)
Record peers : Type := Peers {
  number : Z;
  total_weight : Z;
  single : bool;
  weighted : bool;
  peer_list : list peer
}.

Definition set_peer_list (ps : list peer) (g : peers) : peers :=
  Peers (number g) (total_weight g) (single g) (weighted g) ps.

(** The servers of an upstream block and, in [next], its backup servers. *)
Record upstream : Type := Upstream { primary : peers; next : option peers }.

(** What a request remembers: whether it has turned to the backup servers, the
    peer it uses, the peers it has tried. *)
(* http/ngx_http_upstream_round_robin.h:127-133 ngx_http_upstream_rr_peer_data_t *)
Record peer_data : Type := PeerData {
  on_backup : bool;
  current : option nat;
  tried : list Z
}.

(** ** Configuration *)

(** A server line: the number of its addresses and its parameters. *)
Record server : Type := Server {
  naddrs : nat;
  s_weight : Z;
  s_max_conns : Z;
  s_max_fails : Z;
  s_fail_timeout : Z;
  s_down : bool;
  backup : bool
}.

(** The structures are zeroed by [ngx_pcalloc]. *)
(* http/ngx_http_upstream_round_robin.c:88-106 ngx_http_upstream_init_round_robin: for j *)
Definition server_peers (s : server) : list peer :=
  replicate (naddrs s)
    (Peer 0 (s_weight s) (s_weight s) 0 (s_max_conns s) 0 0 0 (s_max_fails s) (s_fail_timeout s)
       (s_down s)).

Fixpoint sum_of (f : server -> Z) (l : list server) : Z :=
  match l with [] => 0 | s :: l => f s + sum_of f l end.

(** The group of the servers [l]; [is_single] is what [single] is set to. *)
(* http/ngx_http_upstream_round_robin.c:43-107 ngx_http_upstream_init_round_robin: the servers *)
Definition make_peers (is_single : Z -> bool) (l : list server) : peers :=
  let n := sum_of (fun s => Z.of_nat (naddrs s)) l in
  let w := sum_of (fun s => Z.of_nat (naddrs s) * s_weight s) l in
  Peers n w (is_single n) (negb (w =? n)) (concat (server_peers <$> l)).

(** [None] for [NGX_ERROR].  With backup servers the primary group is never
    [single]. *)
(* http/ngx_http_upstream_round_robin.c:30-174 ngx_http_upstream_init_round_robin *)
Definition ngx_http_upstream_init_round_robin (servers : list server) : option upstream :=
  let prim := filter (fun s => negb (backup s)) servers in
  let back := filter (fun s => backup s) servers in
  if sum_of (fun s => Z.of_nat (naddrs s)) prim =? 0 then None
  else if sum_of (fun s => Z.of_nat (naddrs s)) back =? 0 then
    Some (Upstream (make_peers (fun n => n =? 1) prim) None)
  else
    Some (Upstream (make_peers (fun _ => false) prim) (Some (make_peers (fun _ => false) back))).

Definition word_bits : Z := 64.

Definition words (n : Z) : Z := (n + (word_bits - 1)) / word_bits.

(* http/ngx_http_upstream_round_robin.c:243-295 ngx_http_upstream_init_round_robin_peer *)
Definition ngx_http_upstream_init_round_robin_peer (us : upstream) : peer_data :=
  let n := number (primary us) in
  let n := match next us with
           | Some g => if n <? number g then number g else n
           | None => n
           end in
  PeerData false None (replicate (if n <=? word_bits then 1%nat else Z.to_nat (words n)) 0).

(** ** The choice of a peer *)

Definition tried_word (i : nat) : nat := Z.to_nat (Z.of_nat i / word_bits).
Definition tried_mask (i : nat) : Z := Z.shiftl 1 (Z.of_nat i `mod` word_bits).

Definition is_tried (tried : list Z) (i : nat) : bool :=
  negb (Z.land (nth (tried_word i) tried 0) (tried_mask i) =? 0).

(** The [continue]s of the loop. *)
(* http/ngx_http_upstream_round_robin.c:529-549 ngx_http_upstream_get_peer: continue *)
Definition passed_over (now : Z) (tried : list Z) (i : nat) (p : peer) : bool :=
  is_tried tried i || down p ||
  (negb (max_fails p =? 0) && (max_fails p <=? fails p) && (now - checked p <=? fail_timeout p)) ||
  (negb (max_conns p =? 0) && (max_conns p <=? conns p)).

(** [best] with its [current_weight]; the peers after the loop, [best] and
    [total]. *)
(* http/ngx_http_upstream_round_robin.c:525-562 ngx_http_upstream_get_peer: for *)
Fixpoint get_loop (now : Z) (tried : list Z) (i : nat) (best : option (nat * Z)) (total : Z)
  (ps : list peer) : list peer * option (nat * Z) * Z :=
  match ps with
  | [] => ([], best, total)
  | p :: ps =>
      if passed_over now tried i p then
        let '(ps, best, total) := get_loop now tried (S i) best total ps in
        (p :: ps, best, total)
      else
        let total := total + effective_weight p in
        let p := set_current_weight (current_weight p + effective_weight p) p in
        let p := if effective_weight p <? weight p
                 then set_effective_weight (effective_weight p + 1) p else p in
        let best := match best with
                    | None => Some (i, current_weight p)
                    | Some (_, b) => if b <? current_weight p then Some (i, current_weight p) else best
                    end in
        let '(ps, best, total) := get_loop now tried (S i) best total ps in
        (p :: ps, best, total)
  end.

(** [None] for [NULL]. *)
(* http/ngx_http_upstream_round_robin.c:507-582 ngx_http_upstream_get_peer *)
Definition ngx_http_upstream_get_peer (now : Z) (g : peers) (d : peer_data)
  : option (peers * peer_data) :=
  let '(ps, best, total) := get_loop now (tried d) 0 None 0 (peer_list g) in
  match best with
  | None => None
  | Some (p, _) =>
      let tried := alter (fun w => Z.lor w (tried_mask p)) (tried_word p) (tried d) in
      let ps := alter (fun best =>
        let best := set_current_weight (current_weight best - total) best in
        if fail_timeout best <? now - checked best then set_checked now best else best) p ps in
      Some (set_peer_list ps g, PeerData (on_backup d) (Some p) tried)
  end.

(** A peer of one group; its number of connections is counted. *)
(* http/ngx_http_upstream_round_robin.c:435-467 ngx_http_upstream_get_round_robin_peer: peers *)
Definition get_from (now : Z) (g : peers) (d : peer_data) : option (peers * peer_data) :=
  '(g, d) ←
    (if single g then
       match peer_list g with
       | [] => None
       | p :: _ =>
           if down p then None
           else if negb (max_conns p =? 0) && (max_conns p <=? conns p) then None
           else Some (g, PeerData (on_backup d) (Some 0%nat) (tried d))
       end
     else ngx_http_upstream_get_peer now g d);
  i ← current d;
  Some (set_peer_list (alter (fun p => set_conns (u64 (conns p + 1)) p) i (peer_list g)) g, d).

(** [true] for [NGX_OK], [false] for [NGX_BUSY]. *)
(* http/ngx_http_upstream_round_robin.c:416-504 ngx_http_upstream_get_round_robin_peer *)
Definition ngx_http_upstream_get_round_robin_peer (now : Z) (us : upstream) (d : peer_data)
  : upstream * peer_data * bool :=
  if on_backup d then
    match next us with
    | None => (us, d, false)
    | Some g =>
        match get_from now g d with
        | Some (g, d) => (Upstream (primary us) (Some g), d, true)
        | None => (us, d, false)
        end
    end
  else
    match get_from now (primary us) d with
    | Some (g, d) => (Upstream g (next us), d, true)
    | None =>
        match next us with
        | None => (us, d, false)
        | Some g =>
            let n := Z.to_nat (words (number g)) in
            let d := PeerData true (current d) (replicate n 0 ++ drop n (tried d)) in
            match get_from now g d with
            | Some (g, d) => (Upstream (primary us) (Some g), d, true)
            | None => (us, d, false)
            end
        end
    end.

(** ** The end of a connection *)

(** [conns] is unsigned. *)
(* http/ngx_http_upstream_round_robin.c:604-648 ngx_http_upstream_free_round_robin_peer: the peer *)
Definition free_peer (now : Z) (is_single failed : bool) (p : peer) : peer :=
  let p :=
    if is_single then p
    else if failed then
      let p := set_checked now (set_accessed now (set_fails (fails p + 1) p)) in
      let p := if negb (max_fails p =? 0)
               then set_effective_weight (effective_weight p - weight p / max_fails p) p else p in
      if effective_weight p <? 0 then set_effective_weight 0 p else p
    else if accessed p <? checked p then set_fails 0 p else p in
  set_conns (u64 (conns p - 1)) p.

Definition free_in (now : Z) (failed : bool) (i : nat) (g : peers) : peers :=
  set_peer_list (alter (free_peer now (single g) failed) i (peer_list g)) g.

(** [failed] is [state & NGX_PEER_FAILED]; the new [pc->tries]. *)
(* http/ngx_http_upstream_round_robin.c:585-656 ngx_http_upstream_free_round_robin_peer *)
Definition ngx_http_upstream_free_round_robin_peer (now : Z) (failed : bool) (us : upstream)
  (d : peer_data) (tries : Z) : upstream * Z :=
  match current d with
  | None => (us, tries)
  | Some i =>
      let g := if on_backup d then default (primary us) (next us) else primary us in
      let tries := if single g then 0 else if tries =? 0 then 0 else tries - 1 in
      (if on_backup d
       then Upstream (primary us) (free_in now failed i <$> next us)
       else Upstream (free_in now failed i (primary us)) (next us), tries)
  end.

(** ** What the loop finds *)

Lemma is_tried_bit tried i :
  is_tried tried i = Z.testbit (nth (tried_word i) tried 0) (Z.of_nat i `mod` word_bits).
Proof. unfold is_tried, tried_mask. apply land_bit. by apply Z.mod_pos_bound. Qed.

(** A peer that takes part in a choice. *)
Definition bump (p : peer) : peer :=
  let p := set_current_weight (current_weight p + effective_weight p) p in
  if effective_weight p <? weight p then set_effective_weight (effective_weight p + 1) p else p.

(** The peers that take part, with the weight they get. *)
Fixpoint candidates (now : Z) (tried : list Z) (i : nat) (ps : list peer) : list (nat * Z) :=
  match ps with
  | [] => []
  | p :: ps =>
      if passed_over now tried i p then candidates now tried (S i) ps
      else (i, current_weight p + effective_weight p) :: candidates now tried (S i) ps
  end.

Definition better (best : option (nat * Z)) (c : nat * Z) : option (nat * Z) :=
  match best with
  | None => Some c
  | Some (_, b) => if b <? snd c then Some c else best
  end.

Fixpoint bumped (now : Z) (tried : list Z) (i : nat) (ps : list peer) : list peer :=
  match ps with
  | [] => []
  | p :: ps => (if passed_over now tried i p then p else bump p) :: bumped now tried (S i) ps
  end.

Fixpoint total_of (now : Z) (tried : list Z) (i : nat) (ps : list peer) : Z :=
  match ps with
  | [] => 0
  | p :: ps =>
      (if passed_over now tried i p then 0 else effective_weight p) + total_of now tried (S i) ps
  end.

Lemma get_loop_spec now tried ps : forall i best total,
  get_loop now tried i best total ps =
    (bumped now tried i ps, fold_left better (candidates now tried i ps) best,
     total + total_of now tried i ps).
Proof.
  induction ps as [|p ps IH]; intros i best total; simpl; [by rewrite Z.add_0_r|].
  destruct (passed_over now tried i p).
  - rewrite IH. by rewrite Z.add_0_l.
  - cbn. rewrite IH. unfold bump. cbn.
    assert (current_weight (if effective_weight p <? weight p
      then set_effective_weight (effective_weight p + 1)
             (set_current_weight (current_weight p + effective_weight p) p)
      else set_current_weight (current_weight p + effective_weight p) p)
      = current_weight p + effective_weight p) as -> by (by destruct (_ <? _)).
    rewrite Z.add_assoc. destruct best as [[j b]|]; [|done]. simpl. by destruct (_ <? _).
Qed.

(** [l] is sorted by the index: the choice is the first of the largest. *)
Lemma better_spec cs : forall best,
  match fold_left better cs best with
  | None => best = None /\ cs = []
  | Some (j, v) =>
      (Some (j, v) = best \/ (j, v) ∈ cs) /\
      (forall k u, (k, u) ∈ cs -> u <= v) /\
      (forall k u, best = Some (k, u) -> u <= v /\ (u = v -> (j, v) = (k, u)))
  end.
Proof.
  induction cs as [|[i w] cs IH]; intros best; cbn [fold_left].
  { destruct best as [[j v]|]; [|done]. split; [by left|]. split; [intros ? ? H; by apply elem_of_nil in H|].
    intros k u E. simplify_eq. done. }
  specialize (IH (better best (i, w))). destruct (fold_left better cs _) as [[j v]|].
  - destruct IH as (H1 & H2 & H3). destruct best as [[k0 u0]|]; simpl in *.
    + destruct (Z.ltb_spec u0 w).
      * destruct (H3 i w eq_refl) as [Hw Hweq]. split; [right; apply elem_of_cons; destruct H1; [left; congruence|by right]|]. split.
        -- intros k u [E|Hin]%elem_of_cons; [simplify_eq; lia|by eapply H2].
        -- intros k u E. simplify_eq. split; [lia|]. intros ->. lia.
      * destruct (H3 k0 u0 eq_refl) as [Hw Hweq]. split; [destruct H1; [by left|right; apply elem_of_cons; by right]|]. split.
        -- intros k u [E|Hin]%elem_of_cons; [simplify_eq; lia|by eapply H2].
        -- intros k u E. simplify_eq. done.
    + destruct (H3 i w eq_refl) as [Hw Hweq]. split; [right; apply elem_of_cons; destruct H1; [left; congruence|by right]|]. split.
      * intros k u [E|Hin]%elem_of_cons; [simplify_eq; lia|by eapply H2].
      * done.
  - destruct IH as [H1 H2]. destruct best as [[k0 u0]|]; simpl in H1; [by destruct (_ <? _)|done].
Qed.

(** The candidates, by index. *)
Lemma candidates_elem now tried ps : forall i j v,
  (j, v) ∈ candidates now tried i ps <->
  exists k p, j = (i + k)%nat /\ ps !! k = Some p /\ passed_over now tried j p = false /\
    v = current_weight p + effective_weight p.
Proof.
  induction ps as [|p ps IH]; intros i j v; cbn [candidates].
  { split; [by intros ?%elem_of_nil|]. by intros (k & p & _ & ? & _). }
  assert ((j, v) ∈ candidates now tried (S i) ps <->
    exists k q, j = (i + S k)%nat /\ (p :: ps) !! S k = Some q /\ passed_over now tried j q = false /\
      v = current_weight q + effective_weight q) as Hs.
  { rewrite IH. split; intros (k & q & -> & H); exists k, q; (split; [lia|exact H]). }
  destruct (passed_over now tried i p) eqn:E; rewrite ?elem_of_cons, Hs.
  - split; [intros (k & q & H); by exists (S k), q|].
    intros ([|k] & q & -> & Hq & Hp & Hv); [|by exists k, q].
    simpl in Hq. simplify_eq. rewrite Nat.add_0_r in Hp. congruence.
  - split.
    + intros [Ejv|(k & q & H)]; [|by exists (S k), q].
      simplify_eq. exists 0%nat, p. by rewrite Nat.add_0_r.
    + intros ([|k] & q & -> & Hq & Hp & Hv); [|right; by exists k, q].
      simpl in Hq. simplify_eq. left. by rewrite Nat.add_0_r.
Qed.

(** Of equal weights the first is chosen. *)
Lemma better_first now tried ps : forall i best j v k,
  (forall k u, best = Some (k, u) -> (k < i)%nat) ->
  fold_left better (candidates now tried i ps) best = Some (j, v) ->
  (k, v) ∈ candidates now tried i ps -> (j <= k)%nat.
Proof.
  induction ps as [|p ps IH]; intros i best j v k Hb; cbn [candidates]; [by intros _ ?%elem_of_nil|].
  destruct (passed_over now tried i p).
  { intros H Hin. eapply (IH (S i)); [|exact H|exact Hin]. intros k' u' E. apply Hb in E. lia. }
  cbn [fold_left]. set (w := current_weight p + effective_weight p). intros H.
  pose proof (better_spec (candidates now tried (S i) ps) (better best (i, w))) as Hs. rewrite H in Hs.
  destruct Hs as (_ & _ & Hs). intros [E|Hin]%elem_of_cons.
  - simplify_eq. destruct best as [[k0 u0]|]; cbn [better] in Hs.
    + pose proof (Hb k0 u0 eq_refl) as Hk. cbn [snd] in Hs. destruct (Z.ltb_spec u0 w).
      * destruct (Hs _ _ eq_refl) as [_ Hj]. specialize (Hj eq_refl). simplify_eq. lia.
      * destruct (Hs _ _ eq_refl) as [H1 Hj]. specialize (Hj ltac:(lia)). simplify_eq. lia.
    + destruct (Hs _ _ eq_refl) as [_ Hj]. specialize (Hj eq_refl). simplify_eq. lia.
  - eapply (IH (S i)); [|exact H|exact Hin]. intros k' u' E.
    destruct best as [[k0 u0]|]; cbn [better] in E.
    + pose proof (Hb k0 u0 eq_refl). destruct (u0 <? _); simplify_eq; lia.
    + simplify_eq. lia.
Qed.

(** ** The choice *)

Lemma bumped_lookup now tried ps : forall i k,
  bumped now tried i ps !! k =
    (fun p => if passed_over now tried (i + k) p then p else bump p) <$> ps !! k.
Proof.
  induction ps as [|p ps IH]; intros i k; [done|]. destruct k as [|k]; simpl.
  - by rewrite Nat.add_0_r.
  - rewrite IH. by replace (S i + k)%nat with (i + S k)%nat by lia.
Qed.

Lemma bumped_length now tried ps i : length (bumped now tried i ps) = length ps.
Proof. revert i. induction ps as [|p ps IH]; intros i; simpl; [done|by rewrite IH]. Qed.

(** The bits of the words of [tried] that the peers of a group need. *)
Definition tried_covers (tried : list Z) (n : nat) : Prop := forall i, (i < n)%nat -> (tried_word i < length tried)%nat.

Definition mark (i : nat) (tried : list Z) : list Z :=
  alter (fun w => Z.lor w (tried_mask i)) (tried_word i) tried.

Lemma tried_word_mod i j :
  tried_word i = tried_word j -> Z.of_nat i `mod` word_bits = Z.of_nat j `mod` word_bits -> i = j.
Proof.
  intros Hw Hm. unfold tried_word, word_bits in *.
  pose proof (Z.div_mod (Z.of_nat i) 64 ltac:(done)). pose proof (Z.div_mod (Z.of_nat j) 64 ltac:(done)).
  pose proof (Z.div_pos (Z.of_nat i) 64). pose proof (Z.div_pos (Z.of_nat j) 64). lia.
Qed.

Lemma mark_tried i j tried :
  (tried_word i < length tried)%nat ->
  is_tried (mark i tried) j = is_tried tried j || bool_decide (i = j).
Proof.
  intros Hi. rewrite !is_tried_bit. unfold mark. rewrite !nth_lookup.
  destruct (decide (tried_word i = tried_word j)) as [E|E].
  - rewrite E in *. rewrite list_lookup_alter_eq.
    destruct (lookup_lt_is_Some_2 tried (tried_word j)) as [w Hw]; [done|]. rewrite Hw.
    cbn [from_option fmap option_fmap option_map]. unfold id.
    rewrite Z.lor_spec. unfold tried_mask. rewrite Z.shiftl_spec by (by apply Z.mod_pos_bound).
    destruct (decide (i = j)) as [->|Hij].
    + rewrite Z.sub_diag, bool_decide_true by done. by rewrite !orb_true_r.
    + rewrite bool_decide_false by done. f_equal.
      assert (Z.of_nat j `mod` word_bits <> Z.of_nat i `mod` word_bits) as Hne
        by (intros Hm; apply Hij; by apply tried_word_mod).
      set (k := Z.of_nat j `mod` word_bits - Z.of_nat i `mod` word_bits).
      assert (k <> 0) by (unfold k; lia). destruct (decide (k < 0)); [by apply Z.testbit_neg_r|].
      apply Z.bits_above_log2; simpl; lia.
  - rewrite list_lookup_alter_ne by done. rewrite bool_decide_false by (intros ->; done).
    by rewrite orb_false_r.
Qed.

Lemma mark_length i tried : length (mark i tried) = length tried.
Proof. apply length_alter. Qed.

(** The chosen peer pays for all. *)
Definition pay (now total : Z) (p : peer) : peer :=
  let p := set_current_weight (current_weight p - total) p in
  if fail_timeout p <? now - checked p then set_checked now p else p.

Lemma get_peer_spec now g d :
  match ngx_http_upstream_get_peer now g d with
  | None => forall i p, peer_list g !! i = Some p -> passed_over now (tried d) i p = true
  | Some (g', d') =>
      exists j p,
        peer_list g !! j = Some p /\ passed_over now (tried d) j p = false /\
        (forall k q, peer_list g !! k = Some q -> passed_over now (tried d) k q = false ->
          current_weight q + effective_weight q <= current_weight p + effective_weight p /\
          (current_weight q + effective_weight q = current_weight p + effective_weight p -> (j <= k)%nat)) /\
        g' = set_peer_list (alter (pay now (total_of now (tried d) 0 (peer_list g))) j
               (bumped now (tried d) 0 (peer_list g))) g /\
        d' = PeerData (on_backup d) (Some j) (mark j (tried d))
  end.
Proof.
  unfold ngx_http_upstream_get_peer. rewrite get_loop_spec. cbn [fst snd]. rewrite Z.add_0_l.
  pose proof (better_spec (candidates now (tried d) 0 (peer_list g)) None) as Hs.
  pose proof (fun j v k => better_first now (tried d) (peer_list g) 0 None j v k ltac:(done)) as Hf.
  destruct (fold_left better _ None) as [[j v]|].
  - destruct Hs as ([?|Hin] & Hmax & _); [done|].
    pose proof Hin as (k & p & -> & Hp & Hpo & ->)%candidates_elem. cbn [Nat.add] in *.
    exists k, p. split_and!; [done|done| |done|done].
    intros k' q Hq Hqo. assert ((k', current_weight q + effective_weight q) ∈ candidates now (tried d) 0 (peer_list g)) as Hc
      by (apply candidates_elem; by exists k', q).
    split; [by eapply Hmax|]. intros E. eapply Hf; [done|]. rewrite <- E. done.
  - destruct Hs as [_ Hnil]. intros i p Hp. destruct (passed_over now (tried d) i p) eqn:E; [done|].
    assert ((i, current_weight p + effective_weight p) ∈ candidates now (tried d) 0 (peer_list g)) as Hc
      by (apply candidates_elem; by exists i, p).
    rewrite Hnil in Hc. by apply elem_of_nil in Hc.
Qed.
