(* ===== verification/HttpUpstreamFair.v ===== *)
(** * HttpUpstreamFair: the smooth choice is fair

    While all servers are healthy, each is given as many requests as its weight
    says, out of as many as the weights sum up to. *)

From S2P Require Import Prelude HttpUpstreamRR.

(** ** Fairness *)

Fixpoint sum (n : nat) (f : nat -> Z) : Z := match n with O => 0 | S n => sum n f + f n end.

Lemma sum_ext n f g : (forall i, (i < n)%nat -> f i = g i) -> sum n f = sum n g.
Proof. induction n as [|n IH]; intros H; simpl; [done|]. rewrite IH, H by auto. done. Qed.

Lemma sum_linear n a b f g : sum n (fun i => a * f i - b * g i) = a * sum n f - b * sum n g.
Proof. induction n as [|n IH]; simpl; [lia|]. rewrite IH. lia. Qed.

Lemma sum_pos n f : 0 < sum n f -> exists i, (i < n)%nat /\ 0 < f i.
Proof.
  induction n as [|n IH]; simpl; [lia|]. intros H. destruct (decide (0 < f n)); [by exists n; split; [lia|]|].
  destruct IH as (i & ? & ?); [lia|]. exists i. split; [lia|done].
Qed.

Lemma sum_le n f g : (forall i, (i < n)%nat -> f i <= g i) -> sum n f <= sum n g.
Proof. induction n as [|n IH]; intros H; simpl; [done|]. pose proof (H n). specialize (IH ltac:(auto)). lia. Qed.

Lemma sum_le_eq n f g :
  (forall i, (i < n)%nat -> f i <= g i) -> sum n f = sum n g -> forall i, (i < n)%nat -> f i = g i.
Proof.
  induction n as [|n IH]; intros H E i Hi; [lia|]. simpl in E. pose proof (sum_le n f g ltac:(auto)).
  pose proof (H n ltac:(lia)). destruct (decide (i = n)) as [->|]; [lia|]. apply IH; [auto|lia|lia].
Qed.

Definition count (i : nat) (js : list nat) : Z := Z.of_nat (count_occ Nat.eq_dec js i).

Lemma count_cons i j js : count i (j :: js) = (if decide (j = i) then 1 else 0) + count i js.
Proof. unfold count. simpl. destruct (Nat.eq_dec j i), (decide (j = i)); lia. Qed.

Lemma sum_indicator n j : (j < n)%nat -> sum n (fun i => if decide (j = i) then 1 else 0) = 1.
Proof.
  intros Hj. induction n as [|n IH]; [lia|]. simpl. destruct (decide (j = n)) as [->|Hne].
  - rewrite (sum_ext n _ (fun _ => 0)) by (intros i Hi; rewrite decide_False by lia; done).
    assert (sum n (fun _ => 0) = 0) as -> by (clear; induction n; simpl; lia). lia.
  - rewrite IH by lia. lia.
Qed.

Lemma sum_count n js : Forall (fun j => (j < n)%nat) js -> sum n (fun i => count i js) = Z.of_nat (length js).
Proof.
  induction 1 as [|j js Hj Hjs IH].
  - unfold count. simpl. induction n; simpl; lia.
  - rewrite (sum_ext n _ (fun i => 1 * (if decide (j = i) then 1 else 0) - -1 * count i js))
      by (intros i _; rewrite count_cons; lia).
    rewrite sum_linear, sum_indicator, IH by done. simpl. lia.
Qed.

(** The numbers behind the choice: [w] are the weights of [n] peers, of sum
    [total]; after the choices [js], peer [i] has the weight [share i js]. *)
Section Smooth.
Context (n : nat) (w : nat -> Z).

Definition total : Z := sum n w.
Definition share (i : nat) (js : list nat) : Z := Z.of_nat (length js) * w i - total * count i js.

(** Nobody gets ahead of its share by a whole choice. *)
Record smooth (js : list nat) : Prop := Smooth {
  sm_range : Forall (fun j => (j < n)%nat) js;
  sm_above : forall i, (i < n)%nat -> - total < share i js
}.

Lemma smooth_sum js : smooth js -> sum n (fun i => share i js) = 0.
Proof using Type.
  intros [Hr _]. unfold share. rewrite sum_linear, sum_count by done. unfold total. lia.
Qed.

(** The largest of the increased weights is positive. *)
Lemma smooth_step js j :
  0 < total -> (forall i, (i < n)%nat -> 0 <= w i) -> smooth js -> (j < n)%nat ->
  (forall i, (i < n)%nat -> share i js + w i <= share j js + w j) -> smooth (j :: js).
Proof using Type.
  intros Ht Hw Hs Hj Hmax. split; [constructor; [done|apply Hs]|].
  assert (forall i, share i (j :: js) = share i js + w i - (if decide (j = i) then total else 0)) as Hshare.
  { intros i. unfold share. rewrite count_cons. cbn [length]. destruct (decide (j = i)); lia. }
  intros i Hi. rewrite Hshare. pose proof (sm_above _ Hs i Hi) as Hab. pose proof (Hw i Hi).
  destruct (decide (j = i)) as [<-|]; [|lia].
  assert (0 < share j js + w j); [|lia].
  assert (sum n (fun i => 1 * share i js - -1 * w i) = total) as Hsum.
  { rewrite sum_linear, smooth_sum by done. unfold total. lia. }
  destruct (sum_pos n (fun i => 1 * share i js - -1 * w i)) as (k & Hk & Hpos); [by rewrite Hsum|].
  pose proof (Hmax k Hk). lia.
Qed.

(** After as many choices as the weights sum up to, each peer has had its
    weight, and all is as before. *)
Lemma smooth_period js :
  0 < total -> smooth js -> Z.of_nat (length js) = total ->
  forall i, (i < n)%nat -> count i js = w i /\ share i js = 0.
Proof using Type.
  intros Ht Hs Hlen. assert (forall i, (i < n)%nat -> count i js = w i) as Hc.
  { apply sum_le_eq.
    - intros i Hi. pose proof (sm_above _ Hs i Hi) as Hab. unfold share in Hab. rewrite Hlen in Hab. nia.
    - rewrite sum_count by apply Hs. done. }
  intros i Hi. split; [by apply Hc|]. unfold share. rewrite Hc, Hlen by done. lia.
Qed.
End Smooth.

(** *** The peers of a healthy group *)

(** Nothing keeps the peer from being chosen. *)
Definition healthy (p : peer) : Prop :=
  down p = false /\ max_conns p = 0 /\ (max_fails p = 0 \/ 0 <= fails p < max_fails p) /\
  effective_weight p = weight p /\ 0 <= weight p.

Lemma healthy_taken now tried i p :
  healthy p -> is_tried tried i = false -> passed_over now tried i p = false.
Proof.
  intros (H1 & H2 & H3 & _) Ht. unfold passed_over. rewrite Ht, H1, H2. simpl. rewrite orb_false_r.
  destruct (Z.eqb_spec (max_fails p) 0); [done|]. simpl. by rewrite (proj2 (Z.leb_gt _ _)) by lia.
Qed.

Lemma fresh_untried n i : is_tried (replicate n 0) i = false.
Proof.
  rewrite is_tried_bit, nth_lookup. destruct (replicate n 0 !! tried_word i) eqn:E.
  - apply lookup_replicate in E as [-> _]. apply Z.bits_0.
  - apply Z.bits_0.
Qed.

(** What arrives: a request that is given a peer, or the end of a connection to
    the peer [i] that did not fail. *)
Inductive event : Type := Arrive (now : Z) | Leave (now : Z) (i : nat).

Definition handle (us : upstream) (e : event) : upstream * list nat :=
  match e with
  | Arrive now =>
      let '(us', d, ok) :=
        ngx_http_upstream_get_round_robin_peer now us (ngx_http_upstream_init_round_robin_peer us) in
      (us', if ok then option_list (current d) else [])
  | Leave now i =>
      (fst (ngx_http_upstream_free_round_robin_peer now false us (PeerData false (Some i) []) 1), [])
  end.

(** The peers that have been given, the last first. *)
Fixpoint handle_all (us : upstream) (js : list nat) (es : list event) : upstream * list nat :=
  match es with
  | [] => (us, js)
  | e :: es => let '(us, j) := handle us e in handle_all us (j ++ js) es
  end.

Fixpoint arrivals (es : list event) : Z :=
  match es with
  | [] => 0
  | Arrive _ :: es => 1 + arrivals es
  | Leave _ _ :: es => arrivals es
  end.

Section Fair.
Context (n : nat) (w : nat -> Z).

(** After the choices [js]. *)
Record balanced (js : list nat) (g : peers) : Prop := Balanced {
  ba_single : single g = false;
  ba_length : length (peer_list g) = n;
  ba_peers i p : peer_list g !! i = Some p ->
    healthy p /\ weight p = w i /\ current_weight p = share n w i js;
  ba_smooth : smooth n w js
}.

Lemma total_bumped now tried ps : forall i,
  (forall k p, ps !! k = Some p -> passed_over now tried (i + k) p = false /\ effective_weight p = w (i + k)) ->
  total_of now tried i ps = sum (length ps) (fun k => w (i + k)).
Proof using Type.
  induction ps as [|p ps IH] using rev_ind; intros i H; [done|].
  assert (forall l1 l2 k, total_of now tried k (l1 ++ l2) = total_of now tried k l1 + total_of now tried (k + length l1) l2) as Happ.
  { clear. induction l1 as [|q l1 IH]; intros l2 k; simpl; [by rewrite Nat.add_0_r|].
    rewrite IH. replace (S k + length l1)%nat with (k + S (length l1))%nat by lia. lia. }
  rewrite Happ, IH.
  - rewrite length_app. cbn [length total_of]. replace (length ps + 1)%nat with (S (length ps)) by lia. cbn [sum].
    destruct (H (length ps) p) as [-> ->]; [by apply list_lookup_middle|]. lia.
  - intros k q Hq. apply H. by rewrite lookup_app_l by (by eapply lookup_lt_Some).
Qed.

Lemma bump_healthy p :
  healthy p -> bump p = set_current_weight (current_weight p + weight p) p.
Proof using Type.
  intros (_ & _ & _ & He & _). unfold bump. cbn. rewrite He. by rewrite Z.ltb_irrefl.
Qed.

(** One more choice. *)
Lemma balanced_choice now g d js :
  0 < total n w -> balanced js g -> (forall i, is_tried (tried d) i = false) ->
  exists j g' d', ngx_http_upstream_get_peer now g d = Some (g', d') /\ current d' = Some j /\
    on_backup d' = on_backup d /\ balanced (j :: js) g'.
Proof using Type.
  intros Ht [Hsg Hlen Hps Hsm] Htr.
  assert (forall i p, peer_list g !! i = Some p -> passed_over now (tried d) i p = false) as Hpo.
  { intros i p Hp. apply healthy_taken; [by apply (Hps i p)|done]. }
  assert (forall i, (i < n)%nat -> exists p, peer_list g !! i = Some p) as Hex.
  { intros i Hi. apply lookup_lt_is_Some_2. lia. }
  assert (forall i, (i < n)%nat -> 0 <= w i) as Hw.
  { intros i Hi. destruct (Hex i Hi) as [p Hp]. destruct (Hps i p Hp) as ((_ & _ & _ & _ & H) & <- & _). done. }
  pose proof (get_peer_spec now g d) as Hs.
  destruct (ngx_http_upstream_get_peer now g d) as [[g' d']|].
  2: { destruct n as [|m]; [done|]. destruct (Hex 0%nat) as [p Hp]; [lia|]. specialize (Hs _ _ Hp).
       rewrite (Hpo _ _ Hp) in Hs. done. }
  destruct Hs as (j & p & Hp & _ & Hmax & -> & ->). exists j. eexists _, _. split; [reflexivity|].
  split; [done|]. split; [done|].
  assert (j < n)%nat as Hj by (rewrite <- Hlen; by eapply lookup_lt_Some).
  assert (total_of now (tried d) 0 (peer_list g) = total n w) as ->.
  { rewrite total_bumped; [by rewrite Hlen|]. intros k q Hq. split; [by apply Hpo|].
    destruct (Hps k q Hq) as ((_ & _ & _ & -> & _) & -> & _). done. }
  assert (smooth n w (j :: js)) as Hsm'.
  { apply smooth_step; try done. intros i Hi. destruct (Hex i Hi) as [q Hq].
    destruct (Hmax i q Hq (Hpo _ _ Hq)) as [Hle _].
    destruct (Hps i q Hq) as ((_ & _ & _ & E1 & _) & E2 & E3).
    destruct (Hps j p Hp) as ((_ & _ & _ & E4 & _) & E5 & E6). lia. }
  split; [done|by cbn; rewrite length_alter, bumped_length| |done].
  intros i q. cbn. intros Hq. rewrite list_lookup_alter, !bumped_lookup in Hq. cbn [Nat.add] in Hq.
  assert (forall q0, peer_list g !! i = Some q0 ->
    bump q0 = set_current_weight (share n w i js + w i) q0 /\ healthy q0 /\ weight q0 = w i) as Hb.
  { intros q0 Hq0. destruct (Hps i q0 Hq0) as (Hh & E1 & E2). rewrite bump_healthy by done. by rewrite E1, E2. }
  assert (share n w i (j :: js) = share n w i js + w i - (if decide (j = i) then total n w else 0)) as Hsh.
  { unfold share. rewrite count_cons. cbn [length]. destruct (decide (j = i)); lia. }
  rewrite Hsh. destruct (decide (j = i)) as [->|Hne].
  - rewrite Hp in Hq. cbn in Hq. rewrite (Hpo _ _ Hp) in Hq.
    destruct (Hb _ Hp) as (E & Hh & Ew). rewrite E in Hq. simplify_eq.
    unfold pay. cbn [checked fail_timeout set_current_weight]. destruct (_ <? _); by cbn.
  - apply fmap_Some in Hq as (q0 & Hq0 & ->). rewrite (Hpo _ _ Hq0).
    destruct (Hb _ Hq0) as (-> & Hh & Ew). rewrite Z.sub_0_r. by cbn.
Qed.

(** Changes of a peer that the choice does not depend on. *)
Lemma balanced_alter js g i f :
  balanced js g ->
  (forall p, healthy p -> healthy (f p) /\ weight (f p) = weight p /\ current_weight (f p) = current_weight p) ->
  balanced js (set_peer_list (alter f i (peer_list g)) g).
Proof using Type.
  intros [Hsg Hlen Hps Hsm] Hf. split; [done|by cbn; rewrite length_alter| |done].
  intros k p. cbn. rewrite list_lookup_alter. destruct (decide (i = k)) as [->|Hne]; [|by apply Hps].
  intros (q & Hq & ->)%fmap_Some. destruct (Hps _ _ Hq) as (Hh & Hw & Hc).
  destruct (Hf q Hh) as (Hh' & -> & ->). done.
Qed.

Lemma free_healthy now p :
  healthy p -> healthy (free_peer now false false p) /\
    weight (free_peer now false false p) = weight p /\
    current_weight (free_peer now false false p) = current_weight p.
Proof using Type.
  intros (H1 & H2 & H3 & H4 & H5). unfold free_peer, healthy. destruct (accessed p <? checked p); cbn.
  - split_and!; try done. destruct H3; [by left|right; lia].
  - by split_and!.
Qed.

Lemma balanced_event us js e :
  0 < total n w -> balanced js (primary us) ->
  exists us' j, handle us e = (us', j) /\ balanced (j ++ js) (primary us') /\
    Z.of_nat (length j) = arrivals [e].
Proof using Type.
  intros Ht Hb. destruct e as [now|now i]; unfold handle.
  - unfold ngx_http_upstream_get_round_robin_peer.
    set (d := ngx_http_upstream_init_round_robin_peer us). change (on_backup d) with false. cbn iota.
    unfold get_from. rewrite (ba_single _ _ Hb).
    destruct (balanced_choice now (primary us) d js Ht Hb) as (j & g' & d' & -> & Hd & _ & Hb').
    { intros i. apply fresh_untried. }
    cbn [mbind option_bind]. rewrite Hd. cbn [mbind option_bind]. eexists _, [j]. split; [by rewrite Hd|].
    split; [|done]. cbn [primary app]. apply balanced_alter; [done|]. intros p Hh. by split_and!.
  - unfold ngx_http_upstream_free_round_robin_peer. cbn [current on_backup fst].
    eexists _, []. split; [done|]. split; [|done]. cbn [primary app]. unfold free_in. rewrite (ba_single _ _ Hb).
    apply balanced_alter; [done|]. intros p. apply free_healthy.
Qed.

Lemma balanced_events es : forall us js,
  0 < total n w -> balanced js (primary us) ->
  balanced (snd (handle_all us js es)) (primary (fst (handle_all us js es))) /\
  Z.of_nat (length (snd (handle_all us js es))) = Z.of_nat (length js) + arrivals es.
Proof using Type.
  induction es as [|e es IH]; intros us js Ht Hb; cbn [handle_all]; [cbn; split; [done|lia]|].
  destruct (balanced_event us js e Ht Hb) as (us' & j & -> & Hb' & Hlen).
  destruct (IH us' (j ++ js) Ht Hb') as [H1 H2]. split; [done|]. rewrite H2, length_app.
  assert (arrivals (e :: es) = arrivals [e] + arrivals es) as -> by (destruct e; simpl; lia). lia.
Qed.
End Fair.

Definition weight_of (ps : list peer) (i : nat) : Z :=
  match ps !! i with Some p => weight p | None => 0 end.

(** C9. Requests that arrive while all servers are healthy, and connections that
    end well in between: when as many have arrived as the weights sum up to,
    each server has been given as many as its weight, and all is as it was. *)
Theorem round_robin_fair us es :
  let ps := peer_list (primary us) in
  let w := sum (length ps) (weight_of ps) in
  single (primary us) = false -> Forall healthy ps -> Forall (fun p => current_weight p = 0) ps ->
  0 < w -> arrivals es = w ->
  let '(us', js) := handle_all us [] es in
  forall i p, ps !! i = Some p ->
    count i js = weight p /\
    exists p', peer_list (primary us') !! i = Some p' /\ healthy p' /\ current_weight p' = 0.
Proof.
  intros ps w Hsg Hh Hc Hw Hes. rewrite Forall_lookup in Hh, Hc.
  assert (balanced (length ps) (weight_of ps) [] (primary us)) as Hb.
  { split; [done|done| |].
    - intros i p Hp. split; [by apply (Hh i)|]. unfold weight_of. fold ps in Hp. rewrite Hp. split; [done|].
      unfold share, count. cbn [length count_occ]. rewrite (Hc i p Hp). lia.
    - split; [constructor|]. intros i Hi. unfold share, count. cbn [length count_occ].
      change (total (length ps) (weight_of ps)) with w. lia. }
  destruct (balanced_events (length ps) (weight_of ps) es us [] Hw Hb) as [Hb' Hlen].
  destruct (handle_all us [] es) as [us' js]. cbn [fst snd] in *. simpl in Hlen. rewrite Hes in Hlen.
  intros i p Hp. assert (i < length ps)%nat as Hi by (by eapply lookup_lt_Some).
  destruct (smooth_period (length ps) (weight_of ps) js Hw (ba_smooth _ _ _ _ Hb') Hlen i Hi) as [Hcnt Hsh].
  split; [rewrite Hcnt; unfold weight_of; by rewrite Hp|].
  destruct (lookup_lt_is_Some_2 (peer_list (primary us')) i) as [p' Hp']; [by rewrite (ba_length _ _ _ _ Hb')|].
  exists p'. split; [done|]. destruct (ba_peers _ _ _ _ Hb' i p' Hp') as (? & _ & ->). done.
Qed.

Definition sample_servers : list server :=
  [Server 1 5 0 1 10 false false; Server 1 1 0 1 10 false false; Server 1 1 0 1 10 false false].

Example smooth_order :
  (us ← ngx_http_upstream_init_round_robin sample_servers;
   Some (rev (snd (handle_all us [] (Arrive <$> seqZ 100 7)))))
  = Some [0; 0; 1; 0; 2; 0; 0]%nat.
Proof. reflexivity. Qed.

Lemma round_robin_fair_witness :
  let us := default (Upstream (Peers 0 0 true false []) None) (ngx_http_upstream_init_round_robin sample_servers) in
  let es := [Arrive 1; Arrive 1; Leave 2 0; Arrive 3; Arrive 4; Leave 4 1; Arrive 5; Arrive 5; Arrive 9] in
  let '(us', js) := handle_all us [] es in
  forall i p, peer_list (primary us) !! i = Some p ->
    count i js = weight p /\
    exists p', peer_list (primary us') !! i = Some p' /\ healthy p' /\ current_weight p' = 0.
Proof.
  apply round_robin_fair.
  - reflexivity.
  - repeat constructor; cbn; lia.
  - repeat constructor.
  - by_decide.
  - vm_compute. reflexivity.
Defined.
