(* ===== verification/HttpUpstreamSystem.v ===== *)
(** * HttpUpstreamSystem: any number of requests over the same servers

    The requests of all clients as a transition system: a request begins, takes
    a peer, gives it back, failed or not, in any order; and what holds in every
    state that is reached. *)

From S2P Require Import Prelude HttpUpstreamRR HttpUpstreamFair.

(** ** Any number of requests *)

(** A request holds a peer between [peer.get] and [peer.free]. *)
Record system : Type := System { servers_ : upstream; requests : list (peer_data * bool) }.

Inductive system_step : system -> system -> Prop :=
  | step_new us rs :
      system_step (System us rs) (System us (rs ++ [(ngx_http_upstream_init_round_robin_peer us, false)]))
  | step_get us rs r now d us' d' ok :
      rs !! r = Some (d, false) ->
      ngx_http_upstream_get_round_robin_peer now us d = (us', d', ok) ->
      system_step (System us rs) (System us' (<[r := (d', ok)]> rs))
  | step_free us rs r now failed d tries us' tries' :
      rs !! r = Some (d, true) ->
      ngx_http_upstream_free_round_robin_peer now failed us d tries = (us', tries') ->
      system_step (System us rs) (System us' (<[r := (d, false)]> rs)).

Inductive reachable (s : system) : system -> Prop :=
  | reach_refl : reachable s s
  | reach_step s1 s2 : reachable s s1 -> system_step s1 s2 -> reachable s s2.

(** Whether the request holds the peer [i] of the primary or backup group. *)
Definition holds_peer (b : bool) (i : nat) (r : peer_data * bool) : bool :=
  snd r && Bool.eqb (on_backup (fst r)) b && bool_decide (current (fst r) = Some i).

Fixpoint holders (b : bool) (i : nat) (rs : list (peer_data * bool)) : Z :=
  match rs with [] => 0 | r :: rs => (if holds_peer b i r then 1 else 0) + holders b i rs end.

Lemma holders_insert b i rs : forall r x y,
  rs !! r = Some x ->
  holders b i (<[r := y]> rs) =
    holders b i rs - (if holds_peer b i x then 1 else 0) + (if holds_peer b i y then 1 else 0).
Proof.
  induction rs as [|z rs IH]; intros r x y H; [done|]. destruct r as [|r]; simpl in *.
  - simplify_eq. lia.
  - rewrite (IH r x y H). lia.
Qed.

Lemma holders_app b i rs rs' : holders b i (rs ++ rs') = holders b i rs + holders b i rs'.
Proof. induction rs as [|r rs IH]; simpl; [done|]. rewrite IH. lia. Qed.

Lemma holders_bound b i rs : 0 <= holders b i rs <= Z.of_nat (length rs).
Proof. induction rs as [|r rs IH]; simpl; [lia|]. destruct (holds_peer b i r); lia. Qed.

Lemma holders_free b i rs r d :
  rs !! r = Some (d, false) -> holders b i rs < Z.of_nat (length rs).
Proof.
  revert r. induction rs as [|x rs IH]; intros [|r] H; simpl in *; [done|done| |].
  - simplify_eq. simpl. pose proof (holders_bound b i rs). lia.
  - apply IH in H. destruct (holds_peer b i x); lia.
Qed.

Fixpoint cur_sum (ps : list peer) : Z :=
  match ps with [] => 0 | p :: ps => current_weight p + cur_sum ps end.

Lemma cur_sum_alter f c ps : forall i p,
  (forall q, current_weight (f q) = current_weight q + c) -> ps !! i = Some p ->
  cur_sum (alter f i ps) = cur_sum ps + c.
Proof.
  induction ps as [|q ps IH]; intros i p Hf H; [done|]. destruct i as [|i]; simpl in *.
  - rewrite Hf. lia.
  - assert (cur_sum (alter f i ps) = cur_sum ps + c) as E by (by eapply IH).
    change (current_weight q + cur_sum (alter f i ps) = current_weight q + cur_sum ps + c). lia.
Qed.

Lemma cur_sum_bumped now tried ps : forall i,
  cur_sum (bumped now tried i ps) = cur_sum ps + total_of now tried i ps.
Proof.
  induction ps as [|p ps IH]; intros i; simpl; [done|]. rewrite IH.
  destruct (passed_over now tried i p); [lia|]. unfold bump. destruct (_ <? _); cbn; lia.
Qed.

(** [cnt i] connections are open to the peer [i]. *)
Record peer_ok (cnt : Z) (p : peer) : Prop := PeerOk {
  pk_weight : 0 <= effective_weight p <= weight p;
  pk_fails : 0 <= max_fails p;
  pk_conns : conns p = cnt;
  pk_limit : max_conns p <> 0 -> cnt <= max_conns p
}.

Record group_ok (cnt : nat -> Z) (g : peers) : Prop := GroupOk {
  gk_number : number g = Z.of_nat (length (peer_list g));
  gk_sum : cur_sum (peer_list g) = 0;
  gk_peers i p : peer_list g !! i = Some p -> peer_ok (cnt i) p
}.

Lemma group_ok_ext cnt cnt' g : (forall i, cnt i = cnt' i) -> group_ok cnt g -> group_ok cnt' g.
Proof. intros H [H1 H2 H3]. split; [done..|]. intros i p Hp. rewrite <- H. by apply H3. Qed.

(** One more connection to a peer. *)
Definition one_more (i : nat) (cnt : nat -> Z) (k : nat) : Z := cnt k + if decide (i = k) then 1 else 0.

Lemma connect_ok cnt g i p :
  group_ok cnt g -> (forall k, 0 <= cnt k < 2 ^ 64 - 1) -> peer_list g !! i = Some p ->
  (max_conns p <> 0 -> conns p < max_conns p) ->
  group_ok (one_more i cnt) (set_peer_list (alter (fun p => set_conns (u64 (conns p + 1)) p) i (peer_list g)) g).
Proof.
  intros [H1 H2 H3] Hcnt Hp Hlim. split; cbn.
  - by rewrite length_alter.
  - erewrite (cur_sum_alter _ 0) by (cbn; done || intros; lia). lia.
  - intros k q. rewrite list_lookup_alter. unfold one_more. destruct (decide (i = k)) as [->|Hne].
    + rewrite Hp. intros [= <-]. destruct (H3 _ _ Hp) as [K1 K2 K3 K4]. cbn.
      split; cbn; try done; [rewrite K3; apply Z.mod_small; specialize (Hcnt k); lia|].
      intros H. specialize (Hlim H). lia.
    + intros Hq. rewrite Z.add_0_r. by apply H3.
Qed.

Lemma get_peer_ok now cnt g d g' d' :
  group_ok cnt g -> ngx_http_upstream_get_peer now g d = Some (g', d') ->
  group_ok cnt g' /\ on_backup d' = on_backup d /\ length (tried d') = length (tried d) /\
  length (peer_list g') = length (peer_list g) /\
  exists i p, current d' = Some i /\ peer_list g' !! i = Some p /\ (max_conns p <> 0 -> conns p < max_conns p).
Proof.
  intros [H1 H2 H3] E. pose proof (get_peer_spec now g d) as Hs. rewrite E in Hs.
  destruct Hs as (j & p & Hp & Hpo & _ & -> & ->).
  set (tot := total_of _ _ _ _). cbn.
  assert (forall k q, alter (pay now tot) j (bumped now (tried d) 0 (peer_list g)) !! k = Some q ->
    exists q0, peer_list g !! k = Some q0 /\ conns q = conns q0 /\ max_conns q = max_conns q0 /\
      weight q = weight q0 /\ max_fails q = max_fails q0 /\
      (effective_weight q = effective_weight q0 \/ effective_weight q0 < weight q0 /\ effective_weight q = effective_weight q0 + 1)) as Hk.
  { intros k q. rewrite list_lookup_alter, !bumped_lookup. cbn [Nat.add]. intros Hq.
    assert (exists q0 q1, peer_list g !! k = Some q0 /\ (q1 = q0 \/ q1 = bump q0) /\ (q = q1 \/ q = pay now tot q1))
      as (q0 & q1 & Hq0 & Hq1 & Hq2).
    { destruct (decide (j = k)) as [->|]; [apply fmap_Some in Hq as (q1 & Hq & ->)|rename q into q1];
        apply fmap_Some in Hq as (q0 & Hq0 & Eq); exists q0, q1; (split; [done|]);
        (split; [rewrite Eq; destruct (passed_over now (tried d) k q0); [by left|by right]|]); [by right|by left]. }
    exists q0. split; [done|].
    assert (conns q = conns q1 /\ max_conns q = max_conns q1 /\ weight q = weight q1 /\ max_fails q = max_fails q1 /\
      effective_weight q = effective_weight q1) as (-> & -> & -> & -> & ->).
    { destruct Hq2 as [->| ->]; [done|]. unfold pay. by destruct (_ <? _). }
    destruct Hq1 as [->| ->]; [by split_and!; [..|left]|]. unfold bump. cbn.
    destruct (Z.ltb_spec (effective_weight q0) (weight q0)); split_and!; try done; cbn; [right; lia|by left]. }
  split; [split; cbn|].
  - by rewrite length_alter, bumped_length.
  - destruct (lookup_lt_is_Some_2 (bumped now (tried d) 0 (peer_list g)) j) as [q Hq];
      [rewrite bumped_length; by eapply lookup_lt_Some|].
    erewrite (cur_sum_alter _ (- tot)); [|intros; unfold pay; destruct (_ <? _); cbn; lia|exact Hq].
    rewrite cur_sum_bumped. fold tot. lia.
  - intros k q Hq. destruct (Hk k q Hq) as (q0 & Hq0 & E1 & E2 & E3 & E4 & E5).
    destruct (H3 _ _ Hq0) as [K1 K2 K3 K4]. split; [lia|lia|lia|]. by rewrite E2.
  - split; [done|]. split; [apply mark_length|]. split; [by rewrite length_alter, bumped_length|].
    destruct (lookup_lt_is_Some_2 (alter (pay now tot) j (bumped now (tried d) 0 (peer_list g))) j) as [q Hq];
      [rewrite length_alter, bumped_length; by eapply lookup_lt_Some|].
    exists j, q. split; [done|]. split; [done|]. destruct (Hk j q Hq) as (q0 & Hq0 & -> & -> & _).
    rewrite Hp in Hq0. simplify_eq. unfold passed_over in Hpo. intros Hm.
    rewrite !orb_false_iff in Hpo. destruct Hpo as (_ & Hpo).
    rewrite (proj2 (Z.eqb_neq _ 0) Hm) in Hpo. cbn in Hpo. by apply Z.leb_gt in Hpo.
Qed.

Definition bounded (cnt : nat -> Z) : Prop := forall k, 0 <= cnt k < 2 ^ 64 - 1.

Lemma get_from_ok now cnt g d g' d' :
  group_ok cnt g -> bounded cnt -> get_from now g d = Some (g', d') ->
  number g' = number g /\ length (peer_list g') = length (peer_list g) /\
  on_backup d' = on_backup d /\ length (tried d') = length (tried d) /\
  exists i, current d' = Some i /\ (i < length (peer_list g))%nat /\ group_ok (one_more i cnt) g'.
Proof.
  intros Hg Hb E. unfold get_from in E.
  destruct (if single g then _ else _) as [[g1 d1]|] eqn:E1; [|done]. cbn [mbind option_bind] in E.
  assert (group_ok cnt g1 /\ on_backup d1 = on_backup d /\ length (tried d1) = length (tried d) /\
    number g1 = number g /\ length (peer_list g1) = length (peer_list g) /\
    exists i p, current d1 = Some i /\ peer_list g1 !! i = Some p /\ (max_conns p <> 0 -> conns p < max_conns p))
    as (H1 & H2 & H3 & H4 & H5 & i & p & Hi & Hp & Hlim).
  { destruct (single g).
    - destruct (peer_list g) as [|p ps] eqn:Eps; [done|]. destruct (down p); [done|].
      destruct (Z.eqb_spec (max_conns p) 0) as [Hz|Hz]; cbn in E1.
      + simplify_eq. rewrite Eps. split_and!; try done. by exists 0%nat, p.
      + destruct (Z.leb_spec (max_conns p) (conns p)); [done|]. simplify_eq. rewrite Eps.
        split_and!; try done. by exists 0%nat, p.
    - destruct (get_peer_ok now cnt g d g1 d1 Hg E1) as (H1 & H2 & H3 & H4 & H5).
      assert (number g1 = number g) by (rewrite (gk_number _ _ H1), (gk_number _ _ Hg), H4; done).
      split_and!; done. }
  rewrite Hi in E. cbn in E. injection E as <- <-. cbn. rewrite length_alter.
  split_and!; try done. exists i. split; [done|]. split; [rewrite <- H5; by eapply lookup_lt_Some|].
  by apply (connect_ok _ _ _ p).
Qed.

Definition one_less (i : nat) (cnt : nat -> Z) (k : nat) : Z := cnt k - if decide (i = k) then 1 else 0.

Lemma free_peer_ok now sg failed cnt p :
  peer_ok cnt p -> 1 <= cnt < 2 ^ 64 -> peer_ok (cnt - 1) (free_peer now sg failed p).
Proof.
  intros [K1 K2 K3 K4] Hc. unfold free_peer.
  assert (forall q, weight q = weight p -> max_fails q = max_fails p -> conns q = conns p ->
    max_conns q = max_conns p -> 0 <= effective_weight q <= weight p ->
    peer_ok (cnt - 1) (set_conns (u64 (conns q - 1)) q)) as H.
  { intros q E1 E2 E3 E4 Hq. split; cbn; rewrite ?E1, ?E2, ?E3, ?E4; [done|done| |].
    - rewrite K3. apply Z.mod_small. lia.
    - intros Hm. specialize (K4 Hm). lia. }
  destruct sg; [by apply H|]. destruct failed.
  - cbn. destruct (Z.eqb_spec (max_fails p) 0) as [Hz|Hz]; cbn.
    + destruct (Z.ltb_spec (effective_weight p) 0); apply H; cbn; done || lia.
    + assert (0 <= weight p / max_fails p) by (apply Z.div_pos; lia).
      destruct (Z.ltb_spec (effective_weight p - weight p / max_fails p) 0); apply H; cbn; done || lia.
  - destruct (accessed p <? checked p); by apply H.
Qed.

Lemma free_in_ok now failed cnt i g :
  group_ok cnt g -> 1 <= cnt i < 2 ^ 64 -> group_ok (one_less i cnt) (free_in now failed i g).
Proof.
  intros [H1 H2 H3] Hc. unfold free_in, one_less. split; cbn.
  - by rewrite length_alter.
  - destruct (peer_list g !! i) as [p|] eqn:Hp.
    + erewrite (cur_sum_alter _ 0); [|intros q; unfold free_peer|exact Hp]; [lia|].
      destruct (single g); [cbn; lia|]. destruct failed.
      * cbn. destruct (negb _); cbn; (destruct (_ <? 0); cbn; lia).
      * destruct (_ <? _); cbn; lia.
    + assert (alter (free_peer now (single g) failed) i (peer_list g) = peer_list g) as ->; [|done].
      apply list_eq. intros k. rewrite list_lookup_alter. destruct (decide (i = k)) as [<-|]; [by rewrite Hp|done].
  - intros k q. rewrite list_lookup_alter. destruct (decide (i = k)) as [->|Hne].
    + intros (p & Hp & ->)%fmap_Some. by apply free_peer_ok; [apply H3|].
    + intros Hq. rewrite Z.sub_0_r. by apply H3.
Qed.

(** The bit map of a request has the words of a group. *)
Definition tried_fits (tried : list Z) (g : peers) : Prop := (Z.to_nat (words (number g)) <= length tried)%nat.

Record request_ok (us : upstream) (r : peer_data * bool) : Prop := RequestOk {
  rk_primary : tried_fits (tried (fst r)) (primary us);
  rk_backup g : next us = Some g -> tried_fits (tried (fst r)) g;
  rk_next : on_backup (fst r) = true -> next us <> None;
  rk_holds : snd r = true -> exists i, current (fst r) = Some i
}.

Record system_ok (s : system) : Prop := SystemOk {
  so_primary : group_ok (fun i => holders false i (requests s)) (primary (servers_ s));
  so_backup g : next (servers_ s) = Some g -> group_ok (fun i => holders true i (requests s)) g;
  so_requests : Forall (request_ok (servers_ s)) (requests s)
}.

(** The requests look at the sizes of the groups only. *)
Definition same_shape (us us' : upstream) : Prop :=
  number (primary us') = number (primary us) /\
  match next us, next us' with
  | None, None => True
  | Some g, Some g' => number g' = number g
  | _, _ => False
  end.

Lemma request_ok_shape us us' r : same_shape us us' -> request_ok us r -> request_ok us' r.
Proof.
  intros [E1 E2] [H1 H2 H3 H4]. split; try done.
  - unfold tried_fits. by rewrite E1.
  - intros g Hg. rewrite Hg in E2. destruct (next us) as [g0|]; [|done].
    unfold tried_fits. rewrite E2. by apply H2.
  - intros Hb. specialize (H3 Hb). by destruct (next us), (next us').
Qed.

Lemma init_request_ok us : 
  0 <= number (primary us) -> (forall g, next us = Some g -> 0 <= number g) ->
  request_ok us (ngx_http_upstream_init_round_robin_peer us, false).
Proof.
  intros H1 H2. set (n := match next us with Some g => Z.max (number (primary us)) (number g) | None => number (primary us) end).
  assert (tried (ngx_http_upstream_init_round_robin_peer us) = replicate (if n <=? word_bits then 1%nat else Z.to_nat (words n)) 0) as Et.
  { unfold n, ngx_http_upstream_init_round_robin_peer. cbn. destruct (next us) as [g|]; [|done].
    destruct (Z.ltb_spec (number (primary us)) (number g)).
    - by rewrite Z.max_r by lia.
    - by rewrite Z.max_l by lia. }
  assert (forall g, 0 <= number g <= n -> tried_fits (tried (ngx_http_upstream_init_round_robin_peer us)) g) as Hfit.
  { intros g Hg. unfold tried_fits. rewrite Et, length_replicate. unfold words, word_bits.
    destruct (Z.leb_spec n 64).
    - assert ((number g + (64 - 1)) / 64 <= 1); [|lia]. apply Z.lt_succ_r, Z.div_lt_upper_bound; lia.
    - apply Z2Nat.inj_le; [apply Z.div_pos; lia..|]. apply Z.div_le_mono; lia. }
  split; cbn [fst snd]; try done.
  - apply Hfit. unfold n. destruct (next us); lia.
  - intros g Hg. apply Hfit. unfold n. rewrite Hg. specialize (H2 g Hg). lia.
Qed.

Lemma holders_busy rs r d d' b k :
  rs !! r = Some (d, false) -> holders b k (<[r := (d', false)]> rs) = holders b k rs.
Proof. intros H. rewrite (holders_insert b k rs r _ _ H). unfold holds_peer. simpl. lia. Qed.

Lemma holders_get rs r d d' b k i :
  rs !! r = Some (d, false) -> current d' = Some i ->
  holders b k (<[r := (d', true)]> rs) =
    if Bool.eqb (on_backup d') b then one_more i (fun k => holders b k rs) k else holders b k rs.
Proof.
  intros H Hi. rewrite (holders_insert b k rs r _ _ H). unfold holds_peer, one_more. simpl. rewrite Hi.
  destruct (Bool.eqb (on_backup d') b); simpl; [|lia].
  destruct (decide (i = k)) as [->|Hne]; [rewrite bool_decide_true by done; lia|].
  rewrite bool_decide_false by congruence. lia.
Qed.

Lemma holders_free_one rs r d b k i :
  rs !! r = Some (d, true) -> current d = Some i ->
  holders b k (<[r := (d, false)]> rs) =
    if Bool.eqb (on_backup d) b then one_less i (fun k => holders b k rs) k else holders b k rs.
Proof.
  intros H Hi. rewrite (holders_insert b k rs r _ _ H). unfold holds_peer, one_less. simpl. rewrite Hi.
  destruct (Bool.eqb (on_backup d) b); simpl; [|lia].
  destruct (decide (i = k)) as [->|Hne]; [rewrite bool_decide_true by done; lia|].
  rewrite bool_decide_false by congruence. lia.
Qed.

Lemma holders_pos rs r d i :
  rs !! r = Some (d, true) -> current d = Some i -> 1 <= holders (on_backup d) i rs.
Proof.
  revert r. induction rs as [|x rs IH]; intros [|r] H Hi; simpl in *; [done|done| |].
  - simplify_eq. unfold holds_peer. simpl. rewrite Bool.eqb_reflx, Hi, bool_decide_true by done.
    pose proof (holders_bound (on_backup d) i rs). simpl. lia.
  - specialize (IH r H Hi). destruct (holds_peer _ _ x); lia.
Qed.

Lemma requests_insert us us' rs r x :
  same_shape us us' -> Forall (request_ok us) rs -> request_ok us' x ->
  Forall (request_ok us') (<[r := x]> rs).
Proof.
  intros Hsh Hrs Hx. apply Forall_insert; [|done]. eapply Forall_impl; [exact Hrs|].
  intros y. by apply request_ok_shape.
Qed.

Lemma shape_refl us : same_shape us us.
Proof. split; [done|]. by destruct (next us). Qed.

(** What [peer.get] makes of the groups and of the request. *)
Lemma get_round_robin_ok now us d us' d' ok cp cb :
  group_ok cp (primary us) -> (forall g, next us = Some g -> group_ok cb g) -> bounded cp -> bounded cb ->
  request_ok us (d, false) ->
  ngx_http_upstream_get_round_robin_peer now us d = (us', d', ok) ->
  same_shape us us' /\ request_ok us' (d', ok) /\
  if ok then
    exists i, current d' = Some i /\
      group_ok (if on_backup d' then cp else one_more i cp) (primary us') /\
      (forall g, next us' = Some g -> group_ok (if on_backup d' then one_more i cb else cb) g)
  else us' = us.
Proof.
  intros Hp Hb Bp Bb Hr E. unfold ngx_http_upstream_get_round_robin_peer in E.
  assert (forall g d0, next us = Some g -> request_ok us (d0, false) -> on_backup d0 = true ->
    match get_from now g d0 with
    | Some (g, d) => (Upstream (primary us) (Some g), d, true)
    | None => (us, d0, false)
    end = (us', d', ok) ->
    same_shape us us' /\ request_ok us' (d', ok) /\
    if ok then
      exists i, current d' = Some i /\
        group_ok (if on_backup d' then cp else one_more i cp) (primary us') /\
        (forall g, next us' = Some g -> group_ok (if on_backup d' then one_more i cb else cb) g)
    else us' = us) as Hback.
  { intros g d0 Hg Hr0 Hb0 E0. destruct (get_from now g d0) as [[g1 d1]|] eqn:Eg.
    - simplify_eq. destruct (get_from_ok now cb g d0 g1 d' (Hb g Hg) Bb Eg) as (F1 & F2 & F3 & F4 & i & Fi & _ & Fg).
      assert (same_shape us (Upstream (primary us) (Some g1))) as Hsh by (split; cbn; rewrite ?Hg; done).
      split; [done|]. split.
      + apply (request_ok_shape _ _ _ Hsh). destruct Hr0 as [R1 R2 R3 R4]. unfold tried_fits in *. cbn [fst snd] in *.
        split; cbn [fst snd]; unfold tried_fits; rewrite ?F4, ?F3; try done. intros _. by exists i.
      + exists i. split; [done|]. rewrite F3, Hb0. cbn. split; [done|]. by intros g2 [= <-].
    - simplify_eq. split; [apply shape_refl|]. done. }
  destruct (on_backup d) eqn:Eb.
  { destruct (next us) as [g|] eqn:Eg; [|by destruct (rk_next _ _ Hr Eb)]. by apply (Hback g d). }
  destruct (get_from now (primary us) d) as [[g1 d1]|] eqn:Eg.
  - simplify_eq. destruct (get_from_ok now cp _ d g1 d' Hp Bp Eg) as (F1 & F2 & F3 & F4 & i & Fi & _ & Fg).
    assert (same_shape us (Upstream g1 (next us))) as Hsh by (split; [done|]; cbn; by destruct (next us)).
    split; [done|]. split.
    + apply (request_ok_shape _ _ _ Hsh). destruct Hr as [R1 R2 R3 R4]. unfold tried_fits in *. cbn [fst snd] in *.
      split; cbn [fst snd]; unfold tried_fits; rewrite ?F4, ?F3; try done; try (by rewrite Eb). intros _. by exists i.
    + exists i. split; [done|]. rewrite F3, Eb. cbn. done.
  - destruct (next us) as [g|] eqn:En; [|by simplify_eq; split; [apply shape_refl|]].
    apply (Hback g (PeerData true (current d) (replicate (Z.to_nat (words (number g))) 0 ++
      drop (Z.to_nat (words (number g))) (tried d)))); [done| |done|exact E].
    destruct Hr as [R1 R2 R3 R4]. unfold tried_fits in *. cbn [fst snd] in *.
    assert (length (replicate (Z.to_nat (words (number g))) 0 ++ drop (Z.to_nat (words (number g))) (tried d)) = length (tried d)) as El.
    { rewrite length_app, length_replicate, length_drop. specialize (R2 g En). lia. }
    split; cbn [fst snd on_backup tried current]; unfold tried_fits; rewrite ?El; try done. by rewrite En.
Qed.

Lemma step_ok s s' :
  system_ok s -> system_step s s' -> Z.of_nat (length (requests s')) < 2 ^ 64 -> system_ok s'.
Proof.
  intros [Hp Hb Hr] Hs Hlen.
  assert (0 <= number (primary (servers_ s))) as N1 by (rewrite (gk_number _ _ Hp); lia).
  assert (forall g, next (servers_ s) = Some g -> 0 <= number g) as N2
    by (intros g Hg; rewrite (gk_number _ _ (Hb g Hg)); lia).
  destruct Hs as [us rs|us rs r now d us' d' ok Hd E|us rs r now failed d tries us' tries' Hd E]; cbn in *.
  - assert (forall b i, holders b i (rs ++ [(ngx_http_upstream_init_round_robin_peer us, false)]) = holders b i rs) as Hh
      by (intros; rewrite holders_app; simpl; lia).
    split; cbn.
    + eapply group_ok_ext; [|exact Hp]. intros i. by rewrite Hh.
    + intros g Hg. eapply group_ok_ext; [|by apply Hb]. intros i. by rewrite Hh.
    + apply Forall_app. split; [done|]. constructor; [|done]. by apply init_request_ok.
  - rewrite length_insert in Hlen. assert (forall b, bounded (fun i => holders b i rs)) as Hbd.
    { intros b k. pose proof (holders_bound b k rs). pose proof (holders_free b k rs r d Hd). lia. }
    assert (request_ok us (d, false)) as Hrd by (rewrite Forall_lookup in Hr; by eapply Hr).
    destruct (get_round_robin_ok now us d us' d' ok _ _ Hp Hb (Hbd false) (Hbd true) Hrd E) as (Hsh & Hr' & Hok).
    assert (Forall (request_ok us') (<[r := (d', ok)]> rs)) as Hrs by (by eapply requests_insert).
    destruct ok.
    + destruct Hok as (i & Hi & Hp' & Hb'). split; cbn; [| |done].
      * eapply group_ok_ext; [|exact Hp']. intros k. rewrite (holders_get rs r d d' false k i Hd Hi).
        by destruct (on_backup d').
      * intros g Hg. eapply group_ok_ext; [|by apply Hb']. intros k.
        rewrite (holders_get rs r d d' true k i Hd Hi). by destruct (on_backup d').
    + subst us'. split; cbn; [| |done].
      * eapply group_ok_ext; [|exact Hp]. intros k. symmetry. by apply (holders_busy rs r d).
      * intros g Hg. eapply group_ok_ext; [|by apply Hb]. intros k. symmetry. by apply (holders_busy rs r d).
  - assert (request_ok us (d, true)) as Hrd by (rewrite Forall_lookup in Hr; by eapply Hr).
    rewrite length_insert in Hlen. destruct (rk_holds _ _ Hrd eq_refl) as [i Hi]. cbn in Hi.
    pose proof (holders_pos rs r d i Hd Hi) as Hpos. pose proof (holders_bound (on_backup d) i rs) as Hbd.
    unfold ngx_http_upstream_free_round_robin_peer in E. rewrite Hi in E.
    pose proof (holders_free_one rs r d) as Hone.
    destruct (on_backup d) eqn:Eb.
    + destruct (next us) as [g|] eqn:En; [|by destruct (rk_next _ _ Hrd Eb)]. cbn in E. simplify_eq.
      split; cbn.
      * eapply group_ok_ext; [|exact Hp]. intros k. by rewrite (Hone false k i Hd Hi).
      * intros g2 [= <-]. eapply group_ok_ext; [|apply free_in_ok; [by apply Hb|lia]]. intros k.
        by rewrite (Hone true k i Hd Hi).
      * eapply requests_insert; [|exact Hr|]; [split; cbn; rewrite ?En; done|].
        eapply request_ok_shape; [|destruct Hrd as [R1 R2 R3 R4]; by split]. split; cbn; rewrite ?En; done.
    + simplify_eq. split; cbn.
      * eapply group_ok_ext; [|apply free_in_ok; [exact Hp|lia]]. intros k. by rewrite (Hone false k i Hd Hi).
      * intros g Hg. eapply group_ok_ext; [|by apply Hb]. intros k. by rewrite (Hone true k i Hd Hi).
      * assert (same_shape us (Upstream (free_in now failed i (primary us)) (next us))) as Hsh
          by (split; [done|]; cbn; by destruct (next us)).
        eapply requests_insert; [exact Hsh|exact Hr|]. eapply request_ok_shape; [exact Hsh|].
        destruct Hrd as [R1 R2 R3 R4]. by split.
Qed.

Definition server_ok (s : server) : Prop := 0 <= s_weight s /\ 0 <= s_max_conns s /\ 0 <= s_max_fails s.

Lemma make_peers_ok b l : Forall server_ok l -> group_ok (fun _ => 0) (make_peers b l).
Proof.
  intros Hl. split; cbn.
  - induction l as [|s l IH]; [done|]. apply Forall_cons in Hl as [_ Hl]. cbn.
    rewrite length_app. unfold server_peers at 1. rewrite length_replicate, Nat2Z.inj_add, <- IH by done. done.
  - assert (forall l1 l2, cur_sum (l1 ++ l2) = cur_sum l1 + cur_sum l2) as Happ.
    { clear. intros l1 l2. induction l1 as [|p l1 IH]; simpl; [done|]. rewrite IH. lia. }
    clear Hl. induction l as [|s l IH]; [done|]. cbn. rewrite Happ, IH. unfold server_peers.
    assert (forall n p, current_weight p = 0 -> cur_sum (replicate n p) = 0) as ->; [|done|done].
    clear. induction n as [|n IH]; intros p Hp; simpl; [done|]. rewrite Hp, IH; done.
  - intros i p Hp. apply list_elem_of_lookup_2, list_elem_of_In, in_concat in Hp as (ps & Hps & Hp).
    apply list_elem_of_In in Hps, Hp. apply list_elem_of_fmap in Hps as (s & -> & Hs). rewrite Forall_forall in Hl. specialize (Hl s Hs).
    destruct Hl as (H1 & H2 & H3). unfold server_peers in Hp. apply elem_of_replicate in Hp as [-> _].
    split; cbn; lia.
Qed.

Lemma init_ok servers us :
  ngx_http_upstream_init_round_robin servers = Some us -> Forall server_ok servers ->
  system_ok (System us []).
Proof.
  intros E Hs. unfold ngx_http_upstream_init_round_robin in E.
  assert (forall P `{forall x, Decision (P x)}, Forall server_ok (filter P servers)) as Hf.
  { intros P ?. apply Forall_forall. intros x Hx. apply list_elem_of_filter in Hx as [_ Hx].
    rewrite Forall_forall in Hs. by apply Hs. }
  destruct (_ =? 0); [done|]. destruct (_ =? 0); simplify_eq; split; cbn; try done.
  - apply make_peers_ok, Hf.
  - apply make_peers_ok, Hf.
  - intros g [= <-]. apply make_peers_ok, Hf.
Qed.

(** C10. Whatever requests arrive, in whatever order they take peers, fail and end:
    the effective weights stay between 0 and the weights, the current weights
    of a group sum up to 0, [conns] is the number of requests that hold the
    peer and at most [max_conns], and the bit maps have the words of the
    groups. *)
Theorem round_robin_invariant servers us s :
  ngx_http_upstream_init_round_robin servers = Some us -> Forall server_ok servers ->
  reachable (System us []) s -> Z.of_nat (length (requests s)) < 2 ^ 64 -> system_ok s.
Proof.
  intros E Hs Hr. induction Hr as [|s1 s2 Hr IH Hstep]; intros Hlen; [by eapply init_ok|].
  eapply step_ok; [|exact Hstep|done]. apply IH.
  assert (length (requests s1) <= length (requests s2))%nat; [|lia].
  destruct Hstep; cbn; rewrite ?length_app, ?length_insert; lia.
Qed.

(** *** One request *)

(* http/ngx_http_upstream_round_robin.c:13-14 ngx_http_upstream_tries *)
Definition ngx_http_upstream_tries (us : upstream) : Z :=
  number (primary us) + match next us with Some g => number g | None => 0 end.

(** A try of a request: when it takes a peer and what the other requests have
    made of the servers until then; when it gives the peer back, and whether it
    failed; whether something but the number of tries ends the request then: the
    kind of the error, what has been sent, the time. *)
Record turn : Type := Turn {
  t_get : Z;
  t_before : upstream;
  t_free : Z;
  t_after : upstream;
  t_failed : bool;
  t_stop : bool
}.

(** The peers that a request is given, and whether they are backup servers:
    [NGX_BUSY] ends the request, and so do [tries] of 0.  A connection that
    [cached] says was kept alive, for which a try is added, is not modelled. *)
(* http/ngx_http_upstream.c:4165-4169 ngx_http_upstream_next: if (u->peer.tries == 0 ...) *)
Fixpoint peers_given (turns : list turn) (d : peer_data) (tries : Z) : list (bool * nat) :=
  match turns with
  | [] => []
  | t :: turns =>
      let '(_, d, ok) := ngx_http_upstream_get_round_robin_peer (t_get t) (t_before t) d in
      match (if ok then current d else None) with
      | None => []
      | Some i =>
          let '(_, tries) := ngx_http_upstream_free_round_robin_peer (t_free t) (t_failed t) (t_after t) d tries in
          (on_backup d, i) :: if (tries =? 0) || t_stop t then [] else peers_given turns d tries
      end
  end.

(** What no request changes of the servers. *)
Definition group_shape (g : peers) : bool * Z * nat := (single g, number g, length (peer_list g)).
Definition shape (us : upstream) : bool * Z * nat * option (bool * Z * nat) :=
  (group_shape (primary us), group_shape <$> next us).

Lemma get_from_shape now g d g' d' : get_from now g d = Some (g', d') ->
  group_shape g' = group_shape g /\ on_backup d' = on_backup d /\
  exists j, current d' = Some j /\ (j < length (peer_list g))%nat /\
    (single g = false -> is_tried (tried d) j = false /\ tried d' = mark j (tried d)) /\ (single g = true -> j = 0%nat).
Proof.
  unfold get_from. destruct (single g) eqn:Hs.
  - destruct (peer_list g) as [|p ps] eqn:Hl; [done|]. destruct (down p); [done|]. destruct (_ && _); [done|].
    intros E. cbn in E. simplify_eq. unfold group_shape. cbn. rewrite Hl, length_alter.
    split; [done|]. split; [done|]. exists 0%nat. split; [done|]. split; [cbn; lia|]. done.
  - pose proof (get_peer_spec now g d) as Hg. destruct (ngx_http_upstream_get_peer now g d) as [[g1 d1]|]; [|done].
    destruct Hg as (j & p & Hp & Hpo & _ & -> & ->). intros E. cbn in E. simplify_eq. unfold group_shape. cbn.
    rewrite !length_alter, bumped_length. split; [done|]. split; [done|]. exists j. split; [done|].
    split; [by eapply lookup_lt_Some|]. split; [|done]. intros _. split; [|done].
    unfold passed_over in Hpo. by destruct (is_tried (tried d) j).
Qed.

Lemma get_shape now us d us' d' ok : ngx_http_upstream_get_round_robin_peer now us d = (us', d', ok) -> shape us' = shape us.
Proof.
  unfold ngx_http_upstream_get_round_robin_peer, shape. intros E.
  assert (forall g d g' d', get_from now g d = Some (g', d') -> group_shape g' = group_shape g) as Hf
    by (intros g d1 g' d1' H; apply (get_from_shape _ _ _ _ _ H)).
  destruct (on_backup d).
  - destruct (next us) as [g|] eqn:En; [|by simplify_eq; rewrite En].
    destruct (get_from now g d) as [[g1 d1]|] eqn:Eg; simplify_eq; cbn; rewrite ?En; [|done]. by rewrite (Hf _ _ _ _ Eg).
  - destruct (get_from now (primary us) d) as [[g1 d1]|] eqn:Ep; simplify_eq; cbn; [by rewrite (Hf _ _ _ _ Ep)|].
    destruct (next us) as [g|] eqn:En; [|by simplify_eq; rewrite En].
    destruct (get_from now g _) as [[g1 d1]|] eqn:Eg; simplify_eq; cbn; rewrite ?En; [|done]. by rewrite (Hf _ _ _ _ Eg).
Qed.

Lemma free_shape now failed us d tries us' tries' :
  ngx_http_upstream_free_round_robin_peer now failed us d tries = (us', tries') -> shape us' = shape us.
Proof.
  unfold ngx_http_upstream_free_round_robin_peer, shape, group_shape. intros E. destruct (current d); [|by simplify_eq].
  destruct (on_backup d); simplify_eq; cbn; [|by rewrite length_alter].
  destruct (next us); [|done]. cbn. by rewrite length_alter.
Qed.

Lemma reachable_shape us rs us' rs' : reachable (System us rs) (System us' rs') -> shape us' = shape us.
Proof.
  intros Hr. change us with (servers_ (System us rs)). change us' with (servers_ (System us' rs')).
  induction Hr as [|s1 s2 Hr IH Hs]; [done|]. rewrite <- IH. destruct Hs; cbn; [done|by eapply get_shape|by eapply free_shape].
Qed.

(** The words of the bit map are enough for a group of [k] peers. *)
Definition fits (k : nat) (tried : list Z) : Prop := (Z.to_nat (words (Z.of_nat k)) <= length tried)%nat.

Lemma fits_covers tried k i : fits k tried -> (i < k)%nat -> (tried_word i < length tried)%nat.
Proof.
  unfold fits, words, tried_word, word_bits. intros Hf Hi.
  assert (Z.of_nat i / 64 < (Z.of_nat k + (64 - 1)) / 64).
  { apply Z.lt_le_trans with ((Z.of_nat i + 64) / 64).
    - replace (Z.of_nat i + 64) with (Z.of_nat i + 1 * 64) by lia. rewrite Z.div_add by done. lia.
    - apply Z.div_le_mono; lia. }
  pose proof (Z.div_pos (Z.of_nat i) 64). lia.
Qed.

Section Several.
(** Groups of [n] peers and, as backup, of [m]; neither is [single]. *)
Context (n m : nat) (next_ : bool).
Definition several : bool * Z * nat * option (bool * Z * nat) :=
  (false, Z.of_nat n, n, if next_ then Some (false, Z.of_nat m, m) else None).

Definition all_fit (d : peer_data) : Prop := fits n (tried d) /\ (next_ = true -> fits m (tried d)).

(** A peer that the request can still be given. *)
Definition fresh (d : peer_data) (x : bool * nat) : Prop :=
  (x.2 < if x.1 then m else n)%nat /\
  if on_backup d then x.1 = true /\ is_tried (tried d) x.2 = false
  else x.1 = false -> is_tried (tried d) x.2 = false.

Lemma fresh_marked d d' j :
  all_fit d -> (on_backup d = true -> next_ = true) -> on_backup d' = on_backup d -> tried d' = mark j (tried d) ->
  (j < if on_backup d then m else n)%nat -> is_tried (tried d) j = false ->
  all_fit d' /\ fresh d (on_backup d', j) /\ forall x, fresh d' x -> fresh d x /\ x <> (on_backup d', j).
Proof.
  intros [Hn Hm] Hnext Eb Et Hj Hjt.
  assert (Hw : (tried_word j < length (tried d))%nat).
  { destruct (on_backup d); [eapply fits_covers; [by apply Hm, Hnext|done]|by eapply fits_covers]. }
  split; [unfold all_fit, fits in *; by rewrite Et, mark_length|].
  split; [unfold fresh; cbn; rewrite Eb; by destruct (on_backup d)|].
  intros [b i] [Hi Hx]. unfold fresh. cbn in *. rewrite Eb, Et in *. destruct (on_backup d).
  - destruct Hx as [-> Hx]. rewrite mark_tried in Hx by done. apply orb_false_iff in Hx as [Hx Hne].
    split; [done|]. intros [= ->]. by rewrite bool_decide_true in Hne.
  - split.
    + split; [done|]. intros ->. specialize (Hx eq_refl). rewrite mark_tried in Hx by done. by apply orb_false_iff in Hx as [Hx _].
    + intros [= -> ->]. specialize (Hx eq_refl). rewrite mark_tried, bool_decide_true, orb_true_r in Hx by done. done.
Qed.

(** One try. *)
Lemma get_fresh now us d us' d' :
  shape us = several -> all_fit d -> (on_backup d = true -> next_ = true) ->
  ngx_http_upstream_get_round_robin_peer now us d = (us', d', true) ->
  exists i, current d' = Some i /\ all_fit d' /\ (on_backup d' = true -> next_ = true) /\
    fresh d (on_backup d', i) /\ forall x, fresh d' x -> fresh d x /\ x <> (on_backup d', i).
Proof.
  intros Hs Hf Hb E. unfold shape, several, group_shape in Hs. injection Hs as S1 S2 S3 S4.
  unfold ngx_http_upstream_get_round_robin_peer in E.
  assert (Hback : forall g d0 g1 d1, next us = Some g -> all_fit d0 -> on_backup d0 = true ->
    get_from now g d0 = Some (g1, d1) -> next_ = true /\ exists i, current d1 = Some i /\ all_fit d1 /\ on_backup d1 = true /\
      fresh d0 (on_backup d1, i) /\ forall x, fresh d1 x -> fresh d0 x /\ x <> (on_backup d1, i)).
  { intros g d0 g1 d1 Hg Hf0 Hb0 Eg. rewrite Hg in S4. cbn in S4. destruct next_ eqn:En; [|done]. split; [done|].
    injection S4 as T1 T2 T3. apply get_from_shape in Eg as (_ & Eb & j & Ej & Hj & Hmark & _).
    destruct (Hmark T1) as [Hjt Et]. exists j. rewrite T3 in Hj.
    destruct (fresh_marked d0 d1 j Hf0 (fun _ => En) Eb Et) as (H1 & H2 & H3); [by rewrite Hb0|done|].
    split_and!; try done. congruence. }
  destruct (on_backup d) eqn:Hbd.
  - destruct (next us) as [g|] eqn:En; [|done]. destruct (get_from now g d) as [[g1 d1]|] eqn:Eg; [|done]. simplify_eq.
    destruct (Hback g d _ d' eq_refl Hf Hbd Eg) as (Hn & i & Hi & H1 & _ & H2 & H3). by exists i.
  - destruct (get_from now (primary us) d) as [[g1 d1]|] eqn:Ep.
    + simplify_eq. apply get_from_shape in Ep as (_ & Eb & j & Ej & Hj & Hmark & _).
      destruct (Hmark S1) as [Hjt Et]. exists j. rewrite S3 in Hj.
      destruct (fresh_marked d d' j Hf ltac:(by rewrite Hbd) Eb Et) as (H1 & H2 & H3); [by rewrite Hbd|done|].
      split_and!; try done. by rewrite Eb, Hbd.
    + destruct (next us) as [g|] eqn:En; [|done].
      set (d0 := PeerData true (current d) _) in E.
      destruct (get_from now g d0) as [[g1 d1]|] eqn:Eg; [|done]. simplify_eq.
      assert (Hf0 : all_fit d0).
      { cbn in S4. destruct next_ eqn:Hn; [|done]. injection S4 as T1 T2 T3. destruct Hf as [F1 F2]. specialize (F2 Hn).
        assert (length (tried d0) = length (tried d)) as El.
        { cbn. rewrite length_app, length_replicate, length_drop, T2. unfold fits in F2. lia. }
        unfold all_fit, fits. rewrite El. split; [exact F1|by intros _]. }
      destruct (Hback g d0 _ d' eq_refl Hf0 eq_refl Eg) as (Hn & i & Hi & H1 & Hb' & H2 & H3).
      exists i. split; [done|]. split; [done|]. split; [done|]. split.
      * rewrite Hb' in *. destruct H2 as [H2 _]. split; [done|]. by rewrite Hbd.
      * intros x Hx. destruct (H3 x Hx) as [[Hx1 Hx2] Hne]. split; [|done]. split; [done|].
        rewrite Hbd. cbn in Hx2. destruct Hx2 as [-> _]. done.
Qed.

Lemma given_fresh turns : forall d tries,
  Forall (fun t => shape (t_before t) = several) turns -> all_fit d -> (on_backup d = true -> next_ = true) ->
  NoDup (peers_given turns d tries) /\ Forall (fresh d) (peers_given turns d tries).
Proof.
  induction turns as [|t turns IH]; intros d tries Ht Hf Hb; cbn [peers_given]; [by split; constructor|].
  apply Forall_cons in Ht as [Ht Hts].
  destruct (ngx_http_upstream_get_round_robin_peer (t_get t) (t_before t) d) as [[us' d'] [|]] eqn:E; [|by split; constructor].
  destruct (get_fresh _ _ _ _ _ Ht Hf Hb E) as (i & Hi & Hf' & Hb' & Hfr & Hx). rewrite Hi.
  destruct (ngx_http_upstream_free_round_robin_peer _ _ _ _ _) as [us2 tries'].
  destruct ((tries' =? 0) || t_stop t); [split; [apply NoDup_singleton|by constructor]|].
  destruct (IH d' tries' Hts Hf' Hb') as [IH1 IH2]. split.
  - constructor; [|done]. intros Hin. rewrite Forall_forall in IH2. by destruct (Hx _ (IH2 _ Hin)).
  - constructor; [done|]. eapply Forall_impl; [exact IH2|]. intros x H. by apply Hx.
Qed.
End Several.

(** A [single] group: the end of the first try is the end of the tries. *)
Lemma given_single turns us d tries :
  single (primary us) = true -> next us = None -> on_backup d = false ->
  Forall (fun t => shape (t_before t) = shape us /\ shape (t_after t) = shape us) turns ->
  peers_given turns d tries = [] \/ peers_given turns d tries = [(false, 0%nat)].
Proof.
  intros Hs Hn Hb Ht. destruct turns as [|t turns]; [by left|]. apply Forall_cons in Ht as [[H1 H2] _]. cbn [peers_given].
  unfold shape, group_shape in H1, H2. rewrite Hn in H1, H2. injection H1 as T1 _ _ T2. injection H2 as U1 _ _ U2.
  unfold ngx_http_upstream_get_round_robin_peer. rewrite Hb.
  destruct (get_from (t_get t) (primary (t_before t)) d) as [[g' d']|] eqn:E.
  - apply get_from_shape in E as (_ & Eb & j & Ej & _ & _ & Hj). rewrite Ej, Hj by congruence.
    unfold ngx_http_upstream_free_round_robin_peer. rewrite Ej, Eb, Hb, U1, Hs. cbn. by right.
  - destruct (next (t_before t)); [done|]. by left.
Qed.

(** Each try takes one from the number of tries. *)
Lemma given_tries turns : forall d tries, 0 <= tries -> Z.of_nat (length (peers_given turns d tries)) <= Z.max 1 tries.
Proof.
  induction turns as [|t turns IH]; intros d tries Ht; cbn [peers_given]; [cbn; lia|].
  destruct (ngx_http_upstream_get_round_robin_peer _ _ _) as [[us' d'] ok].
  destruct (if ok then current d' else None) as [i|] eqn:Hi; [|cbn; lia].
  assert (Hc : current d' = Some i) by (by destruct ok). unfold ngx_http_upstream_free_round_robin_peer. rewrite Hc.
  set (tries' := if single _ then 0 else _).
  assert (0 <= tries' /\ (tries' <> 0 -> tries' = tries - 1)) as [H0 H1].
  { unfold tries'. destruct (single _); [lia|]. destruct (Z.eqb_spec tries 0); lia. }
  cbn [length]. destruct (Z.eqb_spec tries' 0) as [->|Hne]; [cbn; lia|]. destruct (t_stop t); [cbn; lia|]. cbn [orb].
  specialize (IH d' tries' H0). specialize (H1 Hne). lia.
Qed.

(** What [ngx_http_upstream_init_round_robin] makes of the servers. *)
Lemma init_shape servers us :
  ngx_http_upstream_init_round_robin servers = Some us -> Forall server_ok servers ->
  let n := length (peer_list (primary us)) in
  let m := match next us with Some g => length (peer_list g) | None => 0%nat end in
  ngx_http_upstream_tries us = Z.of_nat n + Z.of_nat m /\
  (shape us = several n m (bool_decide (is_Some (next us))) \/
   single (primary us) = true /\ next us = None /\ n = 1%nat).
Proof.
  intros E Hs n m. destruct (init_ok servers us E Hs) as [Hp Hb _]. cbn in Hp, Hb.
  pose proof (gk_number _ _ Hp) as Hn. fold n in Hn. unfold shape, several, group_shape, ngx_http_upstream_tries.
  unfold ngx_http_upstream_init_round_robin in E. destruct (_ =? 0); [done|]. destruct (_ =? 0).
  - assert (next us = None) as Hnext by (by injection E as <-). subst m. rewrite Hnext, Hn. split; [done|].
    destruct (single (primary us)) eqn:Hsg; [right|by left]. split; [done|]. split; [done|].
    assert (number (primary us) = 1); [|lia]. injection E as <-. cbn in Hsg |- *. by apply Z.eqb_eq in Hsg.
  - assert (exists g, next us = Some g /\ single g = false /\ single (primary us) = false) as (g & Hg & S1 & S2)
      by (injection E as <-; by eexists).
    pose proof (gk_number _ _ (Hb g Hg)) as Hm. subst m. rewrite Hg, Hn, Hm, S2. split; [done|]. left. cbn. by rewrite S1, Hm.
Qed.

(** The states of the servers that any requests lead to. *)
Definition served (us us' : upstream) : Prop := exists rs, reachable (System us []) (System us' rs).

(** C11. Whatever the other requests do in between, the tries of a request, as
    long as its number of tries allows and nothing else ends it, are with
    distinct peers: of the primary servers, then of the backup servers; so that
    there are at most as many as there are peers, and as [tries] says.  A group
    of several peers sees to that with the bit map, a single peer by setting
    [tries] to 0. *)
Theorem round_robin_tries servers us turns tries :
  ngx_http_upstream_init_round_robin servers = Some us -> Forall server_ok servers ->
  Forall (fun t => served us (t_before t) /\ served us (t_after t)) turns -> 0 <= tries ->
  let given := peers_given turns (ngx_http_upstream_init_round_robin_peer us) tries in
  NoDup given /\ Z.of_nat (length given) <= ngx_http_upstream_tries us /\ Z.of_nat (length given) <= Z.max 1 tries.
Proof.
  intros E Hs Ht Htries given. destruct (init_shape servers us E Hs) as [Hnum Hcase].
  set (n := length (peer_list (primary us))) in *. set (m := match next us with Some g => _ | None => _ end) in *.
  assert (Hshape : Forall (fun t => shape (t_before t) = shape us /\ shape (t_after t) = shape us) turns).
  { eapply Forall_impl; [exact Ht|]. intros t [[rs1 H1] [rs2 H2]]. split; by eapply reachable_shape. }
  enough (NoDup given /\ Z.of_nat (length given) <= ngx_http_upstream_tries us) as [? ?]
    by (split; [done|]; split; [done|]; by apply given_tries).
  destruct Hcase as [Hsev|(Hsg & Hnext & Hn1)].
  - destruct (init_ok servers us E Hs) as [Hp Hb _]. cbn in Hp, Hb.
    assert (request_ok us (ngx_http_upstream_init_round_robin_peer us, false)) as [R1 R2 _ _].
    { apply init_request_ok; [rewrite (gk_number _ _ Hp); lia|]. intros g Hg. rewrite (gk_number _ _ (Hb g Hg)). lia. }
    destruct (given_fresh n m (bool_decide (is_Some (next us))) turns (ngx_http_upstream_init_round_robin_peer us) tries)
      as [Hnd Hfr].
    { eapply Forall_impl; [exact Hshape|]. intros t [-> _]. exact Hsev. }
    { split; unfold fits; [unfold n; rewrite <- (gk_number _ _ Hp); exact R1|]. intros [g Hg]%bool_decide_eq_true.
      subst m. rewrite Hg, <- (gk_number _ _ (Hb g Hg)). by apply R2. }
    { done. }
    fold given in Hnd, Hfr. split; [done|]. rewrite Hnum.
    assert (length given <= length (((fun i => (false, i)) <$> seq 0 n) ++ ((fun i => (true, i)) <$> seq 0 m)))%nat as Hlen.
    { apply NoDup_incl_length; [by apply NoDup_ListNoDup|]. intros [b i] Hi%list_elem_of_In. rewrite Forall_forall in Hfr.
      destruct (Hfr _ Hi) as [Hlt _]. cbn in Hlt. apply list_elem_of_In, elem_of_app.
      destruct b; [right|left]; apply list_elem_of_fmap; exists i; (split; [done|]); apply elem_of_seq; lia. }
    rewrite length_app, !length_fmap, !length_seq in Hlen. lia.
  - destruct (given_single turns us (ngx_http_upstream_init_round_robin_peer us) tries Hsg Hnext eq_refl Hshape) as [Eg|Eg];
      subst given; rewrite Eg; (split; [first [apply NoDup_nil_2|apply NoDup_singleton]|]); cbn; lia.
Qed.

(** Three servers that fail: the fourth try finds none. *)
Lemma round_robin_tries_witness :
  let us := default (Upstream (Peers 0 0 true false []) None) (ngx_http_upstream_init_round_robin sample_servers) in
  let d := ngx_http_upstream_init_round_robin_peer us in
  let turns := [Turn 1 us 2 us true false; Turn 2 us 3 us true false; Turn 3 us 4 us true false; Turn 4 us 5 us true false] in
  peers_given turns d 5 = [(false, 0%nat); (false, 1%nat); (false, 2%nat)] /\
  NoDup (peers_given turns d 5) /\ Z.of_nat (length (peers_given turns d 5)) <= ngx_http_upstream_tries us /\
  Z.of_nat (length (peers_given turns d 5)) <= Z.max 1 5.
Proof.
  intros us d turns. split; [reflexivity|]. apply (round_robin_tries sample_servers us).
  - reflexivity.
  - repeat constructor; cbn; lia.
  - repeat constructor; exists []; apply reach_refl.
  - lia.
Defined.

(** One server of two connections, and a backup server. *)
Definition limited_servers : list server :=
  [Server 1 1 1 1 10 false false; Server 1 1 0 1 10 false true].

Lemma round_robin_invariant_witness :
  let us := default (Upstream (Peers 0 0 true false []) None) (ngx_http_upstream_init_round_robin limited_servers) in
  let d := ngx_http_upstream_init_round_robin_peer us in
  let '(us1, d1, ok1) := ngx_http_upstream_get_round_robin_peer 1 us d in
  let '(us2, d2, ok2) := ngx_http_upstream_get_round_robin_peer 2 us1 d in
  system_ok (System us2 [(d1, ok1); (d2, ok2)]) /\ on_backup d1 = false /\ on_backup d2 = true.
Proof.
  intros us d.
  destruct (ngx_http_upstream_get_round_robin_peer 1 us d) as [[us1 d1] ok1] eqn:E1.
  destruct (ngx_http_upstream_get_round_robin_peer 2 us1 d) as [[us2 d2] ok2] eqn:E2.
  split.
  - apply (round_robin_invariant limited_servers us).
    + reflexivity.
    + repeat constructor; cbn; lia.
    + assert (reachable (System us []) (System us1 [(d1, ok1); (d, false)])) as Hr.
      { pose proof (step_new us1 [(d1, ok1)]) as Hn.
        assert (ngx_http_upstream_init_round_robin_peer us1 = d) as Ed
          by (vm_compute in E1; injection E1 as <- _ _; reflexivity).
        rewrite Ed in Hn. eapply reach_step; [|exact Hn].
        eapply reach_step; [eapply reach_step; [apply reach_refl|apply step_new]|].
        by apply (step_get us [(d, false)] 0 1 d us1 d1 ok1). }
      eapply reach_step; [exact Hr|]. by apply (step_get us1 [(d1, ok1); (d, false)] 1 2 d us2 d2 ok2).
    + vm_compute. reflexivity.
  - vm_compute in E1. injection E1 as <- <- <-. vm_compute in E2. injection E2 as <- <- <-. done.
Defined.
