(* ===== verification/ZendSort.v ===== *)
(** * ZendSort: the sorting routine of the Zend engine

    [zend_sort] and [zend_insert_sort] of Zend/zend_sort.c (PHP): a hybrid of
    quick sort and insertion sort on an array of elements of [siz] bytes.  The
    array is a list, pointers into it are indices; [cmp] is the caller's
    comparison, [swp] exchanges two elements.  An access outside of the array
    makes the result [None]. *)

From S2P Require Import Prelude.
From Stdlib Require Import Sorting.Sorted.

Section ZendSort.
Context {A : Type} (cmp : A -> A -> Z).

(** ** Access to the array *)

Definition get (a : list A) (i : Z) : option A := if 0 <=? i then a !! Z.to_nat i else None.

(** [cmp(i, j) > 0] *)
Definition gtp (a : list A) (i j : Z) : option bool :=
  x ← get a i; y ← get a j; Some (0 <? cmp x y).

Definition swp (a : list A) (i j : Z) : option (list A) :=
  x ← get a i; y ← get a j; Some (<[Z.to_nat i := y]> (<[Z.to_nat j := x]> a)).

(** ** Up to five elements *)

(* php:Zend/zend_sort.c:93-97 zend_sort_2 *)
Definition zend_sort_2 (l : list A) (a b : Z) : option (list A) :=
  ab ← gtp l a b;
  if ab : bool then swp l a b else Some l.

(* php:Zend/zend_sort.c:100-119 zend_sort_3 *)
Definition zend_sort_3 (l : list A) (a b c : Z) : option (list A) :=
  ab ← gtp l a b;
  if negb ab then
    bc ← gtp l b c;
    if negb bc then Some l
    else l ← swp l b c; ab ← gtp l a b; if ab : bool then swp l a b else Some l
  else
    cb ← gtp l c b;
    if negb cb then swp l a c
    else l ← swp l a b; bc ← gtp l b c; if bc : bool then swp l b c else Some l.

(* php:Zend/zend_sort.c:122-133 zend_sort_4 *)
Definition zend_sort_4 (l : list A) (a b c d : Z) : option (list A) :=
  l ← zend_sort_3 l a b c;
  cd ← gtp l c d;
  if negb cd then Some l
  else
    l ← swp l c d; bc ← gtp l b c;
    if negb bc then Some l
    else l ← swp l b c; ab ← gtp l a b; if ab : bool then swp l a b else Some l.

(* php:Zend/zend_sort.c:136-150 zend_sort_5 *)
Definition zend_sort_5 (l : list A) (a b c d e : Z) : option (list A) :=
  l ← zend_sort_4 l a b c d;
  de ← gtp l d e;
  if negb de then Some l
  else
    l ← swp l d e; cd ← gtp l c d;
    if negb cd then Some l
    else
      l ← swp l c d; bc ← gtp l b c;
      if negb bc then Some l
      else l ← swp l b c; ab ← gtp l a b; if ab : bool then swp l a b else Some l.

(** ** Insertion sort *)

(** [while (j != start)]: one step back at a time. *)
(* php:Zend/zend_sort.c:188-194 zend_insert_sort: while *)
Fixpoint back_one (fuel : nat) (l : list A) (start i j : Z) : option Z :=
  match fuel with
  | O => None
  | S fuel =>
      if j =? start then Some j
      else
        let j := j - 1 in
        g ← gtp l j i;
        if negb g then Some (j + 1) else back_one fuel l start i j
  end.

(** [do ... while (1)]: two steps back at a time. *)
(* php:Zend/zend_sort.c:204-223 zend_insert_sort: do *)
Fixpoint back_two (fuel : nat) (l : list A) (start i j : Z) : option Z :=
  match fuel with
  | O => None
  | S fuel =>
      let j := j - 2 in
      g ← gtp l j i;
      if negb g then
        let j := j + 1 in
        g ← gtp l j i;
        if negb g then Some (j + 1) else Some j
      else if j =? start then Some j
      else if j =? start + 1 then
        let j := j - 1 in
        g ← gtp l i j;
        if g : bool then Some (j + 1) else Some j
      else back_two fuel l start i j
  end.

(** [for (k = i; k > j; k -= siz)] *)
(* php:Zend/zend_sort.c:195-197 zend_insert_sort: for k *)
Fixpoint rotate (fuel : nat) (l : list A) (k j : Z) : option (list A) :=
  match fuel with
  | O => None
  | S fuel => if j <? k then l ← swp l k (k - 1); rotate fuel l (k - 1) j else Some l
  end.

(** One element; [back] is the search for its place. *)
(* php:Zend/zend_sort.c:184-197 zend_insert_sort: i *)
Definition insert_at (back : nat -> list A -> Z -> Z -> Z -> option Z) (l : list A) (start i : Z)
  : option (list A) :=
  let j := i - 1 in
  g ← gtp l j i;
  if negb g then Some l
  else
    let fuel := S (Z.to_nat (i - start)) in
    j ← back fuel l start i j; rotate fuel l i j.

(* php:Zend/zend_sort.c:183-227 zend_insert_sort: for i *)
Fixpoint insert_all (back : nat -> list A -> Z -> Z -> Z -> option Z) (fuel : nat) (l : list A)
  (start i e : Z) : option (list A) :=
  match fuel with
  | O => None
  | S fuel =>
      if i <? e then l ← insert_at back l start i; insert_all back fuel l start (i + 1) e
      else Some l
  end.

(* php:Zend/zend_sort.c:153-231 zend_insert_sort *)
Definition zend_insert_sort (l : list A) (base nmemb : Z) : option (list A) :=
  if nmemb <=? 1 then Some l
  else if nmemb =? 2 then zend_sort_2 l base (base + 1)
  else if nmemb =? 3 then zend_sort_3 l base (base + 1) (base + 2)
  else if nmemb =? 4 then zend_sort_4 l base (base + 1) (base + 2) (base + 3)
  else if nmemb =? 5 then zend_sort_5 l base (base + 1) (base + 2) (base + 3) (base + 4)
  else
    let fuel := Z.to_nat nmemb in
    let sentry := base + 6 in
    l ← insert_all back_one fuel l base (base + 1) sentry;
    insert_all back_two fuel l base sentry (base + nmemb).

(** ** Quick sort *)

(** [while (cmp(pivot, i) > 0)]; [true] for [goto done]. *)
(* php:Zend/zend_sort.c:341-346 zend_sort: i *)
Fixpoint scan_up (fuel : nat) (l : list A) (pivot i j : Z) : option (Z * bool) :=
  match fuel with
  | O => None
  | S fuel =>
      g ← gtp l pivot i;
      if negb g then Some (i, false)
      else let i := i + 1 in if i =? j then Some (i, true) else scan_up fuel l pivot i j
  end.

(** [while (cmp(j, pivot) > 0)] *)
(* php:Zend/zend_sort.c:351-356 zend_sort: j *)
Fixpoint scan_down (fuel : nat) (l : list A) (pivot i j : Z) : option (Z * bool) :=
  match fuel with
  | O => None
  | S fuel =>
      g ← gtp l j pivot;
      if negb g then Some (j, false)
      else let j := j - 1 in if j =? i then Some (j, true) else scan_down fuel l pivot i j
  end.

(** [while (1)]: the array and [i] at [done]. *)
(* php:Zend/zend_sort.c:340-362 zend_sort: while *)
Fixpoint partition (fuel : nat) (l : list A) (pivot i j : Z) : option (list A * Z) :=
  match fuel with
  | O => None
  | S fuel =>
      '(i, fin) ← scan_up (S fuel) l pivot i j;
      if fin : bool then Some (l, i)
      else
        let j := j - 1 in
        if j =? i then Some (l, i)
        else
          '(j, fin) ← scan_down (S fuel) l pivot i j;
          if fin : bool then Some (l, i)
          else
            l ← swp l i j;
            let i := i + 1 in
            if i =? j then Some (l, i) else partition fuel l pivot i j
  end.

(** The median of three or five elements comes to the middle. *)
(* php:Zend/zend_sort.c:327-335 zend_sort: pivot *)
Definition choose_pivot (l : list A) (start nmemb : Z) : option (list A) :=
  let offset := Z.shiftr nmemb 1 in
  let pivot := start + offset in
  let e := start + nmemb in
  if negb (Z.shiftr nmemb 10 =? 0) then
    let delta := Z.shiftr offset 1 in
    zend_sort_5 l start (start + delta) pivot (pivot + delta) (e - 1)
  else zend_sort_3 l start pivot (e - 1).

(** The choice of the pivot, the partition, and the pivot moved to its place. *)
(* php:Zend/zend_sort.c:324-364 zend_sort: else *)
Definition split_at_pivot (l : list A) (start nmemb : Z) : option (list A * Z) :=
  let e := start + nmemb in
  let offset := Z.shiftr nmemb 1 in
  let pivot := start + offset in
  l ← choose_pivot l start nmemb;
  l ← swp l (start + 1) pivot;
  let pivot := start + 1 in
  '(l, i) ← partition (Z.to_nat nmemb) l pivot (pivot + 1) (e - 1);
  l ← swp l pivot (i - 1);
  Some (l, i).

(** [while (1)]; [rec] is the recursive call. *)
(* php:Zend/zend_sort.c:319-374 zend_sort: while *)
Fixpoint sort_loop (rec : list A -> Z -> Z -> option (list A)) (fuel : nat) (l : list A)
  (base nmemb : Z) : option (list A) :=
  match fuel with
  | O => None
  | S fuel =>
      if nmemb <=? 16 then zend_insert_sort l base nmemb
      else
        let e := base + nmemb in
        '(l, i) ← split_at_pivot l base nmemb;
        if i - 1 - base <? e - i then
          l ← rec l base (i - base - 1); sort_loop rec fuel l i (e - i)
        else
          l ← rec l i (e - i); sort_loop rec fuel l base (i - base - 1)
  end.

(** [depth] is the number of calls that may be nested. *)
(* php:Zend/zend_sort.c:317-375 zend_sort *)
Fixpoint zend_sort (depth : nat) (l : list A) (base nmemb : Z) : option (list A) :=
  match depth with
  | O => None
  | S depth => sort_loop (zend_sort depth) (S (Z.to_nat nmemb)) l base nmemb
  end.

(** ** Reasoning about computations that may fail *)

Definition wp {X} (m : option X) (P : X -> Prop) : Prop :=
  match m with Some x => P x | None => False end.

Lemma wp_bind {X Y} (m : option X) (f : X -> option Y) P :
  wp m (fun x => wp (f x) P) -> wp (x ← m; f x) P.
Proof. by destruct m. Qed.

Lemma wp_mono {X} (m : option X) (P Q : X -> Prop) :
  wp m P -> (forall x, P x -> Q x) -> wp m Q.
Proof. destruct m; simpl; auto. Qed.

(** ** The array as a function *)

Context (d : A).

Definition v (l : list A) (i : Z) : A := default d (get l i).
Definition size (l : list A) : Z := Z.of_nat (length l).
Definition gt (x y : A) : bool := 0 <? cmp x y.
Definition le (x y : A) : Prop := gt x y = false.

Lemma get_v l i : 0 <= i < size l -> get l i = Some (v l i).
Proof.
  intros H. unfold v, get, size in *. destruct (Z.leb_spec 0 i); [|lia].
  destruct (lookup_lt_is_Some_2 l (Z.to_nat i)) as [x Hx]; [lia|]. by rewrite Hx.
Qed.

Lemma get_swp l i j k : 0 <= i < size l -> 0 <= j < size l ->
  get (<[Z.to_nat i := v l j]> (<[Z.to_nat j := v l i]> l)) k =
  if k =? i then Some (v l j) else if k =? j then Some (v l i) else get l k.
Proof.
  intros Hi Hj. unfold size in *. unfold get at 1. destruct (Z.leb_spec 0 k).
  - destruct (Z.eqb_spec k i) as [->|Hki].
    { apply list_lookup_insert_eq. rewrite length_insert. lia. }
    rewrite list_lookup_insert_ne by lia. destruct (Z.eqb_spec k j) as [->|Hkj].
    { apply list_lookup_insert_eq. lia. }
    rewrite list_lookup_insert_ne by lia. unfold get. destruct (Z.leb_spec 0 k); [done|lia].
  - destruct (Z.eqb_spec k i), (Z.eqb_spec k j); try lia. unfold get.
    destruct (Z.leb_spec 0 k); [lia|done].
Qed.

(** [moves P l l']: the elements at the positions in [P] are exchanged among each other. *)
Definition moves (P : Z -> Prop) (l l' : list A) : Prop :=
  l' ≡ₚ l /\ forall k, ~ P k -> v l' k = v l k.

Lemma moves_refl P l : moves P l l.
Proof. by split. Qed.

Lemma moves_trans P l1 l2 l3 : moves P l1 l2 -> moves P l2 l3 -> moves P l1 l3.
Proof.
  intros [H1 H1'] [H2 H2']. split; [by rewrite H2|]. intros k Hk. by rewrite H2', H1'.
Qed.

Lemma moves_mono (P Q : Z -> Prop) l l' : (forall k, P k -> Q k) -> moves P l l' -> moves Q l l'.
Proof. intros H [H1 H2]. split; [done|]. intros k Hk. apply H2. auto. Qed.

Lemma moves_size P l l' : moves P l l' -> size l' = size l.
Proof. intros [H _]. unfold size. by rewrite H. Qed.

Lemma insert_swap_perm (l : list A) i j x y :
  l !! i = Some x -> l !! j = Some y -> <[i := y]> (<[j := x]> l) ≡ₚ l.
Proof.
  intros Hi Hj. destruct (decide (i = j)) as [->|Hne].
  { rewrite Hi in Hj. injection Hj as <-.
    rewrite list_insert_insert_eq, list_insert_id by done. done. }
  apply Permutation_inj. split.
  - by rewrite !length_insert.
  - exists (fun k => if decide (k = i) then j else if decide (k = j) then i else k).
    split.
    + intros a b. repeat case_decide; congruence.
    + intros k. repeat case_decide; subst.
      * rewrite list_lookup_insert_eq; [done|]. rewrite length_insert. by apply lookup_lt_Some in Hi.
      * rewrite list_lookup_insert_ne, list_lookup_insert_eq by (done || by apply lookup_lt_Some in Hj).
        done.
      * by rewrite !list_lookup_insert_ne.
Qed.

Lemma wp_gtp l i j P : 0 <= i < size l -> 0 <= j < size l ->
  P (gt (v l i) (v l j)) -> wp (gtp l i j) P.
Proof. intros Hi Hj H. unfold gtp. rewrite !get_v by done. exact H. Qed.

Lemma wp_swp l i j P : 0 <= i < size l -> 0 <= j < size l ->
  (forall l', moves (fun k => k = i \/ k = j) l l' ->
    (forall k, v l' k = if k =? i then v l j else if k =? j then v l i else v l k) -> P l') ->
  wp (swp l i j) P.
Proof.
  intros Hi Hj H. unfold swp. rewrite !get_v by done. simpl.
  assert (Hv : forall k, v (<[Z.to_nat i := v l j]> (<[Z.to_nat j := v l i]> l)) k =
    if k =? i then v l j else if k =? j then v l i else v l k).
  { intros k. unfold v at 1. rewrite get_swp by done.
    destruct (k =? i); [done|]. by destruct (k =? j). }
  apply H; [split|done].
  - pose proof (get_v l i Hi) as H1. pose proof (get_v l j Hj) as H2. unfold get in H1, H2.
    destruct (Z.leb_spec 0 i); [|lia]. destruct (Z.leb_spec 0 j); [|lia].
    by apply insert_swap_perm.
  - intros k Hk. rewrite Hv. destruct (Z.eqb_spec k i), (Z.eqb_spec k j); tauto.
Qed.

Lemma get_in l k x : get l k = Some x <-> 0 <= k /\ l !! Z.to_nat k = Some x.
Proof. unfold get. destruct (Z.leb_spec 0 k); intuition (try lia; try done). Qed.

Lemma lookup_v l (n : nat) : (n < length l)%nat -> l !! n = Some (v l (Z.of_nat n)).
Proof.
  intros H. assert (Hg := get_v l (Z.of_nat n) ltac:(unfold size; lia)).
  apply get_in in Hg as [_ Hg]. by rewrite Nat2Z.id in Hg.
Qed.

Lemma lookup_agree l l' (n : nat) : length l' = length l ->
  v l' (Z.of_nat n) = v l (Z.of_nat n) -> l' !! n = l !! n.
Proof.
  intros Hl Hv. destruct (decide (n < length l)%nat) as [Hn|Hn].
  - rewrite !lookup_v by lia. by rewrite Hv.
  - by rewrite !lookup_ge_None_2 by lia.
Qed.

(** A segment is exchanged in itself. *)
Lemma moves_cut p s q l' :
  moves (fun k => Z.of_nat (length p) <= k < Z.of_nat (length p + length s)) (p ++ s ++ q) l' ->
  exists s', l' = p ++ s' ++ q /\ s' ≡ₚ s.
Proof.
  intros Hm. pose proof (moves_size _ _ _ Hm) as Hs. destruct Hm as [Hp Hv].
  unfold size in Hs. rewrite !length_app in Hs. set (a := length p) in *. set (b := length s) in *.
  assert (H1 : take a l' = p).
  { rewrite <- (take_app_length p (s ++ q)). fold a. apply list_eq. intros n.
    destruct (decide (n < a)%nat).
    - rewrite !lookup_take_lt by done. apply lookup_agree; [rewrite !length_app; lia|]. apply Hv. lia.
    - by rewrite !lookup_take_ge by lia. }
  assert (H2 : drop (a + b) l' = q).
  { rewrite <- (drop_app_length s q), <- (drop_app_length p (s ++ q)), drop_drop. fold a b.
    apply list_eq. intros n. rewrite !lookup_drop. apply lookup_agree; [rewrite !length_app; lia|].
    apply Hv. lia. }
  assert (Hcut : l' = p ++ take b (drop a l') ++ q).
  { rewrite <- H1 at 1. rewrite <- H2, <- drop_drop, take_drop, take_drop. done. }
  exists (take b (drop a l')). split; [done|]. rewrite Hcut in Hp.
  by apply Permutation_app_inv_l, Permutation_app_inv_r in Hp.
Qed.

(** Every element of the segment was in it before. *)
Lemma moves_segment l l' lo hi k :
  moves (fun k => lo <= k < hi) l l' -> 0 <= lo -> hi <= size l -> lo <= k < hi ->
  exists k', lo <= k' < hi /\ v l' k = v l k'.
Proof.
  intros Hm Hlo Hhi Hk. pose proof (moves_size _ _ _ Hm) as Hs. unfold size in *.
  set (a := Z.to_nat lo). set (b := Z.to_nat (hi - lo)).
  assert (Hl : l = take a l ++ take b (drop a l) ++ drop (a + b) l)
    by by rewrite <- drop_drop, take_drop, take_drop.
  assert (Ha : length (take a l) = a) by (rewrite length_take; lia).
  assert (Hb : length (take b (drop a l)) = b) by (rewrite length_take, length_drop; lia).
  destruct (moves_cut (take a l) (take b (drop a l)) (drop (a + b) l) l') as (s' & Hl' & Hp).
  { rewrite <- Hl. apply (moves_mono (fun k => lo <= k < hi)); [|done]. lia. }
  assert (Hin : v l' k ∈ s').
  { assert (Hx := lookup_v l' (Z.to_nat k) ltac:(lia)). rewrite Z2Nat.id in Hx by lia.
    rewrite Hl' in Hx at 1. rewrite lookup_app_r, lookup_app_l in Hx by (rewrite ?Hp; lia).
    by apply list_elem_of_lookup_2 in Hx. }
  rewrite Hp in Hin. apply list_elem_of_lookup in Hin as [n Hn].
  pose proof (lookup_lt_Some _ _ _ Hn) as Hlt. rewrite Hb in Hlt.
  rewrite lookup_take_lt, lookup_drop, lookup_v in Hn by lia. injection Hn as Hn.
  exists (Z.of_nat (a + n)). split; [lia|done].
Qed.

(** ** Up to five elements *)

Lemma wp_gtp_in Q l0 l i j P : moves Q l0 l -> 0 <= i < size l0 -> 0 <= j < size l0 ->
  P (gt (v l i) (v l j)) -> wp (gtp l i j) P.
Proof. intros Hm Hi Hj. apply wp_gtp; by rewrite (moves_size _ _ _ Hm). Qed.

Lemma wp_swp_in (Q : Z -> Prop) l0 l i j P : moves Q l0 l -> Q i -> Q j ->
  0 <= i < size l0 -> 0 <= j < size l0 ->
  (forall l', moves Q l0 l' ->
    (forall k, v l' k = if k =? i then v l j else if k =? j then v l i else v l k) -> P l') ->
  wp (swp l i j) P.
Proof.
  intros Hm Hqi Hqj Hi Hj H.
  apply wp_swp; [by rewrite (moves_size _ _ _ Hm)|by rewrite (moves_size _ _ _ Hm)|].
  intros l' Hm' Hv. apply H; [|done]. apply (moves_trans _ _ l); [done|].
  apply (moves_mono (fun k => k = i \/ k = j)); [|done]. by intros k [->| ->].
Qed.

(** Of two elements at least one way round is in order. *)
Definition asym : Prop := forall x y, gt x y = true -> gt y x = false.

Lemma gt_le x y : asym -> gt x y = true -> le y x.
Proof. intros H. apply H. Qed.

(** Values after an exchange in terms of the values before it. *)
Ltac values :=
  repeat match goal with
  | H : forall k, v ?l k = _ |- context [v ?l ?k] => rewrite (H k)
  | |- context [?x =? ?x] => rewrite Z.eqb_refl
  | H : ?x <> ?y |- context [?x =? ?y] => rewrite (proj2 (Z.eqb_neq x y) H)
  | H : ?y <> ?x |- context [?x =? ?y] => rewrite (proj2 (Z.eqb_neq x y) (not_eq_sym H))
  end.

Ltac network_step :=
  match goal with
  | |- wp (mbind _ _) _ => apply wp_bind
  | H : moves _ ?l0 ?l |- wp (gtp ?l _ _) _ =>
      apply (wp_gtp_in _ _ _ _ _ _ H); [assumption|assumption|]; values;
      match goal with |- context [gt ?x ?y] => destruct (gt x y) eqn:? end; cbn [negb]
  | H : moves _ ?l0 ?l |- wp (swp ?l _ _) _ =>
      apply (wp_swp_in _ _ _ _ _ _ H); [tauto|tauto|assumption|assumption|];
      let l' := fresh "l" in let Hm := fresh "Hm" in let Hv := fresh "Hv" in
      intros l' Hm Hv; clear H
  | |- wp (Some _) _ => cbn [wp]
  end.

Ltac network_end :=
  split; [assumption|]; intros Hasym; split_and?; values; auto using gt_le.

Lemma sort_2_ok l a b : 0 <= a < size l -> 0 <= b < size l -> a <> b ->
  wp (zend_sort_2 l a b) (fun l' =>
    moves (fun k => k = a \/ k = b) l l' /\ (asym -> le (v l' a) (v l' b))).
Proof.
  intros Ha Hb Hab. pose proof (moves_refl (fun k => k = a \/ k = b) l).
  unfold zend_sort_2. repeat network_step; network_end.
Qed.

Lemma sort_3_ok l a b c :
  0 <= a < size l -> 0 <= b < size l -> 0 <= c < size l -> a <> b -> b <> c -> a <> c ->
  wp (zend_sort_3 l a b c) (fun l' =>
    moves (fun k => k = a \/ k = b \/ k = c) l l' /\
    (asym -> le (v l' a) (v l' b) /\ le (v l' b) (v l' c))).
Proof.
  intros Ha Hb Hc Hab Hbc Hac. pose proof (moves_refl (fun k => k = a \/ k = b \/ k = c) l).
  unfold zend_sort_3. repeat network_step; network_end.
Qed.

Lemma sort_4_ok l a b c e :
  0 <= a < size l -> 0 <= b < size l -> 0 <= c < size l -> 0 <= e < size l ->
  a <> b -> b <> c -> a <> c -> a <> e -> b <> e -> c <> e ->
  wp (zend_sort_4 l a b c e) (fun l' =>
    moves (fun k => k = a \/ k = b \/ k = c \/ k = e) l l' /\
    (asym -> le (v l' a) (v l' b) /\ le (v l' b) (v l' c) /\ le (v l' c) (v l' e))).
Proof.
  intros Ha Hb Hc He Hab Hbc Hac Hae Hbe Hce. unfold zend_sort_4. apply wp_bind.
  eapply wp_mono; [by apply sort_3_ok|]. intros l1 [Hm1 Ho1].
  apply (moves_mono _ (fun k => k = a \/ k = b \/ k = c \/ k = e)) in Hm1; [|tauto].
  repeat network_step; network_end; try (apply Ho1; done).
Qed.

Lemma sort_5_ok l a b c e f :
  0 <= a < size l -> 0 <= b < size l -> 0 <= c < size l -> 0 <= e < size l -> 0 <= f < size l ->
  a <> b -> b <> c -> a <> c -> a <> e -> b <> e -> c <> e -> a <> f -> b <> f -> c <> f -> e <> f ->
  wp (zend_sort_5 l a b c e f) (fun l' =>
    moves (fun k => k = a \/ k = b \/ k = c \/ k = e \/ k = f) l l' /\
    (asym -> le (v l' a) (v l' b) /\ le (v l' b) (v l' c) /\ le (v l' c) (v l' e) /\
      le (v l' e) (v l' f))).
Proof.
  intros Ha Hb Hc He Hf Hab Hbc Hac Hae Hbe Hce Haf Hbf Hcf Hef. unfold zend_sort_5. apply wp_bind.
  eapply wp_mono; [by apply sort_4_ok|]. intros l1 [Hm1 Ho1].
  apply (moves_mono _ (fun k => k = a \/ k = b \/ k = c \/ k = e \/ k = f)) in Hm1; [|tauto].
  repeat network_step; network_end; try (apply Ho1; done).
Qed.

(** ** Insertion sort *)

Definition segment (lo hi : Z) (k : Z) : Prop := lo <= k < hi.

Definition sorted (l : list A) (lo hi : Z) : Prop :=
  forall i j, lo <= i -> i < j -> j < hi -> le (v l i) (v l j).

(** A total preorder. *)
Definition order : Prop := asym /\ forall x y z, le x y -> le y z -> le x z.

Lemma rotate_ok fuel l k j : 0 <= j <= k -> k < size l -> k - j < Z.of_nat fuel ->
  wp (rotate fuel l k j) (fun l' => moves (segment j (k + 1)) l l' /\ v l' j = v l k /\
    forall m, j < m <= k -> v l' m = v l (m - 1)).
Proof.
  revert l k. induction fuel as [|fuel IH]; intros l k Hj Hk Hf; [lia|]. cbn [rotate].
  destruct (Z.ltb_spec j k).
  - apply wp_bind, wp_swp; [lia|lia|]. intros l1 Hm1 Hv1.
    pose proof (moves_size _ _ _ Hm1) as Hs.
    eapply wp_mono; [apply (IH l1 (k - 1)); lia|]. intros l' (Hm & Hj' & Hr).
    split; [|split].
    + apply (moves_trans _ _ l1); eapply moves_mono; try eassumption; unfold segment; intros; lia.
    + rewrite Hj', Hv1. repeat case_match; f_equal; lia.
    + intros m Hmk. destruct (Z.eq_dec m k) as [->|Hne].
      * rewrite (proj2 Hm) by (unfold segment; lia). rewrite Hv1, Z.eqb_refl. done.
      * rewrite Hr by lia. rewrite Hv1. destruct (Z.eqb_spec (m - 1) k), (Z.eqb_spec (m - 1) (k - 1)); lia || done.
  - assert (k = j) as -> by lia. split; [apply moves_refl|]. split; [done|lia].
Qed.

(** [j] is the place of the element at [i] among the sorted elements before it. *)
Definition place_of (l : list A) (start i j : Z) : Prop :=
  (forall k, start <= k < j -> le (v l k) (v l i)) /\
  (forall k, j <= k < i -> le (v l i) (v l k)).

Lemma place_of_bounds l start i j : order -> sorted l start i ->
  le (v l i) (v l j) -> (start < j -> le (v l (j - 1)) (v l i)) -> start <= j < i ->
  place_of l start i j.
Proof.
  intros [_ Htr] Hs Hj Hj1 Hr. split; intros k Hk.
  - destruct (Z.eq_dec k (j - 1)) as [->|]; [apply Hj1; lia|].
    apply (Htr _ (v l (j - 1))); [apply Hs; lia|apply Hj1; lia].
  - destruct (Z.eq_dec k j) as [->|]; [done|].
    apply (Htr _ (v l j)); [done|apply Hs; lia].
Qed.

(** What the search for a place promises, from [j] on. *)
Definition back_ok (back : nat -> list A -> Z -> Z -> Z -> option Z) (l : list A) (start i : Z)
  : Prop :=
  forall fuel j, i - start <= Z.of_nat fuel -> j = i - 1 -> gt (v l j) (v l i) = true ->
    wp (back fuel l start i j) (fun j' => start <= j' < i /\
      (order -> sorted l start i -> place_of l start i j')).

Lemma back_one_ok l start i : 0 <= start < i -> i < size l -> back_ok back_one l start i.
Proof.
  intros Hs Hi fuel j Hf -> Hg.
  assert (Hgen : forall j, start <= j < i -> j - start < Z.of_nat fuel -> gt (v l j) (v l i) = true ->
    wp (back_one fuel l start i j) (fun j' => start <= j' < i /\
      (order -> sorted l start i -> place_of l start i j'))).
  2: { apply Hgen; [lia|lia|done]. }
  clear Hf Hg. induction fuel as [|fuel IH]; intros j Hj Hf Hg; [lia|]. cbn [back_one].
  destruct (Z.eqb_spec j start) as [->|].
  - split; [lia|]. intros Ho Hso. apply place_of_bounds; try done; [by apply Ho|lia].
  - apply wp_bind, wp_gtp; [lia|lia|]. destruct (gt (v l (j - 1)) (v l i)) eqn:E; cbn [negb].
    + apply IH; [lia|lia|done].
    + split; [lia|]. intros Ho Hso. replace (j - 1 + 1) with j by lia.
      apply place_of_bounds; try done. by apply Ho.
Qed.

Lemma back_two_ok l start i : 0 <= start -> start + 6 <= i -> i < size l ->
  back_ok back_two l start i.
Proof.
  intros Hs H6 Hi fuel j Hf -> Hg.
  assert (Hgen : forall j, start + 2 <= j < i -> j - start <= Z.of_nat fuel ->
    gt (v l j) (v l i) = true ->
    wp (back_two fuel l start i j) (fun j' => start <= j' < i /\
      (order -> sorted l start i -> place_of l start i j'))).
  2: { apply Hgen; [lia|lia|done]. }
  clear Hf Hg. induction fuel as [|fuel IH]; intros j Hj Hf Hg; [lia|]. cbn [back_two].
  apply wp_bind, wp_gtp; [lia|lia|]. destruct (gt (v l (j - 2)) (v l i)) eqn:E; cbn [negb].
  - destruct (Z.eqb_spec (j - 2) start) as [Ej|].
    { split; [lia|]. intros Ho Hso. apply place_of_bounds; try done; [by apply Ho|lia|lia]. }
    destruct (Z.eqb_spec (j - 2) (start + 1)) as [Ej|]; [|apply IH; [lia|lia|done]].
    apply wp_bind, wp_gtp; [lia|lia|].
    destruct (gt (v l i) (v l (j - 2 - 1))) eqn:E2; (split; [lia|]); intros Ho Hso;
      apply place_of_bounds; try done; try lia.
    + replace (j - 2 - 1 + 1) with (j - 2) by lia. by apply Ho.
    + intros _. replace (j - 2 - 1 + 1 - 1) with (j - 2 - 1) by lia. by apply Ho.
  - apply wp_bind, wp_gtp; [lia|lia|].
    destruct (gt (v l (j - 2 + 1)) (v l i)) eqn:E2; cbn [negb]; (split; [lia|]); intros Ho Hso;
      apply place_of_bounds; try done; try lia.
    + by apply Ho.
    + intros _. by replace (j - 2 + 1 - 1) with (j - 2) by lia.
    + replace (j - 2 + 1 + 1) with j by lia. by apply Ho.
    + intros _. by replace (j - 2 + 1 + 1 - 1) with (j - 2 + 1) by lia.
Qed.

Lemma insert_at_ok back l start i : 0 <= start < i -> i < size l -> back_ok back l start i ->
  wp (insert_at back l start i) (fun l' => moves (segment start (i + 1)) l l' /\
    (order -> sorted l start i -> sorted l' start (i + 1))).
Proof.
  intros Hs Hi Hb. unfold insert_at. apply wp_bind, wp_gtp; [lia|lia|].
  destruct (gt (v l (i - 1)) (v l i)) eqn:E; cbn [negb].
  - apply wp_bind. eapply wp_mono; [by apply Hb; [lia| |]|]. intros j [Hj Hp].
    eapply wp_mono; [apply rotate_ok; lia|]. intros l' (Hm & Hvj & Hvm).
    split; [eapply moves_mono; [|exact Hm]; unfold segment; intros; lia|].
    intros Ho Hso. destruct (Hp Ho Hso) as [Hlo Hhi].
    assert (Hold : forall k, start <= k <= i -> k <> j ->
      v l' k = v l (if k <? j then k else k - 1)).
    { intros k Hk Hkj. destruct (Z.ltb_spec k j).
      - apply (proj2 Hm). unfold segment. lia.
      - apply Hvm. lia. }
    intros a b Ha Hab Hbi. destruct (Z.eq_dec a j) as [->|], (Z.eq_dec b j) as [->|]; try lia.
    + rewrite Hvj, Hold by lia. apply Hhi. destruct (Z.ltb_spec b j); lia.
    + rewrite Hvj, Hold by lia. apply Hlo. destruct (Z.ltb_spec a j); lia.
    + rewrite !Hold by lia. apply Hso; destruct (Z.ltb_spec a j), (Z.ltb_spec b j); lia.
  - split; [apply moves_refl|]. intros Ho Hso a b Ha Hab Hbi.
    destruct (Z.eq_dec b i) as [->|]; [|apply Hso; lia].
    destruct (Z.eq_dec a (i - 1)) as [->|]; [done|].
    apply (proj2 Ho _ (v l (i - 1))); [apply Hso; lia|done].
Qed.

Lemma insert_all_ok back fuel l start i e :
  0 <= start < i -> i <= e <= size l -> e - i < Z.of_nat fuel ->
  (forall l i', i <= i' < e -> e <= size l -> back_ok back l start i') ->
  wp (insert_all back fuel l start i e) (fun l' => moves (segment start e) l l' /\
    (order -> sorted l start i -> sorted l' start e)).
Proof.
  revert l i. induction fuel as [|fuel IH]; intros l i Hs He Hf Hb; [lia|]. cbn [insert_all].
  destruct (Z.ltb_spec i e).
  - apply wp_bind. eapply wp_mono; [apply insert_at_ok; [lia|lia|by apply Hb; try lia]|].
    intros l1 [Hm1 Ho1]. pose proof (moves_size _ _ _ Hm1).
    eapply wp_mono; [apply IH; [lia|lia|lia|intros; apply Hb; lia]|]. intros l' [Hm Ho].
    split; [|by auto]. apply (moves_trans _ _ l1); [|done].
    eapply moves_mono; [|exact Hm1]. unfold segment. intros. lia.
  - assert (i = e) as -> by lia. split; [apply moves_refl|done].
Qed.

Lemma sorted_adjacent l lo hi :
  order -> (forall k, lo <= k < hi - 1 -> le (v l k) (v l (k + 1))) -> sorted l lo hi.
Proof.
  intros [_ Htr] Hadj i j Hi Hij Hj.
  assert (Hk : forall m : nat, i + 1 + Z.of_nat m < hi -> le (v l i) (v l (i + 1 + Z.of_nat m))).
  { induction m as [|m IH]; intros H; [rewrite Z.add_0_r; apply Hadj; lia|].
    apply (Htr _ (v l (i + 1 + Z.of_nat m))); [apply IH; lia|].
    replace (i + 1 + Z.of_nat (S m)) with (i + 1 + Z.of_nat m + 1) by lia. apply Hadj. lia. }
  specialize (Hk (Z.to_nat (j - i - 1)) ltac:(lia)).
  by replace (i + 1 + Z.of_nat (Z.to_nat (j - i - 1))) with j in Hk by lia.
Qed.

Lemma insert_sort_ok l base n : 0 <= base -> 0 <= n -> base + n <= size l ->
  wp (zend_insert_sort l base n) (fun l' => moves (segment base (base + n)) l l' /\
    (order -> sorted l' base (base + n))).
Proof.
  intros Hb Hn Hs. unfold zend_insert_sort.
  destruct (Z.leb_spec n 1).
  { split; [apply moves_refl|]. intros _ i j. lia. }
  repeat match goal with |- context [n =? ?m] => destruct (Z.eqb_spec n m) as [->|] end.
  1: eapply wp_mono; [apply sort_2_ok; lia|].
  2: eapply wp_mono; [apply sort_3_ok; lia|].
  3: eapply wp_mono; [apply sort_4_ok; lia|].
  4: eapply wp_mono; [apply sort_5_ok; lia|].
  1-4: intros l' [Hm Ho]; (split; [eapply moves_mono; [|exact Hm]; unfold segment; intros; lia|]);
    intros Hord; apply sorted_adjacent; [done|]; specialize (Ho (proj1 Hord)); intros k Hk.
  - assert (k = base) as -> by lia. done.
  - assert (k = base \/ k = base + 1) as [-> | ->] by lia;
      [|replace (base + 1 + 1) with (base + 2) by lia]; tauto.
  - assert (k = base \/ k = base + 1 \/ k = base + 2) as [-> |[-> | ->]] by lia;
      [|replace (base + 1 + 1) with (base + 2) by lia|replace (base + 2 + 1) with (base + 3) by lia]; tauto.
  - assert (k = base \/ k = base + 1 \/ k = base + 2 \/ k = base + 3) as [-> |[-> | [-> | ->]]] by lia;
      [|replace (base + 1 + 1) with (base + 2) by lia|replace (base + 2 + 1) with (base + 3) by lia
       |replace (base + 3 + 1) with (base + 4) by lia]; tauto.
  - apply wp_bind. eapply wp_mono; [apply insert_all_ok; [lia|lia|lia|intros; apply back_one_ok; lia]|].
    intros l1 [Hm1 Ho1]. pose proof (moves_size _ _ _ Hm1).
    eapply wp_mono; [apply insert_all_ok; [lia|lia|lia|intros; apply back_two_ok; lia]|].
    intros l' [Hm Ho]. split.
    + apply (moves_trans _ _ l1); [|done]. eapply moves_mono; [|exact Hm1].
      unfold segment. intros. lia.
    + intros Hord. apply Ho; [done|]. apply Ho1; [done|]. intros i j. lia.
Qed.

(** ** Quick sort *)

(** Up to [i] nothing is larger than the pivot. *)
Lemma scan_up_ok fuel l p i j : 0 <= p < size l -> 0 <= i < j -> j <= size l ->
  j - i <= Z.of_nat fuel ->
  wp (scan_up fuel l p i j) (fun '(i', fin) => i <= i' <= j /\
    (forall k, i <= k < i' -> gt (v l p) (v l k) = true) /\
    (if fin : bool then i' = j else i' < j /\ le (v l p) (v l i'))).
Proof.
  intros Hp. revert i. induction fuel as [|fuel IH]; intros i Hi Hj Hf; [lia|]. cbn [scan_up].
  apply wp_bind, wp_gtp; [lia|lia|]. destruct (gt (v l p) (v l i)) eqn:E; cbn [negb].
  - assert (Hone : forall k i', (forall k, i + 1 <= k < i' -> gt (v l p) (v l k) = true) ->
      i <= k < i' -> gt (v l p) (v l k) = true).
    { intros k i' H Hk. destruct (Z.eq_dec k i) as [->|]; [done|]. apply H. lia. }
    destruct (Z.eqb_spec (i + 1) j).
    + split; [lia|]. split; [|done]. intros k Hk. apply (Hone k (i + 1)); [lia|done].
    + eapply wp_mono; [apply IH; lia|]. intros [i' fin] (H1 & H2 & H3).
      split; [lia|]. split; [|done]. intros k Hk. by apply (Hone k i').
  - split; [lia|]. split; [lia|]. split; [lia|done].
Qed.

(** From [j] on nothing is smaller than the pivot. *)
Lemma scan_down_ok fuel l p i j : 0 <= p < size l -> 0 <= i < j -> j < size l ->
  j - i <= Z.of_nat fuel ->
  wp (scan_down fuel l p i j) (fun '(j', fin) => i <= j' <= j /\
    (forall k, j' < k <= j -> gt (v l k) (v l p) = true) /\
    (if fin : bool then j' = i else i < j' /\ le (v l j') (v l p))).
Proof.
  intros Hp. revert j. induction fuel as [|fuel IH]; intros j Hi Hj Hf; [lia|]. cbn [scan_down].
  apply wp_bind, wp_gtp; [lia|lia|]. destruct (gt (v l j) (v l p)) eqn:E; cbn [negb].
  - assert (Hone : forall k j', (forall k, j' < k <= j - 1 -> gt (v l k) (v l p) = true) ->
      j' < k <= j -> gt (v l k) (v l p) = true).
    { intros k j' H Hk. destruct (Z.eq_dec k j) as [->|]; [done|]. apply H. lia. }
    destruct (Z.eqb_spec (j - 1) i).
    + split; [lia|]. split; [|done]. intros k Hk. apply (Hone k (j - 1)); [lia|done].
    + eapply wp_mono; [apply IH; lia|]. intros [j' fin] (H1 & H2 & H3).
      split; [lia|]. split; [|done]. intros k Hk. by apply (Hone k j').
  - split; [lia|]. split; [lia|]. split; [lia|done].
Qed.

(** The elements of [lo .. i-1] are at most, those of [j .. hi-1] at least the pivot [x]. *)
Definition parted (l : list A) (x : A) (lo i j hi : Z) : Prop :=
  (forall k, lo <= k < i -> le (v l k) x) /\ (forall k, j <= k < hi -> le x (v l k)).

Lemma partition_ok fuel l p lo i j hi :
  0 <= p < lo -> lo <= i < j -> j <= hi - 1 -> hi <= size l -> j - i <= Z.of_nat fuel ->
  wp (partition fuel l p i j) (fun '(l', i') => moves (segment lo hi) l l' /\ i <= i' <= j /\
    (asym -> parted l (v l p) lo i j hi -> parted l' (v l p) lo i' i' hi)).
Proof.
  revert l i j. induction fuel as [|fuel IH]; intros l i j Hp Hi Hj Hhi Hf; [lia|].
  cbn [partition]. apply wp_bind.
  eapply wp_mono; [apply scan_up_ok; lia|]. intros [i1 fin] (Hi1 & Hup & Hfin).
  assert (Hlow : asym -> parted l (v l p) lo i j hi -> forall k, lo <= k < i1 -> le (v l k) (v l p)).
  { intros Ha [H _] k Hk. destruct (Z.lt_ge_cases k i); [apply H; lia|]. apply Ha, Hup. lia. }
  destruct fin.
  { subst i1. split; [apply moves_refl|]. split; [lia|]. intros Ha Hpt. split; [by apply Hlow|apply Hpt]. }
  destruct Hfin as [Hi1j Hpi]. destruct (Z.eqb_spec (j - 1) i1) as [Ej|].
  { split; [apply moves_refl|]. split; [lia|]. intros Ha Hpt. split; [by apply Hlow|].
    intros k Hk. destruct (Z.eq_dec k i1) as [->|]; [done|]. apply Hpt. lia. }
  apply wp_bind. eapply wp_mono; [apply scan_down_ok; lia|]. intros [j1 fin] (Hj1 & Hdown & Hfin2).
  assert (Hhigh : asym -> parted l (v l p) lo i j hi -> forall k, j1 < k < hi -> le (v l p) (v l k)).
  { intros Ha [_ H] k Hk. destruct (Z.lt_ge_cases k j); [|apply H; lia]. apply Ha, Hdown. lia. }
  destruct fin.
  { subst j1. split; [apply moves_refl|]. split; [lia|]. intros Ha Hpt. split; [by apply Hlow|].
    intros k Hk. destruct (Z.eq_dec k i1) as [->|]; [done|]. apply Hhigh; [done|done|lia]. }
  destruct Hfin2 as [Hj1i Hjp]. apply wp_bind, wp_swp; [lia|lia|]. intros l1 Hm1 Hv1.
  pose proof (moves_size _ _ _ Hm1) as Hs1.
  assert (Hvp : v l1 p = v l p) by (apply Hm1; lia).
  assert (Hpt1 : asym -> parted l (v l p) lo i j hi -> parted l1 (v l p) lo (i1 + 1) j1 hi).
  { intros Ha Hpt. split; intros k Hk; rewrite Hv1;
      destruct (Z.eqb_spec k i1), (Z.eqb_spec k j1); try lia; try done;
      [apply Hlow|apply Hhigh]; try done; lia. }
  assert (Hms : moves (segment lo hi) l l1).
  { eapply moves_mono; [|exact Hm1]. unfold segment. intros. lia. }
  destruct (Z.eqb_spec (i1 + 1) j1) as [Eij|].
  { rewrite <- Eij in Hpt1. split; [done|]. split; [lia|]. auto. }
  eapply wp_mono; [apply IH; lia|]. rewrite Hvp. intros [l' i'] (Hm & Hi' & Hpt').
  split; [by apply (moves_trans _ _ l1)|]. split; [lia|]. auto.
Qed.

Lemma le_refl x : asym -> le x x.
Proof. intros Ha. unfold le. destruct (gt x x) eqn:E; [|done]. by rewrite (Ha _ _ E) in E. Qed.

Lemma half_bounds n : 16 < n -> 8 <= n / 2 < n - 1.
Proof. intros Hn. split; [apply Z.div_le_lower_bound|apply Z.div_lt_upper_bound]; lia. Qed.

Lemma choose_pivot_ok l base n : 0 <= base -> 16 < n -> base + n <= size l ->
  wp (choose_pivot l base n) (fun l1 => moves (segment base (base + n)) l l1 /\
    (order -> le (v l1 base) (v l1 (base + n / 2)) /\
      le (v l1 (base + n / 2)) (v l1 (base + n - 1)))).
Proof.
  intros Hb Hn Hs. pose proof (half_bounds n Hn). unfold choose_pivot.
  rewrite !Z.shiftr_div_pow2 by done. change (2 ^ 1) with 2. change (2 ^ 10) with 1024.
  destruct (Z.eqb_spec (n / 1024) 0) as [|Hbig]; cbn [negb].
  - eapply wp_mono; [apply sort_3_ok; lia|]. intros l1 [Hm Ho].
    split; [eapply moves_mono; [|exact Hm]; unfold segment; intros; lia|].
    intros Hord. apply Ho, Hord.
  - assert (0 < n / 2 / 2 < n / 2 - 1) by
      (split; [apply Z.div_str_pos|apply Z.div_lt_upper_bound]; lia).
    assert (base + n / 2 + n / 2 / 2 < base + n - 1).
    { pose proof (Z.div_mod n 2). pose proof (Z.mod_pos_bound n 2). lia. }
    eapply wp_mono; [apply sort_5_ok; lia|]. intros l1 [Hm Ho].
    split; [eapply moves_mono; [|exact Hm]; unfold segment; intros; lia|].
    intros [Ha Htr]. destruct (Ho Ha) as (Ho1 & Ho2 & Ho3 & Ho4). eauto.
Qed.

(** After the split the pivot is at [i - 1], its place. *)
Lemma split_ok l base n : 0 <= base -> 16 < n -> base + n <= size l ->
  wp (split_at_pivot l base n) (fun '(l', i) => moves (segment base (base + n)) l l' /\
    base + 2 <= i <= base + n - 1 /\
    (order -> (forall k, base <= k < i -> le (v l' k) (v l' (i - 1))) /\
      (forall k, i <= k < base + n -> le (v l' (i - 1)) (v l' k)))).
Proof.
  intros Hb Hn Hs. pose proof (half_bounds n Hn) as Hh. unfold split_at_pivot.
  rewrite !Z.shiftr_div_pow2 by done. change (2 ^ 1) with 2.
  apply wp_bind. eapply wp_mono; [by apply choose_pivot_ok|].
  intros l1 [Hm1 Ho1]. pose proof (moves_size _ _ _ Hm1) as Hs1.
  apply wp_bind, wp_swp; [lia|lia|]. intros l2 Hm2 Hv2. pose proof (moves_size _ _ _ Hm2) as Hs2.
  assert (Hpv : v l2 (base + 1) = v l1 (base + n / 2)) by by rewrite Hv2, Z.eqb_refl.
  apply wp_bind. eapply wp_mono; [apply (partition_ok _ l2 (base + 1) (base + 2) _ _ (base + n)); lia|].
  intros [l3 i] (Hm3 & Hi & Hpt). pose proof (moves_size _ _ _ Hm3) as Hs3.
  apply wp_bind, wp_swp; [lia|lia|]. intros l4 Hm4 Hv4. cbn [wp]. split; [|split; [lia|]].
  - apply (moves_trans _ _ l1); [done|]. apply (moves_trans _ _ l2).
    { eapply moves_mono; [|exact Hm2]. unfold segment. intros. lia. }
    apply (moves_trans _ _ l3); eapply moves_mono; try eassumption; unfold segment; intros; lia.
  - intros Hord. destruct (Ho1 Hord) as [Hfirst Hlast].
    assert (Hx : v l3 (base + 1) = v l1 (base + n / 2)).
    { rewrite (proj2 Hm3) by (unfold segment; lia). done. }
    assert (Hx0 : v l3 base = v l1 base).
    { rewrite (proj2 Hm3) by (unfold segment; lia). apply Hm2. lia. }
    destruct Hpt as [Hlo Hhi]; [apply Hord| |].
    { split; [lia|]. intros k Hk. assert (k = base + n - 1) as -> by lia.
      rewrite Hpv, (proj2 Hm2) by lia. done. }
    rewrite Hpv in Hlo, Hhi.
    assert (Hpiv : v l4 (i - 1) = v l1 (base + n / 2)).
    { rewrite Hv4, Z.eqb_refl, Hx. destruct (Z.eqb_spec (i - 1) (base + 1)) as [E|]; [by rewrite E|done]. }
    rewrite Hpiv. split; intros k Hk; rewrite Hv4.
    + destruct (Z.eqb_spec k (base + 1)); [|destruct (Z.eqb_spec k (i - 1))].
      * destruct (Z.eq_dec i (base + 2)) as [->|]; [|apply Hlo; lia].
        replace (base + 2 - 1) with (base + 1) by lia. rewrite Hx. by apply le_refl, Hord.
      * rewrite Hx. by apply le_refl, Hord.
      * destruct (Z.eq_dec k base) as [->|]; [by rewrite Hx0|]. apply Hlo. lia.
    + destruct (Z.eqb_spec k (base + 1)), (Z.eqb_spec k (i - 1)); try lia. apply Hhi. lia.
Qed.

Lemma moves_all (P : A -> Prop) l l' lo hi :
  moves (segment lo hi) l l' -> 0 <= lo -> hi <= size l ->
  (forall k, lo <= k < hi -> P (v l k)) -> forall k, lo <= k < hi -> P (v l' k).
Proof.
  intros Hm Hlo Hhi H k Hk. destruct (moves_segment l l' lo hi k Hm Hlo Hhi Hk) as (k' & Hk' & ->). auto.
Qed.

Lemma sorted_frame l l' lo hi a b :
  moves (segment lo hi) l l' -> b <= lo \/ hi <= a -> sorted l a b -> sorted l' a b.
Proof.
  intros [_ Hv] Hd Hs i j Hi Hij Hj. rewrite !Hv by (unfold segment; lia). by apply Hs.
Qed.

(** Two sorted parts and the pivot between them. *)
Lemma sorted_join l lo p hi :
  order -> sorted l lo p -> sorted l (p + 1) hi ->
  (forall k, lo <= k < p -> le (v l k) (v l p)) ->
  (forall k, p + 1 <= k < hi -> le (v l p) (v l k)) -> sorted l lo hi.
Proof.
  intros [_ Htr] H1 H2 Hlo Hhi i j Hi Hij Hj.
  destruct (Z.lt_trichotomy i p) as [Hip|[->|Hip]]; [|apply Hhi; lia|apply H2; lia].
  destruct (Z.lt_trichotomy j p) as [Hjp|[->|Hjp]]; [apply H1; lia|apply Hlo; lia|].
  apply (Htr _ (v l p)); [apply Hlo; lia|apply Hhi; lia].
Qed.

(** What a call on [m] elements from [b] on promises. *)
Definition sorts (f : list A -> Z -> Z -> option (list A)) (m : Z) : Prop :=
  forall l b, 0 <= b -> 0 <= m -> b + m <= size l ->
    wp (f l b m) (fun l' => moves (segment b (b + m)) l l' /\ (order -> sorted l' b (b + m))).

(** The two parts, sorted one after the other in either order. *)
Lemma parts_sorted l l1 l2 l3 lo p hi a b c e :
  moves (segment lo hi) l l1 -> moves (segment a b) l1 l2 -> moves (segment c e) l2 l3 ->
  (order -> sorted l2 a b) -> (order -> sorted l3 c e) ->
  a = lo /\ b = p /\ c = p + 1 /\ e = hi \/ c = lo /\ e = p /\ a = p + 1 /\ b = hi ->
  0 <= lo <= p -> p < hi <= size l ->
  (order -> (forall k, lo <= k < p + 1 -> le (v l1 k) (v l1 p)) /\
    (forall k, p + 1 <= k < hi -> le (v l1 p) (v l1 k))) ->
  moves (segment lo hi) l l3 /\ (order -> sorted l3 lo hi).
Proof.
  intros Hm1 Hm2 Hm3 Ho2 Ho3 Hcase Hlo Hhi Hpt.
  pose proof (moves_size _ _ _ Hm1). pose proof (moves_size _ _ _ Hm2).
  pose proof (moves_size _ _ _ Hm3). split.
  - apply (moves_trans _ _ l1); [done|]. apply (moves_trans _ _ l2);
      (eapply moves_mono; [|eassumption]; unfold segment; intros; lia).
  - intros Hord. destruct (Hpt Hord) as [Hl Hh].
    assert (Hp : v l3 p = v l1 p).
    { rewrite (proj2 Hm3), (proj2 Hm2) by (unfold segment; lia). done. }
    assert (H2 : sorted l3 a b) by (eapply sorted_frame; [exact Hm3|lia|auto]).
    assert (Hl2 : forall k, a <= k < b -> if a =? lo then le (v l3 k) (v l1 p) else le (v l1 p) (v l3 k)).
    { intros k Hk. rewrite (proj2 Hm3) by (unfold segment; lia). revert k Hk.
      apply (moves_all (fun x => if a =? lo then le x (v l1 p) else le (v l1 p) x) l1); [done|lia|lia|].
      intros k Hk. destruct (Z.eqb_spec a lo); [apply Hl|apply Hh]; lia. }
    assert (Hl3 : forall k, c <= k < e -> if c =? lo then le (v l3 k) (v l1 p) else le (v l1 p) (v l3 k)).
    { apply (moves_all (fun x => if c =? lo then le x (v l1 p) else le (v l1 p) x) l2); [done|lia|lia|].
      intros k Hk. rewrite (proj2 Hm2) by (unfold segment; lia).
      destruct (Z.eqb_spec c lo); [apply Hl|apply Hh]; lia. }
    apply (sorted_join l3 lo p hi); [done|..].
    + destruct Hcase as [(-> & -> & -> & ->)|(-> & -> & -> & ->)]; [done|auto].
    + destruct Hcase as [(-> & -> & -> & ->)|(-> & -> & -> & ->)]; [auto|done].
    + intros k Hk. rewrite Hp. destruct Hcase as [(-> & -> & -> & ->)|(-> & -> & -> & ->)].
      * rewrite Z.eqb_refl in Hl2. by apply Hl2.
      * rewrite Z.eqb_refl in Hl3. by apply Hl3.
    + intros k Hk. rewrite Hp. destruct Hcase as [(-> & -> & -> & ->)|(-> & -> & -> & ->)].
      * destruct (Z.eqb_spec (p + 1) lo); [lia|]. by apply Hl3.
      * destruct (Z.eqb_spec (p + 1) lo); [lia|]. by apply Hl2.
Qed.

Lemma sort_loop_ok rec n0 fuel n :
  (16 < n0 -> forall m, 2 * m < n0 -> sorts rec m) -> n <= n0 -> n < Z.of_nat fuel ->
  sorts (sort_loop rec fuel) n.
Proof.
  intros Hrec. revert n. induction fuel as [|fuel IH]; intros n Hn Hf l b Hb Hn0 Hs; [lia|].
  cbn [sort_loop]. destruct (Z.leb_spec n 16); [by apply insert_sort_ok|].
  apply wp_bind. eapply wp_mono; [apply split_ok; lia|]. intros [l1 i] (Hm1 & Hi & Hpt).
  pose proof (moves_size _ _ _ Hm1) as Hs1.
  destruct (Z.ltb_spec (i - 1 - b) (b + n - i)); apply wp_bind.
  - eapply wp_mono; [apply Hrec; lia|]. intros l2 [Hm2 Ho2]. pose proof (moves_size _ _ _ Hm2) as Hs2.
    eapply wp_mono; [apply IH; lia|]. intros l3 [Hm3 Ho3].
    apply (parts_sorted l l1 l2 l3 b (i - 1) (b + n) _ _ _ _ Hm1 Hm2 Hm3 Ho2 Ho3); [left; lia|lia|lia|].
    by replace (i - 1 + 1) with i by lia.
  - eapply wp_mono; [apply Hrec; lia|]. intros l2 [Hm2 Ho2]. pose proof (moves_size _ _ _ Hm2) as Hs2.
    eapply wp_mono; [apply IH; lia|]. intros l3 [Hm3 Ho3].
    apply (parts_sorted l l1 l2 l3 b (i - 1) (b + n) _ _ _ _ Hm1 Hm2 Hm3 Ho2 Ho3); [right; lia|lia|lia|].
    by replace (i - 1 + 1) with i by lia.
Qed.

Lemma zend_sort_ok depth n : n < 17 * 2 ^ Z.of_nat depth -> sorts (zend_sort (S depth)) n.
Proof.
  revert n. induction depth as [|depth IH]; intros n Hn l b Hb Hn0 Hs; cbn [zend_sort];
    refine (sort_loop_ok _ n (S (Z.to_nat n)) n _ _ _ l b Hb Hn0 Hs); try lia.
  intros _ m Hm. apply IH. rewrite Nat2Z.inj_succ, Z.pow_succ_r in Hn by lia. lia.
Qed.

Lemma sorted_strongly l : (forall x y z, le x y -> le y z -> le x z) ->
  sorted l 0 (size l) -> StronglySorted le l.
Proof.
  intros Htr. induction l as [|x l IH]; intros H; [constructor|].
  assert (Hc : forall k, 0 <= k -> v (x :: l) (k + 1) = v l k).
  { intros k Hk. unfold v, get. destruct (Z.leb_spec 0 k), (Z.leb_spec 0 (k + 1)); try lia.
    by replace (Z.to_nat (k + 1)) with (S (Z.to_nat k)) by lia. }
  unfold size in *. simpl length in H. constructor.
  - apply IH. intros i j Hi Hij Hj. rewrite <- !Hc by lia. apply H; lia.
  - apply Forall_lookup. intros n y Hy. pose proof (lookup_lt_Some _ _ _ Hy).
    rewrite lookup_v in Hy by done. injection Hy as <-. rewrite <- Hc by lia.
    apply (H 0); lia.
Qed.
End ZendSort.

(** ** Properties *)

Section Sorting.
Context {A : Type} (cmp : A -> A -> Z).

(** The comparison is a total preorder. *)
Definition total_preorder : Prop :=
  (forall x y, 0 < cmp x y -> cmp y x <= 0) /\
  (forall x y z, cmp x y <= 0 -> cmp y z <= 0 -> cmp x z <= 0).

Lemma le_cmp x y : le cmp x y <-> cmp x y <= 0.
Proof. unfold le, gt. rewrite Z.ltb_ge. done. Qed.

Lemma preorder_order : total_preorder -> order cmp.
Proof.
  intros [H1 H2]. split.
  - intros x y H. apply le_cmp, H1. unfold gt in H. lia.
  - intros x y z. rewrite !le_cmp. apply H2.
Qed.

(** A permutation with any comparison, an ordered one with a total preorder. *)
Lemma zend_sort_result depth l : Z.of_nat (length l) < 17 * 2 ^ Z.of_nat depth ->
  exists l', zend_sort cmp (S depth) l 0 (Z.of_nat (length l)) = Some l' /\
    l' ≡ₚ l /\ (total_preorder -> StronglySorted (fun x y => cmp x y <= 0) l').
Proof.
  intros Hn. destruct l as [|d l0]; [by exists []; repeat constructor|]. set (l := d :: l0) in *.
  pose proof (zend_sort_ok cmp d depth _ Hn l 0) as H. unfold size in H.
  specialize (H ltac:(lia) ltac:(lia) ltac:(lia)).
  destruct (zend_sort cmp (S depth) l 0 (Z.of_nat (length l))) as [l'|]; [|done].
  destruct H as [[Hp Hv] Hs]. exists l'. split; [done|]. split; [done|]. intros Hord.
  pose proof (preorder_order Hord) as Ho.
  assert (H : StronglySorted (le cmp) l').
  { apply (sorted_strongly cmp d); [apply Ho|]. unfold size. rewrite (Permutation_length Hp). by apply Hs. }
  revert H. clear. induction 1 as [|x l H IH Hx]; constructor; [done|].
  eapply Forall_impl; [exact Hx|]. intros y. by rewrite le_cmp.
Qed.

(** C31. Sorting: if the comparison is a total preorder, [zend_sort] ends with the
    elements in its order, whatever their number; the calls nest no deeper than
    the logarithm of the number of elements. *)
Theorem zend_sort_sorts depth l :
  total_preorder -> Z.of_nat (length l) < 17 * 2 ^ Z.of_nat depth ->
  exists l', zend_sort cmp (S depth) l 0 (Z.of_nat (length l)) = Some l' /\
    l' ≡ₚ l /\ StronglySorted (fun x y => cmp x y <= 0) l'.
Proof.
  intros Hord Hn. destruct (zend_sort_result depth l Hn) as (l' & H1 & H2 & H3). exists l'. auto.
Qed.

(** No comparison does harm: whatever [cmp] answers, consistent or not,
    [zend_sort] on a part of an array ends, accesses nothing outside of the
    array, and only exchanges elements of that part. *)
Theorem zend_sort_any depth pre l post :
  Z.of_nat (length l) < 17 * 2 ^ Z.of_nat depth ->
  exists l', l' ≡ₚ l /\
    zend_sort cmp (S depth) (pre ++ l ++ post) (Z.of_nat (length pre)) (Z.of_nat (length l))
      = Some (pre ++ l' ++ post).
Proof.
  intros Hn. destruct l as [|d l0]; [by exists []|]. set (l := d :: l0) in *.
  pose proof (zend_sort_ok cmp d depth _ Hn (pre ++ l ++ post) (Z.of_nat (length pre))) as H.
  unfold size in H. rewrite !length_app in H. specialize (H ltac:(lia) ltac:(lia) ltac:(lia)).
  destruct (zend_sort cmp (S depth) (pre ++ l ++ post) _ _) as [r|]; [|done]. destruct H as [Hm _].
  destruct (moves_cut cmp d pre l post r) as (l' & -> & Hp); [|by exists l'].
  eapply moves_mono; [|exact Hm]. unfold segment. lia.
Qed.
End Sorting.

(** ** Examples *)

(** Forty numbers that are compared modulo 10. *)
Definition by_digit (x y : Z) : Z := x `mod` 10 - y `mod` 10.

Lemma by_digit_preorder : total_preorder by_digit.
Proof. unfold total_preorder, by_digit. split; intros; lia. Qed.

Definition forty : list Z := (fun x => x * 37 `mod` 100) <$> seqZ 0 40.

Lemma zend_sort_sorts_witness :
  exists l', zend_sort by_digit 3 forty 0 40 = Some l' /\ l' ≡ₚ forty /\
    StronglySorted (fun x y => by_digit x y <= 0) l'.
Proof. apply (zend_sort_sorts by_digit 2 forty); [apply by_digit_preorder|vm_compute; done]. Defined.

(** A comparison that always answers that its first argument is larger. *)
Lemma zend_sort_any_witness :
  exists l', l' ≡ₚ forty /\
    zend_sort (fun _ _ => 1) 3 ([-1] ++ forty ++ [-2]) 1 40 = Some ([-1] ++ l' ++ [-2]).
Proof. apply (zend_sort_any (fun _ _ => 1) 2 [-1] forty [-2]). vm_compute. done. Defined.
