(* ===== verification/ZendHash.v ===== *)
(** * ZendHash: the hash table of the Zend engine

    The ordered hash table behind PHP's arrays: Zend/zend_hash.c and the
    structures of Zend/zend_types.h and Zend/zend_hash.h, for 64-bit builds.

    A table has an array of buckets in the order of insertion, and in front of
    it an array of 32-bit indices, the heads of the collision chains, which run
    through the buckets.  A packed table has no chains: the bucket [h] holds the
    value of the integer key [h].  Memory that has been allocated and not
    written holds [junk], any bucket.  [None] is a fatal error (the table would
    be too large).

    Not modelled: reference counts and destructors, external iterators
    ([nIteratorsCount] is 0), indirect values ([IS_INDIRECT]), the flags that
    only matter for these. *)

From S2P Require Import Prelude.

Definition HT_INVALID_IDX : Z := 2 ^ 32 - 1.
Definition HT_MIN_MASK : Z := 2 ^ 32 - 2.
Definition HT_MIN_SIZE : Z := 8.
Definition HT_MAX_SIZE : Z := 0x80000000.
Definition ZEND_LONG_MAX : Z := 2 ^ 63 - 1.

(** [(zend_long) h] *)
Definition s64 (h : Z) : Z := if h <? 2 ^ 63 then h else h - 2 ^ 64.

(** ** Keys *)

(** [char] is signed. *)
Definition s8 (c : Z) : Z := if c <? 128 then c else c - 256.

(* php:Zend/zend_string.h:331-338 zend_inline_hash_func: one byte *)
Definition djb_step (hash c : Z) : Z := u64 (u64 (Z.shiftl hash 5) + hash + s8 c).

(** The loop takes eight bytes at a time, the [switch] what is left. *)
(* php:Zend/zend_string.h:330-350 zend_inline_hash_func: for *)
Fixpoint djb_loop (fuel : nat) (hash : Z) (str : list Z) : Z :=
  match fuel with
  | O => hash
  | S fuel =>
      if 8 <=? Z.of_nat (length str) then
        djb_loop fuel (foldl djb_step hash (take 8 str)) (drop 8 str)
      else foldl djb_step hash str
  end.

(* php:Zend/zend_string.h:325-360 zend_inline_hash_func *)
Definition zend_inline_hash_func (str : list Z) : Z :=
  Z.lor (djb_loop (S (length str)) 5381 str) 0x8000000000000000.

(** ** Data *)

(** [val] with [IS_UNDEF] as [None] and its [u2.next]; [h]; [key], [None] for [NULL]. *)
(* php:Zend/zend_types.h:171-175 Bucket *)
Record Bucket {V : Type} : Type := Bkt {
  b_val : option V;
  b_next : Z;
  b_h : Z;
  b_key : option (list Z)
}.
Arguments Bucket : clear implicits.

(** The flags [HASH_FLAG_PACKED] and [HASH_FLAG_INITIALIZED]; the indices in
    front of [arData], the first of which is [HT_HASH(ht, nTableMask)]. *)
(* php:Zend/zend_types.h:179-199 zend_array *)
Record HashTable {V : Type} : Type := HT {
  f_packed : bool;
  f_initialized : bool;
  nTableMask : Z;
  ht_hash : list Z;
  arData : list (Bucket V);
  nNumUsed : Z;
  nNumOfElements : Z;
  nTableSize : Z;
  nInternalPointer : Z;
  nNextFreeElement : Z
}.
Arguments HashTable : clear implicits.

Section Setters.
Context {V : Type}.
Definition eta_bucket (b : Bucket V) : Bucket V := Bkt V (b_val b) (b_next b) (b_h b) (b_key b).
Definition set_val : option V -> Bucket V -> Bucket V := ltac:(setter eta_bucket (@b_val V)).
Definition set_next : Z -> Bucket V -> Bucket V := ltac:(setter eta_bucket (@b_next V)).

Definition eta_ht (t : HashTable V) : HashTable V :=
  HT V (f_packed t) (f_initialized t) (nTableMask t) (ht_hash t) (arData t) (nNumUsed t)
    (nNumOfElements t) (nTableSize t) (nInternalPointer t) (nNextFreeElement t).
Definition set_packed : bool -> HashTable V -> HashTable V := ltac:(setter eta_ht (@f_packed V)).
Definition set_initialized : bool -> HashTable V -> HashTable V := ltac:(setter eta_ht (@f_initialized V)).
Definition set_mask : Z -> HashTable V -> HashTable V := ltac:(setter eta_ht (@nTableMask V)).
Definition set_hash : list Z -> HashTable V -> HashTable V := ltac:(setter eta_ht (@ht_hash V)).
Definition set_arData : list (Bucket V) -> HashTable V -> HashTable V := ltac:(setter eta_ht (@arData V)).
Definition set_used : Z -> HashTable V -> HashTable V := ltac:(setter eta_ht (@nNumUsed V)).
Definition set_elements : Z -> HashTable V -> HashTable V := ltac:(setter eta_ht (@nNumOfElements V)).
Definition set_size : Z -> HashTable V -> HashTable V := ltac:(setter eta_ht (@nTableSize V)).
Definition set_pointer : Z -> HashTable V -> HashTable V := ltac:(setter eta_ht (@nInternalPointer V)).
Definition set_next_free : Z -> HashTable V -> HashTable V := ltac:(setter eta_ht (@nNextFreeElement V)).
End Setters.

(** The flags of an insertion. *)
Record add_flags : Type := Flags { fl_add : bool; fl_add_new : bool; fl_add_next : bool }.

Definition HASH_UPDATE : add_flags := Flags false false false.
Definition HASH_ADD : add_flags := Flags true false false.

Section ZendHash.
Context {V : Type} (junk : Bucket V).

(** ** Access *)

Definition bucket (ht : HashTable V) (idx : Z) : Bucket V := nth (Z.to_nat idx) (arData ht) junk.

Definition set_bucket (idx : Z) (b : Bucket V) (ht : HashTable V) : HashTable V :=
  set_arData (<[Z.to_nat idx := b]> (arData ht)) ht.

(** [h | ht->nTableMask], a [uint32_t]. *)
Definition hash_index (ht : HashTable V) (h : Z) : Z := u32 (Z.lor h (nTableMask ht)).

(** [HT_HASH(ht, nIndex)]: [nIndex] is negative as an [int32_t]. *)
(* php:Zend/zend_types.h:241-244 HT_HASH *)
Definition HT_HASH (ht : HashTable V) (nIndex : Z) : Z :=
  nth (Z.to_nat (nIndex - nTableMask ht)) (ht_hash ht) HT_INVALID_IDX.

Definition set_HT_HASH (nIndex idx : Z) (ht : HashTable V) : HashTable V :=
  set_hash (<[Z.to_nat (nIndex - nTableMask ht) := idx]> (ht_hash ht)) ht.

Definition undef (b : Bucket V) : bool := match b_val b with None => true | Some _ => false end.

(** New memory for [size] buckets, into which the used ones are copied. *)
Definition regrow (size : Z) (ht : HashTable V) : list (Bucket V) :=
  take (Z.to_nat (nNumUsed ht)) (arData ht) ++
  replicate (Z.to_nat (size - nNumUsed ht)) junk.

(** ** Initialisation *)

(** The variant without the machine's instructions. *)
(* php:Zend/zend_hash.c:93-126 zend_hash_check_size *)
Definition zend_hash_check_size (nSize : Z) : option Z :=
  nSize ← (if nSize <? HT_MIN_SIZE then Some HT_MIN_SIZE
           else if HT_MAX_SIZE <=? nSize then None else Some nSize);
  let n := nSize - 1 in
  let n := Z.lor n (Z.shiftr n 1) in
  let n := Z.lor n (Z.shiftr n 2) in
  let n := Z.lor n (Z.shiftr n 4) in
  let n := Z.lor n (Z.shiftr n 8) in
  let n := Z.lor n (Z.shiftr n 16) in
  Some (n + 1).

(* php:Zend/zend_hash.c:171-184 _zend_hash_init *)
Definition zend_hash_init (nSize : Z) : option (HashTable V) :=
  size ← zend_hash_check_size nSize;
  Some (HT V false false HT_MIN_MASK [HT_INVALID_IDX; HT_INVALID_IDX] [] 0 0 size HT_INVALID_IDX 0).

(* php:Zend/zend_types.h:256-257 HT_HASH_RESET *)
Definition HT_HASH_RESET (ht : HashTable V) : HashTable V :=
  set_hash (replicate (Z.to_nat (2 ^ 32 - nTableMask ht)) HT_INVALID_IDX) ht.

(* php:Zend/zend_hash.c:128-155 zend_hash_real_init_ex *)
Definition zend_hash_real_init_ex (packed : bool) (ht : HashTable V) : HashTable V :=
  let data := replicate (Z.to_nat (nTableSize ht)) junk in
  if packed then
    set_hash [HT_INVALID_IDX; HT_INVALID_IDX]
      (set_packed true (set_initialized true (set_arData data ht)))
  else
    HT_HASH_RESET (set_initialized true (set_arData data (set_mask (u32 (- nTableSize ht)) ht))).

(* php:Zend/zend_hash.c:186-194 zend_hash_packed_grow *)
Definition zend_hash_packed_grow (ht : HashTable V) : option (HashTable V) :=
  if HT_MAX_SIZE <=? nTableSize ht then None
  else
    let size := nTableSize ht + nTableSize ht in
    Some (set_arData (regrow size ht) (set_size size ht)).

(** ** Rehashing *)

(** The bucket [idx] becomes the head of its chain. *)
Definition link (idx : Z) (ht : HashTable V) : HashTable V :=
  let p := bucket ht idx in
  let nIndex := hash_index ht (b_h p) in
  set_HT_HASH nIndex idx (set_bucket idx (set_next (HT_HASH ht nIndex) p) ht).

(** [while (++i < ht->nNumUsed)]: live buckets move down to [j]. *)
(* php:Zend/zend_hash.c:906-921 zend_hash_rehash: while *)
Fixpoint rehash_compact (fuel : nat) (i j : Z) (ht : HashTable V) : HashTable V :=
  match fuel with
  | O => ht
  | S fuel =>
      let i := i + 1 in
      if i <? nNumUsed ht then
        let p := bucket ht i in
        if undef p then rehash_compact fuel i j ht
        else
          let q := bucket ht j in
          let ht := link j (set_bucket j (Bkt V (b_val p) (b_next q) (b_h p) (b_key p)) ht) in
          let ht := if nInternalPointer ht =? i then set_pointer j ht else ht in
          rehash_compact fuel i (j + 1) ht
      else set_used j ht
  end.

(** [do ... while (++i < ht->nNumUsed)]; [holes] for the second of the two loops. *)
(* php:Zend/zend_hash.c:892-954 zend_hash_rehash: do *)
Fixpoint rehash_loop (fuel : nat) (holes : bool) (i : Z) (ht : HashTable V) : HashTable V :=
  match fuel with
  | O => ht
  | S fuel =>
      if holes && undef (bucket ht i) then rehash_compact (Z.to_nat (nNumUsed ht)) i i ht
      else
        let ht := link i ht in
        let i := i + 1 in
        if i <? nNumUsed ht then rehash_loop fuel holes i ht else ht
  end.

(* php:Zend/zend_hash.c:874-956 zend_hash_rehash *)
Definition zend_hash_rehash (ht : HashTable V) : HashTable V :=
  if nNumOfElements ht =? 0 then
    if f_initialized ht then HT_HASH_RESET (set_used 0 ht) else ht
  else
    let ht := HT_HASH_RESET ht in
    rehash_loop (Z.to_nat (nNumUsed ht)) (negb (nNumUsed ht =? nNumOfElements ht)) 0 ht.

(* php:Zend/zend_hash.c:849-872 zend_hash_do_resize *)
Definition zend_hash_do_resize (ht : HashTable V) : option (HashTable V) :=
  if nNumOfElements ht + Z.shiftr (nNumOfElements ht) 5 <? nNumUsed ht then
    Some (zend_hash_rehash ht)
  else if nTableSize ht <? HT_MAX_SIZE then
    let nSize := nTableSize ht + nTableSize ht in
    let data := regrow nSize ht in
    Some (zend_hash_rehash (set_arData data (set_mask (u32 (- nSize)) (set_size nSize ht))))
  else None.

(* php:Zend/zend_hash.c:86-89 ZEND_HASH_IF_FULL_DO_RESIZE *)
Definition if_full_do_resize (ht : HashTable V) : option (HashTable V) :=
  if nTableSize ht <=? nNumUsed ht then zend_hash_do_resize ht else Some ht.

(* php:Zend/zend_hash.c:204-217 zend_hash_packed_to_hash *)
Definition zend_hash_packed_to_hash (ht : HashTable V) : HashTable V :=
  let data := regrow (nTableSize ht) ht in
  zend_hash_rehash (set_arData data (set_mask (u32 (- nTableSize ht)) (set_packed false ht))).

(** ** Lookup *)

(** The walk over a chain; [test] is the test of the bucket. *)
(* php:Zend/zend_hash.c:506-517 zend_hash_str_find_bucket: while *)
Fixpoint find_in_chain (fuel : nat) (test : Bucket V -> bool) (ht : HashTable V) (idx : Z) : option Z :=
  match fuel with
  | O => None
  | S fuel =>
      if idx =? HT_INVALID_IDX then None
      else
        let p := bucket ht idx in
        if test p then Some idx else find_in_chain fuel test ht (b_next p)
  end.

(** A chain is no longer than the buckets that are used. *)
Definition chain_fuel (ht : HashTable V) : nat := S (Z.to_nat (nNumUsed ht)).

(** The same string, or the same hash, length and bytes. *)
(* php:Zend/zend_hash.c:509-514 zend_hash_str_find_bucket: if *)
Definition str_test (h : Z) (str : list Z) (p : Bucket V) : bool :=
  (b_h p =? h) &&
  match b_key p with
  | Some key => (Z.of_nat (length key) =? Z.of_nat (length str)) && bool_decide (key = str)
  | None => false
  end.

(* php:Zend/zend_hash.c:532-534 zend_hash_index_find_bucket: if *)
Definition index_test (h : Z) (p : Bucket V) : bool :=
  (b_h p =? h) && match b_key p with Some _ => false | None => true end.

(* php:Zend/zend_hash.c:497-518 zend_hash_str_find_bucket *)
Definition zend_hash_str_find_bucket (ht : HashTable V) (str : list Z) (h : Z) : option Z :=
  find_in_chain (chain_fuel ht) (str_test h str) ht (HT_HASH ht (hash_index ht h)).

(** A [zend_string] keeps its hash. *)
(* php:Zend/zend_hash.c:471-495 zend_hash_find_bucket *)
Definition zend_hash_find_bucket (ht : HashTable V) (key : list Z) : option Z :=
  zend_hash_str_find_bucket ht key (zend_inline_hash_func key).

(* php:Zend/zend_hash.c:520-538 zend_hash_index_find_bucket *)
Definition zend_hash_index_find_bucket (ht : HashTable V) (h : Z) : option Z :=
  find_in_chain (chain_fuel ht) (index_test h) ht (HT_HASH ht (hash_index ht h)).

(* php:Zend/zend_hash.c:1953-1961 zend_hash_find *)
Definition zend_hash_find (ht : HashTable V) (key : list Z) : option V :=
  idx ← zend_hash_find_bucket ht key; b_val (bucket ht idx).

(* php:Zend/zend_hash.c:1997-2015 zend_hash_index_find *)
Definition zend_hash_index_find (ht : HashTable V) (h : Z) : option V :=
  if f_packed ht then if h <? nNumUsed ht then b_val (bucket ht h) else None
  else idx ← zend_hash_index_find_bucket ht h; b_val (bucket ht idx).

(** ** Insertion *)

(** The next integer key after [h] has been used. *)
(* php:Zend/zend_hash.c:805-807 _zend_hash_index_add_or_update_i: nNextFreeElement *)
Definition note_index (h : Z) (ht : HashTable V) : HashTable V :=
  if nNextFreeElement ht <=? s64 h then
    set_next_free (if h <? ZEND_LONG_MAX then h + 1 else ZEND_LONG_MAX) ht
  else ht.

(** The counters and the internal pointer when the bucket [idx] comes into use. *)
Definition count_bucket (idx : Z) (ht : HashTable V) : HashTable V :=
  let ht := set_elements (nNumOfElements ht + 1) ht in
  if nInternalPointer ht =? HT_INVALID_IDX then set_pointer idx ht else ht.

(** [add_to_hash]: a new bucket at the end. *)
(* php:Zend/zend_hash.c:592-612 _zend_hash_add_or_update_i: add_to_hash *)
Definition add_to_hash (h : Z) (key : option (list Z)) (v : V) (ht : HashTable V) : HashTable V * Z :=
  let idx := nNumUsed ht in
  let ht := count_bucket idx (set_used (idx + 1) ht) in
  let ht := match key with None => note_index h ht | Some _ => ht end in
  (link idx (set_bucket idx (Bkt V (Some v) (b_next (bucket ht idx)) h key) ht), idx).

(** Outcome: the table and the bucket of the value, or [NULL]. *)
(* php:Zend/zend_hash.c:540-613 _zend_hash_add_or_update_i *)
Definition zend_hash_add_or_update_i (ht : HashTable V) (key : list Z) (v : V) (flag : add_flags)
  : option (HashTable V * option Z) :=
  let h := zend_inline_hash_func key in
  let add ht := let '(ht, idx) := add_to_hash h (Some key) v ht in (ht, Some idx) in
  if negb (f_initialized ht) then Some (add (zend_hash_real_init_ex false ht))
  else if f_packed ht then
    ht ← if_full_do_resize (zend_hash_packed_to_hash ht); Some (add ht)
  else
    match (if fl_add_new flag then None else zend_hash_find_bucket ht key) with
    | Some idx =>
        if fl_add flag then Some (ht, None)
        else Some (set_bucket idx (set_val (Some v) (bucket ht idx)) ht, Some idx)
    | None => ht ← if_full_do_resize ht; Some (add ht)
    end.

(** [while (q != p)]: the buckets between the last one in use and [h]. *)
(* php:Zend/zend_hash.c:753-759 _zend_hash_index_add_or_update_i: q *)
Fixpoint undef_gap (n : nat) (q : Z) (ht : HashTable V) : HashTable V :=
  match n with
  | O => ht
  | S n => undef_gap n (q + 1) (set_bucket q (set_val None (bucket ht q)) ht)
  end.

(* php:Zend/zend_hash.c:748-774 _zend_hash_index_add_or_update_i: add_to_packed *)
Definition add_to_packed (h : Z) (v : V) (flag : add_flags) (ht : HashTable V) : HashTable V :=
  let ht :=
    if fl_add_new flag && fl_add_next flag then set_used (h + 1) ht
    else if nNumUsed ht <=? h then
      set_used (h + 1) (undef_gap (Z.to_nat (h - nNumUsed ht)) (nNumUsed ht) ht)
    else ht in
  let ht := note_index h (count_bucket h ht) in
  set_bucket h (Bkt V (Some v) (b_next (bucket ht h)) h None) ht.

(* php:Zend/zend_hash.c:704-817 _zend_hash_index_add_or_update_i *)
Definition zend_hash_index_add_or_update_i (ht : HashTable V) (h : Z) (v : V) (flag : add_flags)
  : option (HashTable V * option Z) :=
  let add ht := let '(ht, idx) := add_to_hash h None v ht in (ht, Some idx) in
  let full_then_add ht := ht ← if_full_do_resize ht; Some (add ht) in
  let update idx ht :=
    note_index h (set_bucket idx (set_val (Some v) (bucket ht idx)) ht) in
  if negb (f_initialized ht) then
    let small := h <? nTableSize ht in
    let ht := zend_hash_real_init_ex small ht in
    if small then Some (add_to_packed h v flag ht, Some h) else Some (add ht)
  else if f_packed ht then
    if h <? nNumUsed ht then
      if undef (bucket ht h) then full_then_add (zend_hash_packed_to_hash ht)
      else if fl_add flag then Some (ht, None)
      else Some (update h ht, Some h)
    else if h <? nTableSize ht then Some (add_to_packed h v flag ht, Some h)
    else if (Z.shiftr h 1 <? nTableSize ht) && (Z.shiftr (nTableSize ht) 1 <? nNumOfElements ht) then
      ht ← zend_hash_packed_grow ht; Some (add_to_packed h v flag ht, Some h)
    else full_then_add (zend_hash_packed_to_hash ht)
  else
    match (if fl_add_new flag then None else zend_hash_index_find_bucket ht h) with
    | Some idx =>
        if fl_add flag then Some (ht, None) else Some (update idx ht, Some idx)
    | None => full_then_add ht
    end.

(* php:Zend/zend_hash.c:839-842 _zend_hash_next_index_insert *)
Definition zend_hash_next_index_insert (ht : HashTable V) (v : V) : option (HashTable V * option Z) :=
  zend_hash_index_add_or_update_i ht (nNextFreeElement ht) v (Flags true false true).

(** ** Deletion *)

(** [do ... while]: the end of the used buckets moves down over empty ones. *)
(* php:Zend/zend_hash.c:968-970 _zend_hash_del_el_ex: do *)
Fixpoint shrink_used (fuel : nat) (ht : HashTable V) : HashTable V :=
  match fuel with
  | O => ht
  | S fuel =>
      let ht := set_used (nNumUsed ht - 1) ht in
      if (0 <? nNumUsed ht) && undef (bucket ht (nNumUsed ht - 1)) then shrink_used fuel ht else ht
  end.

(** [while (1)]: the next bucket in use after [idx]. *)
(* php:Zend/zend_hash.c:977-985 _zend_hash_del_el_ex: while *)
Fixpoint next_used (fuel : nat) (ht : HashTable V) (idx : Z) : Z :=
  match fuel with
  | O => HT_INVALID_IDX
  | S fuel =>
      let idx := idx + 1 in
      if nNumUsed ht <=? idx then HT_INVALID_IDX
      else if negb (undef (bucket ht idx)) then idx
      else next_used fuel ht idx
  end.

(** The bucket [idx] leaves its chain. *)
(* php:Zend/zend_hash.c:960-966 _zend_hash_del_el_ex: prev *)
Definition unlink (idx : Z) (prev : option Z) (ht : HashTable V) : HashTable V :=
  let p := bucket ht idx in
  if negb (f_packed ht) then
    match prev with
    | Some prev => set_bucket prev (set_next (b_next p) (bucket ht prev)) ht
    | None => set_HT_HASH (hash_index ht (b_h p)) (b_next p) ht
    end
  else ht.

(** The counters, the internal pointer, the value. *)
(* php:Zend/zend_hash.c:967-1001 _zend_hash_del_el_ex: nNumUsed *)
Definition release_bucket (idx : Z) (ht : HashTable V) : HashTable V :=
  let ht := if nNumUsed ht - 1 =? idx then shrink_used (Z.to_nat (nNumUsed ht)) ht else ht in
  let ht := set_elements (nNumOfElements ht - 1) ht in
  let ht :=
    if nInternalPointer ht =? idx then
      set_pointer (next_used (Z.to_nat (nTableSize ht)) ht idx) ht
    else ht in
  set_bucket idx (set_val None (bucket ht idx)) ht.

(* php:Zend/zend_hash.c:958-1002 _zend_hash_del_el_ex *)
Definition zend_hash_del_el_ex (idx : Z) (prev : option Z) (ht : HashTable V) : HashTable V :=
  release_bucket idx (unlink idx prev ht).

(** The walk over a chain with the bucket before. *)
(* php:Zend/zend_hash.c:1170-1181 zend_hash_str_del: while *)
Fixpoint del_in_chain (fuel : nat) (test : Bucket V -> bool) (ht : HashTable V) (prev : option Z)
  (idx : Z) : option (HashTable V) :=
  match fuel with
  | O => None
  | S fuel =>
      if idx =? HT_INVALID_IDX then None
      else
        let p := bucket ht idx in
        if test p then Some (zend_hash_del_el_ex idx prev ht)
        else del_in_chain fuel test ht (Some idx) (b_next p)
  end.

(** [None] for [FAILURE]. *)
(* php:Zend/zend_hash.c:1155-1183 zend_hash_str_del *)
Definition zend_hash_str_del (ht : HashTable V) (str : list Z) : option (HashTable V) :=
  let h := zend_inline_hash_func str in
  del_in_chain (chain_fuel ht) (str_test h str) ht None (HT_HASH ht (hash_index ht h)).

(* php:Zend/zend_hash.c:1185-1218 zend_hash_index_del *)
Definition zend_hash_index_del (ht : HashTable V) (h : Z) : option (HashTable V) :=
  if f_packed ht then
    if (h <? nNumUsed ht) && negb (undef (bucket ht h)) then Some (zend_hash_del_el_ex h None ht)
    else None
  else del_in_chain (chain_fuel ht) (index_test h) ht None (HT_HASH ht (hash_index ht h)).
End ZendHash.
