(* ===== verification/ZendHashList.v ===== *)
(** * ZendHashList: buckets, chains and entries

    What the buckets of a hash table say, without the table around them: the
    entries in their order, the chains of collisions ([chained]), and how
    appending, replacing and deleting a bucket changes both. *)

From S2P Require Import Prelude ZendHash.

(** ** Keys and association lists *)

Inductive key : Type := KStr (s : list Z) | KIdx (h : Z).

#[export] Instance key_eq_dec : EqDecision key.
Proof. solve_decision. Defined.

Definition khash (k : key) : Z :=
  match k with KStr s => zend_inline_hash_func s | KIdx h => h end.

Section Assoc.
Context {V : Type}.
Implicit Types (l : list (key * V)) (k : key) (v : V).

Fixpoint alookup k l : option V :=
  match l with [] => None | (k', v) :: l => if decide (k' = k) then Some v else alookup k l end.

(** The value of [k] replaced in its place. *)
Definition aupdate k v l : list (key * V) :=
  (fun e => if decide (e.1 = k) then (k, v) else e) <$> l.

Definition adelete k l : list (key * V) := filter (fun e => e.1 <> k) l.

(** The key after [k]. *)
Fixpoint anext k l : option key :=
  match l with [] => None | e :: l => if decide (e.1 = k) then fst <$> head l else anext k l end.

Lemma alookup_None k l : alookup k l = None <-> k ∉ l.*1.
Proof.
  induction l as [|[k' v] l IH]; simpl; [split; [intros _; apply not_elem_of_nil|done]|].
  rewrite not_elem_of_cons, <- IH. case_decide; intuition congruence.
Qed.

Lemma alookup_mid k v l1 l2 : k ∉ l1.*1 -> alookup k (l1 ++ (k, v) :: l2) = Some v.
Proof.
  induction l1 as [|[k' v'] l1 IH]; simpl; [intros _; by rewrite decide_True|].
  rewrite not_elem_of_cons. intros [Hne H]. rewrite decide_False by done. by apply IH.
Qed.

Lemma aupdate_notin k v l : k ∉ l.*1 -> aupdate k v l = l.
Proof.
  induction l as [|e l IH]; [done|]. rewrite fmap_cons, not_elem_of_cons. intros [Hne H].
  change (aupdate k v (e :: l)) with ((if decide (e.1 = k) then (k, v) else e) :: aupdate k v l).
  by rewrite decide_False, IH by done.
Qed.

Lemma adelete_notin k l : k ∉ l.*1 -> adelete k l = l.
Proof.
  unfold adelete. induction l as [|e l IH]; [done|]. rewrite fmap_cons, not_elem_of_cons.
  intros [Hne H]. rewrite filter_cons, decide_True by done. by rewrite IH.
Qed.

Lemma aupdate_mid k v v' l1 l2 : k ∉ l1.*1 -> k ∉ l2.*1 ->
  aupdate k v (l1 ++ (k, v') :: l2) = l1 ++ (k, v) :: l2.
Proof.
  intros H1 H2.
  assert (E : aupdate k v (l1 ++ (k, v') :: l2) = aupdate k v l1 ++ (k, v) :: aupdate k v l2).
  { unfold aupdate. rewrite fmap_app, fmap_cons. simpl. by rewrite decide_True. }
  by rewrite E, !aupdate_notin.
Qed.

Lemma adelete_mid k v l1 l2 : k ∉ l1.*1 -> k ∉ l2.*1 -> adelete k (l1 ++ (k, v) :: l2) = l1 ++ l2.
Proof.
  intros H1 H2.
  assert (E : adelete k (l1 ++ (k, v) :: l2) = adelete k l1 ++ adelete k l2).
  { unfold adelete. rewrite filter_app, filter_cons, decide_False; [done|]. by intros []. }
  by rewrite E, !adelete_notin.
Qed.

Lemma anext_mid k v l1 l2 : k ∉ l1.*1 -> anext k (l1 ++ (k, v) :: l2) = fst <$> head l2.
Proof.
  induction l1 as [|e l1 IH]; simpl; [intros _; by rewrite decide_True|].
  rewrite not_elem_of_cons. intros [Hne H]. rewrite decide_False by done. by apply IH.
Qed.
End Assoc.

Lemma filter_id {A} (P : A -> Prop) `{!forall x, Decision (P x)} (l : list A) :
  (forall x, x ∈ l -> P x) -> filter P l = l.
Proof.
  induction l as [|x l IH]; intros Hall; [done|].
  rewrite filter_cons, decide_True by (apply Hall; left).
  f_equal. apply IH. intros y Hy. apply Hall. by right.
Qed.

Lemma nth_insert {A} (l : list A) n m x d : (n < length l)%nat ->
  nth m (<[n := x]> l) d = if decide (m = n) then x else nth m l d.
Proof.
  intros H. rewrite !nth_lookup. case_decide as E; [subst m|].
  - by rewrite list_lookup_insert_eq.
  - by rewrite list_lookup_insert_ne.
Qed.

Section Buckets.
Context {V : Type} (junk : Bucket V).
Implicit Types (b : Bucket V) (bs : list (Bucket V)).

(** ** Entries *)

Definition bkey b : key := match b_key b with Some s => KStr s | None => KIdx (b_h b) end.

Definition bent b : option (key * V) := v ← b_val b; Some (bkey b, v).

Definition entries bs : list (key * V) := omap bent bs.

Lemma entries_app bs1 bs2 : entries (bs1 ++ bs2) = entries bs1 ++ entries bs2.
Proof. apply omap_app. Qed.

Lemma entries_live b v : b_val b = Some v -> entries [b] = [(bkey b, v)].
Proof. intros H. unfold entries, bent. simpl. by rewrite H. Qed.

Lemma entries_undef b : undef b = true -> entries [b] = [].
Proof. unfold undef, entries, bent. simpl. by destruct (b_val b). Qed.

Lemma entries_all_undef bs : Forall (fun b => undef b = true) bs -> entries bs = [].
Proof.
  induction 1 as [|b bs Hb _ IH]; [done|]. change (b :: bs) with ([b] ++ bs).
  by rewrite entries_app, entries_undef, IH.
Qed.

Lemma entries_next b n : entries [set_next n b] = entries [b].
Proof. done. Qed.

(** The bucket of a live key splits the entries. *)
Lemma entries_split bs n b v : bs !! n = Some b -> b_val b = Some v ->
  entries bs = entries (take n bs) ++ (bkey b, v) :: entries (drop (S n) bs).
Proof.
  intros Hn Hv. rewrite <- (take_drop_middle bs n b Hn) at 1.
  change (b :: drop (S n) bs) with ([b] ++ drop (S n) bs).
  by rewrite !entries_app, (entries_live b v Hv).
Qed.

Lemma entries_lookup bs k v : (k, v) ∈ entries bs ->
  exists n b, bs !! n = Some b /\ b_val b = Some v /\ bkey b = k.
Proof.
  intros H. apply list_elem_of_omap in H as (b & Hb & He). unfold bent in He.
  destruct (b_val b) as [v'|] eqn:E; [|done]. injection He as <- <-.
  apply list_elem_of_lookup in Hb as [n Hn]. by exists n, b.
Qed.

(** ** Positions *)

(** The positions, from [o] on, of the buckets that satisfy [P]. *)
Fixpoint idxs (P : Bucket V -> bool) (o : Z) bs : list Z :=
  match bs with
  | [] => []
  | b :: bs => (if P b then [o] else []) ++ idxs P (o + 1) bs
  end.

Lemma idxs_app P o bs1 bs2 :
  idxs P o (bs1 ++ bs2) = idxs P o bs1 ++ idxs P (o + Z.of_nat (length bs1)) bs2.
Proof.
  revert o. induction bs1 as [|b bs1 IH]; intros o; simpl; [by rewrite Z.add_0_r|].
  rewrite IH, app_assoc. do 2 f_equal. lia.
Qed.

Lemma elem_of_idxs P o bs i : i ∈ idxs P o bs <->
  exists n b, bs !! n = Some b /\ P b = true /\ i = o + Z.of_nat n.
Proof.
  revert o. induction bs as [|b bs IH]; intros o; simpl.
  - split; [by intros ?%not_elem_of_nil|]. by intros (n & b & H & _).
  - rewrite elem_of_app, IH. split.
    + intros [H|(n & b' & Hn & HP & ->)].
      * destruct (P b) eqn:E; [|by apply not_elem_of_nil in H].
        apply list_elem_of_singleton in H as ->. exists O, b. split_and!; [done|done|lia].
      * exists (S n), b'. split_and!; [done|done|lia].
    + intros ([|n] & b' & Hn & HP & ->); simpl in Hn.
      * injection Hn as <-. left. rewrite HP. apply list_elem_of_singleton. lia.
      * right. exists n, b'. split_and!; [done|done|lia].
Qed.

Lemma NoDup_idxs P o bs : NoDup (idxs P o bs).
Proof.
  revert o. induction bs as [|b bs IH]; intros o; simpl; [constructor|].
  destruct (P b); simpl; [|done]. constructor; [|done].
  rewrite elem_of_idxs. intros (n & b' & _ & _ & H). lia.
Qed.

Lemma idxs_none P o bs : Forall (fun b => P b = false) bs -> idxs P o bs = [].
Proof. intros H. revert o. induction H as [|b bs Hb _ IH]; intros o; simpl; [done|]. by rewrite Hb, IH. Qed.

Lemma idxs_ext P Q o bs bs' : length bs = length bs' ->
  (forall n b b', bs !! n = Some b -> bs' !! n = Some b' -> P b = Q b') ->
  idxs P o bs = idxs Q o bs'.
Proof.
  revert o bs'. induction bs as [|b bs IH]; intros o [|b' bs'] Hl H; simpl; try done.
  rewrite (H O b b') by done. f_equal. apply IH; [by injection Hl|]. intros n. apply (H (S n)).
Qed.

Lemma idxs_length P o bs : (length (idxs P o bs) <= length bs)%nat.
Proof.
  revert o. induction bs as [|b bs IH]; intros o; simpl; [lia|]. rewrite length_app.
  specialize (IH (o + 1)). destruct (P b); simpl; lia.
Qed.

(** ** Chains *)

(** From [start] on [next] leads through [l] to the end. *)
Fixpoint chain (next : Z -> Z) (start : Z) (l : list Z) : Prop :=
  match l with
  | [] => start = HT_INVALID_IDX
  | i :: l => start = i /\ chain next (next i) l
  end.

Lemma chain_ext next next' start l :
  (forall i, i ∈ l -> next' i = next i) -> chain next start l -> chain next' start l.
Proof.
  revert start. induction l as [|i l IH]; intros start H; simpl; [done|].
  intros [-> Hc]. split; [done|]. rewrite H by left. apply IH; [|done].
  intros j Hj. apply H. by right.
Qed.

(** Leaving out the first element after [l1], by the pointer before it. *)
Lemma chain_skip next next' start l1 p i l2 :
  NoDup (l1 ++ p :: i :: l2) -> next' p = next i ->
  (forall j, j <> p -> next' j = next j) ->
  chain next start (l1 ++ p :: i :: l2) -> chain next' start (l1 ++ p :: l2).
Proof.
  intros Hnd Hp Hn. revert start. induction l1 as [|j l1 IH]; intros start; simpl.
  - intros (-> & Hi & Hc). split; [done|]. rewrite Hp.
    apply (chain_ext next); [|done]. intros j Hj. apply Hn. intros ->.
    simpl in Hnd. apply NoDup_cons in Hnd as [Hnd _]. apply Hnd. by right.
  - intros [-> Hc]. simpl in Hnd. apply NoDup_cons in Hnd as [Hj Hnd]. split; [done|].
    rewrite Hn. { by apply IH. }
    intros ->. apply Hj. apply elem_of_app. right. left.
Qed.

Definition bnext bs (i : Z) : Z := b_next (nth (Z.to_nat i) bs junk).

Definition in_slot (size s : Z) b : bool := negb (undef b) && (b_h b `mod` size =? s).

Definition slot_list (size s : Z) bs : list Z := rev (idxs (in_slot size s) 0 bs).

(** Every chain holds the live buckets of its slot, the last one first. *)
Definition chained (size : Z) (hash : list Z) bs : Prop :=
  Z.of_nat (length hash) = size /\
  forall s, 0 <= s < size -> chain (bnext bs) (nth (Z.to_nat s) hash HT_INVALID_IDX) (slot_list size s bs).

Lemma elem_of_slot_list size s bs i : i ∈ slot_list size s bs <->
  exists n b, bs !! n = Some b /\ undef b = false /\ b_h b `mod` size = s /\ i = Z.of_nat n.
Proof.
  unfold slot_list. rewrite list_elem_of_In, <- in_rev, <- list_elem_of_In, elem_of_idxs.
  unfold in_slot. split.
  - intros (n & b & Hn & HP & ->). apply andb_true_iff in HP as [HP Hs].
    exists n, b. split_and!; [done|by destruct (undef b)|lia|lia].
  - intros (n & b & Hn & Hu & Hs & ->). exists n, b. split_and!; [done| |lia].
    rewrite Hu. simpl. lia.
Qed.

Lemma NoDup_slot_list size s bs : NoDup (slot_list size s bs).
Proof. unfold slot_list. apply NoDup_ListNoDup, NoDup_rev, NoDup_ListNoDup, NoDup_idxs. Qed.

Lemma slot_list_length size s bs : (length (slot_list size s bs) <= length bs)%nat.
Proof. unfold slot_list. rewrite length_rev. apply idxs_length. Qed.

Lemma slot_list_snoc size s bs b :
  slot_list size s (bs ++ [b]) =
  (if in_slot size s b then [Z.of_nat (length bs)] else []) ++ slot_list size s bs.
Proof.
  unfold slot_list. rewrite idxs_app, rev_app_distr. simpl. by destruct (in_slot size s b).
Qed.

Lemma slot_list_undef_tail size s bs tl :
  Forall (fun b => undef b = true) tl -> slot_list size s (bs ++ tl) = slot_list size s bs.
Proof.
  intros H. unfold slot_list. rewrite idxs_app, (idxs_none _ _ tl), app_nil_r; [done|].
  eapply Forall_impl; [exact H|]. intros b Hb. unfold in_slot. by rewrite Hb.
Qed.

Lemma bnext_lookup bs n b : bs !! n = Some b -> bnext bs (Z.of_nat n) = b_next b.
Proof.
  intros H. unfold bnext. by rewrite Nat2Z.id, nth_lookup, H.
Qed.

Lemma bnext_app bs bs' i : 0 <= i < Z.of_nat (length bs) -> bnext (bs ++ bs') i = bnext bs i.
Proof. intros H. unfold bnext. rewrite app_nth1 by lia. done. Qed.

Lemma chained_empty size : 0 <= size ->
  chained size (replicate (Z.to_nat size) HT_INVALID_IDX) [].
Proof.
  intros H. split; [rewrite length_replicate; lia|]. intros s Hs. simpl.
  rewrite nth_lookup. by destruct (replicate _ _ !! _) as [x|] eqn:E; [apply lookup_replicate in E as [-> _]|].
Qed.

Lemma slot_list_bounds size s bs i :
  i ∈ slot_list size s bs -> 0 <= i < Z.of_nat (length bs).
Proof.
  rewrite elem_of_slot_list. intros (n & b & Hn & _ & _ & ->). apply lookup_lt_Some in Hn. lia.
Qed.

(** A bucket at the end becomes the head of its chain. *)
Lemma chained_snoc size hash bs b (s := b_h b `mod` size) :
  0 < size -> chained size hash bs -> undef b = false ->
  chained size (<[Z.to_nat s := Z.of_nat (length bs)]> hash)
    (bs ++ [set_next (nth (Z.to_nat s) hash HT_INVALID_IDX) b]).
Proof.
  intros Hsz [Hl Hc] Hb. pose proof (Z.mod_pos_bound (b_h b) size Hsz) as Hs. fold s in Hs.
  split; [by rewrite length_insert|]. intros s' Hs'. rewrite slot_list_snoc.
  assert (Hold : forall start, chain (bnext bs) start (slot_list size s' bs) ->
    chain (bnext (bs ++ [set_next (nth (Z.to_nat s) hash HT_INVALID_IDX) b])) start
      (slot_list size s' bs)).
  { intros start. apply chain_ext. intros i Hi. apply bnext_app. by eapply slot_list_bounds. }
  unfold in_slot. change (undef (set_next _ b)) with (undef b). rewrite Hb.
  change (b_h (set_next _ b)) with (b_h b). fold s. simpl.
  destruct (Z.eqb_spec s s') as [<-|Hne]; simpl.
  - split; [by rewrite nth_insert, decide_True by lia|].
    rewrite (bnext_lookup _ _ (set_next (nth (Z.to_nat s) hash HT_INVALID_IDX) b)) by
      (rewrite lookup_app_r by lia; by rewrite Nat.sub_diag).
    apply Hold, Hc, Hs.
  - rewrite nth_insert, decide_False by lia. by apply Hold, Hc.
Qed.

(** A live bucket changes its value. *)
Lemma chained_set_val size hash bs n b v :
  chained size hash bs -> bs !! n = Some b -> undef b = false ->
  chained size hash (<[n := set_val (Some v) b]> bs).
Proof.
  intros [Hl Hc] Hn Hb. split; [done|]. intros s Hs.
  assert (E : slot_list size s (<[n := set_val (Some v) b]> bs) = slot_list size s bs).
  { unfold slot_list. f_equal. apply idxs_ext; [by rewrite length_insert|].
    intros m b1 b2 H1 H2. apply list_lookup_insert_Some in H1 as [(<- & <- & _)|[_ H1]].
    - rewrite Hn in H2. injection H2 as <-. unfold in_slot. by rewrite Hb.
    - rewrite H1 in H2. by injection H2 as <-. }
  rewrite E. apply (chain_ext (bnext bs)); [|by apply Hc]. intros i _. unfold bnext.
  rewrite nth_insert by (by apply lookup_lt_Some in Hn). case_decide as E'; [|done].
  by rewrite E', nth_lookup, Hn.
Qed.

Lemma chained_take size hash bs tl :
  Forall (fun b => undef b = true) tl -> chained size hash (bs ++ tl) -> chained size hash bs.
Proof.
  intros Htl [Hl Hc]. split; [done|]. intros s Hs. specialize (Hc s Hs).
  rewrite slot_list_undef_tail in Hc by done. revert Hc. apply chain_ext. intros i Hi.
  symmetry. apply bnext_app. by eapply slot_list_bounds.
Qed.

Lemma slot_list_delete size s bs n b b' :
  bs !! n = Some b -> undef b' = true ->
  slot_list size s (<[n := b']> bs) = filter (fun i => i <> Z.of_nat n) (slot_list size s bs).
Proof.
  intros Hn Hb'. unfold slot_list. rewrite <- (take_drop_middle bs n b Hn).
  pose proof (lookup_lt_Some _ _ _ Hn) as Hlt.
  assert (Hlen : length (take n bs) = n) by (rewrite length_take; lia).
  rewrite insert_app_r_alt, Hlen, Nat.sub_diag by lia. cbn [insert list_insert].
  rewrite !idxs_app, Hlen. cbn [idxs].
  replace (in_slot size s b') with false by (unfold in_slot; by rewrite Hb').
  assert (Hne : forall o l, (forall i, i ∈ idxs (in_slot size s) o l -> i <> Z.of_nat n) ->
    filter (fun i => i <> Z.of_nat n) (rev (idxs (in_slot size s) o l)) = rev (idxs (in_slot size s) o l)).
  { intros o l H. apply filter_id. intros i Hi. apply H.
    by rewrite list_elem_of_In, in_rev, <- list_elem_of_In. }
  rewrite !rev_app_distr, !filter_app, !Hne.
  - f_equal. destruct (in_slot size s b); [|done]. cbn [rev app].
    rewrite filter_cons, decide_False by (intros Hx; apply Hx; lia). done.
  - intros i. rewrite elem_of_idxs. intros (m & bm & Hm & _ & ->).
    apply lookup_lt_Some in Hm. lia.
  - intros i. rewrite elem_of_idxs. intros (m & bm & Hm & _ & ->).
    apply lookup_lt_Some in Hm. lia.
Qed.

Lemma filter_away (l1 l2 : list Z) x : NoDup (l1 ++ x :: l2) ->
  filter (fun i => i <> x) (l1 ++ x :: l2) = l1 ++ l2.
Proof.
  intros Hnd. rewrite filter_app, filter_cons, decide_False by naive_solver.
  apply NoDup_app in Hnd as (_ & H1 & H2). apply NoDup_cons in H2 as [H2 _].
  rewrite !filter_id; [done| |]; intros y Hy ->; [done|]. apply (H1 _ Hy). left.
Qed.

Lemma bnext_insert bs n b i : (n < length bs)%nat -> 0 <= i ->
  bnext (<[n := b]> bs) i = if decide (i = Z.of_nat n) then b_next b else bnext bs i.
Proof.
  intros Hn Hi. unfold bnext. rewrite nth_insert by done. repeat case_decide; try lia; done.
Qed.

Lemma slot_list_set_next size s bs p bp n :
  bs !! p = Some bp -> slot_list size s (<[p := set_next n bp]> bs) = slot_list size s bs.
Proof.
  intros Hp. unfold slot_list. f_equal. apply idxs_ext; [by rewrite length_insert|].
  intros m b1 b2 H1 H2. apply list_lookup_insert_Some in H1 as [(<- & <- & _)|[_ H1]].
  - rewrite Hp in H2. by injection H2 as <-.
  - rewrite H1 in H2. by injection H2 as <-.
Qed.

(** The deleted bucket is not in the chains of the other slots. *)
Lemma slot_list_other size s bs n b :
  bs !! n = Some b -> b_h b `mod` size <> s -> Z.of_nat n ∉ slot_list size s bs.
Proof.
  intros Hn Hs H. apply elem_of_slot_list in H as (m & b' & Hm & _ & Hs' & E).
  apply Nat2Z.inj in E as <-. rewrite Hn in Hm. by injection Hm as <-.
Qed.

(** The first bucket of its chain is deleted: the head moves on. *)
Lemma chained_delete_head size hash bs n b l (s := b_h b `mod` size) :
  0 < size -> chained size hash bs -> bs !! n = Some b ->
  slot_list size s bs = Z.of_nat n :: l ->
  chained size (<[Z.to_nat s := b_next b]> hash) (<[n := set_val None b]> bs).
Proof.
  intros Hsz [Hl Hc] Hn Hsl. pose proof (lookup_lt_Some _ _ _ Hn) as Hlt.
  pose proof (Z.mod_pos_bound (b_h b) size Hsz) as Hs. fold s in Hs.
  split; [by rewrite length_insert|]. intros s' Hs'.
  rewrite (slot_list_delete _ _ _ _ b) by done. rewrite nth_insert by lia.
  assert (Hnext : forall i, i ∈ slot_list size s' bs ->
    bnext (<[n := set_val None b]> bs) i = bnext bs i).
  { intros i Hi. apply slot_list_bounds in Hi. rewrite bnext_insert by lia.
    case_decide as E; [|done]. subst i. by rewrite (bnext_lookup _ _ b). }
  pose proof (Hc s' Hs') as Hch. case_decide as E.
  - assert (s' = s) as -> by lia. rewrite Hsl in *. destruct Hch as [_ Hch].
    rewrite (bnext_lookup _ _ b) in Hch by done.
    pose proof (NoDup_slot_list size s bs) as Hnd. rewrite Hsl in Hnd.
    rewrite (filter_away [] l) by done. simpl. revert Hch. apply chain_ext.
    intros i Hi. apply Hnext. by right.
  - rewrite filter_id.
    + revert Hch. by apply chain_ext.
    + intros i Hi ->. revert Hi. apply (slot_list_other _ _ _ _ b); [done|]. fold s. lia.
Qed.

(** Another bucket is deleted: its predecessor in the chain skips it. *)
Lemma chained_delete_mid size hash bs n b p bp l1 l2 (s := b_h b `mod` size) :
  0 < size -> chained size hash bs -> bs !! n = Some b -> bs !! p = Some bp ->
  slot_list size s bs = l1 ++ Z.of_nat p :: Z.of_nat n :: l2 ->
  chained size hash (<[n := set_val None b]> (<[p := set_next (b_next b) bp]> bs)).
Proof.
  intros Hsz [Hl Hc] Hn Hp Hsl. pose proof (lookup_lt_Some _ _ _ Hn) as Hlt.
  pose proof (lookup_lt_Some _ _ _ Hp) as Hltp.
  pose proof (NoDup_slot_list size s bs) as Hnd. rewrite Hsl in Hnd.
  assert (Hpn : p <> n).
  { intros ->. apply NoDup_app in Hnd as (_ & _ & Hnd). apply NoDup_cons in Hnd as [Hnd _].
    apply Hnd. left. }
  split; [done|]. intros s' Hs'.
  rewrite (slot_list_delete _ _ _ _ b) by (done || by rewrite list_lookup_insert_ne).
  rewrite slot_list_set_next by done.
  assert (Hnext : forall i, 0 <= i ->
    bnext (<[n := set_val None b]> (<[p := set_next (b_next b) bp]> bs)) i =
    if decide (i = Z.of_nat p) then b_next b else bnext bs i).
  { intros i Hi. rewrite !bnext_insert by (rewrite ?length_insert; lia).
    destruct (decide (i = Z.of_nat n)) as [->|]; [|done].
    rewrite decide_False by lia. by rewrite (bnext_lookup _ _ b). }
  pose proof (Hc s' Hs') as Hch. destruct (decide (s' = s)) as [->|Hne].
  - rewrite Hsl in *.
    replace (l1 ++ Z.of_nat p :: Z.of_nat n :: l2) with ((l1 ++ [Z.of_nat p]) ++ Z.of_nat n :: l2)
      in Hnd |- * by by rewrite <- app_assoc.
    rewrite filter_away, <- app_assoc by done. simpl. rewrite <- app_assoc in Hnd. simpl in Hnd.
    apply (chain_ext (fun i => if decide (i = Z.of_nat p) then b_next b else bnext bs i)).
    { intros i Hi. apply Hnext.
      assert (Hi' : i ∈ slot_list size s bs).
      { rewrite Hsl. rewrite !elem_of_app, !elem_of_cons in *. tauto. }
      apply slot_list_bounds in Hi'. lia. }
    apply (chain_skip (bnext bs) _ _ _ _ (Z.of_nat n)); [done| | |done].
    + rewrite decide_True by done. by rewrite (bnext_lookup _ _ b).
    + intros j Hj. by rewrite decide_False.
  - rewrite filter_id.
    + revert Hch. apply chain_ext. intros i Hi. pose proof (slot_list_bounds _ _ _ _ Hi).
      rewrite Hnext by lia. rewrite decide_False; [done|]. intros ->.
      assert (Hip : Z.of_nat p ∈ slot_list size s bs) by (rewrite Hsl; apply elem_of_app; right; left).
      apply elem_of_slot_list in Hi as (m & bm & Hm & _ & Hs1 & E). apply Nat2Z.inj in E as <-.
      apply elem_of_slot_list in Hip as (m & bm' & Hm' & _ & Hs2 & E). apply Nat2Z.inj in E as <-.
      rewrite Hm in Hm'. injection Hm' as <-. congruence.
    + intros i Hi ->. revert Hi. apply (slot_list_other _ _ _ _ b); [done|]. by fold s.
Qed.

(** ** Lookup *)

(** The hash that a live bucket keeps is that of its key. *)
Definition hash_ok b : Prop := undef b = false -> 0 <= b_h b < 2 ^ 64 /\ b_h b = khash (bkey b).

(** The test of a lookup for [k]. *)
Definition key_test (k : key) : Bucket V -> bool :=
  match k with KStr s => str_test (khash k) s | KIdx h => index_test h end.

Lemma key_test_spec k b : b_h b = khash (bkey b) -> key_test k b = bool_decide (bkey b = k).
Proof.
  unfold key_test, str_test, index_test, bkey.
  destruct k as [s|h], (b_key b) as [s'|] eqn:E; cbn [khash]; intros Hh.
  - rewrite Hh. destruct (decide (s' = s)) as [->|Hne].
    + by rewrite !Z.eqb_refl, !bool_decide_true.
    + rewrite !bool_decide_false by congruence. by rewrite !andb_false_r.
  - rewrite bool_decide_false by done. by rewrite andb_false_r.
  - rewrite bool_decide_false by done. by rewrite andb_false_r.
  - rewrite andb_true_r. destruct (Z.eqb_spec (b_h b) h) as [->|]; [by rewrite bool_decide_true|].
    rewrite bool_decide_false; congruence.
Qed.

Lemma elem_of_keys bs k : k ∈ (entries bs).*1 <->
  exists n b, bs !! n = Some b /\ undef b = false /\ bkey b = k.
Proof.
  rewrite list_elem_of_fmap. split.
  - intros ([k' v] & -> & H). apply entries_lookup in H as (n & b & Hn & Hv & Hk).
    exists n, b. unfold undef. by rewrite Hv.
  - intros (n & b & Hn & Hu & <-). unfold undef in Hu. destruct (b_val b) as [v|] eqn:Hv; [|done].
    exists (bkey b, v). split; [done|]. rewrite (entries_split _ _ _ _ Hn Hv).
    apply elem_of_app. right. left.
Qed.

(** A search of the slot of [k] finds its bucket, if there is one. *)
Lemma slot_search size bs k :
  Forall hash_ok bs ->
  match List.find (fun i => key_test k (nth (Z.to_nat i) bs junk)) (slot_list size (khash k `mod` size) bs) with
  | Some i => exists n b, i = Z.of_nat n /\ bs !! n = Some b /\ undef b = false /\ bkey b = k
  | None => k ∉ (entries bs).*1
  end.
Proof.
  intros Hok. rewrite Forall_lookup in Hok.
  destruct (List.find _ _) as [i|] eqn:E.
  - apply List.find_some in E as [Hi Ht]. apply list_elem_of_In, elem_of_slot_list in Hi.
    destruct Hi as (n & b & Hn & Hu & _ & ->). exists n, b. split_and!; try done.
    rewrite Nat2Z.id, nth_lookup, Hn in Ht. simpl in Ht.
    rewrite key_test_spec in Ht by (by apply (Hok n)). by apply bool_decide_eq_true in Ht.
  - intros H. apply elem_of_keys in H as (n & b & Hn & Hu & Hk).
    assert (Hi : Z.of_nat n ∈ slot_list size (khash k `mod` size) bs).
    { apply elem_of_slot_list. exists n, b. split_and!; try done.
      destruct (Hok n b Hn Hu) as [_ ->]. by rewrite Hk. }
    apply list_elem_of_In in Hi. pose proof (List.find_none _ _ E _ Hi) as Ht. cbn beta in Ht.
    rewrite Nat2Z.id, nth_lookup, Hn in Ht. simpl in Ht.
    rewrite key_test_spec in Ht by (by apply (Hok n)). by apply bool_decide_eq_false in Ht.
Qed.
End Buckets.
