(* ===== verification/ZendHashOps.v ===== *)
(** * ZendHashOps: the hash table as an ordered map, and rehashing

    [repr ht bs rest m]: the table [ht], with the buckets [bs] in use and the
    memory [rest] behind them, represents the ordered map [m].  The two loops of
    [zend_hash_rehash] squeeze out the empty buckets and build the chains anew. *)

From S2P Require Import Prelude ZendHash ZendHashList.

(** ** The ordered map *)

(** The entries in their order, the next integer key, the key under the internal pointer. *)
Record amap {V : Type} : Type := AM {
  m_list : list (key * V);
  m_free : Z;
  m_pos : option key
}.
Arguments amap : clear implicits.

Section Spec.
Context {V : Type}.
Implicit Types (m : amap V) (k : key) (v : V).

Definition a_empty : amap V := AM V [] 0 None.

Definition a_find k m : option V := alookup k (m_list m).

Definition free_after (k : key) (free : Z) : Z :=
  match k with
  | KStr _ => free
  | KIdx h => if free <=? s64 h then if h <? ZEND_LONG_MAX then h + 1 else ZEND_LONG_MAX else free
  end.

Definition a_insert k v m : amap V :=
  AM V (m_list m ++ [(k, v)]) (free_after k (m_free m))
    (match m_pos m with None => Some k | Some k' => Some k' end).

Definition a_replace k v m : amap V :=
  AM V (aupdate k v (m_list m)) (free_after k (m_free m)) (m_pos m).

Definition a_delete k m : amap V :=
  AM V (adelete k (m_list m)) (m_free m)
    (if decide (m_pos m = Some k) then anext k (m_list m) else m_pos m).
End Spec.

(** Arithmetic of lengths. *)
Ltac lens := repeat progress (rewrite ?length_app in *; cbn [length app] in * ); lia.

Section Repr.
Context {V : Type} (junk : Bucket V).
Implicit Types (ht : HashTable V) (b : Bucket V) (bs rest : list (Bucket V)) (m : amap V).

(** The internal pointer is at the bucket of the key. *)
Definition pos_ok bs (ptr : Z) (pk : option key) : Prop :=
  match pk with
  | None => ptr = HT_INVALID_IDX
  | Some k => exists n b, ptr = Z.of_nat n /\ bs !! n = Some b /\ undef b = false /\ bkey b = k
  end.

Definition power_of_two (size : Z) : Prop := exists k, 3 <= k <= 31 /\ size = 2 ^ k.

(** A packed table has its integer keys at their positions. *)
Definition packed_ok bs : Prop :=
  forall n b, bs !! n = Some b -> undef b = false -> b_key b = None /\ b_h b = Z.of_nat n.

Inductive mode ht bs : Prop :=
  | mode_new : f_initialized ht = false -> f_packed ht = false -> nTableMask ht = HT_MIN_MASK ->
      ht_hash ht = [HT_INVALID_IDX; HT_INVALID_IDX] -> bs = [] -> mode ht bs
  | mode_packed : f_initialized ht = true -> f_packed ht = true -> nTableMask ht = HT_MIN_MASK ->
      ht_hash ht = [HT_INVALID_IDX; HT_INVALID_IDX] -> packed_ok bs -> mode ht bs
  | mode_hash : f_initialized ht = true -> f_packed ht = false ->
      nTableMask ht = 2 ^ 32 - nTableSize ht -> chained junk (nTableSize ht) (ht_hash ht) bs -> mode ht bs.

(** All but the mode. *)
Record base ht bs rest m : Prop := {
  r_data : arData ht = bs ++ rest;
  r_used : nNumUsed ht = Z.of_nat (length bs);
  r_size : power_of_two (nTableSize ht);
  r_room : f_initialized ht = true -> Z.of_nat (length bs + length rest) = nTableSize ht;
  r_elems : nNumOfElements ht = Z.of_nat (length (entries bs));
  r_list : m_list m = entries bs;
  r_nodup : NoDup (entries bs).*1;
  r_hash : Forall hash_ok bs;
  r_free : nNextFreeElement ht = m_free m;
  r_range : 0 <= m_free m <= ZEND_LONG_MAX;
  r_pos : pos_ok bs (nInternalPointer ht) (m_pos m)
}.

Definition repr ht bs rest m : Prop := base ht bs rest m /\ mode ht bs.

Lemma power_bounds size : power_of_two size -> 8 <= size <= 2 ^ 31.
Proof.
  intros (k & Hk & ->). change 8 with (2 ^ 3). split; apply Z.pow_le_mono_r; lia.
Qed.

Lemma power_divides size : power_of_two size -> (size | 2 ^ 32).
Proof.
  intros (k & Hk & ->). exists (2 ^ (32 - k)). rewrite <- Z.pow_add_r by lia. f_equal. lia.
Qed.

(** The slot of a hash value: its low bits. *)
Lemma hash_index_slot ht h :
  power_of_two (nTableSize ht) -> nTableMask ht = 2 ^ 32 - nTableSize ht -> 0 <= h ->
  hash_index ht h - nTableMask ht = h `mod` nTableSize ht.
Proof.
  intros (k & Hk & Hs) Hm Hh. unfold hash_index, u32. rewrite Hm, Hs.
  assert (E : 2 ^ 32 - 2 ^ k = Z.shiftl (2 ^ (32 - k) - 1) k).
  { rewrite Z.shiftl_mul_pow2 by lia. rewrite Z.mul_sub_distr_r, <- Z.pow_add_r by lia.
    replace (32 - k + k) with 32 by lia. lia. }
  assert (H0 : 0 <= h `mod` 2 ^ k < 2 ^ k) by (apply Z.mod_pos_bound; apply Z.pow_pos_nonneg; lia).
  enough (Z.lor h (2 ^ 32 - 2 ^ k) `mod` 2 ^ 32 = (2 ^ 32 - 2 ^ k) + h `mod` 2 ^ k) by lia.
  rewrite E, Z.shiftl_mul_pow2, <- (lor_shiftl_add (2 ^ (32 - k) - 1) _ k), <- Z.shiftl_mul_pow2 by lia.
  apply Z.bits_inj'. intros i Hi.
  rewrite Z.lor_spec. destruct (Z.lt_ge_cases i 32).
  - rewrite Z.mod_pow2_bits_low, Z.lor_spec by lia.
    destruct (Z.lt_ge_cases i k).
    + rewrite (Z.mod_pow2_bits_low h) by lia. apply orb_comm.
    + rewrite (Z.mod_pow2_bits_high h), Z.shiftl_spec by lia.
      replace (2 ^ (32 - k) - 1) with (Z.ones (32 - k)) by (rewrite Z.ones_equiv; lia).
      rewrite Z.ones_spec_low by lia. by rewrite orb_true_r.
  - rewrite Z.mod_pow2_bits_high, (Z.mod_pow2_bits_high h), Z.shiftl_spec by lia.
    replace (2 ^ (32 - k) - 1) with (Z.ones (32 - k)) by (rewrite Z.ones_equiv; lia).
    rewrite Z.ones_spec_high by lia. done.
Qed.

(** ** Access *)

Lemma bucket_lookup ht n b : arData ht !! n = Some b -> bucket junk ht (Z.of_nat n) = b.
Proof. intros H. unfold bucket. by rewrite Nat2Z.id, nth_lookup, H. Qed.

Lemma bucket_mid ht l b tl : arData ht = l ++ b :: tl -> bucket junk ht (Z.of_nat (length l)) = b.
Proof. intros H. apply bucket_lookup. rewrite H. by apply list_lookup_middle. Qed.

Lemma set_bucket_mid ht l b b' tl : arData ht = l ++ b :: tl ->
  set_bucket (Z.of_nat (length l)) b' ht = set_arData (l ++ b' :: tl) ht.
Proof.
  intros H. unfold set_bucket. rewrite H, Nat2Z.id, insert_app_r_alt, Nat.sub_diag by lia. done.
Qed.

(** A live bucket becomes the head of its chain. *)
Lemma link_mid ht l b tl (s := b_h b `mod` nTableSize ht) :
  power_of_two (nTableSize ht) -> nTableMask ht = 2 ^ 32 - nTableSize ht -> 0 <= b_h b ->
  arData ht = l ++ b :: tl ->
  link junk (Z.of_nat (length l)) ht =
  set_hash (<[Z.to_nat s := Z.of_nat (length l)]> (ht_hash ht))
    (set_arData (l ++ set_next (nth (Z.to_nat s) (ht_hash ht) HT_INVALID_IDX) b :: tl) ht).
Proof.
  intros Hs Hm Hb H. unfold link. rewrite (bucket_mid _ _ _ _ H), (set_bucket_mid _ _ _ _ _ H).
  unfold HT_HASH, set_HT_HASH. rewrite (hash_index_slot _ _ Hs Hm Hb).
  change (nTableMask (set_arData ?l ht)) with (nTableMask ht).
  rewrite (hash_index_slot _ _ Hs Hm Hb). done.
Qed.

(** ** Rehashing *)

(** The same buckets but for their places in the chains. *)
Definition relinked bs bs' : Prop := set_next 0 <$> bs = set_next 0 <$> bs'.

Lemma relinked_app bs1 bs1' bs2 bs2' :
  relinked bs1 bs1' -> relinked bs2 bs2' -> relinked (bs1 ++ bs2) (bs1' ++ bs2').
Proof. unfold relinked. intros H1 H2. by rewrite !fmap_app, H1, H2. Qed.

Lemma relinked_length bs bs' : relinked bs bs' -> length bs = length bs'.
Proof. intros H. apply (f_equal length) in H. by rewrite !length_fmap in H. Qed.

Lemma relinked_lookup bs bs' n b : relinked bs bs' -> bs !! n = Some b ->
  exists b', bs' !! n = Some b' /\ set_next 0 b' = set_next 0 b.
Proof.
  intros H Hn. apply (f_equal (lookup n)) in H. rewrite !list_lookup_fmap, Hn in H. simpl in H.
  destruct (bs' !! n) as [b'|]; [|done]. exists b'. split; [done|].
  apply (inj Some). by symmetry.
Qed.

Lemma relinked_entries bs bs' : relinked bs bs' -> entries bs = entries bs'.
Proof.
  assert (E : forall bs, entries (set_next 0 <$> bs) = entries bs).
  { intros l. induction l as [|b l IH]; [done|]. change (b :: l) with ([b] ++ l).
    by rewrite fmap_app, !entries_app, IH. }
  intros H. by rewrite <- (E bs), H, E.
Qed.

Lemma relinked_Forall (P : Bucket V -> Prop) bs bs' :
  (forall b n, P (set_next n b) <-> P b) -> relinked bs bs' -> Forall P bs -> Forall P bs'.
Proof.
  intros HP H. assert (E : forall bs, Forall P (set_next 0 <$> bs) <-> Forall P bs).
  { intros l. rewrite Forall_fmap. apply Forall_iff. intros b. apply HP. }
  intros Hf. apply E. rewrite <- H. by apply E.
Qed.

Lemma relinked_pos bs bs' ptr pk : relinked bs bs' -> pos_ok bs ptr pk -> pos_ok bs' ptr pk.
Proof.
  intros H. destruct pk as [k|]; [|done]. intros (n & b & -> & Hn & Hu & Hk).
  destruct (relinked_lookup _ _ _ _ H Hn) as (b' & Hn' & E). exists n, b'.
  split_and!; [done|done| |].
  - by change (undef (set_next 0 b') = false); rewrite E.
  - rewrite <- Hk. change (bkey (set_next 0 b') = bkey (set_next 0 b)). by rewrite E.
Qed.

Definition live bs : list (Bucket V) := List.filter (fun b => negb (undef b)) bs.

Lemma live_app bs1 bs2 : live (bs1 ++ bs2) = live bs1 ++ live bs2.
Proof. apply List.filter_app. Qed.

Lemma entries_live_eq bs : entries (live bs) = entries bs.
Proof.
  induction bs as [|b bs IH]; [done|]. change (b :: bs) with ([b] ++ bs).
  rewrite live_app, !entries_app, IH. f_equal. unfold live. cbn [List.filter].
  destruct (undef b) eqn:E; cbn [negb]; [by rewrite (entries_undef b E)|done].
Qed.

Lemma live_all bs : Forall (fun b => undef b = false) bs -> live bs = bs.
Proof.
  unfold live. induction 1 as [|b bs Hb _ IH]; [done|]. simpl. by rewrite Hb, IH.
Qed.

(** The fields that rehashing leaves alone. *)
Definition same_setup ht ht' : Prop :=
  f_packed ht' = f_packed ht /\ f_initialized ht' = f_initialized ht /\
  nTableMask ht' = nTableMask ht /\ nTableSize ht' = nTableSize ht /\
  nNumOfElements ht' = nNumOfElements ht /\ nNextFreeElement ht' = nNextFreeElement ht.

(** The table [ht'] holds the live buckets of [src], in chains. *)
Record rehashed ht (src : list (Bucket V)) (pk : option key) ht' : Prop := {
  rh_setup : same_setup ht ht';
  rh_data : exists bs' rest', arData ht' = bs' ++ rest' /\
    length (arData ht') = length (arData ht) /\ nNumUsed ht' = Z.of_nat (length bs') /\
    relinked src bs' /\ chained junk (nTableSize ht) (ht_hash ht') bs' /\
    pos_ok bs' (nInternalPointer ht') pk
}.

(** The position while live buckets move from [todo], at [off], to the end of [done]. *)
Definition pos_moving (done todo : list (Bucket V)) (off ptr : Z) (pk : option key) : Prop :=
  match pk with
  | None => ptr = HT_INVALID_IDX
  | Some k =>
      (exists n b, ptr = Z.of_nat n /\ done !! n = Some b /\ undef b = false /\ bkey b = k) \/
      (exists n b, ptr = off + Z.of_nat n /\ todo !! n = Some b /\ undef b = false /\ bkey b = k)
  end.

Definition geometry ht : Prop :=
  power_of_two (nTableSize ht) /\ nTableMask ht = 2 ^ 32 - nTableSize ht /\
  Z.of_nat (length (arData ht)) <= nTableSize ht.

Lemma same_setup_refl ht : same_setup ht ht.
Proof. done. Qed.

Lemma same_setup_trans ht1 ht2 ht3 : same_setup ht1 ht2 -> same_setup ht2 ht3 -> same_setup ht1 ht3.
Proof. unfold same_setup. intuition congruence. Qed.

Lemma rehashed_trans ht ht1 src pk ht' :
  same_setup ht ht1 -> length (arData ht1) = length (arData ht) ->
  rehashed ht1 src pk ht' -> rehashed ht src pk ht'.
Proof.
  intros Hs Hl [Hs' (bs' & rest' & H1 & H2 & H3 & H4 & H5 & H6)].
  split; [by apply (same_setup_trans _ ht1)|]. exists bs', rest'.
  destruct Hs as (_ & _ & _ & Hsz & _). rewrite Hsz in H5. split_and!; try done. lia.
Qed.

(** The bucket after a hole moves down to the hole and into its chain. *)
Lemma move_down ht done d0 p tl i (q := Bkt V (b_val p) (b_next d0) (b_h p) (b_key p)) :
  geometry ht -> arData ht = done ++ d0 :: tl -> hash_ok p -> undef p = false ->
  chained junk (nTableSize ht) (ht_hash ht) done ->
  let ht1 := link junk (Z.of_nat (length done)) (set_bucket (Z.of_nat (length done)) q ht) in
  let ht2 := if nInternalPointer ht1 =? i then set_pointer (Z.of_nat (length done)) ht1 else ht1 in
  exists p', set_next 0 p' = set_next 0 p /\ arData ht2 = done ++ p' :: tl /\
    same_setup ht ht2 /\ nNumUsed ht2 = nNumUsed ht /\
    chained junk (nTableSize ht) (ht_hash ht2) (done ++ [p']) /\
    nInternalPointer ht2 =
      if nInternalPointer ht =? i then Z.of_nat (length done) else nInternalPointer ht.
Proof.
  intros (Hsz & Hmask & _) Hd Hok Hp Hch. rewrite (set_bucket_mid _ _ _ _ _ Hd).
  destruct (Hok Hp) as [Hr _]. pose proof (power_bounds _ Hsz).
  rewrite (link_mid _ done q tl) by (done || (change (0 <= b_h p); lia)). cbn zeta.
  exists (set_next (nth (Z.to_nat (b_h q `mod` nTableSize ht)) (ht_hash ht) HT_INVALID_IDX) q).
  change (nInternalPointer (set_hash ?x (set_arData ?y (set_arData ?z ht)))) with (nInternalPointer ht).
  split; [done|]. destruct (nInternalPointer ht =? i);
    (split_and!; [done|done|done| |done]); by apply chained_snoc; [lia|..].
Qed.

Lemma compact_spec src pk fuel ht done mid todo rest :
  geometry ht -> mid <> [] -> (length todo < fuel)%nat ->
  arData ht = done ++ mid ++ todo ++ rest ->
  nNumUsed ht = Z.of_nat (length done + length mid + length todo) ->
  Forall hash_ok todo -> chained junk (nTableSize ht) (ht_hash ht) done ->
  relinked src (done ++ live todo) ->
  pos_moving done todo (Z.of_nat (length done + length mid)) (nInternalPointer ht) pk ->
  rehashed ht src pk
    (rehash_compact junk fuel (Z.of_nat (length done + length mid) - 1) (Z.of_nat (length done)) ht).
Proof.
  revert ht done mid todo. induction fuel as [|fuel IH];
    intros ht done mid todo Hgeo Hmid Hf Hd Hu Hok Hch Hsrc Hpos; [lia|].
  cbn [rehash_compact]. rewrite Z.sub_add, Hu. destruct todo as [|p todo].
  { rewrite (proj2 (Z.ltb_ge _ _)) by (simpl; lia). split; [done|].
    exists done, (mid ++ [] ++ rest). split_and!; try done.
    - by rewrite app_nil_r in Hsrc.
    - destruct pk as [k|]; [|done]. destruct Hpos as [Hl|(n & b & _ & Hn & _)]; [exact Hl|done]. }
  simpl length in *. rewrite (proj2 (Z.ltb_lt _ _)) by lia.
  assert (Hbk : bucket junk ht (Z.of_nat (length done + length mid)) = p).
  { rewrite <- length_app. apply (bucket_mid _ _ _ (todo ++ rest)). rewrite Hd. by rewrite <- !app_assoc. }
  rewrite Hbk. apply Forall_cons in Hok as [Hp Hok].
  assert (Hpos' : undef p = true -> forall off', off' = Z.of_nat (length done + length mid) + 1 ->
    pos_moving done todo off' (nInternalPointer ht) pk).
  { intros Hund off' ->. destruct pk as [k|]; [|done].
    destruct Hpos as [Hl|([|n] & b & -> & Hn & Hb & Hk)]; [by left| |].
    - injection Hn as <-. congruence.
    - right. exists n, b. split_and!; [lia|done|done|done]. }
  destruct (undef p) eqn:Eu.
  - replace (Z.of_nat (length done + length mid)) with (Z.of_nat (length done + length (mid ++ [p])) - 1)
      by (rewrite length_app; simpl; lia).
    apply (IH ht done (mid ++ [p]) todo); try done.
    + by destruct mid.
    + lia.
    + rewrite Hd. by rewrite <- !app_assoc.
    + rewrite Hu, length_app. simpl. f_equal. lia.
    + unfold live in Hsrc |- *. cbn [List.filter] in Hsrc. by rewrite Eu in Hsrc.
    + apply Hpos'; [done|]. rewrite length_app. simpl. lia.
  - destruct mid as [|d0 mid]; [done|].
    rewrite (bucket_mid ht done d0 (mid ++ (p :: todo) ++ rest)) by done.
    destruct (move_down ht done d0 p (mid ++ (p :: todo) ++ rest)
      (Z.of_nat (length done + length (d0 :: mid))) Hgeo Hd Hp Eu Hch)
      as (p' & Hp' & Hd2 & Hss & Hu2 & Hch2 & Hptr).
    set (ht2 := if _ =? _ then _ else _) in *.
    apply (rehashed_trans _ ht2); [done|rewrite Hd2, Hd; lens|].
    destruct Hss as (Hs1 & Hs2 & Hs3 & Hs4 & Hs5 & Hs6).
    replace (Z.of_nat (length done + length (d0 :: mid))) with
      (Z.of_nat (length (done ++ [p']) + length (mid ++ [p])) - 1)
      by (rewrite !length_app; simpl; lia).
    replace (Z.of_nat (length done) + 1) with (Z.of_nat (length (done ++ [p'])))
      by (rewrite length_app; simpl; lia).
    apply (IH ht2 (done ++ [p']) (mid ++ [p]) todo).
    + destruct Hgeo as (G1 & G2 & G3). unfold geometry. rewrite Hs3, Hs4, Hd2.
      rewrite Hd in G3. split_and!; [done|done|]. clear - G3. lens.
    + by destruct mid.
    + lia.
    + rewrite Hd2. by rewrite <- !app_assoc.
    + rewrite Hu2, Hu, !length_app. simpl. lia.
    + done.
    + by rewrite Hs4.
    + unfold live in Hsrc. cbn [List.filter] in Hsrc. rewrite Eu in Hsrc. cbn [negb] in Hsrc.
      unfold relinked in *. rewrite Hsrc, <- app_assoc, !fmap_app. simpl. by rewrite Hp'.
    + rewrite Hptr. destruct pk as [k|]; cbn [pos_moving] in Hpos |- *.
      * destruct Hpos as [(n & b & E & Hn & Hb & Hk)|(n & b & E & Hn & Hb & Hk)].
        -- left. exists n, b. pose proof (lookup_lt_Some _ _ _ Hn).
           destruct (Z.eqb_spec (nInternalPointer ht) (Z.of_nat (length done + length (d0 :: mid))));
             [simpl in *; lia|]. split_and!; try done. by apply lookup_app_l_Some.
        -- destruct n as [|n].
           ++ left. injection Hn as <-. exists (length done), p'.
              rewrite (proj2 (Z.eqb_eq _ _)) by lia. split_and!; [done| | |].
              ** by apply list_lookup_middle.
              ** change (undef (set_next 0 p') = false). by rewrite Hp'.
              ** rewrite <- Hk. change (bkey (set_next 0 p') = bkey (set_next 0 p)). by rewrite Hp'.
           ++ right. exists n, b. rewrite (proj2 (Z.eqb_neq _ _)) by lia.
              split_and!; try done. rewrite E, !length_app. simpl. lia.
      * rewrite Hpos. destruct (Z.eqb_spec HT_INVALID_IDX (Z.of_nat (length done + length (d0 :: mid)))) as [E|];
          [|done]. exfalso. destruct Hgeo as (G1 & _ & G3). pose proof (power_bounds _ G1).
        rewrite Hd in G3. unfold HT_INVALID_IDX in E. clear - H G3 E. lens.
Qed.

(** A live bucket that stays where it is comes into its chain. *)
Lemma link_in_place ht done p tl :
  geometry ht -> arData ht = done ++ p :: tl -> hash_ok p -> undef p = false ->
  chained junk (nTableSize ht) (ht_hash ht) done ->
  let ht1 := link junk (Z.of_nat (length done)) ht in
  exists p', set_next 0 p' = set_next 0 p /\ arData ht1 = done ++ p' :: tl /\
    same_setup ht ht1 /\ nNumUsed ht1 = nNumUsed ht /\
    chained junk (nTableSize ht) (ht_hash ht1) (done ++ [p']) /\
    nInternalPointer ht1 = nInternalPointer ht.
Proof.
  intros (Hsz & Hmask & _) Hd Hok Hp Hch. destruct (Hok Hp) as [Hr _].
  pose proof (power_bounds _ Hsz). rewrite (link_mid _ done p tl) by (done || lia). cbn zeta.
  eexists. split; [|split; [done|]]; [done|]. split_and!; [done|done| |done].
  by apply chained_snoc; [lia|..].
Qed.

Lemma pos_moving_hole done p todo off ptr pk :
  undef p = true -> pos_moving done (p :: todo) off ptr pk -> pos_moving done todo (off + 1) ptr pk.
Proof.
  intros Hu. destruct pk as [k|]; [|done].
  intros [Hl|([|n] & b & -> & Hn & Hb & Hk)]; [by left| |].
  - injection Hn as <-. congruence.
  - right. exists n, b. split_and!; [lia|done|done|done].
Qed.

Lemma pos_moving_stay done p p' todo ptr pk :
  set_next 0 p' = set_next 0 p ->
  pos_moving done (p :: todo) (Z.of_nat (length done)) ptr pk ->
  pos_moving (done ++ [p']) todo (Z.of_nat (length done) + 1) ptr pk.
Proof.
  intros Hp. destruct pk as [k|]; [|done].
  intros [(n & b & -> & Hn & Hb & Hk)|([|n] & b & -> & Hn & Hb & Hk)].
  - left. exists n, b. split_and!; try done. by apply lookup_app_l_Some.
  - left. injection Hn as <-. exists (length done), p'. split_and!; [lia| | |].
    + by apply list_lookup_middle.
    + change (undef (set_next 0 p') = false). by rewrite Hp.
    + rewrite <- Hk. change (bkey (set_next 0 p') = bkey (set_next 0 p)). by rewrite Hp.
  - right. exists n, b. split_and!; [lia|done|done|done].
Qed.

Lemma relinked_snoc src done p p' tl :
  set_next 0 p' = set_next 0 p -> relinked src (done ++ p :: tl) -> relinked src ((done ++ [p']) ++ tl).
Proof. unfold relinked. intros Hp ->. rewrite <- app_assoc, !fmap_app. simpl. by rewrite Hp. Qed.

Lemma geometry_trans ht ht1 :
  geometry ht -> same_setup ht ht1 -> length (arData ht1) = length (arData ht) -> geometry ht1.
Proof.
  intros (G1 & G2 & G3) (_ & _ & H3 & H4 & _) Hl. unfold geometry. rewrite H3, H4, Hl. done.
Qed.

Lemma rehash_loop_spec src pk holes fuel ht done todo rest :
  geometry ht -> todo <> [] -> (length todo <= fuel)%nat -> arData ht = done ++ todo ++ rest ->
  nNumUsed ht = Z.of_nat (length done + length todo) ->
  Forall hash_ok todo -> chained junk (nTableSize ht) (ht_hash ht) done ->
  relinked src (done ++ live todo) ->
  pos_moving done todo (Z.of_nat (length done)) (nInternalPointer ht) pk ->
  (holes = false -> Forall (fun b => undef b = false) todo) ->
  rehashed ht src pk (rehash_loop junk fuel holes (Z.of_nat (length done)) ht).
Proof.
  revert ht done todo. induction fuel as [|fuel IH];
    intros ht done todo Hgeo Hne Hf Hd Hu Hok Hch Hsrc Hpos Hh.
  { destruct todo; [done|simpl in Hf; lia]. }
  destruct todo as [|p todo]; [done|]. clear Hne. cbn [rehash_loop].
  rewrite (bucket_mid ht done p (todo ++ rest)) by done.
  apply Forall_cons in Hok as [Hp Hok]. destruct (holes && undef p) eqn:E.
  - apply andb_true_iff in E as [_ Eu].
    pose proof (compact_spec src pk (Z.to_nat (nNumUsed ht)) ht done [p] todo rest) as Hc.
    replace (Z.of_nat (length done + length [p]) - 1) with (Z.of_nat (length done)) in Hc
      by (simpl; lia).
    apply Hc; try done; clear Hc.
    + rewrite Hu. simpl. lia.
    + rewrite Hu. simpl. lia.
    + unfold live in Hsrc |- *. cbn [List.filter] in Hsrc. by rewrite Eu in Hsrc.
    + replace (Z.of_nat (length done + length [p])) with (Z.of_nat (length done) + 1) by (simpl; lia).
      by apply (pos_moving_hole _ p).
  - assert (Eu : undef p = false).
    { destruct holes; [done|]. specialize (Hh eq_refl). by apply Forall_cons in Hh as [? _]. }
    destruct (link_in_place ht done p (todo ++ rest) Hgeo Hd Hp Eu Hch)
      as (p' & Hp' & Hd1 & Hss & Hu1 & Hch1 & Hptr).
    set (ht1 := link junk _ ht) in *.
    assert (Hsrc1 : relinked src ((done ++ [p']) ++ live todo)).
    { apply (relinked_snoc _ _ p); [done|]. unfold live in Hsrc |- *. cbn [List.filter] in Hsrc.
      by rewrite Eu in Hsrc. }
    assert (Hpos1 : pos_moving (done ++ [p']) todo (Z.of_nat (length (done ++ [p']))) (nInternalPointer ht1) pk).
    { rewrite Hptr, length_app. replace (Z.of_nat (length done + length [p']))
        with (Z.of_nat (length done) + 1) by (simpl; lia). by apply (pos_moving_stay _ p). }
    assert (Hlen : length (arData ht1) = length (arData ht)) by (rewrite Hd1, Hd; lens).
    apply (rehashed_trans _ ht1); [done|done|].
    pose proof Hss as (_ & _ & _ & Hs4 & _). rewrite Hu1, Hu. destruct todo as [|p2 todo].
    + rewrite (proj2 (Z.ltb_ge _ _)) by (simpl; lia).
      split; [done|]. exists (done ++ [p']), rest. rewrite Hs4. split_and!; try done.
      * by rewrite Hd1, <- app_assoc.
      * rewrite Hu1, Hu. lens.
      * by rewrite app_nil_r in Hsrc1.
      * destruct pk as [k|]; [|done]. destruct Hpos1 as [Hl|(n & b & _ & Hn & _)]; [exact Hl|done].
    + rewrite (proj2 (Z.ltb_lt _ _)) by (simpl; lia).
      replace (Z.of_nat (length done) + 1) with (Z.of_nat (length (done ++ [p']))) by lens.
      apply (IH ht1 (done ++ [p']) (p2 :: todo)); try done.
      * by apply (geometry_trans ht).
      * simpl in Hf |- *. lia.
      * by rewrite Hd1, <- app_assoc.
      * rewrite Hu1, Hu. lens.
      * intros E'. specialize (Hh E'). by apply Forall_cons in Hh as [_ ?].
Qed.
End Repr.
