(* ===== verification/ZendHashMap.v ===== *)
(** * ZendHashMap: growth, search and insertion on the ordered map

    They keep the representation of ZendHashOps and do to the map what their
    specifications say ([a_add_or_update], [a_find]). *)

From S2P Require Import Prelude ZendHash ZendHashList ZendHashOps.

Section Operations.
Context {V : Type} (junk : Bucket V).
Implicit Types (ht : HashTable V) (b : Bucket V) (bs rest : list (Bucket V)) (m : amap V) (k : key).

#[local] Abbreviation repr := (repr junk).

(** ** Rehashing and growth *)

Lemma entries_length bs : (length (entries bs) <= length bs)%nat /\
  (length (entries bs) = length bs -> Forall (fun b => undef b = false) bs).
Proof.
  induction bs as [|b bs [IH1 IH2]]; [split; [done|constructor]|].
  change (b :: bs) with ([b] ++ bs). rewrite entries_app, length_app.
  destruct (b_val b) as [v|] eqn:E.
  - rewrite (entries_live b v E). simpl. split; [lia|]. intros H. constructor; [|by apply IH2; lia].
    unfold undef. by rewrite E.
  - rewrite entries_undef by (unfold undef; by rewrite E). simpl. split; [lia|]. lia.
Qed.

Lemma entries_live_length bs : length (entries bs) = length (live bs).
Proof.
  induction bs as [|b bs IH]; [done|]. change (b :: bs) with ([b] ++ bs).
  rewrite live_app, entries_app, !length_app, IH. f_equal. unfold live. cbn [List.filter].
  unfold undef. destruct (b_val b) as [v|] eqn:E; [by rewrite (entries_live b v E)|].
  rewrite entries_undef; [done|]. unfold undef. by rewrite E.
Qed.

Lemma entries_nil bs : entries bs = [] -> Forall (fun b => undef b = true) bs.
Proof.
  intros H. apply Forall_lookup. intros n b Hn. destruct (undef b) eqn:E; [done|].
  unfold undef in E. destruct (b_val b) as [v|] eqn:Ev; [|done].
  rewrite (entries_split _ _ _ _ Hn Ev) in H. by destruct (entries (take n bs)).
Qed.

Lemma hash_ok_next b n : hash_ok (set_next n b) <-> hash_ok b.
Proof. done. Qed.

Lemma Forall_live (P : Bucket V -> Prop) bs : Forall P bs -> Forall P (live bs).
Proof.
  unfold live. induction 1 as [|b bs Hb _ IH]; [constructor|]. cbn [List.filter].
  destruct (negb (undef b)); [by constructor|done].
Qed.

(** What is known after a rehash. *)
Lemma rehashed_repr ht bs rest m ht' :
  base ht bs rest m -> f_initialized ht = true -> f_packed ht = false ->
  nTableMask ht = 2 ^ 32 - nTableSize ht ->
  rehashed junk ht (live bs) (m_pos m) ht' ->
  exists bs' rest', repr ht' bs' rest' m /\ relinked (live bs) bs'.
Proof.
  intros Hb Hi Hp Hm [(S1 & S2 & S3 & S4 & S5 & S6) (bs' & rest' & H1 & H2 & H3 & H4 & H5 & H6)].
  exists bs', rest'. split; [|done].
  assert (He : entries bs' = entries bs) by by rewrite <- (relinked_entries _ _ H4), entries_live_eq.
  split.
  - split; rewrite ?S2, ?S3, ?S4, ?S5, ?S6, ?He; try by apply Hb.
    + done.
    + done.
    + intros _. rewrite <- (r_room _ _ _ _ Hb Hi). rewrite <- !length_app, <- H1, H2.
      by rewrite (r_data _ _ _ _ Hb).
    + apply (relinked_Forall hash_ok (live bs)); [apply hash_ok_next|done|].
      apply Forall_live, Hb.
    + done.
  - apply mode_hash; [by rewrite S2|by rewrite S1|by rewrite S3, S4|by rewrite S4].
Qed.

Lemma rehash_repr ht bs rest m :
  base ht bs rest m -> f_initialized ht = true -> f_packed ht = false ->
  nTableMask ht = 2 ^ 32 - nTableSize ht ->
  exists bs' rest', repr (zend_hash_rehash junk ht) bs' rest' m /\ relinked (live bs) bs' /\
    same_setup ht (zend_hash_rehash junk ht).
Proof.
  intros Hb Hi Hp Hm. pose proof (power_bounds _ (r_size _ _ _ _ Hb)) as Hsz.
  pose proof (r_room _ _ _ _ Hb Hi) as Hroom. pose proof (r_elems _ _ _ _ Hb) as Hel.
  assert (Hreset : replicate (Z.to_nat (2 ^ 32 - nTableMask ht)) HT_INVALID_IDX =
    replicate (Z.to_nat (nTableSize ht)) HT_INVALID_IDX) by (rewrite Hm; do 2 f_equal; lia).
  assert (Hre : rehashed junk ht (live bs) (m_pos m) (zend_hash_rehash junk ht)).
  { unfold zend_hash_rehash. destruct (Z.eqb_spec (nNumOfElements ht) 0) as [E0|E0].
    - rewrite Hi. assert (En : entries bs = []) by (apply nil_length_inv; lia).
      pose proof (entries_nil bs En) as Hu.
      assert (Hl : live bs = []).
      { clear - Hu. unfold live. induction Hu as [|b bs Hb _ IH]; [done|]. simpl. by rewrite Hb. }
      split; [done|]. exists [], (bs ++ rest). rewrite Hl. split_and!; try done.
      + by apply (r_data _ _ _ _ Hb).
      + unfold HT_HASH_RESET. cbn [ht_hash set_hash]. 
        change (nTableMask (set_used 0 ht)) with (nTableMask ht). rewrite Hreset. apply chained_empty. lia.
      + pose proof (r_pos _ _ _ _ Hb) as Hpos. destruct (m_pos m) as [k|]; [|done].
        destruct Hpos as (n & b & _ & Hn & Hb' & _). rewrite Forall_lookup in Hu.
        specialize (Hu n b Hn). congruence.
    - assert (Hne : bs <> []) by (intros ->; simpl in Hel; lia).
      apply (rehashed_trans junk ht (HT_HASH_RESET ht)); [done|done|].
      apply (rehash_loop_spec junk (live bs) (m_pos m) _ _ (HT_HASH_RESET ht) [] bs rest); try done.
      + split_and!; [apply Hb|done|]. change (arData (HT_HASH_RESET ht)) with (arData ht).
        change (nTableSize (HT_HASH_RESET ht)) with (nTableSize ht).
        rewrite (r_data _ _ _ _ Hb), length_app. lia.
      + change (nNumUsed (HT_HASH_RESET ht)) with (nNumUsed ht). rewrite (r_used _ _ _ _ Hb). lia.
      + by apply (r_data _ _ _ _ Hb).
      + by apply (r_used _ _ _ _ Hb).
      + apply Hb.
      + unfold HT_HASH_RESET. cbn [ht_hash set_hash]. rewrite Hreset.
        change (nTableSize (set_hash _ ht)) with (nTableSize ht). apply chained_empty. lia.
      + pose proof (r_pos _ _ _ _ Hb) as Hpos. destruct (m_pos m) as [k|]; [|done].
        right. done.
      + intros Hh. apply negb_false_iff, Z.eqb_eq in Hh.
        change (nNumUsed (HT_HASH_RESET ht)) with (nNumUsed ht) in Hh.
        change (nNumOfElements (HT_HASH_RESET ht)) with (nNumOfElements ht) in Hh.
        rewrite (r_used _ _ _ _ Hb) in Hh. apply entries_length. lia. }
  pose proof (rh_setup _ _ _ _ _ Hre) as Hss.
  destruct (rehashed_repr _ _ _ _ _ Hb Hi Hp Hm Hre) as (bs' & rest' & H1 & H2). eauto.
Qed.

Lemma base_move ht ht1 bs rest rest1 m :
  base ht bs rest m -> arData ht1 = bs ++ rest1 -> nNumUsed ht1 = nNumUsed ht ->
  power_of_two (nTableSize ht1) -> Z.of_nat (length bs + length rest1) = nTableSize ht1 ->
  nNumOfElements ht1 = nNumOfElements ht -> nNextFreeElement ht1 = nNextFreeElement ht ->
  nInternalPointer ht1 = nInternalPointer ht -> base ht1 bs rest1 m.
Proof.
  intros Hb H1 H2 H3 H4 H5 H6 H7. split; rewrite ?H2, ?H5, ?H6, ?H7; try by apply Hb.
  - done.
  - done.
  - done.
Qed.

Lemma regrow_eq ht bs rest m size : base ht bs rest m -> nNumUsed ht <= size ->
  regrow junk size ht = bs ++ replicate (Z.to_nat (size - nNumUsed ht)) junk /\
  Z.of_nat (length bs + length (replicate (Z.to_nat (size - nNumUsed ht)) junk)) = size.
Proof.
  intros Hb Hs. pose proof (r_used _ _ _ _ Hb) as Hu. split.
  - unfold regrow. rewrite (r_data _ _ _ _ Hb), Hu, Nat2Z.id, take_app_length. done.
  - rewrite length_replicate. lia.
Qed.

Lemma used_le_size ht bs rest m :
  base ht bs rest m -> f_initialized ht = true -> nNumUsed ht <= nTableSize ht.
Proof. intros Hb Hi. pose proof (r_room _ _ _ _ Hb Hi). rewrite (r_used _ _ _ _ Hb). lia. Qed.

Lemma mask_of_size size : power_of_two size -> u32 (- size) = 2 ^ 32 - size.
Proof.
  intros H. apply power_bounds in H. unfold u32.
  rewrite <- (Z.mod_unique_pos (- size) (2 ^ 32) (-1) (2 ^ 32 - size)); lia.
Qed.

(** A table that is not packed, with memory for another bucket. *)
Definition ready ht m : Prop :=
  exists bs rest, repr ht bs rest m /\ f_initialized ht = true /\ f_packed ht = false /\ rest <> [].

Lemma packed_to_hash_repr ht bs rest m :
  base ht bs rest m -> f_initialized ht = true ->
  exists bs' rest', repr (zend_hash_packed_to_hash junk ht) bs' rest' m /\
    f_initialized (zend_hash_packed_to_hash junk ht) = true /\
    f_packed (zend_hash_packed_to_hash junk ht) = false.
Proof.
  intros Hb Hi. pose proof (used_le_size _ _ _ _ Hb Hi) as Hu. unfold zend_hash_packed_to_hash.
  destruct (regrow_eq _ _ _ _ _ Hb Hu) as [Hr Hl]. set (ht1 := set_arData _ _).
  assert (Hb1 : base ht1 bs (replicate (Z.to_nat (nTableSize ht - nNumUsed ht)) junk) m)
    by (apply (base_move ht _ _ rest); try done; apply Hb).
  destruct (rehash_repr _ _ _ _ Hb1 Hi eq_refl) as (bs' & rest' & H1 & _ & (S1 & S2 & _)).
  { change (nTableMask ht1) with (u32 (- nTableSize ht)). change (nTableSize ht1) with (nTableSize ht).
    apply mask_of_size, Hb. }
  exists bs', rest'. by rewrite S1, S2.
Qed.

(** More than [2 ^ 30] entries. *)
Definition too_large m : Prop := 2 ^ 30 < Z.of_nat (length (m_list m)).

Lemma elements_length ht bs rest m : base ht bs rest m -> nNumOfElements ht = Z.of_nat (length (m_list m)).
Proof. intros Hb. rewrite (r_list _ _ _ _ Hb). apply Hb. Qed.

(** Resizing makes room, unless the table is too large. *)
Lemma do_resize_ready ht bs rest m :
  repr ht bs rest m -> f_initialized ht = true -> f_packed ht = false ->
  nTableSize ht <= nNumUsed ht ->
  match zend_hash_do_resize junk ht with
  | Some ht' => ready ht' m
  | None => too_large m
  end.
Proof.
  intros [Hb Hmode] Hi Hp Hfull. pose proof (used_le_size _ _ _ _ Hb Hi) as Hu.
  pose proof (power_bounds _ (r_size _ _ _ _ Hb)) as Hsz.
  assert (Hmask : nTableMask ht = 2 ^ 32 - nTableSize ht) by (destruct Hmode; congruence).
  pose proof (r_elems _ _ _ _ Hb) as Hel. unfold zend_hash_do_resize.
  rewrite Z.shiftr_div_pow2 by done.
  destruct (Z.ltb_spec (nNumOfElements ht + nNumOfElements ht / 2 ^ 5) (nNumUsed ht)) as [Hholes|Hfew].
  - destruct (rehash_repr _ _ _ _ Hb Hi Hp Hmask) as (bs' & rest' & H1 & H2 & (S1 & S2 & _ & S4 & _)).
    exists bs', rest'. rewrite S1, S2. split_and!; try done. intros ->.
    pose proof (r_room _ _ _ _ (proj1 H1)) as Hroom. rewrite S2, S4 in Hroom. specialize (Hroom Hi).
    apply relinked_length in H2. simpl in Hroom.
    pose proof (entries_live_length bs).
    assert (0 <= nNumOfElements ht / 2 ^ 5) by (apply Z.div_pos; lia). lia.
  - destruct (Z.ltb_spec (nTableSize ht) HT_MAX_SIZE) as [Hmax|Hmax].
    + pose proof (r_size _ _ _ _ Hb) as (e & He & Hs).
      assert (Hp2 : power_of_two (nTableSize ht + nTableSize ht)).
      { exists (e + 1). rewrite Hs, Z.pow_add_r by lia. split; [|lia].
        enough (e < 31) by lia. apply (Z.pow_lt_mono_r_iff 2); [lia|lia|]. rewrite <- Hs. exact Hmax. }
      destruct (regrow_eq ht bs rest m (nTableSize ht + nTableSize ht) Hb ltac:(lia)) as [Hr Hl].
      set (ht1 := set_arData _ _).
      set (rest1 := replicate (Z.to_nat (nTableSize ht + nTableSize ht - nNumUsed ht)) junk) in *.
      assert (Hb1 : base ht1 bs rest1 m) by (apply (base_move ht _ _ rest); done).
      destruct (rehash_repr _ _ _ _ Hb1 Hi Hp) as (bs' & rest' & H1 & H2 & (S1 & S2 & _ & S4 & _)).
      { change (nTableMask ht1) with (u32 (- (nTableSize ht + nTableSize ht))). by apply mask_of_size. }
      exists bs', rest'. rewrite S1, S2. split_and!; try done. intros ->.
      pose proof (r_room _ _ _ _ (proj1 H1)) as Hroom. rewrite S2, S4 in Hroom. specialize (Hroom Hi).
      apply relinked_length in H2. simpl in Hroom.
      pose proof (entries_live_length bs). pose proof (proj1 (entries_length bs)).
      change (nTableSize ht1) with (nTableSize ht + nTableSize ht) in Hroom.
      rewrite (r_used _ _ _ _ Hb) in Hu. lia.
    + unfold too_large, HT_MAX_SIZE in *. rewrite <- (elements_length _ _ _ _ Hb).
      pose proof (Z.div_mod (nNumOfElements ht) (2 ^ 5)). pose proof (Z.mod_pos_bound (nNumOfElements ht) (2 ^ 5)).
      lia.
Qed.

Lemma if_full_ready ht bs rest m :
  repr ht bs rest m -> f_initialized ht = true -> f_packed ht = false ->
  match if_full_do_resize junk ht with
  | Some ht' => ready ht' m
  | None => too_large m
  end.
Proof.
  intros Hr Hi Hp. unfold if_full_do_resize. destruct (Z.leb_spec (nTableSize ht) (nNumUsed ht)).
  - by eapply do_resize_ready.
  - exists bs, rest. split_and!; try done. intros ->. destruct Hr as [Hb _].
    pose proof (r_room _ _ _ _ Hb Hi) as Hroom. rewrite (r_used _ _ _ _ Hb) in *. simpl in Hroom. lia.
Qed.

(** ** Lookup *)

Lemma find_in_chain_list fuel test ht start l :
  chain (fun i => b_next (bucket junk ht i)) start l -> Forall (fun i => 0 <= i < HT_INVALID_IDX) l ->
  (length l < fuel)%nat ->
  find_in_chain junk fuel test ht start = List.find (fun i => test (bucket junk ht i)) l.
Proof.
  revert fuel start. induction l as [|i l IH]; intros [|fuel] start Hc Hl Hf; try (simpl in Hf; lia).
  - simpl in Hc. subst start. done.
  - destruct Hc as [-> Hc]. apply Forall_cons in Hl as [Hi Hl]. cbn [find_in_chain List.find].
    destruct (Z.eqb_spec i HT_INVALID_IDX); [lia|]. destruct (test (bucket junk ht i)); [done|].
    apply IH; [done|done|]. simpl in Hf. lia.
Qed.

Definition find_key ht k : option Z :=
  match k with
  | KStr s => zend_hash_find_bucket junk ht s
  | KIdx h => zend_hash_index_find_bucket junk ht h
  end.

Lemma find_key_eq ht k :
  find_key ht k = find_in_chain junk (chain_fuel ht) (key_test k) ht
    (HT_HASH ht (hash_index ht (khash k))).
Proof. by destruct k. Qed.

(** A key that can be hashed. *)
Definition key_ok k : Prop := 0 <= khash k < 2 ^ 64.

(** What a search promises. *)
Definition found bs k (r : option Z) : Prop :=
  match r with
  | Some i => exists n b, i = Z.of_nat n /\ bs !! n = Some b /\ undef b = false /\ bkey b = k
  | None => k ∉ (entries bs).*1
  end.

Lemma bucket_used ht bs rest n b : arData ht = bs ++ rest -> bs !! n = Some b ->
  bucket junk ht (Z.of_nat n) = b.
Proof. intros Hd Hn. apply bucket_lookup. rewrite Hd. by apply lookup_app_l_Some. Qed.

(** The chain of a key, as the walk over the table sees it. *)
Lemma walk_chain ht bs rest m k (l := slot_list (nTableSize ht) (khash k `mod` nTableSize ht) bs) :
  repr ht bs rest m -> f_initialized ht = true -> f_packed ht = false -> key_ok k ->
  hash_index ht (khash k) - nTableMask ht = khash k `mod` nTableSize ht /\
  chain (fun i => b_next (bucket junk ht i)) (HT_HASH ht (hash_index ht (khash k))) l /\
  (forall i, i ∈ l -> bucket junk ht i = nth (Z.to_nat i) bs junk) /\
  Forall (fun i => 0 <= i < HT_INVALID_IDX) l /\ (length l < chain_fuel ht)%nat.
Proof.
  intros [Hb Hmode] Hi Hp Hk. destruct Hmode as [?| |_ _ Hmask Hch]; [congruence|congruence|].
  pose proof (used_le_size _ _ _ _ Hb Hi) as Hu. pose proof (r_used _ _ _ _ Hb) as Hlen.
  pose proof (power_bounds _ (r_size _ _ _ _ Hb)) as Hsz.
  assert (Hslot : hash_index ht (khash k) - nTableMask ht = khash k `mod` nTableSize ht)
    by (apply hash_index_slot; [apply Hb|done|apply Hk]).
  assert (Hbk : forall i, i ∈ l -> bucket junk ht i = nth (Z.to_nat i) bs junk).
  { intros i Hin. apply slot_list_bounds in Hin. unfold bucket. rewrite (r_data _ _ _ _ Hb).
    by rewrite app_nth1 by lia. }
  split; [done|]. split; [|split; [done|split]].
  - destruct Hch as [_ Hch]. unfold HT_HASH. rewrite Hslot.
    apply (chain_ext (bnext junk bs)); [|apply Hch; apply Z.mod_pos_bound; lia].
    intros i Hin. unfold bnext. by rewrite Hbk.
  - apply Forall_forall. intros i Hin. apply slot_list_bounds in Hin. unfold HT_INVALID_IDX. lia.
  - pose proof (slot_list_length (nTableSize ht) (khash k `mod` nTableSize ht) bs) as Hl.
    fold l in Hl. unfold chain_fuel. lia.
Qed.

Lemma find_key_hash ht bs rest m k :
  repr ht bs rest m -> f_initialized ht = true -> f_packed ht = false -> key_ok k ->
  found bs k (find_key ht k).
Proof.
  intros Hr Hi Hp Hk. destruct (walk_chain _ _ _ _ _ Hr Hi Hp Hk) as (_ & Hc & Hbk & Hl & Hf).
  rewrite find_key_eq, (find_in_chain_list _ _ _ _ _ Hc Hl Hf).
  assert (E : forall l, (forall i, i ∈ l -> bucket junk ht i = nth (Z.to_nat i) bs junk) ->
    List.find (fun i => key_test k (bucket junk ht i)) l =
    List.find (fun i => key_test k (nth (Z.to_nat i) bs junk)) l).
  { intros l. induction l as [|i l IH]; intros H; [done|]. simpl. rewrite H by left.
    destruct (key_test k (nth (Z.to_nat i) bs junk)); [done|]. apply IH. intros j Hj. apply H. by right. }
  rewrite E by done. apply slot_search. apply Hr.
Qed.

(** In a new or packed table every chain is empty. *)
Lemma find_key_none ht k : ht_hash ht = [HT_INVALID_IDX; HT_INVALID_IDX] -> find_key ht k = None.
Proof.
  intros H. rewrite find_key_eq. unfold HT_HASH. rewrite H. unfold chain_fuel. cbn [find_in_chain].
  assert (E : forall n, nth n [HT_INVALID_IDX; HT_INVALID_IDX] HT_INVALID_IDX = HT_INVALID_IDX)
    by (intros [|[|n]]; [done|done|by destruct n]).
  by rewrite E, Z.eqb_refl.
Qed.

Lemma alookup_bucket bs n b : NoDup (entries bs).*1 -> bs !! n = Some b -> undef b = false ->
  alookup (bkey b) (entries bs) = b_val b.
Proof.
  intros Hnd Hn Hu. unfold undef in Hu. destruct (b_val b) as [v|] eqn:E; [|done].
  rewrite (entries_split _ _ _ _ Hn E) in Hnd |- *.
  rewrite fmap_app, fmap_cons in Hnd. apply NoDup_app in Hnd as (_ & Hnd & _).
  apply alookup_mid. intros Hk. apply (Hnd _ Hk). left.
Qed.

Lemma found_lookup ht bs rest m k r :
  base ht bs rest m -> found bs k r ->
  (idx ← r; b_val (bucket junk ht idx)) = a_find k m.
Proof.
  intros Hb Hf. unfold a_find. rewrite (r_list _ _ _ _ Hb). destruct r as [i|]; simpl in *.
  - destruct Hf as (n & b & -> & Hn & Hu & <-).
    rewrite (bucket_used _ _ _ _ _ (r_data _ _ _ _ Hb) Hn). symmetry.
    by apply (alookup_bucket bs n); [apply Hb|..].
  - symmetry. apply alookup_None. exact Hf.
Qed.

(** In a packed table string keys are absent, integer keys are positions. *)
Lemma packed_found bs k :
  packed_ok bs -> key_ok k ->
  found bs k (match k with
              | KStr _ => None
              | KIdx h => match bs !! Z.to_nat h with
                          | Some b => if undef b then None else Some h
                          | None => None
                          end
              end).
Proof.
  intros Hp Hk. destruct k as [s|h]; cbn [found khash] in *.
  - intros H. apply elem_of_keys in H as (n & b & Hn & Hu & E). destruct (Hp n b Hn Hu) as [H _].
    unfold bkey in E. by rewrite H in E.
  - assert (Hno : forall n b, bs !! n = Some b -> undef b = false -> bkey b = KIdx h -> n = Z.to_nat h).
    { intros n b Hn Hu E. destruct (Hp n b Hn Hu) as [H1 H2]. unfold bkey in E. rewrite H1 in E.
      injection E as E. lia. }
    destruct (bs !! Z.to_nat h) as [b|] eqn:E; [destruct (undef b) eqn:Eu|]; cbn [found].
    + intros H. apply elem_of_keys in H as (n & b' & Hn & Hu & Ek). rewrite (Hno _ _ Hn Hu Ek) in Hn. congruence.
    + exists (Z.to_nat h), b. destruct (Hp _ _ E Eu) as [H1 H2]. unfold bkey. rewrite H1.
      unfold key_ok in Hk. simpl in Hk. split_and!; try done; [lia|f_equal; lia].
    + intros H. apply elem_of_keys in H as (n & b' & Hn & Hu & Ek). rewrite (Hno _ _ Hn Hu Ek) in Hn. congruence.
Qed.

Lemma zend_hash_find_spec ht bs rest m s :
  repr ht bs rest m -> key_ok (KStr s) -> zend_hash_find junk ht s = a_find (KStr s) m.
Proof.
  intros Hr Hk. apply (found_lookup ht bs rest m (KStr s) (find_key ht (KStr s))); [apply Hr|].
  destruct Hr as [Hb Hmode]. destruct Hmode as [? ? ? Hh ->|? ? ? Hh Hp|Hi Hp Hm Hc].
  - rewrite find_key_none by done. simpl. apply not_elem_of_nil.
  - rewrite find_key_none by done. by apply (packed_found bs (KStr s)).
  - apply (find_key_hash _ _ rest m); try done. split; [done|by apply mode_hash].
Qed.

Lemma packed_bucket ht bs rest h : arData ht = bs ++ rest -> nNumUsed ht = Z.of_nat (length bs) ->
  0 <= h -> (h <? nNumUsed ht) = true ->
  exists b, bs !! Z.to_nat h = Some b /\ bucket junk ht h = b.
Proof.
  intros Hd Hu H0 Hh. apply Z.ltb_lt in Hh.
  destruct (lookup_lt_is_Some_2 bs (Z.to_nat h)) as [b Hb]; [lia|]. exists b. split; [done|].
  rewrite <- (bucket_used _ _ _ _ _ Hd Hb). f_equal. lia.
Qed.

Lemma zend_hash_index_find_spec ht bs rest m h :
  repr ht bs rest m -> key_ok (KIdx h) -> zend_hash_index_find junk ht h = a_find (KIdx h) m.
Proof.
  intros Hr Hk. pose proof Hr as [Hb Hmode]. unfold zend_hash_index_find.
  destruct (f_packed ht) eqn:Ep.
  - destruct Hmode as [|Hi _ _ _ Hp|]; [congruence| |congruence].
    pose proof (packed_found bs (KIdx h) Hp Hk) as Hf. cbn [found] in Hf.
    rewrite <- (found_lookup _ _ _ _ _ _ Hb Hf).
    destruct (h <? nNumUsed ht) eqn:Eh.
    + destruct (packed_bucket ht bs rest h (r_data _ _ _ _ Hb) (r_used _ _ _ _ Hb)) as (b & Hn & Hbk);
        [apply Hk|done|]. rewrite Hn, Hbk. unfold undef. destruct (b_val b) eqn:E; [|done]. simpl.
      by rewrite Hbk.
    + rewrite lookup_ge_None_2; [done|]. rewrite (r_used _ _ _ _ Hb) in Eh. unfold key_ok in Hk.
      simpl in Hk. lia.
  - apply (found_lookup ht bs rest m (KIdx h) (find_key ht (KIdx h))); [done|].
    destruct Hmode as [? ? ? Hh ->|? ? ? Hh Hp|Hi Hp Hm Hc]; [|congruence|].
    + rewrite find_key_none by done. simpl. apply not_elem_of_nil.
    + by apply (find_key_hash _ _ rest m).
Qed.

(** ** Changing a value in its place *)

Lemma list_insert_mid {A} (l : list A) n x y : l !! n = Some x ->
  <[n := y]> l = take n l ++ y :: drop (S n) l.
Proof. intros H. apply insert_take_drop. by apply lookup_lt_Some in H. Qed.

Lemma entries_set_val bs n b v : NoDup (entries bs).*1 -> bs !! n = Some b -> undef b = false ->
  entries (<[n := set_val (Some v) b]> bs) = aupdate (bkey b) v (entries bs).
Proof.
  intros Hnd Hn Hu. unfold undef in Hu. destruct (b_val b) as [v0|] eqn:E; [|done].
  rewrite (list_insert_mid _ _ _ _ Hn).
  change (set_val (Some v) b :: drop (S n) bs) with ([set_val (Some v) b] ++ drop (S n) bs).
  rewrite !entries_app, (entries_live (set_val (Some v) b) v) by done.
  change (bkey (set_val (Some v) b)) with (bkey b).
  rewrite (entries_split _ _ _ _ Hn E) in Hnd |- *. rewrite fmap_app, fmap_cons in Hnd.
  apply NoDup_app in Hnd as (_ & Hnd1 & Hnd2). apply NoDup_cons in Hnd2 as [Hnd2 _].
  rewrite aupdate_mid; [done| |done]. intros Hk. apply (Hnd1 _ Hk). left.
Qed.

Lemma aupdate_keys k v (l : list (key * V)) : (aupdate k v l).*1 = l.*1.
Proof.
  unfold aupdate. induction l as [|e l IH]; [done|]. rewrite !fmap_cons, IH. f_equal.
  by case_decide.
Qed.

Lemma pos_ok_set_val bs n b v ptr pk : bs !! n = Some b -> undef b = false ->
  pos_ok bs ptr pk -> pos_ok (<[n := set_val (Some v) b]> bs) ptr pk.
Proof.
  intros Hn Hu. destruct pk as [k|]; [|done]. intros (n' & b' & -> & Hn' & Hu' & Hk').
  destruct (decide (n' = n)) as [->|Hne].
  - rewrite Hn in Hn'. injection Hn' as <-. exists n, (set_val (Some v) b). split_and!; try done.
    apply list_lookup_insert_eq. by apply lookup_lt_Some in Hn.
  - exists n', b'. split_and!; try done. by rewrite list_lookup_insert_ne.
Qed.

Lemma Forall_insert_hash_ok bs n b : Forall hash_ok bs -> hash_ok b -> Forall hash_ok (<[n := b]> bs).
Proof. intros H Hb. by apply Forall_insert. Qed.

Lemma set_bucket_used ht bs rest n b b' : arData ht = bs ++ rest -> bs !! n = Some b ->
  set_bucket (Z.of_nat n) b' ht = set_arData (<[n := b']> bs ++ rest) ht.
Proof.
  intros Hd Hn. unfold set_bucket. rewrite Hd, Nat2Z.id, insert_app_l; [done|].
  by apply lookup_lt_Some in Hn.
Qed.

Lemma replace_repr ht bs rest m n b v :
  repr ht bs rest m -> bs !! n = Some b -> undef b = false ->
  repr (set_bucket (Z.of_nat n) (set_val (Some v) b) ht) (<[n := set_val (Some v) b]> bs) rest
    (AM V (aupdate (bkey b) v (m_list m)) (m_free m) (m_pos m)).
Proof.
  intros [Hb Hmode] Hn Hu. rewrite (set_bucket_used _ _ _ _ _ _ (r_data _ _ _ _ Hb) Hn).
  pose proof (entries_set_val bs n b v (r_nodup _ _ _ _ Hb) Hn Hu) as He.
  split.
  - split; cbn [m_list m_free m_pos]; rewrite ?He, ?length_insert, ?aupdate_keys; try by apply Hb.
    + done.
    + pose proof (r_elems _ _ _ _ Hb) as Hel. rewrite <- (length_fmap fst), aupdate_keys, length_fmap. exact Hel.
    + by rewrite (r_list _ _ _ _ Hb).
    + apply Forall_insert_hash_ok; [apply Hb|]. intros _.
      pose proof (r_hash _ _ _ _ Hb) as Hh. rewrite Forall_lookup in Hh. exact (Hh n b Hn Hu).
    + apply pos_ok_set_val; [done|done|apply Hb].
  - destruct Hmode as [? ? ? Hh Hbs|H1 H2 H3 H4 Hp|H1 H2 H3 Hc].
    + subst bs. done.
    + apply mode_packed; [exact H1|exact H2|exact H3|exact H4|]. intros n' b' Hn' Hu'.
      apply list_lookup_insert_Some in Hn' as [(<- & <- & _)|[_ Hn']]; [by apply (Hp n b)|by apply (Hp n' b')].
    + apply mode_hash; [exact H1|exact H2|exact H3|]. by apply chained_set_val.
Qed.

Lemma note_index_repr ht bs rest m h :
  repr ht bs rest m -> 0 <= h < 2 ^ 64 ->
  repr (note_index h ht) bs rest (AM V (m_list m) (free_after (KIdx h) (m_free m)) (m_pos m)).
Proof.
  intros [Hb Hmode] Hh. unfold note_index, free_after. pose proof (r_free _ _ _ _ Hb) as Hfr.
  rewrite Hfr. destruct (m_free m <=? s64 h).
  2: { split; [|done]. split; try by apply Hb. }
  split.
  - split; try by apply Hb; try done.
    + by destruct (h <? ZEND_LONG_MAX).
    + cbn [m_free]. unfold ZEND_LONG_MAX. destruct (Z.ltb_spec h (2 ^ 63 - 1)); lia.
  - destruct Hmode; [by apply mode_new|by apply mode_packed|by apply mode_hash].
Qed.

(** ** Insertion *)

Definition kstr k : option (list Z) := match k with KStr s => Some s | KIdx _ => None end.

Lemma note_index_eq h ht :
  note_index h ht = set_next_free (free_after (KIdx h) (nNextFreeElement ht)) ht.
Proof.
  unfold note_index, free_after. destruct (nNextFreeElement ht <=? s64 h); [done|]. by destruct ht.
Qed.

Lemma count_bucket_eq idx ht :
  count_bucket idx ht =
  set_pointer (if nInternalPointer ht =? HT_INVALID_IDX then idx else nInternalPointer ht)
    (set_elements (nNumOfElements ht + 1) ht).
Proof.
  unfold count_bucket. change (nInternalPointer (set_elements ?x ht)) with (nInternalPointer ht).
  destruct (nInternalPointer ht =? HT_INVALID_IDX); [done|]. by destruct ht.
Qed.

Lemma free_after_range k free : 0 <= khash k -> 0 <= free <= ZEND_LONG_MAX ->
  0 <= free_after k free <= ZEND_LONG_MAX.
Proof.
  intros Hk Hf. destruct k as [s|h]; [done|]. cbn [free_after khash] in *.
  destruct (free <=? s64 h); [|done]. unfold ZEND_LONG_MAX in *.
  destruct (Z.ltb_spec h (2 ^ 63 - 1)); lia.
Qed.

(** The table counts one more entry, the last of [bs ++ [b]]. *)
Lemma base_snoc ht ht1 bs b rest0 rest m k v :
  base ht bs rest0 m -> f_initialized ht = true -> k ∉ (entries bs).*1 -> key_ok k ->
  b_val b = Some v -> bkey b = k -> b_h b = khash k ->
  arData ht1 = bs ++ b :: rest -> nNumUsed ht1 = nNumUsed ht + 1 -> nTableSize ht1 = nTableSize ht ->
  Z.of_nat (length bs + S (length rest)) = nTableSize ht ->
  nNumOfElements ht1 = nNumOfElements ht + 1 ->
  nNextFreeElement ht1 = free_after k (nNextFreeElement ht) ->
  nInternalPointer ht1 =
    (if nInternalPointer ht =? HT_INVALID_IDX then nNumUsed ht else nInternalPointer ht) ->
  base ht1 (bs ++ [b]) rest (a_insert k v m).
Proof.
  intros Hb Hi Hk Hok Hv Hbk Hbh H1 H2 H3 H4 H5 H6 H7.
  assert (He : entries (bs ++ [b]) = entries bs ++ [(k, v)])
    by by rewrite entries_app, (entries_live b v Hv), Hbk.
  assert (Hu : undef b = false) by (unfold undef; by rewrite Hv).
  pose proof (r_used _ _ _ _ Hb) as Hlen. pose proof (power_bounds _ (r_size _ _ _ _ Hb)) as Hsz.
  split; cbn [a_insert m_list m_free m_pos]; rewrite ?He.
  - by rewrite H1, <- app_assoc.
  - rewrite H2, Hlen, length_app. simpl. lia.
  - rewrite H3. apply Hb.
  - intros _. rewrite H3, <- H4, length_app. simpl. lia.
  - rewrite H5, (r_elems _ _ _ _ Hb), length_app. simpl. lia.
  - by rewrite (r_list _ _ _ _ Hb).
  - rewrite fmap_app. apply NoDup_app. split; [apply Hb|]. split.
    + intros k' Hk' Hin. apply list_elem_of_singleton in Hin. simpl in Hin. by subst k'.
    + simpl. apply NoDup_singleton.
  - apply Forall_app. split; [apply Hb|]. constructor; [|constructor]. intros _.
    by rewrite Hbk, Hbh.
  - by rewrite H6, (r_free _ _ _ _ Hb).
  - apply free_after_range; [apply Hok|apply Hb].
  - rewrite H7. pose proof (r_pos _ _ _ _ Hb) as Hpos. destruct (m_pos m) as [k'|]; cbn [pos_ok] in *.
    + destruct Hpos as (n & b' & Hptr & Hn & Hu' & Hk'). pose proof (lookup_lt_Some _ _ _ Hn).
      exists n, b'. rewrite Hptr. destruct (Z.eqb_spec (Z.of_nat n) HT_INVALID_IDX) as [E|];
        [unfold HT_INVALID_IDX in E; lia|]. split_and!; try done. by apply lookup_app_l_Some.
    + rewrite Hpos, Z.eqb_refl. exists (length bs), b. split_and!; try done.
      by apply list_lookup_middle.
Qed.

(** The new entry is in the bucket that is returned. *)
Definition holds_entry ht idx k v : Prop :=
  b_val (bucket junk ht idx) = Some v /\ bkey (bucket junk ht idx) = k.

Lemma add_to_hash_repr ht m k v :
  ready ht m -> k ∉ (m_list m).*1 -> key_ok k ->
  let '(ht', idx) := add_to_hash junk (khash k) (kstr k) v ht in
  (exists bs' rest', repr ht' bs' rest' (a_insert k v m)) /\ holds_entry ht' idx k v.
Proof.
  intros (bs & rest & [Hb Hmode] & Hi & Hp & Hrest) Hk Hok.
  rewrite (r_list _ _ _ _ Hb) in Hk. destruct rest as [|r rest]; [done|]. clear Hrest.
  destruct Hmode as [|?|_ _ Hmask Hch]; [congruence|congruence|].
  pose proof (r_data _ _ _ _ Hb) as Hd. pose proof (r_used _ _ _ _ Hb) as Hlen.
  pose proof (power_bounds _ (r_size _ _ _ _ Hb)) as Hsz.
  unfold add_to_hash. rewrite count_bucket_eq.
  set (ht2 := match kstr k with Some _ => _ | None => _ end).
  assert (E2 : ht2 = set_next_free (free_after k (nNextFreeElement ht)) (set_pointer
    (if nInternalPointer ht =? HT_INVALID_IDX then nNumUsed ht else nInternalPointer ht)
    (set_elements (nNumOfElements ht + 1) (set_used (nNumUsed ht + 1) ht)))).
  { unfold ht2. destruct k as [s|h]; cbn [kstr]; [by destruct ht|]. by rewrite note_index_eq. }
  rewrite E2. clear ht2 E2. set (ht2 := set_next_free _ _). rewrite Hlen.
  rewrite (set_bucket_mid ht2 bs r _ rest Hd).
  set (b := Bkt V (Some v) _ (khash k) (kstr k)).
  assert (Hbk : bkey b = k) by by destruct k.
  rewrite (link_mid _ _ bs b rest) by (try done; try apply Hb; apply Hok).
  change (ht_hash (set_arData _ ht2)) with (ht_hash ht).
  change (nTableSize (set_arData _ ht2)) with (nTableSize ht). change (b_h b) with (khash k).
  set (n0 := nth _ _ HT_INVALID_IDX). cbn beta iota zeta. set (ht3 := set_hash _ _).
  split.
  - exists (bs ++ [set_next n0 b]), rest. split.
    + apply (base_snoc ht _ bs _ (r :: rest)); try done.
      exact (r_room _ _ _ _ Hb Hi).
    + apply mode_hash; [exact Hi|exact Hp|exact Hmask|].
      apply (chained_snoc junk (nTableSize ht) (ht_hash ht) bs b); [lia|done|done].
  - unfold holds_entry. rewrite (bucket_mid junk ht3 bs (set_next n0 b) rest) by done. done.
Qed.

(** ** New tables *)

Lemma new_base ht bs rest m packed :
  base ht bs rest m -> f_initialized ht = false -> bs = [] ->
  base (zend_hash_real_init_ex junk packed ht) [] (replicate (Z.to_nat (nTableSize ht)) junk) m.
Proof.
  intros Hb Hi ->. pose proof (power_bounds _ (r_size _ _ _ _ Hb)).
  destruct packed; (split; [..|idtac]; try (by apply Hb); try done);
    intros _; rewrite length_replicate; simpl length;
    change (nTableSize (zend_hash_real_init_ex _ _ ht)) with (nTableSize ht); lia.
Qed.

Lemma new_hash_ready ht bs rest m :
  repr ht bs rest m -> f_initialized ht = false -> ready (zend_hash_real_init_ex junk false ht) m.
Proof.
  intros [Hb Hmode] Hi. destruct Hmode as [_ Hp _ _ ->|?|?]; [|congruence|congruence].
  pose proof (power_bounds _ (r_size _ _ _ _ Hb)) as Hsz.
  pose proof (mask_of_size _ (r_size _ _ _ _ Hb)) as Hm.
  exists [], (replicate (Z.to_nat (nTableSize ht)) junk). split_and!; [split|done|done|].
  - by apply (new_base _ [] rest).
  - apply mode_hash; [done|exact Hp|exact Hm|]. cbn [zend_hash_real_init_ex HT_HASH_RESET ht_hash set_hash].
    change (nTableMask (set_initialized _ _)) with (u32 (- nTableSize ht)). rewrite Hm.
    replace (2 ^ 32 - (2 ^ 32 - nTableSize ht)) with (nTableSize ht) by lia. apply chained_empty.
    cbn. lia.
  - intros E. apply (f_equal length) in E. rewrite length_replicate in E. simpl in E. lia.
Qed.

(** ** Insertion into a packed table *)

Lemma undef_gap_eq gap ht l tl :
  arData ht = l ++ gap ++ tl ->
  undef_gap junk (length gap) (Z.of_nat (length l)) ht = set_arData (l ++ (set_val None <$> gap) ++ tl) ht.
Proof.
  revert ht l. induction gap as [|g gap IH]; intros ht l Hd; cbn [length undef_gap].
  - cbn [fmap list_fmap app] in *. rewrite <- Hd. by destruct ht.
  - rewrite (bucket_mid _ _ _ _ _ Hd), (set_bucket_mid _ _ _ _ _ Hd).
    replace (Z.of_nat (length l) + 1) with (Z.of_nat (length (l ++ [set_val None g])))
      by (rewrite length_app; simpl; lia).
    rewrite (IH _ (l ++ [set_val None g])) by (by rewrite <- app_assoc).
    rewrite <- app_assoc. done.
Qed.

Lemma undef_map (gap : list (Bucket V)) : Forall (fun b => undef b = true) (set_val None <$> gap).
Proof. apply Forall_fmap. apply Forall_true. done. Qed.

(** Empty buckets come into use. *)
Lemma base_gap ht bs gap rest m :
  base ht bs (gap ++ rest) m ->
  base (set_used (Z.of_nat (length bs + length gap)) (set_arData (bs ++ (set_val None <$> gap) ++ rest) ht))
    (bs ++ (set_val None <$> gap)) rest m.
Proof.
  intros Hb. assert (He : entries (bs ++ (set_val None <$> gap)) = entries bs).
  { rewrite entries_app, (entries_all_undef (set_val None <$> gap)), app_nil_r by apply undef_map. done. }
  split; rewrite ?He; try by apply Hb.
  - by rewrite <- app_assoc.
  - rewrite length_app, length_fmap. done.
  - intros Hi. pose proof (r_room _ _ _ _ Hb Hi) as Hr. rewrite !length_app, length_fmap in *.
    change (nTableSize (set_used _ _)) with (nTableSize ht). lia.
  - apply Forall_app. split; [apply Hb|]. eapply Forall_impl; [apply undef_map|].
    intros b Hu Hu'. congruence.
  - pose proof (r_pos _ _ _ _ Hb) as Hpos. destruct (m_pos m) as [k|]; [|exact Hpos].
    destruct Hpos as (n & b & H1 & H2 & H3 & H4). exists n, b. split_and!; try done.
    by apply lookup_app_l_Some.
Qed.

Lemma add_to_packed_repr ht bs rest m h v flag :
  repr ht bs rest m -> f_packed ht = true -> KIdx h ∉ (entries bs).*1 -> key_ok (KIdx h) ->
  nNumUsed ht <= h < nTableSize ht ->
  (fl_add_new flag && fl_add_next flag = true -> h = nNumUsed ht) ->
  (exists bs' rest', repr (add_to_packed junk h v flag ht) bs' rest' (a_insert (KIdx h) v m)) /\
  holds_entry (add_to_packed junk h v flag ht) h (KIdx h) v.
Proof.
  intros [Hb Hmode] Hp Hk Hok Hh Hflag.
  destruct Hmode as [|Hi _ Hm Hhash Hpk|]; [congruence| |congruence].
  pose proof (r_used _ _ _ _ Hb) as Hlen. pose proof (r_room _ _ _ _ Hb Hi) as Hroom.
  set (ng := Z.to_nat (h - nNumUsed ht)).
  destruct (drop ng rest) as [|r rest'] eqn:Er.
  { apply (f_equal length) in Er. rewrite length_drop in Er. simpl in Er. lia. }
  set (gap := take ng rest).
  assert (Hrest : rest = gap ++ r :: rest') by (unfold gap; rewrite <- Er; by rewrite take_drop).
  assert (Hgl : length gap = ng) by (unfold gap; rewrite length_take; apply (f_equal length) in Hrest;
    rewrite length_app in Hrest; simpl in Hrest; pose proof (f_equal length Er) as E; rewrite length_drop in E;
    simpl in E; lia).
  pose proof (r_data _ _ _ _ Hb) as Hd. rewrite Hrest in Hb, Hd.
  pose proof (base_gap ht bs gap (r :: rest') m Hb) as Hb1.
  set (gap' := set_val None <$> gap) in *.
  set (htm := set_used _ _) in Hb1.
  unfold add_to_packed.
  set (ht1 := if fl_add_new flag && fl_add_next flag then _ else _).
  assert (E1 : ht1 = set_used (h + 1) (set_arData (bs ++ gap' ++ r :: rest') ht)).
  { unfold ht1. destruct (fl_add_new flag && fl_add_next flag).
    - specialize (Hflag eq_refl). assert (gap = []) as Hg by (apply nil_length_inv; lia).
      unfold gap'. rewrite Hg in Hd |- *. simpl in Hd |- *. rewrite <- Hd. by destruct ht.
    - rewrite (proj2 (Z.leb_le _ _)) by lia. fold ng. rewrite <- Hgl, Hlen.
      by rewrite (undef_gap_eq gap ht bs (r :: rest')). }
  rewrite E1. clear ht1 E1. rewrite count_bucket_eq, note_index_eq.
  set (ht2 := set_next_free _ _).
  assert (Hd2 : arData ht2 = (bs ++ gap') ++ r :: rest') by by rewrite <- app_assoc.
  assert (Hpos : h = Z.of_nat (length (bs ++ gap'))).
  { rewrite length_app. unfold gap'. rewrite length_fmap. lia. }
  set (b := Bkt V (Some v) _ h None).
  assert (Hset : set_bucket h b ht2 = set_arData ((bs ++ gap') ++ b :: rest') ht2)
    by (rewrite Hpos; by apply (set_bucket_mid _ _ r)).
  rewrite Hset. set (ht3 := set_arData _ _). split.
  - exists ((bs ++ gap') ++ [b]), rest'. split.
    + apply (base_snoc htm _ (bs ++ gap') b (r :: rest')); try done.
      * rewrite entries_app, (entries_all_undef gap'), app_nil_r by apply undef_map. done.
      * change (nNumUsed htm) with (Z.of_nat (length bs + length gap)).
        change (nNumUsed ht3) with (h + 1). lia.
      * exact (r_room _ _ _ _ Hb1 Hi).
      * change (nInternalPointer ht3) with
          (if nInternalPointer ht =? HT_INVALID_IDX then h else nInternalPointer ht).
        change (nNumUsed htm) with (Z.of_nat (length bs + length gap)).
        change (nInternalPointer htm) with (nInternalPointer ht).
        by replace (Z.of_nat (length bs + length gap)) with h by lia.
    + apply mode_packed; [exact Hi|exact Hp|exact Hm|exact Hhash|].
      intros n b' Hn Hu. apply lookup_snoc_Some in Hn as [[_ Hn]|[-> <-]].
      * apply lookup_app_Some in Hn as [Hn|[_ Hn]]; [by apply (Hpk n b')|].
        pose proof (undef_map gap) as Hg. rewrite Forall_lookup in Hg. specialize (Hg _ _ Hn). congruence.
      * split; [done|exact Hpos].
  - unfold holds_entry. rewrite Hpos.
    rewrite (bucket_mid junk ht3 (bs ++ gap') b rest') by done. rewrite <- Hpos. done.
Qed.

(** ** The insertions *)

(** Adding or updating, on the map; [true] if the result is not [NULL]. *)
Definition a_add_or_update (flag : add_flags) k v m : amap V * bool :=
  match a_find k m with
  | Some _ => if fl_add flag then (m, false) else (a_replace k v m, true)
  | None => (a_insert k v m, true)
  end.

Definition represents ht m : Prop := exists bs rest, repr ht bs rest m.

(** What an insertion promises; it fails only if the table is too large. *)
Definition insertion_ok m k v (spec : amap V * bool) (r : option (HashTable V * option Z)) : Prop :=
  match r with
  | None => too_large m
  | Some (ht', None) => represents ht' spec.1 /\ spec.2 = false
  | Some (ht', Some idx) => represents ht' spec.1 /\ spec.2 = true /\ holds_entry ht' idx k v
  end.

Lemma a_find_keys m k : (exists v, a_find k m = Some v) <-> k ∈ (m_list m).*1.
Proof.
  unfold a_find. destruct (alookup k (m_list m)) as [v|] eqn:E.
  - split; [|eauto]. intros _. destruct (decide (k ∈ (m_list m).*1)) as [H|H]; [done|].
    apply alookup_None in H. congruence.
  - split; [by intros [v ?]|]. intros H. by apply alookup_None in E.
Qed.

Lemma spec_insert flag k v m : k ∉ (m_list m).*1 -> a_add_or_update flag k v m = (a_insert k v m, true).
Proof.
  intros H. unfold a_add_or_update, a_find. apply alookup_None in H. by rewrite H.
Qed.

Lemma spec_present flag k v m : k ∈ (m_list m).*1 ->
  a_add_or_update flag k v m = if fl_add flag then (m, false) else (a_replace k v m, true).
Proof. intros H. unfold a_add_or_update. by apply a_find_keys in H as [v0 ->]. Qed.

(** A table with room gets the new entry. *)
Lemma add_ready_ok ht m k v flag :
  ready ht m -> k ∉ (m_list m).*1 -> key_ok k ->
  insertion_ok m k v (a_add_or_update flag k v m)
    (Some (let '(ht, idx) := add_to_hash junk (khash k) (kstr k) v ht in (ht, Some idx))).
Proof.
  intros Hr Hk Hok. rewrite spec_insert by done. pose proof (add_to_hash_repr ht m k v Hr Hk Hok) as H.
  destruct (add_to_hash junk (khash k) (kstr k) v ht) as [ht' idx]. by destruct H as [H1 H2].
Qed.

(** A table that may be full is resized first. *)
Lemma full_then_add_ok ht bs rest m k v flag :
  repr ht bs rest m -> f_initialized ht = true -> f_packed ht = false ->
  k ∉ (m_list m).*1 -> key_ok k ->
  insertion_ok m k v (a_add_or_update flag k v m)
    (ht ← if_full_do_resize junk ht;
     Some (let '(ht, idx) := add_to_hash junk (khash k) (kstr k) v ht in (ht, Some idx))).
Proof.
  intros Hr Hi Hp Hk Hok. pose proof (if_full_ready _ _ _ _ Hr Hi Hp) as H.
  destruct (if_full_do_resize junk ht) as [ht'|]; [|done].
  by apply add_ready_ok.
Qed.

(** A key that is present keeps its entry, or gets a new value in its place. *)
Lemma present_ok ht bs rest m n b k v flag :
  repr ht bs rest m -> bs !! n = Some b -> undef b = false -> bkey b = k -> key_ok k ->
  insertion_ok m k v (a_add_or_update flag k v m)
    (if fl_add flag then Some (ht, None)
     else Some ((match k with KStr _ => id | KIdx h => note_index h end)
                  (set_bucket (Z.of_nat n) (set_val (Some v) b) ht), Some (Z.of_nat n))).
Proof.
  intros Hr Hn Hu <- Hok.
  assert (Hin : bkey b ∈ (m_list m).*1).
  { rewrite (r_list _ _ _ _ (proj1 Hr)). apply elem_of_keys. by exists n, b. }
  rewrite spec_present by done. destruct (fl_add flag); [split; [by exists bs, rest|done]|].
  pose proof (replace_repr _ _ _ _ _ _ v Hr Hn Hu) as H1.
  assert (Hb : bucket junk (set_bucket (Z.of_nat n) (set_val (Some v) b) ht) (Z.of_nat n) =
    set_val (Some v) b).
  { apply (bucket_used _ (<[n := set_val (Some v) b]> bs) rest); [apply H1|].
    apply list_lookup_insert_eq. by apply lookup_lt_Some in Hn. }
  cbn [insertion_ok fst snd]. destruct (bkey b) as [s|h] eqn:Ek.
  - split; [by exists (<[n := set_val (Some v) b]> bs), rest|]. split; [done|].
    unfold holds_entry. cbn [id]. by rewrite Hb.
  - split; [exists (<[n := set_val (Some v) b]> bs), rest; exact (note_index_repr _ _ _ _ h H1 Hok)|].
    split; [done|]. unfold holds_entry. rewrite note_index_eq.
    change (bucket junk (set_next_free ?f ?t) ?i) with (bucket junk t i). by rewrite Hb.
Qed.

Lemma packed_to_hash_add_ok ht bs rest m k v flag :
  repr ht bs rest m -> f_initialized ht = true -> k ∉ (m_list m).*1 -> key_ok k ->
  insertion_ok m k v (a_add_or_update flag k v m)
    (ht ← if_full_do_resize junk (zend_hash_packed_to_hash junk ht);
     Some (let '(ht, idx) := add_to_hash junk (khash k) (kstr k) v ht in (ht, Some idx))).
Proof.
  intros Hr Hi Hk Hok. destruct (packed_to_hash_repr _ _ _ _ (proj1 Hr) Hi) as (bs' & rest' & H1 & H2 & H3).
  by apply (full_then_add_ok _ bs' rest').
Qed.

Lemma str_add_or_update_ok ht bs rest m s v flag :
  repr ht bs rest m -> key_ok (KStr s) ->
  (fl_add_new flag = true -> a_find (KStr s) m = None) ->
  insertion_ok m (KStr s) v (a_add_or_update flag (KStr s) v m)
    (zend_hash_add_or_update_i junk ht s v flag).
Proof.
  intros Hr Hok Hnew. pose proof Hr as [Hb Hmode]. unfold zend_hash_add_or_update_i.
  change (zend_inline_hash_func s) with (khash (KStr s)). change (Some s) with (kstr (KStr s)).
  destruct (f_initialized ht) eqn:Hi; cbn [negb].
  2: { apply add_ready_ok; [by eapply new_hash_ready| |done].
       destruct Hmode as [_ _ _ _ ->|?|?]; [|congruence|congruence].
       rewrite (r_list _ _ _ _ Hb). apply not_elem_of_nil. }
  destruct (f_packed ht) eqn:Hp.
  - apply (packed_to_hash_add_ok _ bs rest); try done. rewrite (r_list _ _ _ _ Hb).
    destruct Hmode as [?|_ _ _ _ Hpk|?]; [congruence| |congruence]. exact (packed_found bs (KStr s) Hpk Hok).
  - pose proof (find_key_hash _ _ _ _ (KStr s) Hr Hi Hp Hok) as Hf. cbn [find_key] in Hf.
    assert (Habs : KStr s ∉ (entries bs).*1 ->
      insertion_ok m (KStr s) v (a_add_or_update flag (KStr s) v m)
        (ht ← if_full_do_resize junk ht; Some (let '(ht, idx) :=
          add_to_hash junk (khash (KStr s)) (kstr (KStr s)) v ht in (ht, Some idx)))).
    { intros Hk. apply (full_then_add_ok ht bs rest); try done. by rewrite (r_list _ _ _ _ Hb). }
    destruct (fl_add_new flag).
    + apply Habs. rewrite <- (r_list _ _ _ _ Hb). apply alookup_None. by apply Hnew.
    + destruct (zend_hash_find_bucket junk ht s) as [i|]; [|by apply Habs].
      destruct Hf as (n & b & -> & Hn & Hu & Hk).
      rewrite (bucket_used _ _ _ _ _ (r_data _ _ _ _ Hb) Hn).
      by apply (present_ok ht bs rest m n b (KStr s)).
Qed.

(** A packed table that has room for the key, possibly after growing. *)
Lemma packed_insert_ok ht bs rest m h v flag :
  repr ht bs rest m -> f_packed ht = true -> KIdx h ∉ (m_list m).*1 -> key_ok (KIdx h) ->
  nNumUsed ht <= h < nTableSize ht ->
  (fl_add_new flag && fl_add_next flag = true -> h = nNumUsed ht) ->
  insertion_ok m (KIdx h) v (a_add_or_update flag (KIdx h) v m)
    (Some (add_to_packed junk h v flag ht, Some h)).
Proof.
  intros Hr Hp Hk Hok Hh Hflag. rewrite spec_insert by done.
  rewrite (r_list _ _ _ _ (proj1 Hr)) in Hk.
  destruct (add_to_packed_repr _ _ _ _ _ v flag Hr Hp Hk Hok Hh Hflag) as [H1 H2]. by split.
Qed.

Lemma packed_grow_repr ht bs rest m :
  repr ht bs rest m -> f_packed ht = true ->
  match zend_hash_packed_grow junk ht with
  | Some ht' => exists rest', repr ht' bs rest' m /\ f_packed ht' = true /\
      nNumUsed ht' = nNumUsed ht /\ nTableSize ht' = nTableSize ht + nTableSize ht
  | None => nTableSize ht = HT_MAX_SIZE
  end.
Proof.
  intros [Hb Hmode] Hp. destruct Hmode as [|Hi _ Hm Hh Hpk|]; [congruence| |congruence].
  pose proof (power_bounds _ (r_size _ _ _ _ Hb)) as Hsz. pose proof (used_le_size _ _ _ _ Hb Hi) as Hu.
  unfold zend_hash_packed_grow. destruct (Z.leb_spec HT_MAX_SIZE (nTableSize ht)) as [Hmax|Hmax].
  { unfold HT_MAX_SIZE in *. lia. }
  destruct (regrow_eq ht bs rest m (nTableSize ht + nTableSize ht) Hb ltac:(lia)) as [Hr Hl].
  eexists. split_and!; [|exact Hp|done|done]. split.
  - apply (base_move ht _ _ rest); try done.
    pose proof (r_size _ _ _ _ Hb) as (e & He & Hs). change (power_of_two (nTableSize ht + nTableSize ht)).
    exists (e + 1). rewrite Hs, Z.pow_add_r by lia. split; [|lia].
    enough (e < 31) by lia. apply (Z.pow_lt_mono_r_iff 2); [lia|lia|]. rewrite <- Hs. exact Hmax.
  - by apply mode_packed.
Qed.

Lemma index_add_or_update_ok ht bs rest m h v flag :
  repr ht bs rest m -> key_ok (KIdx h) ->
  (fl_add_new flag = true -> a_find (KIdx h) m = None) ->
  (fl_add_new flag && fl_add_next flag = true -> h = nNumUsed ht) ->
  insertion_ok m (KIdx h) v (a_add_or_update flag (KIdx h) v m)
    (zend_hash_index_add_or_update_i junk ht h v flag).
Proof.
  intros Hr Hok Hnew Hnext. pose proof Hr as [Hb Hmode]. unfold zend_hash_index_add_or_update_i.
  pose proof (r_list _ _ _ _ Hb) as Hlist. pose proof (r_used _ _ _ _ Hb) as Hlen.
  change (add_to_hash junk h None v) with (add_to_hash junk (khash (KIdx h)) (kstr (KIdx h)) v).
  destruct (f_initialized ht) eqn:Hi; cbn [negb].
  2: { destruct Hmode as [_ Hp Hm Hh ->|?|?]; [|congruence|congruence].
       assert (Hk : KIdx h ∉ (m_list m).*1) by (rewrite Hlist; apply not_elem_of_nil).
       destruct (Z.ltb_spec h (nTableSize ht)) as [Hlt|Hge].
       - pose proof (new_base _ _ _ _ true Hb Hi eq_refl) as Hb1.
         apply (packed_insert_ok _ [] (replicate (Z.to_nat (nTableSize ht)) junk) m); try done.
         + split; [exact Hb1|]. by apply mode_packed.
         + change (nNumUsed ht <= h < nTableSize ht). unfold key_ok in Hok. simpl in Hok, Hlen. lia.
       - apply add_ready_ok; [|done|done]. apply (new_hash_ready ht [] rest); [|done]. split; [done|].
         by apply mode_new. }
  destruct (f_packed ht) eqn:Hp.
  - destruct Hmode as [?|_ _ Hm Hh Hpk|?]; [congruence| |congruence].
    pose proof (packed_found bs (KIdx h) Hpk Hok) as Hf. cbn [found] in Hf.
    destruct (h <? nNumUsed ht) eqn:Eh.
    + destruct (packed_bucket ht bs rest h (r_data _ _ _ _ Hb) Hlen) as (b & Hn & Hbk);
        [apply Hok|done|]. rewrite Hbk, Hn in *. destruct (undef b) eqn:Eu.
      * apply (packed_to_hash_add_ok _ bs rest); try done. by rewrite Hlist.
      * destruct Hf as (n & b' & -> & Hn' & _ & Ek). rewrite Nat2Z.id in Hn. rewrite Hn in Hn'.
        injection Hn' as <-. by apply (present_ok ht bs rest m n b (KIdx (Z.of_nat n))).
    + assert (Hk : KIdx h ∉ (m_list m).*1).
      { rewrite Hlist. rewrite lookup_ge_None_2 in Hf; [done|]. unfold key_ok in Hok. simpl in Hok. lia. }
      destruct (Z.ltb_spec h (nTableSize ht)).
      { apply (packed_insert_ok ht bs rest); try done. lia. }
      destruct ((Z.shiftr h 1 <? nTableSize ht) && _) eqn:Eg; [|by apply (packed_to_hash_add_ok _ bs rest)].
      apply andb_true_iff in Eg as [Eg Eg2]. rewrite Z.shiftr_div_pow2 in Eg, Eg2 by done.
      apply Z.ltb_lt in Eg, Eg2. change (2 ^ 1) with 2 in Eg, Eg2.
      pose proof (packed_grow_repr _ _ _ _ Hr Hp) as Hg.
      destruct (zend_hash_packed_grow junk ht) as [ht1|].
      2: { unfold insertion_ok, too_large. cbn. rewrite Hg, (elements_length _ _ _ _ Hb) in Eg2. exact Eg2. }
      destruct Hg as (rest1 & Hr1 & Hp1 & Hu1 & Hs1). cbn [mbind option_bind].
      apply (packed_insert_ok ht1 bs rest1); try done; [|by rewrite Hu1].
      rewrite Hu1, Hs1. pose proof (Z.div_mod h 2). pose proof (Z.mod_pos_bound h 2). lia.
  - pose proof (find_key_hash _ _ _ _ (KIdx h) Hr Hi Hp Hok) as Hf. cbn [find_key] in Hf.
    assert (Habs : KIdx h ∉ (entries bs).*1 ->
      insertion_ok m (KIdx h) v (a_add_or_update flag (KIdx h) v m)
        (ht ← if_full_do_resize junk ht; Some (let '(ht, idx) :=
          add_to_hash junk (khash (KIdx h)) (kstr (KIdx h)) v ht in (ht, Some idx)))).
    { intros Hk. apply (full_then_add_ok ht bs rest); try done. by rewrite Hlist. }
    destruct (fl_add_new flag).
    + apply Habs. rewrite <- Hlist. apply alookup_None. by apply Hnew.
    + destruct (zend_hash_index_find_bucket junk ht h) as [i|]; [|by apply Habs].
      destruct Hf as (n & b & -> & Hn & Hu & Hk).
      rewrite (bucket_used _ _ _ _ _ (r_data _ _ _ _ Hb) Hn).
      by apply (present_ok ht bs rest m n b (KIdx h)).
Qed.
End Operations.
