(* ===== verification/ZendHashDel.v ===== *)
(** * ZendHashDel: deletion from the hash table

    A deletion takes the entry out of its chain, releases its bucket and moves
    the internal pointer on. *)

From S2P Require Import Prelude ZendHash ZendHashList ZendHashOps ZendHashMap.

Section Deletion.
Context {V : Type} (junk : Bucket V).
Implicit Types (ht : HashTable V) (b : Bucket V) (bs rest : list (Bucket V)) (m : amap V) (k : key).

#[local] Abbreviation repr := (repr junk).

(** ** The two loops *)

Lemma shrink_used_spec fuel ht l x tl :
  arData ht = (l ++ [x]) ++ tl -> nNumUsed ht = Z.of_nat (length (l ++ [x])) ->
  (length l < fuel)%nat ->
  exists l' dr, l = l' ++ dr /\ Forall (fun b => undef b = true) dr /\
    shrink_used junk fuel ht = set_used (Z.of_nat (length l')) ht.
Proof.
  revert ht l x tl. induction fuel as [|fuel IH]; intros ht l x tl Hd Hu Hf; [lia|].
  cbn [shrink_used]. rewrite length_app in Hu. simpl in Hu.
  replace (nNumUsed ht - 1) with (Z.of_nat (length l)) by lia. set (ht1 := set_used _ ht).
  change (nNumUsed ht1) with (Z.of_nat (length l)).
  destruct l as [|y l _] using rev_ind; [by exists [], []|].
  rewrite (proj2 (Z.ltb_lt _ _)) by (rewrite length_app; simpl; lia). cbn [andb].
  replace (Z.of_nat (length (l ++ [y])) - 1) with (Z.of_nat (length l)) by (rewrite length_app; simpl; lia).
  rewrite (bucket_mid junk ht1 l y ([x] ++ tl)) by (change (arData ht1) with (arData ht); rewrite Hd;
    by rewrite <- !app_assoc).
  destruct (undef y) eqn:Ey; [|by exists (l ++ [y]), []; rewrite app_nil_r].
  destruct (IH ht1 l y ([x] ++ tl)) as (l' & dr & -> & Hdr & E).
  - change (arData ht1) with (arData ht). rewrite Hd. by rewrite <- !app_assoc.
  - done.
  - rewrite length_app in Hf. simpl in Hf. lia.
  - exists l', (dr ++ [y]). rewrite app_assoc. split_and!; [done| |by rewrite E].
    apply Forall_app. split; [done|]. by constructor.
Qed.

(** The bucket of the first entry after position [n]. *)
Definition next_pos bs (n : nat) (r : Z) (e : option (key * V)) : Prop :=
  match e with
  | None => r = HT_INVALID_IDX
  | Some (k, _) => exists i b, r = Z.of_nat i /\ (n < i)%nat /\ bs !! i = Some b /\ undef b = false /\ bkey b = k
  end.

Lemma next_used_spec fuel ht bs tl n :
  arData ht = bs ++ tl -> nNumUsed ht = Z.of_nat (length bs) -> (length bs <= fuel + n)%nat ->
  next_pos bs n (next_used junk fuel ht (Z.of_nat n)) (head (entries (drop (S n) bs))).
Proof.
  intros Hd Hu. revert n. induction fuel as [|fuel IH]; intros n Hf; cbn [next_used].
  { by rewrite drop_ge by lia. }
  rewrite Hu. destruct (Z.leb_spec (Z.of_nat (length bs)) (Z.of_nat n + 1)); [by rewrite drop_ge by lia|].
  destruct (lookup_lt_is_Some_2 bs (S n)) as [b Hb]; [lia|].
  replace (Z.of_nat n + 1) with (Z.of_nat (S n)) by lia.
  rewrite (bucket_used junk ht bs tl (S n) b) by done.
  rewrite (drop_S bs b) by done. change (b :: drop (S (S n)) bs) with ([b] ++ drop (S (S n)) bs).
  rewrite entries_app. destruct (undef b) eqn:E; cbn [negb].
  - rewrite (entries_undef b E). cbn [app]. specialize (IH (S n) ltac:(lia)). revert IH.
    unfold next_pos. destruct (head _) as [[k v]|]; [|done]. intros (i & b' & -> & Hi & H').
    exists i, b'. split_and!; [done|lia|apply H'..].
  - unfold undef in E. destruct (b_val b) as [v|] eqn:Ev; [|done]. rewrite (entries_live b v Ev).
    cbn [app head next_pos]. exists (S n), b. split_and!; try done; [lia|]. unfold undef. by rewrite Ev.
Qed.

(** The released bucket is empty; the empty ones at the end are out of use. *)
Lemma release_spec ht bs rest n b :
  arData ht = bs ++ rest -> nNumUsed ht = Z.of_nat (length bs) ->
  Z.of_nat (length bs) <= nTableSize ht -> bs !! n = Some b ->
  exists bs' dr r, <[n := set_val None b]> bs = bs' ++ dr /\ Forall (fun b => undef b = true) dr /\
    next_pos bs' n r (head (entries (drop (S n) bs))) /\
    release_bucket junk (Z.of_nat n) ht =
    set_arData (bs' ++ dr ++ rest)
      (set_pointer (if nInternalPointer ht =? Z.of_nat n then r else nInternalPointer ht)
        (set_elements (nNumOfElements ht - 1) (set_used (Z.of_nat (length bs')) ht))).
Proof.
  intros Hd Hu Hsz Hn. pose proof (lookup_lt_Some _ _ _ Hn) as Hlt.
  assert (Hbk : forall ht1, arData ht1 = bs ++ rest -> 
    set_bucket (Z.of_nat n) (set_val None (bucket junk ht1 (Z.of_nat n))) ht1 =
    set_arData (<[n := set_val None b]> bs ++ rest) ht1).
  { intros ht1 H1. rewrite (bucket_used junk ht1 bs rest n b H1 Hn). by apply (set_bucket_used _ _ _ _ b). }
  assert (Hend : forall bs' dr, bs = bs' ++ dr -> forall ht1,
    ht1 = set_used (Z.of_nat (length bs')) ht ->
    next_pos bs' n (next_used junk (Z.to_nat (nTableSize ht)) (set_elements (nNumOfElements ht - 1) ht1) (Z.of_nat n))
      (head (entries (drop (S n) bs')))).
  { intros bs' dr E ht1 ->. apply (next_used_spec _ _ bs' (dr ++ rest)).
    - change (arData ht = bs' ++ dr ++ rest). by rewrite Hd, E, <- app_assoc.
    - done.
    - apply (f_equal length) in E. rewrite length_app in E. lia. }
  unfold release_bucket. destruct (Z.eqb_spec (nNumUsed ht - 1) (Z.of_nat n)) as [E|E].
  - destruct bs as [|x bs _] using rev_ind; [done|]. rewrite length_app in Hu, Hlt. simpl in Hu, Hlt.
    assert (n = length bs) as -> by lia. rewrite list_lookup_middle in Hn by done. injection Hn as ->.
    destruct (shrink_used_spec (Z.to_nat (nNumUsed ht)) ht bs b rest) as (bs' & dr & Hbs & Hdr & Hsh);
      [done|by rewrite Hu, length_app|lia|].
    rewrite Hsh.
    exists bs', (dr ++ [set_val None b]). eexists. split; [|split; [|split]].
    + rewrite insert_app_r_alt, Nat.sub_diag by lia. simpl. by rewrite Hbs, <- app_assoc.
    + apply Forall_app. split; [done|]. by constructor.
    + rewrite drop_ge by (rewrite length_app; simpl; lia).
      specialize (Hend bs' (dr ++ [b]) ltac:(by rewrite Hbs, <- app_assoc) _ eq_refl).
      rewrite drop_ge in Hend by (apply (f_equal length) in Hbs; rewrite length_app in Hbs; lia).
      exact Hend.
    + cbn zeta. set (ht1 := set_elements _ _).
      change (nInternalPointer ht1) with (nInternalPointer ht).
      change (nTableSize ht1) with (nTableSize ht).
      change (set_elements (nNumOfElements ht - 1) (set_used (Z.of_nat (length bs')) ht)) with ht1.
      assert (Hins : <[length bs := set_val None b]> (bs ++ [b]) ++ rest = bs' ++ (dr ++ [set_val None b]) ++ rest).
      { rewrite insert_app_r_alt, Nat.sub_diag by lia. simpl. by rewrite Hbs, <- !app_assoc. }
      destruct (nInternalPointer ht =? _); (rewrite Hbk, Hins; [|done]); [done|]. by destruct ht.
  - exists (<[n := set_val None b]> bs), []. eexists. split; [by rewrite app_nil_r|]. split; [constructor|].
    split.
    + specialize (Hend bs [] ltac:(by rewrite app_nil_r) (set_used (Z.of_nat (length bs)) ht) eq_refl).
      revert Hend. unfold next_pos. destruct (head _) as [[k v]|]; [|intros H; exact H].
      intros (i & b' & H1 & H2 & H3). exists i, b'. split; [exact H1|]. split; [done|].
      rewrite list_lookup_insert_ne by lia. exact H3.
    + cbn zeta. set (ht1 := set_elements _ _).
      change (nInternalPointer ht1) with (nInternalPointer ht).
      change (nTableSize ht1) with (nTableSize ht).
      assert (Eu : set_used (Z.of_nat (length bs)) ht = ht) by (rewrite <- Hu; by destruct ht).
      rewrite length_insert, Eu. change (set_elements (nNumOfElements ht - 1) ht) with ht1.
      destruct (nInternalPointer ht =? _); (rewrite Hbk; [|done]); [done|]. by destruct ht.
Qed.

(** ** The entry goes *)

Lemma keys_unique bs n n' b b' : NoDup (entries bs).*1 ->
  bs !! n = Some b -> bs !! n' = Some b' -> undef b = false -> undef b' = false ->
  bkey b = bkey b' -> n = n'.
Proof.
  assert (Hlt : forall n n' b b', NoDup (entries bs).*1 -> bs !! n = Some b -> bs !! n' = Some b' ->
    undef b = false -> undef b' = false -> bkey b = bkey b' -> ~ (n < n')%nat).
  { clear. intros n n' b b' Hnd Hn Hn' Hu Hu' Hk Hlt. unfold undef in Hu.
    destruct (b_val b) as [v|] eqn:Ev; [|done]. rewrite (entries_split _ _ _ _ Hn Ev) in Hnd.
    rewrite fmap_app, fmap_cons in Hnd. apply NoDup_app in Hnd as (_ & _ & Hnd).
    apply NoDup_cons in Hnd as [Hnd _]. apply Hnd. apply elem_of_keys.
    exists (n' - S n)%nat, b'. rewrite lookup_drop. split_and!; [|done|done].
    rewrite <- Hn'. f_equal. lia. }
  intros Hnd Hn Hn' Hu Hu' Hk. pose proof (Hlt n n' b b' Hnd Hn Hn' Hu Hu' Hk).
  pose proof (Hlt n' n b' b Hnd Hn' Hn Hu' Hu (eq_sym Hk)). lia.
Qed.

Lemma entries_delete bs n b : NoDup (entries bs).*1 -> bs !! n = Some b -> undef b = false ->
  entries (<[n := set_val None b]> bs) = adelete (bkey b) (entries bs) /\
  anext (bkey b) (entries bs) = fst <$> head (entries (drop (S n) bs)).
Proof.
  intros Hnd Hn Hu. unfold undef in Hu. destruct (b_val b) as [v|] eqn:E; [|done].
  rewrite (entries_split _ _ _ _ Hn E) in Hnd |- *. rewrite fmap_app, fmap_cons in Hnd.
  apply NoDup_app in Hnd as (_ & Hnd1 & Hnd2). apply NoDup_cons in Hnd2 as [Hnd2 _].
  assert (Hk : bkey b ∉ (entries (take n bs)).*1) by (intros Hk; apply (Hnd1 _ Hk); left).
  split; [|by apply anext_mid]. rewrite adelete_mid by done. rewrite (list_insert_mid _ _ _ _ Hn).
  change (set_val None b :: drop (S n) bs) with ([set_val None b] ++ drop (S n) bs).
  by rewrite !entries_app, (entries_undef (set_val None b)).
Qed.

Lemma lookup_live_app bs bs' dr n b :
  bs = bs' ++ dr -> Forall (fun b => undef b = true) dr -> bs !! n = Some b -> undef b = false ->
  bs' !! n = Some b.
Proof.
  intros -> Hdr Hn Hu. apply lookup_app_Some in Hn as [Hn|[_ Hn]]; [done|].
  rewrite Forall_lookup in Hdr. specialize (Hdr _ _ Hn). congruence.
Qed.

Lemma pos_delete bs bs' dr n b r ptr pk :
  NoDup (entries bs).*1 -> bs !! n = Some b -> undef b = false -> Z.of_nat (length bs) <= 2 ^ 31 ->
  <[n := set_val None b]> bs = bs' ++ dr -> Forall (fun b => undef b = true) dr ->
  next_pos bs' n r (head (entries (drop (S n) bs))) -> pos_ok bs ptr pk ->
  pos_ok bs' (if ptr =? Z.of_nat n then r else ptr)
    (if decide (pk = Some (bkey b)) then anext (bkey b) (entries bs) else pk).
Proof.
  intros Hnd Hn Hu Hsz E Hdr Hnext Hpos. pose proof (lookup_lt_Some _ _ _ Hn) as Hlt.
  destruct (entries_delete bs n b Hnd Hn Hu) as [_ ->]. destruct pk as [k|]; cbn [pos_ok] in Hpos.
  - destruct Hpos as (i & bi & -> & Hi & Hui & <-). case_decide as Ek.
    + injection Ek as Ek. rewrite (keys_unique bs i n bi b) by done. rewrite Z.eqb_refl.
      destruct (head _) as [[k v]|]; [|exact Hnext]. cbn [fmap option_fmap option_map fst pos_ok].
      destruct Hnext as (j & bj & -> & _ & Hj). by exists j, bj.
    + assert (i <> n) as Hne by (intros ->; rewrite Hn in Hi; injection Hi as <-; by apply Ek).
      rewrite (proj2 (Z.eqb_neq _ _)) by lia. exists i, bi. split_and!; try done.
      apply (lookup_live_app (<[n := set_val None b]> bs) _ dr); try done.
      by rewrite list_lookup_insert_ne.
  - subst ptr. rewrite decide_False by done. rewrite (proj2 (Z.eqb_neq _ _)) by (unfold HT_INVALID_IDX; lia).
    done.
Qed.

(** What is left to show about the table whose chains skip the bucket [n]. *)
Definition unlinked ht bs1 (n : nat) b1 ht1 : Prop :=
  bs1 !! n = Some b1 /\
  f_initialized ht1 = f_initialized ht /\ f_packed ht1 = f_packed ht /\
  nTableMask ht1 = nTableMask ht /\ nTableSize ht1 = nTableSize ht /\
  nNumUsed ht1 = nNumUsed ht /\ nNumOfElements ht1 = nNumOfElements ht /\
  nNextFreeElement ht1 = nNextFreeElement ht /\ nInternalPointer ht1 = nInternalPointer ht /\
  if f_packed ht then ht_hash ht1 = ht_hash ht /\ packed_ok (<[n := set_val None b1]> bs1)
  else chained junk (nTableSize ht) (ht_hash ht1) (<[n := set_val None b1]> bs1).

Lemma entries_drop_relinked bs bs1 n : relinked bs bs1 ->
  entries (drop n bs1) = entries (drop n bs).
Proof.
  intros H. symmetry. apply relinked_entries. unfold relinked in *. by rewrite !fmap_drop, H.
Qed.

(** The other buckets in use after the bucket [n] has been released. *)
Definition released bs rest (n : nat) bs' rest' : Prop :=
  (exists dr, Forall (fun b => undef b = true) dr /\ rest' = dr ++ rest /\
    (length bs' + length dr = length bs)%nat) /\
  entries (take n bs') = entries (take n bs) /\
  entries (drop (S n) bs') = entries (drop (S n) bs).

Lemma released_app bs bs1 rest n x bs' dr :
  relinked bs bs1 -> <[n := x]> bs1 = bs' ++ dr -> Forall (fun b => undef b = true) dr -> released bs rest n bs' (dr ++ rest).
Proof.
  intros Hrl E Hdr. pose proof (relinked_length _ _ Hrl) as Hl.
  assert (H : forall l l' : list (Bucket V), relinked l l' -> entries l' = entries l) by (intros l l' H; symmetry; by apply relinked_entries).
  split.
  { exists dr. split_and!; [done|done|]. apply (f_equal length) in E. rewrite length_insert, length_app in E. lia. }
  assert (Hnil : forall tl, Forall (fun b : Bucket V => undef b = true) tl -> entries tl = []) by apply entries_all_undef.
  split.
  - assert (Ht : take n (bs' ++ dr) = take n bs1) by (rewrite <- E; by apply take_insert_ge).
    rewrite <- (H (take n bs) (take n bs1)) by (unfold relinked in *; by rewrite !fmap_take, Hrl).
    rewrite <- Ht, take_app, entries_app, (Hnil (take _ dr)), app_nil_r by by apply Forall_take. done.
  - assert (Ht : drop (S n) (bs' ++ dr) = drop (S n) bs1) by (rewrite <- E; apply drop_insert_lt; lia).
    rewrite <- (H (drop (S n) bs) (drop (S n) bs1)) by (unfold relinked in *; by rewrite !fmap_drop, Hrl).
    rewrite <- Ht, drop_app, entries_app, (Hnil (drop _ dr)), app_nil_r by by apply Forall_drop. done.
Qed.

Lemma delete_repr ht bs rest m n b ht1 bs1 b1 :
  repr ht bs rest m -> f_initialized ht = true -> bs !! n = Some b -> undef b = false ->
  relinked bs bs1 -> arData ht1 = bs1 ++ rest -> unlinked ht bs1 n b1 ht1 ->
  exists bs' rest', repr (release_bucket junk (Z.of_nat n) ht1) bs' rest' (a_delete (bkey b) m) /\
    released bs rest n bs' rest'.
Proof.
  intros [Hb Hmode] Hi Hn Hu Hrl Hd1 (Hn1 & S1 & S2 & S3 & S4 & S5 & S6 & S7 & S8 & Hm1).
  pose proof (relinked_length _ _ Hrl) as Hlen. pose proof (relinked_entries _ _ Hrl) as Hent.
  pose proof (power_bounds _ (r_size _ _ _ _ Hb)) as Hsz. pose proof (r_room _ _ _ _ Hb Hi) as Hroom.
  destruct (relinked_lookup _ _ _ _ Hrl Hn) as (b1' & Hn1' & Eb). rewrite Hn1 in Hn1'. injection Hn1' as <-.
  assert (Hk : bkey b1 = bkey b) by exact (f_equal (fun b => bkey b) Eb).
  assert (Hu1 : undef b1 = false) by (rewrite <- Hu; exact (f_equal (fun b => undef b) Eb)).
  pose proof (r_nodup _ _ _ _ Hb) as Hnd. rewrite Hent in Hnd.
  destruct (entries_delete bs1 n b1 Hnd Hn1 Hu1) as [Hed _].
  destruct (release_spec ht1 bs1 rest n b1) as (bs' & dr & r & E & Hdr & Hnext & ->);
    [done|by rewrite S5, (r_used _ _ _ _ Hb), Hlen|rewrite S4; lia|done|].
  assert (He' : entries bs' = adelete (bkey b) (entries bs)).
  { rewrite Hent, <- Hk, <- Hed, E, entries_app, (entries_all_undef dr), app_nil_r by done. done. }
  pose proof (f_equal length E) as El. rewrite length_insert, length_app in El.
  exists bs', (dr ++ rest). split; [|by apply (released_app _ bs1 _ _ (set_val None b1))]. split.
  - split; cbn [a_delete m_list m_free m_pos]; rewrite ?He'.
    + done.
    + done.
    + change (power_of_two (nTableSize ht1)). rewrite S4. apply Hb.
    + intros _. change (Z.of_nat (length bs' + length (dr ++ rest)) = nTableSize ht1).
      rewrite S4, length_app. lia.
    + change (nNumOfElements ht1 - 1 = Z.of_nat (length (adelete (bkey b) (entries bs)))).
      rewrite S6, (r_elems _ _ _ _ Hb). rewrite Hent, <- Hk, <- Hed.
      unfold undef in Hu1. destruct (b_val b1) as [v|] eqn:Ev; [|done].
      rewrite (entries_split _ _ _ _ Hn1 Ev), (list_insert_mid _ _ _ _ Hn1).
      change (set_val None b1 :: drop (S n) bs1) with ([set_val None b1] ++ drop (S n) bs1).
      rewrite !entries_app, (entries_undef (set_val None b1)) by done. rewrite !length_app. simpl. lia.
    + by rewrite (r_list _ _ _ _ Hb).
    + unfold adelete. apply (sublist_NoDup _ (entries bs).*1); [by apply Hb|].
      apply fmap_sublist, sublist_filter.
    + pose proof (relinked_Forall hash_ok bs bs1 (fun b n => hash_ok_next b n) Hrl (r_hash _ _ _ _ Hb)) as Hh.
      assert (Hh' : Forall hash_ok (<[n := set_val None b1]> bs1)) by (apply Forall_insert; [done|]; intros ?; done).
      rewrite E in Hh'. by apply Forall_app in Hh' as [? _].
    + change (nNextFreeElement ht1 = m_free m). rewrite S7. apply Hb.
    + apply Hb.
    + rewrite <- Hk, (r_list _ _ _ _ Hb), Hent.
      change (pos_ok bs' (if nInternalPointer ht1 =? Z.of_nat n then r else nInternalPointer ht1)
        (if decide (m_pos m = Some (bkey b1)) then anext (bkey b1) (entries bs1) else m_pos m)).
      apply (pos_delete _ _ dr); try done; [lia|]. rewrite S8. apply (relinked_pos bs); [done|apply Hb].
  - set (ht2 := set_arData _ _). destruct (f_packed ht) eqn:Hp.
    + destruct Hm1 as [Hh1 Hpk1]. destruct Hmode as [?|_ _ Hm Hh _|?]; [congruence| |congruence].
      apply mode_packed; [by rewrite <- Hi, <- S1|by rewrite <- S2|by rewrite <- S3 in Hm|by rewrite <- Hh1 in Hh|].
      intros i bi Hbi. apply Hpk1. rewrite E. by apply lookup_app_l_Some.
    + destruct Hmode as [?|?|_ _ Hm Hc]; [congruence|congruence|].
      apply mode_hash; [by rewrite <- Hi, <- S1|by rewrite <- S2| |].
      * change (nTableMask ht1 = 2 ^ 32 - nTableSize ht1). by rewrite S3, S4.
      * change (chained junk (nTableSize ht1) (ht_hash ht1) bs'). rewrite S4.
        apply (chained_take junk _ _ bs' dr); [done|]. by rewrite <- E.
Qed.

(** ** The walk to the bucket before *)

Lemma del_in_chain_hit fuel test ht start prev l1 i l2 :
  chain (fun i => b_next (bucket junk ht i)) start (l1 ++ i :: l2) ->
  Forall (fun i => 0 <= i < HT_INVALID_IDX) (l1 ++ i :: l2) -> (length (l1 ++ i :: l2) < fuel)%nat ->
  Forall (fun j => test (bucket junk ht j) = false) l1 -> test (bucket junk ht i) = true ->
  del_in_chain junk fuel test ht prev start =
  Some (zend_hash_del_el_ex junk i (match last l1 with Some p => Some p | None => prev end) ht).
Proof.
  revert fuel start prev. induction l1 as [|j l1 IH]; intros [|fuel] start prev Hc Hl Hf Ht Hi;
    try (simpl in Hf; lia); destruct Hc as [-> Hc]; apply Forall_cons in Hl as [Hj Hl];
    cbn [del_in_chain].
  - destruct (Z.eqb_spec i HT_INVALID_IDX) as [|_]; [lia|]. by rewrite Hi.
  - apply Forall_cons in Ht as [Htj Ht]. destruct (Z.eqb_spec j HT_INVALID_IDX) as [|_]; [lia|].
    rewrite Htj, (IH fuel _ (Some j)) by (done || (simpl in Hf; lia)). do 2 f_equal.
    rewrite last_cons. by destruct (last l1).
Qed.

Lemma del_in_chain_miss fuel test ht start prev l :
  chain (fun i => b_next (bucket junk ht i)) start l ->
  Forall (fun i => 0 <= i < HT_INVALID_IDX) l -> (length l < fuel)%nat ->
  Forall (fun j => test (bucket junk ht j) = false) l ->
  del_in_chain junk fuel test ht prev start = None.
Proof.
  revert fuel start prev. induction l as [|j l IH]; intros [|fuel] start prev Hc Hl Hf Ht;
    try (simpl in Hf; lia); cbn [del_in_chain].
  - simpl in Hc. by subst start.
  - destruct Hc as [-> Hc]. apply Forall_cons in Hl as [Hj Hl]. apply Forall_cons in Ht as [Htj Ht].
    destruct (Z.eqb_spec j HT_INVALID_IDX) as [|_]; [lia|].
    rewrite Htj. apply IH; try done. simpl in Hf. lia.
Qed.

(** The bucket leaves its chain, wherever it is in it. *)
Lemma unlink_spec ht bs rest m n b l1 l2 :
  repr ht bs rest m -> f_initialized ht = true -> f_packed ht = false ->
  bs !! n = Some b -> undef b = false ->
  slot_list (nTableSize ht) (b_h b `mod` nTableSize ht) bs = l1 ++ Z.of_nat n :: l2 ->
  exists bs1 b1, relinked bs bs1 /\
    arData (unlink junk (Z.of_nat n) (last l1) ht) = bs1 ++ rest /\
    unlinked ht bs1 n b1 (unlink junk (Z.of_nat n) (last l1) ht).
Proof.
  intros [Hb Hmode] Hi Hp Hn Hu Hsl. destruct Hmode as [?|?|_ _ Hm Hc]; [congruence|congruence|].
  pose proof (power_bounds _ (r_size _ _ _ _ Hb)) as Hsz. pose proof (r_data _ _ _ _ Hb) as Hd.
  assert (Hbh : 0 <= b_h b) by (pose proof (r_hash _ _ _ _ Hb) as Hh; rewrite Forall_lookup in Hh;
    destruct (Hh n b Hn Hu); lia).
  unfold unlink. rewrite (bucket_used junk ht bs rest n b Hd Hn), Hp. cbn [negb].
  destruct l1 as [|p l1 _] using rev_ind.
  - exists bs, b. cbn [last]. split; [done|]. split; [done|]. unfold unlinked. rewrite Hp. split_and!; try done.
    change (ht_hash (set_HT_HASH ?i ?x ht)) with (<[Z.to_nat (i - nTableMask ht) := x]> (ht_hash ht)).
    rewrite (hash_index_slot _ _ (r_size _ _ _ _ Hb) Hm Hbh).
    apply (chained_delete_head junk _ _ _ _ _ l2); [lia|done..].
  - rewrite last_snoc. assert (Hpin : p ∈ slot_list (nTableSize ht) (b_h b `mod` nTableSize ht) bs).
    { rewrite Hsl. apply elem_of_app. left. apply elem_of_app. right. by left. }
    apply elem_of_slot_list in Hpin as (np & bp & Hnp & Hup & _ & ->).
    rewrite (bucket_used junk ht bs rest np bp Hd Hnp), (set_bucket_used _ _ _ _ bp _ Hd Hnp).
    rewrite <- app_assoc in Hsl. simpl in Hsl.
    assert (Hne : np <> n).
    { intros ->. pose proof (NoDup_slot_list (nTableSize ht) (b_h b `mod` nTableSize ht) bs) as Hnd.
      rewrite Hsl in Hnd. apply NoDup_app in Hnd as (_ & _ & Hnd). apply NoDup_cons in Hnd as [Hnd _].
      apply Hnd. left. }
    exists (<[np := set_next (b_next b) bp]> bs), b. split; [|split; [done|]].
    + unfold relinked. rewrite list_fmap_insert. symmetry. apply list_insert_id.
      by rewrite list_lookup_fmap, Hnp.
    + unfold unlinked. rewrite Hp. split_and!; try done; [by rewrite list_lookup_insert_ne|].
      apply (chained_delete_mid junk _ _ _ _ _ _ _ l1 l2); [lia|done..].
Qed.

(** A live bucket is deleted, with the one before it in its chain. *)
Lemma del_el_ex_hash ht bs rest m n b l1 l2 :
  repr ht bs rest m -> f_initialized ht = true -> f_packed ht = false ->
  bs !! n = Some b -> undef b = false ->
  slot_list (nTableSize ht) (b_h b `mod` nTableSize ht) bs = l1 ++ Z.of_nat n :: l2 ->
  exists bs' rest', repr (zend_hash_del_el_ex junk (Z.of_nat n) (last l1) ht) bs' rest' (a_delete (bkey b) m) /\
    released bs rest n bs' rest'.
Proof.
  intros Hr Hi Hp Hn Hu Hsl. destruct (unlink_spec ht bs rest m n b l1 l2) as (bs1 & b1 & H1 & H2 & H3); try done.
  by apply (delete_repr ht bs rest m n b _ bs1 b1).
Qed.

Lemma del_el_ex_packed ht bs rest m n b :
  repr ht bs rest m -> f_packed ht = true -> bs !! n = Some b -> undef b = false ->
  exists bs' rest', repr (zend_hash_del_el_ex junk (Z.of_nat n) None ht) bs' rest' (a_delete (bkey b) m) /\
    released bs rest n bs' rest'.
Proof.
  intros Hr Hp Hn Hu. pose proof Hr as [Hb Hmode]. destruct Hmode as [|Hi _ Hm Hh Hpk|]; [congruence| |congruence].
  unfold zend_hash_del_el_ex.
  replace (unlink junk (Z.of_nat n) None ht) with ht by (unfold unlink; by rewrite Hp).
  apply (delete_repr ht bs rest m n b ht bs b); try done; [apply Hb|].
  unfold unlinked. rewrite Hp. split_and!; try done.
  intros i bi Hbi Hui. apply list_lookup_insert_Some in Hbi as [(<- & <- & _)|[_ Hbi]]; [done|].
  by apply (Hpk i bi).
Qed.

Definition delete_key ht k : option (HashTable V) :=
  match k with KStr s => zend_hash_str_del junk ht s | KIdx h => zend_hash_index_del junk ht h end.

(** What a deletion promises: [None] is [FAILURE]. *)
Definition deletion_ok ht k m (r : option (HashTable V)) : Prop :=
  match r with
  | Some ht' => is_Some (a_find k m) /\ represents junk ht' (a_delete k m)
  | None => a_find k m = None
  end.

Lemma delete_hash_ok ht bs rest m k :
  repr ht bs rest m -> f_initialized ht = true -> f_packed ht = false -> key_ok k ->
  deletion_ok ht k m (del_in_chain junk (chain_fuel ht) (key_test k) ht None
    (HT_HASH ht (hash_index ht (khash k)))).
Proof.
  intros Hr Hi Hp Hk. destruct (walk_chain _ _ _ _ _ _ Hr Hi Hp Hk) as (_ & Hc & Hbk & Hl & Hf).
  set (l := slot_list _ _ bs) in *. pose proof (r_hash _ _ _ _ (proj1 Hr)) as Hh. rewrite Forall_lookup in Hh.
  assert (Htest : forall n b, bs !! n = Some b -> undef b = false ->
    key_test k (bucket junk ht (Z.of_nat n)) = bool_decide (bkey b = k)).
  { intros n b Hn Hu. rewrite (bucket_used junk ht bs rest n b) by (done || apply Hr).
    apply key_test_spec. by apply (Hh n b). }
  destruct (decide (k ∈ (m_list m).*1)) as [Hin|Hin].
  - pose proof Hin as Hin'. rewrite (r_list _ _ _ _ (proj1 Hr)) in Hin'.
    apply elem_of_keys in Hin' as (n & b & Hn & Hu & Hkb).
    assert (Hinl : Z.of_nat n ∈ l).
    { apply elem_of_slot_list. exists n, b. split_and!; try done.
      destruct (Hh n b Hn Hu) as [_ ->]. by rewrite Hkb. }
    apply list_elem_of_split in Hinl as (l1 & l2 & E). rewrite E in *.
    assert (Hnd : NoDup l) by apply NoDup_slot_list. rewrite E in Hnd.
    rewrite (del_in_chain_hit _ _ _ _ None l1 (Z.of_nat n) l2); try done.
    + split; [by apply a_find_keys in Hin as [v ->]|]. replace (match last l1 with Some p => Some p | None => None end)
        with (last l1) by by destruct (last l1).
      destruct (del_el_ex_hash ht bs rest m n b l1 l2) as (bs' & rest' & H & _); try done.
      { destruct (Hh n b Hn Hu) as [_ ->]. by rewrite Hkb. }
      rewrite <- Hkb. by exists bs', rest'.
    + apply Forall_forall. intros j Hj.
      assert (Hjl : j ∈ l) by (rewrite E; apply elem_of_app; by left).
      apply elem_of_slot_list in Hjl as (nj & bj & Hnj & Huj & _ & ->).
      rewrite (Htest nj bj Hnj Huj). apply bool_decide_false. intros Ej.
      rewrite (keys_unique bs nj n bj b (r_nodup _ _ _ _ (proj1 Hr))) in Hj by (done || congruence).
      apply NoDup_app in Hnd as (_ & Hnd & _). apply (Hnd _ Hj). left.
    + rewrite (Htest n b Hn Hu). by apply bool_decide_true.
  - rewrite (del_in_chain_miss _ _ _ _ None l); try done.
    + cbn [deletion_ok]. by apply alookup_None.
    + apply Forall_forall. intros j Hj. apply elem_of_slot_list in Hj as (nj & bj & Hnj & Huj & _ & ->).
      rewrite (Htest nj bj Hnj Huj). apply bool_decide_false. intros Ej. apply Hin.
      rewrite (r_list _ _ _ _ (proj1 Hr)). apply elem_of_keys. by exists nj, bj.
Qed.

Lemma empty_chain ht test k : ht_hash ht = [HT_INVALID_IDX; HT_INVALID_IDX] ->
  del_in_chain junk (chain_fuel ht) test ht None (HT_HASH ht (hash_index ht (khash k))) = None.
Proof.
  intros H. unfold HT_HASH. rewrite H. unfold chain_fuel. cbn [del_in_chain].
  assert (E : forall n, nth n [HT_INVALID_IDX; HT_INVALID_IDX] HT_INVALID_IDX = HT_INVALID_IDX)
    by (intros [|[|n]]; [done|done|by destruct n]).
  by rewrite E, Z.eqb_refl.
Qed.

Lemma delete_ok ht bs rest m k :
  repr ht bs rest m -> key_ok k -> deletion_ok ht k m (delete_key ht k).
Proof.
  intros Hr Hk. pose proof Hr as [Hb Hmode].
  assert (Hd : delete_key ht k =
    match k with
    | KStr _ => del_in_chain junk (chain_fuel ht) (key_test k) ht None (HT_HASH ht (hash_index ht (khash k)))
    | KIdx h => if f_packed ht then
        if (h <? nNumUsed ht) && negb (undef (bucket junk ht h))
        then Some (zend_hash_del_el_ex junk h None ht) else None
        else del_in_chain junk (chain_fuel ht) (key_test k) ht None (HT_HASH ht (hash_index ht (khash k)))
    end) by by destruct k.
  rewrite Hd. clear Hd. destruct Hmode as [Hi Hp Hm Hh Hbs|Hi Hp Hm Hh Hpk|Hi Hp Hm Hc].
  - assert (Ha : a_find k m = None).
    { apply alookup_None. rewrite (r_list _ _ _ _ Hb), Hbs. apply not_elem_of_nil. }
    destruct k; rewrite ?Hp, empty_chain by done; exact Ha.
  - pose proof (packed_found bs k Hpk Hk) as Hf. rewrite Hp. destruct k as [s|h].
    { rewrite empty_chain by done. apply alookup_None. by rewrite (r_list _ _ _ _ Hb). }
    destruct (h <? nNumUsed ht) eqn:Eh; cbn [andb].
    + destruct (packed_bucket junk ht bs rest h (r_data _ _ _ _ Hb) (r_used _ _ _ _ Hb)) as (b & Hn & Hbk);
        [apply Hk|done|]. rewrite Hbk, Hn in *. destruct (undef b) eqn:Eu; cbn [negb].
      { apply alookup_None. by rewrite (r_list _ _ _ _ Hb). }
      destruct Hf as (n & b' & -> & Hn' & _ & Ek). rewrite Nat2Z.id in Hn. rewrite Hn in Hn'.
      injection Hn' as <-. cbn [deletion_ok]. split.
      * assert (Hin : KIdx (Z.of_nat n) ∈ (m_list m).*1)
          by (rewrite (r_list _ _ _ _ Hb); apply elem_of_keys; by exists n, b).
        apply a_find_keys in Hin as [v ->]. done.
      * rewrite <- Ek. destruct (del_el_ex_packed ht bs rest m n b Hr Hp Hn Eu) as (bs' & rest' & H & _).
        by exists bs', rest'.
    + apply alookup_None. rewrite (r_list _ _ _ _ Hb).
      rewrite (r_used _ _ _ _ Hb) in Eh. rewrite lookup_ge_None_2 in Hf; [done|].
      unfold key_ok in Hk. simpl in Hk. lia.
  - rewrite Hp. destruct k; by apply (delete_hash_ok ht bs rest).
Qed.
End Deletion.
