(* ===== verification/ZendHashIter.v ===== *)
(** * ZendHashIter: the internal pointer of the hash table

    Reset, end, forward and backward moves of the internal pointer, the key and
    the value under it, against the order of the entries. *)

From S2P Require Import Prelude ZendHash ZendHashList ZendHashOps ZendHashMap ZendHashDel.

Section Iteration.
Context {V : Type} (junk : Bucket V).
Implicit Types (ht : HashTable V) (b : Bucket V) (bs rest : list (Bucket V)) (m : amap V) (k : key).

#[local] Abbreviation repr := (repr junk).

(** ** The operations *)

(** [for (idx = 0; idx < ht->nNumUsed; idx++)] *)
(* php:Zend/zend_hash.c:2054-2060 zend_hash_internal_pointer_reset_ex: for *)
Fixpoint first_used (fuel : nat) ht (idx : Z) : Z :=
  match fuel with
  | O => HT_INVALID_IDX
  | S fuel =>
      if idx <? nNumUsed ht then
        if negb (undef (bucket junk ht idx)) then idx else first_used fuel ht (idx + 1)
      else HT_INVALID_IDX
  end.

(** [while (idx > 0)]: the last bucket in use before [idx]. *)
(* php:Zend/zend_hash.c:2075-2082 zend_hash_internal_pointer_end_ex: while *)
Fixpoint last_used (fuel : nat) ht (idx : Z) : Z :=
  match fuel with
  | O => HT_INVALID_IDX
  | S fuel =>
      if 0 <? idx then
        let idx := idx - 1 in
        if negb (undef (bucket junk ht idx)) then idx else last_used fuel ht idx
      else HT_INVALID_IDX
  end.

(* php:Zend/zend_hash.c:2047-2061 zend_hash_internal_pointer_reset_ex *)
Definition zend_hash_internal_pointer_reset ht : HashTable V :=
  set_pointer (first_used (Z.to_nat (nNumUsed ht)) ht 0) ht.

(* php:Zend/zend_hash.c:2067-2083 zend_hash_internal_pointer_end_ex *)
Definition zend_hash_internal_pointer_end ht : HashTable V :=
  set_pointer (last_used (Z.to_nat (nNumUsed ht)) ht (nNumUsed ht)) ht.

(** [None] for [FAILURE]. *)
(* php:Zend/zend_hash.c:2086-2108 zend_hash_move_forward_ex *)
Definition zend_hash_move_forward ht : option (HashTable V) :=
  let idx := nInternalPointer ht in
  if negb (idx =? HT_INVALID_IDX) then
    Some (set_pointer (next_used junk (Z.to_nat (nNumUsed ht)) ht idx) ht)
  else None.

(* php:Zend/zend_hash.c:2110-2130 zend_hash_move_backwards_ex *)
Definition zend_hash_move_backwards ht : option (HashTable V) :=
  let idx := nInternalPointer ht in
  if negb (idx =? HT_INVALID_IDX) then
    Some (set_pointer (last_used (Z.to_nat idx) ht idx) ht)
  else None.

(** [None] for [HASH_KEY_NON_EXISTENT]. *)
(* php:Zend/zend_hash.c:2134-2151 zend_hash_get_current_key_ex *)
Definition zend_hash_get_current_key ht : option key :=
  let idx := nInternalPointer ht in
  if negb (idx =? HT_INVALID_IDX) then
    let p := bucket junk ht idx in
    Some (match b_key p with Some s => KStr s | None => KIdx (b_h p) end)
  else None.

(* php:Zend/zend_hash.c:2189-2201 zend_hash_get_current_data_ex *)
Definition zend_hash_get_current_data ht : option V :=
  let idx := nInternalPointer ht in
  if negb (idx =? HT_INVALID_IDX) then b_val (bucket junk ht idx) else None.

(** ** On the map *)

(** The key before [k]; [p] if there is none. *)
Fixpoint aprev (p : option key) k (l : list (key * V)) : option key :=
  match l with
  | [] => None
  | e :: l => if decide (e.1 = k) then p else aprev (Some e.1) k l
  end.

Definition a_move (pk : option key) m : amap V := AM V (m_list m) (m_free m) pk.

Lemma aprev_mid p k v l1 l2 : k ∉ l1.*1 ->
  aprev p k (l1 ++ (k, v) :: l2) = match last l1 with Some e => Some e.1 | None => p end.
Proof.
  revert p. induction l1 as [|e l1 IH]; intros p; simpl; [intros _; by rewrite decide_True|].
  rewrite not_elem_of_cons. intros [Hne H]. rewrite decide_False, IH by done.
  destruct l1 as [|e' l1]; [done|]. rewrite !last_cons. by destruct (last l1).
Qed.

(** ** Positions *)

Lemma move_repr ht bs rest m ptr pk :
  repr ht bs rest m -> pos_ok bs ptr pk -> repr (set_pointer ptr ht) bs rest (a_move pk m).
Proof.
  intros [Hb Hmode] Hpos. split; [split; (exact Hpos || apply Hb)|].
  destruct Hmode; [by apply mode_new|by apply mode_packed|by apply mode_hash].
Qed.

Lemma first_used_spec fuel ht bs rest n :
  arData ht = bs ++ rest -> nNumUsed ht = Z.of_nat (length bs) -> (length bs <= fuel + n)%nat ->
  pos_ok bs (first_used fuel ht (Z.of_nat n)) (fst <$> head (entries (drop n bs))).
Proof.
  intros Hd Hu. revert n. induction fuel as [|fuel IH]; intros n Hf; cbn [first_used].
  { by rewrite drop_ge by lia. }
  rewrite Hu. destruct (Z.ltb_spec (Z.of_nat n) (Z.of_nat (length bs))); [|by rewrite drop_ge by lia].
  destruct (lookup_lt_is_Some_2 bs n) as [b Hb]; [lia|].
  rewrite (bucket_used junk ht bs rest n b), (drop_S bs b) by done.
  change (b :: drop (S n) bs) with ([b] ++ drop (S n) bs). rewrite entries_app.
  destruct (undef b) eqn:E; cbn [negb].
  - rewrite (entries_undef b E). cbn [app].
    replace (Z.of_nat n + 1) with (Z.of_nat (S n)) by lia. apply IH. lia.
  - pose proof E as E'. unfold undef in E'. destruct (b_val b) as [v|] eqn:Ev; [|done].
    rewrite (entries_live b v Ev). by exists n, b.
Qed.

Lemma last_used_spec fuel ht bs rest n :
  arData ht = bs ++ rest -> (n <= length bs)%nat -> (n <= fuel)%nat ->
  pos_ok bs (last_used fuel ht (Z.of_nat n)) (fst <$> last (entries (take n bs))).
Proof.
  intros Hd. revert n. induction fuel as [|fuel IH]; intros n Hn Hf; cbn [last_used].
  { assert (n = 0%nat) as -> by lia. done. }
  destruct n as [|n]; [done|].
  rewrite (proj2 (Z.ltb_lt _ _)) by lia. replace (Z.of_nat (S n) - 1) with (Z.of_nat n) by lia.
  destruct (lookup_lt_is_Some_2 bs n) as [b Hb]; [lia|].
  rewrite (bucket_used junk ht bs rest n b), (take_S_r bs n b) by done. rewrite entries_app.
  destruct (undef b) eqn:E; cbn [negb].
  - rewrite (entries_undef b E), app_nil_r. apply IH; lia.
  - pose proof E as E'. unfold undef in E'. destruct (b_val b) as [v|] eqn:Ev; [|done].
    rewrite (entries_live b v Ev), last_snoc. by exists n, b.
Qed.

Lemma bucket_split bs n b : NoDup (entries bs).*1 -> bs !! n = Some b -> undef b = false ->
  exists v, b_val b = Some v /\ entries bs = entries (take n bs) ++ (bkey b, v) :: entries (drop (S n) bs) /\
  bkey b ∉ (entries (take n bs)).*1.
Proof.
  intros Hnd Hn Hu. unfold undef in Hu. destruct (b_val b) as [v|] eqn:Ev; [|done]. exists v.
  pose proof (entries_split _ _ _ _ Hn Ev) as Hs. split_and!; [done|done|].
  rewrite Hs, fmap_app, fmap_cons in Hnd. apply NoDup_app in Hnd as (_ & Hnd & _).
  intros Hk. apply (Hnd _ Hk). left.
Qed.

(** The internal pointer of a table: no entry, or the bucket of one. *)
Lemma pointer_cases ht bs rest m : repr ht bs rest m ->
  match m_pos m with
  | None => nInternalPointer ht = HT_INVALID_IDX
  | Some k => exists n b v, nInternalPointer ht = Z.of_nat n /\ Z.of_nat n <> HT_INVALID_IDX /\
      bs !! n = Some b /\ undef b = false /\ bkey b = k /\ b_val b = Some v /\
      bucket junk ht (Z.of_nat n) = b /\ a_find k m = Some v /\
      m_list m = entries (take n bs) ++ (k, v) :: entries (drop (S n) bs) /\
      k ∉ (entries (take n bs)).*1
  end.
Proof.
  intros [Hb Hmode]. pose proof (r_pos _ _ _ _ Hb) as Hpos. destruct (m_pos m) as [k|]; [|exact Hpos].
  destruct Hpos as (n & b & Hp & Hn & Hu & <-).
  destruct (bucket_split bs n b (r_nodup _ _ _ _ Hb) Hn Hu) as (v & Hv & Hs & Hk).
  exists n, b, v. pose proof (lookup_lt_Some _ _ _ Hn) as Hlt.
  assert (Hsz : Z.of_nat (length bs) <= 2 ^ 31).
  { pose proof (power_bounds _ (r_size _ _ _ _ Hb)). destruct Hmode as [? ? ? ? ->|Hi|Hi]; [simpl; lia| |];
    pose proof (r_room _ _ _ _ Hb Hi); lia. }
  split_and!; try done.
  - unfold HT_INVALID_IDX. lia.
  - apply (bucket_used junk ht bs rest n b); [apply Hb|done].
  - unfold a_find. rewrite (r_list _ _ _ _ Hb), <- Hv. by apply (alookup_bucket bs n); [apply Hb|..].
  - by rewrite (r_list _ _ _ _ Hb).
Qed.

(** ** What they do *)

Lemma reset_ok ht m : represents junk ht m ->
  represents junk (zend_hash_internal_pointer_reset ht) (a_move (fst <$> head (m_list m)) m).
Proof.
  intros (bs & rest & Hr). exists bs, rest. apply move_repr; [done|]. destruct Hr as [Hb _].
  rewrite (r_list _ _ _ _ Hb). pose proof (r_used _ _ _ _ Hb) as Hu.
  apply (first_used_spec _ ht bs rest 0); [apply Hb|done|lia].
Qed.

Lemma end_ok ht m : represents junk ht m ->
  represents junk (zend_hash_internal_pointer_end ht) (a_move (fst <$> last (m_list m)) m).
Proof.
  intros (bs & rest & Hr). exists bs, rest. apply move_repr; [done|]. destruct Hr as [Hb _].
  rewrite (r_list _ _ _ _ Hb). pose proof (r_used _ _ _ _ Hb) as Hu.
  pose proof (last_used_spec (Z.to_nat (nNumUsed ht)) ht bs rest (length bs) (r_data _ _ _ _ Hb)) as H.
  rewrite firstn_all in H. rewrite Hu in *. apply H; lia.
Qed.

Lemma forward_ok ht m : represents junk ht m ->
  match zend_hash_move_forward ht with
  | None => m_pos m = None
  | Some ht' => exists k, m_pos m = Some k /\ represents junk ht' (a_move (anext k (m_list m)) m)
  end.
Proof.
  intros (bs & rest & Hr). pose proof (pointer_cases _ _ _ _ Hr) as Hc. unfold zend_hash_move_forward.
  destruct (m_pos m) as [k|]; [|by rewrite Hc, Z.eqb_refl].
  destruct Hc as (n & b & v & Hp & Hne & Hn & Hu & Hk & Hv & _ & _ & Hl & Hk'). rewrite Hp.
  destruct (Z.eqb_spec (Z.of_nat n) HT_INVALID_IDX) as [|_]; [done|]. cbn [negb].
  exists k. split; [done|]. exists bs, rest. apply move_repr; [done|].
  rewrite Hl, anext_mid by done. destruct Hr as [Hb _].
  pose proof (next_used_spec junk (Z.to_nat (nNumUsed ht)) ht bs rest n (r_data _ _ _ _ Hb) (r_used _ _ _ _ Hb)) as H.
  rewrite (r_used _ _ _ _ Hb) in *. specialize (H ltac:(lia)).
  destruct (head _) as [[k' v']|]; [|exact H]. destruct H as (i & b' & -> & _ & H). by exists i, b'.
Qed.

Lemma backwards_ok ht m : represents junk ht m ->
  match zend_hash_move_backwards ht with
  | None => m_pos m = None
  | Some ht' => exists k, m_pos m = Some k /\ represents junk ht' (a_move (aprev None k (m_list m)) m)
  end.
Proof.
  intros (bs & rest & Hr). pose proof (pointer_cases _ _ _ _ Hr) as Hc. unfold zend_hash_move_backwards.
  destruct (m_pos m) as [k|]; [|by rewrite Hc, Z.eqb_refl].
  destruct Hc as (n & b & v & Hp & Hne & Hn & Hu & Hk & Hv & _ & _ & Hl & Hk'). rewrite Hp.
  destruct (Z.eqb_spec (Z.of_nat n) HT_INVALID_IDX) as [|_]; [done|]. cbn [negb].
  exists k. split; [done|]. exists bs, rest. apply move_repr; [done|].
  rewrite Hl, aprev_mid by done. destruct Hr as [Hb _]. pose proof (lookup_lt_Some _ _ _ Hn) as Hlt.
  pose proof (last_used_spec (Z.to_nat (Z.of_nat n)) ht bs rest n (r_data _ _ _ _ Hb) ltac:(lia) ltac:(lia)) as H.
  by destruct (last _) as [[k' v']|].
Qed.

Lemma current_ok ht m : represents junk ht m ->
  zend_hash_get_current_key ht = m_pos m /\
  zend_hash_get_current_data ht = (k ← m_pos m; a_find k m).
Proof.
  intros (bs & rest & Hr). pose proof (pointer_cases _ _ _ _ Hr) as Hc.
  unfold zend_hash_get_current_key, zend_hash_get_current_data.
  destruct (m_pos m) as [k|]; [|by rewrite Hc, Z.eqb_refl].
  destruct Hc as (n & b & v & Hp & Hne & Hn & Hu & Hk & Hv & Hbk & Hf & _). rewrite Hp.
  destruct (Z.eqb_spec (Z.of_nat n) HT_INVALID_IDX) as [|_]; [done|]. cbn [negb].
  rewrite Hbk. split; [by rewrite <- Hk|]. rewrite Hv. simpl. by rewrite Hf.
Qed.
End Iteration.
