(* ===== verification/ZendHashTrace.v ===== *)
(** * ZendHashTrace: sequences of operations on a hash table

    From [zend_hash_init] on, every sequence of insertions, updates, deletions,
    searches and moves of the internal pointer gives the results of the same
    sequence on the ordered map of ZendHashOps. *)

From S2P Require Import Prelude ZendHash ZendHashList ZendHashOps ZendHashMap ZendHashDel ZendHashIter.

(** ** The size of a new table *)

(** The top [j] bits below and at [L] are set. *)
Definition smeared (L j x : Z) : Prop :=
  0 <= x /\ forall i, 0 <= i -> (L < i -> Z.testbit x i = false) /\ (L - j < i <= L -> Z.testbit x i = true).

Lemma smear_step L j x : 0 < j -> smeared L j x -> smeared L (j + j) (Z.lor x (Z.shiftr x j)).
Proof.
  intros Hj [H0 H]. split; [apply Z.lor_nonneg; split; [done|by apply Z.shiftr_nonneg]|].
  intros i Hi. rewrite Z.lor_spec, Z.shiftr_spec by done. split; intros HL.
  - by rewrite (proj1 (H i Hi)), (proj1 (H (i + j) ltac:(lia))) by lia.
  - destruct (Z.lt_ge_cases (L - j) i).
    + by rewrite (proj2 (H i Hi)) by lia.
    + rewrite (proj2 (H (i + j) ltac:(lia))) by lia. apply orb_true_r.
Qed.

Lemma smeared_ones L j x : 0 <= L < j -> smeared L j x -> x = 2 ^ (L + 1) - 1.
Proof.
  intros HL [H0 H]. replace (2 ^ (L + 1) - 1) with (Z.ones (L + 1)) by (rewrite Z.ones_equiv; lia).
  apply Z.bits_inj'. intros i Hi. destruct (Z.lt_ge_cases i (L + 1)).
  - rewrite Z.ones_spec_low by lia. apply (H i Hi). lia.
  - rewrite Z.ones_spec_high by lia. apply (H i Hi). lia.
Qed.

Lemma smear_all x : 0 < x < 2 ^ 32 ->
  (let n := Z.lor x (Z.shiftr x 1) in
   let n := Z.lor n (Z.shiftr n 2) in
   let n := Z.lor n (Z.shiftr n 4) in
   let n := Z.lor n (Z.shiftr n 8) in
   Z.lor n (Z.shiftr n 16)) = 2 ^ (Z.log2 x + 1) - 1.
Proof.
  intros Hx. assert (H0 : smeared (Z.log2 x) 1 x).
  { split; [lia|]. intros i Hi. split; intros Hl; [by apply Z.bits_above_log2; lia|].
    replace i with (Z.log2 x) by lia. apply Z.bit_log2. lia. }
  cbn zeta. apply (smeared_ones _ 32).
  - split; [apply Z.log2_nonneg|]. apply Z.log2_lt_pow2; lia.
  - apply (smear_step _ 16); [done|]. apply (smear_step _ 8); [done|]. apply (smear_step _ 4); [done|].
    apply (smear_step _ 2); [done|]. by apply (smear_step _ 1).
Qed.

(** The size is the least power of two for the elements, 8 at least. *)
Lemma check_size_spec nSize size : 0 <= nSize -> zend_hash_check_size nSize = Some size ->
  power_of_two size /\ nSize <= size /\ (size <= HT_MIN_SIZE \/ size < 2 * nSize).
Proof.
  unfold zend_hash_check_size, HT_MIN_SIZE, HT_MAX_SIZE. intros H0 H.
  destruct (Z.ltb_spec nSize 8) as [Hlt|Hge].
  - injection H as <-. change (power_of_two 8 /\ nSize <= 8 /\ (8 <= 8 \/ 8 < 2 * nSize)).
    split_and!; [by exists 3|lia|left; lia].
  - destruct (Z.leb_spec 0x80000000 nSize) as [Hm|Hm]; [done|]. cbn [mbind option_bind] in H.
    pose proof (smear_all (nSize - 1) ltac:(lia)) as E. cbn zeta in E, H. rewrite E in H.
    injection H as <-. pose proof (Z.log2_spec (nSize - 1) ltac:(lia)) as [H1 H2].
    rewrite <- Z.add_1_r in H2. set (L := Z.log2 (nSize - 1)) in *.
    assert (HL : 2 <= L) by (apply (Z.log2_le_mono 4 (nSize - 1)); lia).
    assert (HL' : L < 31) by (apply Z.log2_lt_pow2; lia).
    rewrite Z.sub_add. split_and!; [exists (L + 1); split; [lia|done]|lia|right].
    rewrite Z.pow_add_r by lia. change (2 ^ 1) with 2. lia.
Qed.

(** ** The hash of a string *)

Lemma djb_range : forall str hash, 0 <= hash < 2 ^ 64 -> 0 <= foldl djb_step hash str < 2 ^ 64.
Proof.
  induction str as [|c str IH]; intros hash H; [done|]. simpl. apply IH.
  unfold djb_step, u64. apply Z.mod_pos_bound. done.
Qed.

Lemma djb_loop_fold fuel hash str : (length str < fuel)%nat -> djb_loop fuel hash str = foldl djb_step hash str.
Proof.
  revert hash str. induction fuel as [|fuel IH]; intros hash str Hf; [lia|]. cbn [djb_loop].
  destruct (Z.leb_spec 8 (Z.of_nat (length str))) as [H|H]; [|done].
  rewrite IH by (rewrite length_drop; lia). by rewrite <- foldl_app, take_drop.
Qed.

(** Taking eight bytes at a time makes no difference. *)
Lemma hash_func_fold str : zend_inline_hash_func str = Z.lor (foldl djb_step 5381 str) (2 ^ 63).
Proof. unfold zend_inline_hash_func. by rewrite djb_loop_fold by lia. Qed.

Lemma str_key_ok s : key_ok (KStr s).
Proof.
  unfold key_ok. cbn [khash]. rewrite hash_func_fold.
  pose proof (djb_range s 5381 ltac:(lia)) as H. set (x := foldl _ _ s) in *.
  split; [apply Z.lor_nonneg; lia|].
  destruct (Z.eq_dec (Z.lor x (2 ^ 63)) 0) as [->|Hne]; [done|].
  assert (Hp : 0 <= Z.lor x (2 ^ 63)) by (apply Z.lor_nonneg; lia).
  apply Z.log2_lt_pow2; [lia|]. rewrite Z.log2_lor by lia.
  rewrite (Z.log2_pow2 63) by lia. apply Z.max_lub_lt; [|lia].
  destruct (Z.eq_dec x 0) as [->|]; [done|]. apply Z.log2_lt_pow2; lia.
Qed.

Section Trace.
Context {V : Type} (junk : Bucket V).
Implicit Types (ht : HashTable V) (m : amap V) (k : key) (v : V).

(** ** Operations and results *)

Inductive op : Type :=
  | OAdd k v
  | OUpdate k v
  | ONext v
  | ODelete k
  | OFind k
  | OReset
  | OEnd
  | OForward
  | OBackwards
  | OCurrent.

(** The value pointed to, [None] for [NULL]; [SUCCESS] or [FAILURE]; key and value. *)
Inductive result : Type :=
  | RZval (v : option V)
  | RStatus (success : bool)
  | REntry (k : option key) (v : option V)
  | RVoid.

Definition add_or_update ht k v flag : option (HashTable V * option Z) :=
  match k with
  | KStr s => zend_hash_add_or_update_i junk ht s v flag
  | KIdx h => zend_hash_index_add_or_update_i junk ht h v flag
  end.

Definition inserted (r : option (HashTable V * option Z)) : option (HashTable V * result) :=
  '(ht, idx) ← r; Some (ht, RZval (i ← idx; b_val (bucket junk ht i))).

Definition moved ht (r : option (HashTable V)) : option (HashTable V * result) :=
  Some (match r with Some ht' => (ht', RStatus true) | None => (ht, RStatus false) end).

(** The table and the result; [None] is a fatal error. *)
Definition step (o : op) ht : option (HashTable V * result) :=
  match o with
  | OAdd k v => inserted (add_or_update ht k v HASH_ADD)
  | OUpdate k v => inserted (add_or_update ht k v HASH_UPDATE)
  | ONext v => inserted (zend_hash_next_index_insert junk ht v)
  | ODelete k => moved ht (delete_key junk ht k)
  | OFind k => Some (ht, RZval (match k with
                                | KStr s => zend_hash_find junk ht s
                                | KIdx h => zend_hash_index_find junk ht h
                                end))
  | OReset => Some (zend_hash_internal_pointer_reset junk ht, RVoid)
  | OEnd => Some (zend_hash_internal_pointer_end junk ht, RVoid)
  | OForward => moved ht (zend_hash_move_forward junk ht)
  | OBackwards => moved ht (zend_hash_move_backwards junk ht)
  | OCurrent => Some (ht, REntry (zend_hash_get_current_key junk ht) (zend_hash_get_current_data junk ht))
  end.

Fixpoint run (ops : list op) ht : option (HashTable V * list result) :=
  match ops with
  | [] => Some (ht, [])
  | o :: ops => '(ht, r) ← step o ht; '(ht, rs) ← run ops ht; Some (ht, r :: rs)
  end.

(** ** On the map *)

Definition a_inserted v (r : amap V * bool) : amap V * result :=
  (r.1, RZval (if r.2 then Some v else None)).

Definition a_moved m (pk : key -> option key) : amap V * result :=
  match m_pos m with
  | Some k => (a_move (pk k) m, RStatus true)
  | None => (m, RStatus false)
  end.

Definition a_step (o : op) m : amap V * result :=
  match o with
  | OAdd k v => a_inserted v (a_add_or_update HASH_ADD k v m)
  | OUpdate k v => a_inserted v (a_add_or_update HASH_UPDATE k v m)
  | ONext v => a_inserted v (a_add_or_update HASH_ADD (KIdx (m_free m)) v m)
  | ODelete k =>
      match a_find k m with
      | Some _ => (a_delete k m, RStatus true)
      | None => (m, RStatus false)
      end
  | OFind k => (m, RZval (a_find k m))
  | OReset => (a_move (fst <$> head (m_list m)) m, RVoid)
  | OEnd => (a_move (fst <$> last (m_list m)) m, RVoid)
  | OForward => a_moved m (fun k => anext k (m_list m))
  | OBackwards => a_moved m (fun k => aprev None k (m_list m))
  | OCurrent => (m, REntry (m_pos m) (k ← m_pos m; a_find k m))
  end.

Fixpoint a_run (ops : list op) m : amap V * list result :=
  match ops with
  | [] => (m, [])
  | o :: ops => let '(m, r) := a_step o m in let '(m, rs) := a_run ops m in (m, r :: rs)
  end.

(** Integer keys are [zend_ulong]. *)
Definition op_ok (o : op) : Prop :=
  match o with
  | OAdd k _ | OUpdate k _ | ODelete k | OFind k =>
      match k with KStr _ => True | KIdx h => 0 <= h < 2 ^ 64 end
  | _ => True
  end.

(** ** One operation *)

Lemma op_key_ok k : match k with KStr _ => True | KIdx h => 0 <= h < 2 ^ 64 end -> key_ok k.
Proof. destruct k as [s|h]; [intros _; apply str_key_ok|done]. Qed.

Definition outcome_ok m (spec : amap V * result) (r : option (HashTable V * result)) : Prop :=
  match r with
  | None => too_large m
  | Some (ht', r) => represents junk ht' spec.1 /\ r = spec.2
  end.

Lemma inserted_ok m k v spec r :
  insertion_ok junk m k v spec r -> outcome_ok m (a_inserted v spec) (inserted r).
Proof.
  unfold a_inserted. destruct r as [[ht' [idx|]]|]; cbn; [|intros [H ->]; done|done].
  intros (H & -> & Hv & _). by rewrite Hv.
Qed.

Lemma add_or_update_ok ht m k v flag : represents junk ht m -> key_ok k -> fl_add_new flag = false ->
  insertion_ok junk m k v (a_add_or_update flag k v m) (add_or_update ht k v flag).
Proof.
  intros (bs & rest & Hr) Hk Hf.
  destruct k; [apply (str_add_or_update_ok junk ht bs rest)|apply (index_add_or_update_ok junk ht bs rest)];
    try done; rewrite Hf; done.
Qed.

Lemma moved_ok ht m pk r : represents junk ht m ->
  match r with
  | None => m_pos m = None
  | Some ht' => exists k, m_pos m = Some k /\ represents junk ht' (a_move (pk k) m)
  end -> outcome_ok m (a_moved m pk) (moved ht r).
Proof.
  intros Hr. unfold a_moved. destruct r as [ht'|]; cbn; [|by intros ->]. by intros (k & -> & H).
Qed.

Lemma trace_step_ok o ht m : represents junk ht m -> op_ok o -> outcome_ok m (a_step o m) (step o ht).
Proof.
  intros Hr Ho. destruct o as [k v|k v|v|k|k| | | | |]; cbn [step a_step].
  - apply (inserted_ok _ k). apply add_or_update_ok; [done|by apply op_key_ok|done].
  - apply (inserted_ok _ k). apply add_or_update_ok; [done|by apply op_key_ok|done].
  - pose proof Hr as (bs & rest & [Hb _]).
    apply (inserted_ok _ (KIdx (m_free m))). unfold zend_hash_next_index_insert.
    rewrite (r_free _ _ _ _ Hb). pose proof Hr as (bs' & rest' & Hr').
    apply (index_add_or_update_ok junk ht bs' rest' m (m_free m) v (Flags true false true)); try done.
    unfold key_ok. cbn [khash]. pose proof (r_range _ _ _ _ Hb). unfold ZEND_LONG_MAX in *. lia.
  - pose proof Hr as (bs & rest & Hr'). pose proof (delete_ok junk ht bs rest m k Hr' (op_key_ok _ Ho)) as H.
    destruct (delete_key junk ht k) as [ht'|]; cbn in H |- *.
    + destruct H as [[v ->] H]. done.
    + by rewrite H.
  - destruct Hr as (bs & rest & Hr). split; [by exists bs, rest|]. cbn. f_equal.
    destruct k; [apply (zend_hash_find_spec junk ht bs rest)|apply (zend_hash_index_find_spec junk ht bs rest)];
      try done; by apply op_key_ok.
  - split; [by apply reset_ok|done].
  - split; [by apply end_ok|done].
  - apply moved_ok; [done|]. by apply forward_ok.
  - apply moved_ok; [done|]. by apply backwards_ok.
  - destruct (current_ok junk ht m Hr) as [-> ->]. done.
Qed.

(** ** Sequences *)

Lemma add_or_update_length flag k v m :
  (length (m_list (a_add_or_update flag k v m).1) <= S (length (m_list m)))%nat.
Proof.
  unfold a_add_or_update. destruct (a_find k m); [destruct (fl_add flag); [simpl; lia|]|];
    cbn; unfold aupdate; rewrite ?length_fmap, ?length_app; simpl; lia.
Qed.

Lemma a_step_length o m : (length (m_list (a_step o m).1) <= S (length (m_list m)))%nat.
Proof.
  destruct o as [k v|k v|v|k|k| | | | |]; cbn [a_step]; try (simpl; lia).
  - exact (add_or_update_length HASH_ADD k v m).
  - exact (add_or_update_length HASH_UPDATE k v m).
  - exact (add_or_update_length HASH_ADD (KIdx (m_free m)) v m).
  - destruct (a_find k m); [|simpl; lia]. cbn. unfold adelete.
    pose proof (length_filter (fun e : key * V => e.1 <> k) (m_list m)). lia.
  - unfold a_moved. destruct (m_pos m); simpl; lia.
  - unfold a_moved. destruct (m_pos m); simpl; lia.
Qed.

Lemma run_ok ops : forall ht m, represents junk ht m -> Forall op_ok ops ->
  Z.of_nat (length (m_list m)) + Z.of_nat (length ops) <= 2 ^ 30 ->
  exists ht', run ops ht = Some (ht', (a_run ops m).2) /\ represents junk ht' (a_run ops m).1.
Proof.
  induction ops as [|o ops IH]; intros ht m Hr Hops Hlen; [by exists ht|].
  apply Forall_cons in Hops as [Ho Hops]. cbn [run a_run].
  pose proof (trace_step_ok o ht m Hr Ho) as Hs. pose proof (a_step_length o m) as Hl.
  destruct (a_step o m) as [m1 r1]. simpl in Hl, Hlen.
  destruct (step o ht) as [[ht1 r]|]; cbn in Hs; [|unfold too_large in Hs; lia].
  destruct Hs as [Hr1 ->]. destruct (IH ht1 m1 Hr1 Hops ltac:(lia)) as (ht' & E & H).
  destruct (a_run ops m1) as [m2 rs]. cbn. rewrite E. by exists ht'.
Qed.

Lemma init_represents nSize ht : 0 <= nSize -> zend_hash_init nSize = Some ht ->
  represents junk ht a_empty.
Proof.
  unfold zend_hash_init. intros H0 H. destruct (zend_hash_check_size nSize) as [size|] eqn:E; [|done].
  injection H as <-. destruct (check_size_spec nSize size H0 E) as [Hp _].
  exists [], []. split; [|by apply mode_new]. split; try done; constructor.
Qed.

(** ** Well-formed tables *)

(** A table that operations lead to, from any new one. *)
Inductive reachable : HashTable V -> Prop :=
  | reach_init nSize ht : 0 <= nSize -> zend_hash_init nSize = Some ht -> reachable ht
  | reach_step o ht ht' r : reachable ht -> op_ok o -> step o ht = Some (ht', r) -> reachable ht'.

Lemma run_reachable ops : forall ht ht' rs, reachable ht -> Forall op_ok ops ->
  run ops ht = Some (ht', rs) -> reachable ht'.
Proof.
  induction ops as [|o ops IH]; intros ht ht' rs Hr Ho H; cbn [run] in H; [by injection H as <- _|].
  apply Forall_cons in Ho as [Ho Hops]. destruct (step o ht) as [[ht1 r]|] eqn:E; [|done]. cbn in H.
  destruct (run ops ht1) as [[ht2 rs2]|] eqn:E2; [|done]. cbn in H. injection H as <- _.
  apply (IH ht1 _ rs2); [|done|done]. by apply (reach_step o ht _ r).
Qed.

Lemma reachable_represents ht : reachable ht -> exists m, represents junk ht m.
Proof.
  induction 1 as [nSize ht H0 Hi|o ht ht' r _ [m Hm] Ho Hs].
  - exists a_empty. by apply (init_represents nSize).
  - pose proof (trace_step_ok o ht m Hm Ho) as H. rewrite Hs in H. destruct H as [H _]. eauto.
Qed.

Definition live_at ht (i : Z) : Prop := 0 <= i < nNumUsed ht /\ undef (bucket junk ht i) = false.

(** The buckets of the chain of [h], in the order of the walk. *)
Definition chain_of ht (h : Z) (l : list Z) : Prop :=
  chain (fun i => b_next (bucket junk ht i)) (HT_HASH ht (hash_index ht h)) l.

(** What the code relies on: the memory fits the size; the elements are counted;
    keys are distinct and keep their hash; the internal pointer is at a live
    bucket or invalid; in a packed table keys are positions, in another one the
    chain of a hash value ends and visits just the live buckets of its slot, each
    once. *)
Record well_formed ht : Prop := {
  wf_size : power_of_two (nTableSize ht) /\ 0 <= nNumUsed ht <= nTableSize ht;
  wf_data : f_initialized ht = true -> Z.of_nat (length (arData ht)) = nTableSize ht;
  wf_count : exists l, NoDup l /\ (forall i, i ∈ l <-> live_at ht i) /\ nNumOfElements ht = Z.of_nat (length l);
  wf_keys : forall i j, live_at ht i -> live_at ht j ->
    bkey (bucket junk ht i) = bkey (bucket junk ht j) -> i = j;
  wf_hash : forall i, live_at ht i -> b_h (bucket junk ht i) = khash (bkey (bucket junk ht i));
  wf_pointer : nInternalPointer ht = HT_INVALID_IDX \/ live_at ht (nInternalPointer ht);
  wf_packed : f_packed ht = true -> forall i, live_at ht i -> bkey (bucket junk ht i) = KIdx i;
  wf_chains : f_initialized ht = true -> f_packed ht = false -> forall h, 0 <= h < 2 ^ 64 ->
    exists l, chain_of ht h l /\ NoDup l /\ forall i, i ∈ l <->
      live_at ht i /\ b_h (bucket junk ht i) `mod` nTableSize ht = h `mod` nTableSize ht
}.

Lemma live_at_used ht bs rest i : arData ht = bs ++ rest -> nNumUsed ht = Z.of_nat (length bs) ->
  live_at ht i <-> exists n b, i = Z.of_nat n /\ bs !! n = Some b /\ undef b = false /\ bucket junk ht i = b.
Proof.
  intros Hd Hu. split.
  - intros [Hi Hl]. destruct (lookup_lt_is_Some_2 bs (Z.to_nat i)) as [b Hb]; [lia|].
    pose proof (bucket_used junk ht bs rest _ b Hd Hb) as E. rewrite Z2Nat.id in E by lia.
    exists (Z.to_nat i), b. rewrite E in Hl. split_and!; [lia|done..].
  - intros (n & b & -> & Hn & Hl & E). split; [|by rewrite E]. apply lookup_lt_Some in Hn. lia.
Qed.

Lemma idxs_live_length o (bs : list (Bucket V)) :
  length (idxs (fun b => negb (undef b)) o bs) = length (entries bs).
Proof.
  revert o. induction bs as [|b bs IH]; intros o; [done|]. cbn [idxs].
  change (b :: bs) with ([b] ++ bs). rewrite entries_app, !length_app, IH. f_equal.
  unfold undef. destruct (b_val b) as [v|] eqn:E; [by rewrite (entries_live b v E)|].
  rewrite entries_undef; [done|]. unfold undef. by rewrite E.
Qed.

Lemma repr_well_formed ht m : represents junk ht m -> well_formed ht.
Proof.
  intros (bs & rest & Hr). pose proof Hr as [Hb Hmode].
  pose proof (r_data _ _ _ _ Hb) as Hd. pose proof (r_used _ _ _ _ Hb) as Hu.
  pose proof (power_bounds _ (r_size _ _ _ _ Hb)) as Hsz.
  pose proof (fun i => live_at_used ht bs rest i Hd Hu) as Hlive.
  split.
  - split; [apply Hb|]. destruct (f_initialized ht) eqn:Hi.
    + pose proof (r_room _ _ _ _ Hb Hi). lia.
    + destruct Hmode as [_ _ _ _ ->|?|?]; [simpl in Hu; lia|congruence|congruence].
  - intros Hi. rewrite Hd, length_app. by apply (r_room _ _ _ _ Hb).
  - exists (idxs (fun b => negb (undef b)) 0 bs). split; [apply NoDup_idxs|]. split.
    + intros i. rewrite elem_of_idxs, Hlive. split.
      * intros (n & b & Hn & Hl & ->). exists n, b. rewrite Z.add_0_l.
        split_and!; [done|done|by destruct (undef b)|by apply (bucket_used junk ht bs rest)].
      * intros (n & b & -> & Hn & Hl & _). exists n, b. by rewrite Hl.
    + rewrite idxs_live_length. apply Hb.
  - intros i j Hi Hj. apply Hlive in Hi as (n & b & -> & Hn & Hl & ->).
    apply Hlive in Hj as (n' & b' & -> & Hn' & Hl' & ->). intros Hk. f_equal.
    by apply (keys_unique bs n n' b b'); [apply Hb|..].
  - intros i Hi. apply Hlive in Hi as (n & b & -> & Hn & Hl & ->).
    pose proof (r_hash _ _ _ _ Hb) as Hh. rewrite Forall_lookup in Hh. by apply (Hh n b).
  - pose proof (r_pos _ _ _ _ Hb) as Hp. destruct (m_pos m) as [k|]; [right|by left].
    destruct Hp as (n & b & -> & Hn & Hl & _). apply Hlive. exists n, b. split_and!; try done.
    by apply (bucket_used junk ht bs rest).
  - intros Hp i Hi. destruct Hmode as [?|_ _ _ _ Hpk|?]; [congruence| |congruence].
    apply Hlive in Hi as (n & b & -> & Hn & Hl & ->). destruct (Hpk n b Hn Hl) as [H1 H2].
    unfold bkey. by rewrite H1, H2.
  - intros Hi Hp h Hh. destruct (walk_chain junk ht bs rest m (KIdx h) Hr Hi Hp Hh) as (_ & Hc & _).
    cbn [khash] in Hc. eexists. split; [exact Hc|]. split; [apply NoDup_slot_list|].
    intros i. rewrite elem_of_slot_list, Hlive. split.
    + intros (n & b & Hn & Hl & Hs & ->). pose proof (bucket_used junk ht bs rest n b Hd Hn) as E.
      split; [by exists n, b|]. by rewrite E.
    + intros [(n & b & -> & Hn & Hl & E) Hs]. rewrite E in Hs. by exists n, b.
Qed.

(** C23. The hash table refines the ordered map: from a new table on, a sequence
    of at most [2 ^ 30] insertions, updates, deletions, searches and moves of the
    internal pointer ends without a fatal error and gives, step by step, the
    results it gives on the map, whatever uninitialised memory holds.  Packed
    tables, their conversion, growth, rehashing and collisions do not show. *)
Theorem zend_hash_refines nSize ht ops :
  0 <= nSize -> zend_hash_init nSize = Some ht -> Forall op_ok ops ->
  Z.of_nat (length ops) <= 2 ^ 30 ->
  exists ht', run ops ht = Some (ht', (a_run ops a_empty).2) /\ represents junk ht' (a_run ops a_empty).1.
Proof.
  intros H0 Hi Hops Hl. apply run_ok; [by apply (init_represents nSize)|done|simpl; lia].
Qed.

(** C24. Every table that a sequence of operations leads to is well-formed,
    whatever its size: sizes and counters agree with the buckets, keys are
    distinct, each chain ends and visits the live buckets of its slot exactly
    once, and the internal pointer is not left at a deleted bucket. *)
Theorem zend_hash_well_formed ht : reachable ht -> well_formed ht.
Proof. intros H. destruct (reachable_represents ht H) as [m Hm]. by apply (repr_well_formed ht m). Qed.
End Trace.

(** ** Examples *)

(** Memory that holds arbitrary values. *)
Definition dirt : Bucket Z := Bkt Z (Some 99) 5 3 None.

(** A packed table that grows, has a hole, becomes a hash with colliding keys,
    and is compacted. *)
Definition sample_ops : list op :=
  [OCurrent; ONext 10; ONext 11; ONext 12; OAdd (KIdx 5) 15; OAdd (KIdx 5) 16; ODelete (KIdx 1); OFind (KIdx 4);
   OAdd (KIdx 16) 26; OFind (KIdx 0); OUpdate (KStr [97; 98]) 50; OAdd (KIdx 8) 18; OUpdate (KIdx 5) 55;
   ODelete (KIdx 16); OFind (KIdx 8); OAdd (KStr [98]) 60; OAdd (KIdx (2 ^ 64 - 1)) 70; ODelete (KIdx 0); OCurrent;
   ODelete (KIdx 16); ONext 80; OFind (KStr [98]); OReset; OForward; OForward; OCurrent; OEnd; OBackwards;
   OCurrent].

Definition sample_new : HashTable Z :=
  HT Z false false HT_MIN_MASK [HT_INVALID_IDX; HT_INVALID_IDX] [] 0 0 8 HT_INVALID_IDX 0.

Lemma sample_ops_ok : Forall op_ok sample_ops.
Proof. repeat (constructor; [simpl; lia || done|]). constructor. Qed.

Lemma zend_hash_refines_witness : exists ht, run dirt sample_ops sample_new = Some (ht,
  [REntry None None; RZval (Some 10); RZval (Some 11); RZval (Some 12); RZval (Some 15); RZval None;
   RStatus true; RZval None; RZval (Some 26); RZval (Some 10); RZval (Some 50); RZval (Some 18);
   RZval (Some 55); RStatus true; RZval (Some 18); RZval (Some 60); RZval (Some 70); RStatus true;
   REntry (Some (KIdx 2)) (Some 12); RStatus false; RZval (Some 80); RZval (Some 60); RVoid;
   RStatus true; RStatus true; REntry (Some (KStr [97; 98])) (Some 50); RVoid; RStatus true;
   REntry (Some (KIdx (2 ^ 64 - 1))) (Some 70)]).
Proof.
  destruct (zend_hash_refines dirt 3 sample_new sample_ops) as (ht & E & _);
    [done|reflexivity|exact sample_ops_ok|vm_compute; congruence|].
  exists ht. rewrite E. reflexivity.
Defined.

Definition sample_table : HashTable Z :=
  match run dirt sample_ops sample_new with Some (ht, _) => ht | None => sample_new end.

Lemma sample_reachable : reachable dirt sample_table.
Proof.
  apply (run_reachable dirt sample_ops sample_new _ (a_run sample_ops a_empty).2);
    [by apply (reach_init dirt 3)|exact sample_ops_ok|vm_compute; reflexivity].
Qed.

Lemma zend_hash_well_formed_witness :
  well_formed dirt sample_table /\ nNumUsed sample_table = 7 /\ f_packed sample_table = false.
Proof. split; [apply zend_hash_well_formed, sample_reachable|split; reflexivity]. Defined.

Lemma sample_represents : represents dirt sample_table (a_run sample_ops a_empty).1.
Proof.
  destruct (run_ok dirt sample_ops sample_new a_empty) as (ht & E & H);
    [by apply (init_represents dirt 3)|exact sample_ops_ok|vm_compute; congruence|].
  unfold sample_table. by rewrite E.
Qed.
