(* ===== verification/ZendHashSort.v ===== *)
(** * ZendHashSort: sorting a hash table

    [zend_hash_sort_ex] of Zend/zend_hash.c with [zend_sort]: the empty buckets
    are squeezed out, the others sorted, the keys kept or numbered anew, and the
    chains built again.  The swap functions exchange a part of the buckets only;
    comparisons are functions of that part. *)

From S2P Require Import Prelude ZendSort ZendHash ZendHashList ZendHashOps ZendHashMap ZendHashTrace.
From Stdlib Require Import Sorting.Sorted.

Section HashSort.
Context {V : Type} (junk : Bucket V).
Implicit Types (ht : HashTable V) (b : Bucket V) (bs rest : list (Bucket V)) (m : amap V) (k : key).

#[local] Abbreviation repr := (repr junk).

(** ** The operation *)

(** [for (j = 0, i = 0; j < ht->nNumUsed; j++)]: the table and [i]. *)
(* php:Zend/zend_hash.c:2261-2269 zend_hash_sort_ex: for *)
Fixpoint squeeze (fuel : nat) (i j : Z) ht : HashTable V * Z :=
  match fuel with
  | O => (ht, i)
  | S fuel =>
      if j <? nNumUsed ht then
        let p := bucket junk ht j in
        if undef p then squeeze fuel i (j + 1) ht
        else squeeze fuel (i + 1) (j + 1) (if negb (i =? j) then set_bucket i p ht else ht)
      else (ht, i)
  end.

(** What a swap function exchanges, and how it is put into a bucket; the pointer
    of the chain stays. *)
Definition payload : Type := option V * Z * option (list Z).

Definition bucket_payload b : payload := (b_val b, b_h b, b_key b).

(* php:Zend/zend_hash.c:2203-2220 zend_hash_bucket_swap *)
Definition bucket_swap (p : payload) b : Bucket V := Bkt V p.1.1 (b_next b) p.1.2 p.2.

(* php:Zend/zend_hash.c:2222-2229 zend_hash_bucket_renum_swap *)
Definition bucket_renum_swap (v : option V) b : Bucket V := set_val v b.

(* php:Zend/zend_hash.c:2231-2244 zend_hash_bucket_packed_swap *)
Definition bucket_packed_swap (p : option V * Z) b : Bucket V := Bkt V p.1 (b_next b) p.2 (b_key b).

(** [sort] on the buckets; 28 nested calls are enough for [2 ^ 31] of them. *)
Definition sort_buckets {P : Type} (compar : P -> P -> Z) (get : Bucket V -> P)
  (put : P -> Bucket V -> Bucket V) bs : option (list (Bucket V)) :=
  ps ← zend_sort compar 28 (get <$> bs) 0 (Z.of_nat (length bs)); Some (zip_with put ps bs).

(** [for (j = 0; j < i; j++)]: the keys are numbered. *)
(* php:Zend/zend_hash.c:2279-2286 zend_hash_sort_ex: renumber *)
Definition number_keys bs : list (Bucket V) :=
  imap (fun j b => Bkt V (b_val b) (b_next b) (Z.of_nat j) None) bs.

(** The parameter [renumber], with the comparison. *)
Inductive sort_order : Type :=
  | Keep (compar : payload -> payload -> Z)
  | Renumber (compar : option V -> option V -> Z).

Definition renumber (o : sort_order) : bool := match o with Keep _ => false | Renumber _ => true end.

(* php:Zend/zend_hash.c:2271-2273 zend_hash_sort_ex: sort *)
Definition sort_call (o : sort_order) (packed : bool) bs : option (list (Bucket V)) :=
  match o with
  | Renumber compar => sort_buckets compar b_val bucket_renum_swap bs
  | Keep compar =>
      if packed then
        sort_buckets (fun x y => compar (x, None) (y, None)) (fun b => (b_val b, b_h b)) bucket_packed_swap bs
      else sort_buckets compar bucket_payload bucket_swap bs
  end.

(** A table becomes packed: new memory without chains. *)
(* php:Zend/zend_hash.c:2293-2303 zend_hash_sort_ex: new_data *)
Definition drop_chains ht : HashTable V :=
  set_hash [HT_INVALID_IDX; HT_INVALID_IDX]
    (set_arData (regrow junk (nTableSize ht) ht) (set_mask HT_MIN_MASK (set_packed true ht))).

(* php:Zend/zend_hash.c:2246-2310 zend_hash_sort_ex *)
Definition zend_hash_sort_ex ht (o : sort_order) : option (HashTable V) :=
  if negb (1 <? nNumOfElements ht) && negb (renumber o && (0 <? nNumOfElements ht)) then Some ht
  else
    let '(ht, i) :=
      if nNumUsed ht =? nNumOfElements ht then (ht, nNumUsed ht)
      else squeeze (Z.to_nat (nNumUsed ht)) 0 0 ht in
    let rest := drop (Z.to_nat i) (arData ht) in
    bs ← sort_call o (f_packed ht) (take (Z.to_nat i) (arData ht));
    let ht := set_pointer 0 (set_used i (set_arData (bs ++ rest) ht)) in
    let ht := if renumber o then set_next_free i (set_arData (number_keys bs ++ rest) ht) else ht in
    Some
      (if f_packed ht then if negb (renumber o) then zend_hash_packed_to_hash junk ht else ht
       else if renumber o then drop_chains ht else zend_hash_rehash junk ht).

(** ** Squeezing *)

Lemma squeeze_spec fuel ht l mid todo rest :
  arData ht = l ++ mid ++ todo ++ rest ->
  nNumUsed ht = Z.of_nat (length l + length mid + length todo) -> (length todo <= fuel)%nat ->
  exists tl, squeeze fuel (Z.of_nat (length l)) (Z.of_nat (length l + length mid)) ht =
    (set_arData ((l ++ live todo) ++ tl) ht, Z.of_nat (length (l ++ live todo))) /\
    length ((l ++ live todo) ++ tl) = length (arData ht).
Proof.
  revert ht l mid todo. induction fuel as [|fuel IH]; intros ht l mid todo Hd Hu Hf;
    (destruct todo as [|p todo]; [exists (mid ++ rest); rewrite app_nil_r; cbn [squeeze];
      rewrite ?(proj2 (Z.ltb_ge _ _)) by (rewrite Hu; simpl; lia); change (l ++ mid ++ rest) with (l ++ mid ++ [] ++ rest);
      rewrite <- Hd; split; [by destruct ht|done]|]); [simpl in Hf; lia|cbn [squeeze]].
  rewrite (proj2 (Z.ltb_lt _ _)) by (rewrite Hu; simpl; lia). simpl length in Hf, Hu.
  replace (Z.of_nat (length l + length mid)) with (Z.of_nat (length (l ++ mid))) by (rewrite length_app; lia).
  rewrite (bucket_mid junk ht (l ++ mid) p (todo ++ rest)) by (rewrite Hd; by rewrite <- !app_assoc).
  unfold live. cbn [List.filter]. fold (live todo). destruct (undef p) eqn:Ep; cbn [negb].
  - replace (Z.of_nat (length (l ++ mid)) + 1) with (Z.of_nat (length l + length (mid ++ [p])))
      by (rewrite !length_app; simpl; lia).
    apply IH; [rewrite Hd; by rewrite <- !app_assoc| |lia]. rewrite Hu, length_app. simpl. lia.
  - replace (l ++ p :: live todo) with ((l ++ [p]) ++ live todo) by by rewrite <- app_assoc.
    replace (Z.of_nat (length l) + 1) with (Z.of_nat (length (l ++ [p]))) by (rewrite length_app; simpl; lia).
    destruct mid as [|d0 mid].
    + rewrite app_nil_r, Z.eqb_refl. cbn [negb].
      replace (Z.of_nat (length l) + 1) with (Z.of_nat (length (l ++ [p]) + length (@nil (Bucket V))))
        by (rewrite length_app; simpl; lia).
      apply IH; [rewrite Hd; by rewrite <- !app_assoc| |lia]. rewrite Hu, length_app. simpl. lia.
    + rewrite (proj2 (Z.eqb_neq _ _)) by (rewrite length_app; simpl; lia). cbn [negb].
      rewrite (set_bucket_mid ht l d0 p (mid ++ (p :: todo) ++ rest)) by done.
      replace (Z.of_nat (length (l ++ d0 :: mid)) + 1) with (Z.of_nat (length (l ++ [p]) + length (mid ++ [p])))
        by (rewrite !length_app; simpl; lia).
      destruct (IH (set_arData (l ++ p :: mid ++ (p :: todo) ++ rest) ht) (l ++ [p]) (mid ++ [p]) todo)
        as (tl & E & Hl).
      * change (l ++ p :: mid ++ (p :: todo) ++ rest = (l ++ [p]) ++ (mid ++ [p]) ++ todo ++ rest).
        by rewrite <- !app_assoc.
      * change (nNumUsed ht = Z.of_nat (length (l ++ [p]) + length (mid ++ [p]) + length todo)).
        rewrite Hu, !length_app. simpl. lia.
      * lia.
      * exists tl. split; [exact E|]. rewrite Hl, Hd. cbn. rewrite !length_app. simpl. rewrite !length_app. done.
Qed.

(** The live buckets come first, with or without holes. *)
Lemma squeezed ht bs rest m : base ht bs rest m ->
  exists tl, (if nNumUsed ht =? nNumOfElements ht then (ht, nNumUsed ht)
              else squeeze (Z.to_nat (nNumUsed ht)) 0 0 ht) =
    (set_arData (live bs ++ tl) ht, Z.of_nat (length (live bs))) /\
    length (live bs ++ tl) = length (arData ht).
Proof.
  intros Hb. pose proof (r_used _ _ _ _ Hb) as Hu. pose proof (r_elems _ _ _ _ Hb) as He.
  destruct (Z.eqb_spec (nNumUsed ht) (nNumOfElements ht)) as [E|E].
  - exists rest. rewrite live_all by (apply entries_length; lia). rewrite <- (r_data _ _ _ _ Hb), Hu.
    split; [|done]. f_equal. by destruct ht.
  - apply (squeeze_spec _ ht [] [] bs rest); [by apply Hb|rewrite Hu; simpl; lia|lia].
Qed.

(** ** The call of the sorting function *)

Lemma StronglySorted_fmap {A B} (f : A -> B) (R : B -> B -> Prop) (l : list A) :
  StronglySorted R (f <$> l) <-> StronglySorted (fun x y => R (f x) (f y)) l.
Proof.
  induction l as [|x l IH]; [split; constructor|]. split; intros H; inversion H; subst; constructor.
  - by apply IH.
  - by apply Forall_fmap.
  - by apply IH.
  - by apply Forall_fmap.
Qed.

Lemma sort_buckets_ok {P} (compar : P -> P -> Z) (get : Bucket V -> P) put bs :
  Z.of_nat (length bs) <= 2 ^ 31 ->
  exists ps, sort_buckets compar get put bs = Some (zip_with put ps bs) /\
    length ps = length bs /\ ps ≡ₚ get <$> bs /\
    (total_preorder compar -> StronglySorted (fun x y => compar x y <= 0) ps).
Proof.
  intros Hl. destruct (zend_sort_result compar 27 (get <$> bs)) as (ps & H1 & H2 & H3).
  { rewrite length_fmap. lia. }
  exists ps. unfold sort_buckets. rewrite length_fmap in H1. rewrite H1. split_and!; [done| |done|done].
  by rewrite H2, length_fmap.
Qed.

Lemma zip_with_get {P Q} (get : Bucket V -> Q) (put : P -> Bucket V -> Bucket V) (f : P -> Q) ps bs :
  (forall p b, b ∈ bs -> get (put p b) = f p) -> length ps = length bs ->
  get <$> zip_with put ps bs = f <$> ps.
Proof.
  revert bs. induction ps as [|p ps IH]; intros [|b bs] H Hl; try done. simpl. f_equal; [apply H; left|].
  apply IH; [|by injection Hl]. intros q c Hc. apply H. by right.
Qed.

(** The values, hashes and keys are permuted; the order is that of [compar]. *)
Lemma sort_call_keep compar packed bs :
  Z.of_nat (length bs) <= 2 ^ 31 -> (packed = true -> Forall (fun b => b_key b = None) bs) ->
  exists bs', sort_call (Keep compar) packed bs = Some bs' /\
    bucket_payload <$> bs' ≡ₚ bucket_payload <$> bs /\
    (total_preorder compar -> StronglySorted (fun x y => compar x y <= 0) (bucket_payload <$> bs')).
Proof.
  intros Hl Hp. destruct packed; cbn [sort_call].
  - specialize (Hp eq_refl).
    destruct (sort_buckets_ok (fun x y => compar (x, None) (y, None)) (fun b => (b_val b, b_h b))
      bucket_packed_swap bs Hl) as (ps & -> & Hps & Hperm & Hs).
    eexists. split; [done|].
    rewrite (zip_with_get bucket_payload _ (fun p => (p, None))); [| |done].
    2: { intros [v h] b Hb. rewrite Forall_forall in Hp. unfold bucket_payload. simpl. by rewrite (Hp b Hb). }
    split.
    + rewrite Hperm, <- list_fmap_compose. apply reflexive_eq, list_fmap_ext. intros i b Hb.
      rewrite Forall_lookup in Hp. unfold bucket_payload. simpl. by rewrite (Hp i b Hb).
    + intros Ho. apply StronglySorted_fmap. apply Hs. destruct Ho as [H1 H2]. split; intros *; [apply H1|apply H2].
  - destruct (sort_buckets_ok compar bucket_payload bucket_swap bs Hl) as (ps & -> & Hps & Hperm & Hs).
    eexists. split; [done|]. rewrite (zip_with_get bucket_payload _ id); [| |done].
    2: { intros [[v h] q] b _. done. }
    by rewrite list_fmap_id.
Qed.

(** The values are permuted; the keys are where they were. *)
Lemma sort_call_renumber compar packed bs :
  Z.of_nat (length bs) <= 2 ^ 31 ->
  exists bs', sort_call (Renumber compar) packed bs = Some bs' /\ length bs' = length bs /\
    b_val <$> bs' ≡ₚ b_val <$> bs /\
    (total_preorder compar -> StronglySorted (fun x y => compar x y <= 0) (b_val <$> bs')).
Proof.
  intros Hl. cbn [sort_call].
  destruct (sort_buckets_ok compar b_val bucket_renum_swap bs Hl) as (ps & -> & Hps & Hperm & Hs).
  eexists. split; [done|]. rewrite (zip_with_get b_val _ id) by done. rewrite list_fmap_id.
  split; [|done]. rewrite length_zip_with. lia.
Qed.

(** ** Entries and payloads *)

Definition entry_payload (e : key * V) : payload := (Some e.2, khash e.1, kstr e.1).

Lemma payload_entries bs : Forall (fun b => undef b = false) bs -> Forall hash_ok bs ->
  bucket_payload <$> bs = entry_payload <$> entries bs.
Proof.
  intros Hl Hh. induction Hl as [|b bs Hb Hl IH]; [done|]. apply Forall_cons in Hh as [Hhb Hh].
  change (b :: bs) with ([b] ++ bs). rewrite entries_app. pose proof Hb as Hb'. unfold undef in Hb'.
  destruct (b_val b) as [v|] eqn:E; [|done]. rewrite (entries_live b v E), !fmap_app, (IH Hh). f_equal. simpl.
  f_equal. unfold bucket_payload, entry_payload. cbn. destruct (Hhb Hb) as [_ <-]. rewrite E. f_equal.
  unfold bkey, kstr. by destruct (b_key b).
Qed.

Lemma entries_payload bs :
  entries bs = omap (fun p : payload => v ← p.1.1; Some (match p.2 with Some s => KStr s | None => KIdx p.1.2 end, v))
    (bucket_payload <$> bs).
Proof.
  induction bs as [|b bs IH]; [done|]. change (b :: bs) with ([b] ++ bs). rewrite entries_app, IH.
  rewrite fmap_app, omap_app. f_equal.
Qed.

(** A property of value, hash and key holds for permuted buckets. *)
Lemma payload_Forall (Q : payload -> Prop) bs bs' :
  bucket_payload <$> bs' ≡ₚ bucket_payload <$> bs ->
  Forall (fun b => Q (bucket_payload b)) bs -> Forall (fun b => Q (bucket_payload b)) bs'.
Proof. intros Hp H. apply Forall_fmap. rewrite Hp. by apply Forall_fmap. Qed.

Lemma payload_live bs bs' : bucket_payload <$> bs' ≡ₚ bucket_payload <$> bs ->
  Forall (fun b => undef b = false) bs -> Forall hash_ok bs ->
  Forall (fun b => undef b = false) bs' /\ Forall hash_ok bs' /\ entries bs' ≡ₚ entries bs.
Proof.
  intros Hp Hl Hh.
  assert (Hl' : Forall (fun b => undef b = false) bs').
  { apply (payload_Forall (fun p => match p.1.1 with None => true | Some _ => false end = false) bs); done. }
  assert (Hh' : Forall hash_ok bs').
  { apply (payload_Forall (fun p => match p.1.1 with None => true | Some _ => false end = false ->
      0 <= p.1.2 < 2 ^ 64 /\ p.1.2 = khash (match p.2 with Some s => KStr s | None => KIdx p.1.2 end)) bs); done. }
  split_and!; [done|done|]. by rewrite !entries_payload, Hp.
Qed.

(** ** The table after the sort *)

(** The table [ht1] holds the live buckets [bs]. *)
Lemma sorted_base ht bs0 rest0 m ht1 bs tl free :
  base ht bs0 rest0 m -> Forall (fun b => undef b = false) bs -> Forall hash_ok bs ->
  NoDup (entries bs).*1 -> length bs = length (m_list m) -> bs <> [] ->
  arData ht1 = bs ++ tl -> length (arData ht1) = length (arData ht) ->
  f_initialized ht = true ->
  nNumUsed ht1 = Z.of_nat (length bs) -> nTableSize ht1 = nTableSize ht ->
  nNumOfElements ht1 = nNumOfElements ht -> nInternalPointer ht1 = 0 ->
  nNextFreeElement ht1 = free -> 0 <= free <= ZEND_LONG_MAX ->
  base ht1 bs tl (AM V (entries bs) free (fst <$> head (entries bs))).
Proof.
  intros Hb Hl Hh Hnd Hlen Hne Hd Hda Hi Hu Hs He Hp Hf Hfr.
  assert (Hel : length (entries bs) = length bs) by by rewrite entries_live_length, live_all.
  split; cbn [m_list m_free m_pos]; try done.
  - rewrite Hs. apply Hb.
  - intros _. rewrite Hs, <- (r_room _ _ _ _ Hb Hi), <- !length_app, <- Hd, Hda. by rewrite (r_data _ _ _ _ Hb).
  - rewrite He, Hel, Hlen. by apply (elements_length _ bs0 rest0).
  - destruct bs as [|b bs]; [done|]. apply Forall_cons in Hl as [Hlb Hl].
    change (b :: bs) with ([b] ++ bs). rewrite entries_app. pose proof Hlb as Hlb'. unfold undef in Hlb'.
    destruct (b_val b) as [v|] eqn:Ev; [|done]. rewrite (entries_live b v Ev). by exists O, b.
Qed.

(** The order of entries that [compar] gives. *)
Definition entry_le (compar : payload -> payload -> Z) (x y : key * V) : Prop :=
  compar (entry_payload x) (entry_payload y) <= 0.

(** What sorting with the keys does to the map. *)
Definition kept_sorted compar m m' : Prop :=
  m_list m' ≡ₚ m_list m /\ (total_preorder compar -> StronglySorted (entry_le compar) (m_list m')) /\
  m_free m' = m_free m /\
  m_pos m' = if (length (m_list m) <=? 1)%nat then m_pos m else fst <$> head (m_list m').

Lemma initialized_entries ht bs rest m : repr ht bs rest m -> bs <> [] -> f_initialized ht = true.
Proof. intros [_ Hm] Hne. by destruct Hm. Qed.

Lemma size_bound ht bs rest m : repr ht bs rest m -> Z.of_nat (length (live bs)) <= 2 ^ 31.
Proof.
  intros Hr. destruct bs as [|b bs]; [simpl; lia|].
  pose proof (r_room _ _ _ _ (proj1 Hr) (initialized_entries _ _ _ _ Hr ltac:(done))) as H.
  pose proof (power_bounds _ (r_size _ _ _ _ (proj1 Hr))).
  rewrite <- entries_live_length. pose proof (proj1 (entries_length (b :: bs))). lia.
Qed.

Lemma live_forall bs : Forall (fun b => undef b = false) (live bs).
Proof.
  apply Forall_forall. intros b Hin. unfold live in Hin. apply list_elem_of_In, List.filter_In in Hin as [_ H].
  by destruct (undef b).
Qed.

Lemma zend_hash_sort_keep ht m compar : represents junk ht m ->
  exists ht' m', zend_hash_sort_ex ht (Keep compar) = Some ht' /\ represents junk ht' m' /\
    kept_sorted compar m m'.
Proof.
  intros (bs & rest & Hr). pose proof Hr as [Hb Hmode]. unfold zend_hash_sort_ex. cbn [renumber].
  rewrite andb_false_l, andb_true_r, (elements_length _ _ _ _ Hb).
  destruct (Z.ltb_spec 1 (Z.of_nat (length (m_list m)))) as [Hn|Hn]; cbn [negb].
  2: { exists ht, m. split; [done|]. split; [by exists bs, rest|]. unfold kept_sorted.
       rewrite (proj2 (Nat.leb_le _ _)) by lia. split_and!; try done. intros _.
       destruct (m_list m) as [|e [|e' l]]; [repeat constructor|repeat constructor|simpl in Hn; lia]. }
  rewrite <- (elements_length _ _ _ _ Hb).
  assert (Hne : bs <> []) by (intros ->; rewrite (r_list _ _ _ _ Hb) in Hn; simpl in Hn; lia).
  pose proof (initialized_entries _ _ _ _ Hr Hne) as Hi.
  destruct (squeezed _ _ _ _ Hb) as (tl & -> & Hlen). cbn [fst snd].
  change (arData (set_arData ?x ht)) with x. rewrite Nat2Z.id, take_app_length, drop_app_length.
  change (f_packed (set_arData ?x ht)) with (f_packed ht).
  pose proof (Forall_live (fun b => hash_ok b) bs (r_hash _ _ _ _ Hb)) as Hh.
  pose proof (live_forall bs) as Hl.
  destruct (sort_call_keep compar (f_packed ht) (live bs)) as (bs' & -> & Hperm & Hsort).
  { by apply (size_bound ht bs rest m). }
  { intros Hp. destruct Hmode as [?|_ _ _ _ Hpk|?]; [congruence| |congruence]. apply Forall_forall.
    intros b Hin. unfold live in Hin. apply list_elem_of_In, List.filter_In in Hin as [Hin Hu].
    apply list_elem_of_In, list_elem_of_lookup in Hin as [n Hin]. apply (Hpk n b Hin). by destruct (undef b). }
  cbn [mbind option_bind].
  destruct (payload_live _ _ Hperm Hl Hh) as (Hl' & Hh' & He). rewrite entries_live_eq in He.
  assert (Hlb : length bs' = length (live bs)) by by rewrite <- (length_fmap bucket_payload bs'), Hperm, length_fmap.
  set (ht1 := set_pointer 0 _). set (m1 := AM V (entries bs') (m_free m) (fst <$> head (entries bs'))).
  assert (Hb1 : base ht1 bs' tl m1).
  { apply (sorted_base ht bs rest m); try done.
    - rewrite He. apply Hb.
    - rewrite Hlb, <- entries_live_length. by rewrite (r_list _ _ _ _ Hb).
    - intros ->. simpl in Hlb. rewrite <- entries_live_length, <- (r_list _ _ _ _ Hb) in Hlb. lia.
    - change (arData ht1) with (bs' ++ tl). rewrite <- Hlen, !length_app. lia.
    - change (Z.of_nat (length (live bs)) = Z.of_nat (length bs')). lia.
    - change (nNextFreeElement ht = m_free m). apply Hb.
    - apply Hb. }
  assert (Hk : kept_sorted compar m m1).
  { split; [|split; [|split; [done|]]]; cbn [m_list m1].
    - by rewrite He, (r_list _ _ _ _ Hb).
    - intros Ho. specialize (Hsort Ho). rewrite payload_entries in Hsort by done.
      by apply StronglySorted_fmap in Hsort.
    - by rewrite (proj2 (Nat.leb_gt _ _)) by lia. }
  change (f_packed ht1) with (f_packed ht). destruct (f_packed ht) eqn:Hp.
  - eexists _, m1. split; [done|]. split; [|done].
    destruct (packed_to_hash_repr junk ht1 bs' tl m1 Hb1 Hi) as (bs2 & rest2 & H & _). by exists bs2, rest2.
  - eexists _, m1. split; [done|]. split; [|done].
    destruct Hmode as [?|?|_ _ Hm _]; [congruence|congruence|].
    destruct (rehash_repr junk ht1 bs' tl m1 Hb1 Hi Hp Hm) as (bs2 & rest2 & H & _). by exists bs2, rest2.
Qed.

(** ** New keys *)

Definition numbered (o : nat) (vals : list V) : list (key * V) :=
  imap (fun j v => (KIdx (Z.of_nat (o + j)), v)) vals.

Lemma numbered_cons o v vals : numbered o (v :: vals) = (KIdx (Z.of_nat o), v) :: numbered (S o) vals.
Proof.
  unfold numbered. simpl. rewrite Nat.add_0_r. f_equal. apply imap_ext. intros i x _. simpl. do 3 f_equal. lia.
Qed.

Lemma number_keys_lookup bs n b : number_keys bs !! n = Some b ->
  exists b0, bs !! n = Some b0 /\ b = Bkt V (b_val b0) (b_next b0) (Z.of_nat n) None.
Proof.
  unfold number_keys. rewrite list_lookup_imap. destruct (bs !! n) as [b0|]; [|done]. intros [= <-]. by exists b0.
Qed.

Lemma number_keys_entries bs vals : b_val <$> bs = Some <$> vals ->
  entries (number_keys bs) = numbered 0 vals.
Proof.
  unfold number_keys. assert (H : forall o bs vals, b_val <$> bs = Some <$> vals ->
    entries (imap (fun j b => Bkt V (b_val b) (b_next b) (Z.of_nat (o + j)) None) bs) = numbered o vals).
  { clear. intros o bs. revert o. induction bs as [|b bs IH]; intros o [|v vals] E; try done.
    simpl in E. injection E as Eb E. rewrite numbered_cons, <- (IH (S o) vals E), imap_cons.
    match goal with |- entries (?x :: ?l) = _ => change (entries ([x] ++ l) = (KIdx (Z.of_nat o), v) :: entries
      (imap (fun j b => Bkt V (b_val b) (b_next b) (Z.of_nat (S o + j)) None) bs)) end.
    rewrite entries_app, (entries_live _ v) by done. cbn [app]. rewrite Nat.add_0_r. f_equal. f_equal.
    apply imap_ext. intros i x _. simpl. f_equal. lia. }
  apply (H O).
Qed.

Lemma numbered_keys o vals i v : (i, v) ∈ numbered o vals -> exists n, i = KIdx (Z.of_nat n) /\ (o <= n)%nat.
Proof.
  revert o. induction vals as [|w vals IH]; intros o; [by intros ?%not_elem_of_nil|].
  rewrite numbered_cons, elem_of_cons. intros [[= -> _]|H]; [by exists o|].
  destruct (IH _ H) as (n & -> & Hn). exists n. split; [done|lia].
Qed.

Lemma numbered_nodup o vals : NoDup (numbered o vals).*1.
Proof.
  revert o. induction vals as [|v vals IH]; intros o; [constructor|]. rewrite numbered_cons, fmap_cons.
  constructor; [|apply IH]. intros H. apply list_elem_of_fmap in H as ([k w] & E & H).
  apply numbered_keys in H as (n & -> & Hn). simpl in E. injection E as E. lia.
Qed.

(** What sorting with new keys does to the map. *)
Definition sorted_numbered compar m m' : Prop :=
  exists vals, m_list m' = numbered 0 vals /\ vals ≡ₚ (m_list m).*2 /\
  (total_preorder compar -> StronglySorted (fun v w => compar (Some v) (Some w) <= 0) vals) /\
  m_free m' = Z.of_nat (length vals) /\ m_pos m' = fst <$> head (m_list m').

Lemma entries_values bs : Forall (fun b => undef b = false) bs -> b_val <$> bs = Some <$> (entries bs).*2.
Proof.
  induction 1 as [|b bs Hb _ IH]; [done|]. change (b :: bs) with ([b] ++ bs).
  rewrite entries_app, !fmap_app, IH. f_equal. unfold undef in Hb.
  destruct (b_val b) as [v|] eqn:E; [|done]. rewrite (entries_live b v E). simpl. by rewrite E.
Qed.

Lemma numbered_base ht bs rest m ht1 bs' tl vals :
  repr ht bs rest m -> m_list m <> [] -> length bs' = length (live bs) -> b_val <$> bs' = Some <$> vals ->
  arData ht1 = number_keys bs' ++ tl -> length (live bs ++ tl) = length (arData ht) ->
  nNumUsed ht1 = Z.of_nat (length (live bs)) -> nTableSize ht1 = nTableSize ht ->
  nNumOfElements ht1 = nNumOfElements ht -> nInternalPointer ht1 = 0 ->
  nNextFreeElement ht1 = Z.of_nat (length (live bs)) ->
  base ht1 (number_keys bs') tl (AM V (numbered 0 vals) (Z.of_nat (length (live bs))) (fst <$> head (numbered 0 vals))).
Proof.
  intros Hr Hm Hlb Hvals Hd Hlen Hu Hs He Hp Hf. pose proof Hr as [Hb _].
  assert (Hne : bs <> []) by (intros ->; by rewrite (r_list _ _ _ _ Hb) in Hm).
  pose proof (initialized_entries _ _ _ _ Hr Hne) as Hi. pose proof (size_bound ht bs rest m Hr) as Hsz.
  assert (Hln : length (number_keys bs') = length bs') by apply length_imap.
  rewrite <- (number_keys_entries bs' vals Hvals).
  apply (sorted_base ht bs rest m); try done.
  - apply Forall_lookup. intros n b Hbn. apply number_keys_lookup in Hbn as (b0 & Hb0 & ->).
    apply (f_equal (lookup n)) in Hvals. rewrite !list_lookup_fmap, Hb0 in Hvals. simpl in Hvals.
    unfold undef. simpl. by destruct (vals !! n) as [v|]; [injection Hvals as ->|].
  - apply Forall_lookup. intros n b Hbn. pose proof (lookup_lt_Some _ _ _ Hbn) as Hlt.
    apply number_keys_lookup in Hbn as (b0 & Hb0 & ->). intros _. simpl. split; [lia|done].
  - rewrite (number_keys_entries bs' vals Hvals). apply numbered_nodup.
  - rewrite Hln, Hlb, <- entries_live_length. by rewrite (r_list _ _ _ _ Hb).
  - intros E. rewrite E in Hln. simpl in Hln. rewrite Hlb, <- entries_live_length, <- (r_list _ _ _ _ Hb) in Hln.
    destruct (m_list m); done.
  - rewrite Hd, <- Hlen, !length_app. lia.
  - lia.
  - unfold ZEND_LONG_MAX. lia.
Qed.

Lemma alookup_perm k (l l' : list (key * V)) : NoDup l.*1 -> l' ≡ₚ l -> alookup k l' = alookup k l.
Proof.
  intros Hnd Hp. assert (Hnd' : NoDup l'.*1) by by rewrite Hp.
  destruct (alookup k l) as [v|] eqn:E.
  - assert (Hin : (k, v) ∈ l').
    { rewrite Hp. clear - E. induction l as [|[k' w] l IH]; [done|]. simpl in E. case_decide as Ek.
      - injection E as ->. subst k'. left.
      - right. by apply IH. }
    apply list_elem_of_split in Hin as (l1 & l2 & ->). apply alookup_mid.
    rewrite fmap_app, fmap_cons in Hnd'. apply NoDup_app in Hnd' as (_ & Hd & _).
    intros Hk. apply (Hd _ Hk). left.
  - apply alookup_None. rewrite Hp. by apply alookup_None.
Qed.

(** C25. Sorting a table, [zend_hash_sort_ex] with [zend_sort]: on a table that
    represents a map it ends, and the result represents the map with its entries
    permuted, in the order of the comparison if that is a total preorder, and the
    internal pointer at the first entry; the same keys find the same values.
    Tables of at most one entry are left alone. *)
Theorem zend_hash_sort_keeps ht m compar : represents junk ht m ->
  exists ht' m', zend_hash_sort_ex ht (Keep compar) = Some ht' /\ represents junk ht' m' /\
    kept_sorted compar m m' /\ forall k, key_ok k -> a_find k m' = a_find k m.
Proof.
  intros H. destruct (zend_hash_sort_keep ht m compar H) as (ht' & m' & H1 & H2 & H3).
  exists ht', m'. split_and!; try done. intros k _. destruct H as (bs & rest & [Hb _]).
  unfold a_find. apply alookup_perm; [|apply H3]. rewrite (r_list _ _ _ _ Hb). apply Hb.
Qed.

(** Sorting with new keys: a table that is not empty becomes a packed list of
    the values, in order if the comparison is a total preorder, under the keys 0,
    1, 2 and so on; the next free key is their number. *)
Theorem zend_hash_sort_numbers ht m compar : represents junk ht m -> m_list m <> [] ->
  exists ht' m', zend_hash_sort_ex ht (Renumber compar) = Some ht' /\ represents junk ht' m' /\
    f_packed ht' = true /\ sorted_numbered compar m m'.
Proof.
  intros (bs & rest & Hr) Hm. pose proof Hr as [Hb Hmode]. unfold zend_hash_sort_ex. cbn [renumber].
  assert (Hn : 0 < nNumOfElements ht).
  { rewrite (elements_length _ _ _ _ Hb). destruct (m_list m); [done|simpl; lia]. }
  rewrite (proj2 (Z.ltb_lt _ _) Hn), andb_false_r.
  assert (Hne : bs <> []) by (intros ->; by rewrite (r_list _ _ _ _ Hb) in Hm).
  pose proof (initialized_entries _ _ _ _ Hr Hne) as Hi.
  destruct (squeezed _ _ _ _ Hb) as (tl & -> & Hlen). cbn [fst snd].
  change (arData (set_arData ?x ht)) with x. rewrite Nat2Z.id, take_app_length, drop_app_length.
  change (f_packed (set_arData ?x ht)) with (f_packed ht).
  pose proof (live_forall bs) as Hl. pose proof (size_bound ht bs rest m Hr) as Hsz.
  destruct (sort_call_renumber compar (f_packed ht) (live bs) Hsz) as (bs' & -> & Hlb & Hperm & Hsort).
  cbn [mbind option_bind].
  rewrite (entries_values (live bs) Hl), entries_live_eq, <- (r_list _ _ _ _ Hb) in Hperm.
  destruct (Permutation_map_inv Some _ Hperm) as (vals & Hvals & Hpv).
  change (map Some vals) with (Some <$> vals) in Hvals. symmetry in Hpv.
  assert (Hlv : length vals = length bs') by (apply (f_equal length) in Hvals; by rewrite !length_fmap in Hvals).
  set (ht1 := set_next_free _ _).
  pose proof (numbered_base ht bs rest m ht1 bs' tl vals Hr Hm Hlb Hvals eq_refl Hlen eq_refl eq_refl eq_refl
    eq_refl eq_refl) as Hb1. set (m1 := AM V _ _ _) in Hb1.
  assert (Hk : sorted_numbered compar m m1).
  { exists vals. cbn [m_list m_free m_pos m1]. split_and!; try done.
    - intros Ho. specialize (Hsort Ho). rewrite Hvals in Hsort. by apply StronglySorted_fmap in Hsort.
    - by rewrite Hlv, Hlb. }
  assert (Hpk : packed_ok (number_keys bs')).
  { intros n b Hbn _. apply number_keys_lookup in Hbn as (b0 & _ & ->). done. }
  change (f_packed ht1) with (f_packed ht). destruct (f_packed ht) eqn:Hp; cbn [negb].
  - eexists _, m1. split; [done|]. split; [|by split]. exists (number_keys bs'), tl. split; [done|].
    destruct Hmode as [?|_ _ Hma Hha _|?]; [congruence| |congruence]. by apply mode_packed.
  - eexists _, m1. split; [done|]. split; [|by split].
    pose proof (used_le_size _ _ _ _ Hb1 Hi) as Hu1.
    destruct (regrow_eq junk ht1 _ _ _ (nTableSize ht1) Hb1 Hu1) as [Hrg Hl2].
    exists (number_keys bs'), (replicate (Z.to_nat (nTableSize ht1 - nNumUsed ht1)) junk). split.
    + apply (base_move ht1 _ _ tl); try done. apply Hb1.
    + by apply mode_packed.
Qed.
End HashSort.

(** ** Examples *)

(** The largest value first. *)
Definition value_down (x y : option Z) : Z := default 0 y - default 0 x.

Definition by_value (x y : @payload Z) : Z := value_down x.1.1 y.1.1.

Lemma value_down_preorder : total_preorder value_down.
Proof. unfold total_preorder, value_down. split; intros; lia. Qed.

Lemma by_value_preorder : total_preorder by_value.
Proof. destruct value_down_preorder. unfold total_preorder, by_value. split; intros; auto. eauto. Qed.

Lemma zend_hash_sort_keeps_witness : exists ht' m',
  zend_hash_sort_ex dirt sample_table (Keep by_value) = Some ht' /\ represents dirt ht' m' /\
  StronglySorted (entry_le by_value) (m_list m') /\ a_find (KIdx 8) m' = Some 18.
Proof.
  destruct (zend_hash_sort_keeps dirt sample_table _ by_value sample_represents)
    as (ht' & m' & H1 & H2 & (_ & H3 & _) & H4).
  exists ht', m'. split; [exact H1|]. split; [exact H2|]. split; [exact (H3 by_value_preorder)|].
  rewrite (H4 (KIdx 8)); [vm_compute; reflexivity|split; vm_compute; congruence].
Defined.

Lemma zend_hash_sort_numbers_witness : exists ht' m',
  zend_hash_sort_ex dirt sample_table (Renumber value_down) = Some ht' /\ represents dirt ht' m' /\
  f_packed ht' = true /\ m_pos m' = fst <$> head (m_list m').
Proof.
  destruct (zend_hash_sort_numbers dirt sample_table _ value_down sample_represents)
    as (ht' & m' & H1 & H2 & H3 & vals & _ & _ & _ & _ & H5); [vm_compute; congruence|].
  exists ht', m'. split; [exact H1|]. split; [exact H2|]. split; [exact H3|exact H5].
Defined.

(** The sample table, sorted by value and numbered. *)
Example sort_sample :
  (ht ← zend_hash_sort_ex dirt sample_table (Renumber value_down); Some (b_val <$> take 7 (arData ht), nNextFreeElement ht)) =
  Some ([Some 80; Some 70; Some 60; Some 55; Some 50; Some 18; Some 12], 7).
Proof. vm_compute. reflexivity. Qed.
