(* ===== verification/ZendHashApply.v ===== *)
(** * ZendHashApply: deletion of buckets, and functions applied to a table

    [_zend_hash_del_el], [zend_hash_apply], [zend_hash_reverse_apply] and
    [zend_hash_clean] of Zend/zend_hash.c. *)

From S2P Require Import Prelude ZendHash ZendHashList ZendHashOps ZendHashMap ZendHashDel ZendHashTrace.

Section Apply.
Context {V : Type} (junk : Bucket V).
Implicit Types (ht : HashTable V) (b : Bucket V) (bs rest : list (Bucket V)) (m : amap V) (k : key).

#[local] Abbreviation repr := (repr junk).

(** ** The operations *)

(** [while (Z_NEXT(prev->val) != idx)] *)
(* php:Zend/zend_hash.c:1012-1017 _zend_hash_del_el: while *)
Fixpoint prev_in_chain (fuel : nat) ht (i idx : Z) : Z :=
  match fuel with
  | O => i
  | S fuel =>
      let next := b_next (bucket junk ht i) in
      if negb (next =? idx) then prev_in_chain fuel ht next idx else i
  end.

(* php:Zend/zend_hash.c:1004-1022 _zend_hash_del_el *)
Definition zend_hash_del_el (idx : Z) ht : HashTable V :=
  let prev :=
    if negb (f_packed ht) then
      let nIndex := hash_index ht (b_h (bucket junk ht idx)) in
      let i := HT_HASH ht nIndex in
      if negb (i =? idx) then Some (prev_in_chain (chain_fuel ht) ht i idx) else None
    else None in
  zend_hash_del_el_ex junk idx prev ht.

(** What the callback wants: [ZEND_HASH_APPLY_REMOVE], [ZEND_HASH_APPLY_STOP]. *)
Record apply_result : Type := Apply { remove : bool; stop : bool }.

(* php:Zend/zend_hash.c:1504-1518 zend_hash_apply: for *)
Fixpoint apply_loop (fuel : nat) (apply_func : V -> apply_result) (idx : Z) ht : HashTable V :=
  match fuel with
  | O => ht
  | S fuel =>
      if idx <? nNumUsed ht then
        match b_val (bucket junk ht idx) with
        | None => apply_loop fuel apply_func (idx + 1) ht
        | Some v =>
            let result := apply_func v in
            let ht := if remove result then zend_hash_del_el idx ht else ht in
            if stop result then ht else apply_loop fuel apply_func (idx + 1) ht
        end
      else ht
  end.

(* php:Zend/zend_hash.c:1496-1520 zend_hash_apply *)
Definition zend_hash_apply ht (apply_func : V -> apply_result) : HashTable V :=
  apply_loop (Z.to_nat (nNumUsed ht)) apply_func 0 ht.

(* php:Zend/zend_hash.c:1592-1609 zend_hash_reverse_apply: while *)
Fixpoint reverse_apply_loop (fuel : nat) (apply_func : V -> apply_result) (idx : Z) ht : HashTable V :=
  match fuel with
  | O => ht
  | S fuel =>
      if 0 <? idx then
        let idx := idx - 1 in
        match b_val (bucket junk ht idx) with
        | None => reverse_apply_loop fuel apply_func idx ht
        | Some v =>
            let result := apply_func v in
            let ht := if remove result then zend_hash_del_el idx ht else ht in
            if stop result then ht else reverse_apply_loop fuel apply_func idx ht
        end
      else ht
  end.

(* php:Zend/zend_hash.c:1584-1611 zend_hash_reverse_apply *)
Definition zend_hash_reverse_apply ht (apply_func : V -> apply_result) : HashTable V :=
  reverse_apply_loop (Z.to_nat (nNumUsed ht)) apply_func (nNumUsed ht) ht.

(** Without a destructor. *)
(* php:Zend/zend_hash.c:1335-1402 zend_hash_clean *)
Definition zend_hash_clean ht : HashTable V :=
  let ht := if negb (nNumUsed ht =? 0) && negb (f_packed ht) then HT_HASH_RESET ht else ht in
  set_pointer HT_INVALID_IDX (set_next_free 0 (set_elements 0 (set_used 0 ht))).

(** ** On the map *)

(** The entries are visited in their order; deletions move the position on. *)
Fixpoint a_apply (f : V -> apply_result) (l : list (key * V)) m : amap V :=
  match l with
  | [] => m
  | (k, v) :: l =>
      let m := if remove (f v) then a_delete k m else m in
      if stop (f v) then m else a_apply f l m
  end.

(** ** Deletion of a bucket *)

Lemma prev_in_chain_spec fuel ht l1 p i l2 : forall start,
  chain (fun i => b_next (bucket junk ht i)) start (l1 ++ p :: i :: l2) ->
  (length l1 < fuel)%nat -> i ∉ l1 ++ [p] ->
  prev_in_chain fuel ht start i = p.
Proof.
  revert fuel. induction l1 as [|j l1 IH]; intros [|fuel] start Hc Hf Hi; try (simpl in Hf; lia);
    destruct Hc as [-> Hc]; cbn [prev_in_chain].
  - destruct Hc as [-> _]. by rewrite Z.eqb_refl.
  - assert (Hn : b_next (bucket junk ht j) <> i).
    { destruct l1 as [|j' l1]; destruct Hc as [-> _]; intros ->; apply Hi; right; left. }
    rewrite (proj2 (Z.eqb_neq _ _) Hn). cbn [negb]. apply IH; [done|simpl in Hf; lia|].
    intros H. apply Hi. by right.
Qed.

Lemma live_key_ok bs n b : Forall hash_ok bs -> bs !! n = Some b -> undef b = false ->
  key_ok (bkey b) /\ khash (bkey b) = b_h b.
Proof.
  intros Hh Hn Hu. rewrite Forall_lookup in Hh. destruct (Hh n b Hn Hu) as [H1 H2].
  unfold key_ok. by rewrite <- H2.
Qed.

(** A live bucket is deleted by its position. *)
Lemma del_el_repr ht bs rest m n b : repr ht bs rest m -> bs !! n = Some b -> undef b = false ->
  exists bs' rest', repr (zend_hash_del_el (Z.of_nat n) ht) bs' rest' (a_delete (bkey b) m) /\ released bs rest n bs' rest'.
Proof.
  intros Hr Hn Hu. pose proof Hr as [Hb Hmode]. unfold zend_hash_del_el.
  rewrite (bucket_used junk ht bs rest n b) by (done || apply Hb).
  destruct (f_packed ht) eqn:Hp; cbn [negb]; [by apply (del_el_ex_packed junk ht bs rest)|].
  assert (Hi : f_initialized ht = true) by (destruct Hmode as [_ _ _ _ ->|?|?]; done).
  destruct (live_key_ok bs n b (r_hash _ _ _ _ Hb) Hn Hu) as [Hk Hbh].
  destruct (walk_chain junk ht bs rest m (bkey b) Hr Hi Hp Hk) as (_ & Hc & _ & _ & Hf). rewrite Hbh in *.
  set (l := slot_list _ _ bs) in *. set (start := HT_HASH _ _) in *.
  assert (Hin : Z.of_nat n ∈ l) by (apply elem_of_slot_list; by exists n, b).
  apply list_elem_of_split in Hin as (l1 & l2 & E).
  assert (Hnd : NoDup l) by apply NoDup_slot_list.
  assert (Hprev : (if negb (start =? Z.of_nat n) then Some (prev_in_chain (chain_fuel ht) ht start (Z.of_nat n)) else None)
    = last l1).
  { rewrite E in Hc, Hf, Hnd. apply NoDup_app in Hnd as (_ & Hnd & _).
    destruct l1 as [|p l1 _] using rev_ind.
    - destruct Hc as [-> _]. by rewrite Z.eqb_refl.
    - rewrite last_snoc. rewrite <- app_assoc in Hc, Hf. cbn [app] in Hc, Hf.
      assert (Hnot : Z.of_nat n ∉ l1 ++ [p]) by (intros H; apply (Hnd _ H); left).
      assert (Hs : start <> Z.of_nat n).
      { intros Es. apply Hnot. destruct l1 as [|j l1]; destruct Hc as [Hj _]; rewrite <- Es, Hj; left. }
      rewrite (proj2 (Z.eqb_neq _ _) Hs). cbn [negb]. f_equal.
      apply (prev_in_chain_spec _ ht l1 p (Z.of_nat n) l2); [done| |done].
      rewrite length_app in Hf. lia. }
  rewrite Hprev. by apply (del_el_ex_hash junk ht bs rest m n b l1 l2).
Qed.

(** ** The loops *)

Lemma apply_loop_ok f fuel ht bs rest m n : repr ht bs rest m -> (length bs <= fuel + n)%nat ->
  represents junk (apply_loop fuel f (Z.of_nat n) ht) (a_apply f (entries (drop n bs)) m).
Proof.
  revert ht bs rest m n. induction fuel as [|fuel IH]; intros ht bs rest m n Hr Hf; cbn [apply_loop].
  { rewrite drop_ge by lia. by exists bs, rest. }
  rewrite (r_used _ _ _ _ (proj1 Hr)).
  destruct (Z.ltb_spec (Z.of_nat n) (Z.of_nat (length bs))); [|rewrite drop_ge by lia; by exists bs, rest].
  destruct (lookup_lt_is_Some_2 bs n) as [b Hn]; [lia|].
  rewrite (bucket_used junk ht bs rest n b), (drop_S bs b) by (done || apply Hr).
  change (b :: drop (S n) bs) with ([b] ++ drop (S n) bs). rewrite entries_app.
  replace (Z.of_nat n + 1) with (Z.of_nat (S n)) by lia.
  destruct (b_val b) as [v|] eqn:Ev.
  2: { rewrite entries_undef by (unfold undef; by rewrite Ev). cbn [app]. apply (IH _ _ rest); [done|lia]. }
  assert (Hu : undef b = false) by (unfold undef; by rewrite Ev).
  rewrite (entries_live b v Ev). cbn [app a_apply]. destruct (remove (f v)).
  - destruct (del_el_repr ht bs rest m n b Hr Hn Hu) as (bs' & rest' & Hr' & (dr & _ & _ & Hl) & _ & Hd).
    destruct (stop (f v)); [by exists bs', rest'|]. rewrite <- Hd. apply (IH _ _ rest'); [done|lia].
  - destruct (stop (f v)); [by exists bs, rest|]. apply (IH _ _ rest); [done|lia].
Qed.

Lemma reverse_apply_loop_ok f fuel ht bs gap tl m n : repr ht bs (gap ++ tl) m ->
  Forall (fun b => undef b = true) gap -> (n <= length bs + length gap)%nat -> (n <= fuel)%nat ->
  represents junk (reverse_apply_loop fuel f (Z.of_nat n) ht) (a_apply f (rev (entries (take n bs))) m).
Proof.
  revert ht bs gap m n. induction fuel as [|fuel IH]; intros ht bs gap m n Hr Hg Hn Hf; cbn [reverse_apply_loop].
  { assert (n = 0%nat) as -> by lia. by exists bs, (gap ++ tl). }
  destruct n as [|n]; [by exists bs, (gap ++ tl)|].
  rewrite (proj2 (Z.ltb_lt _ _)) by lia. replace (Z.of_nat (S n) - 1) with (Z.of_nat n) by lia.
  destruct (Nat.lt_ge_cases n (length bs)) as [Hlt|Hge].
  - destruct (lookup_lt_is_Some_2 bs n Hlt) as [b Hb].
    rewrite (bucket_used junk ht bs (gap ++ tl) n b), (take_S_r bs n b) by (done || apply Hr).
    rewrite entries_app. destruct (b_val b) as [v|] eqn:Ev.
    2: { rewrite entries_undef, app_nil_r by (unfold undef; by rewrite Ev). apply (IH _ _ gap); [done|done|lia|lia]. }
    assert (Hu : undef b = false) by (unfold undef; by rewrite Ev).
    rewrite (entries_live b v Ev), rev_app_distr. cbn [rev app a_apply]. destruct (remove (f v)).
    + destruct (del_el_repr ht bs (gap ++ tl) m n b Hr Hb Hu) as (bs' & rest' & Hr' & (dr & Hdr & -> & Hl) & Ht & _).
      destruct (stop (f v)); [by exists bs', (dr ++ gap ++ tl)|]. rewrite <- Ht. rewrite app_assoc in Hr'.
      apply (IH _ _ (dr ++ gap)); [done|by apply Forall_app|rewrite length_app; lia|lia].
    + destruct (stop (f v)); [by exists bs, (gap ++ tl)|]. apply (IH _ _ gap); [done|done|lia|lia].
  - destruct (lookup_lt_is_Some_2 gap (n - length bs)) as [b Hb]; [lia|].
    assert (Hbk : bucket junk ht (Z.of_nat n) = b).
    { apply bucket_lookup. rewrite (r_data _ _ _ _ (proj1 Hr)), lookup_app_r by lia. by apply lookup_app_l_Some. }
    rewrite Forall_lookup in Hg. pose proof (Hg _ _ Hb) as Hu. unfold undef in Hu. rewrite Hbk.
    destruct (b_val b); [done|].
    rewrite (take_ge bs (S n)) by lia. rewrite <- (take_ge bs n) at 1 by lia.
    apply (IH _ _ gap); [done|by apply Forall_lookup|lia|lia].
Qed.

(** ** What is left *)

Lemma a_apply_forward f l : (forall v, stop (f v) = false) -> forall l1 m,
  NoDup (l1 ++ l).*1 -> m_list m = l1 ++ l ->
  m_list (a_apply f l m) = l1 ++ filter (fun e => remove (f e.2) = false) l.
Proof.
  intros Hs. induction l as [|[k v] l IH]; intros l1 m Hnd Hm; cbn [a_apply]; [done|].
  rewrite Hs, filter_cons. cbn [snd]. destruct (remove (f v)) eqn:E.
  - rewrite decide_False by done. rewrite fmap_app, fmap_cons in Hnd.
    apply NoDup_app in Hnd as (Hnd1 & Hd & Hnd2). apply NoDup_cons in Hnd2 as [Hk Hnd2].
    assert (Hk1 : k ∉ l1.*1) by (intros H; apply (Hd _ H); left).
    apply IH; [|cbn [a_delete m_list]; rewrite Hm; by apply adelete_mid].
    rewrite fmap_app. apply NoDup_app. split_and!; [done| |done]. intros x Hx Hx'. apply (Hd x Hx). by right.
  - rewrite decide_True by done. change ((k, v) :: filter (fun e => remove (f e.2) = false) l)
      with ([(k, v)] ++ filter (fun e => remove (f e.2) = false) l). rewrite app_assoc.
    apply IH; by rewrite <- app_assoc.
Qed.

Lemma a_apply_backward f l : (forall v, stop (f v) = false) -> forall l1 m,
  NoDup (rev l ++ l1).*1 -> m_list m = rev l ++ l1 ->
  m_list (a_apply f l m) = rev (filter (fun e => remove (f e.2) = false) l) ++ l1.
Proof.
  intros Hs. induction l as [|[k v] l IH]; intros l1 m Hnd Hm; cbn [a_apply]; [done|].
  rewrite Hs, filter_cons. cbn [snd]. cbn [rev] in Hnd, Hm. rewrite <- app_assoc in Hnd, Hm. cbn [app] in Hnd, Hm.
  destruct (remove (f v)) eqn:E.
  - rewrite decide_False by done. rewrite fmap_app, fmap_cons in Hnd.
    apply NoDup_app in Hnd as (Hnd1 & Hd & Hnd2). apply NoDup_cons in Hnd2 as [Hk Hnd2].
    assert (Hk1 : k ∉ (rev l).*1) by (intros H; apply (Hd _ H); left).
    apply IH; [|cbn [a_delete m_list]; rewrite Hm; by apply adelete_mid].
    rewrite fmap_app. apply NoDup_app. split_and!; [done| |done]. intros x Hx Hx'. apply (Hd x Hx). by right.
  - rewrite decide_True by done. cbn [rev]. rewrite <- app_assoc. by apply IH.
Qed.

Lemma filter_rev {A} (P : A -> Prop) `{!forall x, Decision (P x)} (l : list A) :
  filter P (rev l) = rev (filter P l).
Proof.
  induction l as [|x l IH]; [done|]. cbn [rev]. rewrite filter_app, IH, !filter_cons.
  destruct (decide (P x)); cbn [rev]; [done|]. by rewrite app_nil_r.
Qed.

(** [zend_hash_apply] and [zend_hash_reverse_apply] visit the entries in their
    order and in the opposite one, each once, although the callback may have them
    removed on the way: exactly the entries for which it says so go, up to the one
    at which it stops. *)
Theorem zend_hash_apply_visits ht m f : represents junk ht m ->
  represents junk (zend_hash_apply ht f) (a_apply f (m_list m) m) /\
  represents junk (zend_hash_reverse_apply ht f) (a_apply f (rev (m_list m)) m) /\
  ((forall v, stop (f v) = false) ->
    m_list (a_apply f (m_list m) m) = filter (fun e => remove (f e.2) = false) (m_list m) /\
    m_list (a_apply f (rev (m_list m)) m) = filter (fun e => remove (f e.2) = false) (m_list m)).
Proof.
  intros (bs & rest & Hr). pose proof (r_used _ _ _ _ (proj1 Hr)) as Hu.
  rewrite (r_list _ _ _ _ (proj1 Hr)). unfold zend_hash_apply, zend_hash_reverse_apply. rewrite Hu. split_and!.
  - apply (apply_loop_ok f _ ht bs rest m 0); [done|lia].
  - pose proof (reverse_apply_loop_ok f (Z.to_nat (Z.of_nat (length bs))) ht bs [] rest m (length bs)) as H.
    rewrite firstn_all in H. apply H; [done|constructor|lia|lia].
  - intros Hs. pose proof (r_nodup _ _ _ _ (proj1 Hr)) as Hnd. pose proof (r_list _ _ _ _ (proj1 Hr)) as Hl. split.
    + by apply (a_apply_forward f _ Hs []).
    + rewrite (a_apply_backward f _ Hs []), app_nil_r, filter_rev, rev_involutive; [done|..];
        by rewrite app_nil_r, rev_involutive.
Qed.

(** A cleaned table is as good as new. *)
Lemma zend_hash_clean_ok ht m : represents junk ht m -> represents junk (zend_hash_clean ht) a_empty.
Proof.
  intros (bs & rest & Hr). pose proof Hr as [Hb Hmode]. pose proof (power_bounds _ (r_size _ _ _ _ Hb)) as Hsz.
  unfold zend_hash_clean. set (ht1 := if _ : bool then _ else ht).
  assert (E : arData ht1 = arData ht /\ nTableSize ht1 = nTableSize ht /\ f_initialized ht1 = f_initialized ht /\
    f_packed ht1 = f_packed ht /\ nTableMask ht1 = nTableMask ht) by by unfold ht1; destruct (_ && _).
  destruct E as (E1 & E2 & E3 & E4 & E5).
  exists [], (bs ++ rest). split.
  - split; try done.
    + change (arData ht1 = bs ++ rest). rewrite E1. apply Hb.
    + change (power_of_two (nTableSize ht1)). rewrite E2. apply Hb.
    + change (f_initialized ht1 = true -> Z.of_nat (0 + length (bs ++ rest)) = nTableSize ht1).
      rewrite E2, E3, length_app. intros Hi. by apply (r_room _ _ _ _ Hb).
    + constructor.
  - destruct Hmode as [Hi Hp Hm Hh Hbs|Hi Hp Hm Hh Hpk|Hi Hp Hm Hc].
    + apply mode_new; [exact (eq_trans E3 Hi)|exact (eq_trans E4 Hp)|exact (eq_trans E5 Hm)| |done].
      change (ht_hash ht1 = [HT_INVALID_IDX; HT_INVALID_IDX]). unfold ht1.
      rewrite (r_used _ _ _ _ Hb), Hbs. exact Hh.
    + apply mode_packed; [exact (eq_trans E3 Hi)|exact (eq_trans E4 Hp)|exact (eq_trans E5 Hm)| |done].
      change (ht_hash ht1 = [HT_INVALID_IDX; HT_INVALID_IDX]). unfold ht1. rewrite Hp, andb_false_r. exact Hh.
    + apply mode_hash; [exact (eq_trans E3 Hi)|exact (eq_trans E4 Hp)| |].
      * change (nTableMask ht1 = 2 ^ 32 - nTableSize ht1). by rewrite E5, E2.
      * change (chained junk (nTableSize ht1) (ht_hash ht1) []). rewrite E2. unfold ht1. rewrite Hp.
        destruct (Z.eqb_spec (nNumUsed ht) 0) as [E0|]; cbn [negb andb].
        -- rewrite (r_used _ _ _ _ Hb) in E0. destruct bs; [done|simpl in E0; lia].
        -- unfold HT_HASH_RESET. cbn [ht_hash set_hash]. rewrite Hm.
           replace (2 ^ 32 - (2 ^ 32 - nTableSize ht)) with (nTableSize ht) by lia. apply chained_empty. lia.
Qed.
End Apply.

(** ** Examples *)

(** Values below 40 go. *)
Definition keep_large (v : Z) : apply_result := Apply (v <? 40) false.

Lemma zend_hash_apply_visits_witness :
  represents dirt (zend_hash_apply dirt sample_table keep_large)
    (a_apply keep_large (m_list (a_run sample_ops a_empty).1) (a_run sample_ops a_empty).1) /\
  (m_list (a_apply keep_large (m_list (a_run sample_ops a_empty).1) (a_run sample_ops a_empty).1)).*2 =
    [55; 50; 60; 70; 80].
Proof.
  destruct (zend_hash_apply_visits dirt sample_table _ keep_large sample_represents) as (H1 & _ & H2).
  split; [exact H1|]. destruct (H2 (fun v => eq_refl)) as [-> _]. vm_compute. reflexivity.
Defined.
