(* ===== verification/ZendHashDup.v ===== *)
(** * ZendHashDup: copies of a hash table

    [zend_array_dup] of Zend/zend_hash.c, by which PHP separates arrays before a
    write.  Holes are left out of tables with chains and kept in packed ones;
    the chains are built anew.  [copy] is what becomes of a value: counts and
    references that nobody else holds are not modelled. *)

From S2P Require Import Prelude ZendHash ZendHashList ZendHashOps ZendHashMap ZendHashIter ZendHashTrace.

Section Dup.
Context {V : Type} (junk : Bucket V) (copy : V -> V).
Implicit Types (ht source target : HashTable V) (b p q : Bucket V) (bs rest : list (Bucket V)) (m : amap V) (k : key).

#[local] Abbreviation repr := (repr junk).

(** ** The operation *)

(** [while (Z_TYPE(target->arData[idx].val) == IS_UNDEF)] *)
(* php:Zend/zend_hash.c:1791-1794 zend_array_dup: while *)
Fixpoint first_live (fuel : nat) (idx : Z) ht : Z :=
  match fuel with
  | O => idx
  | S fuel => if undef (bucket junk ht idx) then first_live fuel (idx + 1) ht else idx
  end.

(* php:Zend/zend_hash.c:1788-1796 zend_array_dup: nInternalPointer *)
Definition default_pointer ht : HashTable V :=
  if (0 <? nNumOfElements ht) && (nInternalPointer ht =? HT_INVALID_IDX) then
    set_pointer (first_live (Z.to_nat (nNumUsed ht)) 0 ht) ht
  else ht.

(** One element of a packed table. *)
(* php:Zend/zend_hash.c:1659-1697 zend_array_dup_element: packed *)
Definition dup_packed_element (with_holes : bool) p q : Bucket V :=
  if with_holes && undef p then set_val None q
  else Bkt V (copy <$> b_val p) (b_next q) (b_h p) None.

(* php:Zend/zend_hash.c:1713-1727 zend_array_dup_packed_elements *)
Fixpoint dup_packed_elements (n : nat) (with_holes : bool) (idx : Z) source target : HashTable V :=
  match n with
  | O => target
  | S n =>
      dup_packed_elements n with_holes (idx + 1) source
        (set_bucket idx (dup_packed_element with_holes (bucket junk source idx) (bucket junk target idx)) target)
  end.

(** One element of a table with chains, to the bucket [idx]; [None] for 0. *)
(* php:Zend/zend_hash.c:1659-1711 zend_array_dup_element *)
Definition dup_element (with_holes : bool) (idx : Z) p target : option (HashTable V) :=
  if with_holes && undef p then None
  else
    Some (link junk idx
      (set_bucket idx (Bkt V (copy <$> b_val p) (b_next (bucket junk target idx)) (b_h p) (b_key p)) target)).

(** [while (p != end)]: after the first hole; the target and the end of its buckets. *)
(* php:Zend/zend_hash.c:1741-1750 zend_array_dup_elements: while *)
Fixpoint dup_rest (n : nat) (with_holes : bool) (idx target_idx : Z) source target : HashTable V * Z :=
  match n with
  | O => (target, target_idx)
  | S n =>
      match dup_element with_holes target_idx (bucket junk source idx) target with
      | Some target =>
          let target := if nInternalPointer source =? idx then set_pointer target_idx target else target in
          dup_rest n with_holes (idx + 1) (target_idx + 1) source target
      | None => dup_rest n with_holes (idx + 1) target_idx source target
      end
  end.

(* php:Zend/zend_hash.c:1729-1755 zend_array_dup_elements *)
Fixpoint dup_elements (n : nat) (with_holes : bool) (idx : Z) source target : HashTable V * Z :=
  match n with
  | O => (target, idx)
  | S n =>
      match dup_element with_holes idx (bucket junk source idx) target with
      | Some target => dup_elements n with_holes (idx + 1) source target
      | None => dup_rest n with_holes (idx + 1) idx source target
      end
  end.

(** [immutable]: [IS_ARRAY_IMMUTABLE], the memory is copied as it is. *)
(* php:Zend/zend_hash.c:1757-1849 zend_array_dup *)
Definition zend_array_dup (immutable : bool) source : HashTable V :=
  let memory := replicate (Z.to_nat (nTableSize source)) junk in
  let with_holes := negb (nNumUsed source =? nNumOfElements source) in
  if nNumUsed source =? 0 then
    HT V false false HT_MIN_MASK [HT_INVALID_IDX; HT_INVALID_IDX] [] 0 0 (nTableSize source) HT_INVALID_IDX 0
  else if immutable then default_pointer (set_arData (regrow junk (nTableSize source) source) source)
  else if f_packed source then
    default_pointer
      (dup_packed_elements (Z.to_nat (nNumUsed source)) with_holes 0 source
        (set_hash [HT_INVALID_IDX; HT_INVALID_IDX] (set_arData memory source)))
  else
    let '(target, idx) :=
      dup_elements (Z.to_nat (nNumUsed source)) with_holes 0 source (HT_HASH_RESET (set_arData memory source)) in
    let target := set_elements idx (set_used idx target) in
    if (0 <? idx) && (nInternalPointer target =? HT_INVALID_IDX) then set_pointer 0 target else target.

(** ** On the map *)

Definition copy_entry (e : key * V) : key * V := (e.1, copy e.2).

Definition first_if_none (l : list (key * V)) (pk : option key) : option key :=
  match pk with None => fst <$> head l | Some k => Some k end.

Definition a_dup (f : key * V -> key * V) m : amap V :=
  AM V (f <$> m_list m) (m_free m) (first_if_none (m_list m) (m_pos m)).

(** ** Copied buckets *)

Definition dupb b : Bucket V := Bkt V (copy <$> b_val b) (b_next b) (b_h b) (b_key b).

Lemma undef_dupb b : undef (dupb b) = undef b.
Proof. unfold undef. simpl. by destruct (b_val b). Qed.

Lemma entries_dupb bs : entries (dupb <$> bs) = copy_entry <$> entries bs.
Proof.
  induction bs as [|b bs IH]; [done|]. change (b :: bs) with ([b] ++ bs).
  rewrite fmap_app, !entries_app, fmap_app, IH. f_equal. change (dupb <$> [b]) with [dupb b].
  destruct (b_val b) as [v|] eqn:E.
  - rewrite (entries_live b v E). rewrite (entries_live _ (copy v)) by (simpl; by rewrite E). done.
  - rewrite !entries_undef; [done|unfold undef; by rewrite E|]. rewrite undef_dupb. unfold undef. by rewrite E.
Qed.

Lemma copy_keys (l : list (key * V)) : (copy_entry <$> l).*1 = l.*1.
Proof. rewrite <- list_fmap_compose. by apply list_fmap_ext. Qed.

Lemma hash_ok_dupb bs : Forall hash_ok bs -> Forall hash_ok (dupb <$> bs).
Proof.
  intros H. apply Forall_fmap. eapply Forall_impl; [exact H|]. intros b Hb Hu. cbn in Hu.
  rewrite undef_dupb in Hu. exact (Hb Hu).
Qed.

Lemma pos_ok_dupb bs ptr pk : pos_ok bs ptr pk -> pos_ok (dupb <$> bs) ptr pk.
Proof.
  destruct pk as [k|]; [|done]. intros (n & b & -> & Hn & Hu & Hk). exists n, (dupb b).
  rewrite list_lookup_fmap, Hn, undef_dupb. done.
Qed.

(** ** Tables with chains *)

(** Where the internal pointer is while [todo], at [off] in the source, is copied
    behind [l]. *)
Definition dup_pos (l todo : list (Bucket V)) (off sptr tptr : Z) (pk : option key) : Prop :=
  match pk with
  | None => sptr = HT_INVALID_IDX /\ tptr = HT_INVALID_IDX
  | Some k =>
      (sptr < off /\ exists n b, tptr = Z.of_nat n /\ l !! n = Some b /\ undef b = false /\ bkey b = k) \/
      (tptr = sptr /\ exists n b, sptr = off + Z.of_nat n /\ todo !! n = Some b /\ undef b = false /\ bkey b = k)
  end.

(** One live bucket is copied to the end of the target. *)
Lemma dup_put target l d0 tl p :
  geometry target -> arData target = l ++ d0 :: tl -> hash_ok p -> undef p = false ->
  chained junk (nTableSize target) (ht_hash target) l ->
  let target' := link junk (Z.of_nat (length l))
    (set_bucket (Z.of_nat (length l)) (Bkt V (copy <$> b_val p) (b_next d0) (b_h p) (b_key p)) target) in
  exists p', set_next 0 p' = set_next 0 (dupb p) /\ arData target' = l ++ p' :: tl /\
    same_setup target target' /\ nInternalPointer target' = nInternalPointer target /\
    chained junk (nTableSize target) (ht_hash target') (l ++ [p']).
Proof.
  intros (Hsz & Hmask & _) Hd Hok Hp Hch. rewrite (set_bucket_mid _ _ _ _ _ Hd).
  destruct (Hok Hp) as [Hr _]. pose proof (power_bounds _ Hsz).
  set (q := Bkt V _ _ _ _).
  rewrite (link_mid _ _ l q tl) by (done || (change (0 <= b_h p); lia)). cbn zeta.
  exists (set_next (nth (Z.to_nat (b_h q `mod` nTableSize target)) (ht_hash target) HT_INVALID_IDX) q).
  split_and!; try done. apply chained_snoc; [lia|done|]. unfold undef in Hp |- *. cbn. by destruct (b_val p).
Qed.

(** What the loops leave in the target. *)
Record duplicated target l todo (sptr off : Z) (pk : option key) (r : HashTable V * Z) : Prop := {
  du_setup : same_setup target r.1;
  du_data : exists l' tl', arData r.1 = l' ++ tl' /\ length (arData r.1) = length (arData target) /\
    r.2 = Z.of_nat (length l') /\ relinked (l ++ (dupb <$> live todo)) l' /\
    chained junk (nTableSize target) (ht_hash r.1) l' /\ pos_ok l' (nInternalPointer r.1) pk
}.

Lemma duplicated_done target l tl off sptr pk :
  arData target = l ++ tl -> chained junk (nTableSize target) (ht_hash target) l ->
  dup_pos l [] off sptr (nInternalPointer target) pk ->
  duplicated target l [] sptr off pk (target, Z.of_nat (length l)).
Proof.
  intros Hd Hc Hp. split; [done|]. exists l, tl. cbn [fst snd]. split_and!; try done.
  - unfold live. cbn. by rewrite app_nil_r.
  - destruct pk as [k|]; [|by destruct Hp]. destruct Hp as [[_ H]|(_ & n & b & _ & H & _)]; done.
Qed.

Lemma duplicated_hole target l p todo sptr off pk r : undef p = true ->
  duplicated target l todo sptr (off + 1) pk r -> duplicated target l (p :: todo) sptr off pk r.
Proof.
  intros Hu [H1 H2]. split; [done|]. unfold live in *. cbn [List.filter]. by rewrite Hu.
Qed.

Lemma duplicated_put target target' l p p' todo sptr off pk r :
  same_setup target target' -> length (arData target') = length (arData target) ->
  undef p = false -> set_next 0 p' = set_next 0 (dupb p) ->
  duplicated target' (l ++ [p']) todo sptr (off + 1) pk r -> duplicated target l (p :: todo) sptr off pk r.
Proof.
  intros Hs Hl Hu Hp [H1 (l' & tl' & E1 & E2 & E3 & E4 & E5 & E6)].
  split; [by apply (same_setup_trans _ target')|]. exists l', tl'. destruct Hs as (_ & _ & _ & Hs4 & _).
  split_and!; try done; [lia| |by rewrite <- Hs4].
  unfold relinked, live in *. cbn [List.filter]. rewrite Hu. cbn [negb]. rewrite <- E4, fmap_cons, <- app_assoc.
  cbn [app]. rewrite !fmap_app, !fmap_cons. by rewrite Hp.
Qed.

Lemma dup_pos_hole l p todo off sptr tptr pk : undef p = true ->
  dup_pos l (p :: todo) off sptr tptr pk -> dup_pos l todo (off + 1) sptr tptr pk.
Proof.
  intros Hu. destruct pk as [k|]; [|done]. intros [[H1 H2]|(H1 & n & b & H2 & H3 & H4 & H5)].
  - left. split; [lia|done].
  - right. split; [done|]. destruct n as [|n]; [injection H3 as <-; congruence|].
    exists n, b. split_and!; [lia|done|done|done].
Qed.

(** The pointer is set if the source's is at the bucket, or stays where it is at
    the same position. *)
Lemma dup_pos_put l p p' todo off sptr tptr tptr' pk :
  set_next 0 p' = set_next 0 (dupb p) -> undef p = false -> 0 <= off < HT_INVALID_IDX ->
  dup_pos l (p :: todo) off sptr tptr pk ->
  (tptr' = if sptr =? off then Z.of_nat (length l) else tptr) ->
  dup_pos (l ++ [p']) todo (off + 1) sptr tptr' pk.
Proof.
  intros Hp Hu Hoff H ->. destruct pk as [k|]; cbn [dup_pos] in *.
  - destruct H as [(H1 & n & b & H2 & H3 & H4)|(H1 & n & b & H2 & H3 & H4 & H5)].
    + left. rewrite (proj2 (Z.eqb_neq _ _)) by lia. split; [lia|]. exists n, b.
      split_and!; [done|by apply lookup_app_l_Some|apply H4..].
    + destruct n as [|n].
      * left. injection H3 as <-. rewrite (proj2 (Z.eqb_eq _ _)) by lia. split; [lia|].
        exists (length l), p'. split_and!; [done|by apply list_lookup_middle| |].
        -- change (undef (set_next 0 p') = false). rewrite Hp. change (undef (dupb p) = false). by rewrite undef_dupb.
        -- change (bkey (set_next 0 p') = k). by rewrite Hp.
      * right. rewrite (proj2 (Z.eqb_neq _ _)) by lia. split; [done|]. exists n, b.
        split_and!; [lia|done|done|done].
  - destruct H as [H1 H2]. rewrite (proj2 (Z.eqb_neq _ _)) by lia. done.
Qed.

(** The state of the loops: [todo] is left of the source, [l] is copied. *)
Record dup_state source target (with_holes : bool) (pre todo rest l tl : list (Bucket V)) (pk : option key) : Prop := {
  ds_source : arData source = pre ++ todo ++ rest;
  ds_geometry : geometry target;
  ds_target : arData target = l ++ tl;
  ds_room : (length todo <= length tl)%nat;
  ds_hash : Forall hash_ok todo;
  ds_chained : chained junk (nTableSize target) (ht_hash target) l;
  ds_live : with_holes = false -> Forall (fun b => undef b = false) todo;
  ds_range : Z.of_nat (length pre + length todo) < HT_INVALID_IDX;
  ds_pos : dup_pos l todo (Z.of_nat (length pre)) (nInternalPointer source) (nInternalPointer target) pk
}.

Lemma ds_bucket source target wh pre p todo rest l tl pk : dup_state source target wh pre (p :: todo) rest l tl pk ->
  bucket junk source (Z.of_nat (length pre)) = p.
Proof. intros H. apply (bucket_mid _ _ _ _ (todo ++ rest)). apply (ds_source _ _ _ _ _ _ _ _ _ H). Qed.

Lemma ds_hole source target wh pre p todo rest l tl pk : undef p = true ->
  dup_state source target wh pre (p :: todo) rest l tl pk -> dup_state source target true (pre ++ [p]) todo rest l tl pk.
Proof.
  intros Hu [H1 H2 H3 H4 H5 H6 H7 H8 H9]. apply Forall_cons in H5 as [_ H5]. simpl length in *.
  split; try done; rewrite ?length_app; cbn [length]; try lia.
  - by rewrite H1, <- app_assoc.
  - replace (Z.of_nat (length pre + 1)) with (Z.of_nat (length pre) + 1) by lia. by apply (dup_pos_hole _ p).
Qed.

(** A live bucket is copied; the pointer [tptr] of the target may be set after that. *)
Lemma ds_put source target wh pre p todo rest l d0 tl pk : undef p = false ->
  dup_state source target wh pre (p :: todo) rest l (d0 :: tl) pk ->
  let target' := link junk (Z.of_nat (length l))
    (set_bucket (Z.of_nat (length l)) (Bkt V (copy <$> b_val p) (b_next d0) (b_h p) (b_key p)) target) in
  nInternalPointer target' = nInternalPointer target /\
  exists p', set_next 0 p' = set_next 0 (dupb p) /\ same_setup target target' /\
  length (arData target') = length (arData target) /\
  forall target2 tptr, target2 = set_pointer tptr target' ->
  tptr = (if nInternalPointer source =? Z.of_nat (length pre) then Z.of_nat (length l) else nInternalPointer target) ->
  dup_state source target2 wh (pre ++ [p]) todo rest (l ++ [p']) tl pk.
Proof.
  intros Hu [H1 H2 H3 H4 H5 H6 H7 H8 H9]. apply Forall_cons in H5 as [Hok H5].
  destruct (dup_put target l d0 tl p H2 H3 Hok Hu H6) as (p' & Hp & Hd & Hs & Hptr & Hc).
  set (target' := link junk _ _) in *. cbn zeta. split; [done|]. exists p'.
  assert (Hl : length (arData target') = length (arData target)) by (rewrite Hd, H3, !length_app; done).
  split_and!; [done|done|done|]. intros target2 tptr -> Htptr. simpl length in *.
  pose proof Hs as (_ & _ & _ & Hs4 & _).
  split; rewrite ?length_app; cbn [length]; try lia; try done.
  - by rewrite H1, <- app_assoc.
  - by apply (geometry_trans target).
  - change (arData target' = (l ++ [p']) ++ tl). by rewrite Hd, <- app_assoc.
  - intros E. specialize (H7 E). by apply Forall_cons in H7 as [_ H7].
  - replace (Z.of_nat (length pre + 1)) with (Z.of_nat (length pre) + 1) by lia.
    by apply (dup_pos_put l p p' todo _ _ (nInternalPointer target)); [| |lia|..].
Qed.

Lemma dup_rest_spec source todo : forall target wh pre rest l tl pk,
  dup_state source target wh pre todo rest l tl pk ->
  duplicated target l todo (nInternalPointer source) (Z.of_nat (length pre)) pk
    (dup_rest (length todo) wh (Z.of_nat (length pre)) (Z.of_nat (length l)) source target).
Proof.
  induction todo as [|p todo IH]; intros target wh pre rest l tl pk H; cbn [length dup_rest].
  { apply (duplicated_done _ _ tl); apply H. }
  rewrite (ds_bucket _ _ _ _ _ _ _ _ _ _ H).
  replace (Z.of_nat (length pre) + 1) with (Z.of_nat (length (pre ++ [p]))) by (rewrite length_app; simpl; lia).
  unfold dup_element. destruct (undef p) eqn:Hu.
  - destruct wh; [|pose proof (ds_live _ _ _ _ _ _ _ _ _ H eq_refl) as Hl; apply Forall_cons in Hl as [? _]; congruence].
    cbn [andb]. apply duplicated_hole; [done|].
    replace (Z.of_nat (length pre) + 1) with (Z.of_nat (length (pre ++ [p]))) by (rewrite length_app; simpl; lia).
    apply (IH _ _ _ rest _ tl). by apply (ds_hole _ _ true _ p).
  - rewrite andb_false_r. destruct tl as [|d0 tl]; [pose proof (ds_room _ _ _ _ _ _ _ _ _ H); simpl in *; lia|].
    rewrite (bucket_mid junk target l d0 tl) by apply (ds_target _ _ _ _ _ _ _ _ _ H).
    destruct (ds_put _ _ _ _ _ _ _ _ _ _ _ Hu H) as (Hptr & p' & Hp & Hs & Hlen & Hnext).
    set (target' := link junk _ _) in *.
    set (target2 := if _ =? _ then _ else _).
    assert (E2 : target2 = set_pointer (if nInternalPointer source =? Z.of_nat (length pre) then Z.of_nat (length l)
      else nInternalPointer target) target').
    { unfold target2. destruct (_ =? _); [done|]. rewrite <- Hptr. by destruct target'. }
    specialize (Hnext target2 _ E2 eq_refl).
    apply (duplicated_put target target2 l p p'); [by rewrite E2|by rewrite E2|done|done|].
    replace (Z.of_nat (length pre) + 1) with (Z.of_nat (length (pre ++ [p]))) by (rewrite length_app; simpl; lia).
    replace (Z.of_nat (length l) + 1) with (Z.of_nat (length (l ++ [p']))) by (rewrite length_app; simpl; lia).
    by apply (IH _ _ _ rest _ tl).
Qed.

Lemma dup_elements_spec source todo : forall target wh pre rest l tl pk,
  dup_state source target wh pre todo rest l tl pk -> length l = length pre ->
  duplicated target l todo (nInternalPointer source) (Z.of_nat (length pre)) pk
    (dup_elements (length todo) wh (Z.of_nat (length pre)) source target).
Proof.
  induction todo as [|p todo IH]; intros target wh pre rest l tl pk H Hlp; cbn [length dup_elements].
  { rewrite <- Hlp at 2. apply (duplicated_done _ _ tl); apply H. }
  rewrite (ds_bucket _ _ _ _ _ _ _ _ _ _ H).
  replace (Z.of_nat (length pre) + 1) with (Z.of_nat (length (pre ++ [p]))) by (rewrite length_app; simpl; lia).
  unfold dup_element. destruct (undef p) eqn:Hu.
  - destruct wh; [|pose proof (ds_live _ _ _ _ _ _ _ _ _ H eq_refl) as Hl; apply Forall_cons in Hl as [? _]; congruence].
    cbn [andb]. apply duplicated_hole; [done|]. rewrite <- Hlp at 2.
    replace (Z.of_nat (length pre) + 1) with (Z.of_nat (length (pre ++ [p]))) by (rewrite length_app; simpl; lia).
    apply (dup_rest_spec _ _ _ _ _ rest _ tl). by apply (ds_hole _ _ true _ p).
  - rewrite andb_false_r. destruct tl as [|d0 tl]; [pose proof (ds_room _ _ _ _ _ _ _ _ _ H); simpl in *; lia|].
    assert (Hbk : bucket junk target (Z.of_nat (length pre)) = d0)
      by (rewrite <- Hlp; by apply (bucket_mid _ _ _ _ tl), (ds_target _ _ _ _ _ _ _ _ _ H)).
    rewrite Hbk. destruct (ds_put _ _ _ _ _ _ _ _ _ _ _ Hu H) as (Hptr & p' & Hp & Hs & Hlen & Hnext).
    rewrite Hlp in Hptr, Hs, Hlen, Hnext. set (target' := link junk _ _) in *.
    assert (E2 : target' = set_pointer (nInternalPointer target) target') by (rewrite <- Hptr; by destruct target').
    specialize (Hnext target' _ E2).
    apply (duplicated_put target target' l p p'); [done|done|done|done|].
    replace (Z.of_nat (length pre) + 1) with (Z.of_nat (length (pre ++ [p]))) by (rewrite length_app; simpl; lia).
    apply (IH _ _ _ rest _ tl); [|rewrite !length_app; simpl; lia]. apply Hnext.
    destruct (Z.eqb_spec (nInternalPointer source) (Z.of_nat (length pre))) as [E|]; [|done].
    pose proof (ds_pos _ _ _ _ _ _ _ _ _ H) as Hpos. pose proof (ds_range _ _ _ _ _ _ _ _ _ H).
    destruct pk as [k|]; cbn [dup_pos] in Hpos; [destruct Hpos as [[? _]|[-> _]]|]; lia.
Qed.

Lemma live_dupb bs : Forall (fun b => undef b = false) (dupb <$> live bs).
Proof.
  apply Forall_fmap, Forall_forall. intros b Hb. cbn. rewrite undef_dupb.
  unfold live in Hb. apply list_elem_of_In, List.filter_In in Hb as [_ Hb]. by destruct (undef b).
Qed.

Lemma fst_head_copy (l : list (key * V)) : fst <$> head (copy_entry <$> l) = fst <$> head l.
Proof. by destruct l. Qed.

(** The loops start. *)
Lemma dup_state_init ht bs rest m (t0 := HT_HASH_RESET (set_arData (replicate (Z.to_nat (nTableSize ht)) junk) ht)) :
  base ht bs rest m -> f_initialized ht = true -> nTableMask ht = 2 ^ 32 - nTableSize ht ->
  dup_state ht t0 (negb (nNumUsed ht =? nNumOfElements ht)) [] bs rest [] (arData t0) (m_pos m).
Proof.
  intros Hb Hi Hm. pose proof (power_bounds _ (r_size _ _ _ _ Hb)) as Hsz.
  pose proof (r_used _ _ _ _ Hb) as Hu. pose proof (r_room _ _ _ _ Hb Hi) as Hroom.
  change (arData t0) with (replicate (Z.to_nat (nTableSize ht)) junk). split; try done.
  - apply (r_data _ _ _ _ Hb).
  - split_and!; [apply Hb|exact Hm|]. change (arData t0) with (replicate (Z.to_nat (nTableSize ht)) junk).
    rewrite length_replicate. change (nTableSize t0) with (nTableSize ht). lia.
  - rewrite length_replicate. lia.
  - apply Hb.
  - change (chained junk (nTableSize ht) (replicate (Z.to_nat (2 ^ 32 - nTableMask ht)) HT_INVALID_IDX) []).
    rewrite Hm. replace (2 ^ 32 - (2 ^ 32 - nTableSize ht)) with (nTableSize ht) by lia. apply chained_empty. lia.
  - intros Hw. apply negb_false_iff, Z.eqb_eq in Hw. pose proof (r_elems _ _ _ _ Hb). apply entries_length. lia.
  - unfold HT_INVALID_IDX. simpl length. lia.
  - pose proof (r_pos _ _ _ _ Hb) as Hpos. change (nInternalPointer t0) with (nInternalPointer ht).
    destruct (m_pos m) as [k|]; [|done]. right. by split.
Qed.

(** The copy with its counters; its pointer is not yet the default one. *)
Lemma duplicated_repr ht bs rest m t0 t1 idx :
  base ht bs rest m -> f_initialized ht = true -> f_packed ht = false ->
  nTableMask ht = 2 ^ 32 - nTableSize ht ->
  same_setup ht t0 -> Z.of_nat (length (arData t0)) = nTableSize ht ->
  duplicated t0 [] bs (nInternalPointer ht) 0 (m_pos m) (t1, idx) ->
  exists bs' rest', idx = Z.of_nat (length bs') /\ Forall (fun b => undef b = false) bs' /\
    repr (set_elements idx (set_used idx t1)) bs' rest' (AM V (copy_entry <$> m_list m) (m_free m) (m_pos m)).
Proof.
  intros Hb Hi Hp Hm Hs0 Hl0 [Hs1 (l' & tl' & E1 & E2 & E3 & E4 & E5 & E6)].
  cbn [fst snd] in *. subst idx. cbn [app] in E4.
  destruct (same_setup_trans _ _ _ Hs0 Hs1) as (S1 & S2 & S3 & S4 & S5 & S6).
  assert (Hsz : nTableSize t0 = nTableSize t1) by (destruct Hs1 as (_ & _ & _ & H & _); by symmetry).
  rewrite Hsz in E5.
  assert (Hent : entries l' = copy_entry <$> entries bs)
    by (rewrite <- (relinked_entries _ _ E4), entries_dupb, entries_live_eq; done).
  assert (Hlive : Forall (fun b => undef b = false) l')
    by (apply (relinked_Forall (fun b => undef b = false) (dupb <$> live bs)); [done|done|apply live_dupb]).
  exists l', tl'. split; [done|]. split; [done|]. set (t2 := set_elements _ _). split.
  - split; cbn [m_list m_free m_pos]; rewrite ?Hent, ?copy_keys; try (by apply Hb); try done.
    + change (power_of_two (nTableSize t1)). rewrite S4. apply Hb.
    + intros _. change (Z.of_nat (length l' + length tl') = nTableSize t1).
      by rewrite S4, <- length_app, <- E1, E2.
    + change (Z.of_nat (length l') = Z.of_nat (length (copy_entry <$> entries bs))). rewrite <- Hent.
      by rewrite entries_live_length, live_all.
    + by rewrite (r_list _ _ _ _ Hb).
    + apply (relinked_Forall hash_ok (dupb <$> live bs)); [apply hash_ok_next|done|].
      apply hash_ok_dupb, Forall_live, Hb.
    + change (nNextFreeElement t1 = m_free m). rewrite S6. apply Hb.
  - apply mode_hash; [exact (eq_trans S2 Hi)|exact (eq_trans S1 Hp)| |exact E5].
    change (nTableMask t1 = 2 ^ 32 - nTableSize t1). by rewrite S3, S4.
Qed.

(** ** The internal pointer of the copy *)

(** If all buckets are live, the first one is at 0. *)
Lemma pointer_zero ht bs rest m : repr ht bs rest m -> Forall (fun b => undef b = false) bs ->
  represents junk
    (if (0 <? Z.of_nat (length bs)) && (nInternalPointer ht =? HT_INVALID_IDX) then set_pointer 0 ht else ht)
    (a_move (first_if_none (m_list m) (m_pos m)) m).
Proof.
  intros Hr Hl. exists bs, rest. pose proof (pointer_cases junk _ _ _ _ Hr) as Hc. pose proof (proj1 Hr) as Hb.
  assert (Hid : a_move (m_pos m) m = m) by by destruct m.
  destruct (m_pos m) as [k|]; cbn [first_if_none].
  - destruct Hc as (n & b & v & -> & Hne & _). rewrite (proj2 (Z.eqb_neq _ _)), andb_false_r by done. by rewrite Hid.
  - rewrite Hc, Z.eqb_refl, andb_true_r, (r_list _ _ _ _ Hb). destruct bs as [|b bs]; [exact (eq_ind_r (repr ht [] rest) Hr Hid)|].
    cbn [length]. rewrite (proj2 (Z.ltb_lt _ _)) by lia. apply move_repr; [done|].
    apply Forall_cons in Hl as [Hlb _]. pose proof Hlb as Hlb'. unfold undef in Hlb'.
    destruct (b_val b) as [v|] eqn:Ev; [|done].
    change (b :: bs) with ([b] ++ bs). rewrite entries_app, (entries_live b v Ev). by exists O, b.
Qed.

Lemma first_live_spec fuel ht bs rest n : arData ht = bs ++ rest -> (length bs <= fuel + n)%nat ->
  entries (drop n bs) <> [] -> pos_ok bs (first_live fuel (Z.of_nat n) ht) (fst <$> head (entries (drop n bs))).
Proof.
  intros Hd. revert n. induction fuel as [|fuel IH]; intros n Hf Hne; cbn [first_live].
  { by rewrite drop_ge in Hne by lia. }
  destruct (Nat.lt_ge_cases n (length bs)) as [Hlt|Hge]; [|by rewrite drop_ge in Hne].
  destruct (lookup_lt_is_Some_2 bs n Hlt) as [b Hb].
  rewrite (bucket_used junk ht bs rest n b) by done. rewrite (drop_S bs b) in Hne |- * by done.
  change (b :: drop (S n) bs) with ([b] ++ drop (S n) bs) in *. rewrite entries_app in *.
  destruct (undef b) eqn:Hu.
  - rewrite (entries_undef b Hu) in *. cbn [app] in *. replace (Z.of_nat n + 1) with (Z.of_nat (S n)) by lia.
    apply IH; [lia|done].
  - pose proof Hu as Hu'. unfold undef in Hu'. destruct (b_val b) as [v|] eqn:Ev; [|done].
    rewrite (entries_live b v Ev). by exists n, b.
Qed.

Lemma default_pointer_repr ht bs rest m : repr ht bs rest m ->
  represents junk (default_pointer ht) (a_move (first_if_none (m_list m) (m_pos m)) m).
Proof.
  intros Hr. exists bs, rest. pose proof (pointer_cases junk _ _ _ _ Hr) as Hc. pose proof (proj1 Hr) as Hb.
  assert (Hid : a_move (m_pos m) m = m) by by destruct m. unfold default_pointer.
  rewrite (elements_length _ _ _ _ Hb), (r_list _ _ _ _ Hb).
  destruct (m_pos m) as [k|]; cbn [first_if_none].
  - destruct Hc as (n & b & v & -> & Hne & _). rewrite (proj2 (Z.eqb_neq _ _)), andb_false_r by done. by rewrite Hid.
  - rewrite Hc, Z.eqb_refl, andb_true_r. destruct (entries bs) as [|e l] eqn:E; [exact (eq_ind_r (repr ht bs rest) Hr Hid)|].
    cbn [length]. rewrite (proj2 (Z.ltb_lt _ _)) by lia. apply move_repr; [done|]. rewrite <- E.
    pose proof (r_used _ _ _ _ Hb) as Hu.
    apply (first_live_spec _ ht bs rest 0); [apply Hb|lia|by rewrite drop_0, E].
Qed.

(** ** Packed tables *)

(** A packed bucket and its copy. *)
Definition packed_copy p q : Prop :=
  undef q = undef p /\ (undef p = false -> b_val q = copy <$> b_val p /\ b_h q = b_h p /\ b_key q = None).

Lemma dup_packed_spec source with_holes todo : forall target pre rest l old tl,
  arData source = pre ++ todo ++ rest -> arData target = l ++ old ++ tl ->
  length l = length pre -> length old = length todo ->
  (with_holes = false -> Forall (fun b => undef b = false) todo) ->
  exists new, Forall2 packed_copy todo new /\
    dup_packed_elements (length todo) with_holes (Z.of_nat (length pre)) source target =
    set_arData (l ++ new ++ tl) target.
Proof.
  induction todo as [|p todo IH]; intros target pre rest l old tl Hs Ht Hlp Hlo Hh.
  { destruct old; [|done]. exists []. split; [constructor|]. rewrite <- Ht. by destruct target. }
  destruct old as [|d0 old]; [done|]. injection Hlo as Hlo. cbn [length dup_packed_elements].
  rewrite (bucket_mid junk source pre p (todo ++ rest)) by done.
  assert (Hd : bucket junk target (Z.of_nat (length pre)) = d0)
    by (rewrite <- Hlp; by apply (bucket_mid _ _ _ _ (old ++ tl))).
  rewrite Hd. set (q := dup_packed_element with_holes p d0).
  assert (Hsb : set_bucket (Z.of_nat (length pre)) q target = set_arData (l ++ q :: old ++ tl) target)
    by (rewrite <- Hlp; by apply (set_bucket_mid _ _ d0)).
  rewrite Hsb.
  replace (Z.of_nat (length pre) + 1) with (Z.of_nat (length (pre ++ [p]))) by (rewrite length_app; simpl; lia).
  destruct (IH (set_arData (l ++ q :: old ++ tl) target) (pre ++ [p]) rest (l ++ [q]) old tl)
    as (new & Hnew & ->); [by rewrite Hs, <- app_assoc|cbn; by rewrite <- app_assoc
    |rewrite !length_app; simpl; lia|done|intros E; specialize (Hh E); by apply Forall_cons in Hh as [_ ?]|].
  exists (q :: new). split; [|cbn; by rewrite <- app_assoc]. constructor; [|done].
  assert (Hq : with_holes && undef p = undef p).
  { destruct with_holes; [done|]. specialize (Hh eq_refl). apply Forall_cons in Hh as [-> _]. done. }
  unfold packed_copy, q, dup_packed_element. rewrite Hq. destruct (undef p) eqn:Hu; [done|].
  split; [|done]. unfold undef in Hu |- *. cbn. by destruct (b_val p).
Qed.

Lemma packed_copy_entries bs bs' : Forall2 packed_copy bs bs' ->
  Forall (fun b => undef b = false -> b_key b = None) bs -> entries bs' = copy_entry <$> entries bs.
Proof.
  induction 1 as [|p q bs bs' [Hu Hpq] _ IH]; intros Hk; [done|]. apply Forall_cons in Hk as [Hk1 Hk].
  change (p :: bs) with ([p] ++ bs). change (q :: bs') with ([q] ++ bs').
  rewrite !entries_app, fmap_app, (IH Hk). f_equal. destruct (undef p) eqn:E; [by rewrite !entries_undef|].
  destruct (Hpq eq_refl) as (H1 & H2 & H3). unfold undef in E. destruct (b_val p) as [v|] eqn:Ev; [|done].
  rewrite (entries_live p v Ev), (entries_live q (copy v)) by by rewrite H1. unfold bkey.
  by rewrite H2, H3, (Hk1 eq_refl).
Qed.

Lemma packed_copy_lookup bs bs' n q : Forall2 packed_copy bs bs' -> bs' !! n = Some q ->
  exists p, bs !! n = Some p /\ packed_copy p q.
Proof. intros H Hq. destruct (Forall2_lookup_r _ _ _ _ _ H Hq) as (p & Hp & H'). by exists p. Qed.

(** The copy of a packed table. *)
Lemma packed_copied ht bs rest m bs' rest' target :
  repr ht bs rest m -> f_packed ht = true -> Forall2 packed_copy bs bs' ->
  Z.of_nat (length (bs' ++ rest')) = nTableSize ht ->
  target = set_hash [HT_INVALID_IDX; HT_INVALID_IDX] (set_arData (bs' ++ rest') ht) ->
  repr target bs' rest' (AM V (copy_entry <$> m_list m) (m_free m) (m_pos m)).
Proof.
  intros [Hb Hmode] Hp H2 Hl ->. destruct Hmode as [|Hi _ Hm Hh Hpk|]; [congruence| |congruence].
  pose proof (Forall2_length _ _ _ H2) as Hlen.
  assert (Hkeys : Forall (fun b => undef b = false -> b_key b = None) bs).
  { apply Forall_lookup. intros n b Hn Hu. by apply (Hpk n b). }
  pose proof (packed_copy_entries bs bs' H2 Hkeys) as He.
  assert (Hpk' : packed_ok bs').
  { intros n q Hq Hu. destruct (packed_copy_lookup _ _ _ _ H2 Hq) as (p & Hn & Hup & Hpq). rewrite Hup in Hu.
    destruct (Hpq Hu) as (_ & -> & ->). split; [done|]. by apply (Hpk n p). }
  split; [|by apply mode_packed]. split; cbn [m_list m_free m_pos]; rewrite ?He, ?copy_keys; try (by apply Hb); try done.
  - change (nNumUsed ht = Z.of_nat (length bs')). rewrite (r_used _ _ _ _ Hb). lia.
  - intros _. change (Z.of_nat (length bs' + length rest') = nTableSize ht). rewrite <- Hl, length_app. lia.
  - rewrite length_fmap. exact (r_elems _ _ _ _ Hb).
  - by rewrite (r_list _ _ _ _ Hb).
  - apply Forall_lookup. intros n q Hq Hu. destruct (Hpk' n q Hq Hu) as [Hk Hn]. unfold bkey. rewrite Hk.
    split; [|done]. pose proof (power_bounds _ (r_size _ _ _ _ Hb)).
    apply lookup_lt_Some in Hq. rewrite length_app in Hl. lia.
  - pose proof (r_pos _ _ _ _ Hb) as Hpos. destruct (m_pos m) as [k|]; [|exact Hpos].
    destruct Hpos as (n & p & Hptr & Hn & Hu & Hk). destruct (Forall2_lookup_l _ _ _ _ _ H2 Hn) as (q & Hq & Hup & Hpq).
    destruct (Hpq Hu) as (_ & H3 & H4). exists n, q. split_and!; [exact Hptr|done|by rewrite Hup|].
    rewrite <- Hk. unfold bkey. rewrite H3, H4. by destruct (Hpk n p Hn Hu) as [-> _].
Qed.

(** ** The three branches *)

Lemma dup_immutable ht bs rest m : repr ht bs rest m -> f_initialized ht = true ->
  represents junk (default_pointer (set_arData (regrow junk (nTableSize ht) ht) ht)) (a_dup id m).
Proof.
  intros [Hb Hmode] Hi. destruct (regrow_eq junk ht bs rest m _ Hb (used_le_size _ _ _ _ Hb Hi)) as [Hg Hl].
  rewrite Hg. unfold a_dup. rewrite list_fmap_id.
  apply (default_pointer_repr _ bs (replicate (Z.to_nat (nTableSize ht - nNumUsed ht)) junk) m). split.
  - apply (base_move ht _ _ rest); try done. apply Hb.
  - destruct Hmode; [by apply mode_new|by apply mode_packed|by apply mode_hash].
Qed.

Lemma a_dup_move m :
  a_move (first_if_none (copy_entry <$> m_list m) (m_pos m)) (AM V (copy_entry <$> m_list m) (m_free m) (m_pos m)) =
  a_dup copy_entry m.
Proof. unfold a_dup, first_if_none, a_move. cbn. destruct (m_pos m); [done|]. by rewrite fst_head_copy. Qed.

Lemma dup_packed ht bs rest m : repr ht bs rest m -> f_packed ht = true ->
  represents junk
    (default_pointer
      (dup_packed_elements (Z.to_nat (nNumUsed ht)) (negb (nNumUsed ht =? nNumOfElements ht)) 0 ht
        (set_hash [HT_INVALID_IDX; HT_INVALID_IDX] (set_arData (replicate (Z.to_nat (nTableSize ht)) junk) ht))))
    (a_dup copy_entry m).
Proof.
  intros Hr Hp. pose proof Hr as [Hb Hmode]. destruct Hmode as [|Hi _ Hm Hh Hpk|]; [congruence| |congruence].
  pose proof (r_used _ _ _ _ Hb) as Hu. pose proof (r_room _ _ _ _ Hb Hi) as Hroom.
  set (t0 := set_hash _ _). set (mem := replicate (Z.to_nat (nTableSize ht)) junk) in t0.
  assert (Hmem : length mem = (length bs + length rest)%nat) by (unfold mem; rewrite length_replicate; lia).
  rewrite Hu, Nat2Z.id.
  destruct (dup_packed_spec ht (negb (Z.of_nat (length bs) =? nNumOfElements ht)) bs t0 [] rest []
    (take (length bs) mem) (drop (length bs) mem)) as (new & Hnew & E).
  - apply (r_data _ _ _ _ Hb).
  - cbn [app]. by rewrite take_drop.
  - done.
  - rewrite length_take. lia.
  - intros Hw. apply negb_false_iff, Z.eqb_eq in Hw. pose proof (r_elems _ _ _ _ Hb). apply entries_length. lia.
  - cbn [app length] in E. change (Z.of_nat 0) with 0 in E. rewrite E, <- a_dup_move.
    refine (default_pointer_repr _ new (drop (length bs) mem) _ _).
    apply (packed_copied ht bs rest m); [done|done|done| |done].
    rewrite length_app, length_drop, <- (Forall2_length _ _ _ Hnew). lia.
Qed.

Lemma dup_chains ht bs rest m (t0 := HT_HASH_RESET (set_arData (replicate (Z.to_nat (nTableSize ht)) junk) ht)) :
  repr ht bs rest m -> f_initialized ht = true -> f_packed ht = false ->
  represents junk
    (let '(target, idx) := dup_elements (Z.to_nat (nNumUsed ht)) (negb (nNumUsed ht =? nNumOfElements ht)) 0 ht t0 in
     let target := set_elements idx (set_used idx target) in
     if (0 <? idx) && (nInternalPointer target =? HT_INVALID_IDX) then set_pointer 0 target else target)
    (a_dup copy_entry m).
Proof.
  intros [Hb Hmode] Hi Hp. destruct Hmode as [?|?|_ _ Hm Hc]; [congruence|congruence|].
  pose proof (power_bounds _ (r_size _ _ _ _ Hb)) as Hsz.
  pose proof (dup_elements_spec ht bs t0 _ [] rest [] _ _ (dup_state_init ht bs rest m Hb Hi Hm) eq_refl) as Hd.
  replace (length bs) with (Z.to_nat (nNumUsed ht)) in Hd by (rewrite (r_used _ _ _ _ Hb); lia).
  change (Z.of_nat (length [])) with 0 in Hd. destruct (dup_elements _ _ _ _ _) as [t1 idx].
  destruct (duplicated_repr ht bs rest m t0 t1 idx) as (bs' & rest' & -> & Hl & Hr); try done.
  { change (arData t0) with (replicate (Z.to_nat (nTableSize ht)) junk). rewrite length_replicate. lia. }
  rewrite <- a_dup_move.
  exact (pointer_zero _ bs' rest' _ Hr Hl).
Qed.

(** C27. A copy of an array is the array: [zend_array_dup] gives a table of its own
    memory that represents the same entries in the same order, their values
    copied, the same next key, and the same position or the first entry, whether
    the source is packed, has holes or is immutable.  Only the copy of a table
    without used buckets is a new one: its next key is 0 again. *)
Theorem zend_array_dup_same ht m immutable : represents junk ht m ->
  represents junk (zend_array_dup immutable ht)
    (if nNumUsed ht =? 0 then a_empty else a_dup (if immutable then id else copy_entry) m).
Proof.
  intros (bs & rest & Hr). pose proof Hr as [Hb Hmode]. unfold zend_array_dup.
  destruct (Z.eqb_spec (nNumUsed ht) 0) as [E0|Hne].
  - exists [], []. split; [|by apply mode_new]. split; try done; [apply Hb|constructor].
  - assert (Hi : f_initialized ht = true).
    { rewrite (r_used _ _ _ _ Hb) in Hne. destruct Hmode as [_ _ _ _ ->|?|?]; done. }
    destruct immutable; [by apply (dup_immutable ht bs rest)|].
    destruct (f_packed ht) eqn:Hp; [by apply (dup_packed ht bs rest)|].
    by apply (dup_chains ht bs rest).
Qed.
End Dup.

(** ** Examples *)

Lemma zend_array_dup_same_witness :
  represents dirt (zend_array_dup dirt (fun v => v + 1) false sample_table)
    (AM Z [(KIdx 2, 13); (KIdx 5, 56); (KStr [97; 98], 51); (KIdx 8, 19); (KStr [98], 61); (KIdx (2 ^ 64 - 1), 71);
           (KIdx 17, 81)] 18 (Some (KIdx (2 ^ 64 - 1)))).
Proof. exact (zend_array_dup_same dirt (fun v => v + 1) sample_table _ false sample_represents). Defined.

(** After the only element has gone, an insertion goes to the key 1, in a copy
    made before it to the key 0. *)
Lemma dup_forgets_next :
  let emptied := run dirt [ONext 10; ODelete (KIdx 0)] sample_new in
  (fun r => (nNextFreeElement r.1, nNextFreeElement (zend_array_dup dirt id false r.1))) <$> emptied = Some (1, 0).
Proof. vm_compute. reflexivity. Qed.
