(* ===== verification/ZendSymtable.v ===== *)
(** * ZendSymtable: integer-like strings as keys

    [_zend_handle_numeric_str] and [_zend_handle_numeric_str_ex] (Zend/zend_hash.h,
    Zend/zend_hash.c) decide which strings become integer keys, and the
    [zend_symtable_*] functions use them: PHP's rule that ["12"] and 12 are the
    same key. *)

From S2P Require Import Prelude NgxNumber ZendHash ZendHashList ZendHashOps ZendHashMap ZendHashDel ZendHashTrace.

(** ** The code *)

(** A [zend_string] ends with a NUL that its length does not count. *)
Definition char_at (key : list Z) (i : nat) : Z := s8 (nth i key 0).

(** [tmp == end]: the sign and the range are checked; [idx] is unsigned. *)
(* php:Zend/zend_hash.c:2466-2474 _zend_handle_numeric_str_ex: tmp *)
Definition numeric_end (negative : bool) (idx : Z) : option Z :=
  if negative then if ZEND_LONG_MAX <? u64 (idx - 1) then None else Some (u64 (0 - idx))
  else if ZEND_LONG_MAX <? idx then None else Some idx.

(* php:Zend/zend_hash.c:2463-2481 _zend_handle_numeric_str_ex: while *)
Fixpoint numeric_loop (negative : bool) (idx : Z) (rest : list Z) : option Z :=
  match rest with
  | [] => numeric_end negative idx
  | c :: rest =>
      if (s8 c <=? $ "9") && ($ "0" <=? s8 c) then
        numeric_loop negative (u64 (u64 (idx * 10) + (s8 c - $ "0"))) rest
      else None
  end.

(** [MAX_LENGTH_OF_LONG] is 20. *)
(* php:Zend/zend_hash.c:2445-2482 _zend_handle_numeric_str_ex *)
Definition zend_handle_numeric_str_ex (key : list Z) : option Z :=
  let negative := char_at key 0 =? $ "-" in
  let tmp := if negative then 1%nat else 0%nat in
  if (char_at key tmp =? $ "0") && (1 <? Z.of_nat (length key)) || (20 - 1 <? Z.of_nat (length key - tmp)) then None
  else numeric_loop negative (u64 (char_at key tmp - $ "0")) (drop (S tmp) key).

(* php:Zend/zend_hash.h:276-292 _zend_handle_numeric_str *)
Definition zend_handle_numeric_str (key : list Z) : option Z :=
  if $ "9" <? char_at key 0 then None
  else if char_at key 0 <? $ "0" then
    if negb (char_at key 0 =? $ "-") then None
    else if ($ "9" <? char_at key 1) || (char_at key 1 <? $ "0") then None
    else zend_handle_numeric_str_ex key
  else zend_handle_numeric_str_ex key.

Section Symtable.
Context {V : Type} (junk : Bucket V).
Implicit Types (ht : HashTable V).

(* php:Zend/zend_hash.h:351-360 zend_symtable_update *)
Definition zend_symtable_update ht (key : list Z) (v : V) : option (HashTable V * option Z) :=
  match zend_handle_numeric_str key with
  | Some idx => zend_hash_index_add_or_update_i junk ht idx v HASH_UPDATE
  | None => zend_hash_add_or_update_i junk ht key v HASH_UPDATE
  end.

(* php:Zend/zend_hash.h:375-384 zend_symtable_del *)
Definition zend_symtable_del ht (key : list Z) : option (HashTable V) :=
  match zend_handle_numeric_str key with
  | Some idx => zend_hash_index_del junk ht idx
  | None => zend_hash_str_del junk ht key
  end.

(* php:Zend/zend_hash.h:399-408 zend_symtable_find *)
Definition zend_symtable_find ht (key : list Z) : option V :=
  match zend_handle_numeric_str key with
  | Some idx => zend_hash_index_find junk ht idx
  | None => zend_hash_find junk ht key
  end.
End Symtable.

(** ** Decimal notation *)

Fixpoint digits (fuel : nat) (n : Z) : list Z :=
  match fuel with
  | O => []
  | S fuel => (if n <? 10 then [] else digits fuel (n / 10)) ++ [$ "0" + n mod 10]
  end.

(** How an integer is written: no leading zeros, no sign but for negative numbers. *)
Definition decimal (z : Z) : list Z := if z <? 0 then $ "-" :: digits 20 (- z) else digits 20 z.

Definition is_bytes (key : list Z) : Prop := Forall (fun c => 0 <= c < 256) key.

Lemma digit_test c : 0 <= c < 256 -> (s8 c <=? $ "9") && ($ "0" <=? s8 c) = is_digit c.
Proof. unfold s8, is_digit. intros H. destruct (Z.ltb_spec c 128); lia. Qed.

Lemma s8_digit c : is_digit c = true -> s8 c = c.
Proof. unfold s8, is_digit. intros H. destruct (Z.ltb_spec c 128); lia. Qed.

Lemma pos_value_dec v c l : pos_value 10 dec_digit v (c :: l) =
  if is_digit c then pos_value 10 dec_digit (v * 10 + (c - 48)) l else None.
Proof.
  cbn [pos_value]. change (dec_digit c) with (if is_digit c then Some (c - 48) else None).
  by destruct (is_digit c).
Qed.

Lemma pos_value_bound v l w : 0 <= v -> pos_value 10 dec_digit v l = Some w ->
  v * 10 ^ Z.of_nat (length l) <= w < (v + 1) * 10 ^ Z.of_nat (length l).
Proof.
  revert v. induction l as [|c l IH]; intros v Hv H.
  - simpl in H. injection H as <-. simpl. lia.
  - rewrite pos_value_dec in H. destruct (is_digit c) eqn:E; [|done].
    unfold is_digit in E. specialize (IH (v * 10 + (c - 48)) ltac:(lia) H).
    simpl length. rewrite Nat2Z.inj_succ, Z.pow_succ_r by lia.
    assert (0 < 10 ^ Z.of_nat (length l)) by (apply Z.pow_pos_nonneg; lia). nia.
Qed.

(** The loop computes the value: it cannot leave 64 bits. *)
Lemma numeric_loop_value negative : forall rest idx k, is_bytes rest -> 0 <= idx < 10 ^ k -> 0 <= k ->
  k + Z.of_nat (length rest) <= 19 ->
  numeric_loop negative idx rest = v ← pos_value 10 dec_digit idx rest; numeric_end negative v.
Proof.
  induction rest as [|c rest IH]; intros idx k Hb Hi Hk Hl; [done|].
  apply Forall_cons in Hb as [Hc Hb]. rewrite pos_value_dec. cbn [numeric_loop].
  rewrite digit_test by done. destruct (is_digit c) eqn:E; [|done]. rewrite (s8_digit c E).
  simpl length in Hl. assert (H10 : 10 ^ (k + 1) <= 10 ^ 19) by (apply Z.pow_le_mono_r; lia).
  rewrite Z.pow_add_r in H10 by lia. unfold is_digit in E. cbn [mbind option_bind].
  replace (u64 (u64 (idx * 10) + (c - $ "0"))) with (idx * 10 + (c - 48)).
  - apply (IH _ (k + 1)); [done| |lia|lia]. rewrite Z.pow_add_r by lia. lia.
  - unfold u64. rewrite (Z.mod_small (idx * 10)) by lia. rewrite Z.mod_small; lia.
Qed.

Lemma digits_value l : forall fuel n, (length l <= fuel)%nat -> l <> [] ->
  pos_value 10 dec_digit 0 l = Some n -> (forall c l', l = c :: l' -> c = $ "0" -> l' = []) ->
  digits fuel n = l.
Proof.
  induction l as [|c l IH] using rev_ind; intros fuel n Hf Hne Hv Hz; [done|].
  rewrite length_app in Hf. simpl in Hf. destruct fuel as [|fuel]; [lia|]. cbn [digits].
  rewrite pos_value_app in Hv. destruct (pos_value 10 dec_digit 0 l) as [v|] eqn:Ev; [|done].
  cbn [mbind option_bind] in Hv. rewrite pos_value_dec in Hv. destruct (is_digit c) eqn:Ec; [|done]. injection Hv as <-.
  unfold is_digit in Ec. pose proof (pos_value_bound 0 l v ltac:(lia) Ev) as Hb.
  assert (Hd : (v * 10 + (c - 48)) / 10 = v) by (symmetry; apply (Z.div_unique _ _ _ (c - 48)); lia).
  assert (Hm : (v * 10 + (c - 48)) mod 10 = c - 48) by (symmetry; apply (Z.mod_unique _ _ v); lia).
  rewrite Hd, Hm. replace ($ "0" + (c - 48)) with c by lia. f_equal.
  destruct l as [|c0 l].
  - simpl in Ev. injection Ev as <-. by rewrite (proj2 (Z.ltb_lt _ _)) by lia.
  - assert (Hv1 : 1 <= v).
    { rewrite pos_value_dec in Ev. destruct (is_digit c0) eqn:E0; [|done].
      unfold is_digit in E0. assert (Hc0 : c0 <> 48) by (intros E; pose proof (Hz c0 (l ++ [c]) eq_refl E); by destruct l).
      pose proof (pos_value_bound _ _ _ (ltac:(lia) : 0 <= 0 * 10 + (c0 - 48)) Ev) as H1.
      assert (0 < 10 ^ Z.of_nat (length l)) by (apply Z.pow_pos_nonneg; lia). nia. }
    rewrite (proj2 (Z.ltb_ge _ _)) by lia. apply IH; [simpl in Hf |- *; lia|done|done|].
    intros c1 l1 [= <- <-] E. pose proof (Hz c0 (l ++ [c]) eq_refl E). by destruct l.
Qed.

Lemma digits_canonical : forall fuel n, 0 <= n < 10 ^ Z.of_nat fuel -> (0 < fuel)%nat ->
  exists c l, digits fuel n = c :: l /\ is_digit c = true /\ pos_value 10 dec_digit 0 (c :: l) = Some n /\
  (c = $ "0" -> l = []) /\ (n < 10 ^ 19 -> (length (c :: l) <= 19)%nat) /\ Forall (fun c => is_digit c = true) l.
Proof.
  intros fuel n Hn Hf.
  assert (H : forall fuel n, 0 <= n < 10 ^ Z.of_nat fuel -> (0 < fuel)%nat -> forall k : nat,
    (0 < k)%nat -> n < 10 ^ Z.of_nat k -> exists c l, digits fuel n = c :: l /\
    pos_value 10 dec_digit 0 (c :: l) = Some n /\ (c = $ "0" -> l = []) /\ (length (c :: l) <= k)%nat /\
    Forall (fun c => is_digit c = true) (c :: l)).
  { clear. induction fuel as [|fuel IH]; intros n Hn Hf k Hk Hnk; [lia|]. cbn [digits].
    assert (Hm : is_digit (48 + n mod 10) = true) by (unfold is_digit; pose proof (Z.mod_pos_bound n 10); lia).
    destruct (Z.ltb_spec n 10) as [Hs|Hs].
    - exists (48 + n mod 10), []. split_and!; try done.
      + rewrite pos_value_dec, Hm. cbn. f_equal. rewrite Z.mod_small by lia. lia.
      + by repeat constructor.
    - assert (Hf' : (0 < fuel)%nat) by (destruct fuel; [simpl in Hn; lia|lia]).
      destruct k as [|[|k]]; [lia|simpl in Hnk; lia|].
      rewrite Nat2Z.inj_succ, Z.pow_succ_r in Hn, Hnk by lia.
      destruct (IH (n / 10)) with (k := S k) as (c & l & E & Hv & Hz & Hlen & Hall);
        [split; [apply Z.div_pos; lia|apply Z.div_lt_upper_bound; lia]|done|lia
        |apply Z.div_lt_upper_bound; lia|].
      exists c, (l ++ [48 + n mod 10]). rewrite E. split_and!; [done| | | |].
      + change (c :: l ++ [48 + n mod 10]) with ((c :: l) ++ [48 + n mod 10]).
        rewrite pos_value_app, Hv. cbn [mbind option_bind]. rewrite pos_value_dec, Hm. cbn. f_equal.
        pose proof (Z.div_mod n 10). lia.
      + intros E0. specialize (Hz E0). subst l c. cbn in Hv. injection Hv as Hv.
        pose proof (Z.div_mod n 10). pose proof (Z.mod_pos_bound n 10). lia.
      + simpl in Hlen |- *. rewrite length_app. simpl. lia.
      + change (c :: l ++ [48 + n mod 10]) with ((c :: l) ++ [48 + n mod 10]). apply Forall_app.
        split; [done|]. by repeat constructor. }
  destruct (H fuel n Hn Hf fuel Hf ltac:(lia)) as (c & l & E & Hv & Hz & Hlen & Hall).
  apply Forall_cons in Hall as [Hc Hl]. exists c, l. split_and!; try done. intros H19.
  destruct (H fuel n Hn Hf 19%nat ltac:(lia) H19) as (c' & l' & E' & _ & _ & Hlen' & _).
  rewrite E in E'. by injection E' as -> ->.
Qed.

(** ** Which strings are integers *)

Lemma digits_bytes l : Forall (fun c => is_digit c = true) l -> is_bytes l.
Proof. intros H. eapply Forall_impl; [exact H|]. unfold is_digit. intros c Hc. lia. Qed.

(** What is done with the digits after the sign. *)
Definition numeric_digits (negative : bool) (c : Z) (l : list Z) : option Z :=
  if (c =? $ "0") && (negative || (0 <? Z.of_nat (length l))) || (19 <? Z.of_nat (S (length l))) then None
  else v ← pos_value 10 dec_digit 0 (c :: l); numeric_end negative v.

Lemma numeric_loop_digits negative c l : is_digit c = true -> is_bytes l -> Z.of_nat (S (length l)) <= 19 ->
  numeric_loop negative (u64 (c - $ "0")) l = v ← pos_value 10 dec_digit 0 (c :: l); numeric_end negative v.
Proof.
  intros Hc Hl Hlen. rewrite pos_value_dec, Hc. unfold is_digit in Hc.
  replace (u64 (c - $ "0")) with (0 * 10 + (c - 48)) by (unfold u64; rewrite Z.mod_small; lia).
  apply (numeric_loop_value _ l _ 1); [done|lia|lia|lia].
Qed.

Lemma handle_positive c l : is_digit c = true -> is_bytes l ->
  zend_handle_numeric_str (c :: l) = numeric_digits false c l.
Proof.
  intros Hc Hl. unfold zend_handle_numeric_str, zend_handle_numeric_str_ex, char_at. simpl nth.
  rewrite (s8_digit c Hc). pose proof Hc as Hc'. unfold is_digit in Hc'.
  rewrite (proj2 (Z.ltb_ge _ _)), (proj2 (Z.ltb_ge c _)), (proj2 (Z.eqb_neq c _)) by lia.
  simpl nth. rewrite (s8_digit c Hc). unfold numeric_digits. cbn [orb].
  replace (1 <? Z.of_nat (length (c :: l))) with (0 <? Z.of_nat (length l))
    by (apply eq_iff_eq_true; rewrite !Z.ltb_lt; simpl length; lia).
  replace (20 - 1 <? Z.of_nat (length (c :: l) - 0)) with (19 <? Z.of_nat (S (length l)))
    by (apply eq_iff_eq_true; rewrite !Z.ltb_lt; simpl length; lia).
  destruct ((c =? $ "0") && (0 <? Z.of_nat (length l))); [done|]. cbn [orb].
  destruct (Z.ltb_spec 19 (Z.of_nat (S (length l)))); [done|].
  by rewrite numeric_loop_digits.
Qed.

Lemma handle_negative c l : is_digit c = true -> is_bytes l ->
  zend_handle_numeric_str ($ "-" :: c :: l) = numeric_digits true c l.
Proof.
  intros Hc Hl. unfold zend_handle_numeric_str, zend_handle_numeric_str_ex, char_at. simpl nth.
  change (s8 45) with 45. rewrite (s8_digit c Hc). pose proof Hc as Hc'. unfold is_digit in Hc'.
  cbn [Z.ltb Z.eqb Z.compare Pos.compare Pos.compare_cont Pos.eqb negb].
  rewrite (proj2 (Z.ltb_ge _ _)), (proj2 (Z.ltb_ge c _)) by lia. cbn [orb].
  unfold numeric_digits. rewrite (proj2 (Z.ltb_lt 1 _)) by (simpl length; lia). cbn [orb andb].
  replace (20 - 1 <? Z.of_nat (length ($ "-" :: c :: l) - 1)) with (19 <? Z.of_nat (S (length l)))
    by (apply eq_iff_eq_true; rewrite !Z.ltb_lt; simpl length; lia).
  destruct (c =? $ "0"); [done|]. cbn [orb andb].
  destruct (Z.ltb_spec 19 (Z.of_nat (S (length l)))); [done|].
  change (drop 2 ($ "-" :: c :: l)) with l. by rewrite numeric_loop_digits.
Qed.

Lemma s8_byte_digit c : 0 <= c < 256 -> $ "0" <= s8 c <= $ "9" -> is_digit c = true.
Proof. unfold s8, is_digit. destruct (Z.ltb_spec c 128); lia. Qed.

Lemma handle_form key idx : is_bytes key -> zend_handle_numeric_str key = Some idx ->
  exists c l, is_digit c = true /\ is_bytes l /\ (key = c :: l \/ key = $ "-" :: c :: l).
Proof.
  intros Hb. unfold zend_handle_numeric_str, char_at. destruct key as [|c0 key]; [done|]. simpl nth.
  apply Forall_cons in Hb as [H0 Hb].
  destruct (Z.ltb_spec ($ "9") (s8 c0)); [done|]. destruct (Z.ltb_spec (s8 c0) ($ "0")) as [Hlt|Hge].
  - destruct (Z.eqb_spec (s8 c0) ($ "-")) as [E|]; [|done]. cbn [negb].
    assert (c0 = 45) as -> by (unfold s8 in E; destruct (Z.ltb_spec c0 128); lia).
    destruct key as [|c key]; [done|]. apply Forall_cons in Hb as [Hc Hb]. simpl nth.
    destruct (Z.ltb_spec ($ "9") (s8 c)); [done|]. destruct (Z.ltb_spec (s8 c) ($ "0")); [done|].
    intros _. exists c, key. split; [by apply s8_byte_digit|]. auto.
  - intros _. exists c0, key. split; [by apply s8_byte_digit|]. auto.
Qed.

Lemma numeric_digits_sound negative c l idx : is_digit c = true -> is_bytes l ->
  numeric_digits negative c l = Some idx ->
  exists v, numeric_end negative v = Some idx /\ 0 <= v < 10 ^ 19 /\ digits 20 v = c :: l /\
    (negative = true -> 1 <= v).
Proof.
  intros Hc Hl H. unfold numeric_digits in H.
  destruct ((c =? $ "0") && _) eqn:E0; [done|]. cbn [orb] in H.
  destruct (Z.ltb_spec 19 (Z.of_nat (S (length l)))) as [|Hlen]; [done|].
  destruct (pos_value 10 dec_digit 0 (c :: l)) as [v|] eqn:Ev; [|done]. cbn in H. exists v.
  pose proof (pos_value_bound 0 (c :: l) v ltac:(lia) Ev) as Hv.
  assert (10 ^ Z.of_nat (length (c :: l)) <= 10 ^ 19) by (apply Z.pow_le_mono_r; simpl length; lia).
  split_and!; [done|lia|lia| |].
  - apply digits_value; [simpl length; lia|done|done|]. intros c' l' [= <- <-] ->.
    destruct l as [|c1 l]; [done|]. exfalso. clear - E0. destruct negative; done.
  - intros ->. cbn [orb] in E0. rewrite andb_true_r in E0. apply Z.eqb_neq in E0.
    rewrite pos_value_dec, Hc in Ev. unfold is_digit in Hc.
    pose proof (pos_value_bound _ _ _ (ltac:(lia) : 0 <= 0 * 10 + (c - 48)) Ev) as H1.
    assert (0 < 10 ^ Z.of_nat (length l)) by (apply Z.pow_pos_nonneg; lia). nia.
Qed.

Lemma handle_decimal z : - 2 ^ 63 <= z < 2 ^ 63 -> zend_handle_numeric_str (decimal z) = Some (u64 z).
Proof.
  intros Hz. unfold decimal. destruct (Z.ltb_spec z 0) as [Hneg|Hpos].
  - destruct (digits_canonical 20 (- z)) as (c & l & -> & Hc & Hv & H0 & Hlen & Hl); [lia|lia|].
    rewrite handle_negative by (done || by apply digits_bytes). unfold numeric_digits.
    assert (Hc0 : c <> 48) by (intros ->; rewrite (H0 eq_refl) in Hv; cbn in Hv; injection Hv as Hv; lia).
    rewrite (proj2 (Z.eqb_neq _ _) Hc0). cbn [andb orb]. specialize (Hlen ltac:(lia)). simpl length in Hlen.
    rewrite (proj2 (Z.ltb_ge _ _)), Hv by lia. cbn [mbind option_bind]. unfold numeric_end, ZEND_LONG_MAX, u64.
    rewrite (Z.mod_small (- z - 1)) by lia. rewrite (proj2 (Z.ltb_ge _ _)) by lia. do 2 f_equal. lia.
  - destruct (digits_canonical 20 z) as (c & l & -> & Hc & Hv & H0 & Hlen & Hl); [lia|lia|].
    rewrite handle_positive by (done || by apply digits_bytes). unfold numeric_digits.
    specialize (Hlen ltac:(lia)). simpl length in Hlen. cbn [orb].
    assert (E : (c =? $ "0") && (0 <? Z.of_nat (length l)) = false).
    { destruct (Z.eqb_spec c ($ "0")) as [->|]; [by rewrite (H0 eq_refl)|done]. }
    rewrite E, (proj2 (Z.ltb_ge _ _)), Hv by lia. cbn [orb mbind option_bind]. unfold numeric_end, ZEND_LONG_MAX.
    rewrite (proj2 (Z.ltb_ge _ _)) by lia. unfold u64. by rewrite Z.mod_small by lia.
Qed.

Lemma handle_sound key idx : is_bytes key -> zend_handle_numeric_str key = Some idx ->
  exists z, - 2 ^ 63 <= z < 2 ^ 63 /\ key = decimal z /\ idx = u64 z.
Proof.
  intros Hb H. destruct (handle_form key idx Hb H) as (c & l & Hc & Hl & [->| ->]).
  - rewrite handle_positive in H by done.
    destruct (numeric_digits_sound _ _ _ _ Hc Hl H) as (v & Hv & Hr & Hd & _).
    unfold numeric_end, ZEND_LONG_MAX in Hv. destruct (Z.ltb_spec (2 ^ 63 - 1) v); [done|]. injection Hv as <-.
    exists v. unfold decimal. rewrite (proj2 (Z.ltb_ge _ _)) by lia. split_and!; [lia|lia|done|].
    unfold u64. by rewrite Z.mod_small by lia.
  - rewrite handle_negative in H by done.
    destruct (numeric_digits_sound _ _ _ _ Hc Hl H) as (v & Hv & Hr & Hd & Hv1). specialize (Hv1 eq_refl).
    unfold numeric_end, ZEND_LONG_MAX, u64 in Hv. rewrite (Z.mod_small (v - 1)) in Hv by lia.
    destruct (Z.ltb_spec (2 ^ 63 - 1) (v - 1)); [done|]. injection Hv as <-.
    exists (- v). unfold decimal. rewrite (proj2 (Z.ltb_lt _ _)), Z.opp_involutive, Hd by lia.
    split_and!; [lia|lia|done|done].
Qed.

(** The strings that become integer keys are exactly the decimal notations of
    the 64-bit integers, without leading zeros, plus sign, blanks or "-0"; the key
    is the integer.  No string of digits wraps around to another one's key. *)
Theorem numeric_str_decimal key idx : is_bytes key ->
  zend_handle_numeric_str key = Some idx <->
  exists z, - 2 ^ 63 <= z < 2 ^ 63 /\ key = decimal z /\ idx = u64 z.
Proof.
  intros Hb. split; [by apply handle_sound|]. intros (z & Hz & -> & ->). by apply handle_decimal.
Qed.

(** ** Symbol tables *)

(** The key that a string stands for. *)
Definition symkey (s : list Z) : key :=
  match zend_handle_numeric_str s with Some idx => KIdx idx | None => KStr s end.

Lemma symkey_ok s : is_bytes s -> key_ok (symkey s).
Proof.
  intros Hb. unfold symkey. destruct (zend_handle_numeric_str s) as [idx|] eqn:E; [|apply str_key_ok].
  destruct (handle_sound s idx Hb E) as (z & _ & _ & ->). unfold key_ok, u64. cbn [khash].
  by apply Z.mod_pos_bound.
Qed.

(** Different strings stand for different keys. *)
Lemma symkey_inj s s' : is_bytes s -> is_bytes s' -> symkey s = symkey s' -> s = s'.
Proof.
  intros Hb Hb'. unfold symkey.
  destruct (zend_handle_numeric_str s) as [i|] eqn:E, (zend_handle_numeric_str s') as [i'|] eqn:E'; try done;
    intros [= Ei]; [|done].
  destruct (handle_sound s i Hb E) as (z & Hz & -> & ->).
  destruct (handle_sound s' i' Hb' E') as (z' & Hz' & -> & ->).
  f_equal. unfold u64 in Ei. pose proof (Z.div_mod z (2 ^ 64)). pose proof (Z.div_mod z' (2 ^ 64)).
  assert (z / 2 ^ 64 = z' / 2 ^ 64 \/ z = z') by lia. lia.
Qed.

Lemma alookup_insert_ne {V} k k' (v : V) l : k' <> k -> alookup k' (l ++ [(k, v)]) = alookup k' l.
Proof.
  intros Hne. induction l as [|[k0 v0] l IH]; simpl; [by rewrite decide_False|]. by rewrite IH.
Qed.

Lemma alookup_aupdate {V} k k' (v : V) l : alookup k' (aupdate k v l) =
  if decide (k' = k) then v0 ← alookup k l; Some v else alookup k' l.
Proof.
  induction l as [|[k0 v0] l IH]; [by case_decide|].
  change (aupdate k v ((k0, v0) :: l)) with ((if decide (k0 = k) then (k, v) else (k0, v0)) :: aupdate k v l).
  destruct (decide (k0 = k)) as [->|Hk0]; simpl.
  - rewrite (decide_True (P := k = k)) by done. destruct (decide (k' = k)) as [->|Hk'].
    + by rewrite decide_True.
    + rewrite IH. rewrite !(decide_False (P := k = k')) by congruence. done.
  - rewrite IH. rewrite (decide_False (P := k0 = k)) by done. destruct (decide (k' = k)) as [->|Hk']; [|done].
    by rewrite decide_False.
Qed.

Lemma alookup_adelete {V} k k' (l : list (key * V)) :
  alookup k' (adelete k l) = if decide (k' = k) then None else alookup k' l.
Proof.
  unfold adelete. induction l as [|[k0 v0] l IH]; [by case_decide|]. rewrite filter_cons. cbn [fst].
  destruct (decide (k0 = k)) as [->|Hk0].
  - rewrite decide_False by naive_solver. rewrite IH. simpl. destruct (decide (k' = k)) as [->|Hk']; [done|].
    by rewrite decide_False by congruence.
  - rewrite decide_True by done. simpl. rewrite IH. destruct (decide (k' = k)) as [->|Hk']; [|done].
    by rewrite decide_False.
Qed.

Lemma a_find_update {V} k k' (v : V) m :
  a_find k' (a_add_or_update HASH_UPDATE k v m).1 = if decide (k' = k) then Some v else a_find k' m.
Proof.
  unfold a_add_or_update, a_find. destruct (alookup k (m_list m)) as [v0|] eqn:E; cbn.
  - by rewrite alookup_aupdate, E.
  - destruct (decide (k' = k)) as [->|Hk]; [|by apply alookup_insert_ne].
    apply alookup_mid. by apply alookup_None.
Qed.

Section Table.
Context {V : Type} (junk : Bucket V).
Implicit Types (ht : HashTable V) (m : amap V).

Lemma symtable_find_spec ht m s : represents junk ht m -> is_bytes s ->
  zend_symtable_find junk ht s = a_find (symkey s) m.
Proof.
  intros (bs & rest & Hr) Hb. pose proof (symkey_ok s Hb) as Hk. unfold zend_symtable_find, symkey in *.
  destruct (zend_handle_numeric_str s).
  - by apply (zend_hash_index_find_spec junk ht bs rest).
  - by apply (zend_hash_find_spec junk ht bs rest).
Qed.

Lemma symtable_update_ok ht m s v : represents junk ht m -> is_bytes s ->
  insertion_ok junk m (symkey s) v (a_add_or_update HASH_UPDATE (symkey s) v m) (zend_symtable_update junk ht s v).
Proof.
  intros Hr Hb. pose proof (add_or_update_ok junk ht m (symkey s) v HASH_UPDATE Hr (symkey_ok s Hb) eq_refl) as H.
  revert H. unfold zend_symtable_update, symkey. by destruct (zend_handle_numeric_str s).
Qed.

(** C26. A symbol table is a map over strings: an update of one string, integer
    or not, sets its value and no other string's, a deletion removes it and no
    other, and fails exactly if it is not there. *)
Theorem symtable_strings ht m s v : represents junk ht m -> Z.of_nat (length (m_list m)) <= 2 ^ 30 -> is_bytes s ->
  (exists ht' idx m', zend_symtable_update junk ht s v = Some (ht', Some idx) /\
    b_val (bucket junk ht' idx) = Some v /\ represents junk ht' m' /\ forall s', is_bytes s' ->
    zend_symtable_find junk ht' s' = if decide (s' = s) then Some v else zend_symtable_find junk ht s') /\
  match zend_symtable_del junk ht s with
  | None => zend_symtable_find junk ht s = None
  | Some ht' => is_Some (zend_symtable_find junk ht s) /\ (exists m', represents junk ht' m') /\ forall s', is_bytes s' ->
      zend_symtable_find junk ht' s' = if decide (s' = s) then None else zend_symtable_find junk ht s'
  end.
Proof.
  intros Hr Hl Hb.
  assert (Hdec : forall {A} s' (x y : A), is_bytes s' ->
    (if decide (symkey s' = symkey s) then x else y) = if decide (s' = s) then x else y).
  { intros A s' x y Hb'. destruct (decide (s' = s)) as [->|Hne]; [by rewrite decide_True|].
    rewrite decide_False; [done|]. intros E. by apply Hne, symkey_inj. }
  split.
  - pose proof (symtable_update_ok ht m s v Hr Hb) as H.
    destruct (zend_symtable_update junk ht s v) as [[ht' [idx|]]|]; cbn in H.
    + destruct H as (H1 & _ & H2 & _). eexists ht', idx, _. split_and!; [done|done|exact H1|]. intros s' Hb'.
      by rewrite (symtable_find_spec ht' _ s' H1 Hb'), (symtable_find_spec ht m s' Hr Hb'), a_find_update, Hdec.
    + destruct H as [_ H]. unfold a_add_or_update in H. by destruct (a_find (symkey s) m).
    + unfold too_large in H. lia.
  - destruct Hr as (bs & rest & Hr). pose proof (delete_ok junk ht bs rest m (symkey s) Hr (symkey_ok s Hb)) as H.
    assert (Hr' : represents junk ht m) by by exists bs, rest.
    assert (Ed : zend_symtable_del junk ht s = delete_key junk ht (symkey s)).
    { unfold zend_symtable_del, symkey. by destruct (zend_handle_numeric_str s). }
    rewrite Ed. destruct (delete_key junk ht (symkey s)) as [ht'|]; cbn in H.
    + destruct H as [H1 H2]. rewrite (symtable_find_spec ht m s Hr' Hb). split; [done|]. split; [by eexists|]. intros s' Hb'.
      rewrite (symtable_find_spec ht' _ s' H2 Hb'), (symtable_find_spec ht m s' Hr' Hb').
      unfold a_find. cbn [a_delete m_list]. by rewrite alookup_adelete, Hdec.
    + by rewrite (symtable_find_spec ht m s Hr' Hb).
Qed.
End Table.

(** ** Examples *)

Lemma numeric_str_decimal_witness :
  zend_handle_numeric_str (bytes "-9223372036854775808") = Some (2 ^ 63) /\
  zend_handle_numeric_str (bytes "9223372036854775808") = None.
Proof.
  split.
  - apply numeric_str_decimal; [repeat (constructor; [vm_compute; split; congruence|]); constructor|].
    exists (- 2 ^ 63). split; [split; [lia|reflexivity]|split; vm_compute; reflexivity].
  - vm_compute. reflexivity.
Defined.

Example not_numeric : zend_handle_numeric_str <$>
  [bytes "0"; bytes "007"; bytes "-0"; bytes "-"; []; bytes "1 "; bytes "+1"; bytes "18446744073709551617"] =
  [Some 0; None; None; None; None; None; None; None].
Proof. vm_compute. reflexivity. Qed.

Lemma symtable_strings_witness : exists ht idx m,
  zend_symtable_update dirt sample_table (bytes "8") 77 = Some (ht, Some idx) /\ represents dirt ht m /\
  zend_symtable_find dirt ht (bytes "8") = Some 77 /\ zend_symtable_find dirt ht (bytes "b") = Some 60.
Proof.
  assert (Hb : forall s, bool_decide (Forall (fun c => 0 <= c < 256) s) = true -> is_bytes s).
  { intros s H. by apply bool_decide_eq_true in H. }
  destruct (symtable_strings dirt sample_table _ (bytes "8") 77 sample_represents)
    as [(ht & idx & m & H1 & _ & H2 & H3) _]; [vm_compute; congruence|apply Hb; vm_compute; reflexivity|].
  exists ht, idx, m. split; [exact H1|]. split; [exact H2|].
  split; (rewrite H3; [vm_compute; reflexivity|apply Hb; vm_compute; reflexivity]).
Defined.
