(* ===== verification/ZendHashMerge.v ===== *)
(** * ZendHashMerge: the entries of one table put into another

    [_zend_hash_merge] and [zend_hash_copy] of Zend/zend_hash.c, without copy
    constructors; source and target are different tables. *)

From S2P Require Import Prelude ZendHash ZendHashList ZendHashOps ZendHashMap ZendHashDel ZendHashIter ZendHashTrace.
From S2P Require Import ZendHashDup ZendSymtable.

Section Merge.
Context {V : Type} (junk : Bucket V).
Implicit Types (ht source target : HashTable V) (b p : Bucket V) (bs rest : list (Bucket V)) (m : amap V) (k : key).

#[local] Abbreviation repr := (repr junk).

(** ** The operations *)

(* php:Zend/zend_hash.c:1869-1879 _zend_hash_merge: if *)
Definition insert_bucket target p (v : V) (flag : add_flags) : option (HashTable V) :=
  fst <$> match b_key p with
          | Some key => zend_hash_add_or_update_i junk target key v flag
          | None => zend_hash_index_add_or_update_i junk target (b_h p) v flag
          end.

(** [None]: the target would be too large. *)
(* php:Zend/zend_hash.c:1862-1901 _zend_hash_merge: for *)
Fixpoint merge_loop (n : nat) (overwrite : bool) (idx : Z) source target : option (HashTable V) :=
  match n with
  | O => Some target
  | S n =>
      let p := bucket junk source idx in
      match b_val p with
      | None => merge_loop n overwrite (idx + 1) source target
      | Some v =>
          target ← insert_bucket target p v (if overwrite then HASH_UPDATE else HASH_ADD);
          merge_loop n overwrite (idx + 1) source target
      end
  end.

(* php:Zend/zend_hash.c:1851-1909 _zend_hash_merge *)
Definition zend_hash_merge target source (overwrite : bool) : option (HashTable V) :=
  target ← merge_loop (Z.to_nat (nNumUsed source)) overwrite 0 source target;
  Some (if 0 <? nNumOfElements target then
          set_pointer (first_live junk (Z.to_nat (nNumUsed target)) 0 target) target
        else target).

(** [setTargetPointer] *)
(* php:Zend/zend_hash.c:1625-1648 zend_hash_copy: for *)
Fixpoint copy_loop (n : nat) (set_target : bool) (idx : Z) source target : option (HashTable V) :=
  match n with
  | O => Some target
  | S n =>
      let p := bucket junk source idx in
      match b_val p with
      | None => copy_loop n set_target (idx + 1) source target
      | Some v =>
          let target :=
            if set_target && (nInternalPointer source =? idx) then set_pointer HT_INVALID_IDX target else target in
          target ← insert_bucket target p v HASH_UPDATE;
          copy_loop n set_target (idx + 1) source target
      end
  end.

(* php:Zend/zend_hash.c:1613-1656 zend_hash_copy *)
Definition zend_hash_copy target source : option (HashTable V) :=
  let set_target := nInternalPointer target =? HT_INVALID_IDX in
  target ← copy_loop (Z.to_nat (nNumUsed source)) set_target 0 source target;
  Some (default_pointer junk target).

(** ** On the maps *)

Definition a_merge_step (overwrite : bool) m (e : key * V) : amap V :=
  (a_add_or_update (if overwrite then HASH_UPDATE else HASH_ADD) e.1 e.2 m).1.

Definition a_copy_step (set_target : bool) (pk : option key) m (e : key * V) : amap V :=
  (a_add_or_update HASH_UPDATE e.1 e.2 (if set_target && bool_decide (pk = Some e.1) then a_move None m else m)).1.

(** ** One entry *)

Lemma insert_bucket_ok target mt b v flag : represents junk target mt -> b_val b = Some v -> hash_ok b ->
  fl_add_new flag = false -> Z.of_nat (length (m_list mt)) <= 2 ^ 30 ->
  exists target', insert_bucket target b v flag = Some target' /\
    represents junk target' (a_add_or_update flag (bkey b) v mt).1.
Proof.
  intros Hr Hv Hb Hf Hl. assert (Hu : undef b = false) by (unfold undef; by rewrite Hv).
  destruct (Hb Hu) as [Hh1 Hh2]. assert (Hk : key_ok (bkey b)) by (unfold key_ok; by rewrite <- Hh2).
  pose proof (add_or_update_ok junk target mt (bkey b) v flag Hr Hk Hf) as H.
  assert (E : add_or_update junk target (bkey b) v flag =
    match b_key b with
    | Some key => zend_hash_add_or_update_i junk target key v flag
    | None => zend_hash_index_add_or_update_i junk target (b_h b) v flag
    end) by (unfold add_or_update, bkey; by destruct (b_key b)).
  unfold insert_bucket. rewrite <- E.
  destruct (add_or_update junk target (bkey b) v flag) as [[target' [idx|]]|]; cbn in H.
  - exists target'. by destruct H as [H _].
  - exists target'. by destruct H as [H _].
  - unfold too_large in H. lia.
Qed.

Lemma merge_step_length overwrite m e : (length (m_list (a_merge_step overwrite m e)) <= S (length (m_list m)))%nat.
Proof. apply add_or_update_length. Qed.

Lemma merge_loop_ok source bs rest ms overwrite : repr source bs rest ms -> forall n i target mt,
  (n + i = length bs)%nat -> represents junk target mt ->
  Z.of_nat (length (m_list mt) + n) <= 2 ^ 30 ->
  exists target', merge_loop n overwrite (Z.of_nat i) source target = Some target' /\
    represents junk target' (foldl (a_merge_step overwrite) mt (entries (drop i bs))).
Proof.
  intros Hs. induction n as [|n IH]; intros i target mt Hn Hr Hl; cbn [merge_loop].
  { rewrite drop_ge by lia. by exists target. }
  destruct (lookup_lt_is_Some_2 bs i) as [b Hb]; [lia|].
  rewrite (bucket_used junk source bs rest i b), (drop_S bs b) by (done || apply Hs).
  change (b :: drop (S i) bs) with ([b] ++ drop (S i) bs). rewrite entries_app, foldl_app.
  replace (Z.of_nat i + 1) with (Z.of_nat (S i)) by lia. destruct (b_val b) as [v|] eqn:Ev.
  2: { rewrite entries_undef by (unfold undef; by rewrite Ev). cbn [foldl]. apply IH; [lia|done|lia]. }
  rewrite (entries_live b v Ev). cbn [foldl].
  pose proof (r_hash _ _ _ _ (proj1 Hs)) as Hh. rewrite Forall_lookup in Hh.
  destruct (insert_bucket_ok target mt b v (if overwrite then HASH_UPDATE else HASH_ADD) Hr Ev (Hh _ _ Hb))
    as (target' & -> & Hr'); [by destruct overwrite|lia|].
  cbn [mbind option_bind]. apply IH; [lia|exact Hr'|].
  pose proof (merge_step_length overwrite mt (bkey b, v)). unfold a_merge_step in *. cbn [fst snd] in *. lia.
Qed.

Lemma pointer_first ht bs rest m : repr ht bs rest m ->
  represents junk
    (if 0 <? nNumOfElements ht then set_pointer (first_live junk (Z.to_nat (nNumUsed ht)) 0 ht) ht else ht)
    (a_move (fst <$> head (m_list m)) m).
Proof.
  intros Hr. exists bs, rest. pose proof (proj1 Hr) as Hb.
  rewrite (elements_length _ _ _ _ Hb), (r_list _ _ _ _ Hb). destruct (entries bs) as [|e l] eqn:E.
  - assert (Hp : m_pos m = None).
    { pose proof (pointer_cases junk _ _ _ _ Hr) as Hc. destruct (m_pos m) as [k|]; [|done].
      destruct Hc as (n & b & v & _ & _ & _ & _ & _ & _ & _ & _ & Hl & _).
      rewrite (r_list _ _ _ _ Hb), E in Hl. by destruct (entries (take n bs)). }
    assert (Hid : a_move None m = m) by (rewrite <- Hp; by destruct m).
    exact (eq_ind_r (repr ht bs rest) Hr Hid).
  - cbn [length]. rewrite (proj2 (Z.ltb_lt _ _)) by lia. apply move_repr; [done|]. rewrite <- E.
    pose proof (r_used _ _ _ _ Hb) as Hu.
    apply (first_live_spec junk _ ht bs rest 0); [apply Hb|lia|by rewrite drop_0, E].
Qed.

(** ** Which value a key has *)

Lemma a_find_step overwrite m e k : a_find k (a_merge_step overwrite m e) =
  if decide (e.1 = k) then if overwrite then Some e.2
                           else match a_find k m with Some v => Some v | None => Some e.2 end
  else a_find k m.
Proof.
  destruct e as [k0 v0]. unfold a_merge_step. cbn [fst snd]. destruct overwrite.
  - rewrite a_find_update. destruct (decide (k0 = k)) as [->|Hne]; [by rewrite decide_True|].
    by rewrite decide_False by congruence.
  - unfold a_add_or_update, a_find. destruct (alookup k0 (m_list m)) as [v|] eqn:E; cbn.
    + destruct (decide (k0 = k)) as [<-|]; [by rewrite E|done].
    + destruct (decide (k0 = k)) as [<-|Hne]; [|by apply alookup_insert_ne].
      rewrite E. apply alookup_mid. by apply alookup_None.
Qed.

Definition prefer (x y : option V) : option V := match x with Some v => Some v | None => y end.

Lemma a_find_merge overwrite l k : forall m, NoDup l.*1 ->
  a_find k (foldl (a_merge_step overwrite) m l) =
  if overwrite then prefer (alookup k l) (a_find k m) else prefer (a_find k m) (alookup k l).
Proof.
  induction l as [|[k0 v0] l IH]; intros m Hnd; [cbn; destruct overwrite; [done|]; by destruct (a_find k m)|].
  rewrite fmap_cons in Hnd. apply NoDup_cons in Hnd as [Hk Hnd]. cbn [foldl alookup fst snd] in *.
  rewrite IH by done. rewrite a_find_step. cbn [fst snd]. destruct (decide (k0 = k)) as [->|Hne]; [|done].
  assert (E : alookup k l = None) by by apply alookup_None. rewrite E.
  destruct overwrite; cbn [prefer]; [done|]. by destruct (a_find k m).
Qed.

Lemma filter_ext_in {A} (P Q : A -> Prop) `{!forall x, Decision (P x), !forall x, Decision (Q x)} (l : list A) :
  (forall x, x ∈ l -> (P x <-> Q x)) -> filter P l = filter Q l.
Proof.
  induction l as [|x l IH]; intros Hl; [done|]. rewrite !filter_cons, IH by (intros y Hy; apply Hl; by right).
  pose proof (Hl x ltac:(left)) as Hx. destruct (decide (P x)), (decide (Q x)); (done || tauto).
Qed.

(** The keys: the target's, then the new ones. *)
Lemma merge_keys overwrite l : forall m, NoDup l.*1 ->
  (m_list (foldl (a_merge_step overwrite) m l)).*1 =
  (m_list m).*1 ++ filter (fun k => k ∉ (m_list m).*1) l.*1.
Proof.
  induction l as [|[k v] l IH]; intros m Hnd; [cbn; by rewrite app_nil_r|].
  rewrite fmap_cons in *. apply NoDup_cons in Hnd as [Hk Hnd]. cbn [foldl fst] in *. rewrite IH by done.
  set (m1 := a_merge_step overwrite m (k, v)). rewrite filter_cons.
  destruct (decide (k ∈ (m_list m).*1)) as [Hin|Hin].
  - assert (E : (m_list m1).*1 = (m_list m).*1).
    { unfold m1, a_merge_step. cbn [fst snd]. rewrite spec_present by done.
      destruct overwrite; [|done]. apply aupdate_keys. }
    rewrite E, (decide_False (P := k ∉ _)) by (intros H; by apply H). done.
  - assert (E : (m_list m1).*1 = (m_list m).*1 ++ [k]).
    { unfold m1, a_merge_step. cbn [fst snd]. rewrite spec_insert by done. cbn. by rewrite fmap_app. }
    rewrite E, (decide_True (P := k ∉ _)), <- app_assoc by done. cbn [app]. do 2 f_equal.
    apply filter_ext_in. intros k' Hk'. rewrite not_elem_of_app, not_elem_of_cons.
    split; [tauto|]. intros H. split; [done|]. split; [by intros ->|apply not_elem_of_nil].
Qed.

(** Merging two tables gives their union: it ends unless there would be more
    than [2 ^ 30] entries, the target's entries stay in front, new ones follow in
    the source's order, a key of both has the source's value if [overwrite] is set
    and keeps its own if not, and the internal pointer is at the first entry. *)
Theorem zend_hash_merge_union target source mt ms overwrite :
  represents junk target mt -> represents junk source ms ->
  Z.of_nat (length (m_list mt)) + nNumUsed source <= 2 ^ 30 ->
  exists target' m', zend_hash_merge target source overwrite = Some target' /\ represents junk target' m' /\
    m_pos m' = fst <$> head (m_list m') /\
    (forall k, a_find k m' =
      if overwrite then prefer (a_find k ms) (a_find k mt) else prefer (a_find k mt) (a_find k ms)) /\
    (m_list m').*1 = (m_list mt).*1 ++ filter (fun k => k ∉ (m_list mt).*1) (m_list ms).*1.
Proof.
  intros Ht (bs & rest & Hs) Hl. pose proof (proj1 Hs) as Hbs. rewrite (r_used _ _ _ _ Hbs) in Hl.
  destruct (merge_loop_ok source bs rest ms overwrite Hs (length bs) 0 target mt) as (t1 & E & Hr1); [lia|done|lia|].
  rewrite drop_0, <- (r_list _ _ _ _ Hbs) in Hr1. set (m1 := foldl _ mt (m_list ms)) in Hr1.
  unfold zend_hash_merge. rewrite (r_used _ _ _ _ Hbs), Nat2Z.id. change (Z.of_nat 0) with 0 in E. rewrite E.
  cbn [mbind option_bind]. destruct Hr1 as (bs1 & rest1 & Hr1).
  assert (Hnd : NoDup (m_list ms).*1) by (rewrite (r_list _ _ _ _ Hbs); apply Hbs).
  eexists _, (a_move (fst <$> head (m_list m1)) m1). split; [done|]. split; [by apply (pointer_first _ bs1 rest1)|].
  split; [done|]. split.
  - intros k. change (a_find k (a_move ?p m1)) with (a_find k m1). unfold m1. by rewrite a_find_merge.
  - change (m_list (a_move ?p m1)) with (m_list m1). by apply merge_keys.
Qed.

(** ** Copying into a table *)

Lemma copy_loop_ok source bs rest ms set_target : repr source bs rest ms -> forall n i target mt,
  (n + i = length bs)%nat -> represents junk target mt ->
  Z.of_nat (length (m_list mt) + n) <= 2 ^ 30 ->
  exists target', copy_loop n set_target (Z.of_nat i) source target = Some target' /\
    represents junk target' (foldl (a_copy_step set_target (m_pos ms)) mt (entries (drop i bs))).
Proof.
  intros Hs. pose proof (pointer_cases junk _ _ _ _ Hs) as Hc. pose proof (proj1 Hs) as Hbs.
  assert (Hptr : forall i b, bs !! i = Some b -> undef b = false ->
    (nInternalPointer source =? Z.of_nat i) = bool_decide (m_pos ms = Some (bkey b))).
  { intros i b Hi Hu. destruct (m_pos ms) as [k|].
    - destruct Hc as (n & b' & v & -> & _ & Hn & Hu' & Hk & _). destruct (decide (n = i)) as [->|Hne].
      + rewrite Hi in Hn. injection Hn as <-. rewrite Z.eqb_refl, bool_decide_true; congruence.
      + rewrite (proj2 (Z.eqb_neq _ _)) by lia. symmetry. apply bool_decide_false. intros [= E].
        apply Hne. apply (keys_unique bs n i b' b (r_nodup _ _ _ _ Hbs)); congruence.
    - rewrite Hc, bool_decide_false by done. apply Z.eqb_neq. pose proof (lookup_lt_Some _ _ _ Hi).
      pose proof (power_bounds _ (r_size _ _ _ _ Hbs)). unfold HT_INVALID_IDX.
      destruct Hs as [_ [_ _ _ _ ->|Hin|Hin]]; [done| |]; pose proof (r_room _ _ _ _ Hbs Hin); lia. }
  induction n as [|n IH]; intros i target mt Hn Hr Hl; cbn [copy_loop].
  { rewrite drop_ge by lia. by exists target. }
  destruct (lookup_lt_is_Some_2 bs i) as [b Hb]; [lia|].
  rewrite (bucket_used junk source bs rest i b), (drop_S bs b) by (done || apply Hs).
  change (b :: drop (S i) bs) with ([b] ++ drop (S i) bs). rewrite entries_app, foldl_app.
  replace (Z.of_nat i + 1) with (Z.of_nat (S i)) by lia. destruct (b_val b) as [v|] eqn:Ev.
  2: { rewrite entries_undef by (unfold undef; by rewrite Ev). cbn [foldl]. apply IH; [lia|done|lia]. }
  assert (Hu : undef b = false) by (unfold undef; by rewrite Ev).
  rewrite (entries_live b v Ev). cbn [foldl]. rewrite (Hptr i b Hb Hu).
  pose proof (r_hash _ _ _ _ Hbs) as Hh. rewrite Forall_lookup in Hh.
  set (t0 := if _ && _ then _ else target).
  set (m0 := if set_target && bool_decide (m_pos ms = Some (bkey b)) then a_move None mt else mt).
  assert (Hr0 : represents junk t0 m0).
  { unfold t0, m0. destruct (set_target && _); [|done]. destruct Hr as (bs0 & rest0 & Hr).
    exists bs0, rest0. by apply move_repr. }
  assert (Hl0 : m_list m0 = m_list mt) by (unfold m0; by destruct (set_target && _)).
  destruct (insert_bucket_ok t0 m0 b v HASH_UPDATE Hr0 Ev (Hh _ _ Hb)) as (t1 & -> & Hr1);
    [done|rewrite Hl0; lia|].
  cbn [mbind option_bind]. apply IH; [lia|exact Hr1|].
  pose proof (add_or_update_length HASH_UPDATE (bkey b) v m0). rewrite Hl0 in *.
  unfold a_copy_step. cbn [fst snd]. fold m0. lia.
Qed.

(** [zend_hash_copy] is a merge that overwrites, but for the internal pointer. *)
Lemma zend_hash_copy_ok target source mt ms : represents junk target mt -> represents junk source ms ->
  Z.of_nat (length (m_list mt)) + nNumUsed source <= 2 ^ 30 ->
  exists target', zend_hash_copy target source = Some target' /\
    let m1 := foldl (a_copy_step (bool_decide (m_pos mt = None)) (m_pos ms)) mt (m_list ms) in
    represents junk target' (a_move (first_if_none (m_list m1) (m_pos m1)) m1).
Proof.
  intros Ht (bs & rest & Hs) Hl. pose proof (proj1 Hs) as Hbs. rewrite (r_used _ _ _ _ Hbs) in Hl.
  destruct (copy_loop_ok source bs rest ms (bool_decide (m_pos mt = None)) Hs (length bs) 0 target mt)
    as (t1 & E & Hr1); [lia|done|lia|].
  rewrite drop_0, <- (r_list _ _ _ _ Hbs) in Hr1.
  assert (Hset : (nInternalPointer target =? HT_INVALID_IDX) = bool_decide (m_pos mt = None)).
  { destruct Ht as (bs0 & rest0 & Ht). pose proof (pointer_cases junk _ _ _ _ Ht) as Hc.
    destruct (m_pos mt); [|by rewrite Hc]. destruct Hc as (n & b & v & -> & Hne & _).
    rewrite bool_decide_false by done. by apply Z.eqb_neq. }
  unfold zend_hash_copy. rewrite (r_used _ _ _ _ Hbs), Nat2Z.id, Hset. change (Z.of_nat 0) with 0 in E. rewrite E.
  eexists. split; [done|]. destruct Hr1 as (bs1 & rest1 & Hr1). exact (default_pointer_repr junk _ _ _ _ Hr1).
Qed.
End Merge.

(** ** Examples *)

Definition other_ops : list op := [OAdd (KIdx 8) 100; ONext 101].

Definition other_table : HashTable Z :=
  match run dirt other_ops sample_new with Some (ht, _) => ht | None => sample_new end.

Lemma other_represents : represents dirt other_table (a_run other_ops a_empty).1.
Proof.
  destruct (run_ok dirt other_ops sample_new a_empty) as (ht & E & H);
    [by apply (init_represents dirt 3)|repeat (constructor; [simpl; lia || done|]); constructor
    |vm_compute; congruence|].
  unfold other_table. by rewrite E.
Qed.

Lemma zend_hash_merge_union_witness : exists ht m,
  zend_hash_merge dirt sample_table other_table false = Some ht /\ represents dirt ht m /\
  a_find (KIdx 8) m = Some 18 /\ a_find (KIdx 9) m = Some 101 /\ m_pos m = Some (KIdx 2).
Proof.
  destruct (zend_hash_merge_union dirt sample_table other_table _ _ false sample_represents other_represents)
    as (ht & m & H1 & H2 & H3 & H4 & H5); [vm_compute; congruence|].
  exists ht, m. split; [exact H1|]. split; [exact H2|].
  split; [rewrite H4; vm_compute; reflexivity|]. split; [rewrite H4; vm_compute; reflexivity|].
  rewrite H3. destruct (m_list m) as [|[k v] l]; [vm_compute in H5; congruence|].
  cbn [head fmap option_fmap option_map fst]. cbn in H5. vm_compute in H5. congruence.
Defined.
